(* ===== verification/_CoqProject ===== *)
-Q . S2P
Prelude.v
GoText.v
Float64.v
DayRange.v
PhoneNum.v
Media.v
Calendar.v
CampaignTypes.v
CallWindow.v
Schedule.v
CampaignPolicy.v
Capacity.v
AgentState.v
AgentService.v
Call.v
BotSlots.v
Lines.v
Events.v
FlowPredicate.v
FlowSpec.v
FlowSlots.v
FlowEngine.v
FlowCollect.v
FlowRuntime.v
CampaignData.v
CampaignStore.v
CampaignLedger.v
Dialer.v
DialerAccount.v
DialerPass.v
DialerWorld.v
FlowCampaign.v
CampaignService.v
CampaignValid.v
CampaignImport.v
Reporter.v
URL.v
FlowHTTP.v
NetIP.v
Egress.v
TelephonyData.v
Registry.v
RegistryFacts.v
LegLife.v
Coordinator.v
CoordinatorFacts.v
CoordinatorSafety.v
CoordinatorMerge.v
CoordinatorHandle.v
CoordinatorProps.v
Seconds.v
CallRecord.v
CallRecordFacts.v
AudioLeg.v
AISession.v
AISessionFacts.v
AISessionProps.v
