(* ===== verification/Prelude.v ===== *)
(** * AI Native Call Center: a verification development

    The program ([cmd/], [internal/]) runs a call centre: calls arrive over
    SIP or are placed by campaigns, a speech model talks to the caller under
    the control of a flow, human agents take over where a person is needed,
    and everything that happens is streamed to the clients that watch. This
    library models the parts of it that decide: the state machines, the
    accounts of shared resources, the policies and the arithmetic. The parts
    that only carry (SIP and RTP bytes, HTTP handlers, SQL) are listed at the
    end.

    ** How a component is modelled

    Each file below holds one Module of the same name: the component's state
    as Records and its data as Inductive types with the source's names, one
    Definition per function or method, and then the theorems about them. A
    definition that translates code is preceded by a comment that names its
    file and symbol in brackets, such as [internal/flow/engine.go:Engine.fire].

    - Integers: a Go [int], [int64] or [time.Duration] is a [Z]; where an
      operation can wrap, the wrap is written ([wrapS], [wrapU] of this file).
      A [float64] is an IEEE double ([Float64.v], on the Standard Library's
      [SpecFloat]).
    - Text: a Go string is a sequence of bytes ([GoText.v]); loops over runes
      decode UTF-8, malformed bytes included.
    - Errors: a function that returns [(T, error)] returns [res E T]; a
      run-time panic is [None] of an option.
    - Maps are stdpp's [gmap]; where the order of a range over a map could be
      seen, the order is an argument or the theorem shows that it is not.
    - Locks and threads: an operation is what runs under the component's lock.
      A component whose operations other threads interleave is an instance of
      the class [Machine] of this file (initial states, allowed operations,
      what each does); a sequence of operations is any interleaving of them,
      and an invariant ([Invariant]) is proved once per operation and then
      holds of every reachable state ([reaches_invariant]). A method that
      takes the lock twice is two operations.
    - What answers from outside (the database, the switch, the clock, the time
      zone database, Go's formatting of numbers) is an argument of the
      definitions or a field of an environment.
    - Loops: by structural recursion where the code's loop has a list to go
      over; [GoText.trim_front] and the few others with fuel are given the
      length of what they consume, each round of which consumes something.
      [CampaignPolicy.wait_loop] runs the code's counted loop as many rounds
      as the code does. [BotSlots.evict] is given one pass per entry.

    ** The files

    Foundations. [Prelude.v] (this file): results, fixed-width integers,
    instants, sorting, counting in a map, machines and invariants, tactics.
    [GoText.v]: Go's strings. [Float64.v]: IEEE doubles. [Calendar.v]: the
    dates and zones of Go's [time] that the schedules read.

    Telephone numbers, [PhoneNum.v] ([internal/phonenum]), and wall-clock
    ranges, [DayRange.v] ([internal/dayrange]): normal forms, what the trunk
    is sent can be read back, ranges as sets of minutes.

    Audio, [Media.v] ([internal/media]): companding and its error bound, the
    down-sampler as a stream function, sample bytes. [companding_min_sample]
    shows that the most negative sample is encoded as silence.

    Campaigns ([internal/campaign]). [CampaignTypes.v]: enumerations, refusals
    and outcomes. [CallWindow.v] and [Schedule.v]: when a contact may be
    dialled; [NextOpen_earliest] specifies the answer by days, minutes and
    offsets alone. [CampaignPolicy.v]: retries and settlements; the number of
    attempts is bounded ([attempts_bounded]) and a retry falls in an open
    window ([Settle_retry_time]). [Capacity.v]: the statistics admission is
    planned with, windows proved against the samples they stand for.

    The campaign tables. [CampaignData.v]: the records of [internal/campaign].
    [CampaignStore.v]: the tables and every statement and transaction on them
    ([internal/store/campaignattempts.go], [campaignstore.go],
    [dialerstore.go], the part of [ledgerstore.go] that ends an attempt, and
    the SQL under [internal/store/queries] those call); a transaction that
    fails leaves the tables as they were. [CampaignLedger.v]: those
    transactions as the operations of one machine, in any order; a call is
    counted once ([counted_once]), a number has one call in flight
    ([one_call_per_number]), no contact is left neither waiting nor in flight
    ([no_contact_lost]), a contact on the do-not-call list stays there
    ([dnc_is_final]), and the record of a call decides whatever was guessed
    before it ([cdr_decides]). [void_forgets_answer] is the order of events in
    which a contact that answered is dialled again.

    The dialer ([internal/dialer]). [Dialer.v]: the actor in a state monad
    over its own fields and the world, which it reaches only through the class
    [Deps]. [DialerAccount.v]: the laws of that class ([DepsLaws]), a small
    program logic for the monad and the account of calls in flight, exact in
    every reachable state ([account_exact]). [DialerPass.v]: a pass keeps the
    limits ([pass_within_limits]), serves the campaign with the fewest calls
    ([pick_fewest]) and ends when what it places is placed ([pass_ends]).
    [DialerWorld.v]: the class implemented by [CampaignStore], with any
    placer and a database that may fail at any call; the dialer and the other
    writers, interleaved, keep the account and the tables
    ([dialer_keeps_tables]); [pass_never_ends] is a pass that does not end.
    The fuel of [admission] counts its rounds; [pass_ends] says how much is
    enough, and [None] is a loop that has not ended.

    The campaign service ([internal/campaign/service.go], [contacts.go],
    [reporter.go]). [FlowCampaign.v] ([internal/flow/campaign.go]): what a
    campaign asks of a flow; two contacts that differ only in names outside
    the vocabulary are treated alike ([UserDataNames_complete]).
    [CampaignService.v]: creating, updating, starting, pausing and ending a
    campaign over the tables; an update respects the field locks
    ([Update_respects_locks]), a form sent back whole is never refused
    ([whole_form_is_accepted]), a campaign starts only when it can dial
    ([Start_checked]); [days_that_print_alike] passes both lock and validator.
    [CampaignValid.v]: the service and every other writer of the tables as one
    machine; stored campaigns stay valid ([campaigns_stay_valid]).
    [CampaignImport.v]: the import of a contact list, where every row is told
    the truth about itself ([import_tells_the_truth]). [Reporter.v]: the
    reports to the supervisors' screens, one operation per stretch between
    two lock operations; no change is lost ([no_change_lost]), none can be
    stuck ([change_can_be_reported]), a report says something new
    ([reports_differ]) and the windows close at least a second apart
    ([windows_are_apart]), though reports can be closer
    ([reports_can_be_close]).

    Agents ([internal/agents]). [AgentState.v]: the presence machine.
    [AgentService.v]: the service over the store and the switch; what it
    promises of every reachable state ([service_invariant]), that a change is
    acknowledged only once recorded ([change_acknowledged]), what a lost and a
    found phone do, and three behaviours its comments do not claim
    ([rollback_loses_update], [Login_unsaved_stays],
    [wrap_up_outlives_sign_out]).

    Calls, [Call.v] ([internal/telephony/call.go], [transfer.go]): the life of
    a leg, its bridges and billed time, queue stays, business data and its
    bounds, the exclusive claim of a transfer.

    The coordinator of calls ([internal/telephony/registry.go],
    [coordinator.go], [waiting.go]). [TelephonyData.v]: switch events, live
    calls, envelopes. [Registry.v]: one actor per call with its mailbox, and
    what each event does to its call; between any two accesses of the thread
    that is modelled, a schedule lets the actors and the requests of other
    goroutines take any steps. [RegistryFacts.v]: the invariant of the
    registry and the relation [evolves] of what others may do meanwhile, under
    the laws [ClosureLaws] of the closures. [Coordinator.v]: the handling of
    one event in a state monad over that world; its closures are an instance
    of [Closures]. [CoordinatorFacts.v] discharges the laws;
    [CoordinatorSafety.v] shows most operations to be [quiet] and follows the
    adoption of a channel; [CoordinatorMerge.v] follows two calls becoming
    one; [CoordinatorHandle.v] puts a whole event together and defines
    [reachable]. [CoordinatorProps.v]: in every interleaving the legs of a
    running call are the channels bound to it ([legs_are_bound]), a call is
    reported once and an absorbed one never ([reported_once]), a bridge leaves
    one call ([one_conversation], [merge_is_complete]) and a minted identity
    is not lost ([minted_kept]); the last hangup ends the call
    ([hangup_ends_call]). What an event may rely on is [timely]: the legs it
    names have not ended before. [roster_names_absorbed_call],
    [envelope_follows_the_call] and [merging_overwrites] are runs the code's
    comments exclude.

    Call records ([internal/telephony/cdr.go]). [Seconds.v]: Go's rounding of
    durations to seconds. [CallRecord.v]: the assembly of a record from the
    snapshot of a finished call, its journey, the check of its durations and
    the writes around it. [CallRecordFacts.v]: the durations of a record fit
    in each other ([durations_fit]), the reason of a missed call is what
    happened ([missed_reason_true]), the journey tells of every leg and stay
    ([journey_is_complete]) and the columns agree ([record_is_consistent]).

    The session of an AI call ([internal/aicall]). [AudioLeg.v]: the framer
    and the clock that paces what the model hears, whose ring is a bounded
    queue; no frame is lost or late beyond its bound ([uplink_keeps_time]).
    [AISession.v]: playback, barge-in, muting, turns and the watcher; each
    goroutine is a list of steps, each under one hold of the lock, and the
    goroutines, the leg and the clock interleave as they like.
    [AISessionFacts.v]: the invariant and the relation [evolves] of what others
    may do meanwhile. [AISessionProps.v]: in every interleaving an interruption
    reports what was heard ([interruption_reports_what_was_heard]), playback is
    done when it is reported done ([playback_done_was_heard]) and dead air is
    silence ([dead_air_was_quiet]); [key_lets_a_chunk_through] and
    [stale_interruption_takes_the_new_turn] are runs the comments exclude.

    Shared resources. [BotSlots.v] ([internal/voice/slots.go], the admission
    of [uas.go]): the bot slots with their reservations, parked legs, timers
    and calls; every slot is accounted for in every interleaving
    ([slots_accounting]) and no parked leg sleeps through a free one
    ([no_missed_wakeup]). [withdraw_race] is the interleaving in which a call
    nobody waits for any more takes a slot. [Lines.v]
    ([internal/outbound/lines.go]): the lines of each number
    ([lines_account], [limit_respected], [rebuild_exact]);
    [sweep_takes_fresh_line] is the interleaving that frees a line in use.

    The event stream, [Events.v] ([internal/events]): numbers given out by any
    number of processes are distinct while the database answers
    ([seq_unique]), a subscriber that is not dropped gets exactly what it
    wants, in order ([stream_complete]), and a client that resumes misses
    nothing ([resume_complete]); [seq_fallback_repeats] and
    [publish_race_loses] show where the two promises end.

    Flows ([internal/flow]). [FlowPredicate.v]: slot values and conditions; a
    loaded condition decides ([loaded_condition_decides]), unless it compares
    collections ([collection_equality_panics]). [FlowSpec.v]: phases, rules
    and the loader's checks of them; [well_formed] is what the engine may rely
    on. [FlowSlots.v]: slot names, references in templates and the loader's
    checks of tools. [FlowEngine.v]: the engine, one operation per method; it
    never panics and never leaves the flow ([call_stays_in_flow]), terminal
    phases are not left, the guards against silence, chatter and loops fire
    exactly when they should. [FlowCollect.v]: the collect lists, where the
    loader's collision check meets the engine ([collect_lists_tell]).
    [FlowRuntime.v]: the dispatch of the model's tool calls; a withheld tool
    never acts ([withheld_tool_never_acts]), a phase's own lead is recorded
    and cannot be overruled ([declared_lead_recorded]).

    Flow tools over HTTP. [URL.v]: the parts of Go's [net/url] the tools use,
    with the laws of escaping. [FlowHTTP.v] ([httptool.go], [httpspec.go],
    [secrets.go] of [internal/flow]): what the model says cannot leave the
    segment or the parameter it is put in ([path_keeps_its_segments],
    [query_arrives_as_rendered]), a request goes to its base
    ([request_goes_to_base]), a secret is seen by the backend alone
    ([secret_stays_in_headers]) and of an answer only the mapped fields come
    through ([answer_shows_only_mapped]).

    The outbound host policy. [NetIP.v]: addresses and prefixes of Go's
    [net/netip]. [Egress.v] ([internal/egress]): every socket goes where the
    policy allows ([dial_reaches_only_allowed]), however an address is written
    ([judged_by_inner_address]), and the list opens what it names
    ([list_opens_only_what_it_names]), except for a port written with zeros in
    front ([padded_port_never_matches]).

    ** What is not modelled

    The SIP, RTP, ESL and websocket protocols and the HTTP interface (bytes to
    and from other programs); the SQL of [internal/store], generated by sqlc
    over a database that is not in the repository; the orchestrator of
    [internal/aicall] and the providers of speech models, which tie the
    modelled parts together with goroutines around network connections; recording, transcription and wrap-up jobs around files and
    external services; configuration, metrics, seeds, simulators and load
    generators; generated code ([internal/api]). Of the campaign tables: times
    are not cut to the microsecond, and an isolation level is not needed since
    every transaction is one step. Of telephony: the quality of the media in a
    call record, the commands of agents to the switch, the reconciliation of the
    waiting line after a reconnect, which runs in a goroutine of its own, and
    the normalization of raw events. A leg that is moved in a merge is copied,
    where the program moves a pointer to it, and the absorbed call's business
    data are those of the moment its legs are read. Of the campaign service: deletion, paging
    and what is added to a campaign when it is read. Of the dialer: the cache of schedules and the metrics; a pass is
    not interrupted by the end of the program; the sum of expected answers
    takes the campaigns in the order of the map's keys, where Go's order is
    any (the sum is a [float64], so the last bit may differ). Of the modelled parts, the
    wording of messages to people, logging and metrics are left out
    throughout. *)

From Stdlib Require Export ZArith Lia Ascii.
From stdpp Require Export sorting pretty gmap strings option base tactics list.

#[global] Open Scope Z_scope.

(** ** Results

    A Go function that returns [(T, error)] is modelled as a function to
    [res E T]: the error type of each component lists the refusals the code
    can tell apart (its sentinel errors, or the kind, field and rule of a
    structured error); the human-readable message of an error is not
    modelled. *)

Inductive res (E A : Type) : Type :=
| Ok (v : A)
| Err (e : E).
Arguments Ok {E A} v.
Arguments Err {E A} e.

#[export] Instance res_ret {E} : MRet (res E) := fun _ => Ok.
#[export] Instance res_bind {E} : MBind (res E) :=
  fun _ _ f r => match r with Ok v => f v | Err e => Err e end.
#[export] Instance res_fmap {E} : FMap (res E) :=
  fun _ _ f r => match r with Ok v => Ok (f v) | Err e => Err e end.

#[export] Instance res_eq_dec {E A} `{EqDecision E, EqDecision A} : EqDecision (res E A).
Proof. solve_decision. Defined.

(** [if bad then return err] in front of the rest of a function. *)
Definition guard_res {E A} (bad : bool) (e : E) (k : res E A) : res E A :=
  if bad then Err e else k.

Definition is_ok {E A} (r : res E A) : bool :=
  match r with Ok _ => true | Err _ => false end.

Lemma bind_Ok_inv {E A B} (r : res E A) (f : A -> res E B) b :
  (r ≫= f) = Ok b -> exists a, r = Ok a /\ f a = Ok b.
Proof. destruct r; simpl; [eauto | discriminate]. Qed.

Lemma guard_res_Ok {E A} bad (e : E) (k : res E A) v :
  guard_res bad e k = Ok v <-> bad = false /\ k = Ok v.
Proof. destruct bad; simpl; intuition congruence. Qed.

(** ** Go's fixed-width integers

    [wrapU w] and [wrapS w] are the values an unsigned and a signed [w]-bit
    Go integer holds: arithmetic modulo [2^w], the signed one in two's
    complement. *)

Definition wrapU (w z : Z) : Z := z mod 2 ^ w.
Definition wrapS (w z : Z) : Z := (z + 2 ^ (w - 1)) mod 2 ^ w - 2 ^ (w - 1).

Lemma wrapU_range w z : 0 <= w -> 0 <= wrapU w z < 2 ^ w.
Proof. intros Hw. unfold wrapU. apply Z.mod_pos_bound, Z.pow_pos_nonneg; lia. Qed.

Lemma wrapU_id w z : 0 <= z < 2 ^ w -> wrapU w z = z.
Proof. intros H. unfold wrapU. by apply Z.mod_small. Qed.

Lemma pow2_half w : 0 < w -> 2 ^ w = 2 * 2 ^ (w - 1).
Proof. intros H. replace w with (Z.succ (w - 1)) at 1 by lia. rewrite Z.pow_succ_r by lia. done. Qed.

Lemma wrapS_range w z : 0 < w -> - 2 ^ (w - 1) <= wrapS w z < 2 ^ (w - 1).
Proof.
  intros Hw. unfold wrapS.
  assert (0 < 2 ^ (w - 1)) by (apply Z.pow_pos_nonneg; lia).
  pose proof (pow2_half w Hw).
  pose proof (Z.mod_pos_bound (z + 2 ^ (w - 1)) (2 ^ w)). lia.
Qed.

Lemma wrapS_id w z : 0 < w -> - 2 ^ (w - 1) <= z < 2 ^ (w - 1) -> wrapS w z = z.
Proof.
  intros Hw Hz. unfold wrapS. pose proof (pow2_half w Hw).
  rewrite Z.mod_small; lia.
Qed.

(** ** Instants

    A [time.Time] is the integer count of nanoseconds since Go's zero time,
    so [0] is [time.Time{}] and [IsZero] is a test against it; a
    [time.Duration] is a count of nanoseconds. *)

Definition instant := Z.
Definition duration := Z.

Definition zero_time : instant := 0.
Definition is_zero (t : instant) : bool := t =? 0.
Definition second : duration := 1000000000.
Definition minute : duration := 60 * second.
Definition hour : duration := 60 * minute.

(** ** Identifiers

    A [uuid.UUID] is a number; [uuid.Nil] is zero. *)

Definition uuid := N.
Bind Scope N_scope with uuid.
Definition uuid_Nil : uuid := 0%N.

(** ** Lists and options *)

(** [slices.Contains]. *)
Definition contains {A} `{EqDecision A} (l : list A) (x : A) : bool := bool_decide (x ∈ l).

Lemma contains_true {A} `{EqDecision A} (l : list A) x : contains l x = true <-> x ∈ l.
Proof. apply bool_decide_eq_true. Qed.

Lemma contains_false {A} `{EqDecision A} (l : list A) x : contains l x = false <-> x ∉ l.
Proof. apply bool_decide_eq_false. Qed.

(** A property checked on every integer of an interval by evaluation. *)
Lemma forallb_seqZ (P : Z -> bool) lo len :
  forallb P (seqZ lo len) = true -> forall z, lo <= z < lo + len -> P z = true.
Proof.
  intros H z Hz. rewrite forallb_forall in H. apply H.
  apply list_elem_of_In, elem_of_seqZ. lia.
Qed.

Lemma existsb_elem {A} (f : A -> bool) l : existsb f l = true <-> exists x, x ∈ l /\ f x = true.
Proof. rewrite existsb_exists. by setoid_rewrite list_elem_of_In. Qed.

Lemma forallb_elem {A} (f : A -> bool) l : forallb f l = true <-> forall x, x ∈ l -> f x = true.
Proof. rewrite forallb_forall. by setoid_rewrite list_elem_of_In. Qed.

(** [min] over a list of times, the zero time meaning none: the shape of the
    code's loops that keep the earliest. *)
Definition earlier (first t : instant) : instant :=
  if is_zero first || (t <? first) then t else first.

Lemma size_list_to_set_le (l : list string) : (size (list_to_set l : gset string) <= length l)%nat.
Proof.
  induction l as [|x l IH]; [by rewrite list_to_set_nil, size_empty|].
  rewrite list_to_set_cons, size_union_alt, size_singleton, length_cons.
  pose proof (subseteq_size ((list_to_set l : gset string) ∖ {[x]}) (list_to_set l) ltac:(set_solver)). lia.
Qed.

Lemma filter_none {A} (P : A -> Prop) `{!forall x, Decision (P x)} (l : list A) :
  (forall x, x ∈ l -> ~ P x) -> filter P l = [].
Proof.
  induction l as [|x l IH]; intros Hl; [done|]. rewrite filter_cons_False by (apply Hl; left).
  apply IH. intros y Hy. apply Hl. by right.
Qed.

Lemma filter_every {A} (P : A -> Prop) `{!forall x, Decision (P x)} (l : list A) :
  (forall x, x ∈ l -> P x) -> filter P l = l.
Proof.
  induction l as [|x l IH]; intros Hl; [done|]. rewrite filter_cons_True by (apply Hl; left).
  f_equal. apply IH. intros y Hy. apply Hl. by right.
Qed.

(** *** Sorting

    [sort_by key] is the stable insertion sort on an integer key: what
    [slices.SortStableFunc] computes, and what [slices.SortFunc] computes on
    the short lists of the code and on any list whose keys are distinct. *)

Section sort_by.
Context {A : Type} (key : A -> Z).

Fixpoint insert_by (x : A) (l : list A) : list A :=
  match l with
  | [] => [x]
  | y :: l' => if key x <=? key y then x :: l else y :: insert_by x l'
  end.

Fixpoint sort_by (l : list A) : list A :=
  match l with
  | [] => []
  | x :: l => insert_by x (sort_by l)
  end.

Definition key_le (x y : A) : Prop := key x <= key y.

Lemma insert_by_perm x l : insert_by x l ≡ₚ x :: l.
Proof.
  induction l as [|y l IH]; simpl; [done|]. destruct (_ <=? _); [done|].
  rewrite IH. constructor.
Qed.

Lemma sort_by_perm l : sort_by l ≡ₚ l.
Proof. induction l as [|x l IH]; simpl; [done|]. rewrite insert_by_perm. by constructor. Qed.

Lemma elem_of_sort_by x l : x ∈ sort_by l <-> x ∈ l.
Proof. by rewrite sort_by_perm. Qed.

Lemma length_sort_by l : length (sort_by l) = length l.
Proof. by rewrite sort_by_perm. Qed.

Lemma insert_by_sorted x l : StronglySorted key_le l -> StronglySorted key_le (insert_by x l).
Proof.
  induction 1 as [|y l Hl IH Hy]; simpl; [repeat constructor|].
  destruct (Z.leb_spec (key x) (key y)).
  - constructor; [by constructor|]. constructor; [done|].
    rewrite Forall_forall in *. intros z Hz. specialize (Hy z Hz). unfold key_le in *. lia.
  - constructor; [done|]. apply Forall_forall. intros z Hz. rewrite insert_by_perm in Hz.
    apply elem_of_cons in Hz as [->|Hz]; [unfold key_le; lia|].
    rewrite Forall_forall in Hy. by apply Hy.
Qed.

Lemma sort_by_sorted l : StronglySorted key_le (sort_by l).
Proof. induction l; simpl; [constructor|]. by apply insert_by_sorted. Qed.

Lemma sort_by_id l : StronglySorted key_le l -> sort_by l = l.
Proof.
  induction 1 as [|x l Hl IH Hx]; simpl; [done|]. rewrite IH. destruct l as [|y l]; simpl; [done|].
  inversion Hx as [|?? Hxy _]; subst. unfold key_le in Hxy.
  destruct (Z.leb_spec (key x) (key y)); [done | lia].
Qed.

Lemma NoDup_sort_by l : NoDup (sort_by l) <-> NoDup l.
Proof. by rewrite sort_by_perm. Qed.

End sort_by.

(** [slices.Sort] of strings: byte order, which [String.leb] is. *)
Definition string_le (a b : string) : Prop := String.leb a b = true.

#[export] Instance string_le_dec a b : Decision (string_le a b).
Proof. unfold string_le. apply _. Defined.

Lemma string_leb_trans a b c : String.leb a b = true -> String.leb b c = true -> String.leb a c = true.
Proof.
  unfold String.leb. revert b c. induction a as [|x a IH]; intros [|y b] [|z c]; simpl; try done.
  unfold Ascii.compare.
  destruct (N.compare_spec (N_of_ascii x) (N_of_ascii y)) as [E1|E1|E1]; try done;
    destruct (N.compare_spec (N_of_ascii y) (N_of_ascii z)) as [E2|E2|E2]; try done;
    destruct (N.compare_spec (N_of_ascii x) (N_of_ascii z)) as [E3|E3|E3]; try done; try lia.
  apply IH.
Qed.

#[export] Instance string_le_trans : Transitive string_le.
Proof. intros a b c. apply string_leb_trans. Qed.

#[export] Instance string_le_total : Total string_le.
Proof. intros a b. apply String.leb_total. Qed.

#[export] Instance string_le_antisymm : AntiSymm eq string_le.
Proof. intros a b. apply String.leb_antisym. Qed.

Definition sort_strings (l : list string) : list string := merge_sort string_le l.

Lemma sort_strings_perm l : sort_strings l ≡ₚ l.
Proof. apply merge_sort_Permutation. Qed.

Lemma elem_of_sort_strings x l : x ∈ sort_strings l <-> x ∈ l.
Proof. by rewrite sort_strings_perm. Qed.

(** Sorting makes the order a map was ranged over irrelevant. *)
Lemma sort_strings_unique l l' : l ≡ₚ l' -> sort_strings l = sort_strings l'.
Proof.
  intros H. apply (Sorted_unique string_le); [apply Sorted_merge_sort, _..|].
  by rewrite !sort_strings_perm.
Qed.

(** *** Counting in a map *)

Section map_count.
Context {K A : Type} `{Countable K} (f : A -> bool).

(** How many entries of [m] satisfy [f]. *)
Definition map_count (m : gmap K A) : Z := Z.of_nat (size (filter (fun kv => f kv.2 = true) m)).

Lemma map_count_empty : map_count ∅ = 0.
Proof. unfold map_count. by rewrite map_filter_empty, map_size_empty. Qed.

Lemma map_count_insert_new m k x : m !! k = None -> map_count (<[k := x]> m) = map_count m + Z.b2z (f x).
Proof.
  intros Hk. unfold map_count. destruct (f x) eqn:Hx; simpl.
  - rewrite map_filter_insert_True by done. rewrite map_size_insert_None; [lia|].
    apply map_lookup_filter_None. by left.
  - rewrite map_filter_insert_False by (simpl; congruence). rewrite delete_id by done. lia.
Qed.

Lemma map_count_delete m k x : m !! k = Some x -> map_count (delete k m) = map_count m - Z.b2z (f x).
Proof.
  intros Hk. rewrite <- (insert_delete_id m k x Hk) at 2.
  rewrite map_count_insert_new by apply lookup_delete_eq. lia.
Qed.

Lemma map_count_insert m k x y : m !! k = Some x ->
  map_count (<[k := y]> m) = map_count m - Z.b2z (f x) + Z.b2z (f y).
Proof.
  intros Hk. rewrite <- insert_delete_eq, map_count_insert_new by apply lookup_delete_eq.
  by rewrite (map_count_delete m k x).
Qed.

Lemma map_count_nonneg m : 0 <= map_count m.
Proof. unfold map_count. lia. Qed.

End map_count.

Lemma map_count_all {K A} `{Countable K} (m : gmap K A) : map_count (fun _ => true) m = Z.of_nat (size m).
Proof. unfold map_count. by rewrite map_filter_id. Qed.

(** ** Components as machines

    A component whose operations other threads may interleave is a machine:
    a state, the operations (one per stretch of code that runs under the
    component's lock) and what each does. [reaches w ops] is the state after
    a sequence of them; an invariant is proved once per operation. *)

Class Machine (W Op : Type) := {
  initial : W -> Prop;
  allowed : Op -> Prop;
  exec : W -> Op -> W
}.

Definition reaches `{Machine W Op} (w : W) (ops : list Op) : W := fold_left exec ops w.

Class Invariant {W Op} `{Machine W Op} (I : W -> Prop) := {
  inv_initial : forall w, initial w -> I w;
  inv_exec : forall w o, I w -> allowed o -> I (exec w o)
}.

Lemma fold_left_inv {A B} (P : A -> Prop) (f : A -> B -> A) l a :
  P a -> (forall a b, P a -> b ∈ l -> P (f a b)) -> P (fold_left f l a).
Proof.
  revert a. induction l as [|b l IH]; intros a Ha Hf; simpl; [done|]. apply IH.
  - apply Hf; [done|]. left.
  - intros. apply Hf; [done|]. by right.
Qed.

Lemma reaches_from {W Op} `{Machine W Op} (I : W -> Prop) `{!Invariant I} w ops :
  I w -> Forall allowed ops -> I (reaches w ops).
Proof.
  intros Hw Ho. unfold reaches. apply (fold_left_inv I); [done|]. intros a b Ha Hb. apply inv_exec; [done|].
  rewrite Forall_forall in Ho. by apply Ho.
Qed.

Lemma reaches_invariant {W Op} `{Machine W Op} (I : W -> Prop) `{!Invariant I} w ops :
  initial w -> Forall allowed ops -> I (reaches w ops).
Proof. intros Hw. apply reaches_from; [done|]. by apply inv_initial. Qed.

Lemma reaches_app {W Op} `{Machine W Op} w (ops1 ops2 : list Op) :
  reaches w (ops1 ++ ops2) = reaches (reaches w ops1) ops2.
Proof. apply fold_left_app. Qed.

(** ** Tactics *)

(** Case analysis on every integer comparison in sight. *)
Ltac zcases :=
  repeat match goal with
  | |- context [Z.leb ?a ?b] => destruct (Z.leb_spec a b)
  | |- context [Z.ltb ?a ?b] => destruct (Z.ltb_spec a b)
  | |- context [Z.eqb ?a ?b] => destruct (Z.eqb_spec a b)
  | H : context [Z.leb ?a ?b] |- _ => destruct (Z.leb_spec a b)
  | H : context [Z.ltb ?a ?b] |- _ => destruct (Z.ltb_spec a b)
  | H : context [Z.eqb ?a ?b] |- _ => destruct (Z.eqb_spec a b)
  end.

(** Turn boolean facts into propositions lia understands. *)
Ltac b2p :=
  repeat match goal with
  | H : negb _ = true |- _ => apply negb_true_iff in H
  | H : negb _ = false |- _ => apply negb_false_iff in H
  | H : (_ && _) = true |- _ => apply andb_true_iff in H; destruct H
  | H : (_ || _) = false |- _ => apply orb_false_iff in H; destruct H
  | H : (_ <=? _) = true |- _ => apply Z.leb_le in H
  | H : (_ <=? _) = false |- _ => apply Z.leb_gt in H
  | H : (_ <? _) = true |- _ => apply Z.ltb_lt in H
  | H : (_ <? _) = false |- _ => apply Z.ltb_ge in H
  | H : (_ =? _) = true |- _ => apply Z.eqb_eq in H
  | H : (_ =? _) = false |- _ => apply Z.eqb_neq in H
  | H : contains _ _ = true |- _ => apply contains_true in H
  | H : contains _ _ = false |- _ => apply contains_false in H
  end.

(** Peel a successful run of guards and binds. *)
Ltac inv_res :=
  repeat match goal with
  | H : Ok _ = Ok _ |- _ => injection H as H; try subst
  | H : Err _ = Ok _ |- _ => discriminate H
  | H : Ok _ = Err _ |- _ => discriminate H
  | H : guard_res _ _ _ = Ok _ |- _ => apply guard_res_Ok in H; destruct H
  | H : (_ ≫= _) = Ok _ |- _ => apply bind_Ok_inv in H; destruct H as (? & ? & ?)
  end.
