(* ===== verification/GoText.v ===== *)
(** * Go strings

    What the modelled code uses of Go's strings: a string is a sequence of
    bytes ([string], one [ascii] per byte), and a [for range] loop or
    [strings.Map] reads it as UTF-8 runes, every byte that is not part of a
    valid encoding being U+FFFD. *)

From S2P Require Import Prelude.

Module GoText.

#[global] Arguments String.append !s1 s2 : simpl nomatch.

Definition rune := Z.

(** The value of a byte. *)
Definition byteZ (c : ascii) : Z := Z.of_N (N_of_ascii c).
Definition byte_of (z : Z) : ascii := ascii_of_N (Z.to_N z).

Definition RuneError : rune := 65533.

Definition in_range (lo hi : Z) (c : ascii) : bool := (lo <=? byteZ c) && (byteZ c <=? hi).
Definition is_cont : ascii -> bool := in_range 128 191.
Definition low6 (c : ascii) : Z := Z.land (byteZ c) 63.

(** The second byte a three- or four-byte sequence may have, by its first. *)
Definition second_ok (b0 : Z) (c1 : ascii) : bool :=
  if b0 =? 224 then in_range 160 191 c1
  else if b0 =? 237 then in_range 128 159 c1
  else if b0 =? 240 then in_range 144 191 c1
  else if b0 =? 244 then in_range 128 143 c1
  else is_cont c1.

(** The runes of a string, as [for _, r := range s] sees them. *)
Fixpoint runes (s : string) : list rune :=
  match s with
  | EmptyString => []
  | String c0 s1 =>
      let b0 := byteZ c0 in
      if b0 <? 128 then b0 :: runes s1
      else if (194 <=? b0) && (b0 <=? 223) then
        match s1 with
        | String c1 s2 =>
            if is_cont c1
            then Z.lor (Z.shiftl (Z.land b0 31) 6) (low6 c1) :: runes s2
            else RuneError :: runes s1
        | _ => RuneError :: runes s1
        end
      else if (224 <=? b0) && (b0 <=? 239) then
        match s1 with
        | String c1 (String c2 s3) =>
            if second_ok b0 c1 && is_cont c2
            then Z.lor (Z.shiftl (Z.land b0 15) 12)
                   (Z.lor (Z.shiftl (low6 c1) 6) (low6 c2)) :: runes s3
            else RuneError :: runes s1
        | _ => RuneError :: runes s1
        end
      else if (240 <=? b0) && (b0 <=? 244) then
        match s1 with
        | String c1 (String c2 (String c3 s4)) =>
            if second_ok b0 c1 && is_cont c2 && is_cont c3
            then Z.lor (Z.shiftl (Z.land b0 7) 18)
                   (Z.lor (Z.shiftl (low6 c1) 12)
                      (Z.lor (Z.shiftl (low6 c2) 6) (low6 c3))) :: runes s4
            else RuneError :: runes s1
        | _ => RuneError :: runes s1
        end
      else RuneError :: runes s1
  end.

Definition str1 (a : Z) : string := String (byte_of a) EmptyString.
Definition top6 (r : rune) (sh : Z) : Z := Z.lor 128 (Z.land (Z.shiftr r sh) 63).

(** [utf8.AppendRune], which [strings.Builder.WriteRune] is. *)
Definition encode_rune (r : rune) : string :=
  let r := if (r <? 0) || (1114111 <? r) || ((55296 <=? r) && (r <=? 57343))
           then RuneError else r in
  if r <? 128 then str1 r
  else if r <? 2048 then (str1 (Z.lor 192 (Z.shiftr r 6)) +:+ str1 (top6 r 0))%string
  else if r <? 65536 then
    (str1 (Z.lor 224 (Z.shiftr r 12)) +:+ str1 (top6 r 6) +:+ str1 (top6 r 0))%string
  else (str1 (Z.lor 240 (Z.shiftr r 18)) +:+ str1 (top6 r 12)
          +:+ str1 (top6 r 6) +:+ str1 (top6 r 0))%string.

Fixpoint utf8 (rs : list rune) : string :=
  match rs with
  | [] => EmptyString
  | r :: rs => (encode_rune r +:+ utf8 rs)%string
  end.

(** [s[n:]]; only used with [n <= len(s)]. *)
Fixpoint drop (n : nat) (s : string) : string :=
  match n, s with
  | S n, String _ s => drop n s
  | _, _ => s
  end.

(** [strings.HasPrefix] and [strings.TrimPrefix]. *)
Definition has_prefix (p s : string) : bool := String.prefix p s.
Definition trim_prefix (p s : string) : string :=
  if has_prefix p s then drop (String.length p) s else s.

Definition byte_digit (c : ascii) : bool := in_range 48 57 c.

Fixpoint all_digits (s : string) : bool :=
  match s with
  | EmptyString => true
  | String c s => byte_digit c && all_digits s
  end.

(** *** [strings.TrimSpace]

    Unicode's white space, byte by byte: the length of the space character at
    the front of a string, and of the one at the front of a reversed string. *)

Definition ascii_space (c : ascii) : bool :=
  let b := byteZ c in ((9 <=? b) && (b <=? 13)) || (b =? 32).

Definition space3 (a b c : Z) : bool :=
  ((a =? 225) && (b =? 154) && (c =? 128))
  || ((a =? 226) && (b =? 128) && (((128 <=? c) && (c <=? 138)) || (c =? 168) || (c =? 169) || (c =? 175)))
  || ((a =? 226) && (b =? 129) && (c =? 159))
  || ((a =? 227) && (b =? 128) && (c =? 128)).

Definition space2 (a b : Z) : bool := (a =? 194) && ((b =? 133) || (b =? 160)).

Definition space_width (rev : bool) (s : string) : nat :=
  match s with
  | String c0 s1 =>
      if ascii_space c0 then 1
      else match s1 with
      | String c1 s2 =>
          if (if rev then space2 (byteZ c1) (byteZ c0) else space2 (byteZ c0) (byteZ c1)) then 2
          else match s2 with
          | String c2 _ =>
              if (if rev then space3 (byteZ c2) (byteZ c1) (byteZ c0)
                  else space3 (byteZ c0) (byteZ c1) (byteZ c2)) then 3 else 0
          | _ => 0
          end
      | _ => 0
      end
  | _ => 0
  end%nat.

Fixpoint trim_front (fuel : nat) (rev : bool) (s : string) : string :=
  match fuel with
  | O => s
  | S fuel => match space_width rev s with O => s | k => trim_front fuel rev (drop k s) end
  end.

Definition rev_string (s : string) : string := String.rev s.

Definition TrimSpace (s : string) : string :=
  let s := trim_front (String.length s) false s in
  rev_string (trim_front (String.length s) true (rev_string s)).

(** [strings.Contains] of a one-byte text, and a [for range] loop that looks
    for an ASCII character. *)
Fixpoint has_byte (b : ascii) (s : string) : bool :=
  match s with
  | EmptyString => false
  | String c s => Ascii.eqb c b || has_byte b s
  end.

(** Every byte below 128. *)
Fixpoint is_ascii (s : string) : bool :=
  match s with
  | EmptyString => true
  | String c s => (byteZ c <? 128) && is_ascii s
  end.

Lemma byte_of_byteZ c : byte_of (byteZ c) = c.
Proof. unfold byte_of, byteZ. by rewrite N2Z.id, ascii_N_embedding. Qed.

Lemma byteZ_range c : 0 <= byteZ c < 256.
Proof. unfold byteZ. pose proof (N_ascii_bounded c). lia. Qed.

Lemma byte_digit_range c : byte_digit c = true -> 48 <= byteZ c <= 57.
Proof. unfold byte_digit, in_range. intros. b2p. lia. Qed.

Lemma all_digits_ascii s : all_digits s = true -> is_ascii s = true.
Proof.
  induction s as [|c s IH]; simpl; [done|]. intros H. b2p.
  rewrite IH by done. apply byte_digit_range in H. zcases; [done|lia].
Qed.

Lemma encode_rune_ascii c : byteZ c < 128 -> encode_rune (byteZ c) = String c EmptyString.
Proof.
  intros H. pose proof (byteZ_range c). unfold encode_rune, str1.
  replace (byteZ c <? 0) with false by (symmetry; apply Z.ltb_ge; lia).
  replace (1114111 <? byteZ c) with false by (symmetry; apply Z.ltb_ge; lia).
  replace (55296 <=? byteZ c) with false by (symmetry; apply Z.leb_gt; lia).
  simpl. replace (byteZ c <? 128) with true by (symmetry; apply Z.ltb_lt; lia).
  by rewrite byte_of_byteZ.
Qed.

Lemma str_app_assoc (a b c : string) : (a +:+ (b +:+ c))%string = ((a +:+ b) +:+ c)%string.
Proof. induction a as [|x a IH]; simpl; [done|]. by rewrite IH. Qed.

Lemma str_app_nil (a : string) : (a +:+ "")%string = a.
Proof. induction a as [|x a IH]; simpl; [done|]. by rewrite IH. Qed.

Lemma str_length_app (a b : string) :
  String.length (a +:+ b)%string = (String.length a + String.length b)%nat.
Proof. induction a as [|x a IH]; simpl; [done|]. by rewrite IH. Qed.

Lemma utf8_app a b : utf8 (a ++ b) = (utf8 a +:+ utf8 b)%string.
Proof.
  induction a as [|r a IH]; simpl; [done|]. rewrite IH. by rewrite str_app_assoc.
Qed.

(** Reading an ASCII string rune by rune visits its bytes. *)
Lemma runes_ascii c s : byteZ c < 128 -> runes (String c s) = byteZ c :: runes s.
Proof. intros H. simpl. by replace (byteZ c <? 128) with true by (symmetry; apply Z.ltb_lt; lia). Qed.

Lemma utf8_runes_ascii s : is_ascii s = true -> utf8 (runes s) = s.
Proof.
  induction s as [|c s IH]; [done|]. intros H. simpl in H. b2p.
  rewrite runes_ascii by done. simpl. by rewrite encode_rune_ascii, IH.
Qed.

Lemma drop_app p s : drop (String.length p) (p +:+ s)%string = s.
Proof. induction p; simpl; auto. Qed.

Lemma has_prefix_spec p s : has_prefix p s = true -> s = (p +:+ drop (String.length p) s)%string.
Proof.
  unfold has_prefix. revert s. induction p as [|c p IH]; intros [|c' s]; simpl; try done.
  destruct (ascii_dec c c'); [subst | done]. intros H. f_equal. by apply IH.
Qed.

Lemma has_prefix_app p s : has_prefix p (p +:+ s)%string = true.
Proof.
  unfold has_prefix. induction p as [|c p IH]; simpl; [by destruct s|].
  by destruct (ascii_dec c c).
Qed.

Lemma all_digits_app a b : all_digits (a +:+ b)%string = all_digits a && all_digits b.
Proof. induction a as [|c a IH]; simpl; [done|]. rewrite IH. by rewrite andb_assoc. Qed.

Lemma all_digits_drop n s : all_digits s = true -> all_digits (drop n s) = true.
Proof.
  revert s. induction n as [|n IH]; intros [|c s]; simpl; try done.
  intros H. b2p. auto.
Qed.

End GoText.
