(* ===== verification/Float64.v ===== *)
(** * IEEE double precision

    Go's [float64], by the Standard Library's executable specification of
    IEEE 754 ([SpecFloat]) at 53 bits of precision, rounding to nearest even.
    Only the operations the modelled code uses are named. *)

From S2P Require Import Prelude.
From Stdlib Require Export SpecFloat.

Module Float64.

Definition f64 := spec_float.

Definition fadd : f64 -> f64 -> f64 := SFadd 53 1024.
Definition fsub : f64 -> f64 -> f64 := SFsub 53 1024.
Definition fmul : f64 -> f64 -> f64 := SFmul 53 1024.
Definition fdiv : f64 -> f64 -> f64 := SFdiv 53 1024.
Definition fsqrt : f64 -> f64 := SFsqrt 53 1024.
Definition flt : f64 -> f64 -> bool := SFltb.
Definition fle : f64 -> f64 -> bool := SFleb.

(** [float64(n)]. *)
Definition of_int (n : Z) : f64 := binary_normalize 53 1024 n 0 false.

Definition f0 : f64 := S754_zero false.
Definition f1 : f64 := of_int 1.

(** [math.Min], for arguments that are not NaN. *)
Definition fmin (a b : f64) : f64 := if flt a b then a else b.

(** [math.Round] as an integer: to nearest, halves away from zero. *)
Definition round_away (x : f64) : Z :=
  match x with
  | S754_finite s m e =>
      let v := if 0 <=? e then Z.pos m * 2 ^ e
               else (Z.pos m + 2 ^ (- e - 1)) / 2 ^ (- e) in
      if s then - v else v
  | _ => 0
  end.

(** [int(x)]: toward zero; what a value with no integer part, or none that
    fits, gives is left to the processor, and is the smallest [int64] on the
    one the program runs on. *)
Definition to_int (x : f64) : Z :=
  match x with
  | S754_zero _ => 0
  | S754_finite s m e =>
      let v := if 0 <=? e then Z.pos m * 2 ^ e else Z.pos m / 2 ^ (- e) in
      let v := if s then - v else v in
      if (- 2 ^ 63 <=? v) && (v <? 2 ^ 63) then v else - 2 ^ 63
  | _ => - 2 ^ 63
  end.

(** ** Small integers are exact *)

Lemma digits2_pos_bounds p : 2 ^ (Z.pos (digits2_pos p) - 1) <= Z.pos p < 2 ^ Z.pos (digits2_pos p).
Proof.
  induction p as [p IH|p IH|]; simpl digits2_pos; [| |simpl; lia].
  - rewrite Pos2Z.inj_succ. replace (Z.succ (Z.pos (digits2_pos p)) - 1) with (Z.succ (Z.pos (digits2_pos p) - 1)) by lia.
    rewrite !Z.pow_succ_r by lia. lia.
  - rewrite Pos2Z.inj_succ. replace (Z.succ (Z.pos (digits2_pos p)) - 1) with (Z.succ (Z.pos (digits2_pos p) - 1)) by lia.
    rewrite !Z.pow_succ_r by lia. lia.
Qed.

Lemma digits2_pos_small p n : Z.pos p < 2 ^ n -> Z.pos (digits2_pos p) <= n.
Proof.
  intros H. pose proof (digits2_pos_bounds p) as [H1 _]. apply Z.lt_pred_le.
  destruct (Z.le_gt_cases 0 n) as [Hn|Hn]; [|rewrite (Z.pow_neg_r 2 n) in H by lia; lia].
  apply (Z.pow_lt_mono_r_iff 2); [lia|lia|]. rewrite <- Z.sub_1_r. lia.
Qed.

Lemma iter_xO_succ p m : Pos.iter xO m (Pos.succ p) = xO (Pos.iter xO m p).
Proof. by rewrite Pos.iter_succ. Qed.

Lemma digits2_pos_iter p m : Z.pos (digits2_pos (Pos.iter xO m p)) = Z.pos (digits2_pos m) + Z.pos p.
Proof.
  induction p as [|p IH] using Pos.peano_ind; [simpl; lia|]. rewrite iter_xO_succ. simpl digits2_pos.
  rewrite Pos2Z.inj_succ, IH. lia.
Qed.

Lemma iter_xO_value p m : Z.pos (Pos.iter xO m p) = Z.pos m * 2 ^ Z.pos p.
Proof.
  induction p as [|p IH] using Pos.peano_ind; [simpl; lia|]. rewrite iter_xO_succ, Pos2Z.inj_xO, IH.
  rewrite Pos2Z.inj_succ, Z.pow_succ_r by lia. lia.
Qed.

Lemma round_exact m e : Z.pos (digits2_pos m) = 53 -> -1074 <= e -> e <= 971 ->
  binary_round_aux 53 1024 false (Z.pos m) e loc_Exact = S754_finite false m e.
Proof.
  intros Hd He1 He2. unfold binary_round_aux.
  assert (Hs : forall k, shr_fexp 53 1024 (Z.pos m) e k = (shr_record_of_loc (Z.pos m) k, e)).
  { intros k. unfold shr_fexp, fexp, emin. simpl Zdigits2. rewrite Hd.
    replace (Z.max (53 + e - 53) (3 - 1024 - 53) - e) with 0 by lia. done. }
  rewrite Hs. simpl shr_m. unfold round_nearest_even. simpl. rewrite Hs. simpl.
  rewrite (proj2 (Z.leb_le _ _)) by lia. done.
Qed.

Lemma to_int_of_int n : 0 <= n < 2 ^ 53 -> to_int (of_int n) = n.
Proof.
  intros Hn. destruct n as [|m|m]; [done| |lia]. unfold of_int, binary_normalize, binary_round.
  pose proof (digits2_pos_small m 53 ltac:(lia)) as Hd. unfold shl_align, fexp, emin.
  replace (Z.max (Z.pos (digits2_pos m) + 0 - 53) (3 - 1024 - 53) - 0) with (Z.pos (digits2_pos m) - 53) by lia.
  replace (Z.max (Z.pos (digits2_pos m) + 0 - 53) (3 - 1024 - 53)) with (Z.pos (digits2_pos m) - 53) by lia.
  destruct (Z.pos (digits2_pos m) - 53) as [|q|q] eqn:E; [|lia|].
  - rewrite round_exact by lia. unfold to_int. rewrite Z.leb_refl. cbv iota zeta.
    rewrite Z.pow_0_r, Z.mul_1_r, (proj2 (Z.leb_le _ _)), (proj2 (Z.ltb_lt _ _)) by lia. done.
  - rewrite round_exact; [|rewrite digits2_pos_iter; lia|lia|lia].
    unfold to_int. rewrite (proj2 (Z.leb_gt 0 (Z.neg q))) by lia. cbv iota zeta. rewrite iter_xO_value.
    replace (- Z.neg q) with (Z.pos q) by lia. rewrite Z.div_mul by lia.
    rewrite (proj2 (Z.leb_le _ _)), (proj2 (Z.ltb_lt _ _)) by lia. done.
Qed.

End Float64.
