(* ===== verification/DayRange.v ===== *)
(** * Wall-clock ranges within a day: [internal/dayrange]

    [Range] is the code's half-open range of minutes since midnight, which
    crosses midnight when its end is below its start. The abstract reading of
    a range is the set of minutes it contains ([Contains]); [Within] and
    [Overlaps] are proved to be inclusion and intersection of those sets, and
    writing a range and reading it back is the identity. *)

From S2P Require Import Prelude.

Module DayRange.

(** [internal/dayrange/dayrange.go:MinutesPerDay] *)
Definition MinutesPerDay : Z := 24 * 60.

(** [internal/dayrange/dayrange.go:Range] *)
Record Range := mkRange { Start : Z; End : Z }.

#[export] Instance Range_eq_dec : EqDecision Range.
Proof. solve_decision. Defined.

(** [internal/dayrange/dayrange.go:ErrFormat] The one refusal of the package. *)
Inductive DayRangeError := ErrFormat.

#[export] Instance DayRangeError_eq_dec : EqDecision DayRangeError.
Proof. solve_decision. Defined.

(** The value of an ASCII digit. *)
Definition digit (c : Ascii.ascii) : option Z :=
  let n := Z.of_N (Ascii.N_of_ascii c) in
  if (48 <=? n) && (n <=? 57) then Some (n - 48) else None.

(** [internal/dayrange/dayrange.go:twoDigits] *)
Definition twoDigits (a b : Ascii.ascii) : option Z :=
  match digit a, digit b with
  | Some x, Some y => Some (x * 10 + y)
  | _, _ => None
  end.

(** [internal/dayrange/dayrange.go:ParseClock] *)
Definition ParseClock (s : string) : res DayRangeError Z :=
  match s with
  | String h1 (String h2 (String c (String m1 (String m2 EmptyString)))) =>
      if Ascii.eqb c ":"%char then
        match twoDigits h1 h2, twoDigits m1 m2 with
        | Some h, Some m =>
            if (23 <? h) || (59 <? m) then Err ErrFormat else Ok (h * 60 + m)
        | _, _ => Err ErrFormat
        end
      else Err ErrFormat
  | _ => Err ErrFormat
  end.

(** [internal/dayrange/dayrange.go:New] *)
Definition New (start stop : string) : res DayRangeError Range :=
  s ← ParseClock start;
  e ← (if String.eqb stop "24:00" then Ok MinutesPerDay else ParseClock stop);
  let e := if (e =? 0) && negb (s =? 0) then MinutesPerDay else e in
  if s =? e then Err ErrFormat else Ok (mkRange s e).

(** [strings.Cut] at the first hyphen. *)
Fixpoint cut_hyphen (s : string) : option (string * string) :=
  match s with
  | EmptyString => None
  | String c s' =>
      if Ascii.eqb c "-"%char then Some (EmptyString, s')
      else match cut_hyphen s' with
           | Some (a, b) => Some (String c a, b)
           | None => None
           end
  end.

(** [internal/dayrange/dayrange.go:Parse] *)
Definition Parse (s : string) : res DayRangeError Range :=
  match cut_hyphen s with
  | Some (start, stop) => New start stop
  | None => Err ErrFormat
  end.

(** The [%02d] verb of [fmt]. *)
Definition pad2 (n : Z) : string :=
  if (0 <=? n) && (n <? 10) then String "0"%char (pretty n) else pretty n.

(** [internal/dayrange/dayrange.go:Format] Go's [/] and [%] truncate. *)
Definition Format (minutes : Z) : string :=
  (pad2 (Z.quot minutes 60) +:+ ":" +:+ pad2 (Z.rem minutes 60))%string.

(** [internal/dayrange/dayrange.go:Range.StartText] *)
Definition StartText (r : Range) : string := Format (Start r).

(** [internal/dayrange/dayrange.go:Range.EndText] *)
Definition EndText (r : Range) : string := Format (End r).

(** [internal/dayrange/dayrange.go:Range.String] *)
Definition RangeString (r : Range) : string := (StartText r +:+ "-" +:+ EndText r)%string.

(** [internal/dayrange/dayrange.go:Range.CrossesMidnight] *)
Definition CrossesMidnight (r : Range) : bool := End r <? Start r.

(** [internal/dayrange/dayrange.go:segment] *)
Record segment := mkSegment { seg_from : Z; seg_to : Z }.

(** [internal/dayrange/dayrange.go:Range.segments] *)
Definition segments (r : Range) : list segment :=
  if CrossesMidnight r
  then [mkSegment (Start r) MinutesPerDay; mkSegment 0 (End r)]
  else [mkSegment (Start r) (End r)].

(** [internal/dayrange/dayrange.go:Range.Within] *)
Definition Within (r outer : Range) : bool :=
  forallb (fun piece =>
    existsb (fun o => (seg_from o <=? seg_from piece) && (seg_to piece <=? seg_to o))
      (segments outer)) (segments r).

(** [internal/dayrange/dayrange.go:Range.Overlaps] *)
Definition Overlaps (r other : Range) : bool :=
  existsb (fun a =>
    existsb (fun b => (seg_from a <? seg_to b) && (seg_from b <? seg_to a))
      (segments other)) (segments r).

(** [internal/dayrange/dayrange.go:Range.Contains] *)
Definition Contains (r : Range) (m : Z) : bool :=
  existsb (fun s => (seg_from s <=? m) && (m <? seg_to s)) (segments r).

(** What the type's comment promises of every range the package builds. *)
Definition range_wf (r : Range) : Prop :=
  0 <= Start r < MinutesPerDay /\ 1 <= End r <= MinutesPerDay /\ Start r <> End r.

(** ** Lemmas *)

(** Open up [segments] and its boolean readers into integer comparisons. *)
Ltac day_cases :=
  unfold Contains, Within, Overlaps, segments, CrossesMidnight, range_wf, MinutesPerDay in *;
  repeat match goal with
  | |- context [if ?a <? ?b then _ else _] => destruct (Z.ltb_spec a b)
  | H : context [if ?a <? ?b then _ else _] |- _ => destruct (Z.ltb_spec a b)
  end; simpl in *.

Lemma Contains_spec r m :
  Contains r m = true <->
  (if CrossesMidnight r
   then Start r <= m < MinutesPerDay \/ 0 <= m < End r
   else Start r <= m < End r).
Proof.
  unfold CrossesMidnight. day_cases; rewrite ?orb_true_iff, ?andb_true_iff, ?Z.leb_le, ?Z.ltb_lt;
    intuition (try discriminate; lia).
Qed.

Lemma Contains_segment r m :
  Contains r m = true <-> exists a, a ∈ segments r /\ seg_from a <= m < seg_to a.
Proof.
  unfold Contains. rewrite existsb_elem.
  by setoid_rewrite andb_true_iff; setoid_rewrite Z.leb_le; setoid_rewrite Z.ltb_lt.
Qed.

Lemma segments_nonempty r a : a ∈ segments r -> range_wf r -> seg_from a < seg_to a.
Proof. day_cases; set_unfold; naive_solver lia. Qed.

Lemma twoDigits_range a b v : twoDigits a b = Some v -> 0 <= v <= 99.
Proof.
  unfold twoDigits, digit. zcases; simpl; intros [=]; lia.
Qed.

Lemma ParseClock_range s m : ParseClock s = Ok m -> 0 <= m < MinutesPerDay.
Proof.
  unfold ParseClock, MinutesPerDay. repeat (case_match; try discriminate).
  intros [=]. b2p.
  repeat match goal with H : twoDigits _ _ = Some _ |- _ => apply twoDigits_range in H end. lia.
Qed.

Lemma Parse_Format_all :
  forallb (fun m => bool_decide (ParseClock (Format m) = Ok m)) (seqZ 0 1440) = true.
Proof. vm_compute. reflexivity. Qed.

Lemma ParseClock_Format m : 0 <= m < MinutesPerDay -> ParseClock (Format m) = Ok m.
Proof.
  intros H. eapply bool_decide_eq_true_1, (forallb_seqZ _ _ _ Parse_Format_all).
  unfold MinutesPerDay in H. lia.
Qed.

Lemma Format_cut_all :
  forallb (fun m => bool_decide (cut_hyphen (Format m) = None)
                    && Bool.eqb (String.eqb (Format m) "24:00") (m =? MinutesPerDay))
    (seqZ 0 1441) = true.
Proof. vm_compute. reflexivity. Qed.

Lemma Format_no_hyphen m : 0 <= m <= MinutesPerDay -> cut_hyphen (Format m) = None.
Proof.
  intros H. pose proof (forallb_seqZ _ _ _ Format_cut_all m) as E.
  unfold MinutesPerDay in *. specialize (E ltac:(lia)). apply andb_true_iff in E as [E _].
  by apply bool_decide_eq_true_1 in E.
Qed.

Lemma Format_midnight m : 0 <= m <= MinutesPerDay ->
  String.eqb (Format m) "24:00" = (m =? MinutesPerDay).
Proof.
  intros H. pose proof (forallb_seqZ _ _ _ Format_cut_all m) as E.
  unfold MinutesPerDay in *. specialize (E ltac:(lia)). apply andb_true_iff in E as [_ E].
  by apply Bool.eqb_prop in E.
Qed.

Lemma cut_hyphen_app a b : cut_hyphen a = None -> cut_hyphen (a +:+ "-" +:+ b) = Some (a, b).
Proof.
  induction a as [|c a IH]; simpl; [done|].
  destruct (Ascii.eqb c "-"%char); [discriminate|].
  destruct (cut_hyphen a) as [[??]|] eqn:E; [discriminate|]. intros _. by rewrite IH.
Qed.

Lemma New_texts r : range_wf r -> New (StartText r) (EndText r) = Ok r.
Proof.
  intros (Hs & He & Hne). unfold New, StartText, EndText.
  rewrite (ParseClock_Format (Start r)) by lia. simpl. rewrite Format_midnight by lia.
  destruct (Z.eqb_spec (End r) MinutesPerDay) as [E|E]; simpl.
  - destruct (Z.eqb_spec (Start r) MinutesPerDay); [lia|]. rewrite <- E. by destruct r.
  - rewrite ParseClock_Format by lia. simpl.
    replace (End r =? 0) with false by (symmetry; apply Z.eqb_neq; lia). simpl.
    destruct (Z.eqb_spec (Start r) (End r)); [lia|]. by destruct r.
Qed.

Lemma New_ok_wf (start stop : string) (r : Range) (H : New start stop = Ok r) : range_wf r.
Proof.
  unfold New in H. apply bind_Ok_inv in H as (st & Hs & H).
  apply bind_Ok_inv in H as (e & He & H). apply ParseClock_range in Hs.
  assert (0 <= e <= MinutesPerDay) as Hb.
  { destruct (String.eqb stop "24:00"); inv_res; [unfold MinutesPerDay; lia|].
    apply ParseClock_range in He. lia. }
  clear He. unfold range_wf, MinutesPerDay in *.
  destruct (Z.eqb_spec e 0), (Z.eqb_spec st 0); simpl in H; zcases; inv_res; simpl; lia.
Qed.

Lemma Within_spec (r outer : Range) (Hr : range_wf r) (Ho : range_wf outer) :
  Within r outer = true <-> forall m, Contains r m = true -> Contains outer m = true.
Proof.
  split.
  - intros H m. rewrite !Contains_spec. revert H. unfold CrossesMidnight in *.
    day_cases; rewrite ?andb_true_iff, ?orb_true_iff, ?andb_true_iff, ?Z.leb_le;
      intuition (try discriminate; lia).
  - intros H. setoid_rewrite Contains_spec in H. unfold CrossesMidnight in *.
    pose proof (H (Start r)) as H1. pose proof (H (End r - 1)) as H2.
    pose proof (H 0) as H3. pose proof (H (MinutesPerDay - 1)) as H4.
    pose proof (H (Start outer - 1)) as H5. pose proof (H (End outer)) as H6. clear H.
    day_cases; rewrite ?andb_true_iff, ?orb_true_iff, ?andb_true_iff, ?Z.leb_le; lia.
Qed.

Lemma Overlaps_spec (r other : Range) (Hr : range_wf r) (Ho : range_wf other) :
  Overlaps r other = true <-> exists m, Contains r m = true /\ Contains other m = true.
Proof.
  setoid_rewrite Contains_segment. unfold Overlaps. rewrite existsb_elem.
  setoid_rewrite existsb_elem. setoid_rewrite andb_true_iff. setoid_rewrite Z.ltb_lt. split.
  - intros (a & Ha & b & Hb & H). exists (Z.max (seg_from a) (seg_from b)).
    apply segments_nonempty in Ha as ?, Hb as ?; try done.
    split; [exists a | exists b]; split; try done; lia.
  - intros (m & (a & Ha & Ham) & (b & Hb & Hbm)).
    exists a. split; [done|]. exists b. split; [done|]. lia.
Qed.

(** ** Properties *)

(** every range [New] accepts is well formed: start in 0..1439, end in
    1..1440 and never equal to the start. *)
Theorem New_wf (start stop : string) (r : Range) (H : New start stop = Ok r) : range_wf r.
Proof. by eapply New_ok_wf. Qed.

(** [Within] is inclusion: [r] is within [outer] exactly when every
    minute of [r] is a minute of [outer], midnight crossings included. *)
Theorem Within_iff (r outer : Range) (Hr : range_wf r) (Ho : range_wf outer) :
  Within r outer = true <-> forall m, Contains r m = true -> Contains outer m = true.
Proof. by apply Within_spec. Qed.

(** [Overlaps] is intersection: two ranges overlap exactly when some
    minute lies in both. *)
Theorem Overlaps_iff (r other : Range) (Hr : range_wf r) (Ho : range_wf other) :
  Overlaps r other = true <-> exists m, Contains r m = true /\ Contains other m = true.
Proof. by apply Overlaps_spec. Qed.

(** writing a range as text and parsing it back gives the same range. *)
Theorem Parse_String (r : Range) (H : range_wf r) : Parse (RangeString r) = Ok r.
Proof.
  unfold Parse, RangeString. pose proof H as (Hs & He & _).
  rewrite cut_hyphen_app; [by apply New_texts|].
  apply Format_no_hyphen. unfold MinutesPerDay in *; lia.
Qed.

Lemma New_wf_witness :
  New "22:00" "00:00" = Ok (mkRange 1320 1440) /\ range_wf (mkRange 1320 1440).
Proof.
  split; [vm_compute; reflexivity|].
  apply (New_wf "22:00" "00:00" (mkRange 1320 1440)). vm_compute. reflexivity.
Defined.

Lemma Within_iff_witness :
  (Within (mkRange 1320 120) (mkRange 1200 240) = true <->
   forall m, Contains (mkRange 1320 120) m = true -> Contains (mkRange 1200 240) m = true) /\
  Within (mkRange 1320 120) (mkRange 1200 240) = true /\
  Within (mkRange 1320 120) (mkRange 480 1260) = false.
Proof.
  split; [apply (Within_iff (mkRange 1320 120) (mkRange 1200 240)); unfold range_wf, MinutesPerDay; simpl; lia|].
  split; vm_compute; reflexivity.
Defined.

Lemma Overlaps_iff_witness :
  (Overlaps (mkRange 1320 120) (mkRange 60 180) = true <->
   exists m, Contains (mkRange 1320 120) m = true /\ Contains (mkRange 60 180) m = true) /\
  Overlaps (mkRange 1320 120) (mkRange 60 180) = true.
Proof.
  split; [apply (Overlaps_iff (mkRange 1320 120) (mkRange 60 180)); unfold range_wf, MinutesPerDay; simpl; lia|].
  vm_compute; reflexivity.
Defined.

Lemma Parse_String_witness : Parse (RangeString (mkRange 1320 1440)) = Ok (mkRange 1320 1440).
Proof. apply (Parse_String (mkRange 1320 1440)). unfold range_wf, MinutesPerDay; simpl; lia. Defined.

End DayRange.
