(* ===== verification/PhoneNum.v ===== *)
(** * Telephone numbers: [internal/phonenum]

    [Canonical] turns typed text into canonical E.164, [DialString] writes a
    canonical number the way a trunk wants it and [Callback] checks a number
    the speech model wrote down. The specification of all three is one
    predicate, [IsCanonical], and the texts the trunk receives. *)

From S2P Require Import Prelude GoText.

Module PhoneNum.
Import GoText.

(** [internal/phonenum/phonenum.go:const(NumberEmpty)] The values of [Reason]. *)
Inductive Reason := NumberEmpty | NumberInvalid.

#[export] Instance Reason_eq_dec : EqDecision Reason.
Proof. solve_decision. Defined.

(** [internal/phonenum/phonenum.go:const(minTail)] *)
Definition minTail : nat := 7.

(** [internal/phonenum/phonenum.go:const(minTail)] *)
Definition maxTail : nat := 14.

(** The characters [Canonical] drops: space, dash, dot and round brackets. *)
Definition is_separator (r : rune) : bool := contains [32; 45; 46; 40; 41] r.

Definition plus : string := "+".

(** [internal/phonenum/phonenum.go:IsCanonical] *)
Definition IsCanonical (s : string) : bool :=
  if (String.length s <? 2 + minTail)%nat || (2 + maxTail <? String.length s)%nat then false
  else match s with
       | String c0 (String c1 rest) =>
           if negb (Ascii.eqb c0 "+"%char) then false
           else if (byteZ c1 <? 49) || (57 <? byteZ c1) then false
           else all_digits rest
       | _ => false
       end.

(** [internal/phonenum/phonenum.go:isCanonical] The second copy of the test. *)
Definition isCanonical (s : string) : bool :=
  if (String.length s <? 1 + 1 + minTail)%nat || (1 + 1 + maxTail <? String.length s)%nat then false
  else match s with
       | String c0 (String c1 rest) =>
           if negb (Ascii.eqb c0 "+"%char) || (byteZ c1 =? 48) then false
           else all_digits (String c1 rest)
       | _ => false
       end.

(** What is left of the input once separators are removed. *)
Definition strip (raw : string) : string :=
  utf8 (List.filter (fun r => negb (is_separator r)) (runes raw)).

(** [internal/phonenum/phonenum.go:Canonical] *)
Definition Canonical (raw defaultCountryCode : string) : res Reason string :=
  let s := strip raw in
  if String.eqb s "" then Err NumberEmpty
  else
    s ← (if has_prefix "+" s then Ok s
         else if has_prefix "00" s then Ok (plus +:+ drop 2 s)%string
         else if String.eqb defaultCountryCode "" then Err NumberInvalid
         else Ok (plus +:+ defaultCountryCode +:+ trim_prefix "0" s)%string);
    if IsCanonical s then Ok s else Err NumberInvalid.

(** [internal/phonenum/phonenum.go:DialForm] [FormOther] is any other text:
    the code treats an unknown form as E.164. *)
Inductive DialForm := FormE164 | FormE164NoPlus | FormNational | FormOther (s : string).

#[export] Instance DialForm_eq_dec : EqDecision DialForm.
Proof. solve_decision. Defined.

(** [internal/phonenum/phonenum.go:ParseDialForm] *)
Definition ParseDialForm (s : string) : option DialForm :=
  if String.eqb s "" then Some FormE164
  else if String.eqb s "E164" then Some FormE164
  else if String.eqb s "E164_NO_PLUS" then Some FormE164NoPlus
  else if String.eqb s "NATIONAL" then Some FormNational
  else None.

(** [internal/phonenum/phonenum.go:DialString] *)
Definition DialString (e164 : string) (form : DialForm) (countryCode : string) : string * bool :=
  if negb (isCanonical e164) then (e164, false)
  else match form with
       | FormE164NoPlus => (drop 1 e164, true)
       | FormNational =>
           let prefix := (plus +:+ countryCode)%string in
           if String.eqb countryCode "" || negb (has_prefix prefix e164)
              || (String.length e164 =? String.length prefix)%nat
           then (e164, false)
           else (drop (String.length prefix) e164, true)
       | _ => (e164, true)
       end.

(** The separators [callbackCharacters] removes: the ASCII ones, the
    ideographic space, full-width brackets, the em dash and the full-width
    hyphen. *)
Definition is_callback_separator (r : rune) : bool :=
  contains [32; 12288; 45; 46; 40; 41; 65288; 65289; 8212; 65293] r.

(** Full-width digits and plus become ASCII. *)
Definition narrow (r : rune) : rune :=
  if (65296 <=? r) && (r <=? 65305) then 48 + (r - 65296)
  else if r =? 65291 then 43 else r.

(** The loop of [callbackCharacters], [b] being what the builder holds. *)
Fixpoint callback_loop (rs : list rune) (b : string) : option string :=
  match rs with
  | [] => Some b
  | r :: rs =>
      let r := narrow r in
      if is_callback_separator r then callback_loop rs b
      else if ((48 <=? r) && (r <=? 57)) || ((r =? 43) && (String.length b =? 0)%nat)
      then callback_loop rs (b +:+ encode_rune r)%string
      else None
  end.

(** [internal/phonenum/phonenum.go:callbackCharacters] *)
Definition callbackCharacters (raw : string) : option string :=
  match callback_loop (runes raw) EmptyString with
  | Some s => if String.eqb s "" || String.eqb s "+" then None else Some s
  | None => None
  end.

(** [internal/phonenum/phonenum.go:isAllDigits] *)
Definition isAllDigits (s : string) : bool :=
  if String.eqb s "" then false else all_digits s.

(** [internal/phonenum/phonenum.go:isChineseMobile] *)
Definition isChineseMobile (s : string) : bool :=
  (String.length s =? 11)%nat &&
  match s with
  | String c0 (String c1 _) => Ascii.eqb c0 "1"%char && in_range 51 57 c1
  | _ => false
  end.

(** [internal/phonenum/phonenum.go:isChineseLandline] *)
Definition isChineseLandline (s : string) : bool :=
  if (String.length s <? 9)%nat || (11 <? String.length s)%nat then false
  else match s with
       | String c0 (String c1 _) =>
           in_range 50 57 c0 || (Ascii.eqb c0 "1"%char && Ascii.eqb c1 "0"%char)
       | _ => false
       end.

(** [internal/phonenum/phonenum.go:domesticNumber] *)
Definition domesticNumber (digits countryCode : string) (isAfterCode : bool)
  : option (string * string) :=
  if negb (isAllDigits digits) then None
  else if negb (String.eqb countryCode "86") then
    if (String.length digits <? 7)%nat || (15 <? String.length digits)%nat then None
    else if isAfterCode then Some (digits, digits)
    else Some (digits, trim_prefix "0" digits)
  else if isChineseMobile digits then Some (digits, digits)
  else if negb isAfterCode && has_prefix "0" digits && isChineseLandline (drop 1 digits)
  then Some (digits, drop 1 digits)
  else if isAfterCode && isChineseLandline digits
  then Some (("0" +:+ digits)%string, digits)
  else None.

(** [internal/phonenum/phonenum.go:domesticCallback] *)
Definition domesticCallback (national nsn countryCode : string) (form : DialForm) : option string :=
  if bool_decide (form = FormNational) || String.eqb countryCode "" then Some national
  else
    let e164 := (plus +:+ countryCode +:+ nsn)%string in
    if IsCanonical e164 then Some (fst (DialString e164 form countryCode)) else None.

(** The domestic reading of [digits], or none. *)
Definition domestic (digits countryCode : string) (isAfterCode : bool) (form : DialForm)
  : option string :=
  match domesticNumber digits countryCode isAfterCode with
  | Some (national, nsn) => domesticCallback national nsn countryCode form
  | None => None
  end.

(** The tail of [Callback] for a number given with "+" or "00". *)
Definition callback_international (international countryCode : string) (form : DialForm)
  : option string :=
  if negb (String.eqb countryCode "") && has_prefix countryCode international
  then domestic (drop (String.length countryCode) international) countryCode true form
  else
    let e164 := (plus +:+ international)%string in
    if IsCanonical e164 then Some (fst (DialString e164 form countryCode)) else None.

(** [internal/phonenum/phonenum.go:Callback] The third case of the switch
    falls through to the national reading when what follows the country code
    is not a plausible number. *)
Definition Callback (raw countryCode : string) (form : DialForm) : option string :=
  match callbackCharacters raw with
  | None => None
  | Some s =>
      if has_prefix "+" s then callback_international (drop 1 s) countryCode form
      else if has_prefix "00" s then callback_international (drop 2 s) countryCode form
      else if negb (String.eqb countryCode "") && has_prefix countryCode s
              && bool_decide (is_Some (domesticNumber (drop (String.length countryCode) s)
                                         countryCode true))
      then domestic (drop (String.length countryCode) s) countryCode true form
      else domestic s countryCode false form
  end.

(** What a trunk can be asked to dial: digits, after at most one plus. *)
Definition dialable (s : string) : bool :=
  match s with
  | EmptyString => false
  | String c rest =>
      if Ascii.eqb c "+"%char then isAllDigits rest else all_digits s
  end.

(** ** Lemmas *)

Lemma isCanonical_split s :
  IsCanonical s = true <->
  (9 <= String.length s <= 16)%nat /\
  exists c1 rest, s = String "+"%char (String c1 rest) /\ 49 <= byteZ c1 <= 57 /\ all_digits rest = true.
Proof.
  unfold IsCanonical, minTail, maxTail. split.
  - destruct (_ || _) eqn:E; [discriminate|]. apply orb_false_iff in E as [E1 E2].
    apply Nat.ltb_ge in E1, E2. destruct s as [|c0 [|c1 rest]]; try discriminate.
    destruct (Ascii.eqb_spec c0 "+"%char); [subst; simpl | discriminate].
    destruct (_ || _) eqn:E; [discriminate|]. intros. b2p.
    split; [simpl in *; lia|]. exists c1, rest. repeat split; auto; lia.
  - intros (Hl & c1 & rest & -> & Hc & Hd).
    replace (_ || _) with false
      by (symmetry; apply orb_false_iff; rewrite !Nat.ltb_ge; lia).
    simpl. replace (_ || _) with false; [done|].
    symmetry. apply orb_false_iff; rewrite !Z.ltb_ge; lia.
Qed.

Lemma IsCanonical_ascii s : IsCanonical s = true -> is_ascii s = true.
Proof.
  intros (_ & c1 & rest & -> & Hc & Hd)%isCanonical_split. simpl.
  rewrite all_digits_ascii by done. by replace (byteZ c1 <? 128) with true by (symmetry; apply Z.ltb_lt; lia).
Qed.

Lemma digit_not_separator r : 48 <= r <= 57 -> is_separator r = false.
Proof.
  intros H. apply contains_false. set_unfold. lia.
Qed.

Lemma strip_digits s : all_digits s = true -> strip s = s.
Proof.
  unfold strip. induction s as [|c s IH]; [done|]. intros H. simpl in H. b2p.
  apply byte_digit_range in H. rewrite runes_ascii by lia. simpl.
  rewrite digit_not_separator by done. simpl. rewrite encode_rune_ascii by lia.
  by rewrite IH.
Qed.

Lemma strip_canonical s : IsCanonical s = true -> strip s = s.
Proof.
  intros (_ & c1 & rest & -> & Hc & Hd)%isCanonical_split.
  assert (all_digits (String c1 rest) = true) as Hd1.
  { simpl. rewrite Hd. unfold byte_digit, in_range. by zcases; simpl; try lia. }
  change (strip (String "+"%char (String c1 rest)))
    with ("+" +:+ strip (String c1 rest))%string.
  by rewrite strip_digits.
Qed.

Lemma isCanonical_IsCanonical s : isCanonical s = IsCanonical s.
Proof.
  unfold isCanonical, IsCanonical. simpl (1 + 1 + _)%nat. simpl (2 + _)%nat.
  destruct (_ || _); [done|]. destruct s as [|c0 [|c1 rest]]; try done.
  simpl. destruct (Ascii.eqb c0 "+"%char); simpl; [|done].
  unfold byte_digit, in_range. destruct (all_digits rest); zcases; simpl; try done; lia.
Qed.

Lemma DialString_text e164 form cc :
  IsCanonical e164 = true ->
  let '(out, ok) := DialString e164 form cc in
  (ok = false -> out = e164) /\
  (ok = true -> out = e164 \/ (plus +:+ out)%string = e164
                \/ (plus +:+ cc +:+ out)%string = e164 /\ out <> EmptyString).
Proof.
  intros H. unfold DialString. rewrite isCanonical_IsCanonical, H.
  change (negb true) with false. cbn iota.
  pose proof H as (_ & c1 & rest & -> & _)%isCanonical_split.
  destruct form; try (split; intros; [done|by left]).
  - split; [done|]. intros _. right. by left.
  - destruct (_ || _) eqn:E; [split; intros; done|]. split; [done|]. intros _. right. right. b2p.
    apply has_prefix_spec in H2. rewrite <- str_app_assoc in H2. split; [by symmetry|].
    intros E0. apply Nat.eqb_neq in H1. apply H1. rewrite E0 in H2.
    by rewrite H2, !str_app_assoc, str_app_nil.
Qed.

Lemma callback_loop_digits rs b s :
  callback_loop rs b = Some s ->
  exists t, s = (b +:+ t)%string /\
    (all_digits t = true \/ b = EmptyString /\ exists t', t = String "+"%char t' /\ all_digits t' = true).
Proof.
  revert b. induction rs as [|r rs IH]; intros b; cbn [callback_loop].
  { intros [= <-]. exists EmptyString. by rewrite str_app_nil; auto. }
  generalize (narrow r) as r'. intros r'. destruct (is_callback_separator r'); [apply IH|].
  destruct ((48 <=? r') && (r' <=? 57)) eqn:E1; simpl.
  - intros (t & -> & Ht)%IH. b2p.
    assert (encode_rune r' = String (byte_of r') EmptyString /\ byte_digit (byte_of r') = true) as [Er Hd].
    { assert (r' ∈ seqZ 48 10) as Hin by (apply elem_of_seqZ; lia).
      revert Hin. generalize r'. clear. intros r H. vm_compute in H.
      repeat (apply elem_of_cons in H as [->|H]; [by vm_compute|]). by apply elem_of_nil in H. }
    rewrite Er in *. exists (String (byte_of r') t). split; [by rewrite <- str_app_assoc|]. left. simpl. rewrite Hd.
    destruct Ht as [->|[Hb _]]; [done|]. exfalso. destruct b; simpl in Hb; discriminate Hb.
  - destruct ((r' =? 43) && (String.length b =? 0)%nat) eqn:E2; [|done]. b2p.
    apply Nat.eqb_eq in H0. destruct b; [|done]. rewrite H.
    intros (t & -> & Ht)%IH. exists (String "+"%char t). split; [done|]. right. split; [done|].
    exists t. split; [done|]. destruct Ht as [?|[[=] _]]; done.
Qed.

Lemma callbackCharacters_digits raw s :
  callbackCharacters raw = Some s -> dialable s = true.
Proof.
  unfold callbackCharacters. destruct (callback_loop _ _) as [s'|] eqn:E; [|discriminate].
  destruct (String.eqb_spec s' ""), (String.eqb_spec s' "+"); simpl; try discriminate. intros [= <-].
  apply callback_loop_digits in E as (t & -> & Ht). simpl in *. unfold dialable.
  destruct Ht as [Ht|(_ & t' & -> & Ht')].
  - destruct t as [|c t]; [done|]. simpl in Ht. b2p.
    destruct (Ascii.eqb_spec c "+"%char); [subst; discriminate|]. simpl. by rewrite H, H0.
  - simpl. unfold isAllDigits. destruct (String.eqb_spec t' ""); [by subst|done].
Qed.

Lemma all_digits_dialable s : all_digits s = true -> s <> EmptyString -> dialable s = true.
Proof.
  destruct s as [|c s]; [done|]. intros H _. unfold dialable. destruct (Ascii.eqb_spec c "+"%char); [|done].
  subst. discriminate.
Qed.

Lemma IsCanonical_dialable s : IsCanonical s = true -> dialable s = true.
Proof.
  intros (_ & c1 & rest & -> & Hc & Hd)%isCanonical_split. unfold dialable, isAllDigits. simpl.
  unfold byte_digit, in_range. rewrite Hd. by zcases; simpl; try lia.
Qed.

Lemma isAllDigits_inv s : isAllDigits s = true -> all_digits s = true /\ s <> EmptyString.
Proof. unfold isAllDigits. destruct (String.eqb_spec s ""); naive_solver. Qed.

(** What a successful domestic reading gives: digits for the trunk, or a
    canonical number written by [DialString]. *)
Lemma domesticNumber_digits digits cc b national nsn :
  domesticNumber digits cc b = Some (national, nsn) ->
  all_digits national = true /\ national <> EmptyString.
Proof.
  unfold domesticNumber. destruct (isAllDigits digits) eqn:E; simpl; [|discriminate].
  apply isAllDigits_inv in E as [Hd Hne].
  repeat case_match; intros; simplify_eq; auto; split; try done.
Qed.

Lemma DialString_dialable e164 form cc :
  IsCanonical e164 = true -> dialable (fst (DialString e164 form cc)) = true.
Proof.
  intros H. pose proof (DialString_text e164 form cc H) as Ht.
  pose proof (IsCanonical_dialable _ H) as Hd.
  destruct (DialString e164 form cc) as [out []]; simpl in *; destruct Ht as [Hf Ht].
  2: by rewrite Hf.
  destruct (Ht eq_refl) as [->|[E|[E Hne]]]; [done| |].
  - subst e164. simpl in Hd. apply isAllDigits_inv in Hd as [? ?]. by apply all_digits_dialable.
  - subst e164. simpl in Hd. apply isAllDigits_inv in Hd as [Hdg _]. rewrite all_digits_app in Hdg.
    b2p. by apply all_digits_dialable.
Qed.

Lemma domestic_dialable digits cc b form s :
  domestic digits cc b form = Some s -> dialable s = true.
Proof.
  unfold domestic. destruct (domesticNumber digits cc b) as [[nat nsn]|] eqn:E; [|discriminate].
  apply domesticNumber_digits in E as [Hd Hne]. unfold domesticCallback.
  destruct (_ || _); [intros [= <-]; by apply all_digits_dialable|].
  destruct (IsCanonical _) eqn:Ec; [|discriminate]. intros [= <-]. by apply DialString_dialable.
Qed.

Lemma DialString_e164 e164 cc : IsCanonical e164 = true -> fst (DialString e164 FormE164 cc) = e164.
Proof. intros H. unfold DialString. by rewrite isCanonical_IsCanonical, H. Qed.

Lemma domestic_e164 digits cc b s :
  cc <> EmptyString -> domestic digits cc b FormE164 = Some s -> IsCanonical s = true.
Proof.
  intros Hcc. unfold domestic. destruct (domesticNumber digits cc b) as [[nat nsn]|]; [|discriminate].
  unfold domesticCallback. rewrite bool_decide_eq_false_2 by done.
  destruct (String.eqb_spec cc ""); [done|]. simpl.
  destruct (IsCanonical _) eqn:E; [|discriminate]. intros Hs. apply Some_inj in Hs. subst s.
  by rewrite DialString_e164.
Qed.

(** ** Properties *)

(** a number [Canonical] accepts is canonical, and [Canonical] leaves a
    canonical number as it is, whatever the country code: the importer, the
    do-not-call list and the dialer compare one spelling. *)
Theorem Canonical_normal_form (raw cc : string) :
  (forall s, Canonical raw cc = Ok s ->
     IsCanonical s = true /\ forall cc', Canonical s cc' = Ok s) /\
  (IsCanonical raw = true -> Canonical raw cc = Ok raw).
Proof.
  assert (Hfix : forall s c, IsCanonical s = true -> Canonical s c = Ok s).
  { intros s c H. unfold Canonical. rewrite strip_canonical by done.
    pose proof H as (_ & c1 & rest & E & _)%isCanonical_split.
    destruct (String.eqb_spec s ""); [by subst|].
    replace (has_prefix "+" s) with true by (subst; by destruct rest). simpl. by rewrite H. }
  split; [|apply Hfix]. intros s. unfold Canonical.
  destruct (String.eqb _ ""); [discriminate|].
  intros (t & _ & H)%bind_Ok_inv. destruct (IsCanonical t) eqn:E; [|discriminate].
  injection H as <-. split; [done|]. intros cc'. by apply Hfix.
Qed.

(** the two copies of the canonical test, the exported one the callers use
    and the private one [DialString] uses, agree on every string. *)
Theorem canonical_tests_agree (s : string) : isCanonical s = IsCanonical s.
Proof. apply isCanonical_IsCanonical. Qed.

(** [DialString] never loses the number: when it reports that the form was
    applied, the text it wrote is the number itself, the number without its
    plus, or the number without its plus and country code, so the canonical
    number can be rebuilt from it; when it reports that the form was not
    applied it wrote the number unchanged. *)
Theorem DialString_invertible (e164 cc : string) (form : DialForm) (H : IsCanonical e164 = true) :
  let '(out, ok) := DialString e164 form cc in
  (ok = false -> out = e164) /\
  (ok = true -> out = e164 \/ (plus +:+ out)%string = e164
                \/ (plus +:+ cc +:+ out)%string = e164 /\ out <> EmptyString).
Proof. by apply DialString_text. Qed.

(** whatever the speech model wrote down, a callback number [Callback]
    accepts can be dialled: it is digits after at most one plus; and under the
    E.164 form with a country code it is canonical. *)
Theorem Callback_dialable (raw cc : string) (form : DialForm) (s : string)
    (H : Callback raw cc form = Some s) :
  dialable s = true /\ (form = FormE164 -> cc <> EmptyString -> IsCanonical s = true).
Proof.
  assert (Hi : forall i, callback_international i cc form = Some s ->
    dialable s = true /\ (form = FormE164 -> cc <> EmptyString -> IsCanonical s = true)).
  { intros i. unfold callback_international. destruct (_ && _).
    - intros Hd. split; [by eapply domestic_dialable|]. intros -> ?. by eapply domestic_e164.
    - destruct (IsCanonical _) eqn:E; [|discriminate]. intros [= <-].
      split; [by apply DialString_dialable|]. intros -> _. by rewrite DialString_e164. }
  unfold Callback in H. destruct (callbackCharacters raw); [|discriminate].
  destruct (has_prefix "+" s0); [by eapply Hi|]. destruct (has_prefix "00" s0); [by eapply Hi|].
  assert (exists d b, domestic d cc b form = Some s) as (d & b & Hd) by (destruct (_ && _); eauto).
  split; [by eapply domestic_dialable|]. intros -> ?. by eapply domestic_e164.
Qed.

Lemma Canonical_normal_form_witness :
  Canonical "138 0013-8000" "86" = Ok "+8613800138000"%string /\
  IsCanonical "+8613800138000" = true /\
  (forall cc', Canonical "+8613800138000" cc' = Ok "+8613800138000"%string).
Proof.
  split; [vm_compute; reflexivity|].
  apply (proj1 (Canonical_normal_form "138 0013-8000" "86")). vm_compute. reflexivity.
Defined.

Lemma DialString_invertible_witness :
  DialString "+8613800138000" FormNational "86" = ("13800138000"%string, true) /\
  (let '(out, ok) := DialString "+8613800138000" FormNational "86" in
   (ok = false -> out = "+8613800138000"%string) /\
   (ok = true -> out = "+8613800138000"%string \/ (plus +:+ out)%string = "+8613800138000"%string
     \/ (plus +:+ "86" +:+ out)%string = "+8613800138000"%string /\ out <> EmptyString)).
Proof.
  split; [vm_compute; reflexivity|].
  apply (DialString_invertible "+8613800138000" "86" FormNational). vm_compute. reflexivity.
Defined.

Lemma Callback_dialable_witness :
  Callback "1 3800-138000" "86" FormE164 = Some "+8613800138000"%string /\
  dialable "+8613800138000" = true /\
  (FormE164 = FormE164 -> "86"%string <> EmptyString -> IsCanonical "+8613800138000" = true).
Proof.
  split; [vm_compute; reflexivity|].
  apply (Callback_dialable "1 3800-138000" "86" FormE164). vm_compute. reflexivity.
Defined.

End PhoneNum.
