(* ===== verification/Media.v ===== *)
(** * Audio: [internal/media]

    G.711 companding ([g711.go]), linear samples as bytes and the decimating
    filter ([resample.go]), and the format converter's set-up ([format.go]).
    A sample is an [int16] held as a [Z] in [-32768, 32767]; a byte is a [Z]
    in [0, 255]; the companding algorithms compute on [int16] with its
    wrap-around. *)

From S2P Require Import Prelude Float64.

Module Media.
Import Float64.

(** [internal/media/g711.go:Law] *)
Inductive Law := LawMu | LawAlaw.

#[export] Instance Law_eq_dec : EqDecision Law.
Proof. solve_decision. Defined.

Definition int16 : Z -> Z := wrapS 16.
Definition uint16 : Z -> Z := wrapU 16.
Definition byte8 : Z -> Z := wrapU 8.

(** [internal/media/g711.go:Law.String] *)
Definition Law_String (l : Law) : string :=
  match l with LawAlaw => "PCMA" | LawMu => "PCMU" end.

(** [internal/media/g711.go:Law.PayloadType] *)
Definition PayloadType (l : Law) : Z := match l with LawAlaw => 8 | LawMu => 0 end.

(** [internal/media/g711.go:Law.Silence] *)
Definition Silence (l : Law) : Z := match l with LawAlaw => 0xD5 | LawMu => 0xFF end.

(** [internal/media/g711.go:const(muBias)] *)
Definition muBias : Z := 0x84.

(** [internal/media/g711.go:const(muBias)] *)
Definition muClip : Z := 32635.

(** [internal/media/g711.go:var(muExponent)] The table, by its runs. *)
Definition muExponent : list Z :=
  replicate 2 0 ++ replicate 2 1 ++ replicate 4 2 ++ replicate 8 3 ++ replicate 16 4
  ++ replicate 32 5 ++ replicate 64 6 ++ replicate 128 7.

(** [internal/media/g711.go:var(alawExponent)] The table, by its runs. *)
Definition alawExponent : list Z :=
  replicate 2 1 ++ replicate 2 2 ++ replicate 4 3 ++ replicate 8 4
  ++ replicate 16 5 ++ replicate 32 6 ++ replicate 64 7.

(** Reading a table; the indices the code forms are always inside it. *)
Definition tab (t : list Z) (i : Z) : Z := t !!! Z.to_nat i.

(** [internal/media/g711.go:linearToMuLaw] *)
Definition linearToMuLaw (sample : Z) : Z :=
  let sign := Z.land (Z.shiftr sample 8) 0x80 in
  let sample := if negb (sign =? 0) then int16 (- sample) else sample in
  let sample := if muClip <? sample then muClip else sample in
  let sample := int16 (sample + muBias) in
  let exponent := tab muExponent (Z.land (Z.shiftr sample 7) 0xFF) in
  let mantissa := Z.land (Z.shiftr sample (exponent + 3)) 0x0F in
  byte8 (Z.lnot (Z.lor (Z.lor sign (Z.shiftl exponent 4)) mantissa)).

(** [internal/media/g711.go:muLawToLinear] *)
Definition muLawToLinear (u : Z) : Z :=
  let u := byte8 (Z.lnot u) in
  let sign := Z.land u 0x80 in
  let exponent := Z.land (Z.shiftr u 4) 0x07 in
  let mantissa := Z.land u 0x0F in
  let sample := Z.shiftl (Z.shiftl mantissa 3 + muBias) exponent in
  let sample := sample - muBias in
  if negb (sign =? 0) then int16 (- sample) else int16 sample.

(** [internal/media/g711.go:linearToALaw] *)
Definition linearToALaw (sample : Z) : Z :=
  let sign := Z.land (Z.shiftr (Z.lnot sample) 8) 0x80 in
  let sample := if sign =? 0 then int16 (- sample) else sample in
  let sample := if 32635 <? sample then 32635 else sample in
  let compressed :=
    if 256 <=? sample then
      let exponent := tab alawExponent (Z.land (Z.shiftr sample 8) 0x7F) in
      let mantissa := Z.land (Z.shiftr sample (exponent + 3)) 0x0F in
      byte8 (Z.lor (Z.shiftl exponent 4) mantissa)
    else byte8 (Z.shiftr sample 4) in
  Z.lxor (Z.lxor compressed (byte8 sign)) 0x55.

(** [internal/media/g711.go:aLawToLinear] *)
Definition aLawToLinear (a : Z) : Z :=
  let a := Z.lxor a 0x55 in
  let sign := Z.land a 0x80 in
  let exponent := Z.shiftr (Z.land a 0x70) 4 in
  let mantissa := Z.land a 0x0F in
  let sample := Z.shiftl mantissa 4 in
  let sample :=
    if exponent =? 0 then sample + 8
    else if exponent =? 1 then sample + 0x108
    else Z.shiftl (sample + 0x108) (exponent - 1) in
  if sign =? 0 then int16 (- sample) else int16 sample.

(** [internal/media/g711.go:init] The tables are the functions they are built
    from, indexed by [uint16(sample)] or by the byte. *)
Definition muEncode (i : Z) : Z := linearToMuLaw (int16 i).
Definition muDecode (i : Z) : Z := muLawToLinear i.
Definition alawEncode (i : Z) : Z := linearToALaw (int16 i).
Definition alawDecode (i : Z) : Z := aLawToLinear i.
Definition muToAlaw (i : Z) : Z := alawEncode (uint16 (muDecode i)).
Definition alawToMu (i : Z) : Z := muEncode (uint16 (alawDecode i)).

(** [internal/media/g711.go:Law.Encode] *)
Definition Encode (l : Law) (samples : list Z) : list Z :=
  match l with
  | LawAlaw => (fun s => alawEncode (uint16 s)) <$> samples
  | LawMu => (fun s => muEncode (uint16 s)) <$> samples
  end.

(** [internal/media/g711.go:Law.Decode] *)
Definition Decode (l : Law) (encoded : list Z) : list Z :=
  match l with
  | LawAlaw => alawDecode <$> encoded
  | LawMu => muDecode <$> encoded
  end.

(** [internal/media/g711.go:Transcode] *)
Definition Transcode (encoded : list Z) (from to : Law) : list Z :=
  if decide (from = to) then encoded
  else match from with
       | LawAlaw => alawToMu <$> encoded
       | LawMu => muToAlaw <$> encoded
       end.

(** [internal/media/resample.go:BytesToPCM16] A trailing odd byte is dropped. *)
Fixpoint BytesToPCM16 (src : list Z) : list Z :=
  match src with
  | lo :: hi :: rest => Z.lor (int16 lo) (int16 (Z.shiftl (int16 hi) 8)) :: BytesToPCM16 rest
  | _ => []
  end.

(** [internal/media/resample.go:PCM16ToBytes] *)
Definition PCM16ToBytes (src : list Z) : list Z :=
  src ≫= fun s => [byte8 s; byte8 (Z.shiftr s 8)].

(** [internal/media/format.go:Encoding] *)
Inductive Encoding := EncodingPCM16 | EncodingMuLaw | EncodingALaw.

#[export] Instance Encoding_eq_dec : EqDecision Encoding.
Proof. solve_decision. Defined.

(** [internal/media/format.go:Encoding.law] *)
Definition law (e : Encoding) : option Law :=
  match e with
  | EncodingMuLaw => Some LawMu
  | EncodingALaw => Some LawAlaw
  | EncodingPCM16 => None
  end.

(** [internal/media/format.go:AudioFormat] *)
Record AudioFormat := mkFormat { Enc : Encoding; RateHz : Z }.

#[export] Instance AudioFormat_eq_dec : EqDecision AudioFormat.
Proof. solve_decision. Defined.

(** [internal/media/resample.go:const(RateTelephone)] *)
Definition RateTelephone : Z := 8000.

(** [internal/media/resample.go:FrameSamples] *)
Definition FrameSamples : Z := Z.quot RateTelephone 50.

(** [internal/media/format.go:G711Format] *)
Definition G711Format (l : Law) : AudioFormat :=
  match l with
  | LawAlaw => mkFormat EncodingALaw RateTelephone
  | LawMu => mkFormat EncodingMuLaw RateTelephone
  end.

(** [internal/media/format.go:PCM16Format] *)
Definition PCM16Format (rateHz : Z) : AudioFormat := mkFormat EncodingPCM16 rateHz.

(** [internal/media/resample.go:clamp16] *)
Definition clamp16 (v : f64) : Z :=
  if flt (of_int 32767) v then 32767
  else if flt v (of_int (-32768)) then -32768
  else int16 (round_away v).

(** The interpolated samples between one sample and the next. *)
Definition upsample_step (factor : nat) (current next : Z) : list Z :=
  let c := of_int current in
  let step := fdiv (fsub (of_int next) c) (of_int (Z.of_nat factor)) in
  (fun f => clamp16 (fadd c (fmul step (of_int (Z.of_nat f))))) <$> seq 0 factor.

Fixpoint upsample_loop (factor : nat) (src : list Z) : list Z :=
  match src with
  | [] => []
  | [last] => replicate factor last
  | current :: (next :: _) as rest => upsample_step factor current next ++ upsample_loop factor rest
  end.

(** [internal/media/resample.go:Upsample] *)
Definition Upsample (src : list Z) (factor : Z) : list Z :=
  if factor <=? 1 then src else upsample_loop (Z.to_nat factor) src.

(** [internal/media/resample.go:Downsampler] The buffer reused across calls
    holds no information between them and is not part of the state. *)
Record Downsampler := mkDown {
  factor : nat;
  taps : list f64;
  history : list f64;
  next : nat
}.

(** [internal/media/resample.go:NewDownsampler] [coefficients n] stands for
    the normalised windowed sinc of [n] taps, which is computed with
    [math.Sin] and [math.Cos]. *)
Definition NewDownsampler (coefficients : nat -> list f64) (fac tapCount : Z) : Downsampler :=
  let fac := if fac <? 1 then 1 else fac in
  let tapCount := if tapCount <? 8 then 8 else tapCount in
  let tapCount := if Z.rem tapCount 2 =? 0 then tapCount + 1 else tapCount in
  let n := Z.to_nat tapCount in
  mkDown (Z.to_nat fac) (coefficients n) (replicate (n - 1) f0) (n - 1).

(** One output sample: the filter laid over the window ending at [i]. *)
Fixpoint filter_at (taps : list f64) (window : list f64) (i : nat) (acc : f64) : f64 :=
  match taps with
  | [] => acc
  | tap :: taps =>
      filter_at taps window (i - 1) (fadd acc (fmul tap (default f0 (window !! i))))
  end.

(** The decimation loop: an output at [i], then every [factor] samples, until
    the window is used up. It returns the outputs and the index it stopped at.
    [fuel] is the length of the window. *)
Fixpoint decimate (fuel : nat) (d : Downsampler) (window : list f64) (i : nat) : list Z * nat :=
  if (i <? length window)%nat then
    match fuel with
    | O => ([], i)
    | S fuel =>
        let '(out, stop) := decimate fuel d window (i + factor d) in
        (clamp16 (filter_at (taps d) window i f0) :: out, stop)
    end
  else ([], i).

(** [internal/media/resample.go:Downsampler.Process] *)
Definition Process (d : Downsampler) (src : list Z) : Downsampler * list Z :=
  if (factor d =? 1)%nat then (d, src)
  else
    let window := history d ++ (of_int <$> src) in
    let '(dst, i) := decimate (length window) d window (next d) in
    let keep := Nat.min (length (taps d) - 1) (length window) in
    let consumed := (length window - keep)%nat in
    (mkDown (factor d) (taps d) (list.drop consumed window) (i - consumed), dst).

(** [internal/media/resample.go:Downsampler.Reset] *)
Definition Reset (d : Downsampler) : Downsampler :=
  mkDown (factor d) (taps d) (replicate (length (taps d) - 1) f0) (length (taps d) - 1).

(** [internal/media/format.go:Converter] The scratch buffers are not state. *)
Record Converter := mkConv {
  from : AudioFormat;
  to : AudioFormat;
  upFactor : Z;
  downFactor : Z;
  down : option Downsampler
}.

(** The two refusals of [NewConverter]. *)
Inductive ConvError := RateNotPositive | NotIntegerMultiple.

(** [internal/media/format.go:NewConverter] *)
Definition NewConverter (coefficients : nat -> list f64) (f t : AudioFormat) : res ConvError Converter :=
  if (RateHz f <=? 0) || (RateHz t <=? 0) then Err RateNotPositive
  else if RateHz f =? RateHz t then Ok (mkConv f t 0 0 None)
  else if RateHz f <? RateHz t then
    if negb (Z.rem (RateHz t) (RateHz f) =? 0) then Err NotIntegerMultiple
    else Ok (mkConv f t (Z.quot (RateHz t) (RateHz f)) 0 None)
  else
    if negb (Z.rem (RateHz f) (RateHz t) =? 0) then Err NotIntegerMultiple
    else let k := Z.quot (RateHz f) (RateHz t) in
         Ok (mkConv f t 0 k (Some (NewDownsampler coefficients k 32))).

(** [internal/media/format.go:Converter.IsPassthrough] *)
Definition IsPassthrough (c : Converter) : bool := bool_decide (from c = to c).

(** The resampling stage of [Convert]. *)
Definition convert_rate (c : Converter) (samples : list Z) : Converter * list Z :=
  if 1 <? upFactor c then (c, Upsample samples (upFactor c))
  else if 1 <? downFactor c then
    match down c with
    | Some d => let '(d', out) := Process d samples in
                (mkConv (from c) (to c) (upFactor c) (downFactor c) (Some d'), out)
    | None => (c, samples)
    end
  else (c, samples).

(** [internal/media/format.go:Converter.Convert] *)
Definition Convert (c : Converter) (src : list Z) : Converter * list Z :=
  if IsPassthrough c then (c, src)
  else
    match law (Enc (from c)), law (Enc (to c)), (upFactor c =? 0) && (downFactor c =? 0) with
    | Some fl, Some tl, true => (c, Transcode src fl tl)
    | fl, tl, _ =>
        let samples := match fl with Some l => Decode l src | None => BytesToPCM16 src end in
        let '(c', samples) := convert_rate c samples in
        (c', match tl with Some l => Encode l samples | None => PCM16ToBytes samples end)
    end.

(** [internal/media/format.go:Converter.Reset] *)
Definition Converter_Reset (c : Converter) : Converter :=
  mkConv (from c) (to c) (upFactor c) (downFactor c) (Reset <$> down c).

(** ** Lemmas *)

(** A fact about every byte, by evaluation. *)
Lemma for_bytes (P : Z -> bool) : forallb P (seqZ 0 256) = true -> forall b, 0 <= b < 256 -> P b = true.
Proof. intros H b Hb. eapply forallb_seqZ; [done | lia]. Qed.

(** A fact about every exponent and mantissa, by evaluation. *)
Lemma for_nibbles (P : Z -> Z -> bool) :
  forallb (fun i => P (i / 16) (i mod 16)) (seqZ 0 128) = true ->
  forall e m, 0 <= e < 8 -> 0 <= m < 16 -> P e m = true.
Proof.
  intros H e m He Hm. pose proof (forallb_seqZ _ _ _ H (16 * e + m) ltac:(lia)) as Hb.
  cbv beta in Hb.
  replace ((16 * e + m) / 16) with e in Hb by (rewrite Z.mul_comm, Z.div_add_l, Z.div_small; lia).
  by replace ((16 * e + m) mod 16) with m in Hb
    by (rewrite Z.add_comm, Z.mul_comm, Z.mod_add, Z.mod_small; lia).
Qed.

(** [2^k <= x < 2^(k+1)] for one of the eight segments of a law. *)
Lemma segment_of x lo : 0 <= lo -> 2 ^ lo <= x < 2 ^ (lo + 8) ->
  exists e, 0 <= e <= 7 /\ 2 ^ (lo + e) <= x < 2 ^ (lo + e + 1).
Proof.
  intros Hlo H. exists (Z.log2 x - lo).
  assert (0 < x) by (pose proof (Z.pow_pos_nonneg 2 lo); lia).
  pose proof (Z.log2_spec x ltac:(done)) as Hl.
  assert (lo <= Z.log2 x < lo + 8).
  { split; [apply Z.log2_le_pow2; lia | apply Z.log2_lt_pow2; lia]. }
  replace (lo + (Z.log2 x - lo)) with (Z.log2 x) by lia.
  rewrite <- Z.add_1_r in Hl. lia.
Qed.

Lemma sign_bit s : -32768 <= s < 32768 ->
  Z.land (Z.shiftr s 8) 0x80 = if s <? 0 then 0x80 else 0.
Proof.
  intros H. rewrite Z.shiftr_div_pow2 by lia. change (2 ^ 8) with 256.
  assert (Hq : -128 <= s / 256 < 128)
    by (split; [apply Z.div_le_lower_bound | apply Z.div_lt_upper_bound]; lia).
  assert (Hs : (s <? 0) = (s / 256 <? 0)).
  { pose proof (Z.div_mod s 256). pose proof (Z.mod_pos_bound s 256).
    destruct (Z.ltb_spec s 0), (Z.ltb_spec (s / 256) 0); try done; lia. }
  rewrite Hs. revert Hq. generalize (s / 256). clear. intros q Hq.
  assert (E : forallb (fun q => Z.land q 0x80 =? if q <? 0 then 0x80 else 0) (seqZ (-128) 256) = true)
    by (vm_compute; reflexivity).
  apply Z.eqb_eq. eapply (forallb_seqZ _ _ _ E). lia.
Qed.

Lemma muExponent_spec i e : 0 <= e <= 7 -> 2 ^ e <= i < 2 ^ (e + 1) -> tab muExponent i = e.
Proof.
  intros He Hi.
  assert (E : forallb (fun i => (i =? 0) || (tab muExponent i =? Z.log2 i)) (seqZ 0 256) = true)
    by (vm_compute; reflexivity).
  assert (0 < 2 ^ e) by (apply Z.pow_pos_nonneg; lia).
  assert (2 ^ (e + 1) <= 2 ^ 8) by (apply Z.pow_le_mono_r; lia).
  pose proof (for_bytes _ E i ltac:(lia)) as Hb. apply orb_true_iff in Hb as [Hb|Hb]; b2p; [lia|].
  rewrite Hb. apply Z.log2_unique; [lia|]. by rewrite <- Z.add_1_r.
Qed.

Lemma alawExponent_spec i e : 1 <= e <= 7 -> 2 ^ (e - 1) <= i < 2 ^ e -> tab alawExponent i = e.
Proof.
  intros He Hi.
  assert (E : forallb (fun i => (i =? 0) || (tab alawExponent i =? Z.log2 i + 1)) (seqZ 0 128) = true)
    by (vm_compute; reflexivity).
  assert (0 < 2 ^ (e - 1)) by (apply Z.pow_pos_nonneg; lia).
  assert (2 ^ e <= 2 ^ 7) by (apply Z.pow_le_mono_r; lia).
  pose proof (forallb_seqZ _ _ _ E i ltac:(lia)) as Hb. apply orb_true_iff in Hb as [Hb|Hb]; b2p; [lia|].
  rewrite Hb. replace e with (e - 1 + 1) at 1 by lia. f_equal. apply Z.log2_unique; [lia|].
  by replace (Z.succ (e - 1)) with e by lia.
Qed.

(** The packed byte and what unpacking it gives. *)
Definition mu_byte (sign e m : Z) : Z := byte8 (Z.lnot (Z.lor (Z.lor sign (Z.shiftl e 4)) m)).
Definition mu_value (neg : bool) (e m : Z) : Z :=
  let v := (8 * m + 132) * 2 ^ e - 132 in if neg then - v else v.

Lemma muLawToLinear_byte (neg : bool) e m : 0 <= e < 8 -> 0 <= m < 16 ->
  muLawToLinear (mu_byte (if neg then 0x80 else 0) e m) = mu_value neg e m.
Proof.
  intros He Hm. apply Z.eqb_eq. revert e m He Hm. destruct neg;
    refine (for_nibbles (fun e m => muLawToLinear (mu_byte _ e m) =? mu_value _ e m) _);
    vm_compute; reflexivity.
Qed.

(** Quantising a magnitude [x] of segment [e] in steps of [2^(e+3)] and
    reading back the middle of the step. *)
Lemma quantise x e : 0 <= e <= 7 -> 2 ^ (7 + e) <= x < 2 ^ (7 + e + 1) ->
  let m := Z.land (Z.shiftr x (e + 3)) 0x0F in
  0 <= m < 16 /\ Z.abs ((8 * m + 132) * 2 ^ e - x) <= 4 * 2 ^ e.
Proof.
  intros He Hx m. assert (Hm : m = x / 2 ^ (e + 3) mod 16).
  { unfold m. rewrite Z.shiftr_div_pow2 by lia. by change 0x0F with (Z.ones 4); rewrite Z.land_ones. }
  assert (Hp : 2 ^ (e + 3) = 8 * 2 ^ e) by (rewrite Z.pow_add_r by lia; lia).
  assert (H7 : 2 ^ (7 + e) = 128 * 2 ^ e) by (rewrite Z.pow_add_r by lia; lia).
  assert (H8 : 2 ^ (7 + e + 1) = 256 * 2 ^ e) by (rewrite !Z.pow_add_r by lia; lia).
  rewrite H7, H8 in Hx. rewrite Hp in Hm. assert (0 < 2 ^ e) by (apply Z.pow_pos_nonneg; lia).
  revert Hm Hx. generalize dependent (2 ^ e). intros p Hp H7 H8 Hpos Hm Hx.
  assert (Hq : 16 <= x / (8 * p) < 32)
    by (split; [apply Z.div_le_lower_bound | apply Z.div_lt_upper_bound]; lia).
  assert (Hm' : m = x / (8 * p) - 16).
  { rewrite Hm. replace (x / (8 * p)) with (x / (8 * p) - 16 + 1 * 16) at 1 by lia.
    rewrite Z.mod_add by lia. apply Z.mod_small. lia. }
  pose proof (Z.div_mod x (8 * p) ltac:(lia)) as Hd. pose proof (Z.mod_pos_bound x (8 * p) ltac:(lia)).
  split; [lia|]. rewrite Hm'. nia.
Qed.

(** The magnitude and the segment the mu-law encoder works on. *)
Lemma linearToMuLaw_form s : -32767 <= s <= 32767 ->
  let x := Z.min (Z.abs s) 32635 + 132 in
  exists e, 0 <= e <= 7 /\ 2 ^ (7 + e) <= x < 2 ^ (7 + e + 1) /\
    linearToMuLaw s = mu_byte (if s <? 0 then 0x80 else 0) e (Z.land (Z.shiftr x (e + 3)) 0x0F).
Proof.
  intros Hs x. destruct (segment_of x 7) as (e & He & Hx); [lia | unfold x; lia |].
  exists e. split; [done|]. split; [done|]. unfold linearToMuLaw. rewrite sign_bit by lia.
  replace (if negb ((if s <? 0 then 128 else 0) =? 0) then int16 (- s) else s) with (Z.abs s).
  2: { destruct (Z.ltb_spec s 0); simpl; [|lia]. unfold int16. rewrite wrapS_id; lia. }
  replace (if muClip <? Z.abs s then muClip else Z.abs s) with (Z.min (Z.abs s) 32635)
    by (unfold muClip; zcases; lia).
  replace (int16 (Z.min (Z.abs s) 32635 + muBias)) with x
    by (unfold int16, muBias; rewrite wrapS_id; unfold x; lia).
  replace (tab muExponent (Z.land (Z.shiftr x 7) 255)) with e; [done|].
  symmetry. apply muExponent_spec; [done|]. rewrite Z.shiftr_div_pow2 by lia.
  change 255 with (Z.ones 8). rewrite Z.land_ones by lia. rewrite !Z.pow_add_r in * by lia.
  rewrite Z.mod_small; split; try (apply Z.div_pos; lia);
    first [apply Z.div_le_lower_bound | apply Z.div_lt_upper_bound]; try lia.
Qed.

Definition a_byte (neg : bool) (c : Z) : Z := Z.lxor (Z.lxor c (if neg then 0 else 0x80)) 0x55.
Definition a_value (neg : bool) (e m : Z) : Z :=
  let v := if e =? 0 then 16 * m + 8 else (8 * m + 132) * 2 ^ e in if neg then - v else v.

Lemma aLawToLinear_byte (neg : bool) e m : 0 <= e < 8 -> 0 <= m < 16 ->
  aLawToLinear (a_byte neg (16 * e + m)) = a_value neg e m.
Proof.
  intros He Hm. apply Z.eqb_eq. revert e m He Hm. destruct neg;
    refine (for_nibbles (fun e m => aLawToLinear (a_byte _ (16 * e + m)) =? a_value _ e m) _);
    vm_compute; reflexivity.
Qed.

(** The A-law encoder packs the segment and the mantissa of the magnitude. *)
Lemma pack_nibbles e m : 0 <= e < 8 -> 0 <= m < 16 -> byte8 (Z.lor (Z.shiftl e 4) m) = 16 * e + m.
Proof.
  intros He Hm. apply Z.eqb_eq. revert e m He Hm.
  refine (for_nibbles (fun e m => byte8 (Z.lor (Z.shiftl e 4) m) =? 16 * e + m) _).
  vm_compute. reflexivity.
Qed.

Lemma linearToALaw_form s : -32767 <= s <= 32767 ->
  let x := Z.min (Z.abs s) 32635 in
  exists e m, 0 <= e <= 7 /\ 0 <= m < 16 /\ linearToALaw s = a_byte (s <? 0) (16 * e + m) /\
    (e = 0 /\ x < 256 /\ m = x / 16 \/
     1 <= e /\ 2 ^ (7 + e) <= x < 2 ^ (7 + e + 1) /\ m = Z.land (Z.shiftr x (e + 3)) 0x0F).
Proof.
  intros Hs x. assert (Hsign : Z.land (Z.shiftr (Z.lnot s) 8) 0x80 = if s <? 0 then 0 else 0x80).
  { rewrite sign_bit by (unfold Z.lnot; lia). unfold Z.lnot. zcases; try done; lia. }
  assert (Hx : (let sample := if (if s <? 0 then 0 else 0x80) =? 0 then int16 (- s) else s in
                if 32635 <? sample then 32635 else sample) = x).
  { unfold x, int16. destruct (Z.ltb_spec s 0); simpl; [rewrite wrapS_id by lia|]; zcases; lia. }
  assert (Hsb : byte8 (if s <? 0 then 0 else 128) = if s <? 0 then 0 else 128)
    by (destruct (s <? 0); reflexivity).
  destruct (Z.ltb_spec x 256) as [Hlt|Hge].
  - exists 0, (x / 16). assert (0 <= x) by lia.
    assert (0 <= x / 16 < 16) by (split; [apply Z.div_pos | apply Z.div_lt_upper_bound]; lia).
    split; [lia|]. split; [done|]. split; [|by left].
    unfold linearToALaw. rewrite Hsign. cbv zeta in Hx. rewrite Hx.
    replace (256 <=? x) with false by (symmetry; apply Z.leb_gt; lia).
    unfold a_byte. rewrite Hsb, Z.shiftr_div_pow2 by lia. change (2 ^ 4) with 16.
    f_equal. f_equal. unfold byte8. rewrite wrapU_id; lia.
  - destruct (segment_of x 7) as (e & He & Hxe); [lia | lia |].
    assert (1 <= e).
    { destruct (Z.eq_dec e 0) as [->|]; [|lia]. change (2 ^ (7 + 0 + 1)) with 256 in Hxe. lia. }
    destruct (quantise x e) as [Hm _]; [lia | done |].
    exists e, (Z.land (Z.shiftr x (e + 3)) 0x0F). split; [lia|]. split; [done|]. split; [|by right].
    unfold linearToALaw. rewrite Hsign. cbv zeta in Hx. rewrite Hx.
    replace (256 <=? x) with true by (symmetry; apply Z.leb_le; lia).
    replace (tab alawExponent (Z.land (Z.shiftr x 8) 127)) with e.
    2: { symmetry. apply alawExponent_spec; [lia|]. rewrite Z.shiftr_div_pow2 by lia.
         change 127 with (Z.ones 7). rewrite Z.land_ones by lia.
         replace (2 ^ (7 + e)) with (2 ^ 8 * 2 ^ (e - 1)) in Hxe
           by (rewrite <- Z.pow_add_r by lia; f_equal; lia).
         replace (2 ^ (7 + e + 1)) with (2 ^ 8 * 2 ^ e) in Hxe
           by (rewrite <- Z.pow_add_r by lia; f_equal; lia).
         change (2 ^ 8) with 256 in *. change (2 ^ 7) with 128.
         rewrite Z.mod_small; split; try (apply Z.div_pos; lia);
           first [apply Z.div_le_lower_bound | apply Z.div_lt_upper_bound]; lia. }
    unfold a_byte. rewrite Hsb. by rewrite pack_nibbles by lia.
Qed.

Lemma int16_uint16 s : -32768 <= s <= 32767 -> int16 (uint16 s) = s.
Proof.
  intros H. unfold int16, uint16, wrapS, wrapU. change (2 ^ (16 - 1)) with 32768. change (2 ^ 16) with 65536.
  rewrite Zplus_mod_idemp_l. rewrite Z.mod_small; lia.
Qed.

Lemma mu_error s : -32767 <= s <= 32767 ->
  32 * Z.abs (muLawToLinear (linearToMuLaw s) - s) <= Z.abs s + 132.
Proof.
  intros Hs. destruct (linearToMuLaw_form s Hs) as (e & He & Hx & ->).
  destruct (quantise _ e He Hx) as [Hm Hq]. revert Hm Hq.
  set (m := Z.land _ _). intros Hm Hq. rewrite muLawToLinear_byte by lia. unfold mu_value.
  assert (2 ^ (7 + e) = 128 * 2 ^ e) as H7 by (rewrite Z.pow_add_r by lia; lia). rewrite H7 in Hx.
  assert (Hp : 2 ^ e = 1 \/ 2 ^ e = 2 \/ 2 ^ e = 4 \/ 2 ^ e = 8 \/ 2 ^ e = 16 \/ 2 ^ e = 32
               \/ 2 ^ e = 64 \/ 2 ^ e = 128).
  { assert (e ∈ seqZ 0 8) as Hin by (apply elem_of_seqZ; lia). clear -Hin. vm_compute in Hin.
    repeat (apply elem_of_cons in Hin as [->|Hin]; [vm_compute; tauto|]). by apply elem_of_nil in Hin. }
  clearbody m. destruct (Z.ltb_spec s 0); destruct Hp as [E|[E|[E|[E|[E|[E|[E|E]]]]]]]; rewrite E in *; lia.
Qed.

Lemma a_error s : -32767 <= s <= 32767 ->
  32 * Z.abs (aLawToLinear (linearToALaw s) - s) <= Z.max 256 (Z.abs s).
Proof.
  intros Hs. destruct (linearToALaw_form s Hs) as (e & m & He & Hm & -> & Hx).
  rewrite aLawToLinear_byte by lia. unfold a_value. destruct Hx as [(-> & Hx & ->)|(He1 & Hx & Hme)].
  - simpl. pose proof (Z.div_mod (Z.min (Z.abs s) 32635) 16 ltac:(lia)).
    pose proof (Z.mod_pos_bound (Z.min (Z.abs s) 32635) 16 ltac:(lia)).
    destruct (Z.ltb_spec s 0); lia.
  - destruct (quantise _ e He Hx) as [_ Hq]. rewrite <- Hme in Hq. clear Hme.
    assert (2 ^ (7 + e) = 128 * 2 ^ e) as H7 by (rewrite Z.pow_add_r by lia; lia). rewrite H7 in Hx.
    replace (e =? 0) with false by (symmetry; apply Z.eqb_neq; lia).
    assert (Hp : 2 ^ e = 2 \/ 2 ^ e = 4 \/ 2 ^ e = 8 \/ 2 ^ e = 16 \/ 2 ^ e = 32
                 \/ 2 ^ e = 64 \/ 2 ^ e = 128).
    { assert (e ∈ seqZ 1 7) as Hin by (apply elem_of_seqZ; lia). clear -Hin. vm_compute in Hin.
      repeat (apply elem_of_cons in Hin as [->|Hin]; [vm_compute; tauto|]). by apply elem_of_nil in Hin. }
    destruct (Z.ltb_spec s 0); destruct Hp as [E|[E|[E|[E|[E|[E|E]]]]]]; rewrite E in *; lia.
Qed.

(** *** The decimating filter *)

Definition down_wf (d : Downsampler) : Prop :=
  (1 <= factor d)%nat /\ (1 <= length (taps d))%nat /\
  length (history d) = (length (taps d) - 1)%nat /\ (length (taps d) - 1 <= next d)%nat.

Lemma decimate_done n d w i : (length w <= i)%nat -> decimate n d w i = ([], i).
Proof. intros H. destruct n; simpl; by replace (i <? length w)%nat with false by (symmetry; apply Nat.ltb_ge; lia). Qed.

Lemma decimate_step n d w i : (i < length w)%nat ->
  decimate (S n) d w i =
  (clamp16 (filter_at (taps d) w i f0) :: (decimate n d w (i + factor d)).1,
   (decimate n d w (i + factor d)).2).
Proof.
  intros H. simpl. replace (i <? length w)%nat with true by (symmetry; apply Nat.ltb_lt; lia).
  by destruct (decimate n d w (i + factor d)).
Qed.

(** Fuel for the whole window is enough, and any more gives the same. *)
Lemma decimate_fuel d w n m i : (1 <= factor d)%nat ->
  (length w <= n + i)%nat -> (length w <= m + i)%nat -> decimate n d w i = decimate m d w i.
Proof.
  intros Hf. revert m i. induction n as [|n IH]; intros m i Hn Hm.
  { by rewrite !decimate_done by lia. }
  destruct (Nat.ltb_spec i (length w)) as [Hlt|Hge]; [|by rewrite !decimate_done by lia].
  destruct m as [|m]; [lia|]. rewrite !decimate_step by done.
  by rewrite (IH m) by lia.
Qed.

Lemma decimate_stop d w n i : (1 <= factor d)%nat -> (length w <= n + i)%nat ->
  (length w <= (decimate n d w i).2)%nat /\ (i <= (decimate n d w i).2)%nat.
Proof.
  intros Hf. revert i. induction n as [|n IH]; intros i Hn.
  { rewrite decimate_done by lia. simpl. lia. }
  destruct (Nat.ltb_spec i (length w)) as [Hlt|Hge]; [|rewrite decimate_done by lia; simpl; lia].
  rewrite decimate_step by done. simpl. pose proof (IH (i + factor d)%nat ltac:(lia)). lia.
Qed.

Lemma filter_at_prefix ts w b i acc : (i < length w)%nat ->
  filter_at ts (w ++ b) i acc = filter_at ts w i acc.
Proof.
  revert i acc. induction ts as [|t ts IH]; intros i acc Hi; [done|]. simpl.
  rewrite IH by lia. by rewrite lookup_app_l.
Qed.

Lemma filter_at_drop ts w k i acc : (k + (length ts - 1) <= i)%nat ->
  filter_at ts (list.drop k w) (i - k) acc = filter_at ts w i acc.
Proof.
  revert i acc. induction ts as [|t ts IH]; intros i acc Hi; [done|]. simpl in *.
  rewrite lookup_drop. replace (k + (i - k))%nat with i by lia.
  destruct ts as [|t' ts]; [done|]. replace (i - k - 1)%nat with (i - 1 - k)%nat by lia.
  apply IH. simpl in *. lia.
Qed.

Lemma decimate_app d w b n m i : (1 <= factor d)%nat ->
  (length w <= n + i)%nat -> (length (w ++ b) <= m + i)%nat ->
  decimate m d (w ++ b) i =
  ((decimate n d w i).1 ++ (decimate m d (w ++ b) (decimate n d w i).2).1,
   (decimate m d (w ++ b) (decimate n d w i).2).2).
Proof.
  intros Hf. revert m i. induction n as [|n IH]; intros m i Hn Hm.
  { rewrite (decimate_done 0) by lia. simpl. by destruct (decimate m d (w ++ b) i). }
  destruct (Nat.ltb_spec i (length w)) as [Hlt|Hge].
  2: { rewrite (decimate_done (S n)) by lia. simpl. by destruct (decimate m d (w ++ b) i). }
  rewrite length_app in Hm. destruct m as [|m]; [lia|].
  rewrite (decimate_step n) by done. cbn [fst snd].
  rewrite (decimate_step m) by (rewrite length_app; lia).
  rewrite filter_at_prefix by lia. pose proof (decimate_stop d w n (i + factor d) Hf ltac:(lia)).
  rewrite (IH m (i + factor d)%nat) by (rewrite ?length_app; lia). simpl.
  by rewrite (decimate_fuel d (w ++ b) m (S m)) by (rewrite ?length_app; lia).
Qed.

Lemma decimate_drop d w k n i : (k + (length (taps d) - 1) <= i)%nat -> (k <= length w)%nat ->
  decimate n d (list.drop k w) (i - k) = ((decimate n d w i).1, ((decimate n d w i).2 - k)%nat).
Proof.
  intros Hi Hk. revert i Hi. induction n as [|n IH]; intros i Hi.
  - simpl. rewrite length_drop. destruct (i <? length w)%nat, (i - k <? length w - k)%nat; done.
  - destruct (Nat.ltb_spec i (length w)) as [Hlt|Hge].
    + rewrite !decimate_step by (rewrite ?length_drop; lia). rewrite filter_at_drop by lia.
      replace (i - k + factor d)%nat with (i + factor d - k)%nat by lia. by rewrite IH by lia.
    + by rewrite !decimate_done by (rewrite ?length_drop; lia).
Qed.

(** The loop reads the filter and the factor, not the rest of the state. *)
Lemma decimate_ext f ts h1 n1 d n w i : factor d = f -> taps d = ts ->
  decimate n (mkDown f ts h1 n1) w i = decimate n d w i.
Proof.
  intros <- <-. revert i. induction n as [|n IH]; intros i; [done|]. simpl. by rewrite IH.
Qed.

(** [Process], with the window and the retained tail made explicit. *)
Lemma Process_form d src : down_wf d -> factor d <> 1%nat ->
  let w := history d ++ (of_int <$> src) in
  let r := decimate (length w) d w (next d) in
  Process d src = (mkDown (factor d) (taps d) (list.drop (length src) w) (r.2 - length src), r.1).
Proof.
  intros (Hf & Ht & Hh & Hn) Hne w r. unfold Process.
  replace (factor d =? 1)%nat with false by (symmetry; by apply Nat.eqb_neq).
  fold w. fold r. destruct r as [o st]. simpl.
  assert (length w = (length (taps d) - 1 + length src)%nat) as Hw
    by (unfold w; rewrite length_app, length_fmap; lia).
  replace (length w - Nat.min (length (taps d) - 1) (length w))%nat with (length src) by lia. done.
Qed.

Lemma Process_wf d src : down_wf d -> down_wf (Process d src).1.
Proof.
  intros Hwf. destruct (Nat.eq_dec (factor d) 1%nat) as [E|Hne].
  { unfold Process. by rewrite E. }
  rewrite Process_form by done. destruct Hwf as (Hf & Ht & Hh & Hn).
  set (w := history d ++ (of_int <$> src)).
  assert (length w = (length (taps d) - 1 + length src)%nat) as Hw
    by (unfold w; rewrite length_app, length_fmap; lia).
  pose proof (decimate_stop d w (length w) (next d) Hf ltac:(lia)).
  unfold down_wf. simpl. rewrite length_drop. lia.
Qed.

(** ** Properties *)

(** G.711 companding loses at most one part in thirty-two. For every
    sample but the most negative one, decoding what [Encode] wrote gives back
    one sample whose error is at most (|s|+132)/32 under mu-law and
    max(256,|s|)/32 under A-law. *)
Theorem companding_error (l : Law) (s : Z) (H : -32767 <= s <= 32767) :
  exists s', Decode l (Encode l [s]) = [s'] /\
    32 * Z.abs (s' - s) <= match l with LawMu => Z.abs s + 132 | LawAlaw => Z.max 256 (Z.abs s) end.
Proof.
  destruct l; simpl; eexists; (split; [reflexivity|]);
    unfold muEncode, muDecode, alawEncode, alawDecode; rewrite int16_uint16 by lia.
  - by apply mu_error.
  - by apply a_error.
Qed.

(** the most negative sample is the exception, and it is a defect: negating
    it wraps around in [int16], so a full-scale negative sample leaves the
    encoder as digital silence (0 under mu-law, -8 under A-law) instead of the
    loudest negative value. *)
Theorem companding_min_sample :
  Decode LawMu (Encode LawMu [-32768]) = [0] /\ Decode LawAlaw (Encode LawAlaw [-32768]) = [-8] /\
  Decode LawMu (Encode LawMu [-32767]) = [-32124] /\ Decode LawAlaw (Encode LawAlaw [-32767]) = [-32256].
Proof. vm_compute. auto. Qed.

(** re-encoding decoded audio is exact: any G.711 stream that does not use
    mu-law's second zero (0x7F) survives decoding and encoding byte for byte. *)
Theorem companding_bytes (l : Law) (bs : list Z)
    (H : Forall (fun b => 0 <= b < 256 /\ (l = LawMu -> b <> 0x7F)) bs) :
  Encode l (Decode l bs) = bs.
Proof.
  assert (Emu : forallb (fun b => (b =? 0x7F) || (muEncode (uint16 (muDecode b)) =? b)) (seqZ 0 256) = true)
    by (vm_compute; reflexivity).
  assert (Ea : forallb (fun b => alawEncode (uint16 (alawDecode b)) =? b) (seqZ 0 256) = true)
    by (vm_compute; reflexivity).
  destruct l; simpl; rewrite <- list_fmap_compose; rewrite <- (list_fmap_id bs) at 2;
    apply list_fmap_ext; intros i b Hb; apply (Forall_lookup_1 _ _ _ _ H) in Hb as [Hr Hne]; unfold compose; simpl.
  - pose proof (for_bytes _ Emu b Hr) as Hc. specialize (Hne eq_refl).
    apply orb_true_iff in Hc as [Hc|Hc]; apply Z.eqb_eq in Hc; [contradiction | exact Hc].
  - pose proof (for_bytes _ Ea b Hr) as Hc. apply Z.eqb_eq in Hc. exact Hc.
Qed.

(** converting a stream frame by frame gives the same samples, and leaves
    the same filter state, as converting it in one piece, wherever the frame
    boundary falls: the filter's tail and its decimation phase are carried
    across calls exactly. *)
Theorem Process_app (d : Downsampler) (a b : list Z) (H : down_wf d) :
  Process d (a ++ b) =
  (let '(d1, o1) := Process d a in
   let '(d2, o2) := Process d1 b in (d2, o1 ++ o2)).
Proof.
  destruct (Nat.eq_dec (factor d) 1%nat) as [E|Hne].
  { unfold Process. rewrite E. cbn [Nat.eqb]. by rewrite E. }
  pose proof (Process_wf d a H) as Hwf1. rewrite (Process_form d a), (Process_form d (a ++ b)) in * by done.
  destruct H as (Hf & Ht & Hh & Hn). rewrite (Process_form _ b) by done. cbn [factor taps history next fst snd].
  set (w := history d ++ (of_int <$> a)).
  rewrite fmap_app, app_assoc. fold w. set (b' := of_int <$> b).
  assert (length w = (length (taps d) - 1 + length a)%nat) as Hw
    by (unfold w; rewrite length_app, length_fmap; lia).
  assert (length b' = length b) as Hb by (unfold b'; by rewrite length_fmap).
  pose proof (decimate_stop d w (length w) (next d) Hf ltac:(lia)) as Hst.
  rewrite (decimate_app d w b' (length w) (length (w ++ b'))) by (rewrite ?length_app; lia).
  set (i1 := (decimate (length w) d w (next d)).2) in *.
  rewrite <- !drop_app_le by lia. rewrite length_app, drop_drop.
  rewrite (decimate_ext _ _ _ _ d) by done. rewrite decimate_drop by (rewrite ?length_app; lia). cbn [fst snd].
  rewrite (decimate_fuel d (w ++ b') (length (list.drop (length a) (w ++ b'))) (length (w ++ b')))
    by (rewrite ?length_drop, ?length_app; lia).
  by rewrite Nat.sub_add_distr.
Qed.

(** linear samples survive being written as little-endian bytes and read back. *)
Theorem PCM16_roundtrip (ss : list Z) (H : Forall (fun s => -32768 <= s <= 32767) ss) :
  BytesToPCM16 (PCM16ToBytes ss) = ss.
Proof.
  induction H as [|s ss Hs H IH]; [done|]. unfold PCM16ToBytes in *. cbn -[Z.lor Z.shiftl Z.shiftr].
  rewrite IH. f_equal. unfold byte8. rewrite (Z.shiftr_div_pow2 s) by lia. change (2 ^ 8) with 256.
  set (lo := wrapU 8 s). set (hi := wrapU 8 (s / 256)).
  assert (lo = s mod 256 /\ hi = (s / 256) mod 256) as [Elo Ehi] by done.
  pose proof (Z.div_mod s 256 ltac:(lia)). pose proof (Z.mod_pos_bound s 256 ltac:(lia)).
  assert (-128 <= s / 256 < 128) by lia.
  assert (0 <= hi < 256) by (rewrite Ehi; apply Z.mod_pos_bound; lia).
  replace (int16 lo) with lo by (unfold int16; rewrite wrapS_id; lia).
  replace (int16 hi) with hi by (unfold int16; rewrite wrapS_id; lia).
  rewrite Z.shiftl_mul_pow2 by lia. change (2 ^ 8) with 256.
  replace (int16 (hi * 256)) with ((s / 256) * 2 ^ 8).
  2: { unfold int16, wrapS. change (2 ^ (16 - 1)) with 32768. change (2 ^ 16) with 65536.
       pose proof (Z.div_mod (s / 256) 256 ltac:(lia)).
       assert (s / 256 / 256 = 0 \/ s / 256 / 256 = -1) as [E|E] by lia;
       [rewrite Z.mod_small; lia|].
       replace (hi * 256 + 32768) with (s / 256 * 256 + 32768 + 1 * 65536) by lia.
       rewrite Z.mod_add, Z.mod_small; lia. }
  rewrite Z.lor_comm. rewrite <- Z.shiftl_mul_pow2 by lia.
  replace lo with (Z.land s (Z.ones 8)) by (rewrite Z.land_ones by lia; done).
  change 256 with (2 ^ 8). rewrite <- Z.shiftr_div_pow2 by lia.
  apply Z.bits_inj'. intros n Hn. rewrite Z.lor_spec, Z.shiftl_spec, Z.land_spec by lia.
  destruct (Z.ltb_spec n 8).
  - rewrite Z.testbit_neg_r by lia. rewrite Z.ones_spec_low by lia. by rewrite andb_true_r.
  - rewrite Z.shiftr_spec by lia. rewrite Z.ones_spec_high by lia. replace (n - 8 + 8) with n by lia.
    by rewrite andb_false_r, orb_false_r.
Qed.

(** [NewConverter] accepts exactly the format pairs it can serve: positive
    rates of which one is an integer multiple of the other; and the converter
    it builds scales by exactly that multiple, with a filter that is ready to
    run. *)
Theorem NewConverter_spec (coeffs : nat -> list f64) (f t : AudioFormat) (c : Converter)
    (Hc : forall n, length (coeffs n) = n) (H : NewConverter coeffs f t = Ok c) :
  0 < RateHz f /\ 0 < RateHz t /\ from c = f /\ to c = t /\
  RateHz f * Z.max 1 (upFactor c) = RateHz t * Z.max 1 (downFactor c) /\
  match down c with Some d => down_wf d /\ Z.of_nat (factor d) = downFactor c | None => downFactor c = 0 end.
Proof.
  unfold NewConverter in H. destruct (_ || _) eqn:Epos; [discriminate|]. b2p.
  destruct (Z.eqb_spec (RateHz f) (RateHz t)) as [E|E]; [inv_res; simpl; repeat split; lia|].
  destruct (Z.ltb_spec (RateHz f) (RateHz t)) as [Hl|Hl].
  - destruct (Z.eqb_spec (Z.rem (RateHz t) (RateHz f)) 0) as [Er|]; [|discriminate H]. simpl in H.
    inv_res. simpl. pose proof (Z.quot_rem (RateHz t) (RateHz f) ltac:(lia)) as Eq.
    assert (1 <= Z.quot (RateHz t) (RateHz f)) by (apply Z.quot_le_lower_bound; lia).
    rewrite (Z.max_r 1) by lia. repeat split; lia.
  - destruct (Z.eqb_spec (Z.rem (RateHz f) (RateHz t)) 0) as [Er|]; [|discriminate H]. simpl in H.
    inv_res. cbn [from to upFactor downFactor down].
    pose proof (Z.quot_rem (RateHz f) (RateHz t) ltac:(lia)) as Eq.
    assert (1 <= Z.quot (RateHz f) (RateHz t)) by (apply Z.quot_le_lower_bound; lia).
    set (k := Z.quot (RateHz f) (RateHz t)) in *.
    rewrite (Z.max_r 1 k) by lia. repeat split; try lia; unfold NewDownsampler, down_wf; cbn [factor taps history next];
      rewrite ?Hc, ?length_replicate; destruct (Z.ltb_spec k 1); simpl; lia.
Qed.

Lemma companding_error_witness :
  exists s', Decode LawAlaw (Encode LawAlaw [-20000]) = [s'] /\ 32 * Z.abs (s' - -20000) <= Z.max 256 (Z.abs (-20000)).
Proof. apply (companding_error LawAlaw (-20000)). lia. Defined.

Lemma companding_bytes_witness : Encode LawMu (Decode LawMu [0; 0x7E; 0x80; 0xFF]) = [0; 0x7E; 0x80; 0xFF].
Proof.
  apply (companding_bytes LawMu [0; 0x7E; 0x80; 0xFF]).
  repeat (constructor; [split; [lia | intros _; discriminate]|]). constructor.
Defined.

Definition sample_filter : Downsampler := mkDown 3 (replicate 33 (fdiv f1 (of_int 33))) (replicate 32 f0) 32.

Lemma Process_app_witness :
  down_wf sample_filter /\
  Process sample_filter ([100; 200; 300; 400] ++ [500; 600; 700]) =
  (let '(d1, o1) := Process sample_filter [100; 200; 300; 400] in
   let '(d2, o2) := Process d1 [500; 600; 700] in (d2, o1 ++ o2)).
Proof.
  assert (down_wf sample_filter) as H by (unfold down_wf; simpl; lia).
  split; [exact H|]. apply (Process_app sample_filter [100; 200; 300; 400] [500; 600; 700]). exact H.
Defined.

Lemma PCM16_roundtrip_witness : BytesToPCM16 (PCM16ToBytes [-32768; -1; 0; 258; 32767]) = [-32768; -1; 0; 258; 32767].
Proof. apply (PCM16_roundtrip [-32768; -1; 0; 258; 32767]). repeat (constructor; [lia|]). constructor. Defined.

Lemma NewConverter_spec_witness :
  exists c, NewConverter (fun n => replicate n f0) (PCM16Format 24000) (G711Format LawMu) = Ok c /\
  (0 < 24000 /\ 0 < 8000 /\ from c = PCM16Format 24000 /\ to c = G711Format LawMu /\
   24000 * Z.max 1 (upFactor c) = 8000 * Z.max 1 (downFactor c) /\
   match down c with Some d => down_wf d /\ Z.of_nat (factor d) = downFactor c | None => downFactor c = 0 end).
Proof.
  eexists. split; [reflexivity|].
  apply (NewConverter_spec (fun n => replicate n f0) (PCM16Format 24000) (G711Format LawMu));
    [intros n; apply length_replicate | reflexivity].
Defined.

End Media.
