(* ===== verification/Calendar.v ===== *)
(** * The calendar the schedules read: Go's [time] package

    The part of Go's standard library the scheduling code relies on. A local
    date is its day number (days since 1970-01-01), which the triple
    year-month-day stands for: [time.Date] accepts any out-of-range day, so
    the code's [d+i] is addition here. A [time.Location] is what its [lookup]
    answers for an instant: the offset in force and the bounds of the stretch
    it is in force for. *)

From S2P Require Import Prelude.

Module Calendar.

(** Seconds from Go's zero time (year 1) to the Unix epoch. *)
Definition unixEpoch : Z := 62135596800.

Definition secondsPerDay : Z := 86400.

(** [t.Unix()] and [time.Unix(s, 0)]. *)
Definition unix (t : instant) : Z := t / second - unixEpoch.
Definition of_unix (s : Z) : instant := (s + unixEpoch) * second.

(** A zone, by what [Location.lookup] answers for a Unix second: the offset
    east of UTC, the first second it is in force ([None]: since ever) and the
    first second it no longer is ([None]: for good). *)
Record Location := mkLocation {
  offsetAt : Z -> Z;
  zoneFrom : Z -> option Z;
  zoneTo : Z -> option Z
}.

Definition UTC : Location := mkLocation (fun _ => 0) (fun _ => None) (fun _ => None).

(** A zone whose offset never changes. *)
Definition FixedZone (off : Z) : Location :=
  mkLocation (fun _ => off) (fun _ => None) (fun _ => None).

(** The zone with one change of offset, at [when]. *)
Definition OneChange (before after when : Z) : Location :=
  mkLocation (fun s => if s <? when then before else after)
    (fun s => if s <? when then None else Some when)
    (fun s => if s <? when then Some when else None).

(** The zone data is coherent: a second lies between its own bounds, and the
    offset is the same throughout them. *)
Record LocationOk (loc : Location) : Prop := mkLocationOk {
  loc_from s z : zoneFrom loc s = Some z -> z <= s;
  loc_to s z : zoneTo loc s = Some z -> s < z;
  loc_const s s' :
    (forall z, zoneFrom loc s = Some z -> z <= s') ->
    (forall z, zoneTo loc s = Some z -> s' < z) ->
    offsetAt loc s' = offsetAt loc s /\ zoneFrom loc s' = zoneFrom loc s /\
    zoneTo loc s' = zoneTo loc s
}.

(** Local seconds: what the wall clock reads, as if it were UTC. *)
Definition localSec (loc : Location) (t : instant) : Z := unix t + offsetAt loc (unix t).

(** [t.In(loc).Date()], as a day number, and its weekday (Sunday 0). *)
Definition localDay (loc : Location) (t : instant) : Z := localSec loc t / secondsPerDay.
Definition weekday (day : Z) : Z := (day + 4) mod 7.

(** [time.Date(y, m, d, min/60, min%60, 0, 0, loc)]: the offset at the
    wall-clock time read as UTC, replaced by the one in force at the resulting
    instant when that instant is outside the first one's stretch. *)
Definition Date (loc : Location) (day minutes : Z) : instant :=
  let u := day * secondsPerDay + minutes * 60 in
  let off := offsetAt loc u in
  let utc := u - off in
  let outside :=
    match zoneFrom loc u with Some z => utc <? z | None => false end
    || match zoneTo loc u with Some z => z <=? utc | None => false end in
  let off := if negb (off =? 0) && outside then offsetAt loc utc else off in
  of_unix (u - off).

(** [t.ZoneBounds()], the zero time where there is no bound. *)
Definition ZoneBounds (loc : Location) (t : instant) : instant * instant :=
  (match zoneFrom loc (unix t) with Some z => of_unix z | None => zero_time end,
   match zoneTo loc (unix t) with Some z => of_unix z | None => zero_time end).

(** [t.Sub(u)] saturates at the ends of a 64-bit duration. *)
Definition Sub (t u : instant) : duration :=
  Z.max (- 2 ^ 63) (Z.min (2 ^ 63 - 1) (t - u)).

(** ** Lemmas *)

Lemma unix_of_unix s : unix (of_unix s) = s.
Proof. unfold unix, of_unix, second. rewrite Z.div_mul by lia. lia. Qed.

Lemma of_unix_le s s' : of_unix s <= of_unix s' <-> s <= s'.
Proof. unfold of_unix, second. lia. Qed.

Lemma of_unix_lt s s' : of_unix s < of_unix s' <-> s < s'.
Proof. unfold of_unix, second. lia. Qed.

Lemma unix_lt t s : t < of_unix s <-> unix t < s.
Proof.
  unfold unix, of_unix. split; intros H.
  - assert (t / second < s + unixEpoch); [|lia]. apply Z.div_lt_upper_bound; unfold second in *; lia.
  - pose proof (Z.mul_succ_div_gt t second ltac:(done)). unfold second in *. nia.
Qed.

Lemma unix_ge t s : of_unix s <= t <-> s <= unix t.
Proof. pose proof (unix_lt t s). lia. Qed.

Lemma UTC_ok : LocationOk UTC.
Proof. constructor; simpl; try discriminate. by intros. Qed.

Lemma FixedZone_ok off : LocationOk (FixedZone off).
Proof. constructor; simpl; try discriminate. by intros. Qed.

Lemma OneChange_ok before after when : LocationOk (OneChange before after when).
Proof.
  constructor; simpl; intros s z; destruct (Z.ltb_spec s when); try discriminate;
    try (intros [=]; lia).
  - intros _ H1. specialize (H1 _ eq_refl). destruct (Z.ltb_spec z when); [done | lia].
  - intros H1 _. specialize (H1 _ eq_refl). destruct (Z.ltb_spec z when); [lia | done].
Qed.

Lemma Date_fixed off day minutes :
  Date (FixedZone off) day minutes = of_unix (day * secondsPerDay + minutes * 60 - off).
Proof. unfold Date. simpl. by rewrite andb_false_r. Qed.

End Calendar.
