(* ===== verification/CampaignTypes.v ===== *)
(** * What a campaign is: [internal/campaign], types and outcomes

    The enumerations of [types.go] (each with a constructor for any other
    text, since the Go types are strings), the structured refusals of
    [errors.go], and the classification of how an attempt ended
    ([outcome.go], [breaker.go], [attempt.go]). *)

From S2P Require Import Prelude.

Module CampaignTypes.

(** [internal/campaign/types.go:Status] *)
Inductive Status :=
| StatusDraft | StatusRunning | StatusPaused | StatusCompleted | StatusCancelled
| StatusOther (s : string).

#[export] Instance Status_eq_dec : EqDecision Status.
Proof. solve_decision. Defined.

(** [internal/campaign/types.go:Status.IsTerminal] *)
Definition IsTerminal (s : Status) : bool :=
  match s with StatusCompleted | StatusCancelled => true | _ => false end.

(** [internal/campaign/types.go:ContactStatus] *)
Inductive ContactStatus :=
| ContactActive | ContactDone | ContactExhausted | ContactInvalidNumber | ContactDoNotCall
| ContactOther (s : string).

#[export] Instance ContactStatus_eq_dec : EqDecision ContactStatus.
Proof. solve_decision. Defined.

(** [internal/campaign/types.go:PauseReason] *)
Inductive PauseReason :=
| PauseManual | PauseTrunkFailure | PauseProviderFailure | PauseOutboundNotConfigured.

#[export] Instance PauseReason_eq_dec : EqDecision PauseReason.
Proof. solve_decision. Defined.

(** [internal/campaign/types.go:Outcome] *)
Inductive Outcome :=
| OutcomeAnswered | OutcomeBotFailed | OutcomeOverflow | OutcomeNoAnswer | OutcomeBusy
| OutcomeRejected | OutcomeUnknown | OutcomeTransient | OutcomeOriginateFailed
| OutcomeInvalidNumber | OutcomeDNCSkipped
| OutcomeOther (s : string).

#[export] Instance Outcome_eq_dec : EqDecision Outcome.
Proof. solve_decision. Defined.

(** [internal/campaign/types.go:LeadIntent] [LeadAbsent] is the empty text. *)
Inductive LeadIntent :=
| LeadAbsent | LeadHigh | LeadMedium | LeadLow | LeadNone | LeadDoNotCall
| LeadOther (s : string).

#[export] Instance LeadIntent_eq_dec : EqDecision LeadIntent.
Proof. solve_decision. Defined.

(** [internal/campaign/errors.go:var(ErrNotFound)] The kinds of refusal. *)
Inductive ErrKind :=
| ErrNotFound | ErrValidation | ErrInvalidTransition | ErrFieldLocked | ErrFlowHasTransfer
| ErrDIDNotOutbound | ErrRingTimeoutTooLong | ErrWindowOutsideLimit | ErrOutboundNotConfigured.

#[export] Instance ErrKind_eq_dec : EqDecision ErrKind.
Proof. solve_decision. Defined.

(** [internal/campaign/errors.go:Error] Without the message and the display
    parameters. *)
Record Error := mkError { Kind : ErrKind; Field : string; Rule : string }.

#[export] Instance Error_eq_dec : EqDecision Error.
Proof. solve_decision. Defined.

(** [internal/campaign/errors.go:invalid] *)
Definition invalid (field rule : string) : Error := mkError ErrValidation field rule.

(** [internal/campaign/outcome.go:CallEnd] *)
Record CallEnd := mkCallEnd {
  HangupCause : string;
  IsAnswered : bool;
  IsFailed : bool;
  HasBot : bool;
  BotReason : string;
  IsPlacementFailure : bool
}.

(** [internal/campaign/outcome.go:const(CauseOverflow)] *)
Definition CauseOverflow : string := "OVERFLOW".
Definition CauseLateAnswer : string := "ALLOTTED_TIMEOUT".
Definition CauseRecovery : string := "RECOVERY_ON_TIMER_EXPIRE".
Definition CauseVanished : string := "CHANNEL_VANISHED".
Definition CauseBotBridgeUnconfirmed : string := "BOT_BRIDGE_UNCONFIRMED".

(** [internal/campaign/outcome.go:BotReasonLegFailed] *)
Definition BotReasonLegFailed : string := "BOT_LEG_FAILED".

(** [internal/campaign/outcome.go:var(causeOutcomes)] *)
Definition causeOutcomes : gmap string Outcome := list_to_map [
  ("NO_ANSWER"%string, OutcomeNoAnswer);
  ("NO_USER_RESPONSE"%string, OutcomeNoAnswer);
  (CauseLateAnswer, OutcomeNoAnswer);
  ("USER_BUSY"%string, OutcomeBusy);
  ("CALL_REJECTED"%string, OutcomeRejected);
  (CauseVanished, OutcomeUnknown);
  ("NORMAL_TEMPORARY_FAILURE"%string, OutcomeTransient);
  ("NETWORK_OUT_OF_ORDER"%string, OutcomeTransient);
  (CauseRecovery, OutcomeTransient);
  ("SWITCH_CONGESTION"%string, OutcomeTransient);
  ("NORMAL_CIRCUIT_CONGESTION"%string, OutcomeTransient);
  ("UNALLOCATED_NUMBER"%string, OutcomeInvalidNumber);
  ("INVALID_NUMBER_FORMAT"%string, OutcomeInvalidNumber);
  ("NUMBER_CHANGED"%string, OutcomeInvalidNumber)].

(** [internal/campaign/outcome.go:var(customerSide)] *)
Definition customerSide (o : Outcome) : bool :=
  match o with
  | OutcomeNoAnswer | OutcomeBusy | OutcomeRejected | OutcomeInvalidNumber => true
  | _ => false
  end.

(** [internal/campaign/outcome.go:Classify] The log line and the metric of an
    unmapped cause are not modelled. *)
Definition Classify (e : CallEnd) : Outcome :=
  if String.eqb (HangupCause e) CauseOverflow then OutcomeOverflow
  else if IsAnswered e then
    if String.eqb (BotReason e) BotReasonLegFailed then OutcomeBotFailed
    else if String.eqb (HangupCause e) CauseRecovery
            || String.eqb (HangupCause e) CauseLateAnswer
            || String.eqb (HangupCause e) CauseBotBridgeUnconfirmed then OutcomeBotFailed
    else if String.eqb (HangupCause e) CauseVanished then
      if HasBot e then OutcomeAnswered else OutcomeBotFailed
    else if IsFailed e then OutcomeBotFailed
    else OutcomeAnswered
  else
    let mapped := causeOutcomes !! HangupCause e in
    if IsPlacementFailure e then
      match mapped with
      | Some o => if customerSide o then o else OutcomeOriginateFailed
      | None => OutcomeOriginateFailed
      end
    else match mapped with Some o => o | None => OutcomeTransient end.

(** [internal/campaign/outcome.go:Class] *)
Inductive Class := ClassNone | ClassReached | ClassSystem.

#[export] Instance Class_eq_dec : EqDecision Class.
Proof. solve_decision. Defined.

(** [internal/campaign/outcome.go:ClassOf] *)
Definition ClassOf (o : Outcome) : Class :=
  match o with
  | OutcomeAnswered | OutcomeBotFailed | OutcomeOverflow
  | OutcomeNoAnswer | OutcomeBusy | OutcomeRejected | OutcomeUnknown => ClassReached
  | OutcomeTransient | OutcomeOriginateFailed => ClassSystem
  | _ => ClassNone
  end.

(** [internal/campaign/outcome.go:IsTouched] *)
Definition IsTouched (o : Outcome) : bool := bool_decide (ClassOf o = ClassReached).

(** [internal/campaign/outcome.go:IsAnsweredOutcome] *)
Definition IsAnsweredOutcome (o : Outcome) : bool :=
  match o with OutcomeAnswered | OutcomeBotFailed | OutcomeOverflow => true | _ => false end.

(** [internal/campaign/outcome.go:AllOutcomes] *)
Definition AllOutcomes : list Outcome := [
  OutcomeAnswered; OutcomeBotFailed; OutcomeOverflow; OutcomeNoAnswer; OutcomeBusy;
  OutcomeRejected; OutcomeUnknown; OutcomeTransient; OutcomeOriginateFailed;
  OutcomeInvalidNumber; OutcomeDNCSkipped].

(** [internal/campaign/outcome.go:Outcome.IsValid] *)
Definition Outcome_IsValid (o : Outcome) : bool := contains AllOutcomes o.

(** [internal/campaign/breaker.go:TrunkBreakerTrips] *)
Definition TrunkBreakerTrips (recent : list Outcome) (n : Z) : bool :=
  if (n <? 1) || (Z.of_nat (length recent) <? n) then false
  else forallb (fun o => bool_decide (ClassOf o = ClassSystem)) (take (Z.to_nat n) recent).

(** [internal/campaign/breaker.go:ProviderBreakerTrips] The loop; [failed] counts the run so far. *)
Fixpoint provider_loop (recent : list Outcome) (m failed : Z) : bool :=
  match recent with
  | [] => false
  | OutcomeBotFailed :: recent =>
      if failed + 1 =? m then true else provider_loop recent m (failed + 1)
  | OutcomeAnswered :: _ => false
  | _ :: recent => provider_loop recent m failed
  end.

(** [internal/campaign/breaker.go:ProviderBreakerTrips] *)
Definition ProviderBreakerTrips (recent : list Outcome) (m : Z) : bool :=
  if m <? 1 then false else provider_loop recent m 0.

(** The placer's synchronous errors, as [errors.Is] tells them apart: the four
    kinds the caller hands in, and anything else. *)
Inductive DialError := DialUnconfirmed | DialNumberOnDNC | DialBadNumber | DialLineLimit | DialOther.

(** [internal/campaign/breaker.go:DialVerdict] *)
Record DialVerdict := mkVerdict { IsVoid : bool; IsPending : bool; VOutcome : option Outcome }.

(** [internal/campaign/breaker.go:ClassifyDialError] *)
Definition ClassifyDialError (err : DialError) : DialVerdict :=
  match err with
  | DialUnconfirmed => mkVerdict false true None
  | DialNumberOnDNC => mkVerdict false false (Some OutcomeDNCSkipped)
  | DialBadNumber => mkVerdict false false (Some OutcomeInvalidNumber)
  | DialLineLimit => mkVerdict true false None
  | DialOther => mkVerdict false false (Some OutcomeOriginateFailed)
  end.

(** ** Lemmas *)

Lemma causeOutcomes_class cause o :
  causeOutcomes !! cause = Some o -> IsAnsweredOutcome o = false /\ o ∈ AllOutcomes.
Proof.
  intros H. apply elem_of_list_to_map_2 in H.
  repeat (apply elem_of_cons in H as [H|H];
    [injection H as -> ->; split; [done | unfold AllOutcomes; set_solver]|]).
  by apply elem_of_nil in H.
Qed.

Lemma Classify_valid e : Outcome_IsValid (Classify e) = true.
Proof.
  unfold Classify, Outcome_IsValid. destruct (String.eqb _ CauseOverflow); [done|]. destruct (IsAnswered e).
  { repeat case_match; done. }
  destruct (causeOutcomes !! HangupCause e) as [o|] eqn:Ho.
  - apply causeOutcomes_class in Ho as [Ha Hv]. apply contains_true in Hv.
    destruct (IsPlacementFailure e), (customerSide o); done.
  - destruct (IsPlacementFailure e); done.
Qed.

(** ** Properties *)

(** an attempt's outcome is an answered outcome (one whose number is never
    dialled again) exactly when the customer picked up or the call ended for
    want of a bot slot, whatever the hangup cause, the placement or the bot
    did; and [Classify] never invents an outcome outside the eleven. *)
Theorem Classify_answered (e : CallEnd) :
  IsAnsweredOutcome (Classify e) = IsAnswered e || String.eqb (HangupCause e) CauseOverflow /\
  Outcome_IsValid (Classify e) = true.
Proof.
  split; [|apply Classify_valid]. unfold Classify.
  destruct (String.eqb_spec (HangupCause e) CauseOverflow) as [E|E].
  { rewrite orb_true_r. done. }
  rewrite orb_false_r. destruct (IsAnswered e).
  { repeat case_match; done. }
  destruct (causeOutcomes !! HangupCause e) as [o|] eqn:Ho.
  - apply causeOutcomes_class in Ho as [Ha _]. destruct (IsPlacementFailure e), (customerSide o); try done.
  - destruct (IsPlacementFailure e); done.
Qed.

Lemma provider_loop_spec recent m k : 0 <= k < m ->
  provider_loop recent m k = true <->
  exists pre post, recent = pre ++ post /\ OutcomeAnswered ∉ pre /\
    Z.of_nat (length (filter (.= OutcomeBotFailed) pre)) = m - k.
Proof.
  revert k. induction recent as [|o recent IH]; intros k Hk.
  { simpl. split; [done|]. intros (pre & post & E & _ & Hc). symmetry in E.
    apply app_eq_nil in E as [-> ->]. simpl in Hc. lia. }
  assert (Hskip : o <> OutcomeAnswered -> o <> OutcomeBotFailed ->
    (provider_loop recent m k = true <->
     exists pre post, o :: recent = pre ++ post /\ OutcomeAnswered ∉ pre /\
       Z.of_nat (length (filter (.= OutcomeBotFailed) pre)) = m - k)).
  { intros Ha Hb. rewrite IH by done. split.
    - intros (pre & post & -> & Hn & Hc). exists (o :: pre), post. split; [done|].
      split; [set_solver|]. by rewrite filter_cons_False.
    - intros (pre & post & E & Hn & Hc). destruct pre as [|o' pre]; [simpl in Hc; lia|].
      injection E as <- ->. exists pre, post. split; [done|]. split; [set_solver|].
      by rewrite filter_cons_False in Hc. }
  destruct o; try (apply Hskip; done).
  - simpl. split; [done|]. intros (pre & post & E & Hn & Hc).
    destruct pre as [|o' pre]; [simpl in Hc; lia|]. injection E as <- ->. set_solver.
  - simpl. destruct (Z.eqb_spec (k + 1) m) as [E|E].
    + split; [|done]. intros _. exists [OutcomeBotFailed], recent. split; [done|].
      split; [set_solver|]. simpl. lia.
    + rewrite IH by lia. split.
      * intros (pre & post & -> & Hn & Hc). exists (OutcomeBotFailed :: pre), post. split; [done|].
        split; [set_solver|]. rewrite filter_cons_True by done. simpl. lia.
      * intros (pre & post & E' & Hn & Hc). destruct pre as [|o' pre]; [simpl in Hc; lia|].
        injection E' as <- ->. exists pre, post. split; [done|]. split; [set_solver|].
        rewrite filter_cons_True in Hc by done. simpl in Hc. lia.
Qed.

(** the circuit breakers trip on exactly the runs they are meant for. The
    trunk breaker: the newest [n] outcomes exist and are all failures of the
    network or of ours. The provider breaker: going back from the newest
    outcome there are [m] failed bots before any call a bot completed, calls
    nobody answered and calls refused for want of a slot counting for neither. *)
Theorem breakers_spec (recent : list Outcome) (n m : Z) (Hn : 1 <= n) (Hm : 1 <= m) :
  (TrunkBreakerTrips recent n = true <->
     n <= Z.of_nat (length recent) /\
     forall i o, Z.of_nat i < n -> recent !! i = Some o -> ClassOf o = ClassSystem) /\
  (ProviderBreakerTrips recent m = true <->
     exists pre post, recent = pre ++ post /\ OutcomeAnswered ∉ pre /\
       Z.of_nat (length (filter (.= OutcomeBotFailed) pre)) = m).
Proof.
  split.
  - unfold TrunkBreakerTrips. replace (n <? 1) with false by (symmetry; apply Z.ltb_ge; lia). simpl.
    destruct (Z.ltb_spec (Z.of_nat (length recent)) n) as [Hl|Hl]; [split; [done | lia]|].
    rewrite forallb_elem. split.
    + intros H. split; [lia|]. intros i o Hi Ho. eapply bool_decide_eq_true_1, H.
      apply list_elem_of_lookup. exists i. rewrite lookup_take_lt by lia. done.
    + intros [_ H] o (i & Ho)%list_elem_of_lookup. apply lookup_take_Some in Ho as [Ho Hi].
      apply bool_decide_eq_true. eapply H; [|done]. lia.
  - unfold ProviderBreakerTrips. replace (m <? 1) with false by (symmetry; apply Z.ltb_ge; lia).
    rewrite provider_loop_spec by lia. by rewrite Z.sub_0_r.
Qed.

Lemma breakers_spec_witness :
  let recent := [OutcomeBotFailed; OutcomeNoAnswer; OutcomeBotFailed; OutcomeAnswered] in
  ProviderBreakerTrips recent 2 = true /\ TrunkBreakerTrips recent 1 = false /\
  (TrunkBreakerTrips recent 1 = true <->
     1 <= Z.of_nat (length recent) /\
     forall i o, Z.of_nat i < 1 -> recent !! i = Some o -> ClassOf o = ClassSystem) /\
  (ProviderBreakerTrips recent 2 = true <->
     exists pre post, recent = pre ++ post /\ OutcomeAnswered ∉ pre /\
       Z.of_nat (length (filter (.= OutcomeBotFailed) pre)) = 2).
Proof.
  intros recent. split; [reflexivity|]. split; [reflexivity|].
  apply (breakers_spec [OutcomeBotFailed; OutcomeNoAnswer; OutcomeBotFailed; OutcomeAnswered] 1 2); lia.
Defined.

End CampaignTypes.
