(* ===== verification/CallWindow.v ===== *)
(** * Calling windows: [internal/campaign/window.go]

    The weekly window a campaign may call in: its parsing, its normalisation
    (the form every stored window has) and the resolution of zone names. *)

From S2P Require Import Prelude DayRange Calendar CampaignTypes.
Import DayRange Calendar CampaignTypes.

Module Window.

(** [internal/campaign/window.go:Weekdays] *)
Definition Weekdays : list string := ["MON"; "TUE"; "WED"; "THU"; "FRI"; "SAT"; "SUN"]%string.

(** [internal/campaign/window.go:TimeRange] *)
Record TimeRange := mkTimeRange { TStart : string; TEnd : string }.

#[export] Instance TimeRange_eq_dec : EqDecision TimeRange.
Proof. solve_decision. Defined.

(** [internal/campaign/window.go:CallingWindow] *)
Record CallingWindow := mkWindow { Days : list string; Ranges : list TimeRange }.

#[export] Instance CallingWindow_eq_dec : EqDecision CallingWindow.
Proof. solve_decision. Defined.

(** [internal/campaign/window.go:MaxWindowRanges] *)
Definition MaxWindowRanges : Z := 8.

(** [internal/campaign/window.go:CallingWindow.Parsed] The loop. *)
Fixpoint parse_ranges (l : list TimeRange) : res DayRangeError (list Range) :=
  match l with
  | [] => Ok []
  | r :: l =>
      p ← New (TStart r) (TEnd r);
      ps ← parse_ranges l;
      Ok (p :: ps)
  end.

(** [internal/campaign/window.go:CallingWindow.Parsed] *)
Definition Parsed (w : CallingWindow) : res DayRangeError (list Range) := parse_ranges (Ranges w).

(** [slices.Index(Weekdays, d)]. *)
Fixpoint index_from (i : Z) (l : list string) (d : string) : Z :=
  match l with
  | [] => -1
  | x :: l => if String.eqb x d then i else index_from (i + 1) l d
  end.

Definition dayIndex (d : string) : Z := index_from 0 Weekdays d.

(** [internal/campaign/window.go:L66-L76] The loop over the days, [days] being those accepted so far. *)
Fixpoint check_days (days l : list string) : res Error (list string) :=
  match l with
  | [] => Ok days
  | d :: l =>
      guard_res (negb (contains Weekdays d)) (invalid "callingWindow.days" "UNKNOWN_DAY")
      (guard_res (contains days d) (invalid "callingWindow.days" "DUPLICATE_DAY")
      (check_days (days ++ [d]) l))
  end.

Definition rangeField (i : Z) : string :=
  ("callingWindow.ranges[" +:+ pretty i +:+ "]")%string.

(** [internal/campaign/window.go:L88-L103] The loop over the ranges, from index [i]. *)
Fixpoint check_ranges (outer : Range) (i : Z) (l : list TimeRange) : res Error (list Range) :=
  match l with
  | [] => Ok []
  | r :: l =>
      match New (TStart r) (TEnd r) with
      | Err _ => Err (invalid (rangeField i) "INVALID_TIME")
      | Ok p =>
          guard_res (negb (Within p outer))
            (mkError ErrWindowOutsideLimit (rangeField i) "OUTSIDE_PERMITTED_HOURS")
          (ps ← check_ranges outer (i + 1) l;
           Ok (p :: ps))
      end
  end.

(** [internal/campaign/window.go:L105-L112] The double loop over the sorted ranges: some range overlaps an earlier one. *)
Fixpoint anyOverlap (before l : list Range) : bool :=
  match l with
  | [] => false
  | p :: l => existsb (fun q => Overlaps q p) before || anyOverlap (before ++ [p]) l
  end.

(** [internal/campaign/window.go:CallingWindow.Normalize] *)
Definition Normalize (w : CallingWindow) (outer : Range) : res Error CallingWindow :=
  guard_res (Z.of_nat (length (Days w)) =? 0) (invalid "callingWindow.days" "EMPTY")
  (days ← check_days [] (Days w);
   let days := sort_by dayIndex days in
   guard_res (Z.of_nat (length (Ranges w)) =? 0) (invalid "callingWindow.ranges" "EMPTY")
   (guard_res (MaxWindowRanges <? Z.of_nat (length (Ranges w)))
      (invalid "callingWindow.ranges" "TOO_MANY")
   (parsed ← check_ranges outer 0 (Ranges w);
    let parsed := sort_by Start parsed in
    guard_res (anyOverlap [] parsed) (invalid "callingWindow.ranges" "OVERLAP")
    (Ok (mkWindow days (map (fun p => mkTimeRange (StartText p) (EndText p)) parsed)))))).

(** The refusals of [LoadZone]. *)
Inductive ZoneError := ErrNotIANA | ErrUnknownZone.

Section zones.
(** The IANA database: what [time.LoadLocation] answers for a name. *)
Variable tzdb : string -> option Location.

(** [internal/campaign/window.go:LoadZone] *)
Definition LoadZone (name : string) : res ZoneError Location :=
  if String.eqb name "" || String.eqb name "Local" then Err ErrNotIANA
  else match tzdb name with Some loc => Ok loc | None => Err ErrUnknownZone end.
End zones.

(** ** Lemmas *)

Lemma check_days_Ok days l out :
  check_days days l = Ok out <->
  out = days ++ l /\ NoDup l /\ (forall d, d ∈ l -> d ∈ Weekdays /\ d ∉ days).
Proof.
  revert days. induction l as [|d l IH]; intros days; simpl.
  { rewrite app_nil_r. split; [intros [=]; subst; repeat split; [constructor|..]; set_solver|].
    by intros [-> _]. }
  rewrite !guard_res_Ok, IH, negb_false_iff, contains_true, contains_false, <- app_assoc.
  rewrite NoDup_cons. simpl. set_solver.
Qed.

Lemma check_ranges_Ok outer i l ps :
  check_ranges outer i l = Ok ps <->
  parse_ranges l = Ok ps /\ forall p, p ∈ ps -> Within p outer = true.
Proof.
  revert i ps. induction l as [|r l IH]; intros i ps; simpl.
  { split; [intros [= <-]; split; [done|]; by intros p ?%elem_of_nil|].
    by intros [[= <-] _]. }
  destruct (New (TStart r) (TEnd r)) as [p|e]; simpl; [|split; [done | by intros []]].
  rewrite guard_res_Ok, negb_false_iff. split.
  - intros (Hp & (ps' & H & [= <-])%bind_Ok_inv). apply IH in H as [H Hw].
    rewrite H. simpl. split; [done|]. by intros q [->|Hq]%elem_of_cons; auto.
  - intros ((ps' & H & [= <-])%bind_Ok_inv & Hw). split; [apply Hw; by left|].
    rewrite (proj2 (IH _ ps')); [done|]. split; [done|]. intros q Hq. apply Hw. by right.
Qed.

Lemma parse_ranges_wf l ps p : parse_ranges l = Ok ps -> p ∈ ps -> range_wf p.
Proof.
  revert ps. induction l as [|r l IH]; simpl; intros ps H Hp; [inv_res; set_solver|].
  apply bind_Ok_inv in H as (q & Hq & H). apply bind_Ok_inv in H as (qs & Hqs & [= <-]).
  apply elem_of_cons in Hp as [->|Hp]; [by eapply New_ok_wf | by eapply IH].
Qed.

Lemma parse_ranges_texts ps : (forall p, p ∈ ps -> range_wf p) ->
  parse_ranges (map (fun p => mkTimeRange (StartText p) (EndText p)) ps) = Ok ps.
Proof.
  induction ps as [|p ps IH]; intros H; simpl; [done|].
  rewrite New_texts by set_solver. simpl. rewrite IH by set_solver. done.
Qed.

Lemma parse_ranges_length l ps : parse_ranges l = Ok ps -> length ps = length l.
Proof.
  revert ps. induction l as [|r l IH]; simpl; intros ps H; inv_res; [done|].
  simpl. by erewrite IH.
Qed.

Lemma anyOverlap_spec before l :
  anyOverlap before l = false <->
  (forall p q, q ∈ before -> p ∈ l -> Overlaps q p = false) /\
  (forall i j p q, (j < i)%nat -> l !! i = Some p -> l !! j = Some q -> Overlaps q p = false).
Proof.
  revert before. induction l as [|p l IH]; intros before; simpl.
  { split; [|done]. intros _. split; [set_solver|]. intros i j ??? H. by rewrite lookup_nil in H. }
  rewrite orb_false_iff, IH. rewrite <- not_true_iff_false, existsb_elem.
  split.
  - intros (H1 & H2 & H3). split.
    + intros x q Hq [->|Hx]%elem_of_cons; [|apply H2; set_solver].
      apply not_true_iff_false. intros E. apply H1. eauto.
    + intros [|i] [|j] x q Hji Hi Hj; try lia; simpl in *.
      * injection Hj as <-. apply H2; [set_solver|]. by apply list_elem_of_lookup_2 in Hi.
      * eapply (H3 i j); [lia|done|done].
  - intros (H1 & H2). repeat split.
    + intros (q & Hq & E). rewrite (H1 p q) in E; [done|done|set_solver].
    + intros x q [Hq|Hq]%elem_of_app Hx; [apply H1; set_solver|].
      apply list_elem_of_singleton in Hq as ->.
      apply list_elem_of_lookup in Hx as [i Hi]. by apply (H2 (S i) 0%nat x p); [lia|..].
    + intros i j x q Hji Hi Hj. apply (H2 (S i) (S j) x q); [lia|done|done].
Qed.

(** What a window is once [Normalize] has accepted it. *)
Record normal (outer : Range) (w : CallingWindow) (ps : list Range) : Prop := mkNormal {
  normal_parsed : Parsed w = Ok ps;
  normal_texts : Ranges w = map (fun p => mkTimeRange (StartText p) (EndText p)) ps;
  normal_days : Days w <> [] /\ NoDup (Days w) /\ (forall d, d ∈ Days w -> d ∈ Weekdays);
  normal_days_sorted : StronglySorted (key_le dayIndex) (Days w);
  normal_count : 1 <= Z.of_nat (length ps) <= MaxWindowRanges;
  normal_sorted : StronglySorted (key_le Start) ps;
  normal_within : forall p, p ∈ ps -> range_wf p /\ Within p outer = true;
  normal_disjoint : forall i j p q,
    (j < i)%nat -> ps !! i = Some p -> ps !! j = Some q -> Overlaps q p = false
}.

Lemma Normalize_Ok w outer w' : Normalize w outer = Ok w' ->
  exists ps ps', Parsed w = Ok ps /\ ps' ≡ₚ ps /\ Days w' ≡ₚ Days w /\ normal outer w' ps'.
Proof.
  unfold Normalize. rewrite guard_res_Ok. intros [Hd H].
  apply bind_Ok_inv in H as (days & Hdays & H). apply check_days_Ok in Hdays as (-> & Hnd & Hin).
  simpl in H. rewrite !guard_res_Ok in H. destruct H as (Hr & Hm & H).
  apply bind_Ok_inv in H as (ps & Hps & H). apply check_ranges_Ok in Hps as [Hps Hw].
  apply guard_res_Ok in H as [Ho H]. injection H as <-.
  pose proof (parse_ranges_length _ _ Hps) as Hlen. b2p.
  assert (Hwf : forall p, p ∈ sort_by Start ps -> range_wf p).
  { intros p Hp%elem_of_sort_by. by eapply parse_ranges_wf. }
  exists ps, (sort_by Start ps). split; [done|]. split; [apply sort_by_perm|].
  split; [apply sort_by_perm|]. constructor; simpl.
  - by apply parse_ranges_texts.
  - done.
  - split; [|split].
    + intros E%(f_equal length). rewrite length_sort_by in E. simpl in *. lia.
    + by apply NoDup_sort_by.
    + intros d Hd'%elem_of_sort_by. by apply Hin.
  - apply sort_by_sorted.
  - rewrite length_sort_by. lia.
  - apply sort_by_sorted.
  - intros p Hp. split; [auto|]. apply Hw. by apply elem_of_sort_by in Hp.
  - apply anyOverlap_spec in Ho as [_ Ho]. exact Ho.
Qed.

Lemma Normalize_normal w outer ps : normal outer w ps -> Normalize w outer = Ok w.
Proof.
  intros [Hp Ht (Hne & Hnd & Hin) Hds Hc Hs Hw Ho]. unfold Normalize.
  pose proof (parse_ranges_length _ _ Hp) as Hlen.
  assert (length (Days w) <> 0%nat) by (destruct (Days w); simpl; [done|lia]).
  rewrite guard_res_Ok. split; [apply Z.eqb_neq; lia|].
  rewrite (proj2 (check_days_Ok [] (Days w) (Days w))).
  2:{ repeat split; [done | auto | set_solver]. }
  simpl. rewrite !guard_res_Ok. rewrite Z.eqb_neq, Z.ltb_ge.
  split; [lia|]. split; [lia|].
  rewrite (proj2 (check_ranges_Ok outer 0 (Ranges w) ps)).
  2:{ split; [exact Hp|]. intros p Hp'. by apply Hw. }
  simpl. rewrite !sort_by_id by done. rewrite guard_res_Ok. split.
  { apply anyOverlap_spec. split; [set_solver|done]. }
  rewrite <- Ht. by destruct w.
Qed.

(** ** Properties *)

(** a calling window that is accepted is stored in normal form: its days
    are the given ones, in week order; its ranges are the given ones, sorted
    by start and written HH:MM, between one and eight of them, each inside the
    outer hours minute by minute, no two sharing a minute; and normalising the
    stored window again gives it back. *)
Theorem Normalize_normal_form (w w' : CallingWindow) (outer : Range)
    (Ho : range_wf outer) (H : Normalize w outer = Ok w') :
  Days w' ≡ₚ Days w /\ NoDup (Days w') /\
  (exists ps ps', Parsed w = Ok ps /\ Parsed w' = Ok ps' /\ ps' ≡ₚ ps /\
     StronglySorted (key_le Start) ps' /\ 1 <= Z.of_nat (length ps') <= MaxWindowRanges /\
     (forall p m, p ∈ ps' -> Contains p m = true -> Contains outer m = true) /\
     (forall i j p q m, (j < i)%nat -> ps' !! i = Some p -> ps' !! j = Some q ->
        Contains p m = true -> Contains q m = false)) /\
  Normalize w' outer = Ok w'.
Proof.
  destruct (Normalize_Ok _ _ _ H) as (ps & ps' & Hp & Hperm & Hd & Hn).
  split; [done|]. split; [apply Hn|]. split; [|by eapply Normalize_normal].
  exists ps, ps'. pose proof (normal_within _ _ _ Hn) as Hw.
  repeat split; try apply Hn; try done.
  - intros p m Hin. destruct (Hw _ Hin) as [Hwf Hwi]. by apply Within_spec.
  - intros i j p q m Hji Hi Hj Hm. apply not_true_iff_false. intros Hq.
    pose proof (normal_disjoint _ _ _ Hn i j p q Hji Hi Hj) as Hov.
    apply not_true_iff_false in Hov. apply Hov. apply Overlaps_spec; [..|by exists m].
    + apply Hw. by apply list_elem_of_lookup_2 in Hj.
    + apply Hw. by apply list_elem_of_lookup_2 in Hi.
Qed.

Lemma Normalize_normal_form_witness :
  let w := mkWindow ["FRI"; "MON"]%string
             [mkTimeRange "14:00" "18:30"; mkTimeRange "09:00" "12:00"] in
  let w' := mkWindow ["MON"; "FRI"]%string
             [mkTimeRange "09:00" "12:00"; mkTimeRange "14:00" "18:30"] in
  Normalize w (mkRange 480 1260) = Ok w' /\ Normalize w' (mkRange 480 1260) = Ok w'.
Proof.
  intros w w'. assert (H : Normalize w (mkRange 480 1260) = Ok w') by (vm_compute; reflexivity).
  split; [exact H|]. eapply (Normalize_normal_form w w' (mkRange 480 1260)); [|exact H].
  unfold range_wf, MinutesPerDay; simpl; lia.
Defined.

End Window.
