(* ===== verification/Schedule.v ===== *)
(** * When a contact may be dialled: [internal/campaign/schedule.go]

    The calling window and the deployment's outer hours, read as wall-clock
    time in the contact's zone and turned into merged intervals of instants.
    The abstract reading of a list of intervals is the set of instants it
    covers; [merge] and [intersect] are proved against it, and [IsOpen] and
    [NextOpen] against a specification that mentions days, minutes and the
    zone's offset only. *)

From S2P Require Import Prelude DayRange Calendar CampaignTypes CallWindow.
Import DayRange Calendar CampaignTypes Window.

Module Schedule.

(** [internal/campaign/schedule.go:span] *)
Record span := mkSpan { from : instant; to : instant }.

#[export] Instance span_eq_dec : EqDecision span.
Proof. solve_decision. Defined.

(** [internal/campaign/schedule.go:Schedule] *)
Record Schedule := mkSchedule {
  Zone : option Location;
  Window : CallingWindow;
  Outer : Range
}.

(** [internal/campaign/schedule.go:NewSchedule] *)
Definition NewSchedule (tzdb : string -> option Location) (campaignZone contactZone : string)
    (w : CallingWindow) (outer : Range) : res ZoneError Schedule :=
  let name := if String.eqb contactZone "" then campaignZone else contactZone in
  loc ← LoadZone tzdb name;
  Ok (mkSchedule (Some loc) w outer).

(** [internal/campaign/schedule.go:scanDays] *)
Definition scanDays : Z := 10.

(** [internal/campaign/schedule.go:L148-L168] The candidates of [wallClock],
    sorted. The set of offsets is a list without duplicates. *)
Definition candidates (loc : Location) (naive : Z) : list instant :=
  let probes := [naive - secondsPerDay; naive; naive + secondsPerDay] in
  let offsets := remove_dups (map (offsetAt loc) probes) in
  let insts := map (fun off => of_unix (naive - off)) offsets in
  sort_by id (filter (fun t => localSec loc t / 60 = naive / 60) insts).

(** [internal/campaign/schedule.go:L175-L187] A wall time in a gap. *)
Definition gapEdge (loc : Location) (guess : instant) : instant :=
  let '(zoneStart, zoneEnd) := ZoneBounds loc guess in
  if is_zero zoneStart then zoneEnd
  else if is_zero zoneEnd then zoneStart
  else if Sub guess zoneStart <=? Sub zoneEnd guess then zoneStart
  else zoneEnd.

(** [internal/campaign/schedule.go:wallClock] *)
Definition wallClock (day minutes : Z) (isStart : bool) (loc : Location) : instant :=
  let naive := day * secondsPerDay + minutes * 60 in
  let cs := candidates loc naive in
  match cs with
  | c :: _ => if isStart then c else List.last cs c
  | [] => gapEdge loc (Date loc day minutes)
  end.

(** [internal/campaign/schedule.go:rangeSpans] *)
Definition rangeSpans (r : Range) (day : Z) (loc : Location) : list span :=
  let endDay := if CrossesMidnight r then day + 1 else day in
  let f := wallClock day (Start r) true loc in
  let t := wallClock endDay (End r) false loc in
  if t <=? f then [] else [mkSpan f t].

(** [internal/campaign/schedule.go:weekdayName] *)
Definition weekdayName (w : Z) : string := nth (Z.to_nat ((w + 6) mod 7)) Weekdays EmptyString.

(** [internal/campaign/schedule.go:L203-L214] The loop of [merge], [last] being the span at the end of the output. *)
Fixpoint merge_loop (last : span) (l : list span) : list span :=
  match l with
  | [] => [last]
  | sp :: l =>
      if from sp <=? to last
      then merge_loop (mkSpan (from last) (if to last <? to sp then to sp else to last)) l
      else last :: merge_loop sp l
  end.

(** [internal/campaign/schedule.go:merge] The code's sort is not stable, but
    spans that start together are joined in either order. *)
Definition merge (l : list span) : list span :=
  match sort_by from l with
  | [] => []
  | sp :: l => merge_loop sp l
  end.

(** [internal/campaign/schedule.go:intersect] *)
Definition intersect (a b : list span) : list span :=
  let b := merge b in
  let a := merge a in
  flat_map (fun x =>
    flat_map (fun y =>
      let f := if from x <? from y then from y else from x in
      let t := if to y <? to x then to y else to x in
      if f <? t then [mkSpan f t] else []) b) a.

(** [internal/campaign/schedule.go:L95-L99] *)
Definition dayOf (loc : Location) (first i : Z) : Z := localDay loc (Date loc (first + i) 720).

(** [internal/campaign/schedule.go:Schedule.spans] *)
Definition spans (s : Schedule) (t : instant) : list span :=
  let loc := match Zone s with Some loc => loc | None => UTC end in
  let today := localDay loc t in
  let days := map (dayOf loc today) (seqZ (-1) (scanDays + 1)) in
  let outers := flat_map (fun day =>
    if End (Outer s) =? 0 then [] else rangeSpans (Outer s) day loc) days in
  let windows := flat_map (fun day =>
    if contains (Days (Window s)) (weekdayName (weekday day)) then
      flat_map (fun r =>
        match New (TStart r) (TEnd r) with
        | Err _ => []
        | Ok parsed => rangeSpans parsed day loc
        end) (Ranges (Window s))
    else []) days in
  merge (if End (Outer s) =? 0 then windows else intersect windows (merge outers)).

(** [internal/campaign/schedule.go:Schedule.IsOpen] *)
Definition IsOpen (s : Schedule) (t : instant) : bool :=
  existsb (fun sp => (from sp <=? t) && (t <? to sp)) (spans s t).

(** [internal/campaign/schedule.go:Schedule.NextStart] *)
Definition NextStart (s : Schedule) (t : instant) : option instant :=
  from <$> List.find (fun sp => t <? from sp) (spans s t).

(** [internal/campaign/schedule.go:Schedule.NextOpen] *)
Definition NextOpen (s : Schedule) (t : instant) : option instant :=
  if IsOpen s t then Some t else NextStart s t.

(** ** The sets of instants *)

Definition in_span (t : instant) (sp : span) : Prop := from sp <= t < to sp.
Definition covered (l : list span) (t : instant) : Prop := exists sp, sp ∈ l /\ in_span t sp.
Definition valid_spans (l : list span) : Prop := forall sp, sp ∈ l -> from sp < to sp.

Lemma covered_nil t : covered [] t <-> False.
Proof. unfold covered. set_solver. Qed.

Lemma covered_cons sp l t : covered (sp :: l) t <-> in_span t sp \/ covered l t.
Proof. unfold covered. set_solver. Qed.

Lemma covered_perm l l' t : l ≡ₚ l' -> covered l t <-> covered l' t.
Proof. intros H. unfold covered. by setoid_rewrite H. Qed.

Lemma covered_flat_map {A} (f : A -> list span) l t :
  covered (flat_map f l) t <-> exists x, x ∈ l /\ covered (f x) t.
Proof.
  unfold covered. setoid_rewrite list_elem_of_In. setoid_rewrite in_flat_map. naive_solver.
Qed.

Lemma merge_loop_covered last l t :
  StronglySorted (key_le from) (last :: l) ->
  covered (merge_loop last l) t <-> covered (last :: l) t.
Proof.
  revert last. induction l as [|sp l IH]; intros last H; simpl; [done|].
  apply StronglySorted_inv in H as [Hl Hf]. apply StronglySorted_inv in Hl as [Hl Hsp].
  rewrite list.Forall_cons in Hf. destruct Hf as [Hlt Hf]. unfold key_le in Hlt.
  destruct (Z.leb_spec (from sp) (to last)) as [Hj|Hj].
  - rewrite IH by (by constructor). rewrite !covered_cons. unfold in_span. simpl.
    destruct (Z.ltb_spec (to last) (to sp)); intuition lia.
  - rewrite covered_cons, IH by (by constructor). rewrite !covered_cons. tauto.
Qed.

Lemma merge_covered l t : covered (merge l) t <-> covered l t.
Proof.
  rewrite <- (covered_perm _ _ t (sort_by_perm from l)). unfold merge.
  pose proof (sort_by_sorted from l) as H. destruct (sort_by from l) as [|sp l']; [done|].
  by apply merge_loop_covered.
Qed.

Lemma merge_loop_from last l sp : sp ∈ merge_loop last l -> from sp ∈ from <$> last :: l.
Proof.
  revert last. induction l as [|x l IH]; intros last; simpl; [set_solver|].
  destruct (_ <=? _); [intros H%IH; simpl in *; set_solver|].
  intros [->|H%IH]%elem_of_cons; set_solver.
Qed.

Lemma merge_from l sp : sp ∈ merge l -> from sp ∈ from <$> l.
Proof.
  unfold merge. pose proof (sort_by_perm from l) as E. destruct (sort_by from l) as [|x l']; [set_solver|].
  intros H%merge_loop_from. by rewrite <- E.
Qed.

Lemma merge_loop_separated last l :
  StronglySorted (key_le from) (last :: l) -> valid_spans (last :: l) ->
  StronglySorted (fun x y => to x < from y) (merge_loop last l) /\ valid_spans (merge_loop last l) /\
  (forall sp, sp ∈ merge_loop last l -> from last <= from sp).
Proof.
  revert last. induction l as [|sp l IH]; intros last H Hv; simpl.
  { split; [repeat constructor|]. split; [done|]. intros sp Hsp. apply list_elem_of_singleton in Hsp as ->. lia. }
  apply StronglySorted_inv in H as [Hl Hf]. pose proof (StronglySorted_inv Hl) as [Hl' Hsp].
  rewrite list.Forall_cons in Hf. destruct Hf as [Hlt Hf]. unfold key_le in Hlt.
  assert (Hvl : from last < to last) by (apply Hv; set_solver).
  assert (Hvs : valid_spans (sp :: l)) by (intros x Hx; apply Hv; set_solver).
  destruct (Z.leb_spec (from sp) (to last)) as [Hj|Hj].
  - apply (IH (mkSpan _ _)); [by constructor|]. intros x [->|Hx]%elem_of_cons; [|apply Hvs; set_solver].
    simpl. destruct (Z.ltb_spec (to last) (to sp)); lia.
  - destruct (IH sp Hl Hvs) as (Hs & Hv' & Hm). split; [|split].
    + constructor; [done|]. apply list.Forall_forall. intros x Hx%Hm. lia.
    + intros x [->|Hx]%elem_of_cons; [done|]. by apply Hv'.
    + intros x [->|Hx]%elem_of_cons; [lia|]. apply Hm in Hx. lia.
Qed.

Lemma merge_separated l : valid_spans l ->
  StronglySorted (fun x y => to x < from y) (merge l) /\ valid_spans (merge l).
Proof.
  intros Hv. unfold merge. pose proof (sort_by_sorted from l) as H.
  assert (Hv' : valid_spans (sort_by from l)) by (intros sp Hsp%elem_of_sort_by; auto).
  destruct (sort_by from l) as [|sp l']; [by split; [constructor|]|].
  by destruct (merge_loop_separated _ _ H Hv') as (? & ? & _).
Qed.

Lemma intersect_covered a b t : covered (intersect a b) t <-> covered a t /\ covered b t.
Proof.
  unfold intersect. rewrite <- (merge_covered a), <- (merge_covered b), covered_flat_map.
  setoid_rewrite covered_flat_map. split.
  - intros (x & Hx & y & Hy & H).
    destruct (_ <? _) in H; [|by apply covered_nil in H].
    apply covered_cons in H as [H|H]; [|by apply covered_nil in H].
    unfold in_span in H. simpl in H. zcases; split; [exists x|exists y|exists x|exists y|
      exists x|exists y|exists x|exists y]; (split; [done|]); unfold in_span; lia.
  - intros ((x & Hx & Hxt) & (y & Hy & Hyt)). exists x. split; [done|]. exists y. split; [done|].
    unfold in_span in *. zcases; try lia; apply covered_cons; left; unfold in_span; simpl; lia.
Qed.

Lemma intersect_from a b sp : sp ∈ intersect a b ->
  from sp < to sp /\ ((exists x, x ∈ a /\ from sp = from x) \/ (exists y, y ∈ b /\ from sp = from y)).
Proof.
  unfold intersect. rewrite list_elem_of_In, in_flat_map. intros (x & Hx & H).
  rewrite in_flat_map in H. destruct H as (y & Hy & H). rewrite <- list_elem_of_In in Hx, Hy.
  apply merge_from in Hx, Hy. apply list_elem_of_fmap in Hx as (x' & Ex & Hx).
  apply list_elem_of_fmap in Hy as (y' & Ey & Hy).
  revert H. zcases; simpl; intros HI; try done; (destruct HI as [<-|[]]; simpl; split; [lia|]);
    [right; exists y'|right; exists y'|left; exists x'|left; exists x']; done.
Qed.

Lemma rangeSpans_valid r day loc : valid_spans (rangeSpans r day loc).
Proof.
  unfold rangeSpans. intros sp. destruct (Z.leb_spec (wallClock (if CrossesMidnight r then day + 1 else day) (End r) false loc) (wallClock day (Start r) true loc)); [set_solver|].
  intros Hsp. apply list_elem_of_singleton in Hsp as ->. simpl. lia.
Qed.

(** The intervals [spans] returns are non-empty, in order and apart. *)
Lemma spans_separated s t :
  StronglySorted (fun x y => to x < from y) (spans s t) /\ valid_spans (spans s t).
Proof.
  apply merge_separated. destruct (_ =? 0).
  - intros sp Hsp. apply list_elem_of_In, in_flat_map in Hsp as (day & _ & Hsp).
    destruct (contains _ _); [|done]. apply in_flat_map in Hsp as (r & _ & Hsp).
    destruct (New _ _); [|done]. eapply rangeSpans_valid. by apply list_elem_of_In.
  - intros sp Hsp%intersect_from. apply Hsp.
Qed.

(** The days around [t] the search looks at, and the zone it reads them in. *)
Definition zone (s : Schedule) : Location :=
  match Zone s with Some loc => loc | None => UTC end.

Definition scanned (s : Schedule) (t : instant) (day : Z) : Prop :=
  exists i, -1 <= i < scanDays /\ day = dayOf (zone s) (localDay (zone s) t) i.

Lemma elem_of_scanned s t day :
  day ∈ map (dayOf (zone s) (localDay (zone s) t)) (seqZ (-1) (scanDays + 1)) <-> scanned s t day.
Proof.
  unfold scanned. rewrite list_elem_of_In, in_map_iff. setoid_rewrite <- list_elem_of_In.
  setoid_rewrite elem_of_seqZ. unfold scanDays. naive_solver lia.
Qed.

(** What [spans] covers, with the merging and clipping gone. *)
Lemma spans_covered s t v :
  covered (spans s t) v <->
  (exists day r p, scanned s t day /\ weekdayName (weekday day) ∈ Days (Window s) /\
     r ∈ Ranges (Window s) /\ New (TStart r) (TEnd r) = Ok p /\
     covered (rangeSpans p day (zone s)) v) /\
  (End (Outer s) = 0 \/
   exists day, scanned s t day /\ covered (rangeSpans (Outer s) day (zone s)) v).
Proof.
  unfold spans. fold (zone s). rewrite merge_covered.
  match goal with |- context [intersect ?w (merge ?o)] => set (ws := w); set (os := o) end.
  assert (Hw : covered ws v <-> exists day r p, scanned s t day /\
     weekdayName (weekday day) ∈ Days (Window s) /\ r ∈ Ranges (Window s) /\
     New (TStart r) (TEnd r) = Ok p /\ covered (rangeSpans p day (zone s)) v).
  { unfold ws. rewrite covered_flat_map. setoid_rewrite elem_of_scanned. split.
    - intros (day & Hd & H). destruct (contains _ _) eqn:Hc; [|by apply covered_nil in H].
      apply contains_true in Hc. apply covered_flat_map in H as (r & Hr & H).
      destruct (New _ _) as [p|] eqn:Hp; [|by apply covered_nil in H]. naive_solver.
    - intros (day & r & p & Hd & Hc & Hr & Hp & H). exists day. split; [done|].
      apply contains_true in Hc. rewrite Hc. apply covered_flat_map. exists r. by rewrite Hp. }
  destruct (Z.eqb_spec (End (Outer s)) 0) as [E|E]; [tauto|].
  rewrite intersect_covered, merge_covered, Hw. unfold os. rewrite covered_flat_map.
  setoid_rewrite elem_of_scanned. tauto.
Qed.

Lemma IsOpen_covered s t : IsOpen s t = true <-> covered (spans s t) t.
Proof.
  unfold IsOpen, covered, in_span. rewrite existsb_elem.
  by setoid_rewrite andb_true_iff; setoid_rewrite Z.leb_le; setoid_rewrite Z.ltb_lt.
Qed.

Lemma find_first {A} (f : A -> bool) l x : List.find f l = Some x ->
  exists pre post, l = pre ++ x :: post /\ f x = true /\ forall y, y ∈ pre -> f y = false.
Proof.
  induction l as [|y l IH]; simpl; [done|]. destruct (f y) eqn:Hy.
  - intros [= ->]. exists [], l. split; [done|]. split; [done|]. intros z Hz. set_solver.
  - intros (pre & post & -> & Hx & Hp)%IH. exists (y :: pre), post. split; [done|].
    split; [done|]. intros z [->|Hz]%elem_of_cons; auto.
Qed.

Lemma separated_app {A} (R : A -> A -> Prop) pre x post :
  StronglySorted R (pre ++ x :: post) -> (forall y, y ∈ post -> R x y).
Proof.
  induction pre as [|z pre IH]; simpl; intros H; apply StronglySorted_inv in H as [H Hf]; [|auto].
  intros y Hy. rewrite list.Forall_forall in Hf. auto.
Qed.

(** [NextOpen] is the first covered instant from [t] on. *)
Lemma NextOpen_first s t :
  match NextOpen s t with
  | Some u => t <= u /\ covered (spans s t) u /\ forall v, t <= v < u -> ~ covered (spans s t) v
  | None => forall v, t <= v -> ~ covered (spans s t) v
  end.
Proof.
  unfold NextOpen. destruct (IsOpen s t) eqn:Ho.
  { apply IsOpen_covered in Ho. split; [lia|]. split; [done|]. intros; lia. }
  assert (Hn : ~ covered (spans s t) t) by (rewrite <- IsOpen_covered, Ho; done).
  assert (Hafter : forall v sp, t <= v -> sp ∈ spans s t -> in_span v sp -> t < from sp).
  { intros v sp Hv Hsp Hin. apply Z.lt_nge. intros Hle. apply Hn. exists sp. split; [done|].
    unfold in_span in *. lia. }
  unfold NextStart. destruct (List.find _ _) as [sp|] eqn:Hf; simpl.
  - destruct (spans_separated s t) as [Hs Hv].
    apply find_first in Hf as (pre & post & E & Hsp & Hp). apply Z.ltb_lt in Hsp.
    assert (Hin : sp ∈ spans s t) by (rewrite E; set_solver).
    split; [lia|]. split.
    { exists sp. split; [done|]. unfold in_span. specialize (Hv sp Hin). lia. }
    intros v Hv' (x & Hx & Hxv). pose proof (Hafter v x ltac:(lia) Hx Hxv) as Hax.
    rewrite E in Hx, Hs. apply elem_of_app in Hx as [Hx|Hx].
    { apply Hp in Hx. apply Z.ltb_ge in Hx. lia. }
    unfold in_span in Hxv. apply elem_of_cons in Hx as [->|Hx]; [lia|].
    assert (to sp < from x) by exact (separated_app _ _ _ _ Hs x Hx). specialize (Hv sp Hin). lia.
  - intros v Hv (x & Hx & Hxv). pose proof (Hafter v x Hv Hx Hxv) as Hax.
    apply list_elem_of_In in Hx. pose proof (find_none _ _ Hf x Hx) as H. apply Z.ltb_ge in H. lia.
Qed.

(** ** Wall-clock times of a zone that changes its offset *)

(** Around the wall-clock second [naive] (within a day either side) the zone
    changes its offset at most once, from [o1] to [o2] at Unix second [tau];
    a zone whose offset does not change there has [o1 = o2]. *)
Record one_change (loc : Location) (naive o1 o2 tau : Z) : Prop := mkOneChange {
  oc_before s : naive - secondsPerDay <= s < tau -> offsetAt loc s = o1;
  oc_after s : tau <= s <= naive + secondsPerDay -> offsetAt loc s = o2;
  oc_offsets : Z.abs o1 < secondsPerDay /\ Z.abs o2 < secondsPerDay;
  oc_tau : naive - secondsPerDay < tau <= naive + secondsPerDay
}.

Lemma candidates_elem loc naive t :
  t ∈ candidates loc naive <->
  localSec loc t / 60 = naive / 60 /\
  exists probe, probe ∈ [naive - secondsPerDay; naive; naive + secondsPerDay] /\
    t = of_unix (naive - offsetAt loc probe).
Proof.
  unfold candidates. rewrite elem_of_sort_by, list_elem_of_filter, list_elem_of_In, in_map_iff.
  setoid_rewrite <- list_elem_of_In. setoid_rewrite elem_of_remove_dups.
  setoid_rewrite list_elem_of_In. setoid_rewrite in_map_iff. setoid_rewrite <- list_elem_of_In.
  naive_solver.
Qed.

(** Every second that reads [naive] is a candidate. *)
Lemma candidates_complete loc naive o1 o2 tau s : one_change loc naive o1 o2 tau ->
  s + offsetAt loc s = naive -> (Z.abs (offsetAt loc s) < secondsPerDay) ->
  of_unix s ∈ candidates loc naive.
Proof.
  intros [Hb Ha Ho Ht] Hs Hoff. apply candidates_elem. unfold localSec. rewrite unix_of_unix, Hs.
  split; [done|]. unfold secondsPerDay in *.
  destruct (Z.lt_ge_cases s tau) as [Hlt|Hge].
  - exists (naive - 86400). split; [set_solver|]. rewrite Hb by lia. rewrite Hb in Hs by lia.
    f_equal. lia.
  - exists (naive + 86400). split; [set_solver|]. rewrite Ha by lia. rewrite Ha in Hs by lia.
    f_equal. lia.
Qed.

Lemma last_default {A} (d : A) l a b : List.last (d :: l) a = List.last (d :: l) b.
Proof. revert d. induction l as [|e l IH]; intros d; [done|]. exact (IH e). Qed.

Lemma last_elem {A} (d : A) l a : List.last (d :: l) a ∈ d :: l.
Proof.
  revert d. induction l as [|e l IH]; intros d; [set_solver|]. right. exact (IH e).
Qed.

Lemma sorted_head_last {A} (key : A -> Z) c l x :
  StronglySorted (key_le key) (c :: l) -> x ∈ c :: l ->
  key c <= key x <= key (List.last (c :: l) c).
Proof.
  revert c x. induction l as [|d l IH]; intros c x H Hx.
  { apply list_elem_of_singleton in Hx as ->. simpl. lia. }
  apply StronglySorted_inv in H as [H Hf]. rewrite list.Forall_forall in Hf.
  assert (key_le key c d) as Hcd by (apply Hf; set_solver).
  replace (List.last (c :: d :: l) c) with (List.last (d :: l) d).
  2:{ exact (last_default d l d c). }
  apply elem_of_cons in Hx as [->|Hx].
  - pose proof (IH d d H ltac:(set_solver)). unfold key_le in *. lia.
  - pose proof (IH d x H Hx). pose proof (Hf x Hx). unfold key_le in *. lia.
Qed.

(** The wall time exists: the first such second for a start, the last for an
    end. *)
Lemma wallClock_exists loc day minutes o1 o2 tau isStart s :
  let naive := day * secondsPerDay + minutes * 60 in
  one_change loc naive o1 o2 tau ->
  s + offsetAt loc s = naive -> Z.abs (offsetAt loc s) < secondsPerDay ->
  localSec loc (wallClock day minutes isStart loc) / 60 = naive / 60 /\
  (if isStart then wallClock day minutes isStart loc <= of_unix s
   else of_unix s <= wallClock day minutes isStart loc).
Proof.
  intros naive Hoc Hs Hoff. pose proof (candidates_complete _ _ _ _ _ _ Hoc Hs Hoff) as Hc.
  unfold wallClock. fold naive.
  pose proof (sort_by_sorted id (filter (fun t => localSec loc t / 60 = naive / 60)
    (map (fun off => of_unix (naive - off))
       (remove_dups (map (offsetAt loc) [naive - secondsPerDay; naive; naive + secondsPerDay]))))) as Hsort.
  fold (candidates loc naive) in Hsort.
  destruct (candidates loc naive) as [|c cs] eqn:E; [set_solver|].
  destruct (sorted_head_last id c cs _ Hsort Hc) as [H1 H2]. unfold id in *.
  destruct isStart; (split; [|done]).
  - apply (candidates_elem loc naive c). rewrite E. set_solver.
  - apply (candidates_elem loc naive). rewrite E. apply last_elem.
Qed.

(** The zone's bounds around the change. *)
Lemma bounds_before loc naive o1 o2 tau s : LocationOk loc -> one_change loc naive o1 o2 tau ->
  zoneTo loc (naive - secondsPerDay) = Some tau -> naive - secondsPerDay <= s < tau ->
  zoneTo loc s = Some tau /\ (forall z, zoneFrom loc s = Some z -> z <= naive - secondsPerDay).
Proof.
  intros Hl _ Hto Hs.
  destruct (loc_const loc Hl (naive - secondsPerDay) s) as (_ & Hf & Ht).
  - intros z Hz%(loc_from loc Hl). lia.
  - intros z. rewrite Hto. intros [= <-]. lia.
  - rewrite Ht, Hf. split; [done|]. apply loc_from, Hl.
Qed.

Lemma bounds_after loc naive o1 o2 tau s : LocationOk loc -> one_change loc naive o1 o2 tau ->
  zoneFrom loc (naive + secondsPerDay) = Some tau -> tau <= s <= naive + secondsPerDay ->
  zoneFrom loc s = Some tau /\ (forall z, zoneTo loc s = Some z -> naive + secondsPerDay < z).
Proof.
  intros Hl _ Hto Hs.
  destruct (loc_const loc Hl (naive + secondsPerDay) s) as (_ & Hf & Ht).
  - intros z. rewrite Hto. intros [= <-]. lia.
  - intros z Hz%(loc_to loc Hl). lia.
  - rewrite Ht, Hf. split; [done|]. apply loc_to, Hl.
Qed.

(** In a gap (no second reads [naive]) the offset goes up across it. *)
Lemma gap_offsets loc naive o1 o2 tau : one_change loc naive o1 o2 tau ->
  (forall s, s + offsetAt loc s <> naive) -> naive - o2 < tau <= naive - o1.
Proof.
  intros [Hb Ha Ho Ht] Hg. unfold secondsPerDay in *.
  pose proof (Hg (naive - o1)) as H1. pose proof (Hg (naive - o2)) as H2.
  split.
  - destruct (Z.lt_ge_cases (naive - o2) tau); [done|]. rewrite Ha in H2 by lia. lia.
  - destruct (Z.lt_ge_cases (naive - o1) tau); [|lia]. rewrite Hb in H1 by lia. lia.
Qed.

Lemma gap_no_candidate loc day minutes o1 o2 tau :
  let naive := day * secondsPerDay + minutes * 60 in
  one_change loc naive o1 o2 tau -> naive - o2 < tau <= naive - o1 -> 60 <= o2 - o1 ->
  candidates loc naive = [].
Proof.
  intros naive [Hb Ha Ho Ht] Hg Hj.
  destruct (candidates loc naive) as [|c cs] eqn:E; [done|]. exfalso.
  assert (Hc : c ∈ candidates loc naive) by (rewrite E; set_solver).
  apply candidates_elem in Hc as (Hm & probe & Hp & ->).
  unfold localSec in Hm. rewrite unix_of_unix in Hm.
  assert (Hpo : offsetAt loc probe = o1 \/ offsetAt loc probe = o2).
  { unfold secondsPerDay in *. destruct (Z.lt_ge_cases probe tau);
      [left; apply Hb | right; apply Ha]; set_unfold; lia. }
  assert (Hn : naive = 60 * (day * 1440 + minutes)) by (unfold naive, secondsPerDay; lia).
  clearbody naive. unfold secondsPerDay in *. destruct Hpo as [Hpo|Hpo]; rewrite Hpo in Hm.
  - rewrite (Ha (naive - o1)) in Hm by lia.
    pose proof (Z.div_le_mono (naive + 1 * 60) (naive - o1 + o2) 60).
    rewrite Z.div_add in * by lia. lia.
  - rewrite (Hb (naive - o2)) in Hm by lia.
    pose proof (Z.div_le_mono (naive - o2 + o1) (naive + (-1) * 60) 60).
    rewrite Z.div_add in * by lia. lia.
Qed.

Lemma Sub_small a b : 0 <= a - b < 2 ^ 63 -> Sub a b = a - b.
Proof. unfold Sub. lia. Qed.

(** The edge of the gap, from whichever side [time.Date] guessed. *)
Lemma gap_edge loc naive o1 o2 tau s : LocationOk loc -> one_change loc naive o1 o2 tau ->
  zoneTo loc (naive - secondsPerDay) = Some tau ->
  zoneFrom loc (naive + secondsPerDay) = Some tau ->
  of_unix tau <> zero_time -> naive - o2 < tau <= naive - o1 ->
  Z.abs o1 <= 50400 -> Z.abs o2 <= 50400 -> o2 - o1 <= 10800 ->
  s = naive - o2 \/ s = naive - o1 ->
  gapEdge loc (of_unix s) = of_unix tau.
Proof.
  intros Hl Hoc Hto Hfrom Hz Hg H1 H2 Hj Hs. unfold gapEdge, ZoneBounds. rewrite unix_of_unix.
  unfold is_zero, zero_time in *.
  assert (Hss : forall a b, of_unix a - of_unix b = (a - b) * second) by (intros; unfold of_unix; lia).
  destruct Hs as [Hs|Hs].
  - destruct (bounds_before _ _ _ _ _ s Hl Hoc Hto) as [-> Hb]; [unfold secondsPerDay; lia|].
    destruct (zoneFrom loc s) as [z|]; [|done]. specialize (Hb z eq_refl).
    destruct (Z.eqb_spec (of_unix z) 0); [done|].
    destruct (Z.eqb_spec (of_unix tau) 0); [done|].
    replace (Sub _ _ <=? Sub _ _) with false; [done|]. symmetry. apply Z.leb_gt.
    unfold secondsPerDay in *. rewrite (Sub_small (of_unix tau)).
    2:{ rewrite Hss. unfold second. lia. }
    unfold Sub. rewrite !Hss. unfold second. lia.
  - destruct (bounds_after _ _ _ _ _ s Hl Hoc Hfrom) as [-> Hb]; [unfold secondsPerDay; lia|].
    destruct (Z.eqb_spec (of_unix tau) 0); [done|].
    destruct (zoneTo loc s) as [z|]; [|done]. specialize (Hb z eq_refl).
    destruct (Z.eqb_spec (of_unix z) 0); [done|].
    replace (Sub _ _ <=? Sub _ _) with true; [done|]. symmetry. apply Z.leb_le.
    unfold secondsPerDay in *. rewrite (Sub_small (of_unix s)).
    2:{ rewrite Hss. unfold second. lia. }
    unfold Sub. rewrite !Hss. unfold second. lia.
Qed.

(** [time.Date] in a gap answers with one of the two offsets. *)
Lemma Date_gap loc day minutes o1 o2 tau : LocationOk loc ->
  let naive := day * secondsPerDay + minutes * 60 in
  one_change loc naive o1 o2 tau ->
  zoneTo loc (naive - secondsPerDay) = Some tau ->
  zoneFrom loc (naive + secondsPerDay) = Some tau ->
  naive - o2 < tau <= naive - o1 ->
  Date loc day minutes = of_unix (naive - o2) \/ Date loc day minutes = of_unix (naive - o1).
Proof.
  intros Hl naive Hoc Hto Hfrom Hg. unfold Date. fold naive.
  pose proof Hoc as [Hb Ha Ho Ht]. unfold secondsPerDay in *.
  assert (Hr : forall s, naive - 86400 <= s <= naive + 86400 -> offsetAt loc s = o1 \/ offsetAt loc s = o2).
  { intros s Hs. destruct (Z.lt_ge_cases s tau); [left; apply Hb | right; apply Ha]; lia. }
  destruct (Hr naive ltac:(lia)) as [E|E]; rewrite E;
    (destruct (negb _ && _); [|auto]).
  - destruct (Hr (naive - o1) ltac:(lia)) as [->| ->]; auto.
  - destruct (Hr (naive - o2) ltac:(lia)) as [->| ->]; auto.
Qed.

(** the instant a wall-clock time stands for, in any zone whose offset
    changes at most once within a day of it. A time that exists once or twice
    is read back by the result to the minute, and a range starts at the first
    such instant and ends at the last, so it is never shorter than its text.
    A time the clock skips is the instant of the jump, for a start and for an
    end alike (offsets up to 14 hours, jumps of one minute to three hours). *)
Theorem wallClock_spec (loc : Location) (Hloc : LocationOk loc)
    (Hbound : forall s, Z.abs (offsetAt loc s) <= 50400) (day minutes o1 o2 tau : Z)
    (Hoc : one_change loc (day * secondsPerDay + minutes * 60) o1 o2 tau) :
  let naive := day * secondsPerDay + minutes * 60 in
  (forall s, s + offsetAt loc s = naive ->
     localSec loc (wallClock day minutes true loc) / 60 = naive / 60 /\
     localSec loc (wallClock day minutes false loc) / 60 = naive / 60 /\
     wallClock day minutes true loc <= of_unix s <= wallClock day minutes false loc) /\
  ((forall s, s + offsetAt loc s <> naive) ->
   zoneTo loc (naive - secondsPerDay) = Some tau -> zoneFrom loc (naive + secondsPerDay) = Some tau ->
   of_unix tau <> zero_time -> 60 <= o2 - o1 <= 10800 ->
   forall isStart, wallClock day minutes isStart loc = of_unix tau).
Proof.
  intros naive. split.
  - intros s Hs. assert (Z.abs (offsetAt loc s) < secondsPerDay) as Ho
      by (unfold secondsPerDay; specialize (Hbound s); lia).
    destruct (wallClock_exists loc day minutes o1 o2 tau true s Hoc Hs Ho).
    destruct (wallClock_exists loc day minutes o1 o2 tau false s Hoc Hs Ho). repeat split; done.
  - intros Hg Hto Hfrom Hz Hj isStart. apply (gap_offsets _ _ _ _ _ Hoc) in Hg.
    unfold wallClock. rewrite (gap_no_candidate loc day minutes o1 o2 tau) by (done || lia).
    assert (Ho : Z.abs o1 <= 50400 /\ Z.abs o2 <= 50400).
    { pose proof Hoc as [Hb Ha _ Ht]. fold naive in Hb, Ha, Ht. unfold secondsPerDay in *. split.
      - rewrite <- (Hb (naive - 86400)) by lia. apply Hbound.
      - rewrite <- (Ha (naive + 86400)) by lia. apply Hbound. }
    destruct (Date_gap loc day minutes o1 o2 tau Hloc Hoc Hto Hfrom Hg) as [E|E]; rewrite E;
      eapply gap_edge; eauto; lia.
Qed.

(** Berlin, March 2026: 02:00 to 03:00 on the 29th does not exist. *)
Lemma wallClock_spec_witness :
  let berlin := OneChange 3600 7200 1774746000 in
  let day := 20541 in
  wallClock day 150 true berlin = of_unix 1774746000 /\
  wallClock day 150 false berlin = of_unix 1774746000.
Proof.
  intros berlin day.
  assert (H : forall isStart, wallClock day 150 isStart berlin = of_unix 1774746000); [|split; apply H].
  apply (wallClock_spec berlin (OneChange_ok _ _ _)) with (o1 := 3600) (o2 := 7200).
  - intros s. unfold berlin. simpl. destruct (s <? 1774746000); simpl; lia.
  - constructor; unfold secondsPerDay, day; try lia.
    + intros s Hs. simpl. destruct (Z.ltb_spec s 1774746000); lia.
    + intros s Hs. simpl. destruct (Z.ltb_spec s 1774746000); lia.
  - intros s. unfold day, secondsPerDay. simpl. destruct (Z.ltb_spec s 1774746000); lia.
  - vm_compute. reflexivity.
  - vm_compute. reflexivity.
  - vm_compute. discriminate.
  - lia.
Defined.

(** ** Zones the search reads rightly *)

(** Instant [v] falls in range [r] as it starts on [day]. *)
Definition started (r : Range) (day : Z) (loc : Location) (v : instant) : Prop :=
  wallClock day (Start r) true loc <= v <
  wallClock (if CrossesMidnight r then day + 1 else day) (End r) false loc.

(** The schedule at one instant, over every day there is: a listed range
    started on a listed weekday holds it, and so do the outer hours. *)
Definition open_on (s : Schedule) (v : instant) : Prop :=
  (exists day r p, weekdayName (weekday day) ∈ Days (Window s) /\ r ∈ Ranges (Window s) /\
     New (TStart r) (TEnd r) = Ok p /\ started p day (zone s) v) /\
  (End (Outer s) = 0 \/ exists day, started (Outer s) day (zone s) v).

(** What the search needs of a zone: noon is read back on its own day, local
    days never go back, and a range starts on its day and ends on the day of
    its last minute. *)
Record regular (loc : Location) : Prop := mkRegular {
  reg_noon day : localDay loc (Date loc day 720) = day;
  reg_mono t v : t <= v -> localDay loc t <= localDay loc v;
  reg_start day m : 0 <= m < MinutesPerDay -> localDay loc (wallClock day m true loc) = day;
  reg_end day m v : 0 <= m <= MinutesPerDay -> v < wallClock day m false loc ->
    localDay loc v <= day + m / MinutesPerDay
}.

Lemma covered_rangeSpans r day loc v : covered (rangeSpans r day loc) v <-> started r day loc v.
Proof.
  unfold rangeSpans, started. zcases; rewrite ?covered_cons, covered_nil; unfold in_span; simpl; lia.
Qed.

Section regular.
Context (s : Schedule) (Hz : regular (zone s)).
Context (Hout : End (Outer s) = 0 \/ range_wf (Outer s)).
#[local] Notation ld := (localDay (zone s)).

Lemma scanned_regular t day : scanned s t day <-> ld t - 1 <= day < ld t + scanDays.
Proof.
  unfold scanned, dayOf. setoid_rewrite (reg_noon _ Hz).
  split; [intros (i & ? & ->); lia|]. intros H. exists (day - ld t). lia.
Qed.

Lemma started_day r day v : range_wf r -> started r day (zone s) v -> ld v - 1 <= day <= ld v.
Proof.
  intros (Hs & He & Hne) [Hf Ht]. apply (reg_mono _ Hz) in Hf. rewrite (reg_start _ Hz) in Hf by done.
  apply (reg_end _ Hz) in Ht; [|lia]. unfold CrossesMidnight in Ht.
  pose proof (Z.div_le_upper_bound (End r) MinutesPerDay 1). unfold MinutesPerDay in *.
  destruct (Z.ltb_spec (End r) (Start r)); [|lia]. rewrite Z.div_small in Ht; lia.
Qed.

(** Within the horizon the covered instants are the open ones. *)
Lemma spans_open_on t v : ld t <= ld v < ld t + scanDays -> covered (spans s t) v <-> open_on s v.
Proof.
  intros Hv. rewrite spans_covered. unfold open_on. setoid_rewrite covered_rangeSpans.
  setoid_rewrite scanned_regular.
  assert (Hin : forall r day, range_wf r -> started r day (zone s) v -> ld t - 1 <= day < ld t + scanDays).
  { intros r day Hr H%started_day; [lia|done]. }
  split; intros [(day & r & p & H) Ho].
  - split; [exists day, r, p; tauto|]. destruct Ho as [|(d & _ & ?)]; eauto.
  - split.
    + exists day, r, p. destruct H as (? & ? & Hp & H). pose proof (Hin _ _ (New_ok_wf _ _ _ Hp) H). tauto.
    + destruct Ho as [|(d & Ho)]; [by left|]. destruct Hout as [|Hwf]; [by left|]. right. exists d. eauto.
Qed.

Lemma IsOpen_open_on t : IsOpen s t = true <-> open_on s t.
Proof. rewrite IsOpen_covered. apply spans_open_on. unfold scanDays. lia. Qed.

(** A span begins on a scanned day. *)
Lemma rangeSpans_day r day sp : range_wf r -> sp ∈ rangeSpans r day (zone s) -> ld (from sp) = day.
Proof.
  intros (Hr & _). unfold rangeSpans. destruct (_ <=? _); [set_solver|].
  intros ->%list_elem_of_singleton. by apply (reg_start _ Hz).
Qed.

Lemma spans_day t sp : sp ∈ spans s t -> ld (from sp) < ld t + scanDays.
Proof.
  intros H%merge_from. fold (zone s) in H.
  assert (Hw : forall x, x ∈ flat_map (fun day =>
      if contains (Days (Window s)) (weekdayName (weekday day)) then
        flat_map (fun r => match New (TStart r) (TEnd r) with
                           | Err _ => []
                           | Ok parsed => rangeSpans parsed day (zone s) end) (Ranges (Window s))
      else []) (map (dayOf (zone s) (ld t)) (seqZ (-1) (scanDays + 1))) -> ld (from x) < ld t + scanDays).
  { intros x Hx. apply list_elem_of_In, in_flat_map in Hx as (day & Hd & Hx).
    apply list_elem_of_In, elem_of_scanned, scanned_regular in Hd.
    destruct (contains _ _); [|done]. apply in_flat_map in Hx as (r & _ & Hx).
    destruct (New _ _) eqn:Hp; [|done]. apply list_elem_of_In in Hx.
    apply rangeSpans_day in Hx; [lia|by eapply New_ok_wf]. }
  destruct (Z.eqb_spec (End (Outer s)) 0) as [E|E].
  { apply list_elem_of_fmap in H as (x & -> & Hx). by apply Hw. }
  apply list_elem_of_fmap in H as (x & -> & Hx).
  apply intersect_from in Hx as [_ [(y & Hy & ->)|(y & Hy & ->)]]; [by apply Hw|].
  apply merge_from, list_elem_of_fmap in Hy as (z & -> & Hzz).
  apply list_elem_of_In, in_flat_map in Hzz as (day & Hd & Hzz).
  apply list_elem_of_In, elem_of_scanned, scanned_regular in Hd. apply list_elem_of_In in Hzz.
  destruct Hout; [lia|]. apply rangeSpans_day in Hzz; [lia|done].
Qed.

Lemma NextOpen_day t u : NextOpen s t = Some u -> ld u < ld t + scanDays.
Proof.
  unfold NextOpen, NextStart. destruct (IsOpen s t).
  - intros [= <-]. unfold scanDays. lia.
  - destruct (List.find _ _) as [sp|] eqn:Hf; [|done]. simpl. intros [= <-].
    apply find_some in Hf as [Hf _]. by apply spans_day, list_elem_of_In.
Qed.

(** [NextOpen] is the first open instant; when there is none, none is near. *)
Lemma NextOpen_regular t :
  match NextOpen s t with
  | Some u => t <= u /\ open_on s u /\ forall v, t <= v < u -> ~ open_on s v
  | None => forall v, t <= v -> ld v < ld t + scanDays -> ~ open_on s v
  end.
Proof.
  pose proof (NextOpen_first s t) as Hf. pose proof (NextOpen_day t) as Hd.
  destruct (NextOpen s t) as [u|].
  - specialize (Hd u eq_refl). destruct Hf as (Htu & Hc & Hno).
    assert (Hrange : forall v, t <= v <= u -> covered (spans s t) v <-> open_on s v).
    { intros v Hv. apply spans_open_on.
      pose proof (reg_mono _ Hz t v ltac:(lia)). pose proof (reg_mono _ Hz v u ltac:(lia)). lia. }
    split; [done|]. split; [by apply Hrange; [lia|]|].
    intros v Hv. rewrite <- Hrange by lia. by apply Hno.
  - intros v Hv Hl. rewrite <- (spans_open_on t); [by apply Hf|].
    pose proof (reg_mono _ Hz t v Hv). lia.
Qed.

End regular.

(** *** The zones of the world *)

(** A zone of the world: offsets of at most fourteen hours, local days that
    never go back (a clock put back does not cross midnight), noon clear of any
    change, and around any wall-clock time at most one change within a day;
    where the clock is put forward it is by one minute to three hours, within a
    day. *)
Record civil (loc : Location) : Prop := mkCivil {
  civil_ok : LocationOk loc;
  civil_bound sec : Z.abs (offsetAt loc sec) <= 50400;
  civil_noon day : localDay loc (Date loc day 720) = day;
  civil_mono a b : a <= b ->
    (a + offsetAt loc a) / secondsPerDay <= (b + offsetAt loc b) / secondsPerDay;
  civil_changes naive : exists o1 o2 tau, one_change loc naive o1 o2 tau /\
    (o1 < o2 -> zoneTo loc (naive - secondsPerDay) = Some tau /\
      zoneFrom loc (naive + secondsPerDay) = Some tau /\ of_unix tau <> zero_time /\
      60 <= o2 - o1 <= 10800 /\ (tau + o1) / secondsPerDay = (tau + o2) / secondsPerDay)
}.

Lemma unix_mono t v : t <= v -> unix t <= unix v.
Proof. intros H. unfold unix. pose proof (Z.div_le_mono t v second). unfold second in *. lia. Qed.

Section civil.
Context (loc : Location) (Hc : civil loc).

(** A wall-clock time exists, and is read back, or is skipped by a jump. *)
Lemma wallClock_cases day m :
  let naive := day * secondsPerDay + m * 60 in
  (forall isStart, localSec loc (wallClock day m isStart loc) / 60 = naive / 60) \/
  (exists o1 o2 tau, offsetAt loc tau = o2 /\ tau + o1 <= naive < tau + o2 /\
     (tau + o1) / secondsPerDay = (tau + o2) / secondsPerDay /\
     forall isStart, wallClock day m isStart loc = of_unix tau).
Proof.
  intros naive. destruct (civil_changes _ Hc naive) as (o1 & o2 & tau & Hoc & Hj).
  destruct (wallClock_spec loc (civil_ok _ Hc) (civil_bound _ Hc) day m o1 o2 tau Hoc) as [Hex Hgap].
  fold naive in Hex, Hgap. pose proof Hoc as [Hb Ha Ho Ht].
  assert (He : forall sec, sec + offsetAt loc sec = naive ->
    forall isStart, localSec loc (wallClock day m isStart loc) / 60 = naive / 60).
  { intros sec (? & ? & _)%Hex []; done. }
  destruct (Z.lt_ge_cases (naive - o1) tau) as [H1|H1].
  { left. apply (He (naive - o1)). rewrite Hb; unfold secondsPerDay in *; lia. }
  destruct (Z.lt_ge_cases (naive - o2) tau) as [H2|H2].
  2:{ left. apply (He (naive - o2)). rewrite Ha; unfold secondsPerDay in *; lia. }
  right. exists o1, o2, tau. destruct (Hj ltac:(lia)) as (? & ? & ? & ? & ?).
  split; [apply Ha; lia|]. split; [lia|]. split; [done|]. apply Hgap; try done.
  intros sec Hsec. unfold secondsPerDay in *. pose proof (civil_bound _ Hc sec).
  destruct (Z.lt_ge_cases sec tau); [rewrite Hb in Hsec by lia | rewrite Ha in Hsec by lia]; lia.
Qed.

Lemma day_of_minute a b : a / 60 = b / 60 -> a / secondsPerDay = b / secondsPerDay.
Proof. unfold secondsPerDay. replace 86400 with (60 * 1440) by done. rewrite <- !Z.div_div by done. by intros ->. Qed.

Lemma naive_day day m : 0 <= m -> (day * secondsPerDay + m * 60) / secondsPerDay = day + m / MinutesPerDay.
Proof.
  intros Hm. rewrite Z.div_add_l by done. f_equal. unfold secondsPerDay, MinutesPerDay.
  replace 86400 with (1440 * 60) by done. by rewrite Z.div_mul_cancel_r.
Qed.

Lemma localDay_mono t v : t <= v -> localDay loc t <= localDay loc v.
Proof. intros H%unix_mono. by apply (civil_mono _ Hc). Qed.

Lemma civil_regular : regular loc.
Proof.
  constructor.
  - apply (civil_noon _ Hc).
  - apply localDay_mono.
  - intros day m Hm. destruct (wallClock_cases day m) as [H|(o1 & o2 & tau & Ho & Hn & Hd & H)].
    + unfold localDay. rewrite (day_of_minute _ _ (H true)), naive_day by lia. rewrite Z.div_small; lia.
    + rewrite H. unfold localDay, localSec. rewrite unix_of_unix, Ho.
      pose proof (naive_day day m ltac:(lia)) as E. rewrite (Z.div_small m) in E by done.
      pose proof (Z.div_le_mono (tau + o1) (day * secondsPerDay + m * 60) secondsPerDay ltac:(done) ltac:(lia)).
      pose proof (Z.div_le_mono (day * secondsPerDay + m * 60) (tau + o2) secondsPerDay ltac:(done) ltac:(lia)). lia.
  - intros day m v Hm Hv. rewrite <- naive_day by lia.
    etransitivity; [apply localDay_mono, Z.lt_le_incl, Hv|].
    destruct (wallClock_cases day m) as [H|(o1 & o2 & tau & Ho & Hn & Hd & H)].
    + unfold localDay. by rewrite (day_of_minute _ _ (H false)).
    + rewrite H. unfold localDay, localSec. rewrite unix_of_unix, Ho, <- Hd. apply Z.div_le_mono; [done|lia].
Qed.

End civil.

(** ** Zones with one offset *)

(** Local second [w] falls in range [r] as it starts on [day]. *)
Definition range_on (r : Range) (day w : Z) : Prop :=
  day * secondsPerDay + Start r * 60 <= w <
  (if CrossesMidnight r then day + 1 else day) * secondsPerDay + End r * 60.

(** The schedule at local second [w], told by the calendar alone: the day, the
    minute of the day, the listed days and the ranges; a range that crosses
    midnight belongs to the day it starts on. *)
Definition window_at (w : CallingWindow) (sec : Z) : Prop :=
  let day := sec / secondsPerDay in
  let m := sec mod secondsPerDay / 60 in
  exists r p, r ∈ Ranges w /\ New (TStart r) (TEnd r) = Ok p /\
    ((weekdayName (weekday day) ∈ Days w /\ Start p <= m /\
      (m < End p \/ CrossesMidnight p = true)) \/
     (weekdayName (weekday (day - 1)) ∈ Days w /\ CrossesMidnight p = true /\ m < End p)).

Definition open_at (s : Schedule) (sec : Z) : Prop :=
  window_at (Window s) sec /\
  (End (Outer s) = 0 \/ Contains (Outer s) (sec mod secondsPerDay / 60) = true).

Lemma range_on_iff r day w : range_wf r ->
  range_on r day w <->
  (day = w / secondsPerDay /\ Start r <= w mod secondsPerDay / 60 /\
   (w mod secondsPerDay / 60 < End r \/ CrossesMidnight r = true)) \/
  (day = w / secondsPerDay - 1 /\ CrossesMidnight r = true /\ w mod secondsPerDay / 60 < End r).
Proof.
  intros (Hs & He & Hne). unfold range_on, CrossesMidnight, MinutesPerDay, secondsPerDay in *.
  pose proof (Z.div_mod w 86400 ltac:(done)) as Hw.
  pose proof (Z.mod_pos_bound w 86400 ltac:(done)) as Hr.
  set (q := w / 86400) in *. set (k := w mod 86400) in *. clearbody q k.
  pose proof (Z.div_mod k 60 ltac:(done)) as Hk.
  pose proof (Z.mod_pos_bound k 60 ltac:(done)) as Hm.
  set (m := k / 60) in *. set (j := k mod 60) in *. clearbody m j.
  assert (0 <= m < 1440) by lia.
  destruct (Z.ltb_spec (End r) (Start r)).
  - split.
    + intros Hi. assert (day = q \/ day = q - 1) as [->| ->] by lia.
      * left. split; [done|]. split; [lia|by right].
      * right. split; [done|]. split; [done|lia].
    + intros [(-> & ? & _)|(-> & _ & ?)]; lia.
  - split.
    + intros Hi. assert (day = q) as -> by lia. left. split; [done|]. split; [lia|]. left; lia.
    + intros [(-> & ? & [?|?])|(_ & ? & _)]; [lia|done..].
Qed.

Lemma range_on_day r day w : range_wf r -> range_on r day w ->
  day = w / secondsPerDay \/ day = w / secondsPerDay - 1.
Proof. intros Hr H%range_on_iff; [|done]. tauto. Qed.

(** For the outer hours: some day has the range at [w] exactly when the range
    contains the minute of the day. *)
Lemma range_on_Contains r w : range_wf r ->
  (exists day, range_on r day w) <-> Contains r (w mod secondsPerDay / 60) = true.
Proof.
  intros Hr. pose proof Hr as (Hs & He & Hne).
  setoid_rewrite (range_on_iff r _ w Hr). rewrite Contains_spec. unfold MinutesPerDay in *.
  assert (0 <= w mod secondsPerDay / 60 < 1440).
  { pose proof (Z.mod_pos_bound w secondsPerDay ltac:(done)). unfold secondsPerDay in *.
    split; [apply Z.div_pos; lia | apply Z.div_lt_upper_bound; lia]. }
  destruct (CrossesMidnight r); split.
  - intros (day & [(_ & ? & _)|(_ & _ & ?)]); lia.
  - intros [?|?]; [exists (w / secondsPerDay) | exists (w / secondsPerDay - 1)]; [left|right];
      (split; [done|]); split; (done || lia || by right).
  - intros (day & [(_ & ? & [?|?])|(_ & ? & _)]); [lia|done..].
  - intros [? ?]. exists (w / secondsPerDay). left. split; [done|]. split; [lia|]. by left.
Qed.

Lemma window_at_range w sec :
  window_at w sec <->
  exists day r p, weekdayName (weekday day) ∈ Days w /\ r ∈ Ranges w /\
    New (TStart r) (TEnd r) = Ok p /\ range_on p day sec.
Proof.
  unfold window_at. split.
  - intros (r & p & Hr & Hp & H). pose proof (New_ok_wf _ _ _ Hp) as Hwf.
    destruct H as [(Hd & H)|(Hd & H)]; eexists; exists r, p; (split; [exact Hd|]);
      (split; [done|]); (split; [done|]); apply range_on_iff; auto.
  - intros (day & r & p & Hd & Hr & Hp & H). pose proof (New_ok_wf _ _ _ Hp) as Hwf.
    exists r, p. split; [done|]. split; [done|].
    apply range_on_iff in H as [(-> & H)|(-> & H)]; auto.
Qed.

Lemma wallClock_fixed off day minutes isStart :
  wallClock day minutes isStart (FixedZone off)
  = of_unix (day * secondsPerDay + minutes * 60 - off).
Proof.
  unfold wallClock, candidates. simpl.
  do 2 (destruct (decide_rel _ off _) as [_|Hn]; [|exfalso; apply Hn; set_solver]). simpl.
  rewrite filter_cons_True; [simpl; by destruct isStart|].
  unfold localSec. rewrite unix_of_unix. simpl. f_equal. lia.
Qed.

Lemma rangeSpans_fixed r day off v :
  covered (rangeSpans r day (FixedZone off)) v <-> range_on r day (unix v + off).
Proof.
  unfold rangeSpans. rewrite !wallClock_fixed. unfold range_on.
  set (e := if CrossesMidnight r then day + 1 else day). clearbody e.
  pose proof (of_unix_le (e * secondsPerDay + End r * 60 - off) (day * secondsPerDay + Start r * 60 - off)).
  destruct (Z.leb_spec (of_unix (e * secondsPerDay + End r * 60 - off))
    (of_unix (day * secondsPerDay + Start r * 60 - off))) as [Hle|Hle].
  - rewrite covered_nil. lia.
  - rewrite covered_cons, covered_nil. unfold in_span. simpl. rewrite unix_ge, unix_lt. lia.
Qed.

(** A schedule in a zone whose offset is [off], with its outer hours well
    formed or unset. *)
Record fixed_schedule (off : Z) (s : Schedule) : Prop := mkFixed {
  fixed_zone : zone s = FixedZone off;
  fixed_outer : End (Outer s) = 0 \/ range_wf (Outer s)
}.

Lemma localDay_fixed off t : localDay (FixedZone off) t = (unix t + off) / secondsPerDay.
Proof. done. Qed.

Lemma fixed_regular off : regular (FixedZone off).
Proof.
  assert (Hday : forall day m, localDay (FixedZone off) (of_unix (day * secondsPerDay + m * 60 - off))
    = (day * secondsPerDay + m * 60) / secondsPerDay).
  { intros day m. rewrite localDay_fixed, unix_of_unix. f_equal. lia. }
  constructor.
  - intros day. rewrite Date_fixed, Hday, naive_day by lia. rewrite Z.div_small by done. lia.
  - intros t v H%unix_mono. rewrite !localDay_fixed. apply Z.div_le_mono; [done|lia].
  - intros day m Hm. rewrite wallClock_fixed, Hday, naive_day by lia. rewrite Z.div_small by done. lia.
  - intros day m v Hm Hv. rewrite wallClock_fixed in Hv. apply unix_lt in Hv.
    rewrite localDay_fixed, <- naive_day by lia. apply Z.div_le_mono; [done|lia].
Qed.

Section fixed.
Context (off : Z) (s : Schedule) (Hs : fixed_schedule off s).

Lemma zone_fixed : zone s = FixedZone off.
Proof. apply (fixed_zone _ _ Hs). Qed.

Lemma zone_regular : regular (zone s).
Proof. rewrite zone_fixed. apply fixed_regular. Qed.

(** In a zone with one offset the open instants are the calendar's. *)
Lemma open_on_at v : open_on s v <-> open_at s (unix v + off).
Proof.
  unfold open_on, open_at. rewrite window_at_range, zone_fixed.
  setoid_rewrite <- covered_rangeSpans. setoid_rewrite rangeSpans_fixed.
  destruct (fixed_outer _ _ Hs) as [E|Hwf]; [tauto|].
  rewrite <- (range_on_Contains _ _ Hwf). tauto.
Qed.

Lemma spans_open_at t v :
  (unix t + off) / secondsPerDay <= (unix v + off) / secondsPerDay
    < (unix t + off) / secondsPerDay + scanDays ->
  covered (spans s t) v <-> open_at s (unix v + off).
Proof.
  intros Hv. rewrite <- open_on_at.
  apply (spans_open_on _ zone_regular (fixed_outer _ _ Hs)). by rewrite zone_fixed.
Qed.

(** A listed day falls within the week that follows any day. *)
Lemma listed_day d day : d ∈ Weekdays ->
  exists i, 1 <= i <= 7 /\ weekdayName (weekday (day + i)) = d.
Proof.
  intros Hd. apply list_elem_of_lookup in Hd as [k Hk].
  assert (Hk7 : (k < 7)%nat) by (apply lookup_lt_Some in Hk; done).
  exists ((Z.of_nat k - day - 4) mod 7 + 1).
  pose proof (Z.mod_pos_bound (Z.of_nat k - day - 4) 7 ltac:(done)) as Hm. split; [lia|].
  unfold weekdayName, weekday.
  replace (((day + ((Z.of_nat k - day - 4) mod 7 + 1) + 4) mod 7 + 6) mod 7) with (Z.of_nat k).
  - rewrite Nat2Z.id. by apply nth_lookup_Some with (d := EmptyString) in Hk.
  - rewrite Z.add_mod_idemp_l by done.
    replace (day + ((Z.of_nat k - day - 4) mod 7 + 1) + 4 + 6)
      with ((Z.of_nat k - day - 4) mod 7 + (day + 11)) by lia.
    rewrite Z.add_mod_idemp_l by done.
    replace (Z.of_nat k - day - 4 + (day + 11)) with (Z.of_nat k + 1 * 7) by lia.
    rewrite Z.mod_add by done. rewrite Z.mod_small; lia.
Qed.

(** A normalised window opens within the horizon, after [t]. *)
Lemma normal_opens outer ps t : normal outer (Window s) ps -> range_wf outer ->
  End (Outer s) = 0 \/ Outer s = outer ->
  exists v, t <= v /\ covered (spans s t) v.
Proof.
  intros Hn Ho Hout. destruct (normal_days _ _ _ Hn) as (Hne & _ & Hin).
  destruct (Days (Window s)) as [|d ds] eqn:Hds; [done|].
  set (D := (unix t + off) / secondsPerDay).
  destruct (listed_day d D) as (i & Hi & Hday); [apply Hin; set_solver|].
  pose proof (normal_count _ _ _ Hn) as Hc. destruct ps as [|p ps']; [simpl in Hc; lia|].
  destruct (normal_within _ _ _ Hn p) as [Hwf Hwi]; [set_solver|].
  assert (Hnew : New (StartText p) (EndText p) = Ok p) by (by apply New_texts).
  exists (of_unix ((D + i) * secondsPerDay + Start p * 60 - off)).
  pose proof Hwf as (Hst & Hen & Hse). unfold MinutesPerDay in *.
  set (w := (D + i) * secondsPerDay + Start p * 60).
  assert (Hwd : w / secondsPerDay = D + i).
  { symmetry. apply (Z.div_unique _ _ _ (Start p * 60)); unfold w, secondsPerDay in *; lia. }
  assert (Hwm : w mod secondsPerDay / 60 = Start p).
  { replace (w mod secondsPerDay) with (Start p * 60); [apply Z.div_mul; lia|].
    apply (Z.mod_unique _ _ (D + i)); unfold w, secondsPerDay in *; lia. }
  assert (Hlt : t < of_unix (w - off)).
  { apply unix_lt. pose proof (Z.mul_succ_div_gt (unix t + off) secondsPerDay ltac:(done)).
    fold D in H. unfold w, secondsPerDay in *. lia. }
  split; [by apply Z.lt_le_incl|]. apply spans_open_at.
  { rewrite unix_of_unix. replace (w - off + off) with w by lia. rewrite Hwd.
    fold D. unfold scanDays. lia. }
  rewrite unix_of_unix. replace (w - off + off) with w by lia.
  unfold open_at, window_at. rewrite Hwd, Hwm. split.
  - exists (mkTimeRange (StartText p) (EndText p)), p. split.
    { rewrite (normal_texts _ _ _ Hn). simpl. set_solver. }
    split; [done|]. left. rewrite Hday, Hds. split; [set_solver|]. split; [lia|].
    unfold CrossesMidnight. destruct (Z.ltb_spec (End p) (Start p)); [by right|left; lia].
  - destruct Hout as [?| ->]; [by left|]. right. eapply Within_spec; [exact Hwf|exact Ho|exact Hwi|].
    apply Contains_spec. unfold CrossesMidnight, MinutesPerDay.
    destruct (Z.ltb_spec (End p) (Start p)); lia.
Qed.

End fixed.

Lemma NextOpen_fixed (off : Z) (s : Schedule) (Hs : fixed_schedule off s) (t : instant) :
  (forall u, NextOpen s t = Some u ->
     t <= u /\ IsOpen s u = true /\ (forall v, t <= v < u -> IsOpen s v = false)) /\
  (forall w outer, range_wf outer -> Normalize w outer = Ok (Window s) ->
     End (Outer s) = 0 \/ Outer s = outer -> NextOpen s t <> None).
Proof.
  pose proof (zone_regular off s Hs) as Hz. pose proof (fixed_outer _ _ Hs) as Ho. split.
  - intros u Hu. pose proof (NextOpen_regular s Hz Ho t) as H. rewrite Hu in H.
    destruct H as (Htu & Hou & Hno). split; [done|]. rewrite (IsOpen_open_on s Hz Ho). split; [done|].
    intros v Hv. apply not_true_iff_false. rewrite (IsOpen_open_on s Hz Ho). auto.
  - intros w outer Hwf Hw Hout E. pose proof (NextOpen_first s t) as Hf. rewrite E in Hf.
    destruct (Normalize_Ok _ _ _ Hw) as (ps & ps' & _ & _ & _ & Hn).
    destruct (normal_opens off s Hs _ _ t Hn Hwf Hout) as (v & Hv & Hc). by apply (Hf v).
Qed.

(** in a zone with one offset, [IsOpen] is the calendar rule and nothing
    else: some listed range contains the minute of the local day and was
    started on a listed weekday (today's, or yesterday's when the range
    crosses midnight), and the outer hours contain the minute too. *)
Theorem IsOpen_iff (off : Z) (s : Schedule) (Hs : fixed_schedule off s) (t : instant) :
  IsOpen s t = true <-> open_at s (unix t + off).
Proof. rewrite IsOpen_covered. apply (spans_open_at off s Hs). unfold scanDays. lia. Qed.

(** C33: in every zone of the world ([civil]: offsets up to fourteen hours, at
    most one change within a day of any wall-clock time, a clock put forward
    by at most three hours and put back without crossing midnight), and with
    outer hours unset or well formed, [IsOpen] holds exactly when some listed
    range that started on a listed weekday, of all days there are, holds the
    instant, and so do the outer hours; the instant [NextOpen] gives is not
    before [t], a call may start then, and none may start at any earlier
    instant from [t] on; when it gives none, no call may start within the ten
    local days from [t]'s. A window normalised under the schedule's own outer
    hours always has a next opening in a zone whose offset never changes (a
    change can swallow its only range: [skipped_hour_never_opens]). *)
Theorem NextOpen_earliest (s : Schedule) (Hz : civil (zone s))
    (Hout : End (Outer s) = 0 \/ range_wf (Outer s)) (t : instant) :
  (IsOpen s t = true <-> open_on s t) /\
  match NextOpen s t with
  | Some u => t <= u /\ IsOpen s u = true /\ (forall v, t <= v < u -> IsOpen s v = false)
  | None => forall v, t <= v -> localDay (zone s) v < localDay (zone s) t + scanDays ->
              IsOpen s v = false
  end /\
  (forall off w outer, zone s = FixedZone off -> range_wf outer ->
     Normalize w outer = Ok (Window s) -> End (Outer s) = 0 \/ Outer s = outer ->
     NextOpen s t <> None).
Proof.
  pose proof (civil_regular _ Hz) as Hr. pose proof (IsOpen_open_on s Hr Hout) as Ho.
  split; [apply Ho|]. split.
  - pose proof (NextOpen_regular s Hr Hout t) as H. destruct (NextOpen s t) as [u|].
    + destruct H as (Htu & Hou & Hno). split; [done|]. rewrite Ho. split; [done|].
      intros v Hv. apply not_true_iff_false. rewrite Ho. auto.
    + intros v Hv Hl. apply not_true_iff_false. rewrite Ho. auto.
  - intros off w outer Hzone Hwf Hn Hou. by eapply (NextOpen_fixed off s (mkFixed off s Hzone Hout)).
Qed.

Lemma FixedZone_civil off : Z.abs off <= 50400 -> civil (FixedZone off).
Proof.
  intros Ho. constructor.
  - apply FixedZone_ok.
  - done.
  - apply (reg_noon _ (fixed_regular off)).
  - intros a b Hab. simpl. apply Z.div_le_mono; [done|lia].
  - intros naive. exists off, off, naive. split; [|lia].
    constructor; unfold secondsPerDay in *; intros; simpl; try done; lia.
Qed.

(** Berlin, 2026: at 01:00 UTC on Sunday 29 March the clock goes from 02:00 to
    03:00. *)
Definition berlin : Location := OneChange 3600 7200 1774746000.

Lemma berlin_offset sec :
  sec < 1774746000 /\ offsetAt berlin sec = 3600 \/ 1774746000 <= sec /\ offsetAt berlin sec = 7200.
Proof. simpl. destruct (Z.ltb_spec sec 1774746000); lia. Qed.

Lemma berlin_changes naive : exists o1 o2 tau, one_change berlin naive o1 o2 tau /\
  (o1 < o2 -> zoneTo berlin (naive - secondsPerDay) = Some tau /\
    zoneFrom berlin (naive + secondsPerDay) = Some tau /\ of_unix tau <> zero_time /\
    60 <= o2 - o1 <= 10800 /\ (tau + o1) / secondsPerDay = (tau + o2) / secondsPerDay).
Proof.
  assert (Hflat : forall o, (forall sec, naive - secondsPerDay <= sec <= naive + secondsPerDay ->
    offsetAt berlin sec = o) -> Z.abs o < secondsPerDay -> one_change berlin naive o o naive).
  { intros o H Ho. constructor; [| |done|unfold secondsPerDay; lia]; intros sec Hs; apply H;
      unfold secondsPerDay in *; lia. }
  unfold secondsPerDay in *. destruct (Z.le_gt_cases 1774746000 (naive - 86400)).
  { exists 7200, 7200, naive. split; [|lia]. apply Hflat; [|lia].
    intros sec Hs. pose proof (berlin_offset sec). lia. }
  destruct (Z.le_gt_cases 1774746000 (naive + 86400)).
  2:{ exists 3600, 3600, naive. split; [|lia]. apply Hflat; [|lia].
      intros sec Hs. pose proof (berlin_offset sec). lia. }
  exists 3600, 7200, 1774746000. split.
  - constructor; unfold secondsPerDay; try lia; intros sec Hs; pose proof (berlin_offset sec); lia.
  - intros _. simpl. destruct (Z.ltb_spec (naive - 86400) 1774746000); [|lia].
    destruct (Z.ltb_spec (naive + 86400) 1774746000); [lia|].
    repeat split; try done; vm_compute; discriminate.
Qed.

Lemma berlin_civil : civil berlin.
Proof.
  constructor.
  - apply OneChange_ok.
  - intros sec. pose proof (berlin_offset sec). lia.
  - intros day. unfold localDay, localSec, Date, secondsPerDay. rewrite unix_of_unix. simpl.
    replace (day * 86400 + 720 * 60 <? 1774746000) with (day <=? 20540) by lia.
    destruct (Z.leb_spec day 20540); simpl.
    + rewrite (proj2 (Z.leb_gt 1774746000 _)) by lia. simpl.
      rewrite (proj2 (Z.ltb_lt (day * 86400 + 720 * 60 - 3600) _)) by lia.
      symmetry. apply (Z.div_unique _ _ _ 43200); lia.
    + rewrite (proj2 (Z.ltb_ge (day * 86400 + 720 * 60 - 7200) _)) by lia. simpl.
      rewrite (proj2 (Z.ltb_ge (day * 86400 + 720 * 60 - 7200) _)) by lia.
      symmetry. apply (Z.div_unique _ _ _ 43200); lia.
  - intros a b Hab. pose proof (berlin_offset a). pose proof (berlin_offset b).
    apply Z.div_le_mono; [done|lia].
  - apply berlin_changes.
Qed.

(** Shanghai, nights from 22:00 to 02:00 on Mondays, outer hours unset. *)
Definition night_schedule : Schedule :=
  mkSchedule (Some (FixedZone 28800))
    (mkWindow ["MON"%string] [mkTimeRange "22:00" "02:00"]) (mkRange 0 0).

Lemma IsOpen_iff_witness :
  (* Tuesday 2026-07-28, 01:30 local *)
  let t := of_unix (20662 * 86400 + 5400 - 28800) in
  IsOpen night_schedule t = true /\ open_at night_schedule (unix t + 28800).
Proof.
  intros t. assert (H : IsOpen night_schedule t = true) by (vm_compute; reflexivity).
  split; [exact H|]. apply (IsOpen_iff 28800 night_schedule); [|exact H].
  constructor; [reflexivity | left; reflexivity].
Defined.

(** Sundays from 02:00 to 04:00 in Berlin, dialled between 01:00 and 12:00. *)
Definition sunday_schedule (rng : TimeRange) : Schedule :=
  mkSchedule (Some berlin) (mkWindow ["SUN"%string] [rng]) (mkRange 60 720).

(** On Thursday 26 March the next opening is the instant of the jump. *)
Lemma NextOpen_earliest_witness :
  let s := sunday_schedule (mkTimeRange "02:00" "04:00") in
  let t := of_unix (20538 * 86400) in
  let u := of_unix 1774746000 in
  let n := of_unix (20662 * 86400 + 7200 - 28800) in
  NextOpen s t = Some u /\ IsOpen s u = true /\ IsOpen s (u - 1) = false /\
  NextOpen night_schedule n <> None.
Proof.
  intros s t u n. assert (H : NextOpen s t = Some u) by (vm_compute; reflexivity).
  assert (Hwf : End (Outer s) = 0 \/ range_wf (Outer s)).
  { right. unfold range_wf, MinutesPerDay; simpl; lia. }
  destruct (NextOpen_earliest s berlin_civil Hwf t) as (_ & Hn & _). rewrite H in Hn.
  destruct Hn as (_ & Ho & Hb). split; [exact H|]. split; [exact Ho|]. split.
  { apply Hb. unfold t, u, of_unix, second. lia. }
  apply (NextOpen_earliest night_schedule (FixedZone_civil 28800 ltac:(lia)) (or_introl eq_refl) n)
    with (off := 28800) (w := Window night_schedule) (outer := mkRange 1260 240).
  - reflexivity.
  - unfold range_wf, MinutesPerDay; simpl; lia.
  - vm_compute. reflexivity.
  - left. reflexivity.
Defined.

(** A normalised window whose only hour the clock skips: from the Thursday
    before, the search finds nothing in its ten days. *)
Example skipped_hour_never_opens :
  let s := sunday_schedule (mkTimeRange "02:00" "03:00") in
  Normalize (Window s) (Outer s) = Ok (Window s) /\ NextOpen s (of_unix (20538 * 86400)) = None.
Proof. split; vm_compute; reflexivity. Qed.

End Schedule.
