(* ===== verification/CampaignPolicy.v ===== *)
(** * Retries and settlements: [internal/campaign], [retry.go] and [settle.go]

    The retry policy and its normalisation, the backoff (on Go's 64-bit
    durations, wrap-around included), the two budgets of a contact, and
    [Settle]: what an ended attempt does to its contact. *)

From S2P Require Import Prelude DayRange Calendar CampaignTypes CallWindow Schedule.
Import DayRange Calendar CampaignTypes Window Schedule.

Module CampaignPolicy.

(** Outcomes as map keys. *)
Definition Outcome_code (o : Outcome) : nat + string :=
  match o with
  | OutcomeAnswered => inl 0%nat | OutcomeBotFailed => inl 1%nat | OutcomeOverflow => inl 2%nat
  | OutcomeNoAnswer => inl 3%nat | OutcomeBusy => inl 4%nat | OutcomeRejected => inl 5%nat
  | OutcomeUnknown => inl 6%nat | OutcomeTransient => inl 7%nat
  | OutcomeOriginateFailed => inl 8%nat | OutcomeInvalidNumber => inl 9%nat
  | OutcomeDNCSkipped => inl 10%nat | OutcomeOther s => inr s
  end.

Definition Outcome_decode (c : nat + string) : option Outcome :=
  match c with
  | inl n => AllOutcomes !! n
  | inr s => Some (OutcomeOther s)
  end.

#[export] Instance Outcome_countable : Countable Outcome.
Proof. refine (inj_countable Outcome_code Outcome_decode _). by intros []. Defined.

(** [internal/campaign/retry.go:Backoff] *)
Record Backoff := mkBackoff { BaseSec : Z; Factor : Z; CapSec : Z }.

#[export] Instance Backoff_eq_dec : EqDecision Backoff.
Proof. solve_decision. Defined.

(** [internal/campaign/retry.go:RetryPolicy] *)
Record RetryPolicy := mkPolicy {
  MaxAttempts : Z;
  MaxSystemRetries : Z;
  RetryOutcomes : list Outcome;
  IntervalSec : gmap Outcome Z;
  TransientBackoff : Backoff
}.

(** [internal/campaign/retry.go:const(maxMaxAttempts)] *)
Definition maxMaxAttempts : Z := 20.
Definition maxMaxSystemRetries : Z := 50.
Definition minIntervalSec : Z := 60.
Definition maxIntervalSec : Z := 30 * 24 * 3600.
Definition maxBackoffFactor : Z := 10.
Definition minBackoffBaseSec : Z := 1.
Definition maxBackoffCapSec : Z := 24 * 3600.
Definition defaultMaxAttempts : Z := 3.
Definition defaultSystemRetries : Z := 5.

(** [internal/campaign/retry.go:var(reachedOutcomes)] *)
Definition reachedOutcomes : list Outcome :=
  [OutcomeNoAnswer; OutcomeBusy; OutcomeRejected; OutcomeUnknown].
Definition systemOutcomes : list Outcome := [OutcomeTransient; OutcomeOriginateFailed].

(** [internal/campaign/retry.go:DefaultRetryPolicy] *)
Definition DefaultRetryPolicy : RetryPolicy := {|
  MaxAttempts := defaultMaxAttempts;
  MaxSystemRetries := defaultSystemRetries;
  RetryOutcomes := [OutcomeNoAnswer; OutcomeBusy; OutcomeRejected; OutcomeUnknown;
                    OutcomeTransient; OutcomeOriginateFailed];
  IntervalSec := list_to_map [(OutcomeNoAnswer, 2 * 3600); (OutcomeBusy, 30 * 60);
                              (OutcomeRejected, 24 * 3600); (OutcomeUnknown, 24 * 3600)];
  TransientBackoff := mkBackoff 300 3 (4 * 3600)
|}.

(** The [%s] of an outcome that can have an interval. *)
Definition outcomeText (o : Outcome) : string :=
  match o with
  | OutcomeNoAnswer => "NO_ANSWER" | OutcomeBusy => "BUSY"
  | OutcomeRejected => "REJECTED" | OutcomeUnknown => "UNKNOWN" | _ => ""
  end.

(** [internal/campaign/retry.go:L94-L103] The loop over [RetryOutcomes]. *)
Fixpoint check_outcomes (outcomes l : list Outcome) : res Error (list Outcome) :=
  match l with
  | [] => Ok outcomes
  | o :: l =>
      guard_res (negb (contains reachedOutcomes o) && negb (contains systemOutcomes o))
        (invalid "retryPolicy.retryOutcomes" "NOT_RETRYABLE")
      (check_outcomes (if contains outcomes o then outcomes else outcomes ++ [o]) l)
  end.

(** [internal/campaign/retry.go:L114-L117] A lookup in [IntervalSec], falling back to the default policy's; a missing
    key reads as zero. *)
Definition intervalOr (intervals : gmap Outcome Z) (o : Outcome) : Z :=
  match intervals !! o with
  | Some sec => sec
  | None => default 0 (IntervalSec DefaultRetryPolicy !! o)
  end.

(** [internal/campaign/retry.go:L113-L123] The loop over the reached outcomes. *)
Fixpoint check_intervals (given intervals : gmap Outcome Z) (l : list Outcome)
    : res Error (gmap Outcome Z) :=
  match l with
  | [] => Ok intervals
  | o :: l =>
      let sec := intervalOr given o in
      guard_res ((sec <? minIntervalSec) || (maxIntervalSec <? sec))
        (invalid ("retryPolicy.intervalSec." +:+ outcomeText o) "OUT_OF_RANGE")
      (check_intervals given (<[o := sec]> intervals) l)
  end.

(** [internal/campaign/retry.go:L129-L139] *)
Definition check_backoff (b : Backoff) : res Error Backoff :=
  if (BaseSec b <? minBackoffBaseSec) || (maxBackoffCapSec <? BaseSec b)
  then Err (invalid "retryPolicy.transientBackoff.baseSec" "OUT_OF_RANGE")
  else if (Factor b <? 1) || (maxBackoffFactor <? Factor b)
  then Err (invalid "retryPolicy.transientBackoff.factor" "OUT_OF_RANGE")
  else if (CapSec b <? BaseSec b) || (maxBackoffCapSec <? CapSec b)
  then Err (invalid "retryPolicy.transientBackoff.capSec" "OUT_OF_RANGE")
  else Ok b.

(** [internal/campaign/retry.go:RetryPolicy.Normalize] *)
Definition NormalizePolicy (p : RetryPolicy) : res Error RetryPolicy :=
  guard_res ((MaxAttempts p <? 1) || (maxMaxAttempts <? MaxAttempts p))
    (invalid "retryPolicy.maxAttempts" "OUT_OF_RANGE")
  (guard_res ((MaxSystemRetries p <? 0) || (maxMaxSystemRetries <? MaxSystemRetries p))
    (invalid "retryPolicy.maxSystemRetries" "OUT_OF_RANGE")
  (outcomes ← check_outcomes [] (RetryOutcomes p);
   guard_res (existsb (fun '(o, _) => negb (contains reachedOutcomes o)) (map_to_list (IntervalSec p)))
     (invalid "retryPolicy.intervalSec" "UNKNOWN_OUTCOME")
   (intervals ← check_intervals (IntervalSec p) ∅ reachedOutcomes;
    b ← check_backoff (if decide (TransientBackoff p = mkBackoff 0 0 0)
                       then TransientBackoff DefaultRetryPolicy else TransientBackoff p);
    Ok (mkPolicy (MaxAttempts p) (MaxSystemRetries p) outcomes intervals b)))).

(** [internal/campaign/settle.go:Counters] *)
Record Counters := mkCounters { Attempts : Z; SystemFailures : Z }.

(** [internal/campaign/settle.go:Counters.Add] *)
Definition Add (c : Counters) (o : Outcome) : Counters :=
  match ClassOf o with
  | ClassReached => mkCounters (Attempts c + 1) (SystemFailures c)
  | ClassSystem => mkCounters (Attempts c) (SystemFailures c + 1)
  | ClassNone => c
  end.

(** [internal/campaign/settle.go:Counters.Remove] *)
Definition Remove (c : Counters) (o : Outcome) : Counters :=
  match ClassOf o with
  | ClassReached => mkCounters (Z.max 0 (Attempts c - 1)) (SystemFailures c)
  | ClassSystem => mkCounters (Attempts c) (Z.max 0 (SystemFailures c - 1))
  | ClassNone => c
  end.

(** [internal/campaign/settle.go:SettleReason] *)
Inductive SettleReason :=
| SettleLeadDoNotCall | SettleLeadRecorded | SettleInvalidNumber | SettleDNCSkipped
| SettleContactOnDNC | SettleAnswered | SettleNotRetried | SettleBudgetSpent | SettleRetry.

(** [internal/campaign/settle.go:const(SettleLeadDoNotCall)] *)
Definition SettleReason_text (r : SettleReason) : string :=
  match r with
  | SettleLeadDoNotCall => "LEAD_DO_NOT_CALL" | SettleLeadRecorded => "LEAD_RECORDED"
  | SettleInvalidNumber => "INVALID_NUMBER" | SettleDNCSkipped => "DNC_SKIPPED"
  | SettleContactOnDNC => "CONTACT_ON_DNC" | SettleAnswered => "ANSWERED"
  | SettleNotRetried => "NOT_RETRIED" | SettleBudgetSpent => "BUDGET_SPENT"
  | SettleRetry => "RETRY"
  end.

(** [internal/campaign/settle.go:Settlement] *)
Record Settlement := mkSettlement {
  SStatus : ContactStatus;
  Reason : SettleReason;
  NextAttemptAt : option instant
}.

(** [time.Duration(sec) * time.Second] on 64 bits. *)
Definition durSec (sec : Z) : duration := wrapS 64 (sec * second).

(** [internal/campaign/settle.go:L150-L155] The loop of [Wait], [k] rounds of it left. *)
Fixpoint wait_loop (b : Backoff) (capped wait : duration) (k : nat) : duration :=
  match k with
  | O => wait
  | S k =>
      if (capped <=? wait) || (Factor b <=? 1) then wait
      else wait_loop b capped (wrapS 64 (wait * Factor b)) k
  end.

(** [internal/campaign/settle.go:Backoff.Wait] *)
Definition Wait (b : Backoff) (n : Z) : duration :=
  let capped := durSec (CapSec b) in
  Z.min (wait_loop b capped (durSec (BaseSec b)) (Z.to_nat (n - 1))) capped.

(** [internal/campaign/settle.go:Settle] *)
Definition Settle (p : RetryPolicy) (c : Counters) (o : Outcome) (lead : LeadIntent)
    (finishedAt : instant) (s : Schedule) : Settlement :=
  let retry wait :=
    let due := finishedAt + wait in
    let due := match NextOpen s due with Some open => open | None => due end in
    mkSettlement ContactActive SettleRetry (Some due) in
  if decide (lead = LeadDoNotCall) then mkSettlement ContactDoNotCall SettleLeadDoNotCall None
  else if negb (bool_decide (lead = LeadAbsent)) then mkSettlement ContactDone SettleLeadRecorded None
  else if decide (o = OutcomeInvalidNumber) then mkSettlement ContactInvalidNumber SettleInvalidNumber None
  else if decide (o = OutcomeDNCSkipped) then mkSettlement ContactDoNotCall SettleDNCSkipped None
  else if IsAnsweredOutcome o then mkSettlement ContactDone SettleAnswered None
  else if negb (contains (RetryOutcomes p) o) then mkSettlement ContactExhausted SettleNotRetried None
  else match ClassOf o with
  | ClassReached =>
      if MaxAttempts p <=? Attempts c then mkSettlement ContactExhausted SettleBudgetSpent None
      else retry (durSec (intervalOr (IntervalSec p) o))
  | ClassSystem =>
      if MaxSystemRetries p <=? SystemFailures c then mkSettlement ContactExhausted SettleBudgetSpent None
      else retry (Wait (TransientBackoff p) (SystemFailures c))
  | ClassNone => mkSettlement ContactExhausted SettleNotRetried None
  end.

(** ** Lemmas *)

(** What a stored policy satisfies. *)
Record policy_wf (p : RetryPolicy) : Prop := mkPolicyWf {
  pw_attempts : 1 <= MaxAttempts p <= maxMaxAttempts;
  pw_system : 0 <= MaxSystemRetries p <= maxMaxSystemRetries;
  pw_outcomes : NoDup (RetryOutcomes p) /\
    (forall o, o ∈ RetryOutcomes p -> o ∈ reachedOutcomes \/ o ∈ systemOutcomes);
  pw_keys o : is_Some (IntervalSec p !! o) <-> o ∈ reachedOutcomes;
  pw_intervals o sec : IntervalSec p !! o = Some sec -> minIntervalSec <= sec <= maxIntervalSec;
  pw_base : minBackoffBaseSec <= BaseSec (TransientBackoff p);
  pw_cap : BaseSec (TransientBackoff p) <= CapSec (TransientBackoff p) <= maxBackoffCapSec;
  pw_factor : 1 <= Factor (TransientBackoff p) <= maxBackoffFactor
}.

Lemma check_outcomes_Ok acc l out : check_outcomes acc l = Ok out -> NoDup acc ->
  NoDup out /\ (forall o, o ∈ out <-> o ∈ acc \/ o ∈ l) /\
  (forall o, o ∈ l -> o ∈ reachedOutcomes \/ o ∈ systemOutcomes).
Proof.
  revert acc. induction l as [|o l IH]; intros acc H Hnd; simpl in H.
  { injection H as <-. split; [done|]. split; set_solver. }
  apply guard_res_Ok in H as [Hg H]. apply andb_false_iff in Hg.
  rewrite !negb_false_iff, !contains_true in Hg.
  destruct (contains acc o) eqn:Hc; [apply contains_true in Hc | apply contains_false in Hc].
  - destruct (IH _ H Hnd) as (? & Hin & Hr). split; [done|]. split; set_solver.
  - destruct (IH _ H) as (? & Hin & Hr).
    { apply NoDup_app. split; [done|]. split; [set_solver|]. apply NoDup_singleton. }
    split; [done|]. split; set_solver.
Qed.

Lemma check_outcomes_id acc l : NoDup (acc ++ l) ->
  (forall o, o ∈ l -> o ∈ reachedOutcomes \/ o ∈ systemOutcomes) ->
  check_outcomes acc l = Ok (acc ++ l).
Proof.
  revert acc. induction l as [|o l IH]; intros acc Hnd Hr; simpl; [by rewrite app_nil_r|].
  rewrite guard_res_Ok, andb_false_iff, !negb_false_iff, !contains_true. split; [set_solver|].
  replace (contains acc o) with false.
  2:{ symmetry. apply contains_false. apply NoDup_app in Hnd as (_ & Hd & _). set_solver. }
  rewrite IH; [by rewrite <- app_assoc | by rewrite <- app_assoc | set_solver].
Qed.

Lemma check_intervals_Ok given acc l out : check_intervals given acc l = Ok out -> NoDup l ->
  forall o, (o ∈ l -> out !! o = Some (intervalOr given o) /\
                      minIntervalSec <= intervalOr given o <= maxIntervalSec) /\
            (o ∉ l -> out !! o = acc !! o).
Proof.
  revert acc. induction l as [|x l IH]; intros acc H Hnd o; simpl in H.
  { injection H as <-. split; [set_solver|done]. }
  apply guard_res_Ok in H as [Hg H]. b2p. apply NoDup_cons in Hnd as [Hx Hnd].
  destruct (IH _ H Hnd o) as [Hi1 Hi2]. split.
  - intros [->|Ho]%elem_of_cons; [|auto]. rewrite Hi2, lookup_insert_eq by done. by split; [|lia].
  - intros Ho. apply not_elem_of_cons in Ho as [Hox Ho]. by rewrite Hi2, lookup_insert_ne.
Qed.

Lemma check_intervals_intro given acc l :
  (forall o, o ∈ l -> minIntervalSec <= intervalOr given o <= maxIntervalSec) ->
  exists out, check_intervals given acc l = Ok out.
Proof.
  revert acc. induction l as [|x l IH]; intros acc H; simpl; [by eexists|].
  destruct (IH (<[x := intervalOr given x]> acc)) as [out Hout]; [set_solver|].
  exists out. apply guard_res_Ok. split; [|done]. specialize (H x ltac:(set_solver)).
  apply orb_false_iff. rewrite !Z.ltb_ge. lia.
Qed.

Lemma check_backoff_Ok b b' : check_backoff b = Ok b' <->
  b' = b /\ minBackoffBaseSec <= BaseSec b /\ BaseSec b <= CapSec b <= maxBackoffCapSec /\
  1 <= Factor b <= maxBackoffFactor.
Proof.
  unfold check_backoff. split.
  - intros H. repeat (case_match; try discriminate). injection H as <-. b2p. split; [done|]. lia.
  - intros (-> & ?). zcases; simpl; try done; lia.
Qed.

Lemma reached_NoDup : NoDup reachedOutcomes.
Proof. by apply (bool_decide_eq_true_1 _). Qed.

Lemma NormalizePolicy_Ok p p' : NormalizePolicy p = Ok p' ->
  policy_wf p' /\ MaxAttempts p' = MaxAttempts p /\ MaxSystemRetries p' = MaxSystemRetries p /\
  (forall o, o ∈ RetryOutcomes p' <-> o ∈ RetryOutcomes p) /\
  (forall o, o ∈ reachedOutcomes -> IntervalSec p' !! o = Some (intervalOr (IntervalSec p) o)).
Proof.
  unfold NormalizePolicy. rewrite !guard_res_Ok. intros (Ha & Hm & H).
  apply bind_Ok_inv in H as (outs & Ho & H). apply guard_res_Ok in H as (Hk & H).
  apply bind_Ok_inv in H as (ivs & Hi & H). apply bind_Ok_inv in H as (b & Hb & H).
  injection H as <-. b2p. apply check_outcomes_Ok in Ho as (Hnd & Hin & Hr); [|constructor].
  pose proof (check_intervals_Ok _ _ _ _ Hi reached_NoDup) as Hiv.
  apply check_backoff_Ok in Hb as (-> & Hb). unfold maxMaxAttempts, maxMaxSystemRetries in *.
  split; [constructor; simpl; try tauto; try lia|split; [done|split; [done|split]]].
  - split; [done|]. intros o Ho. apply Hr. set_solver.
  - intros o. destruct (Hiv o) as [Hin1 Hin2]. split.
    + intros [sec Hs]. destruct (decide (o ∈ reachedOutcomes)) as [|Hn]; [done|].
      rewrite Hin2 in Hs by done. done.
    + intros Ho. destruct (Hin1 Ho) as [-> _]. by eexists.
  - intros o sec Hs. destruct (Hiv o) as [Hin1 Hin2]. simpl in Hs.
    destruct (decide (o ∈ reachedOutcomes)) as [Ho|Hn]; [|by rewrite Hin2 in Hs].
    destruct (Hin1 Ho) as [E ?]. rewrite E in Hs. by injection Hs as <-.
  - set_solver.
  - intros o Ho. by apply Hiv.
Qed.

Lemma NormalizePolicy_id p : policy_wf p -> NormalizePolicy p = Ok p.
Proof.
  intros [Ha Hm [Hnd Hr] Hk Hi Hbase Hcap Hf]. unfold NormalizePolicy.
  unfold maxMaxAttempts, maxMaxSystemRetries in *.
  rewrite !guard_res_Ok, !orb_false_iff, !Z.ltb_ge. split; [lia|]. split; [lia|].
  rewrite (check_outcomes_id [] (RetryOutcomes p)) by done. simpl.
  apply guard_res_Ok. split.
  { apply not_true_iff_false. rewrite existsb_elem. intros ([o sec] & Hin & Hn).
    apply elem_of_map_to_list in Hin. b2p. apply Hn, Hk. by eexists. }
  assert (Hgiven : forall o, o ∈ reachedOutcomes -> IntervalSec p !! o = Some (intervalOr (IntervalSec p) o)).
  { intros o Ho. apply Hk in Ho as [sec Hs]. unfold intervalOr. by rewrite Hs. }
  destruct (check_intervals_intro (IntervalSec p) ∅ reachedOutcomes) as [out Hout].
  { intros o Ho. by eapply Hi, Hgiven. }
  change ((check_intervals (IntervalSec p) ∅ reachedOutcomes) ≫= (λ intervals,
    b ← check_backoff (if decide (TransientBackoff p = mkBackoff 0 0 0)
                       then TransientBackoff DefaultRetryPolicy else TransientBackoff p);
    Ok (mkPolicy (MaxAttempts p) (MaxSystemRetries p) (RetryOutcomes p) intervals b)) = Ok p).
  rewrite Hout. pose proof (check_intervals_Ok _ _ _ _ Hout reached_NoDup) as Hiv.
  assert (out = IntervalSec p) as ->.
  { apply map_eq. intros o. destruct (Hiv o) as [Hin1 Hin2].
    destruct (decide (o ∈ reachedOutcomes)) as [Ho|Ho].
    - destruct (Hin1 Ho) as [-> _]. by rewrite Hgiven.
    - rewrite Hin2 by done. rewrite lookup_empty. symmetry. apply eq_None_not_Some.
      by rewrite Hk. }
  unfold minBackoffBaseSec in *. rewrite decide_False by (intros E; rewrite E in Hbase; simpl in Hbase; lia).
  change ((check_backoff (TransientBackoff p)) ≫= (λ b,
    Ok (mkPolicy (MaxAttempts p) (MaxSystemRetries p) (RetryOutcomes p) (IntervalSec p) b)) = Ok p).
  rewrite (proj2 (check_backoff_Ok _ (TransientBackoff p))) by (unfold minBackoffBaseSec; tauto).
  by destruct p.
Qed.

(** The backoff's bounds, as a stored policy has them. *)
Definition backoff_wf (b : Backoff) : Prop :=
  1 <= BaseSec b <= CapSec b /\ CapSec b <= maxBackoffCapSec /\ 1 <= Factor b <= maxBackoffFactor.

Lemma policy_backoff_wf p : policy_wf p -> backoff_wf (TransientBackoff p).
Proof. intros [_ _ _ _ _ Hb Hc Hf]. unfold backoff_wf, minBackoffBaseSec in *. lia. Qed.

Lemma durSec_small sec : 0 <= sec <= 30 * 24 * 3600 -> durSec sec = sec * second.
Proof. intros H. unfold durSec. apply wrapS_id; unfold second; lia. Qed.

Lemma wait_loop_spec b capped w k :
  1 <= Factor b <= maxBackoffFactor -> 0 < w -> capped <= maxBackoffCapSec * second ->
  Z.min (wait_loop b capped w k) capped = Z.min (w * Factor b ^ Z.of_nat k) capped.
Proof.
  intros Hf Hw Hc. revert w Hw. induction k as [|k IH]; intros w Hw; simpl wait_loop.
  { by rewrite Z.pow_0_r, Z.mul_1_r. }
  assert (Hp : 0 < Factor b ^ Z.of_nat k) by (apply Z.pow_pos_nonneg; lia).
  rewrite Nat2Z.inj_succ, Z.pow_succ_r by lia.
  destruct (Z.leb_spec capped w).
  { simpl. assert (1 <= Factor b * Factor b ^ Z.of_nat k) by nia.
    assert (w * 1 <= w * (Factor b * Factor b ^ Z.of_nat k)) by (apply Z.mul_le_mono_nonneg_l; lia).
    rewrite !Z.min_r; lia. }
  destruct (Z.leb_spec (Factor b) 1); simpl.
  { assert (E : Factor b = 1) by lia. rewrite E, Z.pow_1_l by lia. f_equal. lia. }
  unfold maxBackoffCapSec, maxBackoffFactor, second in *.
  rewrite wrapS_id by nia. rewrite IH by nia. f_equal. ring.
Qed.

Lemma Wait_exact b n : backoff_wf b -> 1 <= n ->
  Wait b n = Z.min (BaseSec b * Factor b ^ (n - 1)) (CapSec b) * second.
Proof.
  intros (Hb & Hc & Hf) Hn. unfold Wait. unfold maxBackoffCapSec in *.
  rewrite !durSec_small by lia. rewrite wait_loop_spec.
  - rewrite Z2Nat.id by lia. rewrite <- Z.mul_min_distr_nonneg_r by (unfold second; lia).
    f_equal. ring.
  - done.
  - unfold second. lia.
  - unfold maxBackoffCapSec, second. lia.
Qed.

(** The wait Settle asks for before a retry. *)
Definition retry_wait (p : RetryPolicy) (c : Counters) (o : Outcome) : duration :=
  match ClassOf o with
  | ClassReached => durSec (intervalOr (IntervalSec p) o)
  | _ => Wait (TransientBackoff p) (SystemFailures c)
  end.

(** The budget of the outcome's class is not spent. *)
Definition budget_left (p : RetryPolicy) (c : Counters) (o : Outcome) : Prop :=
  match ClassOf o with
  | ClassReached => Attempts c < MaxAttempts p
  | ClassSystem => SystemFailures c < MaxSystemRetries p
  | ClassNone => False
  end.

(** [Settle] by its three results: retried, or ended with no next attempt. *)
Lemma Settle_cases p c o lead t s :
  (lead = LeadAbsent /\ IsAnsweredOutcome o = false /\ o <> OutcomeInvalidNumber /\
   o <> OutcomeDNCSkipped /\ o ∈ RetryOutcomes p /\ budget_left p c o /\
   Settle p c o lead t s = mkSettlement ContactActive SettleRetry
     (Some (default (t + retry_wait p c o) (NextOpen s (t + retry_wait p c o))))) \/
  (~ (lead = LeadAbsent /\ IsAnsweredOutcome o = false /\ o <> OutcomeInvalidNumber /\
      o <> OutcomeDNCSkipped /\ o ∈ RetryOutcomes p /\ budget_left p c o) /\
   SStatus (Settle p c o lead t s) <> ContactActive /\ NextAttemptAt (Settle p c o lead t s) = None).
Proof.
  unfold Settle, budget_left, retry_wait.
  destruct (decide (lead = LeadDoNotCall)) as [->|H1]; [right; simpl; naive_solver|].
  destruct (decide (lead = LeadAbsent)) as [->|H2].
  2:{ rewrite bool_decide_eq_false_2 by done. right; simpl; naive_solver. }
  rewrite bool_decide_eq_true_2 by done. simpl.
  destruct (decide (o = OutcomeInvalidNumber)) as [->|H3]; [right; simpl; naive_solver|].
  destruct (decide (o = OutcomeDNCSkipped)) as [->|H4]; [right; simpl; naive_solver|].
  destruct (IsAnsweredOutcome o); [right; simpl; naive_solver|].
  destruct (contains (RetryOutcomes p) o) eqn:Hc; simpl.
  2:{ apply contains_false in Hc. right; simpl; naive_solver. }
  apply contains_true in Hc. destruct (ClassOf o); simpl; [right; simpl; naive_solver|..].
  - destruct (Z.leb_spec (MaxAttempts p) (Attempts c)).
    + right. simpl. split; [intros (_ & _ & _ & _ & _ & ?); lia|]. done.
    + left. repeat (split; [done|]). by destruct (NextOpen _ _).
  - destruct (Z.leb_spec (MaxSystemRetries p) (SystemFailures c)).
    + right. simpl. split; [intros (_ & _ & _ & _ & _ & ?); lia|]. done.
    + left. repeat (split; [done|]). by destruct (NextOpen _ _).
Qed.

Lemma retry_wait_pos p c o : policy_wf p -> o ∈ reachedOutcomes \/ o ∈ systemOutcomes ->
  1 <= SystemFailures c \/ o ∈ reachedOutcomes -> 0 < retry_wait p c o.
Proof.
  intros Hp Ho Hc. unfold retry_wait.
  assert (Hr : o ∈ reachedOutcomes -> 0 < durSec (intervalOr (IntervalSec p) o)).
  { intros Hin. apply (pw_keys p Hp) in Hin as [sec Hs]. unfold intervalOr. rewrite Hs.
    pose proof (pw_intervals p Hp o sec Hs). unfold minIntervalSec, maxIntervalSec in *.
    rewrite durSec_small by lia. unfold second. lia. }
  destruct (decide (o ∈ reachedOutcomes)) as [Hin|Hn].
  { assert (ClassOf o = ClassReached) as -> by (unfold reachedOutcomes in Hin; set_unfold; naive_solver).
    auto. }
  destruct Ho as [?|Ho]; [done|]. destruct Hc as [Hc|?]; [|done].
  assert (ClassOf o = ClassSystem) as -> by (unfold systemOutcomes in Ho; set_unfold; naive_solver).
  pose proof (policy_backoff_wf p Hp) as Hb. rewrite Wait_exact by done.
  destruct Hb as (Hb & _ & Hf).
  assert (0 < Factor (TransientBackoff p) ^ (SystemFailures c - 1)) by (apply Z.pow_pos_nonneg; lia).
  apply Z.mul_pos_pos; [|done]. apply Z.min_glb_lt; nia.
Qed.

(** Attempts on one contact, one outcome after the other with no lead, for as
    long as Settle keeps it active; [Err] once it is settled. *)
Fixpoint attempt_all (p : RetryPolicy) (s : Schedule) (c : Counters)
    (l : list (Outcome * instant)) : option Counters :=
  match l with
  | [] => Some c
  | (o, t) :: l =>
      let c := Add c o in
      if decide (SStatus (Settle p c o LeadAbsent t s) = ContactActive)
      then attempt_all p s c l else None
  end.

Lemma attempt_all_budget p s l c c' : attempt_all p s c l = Some c' ->
  Attempts c <= Z.max 0 (MaxAttempts p - 1) -> SystemFailures c <= Z.max 0 (MaxSystemRetries p - 1) ->
  Attempts c' + SystemFailures c' = Attempts c + SystemFailures c + Z.of_nat (length l) /\
  Attempts c' <= Z.max 0 (MaxAttempts p - 1) /\ SystemFailures c' <= Z.max 0 (MaxSystemRetries p - 1).
Proof.
  revert c. induction l as [|[o t] l IH]; intros c H Ha Hs; simpl in H.
  { injection H as <-. simpl. lia. }
  destruct (decide _) as [Hact|]; [|done].
  destruct (Settle_cases p (Add c o) o LeadAbsent t s) as [(_ & _ & _ & _ & _ & Hb & _)|(_ & ? & _)];
    [|done].
  simpl length. rewrite Nat2Z.inj_succ. unfold budget_left in Hb.
  assert (Hbounds : Attempts (Add c o) + SystemFailures (Add c o) = Attempts c + SystemFailures c + 1 /\
    Attempts (Add c o) <= Z.max 0 (MaxAttempts p - 1) /\
    SystemFailures (Add c o) <= Z.max 0 (MaxSystemRetries p - 1)).
  { unfold Add in *. destruct (ClassOf o); simpl in *; [done|lia|lia]. }
  destruct (IH _ H) as (? & ? & ?); lia.
Qed.

(** ** Properties *)

(** C11: what [Settle] decides. A contact stays ACTIVE exactly when the call
    recorded no lead, the outcome is one the policy retries (never an answered
    one, an invalid number or a listed one) and the budget of its class is not
    spent; it has a next attempt exactly when it is ACTIVE; and a do-not-call
    lead always ends it as do-not-call. *)
Theorem Settle_spec (p : RetryPolicy) (c : Counters) (o : Outcome) (lead : LeadIntent)
    (finishedAt : instant) (s : Schedule) :
  let st := Settle p c o lead finishedAt s in
  (SStatus st = ContactActive <->
     lead = LeadAbsent /\ IsAnsweredOutcome o = false /\ o <> OutcomeInvalidNumber /\
     o <> OutcomeDNCSkipped /\ o ∈ RetryOutcomes p /\ budget_left p c o) /\
  (NextAttemptAt st = None <-> SStatus st <> ContactActive) /\
  (lead = LeadDoNotCall \/ (lead = LeadAbsent /\ o = OutcomeDNCSkipped) ->
     SStatus st = ContactDoNotCall).
Proof.
  intros st. split; [|split].
  - destruct (Settle_cases p c o lead finishedAt s) as [H|H]; subst st.
    + destruct H as (? & ? & ? & ? & ? & ? & ->). simpl. tauto.
    + tauto.
  - destruct (Settle_cases p c o lead finishedAt s) as [H|H]; subst st.
    + destruct H as (? & ? & ? & ? & ? & ? & ->). simpl. split; [done | intros []; done].
    + tauto.
  - subst st. by intros [->|[-> ->]].
Qed.

(** a retry of a stored policy never comes early and never outside the
    calling hours: the next attempt is the first open instant of the contact's
    schedule at or after the end of the call plus the outcome's wait, which is
    the policy's interval for an outcome that reached the customer and the
    capped exponential backoff for one that did not. *)
Theorem Settle_retry_time (off : Z) (s : Schedule) (outer : Range) (w : CallingWindow)
    (Hs : fixed_schedule off s) (Ho : range_wf outer) (Hw : Normalize w outer = Ok (Window s))
    (Hout : End (Outer s) = 0 \/ Outer s = outer)
    (p : RetryPolicy) (Hp : policy_wf p) (c : Counters) (o : Outcome) (t due : instant)
    (Hc : 1 <= SystemFailures c \/ o ∈ reachedOutcomes)
    (H : NextAttemptAt (Settle p c o LeadAbsent t s) = Some due) :
  let ready := t + retry_wait p c o in
  t < ready <= due /\ IsOpen s due = true /\ (forall v, ready <= v < due -> IsOpen s v = false) /\
  retry_wait p c o =
    (if decide (o ∈ reachedOutcomes) then default 0 (IntervalSec p !! o)
     else Z.min (BaseSec (TransientBackoff p) * Factor (TransientBackoff p) ^ (SystemFailures c - 1))
            (CapSec (TransientBackoff p))) * second.
Proof.
  intros ready. destruct (Settle_cases p c o LeadAbsent t s) as [Hr|(_ & _ & E)]; [|congruence].
  destruct Hr as (_ & _ & _ & _ & Hin & Hb & E). rewrite E in H. simpl in H. injection H as H.
  fold ready in H. pose proof (proj2 (pw_outcomes p Hp) o Hin) as Hos.
  pose proof (retry_wait_pos p c o Hp Hos Hc) as Hpos.
  destruct (NextOpen_fixed off s Hs ready) as [Hopen Hsome].
  destruct (NextOpen s ready) as [u|] eqn:Hu; [|by destruct (Hsome w outer Ho Hw Hout)].
  simpl in H. subst u. destruct (Hopen due eq_refl) as (? & ? & ?).
  split; [unfold ready in *; lia|]. split; [done|]. split; [done|].
  unfold retry_wait. destruct (decide (o ∈ reachedOutcomes)) as [Hr|Hr].
  - assert (ClassOf o = ClassReached) as -> by (unfold reachedOutcomes in Hr; set_unfold; naive_solver).
    apply (pw_keys p Hp) in Hr as [sec Hsec]. unfold intervalOr. rewrite Hsec. simpl.
    pose proof (pw_intervals p Hp o sec Hsec). unfold minIntervalSec, maxIntervalSec in *.
    apply durSec_small. lia.
  - destruct Hos as [?|Hos]; [done|]. destruct Hc as [Hc|?]; [|done].
    assert (ClassOf o = ClassSystem) as -> by (unfold systemOutcomes in Hos; set_unfold; naive_solver).
    apply Wait_exact; [by apply policy_backoff_wf|done].
Qed.

(** a contact is never dialled for ever. Whatever the outcomes and the
    schedule, from fresh counters Settle keeps a contact active through at
    most MaxAttempts - 1 attempts that reached the customer and
    MaxSystemRetries - 1 (none, if that is negative) that did not. *)
Theorem attempts_bounded (p : RetryPolicy) (s : Schedule) (l : list (Outcome * instant)) (c : Counters)
    (Hp : policy_wf p) (H : attempt_all p s (mkCounters 0 0) l = Some c) :
  Attempts c <= MaxAttempts p - 1 /\ SystemFailures c <= Z.max 0 (MaxSystemRetries p - 1) /\
  Z.of_nat (length l) = Attempts c + SystemFailures c.
Proof.
  pose proof (pw_attempts p Hp).
  destruct (attempt_all_budget p s l _ c H) as (? & ? & ?); simpl in *; lia.
Qed.

(** a retry policy that is accepted is stored within its limits, states
    every interval the dialer reads (the default where none was given), keeps
    the outcomes to retry without duplicates, and is accepted unchanged when
    normalised again. *)
Theorem NormalizePolicy_normal_form (p p' : RetryPolicy) (H : NormalizePolicy p = Ok p') :
  policy_wf p' /\ MaxAttempts p' = MaxAttempts p /\ MaxSystemRetries p' = MaxSystemRetries p /\
  (forall o, o ∈ RetryOutcomes p' <-> o ∈ RetryOutcomes p) /\
  (forall o, o ∈ reachedOutcomes -> IntervalSec p' !! o = Some (intervalOr (IntervalSec p) o)) /\
  NormalizePolicy p' = Ok p'.
Proof.
  apply NormalizePolicy_Ok in H as (Hw & H). split; [done|].
  destruct H as (? & ? & ? & ?). repeat (split; [done|]). by apply NormalizePolicy_id.
Qed.

(** the backoff is exact on 64-bit durations: within a stored policy's
    bounds retry [n] waits BaseSec * Factor^(n-1) seconds, capped, and the
    multiplication never wraps. *)
Theorem Wait_spec (b : Backoff) (n : Z) (Hb : backoff_wf b) (Hn : 1 <= n) :
  Wait b n = Z.min (BaseSec b * Factor b ^ (n - 1)) (CapSec b) * second /\
  Wait b n <= Wait b (n + 1) <= maxBackoffCapSec * second.
Proof.
  rewrite !Wait_exact by (done || lia). split; [done|]. destruct Hb as (Hb & Hc & Hf).
  replace (n + 1 - 1) with (Z.succ (n - 1)) by lia. rewrite Z.pow_succ_r by lia.
  assert (0 < Factor b ^ (n - 1)) by (apply Z.pow_pos_nonneg; lia).
  assert (Hle : BaseSec b * Factor b ^ (n - 1) <= BaseSec b * (Factor b * Factor b ^ (n - 1))).
  { apply Z.mul_le_mono_nonneg_l; nia. }
  unfold maxBackoffCapSec, second in *. lia.
Qed.

(** replacing an outcome never counts an attempt twice: taking back what an
    outcome cost undoes adding it. *)
Theorem Counters_Remove_Add (c : Counters) (o : Outcome)
    (Hc : 0 <= Attempts c /\ 0 <= SystemFailures c) : Remove (Add c o) o = c.
Proof.
  destruct c as [a f]. unfold Remove, Add. simpl in *.
  destruct (ClassOf o); simpl; try done; f_equal; lia.
Qed.

Lemma attempts_bounded_witness :
  let l := [(OutcomeNoAnswer, 1); (OutcomeTransient, 2); (OutcomeBusy, 3)] in
  attempt_all DefaultRetryPolicy night_schedule (mkCounters 0 0) l = Some (mkCounters 2 1) /\
  2 <= MaxAttempts DefaultRetryPolicy - 1.
Proof.
  intros l. assert (H : attempt_all DefaultRetryPolicy night_schedule (mkCounters 0 0) l
                        = Some (mkCounters 2 1)) by (vm_compute; reflexivity).
  split; [exact H|].
  apply (attempts_bounded DefaultRetryPolicy night_schedule l (mkCounters 2 1)); [|exact H].
  apply (NormalizePolicy_Ok DefaultRetryPolicy). vm_compute. reflexivity.
Defined.

Lemma Settle_retry_time_witness :
  let s := night_schedule in
  let t := of_unix (20662 * 86400) in
  exists due, NextAttemptAt (Settle DefaultRetryPolicy (mkCounters 1 0) OutcomeBusy LeadAbsent t s) = Some due
    /\ IsOpen s due = true.
Proof.
  intros s t.
  assert (H : exists due, NextAttemptAt (Settle DefaultRetryPolicy (mkCounters 1 0) OutcomeBusy LeadAbsent t s) = Some due)
    by (eexists; vm_compute; reflexivity).
  destruct H as [due H]. exists due. split; [exact H|].
  refine (proj1 (proj2 (Settle_retry_time 28800 s (mkRange 1260 240) (Window s) _ _ _ _
    DefaultRetryPolicy _ (mkCounters 1 0) OutcomeBusy t due _ H))).
  - constructor; [reflexivity | left; reflexivity].
  - unfold range_wf, MinutesPerDay; simpl; lia.
  - vm_compute. reflexivity.
  - left. reflexivity.
  - apply (NormalizePolicy_Ok DefaultRetryPolicy). vm_compute. reflexivity.
  - right. unfold reachedOutcomes. constructor 2. constructor 1.
Defined.

Lemma NormalizePolicy_normal_form_witness :
  NormalizePolicy DefaultRetryPolicy = Ok DefaultRetryPolicy /\ policy_wf DefaultRetryPolicy.
Proof.
  assert (H : NormalizePolicy DefaultRetryPolicy = Ok DefaultRetryPolicy) by (vm_compute; reflexivity).
  split; [exact H|]. exact (proj1 (NormalizePolicy_normal_form _ _ H)).
Defined.

Lemma Wait_spec_witness :
  Wait (mkBackoff 300 3 14400) 4 = 8100 * second /\
  Wait (mkBackoff 300 3 14400) 4 <= Wait (mkBackoff 300 3 14400) 5 <= maxBackoffCapSec * second.
Proof.
  apply (Wait_spec (mkBackoff 300 3 14400) 4); [|lia].
  unfold backoff_wf, maxBackoffCapSec, maxBackoffFactor. simpl. lia.
Defined.

Lemma Counters_Remove_Add_witness :
  Remove (Add (mkCounters 1 2) OutcomeTransient) OutcomeTransient = mkCounters 1 2.
Proof. apply (Counters_Remove_Add (mkCounters 1 2)). simpl. lia. Defined.

End CampaignPolicy.
