(* ===== verification/Capacity.v ===== *)
(** * Expected-answer admission: [internal/campaign/capacity.go]

    The arithmetic a campaign's over-dialling is planned with: the Wilson
    bound in double precision, the overflow mode and its hysteresis, and the
    two sample windows. The ring buffer of answered calls is proved to hold
    the last [RateWindow] samples, the sorted window the most recently dialled
    ones. Floating-point operations are IEEE ones, not fused. *)

From S2P Require Import Prelude Float64 CampaignTypes.
Import Float64 CampaignTypes.

Module Capacity.

(** [internal/campaign/capacity.go:const(RateWindow)] *)
Definition RateWindow : nat := 200.
Definition MinRateSamples : Z := 50.
Definition z95 : f64 := fdiv (of_int 1959964) (of_int 1000000).
Definition z99 : f64 := fdiv (of_int 2575829) (of_int 1000000).

(** [internal/campaign/capacity.go:DoesRing] *)
Definition DoesRing (o : Outcome) : bool :=
  IsAnsweredOutcome o || bool_decide (o = OutcomeNoAnswer) || bool_decide (o = OutcomeBusy)
  || bool_decide (o = OutcomeRejected).

(** [internal/campaign/capacity.go:WilsonUpper] *)
Definition WilsonUpper (k n : Z) (z : f64) : f64 :=
  if n <=? 0 then f1
  else
    let nf := of_int n in
    let p := fdiv (of_int k) nf in
    let z2 := fmul z z in
    let centre := fadd p (fdiv z2 (fmul (of_int 2) nf)) in
    let margin := fmul z (fsqrt (fadd (fdiv (fmul p (fsub f1 p)) nf)
                                      (fdiv z2 (fmul (fmul (of_int 4) nf) nf)))) in
    fmin f1 (fdiv (fadd centre margin) (fadd f1 (fdiv z2 nf))).

(** [internal/campaign/capacity.go:AnswerRateBound] *)
Definition AnswerRateBound (answered rang : Z) (isTightened : bool) : f64 :=
  if rang <? MinRateSamples then f1
  else WilsonUpper answered rang (if isTightened then z99 else z95).

(** [internal/campaign/capacity.go:OverflowMode] *)
Inductive OverflowMode := OverflowNormal | OverflowTightened | OverflowStopped.

#[export] Instance OverflowMode_eq_dec : EqDecision OverflowMode.
Proof. solve_decision. Defined.

(** [internal/campaign/capacity.go:NextOverflowMode] *)
Definition NextOverflowMode (prev : OverflowMode) (rate tighten stop : f64) : OverflowMode :=
  if flt stop rate then OverflowStopped
  else if decide (prev = OverflowStopped) then
    if flt rate tighten then OverflowNormal else OverflowStopped
  else if flt tighten rate then OverflowTightened
  else OverflowNormal.

(** [internal/campaign/capacity.go:window] *)
Record window := mkWin {
  buf : list bool;
  ids : list uuid;
  n : nat;
  pos : nat;
  count : Z
}.

Definition empty_window : window :=
  mkWin (replicate RateWindow false) (replicate RateWindow uuid_Nil) 0 0 0.

Definition bit (v : bool) : Z := if v then 1 else 0.

(** [internal/campaign/capacity.go:window.add] *)
Definition window_add (w : window) (v : bool) (id : uuid) : window :=
  let '(n', count') :=
    if Nat.eqb (n w) RateWindow
    then (n w, count w - bit (nth (pos w) (buf w) false))
    else (S (n w), count w) in
  mkWin (<[pos w := v]> (buf w)) (<[pos w := id]> (ids w)) n' (S (pos w) mod RateWindow)%nat
    (count' + bit v).

(** [internal/campaign/capacity.go:window.set] The loop of [set] from index [i], [k] rounds left. *)
Fixpoint set_loop (w : window) (id : uuid) (v : bool) (i k : nat) : window * bool :=
  match k with
  | O => (w, false)
  | S k =>
      if N.eqb (nth i (ids w) uuid_Nil) id && negb (N.eqb id uuid_Nil) then
        let held := nth i (buf w) false in
        (if Bool.eqb held v then w
         else mkWin (<[i := v]> (buf w)) (ids w) (n w) (pos w)
                (if v then count w + 1 else count w - 1), true)
      else set_loop w id v (S i) k
  end.

(** [internal/campaign/capacity.go:window.set] *)
Definition window_set (w : window) (id : uuid) (v : bool) : window * bool :=
  set_loop w id v 0 (n w).

(** [internal/campaign/capacity.go:rangSample] *)
Record rangSample := mkSample { at_ : instant; tie : Z; value : bool }.

(** [internal/campaign/capacity.go:rangSample.before] *)
Definition before (a b : rangSample) : bool :=
  if at_ a =? at_ b then tie a <? tie b else at_ a <? at_ b.

(** [internal/campaign/capacity.go:rangWindow] *)
Record rangWindow := mkRang { held : list rangSample; rcount : Z; rstate : Z }.

(** [sort.Search]: the binary search over [i..j) for the first index at which
    the predicate holds; each round halves the interval. *)
Fixpoint search (f : nat -> bool) (fuel i j : nat) : nat :=
  match fuel with
  | O => i
  | S fuel =>
      if Nat.ltb i j then
        let h := Nat.div2 (i + j) in
        if f h then search f fuel i h else search f fuel (S h) j
      else i
  end.

Definition sort_Search (len : nat) (f : nat -> bool) : nat := search f (S len) 0 len.

Definition sample0 : rangSample := mkSample 0 0 false.

(** [internal/campaign/capacity.go:rangWindow.add] *)
Definition rang_add (w : rangWindow) (at_ : instant) (v : bool) : rangWindow :=
  let state := wrapU 64 (rstate w * 6364136223846793005 + 1442695040888963407) in
  let sm := mkSample at_ (Z.shiftr state 16) v in
  if Nat.eqb (length (held w)) RateWindow && before sm (nth 0 (held w) sample0)
  then mkRang (held w) (rcount w) state
  else
    let i := sort_Search (length (held w)) (fun i => before sm (nth i (held w) sample0)) in
    let held' := take i (held w) ++ sm :: drop i (held w) in
    let count' := rcount w + bit v in
    if Nat.ltb RateWindow (length held')
    then mkRang (drop 1 held') (count' - bit (value (nth 0 held' sample0))) state
    else mkRang held' count' state.

(** [internal/campaign/capacity.go:CapacityStats] *)
Record CapacityStats := mkStats {
  tighten : f64;
  stop : f64;
  rang : rangWindow;
  replayed : Z;
  answered : window;
  mode : OverflowMode
}.

(** [internal/campaign/capacity.go:NewCapacityStats] *)
Definition NewCapacityStats (tightenRate stopRate : f64) : CapacityStats :=
  mkStats tightenRate stopRate (mkRang [] 0 0) 0 empty_window OverflowNormal.

(** [internal/campaign/capacity.go:CapacityStats.OverflowRate] *)
Definition OverflowRate (s : CapacityStats) : f64 :=
  if Nat.eqb (n (answered s)) 0 then f0
  else fdiv (of_int (count (answered s))) (of_int (Z.of_nat (n (answered s)))).

(** [internal/campaign/capacity.go:CapacityStats.remode] *)
Definition remode (s : CapacityStats) : CapacityStats :=
  mkStats (tighten s) (stop s) (rang s) (replayed s) (answered s)
    (NextOverflowMode (mode s) (OverflowRate s) (tighten s) (stop s)).

Definition with_rang (s : CapacityStats) (r : rangWindow) : CapacityStats :=
  mkStats (tighten s) (stop s) r (replayed s) (answered s) (mode s).
Definition with_answered (s : CapacityStats) (w : window) : CapacityStats :=
  mkStats (tighten s) (stop s) (rang s) (replayed s) w (mode s).
Definition with_replayed (s : CapacityStats) (r : Z) : CapacityStats :=
  mkStats (tighten s) (stop s) (rang s) r (answered s) (mode s).

(** [internal/campaign/capacity.go:CapacityStats.Rang] *)
Definition Rang (s : CapacityStats) (dialledAt : instant) (isAnswered : bool) : CapacityStats :=
  with_rang s (rang_add (rang s) dialledAt isAnswered).

(** [internal/campaign/capacity.go:CapacityStats.Answered] *)
Definition Answered (s : CapacityStats) (id : uuid) : CapacityStats :=
  remode (with_answered s (window_add (answered s) false id)).

(** [internal/campaign/capacity.go:CapacityStats.Overflowed] *)
Definition Overflowed (s : CapacityStats) (id : uuid) : CapacityStats :=
  let '(w, found) := window_set (answered s) id true in
  remode (with_answered s (if found then w else window_add w true uuid_Nil)).

(** [time.Unix(0, ns)]. *)
Definition unixNano (ns : Z) : instant := 62135596800 * second + ns.

(** [internal/campaign/capacity.go:CapacityStats.Observe] *)
Definition Observe (s : CapacityStats) (o : Outcome) : CapacityStats :=
  if negb (DoesRing o) then s
  else
    let isAnswered := IsAnsweredOutcome o in
    let s := with_replayed s (replayed s + 1) in
    let s := with_rang s (rang_add (rang s) (unixNano (replayed s)) isAnswered) in
    if isAnswered
    then remode (with_answered s (window_add (answered s) (bool_decide (o = OutcomeOverflow)) uuid_Nil))
    else s.

(** [internal/campaign/capacity.go:CapacityStats.Mode] *)
Definition Mode (s : CapacityStats) : OverflowMode := mode s.

(** [internal/campaign/capacity.go:CapacityStats.Samples] *)
Definition Samples (s : CapacityStats) : Z := Z.of_nat (length (held (rang s))).

(** [internal/campaign/capacity.go:CapacityStats.Answers] *)
Definition Answers (s : CapacityStats) : Z := rcount (rang s).

(** [internal/campaign/capacity.go:CapacityStats.Bound] *)
Definition Bound (s : CapacityStats) : f64 :=
  if decide (mode s = OverflowStopped) then f1
  else AnswerRateBound (rcount (rang s)) (Z.of_nat (length (held (rang s))))
         (bool_decide (mode s = OverflowTightened)).

(** ** The ring buffer holds the last samples *)

#[local] Arguments Nat.modulo : simpl never.

Definition trues (l : list (bool * uuid)) : Z := Z.of_nat (length (filter (fun x => x.1 = true) l)).

Lemma trues_app l l' : trues (l ++ l') = trues l + trues l'.
Proof. unfold trues. rewrite filter_app, length_app. lia. Qed.

Lemma trues_single v id : trues [(v, id)] = bit v.
Proof. by destruct v. Qed.

(** The samples held, oldest first. *)
Definition recent (w : window) : list (bool * uuid) :=
  let z := zip (buf w) (ids w) in
  if Nat.ltb (n w) RateWindow then take (n w) z else drop (pos w) z ++ take (pos w) z.

(** The last [RateWindow] of a list. *)
Definition lastN {A} (l : list A) : list A := drop (length l - RateWindow) l.

Record window_ok (w : window) : Prop := mkWinOk {
  wo_buf : length (buf w) = RateWindow;
  wo_ids : length (ids w) = RateWindow;
  wo_n : (n w <= RateWindow)%nat;
  wo_pos : (pos w < RateWindow)%nat;
  wo_fill : (n w < RateWindow)%nat -> pos w = n w;
  wo_count : count w = trues (recent w)
}.

Lemma lastN_snoc {A} (l : list A) x : lastN (l ++ [x]) = lastN (lastN l ++ [x]).
Proof.
  unfold lastN. rewrite !length_app, length_drop. simpl.
  destruct (decide (length l < RateWindow)%nat).
  - replace (length l - RateWindow)%nat with 0%nat by lia. simpl.
    replace (length l + 1 - RateWindow)%nat with 0%nat by lia.
    replace (length l - 0 + 1 - RateWindow)%nat with 0%nat by lia. done.
  - replace (length l - (length l - RateWindow) + 1 - RateWindow)%nat with 1%nat by lia.
    rewrite <- (drop_app_le l [x] (length l - RateWindow)) by lia. rewrite drop_drop.
    f_equal. lia.
Qed.

Lemma lastN_short {A} (l : list A) : (length l <= RateWindow)%nat -> lastN l = l.
Proof. intros H. unfold lastN. by replace (length l - RateWindow)%nat with 0%nat by lia. Qed.

Lemma lastN_full {A} (y : A) l : length l = RateWindow -> lastN (y :: l) = l.
Proof.
  intros H. unfold lastN. by replace (length (y :: l) - RateWindow)%nat with 1%nat
    by (rewrite length_cons; lia).
Qed.

Lemma window_add_zip w v id : window_ok w ->
  zip (buf (window_add w v id)) (ids (window_add w v id))
  = take (pos w) (zip (buf w) (ids w)) ++ (v, id) :: drop (S (pos w)) (zip (buf w) (ids w)).
Proof.
  intros [Hb Hi Hn Hp Hf Hc]. unfold window_add.
  destruct (if Nat.eqb (n w) RateWindow then _ else _) as [n' c']. simpl.
  change (zip (<[pos w:=v]> (buf w)) (<[pos w:=id]> (ids w)))
    with (zip_with pair (<[pos w:=v]> (buf w)) (<[pos w:=id]> (ids w))).
  rewrite <- insert_zip_with, insert_take_drop; [done|].
  rewrite length_zip_with. lia.
Qed.

Lemma window_add_arrays w v id : window_ok w ->
  length (buf (window_add w v id)) = RateWindow /\ length (ids (window_add w v id)) = RateWindow /\
  (pos (window_add w v id) < RateWindow)%nat.
Proof.
  intros Hw. unfold window_add. destruct (if Nat.eqb (n w) RateWindow then _ else _). simpl buf.
  simpl ids. simpl pos. rewrite !length_insert. split; [apply Hw|]. split; [apply Hw|].
  by apply Nat.mod_upper_bound.
Qed.

(** A full window drops its oldest sample. *)
Lemma window_add_full w v id : window_ok w -> n w = RateWindow ->
  exists y rest, recent w = y :: rest /\ recent (window_add w v id) = rest ++ [(v, id)] /\
    length rest = (RateWindow - 1)%nat /\
    n (window_add w v id) = RateWindow /\ count (window_add w v id) = count w - bit y.1 + bit v.
Proof.
  intros Hw E. pose proof (window_add_zip w v id Hw) as Hz. pose proof Hw as [Hb Hi Hn Hp Hf Hc].
  set (z := zip (buf w) (ids w)) in *.
  assert (Hlz : length z = RateWindow) by (unfold z; rewrite length_zip_with; lia).
  destruct (lookup_lt_is_Some_2 z (pos w)) as [[y iy] Hy]; [lia|].
  assert (Hd : drop (pos w) z = (y, iy) :: drop (S (pos w)) z) by (by apply drop_S).
  assert (Hbuf : nth (pos w) (buf w) false = y).
  { unfold z in Hy. apply lookup_zip_with_Some in Hy as (b & i & [= <- <-] & Hyb & _).
    by apply nth_lookup_Some. }
  exists (y, iy), (drop (S (pos w)) z ++ take (pos w) z). split; [|split; [|split; [|split]]].
  - unfold recent. fold z. rewrite E, Nat.ltb_irrefl, Hd. done.
  - unfold recent. rewrite Hz. unfold window_add. rewrite (proj2 (Nat.eqb_eq _ _) E).
    simpl pos. simpl n. rewrite E, Nat.ltb_irrefl, <- app_assoc.
    destruct (decide (S (pos w) = RateWindow)) as [Ep|Ep].
    + rewrite Ep, Nat.Div0.mod_same, (drop_ge z) by lia. simpl. by rewrite app_nil_r.
    + rewrite Nat.mod_small by lia.
      rewrite drop_app_ge, take_app_ge by (rewrite length_take; lia).
      rewrite length_take, Nat.min_l by lia.
      replace (S (pos w) - pos w)%nat with 1%nat by lia. simpl. by rewrite take_0.
  - rewrite length_app, length_drop, length_take. lia.
  - unfold window_add. by rewrite (proj2 (Nat.eqb_eq _ _) E).
  - unfold window_add. rewrite (proj2 (Nat.eqb_eq _ _) E). simpl count. by rewrite Hbuf.
Qed.

(** A window that is filling keeps every sample. *)
Lemma window_add_filling w v id : window_ok w -> (n w < RateWindow)%nat ->
  length (recent w) = n w /\ recent (window_add w v id) = recent w ++ [(v, id)] /\
  n (window_add w v id) = S (n w) /\ count (window_add w v id) = count w + bit v /\
  ((S (n w) < RateWindow)%nat -> pos (window_add w v id) = S (n w)).
Proof.
  intros Hw E. pose proof (window_add_zip w v id Hw) as Hz. pose proof Hw as [Hb Hi Hn Hp Hf Hc].
  set (z := zip (buf w) (ids w)) in *.
  assert (Hlz : length z = RateWindow) by (unfold z; rewrite length_zip_with; lia).
  specialize (Hf E). assert (Hne : Nat.eqb (n w) RateWindow = false) by (apply Nat.eqb_neq; lia).
  assert (Hrec : recent w = take (n w) z).
  { unfold recent. fold z. by rewrite (proj2 (Nat.ltb_lt _ _)) by lia. }
  rewrite Hrec. split; [rewrite length_take; lia|]. split; [|split; [|split]].
  - unfold recent. rewrite Hz. unfold window_add. rewrite Hne. simpl pos. simpl n.
    rewrite Hf. destruct (Nat.ltb_spec (S (n w)) RateWindow).
    + rewrite take_app_ge by (rewrite length_take; lia). rewrite length_take, Nat.min_l by lia.
      replace (S (n w) - n w)%nat with 1%nat by lia. simpl. by rewrite take_0.
    + assert (S (n w) = RateWindow) as -> by lia. rewrite Nat.Div0.mod_same. simpl.
      rewrite (drop_ge z) by lia. by rewrite app_nil_r.
  - unfold window_add. by rewrite Hne.
  - unfold window_add. by rewrite Hne.
  - intros Hl. unfold window_add. rewrite Hne. simpl pos. rewrite Nat.mod_small; lia.
Qed.

Lemma window_add_recent w v id : window_ok w ->
  recent (window_add w v id) = lastN (recent w ++ [(v, id)]) /\ window_ok (window_add w v id).
Proof.
  intros Hw. pose proof (window_add_arrays w v id Hw) as (Hb & Hi & Hp).
  destruct (decide (n w = RateWindow)) as [E|E].
  - destruct (window_add_full w v id Hw E) as (y & rest & Hr & Hnew & Hl & Hn & Hc). split.
    { rewrite Hnew, Hr. symmetry. apply (lastN_full y). rewrite length_app. simpl. lia. }
    constructor; try done; try lia.
    rewrite Hc, Hnew, (wo_count w Hw), Hr, trues_app, trues_single.
    change (y :: rest) with ([y] ++ rest). destruct y as [y iy]. rewrite trues_app, trues_single. simpl. lia.
  - pose proof (wo_n w Hw). destruct (window_add_filling w v id Hw) as (Hl & Hnew & Hn & Hc & Hps); [lia|].
    split.
    { rewrite Hnew. symmetry. apply lastN_short. rewrite length_app. simpl. lia. }
    constructor; try done; try lia. by rewrite Hc, Hnew, trues_app, trues_single, (wo_count w Hw).
Qed.

Lemma empty_window_ok : window_ok empty_window /\ recent empty_window = [].
Proof.
  split; [|done]. constructor; try done; vm_compute; lia.
Qed.

Lemma recent_perm w : window_ok w -> recent w ≡ₚ take (n w) (zip (buf w) (ids w)).
Proof.
  intros [Hb Hi Hn Hp Hf Hc]. unfold recent. destruct (Nat.ltb_spec (n w) RateWindow); [done|].
  rewrite (take_ge (zip (buf w) (ids w)) (n w)) by (rewrite length_zip_with; lia).
  rewrite Permutation_app_comm. by rewrite take_drop.
Qed.

Lemma trues_perm l l' : l ≡ₚ l' -> trues l = trues l'.
Proof. intros H. unfold trues. by rewrite H. Qed.

Lemma trues_insert l i b x v y : l !! i = Some (b, x) ->
  trues (<[i := (v, y)]> l) = trues l - bit b + bit v.
Proof.
  intros H. pose proof (lookup_lt_Some _ _ _ H) as Hl.
  rewrite insert_take_drop by done. assert (E : trues l = trues (take i l ++ (b, x) :: drop (S i) l)) by (by rewrite take_drop_middle).
  rewrite E. change ((v, y) :: drop (S i) l) with ([(v, y)] ++ drop (S i) l).
  change ((b, x) :: drop (S i) l) with ([(b, x)] ++ drop (S i) l).
  rewrite !trues_app, !trues_single. lia.
Qed.

Lemma trues_bounds l : 0 <= trues l <= Z.of_nat (length l).
Proof. unfold trues. pose proof (length_filter (fun x : bool * uuid => x.1 = true) l). lia. Qed.

Lemma set_loop_ok w id v i k : window_ok w -> (i + k = n w)%nat ->
  window_ok (set_loop w id v i k).1 /\ n (set_loop w id v i k).1 = n w.
Proof.
  intros Hw. revert i. induction k as [|k IH]; intros i Hk; simpl; [done|].
  destruct (_ && _); [|apply IH; lia]. simpl.
  destruct (Bool.eqb _ v) eqn:Hv; [done|]. split; [|done].
  pose proof (recent_perm w Hw) as Hperm. pose proof Hw as [Hb Hi Hn Hp Hf Hc].
  set (w' := mkWin (<[i := v]> (buf w)) (ids w) (n w) (pos w) (if v then count w + 1 else count w - 1)).
  assert (Hok : count w' = trues (take (n w') (zip (buf w') (ids w'))) /\ length (buf w') = RateWindow).
  { simpl. rewrite length_insert. split; [|done].
    destruct (lookup_lt_is_Some_2 (buf w) i) as [b Hbi]; [lia|].
    destruct (lookup_lt_is_Some_2 (ids w) i) as [x Hxi]; [lia|].
    rewrite (nth_lookup_Some _ _ _ _ Hbi) in Hv. apply Bool.eqb_false_iff in Hv.
    assert (Hz : zip (buf w) (ids w) !! i = Some (b, x)) by (apply lookup_zip_with_Some; eauto).
    assert (Hins : zip (<[i := v]> (buf w)) (ids w) = <[i := (v, x)]> (zip (buf w) (ids w))).
    { change (zip (<[i := v]> (buf w)) (ids w)) with (zip_with pair (<[i := v]> (buf w)) (ids w)).
      rewrite <- (list_insert_id (ids w) i x) at 1 by done. by rewrite <- insert_zip_with. }
    rewrite Hins, take_insert_lt by lia.
    rewrite (trues_insert _ _ b x) by (rewrite lookup_take_lt by lia; done).
    rewrite Hc, (trues_perm _ _ Hperm). destruct v, b; simpl; (done || lia). }
  destruct Hok as [Hcount Hlen]. constructor; try done.
  rewrite Hcount. symmetry. apply trues_perm. unfold recent.
  destruct (Nat.ltb_spec (n w') RateWindow); [done|].
  rewrite (take_ge (zip (buf w') (ids w')) (n w')) by (rewrite length_zip_with; simpl in *; lia).
  rewrite Permutation_app_comm. by rewrite take_drop.
Qed.

Lemma window_set_ok w id v : window_ok w -> window_ok (window_set w id v).1.
Proof. intros Hw. apply set_loop_ok; [done|lia]. Qed.

(** ** The dialled-order window keeps the latest samples *)

Definition vals (l : list rangSample) : Z := Z.of_nat (length (filter (fun x => value x = true) l)).

Lemma vals_app l l' : vals (l ++ l') = vals l + vals l'.
Proof. unfold vals. rewrite filter_app, length_app. lia. Qed.

Lemma vals_cons x l : vals (x :: l) = bit (value x) + vals l.
Proof.
  unfold vals. destruct (value x) eqn:E; [rewrite filter_cons_True by done | rewrite filter_cons_False by (by rewrite E)];
    simpl; lia.
Qed.

(** [b] does not come before [a]. *)
Definition not_before (a b : rangSample) : Prop := before b a = false.

Record rang_ok (w : rangWindow) : Prop := mkRangOk {
  ro_sorted : StronglySorted not_before (held w);
  ro_length : (length (held w) <= RateWindow)%nat;
  ro_count : rcount w = vals (held w)
}.

Lemma before_iff a b : before a b = true <-> at_ a < at_ b \/ (at_ a = at_ b /\ tie a < tie b).
Proof. unfold before. destruct (Z.eqb_spec (at_ a) (at_ b)); rewrite Z.ltb_lt; lia. Qed.

Lemma not_before_iff a b : not_before a b <-> at_ a < at_ b \/ (at_ a = at_ b /\ tie a <= tie b).
Proof. unfold not_before. rewrite <- not_true_iff_false, before_iff. lia. Qed.

Lemma search_spec f fuel i j : (j - i < fuel)%nat -> (i <= j)%nat ->
  (forall a b, (a <= b)%nat -> (b < j)%nat -> f a = true -> f b = true) ->
  (i <= search f fuel i j <= j)%nat /\
  (forall k, (i <= k < search f fuel i j)%nat -> f k = false) /\
  (forall k, (search f fuel i j <= k < j)%nat -> f k = true).
Proof.
  revert i j. induction fuel as [|fuel IH]; intros i j Hf Hij Hm; [lia|]. simpl.
  destruct (Nat.ltb_spec i j); [|split; [lia|split; intros; lia]].
  set (h := Nat.div2 (i + j)).
  assert (Hh : (i <= h < j)%nat).
  { unfold h. pose proof (Nat.div2_odd (i + j)). destruct (Nat.odd (i + j)); simpl in *; lia. }
  destruct (f h) eqn:E.
  - destruct (IH i h) as (H1 & H2 & H3); [lia|lia|intros; eapply Hm; eauto; lia|].
    split; [lia|]. split; [done|]. intros k Hk. destruct (decide (k < h)%nat); [apply H3; lia|].
    apply (Hm h k); [lia|lia|done].
  - destruct (IH (S h) j) as (H1 & H2 & H3); [lia|lia|done|].
    split; [lia|]. split; [|done]. intros k Hk. destruct (decide (S h <= k)%nat); [apply H2; lia|].
    apply not_true_iff_false. intros Hkt. rewrite (Hm k h) in E; [done|lia|lia|done].
Qed.

Lemma sorted_lookup {A} (R : A -> A -> Prop) l i j x y :
  StronglySorted R l -> (i < j)%nat -> l !! i = Some x -> l !! j = Some y -> R x y.
Proof.
  revert i j. induction l as [|z l IH]; intros i j H Hij Hi Hj; [done|].
  apply StronglySorted_inv in H as [H Hf]. rewrite list.Forall_forall in Hf.
  destruct j as [|j]; [lia|]. destruct i as [|i]; simpl in *.
  - injection Hi as ->. apply Hf. by eapply list_elem_of_lookup_2.
  - eapply (IH i j); eauto. lia.
Qed.

(** Where the search puts a sample: everything before the place is not after
    it, everything from the place on is after it. *)
Lemma search_place l sm : StronglySorted not_before l ->
  let i := sort_Search (length l) (fun i => before sm (nth i l sample0)) in
  (i <= length l)%nat /\ (forall x, x ∈ take i l -> not_before x sm) /\
  (forall x, x ∈ drop i l -> before sm x = true).
Proof.
  intros Hs i.
  destruct (search_spec (fun i => before sm (nth i l sample0)) (S (length l)) 0 (length l))
    as (H1 & H2 & H3); [lia|lia| |].
  { intros a b Hab Hb Ha. destruct (decide (a = b)) as [->|]; [done|].
    destruct (lookup_lt_is_Some_2 l a) as [x Hx]; [lia|].
    destruct (lookup_lt_is_Some_2 l b) as [y Hy]; [lia|].
    rewrite (nth_lookup_Some _ _ _ _ Hx) in Ha. rewrite (nth_lookup_Some _ _ _ _ Hy).
    assert (Hlt : (a < b)%nat) by lia.
    pose proof (sorted_lookup _ _ _ _ _ _ Hs Hlt Hx Hy) as Hxy.
    rewrite before_iff in *. rewrite not_before_iff in Hxy. lia. }
  fold (sort_Search (length l) (fun i => before sm (nth i l sample0))) in H1, H2, H3. fold i in H1, H2, H3.
  split; [lia|]. split.
  - intros x (k & Hk)%list_elem_of_lookup. apply lookup_take_Some in Hk as [Hk Hlt].
    specialize (H2 k ltac:(lia)). by rewrite (nth_lookup_Some _ _ _ _ Hk) in H2.
  - intros x (k & Hk)%list_elem_of_lookup. rewrite lookup_drop in Hk.
    pose proof (lookup_lt_Some _ _ _ Hk). specialize (H3 (i + k)%nat ltac:(lia)).
    by rewrite (nth_lookup_Some _ _ _ _ Hk) in H3.
Qed.

Lemma sorted_insert (l1 l2 : list rangSample) sm :
  StronglySorted not_before (l1 ++ l2) -> (forall x, x ∈ l1 -> not_before x sm) ->
  (forall x, x ∈ l2 -> before sm x = true) -> StronglySorted not_before (l1 ++ sm :: l2).
Proof.
  induction l1 as [|y l1 IH]; simpl; intros Hs H1 H2.
  - constructor; [done|]. apply list.Forall_forall. intros x Hx%H2.
    rewrite not_before_iff. rewrite before_iff in Hx. lia.
  - apply StronglySorted_inv in Hs as [Hs Hf]. constructor.
    + apply IH; [done| |done]. intros x Hx. apply H1. set_solver.
    + apply list.Forall_forall. rewrite list.Forall_forall in Hf.
      intros x [Hx|[->|Hx]%elem_of_cons]%elem_of_app; [apply Hf; set_solver|apply H1; set_solver|].
      apply Hf. set_solver.
Qed.

(** One sample in, at most one out, and none of those kept is older than the
    one dropped. *)
Lemma rang_add_spec w t v : rang_ok w ->
  let w' := rang_add w t v in
  rang_ok w' /\
  exists sm, at_ sm = t /\ value sm = v /\
    (sm :: held w ≡ₚ held w' \/
     exists x, sm :: held w ≡ₚ x :: held w' /\ length (held w') = RateWindow /\
       forall y, y ∈ held w' -> not_before x y).
Proof.
  intros Hw w'. pose proof Hw as [Hs Hl Hc]. subst w'. unfold rang_add.
  set (sm := mkSample t _ v). set (i := sort_Search _ _).
  destruct (search_place (held w) sm Hs) as (Hi & Hbe & Haf). fold i in Hi, Hbe, Haf.
  destruct (Nat.eqb (length (held w)) RateWindow && before sm (nth 0 (held w) sample0)) eqn:Ef.
  { apply andb_true_iff in Ef as [E1 E2]. apply Nat.eqb_eq in E1. simpl.
    split; [by constructor|]. exists sm. split; [done|]. split; [done|]. right. exists sm.
    split; [done|]. split; [done|]. destruct (held w) as [|h hs]; [done|]. simpl in E2.
    intros y Hy. apply StronglySorted_inv in Hs as [_ Hf]. rewrite list.Forall_forall in Hf.
    apply elem_of_cons in Hy as [->|Hy].
    - rewrite before_iff in E2. rewrite not_before_iff. lia.
    - specialize (Hf y Hy). rewrite before_iff in E2. rewrite not_before_iff in *. lia. }
  assert (Hsorted : StronglySorted not_before (take i (held w) ++ sm :: drop i (held w))).
  { apply sorted_insert; [by rewrite take_drop|done|done]. }
  assert (Hperm : sm :: held w ≡ₚ take i (held w) ++ sm :: drop i (held w)).
  { rewrite <- Permutation_middle. by rewrite take_drop. }
  assert (Hcount : rcount w + bit v = vals (take i (held w) ++ sm :: drop i (held w))).
  { rewrite vals_app, vals_cons, Hc. rewrite <- (take_drop i (held w)) at 1. rewrite vals_app.
    simpl. lia. }
  set (held' := take i (held w) ++ sm :: drop i (held w)) in *. clearbody held'.
  pose proof (Permutation_length Hperm) as Hlen. simpl in Hlen.
  destruct (Nat.ltb_spec RateWindow (length held')) as [Hlt|Hge].
  - destruct held' as [|x rest]; [simpl in *; lia|]. simpl in Hlen.
    apply StronglySorted_inv in Hsorted as [Hsr Hf]. rewrite length_cons in Hlt.
    split.
    + constructor; simpl; rewrite drop_0; [done|lia|]. rewrite Hcount, vals_cons. lia.
    + exists sm. split; [done|]. split; [done|]. right. exists x. simpl.
      split; [by rewrite drop_0|]. rewrite drop_0. split; [lia|].
      by rewrite list.Forall_forall in Hf.
  - split; [by constructor|]. exists sm. split; [done|]. split; [done|]. by left.
Qed.

(** ** The statistics of a campaign *)

(** What the dialer does to a campaign's statistics. *)
Inductive stat_op :=
| OpRang (dialledAt : instant) (isAnswered : bool)
| OpAnswered (id : uuid)
| OpOverflowed (id : uuid)
| OpObserve (o : Outcome).

Definition apply_stat (s : CapacityStats) (op : stat_op) : CapacityStats :=
  match op with
  | OpRang t v => Rang s t v
  | OpAnswered id => Answered s id
  | OpOverflowed id => Overflowed s id
  | OpObserve o => Observe s o
  end.

Definition stats_ok (s : CapacityStats) : Prop := rang_ok (rang s) /\ window_ok (answered s).

Lemma apply_stat_ok s op : stats_ok s -> stats_ok (apply_stat s op).
Proof.
  intros [Hr Hw]. destruct op as [t v|id|id|o]; simpl.
  - split; [by apply rang_add_spec|done].
  - split; [done|]. by apply window_add_recent.
  - unfold Overflowed. pose proof (window_set_ok (answered s) id true Hw) as Hset.
    destruct (window_set (answered s) id true) as [w found]. simpl in Hset.
    split; [done|]. simpl. destruct found; [done|]. by apply window_add_recent.
  - unfold Observe. destruct (negb (DoesRing o)); [done|].
    destruct (IsAnsweredOutcome o); (split; [by apply rang_add_spec|]); simpl; [|done].
    by apply window_add_recent.
Qed.

Lemma NewCapacityStats_ok t r : stats_ok (NewCapacityStats t r).
Proof.
  split; [|apply empty_window_ok]. constructor; [constructor|vm_compute; lia|done].
Qed.

Lemma fmin_le a b : flt a (fmin a b) = false.
Proof.
  unfold fmin. destruct (flt a b) eqn:E; [|done].
  unfold flt, SFltb in *. destruct a as [|[]| |[]]; simpl in *; try done;
    destruct b as [|[]| |[]]; simpl in *; try done;
    rewrite ?Z.compare_refl, ?Pos.compare_cont_refl; done.
Qed.

Lemma WilsonUpper_le_1 k n z : flt f1 (WilsonUpper k n z) = false.
Proof. unfold WilsonUpper. destruct (n <=? 0); [done|]. apply fmin_le. Qed.

(** What has been reported as dialled, and whether it was answered; [k] outcomes
    of the history have been replayed before. *)
Fixpoint dialled (k : Z) (ops : list stat_op) : list (instant * bool) :=
  match ops with
  | [] => []
  | OpRang t v :: ops => (t, v) :: dialled k ops
  | OpObserve o :: ops =>
      if DoesRing o then (unixNano (k + 1), IsAnsweredOutcome o) :: dialled (k + 1) ops else dialled k ops
  | _ :: ops => dialled k ops
  end.

Definition shown (x : rangSample) : instant * bool := (at_ x, value x).

(** The samples held are the [RateWindow] dialled last. *)
Definition newest (l : list rangSample) (past : list (instant * bool)) : Prop :=
  exists dropped, map shown (l ++ dropped) ≡ₚ past /\ (dropped = [] \/ length l = RateWindow) /\ (length l <= RateWindow)%nat /\
    forall x y, x ∈ dropped -> y ∈ l -> at_ x <= at_ y.

Lemma newest_perm l p p' : p ≡ₚ p' -> newest l p -> newest l p'.
Proof. intros Hp (d & H & Hr). exists d. by rewrite H. Qed.

Lemma newest_none : newest [] [].
Proof. exists []. split; [done|]. split; [by left|]. split; [simpl; lia|]. intros ? ? H. by apply not_elem_of_nil in H. Qed.

Lemma newest_add w t v past : rang_ok w -> newest (held w) past -> newest (held (rang_add w t v)) ((t, v) :: past).
Proof.
  intros Hw (d & Hp & Hl & _ & Hd). destruct (rang_add_spec w t v Hw) as ([_ Hl' _] & sm & <- & <- & H).
  destruct H as [H|(x & Hx & Hlen & Hn)].
  - exists d. split; [|split; [|split; [done|]]].
    + rewrite <- H. simpl. by rewrite Hp.
    + destruct Hl as [->|Hl]; [by left|]. apply Permutation_length in H. simpl in H. lia.
    + destruct Hl as [->|Hl]; [intros ? ? Hin; by apply not_elem_of_nil in Hin|]. apply Permutation_length in H. simpl in H. lia.
  - exists (x :: d). split; [|split; [by right|split; [done|]]].
    + rewrite <- Permutation_middle, app_comm_cons, <- Hx. simpl. by rewrite Hp.
    + assert (Hxy : forall y, y ∈ held (rang_add w (at_ sm) (value sm)) -> at_ x <= at_ y).
      { intros y Hy%Hn. rewrite not_before_iff in Hy. lia. }
      intros a y [->|Ha]%elem_of_cons Hy; [by apply Hxy|].
      assert (Hin : y ∈ sm :: held w) by (rewrite Hx; by right). apply elem_of_cons in Hin as [->|Hin]; [|by apply Hd].
      assert (Hx' : x ∈ sm :: held w) by (rewrite Hx; left). apply elem_of_cons in Hx' as [->|Hx'].
      * destruct Hl as [->|Hl]; [by apply not_elem_of_nil in Ha|].
        assert (Hq : held w ≡ₚ held (rang_add w (at_ sm) (value sm))) by (by eapply Permutation.Permutation_cons_inv).
        apply Hd; [done|]. by rewrite Hq.
      * transitivity (at_ x); [by apply Hd|by apply Hxy].
Qed.

Lemma newest_stats ops : forall s past, stats_ok s -> newest (held (rang s)) past ->
  let s' := fold_left apply_stat ops s in
  stats_ok s' /\ newest (held (rang s')) (past ++ dialled (replayed s) ops).
Proof.
  induction ops as [|op ops IH]; intros s past Hs Hp; simpl; [by rewrite app_nil_r|].
  pose proof (apply_stat_ok s op Hs) as Hs'. destruct op as [t v|id|id|o]; simpl in *.
  - destruct (IH _ ((t, v) :: past) Hs') as [H1 H2]; [apply newest_add; [apply Hs|done]|]. split; [done|].
    eapply newest_perm; [|exact H2]. by rewrite <- Permutation_middle.
  - by destruct (IH _ past Hs').
  - revert Hs' IH. unfold Overflowed. destruct (window_set _ _ _) as [w f]. intros Hs' IH. by destruct (IH _ past Hs').
  - unfold Observe in *. destruct (DoesRing o); simpl in *; [|by apply IH].
    set (past' := (unixNano (replayed s + 1), IsAnsweredOutcome o) :: past).
    assert (Hn : newest (held (rang_add (rang s) (unixNano (replayed s + 1)) (IsAnsweredOutcome o))) past') by (apply newest_add; [apply Hs|done]).
    destruct (IsAnsweredOutcome o); (destruct (IH _ past' Hs') as [H1 H2]; [done|]; split; [done|]; eapply newest_perm; [|exact H2]; unfold past'; simpl; by rewrite <- Permutation_middle).
Qed.

(** ** Properties *)

(** C32: whatever a campaign does, in whatever order, its statistics mean what
    their names say. The dialled window is the newest 200 of all the attempts
    reported (fewer only while fewer have been), in the order they were dialled,
    and [Answers] is the number of them that were answered, [Samples] their
    number; the answered window's count is the number of overflows among the
    calls it holds, never more than 200 of them. The bound the campaign is
    planned with is never above 1, and it is 1 while the campaign is stopped or
    has fewer than 50 samples. *)
Theorem stats_invariant (tightenRate stopRate : f64) (ops : list stat_op) :
  let s := fold_left apply_stat ops (NewCapacityStats tightenRate stopRate) in
  StronglySorted not_before (held (rang s)) /\ newest (held (rang s)) (dialled 0 ops) /\
  Answers s = vals (held (rang s)) /\ Samples s = Z.of_nat (length (held (rang s))) /\
  count (answered s) = trues (recent (answered s)) /\
  0 <= count (answered s) <= Z.of_nat (n (answered s)) /\ (n (answered s) <= RateWindow)%nat /\
  flt f1 (Bound s) = false /\
  (mode s = OverflowStopped \/ Samples s < MinRateSamples -> Bound s = f1).
Proof.
  intros s. destruct (newest_stats ops (NewCapacityStats tightenRate stopRate) []) as [Hs Hn];
    [apply NewCapacityStats_ok|apply newest_none|]. simpl in Hn. fold s in Hs, Hn.
  destruct Hs as [[Hrs Hrl Hrc] Hw]. pose proof Hw as [Hb Hi Hm Hp Hf Hc].
  split; [done|]. split; [done|]. split; [done|]. split; [done|]. split; [done|]. split.
  { rewrite Hc, (trues_perm _ _ (recent_perm _ Hw)).
    pose proof (trues_bounds (take (n (answered s)) (zip (buf (answered s)) (ids (answered s))))).
    rewrite length_take, length_zip_with in H. lia. }
  split; [done|]. split.
  - unfold Bound. destruct (decide _); [done|]. unfold AnswerRateBound.
    destruct (_ <? _); [done|]. apply WilsonUpper_le_1.
  - unfold Bound, Samples, AnswerRateBound. intros H. destruct (decide _); [done|].
    destruct H as [?|H]; [done|]. by rewrite (proj2 (Z.ltb_lt _ _) H).
Qed.

(** the ring buffer is the last 200 answered calls: after any sequence of
    samples the window reads, oldest first, the last 200 of the sequence, and
    its count is how many of those overflowed. *)
Theorem window_is_last (l : list (bool * uuid)) :
  let w := fold_left (fun w x => window_add w x.1 x.2) l empty_window in
  recent w = lastN l /\ count w = trues (lastN l).
Proof.
  intros w. assert (H : recent w = lastN l /\ window_ok w).
  { subst w. induction l as [|[v id] l IH] using rev_ind.
    { split; [|apply empty_window_ok]. done. }
    rewrite fold_left_app. simpl. destruct IH as [Hr Hw].
    destruct (window_add_recent _ v id Hw) as [Hr' Hw']. split; [|done].
    by rewrite Hr', Hr, <- lastN_snoc. }
  destruct H as [Hr Hw]. split; [done|]. by rewrite (wo_count w Hw), Hr.
Qed.

(** the dialled window keeps the newest attempts, in whatever order they
    are reported: a sample goes in, at most one comes out (and only from a full
    window), and nothing that stays was dialled before the one that left. *)
Theorem rang_keeps_newest (w : rangWindow) (t : instant) (v : bool) (Hw : rang_ok w) :
  rang_ok (rang_add w t v) /\
  exists sm, at_ sm = t /\ value sm = v /\
    (sm :: held w ≡ₚ held (rang_add w t v) \/
     exists x, sm :: held w ≡ₚ x :: held (rang_add w t v) /\
       length (held (rang_add w t v)) = RateWindow /\
       forall y, y ∈ held (rang_add w t v) -> at_ x <= at_ y).
Proof.
  destruct (rang_add_spec w t v Hw) as (Hok & sm & Ht & Hv & H). split; [done|].
  exists sm. split; [done|]. split; [done|]. destruct H as [H|(x & Hx & Hl & H)]; [by left|].
  right. exists x. split; [done|]. split; [done|]. intros y Hy%H. rewrite not_before_iff in Hy. lia.
Qed.

(** overflow control does not flap. A campaign that is stopped stays
    stopped, planning every ringing leg to answer, until its overflow rate has
    been under the tighten rate at some point, not merely under the stop
    rate. *)
Theorem stopped_until_recovered (s : CapacityStats) (ops : list stat_op)
    (Hstop : mode s = OverflowStopped)
    (Hgo : mode (fold_left apply_stat ops s) <> OverflowStopped) :
  exists pre op post, ops = pre ++ op :: post /\
    let s' := fold_left apply_stat pre s in
    mode s' = OverflowStopped /\ Bound s' = f1 /\
    flt (OverflowRate (apply_stat s' op)) (tighten s) = true /\
    flt (stop s) (OverflowRate (apply_stat s' op)) = false.
Proof.
  assert (Hstep : forall s op, mode s = OverflowStopped ->
    tighten (apply_stat s op) = tighten s /\ stop (apply_stat s op) = stop s /\
    (mode (apply_stat s op) <> OverflowStopped ->
     flt (OverflowRate (apply_stat s op)) (tighten s) = true /\
     flt (stop s) (OverflowRate (apply_stat s op)) = false)).
  { assert (Hre : forall s w, mode s = OverflowStopped ->
      mode (remode (with_answered s w)) <> OverflowStopped ->
      flt (OverflowRate (remode (with_answered s w))) (tighten s) = true /\
      flt (stop s) (OverflowRate (remode (with_answered s w))) = false).
    { intros s0 w H0. change (OverflowRate (remode (with_answered s0 w)))
        with (OverflowRate (with_answered s0 w)).
      unfold remode. simpl. unfold NextOverflowMode. rewrite H0.
      destruct (flt (stop s0) _); [done|]. rewrite decide_True by done.
      by destruct (flt _ (tighten s0)). }
    intros s0 op H0. destruct op as [t v|id|id|o]; simpl.
    - by rewrite H0.
    - split; [done|]. split; [done|]. by apply Hre.
    - unfold Overflowed. destruct (window_set _ _ _) as [w found]. split; [done|]. split; [done|].
      by apply Hre.
    - unfold Observe. destruct (negb _); [by rewrite H0|]. destruct (IsAnsweredOutcome o); [|simpl; by rewrite H0].
      split; [done|]. split; [done|]. intros Hne.
      exact (Hre (with_rang (with_replayed s0 (replayed s0 + 1))
        (rang_add (rang s0) (unixNano (replayed s0 + 1)) true)) _ H0 Hne). }
  revert s Hstop Hgo. induction ops as [|op ops IH]; intros s Hstop Hgo; [done|]. simpl in Hgo.
  destruct (Hstep s op Hstop) as (Ht & Hst & Hm).
  destruct (decide (mode (apply_stat s op) = OverflowStopped)) as [E|E].
  - destruct (IH _ E Hgo) as (pre & op' & post & -> & H). rewrite Ht, Hst in H.
    exists (op :: pre), op', post. by split.
  - exists [], op, ops. split; [done|]. simpl. split; [done|]. split; [|by apply Hm].
    unfold Bound. by rewrite decide_True.
Qed.

Lemma rang_keeps_newest_witness :
  let w := rang_add (mkRang [] 0 0) 5 true in rang_ok (rang_add w 3 false).
Proof.
  intros w. apply (rang_keeps_newest w 3 false).
  apply (rang_keeps_newest (mkRang [] 0 0) 5 true).
  constructor; [constructor | vm_compute; lia | reflexivity].
Defined.

Lemma stopped_until_recovered_witness :
  let s := fold_left apply_stat [OpAnswered 1%N; OpOverflowed 1%N]
             (NewCapacityStats (fdiv f1 (of_int 50)) (fdiv f1 (of_int 10))) in
  let ops := repeat (OpAnswered 2%N) 100 in
  exists pre op post, ops = pre ++ op :: post /\
    let s' := fold_left apply_stat pre s in
    mode s' = OverflowStopped /\ Bound s' = f1 /\
    flt (OverflowRate (apply_stat s' op)) (tighten s) = true /\
    flt (stop s) (OverflowRate (apply_stat s' op)) = false.
Proof.
  intros s ops. apply (stopped_until_recovered s ops); vm_compute; [reflexivity|discriminate].
Defined.

End Capacity.
