(* ===== verification/AgentState.v ===== *)
(** * Agent presence: [internal/agents/state.go]

    The presence state machine of one agent: its transitions with their
    refusals, the availability word the wallboard shows and the status the
    switch is given. *)

From S2P Require Import Prelude.

Module AgentState.

(** [internal/agents/state.go:State] [StateUnset] is the empty text of a zero
    [Presence]. *)
Inductive State := StateUnset | StateLoggedOut | StateNotReady | StateReady.

#[export] Instance State_eq_dec : EqDecision State.
Proof. solve_decision. Defined.

(** [internal/agents/state.go:Reason] *)
Inductive Reason :=
| ReasonNone | ReasonLogin | ReasonBreak | ReasonLunch | ReasonTraining | ReasonAfterCallWork
| ReasonSystem | ReasonSupervisor | ReasonDeviceLost
| ReasonOther (s : string).

#[export] Instance Reason_eq_dec : EqDecision Reason.
Proof. solve_decision. Defined.

(** [internal/agents/state.go:var(validReasons)] *)
Definition validReasons : list Reason := [
  ReasonLogin; ReasonBreak; ReasonLunch; ReasonTraining; ReasonAfterCallWork;
  ReasonSystem; ReasonSupervisor; ReasonDeviceLost].

(** [internal/agents/state.go:Reason.Valid] *)
Definition Valid (r : Reason) : bool := contains validReasons r.

(** [internal/agents/state.go:Availability] *)
Inductive Availability :=
| AvailLoggedOut | AvailOnCall | AvailWrapUp | AvailNotReady | AvailDeviceUnreachable | AvailReady.

#[export] Instance Availability_eq_dec : EqDecision Availability.
Proof. solve_decision. Defined.

(** [internal/agents/state.go:Presence] *)
Record Presence := mkPresence {
  St : State;
  Rs : Reason;
  ExtensionNumber : string;
  EnteredAt : instant;
  WrapUpCallID : option uuid;
  IsOnCall : bool;
  CurrentCallID : option uuid;
  IsRegistered : bool;
  IsDeviceInService : bool
}.

Definition zero_presence : Presence :=
  mkPresence StateUnset ReasonNone "" zero_time None false None false false.

#[export] Instance Presence_eq_dec : EqDecision Presence.
Proof. solve_decision. Defined.

(** [internal/agents/state.go:var(ErrNotLoggedIn)] The refusals of presence,
    with those of the service ([service.go]): one type, since the service
    passes the machine's errors through. [ErrUnchanged] is
    [errPresenceUnchanged], [ErrStoreRefused] an error of the store passed
    through. *)
Inductive AgentError :=
| ErrNotLoggedIn | ErrAlreadyLoggedIn | ErrUnknownReason | ErrDeviceNotRegistered
| ErrStorage | ErrExtensionInUse | ErrUnknownAgent | ErrNoExtensionBound | ErrAgentSignedIn
| ErrValidation | ErrUnchanged | ErrStoreRefused.

#[export] Instance AgentError_eq_dec : EqDecision AgentError.
Proof. solve_decision. Defined.

(** [internal/agents/state.go:Presence.CurrentState] *)
Definition CurrentState (p : Presence) : State :=
  match St p with StateUnset => StateLoggedOut | s => s end.

(** [internal/agents/state.go:Presence.IsLoggedOut] *)
Definition IsLoggedOut (p : Presence) : bool := bool_decide (CurrentState p = StateLoggedOut).

(** The fields every transition sets; observed facts stay. *)
Definition enter (p : Presence) (s : State) (r : Reason) (ext : string) (at_ : instant)
    (wrapUp : option uuid) : Presence :=
  mkPresence s r ext at_ wrapUp (IsOnCall p) (CurrentCallID p) (IsRegistered p) (IsDeviceInService p).

(** [internal/agents/state.go:Presence.Login] *)
Definition Login (p : Presence) (extensionNumber : string) (at_ : instant) : res AgentError Presence :=
  guard_res (negb (IsLoggedOut p)) ErrAlreadyLoggedIn
    (Ok (enter p StateNotReady ReasonLogin extensionNumber at_ None)).

(** [internal/agents/state.go:Presence.Logout] *)
Definition Logout (p : Presence) (at_ : instant) : res AgentError Presence :=
  guard_res (IsLoggedOut p) ErrNotLoggedIn
    (Ok (enter p StateLoggedOut ReasonNone "" at_ None)).

(** [internal/agents/state.go:Presence.Ready] *)
Definition Ready (p : Presence) (at_ : instant) : res AgentError Presence :=
  guard_res (IsLoggedOut p) ErrNotLoggedIn
  (guard_res (negb (IsRegistered p)) ErrDeviceNotRegistered
    (Ok (enter p StateReady ReasonNone (ExtensionNumber p) at_ None))).

(** [internal/agents/state.go:Presence.NotReady] *)
Definition NotReady (p : Presence) (reason : Reason) (at_ : instant) : res AgentError Presence :=
  guard_res (IsLoggedOut p) ErrNotLoggedIn
  (guard_res (negb (Valid reason)) ErrUnknownReason
    (Ok (enter p StateNotReady reason (ExtensionNumber p) at_ None))).

(** [internal/agents/state.go:Presence.StartWrapUp] *)
Definition StartWrapUp (p : Presence) (callID : uuid) (at_ : instant) : res AgentError Presence :=
  guard_res (IsLoggedOut p) ErrNotLoggedIn
    (Ok (enter p StateNotReady ReasonAfterCallWork (ExtensionNumber p) at_
           (if N.eqb callID uuid_Nil then None else Some callID))).

(** [internal/agents/state.go:Presence.IsInWrapUp] *)
Definition IsInWrapUp (p : Presence) : bool :=
  bool_decide (St p = StateNotReady) && bool_decide (Rs p = ReasonAfterCallWork).

(** [internal/agents/state.go:Presence.RingNoAnswer] *)
Definition RingNoAnswer (p : Presence) (at_ : instant) : res AgentError Presence :=
  guard_res (IsLoggedOut p) ErrNotLoggedIn (NotReady p ReasonSystem at_).

(** [internal/agents/state.go:Presence.Availability] *)
Definition PresenceAvailability (p : Presence) : Availability :=
  if IsLoggedOut p then AvailLoggedOut
  else if IsOnCall p then AvailOnCall
  else if bool_decide (St p = StateNotReady) && bool_decide (Rs p = ReasonAfterCallWork) then AvailWrapUp
  else if bool_decide (St p = StateNotReady) then AvailNotReady
  else if negb (IsRegistered p) || negb (IsDeviceInService p) then AvailDeviceUnreachable
  else AvailReady.

(** [internal/agents/state.go:Presence.CallcenterStatus] *)
Definition CallcenterStatus (p : Presence) : string :=
  match CurrentState p with
  | StateReady =>
      if negb (IsRegistered p) || negb (IsDeviceInService p) then "On Break" else "Available"
  | StateNotReady => "On Break"
  | _ => "Logged Out"
  end.

(** ** Reachability of the machine on its own *)

(** One thing that happens to a presence: a transition, or an observed fact. *)
Inductive step : Presence -> Presence -> Prop :=
| step_login p ext t p' : Login p ext t = Ok p' -> step p p'
| step_logout p t p' : Logout p t = Ok p' -> step p p'
| step_ready p t p' : Ready p t = Ok p' -> step p p'
| step_not_ready p r t p' : NotReady p r t = Ok p' -> step p p'
| step_wrap_up p c t p' : StartWrapUp p c t = Ok p' -> step p p'
| step_ring_no_answer p t p' : RingNoAnswer p t = Ok p' -> step p p'
| step_on_call p onCall call :
    step p (mkPresence (St p) (Rs p) (ExtensionNumber p) (EnteredAt p) (WrapUpCallID p)
              onCall call (IsRegistered p) (IsDeviceInService p))
| step_device p reg serv :
    step p (mkPresence (St p) (Rs p) (ExtensionNumber p) (EnteredAt p) (WrapUpCallID p)
              (IsOnCall p) (CurrentCallID p) reg serv).

Inductive reachable : Presence -> Prop :=
| reach_zero : reachable zero_presence
| reach_step p p' : reachable p -> step p p' -> reachable p'.

(** What a reachable presence looks like. *)
Record presence_wf (p : Presence) : Prop := mkPresenceWf {
  wf_reason : CurrentState p = StateNotReady <-> Rs p <> ReasonNone;
  wf_valid : CurrentState p = StateNotReady -> Rs p ∈ validReasons;
  wf_out : CurrentState p = StateLoggedOut -> ExtensionNumber p = EmptyString /\ WrapUpCallID p = None;
  wf_wrap : WrapUpCallID p <> None -> IsInWrapUp p = true
}.

Lemma enter_wf p s r ext at_ w :
  (s = StateNotReady <-> r <> ReasonNone) -> (s = StateNotReady -> r ∈ validReasons) ->
  s <> StateUnset -> (s = StateLoggedOut -> ext = EmptyString /\ w = None) ->
  (w <> None -> s = StateNotReady /\ r = ReasonAfterCallWork) ->
  presence_wf (enter p s r ext at_ w).
Proof.
  intros H1 H2 H3 H4 H5.
  assert (E : CurrentState (enter p s r ext at_ w) = s) by (unfold CurrentState; simpl; by destruct s).
  constructor; rewrite ?E; simpl; try done.
  intros Hw. destruct (H5 Hw) as [-> ->]. reflexivity.
Qed.

Lemma step_wf p p' : presence_wf p -> step p p' -> presence_wf p'.
Proof.
  intros Hp Hs.
  assert (Hnr : forall r t q, NotReady p r t = Ok q -> presence_wf q).
  { intros r t q Hq. unfold NotReady in Hq. rewrite !guard_res_Ok in Hq.
    destruct Hq as (_ & Hv & [= <-]). apply negb_false_iff in Hv. unfold Valid in Hv.
    apply contains_true in Hv. apply enter_wf; try done.
    split; [|done]. intros _ ->. unfold validReasons in Hv. set_unfold. naive_solver. }
  destruct Hs as [p ext t p' H|p t p' H|p t p' H|p r t p' H|p c t p' H|p t p' H|p b c|p b c].
  - unfold Login in H. rewrite guard_res_Ok in H. destruct H as [_ [= <-]].
    apply enter_wf; try done. intros _. unfold validReasons. set_solver.
  - unfold Logout in H. rewrite guard_res_Ok in H. destruct H as [_ [= <-]]. by apply enter_wf.
  - unfold Ready in H. rewrite !guard_res_Ok in H. destruct H as (_ & _ & [= <-]). by apply enter_wf.
  - by eapply Hnr.
  - unfold StartWrapUp in H. rewrite guard_res_Ok in H. destruct H as [_ [= <-]].
    apply enter_wf; try done. intros _. unfold validReasons. set_solver.
  - unfold RingNoAnswer in H. rewrite guard_res_Ok in H. destruct H as [_ H]. by eapply Hnr.
  - destruct Hp as [H1 H2 H3 H4]. by constructor.
  - destruct Hp as [H1 H2 H3 H4]. by constructor.
Qed.

Lemma reachable_wf p : reachable p -> presence_wf p.
Proof.
  induction 1; [|by eapply step_wf]. constructor; simpl; try done.
Qed.

(** ** Properties *)

(** presence never contradicts itself, whatever transitions and observed
    facts came in, in whatever order: an agent has a known reason exactly when
    NOT_READY, a signed-out agent holds no extension and no wrap-up, and a
    wrap-up call is remembered only during after-call work. The switch is told
    Available exactly when the agent is READY at a phone that is registered
    and in service, and then (unless on a call) the wallboard says READY. *)
Theorem presence_invariant (p : Presence) (H : reachable p) :
  presence_wf p /\
  (CallcenterStatus p = "Available"%string <->
     CurrentState p = StateReady /\ IsRegistered p = true /\ IsDeviceInService p = true) /\
  (PresenceAvailability p = AvailReady <->
     CallcenterStatus p = "Available"%string /\ IsOnCall p = false) /\
  (CallcenterStatus p = "Logged Out"%string <-> IsLoggedOut p = true).
Proof.
  split; [by apply reachable_wf|].
  unfold CallcenterStatus, PresenceAvailability, IsLoggedOut, CurrentState.
  destruct (St p), (IsOnCall p), (IsRegistered p), (IsDeviceInService p); simpl;
    repeat split; intros; simpl in *; try done; try (by destruct_and?; naive_solver);
    destruct (bool_decide (Rs p = ReasonAfterCallWork)); naive_solver.
Qed.

(** an agent becomes READY only by asking for it, signed in, at a phone
    that is registered at that moment: no other transition and no observed
    fact puts them there. *)
Theorem ready_needs_a_phone (p p' : Presence) (H : step p p')
    (Hr : CurrentState p' = StateReady) (Hn : CurrentState p <> StateReady) :
  IsLoggedOut p = false /\ IsRegistered p = true /\ exists t, Ready p t = Ok p'.
Proof.
  destruct H as [p ext t p' H|p t p' H|p t p' H|p r t p' H|p c t p' H|p t p' H|p b c|p b c];
    try done.
  - unfold Login in H. rewrite guard_res_Ok in H. by destruct H as [_ [= <-]].
  - unfold Logout in H. rewrite guard_res_Ok in H. by destruct H as [_ [= <-]].
  - pose proof H as H'. unfold Ready in H. rewrite !guard_res_Ok, negb_false_iff in H.
    destruct H as (? & ? & _). eauto.
  - unfold NotReady in H. rewrite !guard_res_Ok in H. by destruct H as (_ & _ & [= <-]).
  - unfold StartWrapUp in H. rewrite guard_res_Ok in H. by destruct H as [_ [= <-]].
  - unfold RingNoAnswer, NotReady in H. rewrite !guard_res_Ok in H. by destruct H as (_ & _ & _ & [= <-]).
Qed.

(** An agent signed in at 1001, with a phone. *)
Definition seated : Presence :=
  mkPresence StateNotReady ReasonLogin "1001" 5 None false None true true.

Lemma seated_reachable : reachable seated.
Proof.
  apply (reach_step (mkPresence StateUnset ReasonNone "" 0 None false None true true)).
  - apply (reach_step zero_presence); [constructor|]. apply (step_device zero_presence true true).
  - by apply (step_login _ "1001" 5).
Qed.

Lemma presence_invariant_witness :
  reachable seated /\ presence_wf seated /\
  (CallcenterStatus seated = "Logged Out"%string <-> IsLoggedOut seated = true).
Proof.
  split; [exact seated_reachable|]. split; apply (presence_invariant seated seated_reachable).
Defined.

Lemma ready_needs_a_phone_witness :
  let p' := enter seated StateReady ReasonNone "1001" 9 None in
  step seated p' /\ IsRegistered seated = true.
Proof.
  intros p'. assert (H : step seated p') by (apply (step_ready seated 9); reflexivity).
  split; [exact H|]. apply (ready_needs_a_phone seated p' H); [reflexivity | discriminate].
Defined.

End AgentState.
