(* ===== verification/AgentService.v ===== *)
(** * The agent presence service: [internal/agents/service.go]

    The service keeps the presence of every agent, what the switch says about
    every phone, what the event stream was last told about it, and the call
    each agent last wrapped up. A world adds what the service writes to
    outside itself: the presences saved in the database, and the trace of its
    writes to the switch, the event stream and the after-call ledger.

    What answers the service is an environment: the store's profiles and
    bindings, whether a save succeeds, whether the switch is up, the clock.
    Each operation is a function of it, composed of the critical sections the
    code has: [change] is its locked first half and its second half, so that
    what other operations do in between can be stated. *)

From S2P Require Import Prelude GoText AgentState.
Import GoText AgentState.

Module AgentService.

(** [internal/agents/service.go:Profile] *)
Record Profile := mkProfile {
  AgentID : uuid;
  UserID : uuid;
  CallcenterName : string;
  DisplayName : string;
  IsAutoAnswer : bool;
  PExtensionNumber : string;
  ExtensionID : option uuid
}.

(** [internal/agents/service.go:AgentConfig] *)
Record AgentConfig := mkConfig {
  CAgentID : uuid;
  CUserID : uuid;
  CCallcenterName : string;
  CIsAutoAnswer : bool;
  DefaultExtensionID : option uuid
}.

(** [internal/agents/service.go:deviceState] *)
Record deviceState := mkDevice { isRegistered : bool; isInService : bool }.

#[export] Instance deviceState_eq_dec : EqDecision deviceState.
Proof. solve_decision. Defined.

(** A missing map entry reads as the zero value. *)
Definition zero_device : deviceState := mkDevice false false.

(** [internal/agents/service.go:DeviceSignal] *)
Inductive DeviceSignal := SignalRegistered | SignalUnregistered | SignalReachable | SignalUnreachable.

(** [internal/agents/service.go:DeviceSignal.state] *)
Definition signal_state (d : DeviceSignal) : deviceState :=
  match d with
  | SignalRegistered | SignalReachable => mkDevice true true
  | SignalUnreachable => mkDevice true false
  | SignalUnregistered => mkDevice false false
  end.

(** The agent and device events of [internal/events], as this service
    publishes them. *)
Inductive EventType :=
| TypeAgentLoggedIn | TypeAgentLoggedOut | TypeAgentReady | TypeAgentNotReady
| TypeAgentAvailability | TypeDeviceRegistered | TypeDeviceReachable
| TypeDeviceUnreachable | TypeDeviceUnregistered.

#[export] Instance EventType_eq_dec : EqDecision EventType.
Proof. solve_decision. Defined.

(** [internal/agents/service.go:DeviceSignal.eventType] *)
Definition eventType (d : DeviceSignal) : EventType :=
  match d with
  | SignalRegistered => TypeDeviceRegistered
  | SignalReachable => TypeDeviceReachable
  | SignalUnreachable => TypeDeviceUnreachable
  | SignalUnregistered => TypeDeviceUnregistered
  end.

(** The payload of an agent's event. *)
Record Payload := mkPayload {
  pl_state : State;
  pl_availability : Availability;
  pl_isDeviceRegistered : bool;
  pl_deviceAccount : option string;
  pl_reason : Reason;
  pl_extension : string;
  pl_wrapUpCall : option uuid
}.

(** What the service writes to the world outside it. *)
Inductive effect :=
| EAddAgent (name : string)
| EWrapUpTime (name : string) (sec : Z)
| EGuard (name what : string) (value : Z)
| EContact (name ext : string) (autoAnswer : bool)
| EStatus (name status : string)
| EClearHoldOff (name : string)
| EReconcile (agent : uuid)
| EPublish (t : EventType) (agent : uuid) (payload : Payload)
| EOpenWrapUp (call agent : uuid)
| EDraft (call agent party : uuid).

(** [internal/agents/service.go:Service] Its state, with the database's rows
    and the trace of writes (newest first). *)
Record World := mkWorld {
  live : gmap uuid Presence;
  devices : gmap string deviceState;
  announced : gmap string deviceState;
  lastWrapUpCall : gmap uuid uuid;
  db : gmap uuid Presence;
  trace : list effect
}.

Definition with_live (w : World) (l : gmap uuid Presence) : World :=
  mkWorld l (devices w) (announced w) (lastWrapUpCall w) (db w) (trace w).
Definition with_devices (w : World) (d : gmap string deviceState) : World :=
  mkWorld (live w) d (announced w) (lastWrapUpCall w) (db w) (trace w).
Definition with_announced (w : World) (a : gmap string deviceState) : World :=
  mkWorld (live w) (devices w) a (lastWrapUpCall w) (db w) (trace w).
Definition with_wrapUps (w : World) (l : gmap uuid uuid) : World :=
  mkWorld (live w) (devices w) (announced w) l (db w) (trace w).
Definition with_db (w : World) (d : gmap uuid Presence) : World :=
  mkWorld (live w) (devices w) (announced w) (lastWrapUpCall w) d (trace w).
Definition emit (w : World) (e : effect) : World :=
  mkWorld (live w) (devices w) (announced w) (lastWrapUpCall w) (db w) (e :: trace w).

(** [internal/agents/service.go:NewService] *)
Definition NewService : World := mkWorld ∅ ∅ ∅ ∅ ∅ [].

(** What answers one operation. *)
Record Env := mkEnv {
  AgentProfile : uuid -> option Profile;
  AgentBoundTo : string -> option uuid;
  saveOk : uuid -> bool;
  isUp : bool;
  hasLedger : bool;
  openOk : bool;
  hasDrafter : bool;
  hasStaffing : bool;
  now : instant
}.

(** [s.live[id]], created on first use. *)
Definition presence (w : World) (agentID : uuid) : Presence :=
  default zero_presence (live w !! agentID).

(** [internal/agents/service.go:Service.presenceLocked] *)
Definition presenceLocked (w : World) (agentID : uuid) : World * Presence :=
  (with_live w (<[agentID := presence w agentID]> (live w)), presence w agentID).

Definition set_presence (w : World) (agentID : uuid) (p : Presence) : World :=
  with_live w (<[agentID := p]> (live w)).

Definition device (w : World) (ext : string) : deviceState := default zero_device (devices w !! ext).

(** The observed facts of a phone, copied onto a presence. *)
Definition with_device (p : Presence) (d : deviceState) : Presence :=
  mkPresence (St p) (Rs p) (ExtensionNumber p) (EnteredAt p) (WrapUpCallID p) (IsOnCall p)
    (CurrentCallID p) (isRegistered d) (isInService d).

(** [internal/agents/service.go:Service.applyDeviceLocked] *)
Definition applyDeviceLocked (w : World) (p : Presence) : Presence :=
  match devices w !! ExtensionNumber p with Some d => with_device p d | None => p end.

(** Somebody is signed in at [ext]. *)
Definition holds (ext : string) (p : Presence) : bool :=
  String.eqb (ExtensionNumber p) ext && negb (IsLoggedOut p).

(** [internal/agents/service.go:Service.extensionHolderLocked] Go ranges over
    the map in no order; at most one agent holds an extension (see
    [service_ok]). *)
Definition extensionHolderLocked (w : World) (ext : string) : option uuid :=
  fst <$> List.find (fun x => holds ext x.2) (map_to_list (live w)).

(** [internal/agents/service.go:Service.publish] The payload. *)
Definition payload_of (profile : Profile) (p : Presence) (dev : deviceState) : Payload :=
  let named := isRegistered dev && negb (String.eqb (PExtensionNumber profile) "") in
  mkPayload (CurrentState p) (PresenceAvailability p) named
    (if named then Some (PExtensionNumber profile) else None)
    (Rs p) (ExtensionNumber p) (WrapUpCallID p).

(** [internal/agents/service.go:Service.publish] *)
Definition publish (w : World) (t : EventType) (profile : Profile) (p : Presence) (dev : deviceState) : World :=
  emit w (EPublish t (AgentID profile) (payload_of profile p dev)).

(** [internal/agents/service.go:Service.persist] The history row is best
    effort and not modelled. *)
Definition persist (env : Env) (w : World) (agentID : uuid) (p : Presence) : option World :=
  if saveOk env agentID then Some (with_db w (<[agentID := p]> (db w))) else None.

(** [internal/agents/service.go:Service.mirrorStatus] *)
Definition mirrorStatus (env : Env) (w : World) (profile : Profile) (p : Presence) : World :=
  if isUp env then emit w (EStatus (CallcenterName profile) (CallcenterStatus p)) else w.

(** [internal/agents/service.go:const(maxNoAnswerBeforeBenched)] *)
Definition maxNoAnswerBeforeBenched : Z := 2.
Definition noAnswerDelaySec : Z := 60.
Definition rejectDelaySec : Z := 60.
Definition busyDelaySec : Z := 60.

(** [internal/agents/service.go:Service.mirrorRouting] *)
Definition mirrorRouting (w : World) (name : string) : World :=
  let w := emit w (EGuard name "max_no_answer" maxNoAnswerBeforeBenched) in
  let w := emit w (EGuard name "no_answer_delay_time" noAnswerDelaySec) in
  let w := emit w (EGuard name "reject_delay_time" rejectDelaySec) in
  emit w (EGuard name "busy_delay_time" busyDelaySec).

(** [internal/agents/service.go:Service.mirrorRegistration] *)
Definition mirrorRegistration (env : Env) (w : World) (profile : Profile) (p : Presence) : World :=
  if negb (isUp env) then w
  else
    let name := CallcenterName profile in
    let w := emit w (EAddAgent name) in
    let w := emit w (EWrapUpTime name 0) in
    let w := mirrorRouting w name in
    let w := if String.eqb (ExtensionNumber p) "" then w
             else emit w (EContact name (ExtensionNumber p) (IsAutoAnswer profile)) in
    let w := mirrorStatus env w profile p in
    if hasStaffing env then emit w (EReconcile (AgentID profile)) else w.

(** What an operation answers: the presence, and the error if there is one. *)
Definition answer := (Presence * option AgentError)%type.

(** The locked half of [change]: what is left to record, or the refusal. *)
Inductive pending :=
| Refused (a : answer)
| Applied (profile : Profile) (before snapshot : Presence) (dev : deviceState).

(** [internal/agents/service.go:Service.change] Its first half: the section
    under the lock. *)
Definition change_locked (env : Env) (w : World) (agentID : uuid)
    (apply : Presence -> res AgentError Presence) : World * pending :=
  match AgentProfile env agentID with
  | None => (w, Refused (zero_presence, Some ErrUnknownAgent))
  | Some profile =>
      let '(w, p) := presenceLocked w agentID in
      match apply p with
      | Err e => (w, Refused (p, Some e))
      | Ok p' =>
          (set_presence w agentID p', Applied profile p p' (device w (PExtensionNumber profile)))
      end
  end.

(** [internal/agents/service.go:Service.change] Its second half: recording,
    with the rollback, then mirroring and publishing. *)
Definition change_record (env : Env) (w : World) (agentID : uuid) (t : EventType) (pd : pending)
    : World * answer :=
  match pd with
  | Refused a => (w, a)
  | Applied profile before snapshot dev =>
      match persist env w agentID snapshot with
      | None => (set_presence w agentID before, (before, Some ErrStorage))
      | Some w =>
          let w := mirrorStatus env w profile snapshot in
          let w := publish w t profile snapshot dev in
          (w, (snapshot, None))
      end
  end.

(** [internal/agents/service.go:Service.change] *)
Definition change (env : Env) (w : World) (agentID : uuid) (t : EventType)
    (apply : Presence -> res AgentError Presence) : World * answer :=
  let '(w, pd) := change_locked env w agentID apply in
  change_record env w agentID t pd.

(** [internal/agents/service.go:Service.Login] A save that fails is answered
    with the error and leaves the new presence in memory. *)
Definition SLogin (env : Env) (w : World) (agentID : uuid) : World * answer :=
  match AgentProfile env agentID with
  | None => (w, (zero_presence, Some ErrUnknownAgent))
  | Some profile =>
      let ext := PExtensionNumber profile in
      if String.eqb ext "" then (w, (zero_presence, Some ErrNoExtensionBound))
      else
        let taken := match extensionHolderLocked w ext with
                     | Some holder => negb (N.eqb holder agentID)
                     | None => false
                     end in
        if taken then (w, (zero_presence, Some ErrExtensionInUse))
        else
          let '(w, p) := presenceLocked w agentID in
          match Login p ext (now env) with
          | Err e => (w, (p, Some e))
          | Ok p =>
              let snapshot := applyDeviceLocked w p in
              let w := set_presence w agentID snapshot in
              let dev := device w ext in
              match persist env w agentID snapshot with
              | None => (w, (zero_presence, Some ErrStorage))
              | Some w =>
                  let w := mirrorRegistration env w profile snapshot in
                  let w := publish w TypeAgentLoggedIn profile snapshot dev in
                  (w, (snapshot, None))
              end
          end
  end.

(** [internal/agents/service.go:Service.Logout] *)
Definition SLogout (env : Env) (w : World) (agentID : uuid) : World * answer :=
  let '(w, a) := change env w agentID TypeAgentLoggedOut (fun p => Logout p (now env)) in
  match a.2 with
  | None => (with_wrapUps w (delete agentID (lastWrapUpCall w)), a)
  | Some _ => (w, a)
  end.

(** [internal/agents/service.go:Service.CallcenterNameFor] *)
Definition CallcenterNameFor (env : Env) (agentID : uuid) : string :=
  match AgentProfile env agentID with Some p => CallcenterName p | None => "" end.

(** [internal/agents/service.go:Service.BoundExtensionFor] *)
Definition BoundExtensionFor (env : Env) (agentID : uuid) : string :=
  match AgentProfile env agentID with Some p => PExtensionNumber p | None => "" end.

(** [internal/agents/service.go:Service.clearHoldOff] *)
Definition clearHoldOff (env : Env) (w : World) (agentID : uuid) : World :=
  if negb (isUp env) then w
  else
    let name := CallcenterNameFor env agentID in
    if String.eqb name "" then w else emit w (EClearHoldOff name).

(** [internal/agents/service.go:Service.Ready] *)
Definition SReady (env : Env) (w : World) (agentID : uuid) : World * answer :=
  let wasReady := bool_decide (CurrentState (presence w agentID) = StateReady) in
  let '(w, a) := change env w agentID TypeAgentReady (fun p => Ready p (now env)) in
  match a.2 with
  | Some _ => (w, a)
  | None =>
      if wasReady || negb (String.eqb (CallcenterStatus a.1) "Available") then (w, a)
      else (clearHoldOff env w agentID, a)
  end.

(** [internal/agents/service.go:Service.NotReady] *)
Definition SNotReady (env : Env) (w : World) (agentID : uuid) (reason : Reason) : World * answer :=
  change env w agentID TypeAgentNotReady (fun p => NotReady p reason (now env)).

(** [internal/agents/service.go:Service.startWrapUp] *)
Definition startWrapUp (env : Env) (w : World) (agentID callID partyID : uuid) : World * answer :=
  let w := if N.eqb callID uuid_Nil then w
           else with_wrapUps w (<[agentID := callID]> (lastWrapUpCall w)) in
  let '(w, a) := change env w agentID TypeAgentNotReady (fun p => StartWrapUp p callID (now env)) in
  match a.2 with
  | Some _ => (w, a)
  | None =>
      if N.eqb callID uuid_Nil || negb (hasLedger env) then (w, a)
      else if negb (openOk env) then (w, (a.1, None))
      else
        let w := emit w (EOpenWrapUp callID agentID) in
        ((if hasDrafter env then emit w (EDraft callID agentID partyID) else w), (a.1, None))
  end.

(** [internal/agents/service.go:Service.StartWrapUp] *)
Definition SStartWrapUp (env : Env) (w : World) (agentID callID : uuid) : World * answer :=
  startWrapUp env w agentID callID uuid_Nil.

(** [internal/agents/service.go:Service.BeginAfterCallWork] *)
Definition BeginAfterCallWork (env : Env) (w : World) (agentID callID partyID : uuid) : World :=
  (startWrapUp env w agentID callID partyID).1.

(** [internal/agents/service.go:Service.WrapUpCall] *)
Definition WrapUpCall (w : World) (agentID : uuid) : World * option uuid :=
  match lastWrapUpCall w !! agentID with
  | Some id => (w, Some id)
  | None => let '(w, p) := presenceLocked w agentID in (w, WrapUpCallID p)
  end.

(** [internal/agents/service.go:Service.Presence] *)
Definition SPresence (w : World) (agentID : uuid) : World * Presence := presenceLocked w agentID.

(** [internal/agents/service.go:Service.EndWrapUp] *)
Definition EndWrapUp (env : Env) (w : World) (agentID : uuid) : World * answer :=
  let '(w, p) := presenceLocked w agentID in
  if negb (IsInWrapUp p) then (w, (p, None))
  else if negb (IsRegistered p) then SNotReady env w agentID ReasonDeviceLost
  else SReady env w agentID.

(** [internal/agents/service.go:Service.RingNoAnswer] *)
Definition SRingNoAnswer (env : Env) (w : World) (agentID : uuid) : World * answer :=
  let '(w, current) := SPresence w agentID in
  if negb (bool_decide (CurrentState current = StateReady)) || negb (IsRegistered current)
     || negb (IsDeviceInService current)
  then (w, (current, None))
  else change env w agentID TypeAgentNotReady (fun p => RingNoAnswer p (now env)).

(** [internal/agents/service.go:Service.BenchForNoAnswer] *)
Definition BenchForNoAnswer (env : Env) (w : World) (agentID : uuid) : World :=
  (SRingNoAnswer env w agentID).1.

(** [internal/agents/service.go:Service.SetOnCall] *)
Definition SetOnCall (env : Env) (w : World) (agentID : uuid) (onCall : bool) (callID : uuid) : World :=
  let '(w, p) := presenceLocked w agentID in
  if Bool.eqb (IsOnCall p) onCall then w
  else
    let snapshot := mkPresence (St p) (Rs p) (ExtensionNumber p) (EnteredAt p) (WrapUpCallID p) onCall
      (if onCall && negb (N.eqb callID uuid_Nil) then Some callID else None)
      (IsRegistered p) (IsDeviceInService p) in
    let w := set_presence w agentID snapshot in
    match AgentProfile env agentID with
    | Some profile => publish w TypeAgentAvailability profile snapshot (device w (PExtensionNumber profile))
    | None => w
    end.

(** [internal/agents/service.go:Service.NoteDevice] *)
Definition NoteDevice (w : World) (ext : string) (d : deviceState) : World :=
  let w := with_devices w (<[ext := d]> (devices w)) in
  match extensionHolderLocked w ext with
  | Some id => set_presence w id (with_device (presence w id) d)
  | None => w
  end.

(** [internal/agents/service.go:Service.claimAnnouncement] *)
Definition claimAnnouncement (w : World) (ext : string) (d : deviceState) : World * bool :=
  if decide (announced w !! ext = Some d) then (w, false)
  else (with_announced w (<[ext := d]> (announced w)), true).

(** [internal/agents/service.go:Service.announceToSignedOutAgent] *)
Definition announceToSignedOutAgent (env : Env) (w : World) (ext : string) (signal : DeviceSignal)
    (d : deviceState) : World :=
  if String.eqb ext "" then w
  else match AgentBoundTo env ext with
  | None => w
  | Some agentID =>
      match AgentProfile env agentID with
      | None => w
      | Some profile =>
          let '(w, p) := presenceLocked w agentID in
          if negb (IsLoggedOut p) then w
          else
            let '(w, claimed) := claimAnnouncement w ext d in
            if claimed then publish w (eventType signal) profile p d else w
      end
  end.

(** [internal/agents/service.go:Service.releaseForLostDevice] *)
Definition releaseForLostDevice (env : Env) (w : World) (agentID : uuid) : World :=
  (change env w agentID TypeAgentNotReady (fun p =>
     if negb (bool_decide (CurrentState p = StateReady)) then Err ErrUnchanged
     else NotReady p ReasonDeviceLost (now env))).1.

(** [internal/agents/service.go:Service.restoreForReturnedDevice] *)
Definition restoreForReturnedDevice (env : Env) (w : World) (agentID : uuid) : World :=
  (change env w agentID TypeAgentReady (fun p =>
     if negb (bool_decide (CurrentState p = StateNotReady)) || negb (bool_decide (Rs p = ReasonDeviceLost))
     then Err ErrUnchanged
     else Ready p (now env))).1.

(** [internal/agents/service.go:Service.ObserveDevice] *)
Definition ObserveDevice (env : Env) (w : World) (ext : string) (signal : DeviceSignal) : World :=
  let d := signal_state signal in
  let w := with_devices w (<[ext := d]> (devices w)) in
  match extensionHolderLocked w ext with
  | None => announceToSignedOutAgent env w ext signal d
  | Some agentID =>
      let snapshot := with_device (presence w agentID) d in
      let w := set_presence w agentID snapshot in
      match AgentProfile env agentID with
      | None => w
      | Some profile =>
          let w := mirrorStatus env w profile snapshot in
          let '(w, claimed) := claimAnnouncement w ext d in
          let w := if claimed then publish w (eventType signal) profile snapshot d else w in
          match signal with
          | SignalUnregistered => releaseForLostDevice env w agentID
          | SignalRegistered => restoreForReturnedDevice env w agentID
          | _ => w
          end
      end
  end.

(** [internal/agents/service.go:Service.ReleaseAgentsWithoutPhones] Go
    collects the agents in no order; each is released on its own. *)
Definition lost_agents (w : World) : list uuid :=
  fst <$> filter (fun x => IsLoggedOut x.2 = false /\ CurrentState x.2 = StateReady /\ IsRegistered x.2 = false)
    (map_to_list (live w)).

(** [internal/agents/service.go:Service.ReleaseAgentsWithoutPhones] *)
Definition ReleaseAgentsWithoutPhones (env : Env) (w : World) : World :=
  fold_left (releaseForLostDevice env) (lost_agents w) w.

(** [internal/agents/service.go:Service.SyncSwitch] *)
Definition SyncSwitch (env : Env) (w : World) : World :=
  fold_left (fun w' '(id, p) =>
    match AgentProfile env id with
    | Some profile => mirrorRegistration env w' profile p
    | None => w'
    end) (filter (fun x => IsLoggedOut x.2 = false) (map_to_list (live w))) w.

(** [internal/agents/service.go:RosterEntry] The columns that are read or
    rewritten here; the others pass through. *)
Record RosterEntry := mkRow {
  RAgentID : uuid;
  RState : State;
  RReason : Reason;
  RAvailability : Availability;
  RExtension : string;
  REnteredAt : instant;
  RWrapUpCallID : option uuid;
  RIsOnCall : bool;
  RCurrentCallID : option uuid;
  RIsRegistered : bool;
  DefaultExtensionNumber : string
}.

(** [internal/agents/service.go:Service.Roster] One row of the loop: the
    presence it leaves behind, and the row as answered. *)
Definition roster_row (w : World) (row : RosterEntry) : World * RosterEntry :=
  let '(w, p) := presenceLocked w (RAgentID row) in
  let p := mkPresence (RState row) (RReason row) (RExtension row) (EnteredAt p) (WrapUpCallID p)
             (IsOnCall p) (CurrentCallID p) (IsRegistered p) (IsDeviceInService p) in
  let p := applyDeviceLocked w p in
  let w := set_presence w (RAgentID row) p in
  (w, mkRow (RAgentID row) (RState row) (RReason row) (PresenceAvailability p) (RExtension row)
        (REnteredAt row) (RWrapUpCallID row) (IsOnCall p)
        (if IsOnCall p && bool_decide (is_Some (CurrentCallID p)) then CurrentCallID p
         else RCurrentCallID row)
        (isRegistered (device w (DefaultExtensionNumber row))) (DefaultExtensionNumber row)).

(** [internal/agents/service.go:Service.Roster] *)
Fixpoint Roster (w : World) (rows : list RosterEntry) : World * list RosterEntry :=
  match rows with
  | [] => (w, [])
  | row :: rows =>
      let '(w, row) := roster_row w row in
      let '(w, rows) := Roster w rows in
      (w, row :: rows)
  end.

(** [internal/agents/service.go:Service.Restore] The loop under the lock: the
    agents it signed out, in order. *)
Fixpoint restore_rows (env : Env) (w : World) (rows : list RosterEntry) : World * list (uuid * Presence) :=
  match rows with
  | [] => (w, [])
  | row :: rows =>
      let '(w, p) := presenceLocked w (RAgentID row) in
      let p := mkPresence (RState row) (RReason row) (RExtension row) (REnteredAt row)
                 (match RWrapUpCallID row with Some id => Some id | None => WrapUpCallID p end)
                 (IsOnCall p) (CurrentCallID p) (IsRegistered p) (IsDeviceInService p) in
      if negb (IsLoggedOut p) && negb (String.eqb (ExtensionNumber p) (DefaultExtensionNumber row)) then
        let p := match Logout p (now env) with Ok p => p | Err _ => p end in
        let w := set_presence w (RAgentID row) p in
        let '(w, out) := restore_rows env w rows in
        (w, (RAgentID row, p) :: out)
      else
        restore_rows env (set_presence w (RAgentID row) (applyDeviceLocked w p)) rows
  end.

(** [internal/agents/service.go:Service.Restore] The loop after the lock. *)
Fixpoint restore_demoted (env : Env) (w : World) (out : list (uuid * Presence)) : World * option AgentError :=
  match out with
  | [] => (w, None)
  | (id, p) :: out =>
      match persist env w id p with
      | None => (w, Some ErrStorage)
      | Some w =>
          let w := match AgentProfile env id with
                   | Some profile => mirrorStatus env w profile p
                   | None => w
                   end in
          restore_demoted env w out
      end
  end.

(** [internal/agents/service.go:Service.Restore] *)
Definition SRestore (env : Env) (w : World) (rows : list RosterEntry) : World * option AgentError :=
  let '(w, out) := restore_rows env w rows in
  restore_demoted env w out.

(** [internal/agents/service.go:Service.DeviceAtExtension] *)
Definition DeviceAtExtension (w : World) (ext : string) : deviceState * bool :=
  (device w ext, bool_decide (is_Some (devices w !! ext))).

(** [internal/agents/service.go:Service.AgentAtExtension] *)
Definition AgentAtExtension (w : World) (ext : string) : option uuid := extensionHolderLocked w ext.

(** [internal/agents/service.go:Service.AgentByCallcenterName] *)
Definition AgentByCallcenterName (env : Env) (w : World) (name : string) : option uuid :=
  List.find (fun id => match AgentProfile env id with
                       | Some profile => String.eqb (CallcenterName profile) name
                       | None => false
                       end) (fst <$> map_to_list (live w)).

(** [internal/agents/service.go:Service.mirrorConfig] *)
Definition mirrorConfig (env : Env) (w : World) (agentID : uuid) : World :=
  match AgentProfile env agentID with
  | None => w
  | Some profile =>
      let '(w, p) := presenceLocked w agentID in
      let p := if String.eqb (ExtensionNumber p) ""
               then mkPresence (St p) (Rs p) (PExtensionNumber profile) (EnteredAt p) (WrapUpCallID p)
                      (IsOnCall p) (CurrentCallID p) (IsRegistered p) (IsDeviceInService p)
               else p in
      mirrorRegistration env w profile p
  end.

(** [internal/agents/service.go:Service.MirrorAgent] *)
Definition MirrorAgent (env : Env) (w : World) (agentID : uuid) : World := mirrorConfig env w agentID.

(** [internal/agents/service.go:normalizeAgentConfig] *)
Definition normalizeAgentConfig (cfg : AgentConfig) : res AgentError AgentConfig :=
  let name := TrimSpace (CCallcenterName cfg) in
  guard_res (String.eqb name "") ErrValidation
  (guard_res (has_byte "@"%char name || has_byte " "%char name || has_byte "'"%char name) ErrValidation
  (Ok (mkConfig (CAgentID cfg) (CUserID cfg) name (CIsAutoAnswer cfg) (DefaultExtensionID cfg)))).

(** [internal/agents/service.go:sameExtension] *)
Definition sameExtension (a b : option uuid) : bool := bool_decide (a = b).

(** [internal/agents/service.go:Service.CreateAgent] [create] is the store's
    answer. *)
Definition CreateAgent (env : Env) (w : World) (cfg : AgentConfig)
    (create : AgentConfig -> option AgentConfig) : World * res AgentError AgentConfig :=
  match normalizeAgentConfig cfg with
  | Err e => (w, Err e)
  | Ok cfg =>
      match create cfg with
      | None => (w, Err ErrStoreRefused)
      | Some out => (mirrorConfig env w (CAgentID out), Ok out)
      end
  end.

(** [internal/agents/service.go:Service.UpdateAgent] [env] answers before the
    store's update, [env'] after it. *)
Definition UpdateAgent (env env' : Env) (w : World) (cfg : AgentConfig)
    (update : AgentConfig -> option AgentConfig) : World * res AgentError AgentConfig :=
  match normalizeAgentConfig cfg with
  | Err e => (w, Err e)
  | Ok cfg =>
      match AgentProfile env (CAgentID cfg) with
      | None => (w, Err ErrStoreRefused)
      | Some before =>
          let moved := negb (sameExtension (ExtensionID before) (DefaultExtensionID cfg)) in
          let '(w, refused) :=
            if moved then let '(w, p) := SPresence w (CAgentID cfg) in (w, negb (IsLoggedOut p))
            else (w, false) in
          if refused then (w, Err ErrAgentSignedIn)
          else match update cfg with
          | None => (w, Err ErrStoreRefused)
          | Some out =>
              let w :=
                if negb (sameExtension (ExtensionID before) (DefaultExtensionID out)) then
                  let a := delete (PExtensionNumber before) (announced w) in
                  with_announced w
                    (match AgentProfile env' (CAgentID out) with
                     | Some after => delete (PExtensionNumber after) a
                     | None => a
                     end)
                else w in
              (mirrorConfig env' w (CAgentID out), Ok out)
          end
      end
  end.

(** [internal/agents/service.go:Service.DeleteAgent] *)
Definition DeleteAgent (w : World) (agentID : uuid) (deleted : bool) : World * option AgentError :=
  if deleted
  then (with_wrapUps (with_live w (delete agentID (live w))) (delete agentID (lastWrapUpCall w)), None)
  else (w, Some ErrStoreRefused).

(** ** What the outside writes leave alone *)

(** Two worlds that agree on what the service remembers. *)
Definition same_memory (w w' : World) : Prop :=
  live w' = live w /\ devices w' = devices w /\ announced w' = announced w /\
  lastWrapUpCall w' = lastWrapUpCall w /\ db w' = db w.

#[export] Instance same_memory_po : PreOrder same_memory.
Proof.
  split; [by intros w|]. intros a b c (? & ? & ? & ? & ?) (? & ? & ? & ? & ?).
  unfold same_memory. repeat split; congruence.
Qed.

Create HintDb memory.

Lemma emit_memory w e : same_memory w (emit w e).
Proof. done. Qed.

Lemma publish_memory w t profile p d : same_memory w (publish w t profile p d).
Proof. done. Qed.

Lemma mirrorStatus_memory env w profile p : same_memory w (mirrorStatus env w profile p).
Proof. unfold mirrorStatus. by destruct (isUp env). Qed.

Lemma mirrorRegistration_memory env w profile p : same_memory w (mirrorRegistration env w profile p).
Proof.
  unfold mirrorRegistration. destruct (isUp env) eqn:E; simpl; [|done].
  unfold mirrorStatus. rewrite E. destruct (String.eqb _ _), (hasStaffing env); done.
Qed.

Lemma clearHoldOff_memory env w id : same_memory w (clearHoldOff env w id).
Proof. unfold clearHoldOff. destruct (isUp env); simpl; [|done]. by destruct (String.eqb _ _). Qed.

#[export] Hint Resolve emit_memory publish_memory mirrorStatus_memory mirrorRegistration_memory
  clearHoldOff_memory : memory.

(** ** The invariant of the service's memory *)

(** Somebody is signed in under [id] as [p]. *)
Definition signed_in (w : World) (id : uuid) (p : Presence) : Prop :=
  live w !! id = Some p /\ IsLoggedOut p = false.

(** A signed-in agent's presence says of their phone what the device table
    says, and nobody else is signed in at it. *)
Record service_ok (w : World) : Prop := mkServiceOk {
  so_device id p d : signed_in w id p -> devices w !! ExtensionNumber p = Some d ->
    IsRegistered p = isRegistered d /\ IsDeviceInService p = isInService d;
  so_unique id id' p p' : signed_in w id p -> signed_in w id' p' ->
    ExtensionNumber p = ExtensionNumber p' -> id = id'
}.

Lemma service_ok_memory w w' : same_memory w w' -> service_ok w -> service_ok w'.
Proof.
  intros (Hl & Hd & _) [H1 H2]. constructor.
  - intros id p d. unfold signed_in. rewrite Hl, Hd. apply H1.
  - intros id id' p p'. unfold signed_in. rewrite Hl. apply H2.
Qed.

Lemma service_ok_ext w w' : live w' = live w -> devices w' = devices w -> service_ok w -> service_ok w'.
Proof.
  intros Hl Hd [H1 H2]. constructor.
  - intros id p d. unfold signed_in. rewrite Hl, Hd. apply H1.
  - intros id id' p p'. unfold signed_in. rewrite Hl. apply H2.
Qed.

(** The rest of the world may change freely. *)
Ltac ok_ext := eapply service_ok_ext; [| |eassumption]; done.

(** Writing a presence keeps the invariant when it does not sign anybody in
    anywhere new and leaves the phone's facts as they were. *)
Definition tame (p p' : Presence) : Prop :=
  IsLoggedOut p' = false ->
  IsLoggedOut p = false /\ ExtensionNumber p' = ExtensionNumber p /\
  IsRegistered p' = IsRegistered p /\ IsDeviceInService p' = IsDeviceInService p.

Lemma zero_logged_out : IsLoggedOut zero_presence = true.
Proof. reflexivity. Qed.

Lemma presence_signed_in w id : IsLoggedOut (presence w id) = false -> signed_in w id (presence w id).
Proof.
  unfold presence, signed_in. destruct (live w !! id); simpl; [done|]. by rewrite zero_logged_out.
Qed.

Lemma signed_in_set w id p id' q :
  signed_in (set_presence w id p) id' q <->
  (id' = id /\ q = p /\ IsLoggedOut p = false) \/ (id' <> id /\ signed_in w id' q).
Proof.
  unfold signed_in, set_presence. simpl. destruct (decide (id' = id)) as [->|Hne].
  - rewrite lookup_insert_eq. naive_solver.
  - rewrite lookup_insert_ne by done. naive_solver.
Qed.

Lemma set_presence_ok w id p : service_ok w -> tame (presence w id) p -> service_ok (set_presence w id p).
Proof.
  intros [H1 H2] Ht. constructor.
  - intros id' q d Hs Hd. simpl in Hd. apply signed_in_set in Hs as [(-> & -> & Ho)|(Hne & Hs)]; [|eauto].
    destruct (Ht Ho) as (Ho' & E & Er & Ei). rewrite Er, Ei. rewrite E in Hd.
    by eapply H1; [apply presence_signed_in|].
  - intros a b pa pb Ha Hb E. apply signed_in_set in Ha as [(-> & -> & Ho)|(Hna & Ha)];
      apply signed_in_set in Hb as [(-> & -> & Ho')|(Hnb & Hb)]; try done.
    + destruct (Ht Ho) as (Hs%presence_signed_in & E' & _). rewrite E' in E. by eapply H2.
    + destruct (Ht Ho') as (Hs%presence_signed_in & E' & _). rewrite E' in E.
      by eapply (H2 a id).
    + by eapply H2.
Qed.

Lemma tame_refl p : tame p p.
Proof. by intros H. Qed.

Lemma presenceLocked_ok w id : service_ok w -> service_ok (presenceLocked w id).1.
Proof. intros H. apply set_presence_ok; [done|apply tame_refl]. Qed.

Lemma presence_set w id p : presence (set_presence w id p) id = p.
Proof. unfold presence, set_presence. simpl. by rewrite lookup_insert_eq. Qed.

Lemma presence_set_ne w id id' p : id <> id' -> presence (set_presence w id p) id' = presence w id'.
Proof. intros H. unfold presence, set_presence. simpl. by rewrite lookup_insert_ne. Qed.

Lemma presence_locked w id id' : presence (presenceLocked w id).1 id' = presence w id'.
Proof.
  unfold presenceLocked. simpl. destruct (decide (id = id')) as [->|H].
  - apply presence_set.
  - by apply presence_set_ne.
Qed.

(** [change], by its three outcomes. *)
Lemma change_cases env w id t apply :
  let '(w', (p, err)) := change env w id t apply in
  (exists profile, AgentProfile env id = Some profile /\
     apply (presence w id) = Ok p /\ saveOk env id = true /\ err = None /\
     live w' = <[id := p]> (live w) /\ devices w' = devices w /\ announced w' = announced w /\
     lastWrapUpCall w' = lastWrapUpCall w /\ db w' = <[id := p]> (db w) /\
     trace w' = EPublish t (AgentID profile)
                  (payload_of profile p (device w (PExtensionNumber profile)))
       :: (if isUp env then [EStatus (CallcenterName profile) (CallcenterStatus p)] else [])
          ++ trace w) \/
  (err <> None /\ (forall id', presence w' id' = presence w id') /\ devices w' = devices w /\
     announced w' = announced w /\ lastWrapUpCall w' = lastWrapUpCall w /\ db w' = db w /\
     trace w' = trace w /\ (live w' = live w \/ live w' = <[id := presence w id]> (live w))).
Proof.
  unfold change, change_locked, change_record. destruct (AgentProfile env id) as [profile|] eqn:Hp.
  2:{ right. naive_solver. }
  simpl. destruct (apply (presence w id)) as [p'|e] eqn:Ha; simpl.
  - unfold persist. destruct (saveOk env id) eqn:Hs.
    + left. exists profile. unfold mirrorStatus. simpl.
      destruct (isUp env); simpl; rewrite ?insert_insert_eq; repeat split; try done.
    + right. split; [done|]. split.
      { intros id'. simpl. unfold presence. simpl. rewrite !insert_insert_eq.
        destruct (decide (id = id')) as [->|Hne].
        - by rewrite lookup_insert_eq.
        - by rewrite lookup_insert_ne. }
      simpl. rewrite !insert_insert_eq. repeat split; try done. by right.
  - right. split; [done|]. split; [intros id'; apply (presence_locked w id)|].
    repeat split; try done. by right.
Qed.

Lemma change_ok env w id t apply :
  (forall p p', apply p = Ok p' -> tame p p') -> service_ok w -> service_ok (change env w id t apply).1.
Proof.
  intros Ht Hw. pose proof (change_cases env w id t apply) as H.
  destruct (change env w id t apply) as [w' [p err]]. simpl.
  destruct H as [(profile & _ & Ha & _ & _ & Hl & Hd & _)|(_ & _ & Hd & _ & _ & _ & _ & Hl)].
  - eapply (service_ok_ext (set_presence w id p)); [done|done|]. apply set_presence_ok; auto.
  - destruct Hl as [Hl|Hl]; [ok_ext|].
    eapply (service_ok_ext (set_presence w id (presence w id))); [done|done|].
    apply set_presence_ok; [done|apply tame_refl].
Qed.

Lemma holder_Some w ext id : extensionHolderLocked w ext = Some id ->
  signed_in w id (presence w id) /\ ExtensionNumber (presence w id) = ext.
Proof.
  unfold extensionHolderLocked. destruct (List.find _ _) as [[i p]|] eqn:Hf; [|done].
  simpl. intros [= ->]. apply find_some in Hf as [Hin Hh]. simpl in Hh.
  apply list_elem_of_In, elem_of_map_to_list in Hin. unfold holds in Hh.
  apply andb_true_iff in Hh as [He Ho]. apply String.eqb_eq in He. apply negb_true_iff in Ho.
  unfold signed_in, presence. by rewrite Hin.
Qed.

Lemma holder_None w ext : extensionHolderLocked w ext = None ->
  forall id p, signed_in w id p -> ExtensionNumber p <> ext.
Proof.
  unfold extensionHolderLocked. destruct (List.find _ _) as [[i p]|] eqn:Hf; [done|].
  intros _ id p [Hl Ho] E. eapply find_none in Hf; [|by apply list_elem_of_In, elem_of_map_to_list].
  simpl in Hf. unfold holds in Hf. by rewrite E, String.eqb_refl, Ho in Hf.
Qed.

Lemma tame_transition p p' s r ext t wr :
  p' = enter p s r ext t wr -> (s <> StateLoggedOut -> s <> StateUnset -> IsLoggedOut p = false /\ ext = ExtensionNumber p) ->
  tame p p'.
Proof.
  intros -> H Ho. unfold IsLoggedOut, CurrentState in Ho. simpl in Ho.
  destruct s; try done; destruct (H ltac:(done) ltac:(done)); done.
Qed.

Lemma Logout_tame t p p' : Logout p t = Ok p' -> tame p p'.
Proof. unfold Logout. rewrite guard_res_Ok. intros [_ [= <-]]. by eapply tame_transition. Qed.

Lemma Ready_tame t p p' : Ready p t = Ok p' -> tame p p'.
Proof.
  unfold Ready. rewrite !guard_res_Ok. intros (Ho & _ & [= <-]). by eapply tame_transition.
Qed.

Lemma NotReady_tame r t p p' : NotReady p r t = Ok p' -> tame p p'.
Proof.
  unfold NotReady. rewrite !guard_res_Ok. intros (Ho & _ & [= <-]). by eapply tame_transition.
Qed.

Lemma StartWrapUp_tame c t p p' : StartWrapUp p c t = Ok p' -> tame p p'.
Proof.
  unfold StartWrapUp. rewrite guard_res_Ok. intros (Ho & [= <-]). by eapply tame_transition.
Qed.

Lemma RingNoAnswer_tame t p p' : RingNoAnswer p t = Ok p' -> tame p p'.
Proof. unfold RingNoAnswer. rewrite guard_res_Ok. intros (_ & H). by eapply NotReady_tame. Qed.

#[export] Hint Resolve Logout_tame Ready_tame NotReady_tame StartWrapUp_tame RingNoAnswer_tame
  change_ok presenceLocked_ok : memory.

Lemma SLogin_ok env w id : service_ok w -> service_ok (SLogin env w id).1.
Proof.
  intros Hw. unfold SLogin. destruct (AgentProfile env id) as [profile|]; [|done].
  destruct (String.eqb _ ""); [done|].
  destruct (match extensionHolderLocked w _ with Some h => _ | None => false end) eqn:Ht; [done|].
  simpl. destruct (Login (presence w id) _ _) as [p|e] eqn:Hl; [|by apply presenceLocked_ok].
  set (ext := PExtensionNumber profile) in *.
  unfold Login in Hl. rewrite guard_res_Ok, negb_false_iff in Hl. destruct Hl as [Hout [= <-]].
  set (w1 := with_live w (<[id:=presence w id]> (live w))).
  set (p := applyDeviceLocked w1 _).
  assert (He : ExtensionNumber p = ext) by (unfold p, applyDeviceLocked; by destruct (_ !! _)).
  assert (Hfree : forall id' q, signed_in w id' q -> ExtensionNumber q <> ext).
  { destruct (extensionHolderLocked w ext) as [h|] eqn:Hh; [|by apply holder_None].
    apply negb_false_iff, N.eqb_eq in Ht as ->. apply holder_Some in Hh as [[_ Hs] _].
    congruence. }
  assert (Hok : service_ok (set_presence w1 id p)).
  { apply (service_ok_ext (set_presence w id p)); [|done|].
    { unfold set_presence, w1. simpl. by rewrite insert_insert_eq. }
    destruct Hw as [H1 H2]. constructor.
    - intros id' q d Hs Hd. apply signed_in_set in Hs as [(-> & -> & _)|(_ & Hs)]; [|eauto].
      simpl in Hd. rewrite He in Hd. unfold p, applyDeviceLocked. simpl. fold ext.
      by rewrite Hd.
    - intros a b pa pb Ha Hb E.
      apply signed_in_set in Ha as [(-> & -> & _)|(Hna & Ha)];
        apply signed_in_set in Hb as [(-> & -> & _)|(Hnb & Hb)]; try done.
      + rewrite He in E. by destruct (Hfree _ _ Hb).
      + rewrite He in E. by destruct (Hfree _ _ Ha).
      + by eapply H2. }
  unfold persist. destruct (saveOk env id); [|done].
  eapply service_ok_memory; [etransitivity; [apply mirrorRegistration_memory|apply publish_memory]|].
  by apply (service_ok_ext (set_presence w1 id p)).
Qed.

Lemma SLogout_ok env w id : service_ok w -> service_ok (SLogout env w id).1.
Proof.
  intros Hw. unfold SLogout.
  pose proof (change_ok env w id TypeAgentLoggedOut (fun p => Logout p (now env))
    ltac:(intros p p'; apply Logout_tame) Hw) as H.
  destruct (change _ _ _ _ _) as [w' a]. simpl in *. destruct (a.2); [done|].
  ok_ext.
Qed.

Lemma SReady_ok env w id : service_ok w -> service_ok (SReady env w id).1.
Proof.
  intros Hw. unfold SReady.
  pose proof (change_ok env w id TypeAgentReady (fun p => Ready p (now env))
    ltac:(intros p p'; apply Ready_tame) Hw) as H.
  destruct (change _ _ _ _ _) as [w' a]. simpl in *. destruct (a.2); [done|].
  destruct (_ || _); [done|]. eapply service_ok_memory; [apply clearHoldOff_memory|done].
Qed.

Lemma startWrapUp_ok env w id c party : service_ok w -> service_ok (startWrapUp env w id c party).1.
Proof.
  intros Hw. unfold startWrapUp.
  set (w1 := if N.eqb c uuid_Nil then w else _).
  assert (Hw1 : service_ok w1) by (unfold w1; destruct (N.eqb _ _); [done|]; ok_ext).
  pose proof (change_ok env w1 id TypeAgentNotReady (fun p => StartWrapUp p c (now env))
    ltac:(intros p p'; apply StartWrapUp_tame) Hw1) as H.
  destruct (change _ _ _ _ _) as [w' a]. simpl in *. destruct (a.2); [done|].
  destruct (_ || _); [done|]. destruct (openOk env); simpl; [|done].
  destruct (hasDrafter env); ok_ext.
Qed.

Lemma SNotReady_ok env w id r : service_ok w -> service_ok (SNotReady env w id r).1.
Proof. intros Hw. apply change_ok; [|done]. intros p p'. apply NotReady_tame. Qed.

Lemma EndWrapUp_ok env w id : service_ok w -> service_ok (EndWrapUp env w id).1.
Proof.
  intros Hw. apply (presenceLocked_ok w id) in Hw. unfold EndWrapUp.
  destruct (presenceLocked w id) as [w1 p]. simpl in Hw.
  destruct (negb (IsInWrapUp p)); [done|]. destruct (negb (IsRegistered p)).
  - by apply SNotReady_ok.
  - by apply SReady_ok.
Qed.

Lemma SRingNoAnswer_ok env w id : service_ok w -> service_ok (SRingNoAnswer env w id).1.
Proof.
  intros Hw. apply (presenceLocked_ok w id) in Hw. unfold SRingNoAnswer, SPresence.
  destruct (presenceLocked w id) as [w1 p]. simpl in Hw. destruct (_ || _); [done|].
  apply change_ok; [|done]. intros q q'. apply RingNoAnswer_tame.
Qed.

Lemma SetOnCall_ok env w id b c : service_ok w -> service_ok (SetOnCall env w id b c).
Proof.
  intros Hw. unfold SetOnCall. simpl. apply (presenceLocked_ok w id) in Hw as Hw1.
  destruct (Bool.eqb _ _); [exact Hw1|].
  assert (Hs : service_ok (set_presence (presenceLocked w id).1 id
    (mkPresence (St (presence w id)) (Rs (presence w id)) (ExtensionNumber (presence w id))
       (EnteredAt (presence w id)) (WrapUpCallID (presence w id)) b
       (if b && negb (N.eqb c uuid_Nil) then Some c else None)
       (IsRegistered (presence w id)) (IsDeviceInService (presence w id))))).
  { apply set_presence_ok; [done|]. rewrite presence_locked. by intros H. }
  destruct (AgentProfile env id); [|exact Hs].
  eapply service_ok_memory; [apply publish_memory|exact Hs].
Qed.

(** Recording a phone's state keeps the invariant: the one agent signed in at
    it is told. *)
Lemma device_ok w ext d : service_ok w ->
  let w1 := with_devices w (<[ext := d]> (devices w)) in
  service_ok (match extensionHolderLocked w1 ext with
              | Some id => set_presence w1 id (with_device (presence w1 id) d)
              | None => w1
              end).
Proof.
  intros [H1 H2] w1.
  assert (Hold : forall id q e, signed_in w1 id q -> devices w1 !! ExtensionNumber q = Some e ->
    ExtensionNumber q <> ext -> IsRegistered q = isRegistered e /\ IsDeviceInService q = isInService e).
  { intros id q e Hs He Hne. simpl in He. rewrite lookup_insert_ne in He by done. by eapply H1. }
  assert (Hu : forall a b pa pb, signed_in w1 a pa -> signed_in w1 b pb ->
    ExtensionNumber pa = ExtensionNumber pb -> a = b) by exact H2.
  destruct (extensionHolderLocked w1 ext) as [id|] eqn:Hh.
  - apply holder_Some in Hh as [Hs He]. constructor.
    + intros id' q e Hq Hd. apply signed_in_set in Hq as [(-> & -> & _)|(Hne & Hq)].
      * simpl in Hd. rewrite He, lookup_insert_eq in Hd. by injection Hd as <-.
      * apply (Hold id'); [done|exact Hd|]. intros E. apply Hne. eapply Hu; [exact Hq|exact Hs|congruence].
    + intros a b pa pb Ha Hb E.
      apply signed_in_set in Ha as [(-> & -> & _)|(Hna & Ha)];
        apply signed_in_set in Hb as [(-> & -> & _)|(Hnb & Hb)]; try done; simpl in E.
      * by eapply Hu.
      * by eapply (Hu a id).
      * by eapply Hu.
  - constructor; [|done]. intros id q e Hq He. apply (Hold id); [done|done|].
    by eapply holder_None.
Qed.

Lemma NoteDevice_ok w ext d : service_ok w -> service_ok (NoteDevice w ext d).
Proof. intros Hw. unfold NoteDevice. by apply device_ok. Qed.

Lemma claim_ok w ext d : service_ok w -> service_ok (claimAnnouncement w ext d).1.
Proof. intros Hw. unfold claimAnnouncement. destruct (decide _); [done|]. ok_ext. Qed.

Lemma announce_ok env w ext s d : service_ok w -> service_ok (announceToSignedOutAgent env w ext s d).
Proof.
  intros Hw. unfold announceToSignedOutAgent. destruct (String.eqb _ _); [done|].
  destruct (AgentBoundTo env ext) as [id|]; [|done]. destruct (AgentProfile env id) as [profile|]; [|done].
  apply (presenceLocked_ok w id) in Hw. destruct (presenceLocked w id) as [w1 p]. simpl in Hw.
  destruct (negb _); [done|]. apply (claim_ok w1 ext d) in Hw.
  destruct (claimAnnouncement w1 ext d) as [w2 []]; [|done]. ok_ext.
Qed.

Lemma release_ok env w id : service_ok w -> service_ok (releaseForLostDevice env w id).
Proof.
  intros Hw. apply change_ok; [|done]. intros p p'. destruct (negb _); [done|]. apply NotReady_tame.
Qed.

Lemma restore_device_ok env w id : service_ok w -> service_ok (restoreForReturnedDevice env w id).
Proof.
  intros Hw. apply change_ok; [|done]. intros p p'. destruct (_ || _); [done|]. apply Ready_tame.
Qed.

Lemma ObserveDevice_ok env w ext s : service_ok w -> service_ok (ObserveDevice env w ext s).
Proof.
  intros Hw. unfold ObserveDevice. pose proof (device_ok w ext (signal_state s) Hw) as H. simpl in H.
  destruct (extensionHolderLocked _ ext) as [id|]; [|by apply announce_ok].
  destruct (AgentProfile env id) as [profile|]; [|done].
  match goal with |- context [mirrorStatus env ?w profile ?p] => set (w2 := w); set (snap := p) end.
  assert (Hm : service_ok (mirrorStatus env w2 profile snap))
    by (eapply service_ok_memory; [apply mirrorStatus_memory|exact H]).
  apply (claim_ok _ ext (signal_state s)) in Hm.
  destruct (claimAnnouncement _ ext _) as [w3 c]. simpl in Hm.
  assert (Hc : service_ok (if c then publish w3 (eventType s) profile snap (signal_state s) else w3))
    by (destruct c; [ok_ext|done]).
  destruct s; [by apply restore_device_ok|by apply release_ok|done|done].
Qed.

Lemma Release_ok env w : service_ok w -> service_ok (ReleaseAgentsWithoutPhones env w).
Proof.
  intros Hw. unfold ReleaseAgentsWithoutPhones. apply (fold_left_inv service_ok); [done|]. intros a b Ha _. by apply release_ok.
Qed.

Lemma SyncSwitch_memory env w : same_memory w (SyncSwitch env w).
Proof.
  unfold SyncSwitch. apply (fold_left_inv (same_memory w)); [done|]. intros a [id p] Ha _.
  destruct (AgentProfile env id); [|done]. etransitivity; [exact Ha|apply mirrorRegistration_memory].
Qed.

Lemma mirrorConfig_ok env w id : service_ok w -> service_ok (mirrorConfig env w id).
Proof.
  intros Hw. unfold mirrorConfig. destruct (AgentProfile env id) as [profile|]; [|done].
  apply (presenceLocked_ok w id) in Hw. destruct (presenceLocked w id) as [w1 p]. simpl in Hw.
  eapply service_ok_memory; [apply mirrorRegistration_memory|done].
Qed.

Lemma CreateAgent_ok env w cfg create : service_ok w -> service_ok (CreateAgent env w cfg create).1.
Proof.
  intros Hw. unfold CreateAgent. destruct (normalizeAgentConfig cfg) as [c|]; [|done].
  destruct (create c); [|done]. by apply mirrorConfig_ok.
Qed.

Lemma UpdateAgent_ok env env' w cfg update : service_ok w -> service_ok (UpdateAgent env env' w cfg update).1.
Proof.
  intros Hw. unfold UpdateAgent. destruct (normalizeAgentConfig cfg) as [c|]; [|done].
  destruct (AgentProfile env _) as [before|]; [|done].
  set (r := if negb (sameExtension _ (DefaultExtensionID c)) then _ else _).
  assert (Hr : service_ok r.1).
  { unfold r. destruct (negb _); [|done]. pose proof (presenceLocked_ok w (CAgentID c) Hw) as H.
    unfold SPresence. by destruct (presenceLocked w (CAgentID c)). }
  destruct r as [w1 refused]. simpl in Hr. destruct refused; [done|].
  destruct (update c) as [out|]; [|done]. apply mirrorConfig_ok.
  destruct (negb _); [|done]. ok_ext.
Qed.

Lemma DeleteAgent_ok w id b : service_ok w -> service_ok (DeleteAgent w id b).1.
Proof.
  intros [H1 H2]. unfold DeleteAgent. destruct b; [|done].
  assert (Hs : forall i p, live (DeleteAgent w id true).1 !! i = Some p -> live w !! i = Some p).
  { simpl. intros i p Hi. by apply lookup_delete_Some in Hi as [_ Hi]. }
  constructor.
  - intros i p d [Hi Ho]. apply (H1 i). split; [by apply Hs|done].
  - intros i j p q [Hi Hip] [Hj Hjq]. apply H2; (split; [by apply Hs|done]).
Qed.

Lemma WrapUpCall_ok w id : service_ok w -> service_ok (WrapUpCall w id).1.
Proof.
  intros Hw. unfold WrapUpCall. destruct (_ !! _); [done|]. pose proof (presenceLocked_ok w id Hw) as H.
  by destruct (presenceLocked w id).
Qed.

(** *** Restarting *)

(** A stored row that says its agent is signed in. *)
Definition row_signed (row : RosterEntry) : Prop :=
  RState row = StateNotReady \/ RState row = StateReady.

(** The agents table: one row an agent, and no two agents signed in are bound
    to one extension (the table's unique index). *)
Record rows_ok (rows : list RosterEntry) : Prop := mkRowsOk {
  rk_ids i j r r' : rows !! i = Some r -> rows !! j = Some r' -> RAgentID r = RAgentID r' -> i = j;
  rk_bound i j r r' : rows !! i = Some r -> rows !! j = Some r' -> row_signed r -> row_signed r' ->
    DefaultExtensionNumber r = DefaultExtensionNumber r' -> i = j
}.

Lemma rows_ok_cons row rows : rows_ok (row :: rows) ->
  rows_ok rows /\ (forall r, r ∈ rows -> RAgentID r <> RAgentID row) /\
  (forall r, r ∈ rows -> row_signed r -> row_signed row ->
     DefaultExtensionNumber r <> DefaultExtensionNumber row).
Proof.
  intros [H1 H2]. split; [|split].
  - constructor.
    + intros i j r r' Hi Hj E. pose proof (H1 (S i) (S j) r r' Hi Hj E). lia.
    + intros i j r r' Hi Hj Hr Hr' E. pose proof (H2 (S i) (S j) r r' Hi Hj Hr Hr' E). lia.
  - intros r [i Hi]%list_elem_of_lookup E. by pose proof (H1 (S i) 0%nat r row Hi eq_refl E).
  - intros r [i Hi]%list_elem_of_lookup Hr Hr' E. by pose proof (H2 (S i) 0%nat r row Hi eq_refl Hr Hr' E).
Qed.

(** Nobody signed in so far clashes with the rows to come. *)
Definition apart (w : World) (rows : list RosterEntry) : Prop :=
  forall id p r, signed_in w id p -> r ∈ rows ->
    RAgentID r <> id /\ (row_signed r -> ExtensionNumber p <> DefaultExtensionNumber r).

Lemma apart_set w rows row p : apart w (row :: rows) -> rows_ok (row :: rows) ->
  (IsLoggedOut p = false -> row_signed row /\ ExtensionNumber p = DefaultExtensionNumber row) ->
  apart (set_presence w (RAgentID row) p) rows.
Proof.
  intros Ha Hr Hp id q r Hs Hin. apply rows_ok_cons in Hr as (_ & Hi & Hb).
  apply signed_in_set in Hs as [(-> & -> & Ho)|(Hne & Hs)].
  - destruct (Hp Ho) as [Hrow E]. split; [by apply Hi|]. rewrite E. intros Hrs E'. by apply (Hb r).
  - apply (Ha id q r Hs). set_solver.
Qed.

Lemma applyDevice_fields w p : IsLoggedOut (applyDeviceLocked w p) = IsLoggedOut p /\
  ExtensionNumber (applyDeviceLocked w p) = ExtensionNumber p.
Proof. unfold applyDeviceLocked. by destruct (_ !! _). Qed.

Lemma restore_row_ok w row rows p : service_ok w -> apart w (row :: rows) ->
  (IsLoggedOut p = false -> row_signed row /\ ExtensionNumber p = DefaultExtensionNumber row) ->
  service_ok (set_presence w (RAgentID row) (applyDeviceLocked w p)).
Proof.
  intros [H1 H2] Ha Hp. destruct (applyDevice_fields w p) as [Eo Ee]. constructor.
  - intros id q d Hs Hd. apply signed_in_set in Hs as [(-> & -> & _)|(_ & Hs)]; [|by eapply H1].
    simpl in Hd. rewrite Ee in Hd. unfold applyDeviceLocked. by rewrite Hd.
  - assert (Hclash : forall id q, signed_in w id q -> IsLoggedOut p = false ->
      ExtensionNumber q <> ExtensionNumber p).
    { intros id q Hs Ho. destruct (Hp Ho) as [Hrow ->]. by apply (Ha id q row Hs); [set_solver|]. }
    intros a b pa pb Hsa Hsb E.
    apply signed_in_set in Hsa as [(-> & -> & Hoa)|(Hna & Hsa)];
      apply signed_in_set in Hsb as [(-> & -> & Hob)|(Hnb & Hsb)]; try done.
    + rewrite Eo in Hoa. rewrite Ee in E. by destruct (Hclash _ _ Hsb Hoa).
    + rewrite Eo in Hob. rewrite Ee in E. by destruct (Hclash _ _ Hsa Hob).
    + by eapply H2.
Qed.

Lemma restore_rows_ok env rows w : rows_ok rows -> service_ok w -> apart w rows ->
  service_ok (restore_rows env w rows).1.
Proof.
  revert w. induction rows as [|row rows IH]; intros w Hr Hw Ha; simpl; [done|].
  set (w1 := with_live w (<[RAgentID row := presence w (RAgentID row)]> (live w))).
  set (p := mkPresence (RState row) _ _ _ _ _ _ _ _).
  pose proof (rows_ok_cons _ _ Hr) as (Hr' & _).
  assert (Hw1 : service_ok w1) by (apply (presenceLocked_ok w (RAgentID row) Hw)).
  assert (Ha1 : apart w1 (row :: rows)).
  { intros id q r Hs. apply signed_in_set in Hs as [(-> & -> & Ho)|(_ & Hs)].
    - by apply Ha, presence_signed_in.
    - by apply Ha. }
  assert (Hsigned : IsLoggedOut p = false -> row_signed row).
  { unfold IsLoggedOut, CurrentState, p, row_signed. simpl. destruct (RState row); simpl; auto; done. }
  destruct (negb (IsLoggedOut p) && negb (String.eqb _ _)) eqn:Eb; simpl.
  - set (q := match Logout p (now env) with Ok p => p | Err _ => p end).
    assert (Ho : IsLoggedOut q = true).
    { apply andb_true_iff in Eb as [Ho _]. apply negb_true_iff in Ho.
      unfold q, Logout. rewrite Ho. reflexivity. }
    pose proof (IH (set_presence w1 (RAgentID row) q) Hr') as H.
    destruct (restore_rows env _ rows) as [w2 out]. simpl in *. apply H.
    + apply set_presence_ok; [done|]. intros E. by rewrite E in Ho.
    + apply (apart_set w1 rows row q Ha1 Hr). intros E. by rewrite E in Ho.
  - assert (Hp : IsLoggedOut p = false -> row_signed row /\ ExtensionNumber p = DefaultExtensionNumber row).
    { intros Ho. split; [auto|]. rewrite Ho in Eb. simpl in Eb. apply negb_false_iff, String.eqb_eq in Eb.
      exact Eb. }
    apply IH; [done| |].
    + by apply (restore_row_ok w1 row rows).
    + apply (apart_set w1 rows row _ Ha1 Hr). destruct (applyDevice_fields w1 p) as [-> ->]. exact Hp.
Qed.

Lemma restore_demoted_ok env out w : service_ok w -> service_ok (restore_demoted env w out).1.
Proof.
  revert w. induction out as [|[id p] out IH]; intros w Hw; simpl; [done|].
  unfold persist. destruct (saveOk env id); [|done]. apply IH.
  destruct (AgentProfile env id); [|ok_ext].
  eapply service_ok_memory; [apply mirrorStatus_memory|]. ok_ext.
Qed.

Lemma SRestore_ok env rows : rows_ok rows -> service_ok (SRestore env NewService rows).1.
Proof.
  intros Hr. unfold SRestore.
  assert (Hn : service_ok NewService).
  { constructor; unfold signed_in; simpl; intros; by destruct_and?; simplify_map_eq. }
  pose proof (restore_rows_ok env rows NewService Hr Hn) as H.
  destruct (restore_rows env NewService rows) as [w out]. simpl in *. apply restore_demoted_ok, H.
  intros id p r [Hs _]. simpl in Hs. by rewrite lookup_empty in Hs.
Qed.

(** *** The two halves of a change *)

(** What [change] is called with. *)
Inductive transition_of (t : instant) : (Presence -> res AgentError Presence) -> Prop :=
| to_logout : transition_of t (fun p => Logout p t)
| to_ready : transition_of t (fun p => Ready p t)
| to_not_ready r : transition_of t (fun p => NotReady p r t)
| to_wrap_up c : transition_of t (fun p => StartWrapUp p c t)
| to_no_answer : transition_of t (fun p => RingNoAnswer p t)
| to_lost : transition_of t (fun p => if negb (bool_decide (CurrentState p = StateReady)) then Err ErrUnchanged
                                      else NotReady p ReasonDeviceLost t)
| to_returned : transition_of t (fun p =>
    if negb (bool_decide (CurrentState p = StateNotReady)) || negb (bool_decide (Rs p = ReasonDeviceLost))
    then Err ErrUnchanged else Ready p t).

Lemma transition_tame t f p p' : transition_of t f -> f p = Ok p' -> tame p p'.
Proof.
  intros []; eauto using Logout_tame, Ready_tame, NotReady_tame, StartWrapUp_tame, RingNoAnswer_tame.
  - destruct (negb _); [done|]. apply NotReady_tame.
  - destruct (_ || _); [done|]. apply Ready_tame.
Qed.

Lemma change_locked_ok env w id t f : transition_of t f -> service_ok w -> service_ok (change_locked env w id f).1.
Proof.
  intros Hf Hw. unfold change_locked. destruct (AgentProfile env id) as [profile|]; [|done].
  apply (presenceLocked_ok w id) in Hw as Hw1. pose proof (presence_locked w id id) as E.
  destruct (presenceLocked w id) as [w1 p] eqn:Ep. assert (p = presence w id) as -> by (by injection Ep as _ <-).
  simpl in *. destruct (f (presence w id)) as [p'|e] eqn:Ef; simpl; [|done].
  apply set_presence_ok; [done|]. rewrite E. by eapply transition_tame.
Qed.

(** The half that records a change, when the store takes it. *)
Lemma change_saved_ok env w id t pd : saveOk env id = true -> service_ok w -> service_ok (change_record env w id t pd).1.
Proof.
  intros Hs Hw. destruct pd as [a|profile before snapshot dev]; simpl; [done|]. unfold persist. rewrite Hs.
  eapply service_ok_memory; [apply publish_memory|]. eapply service_ok_memory; [apply mirrorStatus_memory|]. ok_ext.
Qed.

(** *** Listing the roster *)

(** Rows that sign nobody in who is not: what the memory knows of a row's agent
    is at least as far. [Roster] writes the rows over the memory, and reads
    them before it takes the lock. *)
Definition rows_current (w : World) (rows : list RosterEntry) : Prop :=
  forall row, row ∈ rows -> row_signed row -> exists p, signed_in w (RAgentID row) p /\ ExtensionNumber p = RExtension row.

Lemma rows_current_set w row rows p : rows_current w (row :: rows) ->
  (forall r, r ∈ rows -> RAgentID r = RAgentID row -> row_signed r -> IsLoggedOut p = false /\ ExtensionNumber p = RExtension r) ->
  rows_current (set_presence w (RAgentID row) p) rows.
Proof.
  intros H Hp r Hr Hs. destruct (decide (RAgentID r = RAgentID row)) as [E|E].
  - destruct (Hp r Hr E Hs) as [Ho He]. exists p. split; [|done]. apply signed_in_set. left. auto.
  - destruct (H r ltac:(set_solver) Hs) as (q & Hq & He). exists q. split; [|done]. apply signed_in_set. by right.
Qed.

Lemma roster_row_ok w row : service_ok w ->
  (row_signed row -> exists p, signed_in w (RAgentID row) p /\ ExtensionNumber p = RExtension row) ->
  service_ok (roster_row w row).1.
Proof.
  intros Hw Hrow. unfold roster_row. apply (presenceLocked_ok w (RAgentID row)) in Hw as Hw1.
  pose proof (fun id => presence_locked w (RAgentID row) id) as Ep.
  assert (Hd : devices (presenceLocked w (RAgentID row)).1 = devices w) by done.
  destruct (presenceLocked w (RAgentID row)) as [w1 q] eqn:Eq. assert (q = presence w (RAgentID row)) as -> by (by injection Eq as _ <-).
  cbn [fst] in *. set (p := mkPresence (RState row) _ _ _ _ _ _ _ _).
  destruct (applyDevice_fields w1 p) as [Eo Ee]. destruct Hw1 as [H1 H2]. cbn [fst].
  assert (Hsig : IsLoggedOut p = false -> row_signed row).
  { unfold IsLoggedOut, CurrentState, p, row_signed. simpl. destruct (RState row); simpl; auto; done. }
  assert (Hin : IsLoggedOut p = false -> signed_in w1 (RAgentID row) (presence w1 (RAgentID row)) /\
    ExtensionNumber (presence w1 (RAgentID row)) = ExtensionNumber p).
  { intros Ho. destruct (Hrow (Hsig Ho)) as (q & [Hl Hq] & He). assert (E : presence w (RAgentID row) = q) by (unfold presence; by rewrite Hl).
    split; [apply presence_signed_in; by rewrite Ep, E|]. by rewrite Ep, E, He. }
  constructor.
  - intros id r d Hs Hdv. apply signed_in_set in Hs as [(-> & -> & _)|(_ & Hs)]; [|by eapply H1].
    simpl in Hdv. rewrite Ee in Hdv. unfold applyDeviceLocked. by rewrite Hdv.
  - intros a b pa pb Hsa Hsb E.
    apply signed_in_set in Hsa as [(-> & -> & Hoa)|(Hna & Hsa)];
      apply signed_in_set in Hsb as [(-> & -> & Hob)|(Hnb & Hsb)]; try done.
    + rewrite Eo in Hoa. destruct (Hin Hoa) as [Hs He]. rewrite Ee in E. eapply (H2 _ b); [exact Hs|exact Hsb|congruence].
    + rewrite Eo in Hob. destruct (Hin Hob) as [Hs He]. rewrite Ee in E. eapply (H2 a); [exact Hsa|exact Hs|congruence].
    + by eapply H2.
Qed.

(** One row an agent, as the store answers. *)
Lemma Roster_ok rows w : NoDup (RAgentID <$> rows) -> rows_current w rows -> service_ok w -> service_ok (Roster w rows).1.
Proof.
  revert w. induction rows as [|row rows IH]; intros w Hnd Hc Hw; [done|]. cbn [Roster].
  rewrite fmap_cons, NoDup_cons in Hnd. destruct Hnd as [Hn Hnd].
  assert (Hr : service_ok (roster_row w row).1) by (apply roster_row_ok; [done|]; apply Hc; set_solver).
  assert (Hc' : rows_current (roster_row w row).1 rows).
  { unfold roster_row. cbn [presenceLocked fst]. apply (rows_current_set _ row rows).
    - intros r Hin Hs. destruct (Hc r Hin Hs) as (p & [Hl Ho] & He). exists p. split; [|done]. split; [|done]. simpl.
      destruct (decide (RAgentID r = RAgentID row)) as [E|E]; [|by rewrite lookup_insert_ne].
      rewrite <- E, lookup_insert_eq. f_equal. unfold presence. by rewrite Hl.
    - intros r Hin E. exfalso. apply Hn. rewrite <- E. by apply list_elem_of_fmap_2. }
  destruct (roster_row w row) as [w1 row']. cbn [fst] in *. specialize (IH w1 Hnd Hc' Hr).
  by destruct (Roster w1 rows) as [w2 rows'].
Qed.

(** *** The operations, one after another *)

(** What the service does, in any order: each operation whole, and a change
    also as its two halves, which any other operation may come between, the
    second one of a change the store takes. *)
Inductive service_step : World -> World -> Prop :=
| ss_login env w id : service_step w (SLogin env w id).1
| ss_logout env w id : service_step w (SLogout env w id).1
| ss_ready env w id : service_step w (SReady env w id).1
| ss_not_ready env w id r : service_step w (SNotReady env w id r).1
| ss_wrap_up env w id c party : service_step w (startWrapUp env w id c party).1
| ss_wrap_up_call w id : service_step w (WrapUpCall w id).1
| ss_end_wrap_up env w id : service_step w (EndWrapUp env w id).1
| ss_ring_no_answer env w id : service_step w (SRingNoAnswer env w id).1
| ss_on_call env w id b c : service_step w (SetOnCall env w id b c)
| ss_note w ext d : service_step w (NoteDevice w ext d)
| ss_observe env w ext s : service_step w (ObserveDevice env w ext s)
| ss_release env w : service_step w (ReleaseAgentsWithoutPhones env w)
| ss_sync env w : service_step w (SyncSwitch env w)
| ss_roster w rows : NoDup (RAgentID <$> rows) -> rows_current w rows -> service_step w (Roster w rows).1
| ss_locked env w id t f : transition_of t f -> service_step w (change_locked env w id f).1
| ss_saved env w id t pd : saveOk env id = true -> service_step w (change_record env w id t pd).1
| ss_create env w cfg create : service_step w (CreateAgent env w cfg create).1
| ss_update env env' w cfg update : service_step w (UpdateAgent env env' w cfg update).1
| ss_delete w id b : service_step w (DeleteAgent w id b).1
| ss_mirror env w id : service_step w (MirrorAgent env w id)
| ss_presence w id : service_step w (SPresence w id).1.

Inductive service_reach : World -> Prop :=
| sr_start env rows : rows_ok rows -> service_reach (SRestore env NewService rows).1
| sr_step w w' : service_reach w -> service_step w w' -> service_reach w'.

Lemma service_reach_ok w : service_reach w -> service_ok w.
Proof.
  induction 1 as [env rows Hr|w w' _ IH Hs]; [by apply SRestore_ok|].
  destruct Hs; eauto using SLogin_ok, SLogout_ok, SReady_ok, SNotReady_ok, startWrapUp_ok, WrapUpCall_ok,
    EndWrapUp_ok, SRingNoAnswer_ok, SetOnCall_ok, NoteDevice_ok, ObserveDevice_ok, Release_ok,
    Roster_ok, change_locked_ok, change_saved_ok, CreateAgent_ok, UpdateAgent_ok, DeleteAgent_ok, mirrorConfig_ok,
    presenceLocked_ok.
  eapply service_ok_memory; [apply SyncSwitch_memory|done].
Qed.

(** ** A phone lost and found *)

(** The prefix both device signals share, for a phone somebody is signed in
    at: the facts recorded, the mirror and the announcement. *)
Definition observed (env : Env) (w : World) (ext : string) (s : DeviceSignal) (id : uuid)
    (profile : Profile) : World :=
  let d := signal_state s in
  let w1 := with_devices w (<[ext := d]> (devices w)) in
  let snapshot := with_device (presence w id) d in
  let w2 := mirrorStatus env (set_presence w1 id snapshot) profile snapshot in
  let '(w3, claimed) := claimAnnouncement w2 ext d in
  if claimed then publish w3 (eventType s) profile snapshot d else w3.

Lemma observed_live env w ext s id profile :
  live (observed env w ext s id profile) = <[id := with_device (presence w id) (signal_state s)]> (live w).
Proof.
  unfold observed, claimAnnouncement, mirrorStatus. destruct (isUp env); simpl; destruct (decide _); done.
Qed.

Lemma observed_db env w ext s id profile : db (observed env w ext s id profile) = db w.
Proof.
  unfold observed, claimAnnouncement, mirrorStatus. destruct (isUp env); simpl; destruct (decide _); done.
Qed.

Lemma holder_unique w ext id p : service_ok w -> signed_in w id p -> ExtensionNumber p = ext ->
  extensionHolderLocked w ext = Some id.
Proof.
  intros Hw Hs E. destruct (extensionHolderLocked w ext) as [h|] eqn:Hh.
  - apply holder_Some in Hh as [Hs' E']. f_equal. eapply (so_unique w Hw); [exact Hs'|exact Hs|congruence].
  - by destruct (holder_None _ _ Hh _ _ Hs).
Qed.

Lemma ObserveDevice_at env w ext s id p profile : service_ok w -> signed_in w id p ->
  ExtensionNumber p = ext -> AgentProfile env id = Some profile ->
  ObserveDevice env w ext s =
    match s with
    | SignalUnregistered => releaseForLostDevice env (observed env w ext s id profile) id
    | SignalRegistered => restoreForReturnedDevice env (observed env w ext s id profile) id
    | _ => observed env w ext s id profile
    end.
Proof.
  intros Hw Hs E Hp. unfold ObserveDevice.
  change (extensionHolderLocked (with_devices w _) ext) with (extensionHolderLocked w ext).
  rewrite (holder_unique w ext id p Hw Hs E). change (presence (with_devices w _) id) with (presence w id).
  rewrite Hp. unfold observed. by destruct (claimAnnouncement _ _ _).
Qed.

Lemma change_done env w id t apply profile p' :
  AgentProfile env id = Some profile -> saveOk env id = true -> apply (presence w id) = Ok p' ->
  presence (change env w id t apply).1 id = p' /\ db (change env w id t apply).1 = <[id := p']> (db w).
Proof.
  intros Hp Hs Ha. pose proof (change_cases env w id t apply) as H.
  assert (E : (change env w id t apply).2.2 = None).
  { unfold change, change_locked, change_record, persist. rewrite Hp. simpl. rewrite Ha. simpl. by rewrite Hs. }
  destruct (change env w id t apply) as [w' [p err]]. simpl in *.
  destruct H as [(? & _ & Ha' & _ & _ & Hl & _ & _ & _ & Hd & _)|(He & _)]; [|done].
  unfold presence. rewrite Hl, Hd, lookup_insert_eq. simpl. split; congruence.
Qed.

Lemma change_refused env w id t apply e : apply (presence w id) = Err e ->
  presence (change env w id t apply).1 id = presence w id /\ db (change env w id t apply).1 = db w.
Proof.
  intros Ha. pose proof (change_cases env w id t apply) as H.
  destruct (change env w id t apply) as [w' [p err]]. simpl.
  destruct H as [(? & _ & Hok & _)|(_ & Hp & _ & _ & _ & Hd & _)]; [congruence|]. split; [apply Hp|done].
Qed.

Lemma observed_presence env w s id profile ext :
  presence (observed env w ext s id profile) id = with_device (presence w id) (signal_state s).
Proof. unfold presence at 1. rewrite observed_live. by rewrite lookup_insert_eq. Qed.

(** What the two signals do to the agent at the phone. *)
Lemma unregistered_ready env w id p profile : service_ok w -> signed_in w id p ->
  AgentProfile env id = Some profile -> saveOk env id = true -> CurrentState p = StateReady ->
  let w' := ObserveDevice env w (ExtensionNumber p) SignalUnregistered in
  presence w' id = enter (with_device p (mkDevice false false)) StateNotReady ReasonDeviceLost
                     (ExtensionNumber p) (now env) None /\
  db w' = <[id := presence w' id]> (db w).
Proof.
  intros Hok Hs Hp Hsave Hr. pose proof Hs as [Hl Ho].
  assert (E : presence w id = p) by (unfold presence; by rewrite Hl). simpl.
  rewrite (ObserveDevice_at _ _ _ _ id p profile) by done. unfold releaseForLostDevice.
  match goal with |- context [change ?e ?u ?i ?ty ?f] =>
    destruct (change_done e u i ty f profile (enter (with_device p (mkDevice false false)) StateNotReady
      ReasonDeviceLost (ExtensionNumber p) (now env) None)) as [-> ->]; [done|done| |] end.
  - rewrite observed_presence, E. rewrite bool_decide_eq_true_2 by exact Hr. unfold NotReady.
    unfold IsLoggedOut in *. change (CurrentState (with_device p _)) with (CurrentState p). by rewrite Ho.
  - by rewrite observed_db.
Qed.

Lemma unregistered_other env w id p profile : service_ok w -> signed_in w id p ->
  AgentProfile env id = Some profile -> CurrentState p <> StateReady ->
  let w' := ObserveDevice env w (ExtensionNumber p) SignalUnregistered in
  presence w' id = with_device p (mkDevice false false) /\ db w' = db w.
Proof.
  intros Hok Hs Hp Hr. pose proof Hs as [Hl Ho].
  assert (E : presence w id = p) by (unfold presence; by rewrite Hl). simpl.
  rewrite (ObserveDevice_at _ _ _ _ id p profile) by done. unfold releaseForLostDevice.
  match goal with |- context [change ?e ?u ?i ?ty ?f] =>
    destruct (change_refused e u i ty f ErrUnchanged) as [-> ->] end.
  - rewrite observed_presence, E. rewrite bool_decide_eq_false_2; [done|].
    by change (CurrentState (with_device p _)) with (CurrentState p).
  - by rewrite observed_presence, E, observed_db.
Qed.

Lemma registered_lost env w id p profile : service_ok w -> signed_in w id p ->
  AgentProfile env id = Some profile -> saveOk env id = true ->
  CurrentState p = StateNotReady -> Rs p = ReasonDeviceLost ->
  let w' := ObserveDevice env w (ExtensionNumber p) SignalRegistered in
  presence w' id = enter (with_device p (mkDevice true true)) StateReady ReasonNone
                     (ExtensionNumber p) (now env) None /\
  db w' = <[id := presence w' id]> (db w).
Proof.
  intros Hok Hs Hp Hsave Hn Hr. pose proof Hs as [Hl Ho].
  assert (E : presence w id = p) by (unfold presence; by rewrite Hl). simpl.
  rewrite (ObserveDevice_at _ _ _ _ id p profile) by done. unfold restoreForReturnedDevice.
  match goal with |- context [change ?e ?u ?i ?ty ?f] =>
    destruct (change_done e u i ty f profile (enter (with_device p (mkDevice true true)) StateReady
      ReasonNone (ExtensionNumber p) (now env) None)) as [-> ->]; [done|done| |] end.
  - rewrite observed_presence, E. change (CurrentState (with_device p _)) with (CurrentState p).
    rewrite bool_decide_eq_true_2 by exact Hn. rewrite bool_decide_eq_true_2 by exact Hr. unfold Ready.
    unfold IsLoggedOut in *. change (CurrentState (with_device p _)) with (CurrentState p). by rewrite Ho.
  - by rewrite observed_db.
Qed.

Lemma registered_other env w id p profile : service_ok w -> signed_in w id p ->
  AgentProfile env id = Some profile -> Rs p <> ReasonDeviceLost ->
  let w' := ObserveDevice env w (ExtensionNumber p) SignalRegistered in
  presence w' id = with_device p (mkDevice true true) /\ db w' = db w.
Proof.
  intros Hok Hs Hp Hr. pose proof Hs as [Hl Ho].
  assert (E : presence w id = p) by (unfold presence; by rewrite Hl). simpl.
  rewrite (ObserveDevice_at _ _ _ _ id p profile) by done. unfold restoreForReturnedDevice.
  match goal with |- context [change ?e ?u ?i ?ty ?f] =>
    destruct (change_refused e u i ty f ErrUnchanged) as [-> ->] end.
  - rewrite observed_presence, E. rewrite orb_comm. rewrite bool_decide_eq_false_2; [done|]. exact Hr.
  - by rewrite observed_presence, E, observed_db.
Qed.

(** ** What the stream is told of a phone *)

Definition is_device_type (t : EventType) : bool :=
  match t with
  | TypeDeviceRegistered | TypeDeviceReachable | TypeDeviceUnreachable | TypeDeviceUnregistered => true
  | _ => false
  end.

Definition is_device_event (e : effect) : bool :=
  match e with EPublish t _ _ => is_device_type t | _ => false end.

Definition device_events (w : World) : list effect := filter (fun e => is_device_event e = true) (trace w).

Lemma change_announced env w id t apply : is_device_type t = false ->
  announced (change env w id t apply).1 = announced w /\
  device_events (change env w id t apply).1 = device_events w.
Proof.
  intros Ht. pose proof (change_cases env w id t apply) as H.
  destruct (change env w id t apply) as [w' [p err]]. simpl. unfold device_events.
  destruct H as [(profile & _ & _ & _ & _ & _ & _ & Ha & _ & _ & Htr)|(_ & _ & _ & Ha & _ & _ & Htr & _)];
    rewrite Htr, Ha; split; try done.
  rewrite filter_cons_False by (simpl in *; by rewrite Ht). by destruct (isUp env).
Qed.

Lemma mirrorStatus_events env w profile p : device_events (mirrorStatus env w profile p) = device_events w.
Proof. unfold mirrorStatus. by destruct (isUp env). Qed.

Lemma claim_again w ext d : announced w !! ext = Some d -> claimAnnouncement w ext d = (w, false).
Proof. intros H. unfold claimAnnouncement. by rewrite decide_True. Qed.

Lemma claim_claims w ext d : announced (claimAnnouncement w ext d).1 !! ext = Some d.
Proof. unfold claimAnnouncement. destruct (decide _); [done|]. simpl. apply lookup_insert_eq. Qed.

Lemma holder_None_intro w ext : (forall id p, signed_in w id p -> ExtensionNumber p <> ext) ->
  extensionHolderLocked w ext = None.
Proof.
  intros H. destruct (extensionHolderLocked w ext) as [id|] eqn:E; [|done].
  apply holder_Some in E as [Hs He]. by destruct (H _ _ Hs).
Qed.

Lemma holder_locked w id ext : extensionHolderLocked w ext = None ->
  extensionHolderLocked (presenceLocked w id).1 ext = None.
Proof.
  intros Hn. apply holder_None_intro. intros i p Hs. apply signed_in_set in Hs as [(-> & -> & Ho)|(_ & Hs)].
  - eapply holder_None; [exact Hn|]. by apply presence_signed_in.
  - by eapply holder_None.
Qed.

(** A state already announced is not announced again. *)
Lemma ObserveDevice_silent env w ext s : announced w !! ext = Some (signal_state s) ->
  device_events (ObserveDevice env w ext s) = device_events w.
Proof.
  intros Ha. unfold ObserveDevice.
  set (w1 := with_devices w (<[ext:=signal_state s]> (devices w))).
  assert (E1 : device_events w1 = device_events w) by done.
  destruct (extensionHolderLocked w1 ext) as [id|].
  - destruct (AgentProfile env id) as [profile|]; [|done].
    set (w2 := mirrorStatus env _ profile _).
    assert (E2 : device_events w2 = device_events w) by (unfold w2; by rewrite mirrorStatus_events).
    assert (Ha2 : announced w2 !! ext = Some (signal_state s)).
    { pose proof (mirrorStatus_memory env (set_presence w1 id (with_device (presence w1 id) (signal_state s)))
        profile (with_device (presence w1 id) (signal_state s))) as (_ & _ & E & _). fold w2 in E. by rewrite E. }
    rewrite (claim_again _ _ _ Ha2).
    destruct s; [| |done|done]; unfold restoreForReturnedDevice, releaseForLostDevice;
      rewrite <- E2; by apply change_announced.
  - unfold announceToSignedOutAgent. destruct (String.eqb ext ""); [done|].
    destruct (AgentBoundTo env ext) as [id|]; [|done]. destruct (AgentProfile env id); [|done].
    simpl. destruct (negb _); [done|]. by rewrite claim_again.
Qed.

Lemma holder_presence w w' ext : (forall id, presence w' id = presence w id) ->
  extensionHolderLocked w ext = None -> extensionHolderLocked w' ext = None.
Proof.
  intros H Hn. apply holder_None_intro. intros id p [Hl Ho].
  assert (E : presence w' id = p) by (unfold presence; by rewrite Hl). rewrite H in E. subst p.
  eapply holder_None; [exact Hn|]. by apply presence_signed_in.
Qed.

(** Telling the agent bound to a phone nobody is signed in at: either the
    state becomes the announced one, or, whatever else the world holds, no
    device event goes out and no presence changes. *)
Lemma announce_split env w ext s d :
  announced (announceToSignedOutAgent env w ext s d) !! ext = Some d \/
  forall w', (forall id, presence w' id = presence w id) ->
    device_events (announceToSignedOutAgent env w' ext s d) = device_events w' /\
    forall id, presence (announceToSignedOutAgent env w' ext s d) id = presence w' id.
Proof.
  unfold announceToSignedOutAgent. destruct (String.eqb ext ""); [by right|].
  destruct (AgentBoundTo env ext) as [id|]; [|by right].
  destruct (AgentProfile env id) as [profile|]; [|by right]. simpl.
  destruct (negb (IsLoggedOut (presence w id))) eqn:Ho.
  - right. intros w' Hw'. rewrite Hw', Ho. split; [done|]. intros i.
    rewrite <- Hw'. apply (presence_locked w' id).
  - left. match goal with |- context [claimAnnouncement ?u ?e ?d] => pose proof (claim_claims u e d) as H;
      destruct (claimAnnouncement u e d) as [w3 []] end; exact H.
Qed.

(** After a signal, its state is the one announced, or nobody can be told. *)
Lemma ObserveDevice_announced env w ext s : service_ok w ->
  let w1 := ObserveDevice env w ext s in
  announced w1 !! ext = Some (signal_state s) \/ device_events (ObserveDevice env w1 ext s) = device_events w1.
Proof.
  intros Hok w1. pose proof (ObserveDevice_ok env w ext s Hok) as Hok1. fold w1 in Hok1.
  destruct (extensionHolderLocked w ext) as [id|] eqn:Hh.
  - apply holder_Some in Hh as [Hs He]. destruct (AgentProfile env id) as [profile|] eqn:Hp.
    + left. unfold w1. rewrite (ObserveDevice_at _ _ _ _ id _ profile Hok Hs He Hp).
      assert (Ha : announced (observed env w ext s id profile) !! ext = Some (signal_state s)).
      { unfold observed.
        pose proof (claim_claims (mirrorStatus env (set_presence (with_devices w (<[ext:=signal_state s]> (devices w))) id
          (with_device (presence w id) (signal_state s))) profile (with_device (presence w id) (signal_state s))) ext (signal_state s)) as H.
        destruct (claimAnnouncement _ _ _) as [w3 []]; exact H. }
      destruct s; [| |exact Ha|exact Ha]; unfold restoreForReturnedDevice, releaseForLostDevice;
        match goal with |- context [change ?e ?u ?i ?t ?f] =>
          rewrite (proj1 (change_announced e u i t f eq_refl)) end; exact Ha.
    + right. assert (E1 : signed_in w1 id (with_device (presence w id) (signal_state s))).
      { unfold w1, ObserveDevice. change (extensionHolderLocked (with_devices w _) ext) with (extensionHolderLocked w ext).
        rewrite (holder_unique w ext id _ Hok Hs He), Hp. apply signed_in_set. left.
        split; [done|]. split; [done|]. apply Hs. }
      unfold ObserveDevice at 1. change (extensionHolderLocked (with_devices w1 _) ext) with (extensionHolderLocked w1 ext).
      rewrite (holder_unique w1 ext id _ Hok1 E1 He), Hp. done.
  - assert (Hsame : forall u, extensionHolderLocked u ext = None -> ObserveDevice env u ext s =
      announceToSignedOutAgent env (with_devices u (<[ext:=signal_state s]> (devices u))) ext s (signal_state s)).
    { intros u Hu. unfold ObserveDevice.
      change (extensionHolderLocked (with_devices u _) ext) with (extensionHolderLocked u ext). by rewrite Hu. }
    set (w0 := with_devices w (<[ext:=signal_state s]> (devices w))).
    assert (E1 : w1 = announceToSignedOutAgent env w0 ext s (signal_state s)) by (by apply Hsame).
    destruct (announce_split env w0 ext s (signal_state s)) as [H|H]; [left; by rewrite E1|right].
    destruct (H w0 (fun _ => eq_refl)) as [_ Hp]. rewrite <- E1 in Hp.
    rewrite Hsame by (by eapply (holder_presence w)).
    by destruct (H (with_devices w1 (<[ext:=signal_state s]> (devices w1))) Hp) as [-> _].
Qed.

(** ** Properties *)

(** C6: after a start, over the service's operations in any order and whatever
    the store, the switch and the clock answer, a signed-in agent's presence
    says of their phone exactly what the switch last said about it, and no two
    agents are signed in at one extension. An operation is taken whole, or, a
    change that the store takes, as its two locked halves with any others in
    between. Two things are excluded, and [rollback_loses_update] and
    [stale_roster_revives] show why: a change that is rolled back after another
    operation came in between, and a roster whose rows, read before the lock,
    sign somebody in who is no longer signed in there. *)
Theorem service_invariant (w : World) (H : service_reach w) :
  (forall id p d, live w !! id = Some p -> IsLoggedOut p = false ->
     devices w !! ExtensionNumber p = Some d ->
     IsRegistered p = isRegistered d /\ IsDeviceInService p = isInService d) /\
  (forall id id' p p', live w !! id = Some p -> live w !! id' = Some p' ->
     IsLoggedOut p = false -> IsLoggedOut p' = false ->
     ExtensionNumber p = ExtensionNumber p' -> id = id').
Proof.
  apply service_reach_ok in H as [H1 H2]. split.
  - intros id p d Hl Ho. by apply (H1 id).
  - intros id id' p p' Hl Hl' Ho Ho' E. by apply (H2 id id' p p').
Qed.

(** a change of presence is acknowledged only once it is recorded. On
    success the answered presence is the one the transition gives, it is the
    one in memory and in the database, and what was told outside is exactly
    its status (to a switch that is up) and then its event; on any failure,
    the store's included, every presence, the database and the outside are as
    they were. *)
Theorem change_acknowledged (env : Env) (w w' : World) (id : uuid) (t : EventType)
    (apply : Presence -> res AgentError Presence) (p : Presence) (err : option AgentError)
    (H : change env w id t apply = (w', (p, err))) :
  match err with
  | None => exists profile, AgentProfile env id = Some profile /\ apply (presence w id) = Ok p /\
      live w' = <[id := p]> (live w) /\ db w' = <[id := p]> (db w) /\
      trace w' = EPublish t (AgentID profile) (payload_of profile p (device w (PExtensionNumber profile)))
        :: (if isUp env then [EStatus (CallcenterName profile) (CallcenterStatus p)] else []) ++ trace w
  | Some _ => (forall id', presence w' id' = presence w id') /\ db w' = db w /\ trace w' = trace w
  end.
Proof.
  pose proof (change_cases env w id t apply) as Hc. rewrite H in Hc.
  destruct Hc as [(profile & Hp & Ha & _ & -> & Hl & _ & _ & _ & Hd & Ht)|(Hn & Hp & _ & _ & _ & Hd & Ht & _)].
  - by exists profile.
  - destruct err; [|done]. done.
Qed.

(** the platform withdraws exactly what it imposed. A READY agent whose
    phone loses its registration is taken out with DEVICE_LOST, recorded, and
    is READY again when the phone registers; an agent who was not ready for
    any other reason is, after the same two signals, where they chose to be. *)
Theorem device_lost_and_found (env1 env2 : Env) (w : World) (id : uuid) (p : Presence)
    (prof1 prof2 : Profile) (Hw : service_reach w) (Hs : signed_in w id p)
    (Hp1 : AgentProfile env1 id = Some prof1) (Hp2 : AgentProfile env2 id = Some prof2)
    (Hs1 : saveOk env1 id = true) (Hs2 : saveOk env2 id = true) :
  let ext := ExtensionNumber p in
  let w1 := ObserveDevice env1 w ext SignalUnregistered in
  let w2 := ObserveDevice env2 w1 ext SignalRegistered in
  (CurrentState p = StateReady ->
     St (presence w1 id) = StateNotReady /\ Rs (presence w1 id) = ReasonDeviceLost /\
     db w1 !! id = Some (presence w1 id) /\
     St (presence w2 id) = StateReady /\ db w2 !! id = Some (presence w2 id) /\
     CallcenterStatus (presence w2 id) = "Available"%string) /\
  (CurrentState p = StateNotReady -> Rs p <> ReasonDeviceLost ->
     St (presence w2 id) = St p /\ Rs (presence w2 id) = Rs p /\
     EnteredAt (presence w2 id) = EnteredAt p /\ WrapUpCallID (presence w2 id) = WrapUpCallID p /\
     db w2 = db w).
Proof.
  intros ext w1 w2. pose proof (service_reach_ok w Hw) as Hok.
  assert (Hok1 : service_ok w1) by (by apply ObserveDevice_ok). split.
  - intros Hr. destruct (unregistered_ready env1 w id p prof1 Hok Hs Hp1 Hs1 Hr) as [E1 Ed1].
    fold ext w1 in E1, Ed1.
    assert (Hsi : signed_in w1 id (presence w1 id)) by (apply presence_signed_in; by rewrite E1).
    destruct (registered_lost env2 w1 id (presence w1 id) prof2 Hok1 Hsi Hp2 Hs2) as [E2 Ed2];
      [by rewrite E1..|].
    replace (ExtensionNumber (presence w1 id)) with ext in E2, Ed2 by (by rewrite E1).
    fold w2 in E2, Ed2. rewrite Ed1, Ed2, !lookup_insert_eq, E2, E1. done.
  - intros Hn Hr. destruct (unregistered_other env1 w id p prof1 Hok Hs Hp1) as [E1 Ed1]; [by rewrite Hn|].
    fold ext w1 in E1, Ed1.
    assert (Hsi : signed_in w1 id (presence w1 id)).
    { apply presence_signed_in. rewrite E1. apply Hs. }
    destruct (registered_other env2 w1 id (presence w1 id) prof2 Hok1 Hsi Hp2) as [E2 Ed2];
      [by rewrite E1|].
    replace (ExtensionNumber (presence w1 id)) with ext in E2, Ed2 by (by rewrite E1).
    fold w2 in E2, Ed2. by rewrite Ed2, Ed1, E2, E1.
Qed.

(** the stream hears of a phone once per change. Repeating a signal (a
    REGISTER refresh, a sweep that finds a reachable phone reachable) tells the
    agent's stream nothing, whether the agent is signed in or not. *)
Theorem repeated_signal_is_silent (env : Env) (w : World) (ext : string) (s : DeviceSignal)
    (Hw : service_reach w) :
  let w1 := ObserveDevice env w ext s in
  device_events (ObserveDevice env w1 ext s) = device_events w1.
Proof.
  intros w1. destruct (ObserveDevice_announced env w ext s (service_reach_ok w Hw)) as [H|H]; [|exact H].
  by apply ObserveDevice_silent.
Qed.

(** a sign-in the database refused is still a sign-in in memory: the agent
    is answered an error, holds the extension, and a second attempt with the
    database back is refused as already signed in. ([change] rolls back in the
    same case.) *)
Theorem Login_unsaved_stays (env env' : Env) (w : World) (id : uuid) (profile : Profile)
    (Hp : AgentProfile env id = Some profile) (Hp' : AgentProfile env' id = Some profile)
    (He : PExtensionNumber profile <> EmptyString)
    (Hfree : extensionHolderLocked w (PExtensionNumber profile) = None)
    (Hout : IsLoggedOut (presence w id) = true) (Hsave : saveOk env id = false) :
  let '(w1, (_, err1)) := SLogin env w id in
  let '(_, (_, err2)) := SLogin env' w1 id in
  err1 = Some ErrStorage /\ CurrentState (presence w1 id) = StateNotReady /\ db w1 = db w /\
  err2 = Some ErrAlreadyLoggedIn.
Proof.
  assert (Hne : String.eqb (PExtensionNumber profile) "" = false) by (by apply String.eqb_neq).
  destruct (SLogin env w id) as [w1 [p1 err1]] eqn:H1.
  destruct (SLogin env' w1 id) as [w2 [p2 err2]] eqn:H2.
  unfold SLogin in H1. rewrite Hp, Hne, Hfree in H1. simpl in H1. unfold Login in H1.
  rewrite Hout in H1. simpl in H1. unfold persist in H1. rewrite Hsave in H1.
  injection H1 as <- <- <-.
  set (w1 := set_presence _ id _) in H2.
  assert (Hst : CurrentState (presence w1 id) = StateNotReady).
  { unfold w1. rewrite presence_set. unfold applyDeviceLocked. by destruct (_ !! _). }
  assert (Hl1 : IsLoggedOut (presence w1 id) = false) by (unfold IsLoggedOut; by rewrite Hst).
  split; [done|]. split; [exact Hst|]. split; [done|].
  unfold SLogin in H2. rewrite Hp', Hne in H2.
  assert (Hh : match extensionHolderLocked w1 (PExtensionNumber profile) with
               | Some holder => negb (N.eqb holder id) | None => false end = false).
  { destruct (extensionHolderLocked w1 _) as [h|] eqn:Hh; [|done].
    apply holder_Some in Hh as [Hs Hx]. apply signed_in_set in Hs as [(-> & _)|(Hn & Hs)].
    - by rewrite N.eqb_refl.
    - unfold w1 in Hx, Hs. rewrite presence_set_ne in Hx, Hs by done.
      change (with_live w _) with (presenceLocked w id).1 in Hx, Hs. rewrite presence_locked in Hx, Hs.
      apply signed_in_set in Hs as [(-> & _)|(_ & Hs)]; [done|].
      by destruct (holder_None w _ Hfree h _ Hs). }
  rewrite Hh in H2. simpl in H2. unfold Login in H2. rewrite Hl1 in H2. simpl in H2. by injection H2 as _ _ <-.
Qed.

(** rolling back loses what came in between. [change] lets go of the lock
    while it saves; when the save then fails it writes the whole presence back
    as it was before, so a phone that became unregistered meanwhile reads as
    registered on the agent's presence though the device table says it is
    not. *)
Theorem rollback_loses_update (env env' : Env) (w : World) (id : uuid) (p p' : Presence) (profile : Profile)
    (t : EventType) (apply : Presence -> res AgentError Presence)
    (Hp : AgentProfile env id = Some profile) (Hs : signed_in w id p) (Hreg : IsRegistered p = true)
    (Happ : apply p = Ok p') (Htame : tame p p') (Hin : IsLoggedOut p' = false)
    (Hsave : saveOk env id = false) (Hw : service_ok w) :
  let '(w1, pd) := change_locked env w id apply in
  let w2 := NoteDevice w1 (ExtensionNumber p) (mkDevice false false) in
  let '(w3, (_, err)) := change_record env w2 id t pd in
  err = Some ErrStorage /\ device w3 (ExtensionNumber p) = mkDevice false false /\
  presence w3 id = p /\ IsRegistered (presence w3 id) = true.
Proof.
  assert (E : presence w id = p) by (unfold presence; by rewrite (proj1 Hs)).
  unfold change_locked. rewrite Hp. simpl. rewrite E, Happ. unfold change_record, persist. rewrite Hsave.
  split; [done|]. rewrite presence_set. split; [|done].
  unfold device, NoteDevice. simpl. destruct (extensionHolderLocked _ _); simpl; by rewrite lookup_insert_eq.
Qed.

(** after-call work started for an agent who is not signed in (a leg that
    outlived their session) is refused, and yet its call is remembered: the
    next sign-in does start with something to file. *)
Theorem wrap_up_outlives_sign_out (env env' : Env) (w : World) (id call party : uuid) (profile : Profile)
    (Hp : AgentProfile env id = Some profile) (Hout : IsLoggedOut (presence w id) = true)
    (Hc : call <> uuid_Nil) :
  let '(w1, (_, err)) := startWrapUp env w id call party in
  let w2 := (SLogin env' w1 id).1 in
  err = Some ErrNotLoggedIn /\ (WrapUpCall w2 id).2 = Some call.
Proof.
  assert (Hlast : forall u, lastWrapUpCall (SLogin env' u id).1 = lastWrapUpCall u).
  { intros u. unfold SLogin. destruct (AgentProfile env' id) as [pr|]; [|done].
    destruct (String.eqb _ ""); [done|]. destruct (match extensionHolderLocked u _ with Some h => _ | None => false end); [done|].
    simpl. destruct (Login _ _ _) as [q|]; [|done]. unfold persist. destruct (saveOk env' id); [|done].
    simpl. match goal with |- context [mirrorRegistration ?a ?b ?c ?d] =>
      destruct (mirrorRegistration_memory a b c d) as (_ & _ & _ & -> & _) end. done. }
  unfold startWrapUp. rewrite (proj2 (N.eqb_neq _ _) Hc).
  set (w0 := with_wrapUps w _). assert (Hp0 : presence w0 id = presence w id) by done.
  destruct (change env w0 id TypeAgentNotReady _) as [w1 [q err]] eqn:Hch. simpl.
  pose proof (change_cases env w0 id TypeAgentNotReady (fun p => StartWrapUp p call (now env))) as Hcs.
  rewrite Hch in Hcs. rewrite Hp0 in Hcs. unfold StartWrapUp at 1 in Hcs. rewrite Hout in Hcs. simpl in Hcs.
  destruct Hcs as [(? & _ & Hx & _)|(Herr & _ & _ & _ & Hlw & _)]; [done|].
  assert (err = Some ErrNotLoggedIn) as ->.
  { unfold change, change_locked in Hch. rewrite Hp in Hch. simpl in Hch. rewrite Hp0 in Hch.
    unfold StartWrapUp in Hch. rewrite Hout in Hch. simpl in Hch. by injection Hch as _ _ <-. }
  split; [done|]. unfold WrapUpCall. rewrite Hlast, Hlw. simpl. by rewrite lookup_insert_eq.
Qed.

(** *** A deployment with one agent at 1001 *)

Definition wei : Profile := mkProfile 7 1 "agent-1001" "Wei" false "1001" None.

Definition office (save : bool) (t : instant) : Env := {|
  AgentProfile := fun id => if N.eqb id 7 then Some wei else None;
  AgentBoundTo := fun ext => if String.eqb ext "1001" then Some 7%N else None;
  saveOk := fun _ => save; isUp := true; hasLedger := true; openOk := true;
  hasDrafter := false; hasStaffing := true; now := t
|}.

Lemma rows_ok_nil : rows_ok [].
Proof. constructor; intros i j r r' Hi; by rewrite lookup_nil in Hi. Qed.

(** Their phone registers, they sign in and become ready. *)
Definition ready_world : World :=
  let w := (SRestore (office true 1) NewService []).1 in
  let w := ObserveDevice (office true 2) w "1001" SignalRegistered in
  let w := (SLogin (office true 3) w 7).1 in
  (SReady (office true 4) w 7).1.

Lemma ready_world_reach : service_reach ready_world.
Proof.
  unfold ready_world. eapply sr_step; [|apply (ss_ready (office true 4))].
  eapply sr_step; [|apply (ss_login (office true 3))].
  eapply sr_step; [|apply (ss_observe (office true 2))].
  apply sr_start, rows_ok_nil.
Qed.

Definition wei_ready : Presence :=
  mkPresence StateReady ReasonNone "1001" 4 None false None true true.

Lemma wei_ready_signed_in : signed_in ready_world 7 wei_ready.
Proof. split; vm_compute; reflexivity. Qed.


(** A roster row read while the agent was signed in, written over their
    sign-out, and then over the one who signed in at the extension after. *)
Definition stale_row : RosterEntry :=
  mkRow 7 StateReady ReasonNone AvailReady "1001" 4 None false None true "1001".
Definition moved (env : Env) : Env := {|
  AgentProfile := fun id => if N.eqb id 8 then Some (mkProfile 8 2 "agent-1002" "Li" false "1001" None) else None;
  AgentBoundTo := fun _ => Some 8%N; saveOk := saveOk env; isUp := isUp env; hasLedger := hasLedger env; openOk := openOk env;
  hasDrafter := hasDrafter env; hasStaffing := hasStaffing env; now := now env
|}.

Example stale_roster_revives :
  let w1 := (SLogout (office true 5) ready_world 7).1 in
  let w2 := (SLogin (moved (office true 6)) w1 8).1 in
  let w3 := (Roster w2 [stale_row]).1 in
  CurrentState (presence w1 7) = StateLoggedOut /\ CurrentState (presence w3 7) = StateReady /\
  holds "1001" (presence w3 7) = true /\ holds "1001" (presence w3 8) = true.
Proof. repeat split; vm_compute; reflexivity. Qed.

(** A pause whose two halves a device signal and the listing of the roster come
    between. *)
Definition paused_world : World :=
  let '(w1, pd) := change_locked (office true 9) ready_world 7 (fun p => NotReady p ReasonBreak 9) in
  let w2 := NoteDevice w1 "1001" (mkDevice false false) in
  let w3 := (Roster w2 [stale_row]).1 in
  (change_record (office true 9) w3 7 TypeAgentNotReady pd).1.

Lemma paused_world_reach : service_reach paused_world.
Proof.
  unfold paused_world. destruct (change_locked (office true 9) ready_world 7 (fun p => NotReady p ReasonBreak 9)) as [w1 pd] eqn:E.
  assert (E1 : w1 = (change_locked (office true 9) ready_world 7 (fun p => NotReady p ReasonBreak 9)).1) by (by rewrite E).
  eapply sr_step; [|by apply ss_saved]. eapply sr_step; [|apply ss_roster].
  - eapply sr_step; [|apply ss_note]. eapply sr_step; [apply ready_world_reach|]. rewrite E1.
    apply (ss_locked _ _ _ 9), to_not_ready.
  - repeat constructor. by intros ?%not_elem_of_nil.
  - intros row ->%list_elem_of_singleton _. rewrite E1. eexists. split; [split; vm_compute; reflexivity|reflexivity].
Qed.

Lemma service_invariant_witness :
  let p := presence paused_world 7 in
  IsLoggedOut p = false /\ device paused_world (ExtensionNumber p) = mkDevice false false /\ IsRegistered p = false.
Proof.
  split; [vm_compute; reflexivity|]. split; [vm_compute; reflexivity|].
  destruct (proj1 (service_invariant paused_world paused_world_reach) 7%N (presence paused_world 7) (mkDevice false false)) as [H _];
    [vm_compute; reflexivity..|exact H].
Defined.

Lemma change_acknowledged_witness :
  exists w' p, change (office false 9) ready_world 7 TypeAgentNotReady
    (fun p => NotReady p ReasonBreak 9) = (w', (p, Some ErrStorage)) /\ db w' = db ready_world.
Proof.
  destruct (change (office false 9) ready_world 7 TypeAgentNotReady (fun p => NotReady p ReasonBreak 9))
    as [w' [p err]] eqn:H.
  assert (err = Some ErrStorage) as -> by (vm_compute in H; congruence).
  exists w', p. split; [reflexivity|].
  exact (proj1 (proj2 (change_acknowledged _ _ _ _ _ _ _ _ H))).
Defined.

Lemma device_lost_and_found_witness :
  let w1 := ObserveDevice (office true 5) ready_world "1001" SignalUnregistered in
  let w2 := ObserveDevice (office true 6) w1 "1001" SignalRegistered in
  St (presence w1 7) = StateNotReady /\ St (presence w2 7) = StateReady.
Proof.
  destruct (device_lost_and_found (office true 5) (office true 6) ready_world 7 wei_ready wei wei
    ready_world_reach wei_ready_signed_in eq_refl eq_refl eq_refl eq_refl) as [H _].
  destruct (H eq_refl) as (H1 & _ & _ & H2 & _). exact (conj H1 H2).
Defined.

Lemma repeated_signal_is_silent_witness :
  let w1 := ObserveDevice (office true 5) ready_world "1001" SignalUnreachable in
  device_events (ObserveDevice (office true 5) w1 "1001" SignalUnreachable) = device_events w1.
Proof. exact (repeated_signal_is_silent (office true 5) ready_world "1001" SignalUnreachable ready_world_reach). Defined.

Lemma Login_unsaved_stays_witness :
  let '(w1, (_, err1)) := SLogin (office false 1) NewService 7 in
  let '(_, (_, err2)) := SLogin (office true 2) w1 7 in
  err1 = Some ErrStorage /\ CurrentState (presence w1 7) = StateNotReady /\ db w1 = db NewService /\
  err2 = Some ErrAlreadyLoggedIn.
Proof.
  apply (Login_unsaved_stays (office false 1) (office true 2) NewService 7 wei); try reflexivity.
  discriminate.
Defined.

Lemma rollback_loses_update_witness :
  let apply := fun p => NotReady p ReasonBreak 9 in
  let '(w1, pd) := change_locked (office false 9) ready_world 7 apply in
  let w2 := NoteDevice w1 "1001" (mkDevice false false) in
  let '(w3, (_, err)) := change_record (office false 9) w2 7 TypeAgentNotReady pd in
  err = Some ErrStorage /\ device w3 "1001" = mkDevice false false /\
  presence w3 7 = wei_ready /\ IsRegistered (presence w3 7) = true.
Proof.
  apply (rollback_loses_update (office false 9) (office true 9) ready_world 7 wei_ready
    (enter wei_ready StateNotReady ReasonBreak "1001" 9 None) wei TypeAgentNotReady
    (fun p => NotReady p ReasonBreak 9)); try reflexivity.
  - exact wei_ready_signed_in.
  - apply (NotReady_tame ReasonBreak 9). reflexivity.
  - apply service_reach_ok, ready_world_reach.
Defined.

Lemma wrap_up_outlives_sign_out_witness :
  let '(w1, (_, err)) := startWrapUp (office true 1) NewService 7 42 0 in
  let w2 := (SLogin (office true 2) w1 7).1 in
  err = Some ErrNotLoggedIn /\ (WrapUpCall w2 7).2 = Some 42%N.
Proof.
  apply (wrap_up_outlives_sign_out (office true 1) (office true 2) NewService 7 42 0 wei);
    [reflexivity|reflexivity|discriminate].
Defined.

End AgentService.
