(* ===== verification/Call.v ===== *)
(** * The call aggregate: [internal/telephony/call.go] and the claims of
    [transfer.go]

    One conversation with its legs: the party state machine, the bridges a leg
    had, the queue stays of the caller, the business data a call carries and
    its bounds, and the claim that keeps one transfer of a leg on its way at a
    time. Where the code hands out a pointer to a leg or a stay for the caller
    to change, the model hands out its index. *)

From S2P Require Import Prelude Float64 Calendar Schedule.
Import Float64.

Module Call.

(** [internal/telephony/call.go:CallState] *)
Inductive CallState := CallCreated | CallRunning | CallEnded.

#[export] Instance CallState_eq_dec : EqDecision CallState.
Proof. solve_decision. Defined.

(** [internal/telephony/call.go:PartyState] *)
Inductive PartyState := PartyDialing | PartyRinging | PartyTalking | PartyHeld | PartyReleased.

#[export] Instance PartyState_eq_dec : EqDecision PartyState.
Proof. solve_decision. Defined.

(** [internal/telephony/call.go:PartyRole] *)
Inductive PartyRole := RoleOriginator | RoleTarget.

#[export] Instance PartyRole_eq_dec : EqDecision PartyRole.
Proof. solve_decision. Defined.

(** [internal/telephony/call.go:PartyTrigger] *)
Inductive PartyTrigger := TriggerAnswer | TriggerHold | TriggerRetrieve | TriggerRelease.

#[export] Instance PartyTrigger_eq_dec : EqDecision PartyTrigger.
Proof. solve_decision. Defined.

(** [internal/telephony/call.go:var(partyTransitions)] *)
Definition partyTransitions (s : PartyState) (t : PartyTrigger) : option PartyState :=
  match s, t with
  | PartyDialing, TriggerAnswer => Some PartyTalking
  | PartyDialing, TriggerRelease => Some PartyReleased
  | PartyRinging, TriggerAnswer => Some PartyTalking
  | PartyRinging, TriggerRelease => Some PartyReleased
  | PartyTalking, TriggerHold => Some PartyHeld
  | PartyTalking, TriggerRelease => Some PartyReleased
  | PartyTalking, TriggerAnswer => Some PartyTalking
  | PartyHeld, TriggerRetrieve => Some PartyTalking
  | PartyHeld, TriggerRelease => Some PartyReleased
  | _, _ => None
  end.

(** [internal/telephony/call.go:BridgeSpan] *)
Record BridgeSpan := mkBridge { BOtherChannelID : string; StartedAt : instant; EndedAt : instant }.

(** [internal/telephony/call.go:Party] *)
Record Party := mkParty {
  PartyID : uuid;
  ChannelID : string;
  Role : PartyRole;
  PState : PartyState;
  Number : string;
  OtherNumber : string;
  PAgentID : option uuid;
  PExtension : string;
  PCreatedAt : instant;
  AnsweredAt : instant;
  ReleasedAt : instant;
  ReleaseCause : string;
  IsBotLeg : bool;
  Bridges : list BridgeSpan;
  BilledSec : Z;
  IsMuted : bool
}.

Definition with_bridges (p : Party) (b : list BridgeSpan) : Party :=
  mkParty (PartyID p) (ChannelID p) (Role p) (PState p) (Number p) (OtherNumber p) (PAgentID p)
    (PExtension p) (PCreatedAt p) (AnsweredAt p) (ReleasedAt p) (ReleaseCause p) (IsBotLeg p) b
    (BilledSec p) (IsMuted p).

(** [internal/telephony/call.go:ErrIllegalTransition] *)
Record ErrIllegalTransition := mkIllegal { From : PartyState; Trigger : PartyTrigger }.

(** [internal/telephony/call.go:Party.apply] *)
Definition apply (p : Party) (trigger : PartyTrigger) (at_ : instant) : res ErrIllegalTransition Party :=
  match partyTransitions (PState p) trigger with
  | None => Err (mkIllegal (PState p) trigger)
  | Some next =>
      let answered := if bool_decide (next = PartyTalking) && is_zero (AnsweredAt p) then at_ else AnsweredAt p in
      let released := if bool_decide (next = PartyReleased) then at_ else ReleasedAt p in
      Ok (mkParty (PartyID p) (ChannelID p) (Role p) next (Number p) (OtherNumber p) (PAgentID p)
            (PExtension p) (PCreatedAt p) answered released (ReleaseCause p) (IsBotLeg p) (Bridges p)
            (BilledSec p) (IsMuted p))
  end.

(** [internal/telephony/call.go:Party.IsActive] *)
Definition IsActive (p : Party) : bool := negb (bool_decide (PState p = PartyReleased)).

(** [internal/telephony/call.go:Party.HangupCause] *)
Definition HangupCause (p : Party) : string :=
  if bool_decide (PState p = PartyTalking) || bool_decide (PState p = PartyHeld) then "NORMAL_CLEARING"
  else if bool_decide (Role p = RoleOriginator) then "ORIGINATOR_CANCEL"
  else "CALL_REJECTED".

(** The last bridge is recorded as still up. *)
Definition bridge_open (l : list BridgeSpan) : bool :=
  match last l with Some b => is_zero (EndedAt b) | None => false end.

(** [internal/telephony/call.go:Party.OpenBridge] *)
Definition OpenBridge (p : Party) (other : string) (at_ : instant) : Party :=
  if bridge_open (Bridges p) then p
  else with_bridges p (Bridges p ++ [mkBridge other at_ zero_time]).

(** [internal/telephony/call.go:Party.CloseBridge] *)
Definition CloseBridge (p : Party) (at_ : instant) : Party :=
  match last (Bridges p) with
  | Some b =>
      if is_zero (EndedAt b)
      then with_bridges p (<[(length (Bridges p) - 1)%nat := mkBridge (BOtherChannelID b) (StartedAt b) at_]> (Bridges p))
      else p
  | None => p
  end.

(** The stretches [BridgedSec] adds up. *)
Definition bridge_spans (parties : list Party) (endedAt : instant) : list Schedule.span :=
  flat_map (fun p => flat_map (fun b =>
    let stop := if is_zero (EndedAt b) then endedAt else EndedAt b in
    if StartedAt b <? stop then [Schedule.mkSpan (StartedAt b) stop] else []) (Bridges p)) parties.

(** The loop of [BridgedSec]. *)
Fixpoint bridged_loop (total : Z) (cur : Schedule.span) (l : list Schedule.span) : Z :=
  match l with
  | [] => total + (Schedule.to cur - Schedule.from cur)
  | s :: l =>
      if Schedule.to cur <? Schedule.from s
      then bridged_loop (total + (Schedule.to cur - Schedule.from cur)) s l
      else bridged_loop total
             (if Schedule.to cur <? Schedule.to s then Schedule.mkSpan (Schedule.from cur) (Schedule.to s) else cur) l
  end.

(** [int(d.Seconds())]: the whole seconds and the rest, added as floats. *)
Definition f64_trunc (x : f64) : Z :=
  match x with
  | S754_finite s m e =>
      let v := if 0 <=? e then Z.pos m * 2 ^ e else Z.pos m / 2 ^ (- e) in
      if s then - v else v
  | _ => 0
  end.

Definition intSeconds (d : duration) : Z :=
  f64_trunc (fadd (of_int (Z.quot d second)) (fdiv (of_int (Z.rem d second)) (of_int 1000000000))).

(** [internal/telephony/call.go:BridgedSec] *)
Definition bridged_total (parties : list Party) (endedAt : instant) : duration :=
  match sort_by Schedule.from (bridge_spans parties endedAt) with
  | [] => 0
  | cur :: l => bridged_loop 0 cur l
  end.

(** [internal/telephony/call.go:BridgedSec] *)
Definition BridgedSec (parties : list Party) (endedAt : instant) : Z :=
  match bridge_spans parties endedAt with
  | [] => 0
  | _ => intSeconds (bridged_total parties endedAt)
  end.

(** [internal/telephony/call.go:FirstBridgeAt] *)
Definition FirstBridgeAt (parties : list Party) : instant :=
  fold_left (fun first b => earlier first (StartedAt b)) (flat_map Bridges parties) zero_time.

(** [internal/telephony/call.go:QueueFacts] *)
Record QueueFacts := mkStay {
  QName : string;
  JoinedAt : instant;
  BridgedAt : instant;
  LeftAt : instant;
  Cause : string;
  CancelReason : string;
  QAgentID : option uuid
}.

Definition zero_stay : QueueFacts := mkStay "" 0 0 0 "" "" None.

#[export] Instance QueueFacts_eq_dec : EqDecision QueueFacts.
Proof. solve_decision. Defined.

(** A value of the business data: a text, or anything else, by the length of
    its JSON encoding ([None]: it cannot be encoded). *)
Inductive Value := VNil | VStr (s : string) | VOther (encoded : option Z).

#[export] Instance Value_eq_dec : EqDecision Value.
Proof. solve_decision. Defined.

(** [internal/telephony/transfer.go:transferClaim] *)
Record transferClaim := mkClaim { token : Z; until : instant }.

(** [internal/telephony/call.go:Call] Its call type, language, queue and bot
    share are routing facts no operation here reads. *)
Record Call := mkCall {
  CallID : uuid;
  State : CallState;
  Parties : list Party;
  UserData : gmap string Value;
  QueueStays : list QueueFacts;
  CreatedAt : instant;
  CEndedAt : instant;
  transfers : gmap string transferClaim
}.

Definition with_parties (c : Call) (l : list Party) (s : CallState) : Call :=
  mkCall (CallID c) s l (UserData c) (QueueStays c) (CreatedAt c) (CEndedAt c) (transfers c).
Definition with_stays (c : Call) (l : list QueueFacts) : Call :=
  mkCall (CallID c) (State c) (Parties c) (UserData c) l (CreatedAt c) (CEndedAt c) (transfers c).
Definition with_data (c : Call) (d : gmap string Value) : Call :=
  mkCall (CallID c) (State c) (Parties c) d (QueueStays c) (CreatedAt c) (CEndedAt c) (transfers c).
Definition with_transfers (c : Call) (t : gmap string transferClaim) : Call :=
  mkCall (CallID c) (State c) (Parties c) (UserData c) (QueueStays c) (CreatedAt c) (CEndedAt c) t.

(** [internal/telephony/call.go:Call.CurrentQueue] *)
Definition CurrentQueue (c : Call) : QueueFacts := default zero_stay (last (QueueStays c)).

(** [internal/telephony/call.go:joinSlackSec] *)
Definition joinSlackSec : Z := 1.

(** [internal/telephony/call.go:sameJoin] *)
Definition sameJoin (a b : instant) : bool :=
  let d := a / second - b / second in (- joinSlackSec <=? d) && (d <=? joinSlackSec).

(** [internal/telephony/call.go:inQueue] *)
Definition inQueue (s : QueueFacts) (name : string) : bool :=
  String.eqb name "" || String.eqb (QName s) name.

(** The last index at which [f] holds, from index [i] on. *)
Fixpoint last_index (f : QueueFacts -> bool) (i : nat) (l : list QueueFacts) : option nat :=
  match l with
  | [] => None
  | s :: l => match last_index f (S i) l with
              | Some j => Some j
              | None => if f s then Some i else None
              end
  end.

(** [internal/telephony/call.go:Call.stayIndex] *)
Definition stayIndex (stays : list QueueFacts) (name : string) (joinedAt : instant) : option nat :=
  last_index (fun s => inQueue s name && sameJoin (JoinedAt s) joinedAt) 0 stays.

(** [internal/telephony/call.go:Call.latestStayIndex] *)
Definition latestStayIndex (stays : list QueueFacts) (name : string) : option nat :=
  last_index (fun s => inQueue s name) 0 stays.

(** [d.Abs()]: the least duration has no opposite. *)
Definition durAbs (d : duration) : duration := Z.min (2 ^ 63 - 1) (Z.abs d).

(** The loop of [nearestStayIndex], from index [i]. *)
Fixpoint nearest_loop (name : string) (joinedAt : instant) (best : option (nat * Z)) (i : nat)
    (l : list QueueFacts) : option nat :=
  match l with
  | [] => fst <$> best
  | s :: l =>
      let best :=
        if negb (inQueue s name) then best
        else
          let gap := durAbs (Calendar.Sub (JoinedAt s) joinedAt) in
          match best with
          | None => Some (i, gap)
          | Some (_, bestGap) => if gap <=? bestGap then Some (i, gap) else best
          end in
      nearest_loop name joinedAt best (S i) l
  end.

(** [internal/telephony/call.go:Call.nearestStayIndex] *)
Definition nearestStayIndex (stays : list QueueFacts) (name : string) (joinedAt : instant) : option nat :=
  nearest_loop name joinedAt None 0 stays.

(** [internal/telephony/call.go:sortQueueStays] *)
Definition sortQueueStays (l : list QueueFacts) : list QueueFacts := sort_by JoinedAt l.

(** [internal/telephony/call.go:Call.JoinQueue] *)
Definition JoinQueue (stays : list QueueFacts) (name : string) (switchJoined announcedAt : instant)
    : list QueueFacts :=
  if negb (is_zero switchJoined) && bool_decide (is_Some (stayIndex stays name switchJoined)) then stays
  else
    let waiting := match latestStayIndex stays name with
                   | Some i => let s := nth i stays zero_stay in is_zero (BridgedAt s) && is_zero (LeftAt s)
                   | None => false
                   end in
    if waiting then stays
    else
      let joined := if is_zero switchJoined then announcedAt else switchJoined in
      sortQueueStays (stays ++ [mkStay name joined 0 0 "" "" None]).

(** The first index at which [f] holds, from index [i] on. *)
Fixpoint first_index (f : QueueFacts -> bool) (i : nat) (l : list QueueFacts) : option nat :=
  match l with
  | [] => None
  | s :: l => if f s then Some i else first_index f (S i) l
  end.

(** [internal/telephony/call.go:Call.QueueStay] The stay's index, and the
    stays with it. *)
Definition QueueStay (stays : list QueueFacts) (name : string) (joinedAt : instant)
    : list QueueFacts * option nat :=
  let found :=
    if negb (is_zero joinedAt) then
      match stayIndex stays name joinedAt with
      | Some i => Some i
      | None => nearestStayIndex stays name joinedAt
      end
    else latestStayIndex stays name in
  match found with
  | Some i => (stays, Some i)
  | None =>
      let stays := sortQueueStays (stays ++ [mkStay name joinedAt 0 0 "" "" None]) in
      (stays, first_index (fun s => String.eqb (QName s) name && (JoinedAt s =? joinedAt)) 0 stays)
  end.

Definition or_time (a b : instant) : instant := if is_zero a then b else a.
Definition or_text (a b : string) : string := if String.eqb a "" then b else a.

(** What either half learnt about a stay is kept. *)
Definition merge_stay (s inn : QueueFacts) : QueueFacts :=
  mkStay (QName s) (JoinedAt s) (or_time (BridgedAt s) (BridgedAt inn)) (or_time (LeftAt s) (LeftAt inn))
    (or_text (Cause s) (Cause inn)) (or_text (CancelReason s) (CancelReason inn))
    (match QAgentID s with Some a => Some a | None => QAgentID inn end).

Definition same_stay (inn s : QueueFacts) : bool :=
  String.eqb (QName s) (QName inn) && sameJoin (JoinedAt s) (JoinedAt inn).

(** [internal/telephony/call.go:Call.MergeQueueStays] One round of the loop. *)
Definition merge_one (stays : list QueueFacts) (inn : QueueFacts) : list QueueFacts :=
  match first_index (same_stay inn) 0 stays with
  | None => stays ++ [inn]
  | Some i => <[i := merge_stay (nth i stays zero_stay) inn]> stays
  end.

(** [internal/telephony/call.go:Call.MergeQueueStays] *)
Definition MergeQueueStays (stays other : list QueueFacts) : list QueueFacts :=
  sortQueueStays (fold_left merge_one other stays).

(** [internal/telephony/call.go:NewCall] *)
Definition NewCall (callID : uuid) (at_ : instant) : Call :=
  mkCall callID CallCreated [] ∅ [] at_ zero_time ∅.

(** [internal/telephony/call.go:Call.AddParty] [partyID] is the fresh UUID. *)
Definition AddParty (c : Call) (partyID : uuid) (channelID number : string) (at_ : instant) : Call :=
  let '(role, state) := match Parties c with
                        | [] => (RoleOriginator, PartyDialing)
                        | _ => (RoleTarget, PartyRinging)
                        end in
  let p := mkParty partyID channelID role state number "" None "" at_ 0 0 "" false [] 0 false in
  with_parties c (Parties c ++ [p]) (if decide (State c = CallCreated) then CallRunning else State c).

(** [internal/telephony/call.go:Call.PartyByChannel] *)
Definition PartyByChannel (c : Call) (channelID : string) : option Party :=
  List.find (fun p => String.eqb (ChannelID p) channelID) (Parties c).

(** [internal/telephony/call.go:Call.Originator] *)
Definition Originator (c : Call) : option Party :=
  List.find (fun p => bool_decide (Role p = RoleOriginator)) (Parties c).

(** [internal/telephony/call.go:Call.ActiveParties] *)
Definition ActiveParties (c : Call) : list Party := List.filter IsActive (Parties c).

(** [internal/telephony/call.go:Call.AgentIDs] *)
Definition AgentIDs (c : Call) : list uuid :=
  fold_left (fun out p => match PAgentID p with
                          | Some id => if contains out id then out else out ++ [id]
                          | None => out
                          end) (Parties c) [].

(** [internal/telephony/call.go:Call.AnsweredAt] *)
Definition CallAnsweredAt (c : Call) : instant :=
  fold_left (fun first p => if is_zero (AnsweredAt p) then first else earlier first (AnsweredAt p))
    (Parties c) zero_time.

(** [internal/telephony/call.go:const(UserDataMaxKeys)] *)
Definition UserDataMaxKeys : Z := 32.
Definition UserDataMaxValueBytes : Z := 1024.

(** [internal/telephony/call.go:UserDataChange] *)
Record UserDataChange := mkChange { Changed : list string; Deleted : list string; Dropped : list string }.

(** [internal/telephony/call.go:UserDataChange.IsEmpty] *)
Definition IsEmpty (u : UserDataChange) : bool :=
  bool_decide (Changed u = []) && bool_decide (Deleted u = []).

(** [internal/telephony/call.go:userDataValueSize] *)
Definition userDataValueSize (v : Value) : option Z :=
  match v with
  | VStr s => Some (Z.of_nat (String.length s))
  | VOther e => e
  | VNil => Some 4
  end.

(** [internal/telephony/call.go:sameUserDataValue] *)
Definition sameUserDataValue (old new : Value) : bool :=
  match old, new with VStr a, VStr b => String.eqb a b | _, _ => false end.

Definition too_big (v : Value) : bool :=
  match userDataValueSize v with Some size => UserDataMaxValueBytes <? size | None => true end.

(** What the first loop of the plan finds of one entry. *)
Inductive verdict := VDelete | VDrop | VAdd | VReplace | VSkip.

#[export] Instance verdict_eq_dec : EqDecision verdict.
Proof. solve_decision. Defined.

Definition judge (data : gmap string Value) (k : string) (v : Value) : verdict :=
  match v with
  | VNil => if bool_decide (is_Some (data !! k)) then VDelete else VSkip
  | _ =>
      if too_big v then VDrop
      else match data !! k with
      | None => VAdd
      | Some old => if sameUserDataValue old v then VSkip else VReplace
      end
  end.

Definition judged (data : gmap string Value) (which : verdict) (entries : list (string * Value)) : list string :=
  fst <$> filter (fun e => judge data e.1 e.2 = which) entries.

(** [internal/telephony/call.go:Call.planUserDataMerge] [entries] is the patch
    in the order the map was ranged over. *)
Definition plan_entries (data : gmap string Value) (entries : list (string * Value)) : UserDataChange :=
  let deleted := judged data VDelete entries in
  let room := UserDataMaxKeys - Z.of_nat (size data) + Z.of_nat (length deleted) in
  let additions := sort_strings (judged data VAdd entries) in
  let k := Z.to_nat room in
  mkChange (sort_strings (judged data VReplace entries ++ take k additions))
    (sort_strings deleted)
    (sort_strings (judged data VDrop entries ++ drop k additions)).

(** [internal/telephony/call.go:Call.planUserDataMerge] *)
Definition planUserDataMerge (data patch : gmap string Value) : UserDataChange :=
  plan_entries data (map_to_list patch).

(** [internal/telephony/call.go:Call.MergeUserData] *)
Definition MergeUserData (data patch : gmap string Value) : gmap string Value * UserDataChange :=
  let plan := planUserDataMerge data patch in
  let data := fold_left (fun d k => delete k d) (Deleted plan) data in
  let data := fold_left (fun d k => <[k := default VNil (patch !! k)]> d) (Changed plan) data in
  (data, plan).

(** [internal/telephony/call.go:Call.Finish] *)
Definition Finish (c : Call) (at_ : instant) : Call * bool :=
  if negb (Nat.eqb (length (ActiveParties c)) 0) || bool_decide (State c = CallEnded) then (c, false)
  else (mkCall (CallID c) CallEnded (Parties c) (UserData c) (QueueStays c) (CreatedAt c) at_ (transfers c), true).

(** [internal/telephony/transfer.go:transferInFlightFor] *)
Definition transferInFlightFor : duration := minute.

(** [internal/telephony/transfer.go:Call.claimTransfer] [tokens] is the global
    counter; the answer is the token. *)
Definition claimTransfer (c : Call) (tokens : Z) (channelID : string) (now : instant)
    : Call * Z * option Z :=
  let held := match transfers c !! channelID with Some h => now <? until h | None => false end in
  if held then (c, tokens, None)
  else
    let t := wrapU 64 (tokens + 1) in
    (with_transfers c (<[channelID := mkClaim t (now + transferInFlightFor)]> (transfers c)), t, Some t).

(** [internal/telephony/transfer.go:Call.keepTransfer] *)
Definition keepTransfer (c : Call) (channelID : string) (tok : Z) (now : instant) : Call * bool :=
  match transfers c !! channelID with
  | Some h =>
      if token h =? tok
      then (with_transfers c (<[channelID := mkClaim tok (now + transferInFlightFor)]> (transfers c)), true)
      else (c, false)
  | None => (c, false)
  end.

(** [internal/telephony/transfer.go:Call.releaseTransfer] *)
Definition releaseTransfer (c : Call) (channelID : string) (tok : Z) : Call :=
  match transfers c !! channelID with
  | Some h => if token h =? tok then with_transfers c (delete channelID (transfers c)) else c
  | None => c
  end.

(** The kinds of a switch event, as far as a transfer cares. *)
Inductive EventKind :=
| KindChannelUnbridge | KindChannelBridge | KindChannelHangup | KindQueueMemberJoined | KindOther.

(** [internal/telephony/transfer.go:Call.settleTransfers] *)
Definition settleTransfers (c : Call) (kind : EventKind) (channels : list string) : Call :=
  match kind with
  | KindOther => c
  | _ => with_transfers c
           (fold_left (fun t ch => if String.eqb ch "" then t else delete ch t) channels (transfers c))
  end.

(** ** Bridges of a leg *)

Inductive bridge_op := BOpen (other : string) (at_ : instant) | BClose (at_ : instant).

Definition bridge_at (op : bridge_op) : instant := match op with BOpen _ t | BClose t => t end.

Definition do_bridge (p : Party) (op : bridge_op) : Party :=
  match op with BOpen o t => OpenBridge p o t | BClose t => CloseBridge p t end.

(** Closed stretches in order, the last perhaps open, all before [t]. *)
Inductive bridges_ok : list BridgeSpan -> instant -> Prop :=
| bo_nil t : bridges_ok [] t
| bo_closed l b t t' : bridges_ok l t -> t <= StartedAt b -> StartedAt b <= EndedAt b -> EndedAt b <> 0 ->
    EndedAt b <= t' -> bridges_ok (l ++ [b]) t'
| bo_open l b t t' : bridges_ok l t -> t <= StartedAt b -> EndedAt b = 0 -> StartedAt b <= t' ->
    (forall b', last l = Some b' -> EndedAt b' <> 0) -> bridges_ok (l ++ [b]) t'.

Lemma bridges_ok_mono l t t' : bridges_ok l t -> t <= t' -> bridges_ok l t'.
Proof.
  intros H Hle. inversion H; subst; [constructor|eapply bo_closed|eapply bo_open]; eauto; lia.
Qed.

Lemma insert_last {A} (l : list A) x y : <[(length (l ++ [x]) - 1)%nat := y]> (l ++ [x]) = l ++ [y].
Proof.
  rewrite length_app. simpl. replace (length l + 1 - 1)%nat with (length l + 0)%nat by lia.
  by rewrite insert_app_r.
Qed.

Lemma do_bridge_ok p op t : bridges_ok (Bridges p) t -> t <= bridge_at op -> 0 < bridge_at op ->
  bridges_ok (Bridges (do_bridge p op)) (bridge_at op).
Proof.
  intros H Ht Hpos. destruct op as [o at_|at_]; simpl in *.
  - unfold OpenBridge. destruct (bridge_open (Bridges p)) eqn:E; [by eapply bridges_ok_mono|]. simpl.
    eapply bo_open; [exact H|done|done|simpl; lia|]. intros b' Hb'.
    unfold bridge_open in E. rewrite Hb' in E. unfold is_zero in E. by apply Z.eqb_neq in E.
  - unfold CloseBridge. remember (Bridges p) as bs eqn:E.
    destruct H as [t|l b s t Hl Hs Hse Hne Hle|l b s t Hl Hs He Hle Hlast].
    + simpl. rewrite <- E. constructor.
    + rewrite last_snoc. unfold is_zero. rewrite (proj2 (Z.eqb_neq _ _) Hne). rewrite <- E.
      eapply bo_closed; eauto. lia.
    + rewrite last_snoc. unfold is_zero. rewrite He. simpl. rewrite insert_last.
      eapply bo_closed; [exact Hl|done|simpl; lia|simpl; lia|simpl; lia].
Qed.

(** ** Talk time *)

Definition span_sum (l : list Schedule.span) : Z :=
  fold_right (fun s n => Schedule.to s - Schedule.from s + n) 0 l.

Lemma bridged_loop_sum total cur l :
  bridged_loop total cur l = total + span_sum (Schedule.merge_loop cur l).
Proof.
  revert total cur. induction l as [|s l IH]; intros total cur; simpl; [lia|].
  destruct (Z.ltb_spec (Schedule.to cur) (Schedule.from s)).
  - rewrite (proj2 (Z.leb_gt _ _)) by lia. rewrite IH. simpl. lia.
  - rewrite (proj2 (Z.leb_le _ _)) by lia. rewrite IH.
    destruct (Z.ltb_spec (Schedule.to cur) (Schedule.to s)); [done|]. by destruct cur.
Qed.

Lemma bridged_total_merge parties endedAt :
  bridged_total parties endedAt = span_sum (Schedule.merge (bridge_spans parties endedAt)).
Proof.
  unfold bridged_total, Schedule.merge. destruct (sort_by Schedule.from _); [done|].
  apply (bridged_loop_sum 0).
Qed.

(** When a leg was in two-way media, a stretch still up ending with the call. *)
Definition talking_at (parties : list Party) (endedAt t : instant) : Prop :=
  exists p b, p ∈ parties /\ b ∈ Bridges p /\
    StartedAt b <= t < (if is_zero (EndedAt b) then endedAt else EndedAt b).

Lemma bridge_spans_covered parties endedAt t :
  Schedule.covered (bridge_spans parties endedAt) t <-> talking_at parties endedAt t.
Proof.
  unfold bridge_spans, talking_at. rewrite Schedule.covered_flat_map. setoid_rewrite Schedule.covered_flat_map.
  assert (Hb : forall b, Schedule.covered
    (if StartedAt b <? (if is_zero (EndedAt b) then endedAt else EndedAt b)
     then [Schedule.mkSpan (StartedAt b) (if is_zero (EndedAt b) then endedAt else EndedAt b)] else []) t
    <-> StartedAt b <= t < (if is_zero (EndedAt b) then endedAt else EndedAt b)).
  { intros b. destruct (is_zero (EndedAt b));
      match goal with |- context [?x <? ?y] => destruct (Z.ltb_spec x y) end.
    all: rewrite ?Schedule.covered_cons, ?Schedule.covered_nil; unfold Schedule.in_span; simpl; lia. }
  setoid_rewrite Hb. naive_solver.
Qed.

Lemma bridge_spans_valid parties endedAt : Schedule.valid_spans (bridge_spans parties endedAt).
Proof.
  intros s Hs. apply list_elem_of_In, in_flat_map in Hs as (p & _ & Hs).
  apply in_flat_map in Hs as (b & _ & Hs).
  cbv zeta in Hs. match goal with H : context [?x <? ?y] |- _ => destruct (Z.ltb_spec x y) end; [|done].
  destruct Hs as [<-|[]]. done.
Qed.

(** ** Business data *)

Lemma elem_of_judged data which entries k :
  k ∈ judged data which entries <-> exists v, (k, v) ∈ entries /\ judge data k v = which.
Proof.
  unfold judged. rewrite list_elem_of_fmap. setoid_rewrite list_elem_of_filter. split.
  - intros ([k' v] & -> & Hj & Hin). by exists v.
  - intros (v & Hin & Hj). by exists (k, v).
Qed.

Lemma elem_of_judged_map data which patch k :
  k ∈ judged data which (map_to_list patch) <-> exists v, patch !! k = Some v /\ judge data k v = which.
Proof. rewrite elem_of_judged. by setoid_rewrite elem_of_map_to_list. Qed.

Lemma judged_NoDup data which entries : NoDup entries.*1 -> NoDup (judged data which entries).
Proof.
  unfold judged. intros H. eapply sublist_NoDup; [exact H|].
  apply fmap_sublist, sublist_filter.
Qed.

Lemma judged_perm data which e1 e2 : e1 ≡ₚ e2 -> judged data which e1 ≡ₚ judged data which e2.
Proof. intros H. unfold judged. by rewrite H. Qed.

Lemma plan_order data e1 e2 : e1 ≡ₚ e2 -> plan_entries data e1 = plan_entries data e2.
Proof.
  intros H. unfold plan_entries.
  rewrite (sort_strings_unique _ _ (judged_perm data VAdd e1 e2 H)).
  rewrite (Permutation_length (judged_perm data VDelete e1 e2 H)). f_equal; apply sort_strings_unique.
  - by rewrite (judged_perm data VReplace e1 e2 H).
  - by rewrite (judged_perm data VDelete e1 e2 H).
  - by rewrite (judged_perm data VDrop e1 e2 H).
Qed.

Lemma fold_delete_lookup {V} (l : list string) (d : gmap string V) k :
  fold_left (fun d k => delete k d) l d !! k = if decide (k ∈ l) then None else d !! k.
Proof.
  revert d. induction l as [|x l IH]; intros d; simpl; [done|]. rewrite IH.
  destruct (decide (k ∈ l)); [by rewrite decide_True by set_solver|].
  destruct (decide (k = x)) as [->|]; [by rewrite lookup_delete_eq, decide_True by set_solver|].
  rewrite lookup_delete_ne by done. by rewrite decide_False by set_solver.
Qed.

Lemma fold_insert_lookup {V} (f : string -> V) (l : list string) (d : gmap string V) k :
  fold_left (fun d k => <[k := f k]> d) l d !! k = if decide (k ∈ l) then Some (f k) else d !! k.
Proof.
  revert d. induction l as [|x l IH]; intros d; simpl; [done|]. rewrite IH.
  destruct (decide (k ∈ l)); [by rewrite decide_True by set_solver|].
  destruct (decide (k = x)) as [->|]; [by rewrite lookup_insert_eq, decide_True by set_solver|].
  rewrite lookup_insert_ne by done. by rewrite decide_False by set_solver.
Qed.

(** What a patch does to one key. *)
Lemma merge_lookup data patch k :
  let '(data', plan) := MergeUserData data patch in
  data' !! k =
    (if decide (k ∈ Changed plan) then Some (default VNil (patch !! k))
     else if decide (k ∈ Deleted plan) then None else data !! k).
Proof.
  unfold MergeUserData. rewrite (fold_insert_lookup (fun k => default VNil (patch !! k))).
  destruct (decide _); [done|]. apply fold_delete_lookup.
Qed.

Lemma plan_elem data patch k :
  let plan := planUserDataMerge data patch in
  (k ∈ Deleted plan <-> patch !! k = Some VNil /\ is_Some (data !! k)) /\
  (k ∈ Changed plan -> exists v, patch !! k = Some v /\ v <> VNil /\ too_big v = false) /\
  (k ∈ Dropped plan -> exists v, patch !! k = Some v /\ v <> VNil /\ (too_big v = true \/ data !! k = None)) /\
  (forall v, patch !! k = Some v -> v <> VNil -> k ∉ Changed plan -> k ∉ Dropped plan -> data !! k = Some v).
Proof.
  unfold planUserDataMerge, plan_entries. simpl. rewrite !elem_of_sort_strings.
  set (room := Z.to_nat _). set (adds := sort_strings _).
  assert (Hadds : forall x, x ∈ adds <-> exists v, patch !! x = Some v /\ judge data x v = VAdd)
    by (intros x; unfold adds; rewrite elem_of_sort_strings; apply elem_of_judged_map).
  assert (Htake : k ∈ take room adds \/ k ∈ drop room adds <-> k ∈ adds)
    by (rewrite <- elem_of_app; by rewrite take_drop).
  assert (Hj : forall v w, judge data k v = w -> v <> VNil ->
    match w with
    | VDrop => too_big v = true
    | VAdd => too_big v = false /\ data !! k = None
    | VReplace => too_big v = false
    | VSkip => data !! k = Some v
    | VDelete => False
    end).
  { intros v w <- Hv. unfold judge. destruct v as [|s|e]; [done|..].
    - destruct (too_big _); [done|]. destruct (data !! k) as [old|] eqn:E; [|done].
      destruct (sameUserDataValue old (VStr s)) eqn:Es; [|done]. unfold sameUserDataValue in Es.
      destruct old; try done. by apply String.eqb_eq in Es as ->.
    - destruct (too_big _); [done|]. destruct (data !! k) as [old|] eqn:E; [|done].
      destruct old; simpl; done. }
  assert (Hnil : forall v w, judge data k v = w -> w <> VDelete -> w <> VSkip -> v <> VNil).
  { intros v w <- H1 H2 ->. unfold judge in *. by destruct (bool_decide _). }
  rewrite !elem_of_app, elem_of_judged_map. setoid_rewrite elem_of_judged_map. split; [|split; [|split]].
  - split.
    + intros (v & Hp & Hv). destruct (decide (v = VNil)) as [->|Hne]; [|by apply Hj in Hv].
      split; [done|]. unfold judge in Hv. by destruct (bool_decide_reflect (is_Some (data !! k))).
    + intros [Hp Hs]. exists VNil. split; [done|]. simpl. by rewrite bool_decide_eq_true_2.
  - intros [(v & Hp & Hv)|Hin].
    + pose proof (Hnil _ _ Hv ltac:(done) ltac:(done)) as Hne. exists v. by apply Hj in Hv.
    + assert (Hk : k ∈ adds) by (apply Htake; by left). apply Hadds in Hk as (v & Hp & Hv).
      pose proof (Hnil _ _ Hv ltac:(done) ltac:(done)) as Hne. exists v. apply Hj in Hv; [|done]. naive_solver.
  - intros [(v & Hp & Hv)|Hin].
    + pose proof (Hnil _ _ Hv ltac:(done) ltac:(done)) as Hne. exists v. apply Hj in Hv; [|done]. naive_solver.
    + assert (Hk : k ∈ adds) by (apply Htake; by right). apply Hadds in Hk as (v & Hp & Hv).
      pose proof (Hnil _ _ Hv ltac:(done) ltac:(done)) as Hne. exists v. apply Hj in Hv; [|done]. naive_solver.
  - intros v Hp Hne Hc Hd. rewrite elem_of_sort_strings, elem_of_app, elem_of_judged_map in Hc, Hd.
    destruct (judge data k v) eqn:Hv.
    + by apply Hj in Hv.
    + exfalso. apply Hd. left. by exists v.
    + exfalso. assert (Hk : k ∈ adds) by (apply Hadds; by exists v).
      apply Htake in Hk as [Hk|Hk]; [apply Hc | apply Hd]; by right.
    + exfalso. apply Hc. left. by exists v.
    + by apply Hj in Hv.
Qed.

Lemma judge_delete data k v : judge data k v = VDelete -> v = VNil /\ is_Some (data !! k).
Proof.
  unfold judge. destruct v as [|s|e]; [by destruct (bool_decide_reflect (is_Some (data !! k)))|..];
    destruct (too_big _); try done; destruct (data !! k); try done; by destruct (sameUserDataValue _ _).
Qed.

Lemma judge_replace data k v : judge data k v = VReplace -> v <> VNil /\ is_Some (data !! k).
Proof.
  unfold judge. destruct v as [|s|e]; [by destruct (bool_decide _)|..];
    destruct (too_big _); try done; destruct (data !! k); try done; by destruct (sameUserDataValue _ _).
Qed.

(** The keys left: those that were there and stay, and as many additions as
    there was room for. *)
Lemma merge_dom data patch :
  let dels := judged data VDelete (map_to_list patch) in
  let adds := take (Z.to_nat (UserDataMaxKeys - Z.of_nat (size data) + Z.of_nat (length dels)))
                (sort_strings (judged data VAdd (map_to_list patch))) in
  dom (MergeUserData data patch).1 ⊆ (dom data ∖ list_to_set dels) ∪ (list_to_set adds : gset string).
Proof.
  intros dels adds k Hk. apply elem_of_dom in Hk. pose proof (merge_lookup data patch k) as Hl.
  destruct (MergeUserData data patch) as [data' plan] eqn:E. simpl in *.
  assert (plan = planUserDataMerge data patch) as -> by (unfold MergeUserData in E; by injection E as _ <-).
  rewrite Hl in Hk. apply elem_of_union. rewrite elem_of_difference, elem_of_dom, !elem_of_list_to_set.
  assert (Hnd : k ∈ dels -> patch !! k = Some VNil).
  { intros (v & Hp & Hv)%elem_of_judged_map. by apply judge_delete in Hv as [-> _]. }
  destruct (decide (k ∈ Changed (planUserDataMerge data patch))) as [Hc|Hc].
  - unfold planUserDataMerge, plan_entries in Hc. simpl in Hc.
    rewrite elem_of_sort_strings, elem_of_app in Hc. destruct Hc as [Hc|Hc]; [left|by right].
    apply elem_of_judged_map in Hc as (v & Hp & Hv). apply judge_replace in Hv as [Hne Hs].
    split; [done|]. intros Hd%Hnd. congruence.
  - destruct (decide (k ∈ Deleted (planUserDataMerge data patch))) as [Hd|Hd]; [by apply is_Some_None in Hk|].
    left. split; [done|]. intros Hin. apply Hd. unfold planUserDataMerge, plan_entries. simpl.
    by rewrite elem_of_sort_strings.
Qed.

(** The key bound: what is deleted makes room for what is added. *)
Lemma merge_size data patch : Z.of_nat (size data) <= UserDataMaxKeys ->
  Z.of_nat (size (MergeUserData data patch).1) <= UserDataMaxKeys.
Proof.
  intros Hsize. pose proof (merge_dom data patch) as Hsub. cbv zeta in Hsub.
  set (dels := judged data VDelete (map_to_list patch)) in *.
  set (adds := take _ _) in Hsub.
  assert (Hdels : (list_to_set dels : gset string) ⊆ dom data).
  { intros k Hk. apply elem_of_list_to_set, elem_of_judged_map in Hk as (v & _ & Hv). apply elem_of_dom.
    apply (judge_delete data k v Hv). }
  assert (Hld : size (list_to_set dels : gset string) = length dels)
    by apply size_list_to_set, judged_NoDup, NoDup_fst_map_to_list.
  apply subseteq_size in Hsub. rewrite size_union_alt, (size_difference _ _ Hdels), !size_dom, Hld in Hsub.
  pose proof (subseteq_size _ _ Hdels) as Hds. rewrite size_dom, Hld in Hds.
  pose proof (subseteq_size ((list_to_set adds : gset string) ∖ (dom data ∖ list_to_set dels)) (list_to_set adds)
    ltac:(set_solver)) as Hadds.
  pose proof (size_list_to_set_le adds) as Hla. unfold adds in Hla at 2. rewrite length_take in Hla. lia.
Qed.

(** ** Queue stays *)

Definition stays_sorted (l : list QueueFacts) : Prop := StronglySorted (key_le JoinedAt) l.

Lemma last_index_Some f i l j : last_index f i l = Some j ->
  exists k s, j = (i + k)%nat /\ l !! k = Some s /\ f s = true /\
    forall k' s', (k < k')%nat -> l !! k' = Some s' -> f s' = false.
Proof.
  revert i. induction l as [|s l IH]; intros i; simpl; [done|].
  destruct (last_index f (S i) l) as [j'|] eqn:E.
  - intros [= <-]. destruct (IH _ E) as (k & s' & -> & Hk & Hf & Hlast).
    exists (S k), s'. split; [lia|]. split; [done|]. split; [done|].
    intros [|k'] s'' Hlt; [lia|]. simpl. apply Hlast. lia.
  - destruct (f s) eqn:Hs; [|done]. intros [= <-]. exists 0%nat, s. split; [lia|]. split; [done|].
    split; [done|]. intros [|k'] s'' Hlt Hk'; [lia|]. simpl in Hk'. clear IH Hs.
    revert i k' Hk' E Hlt. induction l as [|x l IH]; intros i k' Hk' E Hlt; simpl in *; [done|].
    destruct (last_index f (S (S i)) l) eqn:E'; [done|]. destruct (f x) eqn:Hx; [done|].
    destruct k' as [|k']; simpl in Hk'; [by injection Hk' as <-|]. eapply (IH (S i)); eauto. lia.
Qed.

Lemma last_index_None f i l : last_index f i l = None -> forall s, s ∈ l -> f s = false.
Proof.
  revert i. induction l as [|x l IH]; intros i; simpl; [set_solver|].
  destruct (last_index f (S i) l) eqn:E; [done|]. destruct (f x) eqn:Hx; [done|]. intros _ s [->|Hs]%elem_of_cons; eauto.
Qed.

Lemma last_index_at f i l k s : l !! k = Some s -> f s = true ->
  (forall k' s', (k < k')%nat -> l !! k' = Some s' -> f s' = false) -> last_index f i l = Some (i + k)%nat.
Proof.
  intros Hk Hf Hl. destruct (last_index f i l) as [j|] eqn:E.
  - apply last_index_Some in E as (k' & s' & -> & Hk' & Hf' & Hl'). f_equal.
    destruct (lt_eq_lt_dec k k') as [[Hlt| ->]|Hlt]; [|done|].
    + by rewrite (Hl _ _ Hlt Hk') in Hf'.
    + by rewrite (Hl' _ _ Hlt Hk) in Hf.
  - eapply last_index_None in E; [|by eapply list_elem_of_lookup_2]. congruence.
Qed.

Lemma first_index_Some f i l j : first_index f i l = Some j ->
  exists k s, j = (i + k)%nat /\ l !! k = Some s /\ f s = true.
Proof.
  revert i. induction l as [|s l IH]; intros i; simpl; [done|]. destruct (f s) eqn:Hs.
  - intros [= <-]. exists 0%nat, s. split; [lia|done].
  - intros (k & s' & -> & Hk & Hf)%IH. exists (S k), s'. split; [lia|done].
Qed.

Lemma first_index_exists f i l : (exists s, s ∈ l /\ f s = true) -> is_Some (first_index f i l).
Proof.
  revert i. induction l as [|x l IH]; intros i (s & Hs & Hf); [set_solver|]. simpl.
  destruct (f x) eqn:Hx; [by eexists|]. apply IH. exists s. apply elem_of_cons in Hs as [->|Hs]; [congruence|done].
Qed.

Lemma nearest_loop_Some name t best i l :
  (forall j g, best = Some (j, g) -> (j < i)%nat) ->
  match nearest_loop name t best i l with
  | Some j => (exists g, best = Some (j, g)) \/
              exists k s, j = (i + k)%nat /\ l !! k = Some s /\ inQueue s name = true
  | None => best = None /\ forall s, s ∈ l -> inQueue s name = false
  end.
Proof.
  revert best i. induction l as [|s l IH]; intros best i Hb; simpl.
  { destruct best as [[j g]|]; simpl; [left; by exists g|]. split; [done|set_solver]. }
  set (best' := if negb (inQueue s name) then best else _).
  assert (Hb' : (inQueue s name = true /\ exists g, best' = Some (i, g)) \/ best' = best).
  { unfold best'. destruct (inQueue s name); simpl; [|by right]. destruct best as [[j g]|]; [|left; eauto].
    destruct (_ <=? g); [left; eauto|by right]. }
  specialize (IH best' (S i)). destruct (nearest_loop name t best' (S i) l) as [j|].
  - destruct IH as [[g Hg]|(k & s' & -> & Hk & Hq)].
    { intros j' g' E. destruct Hb' as [(_ & g & Eg)|Eg]; rewrite Eg in E; [injection E as <- _; lia|].
      specialize (Hb _ _ E). lia. }
    + destruct Hb' as [(Hq & g' & Eg)|Eg]; rewrite Eg in Hg.
      * injection Hg as <- _. right. exists 0%nat, s. split; [lia|done].
      * left. by exists g.
    + right. exists (S k), s'. split; [lia|done].
  - destruct IH as [Hn Hall].
    { intros j' g' E. destruct Hb' as [(_ & g & Eg)|Eg]; rewrite Eg in E; [injection E as <- _; lia|].
      specialize (Hb _ _ E). lia. }
    destruct Hb' as [(_ & g & Eg)|Eg]; [congruence|]. split; [congruence|].
    intros x [->|Hx]%elem_of_cons; [|auto]. unfold best' in Hn. destruct (inQueue s name); [|done].
    simpl in Hn. destruct best as [[j g]|]; [|done]. by destruct (_ <=? g).
Qed.

Lemma sort_stays_sorted l : stays_sorted (sortQueueStays l).
Proof. apply sort_by_sorted. Qed.

Lemma QueueStay_found stays name t : let '(stays', i) := QueueStay stays name t in
  exists j s, i = Some j /\ stays' !! j = Some s /\ inQueue s name = true /\
    (stays' = stays \/ (stays' ≡ₚ mkStay name t 0 0 "" "" None :: stays /\
                        forall s', s' ∈ stays -> inQueue s' name = false)).
Proof.
  unfold QueueStay. set (found := if negb (is_zero t) then _ else _).
  assert (Hf : match found with
    | Some j => exists s, stays !! j = Some s /\ inQueue s name = true
    | None => forall s, s ∈ stays -> inQueue s name = false
    end).
  { unfold found. destruct (negb (is_zero t)).
    - unfold stayIndex. destruct (last_index _ 0 stays) as [j|] eqn:E.
      + apply last_index_Some in E as (k & s & -> & Hk & Hs & _). apply andb_true_iff in Hs as [Hq _].
        by exists s.
      + unfold nearestStayIndex. pose proof (nearest_loop_Some name t None 0 stays ltac:(done)) as H.
        destruct (nearest_loop _ _ _ _ _) as [j|]; [|tauto].
        destruct H as [[g Hg]|(k & s & -> & Hk & Hq)]; [done|]. by exists s.
    - unfold latestStayIndex. destruct (last_index _ 0 stays) as [j|] eqn:E.
      + apply last_index_Some in E as (k & s & -> & Hk & Hs & _). by exists s.
      + by eapply last_index_None. }
  destruct found as [j|].
  - destruct Hf as (s & Hs & Hq). exists j, s. repeat split; try done. by left.
  - set (stays' := sortQueueStays _).
    assert (Hp : stays' ≡ₚ mkStay name t 0 0 "" "" None :: stays).
    { unfold stays', sortQueueStays. rewrite sort_by_perm, Permutation_app_comm. done. }
    destruct (first_index_exists (fun s => String.eqb (QName s) name && (JoinedAt s =? t)) 0 stays') as [j Hj].
    { exists (mkStay name t 0 0 "" "" None). split; [rewrite Hp; set_solver|]. simpl.
      by rewrite String.eqb_refl, Z.eqb_refl. }
    rewrite Hj. apply first_index_Some in Hj as (k & s & -> & Hk & Hs). apply andb_true_iff in Hs as [Hn _].
    exists k, s. split; [done|]. split; [done|]. split; [|right; done].
    unfold inQueue. by rewrite Hn, orb_true_r.
Qed.

Lemma JoinQueue_cases stays name sj at_ :
  JoinQueue stays name sj at_ = stays \/
  JoinQueue stays name sj at_ =
    sortQueueStays (stays ++ [mkStay name (if is_zero sj then at_ else sj) 0 0 "" "" None]).
Proof. unfold JoinQueue. destruct (_ && _); [by left|]. destruct (latestStayIndex _ _); [destruct (_ && _)|]; auto. Qed.

Lemma sort_snoc stays s : stays_sorted stays -> (forall x, x ∈ stays -> JoinedAt x <= JoinedAt s) ->
  sortQueueStays (stays ++ [s]) = stays ++ [s].
Proof.
  intros Hs Hle. apply sort_by_id. induction stays as [|x l IH]; simpl; [repeat constructor|].
  apply StronglySorted_inv in Hs as [Hl Hx]. constructor.
  - apply IH; [done|]. intros y Hy. apply Hle. set_solver.
  - apply list.Forall_app. split; [done|]. apply list.Forall_cons. split; [|constructor].
    unfold key_le. apply Hle. set_solver.
Qed.

(** ** Properties *)

(** the bridges of a leg never overlap: opened and closed at times that do
    not go back, they are stretches in order, each ended no earlier than it
    started and before the next begins, and only the last can still be up,
    however often the switch repeats itself. *)
Theorem bridges_in_order (p : Party) (ops : list bridge_op) (t0 : instant)
    (Hp : bridges_ok (Bridges p) t0) (H0 : 0 < t0)
    (Ho : StronglySorted (fun a b => bridge_at a <= bridge_at b) ops)
    (Ht : forall op, op ∈ ops -> t0 <= bridge_at op) :
  exists t, bridges_ok (Bridges (fold_left do_bridge ops p)) t.
Proof.
  revert p t0 Hp H0 Ht. induction Ho as [|op ops Hs IH Hf]; intros p t0 Hp H0 Ht; simpl; [by exists t0|].
  rewrite list.Forall_forall in Hf.
  assert (t0 <= bridge_at op) by (apply Ht; set_solver).
  apply (IH (do_bridge p op) (bridge_at op)); [|lia|done].
  apply (do_bridge_ok p op t0); [done|done|lia].
Qed.

(** talk time counts every moment once. [BridgedSec] is the total length
    of a list of separate stretches that covers exactly the moments at which
    some of the legs was in two-way media, stretches still up ending with the
    call; in seconds as Go's [Duration.Seconds] gives them. *)
Theorem BridgedSec_union (parties : list Party) (endedAt : instant) :
  exists m, StronglySorted (fun a b => Schedule.to a < Schedule.from b) m /\ Schedule.valid_spans m /\
    (forall t, Schedule.covered m t <-> talking_at parties endedAt t) /\
    BridgedSec parties endedAt = match m with [] => 0 | _ => intSeconds (span_sum m) end.
Proof.
  exists (Schedule.merge (bridge_spans parties endedAt)).
  destruct (Schedule.merge_separated _ (bridge_spans_valid parties endedAt)) as [Hs Hv].
  split; [done|]. split; [done|]. split.
  { intros t. by rewrite Schedule.merge_covered, bridge_spans_covered. }
  unfold BridgedSec. rewrite bridged_total_merge. unfold Schedule.merge.
  pose proof (sort_by_perm Schedule.from (bridge_spans parties endedAt)) as Hp.
  destruct (bridge_spans parties endedAt) as [|s l]; [done|].
  destruct (sort_by Schedule.from (s :: l)) as [|s' l'] eqn:E.
  { apply Permutation_nil_l in Hp. done. }
  clear. revert s'. induction l' as [|x l' IH]; intros s'; simpl; [done|]. destruct (_ <=? _); [apply IH|done].
Qed.

(** what a patch does to a call's business data, key by key: a null
    removes the key, a value over 1024 bytes (or that has no encoding) changes
    nothing, a key already carried is replaced, and a new key comes in unless
    the bound dropped it; a key the patch does not name is never touched. The
    call never carries more than 32 keys, and everything refused is
    reported. *)
Theorem MergeUserData_spec (data patch : gmap string Value) (k : string)
    (Hsize : Z.of_nat (size data) <= UserDataMaxKeys) :
  let '(data', plan) := MergeUserData data patch in
  Z.of_nat (size data') <= UserDataMaxKeys /\
  (patch !! k = None -> data' !! k = data !! k) /\
  (patch !! k = Some VNil -> data' !! k = None) /\
  (forall v, patch !! k = Some v -> v <> VNil ->
     (too_big v = true -> data' !! k = data !! k /\ k ∈ Dropped plan) /\
     (too_big v = false -> is_Some (data !! k) -> data' !! k = Some v) /\
     (too_big v = false -> data !! k = None ->
        (data' !! k = Some v /\ k ∈ Changed plan) \/ (data' !! k = None /\ k ∈ Dropped plan))).
Proof.
  pose proof (merge_size data patch Hsize) as Hs. pose proof (merge_lookup data patch k) as Hl.
  destruct (MergeUserData data patch) as [data' plan] eqn:E. simpl in Hs.
  assert (plan = planUserDataMerge data patch) as -> by (unfold MergeUserData in E; by injection E as _ <-).
  destruct (plan_elem data patch k) as (Hdel & Hch & Hdr & Hskip). split; [done|]. split; [|split].
  - intros Hn. rewrite Hl. rewrite decide_False by (intros Hc; apply Hch in Hc as (v & Hp & _); congruence).
    rewrite decide_False by (intros Hd; apply Hdel in Hd as [Hp _]; congruence). done.
  - intros Hn. rewrite Hl. rewrite decide_False by (intros Hc; apply Hch in Hc as (v & Hp & Hv & _); congruence).
    destruct (decide (k ∈ Deleted (planUserDataMerge data patch))) as [|Hd]; [done|].
    destruct (data !! k) eqn:Ek; [|done].
    exfalso. apply Hd, Hdel. split; [done|by eexists].
  - intros v Hp Hv.
    assert (Hnd : k ∉ Deleted (planUserDataMerge data patch)) by (intros Hd; apply Hdel in Hd as [Hx _]; congruence).
    rewrite Hl, Hp. change (default VNil (Some v)) with v.
    rewrite (decide_False _ (data !! k)) by exact Hnd. split; [|split].
    + intros Hb. rewrite decide_False by (intros Hc; apply Hch in Hc as (v' & Hp' & _ & Hb'); congruence).
      split; [done|]. apply elem_of_sort_strings, elem_of_app. left. apply elem_of_judged_map.
      exists v. split; [done|]. unfold judge. rewrite Hb. by destruct v.
    + intros Hb [old Hold]. destruct (decide (k ∈ Changed (planUserDataMerge data patch))) as [|Hc]; [done|]. apply Hskip; [done|done|done|].
      intros Hd. apply Hdr in Hd as (v' & Hp' & _ & [Hb'|Hn]); congruence.
    + intros Hb Hn. destruct (decide (k ∈ Changed (planUserDataMerge data patch))) as [Hc|Hc]; [by left|]. right. split; [done|].
      destruct (decide (k ∈ Dropped (planUserDataMerge data patch))) as [|Hd]; [done|].
      by rewrite (Hskip v Hp Hv Hc Hd) in Hn.
Qed.

(** the outcome of a patch does not depend on the order its map is ranged
    over: the same keys survive the bound, and the same are reported, on every
    run. *)
Theorem plan_order_irrelevant (data patch : gmap string Value) (entries : list (string * Value))
    (H : entries ≡ₚ map_to_list patch) : plan_entries data entries = planUserDataMerge data patch.
Proof. by apply plan_order. Qed.

(** an event about a queue always finds its stay: [QueueStay] answers a
    stay of that queue, opening one only when the call has none in it (never
    the nil the code calls unreachable); and an event carrying the join of a
    stay lands on that stay, however many others the queue has had. *)
Theorem QueueStay_identity (stays : list QueueFacts) (name : string) (t : instant) :
  (let '(stays', i) := QueueStay stays name t in
   exists j s, i = Some j /\ stays' !! j = Some s /\ inQueue s name = true /\
     (stays' = stays \/ (stays' ≡ₚ mkStay name t 0 0 "" "" None :: stays /\
                         forall s', s' ∈ stays -> inQueue s' name = false))) /\
  (forall j s, t <> 0 -> stays !! j = Some s -> inQueue s name = true -> sameJoin (JoinedAt s) t = true ->
     (forall j' s', j' <> j -> stays !! j' = Some s' -> inQueue s' name = true ->
        sameJoin (JoinedAt s') t = false) ->
     QueueStay stays name t = (stays, Some j)).
Proof.
  split; [apply QueueStay_found|]. intros j s Ht Hj Hq Hs Huniq. unfold QueueStay.
  unfold is_zero. rewrite (proj2 (Z.eqb_neq t 0) Ht). simpl.
  unfold stayIndex. rewrite (last_index_at _ 0 stays j s Hj); [done| |].
  - by rewrite Hq, Hs.
  - intros k' s' Hlt Hk'. destruct (inQueue s' name) eqn:Hq'; [|done]. simpl. apply (Huniq k'); [lia|done|done].
Qed.

(** a join announced twice is one stay. Repeating a join changes nothing,
    when the switch gave its own second or the announcement is the latest
    thing known; a join of a queue whose latest stay was bridged or left opens
    a new stay; and the stays remain in the order they were joined. *)
Theorem JoinQueue_once (stays : list QueueFacts) (name : string) (sj at_ : instant)
    (Hs : stays_sorted stays)
    (Hlate : sj = 0 -> at_ <> 0 /\ forall x, x ∈ stays -> JoinedAt x <= at_) :
  let stays' := JoinQueue stays name sj at_ in
  stays_sorted stays' /\ JoinQueue stays' name sj at_ = stays' /\
  (forall i s, latestStayIndex stays name = Some i -> stays !! i = Some s ->
     BridgedAt s <> 0 \/ LeftAt s <> 0 ->
     (sj <> 0 -> stayIndex stays name sj = None) ->
     length stays' = S (length stays)).
Proof.
  intros stays'. split; [|split].
  - unfold stays'. destruct (JoinQueue_cases stays name sj at_) as [->| ->]; [done|apply sort_stays_sorted].
  - unfold stays'. destruct (JoinQueue_cases stays name sj at_) as [E|E]; rewrite E; [done|].
    unfold is_zero in *. destruct (Z.eqb_spec sj 0) as [->|Hsj].
    + destruct (Hlate eq_refl) as [Hat Hle]. rewrite sort_snoc by done.
      set (new := mkStay name at_ 0 0 "" "" None). unfold JoinQueue. simpl. unfold latestStayIndex.
      rewrite (last_index_at _ 0 (stays ++ [new]) (length stays) new).
      * simpl. rewrite app_nth2, Nat.sub_diag by lia. done.
      * rewrite lookup_app_r, Nat.sub_diag by lia. done.
      * unfold inQueue. simpl. by rewrite String.eqb_refl, orb_true_r.
      * intros k' s' Hlt Hk'. apply lookup_lt_Some in Hk'. rewrite length_app in Hk'. simpl in Hk'. lia.
    + unfold JoinQueue. unfold is_zero. rewrite (proj2 (Z.eqb_neq sj 0) Hsj). simpl.
      rewrite bool_decide_eq_true_2; [done|]. unfold stayIndex.
      destruct (last_index _ 0 _) eqn:Ei; [by eexists|].
      eapply last_index_None with (s := mkStay name sj 0 0 "" "" None) in Ei.
      * unfold inQueue, sameJoin in Ei. simpl in Ei. by rewrite String.eqb_refl, orb_true_r, Z.sub_diag in Ei.
      * unfold sortQueueStays. rewrite sort_by_perm. set_solver.
  - intros i s Hi Hlk Hbl Hno. unfold stays', JoinQueue. unfold is_zero at 1.
    assert (Hf : negb (sj =? 0) && bool_decide (is_Some (stayIndex stays name sj)) = false).
    { destruct (Z.eqb_spec sj 0); simpl; [done|]. rewrite Hno by done. done. }
    rewrite Hf, Hi, (nth_lookup_Some _ _ _ _ Hlk).
    assert (Hw : is_zero (BridgedAt s) && is_zero (LeftAt s) = false).
    { unfold is_zero. destruct (Z.eqb_spec (BridgedAt s) 0), (Z.eqb_spec (LeftAt s) 0); simpl; (done || lia). }
    rewrite Hw. unfold sortQueueStays. rewrite length_sort_by, length_app. simpl. lia.
Qed.

(** one transfer of a leg on its way at a time. Once claimed, a leg refuses
    a second claim until a minute has passed, whatever token asks to keep or
    release it and whatever happens to other legs; its own token, or an event
    that moved it, frees it at once; and a claim that lapsed and was taken over
    is out of reach of the first one's token. *)
Theorem transfer_exclusive (c c1 : Call) (tokens tok : Z) (ch : string) (now now' : instant)
    (Hnow : now <= now') (Htok : 0 <= tokens < 2 ^ 64 - 2) (Hch : ch <> EmptyString)
    (H : claimTransfer c tokens ch now = (c1, tok, Some tok)) :
  (now' < now + transferInFlightFor ->
     claimTransfer c1 tok ch now' = (c1, tok, None) /\
     forall tok' ch', (tok' <> tok \/ ch' <> ch) ->
       claimTransfer (releaseTransfer c1 ch' tok') tok ch now'
         = (releaseTransfer c1 ch' tok', tok, None)) /\
  is_Some (claimTransfer (releaseTransfer c1 ch tok) tok ch now').2 /\
  is_Some (claimTransfer (settleTransfers c1 KindChannelHangup [ch]) tok ch now').2 /\
  (now + transferInFlightFor <= now' -> exists c2 tok2,
     claimTransfer c1 tok ch now' = (c2, tok2, Some tok2) /\ releaseTransfer c2 ch tok = c2 /\
     keepTransfer c2 ch tok now' = (c2, false)).
Proof.
  unfold claimTransfer in H. destruct (match transfers c !! ch with Some h => _ | None => false end); [done|].
  injection H as <- <-. set (t := wrapU 64 (tokens + 1)).
  assert (Et : t = tokens + 1) by (apply wrapU_id; lia).
  set (c1 := with_transfers c _).
  assert (Hl : transfers c1 !! ch = Some (mkClaim t (now + transferInFlightFor))) by apply lookup_insert_eq.
  assert (Hfree : forall u k, transfers u !! ch = None -> is_Some (claimTransfer u k ch now').2).
  { intros u k Hu. unfold claimTransfer. rewrite Hu. by eexists. }
  assert (Hbusy : forall u, transfers u !! ch = transfers c1 !! ch -> now' < now + transferInFlightFor ->
    claimTransfer u t ch now' = (u, t, None)).
  { intros u Hu Hlt. unfold claimTransfer. rewrite Hu, Hl. simpl.
    by rewrite (proj2 (Z.ltb_lt now' _) Hlt). }
  split; [|split; [|split]].
  - intros Hlt. split; [by apply Hbusy|]. intros tok' ch' Hne. apply Hbusy; [|done].
    unfold releaseTransfer. destruct (transfers c1 !! ch') as [h|] eqn:E; [|done].
    destruct (Z.eqb_spec (token h) tok') as [Eq|]; [|done]. cbn [transfers with_transfers].
    rewrite lookup_delete_ne; [done|]. intros ->. rewrite Hl in E. injection E as <-. simpl in Eq.
    destruct Hne as [Hne|Hne]; congruence.
  - apply Hfree. unfold releaseTransfer. rewrite Hl. simpl token. rewrite Z.eqb_refl.
    cbn [transfers with_transfers]. apply lookup_delete_eq.
  - apply Hfree. simpl. rewrite (proj2 (String.eqb_neq ch "") Hch). apply lookup_delete_eq.
  - intros Hge. unfold claimTransfer. rewrite Hl. simpl until. rewrite (proj2 (Z.ltb_ge now' _) Hge).
    assert (Et2 : wrapU 64 (t + 1) = t + 1) by (apply wrapU_id; lia).
    eexists _, _. split; [reflexivity|]. unfold releaseTransfer, keepTransfer. cbn [transfers with_transfers].
    rewrite lookup_insert_eq. simpl token. rewrite Et2, (proj2 (Z.eqb_neq (t + 1) t)) by lia. done.
Qed.

(** *** Examples *)

Definition agent_leg : Party :=
  mkParty 5 "ch-1" RoleTarget PartyRinging "1001" "" None "1001" 1 0 0 "" false [] 0 false.

Lemma bridges_in_order_witness :
  exists t, bridges_ok (Bridges (fold_left do_bridge [BOpen "ch-2" 5; BOpen "ch-2" 6; BClose 9; BOpen "ch-3" 9] agent_leg)) t.
Proof.
  apply (bridges_in_order agent_leg _ 1).
  - constructor.
  - lia.
  - repeat (constructor; simpl); lia.
  - intros op Hop. repeat (apply elem_of_cons in Hop as [->|Hop]; [simpl; lia|]). by apply elem_of_nil in Hop.
Defined.

Lemma MergeUserData_spec_witness :
  let data := <["ticketId"%string := VStr "T-1"]> (∅ : gmap string Value) in
  let patch := <["ticketId"%string := VStr "T-2"]> (∅ : gmap string Value) in
  (MergeUserData data patch).1 !! "ticketId"%string = Some (VStr "T-2").
Proof.
  intros data patch.
  pose proof (MergeUserData_spec data patch "ticketId") as H. destruct (MergeUserData data patch) as [d' plan].
  assert (Hs : Z.of_nat (size data) <= UserDataMaxKeys) by (vm_compute; discriminate).
  destruct (H Hs) as (_ & _ & _ & Hv).
  destruct (Hv (VStr "T-2") eq_refl ltac:(discriminate)) as (_ & Hrep & _). apply Hrep; [reflexivity|].
  exists (VStr "T-1"). reflexivity.
Defined.

Lemma plan_order_irrelevant_witness :
  let patch := <["a"%string := VNil]> (<["b"%string := VStr "x"]> (∅ : gmap string Value)) in
  plan_entries ∅ (reverse (map_to_list patch)) = planUserDataMerge ∅ patch.
Proof. intros patch. apply (plan_order_irrelevant ∅ patch). by rewrite reverse_Permutation. Defined.

Definition two_stays : list QueueFacts :=
  [mkStay "sales" (100 * second) (110 * second) 0 "" "" None; mkStay "sales" (200 * second) 0 0 "" "" None].

Lemma QueueStay_identity_witness : QueueStay two_stays "sales" (101 * second) = (two_stays, Some 0%nat).
Proof.
  pose proof (QueueStay_identity two_stays "sales" (101 * second)) as [_ H].
  apply (H 0%nat (mkStay "sales" (100 * second) (110 * second) 0 "" "" None)).
  - vm_compute. discriminate.
  - reflexivity.
  - reflexivity.
  - vm_compute. reflexivity.
  - intros j' s' Hj Hs _. destruct j' as [|[|j']]; [done| |done]. injection Hs as <-. vm_compute. reflexivity.
Defined.

Lemma JoinQueue_once_witness :
  let s1 := JoinQueue two_stays "sales" 0 (300 * second) in
  stays_sorted s1 /\ JoinQueue s1 "sales" 0 (300 * second) = s1.
Proof.
  assert (Hs : stays_sorted two_stays).
  { repeat (constructor; unfold key_le; simpl); unfold second; lia. }
  assert (Hl : 0 = 0 -> 300 * second <> 0 /\ forall x, x ∈ two_stays -> JoinedAt x <= 300 * second).
  { intros _. split; [unfold second; lia|]. intros x Hx. unfold two_stays in Hx.
    repeat (apply elem_of_cons in Hx as [->|Hx]; [simpl; unfold second; lia|]). by apply elem_of_nil in Hx. }
  destruct (JoinQueue_once two_stays "sales" 0 (300 * second) Hs Hl) as (H1 & H2 & _). exact (conj H1 H2).
Defined.

Lemma transfer_exclusive_witness :
  let '(c1, tok, _) := claimTransfer (NewCall 9 1) 41 "ch-1" 1000 in
  claimTransfer c1 tok "ch-1" 2000 = (c1, tok, None) /\
  is_Some (claimTransfer (releaseTransfer c1 "ch-1" tok) tok "ch-1" 2000).2.
Proof.
  destruct (claimTransfer (NewCall 9 1) 41 "ch-1" 1000) as [[c1 tok] o] eqn:H.
  assert (Ho : o = Some tok) by (vm_compute in H; congruence). subst o.
  destruct (transfer_exclusive (NewCall 9 1) c1 41 tok "ch-1" 1000 2000) as (H1 & H2 & _);
    [lia|lia|discriminate|exact H|]. split; [|exact H2]. apply H1. vm_compute. reflexivity.
Defined.

End Call.
