(* ===== verification/BotSlots.v ===== *)
(** * Bot slots: [internal/voice/slots.go] and the admission in [internal/voice/uas.go]

    The one bot-capacity number, shared by inbound and outbound calls, and the
    threads that use it: the SIP read loop, which turns an INVITE into a slot
    in use; the answered outbound legs parked in [ReserveWait]; the timers that
    end a reservation; and the calls that end.

    Each operation is what its method does under the counter's lock. A pointer
    to a reservation is the number of the timer that was started with it, so
    that "is it still this reservation" ([b.reserved[key] != r]) is a
    comparison of numbers. A closed channel is a number below the current one
    ([wakeLocked] closes the current and makes the next). The gauges of
    [internal/obs] and the log are left out. *)

From S2P Require Import Prelude Calendar.

Module BotSlots.

(** ** The counter *)

(** [internal/voice/slots.go:BotSlotsConfig] *)
Record BotSlotsConfig := mkConfig { Cap : Z; InboundReserve : Z; ReservationTTL : duration }.

(** [internal/voice/slots.go:SlotStats] *)
Record SlotStats := mkStats { Made : Z; Consumed : Z; Released : Z; Expired : Z }.

(** [internal/voice/slots.go:BotSlots] [signals] counts the calls of
    [onFree]. *)
Record BotSlots := mkSlots {
  cfg : BotSlotsConfig;
  inUse : Z;
  reserved : gmap string N;
  withdrawn : gmap string instant;
  waiting : Z;
  changed : N;
  stats : SlotStats;
  onFree : bool;
  signals : Z
}.

(** [internal/voice/slots.go:SlotClock] The timers of the runtime: [timers]
    have not fired, each with its deadline; the function of those in [firing]
    is running and waits for the counter's lock. *)
Record Clock := mkClock {
  now : instant;
  timers : gmap N (instant * string);
  firing : gmap N string;
  fresh : N
}.

(** [internal/voice/slots.go:realClock.AfterFunc] starts a timer that will run
    the expiry of [key]. *)
Definition AfterFunc (c : Clock) (d : duration) (key : string) : Clock * N :=
  (mkClock (now c) (<[fresh c := (now c + d, key)]> (timers c)) (firing c) (fresh c + 1)%N, fresh c).

(** Stopping a timer that already fired does nothing. *)
Definition stop (c : Clock) (r : N) : Clock :=
  mkClock (now c) (delete r (timers c)) (firing c) (fresh c).

Definition with_inUse (b : BotSlots) (n : Z) : BotSlots :=
  mkSlots (cfg b) n (reserved b) (withdrawn b) (waiting b) (changed b) (stats b) (onFree b) (signals b).

Definition with_reserved (b : BotSlots) (m : gmap string N) (st : SlotStats) : BotSlots :=
  mkSlots (cfg b) (inUse b) m (withdrawn b) (waiting b) (changed b) st (onFree b) (signals b).

Definition with_withdrawn (b : BotSlots) (m : gmap string instant) : BotSlots :=
  mkSlots (cfg b) (inUse b) (reserved b) m (waiting b) (changed b) (stats b) (onFree b) (signals b).

Definition with_waiting (b : BotSlots) (n : Z) : BotSlots :=
  mkSlots (cfg b) (inUse b) (reserved b) (withdrawn b) n (changed b) (stats b) (onFree b) (signals b).

(** [internal/voice/slots.go:DefaultReservationTTL] *)
Definition DefaultReservationTTL : duration := 10 * second.

(** What [NewBotSlots] refuses. *)
Inductive ConfigError := CapacityTooSmall | ReserveOutOfRange.

(** [internal/voice/slots.go:NewBotSlots] *)
Definition NewBotSlots (c : BotSlotsConfig) : res ConfigError BotSlots :=
  guard_res (Cap c <? 1) CapacityTooSmall
    (guard_res ((InboundReserve c <? 0) || (Cap c <=? InboundReserve c)) ReserveOutOfRange
       (let c := if ReservationTTL c <=? 0 then mkConfig (Cap c) (InboundReserve c) DefaultReservationTTL else c in
        Ok (mkSlots c 0 ∅ ∅ 0 0%N (mkStats 0 0 0 0) false 0))).

(** [b.inUse + len(b.reserved)], the slots taken. *)
Definition taken (b : BotSlots) : Z := inUse b + Z.of_nat (size (reserved b)).

(** [internal/voice/slots.go:BotSlots.wakeLocked] *)
Definition wakeLocked (b : BotSlots) : BotSlots :=
  mkSlots (cfg b) (inUse b) (reserved b) (withdrawn b) (waiting b) (changed b + 1)%N (stats b) (onFree b)
    (signals b + Z.b2z (onFree b)).

(** [internal/voice/slots.go:BotSlots.TryAcquire] *)
Definition TryAcquire (b : BotSlots) : BotSlots * bool :=
  if Cap (cfg b) <=? taken b then (b, false) else (with_inUse b (inUse b + 1), true).

(** [internal/voice/slots.go:BotSlots.Free] *)
Definition Free (b : BotSlots) : BotSlots :=
  if inUse b =? 0 then b else wakeLocked (with_inUse b (inUse b - 1)).

(** [internal/voice/slots.go:BotSlots.Consume] *)
Definition Consume (b : BotSlots) (c : Clock) (key : string) : BotSlots * Clock * bool :=
  match reserved b !! key with
  | None => (b, c, false)
  | Some r =>
      let st := stats b in
      (with_inUse (with_reserved b (delete key (reserved b))
                     (mkStats (Made st) (Consumed st + 1) (Released st) (Expired st))) (inUse b + 1),
       stop c r, true)
  end.

(** [internal/voice/slots.go:BotSlots.Release] *)
Definition Release (b : BotSlots) (c : Clock) (key : string) : BotSlots * Clock :=
  match reserved b !! key with
  | None => (b, c)
  | Some r =>
      let st := stats b in
      (wakeLocked (with_reserved b (delete key (reserved b))
                     (mkStats (Made st) (Consumed st) (Released st + 1) (Expired st))),
       stop c r)
  end.

(** [internal/voice/slots.go:BotSlots.Keep] *)
Definition Keep (b : BotSlots) (c : Clock) (key : string) (d : duration) : BotSlots * Clock * bool :=
  let d := if d <=? 0 then ReservationTTL (cfg b) else d in
  match reserved b !! key with
  | None => (b, c, false)
  | Some old =>
      let '(c, r) := AfterFunc (stop c old) d key in
      (with_reserved b (<[key := r]> (reserved b)) (stats b), c, true)
  end.

(** [internal/voice/slots.go:const(withdrawnFor)] *)
Definition withdrawnFor : duration := 10 * minute.
(** [internal/voice/slots.go:const(withdrawnMax)] *)
Definition withdrawnMax : nat := 4096%nat.

(** The order each pass of the eviction ranges over the map in, which the
    language leaves open. *)
Definition Order := nat -> gmap string instant -> list (string * instant).

Definition order_ok (order : Order) : Prop := forall i m, order i m ≡ₚ map_to_list m.

(** [internal/voice/slots.go:L233-L237] the loop body that looks for the
    oldest entry: the last one ranged over among the oldest. *)
Definition older (best : string * instant) (kv : string * instant) : string * instant :=
  if best.2 <? kv.2 then best else kv.
Definition oldest (at' : instant) (l : list (string * instant)) : string :=
  (fold_left older l ("", at')).1.

(** [internal/voice/slots.go:L231-L239] the eviction, at most [fuel] passes;
    [None] is a loop that goes on. *)
Fixpoint evict (fuel : nat) (order : Order) (at' : instant) (m : gmap string instant) : option (gmap string instant) :=
  if (size m <? withdrawnMax)%nat then Some m
  else match fuel with
       | O => None
       | S fuel' => evict fuel' order at' (delete (oldest at' (order fuel' m)) m)
       end.

(** [internal/voice/slots.go:BotSlots.Withdraw] *)
Definition Withdraw (b : BotSlots) (c : Clock) (key : string) (order : Order) : option (BotSlots * Clock * bool) :=
  let m := filter (fun kv => negb (withdrawnFor <=? Calendar.Sub (now c) kv.2) = true) (withdrawn b) in
  m ← evict (size m) order (now c) m;
  let b := with_withdrawn b (<[key := now c]> m) in
  match reserved b !! key with
  | None => Some (b, c, false)
  | Some _ => let '(b, c) := Release b c key in Some (b, c, true)
  end.

(** [internal/voice/slots.go:BotSlots.IsWithdrawn] *)
Definition IsWithdrawn (b : BotSlots) (c : Clock) (key : string) : bool :=
  match withdrawn b !! key with
  | Some t => Calendar.Sub (now c) t <? withdrawnFor
  | None => false
  end.

(** [internal/voice/slots.go:BotSlots.reserveLocked] *)
Definition reserveLocked (b : BotSlots) (c : Clock) (key : string) : BotSlots * Clock * bool :=
  match reserved b !! key with
  | Some _ => (b, c, true)
  | None =>
      if Cap (cfg b) - InboundReserve (cfg b) <=? taken b then (b, c, false)
      else
        let '(c, r) := AfterFunc c (ReservationTTL (cfg b)) key in
        let st := stats b in
        (with_reserved b (<[key := r]> (reserved b)) (mkStats (Made st + 1) (Consumed st) (Released st) (Expired st)),
         c, true)
  end.

(** [internal/voice/slots.go:BotSlots.Reserve] *)
Definition Reserve := reserveLocked.

(** [internal/voice/slots.go:BotSlots.expire] *)
Definition expire (b : BotSlots) (key : string) (r : N) : BotSlots :=
  if decide (reserved b !! key = Some r) then
    let st := stats b in
    wakeLocked (with_reserved b (delete key (reserved b))
                  (mkStats (Made st) (Consumed st) (Released st) (Expired st + 1)))
  else b.

(** [internal/voice/slots.go:Usage] *)
Record Usage := mkUsage { UInUse : Z; UReserved : Z; UWaiting : Z; UCap : Z; UInboundReserve : Z }.

(** [internal/voice/slots.go:BotSlots.Usage] *)
Definition UsageOf (b : BotSlots) : Usage :=
  mkUsage (inUse b) (Z.of_nat (size (reserved b))) (waiting b) (Cap (cfg b)) (InboundReserve (cfg b)).

(** ** The threads around it

    [ReserveWait] is a thread of its own, with one step per stretch between
    two acquisitions of the lock; what it reads of the clock is read in the
    step it follows. *)

(** [internal/voice/slots.go:BotSlots.ReserveWait] where a parked leg stands:
    about to count itself, about to start its timer, about to try, in the
    [select] on channel [ch], about to leave with its result, returned. *)
Inductive WaitPc :=
| WEntering
| WStarting
| WTrying (start deadline : instant)
| WParked (start deadline : instant) (ch : N)
| WLeaving (ok : bool) (waited : duration)
| WReturned (ok : bool) (waited : duration).

Record Waiter := mkWaiter { wkey : string; whold : duration; wpc : WaitPc }.

(** [internal/voice/uas.go:L660-L701] where the read loop stands with an
    INVITE that is no retransmission: about to ask [IsWithdrawn], about to
    [Consume], about to [TryAcquire], holding a slot (one that was reserved
    or not) and setting the dialog up. *)
Inductive UasPc :=
| UIdle
| UArrived (sid key : string)
| UConsuming (sid key : string)
| UAcquiring (sid : string)
| UHolding (sid : string) (wasReserved : bool).

(** The answers of the admission. *)
Inductive Answer := AnsUnavailable | AnsBusy | AnsRefused | AnsAccepted | AnsAgain.

(** [dialogs] are the calls that are up, each with whether its slot was a
    reserved one; [freeing] the calls taken out of [u.dialogs] whose [Free] is
    still to come; [hung] says an eviction never ended. *)
Record World := mkWorld {
  slots : BotSlots;
  clock : Clock;
  waiters : gmap nat Waiter;
  uas : UasPc;
  dialogs : gmap string bool;
  freeing : list bool;
  isRunning : bool;
  answers : list (string * Answer);
  hung : bool
}.

Definition with_slots (w : World) (b : BotSlots) (c : Clock) : World :=
  mkWorld b c (waiters w) (uas w) (dialogs w) (freeing w) (isRunning w) (answers w) (hung w).

Definition with_waiter (w : World) (i : nat) (x : Waiter) (pc : WaitPc) : World :=
  mkWorld (slots w) (clock w) (<[i := mkWaiter (wkey x) (whold x) pc]> (waiters w)) (uas w) (dialogs w) (freeing w)
    (isRunning w) (answers w) (hung w).

Definition with_uas (w : World) (u : UasPc) (ans : list (string * Answer)) : World :=
  mkWorld (slots w) (clock w) (waiters w) u (dialogs w) (freeing w) (isRunning w) (answers w ++ ans) (hung w).

Definition with_dialogs (w : World) (d : gmap string bool) (f : list bool) : World :=
  mkWorld (slots w) (clock w) (waiters w) (uas w) d f (isRunning w) (answers w) (hung w).

(** [internal/voice/slots.go:BotSlots.ReserveWait] the call and its first
    attempt. *)
Definition wait_call (w : World) (i : nat) (key : string) (hold : duration) : World :=
  let '(b, c, ok) := Reserve (slots w) (clock w) key in
  let pc := if ok then WReturned true 0 else if hold <=? 0 then WReturned false 0 else WEntering in
  with_waiter (with_slots w b c) i (mkWaiter key hold pc) pc.

(** [internal/voice/slots.go:BotSlots.ReserveWait] the next step of a waiter
    that is not in its [select]: counting itself, starting its timer, an
    attempt under the lock (on failure it takes the channel of that moment),
    and the deferred uncounting. *)
Definition wait_step (w : World) (i : nat) (x : Waiter) : World :=
  let b := slots w in
  match wpc x with
  | WEntering => with_waiter (with_slots w (with_waiting b (waiting b + 1)) (clock w)) i x WStarting
  | WStarting => with_waiter w i x (WTrying (now (clock w)) (now (clock w) + whold x))
  | WTrying start deadline =>
      let '(b', c, ok) := reserveLocked b (clock w) (wkey x) in
      with_waiter (with_slots w b' c) i x
        (if ok then WLeaving true (now (clock w) - start) else WParked start deadline (changed b))
  | WLeaving ok waited => with_waiter (with_slots w (with_waiting b (waiting b - 1)) (clock w)) i x (WReturned ok waited)
  | WParked _ _ _ | WReturned _ _ => w
  end.

(** What can end a [select]: the channel was closed, the hold is over, the
    customer hung up. *)
Inductive Wake := WokenByChange | TimedOut | Cancelled.

(** [internal/voice/slots.go:BotSlots.ReserveWait] the [select]. *)
Definition wait_select (w : World) (i : nat) (x : Waiter) (k : Wake) : World :=
  match wpc x with
  | WParked start deadline ch =>
      match k with
      | WokenByChange => if (ch <? changed (slots w))%N then with_waiter w i x (WTrying start deadline) else w
      | TimedOut =>
          if deadline <=? now (clock w) then
            let '(b, c, ok) := Reserve (slots w) (clock w) (wkey x) in
            with_waiter (with_slots w b c) i x (WLeaving ok (now (clock w) - start))
          else w
      | Cancelled => with_waiter w i x (WLeaving false (now (clock w) - start))
      end
  | _ => w
  end.

(** [internal/voice/uas.go:UAS.handleInvite] up to the slot. A retransmission
    is answered from the dialog it belongs to and touches no slot. *)
Definition invite (w : World) (sid key : string) : World :=
  match uas w with
  | UIdle =>
      if negb (isRunning w) then w
      else match dialogs w !! sid with
           | Some _ => with_uas w UIdle [(sid, AnsAgain)]
           | None => with_uas w (if String.eqb key "" then UAcquiring sid else UArrived sid key) []
           end
  | _ => w
  end.

(** [internal/voice/uas.go:L666-L690] the [switch] that decides the slot, one
    case at a time, each under the counter's lock of its own. *)
Definition admit_step (w : World) : World :=
  match uas w with
  | UArrived sid key =>
      if IsWithdrawn (slots w) (clock w) key then with_uas w UIdle [(sid, AnsUnavailable)]
      else with_uas w (UConsuming sid key) []
  | UConsuming sid key =>
      let '(b, c, ok) := Consume (slots w) (clock w) key in
      with_uas (with_slots w b c) (if ok then UHolding sid true else UAcquiring sid) []
  | UAcquiring sid =>
      let '(b, ok) := TryAcquire (slots w) in
      if ok then with_uas (with_slots w b (clock w)) (UHolding sid false) []
      else with_uas w UIdle [(sid, AnsBusy)]
  | UIdle | UHolding _ _ => w
  end.

(** [internal/voice/uas.go:L691-L795] the rest of [handleInvite]: the dialog
    is entered, or the deferred call gives the slot back; [ok] is whether the
    offer, the codec, the address and the port were all there. *)
Definition setup (w : World) (ok : bool) : World :=
  match uas w with
  | UHolding sid r =>
      if ok then with_uas (with_dialogs w (<[sid := r]> (dialogs w)) (freeing w)) UIdle [(sid, AnsAccepted)]
      else with_uas (with_slots w (Free (slots w)) (clock w)) UIdle [(sid, AnsRefused)]
  | _ => w
  end.

(** [internal/voice/uas.go:UAS.endCall] *)
Definition endCall (w : World) (sid : string) : World :=
  match dialogs w !! sid with
  | None => w
  | Some r => with_dialogs w (delete sid (dialogs w)) (r :: freeing w)
  end.

(** [internal/voice/uas.go:UAS.cleanup] the same, for a call that never
    started. *)
Definition cleanup (w : World) (sid : string) : World :=
  match dialogs w !! sid with
  | None => w
  | Some r => with_dialogs w (delete sid (dialogs w)) (r :: freeing w)
  end.

(** The [Free] of [endCall] or [cleanup], for the [n]-th call that waits for
    it. *)
Definition free_pending (w : World) (n : nat) : World :=
  match freeing w !! n with
  | None => w
  | Some _ => with_dialogs (with_slots w (Free (slots w)) (clock w)) (dialogs w) (delete n (freeing w))
  end.

(** [internal/voice/uas.go:UAS.Stop] *)
Definition Stop (w : World) : World :=
  mkWorld (Nat.iter (size (dialogs w)) Free (slots w)) (clock w) (waiters w) (uas w) ∅ (freeing w) false
    (answers w) (hung w).

(** A timer whose deadline has come runs its function, *)
Definition fire (w : World) (r : N) : World :=
  let c := clock w in
  match timers c !! r with
  | Some (deadline, key) =>
      if deadline <=? now c then
        with_slots w (slots w) (mkClock (now c) (delete r (timers c)) (<[r := key]> (firing c)) (fresh c))
      else w
  | None => w
  end.

(** which gets the lock. *)
Definition run_expire (w : World) (r : N) : World :=
  let c := clock w in
  match firing c !! r with
  | Some key => with_slots w (expire (slots w) key r) (mkClock (now c) (timers c) (delete r (firing c)) (fresh c))
  | None => w
  end.

Definition set_hung (w : World) : World :=
  mkWorld (slots w) (clock w) (waiters w) (uas w) (dialogs w) (freeing w) (isRunning w) (answers w) true.

Inductive Op :=
| OTick (d : duration)
| OFire (r : N)
| OExpire (r : N)
| OReserve (key : string)
| ORelease (key : string)
| OKeep (key : string) (d : duration)
| OWithdraw (key : string) (order : Order)
| OWait (i : nat) (key : string) (hold : duration)
| OWaitStep (i : nat)
| OSelect (i : nat) (k : Wake)
| OInvite (sid key : string)
| OAdmit
| OSetup (ok : bool)
| OEndCall (sid : string)
| OCleanup (sid : string)
| OFree (n : nat)
| OStop.

Definition exec_op (w : World) (o : Op) : World :=
  let b := slots w in
  let c := clock w in
  match o with
  | OTick d => with_slots w b (mkClock (now c + d) (timers c) (firing c) (fresh c))
  | OFire r => fire w r
  | OExpire r => run_expire w r
  | OReserve key => let '(b, c, _) := Reserve b c key in with_slots w b c
  | ORelease key => let '(b, c) := Release b c key in with_slots w b c
  | OKeep key d => let '(b, c, _) := Keep b c key d in with_slots w b c
  | OWithdraw key order =>
      match Withdraw b c key order with
      | Some (b, c, _) => with_slots w b c
      | None => set_hung w
      end
  | OWait i key hold =>
      match waiters w !! i with Some _ => w | None => wait_call w i key hold end
  | OWaitStep i => match waiters w !! i with Some x => wait_step w i x | None => w end
  | OSelect i k => match waiters w !! i with Some x => wait_select w i x k | None => w end
  | OInvite sid key => invite w sid key
  | OAdmit => admit_step w
  | OSetup ok => setup w ok
  | OEndCall sid => endCall w sid
  | OCleanup sid => cleanup w sid
  | OFree n => free_pending w n
  | OStop => Stop w
  end.

(** The clock does not go back (Go compares monotonic readings), and a map is
    ranged over in some order of its entries. *)
Definition op_allowed (o : Op) : Prop :=
  match o with
  | OTick d => 0 <= d
  | OWithdraw _ order => order_ok order
  | _ => True
  end.

Definition started (w : World) : Prop :=
  exists c b t, NewBotSlots c = Ok b /\
    w = mkWorld b (mkClock t ∅ ∅ 0%N) ∅ UIdle ∅ [] true [] false.

#[export] Instance slots_machine : Machine World Op := {
  initial := started; allowed := op_allowed; exec := exec_op
}.

(** ** What the counter promises *)

(** A leg that [ReserveWait] counts as waiting. *)
Definition is_waiting (x : Waiter) : bool :=
  match wpc x with WStarting | WTrying _ _ | WParked _ _ _ | WLeaving _ _ => true | WEntering | WReturned _ _ => false end.

(** The slot the read loop holds for the INVITE it is answering. *)
Definition in_hand (u : UasPc) : Z := match u with UHolding _ _ => 1 | _ => 0 end.
Definition in_hand_reserved (u : UasPc) : Z := match u with UHolding _ true => 1 | _ => 0 end.

(** The call the read loop is answering. *)
Definition answering (u : UasPc) : option string :=
  match u with
  | UIdle => None
  | UArrived sid _ | UConsuming sid _ | UAcquiring sid | UHolding sid _ => Some sid
  end.

(** The slots outbound calls hold: reservations, and dialogs that came from
    one. *)
Definition outbound_taken (w : World) : Z :=
  Z.of_nat (size (reserved (slots w))) + map_count id (dialogs w) +
  Z.of_nat (count_occ Bool.bool_dec (freeing w) true) + in_hand_reserved (uas w).

(** Every reservation has its own timer, still to fire or waiting for the
    lock. *)
Definition timed (b : BotSlots) (c : Clock) : Prop :=
  (forall key r, reserved b !! key = Some r ->
     (exists deadline, timers c !! r = Some (deadline, key)) \/ firing c !! r = Some key) /\
  (forall r, is_Some (timers c !! r) \/ is_Some (firing c !! r) -> (r < fresh c)%N) /\
  (forall r, is_Some (timers c !! r) -> firing c !! r = None).

(** What is withdrawn is remembered within bounds. *)
Definition memory_ok (b : BotSlots) (c : Clock) : Prop :=
  map_Forall (fun _ t => t <= now c) (withdrawn b) /\ (size (withdrawn b) <= withdrawnMax)%nat.

(** A leg parked on the current channel would not get a slot. *)
Definition parked_ok (b : BotSlots) (x : Waiter) : Prop :=
  match wpc x with
  | WParked _ _ ch => (ch <= changed b)%N /\
      (ch = changed b -> Cap (cfg b) - InboundReserve (cfg b) <= taken b)
  | _ => True
  end.

Record slots_ok (w : World) : Prop := mkSlotsOk {
  so_cfg : 1 <= Cap (cfg (slots w)) /\ 0 <= InboundReserve (cfg (slots w)) < Cap (cfg (slots w));
  so_inUse : inUse (slots w) = Z.of_nat (size (dialogs w)) + Z.of_nat (length (freeing w)) + in_hand (uas w);
  so_cap : taken (slots w) <= Cap (cfg (slots w));
  so_outbound : outbound_taken w <= Cap (cfg (slots w)) - InboundReserve (cfg (slots w));
  so_stats : Made (stats (slots w)) =
    Consumed (stats (slots w)) + Released (stats (slots w)) + Expired (stats (slots w)) +
    Z.of_nat (size (reserved (slots w)));
  so_waiting : waiting (slots w) = map_count is_waiting (waiters w);
  so_timed : timed (slots w) (clock w);
  so_memory : memory_ok (slots w) (clock w);
  so_parked : map_Forall (fun _ x => parked_ok (slots w) x) (waiters w);
  so_new : forall sid, answering (uas w) = Some sid -> dialogs w !! sid = None;
  so_hung : hung w = false
}.

(** ** Lemmas *)

(** *** One operation of the counter *)

(** What an operation that adds [du] slots in use and [dr] reservations keeps
    of the counter and its timers. Capacity that appears is announced. *)
Record moves (b : BotSlots) (c : Clock) (b' : BotSlots) (c' : Clock) (du dr : Z) : Prop := mkMoves {
  mv_cfg : cfg b' = cfg b;
  mv_now : now c <= now c';
  mv_inUse : inUse b' = inUse b + du;
  mv_reserved : Z.of_nat (size (reserved b')) = Z.of_nat (size (reserved b)) + dr;
  mv_stats : Made (stats b') - Consumed (stats b') - Released (stats b') - Expired (stats b') =
             Made (stats b) - Consumed (stats b) - Released (stats b) - Expired (stats b) + dr;
  mv_waiting : waiting b' = waiting b;
  mv_timed : timed b' c';
  mv_memory : memory_ok b' c';
  mv_changed : (changed b <= changed b')%N;
  mv_wakes : changed b' = changed b -> 0 <= du + dr
}.

Lemma moves_taken b c b' c' du dr : moves b c b' c' du dr -> taken b' = taken b + du + dr.
Proof. intros []. unfold taken. lia. Qed.

Lemma parked_ok_moves b c b' c' du dr x : moves b c b' c' du dr -> parked_ok b x -> parked_ok b' x.
Proof.
  intros Hm Hp. pose proof (moves_taken _ _ _ _ _ _ Hm) as Ht. destruct Hm as [Hc _ _ _ _ _ _ _ Hch Hw].
  unfold parked_ok in *. destruct (wpc x); try done. destruct Hp as [Hle Hfull]. rewrite Hc. split; [lia|].
  intros E. assert (changed b' = changed b) as Eq by lia. specialize (Hw Eq). specialize (Hfull ltac:(lia)). lia.
Qed.

Lemma memory_ok_now b c b' c' : withdrawn b' = withdrawn b -> now c <= now c' -> memory_ok b c -> memory_ok b' c'.
Proof.
  intros E Hn [H1 H2]. split; [|by rewrite E]. rewrite E. eapply map_Forall_impl; [exact H1|]. simpl. lia.
Qed.

Lemma timed_stop b c c' b' key r :
  timed b c -> reserved b !! key = Some r -> reserved b' = delete key (reserved b) ->
  (c' = c \/ c' = stop c r) -> timed b' c'.
Proof.
  intros (Ht & Hf & Hd) Hk Er Hc. split; [|split].
  - intros k' r' Hk'. rewrite Er in Hk'. apply lookup_delete_Some in Hk' as [Hne Hk'].
    destruct Hc as [->| ->]; [by apply Ht|]. simpl.
    destruct (Ht _ _ Hk') as [[dl Hr]|Hr]; [|by right]. left. exists dl. rewrite lookup_delete_ne; [done|].
    intros <-. destruct (Ht _ _ Hk) as [[dl' Hr']|Hr']; [congruence|]. rewrite Hd in Hr'; [done|by eexists].
  - intros r' Hr'. destruct Hc as [->| ->]; [by apply Hf|]. simpl in *. apply Hf.
    destruct Hr' as [[? Hr']|]; [|by right]. apply lookup_delete_Some in Hr' as [_ Hr']. left. by eexists.
  - intros r' Hr'. destruct Hc as [->| ->]; [by apply Hd|]. simpl in *.
    destruct Hr' as [? Hr']. apply lookup_delete_Some in Hr' as [_ Hr']. apply Hd. by eexists.
Qed.

Lemma timed_start b b' c key d :
  timed b c -> reserved b' = <[key := fresh c]> (reserved b) -> timed b' (AfterFunc c d key).1.
Proof.
  intros (Ht & Hf & Hd) Er. split; [|split].
  - intros k' r' Hk'. rewrite Er in Hk'. simpl. apply lookup_insert_Some in Hk' as [[<- <-]|[Hne Hk']].
    + left. eexists. apply lookup_insert_eq.
    + destruct (Ht _ _ Hk') as [[dl Hr]|Hr]; [|by right]. left. exists dl. rewrite lookup_insert_ne; [done|].
      intros <-. pose proof (Hf (fresh c) ltac:(left; by eexists)). lia.
  - simpl. intros r' [[? Hr']|Hr'].
    + apply lookup_insert_Some in Hr' as [[<- _]|[_ Hr']]; [lia|]. pose proof (Hf r' ltac:(left; by eexists)). lia.
    + pose proof (Hf r' ltac:(by right)). lia.
  - simpl. intros r' [? Hr']. apply lookup_insert_Some in Hr' as [[<- _]|[_ Hr']]; [|apply Hd; by eexists].
    destruct (firing c !! fresh c) eqn:E; [|done]. pose proof (Hf (fresh c) ltac:(right; by eexists)). lia.
Qed.

Lemma timed_same b b' c : timed b c -> reserved b' = reserved b -> timed b' c.
Proof. intros (Ht & Hf) E. split; [|done]. intros k r. rewrite E. apply Ht. Qed.

Section counter_steps.
Variables (b : BotSlots) (c : Clock).
Hypothesis Htimed : timed b c.
Hypothesis Hmem : memory_ok b c.

Lemma moves_none : moves b c b c 0 0.
Proof using Htimed Hmem. constructor; try done; lia. Qed.

Lemma size_reserved_delete key r :
  reserved b !! key = Some r -> Z.of_nat (size (delete key (reserved b))) = Z.of_nat (size (reserved b)) - 1.
Proof using. intros H. rewrite <- !map_count_all, (map_count_delete _ _ _ r H). simpl. lia. Qed.

Lemma TryAcquire_moves :
  let '(b', ok) := TryAcquire b in
  if ok then moves b c b' c 1 0 /\ taken b < Cap (cfg b) else b' = b.
Proof using Htimed Hmem.
  unfold TryAcquire. destruct (Z.leb_spec (Cap (cfg b)) (taken b)); [done|]. split; [|done].
  constructor; simpl; try done; try lia.
Qed.

Lemma Free_moves : inUse b <> 0 -> moves b c (Free b) c (-1) 0.
Proof using Htimed Hmem.
  intros Hn. unfold Free. rewrite (proj2 (Z.eqb_neq _ _) Hn).
  constructor; simpl; try done; try lia.
Qed.

Lemma Consume_moves key :
  let '(b', c', ok) := Consume b c key in
  if ok then moves b c b' c' 1 (-1) else b' = b /\ c' = c.
Proof using Htimed Hmem.
  unfold Consume. destruct (reserved b !! key) as [r|] eqn:Hk; [|done].
  constructor; simpl; try done; try lia.
  - by rewrite (size_reserved_delete key r Hk).
  - apply (timed_stop b c _ _ key r); auto.
Qed.

Lemma Release_moves key :
  let '(b', c') := Release b c key in
  (reserved b !! key = None /\ b' = b /\ c' = c) \/ moves b c b' c' 0 (-1).
Proof using Htimed Hmem.
  unfold Release. destruct (reserved b !! key) as [r|] eqn:Hk; [|by left]. right.
  constructor; simpl; try done; try lia.
  - by rewrite (size_reserved_delete key r Hk).
  - apply (timed_stop b c _ _ key r); auto.
Qed.

Lemma Keep_moves key d : let '(b', c', _) := Keep b c key d in moves b c b' c' 0 0.
Proof using Htimed Hmem.
  unfold Keep. destruct (reserved b !! key) as [old|] eqn:Hk; [|apply moves_none].
  destruct (AfterFunc (stop c old) _ key) as [c' r] eqn:HA.
  assert (Hc' : c' = (AfterFunc (stop c old) (if d <=? 0 then ReservationTTL (cfg b) else d) key).1) by by rewrite HA.
  assert (Hr : r = fresh (stop c old)) by (unfold AfterFunc in HA; congruence).
  constructor; simpl; try done; try lia.
  - rewrite Hc'. simpl. lia.
  - rewrite <- !map_count_all, (map_count_insert _ _ _ old r Hk). simpl. lia.
  - rewrite Hc'. apply (timed_start (with_reserved b (delete key (reserved b)) (stats b))).
    + apply (timed_stop b c _ _ key old); auto.
    + simpl. by rewrite insert_delete_eq, Hr.
  - rewrite Hc'. by apply (memory_ok_now b c).
Qed.

Lemma reserveLocked_moves key :
  let '(b', c', ok) := reserveLocked b c key in
  (b' = b /\ c' = c /\ (ok = false -> Cap (cfg b) - InboundReserve (cfg b) <= taken b)) \/
  (ok = true /\ moves b c b' c' 0 1 /\ taken b < Cap (cfg b) - InboundReserve (cfg b)).
Proof using Htimed Hmem.
  unfold reserveLocked. destruct (reserved b !! key) as [r|] eqn:Hk; [by left|].
  destruct (Z.leb_spec (Cap (cfg b) - InboundReserve (cfg b)) (taken b)); [by left|]. right.
  split; [done|]. split; [|done]. constructor; simpl; try done; try lia.
  - rewrite <- !map_count_all, map_count_insert_new by done. simpl. lia.
  - by apply (timed_start b).
Qed.

Lemma expire_moves key r :
  (expire b key r = b /\ reserved b !! key <> Some r) \/ moves b c (expire b key r) c 0 (-1).
Proof using Htimed Hmem.
  unfold expire. destruct (decide (reserved b !! key = Some r)) as [Hk|Hk]; [|by left]. right.
  constructor; simpl; try done; try lia.
  - by rewrite (size_reserved_delete key r Hk).
  - apply (timed_stop b c _ _ key r); auto.
Qed.

End counter_steps.

Lemma moves_trans b1 c1 b2 c2 b3 c3 u1 r1 u2 r2 :
  moves b1 c1 b2 c2 u1 r1 -> moves b2 c2 b3 c3 u2 r2 -> moves b1 c1 b3 c3 (u1 + u2) (r1 + r2).
Proof.
  intros [] [] . constructor; try done; try lia; try congruence.
Qed.

(** *** The eviction *)

Lemma oldest_mem at' l : l <> [] -> (forall kv : string * instant, kv ∈ l -> kv.2 <= at') -> exists t, (oldest at' l, t) ∈ l.
Proof.
  intros Hl Hat. assert (Hgo : forall l best, fold_left older l best ∈ best :: l).
  { clear. induction l as [|kv l IH]; intros best; simpl; [left|].
    specialize (IH (older best kv)). apply elem_of_cons in IH as [->|IH]; [|by right; right].
    unfold older. destruct (_ <? _); [left|right; left]. }
  destruct l as [|kv l]; [done|]. exists (fold_left older l kv).2.
  change (oldest at' (kv :: l)) with (fold_left older l (older ("", at') kv)).1.
  assert (older ("", at') kv = kv) as ->.
  { unfold older. simpl. destruct (Z.ltb_spec at' kv.2); [|done]. pose proof (Hat kv ltac:(left)) as Hkv. lia. }
  rewrite <- surjective_pairing. apply Hgo.
Qed.

Lemma evict_total order at' fuel m :
  order_ok order -> map_Forall (fun _ t => t <= at') m -> (size m <= fuel)%nat ->
  exists m', evict fuel order at' m = Some m' /\ (size m' < withdrawnMax)%nat /\ m' ⊆ m /\
    ((size m < withdrawnMax)%nat -> m' = m).
Proof.
  intros Ho. revert m. induction fuel as [|fuel IH]; intros m Hm Hf; simpl;
    (destruct (Nat.ltb_spec (size m) withdrawnMax) as [Hs|Hs]; [by exists m|]).
  { unfold withdrawnMax in Hs. lia. }
  destruct (oldest_mem at' (order fuel m)) as [t Ht].
  - intros E. pose proof (Ho fuel m) as Hp. rewrite E in Hp. apply Permutation_nil_l in Hp. symmetry in Hp. apply map_to_list_empty_iff in Hp.
    subst m. rewrite map_size_empty in Hs. unfold withdrawnMax in Hs. lia.
  - intros [k t] Hkt. rewrite (Ho fuel m) in Hkt. apply elem_of_map_to_list in Hkt. by apply (Hm k).
  - revert Ht. generalize (oldest at' (order fuel m)) as k. intros k Ht.
    rewrite (Ho fuel m) in Ht. apply elem_of_map_to_list in Ht.
    destruct (IH (delete k m)) as (m' & He & Hl & Hsub & _).
    + by apply map_Forall_delete.
    + rewrite map_size_delete_Some by by eexists. lia.
    + exists m'. repeat split; [done|done| |lia]. etransitivity; [exact Hsub|apply delete_subseteq].
Qed.

Lemma Withdraw_total b c key order :
  timed b c -> memory_ok b c -> order_ok order ->
  exists b' c' ok, Withdraw b c key order = Some (b', c', ok) /\
    withdrawn b' !! key = Some (now c) /\
    (ok = true <-> is_Some (reserved b !! key)) /\ reserved b' = delete key (reserved b) /\
    (moves b c b' c' 0 0 /\ ok = false \/ moves b c b' c' 0 (-1) /\ ok = true) /\
    ((size (withdrawn b) < withdrawnMax)%nat -> forall k t, k <> key -> withdrawn b !! k = Some t ->
      Calendar.Sub (now c) t < withdrawnFor -> withdrawn b' !! k = Some t) /\
    (size (withdrawn b') <= S (size (withdrawn b)))%nat.
Proof.
  intros Ht [Hm Hs] Ho. unfold Withdraw. set (m := filter _ (withdrawn b)).
  assert (Hsub : m ⊆ withdrawn b) by apply map_filter_subseteq.
  destruct (evict_total order (now c) (size m) m) as (m' & -> & Hl & Hsub' & Hid); [done| |done|].
  { intros k t Hk. apply (Hm k). by apply (lookup_weaken m). }
  simpl. set (b1 := with_withdrawn b _).
  assert (Hm1 : memory_ok b1 c).
  { split; simpl.
    - apply map_Forall_insert_2; [lia|]. intros k t Hk. apply (Hm k). apply (lookup_weaken m'); [done|].
      by etransitivity.
    - rewrite map_size_insert. destruct (m' !! key); cbv [id]; lia. }
  assert (Hv : moves b c b1 c 0 0) by (constructor; simpl; done || lia).
  assert (Hk : (size (withdrawn b) < withdrawnMax)%nat -> forall k t, k <> key -> withdrawn b !! k = Some t ->
      Calendar.Sub (now c) t < withdrawnFor -> withdrawn b1 !! k = Some t).
  { intros Hlt k t Hne Hk Hn. simpl. rewrite lookup_insert_ne by done. rewrite Hid.
    - apply map_lookup_filter_Some. split; [done|]. simpl. apply negb_true_iff, Z.leb_gt. lia.
    - eapply Nat.le_lt_trans; [|exact Hlt]. by apply map_subseteq_size. }
  assert (Hsz : (size (withdrawn b1) <= S (size (withdrawn b)))%nat).
  { assert (size m' <= size (withdrawn b))%nat by (apply map_subseteq_size; by etransitivity).
    simpl. rewrite map_size_insert. destruct (m' !! key); cbv [id]; lia. }
  destruct (reserved b !! key) as [r|] eqn:Hr.
  - pose proof (Release_moves b1 c (mv_timed _ _ _ _ _ _ Hv) Hm1 key) as Hrel.
    unfold Release in *. simpl in Hrel |- *. rewrite Hr in Hrel |- *. destruct Hrel as [[? _]|Hrel]; [done|].
    eexists _, _, true. split; [reflexivity|]. split; [apply lookup_insert_eq|]. split; [done|].
    split; [done|]. split; [|by split]. right. split; [|done].
    apply (moves_trans _ _ _ _ _ _ 0 0 0 (-1) Hv Hrel).
  - exists b1, c, false. split; [reflexivity|]. split; [apply lookup_insert_eq|].
    split; [split; [done|by intros [? ?]]|]. split; [by rewrite delete_id|]. split; [by left|by split].
Qed.

(** *** One operation of the world *)

Lemma slots_ok_by w b' c' u' d' f' run ans du dr :
  slots_ok w -> moves (slots w) (clock w) b' c' du dr ->
  Z.of_nat (size d') + Z.of_nat (length f') + in_hand u' =
    Z.of_nat (size (dialogs w)) + Z.of_nat (length (freeing w)) + in_hand (uas w) + du ->
  taken (slots w) + du + dr <= Cap (cfg (slots w)) ->
  outbound_taken (mkWorld b' c' (waiters w) u' d' f' run ans (hung w)) <=
    Cap (cfg (slots w)) - InboundReserve (cfg (slots w)) ->
  (forall sid, answering u' = Some sid -> d' !! sid = None) ->
  slots_ok (mkWorld b' c' (waiters w) u' d' f' run ans (hung w)).
Proof.
  intros [] Hm Hd Ht Ho Hn. pose proof (moves_taken _ _ _ _ _ _ Hm) as Hk. destruct Hm as [Hc] eqn:Em.
  constructor; simpl; try done; try rewrite Hc; try done; try lia.
  eapply map_Forall_impl; [exact so_parked0|]. simpl. intros i x. by apply (parked_ok_moves _ _ _ _ _ _ _ Hm).
Qed.

Lemma moves_same b c : timed b c -> memory_ok b c -> moves b c b c 0 0.
Proof. intros. constructor; done || lia. Qed.

Lemma outbound_le_taken w : slots_ok w -> outbound_taken w <= taken (slots w).
Proof.
  intros []. unfold outbound_taken, taken. rewrite so_inUse0. pose proof (count_occ_bound Bool.bool_dec true (freeing w)).
  assert (map_count id (dialogs w) <= Z.of_nat (size (dialogs w))).
  { unfold map_count. apply inj_le, map_subseteq_size, map_filter_subseteq. }
  assert (in_hand_reserved (uas w) <= in_hand (uas w)) by (by destruct (uas w) as [| | | |? []]). lia.
Qed.

(** An operation of the counter alone, that takes no slot out of reserve. *)
Lemma slots_ok_counter w b' c' dr :
  slots_ok w -> moves (slots w) (clock w) b' c' 0 dr ->
  (0 < dr -> taken (slots w) + dr <= Cap (cfg (slots w)) - InboundReserve (cfg (slots w))) ->
  slots_ok (with_slots w b' c').
Proof.
  intros Hw Hm Hr. pose proof (outbound_le_taken w Hw) as Ho.
  apply (slots_ok_by w b' c' (uas w) (dialogs w) (freeing w) (isRunning w) (answers w) 0 dr Hw Hm); [lia| | |apply Hw].
  - destruct Hw, (Z.le_gt_cases dr 0); lia.
  - destruct Hw. unfold outbound_taken in *. simpl in *. rewrite (mv_reserved _ _ _ _ _ _ Hm).
    destruct (Z.le_gt_cases dr 0); lia.
Qed.

Lemma slots_ok_waiter w i x pc :
  slots_ok w -> waiters w !! i = Some x -> is_waiting (mkWaiter (wkey x) (whold x) pc) = is_waiting x ->
  parked_ok (slots w) (mkWaiter (wkey x) (whold x) pc) -> slots_ok (with_waiter w i x pc).
Proof.
  intros [] Hi Hs Hp. constructor; try done; simpl.
  - rewrite (map_count_insert _ _ _ x) by done. rewrite Hs. lia.
  - by apply map_Forall_insert_2.
Qed.

Lemma with_waiting_moves w n i x :
  slots_ok w -> waiters w !! i = Some x -> forall pc,
  n = waiting (slots w) - Z.b2z (is_waiting x) + Z.b2z (is_waiting (mkWaiter (wkey x) (whold x) pc)) ->
  (forall s d c, pc <> WParked s d c) ->
  slots_ok (with_waiter (with_slots w (with_waiting (slots w) n) (clock w)) i x pc).
Proof.
  intros [] Hi pc -> Hp. constructor; try done; simpl.
  - rewrite (map_count_insert _ _ _ x) by done. by rewrite so_waiting0.
  - apply map_Forall_insert_2; [|done]. unfold parked_ok. simpl. by destruct pc; try done; destruct (Hp start deadline ch).
Qed.

Lemma with_uas_idle w u ans :
  slots_ok w -> in_hand u = in_hand (uas w) -> in_hand_reserved u = in_hand_reserved (uas w) ->
  (forall sid, answering u = Some sid -> dialogs w !! sid = None) -> slots_ok (with_uas w u ans).
Proof.
  intros Hw E E' Hn. apply (slots_ok_by w _ _ u (dialogs w) (freeing w) _ _ 0 0 Hw); destruct Hw.
  - by apply moves_same.
  - lia.
  - lia.
  - unfold outbound_taken in *. simpl. lia.
  - done.
Qed.

Lemma wait_call_ok w i key hold : slots_ok w -> waiters w !! i = None -> slots_ok (wait_call w i key hold).
Proof.
  intros Hw Hi. unfold wait_call.
  pose proof (reserveLocked_moves (slots w) (clock w) (so_timed w Hw) (so_memory w Hw) key) as Hr.
  unfold Reserve. destruct (reserveLocked _ _ key) as [[b c] ok].
  assert (Hw' : slots_ok (with_slots w b c)).
  { destruct Hr as [(-> & -> & _)|(_ & Hm & Hlt)].
    - apply (slots_ok_counter w _ _ 0 Hw); [|lia]. apply moves_same; apply Hw.
    - apply (slots_ok_counter w _ _ 1 Hw Hm). lia. }
  destruct Hw'. constructor; try done; simpl in *.
  - rewrite map_count_insert_new by done. rewrite so_waiting0.
    destruct ok; [|destruct (hold <=? 0)]; unfold is_waiting; simpl; lia.
  - apply map_Forall_insert_2; [|done]. destruct ok; [|destruct (hold <=? 0)]; done.
Qed.

(** An attempt to reserve leaves the counter right, and fails only when
    outbound calls are at their limit. *)
Lemma attempt_ok w key : slots_ok w ->
  let '(b, c, ok) := reserveLocked (slots w) (clock w) key in
  slots_ok (with_slots w b c) /\
  (ok = false -> b = slots w /\ c = clock w /\ Cap (cfg b) - InboundReserve (cfg b) <= taken b).
Proof.
  intros Hw. pose proof (reserveLocked_moves (slots w) (clock w) (so_timed w Hw) (so_memory w Hw) key) as Hr.
  destruct (reserveLocked _ _ key) as [[b c] ok]. destruct Hr as [(-> & -> & H)|(-> & Hm & Hlt)].
  - split; [|auto]. apply (slots_ok_counter w _ _ 0 Hw); [|lia]. apply moves_same; apply Hw.
  - split; [|done]. apply (slots_ok_counter w _ _ 1 Hw Hm). lia.
Qed.

Lemma wait_step_ok w i x : slots_ok w -> waiters w !! i = Some x -> slots_ok (wait_step w i x).
Proof.
  intros Hw Hi. unfold wait_step. destruct (wpc x) as [| |start dl|start dl ch|ok wd|ok wd] eqn:Hpc; try done.
  - apply (with_waiting_moves w _ i x Hw Hi); [|done]. unfold is_waiting. simpl. rewrite Hpc. simpl. lia.
  - apply slots_ok_waiter; try done. unfold is_waiting. simpl. by rewrite Hpc.
  - pose proof (attempt_ok w (wkey x) Hw) as Ha. destruct (reserveLocked _ _ _) as [[b c] ok] eqn:E.
    destruct Ha as [Hw' Hf]. apply slots_ok_waiter; [done|done| |].
    + unfold is_waiting. simpl. rewrite Hpc. by destruct ok.
    + destruct ok; [done|]. destruct (Hf eq_refl) as (-> & -> & Hfull). simpl. split; [lia|done].
  - apply (with_waiting_moves w _ i x Hw Hi); [|done]. unfold is_waiting. simpl. rewrite Hpc. simpl. lia.
Qed.

Lemma wait_select_ok w i x k : slots_ok w -> waiters w !! i = Some x -> slots_ok (wait_select w i x k).
Proof.
  intros Hw Hi. unfold wait_select. destruct (wpc x) as [| |start dl|start dl ch|ok wd|ok wd] eqn:Hpc; try done.
  assert (Hc : is_waiting x = true) by (unfold is_waiting; by rewrite Hpc).
  destruct k.
  - destruct (_ <? _)%N; [|done]. apply slots_ok_waiter; [done|done|by rewrite Hc|done].
  - destruct (_ <=? _); [|done]. unfold Reserve. pose proof (attempt_ok w (wkey x) Hw) as Ha.
    destruct (reserveLocked _ _ _) as [[b c] ok]. apply slots_ok_waiter; [by apply Ha|done|by rewrite Hc|done].
  - apply slots_ok_waiter; [done|done|by rewrite Hc|done].
Qed.

Lemma invite_ok w sid key : slots_ok w -> slots_ok (invite w sid key).
Proof.
  intros Hw. unfold invite. destruct (uas w) eqn:Hu; try done. destruct (isRunning w); [|done]. simpl.
  destruct (dialogs w !! sid) eqn:Hd; [|destruct (String.eqb key "")]; apply with_uas_idle; rewrite ?Hu; try done;
    by intros ? [= <-].
Qed.

Lemma admit_ok w : slots_ok w -> slots_ok (admit_step w).
Proof.
  intros Hw. pose proof (so_new w Hw) as Hnew.
  unfold admit_step. destruct (uas w) as [|sid key|sid key|sid|sid r] eqn:Hu; try done.
  - destruct (IsWithdrawn _ _ key); apply with_uas_idle; by rewrite ?Hu.
  - pose proof (Consume_moves (slots w) (clock w) (so_timed w Hw) (so_memory w Hw) key) as Hc.
    destruct (Consume _ _ key) as [[b c] []].
    + unfold with_uas, with_slots. simpl. apply (slots_ok_by w b c _ _ _ _ _ 1 (-1) Hw Hc); try destruct Hw.
      * rewrite Hu. simpl. lia.
      * lia.
      * unfold outbound_taken in *. simpl. rewrite (mv_reserved _ _ _ _ _ _ Hc). rewrite Hu in so_outbound0. simpl in *. lia.
      * exact Hnew.
    + destruct Hc as [-> ->]. destruct w; simpl in *. subst. by apply (with_uas_idle (mkWorld _ _ _ _ _ _ _ _ _)).
  - pose proof (TryAcquire_moves (slots w) (clock w) (so_timed w Hw) (so_memory w Hw)) as Hc.
    destruct (TryAcquire (slots w)) as [b []].
    + destruct Hc as [Hc Hlt]. unfold with_uas, with_slots. simpl.
      apply (slots_ok_by w b (clock w) _ _ _ _ _ 1 0 Hw Hc); try destruct Hw.
      * rewrite Hu. simpl. lia.
      * lia.
      * unfold outbound_taken in *. simpl. rewrite (mv_reserved _ _ _ _ _ _ Hc). rewrite Hu in so_outbound0. simpl in *. lia.
      * exact Hnew.
    + apply with_uas_idle; by rewrite ?Hu.
Qed.

Lemma Free_ok b c : timed b c -> memory_ok b c -> 0 < inUse b -> moves b c (Free b) c (-1) 0.
Proof. intros. apply Free_moves; [done|done|lia]. Qed.

Lemma Frees_ok n b c : timed b c -> memory_ok b c -> Z.of_nat n <= inUse b ->
  moves b c (Nat.iter n Free b) c (- Z.of_nat n) 0.
Proof.
  intros Ht Hm. induction n as [|n IH]; intros Hn; simpl; [by apply moves_same|].
  specialize (IH ltac:(lia)). pose proof IH as []. 
  replace (- Z.of_nat (S n)) with (- Z.of_nat n + -1) by lia.
  apply (moves_trans _ _ _ _ _ _ _ 0 _ 0 IH). apply Free_ok; [done|done|lia].
Qed.

Lemma inUse_pos w : slots_ok w -> forall n,
  n <= Z.of_nat (size (dialogs w)) + Z.of_nat (length (freeing w)) + in_hand (uas w) -> n <= inUse (slots w).
Proof. intros [] n H. lia. Qed.

Lemma setup_ok w ok : slots_ok w -> slots_ok (setup w ok).
Proof.
  intros Hw. pose proof (so_new w Hw) as Hnew. pose proof (so_cap w Hw). pose proof (so_outbound w Hw) as Ho.
  unfold setup, outbound_taken in *. destruct (uas w) as [| | | |sid r] eqn:Hu; try done.
  assert (Hd : dialogs w !! sid = None) by (by apply Hnew). destruct ok.
  - apply (slots_ok_by w _ _ _ _ _ _ _ 0 0 Hw); [by apply moves_same; apply Hw| |lia| |done].
    + simpl. rewrite <- !map_count_all, map_count_insert_new by done. rewrite Hu. simpl. lia.
    + unfold outbound_taken. simpl. rewrite map_count_insert_new by done. by destruct r; simpl in *; lia.
  - assert (Hm : moves (slots w) (clock w) (Free (slots w)) (clock w) (-1) 0).
    { apply Free_ok; [apply Hw|apply Hw|]. assert (1 <= inUse (slots w)); [|lia].
      apply (inUse_pos w Hw). rewrite Hu. simpl. lia. }
    apply (slots_ok_by w _ _ _ _ _ _ _ (-1) 0 Hw Hm); [rewrite Hu; simpl; lia|lia| |done].
    unfold outbound_taken. simpl. rewrite (mv_reserved _ _ _ _ _ _ Hm). by destruct r; simpl in *; lia.
Qed.

Lemma endCall_ok w sid : slots_ok w -> slots_ok (endCall w sid).
Proof.
  intros Hw. pose proof (so_new w Hw) as Hnew. pose proof (so_cap w Hw). pose proof (so_outbound w Hw) as Ho.
  unfold endCall, outbound_taken in *. destruct (dialogs w !! sid) as [r|] eqn:Hd; [|done].
  apply (slots_ok_by w _ _ _ _ _ _ _ 0 0 Hw); [by apply moves_same; apply Hw| |lia| |].
  - rewrite <- !map_count_all, (map_count_delete _ _ _ r Hd). simpl. lia.
  - unfold outbound_taken. simpl. rewrite (map_count_delete _ _ _ r Hd). destruct r; simpl; lia.
  - intros s Hs. apply lookup_delete_None. right. by apply Hnew.
Qed.

Lemma free_pending_ok w n : slots_ok w -> slots_ok (free_pending w n).
Proof.
  intros Hw. pose proof (so_new w Hw) as Hnew. pose proof (so_cap w Hw). pose proof (so_outbound w Hw) as Ho.
  unfold free_pending, outbound_taken in *. destruct (freeing w !! n) as [r|] eqn:Hn; [|done].
  pose proof (delete_Permutation _ _ _ Hn) as Hp.
  assert (Hl : length (freeing w) = S (length (delete n (freeing w)))) by by rewrite Hp at 1.
  pose proof (proj1 (Permutation_count_occ Bool.bool_dec _ _) Hp true) as Hc.
  assert (Hm : moves (slots w) (clock w) (Free (slots w)) (clock w) (-1) 0).
  { apply Free_ok; [apply Hw|apply Hw|]. assert (1 <= inUse (slots w)); [|lia].
    apply (inUse_pos w Hw). destruct (uas w); simpl; lia. }
  apply (slots_ok_by w _ _ _ _ _ _ _ (-1) 0 Hw Hm); [simpl; lia|lia| |done].
  unfold outbound_taken. simpl. rewrite (mv_reserved _ _ _ _ _ _ Hm).
  assert (count_occ Bool.bool_dec (delete n (freeing w)) true <= count_occ Bool.bool_dec (freeing w) true)%nat; [|lia].
  rewrite Hc. simpl. destruct (Bool.bool_dec r true); lia.
Qed.

Lemma Stop_ok w : slots_ok w -> slots_ok (Stop w).
Proof.
  intros Hw. pose proof (so_cap w Hw). pose proof (so_outbound w Hw) as Ho. pose proof (map_count_nonneg id (dialogs w)).
  assert (Hm : moves (slots w) (clock w) (Nat.iter (size (dialogs w)) Free (slots w)) (clock w) (- Z.of_nat (size (dialogs w))) 0).
  { apply Frees_ok; [apply Hw|apply Hw|]. apply (inUse_pos w Hw). destruct (uas w); simpl; lia. }
  apply (slots_ok_by w _ _ _ _ _ _ _ _ 0 Hw Hm); [rewrite map_size_empty; lia|lia| |].
  - unfold outbound_taken in *. cbn [slots uas dialogs freeing]. rewrite (mv_reserved _ _ _ _ _ _ Hm), map_count_empty. lia.
  - intros s _. apply lookup_empty.
Qed.

Lemma fire_ok w r : slots_ok w -> slots_ok (fire w r).
Proof.
  intros Hw. unfold fire. destruct (timers (clock w) !! r) as [[dl key]|] eqn:Hr; [|done].
  destruct (Z.leb_spec dl (now (clock w))); [|done].
  apply (slots_ok_counter w _ _ 0 Hw); [|lia].
  destruct (so_timed w Hw) as (Ht & Hf & Hd).
  constructor; simpl; try done; try lia; [|by apply (memory_ok_now (slots w) (clock w)); [|simpl; lia|apply Hw]].
  split; [|split]; simpl.
  - intros k r' Hk. destruct (decide (r = r')) as [<-|Hne].
    + right. destruct (Ht _ _ Hk) as [[dl' E]|E]; [pose proof (eq_trans (eq_sym Hr) E) as [= _ ->]; apply lookup_insert_eq|].
      rewrite Hd in E; [done|by eexists].
    + rewrite lookup_delete_ne, lookup_insert_ne by done. by apply Ht.
  - intros r' H'. apply Hf. destruct (decide (r = r')) as [<-|Hne]; [left; by eexists|].
    by rewrite lookup_delete_ne, lookup_insert_ne in H' by done.
  - intros r' [? H']. apply lookup_delete_Some in H' as [Hne H']. rewrite lookup_insert_ne by done.
    apply Hd. by eexists.
Qed.

Lemma run_expire_ok w r : slots_ok w -> slots_ok (run_expire w r).
Proof.
  intros Hw. unfold run_expire. destruct (firing (clock w) !! r) as [key|] eqn:Hr; [|done].
  destruct (so_timed w Hw) as (Ht & Hf & Hd).
  set (c' := mkClock (now (clock w)) (timers (clock w)) (delete r (firing (clock w))) (fresh (clock w))).
  assert (Hfr : forall b, (forall k, reserved b !! k = Some r -> False) ->
                (forall k r', reserved b !! k = Some r' -> reserved (slots w) !! k = Some r') -> timed b c').
  { intros b Hno Hin. split; [|split]; simpl.
    - intros k r' Hk. destruct (decide (r = r')) as [<-|Hne]; [by destruct (Hno k)|].
      rewrite lookup_delete_ne by done. apply Ht. by apply Hin.
    - intros r' H'. apply Hf. destruct H' as [?|[? H']]; [by left|]. apply lookup_delete_Some in H' as [_ H'].
      right. by eexists.
    - intros r' H'. rewrite lookup_delete_None. right. by apply Hd. }
  assert (Hown : forall k, reserved (slots w) !! k = Some r -> k = key).
  { intros k Hk. destruct (Ht k r Hk) as [[dl E]|E]; [|congruence]. rewrite Hd in Hr; [done|by eexists]. }
  destruct (expire_moves (slots w) (clock w) (so_timed w Hw) (so_memory w Hw) key r) as [[-> Hne]|Hm].
  - apply (slots_ok_counter w _ _ 0 Hw); [|lia]. constructor; try done; try lia; [|apply (so_memory w Hw)].
    apply Hfr; [|done]. intros k Hk. pose proof (Hown k Hk) as ->. done.
  - apply (slots_ok_counter w _ _ (-1) Hw); [|lia]. destruct Hm. constructor; try done.
    apply Hfr; unfold expire; destruct (decide (reserved (slots w) !! key = Some r)) as [Hk|Hk]; simpl.
    + intros k Hk'. apply lookup_delete_Some in Hk' as [Hn Hk']. apply Hn. symmetry. by apply Hown.
    + intros k Hk'. pose proof (Hown k Hk') as ->. done.
    + intros k r' Hk'. by apply lookup_delete_Some in Hk' as [_ Hk'].
    + done.
Qed.

#[export] Instance slots_invariant_instance : Invariant slots_ok.
Proof.
  constructor.
  - intros w (c & b & t & Hb & ->). unfold NewBotSlots in Hb. inv_res. b2p.
    assert (Hc : exists ttl, (if ReservationTTL c <=? 0 then mkConfig (Cap c) (InboundReserve c) DefaultReservationTTL else c)
              = mkConfig (Cap c) (InboundReserve c) ttl).
    { destruct (_ <=? _); [by eexists|]. exists (ReservationTTL c). by destruct c. }
    destruct Hc as [ttl ->]. constructor; try done; unfold taken, outbound_taken; simpl;
      rewrite ?map_size_empty, ?map_count_empty; simpl; try lia.
    + split; [|split]; simpl; intros *; rewrite !lookup_empty; try done; by intros [[? ?]|[? ?]].
    + split; simpl; [apply map_Forall_empty|]. rewrite map_size_empty. unfold withdrawnMax. lia.
  - intros w o Hw Ho. destruct o as [d|r|r|key|key|key d|key order|i key hold|i|i k|sid key| |ok|sid|sid|n|]; simpl.
    + apply (slots_ok_counter w _ _ 0 Hw); [|lia]. simpl in Ho. constructor; simpl; try done; try lia; [apply Hw|].
      apply (memory_ok_now (slots w) (clock w)); [done|simpl; lia|apply Hw].
    + by apply fire_ok.
    + by apply run_expire_ok.
    + unfold Reserve. pose proof (attempt_ok w key Hw) as H. destruct (reserveLocked _ _ _) as [[b c] ok]. apply H.
    + pose proof (Release_moves (slots w) (clock w) (so_timed w Hw) (so_memory w Hw) key) as H.
      destruct (Release _ _ _) as [b c]. destruct H as [(_ & -> & ->)|H].
      * apply (slots_ok_counter w _ _ 0 Hw); [|lia]. apply moves_same; apply Hw.
      * apply (slots_ok_counter w _ _ (-1) Hw H). lia.
    + pose proof (Keep_moves (slots w) (clock w) (so_timed w Hw) (so_memory w Hw) key d) as H.
      destruct (Keep _ _ _ _) as [[b c] ok]. apply (slots_ok_counter w _ _ 0 Hw H). lia.
    + destruct (Withdraw_total (slots w) (clock w) key order (so_timed w Hw) (so_memory w Hw) Ho)
        as (b & c & ok & -> & _ & _ & _ & [[H _]|[H _]] & _).
      * apply (slots_ok_counter w _ _ 0 Hw H). lia.
      * apply (slots_ok_counter w _ _ (-1) Hw H). lia.
    + destruct (waiters w !! i) eqn:Hi; [done|]. by apply wait_call_ok.
    + destruct (waiters w !! i) eqn:Hi; [|done]. by apply wait_step_ok.
    + destruct (waiters w !! i) eqn:Hi; [|done]. by apply wait_select_ok.
    + by apply invite_ok.
    + by apply admit_ok.
    + by apply setup_ok.
    + by apply endCall_ok.
    + by apply endCall_ok.
    + by apply free_pending_ok.
    + by apply Stop_ok.
Qed.

Lemma reached_ok w0 ops : started w0 -> Forall op_allowed ops -> slots_ok (reaches w0 ops).
Proof. intros Hw Ho. apply reaches_invariant; [apply slots_invariant_instance|exact Hw|exact Ho]. Qed.

(** ** Properties *)

(** C8: bot capacity is never oversold and never leaks. Over any interleaving
    of INVITEs, calls ending, reservations made, kept, consumed, released,
    withdrawn and expiring, parked legs and a stop: the slots in use are
    exactly the calls that are up, those about to give theirs back and the one
    the read loop is setting up; in use plus reserved never exceeds the
    capacity, and what outbound calls hold never enters the inbound reserve;
    every reservation made was consumed, released or expired, or is held; the
    waiting count is the number of parked legs; and the eviction of withdrawn
    keys always ends. *)
Theorem slots_accounting (w0 : World) (ops : list Op) (Hw : started w0) (Ho : Forall op_allowed ops) :
  let w := reaches w0 ops in
  let b := slots w in
  inUse b = Z.of_nat (size (dialogs w)) + Z.of_nat (length (freeing w)) + in_hand (uas w) /\
  taken b <= Cap (cfg b) /\
  outbound_taken w <= Cap (cfg b) - InboundReserve (cfg b) /\
  Made (stats b) = Consumed (stats b) + Released (stats b) + Expired (stats b) + Z.of_nat (size (reserved b)) /\
  waiting b = map_count is_waiting (waiters w) /\
  (size (withdrawn b) <= withdrawnMax)%nat /\ hung w = false.
Proof.
  intros w b. destruct (reached_ok w0 ops Hw Ho). repeat (split; [done|]).
  split; [apply so_memory0|done].
Qed.

(** C22: no wake-up is missed, and no leg waits past its hold. Whenever an
    outbound slot is free, a leg parked in [ReserveWait] leaves with a
    reservation as soon as it runs, however the slot came free; and a leg
    whose hold is over leaves as soon as it runs, with a reservation if one
    can be had at that moment and without one otherwise. *)
Theorem no_missed_wakeup (w0 : World) (ops : list Op) (i : nat) (x : Waiter) (start deadline : instant) (ch : N)
    (Hw : started w0) (Ho : Forall op_allowed ops) :
  let w := reaches w0 ops in
  waiters w !! i = Some x -> wpc x = WParked start deadline ch ->
  (taken (slots w) < Cap (cfg (slots w)) - InboundReserve (cfg (slots w)) ->
     let w' := reaches w [OSelect i WokenByChange; OWaitStep i] in
     wpc <$> waiters w' !! i = Some (WLeaving true (now (clock w) - start)) /\
     is_Some (reserved (slots w') !! wkey x)) /\
  (deadline <= now (clock w) ->
     let w' := exec w (OSelect i TimedOut) in
     exists ok, wpc <$> waiters w' !! i = Some (WLeaving ok (now (clock w) - start)) /\
       (ok = true <-> is_Some (reserved (slots w') !! wkey x))).
Proof.
  intros w Hi Hpc. pose proof (reached_ok w0 ops Hw Ho) as Hok. fold w in Hok.
  pose proof (so_parked w Hok i x Hi) as Hp. unfold parked_ok in Hp. rewrite Hpc in Hp. split.
  - intros Hfree. unfold reaches, exec. simpl. rewrite Hi. unfold wait_select. rewrite Hpc.
    assert (Hlt : (ch < changed (slots w))%N) by (destruct Hp as [Hle Hfull]; destruct (N.lt_ge_cases ch (changed (slots w))); [done|]; specialize (Hfull ltac:(lia)); lia).
    rewrite (proj2 (N.ltb_lt _ _) Hlt). simpl. rewrite lookup_insert_eq. unfold wait_step. simpl.
    unfold reserveLocked. destruct (reserved (slots w) !! wkey x) as [r|] eqn:Hr; simpl.
    + rewrite lookup_insert_eq. split; [done|by eexists].
    + rewrite (proj2 (Z.leb_gt _ _)) by lia. simpl. rewrite lookup_insert_eq. split; [done|].
      rewrite lookup_insert_eq. by eexists.
  - intros Hd. unfold exec. simpl. rewrite Hi. unfold wait_select. rewrite Hpc, (proj2 (Z.leb_le _ _) Hd).
    unfold Reserve, reserveLocked. destruct (reserved (slots w) !! wkey x) as [r|] eqn:Hr; simpl.
    + exists true. rewrite lookup_insert_eq. split; [done|]. rewrite Hr. split; [by eexists|done].
    + destruct (_ <=? _); simpl; rewrite lookup_insert_eq; eexists; (split; [done|]).
      * rewrite Hr. split; [done|by intros [? ?]].
      * rewrite lookup_insert_eq. split; [by eexists|done].
Qed.

(** every reservation ends by itself, and only by its own timer. A held
    reservation always has a timer that frees exactly its slot once its
    deadline has come; the expiry of any other timer, one already running when
    [Keep] replaced the reservation included, leaves it held. *)
Theorem reservation_expires (w0 : World) (ops : list Op) (key : string) (r : N)
    (Hw : started w0) (Ho : Forall op_allowed ops) :
  let w := reaches w0 ops in
  reserved (slots w) !! key = Some r ->
  (exists d, 0 <= d /\
     let w' := reaches w [OTick d; OFire r; OExpire r] in
     reserved (slots w') = delete key (reserved (slots w)) /\ inUse (slots w') = inUse (slots w) /\
     Expired (stats (slots w')) = Expired (stats (slots w)) + 1) /\
  (forall r', r' <> r -> reserved (slots (reaches w [OFire r'; OExpire r'])) !! key = Some r).
Proof.
  intros w Hk. pose proof (reached_ok w0 ops Hw Ho) as Hok. fold w in Hok.
  destruct (so_timed w Hok) as (Ht & Hf & Hd). split.
  - destruct (Ht key r Hk) as [[dl Hr]|Hr].
    + exists (Z.max 0 (dl - now (clock w))). split; [lia|]. unfold reaches. simpl. unfold fire. simpl.
      setoid_rewrite Hr. rewrite (proj2 (Z.leb_le dl _)) by lia. unfold run_expire. simpl.
      rewrite lookup_insert_eq. unfold expire. simpl. by rewrite decide_True.
    + exists 0. split; [lia|]. unfold reaches. simpl. unfold fire. simpl.
      destruct (timers (clock w) !! r) as [[dl k]|] eqn:E; [rewrite Hd in Hr; [done|by eexists]|].
      unfold run_expire. simpl. rewrite Hr. unfold expire. simpl. by rewrite decide_True.
  - intros r' Hne. unfold reaches. simpl.
    assert (Hs : slots (fire w r') = slots w).
    { unfold fire. destruct (timers (clock w) !! r') as [[dl k]|]; [|done]. by destruct (_ <=? _). }
    unfold run_expire. destruct (firing _ !! r') as [k|]; simpl; rewrite Hs; [|done].
    unfold expire. destruct (decide (reserved (slots w) !! k = Some r')) as [E|E]; [|done]. simpl.
    rewrite lookup_delete_ne; [done|]. intros ->. congruence.
Qed.

Lemma withdrawn_unchanged w o : (forall key order, o <> OWithdraw key order) ->
  withdrawn (slots (exec_op w o)) = withdrawn (slots w).
Proof.
  intros Hne. assert (HF : forall b, withdrawn (Free b) = withdrawn b) by (intros b; unfold Free; by destruct (_ =? _)).
  assert (HR : forall b c key, withdrawn (reserveLocked b c key).1.1 = withdrawn b).
  { intros b c key. unfold reserveLocked. destruct (_ !! _); [done|]. by destruct (_ <=? _). }
  assert (Hrel : forall b c key, withdrawn (Release b c key).1 = withdrawn b).
  { intros b c key. unfold Release. by destruct (_ !! _). }
  destruct o; simpl; try done.
  - unfold fire. destruct (_ !! r) as [[? ?]|]; [|done]. by destruct (_ <=? _).
  - unfold run_expire. destruct (_ !! r); [|done]. simpl. unfold expire. by destruct (decide _).
  - specialize (HR (slots w) (clock w) key). unfold Reserve. by destruct (reserveLocked _ _ _) as [[? ?] ?].
  - specialize (Hrel (slots w) (clock w) key). by destruct (Release _ _ _).
  - unfold Keep. by destruct (_ !! key).
  - by destruct (Hne key order).
  - destruct (_ !! i); [done|]. unfold wait_call, Reserve. specialize (HR (slots w) (clock w) key).
    by destruct (reserveLocked _ _ _) as [[? ?] ?].
  - destruct (_ !! i) as [x|]; [|done]. unfold wait_step. destruct (wpc x); try done.
    specialize (HR (slots w) (clock w) (wkey x)). by destruct (reserveLocked _ _ _) as [[? ?] ?].
  - destruct (_ !! i) as [x|]; [|done]. unfold wait_select. destruct (wpc x); try done. destruct k; try done.
    + by destruct (_ <? _)%N.
    + destruct (_ <=? _); [|done]. unfold Reserve. specialize (HR (slots w) (clock w) (wkey x)).
      by destruct (reserveLocked _ _ _) as [[? ?] ?].
  - unfold invite. destruct (uas w); try done. destruct (negb _); [done|]. by destruct (_ !! sid).
  - unfold admit_step. destruct (uas w); try done.
    + by destruct (IsWithdrawn _ _ _).
    + unfold Consume. by destruct (_ !! key).
    + unfold TryAcquire. by destruct (_ <=? _).
  - unfold setup. destruct (uas w); try done. destruct ok; [done|]. simpl. apply HF.
  - unfold endCall. by destruct (_ !! sid).
  - unfold cleanup. by destruct (_ !! sid).
  - unfold free_pending. destruct (_ !! n); [|done]. simpl. apply HF.
  - induction (size (dialogs w)) as [|n IH]; simpl; [done|]. by rewrite HF.
Qed.

Lemma now_mono w o : op_allowed o -> now (clock w) <= now (clock (exec_op w o)).
Proof.
  assert (HR : forall b c key, now (reserveLocked b c key).1.2 = now c).
  { intros b c key. unfold reserveLocked. destruct (_ !! _); [done|]. by destruct (_ <=? _). }
  assert (Hrel : forall b c key, now (Release b c key).2 = now c).
  { intros b c key. unfold Release. by destruct (_ !! _). }
  intros Ho. destruct o; simpl in *; try done; try lia.
  - unfold fire. destruct (_ !! r) as [[? ?]|]; [|done]. by destruct (_ <=? _).
  - unfold run_expire. by destruct (_ !! r).
  - specialize (HR (slots w) (clock w) key). unfold Reserve. destruct (reserveLocked _ _ _) as [[? ?] ?]. simpl in *. lia.
  - specialize (Hrel (slots w) (clock w) key). destruct (Release _ _ _). simpl in *. lia.
  - unfold Keep. by destruct (_ !! key).
  - unfold Withdraw. destruct (evict _ _ _ _); [|done]. simpl. destruct (_ !! key); [|done].
    match goal with |- context [Release ?b ?c ?k] => specialize (Hrel b c k); destruct (Release b c k) end.
    simpl in *. lia.
  - destruct (_ !! i); [done|]. unfold wait_call, Reserve. specialize (HR (slots w) (clock w) key).
    destruct (reserveLocked _ _ _) as [[? ?] ?]. simpl in *. lia.
  - destruct (_ !! i) as [x|]; [|done]. unfold wait_step. destruct (wpc x); try done.
    specialize (HR (slots w) (clock w) (wkey x)). destruct (reserveLocked _ _ _) as [[? ?] ?]. simpl in *. lia.
  - destruct (_ !! i) as [x|]; [|done]. unfold wait_select. destruct (wpc x); try done. destruct k; try done.
    + by destruct (_ <? _)%N.
    + destruct (_ <=? _); [|done]. unfold Reserve. specialize (HR (slots w) (clock w) (wkey x)).
      destruct (reserveLocked _ _ _) as [[? ?] ?]. simpl in *. lia.
  - unfold invite. destruct (uas w); try done. destruct (negb _); [done|]. by destruct (_ !! sid).
  - unfold admit_step. destruct (uas w); try done.
    + by destruct (IsWithdrawn _ _ _).
    + unfold Consume. by destruct (_ !! key).
    + unfold TryAcquire. by destruct (_ <=? _).
  - unfold setup. destruct (uas w); try done. by destruct ok.
  - unfold endCall. by destruct (_ !! sid).
  - unfold cleanup. by destruct (_ !! sid).
  - unfold free_pending. by destruct (_ !! n).
Qed.

Lemma now_mono_reaches w ops : Forall op_allowed ops -> now (clock w) <= now (clock (reaches w ops)).
Proof.
  intros Ho. revert w. induction Ho as [|o ops Ha Ho IH]; intros w; [done|]. simpl.
  etransitivity; [apply (now_mono w o Ha)|apply IH].
Qed.

Definition is_withdraw (o : Op) : bool := match o with OWithdraw _ _ => true | _ => false end.
Definition withdrawals (ops : list Op) : nat := length (filter (fun o => is_withdraw o = true) ops).

Lemma exec_ok w o : slots_ok w -> op_allowed o -> slots_ok (exec_op w o).
Proof. intros Hw Ho. exact (@inv_exec _ _ _ _ slots_invariant_instance w o Hw Ho). Qed.

Lemma withdrawn_kept ops : forall w key t, slots_ok w -> Forall op_allowed ops ->
  withdrawn (slots w) !! key = Some t -> (size (withdrawn (slots w)) + withdrawals ops <= withdrawnMax)%nat ->
  now (clock (reaches w ops)) - t < withdrawnFor ->
  exists t', withdrawn (slots (reaches w ops)) !! key = Some t' /\ t <= t'.
Proof.
  induction ops as [|o ops IH]; intros w key t Hw Ho Hk Hs Hn; [by exists t|].
  apply Forall_cons in Ho as [Ha Ho]. change (reaches w (o :: ops)) with (reaches (exec_op w o) ops) in *.
  pose proof (exec_ok w o Hw Ha) as Hw1. pose proof (now_mono w o Ha). pose proof (now_mono_reaches (exec_op w o) ops Ho).
  destruct (is_withdraw o) eqn:Hi.
  - destruct o as [| | | | | |key' order| | | | | | | | | |]; try done. cbn [exec_op] in *.
    assert (Hs' : withdrawals (OWithdraw key' order :: ops) = S (withdrawals ops)) by done. rewrite Hs' in Hs. clear Hs'.
    destruct (Withdraw_total (slots w) (clock w) key' order (so_timed w Hw) (so_memory w Hw) Ha)
      as (b & c & ok & HW & Hnew & _ & _ & _ & Hkeep & Hsz). rewrite HW in *.
    assert (Ht : t <= now (clock w)) by apply (proj1 (so_memory w Hw) key t Hk).
    destruct (decide (key' = key)) as [->|Hne].
    + destruct (IH _ key (now (clock w)) Hw1 Ho Hnew) as (t' & H1 & H2); [simpl; lia|lia|]. exists t'. split; [done|lia].
    + apply (IH _ key t Hw1 Ho); [|simpl; lia|done]. simpl. apply Hkeep; [lia|by apply not_eq_sym|done|].
      unfold Calendar.Sub, withdrawnFor, minute, second in *. lia.
  - assert (Hs' : withdrawals (o :: ops) = withdrawals ops).
    { unfold withdrawals. rewrite filter_cons_False by congruence. done. }
    rewrite Hs' in Hs. apply (IH _ key t Hw1 Ho).
    + rewrite withdrawn_unchanged; [done|]. by intros k or ->.
    + rewrite withdrawn_unchanged; [done|]. by intros k or ->.
    + done.
Qed.

(** a withdrawn call is not talked to. Once a call's key was withdrawn,
    an INVITE that arrives for it within ten minutes is refused as unavailable
    and takes no slot, whatever happened in between (as long as no more than
    4096 keys are remembered). *)
Theorem withdrawn_is_refused (w0 : World) (before after : list Op) (key sid : string) (order : Order)
    (Hw : started w0) (Hb : Forall op_allowed before) (Ho : order_ok order) (Ha : Forall op_allowed after) :
  let w1 := reaches w0 before in
  let w := reaches w1 (OWithdraw key order :: after) in
  (size (withdrawn (slots w1)) + S (withdrawals after) <= withdrawnMax)%nat ->
  now (clock w) - now (clock w1) < withdrawnFor ->
  uas w = UIdle -> isRunning w = true -> dialogs w !! sid = None -> key <> "" ->
  let w' := reaches w [OInvite sid key; OAdmit] in
  answers w' = answers w ++ [(sid, AnsUnavailable)] /\ slots w' = slots w.
Proof.
  intros w1 w Hs Hn Hu Hr Hd Hkey. pose proof (reached_ok w0 before Hw Hb) as Hok. fold w1 in Hok.
  destruct (Withdraw_total (slots w1) (clock w1) key order (so_timed w1 Hok) (so_memory w1 Hok) Ho)
    as (b & c & ok & HW & Hnew & _ & _ & Hmv & _ & Hsz).
  assert (Hok1 : slots_ok (exec_op w1 (OWithdraw key order))) by (by apply exec_ok).
  assert (Hw' : w = reaches (exec_op w1 (OWithdraw key order)) after) by done. clearbody w.
  pose proof (so_memory _ (eq_ind_r slots_ok (reaches_from (Op := Op) slots_ok _ after Hok1 Ha) Hw')) as [Hmem _].
  cbn [exec_op] in Hw', Hok1. rewrite HW in Hw', Hok1.
  destruct (withdrawn_kept after (with_slots w1 b c) key (now (clock w1)) Hok1 Ha Hnew) as (t' & H1 & H2);
    [simpl; lia|by rewrite <- Hw'|]. rewrite <- Hw' in H1.
  assert (Hyes : IsWithdrawn (slots w) (clock w) key = true).
  { unfold IsWithdrawn. setoid_rewrite H1. apply Z.ltb_lt. unfold Calendar.Sub, withdrawnFor, minute, second in *. lia. }
  intros w'. unfold w', reaches. simpl. unfold invite. rewrite Hu, Hr. simpl. rewrite Hd.
  rewrite (proj2 (String.eqb_neq key "") Hkey). unfold admit_step. cbn [uas with_uas slots clock].
  rewrite Hyes. simpl. by rewrite app_nil_r.
Qed.

(** the withdrawal has a gap. [handleInvite] asks whether the key was
    withdrawn and then takes a slot in separate steps, so a withdrawal that
    falls between the two reports that it took the reservation back (and the
    leg is hung up as never having reached the bot), and yet the INVITE, finding
    no reservation, takes a fresh slot and is accepted: a conversation with
    nobody, in a slot that counts as an inbound one. *)
Theorem withdraw_race (w0 : World) (ops : list Op) (key sid : string) (r : N) (order : Order)
    (Hw : started w0) (Hops : Forall op_allowed ops) (Ho : order_ok order) :
  let w := reaches w0 ops in
  uas w = UIdle -> isRunning w = true -> dialogs w !! sid = None -> key <> "" ->
  IsWithdrawn (slots w) (clock w) key = false -> reserved (slots w) !! key = Some r ->
  let w1 := reaches w [OInvite sid key; OAdmit] in
  (exists b c, Withdraw (slots w1) (clock w1) key order = Some (b, c, true)) /\
  let w' := reaches w1 [OWithdraw key order; OAdmit; OAdmit; OSetup true] in
  IsWithdrawn (slots w') (clock w') key = true /\
  answers w' = answers w ++ [(sid, AnsAccepted)] /\ dialogs w' !! sid = Some false.
Proof.
  intros w Hu Hr Hd Hkey Hno Hk w1. pose proof (reached_ok w0 ops Hw Hops) as Hok. fold w in Hok. clearbody w.
  assert (E1 : w1 = with_uas (with_uas w (UArrived sid key) []) (UConsuming sid key) []).
  { unfold w1, reaches. simpl. unfold invite. rewrite Hu, Hr. simpl. rewrite Hd.
    rewrite (proj2 (String.eqb_neq key "") Hkey). unfold admit_step. cbn [uas with_uas slots clock]. by rewrite Hno. }
  clearbody w1. assert (Es : slots w1 = slots w) by by rewrite E1. assert (Ec : clock w1 = clock w) by by rewrite E1.
  destruct (Withdraw_total (slots w) (clock w) key order (so_timed w Hok) (so_memory w Hok) Ho)
    as (b & c & ok & HW & Hnew & Hres & Hdel & Hmv & _).
  assert (ok = true) as -> by (apply Hres; by eexists).
  rewrite Es, Ec. split; [by exists b, c|].
  destruct Hmv as [[_ ?]|[Hmv _]]; [done|].
  assert (Ht : taken b = taken (slots w) + 0 + -1) by exact (moves_taken _ _ _ _ _ _ Hmv).
  pose proof (so_cap w Hok) as Hcap. pose proof (mv_cfg _ _ _ _ _ _ Hmv) as Hcfg.
  assert (Hnow : now c = now (clock w)).
  { unfold Withdraw in HW. destruct (evict _ _ _ _); [|done]. simpl in HW. setoid_rewrite Hk in HW.
    unfold Release in HW. simpl in HW. setoid_rewrite Hk in HW. by injection HW as _ <-. }
  assert (Hyes : IsWithdrawn b c key = true).
  { unfold IsWithdrawn. setoid_rewrite Hnew. apply Z.ltb_lt. rewrite Hnow.
    unfold Calendar.Sub, withdrawnFor, minute, second. lia. }
  intros w'. assert (E' : w' = reaches (with_slots w1 b c) [OAdmit; OAdmit; OSetup true]).
  { unfold w', reaches. simpl. by rewrite Es, Ec, HW. }
  rewrite E'. unfold reaches. simpl. rewrite E1. unfold admit_step. simpl.
  unfold Consume. simpl. rewrite Hdel, lookup_delete_eq. simpl.
  unfold TryAcquire. simpl. rewrite (proj2 (Z.leb_gt _ _)) by (rewrite Hcfg; lia). simpl.
  split; [exact Hyes|]. rewrite !app_nil_r. split; [done|]. apply lookup_insert_eq.
Qed.

(** *** Examples *)

Definition any_order : Order := fun _ => map_to_list.

Definition small_world : World :=
  mkWorld (mkSlots (mkConfig 2 1 second) 0 ∅ ∅ 0 0%N (mkStats 0 0 0 0) false 0) (mkClock 100 ∅ ∅ 0%N) ∅ UIdle ∅ [] true [] false.

Lemma small_world_started : started small_world.
Proof. exists (mkConfig 2 1 second), (slots small_world), 100. done. Defined.

Lemma any_order_ok : order_ok any_order.
Proof. intros i m. reflexivity. Defined.

(** One leg holds the outbound slot, a second is parked, the first one's call
    starts and ends. *)
Definition busy_hour : list Op :=
  [OReserve "a"; OWait 0 "b" second; OWaitStep 0; OWaitStep 0; OWaitStep 0;
   OInvite "s" "a"; OAdmit; OAdmit; OSetup true; OEndCall "s"; OFree 0].

Lemma busy_hour_allowed : Forall op_allowed busy_hour.
Proof. by repeat constructor. Defined.

Lemma slots_accounting_witness :
  let w := reaches small_world busy_hour in
  inUse (slots w) = 0 /\ waiting (slots w) = 1 /\ Made (stats (slots w)) = 1 /\ taken (slots w) <= 2.
Proof.
  pose proof (slots_accounting small_world busy_hour small_world_started busy_hour_allowed) as (_ & H & _).
  repeat (split; [vm_compute; reflexivity|]). exact H.
Defined.

Lemma no_missed_wakeup_witness :
  let w := reaches small_world busy_hour in
  let w' := reaches w [OSelect 0 WokenByChange; OWaitStep 0] in
  wpc <$> waiters w' !! 0%nat = Some (WLeaving true 0) /\ is_Some (reserved (slots w') !! "b").
Proof.
  destruct (no_missed_wakeup small_world busy_hour 0 (mkWaiter "b" second (WParked 100 (100 + second) 0))
    100 (100 + second) 0 small_world_started busy_hour_allowed) as [H _].
  - vm_compute. reflexivity.
  - reflexivity.
  - apply H. vm_compute. reflexivity.
Defined.

Lemma reservation_expires_witness :
  let w := reaches small_world [OReserve "a"; OKeep "a" 0] in
  reserved (slots w) !! "a" = Some 1%N /\
  reserved (slots (reaches w [OFire 0; OExpire 0])) !! "a" = Some 1%N.
Proof.
  assert (Ho : Forall op_allowed [OReserve "a"; OKeep "a" 0]) by by repeat constructor.
  destruct (reservation_expires small_world [OReserve "a"; OKeep "a" 0] "a" 1 small_world_started Ho) as [_ H].
  - vm_compute. reflexivity.
  - split; [vm_compute; reflexivity|]. by apply H.
Defined.

Lemma withdrawn_is_refused_witness :
  let w := reaches small_world [OReserve "a"; OWithdraw "a" any_order; OTick (9 * minute)] in
  answers (reaches w [OInvite "s" "a"; OAdmit]) = [("s", AnsUnavailable)].
Proof.
  assert (Ho : Forall op_allowed [OReserve "a"]) by by repeat constructor.
  assert (Ha : Forall op_allowed [OTick (9 * minute)]) by (repeat constructor; done).
  destruct (withdrawn_is_refused small_world [OReserve "a"] [OTick (9 * minute)] "a" "s" any_order
    small_world_started Ho any_order_ok Ha) as [H _].
  - vm_compute. lia.
  - reflexivity.
  - reflexivity.
  - reflexivity.
  - reflexivity.
  - discriminate.
  - exact H.
Defined.

Lemma withdraw_race_witness :
  let w := reaches small_world [OReserve "a"] in
  answers (reaches w [OInvite "s" "a"; OAdmit; OWithdraw "a" any_order; OAdmit; OAdmit; OSetup true]) =
    [("s", AnsAccepted)].
Proof.
  assert (Ho : Forall op_allowed [OReserve "a"]) by by repeat constructor.
  destruct (withdraw_race small_world [OReserve "a"] "a" "s" 0 any_order small_world_started Ho any_order_ok)
    as (_ & _ & H & _).
  - reflexivity.
  - reflexivity.
  - reflexivity.
  - discriminate.
  - reflexivity.
  - reflexivity.
  - exact H.
Defined.

End BotSlots.
