(* ===== verification/Lines.v ===== *)
(** * Outbound lines: [internal/outbound/lines.go]

    The account of the carrier lines each number (DID) has in use: lines
    reserved by calls this platform places, and legs observed that it did not
    place. Each operation is what its method does under the account's lock;
    [Sweep] takes the lock once to collect and again for each release, so its
    parts are operations of their own and others may fall between them.

    The switch's event ([telephony.SwitchEvent]) is a record of the fields the
    code reads; the catalogue's answer ("is this number one of ours") is an
    argument. The gauge of [internal/obs] and the log are left out. *)

From S2P Require Import Prelude Calendar.

Module Lines.

(** ** The account *)

(** [internal/outbound/lines.go:lineHold] *)
Record lineHold := mkHold { did : string; since : instant }.

(** [internal/outbound/lines.go:Lines] [signals] counts the calls of
    [onFree]. *)
Record Lines := mkLines {
  reserved : gmap uuid lineHold;
  observed : gmap string string;
  inUse : gmap string Z;
  lastSwp : instant;
  signals : Z
}.

(** [internal/outbound/lines.go:NewLines] *)
Definition NewLines : Lines := mkLines ∅ ∅ ∅ zero_time 0.

(** [internal/outbound/lines.go:Lines.freed] *)
Definition freed (l : Lines) : Lines :=
  mkLines (reserved l) (observed l) (inUse l) (lastSwp l) (signals l + 1).

(** [internal/outbound/lines.go:Lines.InUse] a missing key reads as zero. *)
Definition InUse (l : Lines) (d : string) : Z := default 0 (inUse l !! d).

(** [internal/outbound/lines.go:Lines.addLocked] *)
Definition addLocked (l : Lines) (d : string) (delta : Z) : Lines :=
  let n := InUse l d + delta in
  mkLines (reserved l) (observed l) (if n <=? 0 then delete d (inUse l) else <[d := n]> (inUse l)) (lastSwp l) (signals l).

Definition with_reserved (l : Lines) (m : gmap uuid lineHold) : Lines :=
  mkLines m (observed l) (inUse l) (lastSwp l) (signals l).
Definition with_observed (l : Lines) (m : gmap string string) : Lines :=
  mkLines (reserved l) m (inUse l) (lastSwp l) (signals l).

(** [internal/outbound/lines.go:Lines.Reserve] *)
Definition Reserve (l : Lines) (now : instant) (callID : uuid) (d : string) (limit : option Z) : Lines * bool :=
  match reserved l !! callID with
  | Some h => (l, String.eqb (did h) d)
  | None =>
      if match limit with Some n => n <=? InUse l d | None => false end then (l, false)
      else (addLocked (with_reserved l (<[callID := mkHold d now]> (reserved l))) d 1, true)
  end.

(** [internal/outbound/lines.go:Lines.Adopt] *)
Definition Adopt (l : Lines) (now : instant) (callID : uuid) (d : string) : Lines :=
  match reserved l !! callID with
  | Some _ => l
  | None => addLocked (with_reserved l (<[callID := mkHold d now]> (reserved l))) d 1
  end.

(** [internal/outbound/lines.go:Lines.Release] *)
Definition Release (l : Lines) (callID : uuid) : Lines * bool :=
  match reserved l !! callID with
  | None => (l, false)
  | Some h => (freed (addLocked (with_reserved l (delete callID (reserved l))) (did h) (-1)), true)
  end.

(** [internal/outbound/lines.go:Lines.Holds] *)
Definition Holds (l : Lines) (callID : uuid) : bool := bool_decide (is_Some (reserved l !! callID)).

(** [internal/outbound/lines.go:Lines.Observe] *)
Definition Observe (l : Lines) (channelID : string) (callID : uuid) (d : string) : Lines * bool :=
  if negb (bool_decide (callID = uuid_Nil)) && Holds l callID then (l, false)
  else match observed l !! channelID with
       | Some _ => (l, false)
       | None => (addLocked (with_observed l (<[channelID := d]> (observed l))) d 1, true)
       end.

(** [internal/outbound/lines.go:Lines.Unobserve] *)
Definition Unobserve (l : Lines) (channelID : string) : Lines :=
  match observed l !! channelID with
  | None => l
  | Some d => freed (addLocked (with_observed l (delete channelID (observed l))) d (-1))
  end.

(** [internal/outbound/lines.go:L185-L191] the loop of [KeepObserved], over
    the observed legs in whatever order the map gives them. *)
Definition drop_dead (live : gset string) (ln : Lines * Z) (leg : string * string) : Lines * Z :=
  if bool_decide (leg.1 ∈ live) then ln
  else (addLocked (with_observed ln.1 (delete leg.1 (observed ln.1))) leg.2 (-1), ln.2 + 1).

(** [internal/outbound/lines.go:Lines.KeepObserved] *)
Definition KeepObserved (l : Lines) (live : gset string) : Lines * Z :=
  let '(l, n) := fold_left (drop_dead live) (map_to_list (observed l)) (l, 0) in
  (if 0 <? n then freed l else l, n).

(** [internal/outbound/lines.go:Lines.Sweep] the part under the lock: the
    reservations that are too old, at most once a minute. *)
Definition sweep_collect (l : Lines) (now : instant) (maxAge : duration) : Lines * list uuid :=
  if Calendar.Sub now (lastSwp l) <? minute then (l, [])
  else (mkLines (reserved l) (observed l) (inUse l) now (signals l),
        (filter (fun kv => maxAge <? Calendar.Sub now (since kv.2) = true) (map_to_list (reserved l))).*1).

(** [internal/outbound/lines.go:Lines.Sweep] one turn of the loop after it. *)
Definition sweep_one (isLive : uuid -> bool) (lo : Lines * list uuid) (id : uuid) : Lines * list uuid :=
  if isLive id then lo
  else let '(l, ok) := Release lo.1 id in (l, if ok then lo.2 ++ [id] else lo.2).

(** [internal/outbound/lines.go:Lines.Sweep] when nothing falls between. *)
Definition Sweep (l : Lines) (now : instant) (maxAge : duration) (isLive : uuid -> bool) : Lines * list uuid :=
  let '(l, stale) := sweep_collect l now maxAge in fold_left (sweep_one isLive) stale (l, []).

(** ** What the service feeds it *)

Inductive CallDirection := DirectionInbound | DirectionOutbound | DirectionUnknown.

#[export] Instance CallDirection_eq_dec : EqDecision CallDirection.
Proof. solve_decision. Defined.

(** [internal/telephony/switchevent.go:SwitchEvent] the fields that decide
    what is observed; [EvDID], [EvPlacedBy] and [EvCallID] are the channel
    variables [aicc_did], [aicc_placed_by] and the parsed [aicc_call_id] of
    [Raw], [EvHasRaw] whether there is one. *)
Record SwitchEvent := mkEvent {
  EvHasRaw : bool;
  EvDirection : CallDirection;
  EvChannelID : string;
  EvDID : string;
  EvPlacedBy : string;
  EvCallID : option uuid;
  LegDID : string;
  DestinationNumber : string;
  MemberChannelID : string;
  ParentChannelID : string;
  CallTypeHint : string
}.

(** [internal/telephony/reconcile.go:const(PlacedByDialAI)] *)
Definition PlacedByDialAI : string := "DIAL_AI".

(** [internal/telephony/coordinator.go:isBotLeg] *)
Definition isBotLeg (ev : SwitchEvent) : bool :=
  bool_decide (EvDirection ev = DirectionOutbound) && negb (String.eqb (EvDID ev) "") &&
  String.eqb (DestinationNumber ev) (EvDID ev).

(** [internal/telephony/coordinator.go:OutboundLineLeg] *)
Definition OutboundLineLeg (ev : SwitchEvent) : option string :=
  if negb (EvHasRaw ev) || negb (bool_decide (EvDirection ev = DirectionOutbound)) then None
  else if String.eqb (LegDID ev) "" || isBotLeg ev || String.eqb (EvPlacedBy ev) PlacedByDialAI ||
          negb (String.eqb (MemberChannelID ev) "") || negb (String.eqb (ParentChannelID ev) "") then None
  else if String.eqb (CallTypeHint ev) "INBOUND" || String.eqb (CallTypeHint ev) "INTERNAL" then None
  else Some (LegDID ev).

(** [internal/outbound/lines.go:Service.isInternalNumber] [lookup] is the
    catalogue's answer, [None] an error or no catalogue. *)
Definition isInternalNumber (lookup : string -> option bool) (number : string) : bool :=
  if String.eqb number "" then false else match lookup number with Some b => b | None => false end.

(** [internal/outbound/lines.go:Service.observeLine] *)
Definition observeLine (lookup : string -> option bool) (l : Lines) (ev : SwitchEvent) : Lines :=
  match OutboundLineLeg ev with
  | None => l
  | Some d =>
      if isInternalNumber lookup (DestinationNumber ev) then l
      else (Observe l (EvChannelID ev) (default uuid_Nil (EvCallID ev)) d).1
  end.

(** [internal/telephony/reconcile.go:LiveChannel] the fields the account
    reads. *)
Record LiveChannel := mkLive {
  ChannelID : string;
  CallID : uuid;
  IsInbound : bool;
  IsBotLeg : bool;
  DID : string;
  PlacedBy : string;
  OutboundLineDID : string;
  DialedNumber : string
}.

(** [internal/outbound/lines.go:L272-L283] the loop body of
    [rebuildLines]. *)
Definition rebuild_one (lookup : string -> option bool) (now : instant) (l : Lines) (ch : LiveChannel) : Lines :=
  if IsBotLeg ch || IsInbound ch then l
  else if String.eqb (PlacedBy ch) PlacedByDialAI && negb (String.eqb (DID ch) "") then Adopt l now (CallID ch) (DID ch)
  else if String.eqb (PlacedBy ch) "" && negb (String.eqb (OutboundLineDID ch) "") &&
          negb (isInternalNumber lookup (DialedNumber ch))
       then (Observe l (ChannelID ch) (CallID ch) (OutboundLineDID ch)).1
  else l.

(** [internal/outbound/lines.go:Service.rebuildLines] *)
Definition rebuildLines (lookup : string -> option bool) (now : instant) (l : Lines) (live : list LiveChannel) : Lines :=
  (KeepObserved (fold_left (rebuild_one lookup now) live l) (list_to_set (ChannelID <$> live))).1.

(** ** The account as a machine

    [sweeping] are the calls a sweep found too old and has not come to yet. *)

Record World := mkWorld { lines : Lines; now : instant; sweeping : list uuid }.

Inductive Op :=
| OTick (d : duration)
| OReserve (callID : uuid) (d : string) (limit : option Z)
| OAdopt (callID : uuid) (d : string)
| ORelease (callID : uuid)
| OObserve (channelID : string) (callID : uuid) (d : string)
| OUnobserve (channelID : string)
| OKeepObserved (live : gset string)
| OSweep (maxAge : duration)
| OSweepNext (isLive : bool).

Definition exec_op (w : World) (o : Op) : World :=
  let l := lines w in
  let on l := mkWorld l (now w) (sweeping w) in
  match o with
  | OTick d => mkWorld l (now w + d) (sweeping w)
  | OReserve id d limit => on (Reserve l (now w) id d limit).1
  | OAdopt id d => on (Adopt l (now w) id d)
  | ORelease id => on (Release l id).1
  | OObserve ch id d => on (Observe l ch id d).1
  | OUnobserve ch => on (Unobserve l ch)
  | OKeepObserved live => on (KeepObserved l live).1
  | OSweep maxAge => let '(l, stale) := sweep_collect l (now w) maxAge in mkWorld l (now w) (sweeping w ++ stale)
  | OSweepNext isLive =>
      match sweeping w with
      | [] => w
      | id :: rest => mkWorld (sweep_one (fun _ => isLive) (l, []) id).1 (now w) rest
      end
  end.

#[export] Instance lines_machine : Machine World Op := {
  initial w := exists t, w = mkWorld NewLines t [];
  allowed o := match o with OTick d => 0 <= d | _ => True end;
  exec := exec_op
}.

(** What the account must say: a number's lines in use are the reservations
    and the observed legs on it. *)
Definition on_line (d : string) (h : lineHold) : bool := String.eqb (did h) d.

Definition held (l : Lines) (d : string) : Z :=
  map_count (on_line d) (reserved l) + map_count (fun x => String.eqb x d) (observed l).

Definition account_ok (l : Lines) : Prop :=
  forall d, InUse l d = held l d /\ (inUse l !! d = None \/ 0 < InUse l d).

(** ** Lemmas *)

Lemma InUse_add l d delta d' : 0 <= InUse l d + delta ->
  InUse (addLocked l d delta) d' = InUse l d' + (if String.eqb d' d then delta else 0).
Proof.
  intros H. unfold InUse at 1. unfold addLocked. simpl. destruct (String.eqb_spec d' d) as [->|Hne].
  - destruct (Z.leb_spec (InUse l d + delta) 0); [rewrite lookup_delete_eq|rewrite lookup_insert_eq]; simpl; lia.
  - destruct (_ <=? 0); [rewrite lookup_delete_ne by done|rewrite lookup_insert_ne by done]; unfold InUse; lia.
Qed.

Lemma held_nonneg l d : 0 <= held l d.
Proof. unfold held. pose proof (map_count_nonneg (on_line d) (reserved l)).
  pose proof (map_count_nonneg (fun x => String.eqb x d) (observed l)). lia. Qed.

(** One line more or less, in the account and in what is held. *)
Lemma account_step l l' d delta :
  account_ok l -> inUse l' = inUse (addLocked l d delta) ->
  (forall d', held l' d' = held l d' + (if String.eqb d' d then delta else 0)) -> account_ok l'.
Proof.
  intros Hl Ei Hh d'. pose proof (held_nonneg l' d) as Hpos. rewrite Hh, String.eqb_refl in Hpos.
  destruct (Hl d) as [Hd _]. assert (Hn : 0 <= InUse l d + delta) by lia.
  assert (Eu : InUse l' d' = InUse (addLocked l d delta) d') by (unfold InUse; by rewrite Ei).
  rewrite Eu, Hh, (InUse_add l d delta d' Hn). destruct (Hl d') as [Hd' Hpos']. split; [lia|].
  rewrite Ei. unfold addLocked. simpl. destruct (String.eqb_spec d' d) as [->|Hne].
  - destruct (Z.leb_spec (InUse l d + delta) 0); [left; apply lookup_delete_eq|right; lia].
  - destruct (_ <=? 0); [rewrite lookup_delete_ne by done|rewrite lookup_insert_ne by done];
      (destruct Hpos'; [by left|right; lia]).
Qed.

Lemma account_same l l' : account_ok l -> inUse l' = inUse l -> reserved l' = reserved l -> observed l' = observed l -> account_ok l'.
Proof. intros Hl E1 E2 E3 d. unfold InUse, held. rewrite E1, E2, E3. apply Hl. Qed.

Lemma hold_account l id d t :
  account_ok l -> reserved l !! id = None ->
  account_ok (addLocked (with_reserved l (<[id := mkHold d t]> (reserved l))) d 1).
Proof.
  intros Hl Hid. apply (account_step l _ d 1 Hl); [done|]. intros d'. unfold held. simpl.
  rewrite map_count_insert_new by done. unfold on_line at 2. simpl.
  rewrite (String.eqb_sym d d'). destruct (String.eqb d' d); simpl; lia.
Qed.

Lemma Reserve_account l t id d lim : account_ok l -> account_ok (Reserve l t id d lim).1.
Proof.
  intros Hl. unfold Reserve. destruct (reserved l !! id) eqn:E; [done|].
  destruct (match lim with Some n => _ | None => _ end); [done|]. by apply hold_account.
Qed.

Lemma Adopt_account l t id d : account_ok l -> account_ok (Adopt l t id d).
Proof. intros Hl. unfold Adopt. destruct (reserved l !! id) eqn:E; [done|]. by apply hold_account. Qed.

Lemma Release_account l id : account_ok l -> account_ok (Release l id).1.
Proof.
  intros Hl. unfold Release. destruct (reserved l !! id) as [h|] eqn:E; [|done].
  apply (account_step l _ (did h) (-1) Hl); [done|]. intros d'. unfold held. simpl.
  rewrite (map_count_delete _ _ _ h E). unfold on_line at 2. rewrite (String.eqb_sym (did h) d').
  destruct (String.eqb d' (did h)); simpl; lia.
Qed.

Lemma Observe_account l ch id d : account_ok l -> account_ok (Observe l ch id d).1.
Proof.
  intros Hl. unfold Observe. destruct (_ && _); [done|]. destruct (observed l !! ch) eqn:E; [done|].
  apply (account_step l _ d 1 Hl); [done|]. intros d'. unfold held. simpl.
  rewrite map_count_insert_new by done. rewrite (String.eqb_sym d d'). destruct (String.eqb d' d); simpl; lia.
Qed.

Lemma unobserve_account l ch d : account_ok l -> observed l !! ch = Some d ->
  account_ok (addLocked (with_observed l (delete ch (observed l))) d (-1)).
Proof.
  intros Hl E. apply (account_step l _ d (-1) Hl); [done|]. intros d'. unfold held. simpl.
  rewrite (map_count_delete _ _ _ d E). rewrite (String.eqb_sym d d'). destruct (String.eqb d' d); simpl; lia.
Qed.

Lemma Unobserve_account l ch : account_ok l -> account_ok (Unobserve l ch).
Proof.
  intros Hl. unfold Unobserve. destruct (observed l !! ch) as [d|] eqn:E; [|done].
  exact (unobserve_account l ch d Hl E).
Qed.

(** The loop of [KeepObserved], whatever order it runs in. *)
Lemma drop_dead_loop live legs : forall l n, NoDup legs.*1 ->
  (forall ch d, (ch, d) ∈ legs -> observed l !! ch = Some d) -> account_ok l ->
  let r := fold_left (drop_dead live) legs (l, n) in
  account_ok r.1 /\ reserved r.1 = reserved l /\ lastSwp r.1 = lastSwp l /\ signals r.1 = signals l /\
  observed r.1 = filter (fun kv => ~ (kv.1 ∈ legs.*1 /\ kv.1 ∉ live)) (observed l).
Proof.
  induction legs as [|[ch d] legs IH]; intros l n Hnd Hin Hl r.
  - subst r. simpl. repeat (split; [done|]). symmetry. apply map_filter_id. intros k x _ [H _]. set_solver.
  - apply NoDup_cons in Hnd as [Hch Hnd]. subst r. cbn [fold_left].
    destruct (decide (ch ∈ live)) as [Hlv|Hlv].
    + assert (drop_dead live (l, n) (ch, d) = (l, n)) as -> by (unfold drop_dead; simpl; by rewrite bool_decide_true).
      destruct (IH l n Hnd (fun k x H => Hin k x (list_elem_of_further _ _ _ H)) Hl) as (H1 & H2 & H3 & H4 & H5).
      repeat (split; [done|]). rewrite H5. apply map_filter_ext. intros k x _. simpl. set_solver.
    + assert (E : observed l !! ch = Some d) by (apply Hin; left).
      set (l1 := addLocked (with_observed l (delete ch (observed l))) d (-1)).
      assert (drop_dead live (l, n) (ch, d) = (l1, n + 1)) as -> by (unfold drop_dead; simpl; by rewrite bool_decide_false).
      destruct (IH l1 (n + 1) Hnd) as (H1 & H2 & H3 & H4 & H5).
      * intros k x Hk. simpl. rewrite lookup_delete_ne; [apply Hin; by right|].
        intros <-. apply Hch. apply list_elem_of_fmap. by exists (ch, x).
      * exact (unobserve_account l ch d Hl E).
      * repeat (split; [done|]). rewrite H5. simpl.
        apply map_eq. intros k. apply option_eq. intros x. rewrite !map_lookup_filter_Some. simpl.
        rewrite lookup_delete_Some. set_solver.
Qed.

Lemma drop_dead_none live legs l n :
  (forall ch, ch ∈ legs.*1 -> ch ∈ live) -> fold_left (drop_dead live) legs (l, n) = (l, n).
Proof.
  induction legs as [|[ch d] legs IH]; intros H; cbn [fold_left]; [done|].
  assert (drop_dead live (l, n) (ch, d) = (l, n)) as ->.
  { unfold drop_dead. simpl. rewrite bool_decide_true; [done|]. apply H. left. }
  apply IH. intros c Hc. apply H. by right.
Qed.

Lemma KeepObserved_spec l live : account_ok l ->
  let r := (KeepObserved l live).1 in
  account_ok r /\ reserved r = reserved l /\ lastSwp r = lastSwp l /\
  observed r = filter (fun kv => kv.1 ∈ live) (observed l) /\
  ((forall ch, is_Some (observed l !! ch) -> ch ∈ live) -> r = l).
Proof.
  intros Hl r.
  assert (Hk : forall k x, observed l !! k = Some x -> k ∈ (map_to_list (observed l)).*1).
  { intros k x Hk. apply list_elem_of_fmap. exists (k, x). split; [done|by apply elem_of_map_to_list]. }
  assert (Hin : forall ch d, (ch, d) ∈ map_to_list (observed l) -> observed l !! ch = Some d)
    by (intros ch d; apply elem_of_map_to_list).
  assert (Hsame : (forall ch, is_Some (observed l !! ch) -> ch ∈ live) -> r = l).
  { intros Hall. subst r. unfold KeepObserved. rewrite drop_dead_none; [done|].
    intros ch Hch. apply list_elem_of_fmap in Hch as ([c d] & -> & Hc). apply Hall. apply Hin in Hc. by eexists. }
  subst r. unfold KeepObserved in *.
  pose proof (drop_dead_loop live (map_to_list (observed l)) l 0 (NoDup_fst_map_to_list _) Hin Hl) as H.
  destruct (fold_left _ _ _) as [l' n]. simpl in *. destruct H as (H1 & H2 & H3 & _ & H5).
  assert (Eo : observed l' = filter (fun kv => kv.1 ∈ live) (observed l)).
  { rewrite H5. apply map_filter_ext. intros k x Hx. simpl. specialize (Hk k x Hx).
    destruct (decide (k ∈ live)); naive_solver. }
  split; [|split; [|split; [|split]]]; [|..|exact Hsame]; destruct (0 <? n); done.
Qed.

Lemma sweep_one_account f lo id : account_ok lo.1 -> account_ok (sweep_one f lo id).1.
Proof.
  intros Hl. unfold sweep_one. destruct (f id); [done|]. pose proof (Release_account lo.1 id Hl).
  by destruct (Release lo.1 id).
Qed.

#[export] Instance account_invariant : Invariant (fun w : World => account_ok (lines w)).
Proof.
  constructor.
  - intros w [t ->] d. unfold InUse, held. simpl. rewrite !map_count_empty, lookup_empty. by split; [|left].
  - intros w o Hl _. destruct o as [d|id d lim|id d|id|ch id d|ch|live|maxAge|lv]; simpl.
    + done.
    + by apply Reserve_account.
    + by apply Adopt_account.
    + by apply Release_account.
    + by apply Observe_account.
    + by apply Unobserve_account.
    + by apply KeepObserved_spec.
    + unfold sweep_collect. destruct (_ <? _); [done|]. by apply (account_same (lines w)).
    + destruct (sweeping w) as [|id rest]; [done|]. simpl. by apply sweep_one_account.
Qed.

Lemma reached_account w0 ops : initial w0 -> Forall allowed ops -> account_ok (lines (reaches w0 ops)).
Proof. intros Hw Ho. exact (reaches_invariant (fun w => account_ok (lines w)) w0 ops Hw Ho). Qed.

(** An operation that takes nothing. *)
Definition shrinks (l l' : Lines) : Prop := reserved l' ⊆ reserved l /\ observed l' ⊆ observed l.

Lemma map_count_mono {K A} `{Countable K} (f : A -> bool) (m m' : gmap K A) :
  m' ⊆ m -> map_count f m' <= map_count f m.
Proof. intros Hs. unfold map_count. apply inj_le, map_subseteq_size. apply map_subseteq_spec.
  intros i x [H1 H2]%map_lookup_filter_Some. apply map_lookup_filter_Some. split; [|done].
  by apply (lookup_weaken m').
Qed.

Lemma shrinks_InUse l l' d : account_ok l -> account_ok l' -> shrinks l l' -> InUse l' d <= InUse l d.
Proof.
  intros Hl Hl' [Hr Ho]. destruct (Hl d) as [-> _], (Hl' d) as [-> _]. unfold held.
  pose proof (map_count_mono (on_line d) _ _ Hr). pose proof (map_count_mono (fun x => String.eqb x d) _ _ Ho). lia.
Qed.

Lemma Release_shrinks l id : shrinks l (Release l id).1.
Proof. unfold Release. destruct (reserved l !! id); [|done]. split; [apply delete_subseteq|done]. Qed.

Lemma Unobserve_shrinks l ch : shrinks l (Unobserve l ch).
Proof. unfold Unobserve. destruct (observed l !! ch); [|done]. split; [done|apply delete_subseteq]. Qed.

(** The operations on number [d] the limit speaks of: reservations under it,
    and nothing counted without one. *)
Definition within_limit (d : string) (n : Z) (o : Op) : Prop :=
  match o with
  | OReserve _ d' lim => d' = d -> lim = Some n
  | OAdopt _ d' | OObserve _ _ d' => d' <> d
  | _ => True
  end.

Lemma taking_InUse l d d' : account_ok l -> InUse (addLocked l d 1) d' = InUse l d' + (if String.eqb d' d then 1 else 0).
Proof. intros Hl. apply InUse_add. destruct (Hl d) as [-> _]. pose proof (held_nonneg l d). lia. Qed.

Lemma addLocked_InUse l l' d delta d' : inUse l' = inUse l -> InUse (addLocked l' d delta) d' = InUse (addLocked l d delta) d'.
Proof. intros E. unfold InUse, addLocked. simpl. unfold InUse. by rewrite E. Qed.

Lemma limit_step d n w o : account_ok (lines w) -> within_limit d n o ->
  InUse (lines (exec_op w o)) d <= Z.max n (InUse (lines w) d).
Proof.
  intros Hl Ho. pose proof (@inv_exec _ _ _ _ account_invariant w (match o with OTick _ => OTick 0 | _ => o end) Hl ltac:(by destruct o)) as Hl'.
  destruct o as [dt|id d' lim|id d'|id|ch id d'|ch|live|maxAge|lv]; simpl in *; try (cbn [exec exec_op lines_machine lines] in Hl').
  - lia.
  - unfold Reserve in *. destruct (reserved (lines w) !! id) eqn:E; [simpl; lia|].
    destruct (String.eqb_spec d d') as [->|Hne].
    + rewrite (Ho eq_refl) in *. destruct (Z.leb_spec n (InUse (lines w) d')); simpl; [lia|].
      rewrite (addLocked_InUse (lines w)) by done. rewrite taking_InUse by done. rewrite String.eqb_refl. lia.
    + destruct (match lim with Some n => _ | None => _ end); simpl; [lia|].
      rewrite (addLocked_InUse (lines w)) by done. rewrite taking_InUse by done. rewrite (proj2 (String.eqb_neq _ _) Hne). lia.
  - unfold Adopt. destruct (reserved (lines w) !! id) eqn:E; [lia|].
    rewrite (addLocked_InUse (lines w)) by done. rewrite taking_InUse by done.
    rewrite (proj2 (String.eqb_neq d d')) by (by apply not_eq_sym). lia.
  - pose proof (shrinks_InUse _ _ d Hl Hl' (Release_shrinks (lines w) id)). lia.
  - unfold Observe. destruct (_ && _); [simpl; lia|]. destruct (observed (lines w) !! ch); simpl; [lia|].
    rewrite (addLocked_InUse (lines w)) by done. rewrite taking_InUse by done.
    rewrite (proj2 (String.eqb_neq d d')) by (by apply not_eq_sym). lia.
  - pose proof (shrinks_InUse _ _ d Hl Hl' (Unobserve_shrinks (lines w) ch)). lia.
  - destruct (KeepObserved_spec (lines w) live Hl) as (_ & Er & _ & Eo & _).
    pose proof (shrinks_InUse (lines w) _ d Hl Hl') as H. specialize (H ltac:(split; [by rewrite Er|rewrite Eo; apply map_filter_subseteq])). lia.
  - unfold sweep_collect. destruct (_ <? _); unfold InUse; simpl; lia.
  - destruct (sweeping w) as [|id rest]; [lia|]. simpl in *. unfold sweep_one in *. destruct lv; simpl in *; [lia|].
    pose proof (shrinks_InUse _ (Release (lines w) id).1 d Hl (Release_account _ id Hl) (Release_shrinks (lines w) id)) as H.
    destruct (Release (lines w) id). simpl in *. idtac.
 lia.
Qed.

(** ** Properties *)

(** C9: the line account never drifts. Over any interleaving of placements,
    endings, observed legs, reconciliations and sweeps (whose releases may
    come at any later moment), a number's lines in use are exactly the
    reservations and the observed legs it carries, never negative, and no
    entry is kept for a number that carries none. *)
Theorem lines_account (w0 : World) (ops : list Op) (Hw : initial w0) (Ho : Forall allowed ops) (d : string) :
  let l := lines (reaches w0 ops) in
  InUse l d = map_count (fun h => String.eqb (did h) d) (reserved l) + map_count (fun x => String.eqb x d) (observed l) /\
  (is_Some (inUse l !! d) <-> 0 < InUse l d).
Proof.
  intros l. pose proof (reached_account w0 ops Hw Ho d) as [H1 H2]. fold l in H1, H2. split; [exact H1|]. unfold InUse in *.
  destruct (inUse l !! d) as [n|]; simpl in *.
  - split; [intros _|by eexists]. by destruct H2.
  - split; [by intros [? ?]|lia].
Qed.

(** a number's limit holds under any interleaving. From a state reached
    in whatever way, as long as every placement on the number asks with limit
    [n] (and nothing is counted that the platform did not place), its lines
    in use never rise above [n]; a state already above it never rises. *)
Theorem limit_respected (w0 : World) (ops more : list Op) (Hw : initial w0) (Ho : Forall allowed ops)
    (Hm : Forall allowed more) (d : string) (n : Z) (Hn : Forall (within_limit d n) more) :
  InUse (lines (reaches (reaches w0 ops) more)) d <= Z.max n (InUse (lines (reaches w0 ops)) d).
Proof.
  pose proof (reached_account w0 ops Hw Ho) as Hl. set (w := reaches w0 ops) in *. clearbody w.
  revert w Hl. induction more as [|o more IH]; intros w Hl; [simpl; lia|].
  apply list.Forall_cons in Hm as [Ha Hm]. apply list.Forall_cons in Hn as [Hno Hn].
  pose proof (limit_step d n w o Hl Hno) as H1.
  pose proof (@inv_exec _ _ _ _ account_invariant w o Hl Ha) as Hl1.
  specialize (IH Hm Hn (exec_op w o) Hl1). change (reaches w (o :: more)) with (reaches (exec_op w o) more). lia.
Qed.

(** *** Rebuilding from the switch *)

Definition is_adopted (ch : LiveChannel) : bool :=
  negb (IsBotLeg ch || IsInbound ch) && (String.eqb (PlacedBy ch) PlacedByDialAI && negb (String.eqb (DID ch) "")).

(** A pass over [ch] would change nothing. *)
Definition settled (lookup : string -> option bool) (l : Lines) (ch : LiveChannel) : Prop :=
  forall t, rebuild_one lookup t l ch = l.

Definition grows (l l' : Lines) : Prop := reserved l ⊆ reserved l' /\ observed l ⊆ observed l'.

Lemma holds_grows l l' id : grows l l' -> Holds l id = true -> Holds l' id = true.
Proof.
  intros [Hr _] H. unfold Holds in *. rewrite bool_decide_eq_true in *. destruct H as [h Hh].
  exists h. by apply (lookup_weaken (reserved l)).
Qed.

Lemma settled_keeps lookup l l' ch :
  reserved l ⊆ reserved l' -> (forall x, observed l !! ChannelID ch = Some x -> observed l' !! ChannelID ch = Some x) ->
  settled lookup l ch -> settled lookup l' ch.
Proof.
  intros Hr Ho Hs t. specialize (Hs t). unfold rebuild_one in *. destruct (_ || _); [done|].
  destruct (String.eqb (PlacedBy ch) PlacedByDialAI && negb (String.eqb (DID ch) "")).
  - unfold Adopt in *. destruct (reserved l !! CallID ch) as [h|] eqn:E.
    + by rewrite (lookup_weaken _ _ _ _ E Hr).
    + exfalso. assert (reserved l !! CallID ch = Some (mkHold (DID ch) t)); [|congruence].
      rewrite <- Hs. simpl. apply lookup_insert_eq.
  - destruct (_ && _ && _); [|done]. unfold Observe in *.
    destruct (negb (bool_decide (CallID ch = uuid_Nil)) && Holds l (CallID ch)) eqn:E.
    + apply andb_true_iff in E as [E1 E2]. rewrite E1. simpl.
      assert (Holds l' (CallID ch) = true) as ->; [|done].
      unfold Holds in *. rewrite bool_decide_eq_true in *. destruct E2 as [h Hh]. exists h. by apply (lookup_weaken (reserved l)).
    + destruct (_ && Holds l' (CallID ch)); [done|]. destruct (observed l !! ChannelID ch) as [x|] eqn:Ex.
      * by rewrite (Ho x).
      * exfalso. assert (observed l !! ChannelID ch = Some (OutboundLineDID ch)); [|congruence].
        rewrite <- Hs. simpl. apply lookup_insert_eq.
Qed.

Lemma rebuild_one_spec lookup t l ch : account_ok l ->
  let l' := rebuild_one lookup t l ch in
  account_ok l' /\ grows l l' /\ settled lookup l' ch /\ (is_adopted ch = true -> Holds l' (CallID ch) = true).
Proof.
  intros Hl l'. subst l'. unfold rebuild_one, settled, is_adopted. unfold rebuild_one.
  destruct (_ || _); [by split_and!|].
  destruct (String.eqb (PlacedBy ch) PlacedByDialAI && negb (String.eqb (DID ch) "")).
  - split; [by apply Adopt_account|]. unfold Adopt, grows. destruct (reserved l !! CallID ch) as [h|] eqn:E.
    + split; [done|]. split; [intros t'; by rewrite E|]. intros _. unfold Holds. rewrite E. by apply bool_decide_eq_true.
    + simpl. split; [split; [by apply insert_subseteq|done]|]. split; [intros t'; by rewrite lookup_insert_eq|].
      intros _. unfold Holds. simpl. rewrite lookup_insert_eq. by apply bool_decide_eq_true.
  - destruct (_ && _ && _); [|by split_and!]. split; [by apply Observe_account|].
    unfold Observe, grows. destruct (negb (bool_decide (CallID ch = uuid_Nil)) && Holds l (CallID ch)) eqn:E.
    + simpl. rewrite E. done.
    + destruct (observed l !! ChannelID ch) as [x|] eqn:Ex; simpl.
      * rewrite E, Ex. done.
      * split; [split; [done|by apply insert_subseteq]|]. split; [|done]. intros t'.
        destruct (_ && _); [done|]. by rewrite lookup_insert_eq.
Qed.

Lemma rebuild_loop lookup t live : forall l, account_ok l ->
  let l' := fold_left (rebuild_one lookup t) live l in
  account_ok l' /\ grows l l' /\
  forall ch, ch ∈ live -> settled lookup l' ch /\ (is_adopted ch = true -> Holds l' (CallID ch) = true).
Proof.
  induction live as [|ch live IH]; intros l Hl; simpl.
  { split; [done|]. split; [done|]. intros ch Hch. by apply elem_of_nil in Hch. }
  destruct (rebuild_one_spec lookup t l ch Hl) as (H1 & H2 & H3 & H4).
  destruct (IH _ H1) as (H5 & H6 & H7). split; [done|].
  split; [split; (etransitivity; [apply H2|apply H6])|].
  intros c Hc. apply elem_of_cons in Hc as [->|Hc]; [|by apply H7].
  split; [|intros Ha; by apply (holds_grows _ _ _ H6), H4].
  apply (settled_keeps lookup _ _ ch (proj1 H6)); [|done]. intros x Hx. by apply (lookup_weaken _ _ _ _ Hx (proj2 H6)).
Qed.

Lemma rebuild_settled lookup t live l : (forall ch, ch ∈ live -> settled lookup l ch) ->
  fold_left (rebuild_one lookup t) live l = l.
Proof.
  induction live as [|ch live IH]; intros H; simpl; [done|]. rewrite (H ch ltac:(left)). apply IH. intros c Hc. apply H. by right.
Qed.

(** reading the account back from the switch is right and repeatable.
    After a pass over the complete listing of channels: the account still
    adds up; every AI call placed here with a number holds a line; no leg is
    counted whose channel the switch does not list; and a second pass over the
    same channels changes nothing. *)
Theorem rebuild_exact (lookup : string -> option bool) (t t' : instant) (w0 : World) (ops : list Op) (live : list LiveChannel)
    (Hw : initial w0) (Ho : Forall allowed ops) :
  let l := lines (reaches w0 ops) in
  let r := rebuildLines lookup t l live in
  (forall d, InUse r d = held r d) /\
  (forall ch, ch ∈ live -> is_adopted ch = true -> Holds r (CallID ch) = true) /\
  (forall id, is_Some (observed r !! id) -> id ∈ ChannelID <$> live) /\
  rebuildLines lookup t' r live = r.
Proof.
  intros l r. pose proof (reached_account w0 ops Hw Ho) as Hl. fold l in Hl. clearbody l.
  destruct (rebuild_loop lookup t live l Hl) as (H1 & H2 & H3). set (m := fold_left _ live l) in *.
  destruct (KeepObserved_spec m (list_to_set (ChannelID <$> live)) H1) as (K1 & K2 & _ & K4 & _).
  change (KeepObserved m _).1 with r in K1, K2, K4.
  assert (Hobs : forall id, is_Some (observed r !! id) -> id ∈ ChannelID <$> live).
  { intros id [x Hx]. rewrite K4 in Hx. apply map_lookup_filter_Some in Hx as [_ Hx]. simpl in Hx.
    by apply elem_of_list_to_set in Hx. }
  split; [intros d; apply K1|]. split.
  { intros ch Hch Ha. destruct (H3 ch Hch) as [_ H]. unfold Holds. rewrite K2. by apply H. }
  split; [exact Hobs|]. unfold rebuildLines. rewrite (rebuild_settled lookup t' live r).
  - destruct (KeepObserved_spec r (list_to_set (ChannelID <$> live)) K1) as (_ & _ & _ & _ & K).
    apply K. intros id Hid. apply elem_of_list_to_set. by apply Hobs.
  - intros ch Hch. apply (settled_keeps lookup m); [by rewrite K2| |by apply H3].
    intros x Hx. rewrite K4. apply map_lookup_filter_Some. split; [done|]. simpl.
    apply elem_of_list_to_set, list_elem_of_fmap. by exists ch.
Qed.

(** *** The sweep *)

Definition too_old (now : instant) (maxAge : duration) (h : lineHold) : bool := maxAge <? Calendar.Sub now (since h).

Lemma sweep_loop isLive stale : forall l out, NoDup stale -> (forall id, id ∈ stale -> is_Some (reserved l !! id)) ->
  let r := fold_left (sweep_one isLive) stale (l, out) in
  reserved r.1 = filter (fun kv => ~ (kv.1 ∈ stale /\ isLive kv.1 = false)) (reserved l) /\
  observed r.1 = observed l /\ r.2 = out ++ filter (fun id => isLive id = false) stale.
Proof.
  induction stale as [|id stale IH]; intros l out Hnd Hin; simpl.
  - split; [|by rewrite app_nil_r]. symmetry. apply map_filter_id. intros k x _ [H _]. by apply elem_of_nil in H.
  - apply NoDup_cons in Hnd as [Hid Hnd]. destruct (isLive id) eqn:Hlv.
    + assert (sweep_one isLive (l, out) id = (l, out)) as -> by (unfold sweep_one; by rewrite Hlv).
      destruct (IH l out Hnd) as (H1 & H2 & H3); [intros i Hi; apply Hin; by right|].
      rewrite H1, H2, H3, filter_cons_False by congruence. split; [|done].
      apply map_filter_ext. intros k x _. simpl. set_unfold. naive_solver congruence.
    + destruct (Hin id ltac:(left)) as [h Hh].
      set (l1 := freed (addLocked (with_reserved l (delete id (reserved l))) (did h) (-1))).
      assert (sweep_one isLive (l, out) id = (l1, out ++ [id])) as ->.
      { unfold sweep_one. rewrite Hlv. simpl. unfold Release. by rewrite Hh. }
      destruct (IH l1 (out ++ [id]) Hnd) as (H1 & H2 & H3).
      { intros i Hi. simpl. rewrite lookup_delete_ne by (intros <-; done). apply Hin. by right. }
      rewrite H1, H2, H3, filter_cons_True by done. split; [|split; [done|by rewrite <- app_assoc]].
      simpl. apply map_eq. intros k. apply option_eq. intros x. rewrite !map_lookup_filter_Some. simpl.
      rewrite lookup_delete_Some. set_unfold. naive_solver congruence.
Qed.

(** a sweep gives back exactly the stale lines. At most once a minute,
    and when nothing falls between its parts, it releases the reservations
    older than [maxAge] whose call is not live, reports exactly those, and
    leaves everything else as it was. *)
Theorem Sweep_exact (l : Lines) (now : instant) (maxAge : duration) (isLive : uuid -> bool) :
  let '(l', out) := Sweep l now maxAge isLive in
  if Calendar.Sub now (lastSwp l) <? minute then l' = l /\ out = []
  else
    reserved l' = filter (fun kv => ~ (too_old now maxAge kv.2 = true /\ isLive kv.1 = false)) (reserved l) /\
    observed l' = observed l /\ NoDup out /\
    (forall id, id ∈ out <-> exists h, reserved l !! id = Some h /\ too_old now maxAge h = true /\ isLive id = false).
Proof.
  unfold Sweep, sweep_collect. destruct (_ <? _); [done|].
  set (stale := (filter _ (map_to_list (reserved l))).*1).
  assert (Hst : forall id, id ∈ stale <-> exists h, reserved l !! id = Some h /\ too_old now maxAge h = true).
  { intros id. unfold stale. rewrite list_elem_of_fmap. split.
    - intros ([i h] & -> & Hh). apply list_elem_of_filter in Hh as [H1 H2]. apply elem_of_map_to_list in H2. by exists h.
    - intros (h & H1 & H2). exists (id, h). split; [done|]. apply list_elem_of_filter. split; [done|].
      by apply elem_of_map_to_list. }
  assert (Hnd : NoDup stale).
  { unfold stale. apply NoDup_fmap_fst; [|apply NoDup_filter, NoDup_map_to_list].
    intros i h1 h2 [_ H1]%list_elem_of_filter [_ H2]%list_elem_of_filter.
    apply elem_of_map_to_list in H1, H2. congruence. }
  set (l0 := mkLines _ _ _ _ _).
  pose proof (sweep_loop isLive stale l0 [] Hnd) as H. destruct (fold_left _ stale (l0, [])) as [l' out].
  destruct H as (H1 & H2 & H3); [intros id Hid; apply Hst in Hid as (h & Hh & _); by exists h|]. simpl in *.
  split; [|split; [done|]].
  - rewrite H1. apply map_filter_ext. intros k h Hk. simpl. rewrite Hst. naive_solver congruence.
  - rewrite H3. split; [by apply NoDup_filter|]. intros id. rewrite list_elem_of_filter, Hst. naive_solver.
Qed.

(** the sweep can take a line from under a new call. It lists the stale
    reservations under the lock and releases them one by one after letting go
    of it, by call id alone: a placement that was given up and tried again
    under the same id in between (its call not live yet) loses the line it has
    only just reserved, and the number reads a line short. *)
Theorem sweep_takes_fresh_line (w0 : World) (ops : list Op) (id : uuid) (rest : list uuid) (d : string) (lim : option Z)
    (Hw : initial w0) (Ho : Forall allowed ops) :
  let w := reaches w0 ops in
  sweeping w = id :: rest ->
  let w1 := reaches w [ORelease id; OReserve id d lim] in
  Holds (lines w1) id = true -> (reserved (lines w1) !! id) = Some (mkHold d (now w)) /\
  let w2 := reaches w1 [OSweepNext false] in
  Holds (lines w2) id = false /\ InUse (lines w2) d = InUse (lines w1) d - 1.
Proof.
  intros w Hs w1 Hh. pose proof (reached_account w0 ops Hw Ho) as Hl. fold w in Hl.
  assert (Hl1 : account_ok (lines w1)).
  { unfold w1, reaches. simpl. apply Reserve_account, Release_account, Hl. }
  assert (Hfree : reserved (Release (lines w) id).1 !! id = None).
  { unfold Release. destruct (reserved (lines w) !! id) eqn:E; [|done]. simpl. apply lookup_delete_eq. }
  assert (Hr : reserved (lines w1) !! id = Some (mkHold d (now w))).
  { unfold Holds in Hh. rewrite bool_decide_eq_true in Hh. unfold w1, reaches in *. simpl in *. unfold Reserve in *.
    rewrite Hfree in *. destruct (match lim with Some n => _ | None => _ end); simpl in *.
    - rewrite Hfree in Hh. by destruct Hh.
    - apply lookup_insert_eq. }
  assert (Hs1 : sweeping w1 = id :: rest) by done. clearbody w1.
  split; [exact Hr|]. intros w2.
  assert (E2 : lines w2 = (Release (lines w1) id).1).
  { unfold w2, reaches. simpl. rewrite Hs1. simpl. unfold sweep_one. simpl. by destruct (Release (lines w1) id). }
  rewrite E2. unfold Holds, Release. rewrite Hr. simpl. split; [by rewrite lookup_delete_eq|].
  change (InUse (freed ?x) d) with (InUse x d). rewrite (addLocked_InUse (lines w1)) by done.
  rewrite InUse_add, String.eqb_refl; [lia|]. destruct (Hl1 d) as [-> _]. unfold held.
  rewrite <- (insert_delete_id _ _ _ Hr), map_count_insert_new by apply lookup_delete_eq.
  unfold on_line at 2. simpl. rewrite String.eqb_refl. simpl.
  pose proof (map_count_nonneg (on_line d) (delete id (reserved (lines w1)))).
  pose proof (map_count_nonneg (fun x => String.eqb x d) (observed (lines w1))). lia.
Qed.

(** *** Examples *)

Definition fresh_world : World := mkWorld NewLines (1000 * hour) [].

Definition two_lines : list Op :=
  [OReserve 1 "95001" (Some 2); OReserve 2 "95001" (Some 2); OReserve 3 "95001" (Some 2); OObserve "ch-9" 0 "95002"; OTick hour; OSweep minute].

Lemma fresh_world_initial : initial fresh_world.
Proof. exists (1000 * hour). reflexivity. Defined.

Lemma two_lines_allowed : Forall allowed two_lines.
Proof. by repeat constructor. Defined.

Lemma lines_account_witness : InUse (lines (reaches fresh_world two_lines)) "95001" = 2.
Proof.
  destruct (lines_account fresh_world two_lines fresh_world_initial two_lines_allowed "95001") as [H _].
  rewrite H. vm_compute. reflexivity.
Defined.

Lemma limit_respected_witness :
  InUse (lines (reaches (reaches fresh_world []) two_lines)) "95001" <= 2.
Proof.
  apply (limit_respected fresh_world [] two_lines fresh_world_initial (list.Forall_nil_2 _) two_lines_allowed "95001" 2).
  repeat constructor; simpl; try done.
Defined.

Definition listing : list LiveChannel :=
  [mkLive "ch-1" 7 false false "95001" "DIAL_AI" "" ""; mkLive "ch-2" 8 false false "" "" "95002" "13800000000"].

Lemma rebuild_exact_witness :
  let r := rebuildLines (fun _ => Some false) 5 (lines (reaches fresh_world two_lines)) listing in
  InUse r "95002" = 1 /\ Holds r 7%N = true /\ rebuildLines (fun _ => Some false) 6 r listing = r.
Proof.
  destruct (rebuild_exact (fun _ => Some false) 5 6 fresh_world two_lines listing fresh_world_initial two_lines_allowed)
    as (H1 & H2 & _ & H4).
  split; [rewrite H1; vm_compute; reflexivity|]. split; [|exact H4].
  apply (H2 (mkLive "ch-1" 7 false false "95001" "DIAL_AI" "" "")); [left|reflexivity].
Defined.

Lemma sweep_takes_fresh_line_witness :
  let w1 := reaches (reaches fresh_world two_lines) [ORelease 2; OReserve 2 "95001" (Some 2)] in
  Holds (lines (reaches w1 [OSweepNext false])) 2%N = false.
Proof.
  destruct (sweep_takes_fresh_line fresh_world two_lines 2 [1%N] "95001" (Some 2) fresh_world_initial two_lines_allowed)
    as (_ & H & _).
  - vm_compute. reflexivity.
  - vm_compute. reflexivity.
  - exact H.
Defined.

End Lines.
