(* ===== verification/Events.v ===== *)
(** * The live event stream: [internal/events/seq.go] and [hub.go]

    Sequence numbers reserved from the database in blocks, by any number of
    processes; and the hub of one process, which stamps events, keeps a replay
    ring and fans out to subscribers without ever waiting for them.

    The database is its counter: [ReserveSeqBlock] advances it by the size
    asked for and answers the new value, or fails. The fields of an event the
    hub does not read are one value ([Body]). *)

From S2P Require Import Prelude.

Module Events.

(** ** Sequence numbers *)

(** [internal/events/seq.go:const(blockSize)] *)
Definition blockSize : Z := 100000.

(** [internal/events/seq.go:Sequence] *)
Record Sequence := mkSeq { next : Z; end_ : Z }.

(** [internal/events/seq.go:NewSequence] *)
Definition NewSequence : Sequence := mkSeq 0 0.

(** [internal/events/seq.go:Sequence.Next] [answer] is what the reserver
    answers if it is asked, [None] an error. *)
Definition Next (s : Sequence) (answer : option Z) : Sequence * Z * bool :=
  if next s <? end_ s then (mkSeq (next s + 1) (end_ s), next s + 1, true)
  else match answer with
       | None =>
           let n := next s + 1 in
           (mkSeq n (if end_ s <? n then n else end_ s), n, false)
       | Some upper =>
           let n := upper - blockSize + 1 in (mkSeq n upper, n, true)
       end.

(** [internal/events/seq.go:Sequence.Current] *)
Definition Current (s : Sequence) : Z := next s.

(** Whether [Next] will ask the reserver. *)
Definition asks (s : Sequence) : bool := negb (next s <? end_ s).

(** Processes that share the counter. [issued] is every id handed out so far,
    with the process, newest first. *)
Record Cluster := mkCluster { counter : Z; seqs : gmap nat Sequence; issued : list (nat * Z) }.

(** Process [p] asks for an id (starting if it is new); the database
    answers. *)
Definition cluster_next (c : Cluster) (p : nat) : Cluster :=
  let s := default NewSequence (seqs c !! p) in
  let counter' := if asks s then counter c + blockSize else counter c in
  let '(s', id, _) := Next s (Some counter') in
  mkCluster counter' (<[p := s']> (seqs c)) ((p, id) :: issued c).

(** ** The hub *)

(** [internal/events/event.go:const(Version)] *)
Definition Version : Z := 1.

(** [internal/events/event.go:Event] *)
Record Event := mkEvent { EvVersion : Z; Seq : Z; EvType : string; OccurredAt : instant; Body : N }.

#[export] Instance Event_eq_dec : EqDecision Event.
Proof. solve_decision. Defined.

(** [internal/events/event.go:Scope] *)
Record Scope := mkScope { AgentIDs : list uuid; QueueID : option uuid; IsBroadcast : bool }.

(** [internal/events/hub.go:Subscriber] *)
Record Subscriber := mkSubscriber {
  AgentID : option uuid;
  SeesEveryCall : bool;
  QueueIDs : list uuid;
  Types : list string
}.

(** [internal/events/hub.go:const(ringCapacity)] *)
Definition ringCapacity : Z := 65536.
(** [internal/events/hub.go:const(subscriberBuffer)] *)
Definition subscriberBuffer : Z := 64.

(** [internal/events/hub.go:ringEntry] *)
Record ringEntry := mkEntry { ev : Event; scope : Scope }.

(** [internal/events/hub.go:Subscription] [ch] is what the channel holds. *)
Record Subscription := mkSub { who : Subscriber; ch : list Event; closed : bool; Dropped : bool }.

(** [internal/events/hub.go:Hub] The subscriptions in [subs] are the ones that
    are not closed; a closed one is kept beside, for its reader. *)
Record Hub := mkHub {
  subs : gmap nat Subscription;
  ring : list ringEntry;
  ringAt : Z;
  oldest : Z
}.

(** [internal/events/hub.go:NewHub] *)
Definition NewHub : Hub := mkHub ∅ [] 0 0.

(** [internal/events/hub.go:containsType] *)
Definition containsType (l : list string) (v : string) : bool := contains l v.

(** [internal/events/hub.go:containsID] *)
Definition containsID (l : list uuid) (v : uuid) : bool := contains l v.

(** [internal/events/hub.go:Subscriber.wants] *)
Definition wants (s : Subscriber) (e : Event) (sc : Scope) : bool :=
  if (0 <? Z.of_nat (length (Types s))) && negb (containsType (Types s) (EvType e)) then false
  else if SeesEveryCall s then true
  else if IsBroadcast sc then true
  else if match AgentID s with Some a => containsID (AgentIDs sc) a | None => false end then true
  else if match QueueID sc with Some q => containsID (QueueIDs s) q | None => false end then true
  else false.

Definition seq_at (r : list ringEntry) (i : Z) : Z :=
  match r !! Z.to_nat i with Some e => Seq (ev e) | None => 0 end.

(** [internal/events/hub.go:Hub.appendRing] *)
Definition appendRing (h : Hub) (e : ringEntry) : Hub :=
  let '(r, at') :=
    if Z.of_nat (length (ring h)) <? ringCapacity then (ring h ++ [e], ringAt h)
    else (<[Z.to_nat (ringAt h) := e]> (ring h), (ringAt h + 1) mod ringCapacity) in
  mkHub (subs h) r at' (if Z.of_nat (length r) <? ringCapacity then seq_at r 0 else seq_at r at').

(** [internal/events/hub.go:Hub.snapshotLocked] *)
Definition snapshotLocked (h : Hub) : list ringEntry :=
  if Z.of_nat (length (ring h)) <? ringCapacity then ring h
  else drop (Z.to_nat (ringAt h)) (ring h) ++ take (Z.to_nat (ringAt h)) (ring h).

(** [internal/events/hub.go:L97-L111] what the loop of [Publish] does to one
    subscription: nothing, one more in its buffer, or dropped for lagging. *)
Definition offer (e : ringEntry) (s : Subscription) : Subscription :=
  if closed s then s
  else if negb (wants (who s) (ev e) (scope e)) then s
  else if Z.of_nat (length (ch s)) <? subscriberBuffer then mkSub (who s) (ch s ++ [ev e]) false (Dropped s)
  else mkSub (who s) (ch s) true true.

(** [internal/events/hub.go:Hub.Publish] the part before the lock: the stamp. *)
Definition stamp (s : Sequence) (answer : option Z) (now : instant) (e : Event) : Sequence * Event :=
  let '(s', id, _) := Next s answer in
  (s', mkEvent Version id (EvType e) (if is_zero (OccurredAt e) then now else OccurredAt e) (Body e)).

(** [internal/events/hub.go:Hub.Publish] the part under the lock. *)
Definition emit (h : Hub) (e : ringEntry) : Hub :=
  let h := appendRing h e in
  mkHub (offer e <$> subs h) (ring h) (ringAt h) (oldest h).

(** [internal/events/hub.go:Hub.Subscribe] *)
Definition Subscribe (h : Hub) (sid : nat) (w : Subscriber) (lastEventID : Z) : Hub * list Event * bool :=
  let h' := mkHub (<[sid := mkSub w [] false false]> (subs h)) (ring h) (ringAt h) (oldest h) in
  if lastEventID <=? 0 then (h', [], false)
  else if (oldest h =? 0) || (lastEventID + 1 <? oldest h) then (h', [], true)
  else (h', ev <$> filter (fun e => (lastEventID <? Seq (ev e)) && wants w (ev e) (scope e) = true) (snapshotLocked h), false).

(** [internal/events/hub.go:Hub.removeLocked] *)
Definition removeLocked (s : Subscription) : Subscription := mkSub (who s) (ch s) true (Dropped s).

(** [internal/events/hub.go:Subscription.Close] *)
Definition Close (h : Hub) (sid : nat) : Hub := mkHub (alter removeLocked sid (subs h)) (ring h) (ringAt h) (oldest h).

(** [internal/events/hub.go:Hub.OldestSeq] *)
Definition OldestSeq (h : Hub) : Z := oldest h.

(** [internal/events/hub.go:Hub.SubscriberCount] *)
Definition SubscriberCount (h : Hub) : Z := map_count (fun s => negb (closed s)) (subs h).

(** ** Publishers and readers

    [pending] are the publishers between their stamp and the lock. [history]
    is every event emitted, oldest first. A client is what one stream was
    told when it subscribed and what it has read since; [since] is how much of
    the history there was then. *)
Record Client := mkClient {
  lastID : Z;
  reset : bool;
  replay : list Event;
  got : list Event;
  since : nat
}.

Record World := mkWorld {
  seq : Sequence;
  hub : Hub;
  pending : gmap nat ringEntry;
  history : list ringEntry;
  clients : gmap nat Client
}.

Inductive Op :=
| OStamp (p : nat) (answer : option Z) (now : instant) (e : Event) (sc : Scope)
| OEmit (p : nat)
| OSubscribe (sid : nat) (w : Subscriber) (lastEventID : Z)
| OReceive (sid : nat)
| OClose (sid : nat).

Definition receive (s : Subscription) : Subscription := mkSub (who s) (tail (ch s)) (closed s) (Dropped s).

Definition exec_op (w : World) (o : Op) : World :=
  let h := hub w in
  match o with
  | OStamp p answer now e sc =>
      match pending w !! p with
      | Some _ => w
      | None =>
          let '(s, e) := stamp (seq w) answer now e in
          mkWorld s h (<[p := mkEntry e sc]> (pending w)) (history w) (clients w)
      end
  | OEmit p =>
      match pending w !! p with
      | None => w
      | Some e => mkWorld (seq w) (emit h e) (delete p (pending w)) (history w ++ [e]) (clients w)
      end
  | OSubscribe sid who lastEventID =>
      match subs h !! sid with
      | Some _ => w
      | None =>
          let '(h, replay, reset) := Subscribe h sid who lastEventID in
          mkWorld (seq w) h (pending w) (history w)
            (<[sid := mkClient lastEventID reset replay [] (length (history w))]> (clients w))
      end
  | OReceive sid =>
      match subs h !! sid with
      | Some s =>
          match ch s with
          | [] => w
          | e :: _ =>
              mkWorld (seq w) (mkHub (<[sid := receive s]> (subs h)) (ring h) (ringAt h) (oldest h)) (pending w) (history w)
                (alter (fun c => mkClient (lastID c) (reset c) (replay c) (got c ++ [e]) (since c)) sid (clients w))
          end
      | None => w
      end
  | OClose sid => mkWorld (seq w) (Close h sid) (pending w) (history w) (clients w)
  end.

#[export] Instance events_machine : Machine World Op := {
  initial w := w = mkWorld NewSequence NewHub ∅ [] ∅;
  allowed _ := True;
  exec := exec_op
}.

(** The events of [l] a subscriber is to be told, and those after [n]. *)
Definition wanted (w : Subscriber) (l : list ringEntry) : list Event :=
  ev <$> filter (fun e => wants w (ev e) (scope e) = true) l.
Definition wanted_after (w : Subscriber) (n : Z) (l : list ringEntry) : list Event :=
  ev <$> filter (fun e => (n <? Seq (ev e)) && wants w (ev e) (scope e) = true) l.

(** Events emitted in the order of their numbers. *)
Definition seq_lt (a b : Event) : Prop := Seq a < Seq b.
Definition in_order (l : list ringEntry) : Prop := StronglySorted seq_lt (ev <$> l).

(** ** Lemmas *)

(** *** Sequence numbers *)

Record cluster_ok (c : Cluster) : Prop := mkClusterOk {
  co_counter : 0 <= counter c;
  co_range : forall p s, seqs c !! p = Some s -> 0 <= next s <= end_ s /\ end_ s <= counter c;
  co_blocks : forall p q s t id, p <> q -> seqs c !! p = Some s -> seqs c !! q = Some t ->
    next s < id <= end_ s -> ~ next t < id <= end_ t;
  co_issued : forall p id, (p, id) ∈ issued c ->
    id <= counter c /\ (forall q t, seqs c !! q = Some t -> ~ next t < id <= end_ t) /\
    exists s, seqs c !! p = Some s /\ id <= next s;
  co_unique : NoDup (issued c).*2;
  co_sorted : forall p, StronglySorted (fun a b => b < a) (filter (fun x => x.1 = p) (issued c)).*2
}.

Lemma cluster_next_shape c p : cluster_ok c ->
  exists id e counter', cluster_next c p = mkCluster counter' (<[p := mkSeq id e]> (seqs c)) ((p, id) :: issued c) /\
    let s := default NewSequence (seqs c !! p) in
    0 <= next s < id /\ id <= e /\ e <= counter' /\ counter c <= counter' /\
    ((next s < id <= end_ s /\ e = end_ s /\ counter' = counter c) \/ (counter c < id)).
Proof.
  intros Hc. set (s := default NewSequence (seqs c !! p)).
  assert (Hs : 0 <= next s <= end_ s /\ end_ s <= counter c).
  { unfold s. destruct (seqs c !! p) eqn:E; simpl; [by apply (co_range c Hc p)|]. pose proof (co_counter c Hc). lia. }
  unfold cluster_next. fold s. unfold asks, Next. destruct (Z.ltb_spec (next s) (end_ s)) as [Hlt|Hge]; simpl.
  - eexists _, _, _. split; [reflexivity|]. lia.
  - eexists _, _, _. split; [reflexivity|]. unfold blockSize. lia.
Qed.

Lemma cluster_next_ok c p : cluster_ok c -> cluster_ok (cluster_next c p).
Proof.
  intros Hc. destruct (cluster_next_shape c p Hc) as (id & e & c' & -> & Hn & He & Hc' & Hm & Hcase).
  set (s := default NewSequence (seqs c !! p)) in *. destruct Hc as [H0 Hr Hb Hi Hu Hs].
  assert (Hnew : id ∉ (issued c).*2).
  { intros Hin. apply list_elem_of_fmap in Hin as ([q id'] & Hid & Hin). simpl in Hid. subst id'.
    destruct (Hi q id Hin) as (Hle & Hfree & _). destruct Hcase as [(Hid & _ & _)|Hgt]; [|lia].
    destruct (seqs c !! p) as [s0|] eqn:E; simpl in s; [by apply (Hfree p s0)|]. unfold s in *. simpl in *. lia. }
  assert (Hown : forall q t x, q <> p -> seqs c !! q = Some t -> next t < x <= end_ t -> ~ id <= x <= e).
  { intros q t x Hq Ht Hx Hxe. destruct Hcase as [(Hid & -> & _)|Hgt].
    - destruct (seqs c !! p) as [s0|] eqn:E; unfold s in *; simpl in *; [|lia].
      apply (Hb q p t s0 x Hq Ht E Hx). lia.
    - pose proof (Hr q t Ht). lia. }
  constructor; simpl.
  - lia.
  - intros q t Ht. apply lookup_insert_Some in Ht as [[<- <-]|[Hq Ht]]; simpl; [lia|]. pose proof (Hr q t Ht). lia.
  - intros q q' t t' x Hne Ht Ht' Hx Hx'.
    apply lookup_insert_Some in Ht as [[<- <-]|[Hq Ht]]; apply lookup_insert_Some in Ht' as [[<- <-]|[Hq' Ht']]; simpl in *.
    + done.
    + by apply (Hown q' t' x); [|done..|lia].
    + by apply (Hown q t x); [|done..|lia].
    + by apply (Hb q q' t t' x).
  - intros q x Hx. apply elem_of_cons in Hx as [[= -> ->]|Hx].
    + split; [lia|]. split; [|exists (mkSeq id e); split; [apply lookup_insert_eq|simpl; lia]].
      intros q' t Ht Hx. apply lookup_insert_Some in Ht as [[<- <-]|[Hq Ht]]; simpl in *; [lia|].
      apply (Hown q' t id); [by apply not_eq_sym|done|lia|lia].
    + destruct (Hi q x Hx) as (Hle & Hfree & t & Ht & Hxt). split; [lia|]. split.
      * intros q' t' Ht' Hx'. apply lookup_insert_Some in Ht' as [[<- <-]|[Hq Ht']]; simpl in *; [|by apply (Hfree q' t')].
        destruct Hcase as [(Hid & -> & _)|Hgt]; [|lia].
        destruct (seqs c !! p) as [s0|] eqn:E; unfold s in *; simpl in *; [|lia]. apply (Hfree p s0 E). lia.
      * destruct (decide (q = p)) as [->|Hq].
        -- exists (mkSeq id e). split; [apply lookup_insert_eq|]. simpl. unfold s in *. rewrite Ht in Hn. simpl in Hn. lia.
        -- exists t. by rewrite lookup_insert_ne by (by apply not_eq_sym).
  - by apply NoDup_cons.
  - intros q. destruct (decide (p = q)) as [<-|Hq].
    + rewrite filter_cons_True by done. simpl. constructor; [apply Hs|]. apply list.Forall_forall. intros x Hx.
      apply list_elem_of_fmap in Hx as ([q x'] & -> & Hx). apply list_elem_of_filter in Hx as [Hq Hx]. simpl in *. subst q.
      destruct (Hi p x' Hx) as (_ & _ & t & Ht & Hxt). unfold s in *. rewrite Ht in Hn. simpl in Hn. lia.
    + rewrite filter_cons_False by (simpl; congruence). apply Hs.
Qed.

(** *** The ring *)

(** The last [n] of a list. *)
Definition lastn {A} (n : nat) (l : list A) : list A := drop (length l - n) l.

Lemma lastn_all {A} n (l : list A) : (length l <= n)%nat -> lastn n l = l.
Proof. intros H. unfold lastn. by replace (length l - n)%nat with 0%nat by lia. Qed.

Lemma lastn_snoc {A} n (l : list A) x : lastn n (lastn n l ++ [x]) = lastn n (l ++ [x]).
Proof.
  unfold lastn. rewrite !length_app, length_drop. simpl.
  destruct (decide (length l <= n)%nat) as [Hle|Hgt].
  - replace (length l - n)%nat with 0%nat by lia. simpl. by replace (length l - 0)%nat with (length l) by lia.
  - replace (length l - (length l - n) + 1 - n)%nat with 1%nat by lia.
    replace (length l + 1 - n)%nat with ((length l - n) + 1)%nat by lia. rewrite <- drop_drop.
    rewrite (drop_app_le l) by lia. done.
Qed.

Lemma lastn_tail {A} n (x : A) l y : length (x :: l) = n -> lastn n ((x :: l) ++ [y]) = l ++ [y].
Proof. intros <-. unfold lastn. rewrite length_app. change (length [y]) with 1%nat.
  by replace (length (x :: l) + 1 - length (x :: l))%nat with 1%nat by lia.
Qed.

Section ring.
Variable c : Z.
Hypothesis Hc : 0 < c.

(** The ring read from its oldest entry. *)
Definition unroll (r : list ringEntry) (at' : Z) : list ringEntry :=
  if Z.of_nat (length r) <? c then r else drop (Z.to_nat at') r ++ take (Z.to_nat at') r.

Definition ring_shape (r : list ringEntry) (at' : Z) : Prop :=
  Z.of_nat (length r) <= c /\ 0 <= at' < c /\ (Z.of_nat (length r) < c -> at' = 0).

Lemma append_fills r at' e : ring_shape r at' -> Z.of_nat (length r) < c ->
  ring_shape (r ++ [e]) at' /\ unroll (r ++ [e]) at' = lastn (Z.to_nat c) (unroll r at' ++ [e]).
Proof using Hc.
  intros (Hl & Ha & Hz) Hlt. rewrite (Hz Hlt). assert (Hlen : length (r ++ [e]) = S (length r)) by (rewrite length_app; simpl; lia).
  split; [unfold ring_shape; rewrite Hlen; lia|].
  unfold unroll. rewrite (proj2 (Z.ltb_lt _ _) Hlt). change (Z.to_nat 0) with 0%nat. rewrite drop_0, app_nil_r.
  rewrite lastn_all by lia. by destruct (_ <? _).
Qed.

Lemma append_wraps r at' e : ring_shape r at' -> c <= Z.of_nat (length r) ->
  ring_shape (<[Z.to_nat at' := e]> r) ((at' + 1) mod c) /\
  unroll (<[Z.to_nat at' := e]> r) ((at' + 1) mod c) = lastn (Z.to_nat c) (unroll r at' ++ [e]).
Proof using Hc.
  intros (Hl & Ha & Hz) Hge. pose proof (Z.mod_pos_bound (at' + 1) c Hc).
  split; [unfold ring_shape; rewrite length_insert; lia|].
  assert (Hat : (Z.to_nat at' < length r)%nat) by lia.
  unfold unroll. rewrite length_insert, (proj2 (Z.ltb_ge _ _) Hge).
  apply lookup_lt_is_Some in Hat as [x Hx]. rewrite (drop_S _ x _ Hx).
  rewrite <- (app_comm_cons _ _ x). rewrite lastn_tail.
  2:{ simpl. rewrite length_app, length_drop, length_take. lia. }
  destruct (decide (at' + 1 = c)) as [E|Hne].
  - rewrite E, Z_mod_same_full. change (Z.to_nat 0) with 0%nat. rewrite drop_0. simpl. rewrite app_nil_r, drop_ge by lia. simpl.
    rewrite insert_take_drop by lia. by rewrite drop_ge by lia.
  - rewrite Z.mod_small by lia. replace (Z.to_nat (at' + 1)) with (S (Z.to_nat at')) by lia.
    rewrite drop_insert_lt by lia. rewrite <- app_assoc. f_equal.
    rewrite (take_S_r _ _ e) by (apply list_lookup_insert_eq; lia). by rewrite take_insert_ge by lia.
Qed.

Lemma unroll_head r at' : ring_shape r at' ->
  (if Z.of_nat (length r) <? c then seq_at r 0 else seq_at r at') =
  match unroll r at' with [] => 0 | e :: _ => Seq (ev e) end.
Proof using Hc.
  intros (Hl & Ha & Hz). unfold unroll, seq_at. destruct (Z.ltb_spec (Z.of_nat (length r)) c) as [Hlt|Hge].
  - by destruct r.
  - assert (Hlt : (Z.to_nat at' < length r)%nat) by lia.
    apply lookup_lt_is_Some in Hlt as [x Hx]. rewrite Hx. by rewrite (drop_S _ x _ Hx).
Qed.

End ring.

Notation cap := (Z.to_nat ringCapacity).

Record ring_ok (h : Hub) (hist : list ringEntry) : Prop := mkRingOk {
  ro_shape : ring_shape ringCapacity (ring h) (ringAt h);
  ro_snap : snapshotLocked h = lastn cap hist;
  ro_oldest : oldest h = match lastn cap hist with [] => 0 | e :: _ => Seq (ev e) end
}.

Lemma appendRing_ok h hist e : ring_ok h hist -> ring_ok (appendRing h e) (hist ++ [e]).
Proof.
  intros [Hsh Hs _]. assert (Hpos : 0 < ringCapacity) by reflexivity.
  change (unroll ringCapacity (ring h) (ringAt h) = lastn cap hist) in Hs. unfold appendRing.
  assert (H : let '(r, a) := if Z.of_nat (length (ring h)) <? ringCapacity then (ring h ++ [e], ringAt h)
                else (<[Z.to_nat (ringAt h) := e]> (ring h), (ringAt h + 1) mod ringCapacity) in
              ring_shape ringCapacity r a /\ unroll ringCapacity r a = lastn cap (hist ++ [e])).
  { rewrite <- lastn_snoc, <- Hs. destruct (Z.ltb_spec (Z.of_nat (length (ring h))) ringCapacity).
    - by apply append_fills.
    - by apply append_wraps. }
  destruct (if _ <? _ then _ else _) as [r a]. destruct H as [H1 H2]. constructor; cbn [ring ringAt oldest].
  - exact H1.
  - exact H2.
  - rewrite (unroll_head ringCapacity Hpos) by exact H1. by rewrite H2.
Qed.

(** *** The stream *)

Lemma wanted_app w l1 l2 : wanted w (l1 ++ l2) = wanted w l1 ++ wanted w l2.
Proof. unfold wanted. by rewrite filter_app, fmap_app. Qed.

Lemma wanted_one w e : wanted w [e] = if wants w (ev e) (scope e) then [ev e] else [].
Proof. unfold wanted. destruct (wants w (ev e) (scope e)) eqn:E; [by rewrite filter_cons_True|by rewrite filter_cons_False by congruence]. Qed.

(** A client and its subscription, over the history so far. *)
Record client_ok (hist : list ringEntry) (s : Subscription) (c : Client) : Prop := mkClientOk {
  cl_since : (since c <= length hist)%nat;
  cl_fresh : lastID c <= 0 -> reset c = false /\ replay c = [];
  cl_reset : reset c = true -> replay c = [] /\
    match lastn cap (take (since c) hist) with [] => True | e :: _ => Seq (ev e) = 0 \/ lastID c + 1 < Seq (ev e) end;
  cl_replay : 0 < lastID c -> reset c = false ->
    replay c = wanted_after (who s) (lastID c) (lastn cap (take (since c) hist)) /\
    match lastn cap (take (since c) hist) with [] => False | e :: _ => Seq (ev e) <= lastID c + 1 end;
  cl_open : closed s = false -> got c ++ ch s = wanted (who s) (drop (since c) hist);
  cl_prefix : exists k, got c ++ ch s = wanted (who s) (take k (drop (since c) hist));
  cl_buffer : Z.of_nat (length (ch s)) <= subscriberBuffer
}.

Record stream_ok (w : World) : Prop := mkStreamOk {
  st_ring : ring_ok (hub w) (history w);
  st_subs : forall sid s, subs (hub w) !! sid = Some s -> exists c, clients w !! sid = Some c /\ client_ok (history w) s c;
  st_clients : forall sid c, clients w !! sid = Some c -> is_Some (subs (hub w) !! sid)
}.

Lemma client_ok_same hist s s' c c' :
  client_ok hist s c -> who s' = who s -> lastID c' = lastID c -> reset c' = reset c -> replay c' = replay c ->
  since c' = since c -> got c' ++ ch s' = got c ++ ch s -> (closed s' = false -> closed s = false) ->
  (length (ch s') <= length (ch s))%nat -> client_ok hist s' c'.
Proof.
  intros [] E1 E2 E3 E4 E5 E6 E7 E8. constructor; rewrite ?E1, ?E2, ?E3, ?E4, ?E5, ?E6; try done; [auto|lia].
Qed.

Lemma client_ok_emit hist s c e : client_ok hist s c -> client_ok (hist ++ [e]) (offer e s) c.
Proof.
  intros []. assert (Ew : who (offer e s) = who s) by (unfold offer; by repeat case_match).
  assert (Ed : drop (since c) (hist ++ [e]) = drop (since c) hist ++ [e]) by by rewrite drop_app_le.
  assert (Et : take (since c) (hist ++ [e]) = take (since c) hist) by by rewrite take_app_le.
  assert (Hpre : exists k, got c ++ ch s = wanted (who s) (take k (drop (since c) (hist ++ [e])))).
  { destruct cl_prefix0 as [k Hk]. exists (Nat.min k (length (drop (since c) hist))). rewrite Ed, take_app_le by lia.
    rewrite Hk. destruct (decide (k <= length (drop (since c) hist))%nat); [by rewrite Nat.min_l|].
    rewrite Nat.min_r by lia. by rewrite !take_ge by lia. }
  constructor; rewrite ?Ew, ?Et; try done.
  - rewrite length_app. lia.
  - intros Hc. rewrite Ed, wanted_app, wanted_one. unfold offer in *.
    destruct (closed s) eqn:Ecl; [congruence|]. rewrite <- cl_open0 by done.
    destruct (wants (who s) (ev e) (scope e)); simpl in *; [|by rewrite app_nil_r].
    destruct (_ <? _); simpl in *; [|done]. by rewrite app_assoc.
  - unfold offer. destruct (closed s) eqn:Ecl; [exact Hpre|].
    destruct (wants (who s) (ev e) (scope e)) eqn:Ewt; simpl; [|exact Hpre].
    destruct (_ <? _); simpl; [|exact Hpre].
    exists (S (length (drop (since c) hist))). rewrite Ed, take_ge by (rewrite length_app; simpl; lia).
    rewrite wanted_app, wanted_one, Ewt, <- cl_open0 by done. by rewrite app_assoc.
  - unfold offer. destruct (closed s); [done|]. destruct (negb _); [done|].
    destruct (Z.ltb_spec (Z.of_nat (length (ch s))) subscriberBuffer); simpl; [|done]. rewrite length_app. simpl. lia.
Qed.

Lemma Subscribe_ok h hist sid w n : ring_ok h hist ->
  let '(h', rp, rs) := Subscribe h sid w n in
  subs h' = <[sid := mkSub w [] false false]> (subs h) /\ ring_ok h' hist /\
  client_ok hist (mkSub w [] false false) (mkClient n rs rp [] (length hist)).
Proof.
  intros Hr. unfold Subscribe.
  assert (Hr' : ring_ok (mkHub (<[sid := mkSub w [] false false]> (subs h)) (ring h) (ringAt h) (oldest h)) hist).
  { destruct Hr as [H1 H2 H3]. by constructor. }
  destruct Hr as [_ Hs Ho].
  assert (Hall : take (length hist) hist = hist) by (by apply take_ge).
  assert (Hopen : forall rs rp, client_ok hist (mkSub w [] false false) (mkClient n rs rp [] (length hist)) <->
    (n <= 0 -> rs = false /\ rp = []) /\
    (rs = true -> rp = [] /\ match lastn cap hist with [] => True | e :: _ => Seq (ev e) = 0 \/ n + 1 < Seq (ev e) end) /\
    (0 < n -> rs = false -> rp = wanted_after w n (lastn cap hist) /\
       match lastn cap hist with [] => False | e :: _ => Seq (ev e) <= n + 1 end)).
  { intros rs rp. split.
    - intros []. simpl in *. rewrite Hall in *. auto.
    - intros (H1 & H2 & H3). constructor; simpl; rewrite ?Hall; try done.
      + by rewrite drop_ge.
      + exists 0%nat. done. }
  destruct (Z.leb_spec n 0) as [Hn|Hn]; [|destruct ((oldest h =? 0) || (n + 1 <? oldest h)) eqn:Eo].
  - split; [done|]. split; [done|]. apply Hopen. split; [done|]. split; [done|lia].
  - split; [done|]. split; [done|]. apply Hopen. split; [lia|]. split; [|done]. intros _. split; [done|].
    rewrite Ho in Eo. destruct (lastn cap hist); [done|]. apply orb_true_iff in Eo as [E|E]; b2p; [by left|by right].
  - split; [done|]. split; [done|]. apply Hopen. split; [lia|]. split; [done|]. intros _ _. split.
    + unfold wanted_after. by rewrite <- Hs.
    + rewrite Ho in Eo. b2p. destruct (lastn cap hist); [done|]. lia.
Qed.

#[export] Instance stream_invariant : Invariant stream_ok.
Proof.
  constructor.
  - intros w ->. constructor; simpl; [|by intros ? ? ?|by intros ? ? ?]. constructor; simpl; try done.
  - intros w o Hw _. destruct o as [p an t e sc|p|sid who n|sid|sid]; simpl.
    + destruct (pending w !! p); [done|]. unfold stamp. destruct (Next _ _) as [[s id] d]. by destruct Hw.
    + destruct (pending w !! p) as [e|]; [|done]. destruct Hw as [Hr Hs Hc]. constructor; simpl.
      * destruct (appendRing_ok _ _ e Hr) as [H1 H2 H3]. by constructor.
      * intros sid s Hsid. assert (Esub : subs (appendRing (hub w) e) = subs (hub w)).
        { unfold appendRing. by destruct (if _ <? _ then _ else _). }
        rewrite Esub, lookup_fmap in Hsid. destruct (subs (hub w) !! sid) as [s0|] eqn:E; simplify_eq/=.
        destruct (Hs sid s0 E) as (c & Hcl & Hok). exists c. split; [done|]. by apply client_ok_emit.
      * intros sid c Hcl. rewrite lookup_fmap. assert (Esub : subs (appendRing (hub w) e) = subs (hub w)).
        { unfold appendRing. by destruct (if _ <? _ then _ else _). }
        rewrite Esub. destruct (Hc sid c Hcl) as [s ->]. by eexists.
    + destruct (subs (hub w) !! sid) eqn:E; [done|]. destruct Hw as [Hr Hs Hc].
      pose proof (Subscribe_ok (hub w) (history w) sid who n Hr) as H.
      destruct (Subscribe _ _ _ _) as [[h rp] rs]. destruct H as (Hsub & Hr' & Hcl). constructor; simpl; [done| |].
      * intros i s Hi. rewrite Hsub in Hi. apply lookup_insert_Some in Hi as [[<- <-]|[Hne Hi]].
        -- eexists. split; [apply lookup_insert_eq|done].
        -- destruct (Hs i s Hi) as (c & H1 & H2). exists c. by rewrite lookup_insert_ne.
      * intros i c Hi. rewrite Hsub. apply lookup_insert_is_Some. apply lookup_insert_Some in Hi as [[<- _]|[Hne Hi]]; [by left|].
        right. split; [done|]. by apply (Hc i c).
    + destruct (subs (hub w) !! sid) as [s|] eqn:E; [|done]. destruct (ch s) as [|e rest] eqn:Ech; [done|].
      destruct Hw as [Hr Hs Hc]. constructor; simpl.
      * destruct Hr. by constructor.
      * intros i s' Hi. apply lookup_insert_Some in Hi as [[<- <-]|[Hne Hi]].
        -- destruct (Hs sid s E) as (c & H1 & H2). eexists. rewrite lookup_alter_eq, H1. split; [done|].
           apply (client_ok_same _ s _ c); try done; simpl; rewrite Ech; simpl; [by rewrite <- app_assoc|lia].
        -- destruct (Hs i s' Hi) as (c & H1 & H2). exists c. by rewrite lookup_alter_ne.
      * intros i c Hi. apply lookup_insert_is_Some. destruct (decide (sid = i)) as [->|Hne]; [by left|]. right.
        split; [done|]. rewrite lookup_alter_ne in Hi by done. by apply (Hc i c).
    + destruct Hw as [Hr Hs Hc]. constructor; simpl.
      * destruct Hr. by constructor.
      * intros i s Hi. apply lookup_alter_Some in Hi as [(-> & s0 & Hi & ->)|[Hne Hi]].
        -- destruct (Hs i s0 Hi) as (c & H1 & H2). exists c. split; [done|]. by apply (client_ok_same _ s0 _ c).
        -- by apply (Hs i s).
      * intros i c Hi. apply lookup_alter_is_Some. by apply (Hc i c).
Qed.

(** *** Lists sorted by number *)

Lemma filter_sorted (P : Event -> Prop) `{!forall x, Decision (P x)} l :
  StronglySorted seq_lt l -> StronglySorted seq_lt (filter P l).
Proof.
  induction 1 as [|x l Hl IH Hx]; [constructor|]. destruct (decide (P x)).
  - rewrite filter_cons_True by done. constructor; [done|]. rewrite list.Forall_forall in *.
    intros y Hy. apply list_elem_of_filter in Hy as [_ Hy]. by apply Hx.
  - by rewrite filter_cons_False.
Qed.

Lemma wanted_filter_sorted w l : in_order l -> StronglySorted seq_lt (wanted w l).
Proof.
  intros H. unfold wanted, in_order in *. induction l as [|e l IH]; [constructor|].
  apply StronglySorted_cons in H as [Hx Hl]. specialize (IH Hl). rewrite list.Forall_forall in Hx.
  destruct (wants w (ev e) (scope e)) eqn:E; [rewrite filter_cons_True by done|by rewrite filter_cons_False by congruence].
  simpl. constructor; [done|]. apply list.Forall_forall. intros y Hy. apply Hx.
  apply list_elem_of_fmap in Hy as (z & -> & Hz). apply list_elem_of_filter in Hz as [_ Hz]. by apply list_elem_of_fmap_2.
Qed.

(** What comes after number [n] in a sorted list. *)
Lemma sorted_split n l : StronglySorted seq_lt l ->
  l = filter (fun e => Seq e <= n) l ++ filter (fun e => n < Seq e) l.
Proof.
  induction 1 as [|x l Hl IH Hx]; [done|]. destruct (Z.le_gt_cases (Seq x) n).
  - rewrite filter_cons_True, filter_cons_False by lia. simpl. by rewrite <- IH.
  - rewrite filter_cons_False, filter_cons_True by lia.
    assert (filter (fun e => Seq e <= n) l = []) as ->.
    { apply filter_none. rewrite list.Forall_forall in Hx. intros y Hy. specialize (Hx y Hy). unfold seq_lt in Hx. lia. }
    simpl. f_equal. symmetry. apply filter_every. rewrite list.Forall_forall in Hx.
    intros y Hy. specialize (Hx y Hy). unfold seq_lt in Hx. lia.
Qed.

Lemma wanted_after_filter w n l : wanted_after w n l = filter (fun e => n < Seq e) (wanted w l).
Proof.
  unfold wanted_after, wanted. induction l as [|e l IH]; [done|].
  destruct (wants w (ev e) (scope e)) eqn:E; destruct (Z.ltb_spec n (Seq (ev e))) as [Hlt|Hge].
  - rewrite filter_cons_True by (rewrite E; apply andb_true_iff; split; [by apply Z.ltb_lt|done]).
    rewrite (filter_cons_True _ e l) by done. rewrite !fmap_cons, filter_cons_True by done. by rewrite IH.
  - rewrite filter_cons_False by (rewrite (proj2 (Z.ltb_ge _ _) Hge); done).
    rewrite (filter_cons_True _ e l) by done. rewrite fmap_cons, filter_cons_False by lia. done.
  - rewrite filter_cons_False by (rewrite E, andb_false_r; done). rewrite (filter_cons_False _ e l) by congruence. done.
  - rewrite filter_cons_False by (rewrite E, andb_false_r; done). rewrite (filter_cons_False _ e l) by congruence. done.
Qed.

Lemma wanted_elem w l e : e ∈ wanted w l -> e ∈ ev <$> l.
Proof.
  unfold wanted. intros H. apply list_elem_of_fmap in H as (x & -> & Hx).
  apply list_elem_of_filter in Hx as [_ Hx]. by apply list_elem_of_fmap_2.
Qed.

Lemma in_order_app l1 l2 : in_order (l1 ++ l2) ->
  in_order l1 /\ in_order l2 /\ forall a b, a ∈ ev <$> l1 -> b ∈ ev <$> l2 -> Seq a < Seq b.
Proof.
  unfold in_order. rewrite fmap_app. intros H. apply StronglySorted_app in H as (H1 & H2 & H3).
  split; [done|]. split; [done|]. intros a b Ha Hb. by apply H1.
Qed.

(** The ring forgets only what the client already had. *)
Lemma wanted_after_lastn w n k l : in_order l ->
  match lastn k l with [] => False | e :: _ => Seq (ev e) <= n + 1 end ->
  wanted_after w n (lastn k l) = wanted_after w n l.
Proof.
  intros Hl Hh. unfold lastn in *. set (m := (length l - k)%nat) in *. rewrite !wanted_after_filter.
  rewrite <- (take_drop m l) in Hl. apply in_order_app in Hl as (_ & _ & Hlt).
  rewrite <- (take_drop m l) at 2. rewrite wanted_app, filter_app.
  assert (filter (fun e => n < Seq e) (wanted w (take m l)) = []) as ->; [|done].
  apply filter_none. intros e He. apply wanted_elem in He.
  destruct (drop m l) as [|h r]; [done|]. specialize (Hlt e (ev h) He ltac:(left)). lia.
Qed.

Lemma reached_stream ops : stream_ok (reaches (mkWorld NewSequence NewHub ∅ [] ∅) ops).
Proof. apply (reaches_invariant (Op := Op) stream_ok); [reflexivity|]. by apply list.Forall_forall. Qed.

(** ** Properties *)

(** sequence numbers are global. However many processes draw from the one
    counter, in whatever order they ask and start, while the database answers
    no number is handed out twice, and each process's numbers increase. *)
Theorem seq_unique (c0 : Z) (ps : list nat) (Hc : 0 <= c0) :
  let c := fold_left cluster_next ps (mkCluster c0 ∅ []) in
  NoDup (issued c).*2 /\
  forall p, StronglySorted (fun newer older => older < newer) (filter (fun x => x.1 = p) (issued c)).*2.
Proof.
  assert (H : cluster_ok (fold_left cluster_next ps (mkCluster c0 ∅ []))); [|destruct H; done].
  apply (fold_left_inv cluster_ok); [|intros c p H _; by apply cluster_next_ok].
  constructor; simpl; try done; try (intros *; rewrite lookup_empty; done).
  - intros p id H. by apply elem_of_nil in H.
  - constructor.
  - intros p. constructor.
Qed.

(** the in-memory fallback breaks that. A process whose block is used up
    and whose reservation fails counts on in memory, into the very numbers
    the database has not given out: when it answers again (to this process or
    to any other), those numbers are handed out a second time, and this
    process's stream goes back. *)
Theorem seq_fallback_repeats (s : Sequence) (Hs : next s = end_ s) (n : nat) :
  let s' := Nat.iter n (fun s => (Next s None).1.1) s in
  next s' = next s + Z.of_nat n /\
  (forall id s'' durable, Next s' (Some (end_ s + blockSize)) = (s'', id, durable) ->
     id = end_ s + 1 /\ durable = true) /\
  (forall k, (k < n)%nat -> (Next (Nat.iter k (fun s => (Next s None).1.1) s) None).1.2 = end_ s + 1 + Z.of_nat k).
Proof.
  assert (Hiter : forall k, Nat.iter k (fun s => (Next s None).1.1) s = mkSeq (end_ s + Z.of_nat k) (end_ s + Z.of_nat k)).
  { induction k as [|k IH]; [destruct s as [a b]; simpl in *; subst b; f_equal; lia|]. rewrite Nat.iter_succ, IH.
    unfold Next. simpl next. simpl end_. rewrite Z.ltb_irrefl. simpl. rewrite (proj2 (Z.ltb_lt _ _)) by lia. f_equal; lia. }
  intros s'. unfold s'. rewrite Hiter. split; [simpl; lia|]. split.
  - intros id s'' durable. unfold Next. simpl. rewrite Z.ltb_irrefl. intros [= _ <- <-]. split; [lia|done].
  - intros k _. rewrite Hiter. unfold Next. simpl. rewrite Z.ltb_irrefl. simpl. lia.
Qed.

(** a stream is complete, in order, and never waited for. Whatever
    publishers, readers and other streams do, as long as events are emitted in
    the order of their numbers: a stream told no reset was replayed exactly
    the wanted events after the one it named; from then on what it has read
    and what its buffer holds is exactly the wanted events emitted since, or,
    once it was closed or dropped, a beginning of them; and its buffer is
    never above its bound. *)
Theorem stream_complete (ops : list Op) (sid : nat) (s : Subscription) (c : Client) :
  let w := reaches (mkWorld NewSequence NewHub ∅ [] ∅) ops in
  subs (hub w) !! sid = Some s -> clients w !! sid = Some c -> in_order (history w) ->
  (0 < lastID c -> reset c = false -> replay c = wanted_after (who s) (lastID c) (take (since c) (history w))) /\
  (closed s = false -> got c ++ ch s = wanted (who s) (drop (since c) (history w))) /\
  (exists k, got c ++ ch s = wanted (who s) (take k (drop (since c) (history w)))) /\
  Z.of_nat (length (ch s)) <= subscriberBuffer.
Proof.
  intros w Hs Hc Ho. destruct (st_subs w (reached_stream ops) sid s Hs) as (c' & Hc' & []).
  assert (c' = c) as -> by congruence. split; [|done]. intros Hn Hr.
  destruct (cl_replay0 Hn Hr) as [-> Hh]. apply wanted_after_lastn; [|done].
  rewrite <- (take_drop (since c) (history w)) in Ho. by apply in_order_app in Ho as [Ho _].
Qed.

Lemma filter_le_got got R e : StronglySorted seq_lt (got ++ R) -> last got = Some e ->
  filter (fun x => Seq x <= Seq e) (got ++ R) = got.
Proof.
  intros Hs Hl. apply last_Some in Hl as [l ->]. apply StronglySorted_app in Hs as (H1 & H2 & _).
  apply StronglySorted_app in H2 as (H2 & _ & _).
  rewrite filter_app, (filter_every _ (l ++ [e])), (filter_none _ R), app_nil_r; [done| |].
  - intros x Hx Hle. specialize (H1 e x ltac:(set_solver) Hx). unfold seq_lt in H1. lia.
  - intros x Hx. apply elem_of_app in Hx as [Hx|Hx]; [|apply list_elem_of_singleton in Hx as ->; lia].
    specialize (H2 x e Hx ltac:(left)). unfold seq_lt in H2. lia.
Qed.

(** C34: Resuming loses nothing and repeats nothing as long as the events were
    emitted in the order of their numbers ([in_order] of the history; [Publish]
    takes the number before the hub's lock, and where two publishers cross, an
    event can be lost, [publish_race_loses]). A subscriber whose first stream
    ended anywhere, closed or dropped for lagging, and who resumes with the
    number of the last event it read, after that event was emitted, on a stream
    that is still open and that did not tell it to reset, has, read and still to
    be read together and in one piece, every event it wants of those emitted
    since the first stream began, in order, each once. *)
Theorem resume_complete (ops : list Op) (i j : nat) (s1 s2 : Subscription) (c1 c2 : Client) (e : Event) :
  let w := reaches (mkWorld NewSequence NewHub ∅ [] ∅) ops in
  subs (hub w) !! i = Some s1 -> clients w !! i = Some c1 ->
  subs (hub w) !! j = Some s2 -> clients w !! j = Some c2 ->
  in_order (history w) -> who s2 = who s1 -> last (got c1) = Some e ->
  (since c1 <= since c2)%nat -> e ∈ ev <$> take (since c2) (history w) ->
  lastID c2 = Seq e -> 0 < Seq e -> reset c2 = false -> closed s2 = false ->
  got c1 ++ replay c2 ++ got c2 ++ ch s2 = wanted (who s1) (drop (since c1) (history w)).
Proof.
  intros w Hs1 Hc1 Hs2 Hc2 Ho Hwho Hlast Hsince He Hid Hpos Hr Hopen.
  destruct (stream_complete ops i s1 c1 Hs1 Hc1 Ho) as (_ & _ & [k Hk] & _).
  destruct (stream_complete ops j s2 c2 Hs2 Hc2 Ho) as (Hreplay & Hlive & _ & _).
  fold w in Hk, Hreplay, Hlive. rewrite Hlive by done. rewrite Hreplay by (done || lia). rewrite Hwho, Hid, wanted_after_filter.
  set (u := who s1) in *. set (H := history w) in *. clearbody H u. clear w Hs1 Hc1 Hs2 Hc2 Hlive Hreplay.
  set (A := drop (since c1) (take (since c2) H)). set (B := drop (since c2) H).
  assert (EH : take (since c2) H = take (since c1) H ++ A).
  { unfold A. rewrite <- (take_drop (since c1) (take (since c2) H)) at 1. rewrite take_take. by rewrite Nat.min_l by lia. }
  assert (ED : drop (since c1) H = A ++ B).
  { unfold A, B. rewrite <- (take_drop (since c2) H) at 1. destruct (decide (since c1 <= length (take (since c2) H))%nat) as [Hle|Hgt].
    - by rewrite drop_app_le.
    - rewrite length_take in Hgt. rewrite (drop_ge (take (since c2) H)) by (rewrite length_take; lia).
      rewrite drop_app, (drop_ge (take (since c2) H)) by (rewrite length_take; lia). rewrite !(drop_ge H) by lia. by rewrite drop_nil. }
  assert (EA : H = take (since c1) H ++ (A ++ B)) by (rewrite <- ED; by rewrite take_drop).
  assert (Hord : in_order (take (since c1) H ++ (A ++ B))) by by rewrite <- EA.
  apply in_order_app in Hord as (_ & HAB & Hlt1). pose proof (in_order_app A B HAB) as (_ & _ & Hlt2).
  set (R := wanted u (drop k (A ++ B))).
  assert (EG : wanted u A ++ wanted u B = got c1 ++ (ch s1 ++ R)).
  { rewrite <- wanted_app, <- (take_drop k (A ++ B)), wanted_app. rewrite app_assoc, Hk, ED. done. }
  assert (HeG : e ∈ got c1) by (by apply last_Some_elem_of in Hlast).
  assert (HeAB : e ∈ ev <$> A ++ B).
  { apply (wanted_elem u). rewrite wanted_app, EG. apply elem_of_app. by left. }
  assert (HeA : e ∈ ev <$> A).
  { rewrite EH, fmap_app, elem_of_app in He. destruct He as [He|He]; [|done]. specialize (Hlt1 e e He HeAB). lia. }
  assert (HB : filter (fun x => Seq x <= Seq e) (wanted u B) = []).
  { apply filter_none. intros x Hx Hle. apply wanted_elem in Hx. specialize (Hlt2 e x HeA Hx). lia. }
  assert (HG : filter (fun x => Seq x <= Seq e) (wanted u A) = got c1).
  { rewrite <- (app_nil_r (filter _ (wanted u A))), <- HB, <- filter_app, EG. apply filter_le_got; [|done].
    rewrite <- EG, <- wanted_app. by apply wanted_filter_sorted. }
  rewrite ED, EH, !wanted_app, filter_app.
  rewrite (filter_none _ (wanted u (take (since c1) H))).
  - rewrite app_nil_l, <- HG, app_assoc. f_equal. symmetry. apply sorted_split, wanted_filter_sorted.
    by apply in_order_app in HAB as [? _].
  - intros x Hx Hn. apply wanted_elem in Hx. specialize (Hlt1 x e Hx HeAB). lia.
Qed.

Definition anybody : Subscriber := mkSubscriber None true [] [].

(** publishing in two steps loses an event. The number is taken before
    the hub's lock, so of two events published at once the later number may be
    emitted first. A subscriber who has read it, disconnects and resumes from
    it before the earlier number is emitted hears of that one neither live nor
    in the replay, and is not told to reset. *)
Theorem publish_race_loses (a b : Event) (sc : Scope) (t : instant) :
  let w := reaches (mkWorld NewSequence NewHub ∅ [] ∅)
    [OSubscribe 0 anybody 0; OStamp 0 (Some blockSize) t a sc; OStamp 1 None t b sc;
     OEmit 1; OReceive 0; OClose 0; OEmit 0; OSubscribe 1 anybody 2] in
  Seq <$> (ev <$> history w) = [2; 1] /\
  match clients w !! 0%nat, clients w !! 1%nat, subs (hub w) !! 0%nat, subs (hub w) !! 1%nat with
  | Some c0, Some c1, Some s0, Some s1 =>
      Seq <$> got c0 = [2] /\ ch s0 = [] /\ reset c1 = false /\ replay c1 = [] /\ ch s1 = [] /\
      forall e, e ∈ ev <$> history w -> Seq e = 1 -> e ∉ got c0 ++ replay c1
  | _, _, _, _ => False
  end.
Proof.
  intros w. vm_compute in w. unfold w. split; [reflexivity|]. cbn [clients hub subs].
  vm_compute (lookup _ _). cbn [got ch reset replay history].
  repeat (split; [reflexivity|]). intros e He Hseq Hin.
  apply list_elem_of_singleton in Hin as ->. discriminate.
Qed.

(** *** Examples *)

Lemma seq_unique_witness :
  let c := fold_left cluster_next [0; 1; 0; 1; 1]%nat (mkCluster 500 ∅ []) in
  (issued c).*2 = [100503; 100502; 502; 100501; 501] /\ NoDup (issued c).*2.
Proof. split; [vm_compute; reflexivity|]. apply (seq_unique 500 [0; 1; 0; 1; 1]%nat). lia. Defined.

Lemma seq_fallback_repeats_witness :
  let s := mkSeq 100000 100000 in
  let '(s1, a, _) := Next s None in let '(s2, b, _) := Next s1 None in
  let '(s3, c, durable) := Next s2 (Some 200000) in (a, b, c, durable) = (100001, 100002, 100001, true).
Proof.
  pose proof (seq_fallback_repeats (mkSeq 100000 100000) eq_refl 2) as (_ & H & _).
  specialize (H _ _ _ eq_refl) as [_ H]. vm_compute in H. vm_compute. reflexivity.
Defined.

Definition an_event (n : N) : Event := mkEvent 0 0 "CALL_CDR" 0 n.
Definition an_agent : Subscriber := mkSubscriber (Some 7%N) false [] [].
Definition mine : Scope := mkScope [7%N] None false.
Definition other : Scope := mkScope [8%N] None false.

(** An agent reads one event, leaves, comes back, and gets the rest. *)
Definition two_sessions : list Op :=
  [OSubscribe 0 an_agent 0; OStamp 0 (Some blockSize) 1 (an_event 1) mine; OEmit 0; OReceive 0; OClose 0;
   OStamp 0 None 2 (an_event 2) other; OEmit 0; OStamp 0 None 3 (an_event 3) mine; OEmit 0;
   OSubscribe 1 an_agent 1; OStamp 0 None 4 (an_event 4) mine; OEmit 0].

Definition stamped (n : N) (t : instant) (q : Z) : Event := mkEvent 1 q "CALL_CDR" t n.

Lemma stream_complete_witness :
  let w := reaches (mkWorld NewSequence NewHub ∅ [] ∅) two_sessions in
  replay <$> clients w !! 1%nat = Some [stamped 3 3 3] /\ ch <$> subs (hub w) !! 1%nat = Some [stamped 4 4 4].
Proof.
  set (s := mkSub an_agent [stamped 4 4 4] false false).
  set (c := mkClient 1 false [stamped 3 3 3] [] 3).
  destruct (stream_complete two_sessions 1 s c) as (_ & _ & _ & H).
  - vm_compute. reflexivity.
  - vm_compute. reflexivity.
  - vm_compute. repeat (constructor; try reflexivity).
  - split; vm_compute; reflexivity.
Defined.

Definition first_client : Client := mkClient 0 false [] [stamped 1 1 1] 0.
Definition second_client : Client := mkClient 1 false [stamped 3 3 3] [] 3.
Definition second_sub : Subscription := mkSub an_agent [stamped 4 4 4] false false.

Lemma resume_complete_witness :
  got first_client ++ replay second_client ++ got second_client ++ ch second_sub =
  wanted an_agent (drop 0 (history (reaches (mkWorld NewSequence NewHub ∅ [] ∅) two_sessions))).
Proof.
  pose proof (resume_complete two_sessions 0 1 (mkSub an_agent [] true false) second_sub first_client second_client
    (stamped 1 1 1)) as H.
  cbv zeta in H. specialize (H ltac:(vm_compute; reflexivity) ltac:(vm_compute; reflexivity)
    ltac:(vm_compute; reflexivity) ltac:(vm_compute; reflexivity)).
  cbn [who since first_client] in H. apply H.
  - vm_compute. repeat (constructor; try reflexivity).
  - reflexivity.
  - reflexivity.
  - vm_compute. lia.
  - vm_compute. left.
  - reflexivity.
  - reflexivity.
  - reflexivity.
  - reflexivity.
Defined.

End Events.
