(* ===== verification/FlowPredicate.v ===== *)
(** * Flow conditions: [internal/flow/predicate.go]

    The values a slot can hold, the conditions a flow tests them with, and
    their evaluation, with the two ways it can go wrong: the error the code
    returns, and the run-time panic of Go's [==] on two slices or two maps.

    Conversions between numbers and text that belong to Go's library
    ([strconv.ParseFloat], [strconv.FormatFloat], [fmt.Sprint] of a
    collection) are arguments of a Section: nothing here depends on which
    digits they choose. *)

From S2P Require Import Prelude GoText Float64.

Module FlowPredicate.
Import GoText Float64.

(** A value of type [any] as JSON decoding, the engine and the tools produce
    them. *)
Inductive Value :=
| VNil
| VBool (b : bool)
| VFloat (f : f64)
| VInt (n : Z)
| VStr (s : string)
| VList (l : list Value)
| VMap (m : list (string * Value)).

(** [internal/flow/spec.go:Operator] [OpUnknown] is any other text. *)
Inductive Operator :=
| OpEqual | OpNotEqual | OpGreaterThan | OpLessThan | OpGreaterThanOrEqual | OpLessThanOrEqual
| OpIsNull | OpIsNotNull | OpIsEmpty | OpIsNotEmpty | OpIn | OpNotIn | OpContains | OpNotContains
| OpUnknown (s : string).

(** [internal/flow/spec.go:var(knownOperators)] *)
Definition knownOperators (op : Operator) : bool := match op with OpUnknown _ => false | _ => true end.

(** [internal/flow/spec.go:Condition] *)
Inductive Condition := mkCondition {
  Slot : string;
  Op : Operator;
  CValue : Value;
  All : list Condition;
  Any : list Condition
}.

(** What an evaluation comes to. *)
Inductive Verdict := Holds (b : bool) | Fails | Panics.

#[export] Instance Verdict_eq_dec : EqDecision Verdict.
Proof. solve_decision. Defined.

(** [strings.Contains]. *)
Fixpoint str_contains (s sub : string) : bool :=
  has_prefix sub s || match s with EmptyString => false | String _ s' => str_contains s' sub end.

Section predicate.
Variable ParseFloat : string -> option f64.
Variable FormatFloat : f64 -> string.
Variable Sprint : Value -> string.

(** [internal/flow/predicate.go:asString] *)
Definition asString (v : Value) : string :=
  match v with
  | VNil => ""
  | VStr s => s
  | VFloat f => FormatFloat f
  | VInt n => pretty n
  | VBool b => if b then "true" else "false"
  | VList _ | VMap _ => Sprint v
  end.

(** [internal/flow/predicate.go:asNumber] *)
Definition asNumber (v : Value) : option f64 :=
  match v with
  | VFloat f => Some f
  | VInt n => Some (of_int n)
  | VStr s => ParseFloat (TrimSpace s)
  | _ => None
  end.

(** Go's [==] on two interface values: [None] is the panic. *)
Definition go_equal (a b : Value) : option bool :=
  match a, b with
  | VNil, VNil => Some true
  | VBool x, VBool y => Some (Bool.eqb x y)
  | VFloat x, VFloat y => Some (SFeqb x y)
  | VInt x, VInt y => Some (x =? y)
  | VStr x, VStr y => Some (String.eqb x y)
  | VList _, VList _ | VMap _, VMap _ => None
  | _, _ => Some false
  end.

Definition is_nil (v : Value) : bool := match v with VNil => true | _ => false end.

(** [internal/flow/predicate.go:valuesEqual] *)
Definition valuesEqual (a b : Value) : option bool :=
  if is_nil a || is_nil b then Some (is_nil a && is_nil b)
  else
    same ← go_equal a b;
    if (same : bool) then Some true
    else match asNumber a, asNumber b with
         | Some na, Some nb => Some (SFeqb na nb)
         | _, _ => Some (String.eqb (asString a) (asString b))
         end.

(** The sign of a comparison. *)
Definition order_of (lt gt : bool) : Z := if lt then -1 else if gt then 1 else 0.
Definition str_order (a b : string) : Z :=
  match String.compare a b with Lt => -1 | Eq => 0 | Gt => 1 end.

(** [internal/flow/predicate.go:L109-L127] the order [compare] tests. *)
Definition values_order (actual target : Value) : Z :=
  match asNumber actual, asNumber target with
  | Some na, Some nb => order_of (flt na nb) (flt nb na)
  | _, _ => str_order (asString actual) (asString target)
  end.

(** [internal/flow/predicate.go:compare] *)
Definition compare (op : Operator) (actual target : Value) : bool :=
  if is_nil actual then false
  else
    let result := values_order actual target in
    match op with
    | OpGreaterThan => 0 <? result
    | OpLessThan => result <? 0
    | OpGreaterThanOrEqual => 0 <=? result
    | OpLessThanOrEqual => result <=? 0
    | _ => false
    end.

(** [internal/flow/predicate.go:isEmpty] *)
Definition isEmpty (v : Value) : bool :=
  match v with
  | VNil => true
  | VStr s => String.eqb s ""
  | VList l => match l with [] => true | _ => false end
  | VMap m => match m with [] => true | _ => false end
  | _ => false
  end.

(** [internal/flow/predicate.go:membership] the loop over the list stops at
    the first equal item. *)
Fixpoint member_of (actual : Value) (items : list Value) : option bool :=
  match items with
  | [] => Some false
  | item :: rest =>
      eq ← valuesEqual actual item;
      if (eq : bool) then Some true else member_of actual rest
  end.
Definition membership (target actual : Value) : option bool :=
  match target with
  | VList items => member_of actual items
  | _ => Some (negb (is_nil actual) && str_contains (asString target) (asString actual))
  end.

Definition verdict (o : option bool) : Verdict := match o with Some b => Holds b | None => Panics end.

(** [internal/flow/predicate.go:evaluateLeaf] *)
Definition evaluateLeaf (c : Condition) (slots : gmap string Value) : Verdict :=
  if negb (knownOperators (Op c)) then Fails
  else if String.eqb (Slot c) "" then Fails
  else
    let isPresent := bool_decide (is_Some (slots !! Slot c)) in
    let actual := default VNil (slots !! Slot c) in
    match Op c with
    | OpEqual => verdict (valuesEqual actual (CValue c))
    | OpNotEqual => verdict (negb <$> valuesEqual actual (CValue c))
    | OpGreaterThan | OpLessThan | OpGreaterThanOrEqual | OpLessThanOrEqual => Holds (compare (Op c) actual (CValue c))
    | OpIsNull => Holds (negb isPresent || is_nil actual)
    | OpIsNotNull => Holds (isPresent && negb (is_nil actual))
    | OpIsEmpty => Holds (isEmpty actual)
    | OpIsNotEmpty => Holds (negb (isEmpty actual))
    | OpIn => verdict (membership (CValue c) actual)
    | OpNotIn => verdict (negb <$> membership (CValue c) actual)
    | OpContains => Holds (negb (is_nil actual) && str_contains (asString actual) (asString (CValue c)))
    | OpNotContains => Holds (is_nil actual || negb (str_contains (asString actual) (asString (CValue c))))
    | OpUnknown _ => Fails
    end.

(** [internal/flow/predicate.go:evaluate] The two loops. *)
Fixpoint evaluate_cond (slots : gmap string Value) (c : Condition) : Verdict :=
  let all := fix all (l : list Condition) : Verdict :=
    match l with
    | [] => Holds true
    | sub :: rest =>
        match evaluate_cond slots sub with
        | Holds true => all rest
        | v => v
        end
    end in
  let any := fix any (l : list Condition) : Verdict :=
    match l with
    | [] => Holds false
    | sub :: rest =>
        match evaluate_cond slots sub with
        | Holds false => any rest
        | v => v
        end
    end in
  match c with
  | mkCondition _ _ _ ((_ :: _) as l) _ => all l
  | mkCondition _ _ _ [] ((_ :: _) as l) => any l
  | mkCondition _ _ _ [] [] => evaluateLeaf c slots
  end.
Definition evaluate (c : option Condition) (slots : gmap string Value) : Verdict :=
  match c with None => Holds true | Some c => evaluate_cond slots c end.

End predicate.

(** [internal/flow/load.go:validateCondition] true where it returns no
    error. *)
Fixpoint validateCondition (c : Condition) : bool :=
  match c with
  | mkCondition slot op _ all any =>
      match all, any with
      | [], [] => knownOperators op && negb (String.eqb slot "")
      | _, _ => forallb validateCondition all && forallb validateCondition any
      end
  end.

(** [internal/flow/load.go:conditionSlots] *)
Fixpoint conditionSlots (c : Condition) : list string :=
  match c with
  | mkCondition slot _ _ all any =>
      match all, any with
      | [], [] => if String.eqb slot "" then [] else [slot]
      | _, _ => flat_map conditionSlots all ++ flat_map conditionSlots any
      end
  end.

(** ** What a loaded condition does *)

Definition is_collection (v : Value) : bool := match v with VList _ | VMap _ => true | _ => false end.

(** A leaf that compares with [==] only literals that are not collections. *)
Definition leaf_scalar (op : Operator) (v : Value) : bool :=
  match op with
  | OpEqual | OpNotEqual => negb (is_collection v)
  | OpIn | OpNotIn => match v with VList items => forallb (fun x => negb (is_collection x)) items | _ => true end
  | _ => true
  end.

Fixpoint literals_scalar (c : Condition) : bool :=
  match c with
  | mkCondition _ op v all any =>
      match all, any with
      | [], [] => leaf_scalar op v
      | _, _ => forallb literals_scalar all && forallb literals_scalar any
      end
  end.

(** Structural induction that reaches into the sub-conditions. *)
Section condition_induction.
Variable P : Condition -> Prop.
Hypothesis step : forall slot op v all any, Forall P all -> Forall P any -> P (mkCondition slot op v all any).

Fixpoint condition_ind' (c : Condition) : P c :=
  let fix many (l : list Condition) : Forall P l :=
    match l with
    | [] => List.Forall_nil P
    | c :: l => @List.Forall_cons _ P c l (condition_ind' c) (many l)
    end in
  match c with mkCondition slot op v all any => step slot op v all any (many all) (many any) end.
End condition_induction.

Section theorems.
Variable ParseFloat : string -> option f64.
Variable FormatFloat : f64 -> string.
Variable Sprint : Value -> string.

Notation valuesEqual := (valuesEqual ParseFloat FormatFloat Sprint).
Notation membership := (membership ParseFloat FormatFloat Sprint).
Notation evaluateLeaf := (evaluateLeaf ParseFloat FormatFloat Sprint).
Notation evaluate_cond := (evaluate_cond ParseFloat FormatFloat Sprint).
Notation evaluate := (evaluate ParseFloat FormatFloat Sprint).

Lemma valuesEqual_scalar a b : is_collection b = false -> is_Some (valuesEqual a b).
Proof.
  intros Hb. unfold FlowPredicate.valuesEqual. destruct (is_nil a || is_nil b); [by eexists|].
  destruct (go_equal a b) as [s|] eqn:E; [|by destruct a, b].
  simpl. destruct s; [by eexists|]. destruct (asNumber ParseFloat a), (asNumber ParseFloat b); by eexists.
Qed.

Lemma membership_scalar v a : match v with VList items => forallb (fun x => negb (is_collection x)) items | _ => true end = true ->
  is_Some (membership v a).
Proof.
  intros Hv. destruct v as [| | | | |items|]; try by eexists. simpl in *.
  induction items as [|x items IH]; simpl in *; [by eexists|]. b2p.
  destruct (valuesEqual_scalar a x) as [b E]; [done|]. rewrite E. simpl. destruct b; [by eexists|]. by apply IH.
Qed.

Lemma leaf_decides c slots :
  knownOperators (Op c) = true -> Slot c <> "" -> leaf_scalar (Op c) (CValue c) = true ->
  exists b, evaluateLeaf c slots = Holds b.
Proof.
  intros Hk Hs Hl. unfold FlowPredicate.evaluateLeaf. rewrite Hk, (proj2 (String.eqb_neq _ _) Hs). simpl.
  set (a := default VNil _). destruct (Op c); simpl in *; try done; try by eexists.
  - destruct (valuesEqual_scalar a (CValue c)) as [b E]; [by apply negb_true_iff|]. rewrite E. by eexists.
  - destruct (valuesEqual_scalar a (CValue c)) as [b E]; [by apply negb_true_iff|]. rewrite E. by eexists.
  - destruct (membership_scalar (CValue c) a Hl) as [b E]. rewrite E. by eexists.
  - destruct (membership_scalar (CValue c) a Hl) as [b E]. rewrite E. by eexists.
Qed.

(** The truth of a condition, given that of its leaves. *)
Definition truth (leaf : Condition -> bool) : Condition -> bool :=
  fix truth c :=
    match c with
    | mkCondition _ _ _ all any =>
        match all, any with
        | _ :: _, _ => forallb truth all
        | [], _ :: _ => existsb truth any
        | [], [] => leaf c
        end
    end.

Definition leaf_truth (slots : gmap string Value) (c : Condition) : bool :=
  match evaluateLeaf c slots with Holds b => b | _ => false end.

Lemma evaluate_truth slots c : validateCondition c = true -> literals_scalar c = true ->
  evaluate_cond slots c = Holds (truth (leaf_truth slots) c).
Proof.
  induction c as [slot op v all any IHall IHany] using condition_ind'. intros Hv Hs.
  destruct all as [|a all].
  - destruct any as [|a any].
    + simpl in *. b2p.
      destruct (leaf_decides (mkCondition slot op v [] []) slots) as [b E]; [done|by apply String.eqb_neq|done|].
      unfold leaf_truth. by rewrite E.
    + simpl in Hv, Hs. clear IHall.
      assert (H : forall l, Forall (fun c => validateCondition c = true -> literals_scalar c = true ->
                    evaluate_cond slots c = Holds (truth (leaf_truth slots) c)) l ->
                  forallb validateCondition l = true -> forallb literals_scalar l = true ->
                  (fix any (l : list Condition) : Verdict :=
                     match l with [] => Holds false | sub :: rest =>
                       match evaluate_cond slots sub with Holds false => any rest | v => v end end) l =
                  Holds (existsb (truth (leaf_truth slots)) l)).
      { clear. induction 1 as [|c l Hc Hl IH]; [done|]. simpl. intros Hv Hs. b2p. rewrite Hc by done.
        destruct (truth _ c); [done|]. by apply IH. }
      specialize (H (a :: any) IHany Hv Hs). exact H.
  - assert (Hv' : forallb validateCondition (a :: all) = true).
    { simpl in Hv |- *. destruct any; simpl in Hv; [by rewrite andb_true_r in Hv|]. by apply andb_true_iff in Hv as [? _]. }
    assert (Hs' : forallb literals_scalar (a :: all) = true).
    { simpl in Hs |- *. destruct any; simpl in Hs; [by rewrite andb_true_r in Hs|]. by apply andb_true_iff in Hs as [? _]. }
    clear IHany Hv Hs.
    assert (H : forall l, Forall (fun c => validateCondition c = true -> literals_scalar c = true ->
                  evaluate_cond slots c = Holds (truth (leaf_truth slots) c)) l ->
                forallb validateCondition l = true -> forallb literals_scalar l = true ->
                (fix all (l : list Condition) : Verdict :=
                   match l with [] => Holds true | sub :: rest =>
                     match evaluate_cond slots sub with Holds true => all rest | v => v end end) l =
                Holds (forallb (truth (leaf_truth slots)) l)).
    { clear. induction 1 as [|c l Hc Hl IH]; [done|]. simpl. intros Hv Hs. b2p. rewrite Hc by done.
      destruct (truth _ c); [|done]. by apply IH. }
    exact (H (a :: all) IHall Hv' Hs').
Qed.

(** a condition the loader accepts always decides, whatever the slots
    hold, when its own [EQ], [NE], [IN] and [NOT_IN] literals are scalars:
    never the error that would make the engine skip the rule, never a panic;
    and what it decides is the conjunction of [all] where there is one, else
    the disjunction of [any], else its leaf. *)
Theorem loaded_condition_decides (c : Condition) (slots : gmap string Value)
    (Hv : validateCondition c = true) (Hs : literals_scalar c = true) :
  evaluate (Some c) slots = Holds (truth (leaf_truth slots) c).
Proof. exact (evaluate_truth slots c Hv Hs). Qed.

(** the loader lets a condition through that can stop the process. An
    equality test against a list (or an object) is accepted at load, and the
    moment the slot holds a list (an object) the comparison panics at run
    time, in the goroutine of the call. *)
Theorem collection_equality_panics (slot : string) (l l' : list Value) (m m' : list (string * Value))
    (slots : gmap string Value) (Hslot : slot <> "") :
  let eq v := mkCondition slot OpEqual v [] [] in
  validateCondition (eq (VList l)) = true /\ validateCondition (eq (VMap m)) = true /\
  (slots !! slot = Some (VList l') -> evaluate (Some (eq (VList l))) slots = Panics) /\
  (slots !! slot = Some (VMap m') -> evaluate (Some (eq (VMap m))) slots = Panics).
Proof.
  intros eq. simpl. rewrite (proj2 (String.eqb_neq _ _) Hslot). repeat (split; [done|]).
  split; intros H; unfold FlowPredicate.evaluateLeaf; simpl;
    rewrite (proj2 (String.eqb_neq _ _) Hslot); simpl; by rewrite H.
Qed.

End theorems.

(** *** Examples *)

(** Number and text conversion enough for the examples: one digit. *)
Definition parse_digit (s : string) : option f64 :=
  match s with
  | String c EmptyString => if in_range 48 57 c then Some (of_int (byteZ c - 48)) else None
  | _ => None
  end.
Definition no_format (f : f64) : string := "".
Definition no_sprint (v : Value) : string := "".

Lemma loaded_condition_decides_witness :
  let c := mkCondition "" OpEqual VNil [mkCondition "turns" OpGreaterThan (VInt 3) [] [];
             mkCondition "" OpEqual VNil [] [mkCondition "result.ok" OpEqual (VStr "1") [] []; mkCondition "x" OpIsNull VNil [] []]] [] in
  evaluate parse_digit no_format no_sprint (Some c) (<["turns" := VInt 4]> (<["result.ok" := VInt 1]> ∅)) = Holds true.
Proof.
  intros c. rewrite (loaded_condition_decides parse_digit no_format no_sprint c) by reflexivity. vm_compute. reflexivity.
Defined.

Lemma collection_equality_panics_witness :
  evaluate parse_digit no_format no_sprint (Some (mkCondition "result.items" OpEqual (VList []) [] []))
    (<["result.items" := VList [VInt 1]]> ∅) = Panics.
Proof.
  destruct (collection_equality_panics parse_digit no_format no_sprint "result.items" [] [VInt 1] [] []
    (<["result.items" := VList [VInt 1]]> ∅)) as (_ & _ & H & _); [discriminate|]. apply H. reflexivity.
Defined.

End FlowPredicate.
