(* ===== verification/FlowSpec.v ===== *)
(** * Call flows: [internal/flow/spec.go] and the phase checks of [load.go]

    What a flow is (phases, rules, tools, what applies everywhere), and what
    the loader refuses of its phases and rules: the checks the engine relies
    on. JSON decoding, the checks of HTTP calls and templates and the wording
    of problems are not modelled. *)

From S2P Require Import Prelude GoText Float64 FlowPredicate.

Module FlowSpec.
Import GoText Float64 FlowPredicate.

(** [internal/flow/spec.go:const(SpecVersion)] *)
Definition SpecVersion_v2 : string := "v2".

(** [internal/flow/spec.go:Text] *)
Record Text := mkText { ZH : string; EN : string }.

(** [internal/flow/spec.go:Text.For] *)
Definition For (t : Text) (lang : string) : string :=
  if String.eqb lang "zh" then (if negb (String.eqb (ZH t) "") then ZH t else EN t)
  else if negb (String.eqb (EN t) "") then EN t else ZH t.

(** [internal/flow/spec.go:Text.IsEmpty] *)
Definition IsEmpty (t : Text) : bool := String.eqb (ZH t) "" && String.eqb (EN t) "".

(** [strings.ToLower] and [strings.ToUpper] of a language tag, which is
    ASCII. *)
Definition ascii_lower (c : ascii) : ascii := if in_range 65 90 c then byte_of (byteZ c + 32) else c.
Definition ascii_upper (c : ascii) : ascii := if in_range 97 122 c then byte_of (byteZ c - 32) else c.
Fixpoint str_map (f : ascii -> ascii) (s : string) : string :=
  match s with EmptyString => EmptyString | String c s => String (f c) (str_map f s) end.
Definition ToLower := str_map ascii_lower.
Definition ToUpper := str_map ascii_upper.

(** [internal/flow/spec.go:Lang] *)
Definition Lang (language : string) : string := if has_prefix "zh" (ToLower language) then "zh" else "en".

(** [internal/flow/spec.go:const(EventTypeToolResult)] *)
Definition EventTypeToolResult : string := "TOOL_RESULT".
(** [internal/flow/spec.go:const(EventTypeNoInput)] *)
Definition EventTypeNoInput : string := "NO_INPUT".

(** [internal/flow/spec.go:Transition] *)
Record Transition := mkTransition {
  On : string;
  TTool : string;
  TCondition : option Condition;
  Target : string;
  Priority : Z
}.

(** [internal/flow/spec.go:DeclaredLead] *)
Record DeclaredLead := mkLead { Intent : string; Notes : Text }.

(** [internal/flow/spec.go:Node] *)
Record Node := mkNode {
  id : string;
  Instruction : Text;
  Announce : Text;
  NTools : list string;
  Transitions : list Transition;
  IsTerminal : bool;
  Lead : option DeclaredLead
}.

(** [internal/flow/spec.go:Collect] *)
Record Collect := mkCollect { CSlot : string; CTemplate : string; When : option Condition }.

(** [internal/flow/spec.go:SuccessTest] *)
Record SuccessTest := mkSuccess { SPath : string; SEquals : string }.

(** [internal/flow/spec.go:ModelOnlyField] *)
Record ModelOnlyField := mkModelOnly { MPath : string; MEach : gmap string string; IsProjection : bool }.

(** [internal/flow/spec.go:HTTPCall] *)
Record HTTPCall := mkHTTP {
  BaseURL : string;
  Path : string;
  Method : string;
  Query : gmap string string;
  Headers : gmap string string;
  TimeoutMs : option Z;
  Body : option (list (string * Value));
  SuccessWhen : option SuccessTest;
  ErrorFrom : string;
  ResultPaths : gmap string string;
  ModelOnlyFields : gmap string ModelOnlyField
}.

(** The names in [result]: the slots [result.<name>] a call can write. *)
Definition Result (h : HTTPCall) : list string := (map_to_list (ResultPaths h)).*1.

(** [internal/flow/spec.go:const(DefaultToolTimeoutMs)] *)
Definition DefaultToolTimeoutMs : Z := 5000.
Definition MinToolTimeoutMs : Z := 500.
Definition MaxToolTimeoutMs : Z := 10000.

(** [internal/flow/spec.go:HTTPCall.Timeout] *)
Definition Timeout (h : HTTPCall) : duration := default DefaultToolTimeoutMs (TimeoutMs h) * 1000000.

(** [internal/flow/spec.go:const(ToolKindSlot)] *)
Definition ToolKindHTTP : string := "http".
Definition ToolKindSlot : string := "slot".

(** [internal/flow/spec.go:Tool] [Properties] are the names of the properties
    of the JSON schema in [parameters] and [Required] the names it requires. *)
Record Tool := mkTool {
  Kind : string;
  Description : Text;
  Properties : list string;
  Required : list string;
  HTTP : option HTTPCall;
  ToolSlot : string;
  Enum : list string;
  TCollect : option Collect
}.

(** [internal/flow/spec.go:Global] *)
Record Global := mkGlobal {
  Persona : Text;
  FallbackTarget : string;
  ClosingTarget : string;
  MaxTurns : Z;
  MaxTurnsWithoutTool : Z;
  MaxDurationSec : option Z;
  ToolWaitLine : Text;
  AlwaysAllowedTools : list string;
  GTransitions : list Transition
}.

(** [internal/flow/spec.go:const(DefaultMaxDurationSec)] *)
Definition DefaultMaxDurationSec : Z := 900.
Definition MinDurationLimitSec : Z := 60.
Definition MaxDurationLimitSec : Z := 3600.

(** [internal/flow/spec.go:Global.MaxDuration] *)
Definition MaxDuration (g : Global) : duration :=
  match MaxDurationSec g with None => DefaultMaxDurationSec * second | Some n => n * second end.

(** [internal/flow/spec.go:Spec] *)
Record Spec := mkSpec {
  ID : string;
  SpecVersion : string;
  InitialNode : string;
  Glob : Global;
  Nodes : gmap string Node;
  Tools : gmap string Tool
}.

(** [internal/flow/spec.go:Spec.Node] *)
Definition NodeOf (s : Spec) (nid : string) : option Node := Nodes s !! nid.

(** [internal/flow/builtin.go:var(BuiltinToolNames)] *)
Definition BuiltinToolNames : list string := ["transfer_to_agent"; "take_message"; "hangup"; "record_lead"]%string.

(** [internal/flow/load.go:Spec.knownToolNames] *)
Definition knownToolNames (s : Spec) : list string := (map_to_list (Tools s)).*1 ++ BuiltinToolNames.

(** ** The checks *)

(** What the loader reports, by the place it names. *)
Inductive Problem :=
| NoID | WrongVersion | NoPhases | NoInitial | InitialUnknown | NoPersona | FallbackUnknown
| ClosingUnknown | ClosingNotTerminal | WallNegative | WallNowhere | DurationOutOfRange | WaitLineIsQuestion
| AlwaysAllowedUnknown (tool : string)
| NoInstruction (phase : string) | AllowsUnknownTool (phase tool : string) | TerminalWithRules (phase : string)
| NoTarget (where_ : string) (i : nat) | TargetUnknown (where_ : string) (i : nat) | EventUnknown (where_ : string) (i : nat)
| NoInputNamesTool (where_ : string) (i : nat) | BadCondition (where_ : string) (i : nat).

Definition when_ (b : bool) (p : Problem) : list Problem := if b then [p] else [].
Definition known (s : Spec) (nid : string) : bool := bool_decide (is_Some (Nodes s !! nid)).

(** [internal/flow/load.go:Spec.validateTransitions] *)
Definition validateTransition (s : Spec) (where_ : string) (i : nat) (rule : Transition) : list Problem :=
  (if String.eqb (Target rule) "" then [NoTarget where_ i] else when_ (negb (known s (Target rule))) (TargetUnknown where_ i)) ++
  when_ (negb (String.eqb (On rule) "") && negb (String.eqb (On rule) EventTypeToolResult) &&
         negb (String.eqb (On rule) EventTypeNoInput)) (EventUnknown where_ i) ++
  when_ (String.eqb (On rule) EventTypeNoInput && negb (String.eqb (TTool rule) "")) (NoInputNamesTool where_ i) ++
  when_ (match TCondition rule with Some c => negb (validateCondition c) | None => false end) (BadCondition where_ i).
Definition validateTransitions (s : Spec) (where_ : string) (rules : list Transition) : list Problem :=
  concat (imap (validateTransition s where_) rules).

(** [internal/flow/load.go:L156-L161] a question mark, ASCII or full-width,
    anywhere in the wait line. *)
Definition asks_question (line : string) : bool := contains (runes line) 63 || contains (runes line) 65311.

(** [internal/flow/load.go:L118-L176] what is checked of the flow as a
    whole. *)
Definition validate_global (s : Spec) : list Problem :=
  let g := Glob s in
  when_ (String.eqb (ID s) "") NoID ++
  when_ (negb (String.eqb (SpecVersion s) SpecVersion_v2)) WrongVersion ++
  when_ (bool_decide (Nodes s = ∅)) NoPhases ++
  (if String.eqb (InitialNode s) "" then [NoInitial] else when_ (negb (known s (InitialNode s))) InitialUnknown) ++
  when_ (IsEmpty (Persona g)) NoPersona ++
  when_ (negb (String.eqb (FallbackTarget g) "") && negb (known s (FallbackTarget g))) FallbackUnknown ++
  (if String.eqb (ClosingTarget g) "" then []
   else match Nodes s !! ClosingTarget g with
        | None => [ClosingUnknown]
        | Some node => when_ (negb (IsTerminal node)) ClosingNotTerminal
        end) ++
  (if MaxTurnsWithoutTool g <? 0 then [WallNegative]
   else when_ ((0 <? MaxTurnsWithoutTool g) && String.eqb (ClosingTarget g) "") WallNowhere) ++
  when_ (match MaxDurationSec g with
         | Some d => negb (d =? 0) && ((d <? MinDurationLimitSec) || (MaxDurationLimitSec <? d))
         | None => false end) DurationOutOfRange ++
  when_ (asks_question (ZH (ToolWaitLine g)) || asks_question (EN (ToolWaitLine g))) WaitLineIsQuestion ++
  flat_map (fun name => when_ (negb (contains (knownToolNames s) name)) (AlwaysAllowedUnknown name)) (AlwaysAllowedTools g) ++
  validateTransitions s "global" (GTransitions g).

(** [internal/flow/load.go:L177-L189] what is checked of each phase. *)
Definition validate_phase (s : Spec) (nid : string) (node : Node) : list Problem :=
  when_ (IsEmpty (Instruction node)) (NoInstruction nid) ++
  flat_map (fun name => when_ (negb (String.eqb name "*") && negb (contains (knownToolNames s) name))
              (AllowsUnknownTool nid name)) (NTools node) ++
  when_ (IsTerminal node && negb (match Transitions node with [] => true | _ => false end)) (TerminalWithRules nid) ++
  validateTransitions s ("phase " +:+ nid) (Transitions node).

(** [internal/flow/load.go:Spec.validate] the part about phases and rules. *)
Definition validate (s : Spec) : list Problem :=
  validate_global s ++ flat_map (fun kv => validate_phase s kv.1 kv.2) (map_to_list (Nodes s)).

(** [internal/flow/load.go:load] the phases are given their ids. *)
Definition with_ids (s : Spec) : Spec :=
  mkSpec (ID s) (SpecVersion s) (InitialNode s) (Glob s)
    (map_imap (fun nid n => Some (mkNode nid (Instruction n) (Announce n) (NTools n) (Transitions n) (IsTerminal n) (Lead n))) (Nodes s))
    (Tools s).

(** ** What a loaded flow is *)

(** Every place a call can be sent exists; the closing phase is terminal; a
    terminal phase has no rules; every rule's condition decides. *)
Record well_formed (s : Spec) : Prop := mkWellFormed {
  wf_initial : is_Some (Nodes s !! InitialNode s);
  wf_fallback : FallbackTarget (Glob s) <> "" -> is_Some (Nodes s !! FallbackTarget (Glob s));
  wf_closing : ClosingTarget (Glob s) <> "" -> exists n, Nodes s !! ClosingTarget (Glob s) = Some n /\ IsTerminal n = true;
  wf_wall : 0 <= MaxTurnsWithoutTool (Glob s) /\ (0 < MaxTurnsWithoutTool (Glob s) -> ClosingTarget (Glob s) <> "");
  wf_terminal : forall nid n, Nodes s !! nid = Some n -> IsTerminal n = true -> Transitions n = [];
  wf_rules : forall r, (r ∈ GTransitions (Glob s) \/ exists nid n, Nodes s !! nid = Some n /\ r ∈ Transitions n) ->
    is_Some (Nodes s !! Target r) /\ (forall c, TCondition r = Some c -> validateCondition c = true);
  wf_targets : forall r, (r ∈ GTransitions (Glob s) \/ exists nid n, Nodes s !! nid = Some n /\ r ∈ Transitions n) -> Target r <> ""%string
}.

Lemma known_true s nid : known s nid = true -> is_Some (Nodes s !! nid).
Proof. apply bool_decide_eq_true. Qed.

Lemma when_nil b p : when_ b p = [] <-> b = false.
Proof. by destruct b. Qed.

Lemma app_nil_inv {A} (l1 l2 : list A) : l1 ++ l2 = [] -> l1 = [] /\ l2 = [].
Proof. apply app_eq_nil. Qed.

Lemma concat_nil_elem {A} (l : list (list A)) x : concat l = [] -> x ∈ l -> x = [].
Proof.
  induction l as [|y l IH]; intros H Hx; [by apply elem_of_nil in Hx|]. simpl in H.
  apply app_nil_inv in H as [-> H]. apply elem_of_cons in Hx as [->|Hx]; [done|by apply IH].
Qed.

Ltac no_problem :=
  repeat match goal with
  | H : _ ++ _ = [] |- _ => apply app_nil_inv in H as [? H]
  | H : when_ _ _ = [] |- _ => apply when_nil in H
  end.

Lemma validateTransitions_ok s where_ rules r : validateTransitions s where_ rules = [] -> r ∈ rules ->
  Target r <> ""%string /\ is_Some (Nodes s !! Target r) /\ (forall c, TCondition r = Some c -> validateCondition c = true).
Proof.
  intros H Hr. apply list_elem_of_lookup in Hr as [i Hi].
  assert (Hone : validateTransition s where_ i r = []).
  { unfold validateTransitions in H. assert (Hin : validateTransition s where_ i r ∈ imap (validateTransition s where_) rules).
    { apply list_elem_of_lookup. exists i. by rewrite list_lookup_imap, Hi. }
    by apply (concat_nil_elem _ _ H). }
  unfold validateTransition in Hone. apply app_nil_inv in Hone as [Ht Hone]. no_problem. split_and!.
  - intros E. by rewrite E in Ht.
  - destruct (String.eqb (Target r) ""); [done|]. apply when_nil, negb_false_iff in Ht. by apply bool_decide_eq_true in Ht.
  - intros c Hc. rewrite Hc in Hone. by apply negb_false_iff in Hone.
Qed.

Lemma validate_well_formed s : validate s = [] -> well_formed s.
Proof.
  intros H. unfold validate in H. apply app_nil_inv in H as [Hg Hp]. unfold validate_global in Hg.
  repeat (apply app_nil_inv in Hg as [? Hg]).
  assert (Hphase : forall nid n, Nodes s !! nid = Some n -> validate_phase s nid n = []).
  { intros nid n Hn. apply elem_of_map_to_list in Hn. rewrite flat_map_concat_map in Hp.
    apply (concat_nil_elem _ _ Hp). apply list_elem_of_In. apply (in_map (fun kv => validate_phase s kv.1 kv.2) _ (nid, n)).
    by apply list_elem_of_In. }
  assert (Hrules : forall r, (r ∈ GTransitions (Glob s) \/ exists nid n, Nodes s !! nid = Some n /\ r ∈ Transitions n) ->
    Target r <> ""%string /\ is_Some (Nodes s !! Target r) /\ (forall c, TCondition r = Some c -> validateCondition c = true)).
  { intros r [Hr|(nid & n & Hn & Hr)].
    - by apply (validateTransitions_ok s "global" (GTransitions (Glob s))).
    - specialize (Hphase nid n Hn). unfold validate_phase in Hphase. repeat (apply app_nil_inv in Hphase as [? Hphase]).
      by apply (validateTransitions_ok s ("phase " +:+ nid) (Transitions n)). }
  constructor.
  - destruct (String.eqb (InitialNode s) "") eqn:E; [done|]. no_problem. b2p. by apply known_true.
  - intros Hne. no_problem. rewrite (proj2 (String.eqb_neq _ _) Hne) in *. simpl in *. b2p. by apply known_true.
  - intros Hne. rewrite (proj2 (String.eqb_neq _ _) Hne) in *. destruct (Nodes s !! ClosingTarget (Glob s)) as [n|]; [|done].
    no_problem. b2p. by exists n.
  - destruct (MaxTurnsWithoutTool (Glob s) <? 0) eqn:E; [done|]. b2p. split; [lia|]. intros Hpos.
    apply String.eqb_neq. no_problem. rewrite (proj2 (Z.ltb_lt _ _) Hpos) in *. by simpl in *.
  - intros nid n Hn Ht. specialize (Hphase nid n Hn). unfold validate_phase in Hphase.
    repeat (apply app_nil_inv in Hphase as [? Hphase]). no_problem. rewrite Ht in *. simpl in *. by destruct (Transitions n).
  - intros r Hr. by apply Hrules in Hr as (_ & ? & ?).
  - intros r Hr. by apply Hrules in Hr as (? & _).
Qed.

End FlowSpec.
