(* ===== verification/FlowSlots.v ===== *)
(** * Slots of a call flow: [internal/flow/slottool.go], the references of
    [engine.go] and [httptool.go], and the slot checks of [load.go]

    Which names a flow can ever write, what a tool may write, and the scanning
    of the [{slots.x}] and [{args.x}] references of a template. The loader's
    promise is that a name it lets a template read is a name something
    writes, and that no tool writes a name the engine keeps for itself. *)

From S2P Require Import Prelude GoText Float64 FlowPredicate FlowSpec.

Module FlowSlots.
Import GoText Float64 FlowPredicate FlowSpec.

(** ** Text *)

Definition letter (c : ascii) : bool := in_range 65 90 c || in_range 97 122 c.
Definition word_byte (c : ascii) : bool := letter c || in_range 48 57 c || (byteZ c =? 95).
Definition dot (c : ascii) : bool := byteZ c =? 46.

Fixpoint every_byte (f : ascii -> bool) (s : string) : bool :=
  match s with EmptyString => true | String c s => f c && every_byte f s end.

(** [internal/flow/slottool.go:var(slotNamePattern)] *)
Definition slotNamePattern (s : string) : bool :=
  match s with EmptyString => false | String c s => letter c && every_byte word_byte s end.

(** [internal/flow/slottool.go:var(collectSlotPattern)] [start] is set at the
    first byte of a segment. *)
Fixpoint segments_ok (start : bool) (s : string) : bool :=
  match s with
  | EmptyString => negb start
  | String c s => if start then letter c && segments_ok false s
                  else if word_byte c then segments_ok false s else dot c && segments_ok true s
  end.
Definition collectSlotPattern : string -> bool := segments_ok true.

(** [strings.CutPrefix] and [strings.CutSuffix], [None] where the second
    result is false. *)
Definition cut_prefix (p s : string) : option string :=
  if has_prefix p s then Some (drop (String.length p) s) else None.
Fixpoint cut_suffix (suf s : string) : option string :=
  if String.eqb s suf then Some ""%string
  else match s with EmptyString => None | String c s => String c <$> cut_suffix suf s end.

(** [strings.Join]. *)
Fixpoint join (sep : string) (l : list string) : string :=
  match l with
  | [] => ""
  | [x] => x
  | x :: rest => (x +:+ sep +:+ join sep rest)%string
  end.

(** A reference at the front of [s]: its length and the name in it. The class
    of bytes excludes the closing brace, so the longest run is the only one a
    match can take. *)
Definition name_byte (c : ascii) : bool := word_byte c || dot c || (byteZ c =? 45).
Fixpoint name_run (s : string) : string * string :=
  match s with
  | String c s' => if name_byte c then let '(n, rest) := name_run s' in (String c n, rest) else (EmptyString, s)
  | EmptyString => (EmptyString, EmptyString)
  end.
Definition reference (opening s : string) : option (nat * string) :=
  rest ← cut_prefix opening s;
  let '(n, rest) := name_run rest in
  if negb (String.eqb n "") && has_prefix "}" rest
  then Some (String.length opening + String.length n + 1, n)%nat else None.

(** [internal/flow/engine.go:var(slotReference)] *)
Definition slotReference : string -> option (nat * string) := reference "{slots.".

(** [internal/flow/httptool.go:var(templateReference)] the source and the
    name. *)
Definition templateReference (s : string) : option (nat * (string * string)) :=
  match reference "{args." s with
  | Some (w, n) => Some (w, ("args", n)%string)
  | None => match reference "{slots." s with Some (w, n) => Some (w, ("slots", n)%string) | None => None end
  end.

(** [regexp.FindAllStringSubmatch] and [regexp.ReplaceAllStringFunc]: the
    matches left to right, [skip] bytes of one already taken still ahead. *)
Fixpoint find_all {A} (found : string -> option (nat * A)) (skip : nat) (s : string) : list A :=
  match s with
  | EmptyString => []
  | String c s' =>
      match skip with
      | S k => find_all found k s'
      | O => match found s with
             | Some (w, x) => x :: find_all found (w - 1) s'
             | None => find_all found 0 s'
             end
      end
  end.
Fixpoint replace_all {A} (found : string -> option (nat * A)) (text : A -> string) (skip : nat) (s : string) : string :=
  match s with
  | EmptyString => EmptyString
  | String c s' =>
      match skip with
      | S k => replace_all found text k s'
      | O => match found s with
             | Some (w, x) => (text x +:+ replace_all found text (w - 1) s')%string
             | None => String c (replace_all found text 0 s')
             end
      end
  end.

(** [internal/flow/load.go:slotRefs] *)
Definition slotRefs (template : string) : list string := find_all slotReference 0 template.

(** ** Names *)

(** [internal/flow/slottool.go:var(engineSlots)] *)
Definition engineSlots : list string :=
  ["caller"; "entry"; "did"; "lang"; "language"; "node"; "turns"; "turnsWithoutTool"; "lastTool"; "noInput.count"]%string.

(** [internal/flow/slottool.go:var(reservedSlotNames)] *)
Definition reservedSlotNames : list string := engineSlots ++ ["result"; "userData"; "noInput"]%string.

(** [internal/flow/slottool.go:const(collectCountSuffix)] *)
Definition collectCountSuffix : string := ".count".

(** [internal/flow/slottool.go:const(slotToolValueArg)] *)
Definition slotToolValueArg : string := "value".

(** [internal/flow/spec.go:const(MaxSlotValueLen)] *)
Definition MaxSlotValueLen : nat := 256.

(** [internal/flow/slottool.go:toolArgNames] with [Tool.ModelParameters]: the
    generated schema of a slot tool has the one property. *)
Definition toolArgNames (tool : Tool) : list string :=
  if String.eqb (Kind tool) ToolKindSlot then [slotToolValueArg] else Properties tool.

Section declared.
Variable s : Spec.

Definition toolsOf : list (string * Tool) := map_to_list (Tools s).

(** [internal/flow/slottool.go:newDeclaredSlots] every field any tool's
    result can carry. *)
Definition resultKeys : list string :=
  ["ok"; "queue"]%string ++ flat_map (fun kv => match HTTP kv.2 with Some h => Result h | None => [] end) toolsOf.

(** [internal/flow/slottool.go:declaredSlots.toolNames] *)
Definition toolNames : list string := toolsOf.*1 ++ BuiltinToolNames.

(** [internal/flow/slottool.go:declaredSlots.toolHas] *)
Definition toolHas (toolName rest : string) : bool :=
  if String.eqb rest "calls" || String.eqb rest "ok" then true
  else
    match cut_prefix "args." rest, Tools s !! toolName with
    | Some arg, None => negb (String.eqb arg "")
    | Some arg, Some tool => contains (toolArgNames tool) arg
    | None, None => contains resultKeys rest
    | None, Some tool => match HTTP tool with Some h => contains (Result h) rest | None => false end
    end.

(** [internal/flow/slottool.go:L198-L205] a name one of the tools writes. *)
Definition writes (tool : Tool) (name : string) : bool :=
  (String.eqb (Kind tool) ToolKindSlot && String.eqb (ToolSlot tool) name) ||
  match TCollect tool with
  | Some c => String.eqb (CSlot c) name || String.eqb (CSlot c +:+ collectCountSuffix) name
  | None => false
  end.

(** [internal/flow/slottool.go:L211-L218] the loop over the tools stops at the
    first whose name and a dot start the slot's. *)
Fixpoint of_tool (names : list string) (name : string) : bool :=
  match names with
  | [] => false
  | t :: rest => match cut_prefix (t +:+ ".") name with Some field => toolHas t field | None => of_tool rest name end
  end.

(** [internal/flow/slottool.go:declaredSlots.has] *)
Definition has (name : string) : bool :=
  if contains engineSlots name then true
  else if has_prefix "userData." name && (String.length "userData." <? String.length name)%nat then true
  else match cut_prefix "result." name with
       | Some key => contains resultKeys key
       | None =>
           if existsb (fun kv => writes kv.2 name) toolsOf then true
           else match cut_suffix ".visits" name with
                | Some nid => known s nid
                | None => of_tool toolNames name
                end
       end.

(** ** What the loader refuses of tools and templates *)

(** Why a collect list may not have a name. *)
Inductive Collision :=
| WrittenByEngine | InNamespace (root : string) | VisitCounter (phase : string) | EngineForTool (tool : string)
| ResultFieldOf (tool : string) | BuiltinResultOf (tool : string) | SlotOf (tool : string) | CollectOf (tool : string).

(** [internal/flow/load.go:L578-L594] the loop over the tools' namespaces. *)
Fixpoint tool_collision (names : list string) (written : string) : option Collision :=
  match names with
  | [] => None
  | t :: names =>
      match cut_prefix (t +:+ ".") written with
      | None => tool_collision names written
      | Some rest =>
          if String.eqb rest "calls" || String.eqb rest "ok" || has_prefix "args." rest then Some (EngineForTool t)
          else match Tools s !! t with
               | Some tool => if match HTTP tool with Some h => contains (Result h) rest | None => false end
                              then Some (ResultFieldOf t) else tool_collision names written
               | None => if contains resultKeys rest then Some (BuiltinResultOf t) else tool_collision names written
               end
      end
  end.

(** [internal/flow/load.go:L597-L607] the loop over the tools' own slots. *)
Fixpoint owner_collision (owner written : string) (tools : list (string * Tool)) : option Collision :=
  match tools with
  | [] => None
  | (name, tool) :: rest =>
      if String.eqb (Kind tool) ToolKindSlot && String.eqb (ToolSlot tool) written then Some (SlotOf name)
      else match TCollect tool with
           | Some c => if negb (String.eqb name owner) &&
                          (String.eqb (CSlot c) written || String.eqb (CSlot c +:+ collectCountSuffix) written)
                       then Some (CollectOf name) else owner_collision owner written rest
           | None => owner_collision owner written rest
           end
  end.

(** [internal/flow/load.go:Spec.collectCollision] *)
Definition roots : list string := ["result"; "userData"; "noInput"]%string.
Definition in_root (written root : string) : bool := String.eqb written root || has_prefix (root +:+ ".") written.
Definition collectCollision (owner written : string) : option Collision :=
  if contains engineSlots written then Some WrittenByEngine
  else match List.find (in_root written) roots with
       | Some root => Some (InNamespace root)
       | None =>
           match cut_suffix ".visits" written with
           | Some nid => if known s nid then Some (VisitCounter nid)
                         else match tool_collision toolNames written with
                              | Some c => Some c | None => owner_collision owner written toolsOf end
           | None => match tool_collision toolNames written with
                     | Some c => Some c | None => owner_collision owner written toolsOf end
           end
       end.

Inductive ToolProblem :=
| NoDescription (tool : string) | NameOfBuiltin (tool : string) | HTTPWithSlot (tool : string) | NoHTTP (tool : string) | NoPath (tool : string)
| SlotWithCollect (tool : string) | UnknownKind (tool : string) | SlotWithHTTP (tool : string) | NoSlot (tool : string)
| BadSlotName (tool : string) | SlotReserved (tool : string) | SlotTaken (tool other : string)
| BadEnum (tool value : string) | EnumTwice (tool value : string)
| UnwrittenSlot (where_ name : string)
| CollectNoSlot (tool : string) | CollectBadName (tool : string) | CollectCollides (tool written : string) (why : Collision)
| CollectNoValue (tool : string) | CollectUnknownArg (tool arg : string) | CollectBadWhen (tool : string).

Definition if_ (b : bool) (p : ToolProblem) : list ToolProblem := if b then [p] else [].

(** [internal/flow/load.go:L434-L442] the loop over the enum, with the values
    seen so far. *)
Fixpoint validate_enum (name : string) (seen values : list string) : list ToolProblem :=
  match values with
  | [] => []
  | v :: rest =>
      if_ (String.eqb (TrimSpace v) "" || negb (String.eqb (TrimSpace v) v) || (MaxSlotValueLen <? length (runes v))%nat)
          (BadEnum name v) ++
      if_ (contains seen v) (EnumTwice name v) ++ validate_enum name (v :: seen) rest
  end.

(** [internal/flow/load.go:Spec.validateSlotTool] with the owners so far. *)
Definition validateSlotTool (name : string) (tool : Tool) (owners : gmap string string) : gmap string string * list ToolProblem :=
  let first := if_ (match HTTP tool with Some _ => true | None => false end) (SlotWithHTTP name) in
  let '(owners, slot) :=
    if String.eqb (ToolSlot tool) "" then (owners, [NoSlot name])
    else if negb (slotNamePattern (ToolSlot tool)) then (owners, [BadSlotName name])
    else if contains reservedSlotNames (ToolSlot tool) then (owners, [SlotReserved name])
    else (<[ToolSlot tool := name]> owners,
          match owners !! ToolSlot tool with Some other => [SlotTaken name other] | None => [] end) in
  (owners, first ++ slot ++ validate_enum name [] (Enum tool)).

(** [internal/flow/load.go:L195-L226] what is checked of each tool,
    the JSON of its schema apart. *)
Definition validate_tool (acc : gmap string string * list ToolProblem) (kv : string * Tool) : gmap string string * list ToolProblem :=
  let '(owners, problems) := acc in let '(name, tool) := kv in
  let problems := problems ++ if_ (IsEmpty (Description tool)) (NoDescription name) ++
                  if_ (contains BuiltinToolNames name) (NameOfBuiltin name) in
  if String.eqb (Kind tool) "" || String.eqb (Kind tool) ToolKindHTTP then
    (owners, problems ++
       if_ (negb (String.eqb (ToolSlot tool) "") || negb (match Enum tool with [] => true | _ => false end)) (HTTPWithSlot name) ++
       match HTTP tool with None => [NoHTTP name] | Some h => if_ (String.eqb (Path h) "") (NoPath name) end)
  else if String.eqb (Kind tool) ToolKindSlot then
    let '(owners, more) := validateSlotTool name tool owners in
    (owners, problems ++ if_ (match TCollect tool with Some _ => true | None => false end) (SlotWithCollect name) ++ more)
  else (owners, problems ++ [UnknownKind name]).

(** [internal/flow/load.go:checkTemplate] *)
Definition checkTemplate (where_ : string) (text : Text) : list ToolProblem :=
  flat_map (fun line => flat_map (fun name => if_ (negb (has name)) (UnwrittenSlot where_ name)) (slotRefs line)) [EN text; ZH text].

(** [internal/flow/load.go:checkConditions] *)
Definition checkConditions (where_ : string) (rules : list Transition) : list ToolProblem :=
  flat_map (fun rule => flat_map (fun name => if_ (negb (has name)) (UnwrittenSlot where_ name))
    (match TCondition rule with Some c => conditionSlots c | None => [] end)) rules.

(** [internal/flow/load.go:checkBody] *)
Fixpoint checkBody (where_ : string) (v : Value) : list ToolProblem :=
  match v with
  | VStr x => flat_map (fun m => if_ (String.eqb m.1 "slots" && negb (has m.2)) (UnwrittenSlot where_ m.2)) (find_all templateReference 0 x)
  | VMap m => flat_map (fun kv => checkBody where_ kv.2) m
  | VList l => flat_map (checkBody where_) l
  | _ => []
  end.

(** [internal/flow/load.go:Spec.validateCollects] what is checked of one
    tool's rule. *)
Definition validateCollect (name : string) (tool : Tool) (rule : Collect) : list ToolProblem :=
  (if String.eqb (CSlot rule) "" then [CollectNoSlot name]
   else if negb (collectSlotPattern (CSlot rule)) then [CollectBadName name]
   else flat_map (fun written => match collectCollision name written with
                                 | Some why => [CollectCollides name written why] | None => [] end)
          [CSlot rule; CSlot rule +:+ collectCountSuffix]%string) ++
  if_ (String.eqb (TrimSpace (CTemplate rule)) "") (CollectNoValue name) ++
  flat_map (fun m => if String.eqb m.1 "args" && negb (contains (toolArgNames tool) m.2) then [CollectUnknownArg name m.2]
                     else if_ (String.eqb m.1 "slots" && negb (has m.2)) (UnwrittenSlot name m.2))
    (find_all templateReference 0 (CTemplate rule)) ++
  if_ (match When rule with Some c => negb (validateCondition c) | None => false end) (CollectBadWhen name) ++
  flat_map (fun slot => if_ (negb (has slot)) (UnwrittenSlot name slot))
    (match When rule with Some c => conditionSlots c | None => [] end).
Definition validateCollects : list ToolProblem :=
  flat_map (fun kv => match TCollect kv.2 with
                      | Some rule => if String.eqb (Kind kv.2) ToolKindSlot then [] else validateCollect kv.1 kv.2 rule
                      | None => [] end) toolsOf.

(** [internal/flow/load.go:L228-L241] what is checked of the names templates
    and conditions read. *)
Definition validate_names : list ToolProblem :=
  flat_map (fun kv => checkTemplate (kv.1 +:+ " instruction") (Instruction kv.2) ++
                      checkTemplate (kv.1 +:+ " announce") (Announce kv.2) ++
                      match Lead kv.2 with Some l => checkTemplate (kv.1 +:+ " lead") (Notes l) | None => [] end ++
                      checkConditions kv.1 (Transitions kv.2)) (map_to_list (Nodes s)) ++
  checkTemplate "global.toolWaitLine" (ToolWaitLine (Glob s)) ++
  checkConditions "global" (GTransitions (Glob s)) ++
  flat_map (fun kv => match HTTP kv.2 with Some h => checkBody kv.1 (VMap (default [] (Body h))) | None => [] end) toolsOf.

(** [internal/flow/load.go:Spec.validate] the part about tools and names. *)
Definition validate_tools : list ToolProblem :=
  snd (fold_left validate_tool toolsOf (∅, [])) ++ validate_names ++ validateCollects.

End declared.

(** [internal/flow/load.go:Spec.validate] *)
Definition accepted (s : Spec) : bool :=
  match validate s, validate_tools s with [], [] => true | _, _ => false end.

(** ** What acceptance gives *)

(** No tool writes a name the engine keeps for itself. *)
Record sound_slots (s : Spec) : Prop := mkSound {
  sound_collect : forall name tool rule, Tools s !! name = Some tool -> TCollect tool = Some rule ->
    forall written, written = CSlot rule \/ written = (CSlot rule +:+ collectCountSuffix)%string ->
    written ∉ engineSlots /\ (forall root, root ∈ roots -> in_root written root = false);
  sound_free : forall name tool rule, Tools s !! name = Some tool -> TCollect tool = Some rule ->
    forall written, written = CSlot rule \/ written = (CSlot rule +:+ collectCountSuffix)%string ->
    collectCollision s name written = None;
  sound_when : forall name tool rule c, Tools s !! name = Some tool -> TCollect tool = Some rule ->
    When rule = Some c -> validateCondition c = true;
  sound_slot : forall name tool, Tools s !! name = Some tool -> Kind tool = ToolKindSlot ->
    slotNamePattern (ToolSlot tool) = true /\ ToolSlot tool ∉ reservedSlotNames /\ TCollect tool = None;
  sound_names : forall name, is_Some (Tools s !! name) -> name ∉ BuiltinToolNames
}.

Lemma if_nil b p : if_ b p = [] <-> b = false.
Proof. by destruct b. Qed.

Lemma flat_map_nil {A B} (f : A -> list B) l x : flat_map f l = [] -> x ∈ l -> f x = [].
Proof.
  intros H Hx. rewrite flat_map_concat_map in H. apply (concat_nil_elem _ _ H).
  apply list_elem_of_In, in_map. by apply list_elem_of_In.
Qed.

Lemma validate_tool_app owners problems kv :
  validate_tool (owners, problems) kv =
  (fst (validate_tool (owners, []) kv), problems ++ snd (validate_tool (owners, []) kv)).
Proof.
  destruct kv as [name tool]. unfold validate_tool. destruct (_ || _); [simpl; by rewrite <- !app_assoc|].
  destruct (String.eqb (Kind tool) ToolKindSlot).
  - destruct (validateSlotTool name tool owners). simpl. by rewrite <- !app_assoc.
  - simpl. by rewrite <- !app_assoc.
Qed.

Lemma fold_tools_nil tools acc : snd (fold_left validate_tool tools acc) = [] ->
  snd acc = [] /\ forall kv, kv ∈ tools -> exists owners, snd (validate_tool (owners, []) kv) = [].
Proof.
  revert acc. induction tools as [|kv tools IH]; intros [owners problems] H.
  - split; [done|]. by intros ? ?%elem_of_nil.
  - cbn [fold_left] in H. rewrite validate_tool_app in H. apply IH in H as [H Hrest]. cbn [snd] in H. apply app_nil_inv in H as [-> H].
    split; [done|]. intros kv' [->|Hkv]%elem_of_cons; [by exists owners|by apply Hrest].
Qed.

Lemma collectCollision_none s owner written : collectCollision s owner written = None ->
  written ∉ engineSlots /\ (forall root, root ∈ roots -> in_root written root = false).
Proof.
  unfold collectCollision. destruct (contains engineSlots written) eqn:E; [done|]. b2p. intros H. split; [done|].
  destruct (List.find (in_root written) roots) as [r|] eqn:Ef; [done|].
  intros root Hr. apply list_elem_of_In in Hr. by apply (find_none _ _ Ef).
Qed.

Lemma accepted_inv s : accepted s = true -> validate s = [] /\ validate_tools s = [].
Proof. unfold accepted. by destruct (validate s), (validate_tools s). Qed.

Lemma accepted_collect s name tool rule : validateCollects s = [] ->
  Tools s !! name = Some tool -> TCollect tool = Some rule -> Kind tool <> ToolKindSlot -> validateCollect s name tool rule = [].
Proof.
  intros H Ht Hr Hk. unfold validateCollects in H.
  apply (flat_map_nil _ _ (name, tool)) in H; [|by apply elem_of_map_to_list]. simpl in H. rewrite Hr in H.
  by rewrite (proj2 (String.eqb_neq _ _) Hk) in H.
Qed.

Lemma validateCollect_sound s name tool rule : validateCollect s name tool rule = [] ->
  (forall written, written = CSlot rule \/ written = (CSlot rule +:+ collectCountSuffix)%string ->
     collectCollision s name written = None) /\
  (forall c, When rule = Some c -> validateCondition c = true).
Proof.
  unfold validateCollect. intros H. apply app_nil_inv in H as [Hs H]. apply app_nil_inv in H as [_ H].
  apply app_nil_inv in H as [_ H]. apply app_nil_inv in H as [Hw _]. split.
  - destruct (String.eqb (CSlot rule) ""); [done|]. destruct (negb (collectSlotPattern (CSlot rule))); [done|].
    intros written Hin. apply (flat_map_nil _ _ written) in Hs.
    + cbv beta in Hs. by destruct (collectCollision s name written).
    + apply list_elem_of_In. simpl. destruct Hin; auto.
  - intros c Hc. rewrite Hc in Hw. apply if_nil in Hw. by apply negb_false_iff in Hw.
Qed.

Lemma validate_slot_sound name tool owners : Kind tool = ToolKindSlot ->
  snd (validate_tool (owners, []) (name, tool)) = [] ->
  slotNamePattern (ToolSlot tool) = true /\ ToolSlot tool ∉ reservedSlotNames /\ TCollect tool = None.
Proof.
  intros Hk. unfold validate_tool. rewrite Hk. simpl. unfold validateSlotTool.
  destruct (String.eqb (ToolSlot tool) ""); simpl; [by rewrite !app_nil; intros (? & ? & ? & ?)|].
  destruct (slotNamePattern (ToolSlot tool)) eqn:Ep; simpl; [|by rewrite !app_nil; intros (? & ? & ? & ?)].
  destruct (contains reservedSlotNames (ToolSlot tool)) eqn:Er; simpl; [by rewrite !app_nil; intros (? & ? & ? & ?)|].
  b2p. intros H. apply app_nil_inv in H as [_ H]. apply app_nil_inv in H as [H _]. split_and!; [done..|].
  by destruct (TCollect tool).
Qed.

Lemma accepted_sound s : accepted s = true -> sound_slots s.
Proof.
  intros [_ H]%accepted_inv. unfold validate_tools in H. apply app_nil_inv in H as [Ht H].
  apply app_nil_inv in H as [_ Hc]. apply fold_tools_nil in Ht as [_ Ht].
  assert (Hslot : forall name tool, Tools s !! name = Some tool -> Kind tool = ToolKindSlot ->
    slotNamePattern (ToolSlot tool) = true /\ ToolSlot tool ∉ reservedSlotNames /\ TCollect tool = None).
  { intros name tool Hn Hk. destruct (Ht (name, tool)) as [owners Ho]; [by apply elem_of_map_to_list|].
    by apply (validate_slot_sound name tool owners). }
  assert (Hcol : forall name tool rule, Tools s !! name = Some tool -> TCollect tool = Some rule ->
    validateCollect s name tool rule = []).
  { intros name tool rule Hn Hr. apply accepted_collect; [done..|]. intros Hk.
    destruct (Hslot name tool Hn Hk) as (_ & _ & Hnone). congruence. }
  constructor.
  - intros name tool rule Hn Hr written Hw. apply (collectCollision_none s name).
    by apply (proj1 (validateCollect_sound s name tool rule (Hcol _ _ _ Hn Hr))).
  - intros name tool rule Hn Hr. apply (proj1 (validateCollect_sound s name tool rule (Hcol _ _ _ Hn Hr))).
  - intros name tool rule c Hn Hr. apply (proj2 (validateCollect_sound s name tool rule (Hcol _ _ _ Hn Hr))).
  - exact Hslot.
  - intros name [tool Hn]. destruct (Ht (name, tool)) as [owners Ho]; [by apply elem_of_map_to_list|].
    unfold validate_tool in Ho. destruct (_ || _); [|destruct (String.eqb (Kind tool) ToolKindSlot)].
    + simpl in Ho. apply app_nil_inv in Ho as [Ho _]. apply app_nil_inv in Ho as [_ Ho]. apply if_nil in Ho. by b2p.
    + destruct (validateSlotTool name tool owners). simpl in Ho. apply app_nil_inv in Ho as [Ho _].
      apply app_nil_inv in Ho as [_ Ho]. apply if_nil in Ho. by b2p.
    + simpl in Ho. apply app_nil_inv in Ho as [Ho _]. apply app_nil_inv in Ho as [_ Ho]. apply if_nil in Ho. by b2p.
Qed.

End FlowSlots.
