(* ===== verification/FlowEngine.v ===== *)
(** * The flow engine: [internal/flow/engine.go], [slottool.go] and
    [builtin.go]

    One call's progress through a flow: the phase it is in, the slots, the
    counters of the guards, and every operation that changes them. The flow
    and the call's language never change during a call and are arguments of
    the Section, with the number and text conversions of Go's library that
    FlowPredicate leaves open. An operation that evaluates a condition answers
    [None] where the evaluation panics. Logging is not modelled. *)

From S2P Require Import Prelude GoText Float64 FlowPredicate FlowSpec FlowSlots.

Module FlowEngine.
Import GoText Float64 FlowPredicate FlowSpec FlowSlots.

(** [internal/flow/builtin.go:LeadRequest] *)
Record LeadRequest := mkLeadRequest { LIntent : string; LNotes : string }.

(** [internal/flow/builtin.go:const(MaxLeadNotesRunes)] *)
Definition MaxLeadNotesRunes : nat := 1000.

(** [internal/flow/spec.go:const(MaxCollectedValues)] *)
Definition MaxCollectedValues : nat := 20.

(** [internal/flow/spec.go:var(DefaultToolWaitLine)] *)
Definition DefaultToolWaitLine : Text := mkText "请稍等，我查一下。" "One moment, let me check that.".

(** [internal/flow/engine.go:const(defaultNoInputLimit)] *)
Definition defaultNoInputLimit : Z := 3.

(** [internal/flow/builtin.go:leadNotes] *)
Definition leadNotes (notes : string) : string * bool :=
  let kept := TrimSpace notes in
  if (length (runes kept) <=? MaxLeadNotesRunes)%nat then (kept, false)
  else (utf8 (take MaxLeadNotesRunes (runes kept)), true).

(** [internal/flow/slottool.go:truncateRunes] *)
Definition truncateRunes (s : string) (n : nat) : string :=
  if (length (runes s) <=? n)%nat then s else utf8 (take n (runes s)).

(** [internal/flow/slottool.go:scalarSlotValue] *)
Definition scalarSlotValue (v : Value) : option Value :=
  match v with
  | VStr x => Some (VStr (truncateRunes x MaxSlotValueLen))
  | VBool _ | VFloat _ | VInt _ => Some v
  | VNil | VList _ | VMap _ => None
  end.

(** [internal/flow/slottool.go:seedUserData] the nested objects are walked in
    place. *)
Fixpoint seed_value (key : string) (v : Value) (slots : gmap string Value) : gmap string Value :=
  match v with
  | VMap m => fold_left (fun slots kv => seed_value (key +:+ "." +:+ kv.1) kv.2 slots) m slots
  | _ => match scalarSlotValue v with Some value => <[key := value]> slots | None => slots end
  end.
Definition seedUserData (slots : gmap string Value) (prefix : string) (data : list (string * Value)) : gmap string Value :=
  fold_left (fun slots kv => seed_value (prefix +:+ "." +:+ kv.1) kv.2 slots) data slots.

(** [internal/flow/slottool.go:SeedSlots] *)
Definition SeedSlots (caller entry did : string) (userData : list (string * Value)) : gmap string Value :=
  seedUserData (<["caller" := VStr caller]> (<["entry" := VStr entry]> (<["did" := VStr did]> ∅))) "userData" userData.

(** [internal/flow/engine.go:Engine] [entries] are the calls of [onEnter] that
    are still to be heard, each with what the callback reads of the engine at
    that moment: the phase and the lead it declares. *)
Record Engine := mkEngine {
  current : Node;
  slots : gmap string Value;
  collected : gmap string (list string);
  turns : Z;
  turnsWithoutTool : Z;
  isCallerAwaitingReply : bool;
  isToolReplyNext : bool;
  isInToolBatch : bool;
  batchNode : Node;
  batchMovedTo : string;
  entries : list (string * option (LeadRequest * bool))
}.

Definition no_node : Node := mkNode "" (mkText "" "") (mkText "" "") [] [] false None.

Definition set_current n e := mkEngine n (slots e) (collected e) (turns e) (turnsWithoutTool e) (isCallerAwaitingReply e) (isToolReplyNext e) (isInToolBatch e) (batchNode e) (batchMovedTo e) (entries e).
Definition set_slots m e := mkEngine (current e) m (collected e) (turns e) (turnsWithoutTool e) (isCallerAwaitingReply e) (isToolReplyNext e) (isInToolBatch e) (batchNode e) (batchMovedTo e) (entries e).
Definition set_collected c e := mkEngine (current e) (slots e) c (turns e) (turnsWithoutTool e) (isCallerAwaitingReply e) (isToolReplyNext e) (isInToolBatch e) (batchNode e) (batchMovedTo e) (entries e).
Definition set_turns n e := mkEngine (current e) (slots e) (collected e) n (turnsWithoutTool e) (isCallerAwaitingReply e) (isToolReplyNext e) (isInToolBatch e) (batchNode e) (batchMovedTo e) (entries e).
Definition set_wall n e := mkEngine (current e) (slots e) (collected e) (turns e) n (isCallerAwaitingReply e) (isToolReplyNext e) (isInToolBatch e) (batchNode e) (batchMovedTo e) (entries e).
Definition set_awaiting b e := mkEngine (current e) (slots e) (collected e) (turns e) (turnsWithoutTool e) b (isToolReplyNext e) (isInToolBatch e) (batchNode e) (batchMovedTo e) (entries e).
Definition set_toolReply b e := mkEngine (current e) (slots e) (collected e) (turns e) (turnsWithoutTool e) (isCallerAwaitingReply e) b (isInToolBatch e) (batchNode e) (batchMovedTo e) (entries e).
Definition set_batch b n t e := mkEngine (current e) (slots e) (collected e) (turns e) (turnsWithoutTool e) (isCallerAwaitingReply e) (isToolReplyNext e) b n t (entries e).
Definition set_entries l e := mkEngine (current e) (slots e) (collected e) (turns e) (turnsWithoutTool e) (isCallerAwaitingReply e) (isToolReplyNext e) (isInToolBatch e) (batchNode e) (batchMovedTo e) l.
(** [e.slots[name] = value]. *)
Definition put (name : string) (v : Value) (e : Engine) : Engine := set_slots (<[name := v]> (slots e)) e.

(** Keys with a prefix deleted from the slots. *)
Definition drop_prefix (p : string) (m : gmap string Value) : gmap string Value :=
  filter (fun kv => has_prefix p kv.1 = false) m.

(** [internal/flow/engine.go:Transition.matches] *)
Definition matches (r : Transition) (event tool : string) : bool :=
  if negb (String.eqb (On r) "") && negb (String.eqb (On r) event) then false
  else String.eqb (TTool r) "" || String.eqb (TTool r) tool.

(** [internal/flow/engine.go:sortedRules] *)
Definition sortedRules (rules : list Transition) : list Transition := sort_by Priority rules.

Section engine.
Variable ParseFloat : string -> option f64.
Variable FormatFloat : f64 -> string.
Variable Sprint : Value -> string.
Variable spec : Spec.
Variable language : string.

Notation asString := (asString FormatFloat Sprint).
Notation asNumber := (asNumber ParseFloat).
Notation evaluate := (evaluate ParseFloat FormatFloat Sprint).

Definition lang : string := Lang language.

(** A missing slot reads as nil. *)
Definition slot_of (e : Engine) (name : string) : Value := default VNil (slots e !! name).

(** [internal/flow/engine.go:Engine.countOf] *)
Definition countOf (e : Engine) (slot : string) : Z :=
  match asNumber (slot_of e slot) with Some n => to_int n | None => 0 end.

(** [e.slots[name] = e.countOf(name) + 1]. *)
Definition bump (name : string) (e : Engine) : Engine := put name (VInt (wrapS 64 (countOf e name + 1))) e.

(** [internal/flow/engine.go:Engine.render] *)
Definition render (e : Engine) (template : string) : string :=
  if negb (str_contains template "{slots.") then template
  else replace_all slotReference (fun name => asString (slot_of e name)) 0 template.

(** [internal/flow/engine.go:Engine.Instruction] *)
Definition InstructionNow (e : Engine) : string := render e (For (Instruction (current e)) lang).

(** [internal/flow/engine.go:Engine.Announce] *)
Definition AnnounceNow (e : Engine) : string := render e (For (Announce (current e)) lang).

(** [internal/flow/engine.go:Engine.ToolWaitLine] *)
Definition ToolWaitLineNow (e : Engine) : string :=
  let line := if String.eqb lang "zh" then ZH (ToolWaitLine (Glob spec)) else EN (ToolWaitLine (Glob spec)) in
  let fallback := if String.eqb lang "zh" then ZH DefaultToolWaitLine else EN DefaultToolWaitLine in
  render e (if String.eqb line "" then fallback else line).

(** [internal/flow/engine.go:Engine.declaredLead] *)
Definition declaredLead (e : Engine) : option (LeadRequest * bool) :=
  match Lead (current e) with
  | None => None
  | Some declared => let '(notes, isCut) := leadNotes (render e (For (Notes declared) lang)) in
                     Some (mkLeadRequest (Intent declared) notes, isCut)
  end.

(** [internal/flow/engine.go:Engine.resetTurnsWithoutTool] *)
Definition resetTurnsWithoutTool (e : Engine) : Engine := put "turnsWithoutTool" (VInt 0) (set_wall 0 e).

(** [internal/flow/engine.go:Engine.enter] the phase entered, empty for
    none. *)
Definition enter (nodeID : string) (e : Engine) : Engine * string :=
  match NodeOf spec nodeID with
  | None => (e, ""%string)
  | Some node =>
      let e := put "node" (VStr nodeID) (set_current node e) in
      let e := resetTurnsWithoutTool e in
      let e := bump (nodeID +:+ ".visits") e in
      (set_entries (entries e ++ [(id node, declaredLead e)]) e, nodeID)
  end.

(** [internal/flow/engine.go:NewEngine] [onEnter] is not set yet when the
    initial phase is entered. *)
Definition new_collected (slots : gmap string Value) (kv : string * Tool) : gmap string Value :=
  match TCollect kv.2 with
  | Some c => <[(CSlot c +:+ collectCountSuffix)%string := VInt 0]> (<[CSlot c := VStr ""]> slots)
  | None => slots
  end.
Definition NewEngine (baseSlots : gmap string Value) : Engine :=
  let m := <["language" := VStr (ToUpper lang)]> (<["lang" := VStr lang]> baseSlots) in
  let m := fold_left new_collected (map_to_list (Tools spec)) m in
  let e := mkEngine no_node m ∅ 0 0 false false false no_node "" [] in
  set_entries [] (fst (enter (InitialNode spec) e)).

(** [internal/flow/engine.go:Engine.toolPhase] *)
Definition toolPhase (e : Engine) : Node := if isInToolBatch e then batchNode e else current e.

(** [internal/flow/engine.go:Engine.IsToolAllowed] *)
Definition IsToolAllowed (e : Engine) (name : string) : bool :=
  if contains (AlwaysAllowedTools (Glob spec)) name then true
  else contains (NTools (toolPhase e)) "*"%string || contains (NTools (toolPhase e)) name.

(** [internal/flow/engine.go:Engine.AllowedTools] *)
Definition AllowedTools (e : Engine) : list string := AlwaysAllowedTools (Glob spec) ++ NTools (toolPhase e).

(** [internal/flow/engine.go:Engine.BeginToolBatch] *)
Definition BeginToolBatch (e : Engine) : Engine := if isInToolBatch e then e else set_batch true (current e) "" e.

(** [internal/flow/engine.go:Engine.EndToolBatch] *)
Definition EndToolBatch (e : Engine) : Engine := set_batch false no_node "" e.

(** [internal/flow/engine.go:L523-L546] the loop of [fire] over the rules. *)
Fixpoint fire_rules (from : Node) (event tool : string) (rules : list Transition) (e : Engine) : option (Engine * string) :=
  match rules with
  | [] => Some (e, ""%string)
  | rule :: rest =>
      if negb (matches rule event tool) then fire_rules from event tool rest e
      else match evaluate (TCondition rule) (slots e) with
           | Panics => None
           | Fails | Holds false => fire_rules from event tool rest e
           | Holds true =>
               if String.eqb (Target rule) (id from) || String.eqb (Target rule) (id (current e)) then Some (e, ""%string)
               else Some (enter (Target rule) e)
           end
  end.

(** [internal/flow/engine.go:Engine.fire] *)
Definition fire (event tool : string) (e : Engine) : option (Engine * string) :=
  if IsTerminal (current e) then Some (e, ""%string)
  else
    let from := if String.eqb event EventTypeToolResult then toolPhase e else current e in
    fire_rules from event tool (sortedRules (Transitions from) ++ sortedRules (GTransitions (Glob spec))) e.

(** [internal/flow/engine.go:Engine.guardRunawayLoop] *)
Definition guardRunawayLoop (e : Engine) : Engine * string :=
  let target := FallbackTarget (Glob spec) in
  if (MaxTurns (Glob spec) <=? 0) || (turns e <=? MaxTurns (Glob spec)) ||
     String.eqb target "" || String.eqb target (id (current e)) || IsTerminal (current e)
  then (e, ""%string)
  else enter target e.

(** [internal/flow/slottool.go:Engine.recordArgs] *)
Definition record_arg (prefix : string) (m : gmap string Value) (kv : string * Value) : gmap string Value :=
  match scalarSlotValue kv.2 with Some value => <[(prefix +:+ kv.1)%string := value]> m | None => m end.
Definition recordArgs (tool : string) (args : gmap string Value) (e : Engine) : Engine :=
  let prefix := (tool +:+ ".args.")%string in
  set_slots (fold_left (record_arg prefix) (map_to_list args) (drop_prefix prefix (slots e))) e.

(** [internal/flow/slottool.go:Engine.RecordSlot] *)
Definition RecordSlot (slot value : string) (e : Engine) : Engine := put slot (VStr value) e.

(** [internal/flow/httptool.go:resolveReference] *)
Definition resolveReference (args slots : gmap string Value) (m : string * string) : Value :=
  default VNil (if String.eqb m.1 "args" then args !! m.2 else slots !! m.2).

(** [internal/flow/httptool.go:renderString] a text that is one reference and
    nothing else keeps the value's type; a text with none is itself. *)
Definition renderString (template : string) (args slots : gmap string Value) : Value :=
  match templateReference template with
  | Some (w, m) =>
      if (w =? String.length template)%nat then resolveReference args slots m
      else VStr (replace_all templateReference (fun m => asString (resolveReference args slots m)) 0 template)
  | None => VStr (replace_all templateReference (fun m => asString (resolveReference args slots m)) 0 template)
  end.

(** [internal/flow/httptool.go:renderValue] *)
Fixpoint renderValue (v : Value) (args slots : gmap string Value) : Value :=
  match v with
  | VStr x => renderString x args slots
  | VMap m => VMap (map (fun kv => (kv.1, renderValue kv.2 args slots)) m)
  | VList l => VList (map (fun x => renderValue x args slots) l)
  | _ => v
  end.

(** [internal/flow/slottool.go:L311-L330] the end of [collect], the value
    rendered. *)
Definition keep_collected (rule : Collect) (value : string) (e : Engine) : Engine :=
  if String.eqb value "" then e
  else
    let value := if (MaxSlotValueLen <? length (runes value))%nat then TrimSpace (truncateRunes value MaxSlotValueLen) else value in
    let values := default [] (collected e !! CSlot rule) in
    if contains values value then e
    else if (MaxCollectedValues <=? length values)%nat then e
    else
      let values := values ++ [value] in
      let e := set_collected (<[CSlot rule := values]> (collected e)) e in
      let e := put (CSlot rule) (VStr (join ", " values)) e in
      put (CSlot rule +:+ collectCountSuffix)%string (VInt (Z.of_nat (length values))) e.

(** [internal/flow/slottool.go:Engine.collect] *)
Definition collect (toolName : string) (args result : gmap string Value) (e : Engine) : option Engine :=
  match Tools spec !! toolName ≫= TCollect with
  | None => Some e
  | Some rule =>
      if negb (String.eqb (asString (default VNil (result !! "ok"%string))) "1") then Some e
      else match evaluate (When rule) (slots e) with
           | Panics => None
           | Fails | Holds false => Some e
           | Holds true => Some (keep_collected rule (TrimSpace (asString (renderString (CTemplate rule) args (slots e)))) e)
           end
  end.

(** [internal/flow/engine.go:L217-L240] the part of [OnToolResult] that
    records the result. *)
Definition record_field (tool : string) (m : gmap string Value) (kv : string * Value) : gmap string Value :=
  <[(tool +:+ "." +:+ kv.1)%string := kv.2]> (<[("result." +:+ kv.1)%string := kv.2]> m).
Definition record_result (tool : string) (args result : gmap string Value) (e : Engine) : Engine :=
  let n := wrapS 64 (turns e + 1) in
  let e := put "lastTool" (VStr tool) (put "turns" (VInt n) (set_turns n e)) in
  let e := put "noInput.count" (VInt 0) (set_awaiting false (resetTurnsWithoutTool e)) in
  let e := set_slots (fold_left (record_field tool) (map_to_list result) (drop_prefix "result." (slots e))) e in
  recordArgs tool args (bump (tool +:+ ".calls") e).

(** [internal/flow/engine.go:Engine.OnToolResult] *)
Definition OnToolResult (tool : string) (args result : gmap string Value) (e : Engine) : option (Engine * string) :=
  e ← collect tool args result (record_result tool args result e);
  let '(e, node) := guardRunawayLoop e in
  '(e, node) ← (if String.eqb node "" then fire EventTypeToolResult tool e else Some (e, node));
  Some (if negb (String.eqb node "") && isInToolBatch e then set_batch true (batchNode e) node e else e, node).

(** [internal/flow/engine.go:Engine.hasDeclaredNoInputRule] *)
Definition hasDeclaredNoInputRule (e : Engine) : bool :=
  existsb (fun rule => matches rule EventTypeNoInput "") (Transitions (current e) ++ GTransitions (Glob spec)).

(** [internal/flow/engine.go:Engine.defaultNoInput] *)
Definition defaultNoInput (e : Engine) : Engine * string :=
  if IsTerminal (current e) || String.eqb (ClosingTarget (Glob spec)) "" || hasDeclaredNoInputRule e then (e, ""%string)
  else if countOf e "noInput.count" <? defaultNoInputLimit then (e, ""%string)
  else enter (ClosingTarget (Glob spec)) e.

(** [internal/flow/engine.go:Engine.OnNoInput] *)
Definition OnNoInput (e : Engine) : option (Engine * string) :=
  '(e, node) ← fire EventTypeNoInput "" (bump "noInput.count" e);
  Some (if negb (String.eqb node "") then (e, node) else defaultNoInput e).

(** [internal/flow/engine.go:Engine.OnCallerSpoke] *)
Definition OnCallerSpoke (transcript : string) (e : Engine) : Engine :=
  if String.eqb (TrimSpace transcript) "" then e else set_awaiting true (put "noInput.count" (VInt 0) e).

(** [internal/flow/engine.go:Engine.OnCallerKeyed] *)
Definition OnCallerKeyed (e : Engine) : Engine := put "noInput.count" (VInt 0) e.

(** [internal/flow/engine.go:Engine.IsPastTurnsWithoutToolWall] *)
Definition IsPastTurnsWithoutToolWall (e : Engine) : bool :=
  let limit := MaxTurnsWithoutTool (Glob spec) in
  (0 <? limit) && (limit <? turnsWithoutTool e) && negb (String.eqb (ClosingTarget (Glob spec)) "") &&
  negb (IsTerminal (current e)).

(** [internal/flow/engine.go:Engine.OnBotTurnDone] *)
Definition count_turn (isToolCall isInterrupted : bool) (e : Engine) : Engine :=
  if isToolCall then set_toolReply true (set_awaiting false (resetTurnsWithoutTool e))
  else if isInterrupted then set_toolReply false e
  else if isToolReplyNext e then set_awaiting false (set_toolReply false e)
  else if isCallerAwaitingReply e then
    let e := set_awaiting false e in
    if negb (IsTerminal (current e)) && (0 <? MaxTurnsWithoutTool (Glob spec)) then
      let n := wrapS 64 (turnsWithoutTool e + 1) in
      put "turnsWithoutTool" (VInt n) (set_wall n e)
    else e
  else e.
Definition OnBotTurnDone (isToolCall isInterrupted : bool) (e : Engine) : Engine * bool :=
  let e := count_turn isToolCall isInterrupted e in (e, IsPastTurnsWithoutToolWall e).

(** [internal/flow/engine.go:Engine.CloseAtTurnsWithoutToolWall] *)
Definition CloseAtTurnsWithoutToolWall (e : Engine) : Engine * string :=
  if negb (IsPastTurnsWithoutToolWall e) then (e, ""%string) else enter (ClosingTarget (Glob spec)) e.

(** [internal/flow/engine.go:Engine.CloseAtSessionLimit] *)
Definition CloseAtSessionLimit (e : Engine) : Engine * string :=
  if String.eqb (ClosingTarget (Glob spec)) "" || IsTerminal (current e) then (e, ""%string)
  else enter (ClosingTarget (Glob spec)) e.

(** [internal/flow/engine.go:Engine.CloseAtUnhungFarewell] *)
Definition CloseAtUnhungFarewell (e : Engine) : Engine * string :=
  if String.eqb (ClosingTarget (Glob spec)) "" || IsTerminal (current e) then (e, ""%string)
  else enter (ClosingTarget (Glob spec)) e.

(** [internal/flow/engine.go:Engine.ReturnTo] *)
Definition ReturnTo (nodeID : string) (e : Engine) : Engine * bool :=
  match NodeOf spec nodeID with
  | None => (e, false)
  | Some node =>
      if IsTerminal node then (e, false)
      else
        let e := put "node" (VStr nodeID) (set_current node e) in
        let e := put "noInput.count" (VInt 0) (resetTurnsWithoutTool e) in
        (set_toolReply false (set_awaiting false e), true)
  end.

End engine.

(** ** A call as a sequence of operations *)

Inductive Op :=
| ToolResult (tool : string) (args result : gmap string Value)
| NoInput | Spoke (transcript : string) | Keyed | BotTurn (isToolCall isInterrupted : bool)
| Wall | TimeLimit | Farewell | Return (nodeID : string) | BeginBatch | EndBatch | Record (slot value : string).

Section machine.
Variable ParseFloat : string -> option f64.
Variable FormatFloat : f64 -> string.
Variable Sprint : Value -> string.
Variable spec : Spec.
Variable language : string.

Notation enter := (enter ParseFloat FormatFloat Sprint spec language).
Notation fire_rules := (fire_rules ParseFloat FormatFloat Sprint spec language).
Notation fire := (fire ParseFloat FormatFloat Sprint spec language).
Notation guardRunawayLoop := (guardRunawayLoop ParseFloat FormatFloat Sprint spec language).
Notation collect := (collect ParseFloat FormatFloat Sprint spec).
Notation record_result := (record_result ParseFloat).
Notation bump := (bump ParseFloat).
Notation countOf := (countOf ParseFloat).
Notation OnToolResult := (OnToolResult ParseFloat FormatFloat Sprint spec language).
Notation OnNoInput := (OnNoInput ParseFloat FormatFloat Sprint spec language).
Notation defaultNoInput := (defaultNoInput ParseFloat FormatFloat Sprint spec language).
Notation NewEngine := (NewEngine ParseFloat FormatFloat Sprint spec language).
Notation evaluate := (evaluate ParseFloat FormatFloat Sprint).

(** What an operation leaves of an engine; [None] is a panic, which ends the
    process. *)
Definition exec_op (w : option Engine) (o : Op) : option Engine :=
  e ← w;
  match o with
  | ToolResult tool args result => fst <$> OnToolResult tool args result e
  | NoInput => fst <$> OnNoInput e
  | Spoke t => Some (OnCallerSpoke t e)
  | Keyed => Some (OnCallerKeyed e)
  | BotTurn t i => Some (fst (OnBotTurnDone spec t i e))
  | Wall => Some (fst (CloseAtTurnsWithoutToolWall ParseFloat FormatFloat Sprint spec language e))
  | TimeLimit => Some (fst (CloseAtSessionLimit ParseFloat FormatFloat Sprint spec language e))
  | Farewell => Some (fst (CloseAtUnhungFarewell ParseFloat FormatFloat Sprint spec language e))
  | Return nid => Some (fst (ReturnTo spec nid e))
  | BeginBatch => Some (BeginToolBatch e)
  | EndBatch => Some (EndToolBatch e)
  | Record slot value => Some (RecordSlot slot value e)
  end.

(** A slot tool writes only its own slot, which the loader keeps apart from
    the engine's. *)
Definition op_allowed (o : Op) : Prop :=
  match o with Record slot _ => slot ∉ reservedSlotNames | _ => True end.

#[export] Instance engine_machine : Machine (option Engine) Op := {
  initial w := exists base, w = Some (NewEngine base);
  allowed := op_allowed;
  exec := exec_op
}.

(** *** Slot names *)

(** The slots the engine mirrors its own state in; none has a dot. *)
Definition mirrored : list string := ["node"; "turns"; "turnsWithoutTool"; "lang"; "language"]%string.

Definition no_dot (k : string) : bool := negb (has_byte "." k).

Lemma has_byte_app b x y : has_byte b (x +:+ y)%string = has_byte b x || has_byte b y.
Proof. induction x as [|c x IH]; simpl; [done|]. by rewrite IH, orb_assoc. Qed.

Lemma dotted_not_mirrored a b : (a +:+ "." +:+ b)%string ∉ mirrored.
Proof.
  intros H. assert (Hd : Forall (fun k => has_byte "." k = false) mirrored) by (repeat constructor).
  rewrite Forall_forall in Hd. specialize (Hd _ H). rewrite !has_byte_app in Hd. simpl in Hd. by rewrite orb_true_r in Hd.
Qed.

Lemma dotted_suffix a suf : has_byte "." suf = true -> (a +:+ suf)%string ∉ mirrored.
Proof.
  intros Hs H. assert (Hd : Forall (fun k => has_byte "." k = false) mirrored) by (repeat constructor).
  rewrite Forall_forall in Hd. specialize (Hd _ H). rewrite has_byte_app, Hs in Hd. by rewrite orb_true_r in Hd.
Qed.

Lemma reserved_mirrored k : k ∉ engineSlots -> k ∉ mirrored.
Proof. intros H Hk. apply H. unfold mirrored, engineSlots in *. set_solver. Qed.

(** Slots a change leaves as they were, by name. *)
Definition same_mirrored (m m' : gmap string Value) : Prop := forall k, k ∈ mirrored -> m' !! k = m !! k.

Lemma same_insert k v m m' : k ∉ mirrored -> same_mirrored m m' -> same_mirrored m (<[k := v]> m').
Proof. intros Hk H x Hx. rewrite lookup_insert_ne; [by apply H|]. by intros ->. Qed.

Lemma same_fold {A} (f : gmap string Value -> A -> gmap string Value) l m m' :
  (forall m x, same_mirrored m (f m x)) -> same_mirrored m m' -> same_mirrored m (fold_left f l m').
Proof.
  intros Hf. revert m'. induction l as [|x l IH]; intros m' H; simpl; [done|]. apply IH.
  intros k Hk. rewrite (Hf m' x k Hk). by apply H.
Qed.

Lemma same_drop p m m' : (forall k, k ∈ mirrored -> has_prefix p k = false) -> same_mirrored m m' ->
  same_mirrored m (drop_prefix p m').
Proof.
  intros Hp H k Hk. rewrite <- (H k Hk). unfold drop_prefix. rewrite map_lookup_filter.
  destruct (m' !! k); simpl; [|done]. by rewrite option_guard_True by (simpl; by apply Hp).
Qed.

Lemma prefix_not_mirrored p k : has_byte "." p = true -> k ∈ mirrored -> has_prefix p k = false.
Proof.
  intros Hp Hk. destruct (has_prefix p k) eqn:E; [|done]. apply has_prefix_spec in E.
  assert (Hd : Forall (fun k => has_byte "." k = false) mirrored) by (repeat constructor).
  rewrite Forall_forall in Hd. specialize (Hd _ Hk). rewrite E, has_byte_app, Hp in Hd. done.
Qed.

(** *** What a change leaves alone *)

(** A change of other slots and of what is not phase, batch or counter. *)
Record frame (e e' : Engine) : Prop := mkFrame {
  fr_current : current e' = current e;
  fr_turns : turns e' = turns e;
  fr_wall : turnsWithoutTool e' = turnsWithoutTool e;
  fr_batch : isInToolBatch e' = isInToolBatch e;
  fr_batchNode : batchNode e' = batchNode e;
  fr_moved : batchMovedTo e' = batchMovedTo e;
  fr_slots : same_mirrored (slots e) (slots e')
}.

#[export] Instance frame_refl : Reflexive frame.
Proof. by intros e; constructor. Qed.

#[export] Instance frame_trans : Transitive frame.
Proof.
  intros e1 e2 e3 [] []. constructor; try congruence. intros k Hk.
  rewrite (fr_slots1 k Hk). by apply fr_slots0.
Qed.

Lemma frame_put k v e : k ∉ mirrored -> frame e (put k v e).
Proof. intros Hk. constructor; try done. by apply same_insert. Qed.

Lemma frame_set_slots m e : same_mirrored (slots e) m -> frame e (set_slots m e).
Proof. by constructor. Qed.

Lemma frame_bump k e : k ∉ mirrored -> frame e (bump k e).
Proof. apply frame_put. Qed.

Lemma noInput_not_mirrored : "noInput.count"%string ∉ mirrored.
Proof. by apply (bool_decide_unpack _). Qed.

Lemma frame_result tool result e :
  frame e (set_slots (fold_left (record_field tool) (map_to_list result) (drop_prefix "result." (slots e))) e).
Proof.
  apply frame_set_slots, same_fold.
  - intros m [k v]. unfold record_field. simpl. apply same_insert; [apply dotted_not_mirrored|].
    apply same_insert; [apply (dotted_not_mirrored "result")|done].
  - apply same_drop; [|done]. intros k Hk. by apply prefix_not_mirrored.
Qed.

Lemma frame_args tool args e : frame e (recordArgs tool args e).
Proof.
  assert (Hd : forall x, has_byte "." (x +:+ ".args.")%string = true) by (intros x; rewrite has_byte_app; by rewrite orb_true_r).
  apply frame_set_slots, same_fold.
  - intros m [k v]. unfold record_arg. simpl. destruct (scalarSlotValue v); [|done].
    apply same_insert; [|done]. rewrite <- str_app_assoc. by apply dotted_suffix.
  - apply same_drop; [|done]. intros k Hk. by apply prefix_not_mirrored.
Qed.

Lemma frame_collect tool args result e e' (Hs : sound_slots spec) :
  collect tool args result e = Some e' -> frame e e'.
Proof.
  unfold FlowEngine.collect. destruct (Tools spec !! tool ≫= TCollect) as [rule|] eqn:Er; [|by intros [= ->]].
  apply bind_Some in Er as (t & Ht & Hr).
  assert (Hk : forall written, written = CSlot rule \/ written = (CSlot rule +:+ collectCountSuffix)%string -> written ∉ mirrored).
  { intros w Hw. apply reserved_mirrored. by apply (sound_collect spec Hs tool t rule Ht Hr w Hw). }
  destruct (negb _); [by intros [= ->]|]. destruct (evaluate (When rule) (slots e)) as [[|]| |]; try by intros [= ->].
  intros [= <-]. unfold keep_collected. destruct (String.eqb _ ""); [done|].
  destruct (contains _ _); [done|]. destruct (_ <=? _)%nat; [done|].
  etransitivity; [|apply frame_put; apply Hk; by right]. etransitivity; [|apply frame_put; apply Hk; by left]. by constructor.
Qed.

(** *** The invariant of a call *)

(** The phase is one of the flow's; the slots that mirror the engine's state
    and the call's language tell the truth. *)
Record Good (e : Engine) : Prop := mkGood {
  g_current : Nodes spec !! id (current e) = Some (current e);
  g_node : slots e !! "node"%string = Some (VStr (id (current e)));
  g_turns : turns e = 0 \/ slots e !! "turns"%string = Some (VInt (turns e));
  g_wall : slots e !! "turnsWithoutTool"%string = Some (VInt (turnsWithoutTool e));
  g_lang : slots e !! "lang"%string = Some (VStr (lang language));
  g_language : slots e !! "language"%string = Some (VStr (ToUpper (lang language)));
  g_batch : isInToolBatch e = true -> Nodes spec !! id (batchNode e) = Some (batchNode e);
  g_moved : batchMovedTo e = ""%string \/ is_Some (Nodes spec !! batchMovedTo e)
}.

Lemma good_frame e e' : frame e e' -> Good e -> Good e'.
Proof.
  intros [Hc Ht Hw Hb Hbn Hm Hs] []. constructor; rewrite ?Hc, ?Ht, ?Hw, ?Hb, ?Hbn, ?Hm; try done.
  - rewrite (Hs "node"%string); [done|set_solver].
  - destruct g_turns0 as [|H]; [by left|right]. rewrite (Hs "turns"%string); [done|set_solver].
  - rewrite (Hs "turnsWithoutTool"%string); [done|set_solver].
  - rewrite (Hs "lang"%string); [done|set_solver].
  - rewrite (Hs "language"%string); [done|set_solver].
Qed.

Lemma good_reset e : Good e -> Good (resetTurnsWithoutTool e).
Proof.
  intros []. constructor; try done; unfold resetTurnsWithoutTool; simpl.
  - by rewrite lookup_insert_ne.
  - destruct g_turns0; [by left|right]. by rewrite lookup_insert_ne.
  - by rewrite lookup_insert_eq.
  - by rewrite lookup_insert_ne.
  - by rewrite lookup_insert_ne.
Qed.

(** Being put in a phase of the flow; the other fields are those of an engine
    that is already good, or of a new one. *)
Record Base (e : Engine) : Prop := mkBase {
  b_turns : turns e = 0 \/ slots e !! "turns"%string = Some (VInt (turns e));
  b_lang : slots e !! "lang"%string = Some (VStr (lang language));
  b_language : slots e !! "language"%string = Some (VStr (ToUpper (lang language)));
  b_batch : isInToolBatch e = true -> Nodes spec !! id (batchNode e) = Some (batchNode e);
  b_moved : batchMovedTo e = ""%string \/ is_Some (Nodes spec !! batchMovedTo e)
}.

Lemma good_base e : Good e -> Base e.
Proof. by intros []. Qed.

Lemma good_arrive nid node e : Nodes spec !! nid = Some node -> id node = nid -> Base e ->
  Good (resetTurnsWithoutTool (put "node" (VStr nid) (set_current node e))).
Proof.
  intros Hn Hid []. constructor; try done; unfold resetTurnsWithoutTool; simpl.
  - by rewrite Hid.
  - rewrite lookup_insert_ne by done. by rewrite lookup_insert_eq, Hid.
  - destruct b_turns0 as [|Ht]; [by left|right]. by rewrite !lookup_insert_ne.
  - by rewrite lookup_insert_eq.
  - by rewrite !lookup_insert_ne.
  - by rewrite !lookup_insert_ne.
Qed.

Lemma good_enter nid node e : Nodes spec !! nid = Some node -> id node = nid -> Base e -> Good (fst (enter nid e)).
Proof.
  intros Hn Hid Hb. unfold FlowEngine.enter, NodeOf. rewrite Hn. simpl.
  set (e1 := resetTurnsWithoutTool _).
  assert (Hg : Good (bump (nid +:+ ".visits") e1)).
  { apply (good_frame e1); [apply frame_bump; by apply dotted_suffix|]. by apply good_arrive. }
  by destruct Hg.
Qed.

Lemma good_enter_again nid e : (forall n, Nodes spec !! nid = Some n -> id n = nid) -> Good e -> Good (fst (enter nid e)).
Proof.
  intros Hid Hg. destruct (Nodes spec !! nid) as [node|] eqn:E.
  - apply (good_enter nid node); auto using good_base.
  - unfold FlowEngine.enter, NodeOf. by rewrite E.
Qed.

Lemma good_batch b n t e : (b = true -> Nodes spec !! id n = Some n) ->
  (t = ""%string \/ is_Some (Nodes spec !! t)) -> Good e -> Good (set_batch b n t e).
Proof. by intros Hb Ht []. Qed.

Lemma good_record tool args result e : Good e -> Good (record_result tool args result e).
Proof.
  intros Hg. unfold FlowEngine.record_result. set (n := wrapS 64 (turns e + 1)).
  eapply good_frame; [apply frame_args|]. eapply good_frame; [apply frame_bump; by apply dotted_suffix|].
  eapply good_frame; [apply frame_result|]. eapply good_frame; [apply frame_put, noInput_not_mirrored|].
  apply (good_frame (resetTurnsWithoutTool (put "lastTool" (VStr tool) (put "turns" (VInt n) (set_turns n e))))); [done|].
  apply good_reset. eapply good_frame; [apply frame_put; by apply (bool_decide_unpack _)|].
  destruct Hg. constructor; try done; simpl; rewrite ?lookup_insert_ne by done; try done.
  right. by rewrite lookup_insert_eq.
Qed.


(** *** A flow the loader accepted *)

(** No condition of the flow compares with a collection. *)
Definition no_collections : Prop :=
  (forall r c, (r ∈ GTransitions (Glob spec) \/ exists nid n, Nodes spec !! nid = Some n /\ r ∈ Transitions n) ->
     TCondition r = Some c -> literals_scalar c = true) /\
  (forall name tool rule c, Tools spec !! name = Some tool -> TCollect tool = Some rule -> When rule = Some c ->
     literals_scalar c = true).

(** The phases carry their ids, as [load] leaves them. *)
Definition has_ids : Prop := forall nid n, Nodes spec !! nid = Some n -> id n = nid.

Section loaded.
Hypothesis Hwf : well_formed spec.
Hypothesis Hsound : sound_slots spec.
Hypothesis Hids : has_ids.
Hypothesis Hscalar : no_collections.

Lemma good_new base : Good (NewEngine base).
Proof.
  destruct (wf_initial spec Hwf) as [node Hn]. unfold FlowEngine.NewEngine.
  set (m0 := <["language" := _]> (<["lang" := _]> base)).
  set (m := fold_left new_collected (map_to_list (Tools spec)) m0).
  assert (Hm : forall k, k ∈ mirrored -> m !! k = m0 !! k).
  { intros k Hk. subst m. apply (fold_left_inv (fun m => m !! k = m0 !! k)); [done|]. intros m [name t] Hmk Hin.
    apply elem_of_map_to_list in Hin. unfold new_collected. simpl. destruct (TCollect t) as [c|] eqn:Hc; [|done].
    assert (Hw : forall written, written = CSlot c \/ written = (CSlot c +:+ collectCountSuffix)%string -> k <> written).
    { intros w Hw ->. destruct (sound_collect spec Hsound name t c Hin Hc w Hw) as [H _]. by apply (reserved_mirrored w). }
    rewrite !lookup_insert_ne; [done| |]; intros E; symmetry in E; revert E; apply Hw; auto. }
  set (e0 := mkEngine no_node m ∅ 0 0 false false false no_node "" []).
  assert (Hg : Good (fst (enter (InitialNode spec) e0))).
  { apply (good_enter _ node); [done|by apply Hids|]. constructor; try done; [by left| | |by left].
    - simpl. rewrite Hm by set_solver. subst m0. rewrite lookup_insert_ne by done. by rewrite lookup_insert_eq.
    - simpl. rewrite Hm by set_solver. subst m0. by rewrite lookup_insert_eq. }
  by destruct Hg.
Qed.

Lemma evaluate_loaded c m : (forall c', c = Some c' -> validateCondition c' = true /\ literals_scalar c' = true) ->
  exists b, evaluate c m = Holds b.
Proof.
  intros H. destruct c as [c|]; [|by exists true]. destruct (H c eq_refl) as [Hv Hl].
  eexists. by apply (evaluate_truth ParseFloat FormatFloat Sprint).
Qed.

(** The rules a phase of the flow is judged by. *)
Lemma phase_rules n nid r : Nodes spec !! nid = Some n ->
  r ∈ sortedRules (Transitions n) ++ sortedRules (GTransitions (Glob spec)) ->
  is_Some (Nodes spec !! Target r) /\ exists b, forall m, evaluate (TCondition r) m = Holds b \/ exists b', evaluate (TCondition r) m = Holds b'.
Proof.
  intros Hn Hr. assert (Hr' : r ∈ GTransitions (Glob spec) \/ exists nid n, Nodes spec !! nid = Some n /\ r ∈ Transitions n).
  { apply elem_of_app in Hr as [Hr|Hr]; apply elem_of_sort_by in Hr; [right; by exists nid, n|by left]. }
  destruct (wf_rules spec Hwf r Hr') as [Ht Hc]. split; [done|]. exists true. intros m. right.
  apply evaluate_loaded. intros c Hcc. split; [by apply Hc|]. by apply (proj1 Hscalar r).
Qed.

(** Every rule decides, and fires into a phase of the flow. *)
Definition decides (rules : list Transition) : Prop :=
  Forall (fun r => is_Some (Nodes spec !! Target r) /\ forall m, exists b, evaluate (TCondition r) m = Holds b) rules.

Lemma phase_decides n nid : Nodes spec !! nid = Some n -> decides (sortedRules (Transitions n) ++ sortedRules (GTransitions (Glob spec))).
Proof.
  intros Hn. apply Forall_forall. intros r Hr. destruct (phase_rules n nid r Hn Hr) as (Ht & b & Hb). split; [done|].
  intros m. destruct (Hb m) as [H|H]; [by eexists|done].
Qed.

Lemma enter_target nid e : snd (enter nid e) = ""%string \/ is_Some (Nodes spec !! snd (enter nid e)).
Proof.
  unfold FlowEngine.enter, NodeOf. destruct (Nodes spec !! nid) as [n|] eqn:E; simpl; [right; by rewrite E|by left].
Qed.

Lemma fire_rules_good from event tool rules e : decides rules -> Good e ->
  exists e' n, fire_rules from event tool rules e = Some (e', n) /\ Good e' /\ (n = ""%string \/ is_Some (Nodes spec !! n)) .
Proof.
  intros Hd Hg. induction Hd as [|r rules [Ht Hb] Hd IH]; simpl.
  - exists e, ""%string. auto.
  - destruct (negb (matches r event tool)); [done|]. destruct (Hb (slots e)) as [b ->]. destruct b; [|done].
    destruct (_ || _); [exists e, ""%string; auto|].
    exists (fst (enter (Target r) e)), (snd (enter (Target r) e)). split_and!.
    + by destruct (enter (Target r) e).
    + apply good_enter_again; [|done]. intros n. apply Hids.
    + apply enter_target.
Qed.

Lemma toolPhase_known e : Good e -> exists nid, Nodes spec !! nid = Some (toolPhase e).
Proof. intros []. unfold toolPhase. destruct (isInToolBatch e); eexists; eauto. Qed.

Lemma fire_good event tool e : Good e ->
  exists e' n, fire event tool e = Some (e', n) /\ Good e' /\ (n = ""%string \/ is_Some (Nodes spec !! n)).
Proof.
  intros Hg. unfold FlowEngine.fire. destruct (IsTerminal (current e)); [exists e, ""%string; auto|].
  apply fire_rules_good; [|done]. destruct (String.eqb event EventTypeToolResult).
  - destruct (toolPhase_known e Hg) as [nid Hn]. by apply (phase_decides _ nid).
  - eapply phase_decides. apply (g_current e Hg).
Qed.

Lemma guard_good e : Good e -> Good (fst (guardRunawayLoop e)) /\
  (snd (guardRunawayLoop e) = ""%string \/ is_Some (Nodes spec !! snd (guardRunawayLoop e))).
Proof.
  intros Hg. unfold FlowEngine.guardRunawayLoop. destruct (_ || _ || _); [by auto|]. split.
  - apply good_enter_again; [|done]. intros n. apply Hids.
  - apply enter_target.
Qed.

Lemma collect_total tool args result e : exists e', collect tool args result e = Some e'.
Proof.
  unfold FlowEngine.collect. destruct (Tools spec !! tool ≫= TCollect) as [rule|] eqn:Er; [|by eexists].
  apply bind_Some in Er as (t & Ht & Hr). destruct (negb _); [by eexists|].
  destruct (evaluate_loaded (When rule) (slots e)) as [b ->].
  - intros c Hc. split; [by apply (sound_when spec Hsound tool t rule)|by apply (proj2 Hscalar tool t rule)].
  - destruct b; by eexists.
Qed.

Lemma OnToolResult_good tool args result e : Good e ->
  exists e' n, OnToolResult tool args result e = Some (e', n) /\ Good e'.
Proof.
  intros Hg. unfold FlowEngine.OnToolResult.
  destruct (collect_total tool args result (record_result tool args result e)) as [e1 H1]. rewrite H1. simpl.
  assert (G1 : Good e1).
  { eapply good_frame; [by eapply frame_collect|]. by apply good_record. }
  pose proof (guard_good e1 G1) as [G2 N2]. destruct (guardRunawayLoop e1) as [e2 n2]. simpl in G2, N2.
  assert (exists e3 n3, (if String.eqb n2 "" then fire EventTypeToolResult tool e2 else Some (e2, n2)) = Some (e3, n3) /\
            Good e3 /\ (n3 = ""%string \/ is_Some (Nodes spec !! n3))) as (e3 & n3 & E3 & G3 & N3).
  { destruct (String.eqb n2 ""); [by apply fire_good|]. by exists e2, n2. }
  rewrite E3. simpl. eexists _, n3. split; [done|]. destruct (_ && _) eqn:Eb; [|done].
  apply good_batch; [intros _|done..]. b2p. by apply (g_batch e3).
Qed.

Lemma OnNoInput_good e : Good e -> exists e' n, OnNoInput e = Some (e', n) /\ Good e'.
Proof.
  intros Hg. unfold FlowEngine.OnNoInput.
  destruct (fire_good EventTypeNoInput "" (bump "noInput.count" e)) as (e1 & n1 & -> & G1 & _).
  { eapply good_frame; [apply frame_bump, noInput_not_mirrored|done]. }
  simpl. destruct (negb _); [by eexists _, _|]. exists (fst (defaultNoInput e1)), (snd (defaultNoInput e1)).
  split; [by destruct (defaultNoInput e1)|]. unfold FlowEngine.defaultNoInput.
  destruct (_ || _ || _); [done|]. destruct (_ <? _); [done|]. apply good_enter_again; [|done]. intros n. apply Hids.
Qed.

Lemma count_turn_good t i e : Good e -> Good (count_turn spec t i e).
Proof.
  intros Hg. unfold count_turn. destruct t; [|destruct i; [|destruct (isToolReplyNext e); [|destruct (isCallerAwaitingReply e)]]].
  - by apply (good_frame (resetTurnsWithoutTool e)); [|apply good_reset].
  - by apply (good_frame e).
  - by apply (good_frame e).
  - assert (G : Good (set_awaiting false e)) by by apply (good_frame e).
    destruct (_ && _); [|done]. destruct G. constructor; try done; simpl; rewrite ?lookup_insert_ne by done; try done.
    by rewrite lookup_insert_eq.
  - done.
Qed.

Lemma close_good (b : bool) e : Good e -> Good (fst (if b then (e, ""%string) else enter (ClosingTarget (Glob spec)) e)).
Proof. intros Hg. destruct b; [done|]. apply good_enter_again; [|done]. intros n. apply Hids. Qed.

Lemma return_good nid e : Good e -> Good (fst (ReturnTo spec nid e)).
Proof.
  intros Hg. unfold ReturnTo, NodeOf. destruct (Nodes spec !! nid) as [node|] eqn:E; [|done].
  destruct (IsTerminal node); [done|]. simpl.
  eapply good_frame; [|apply (good_arrive nid node e); [done|by apply Hids|by apply good_base]].
  constructor; try done. apply same_insert; [apply noInput_not_mirrored|done].
Qed.

#[local] Instance Good_invariant : Invariant (fun w => exists e, w = Some e /\ Good e).
Proof.
  constructor.
  - intros w [base ->]. eexists. split; [done|]. apply good_new.
  - intros w o (e & -> & Hg) Ho. destruct o; simpl.
    + destruct (OnToolResult_good tool args result e Hg) as (e' & n & E & G). rewrite E. by exists e'.
    + destruct (OnNoInput_good e Hg) as (e' & n & E & G). rewrite E. by exists e'.
    + eexists; split; [done|]. unfold OnCallerSpoke. destruct (String.eqb _ ""); [done|].
      apply (good_frame (put "noInput.count" (VInt 0) e)); [done|].
      eapply good_frame; [apply frame_put, noInput_not_mirrored|done].
    + eexists; split; [done|]. eapply good_frame; [apply frame_put, noInput_not_mirrored|done].
    + eexists; split; [done|]. by apply count_turn_good.
    + eexists; split; [done|]. by apply close_good.
    + eexists; split; [done|]. by apply close_good.
    + eexists; split; [done|]. by apply close_good.
    + eexists; split; [done|]. by apply return_good.
    + eexists; split; [done|]. unfold BeginToolBatch. destruct (isInToolBatch e); [done|].
      apply good_batch; [|by left|done]. intros _. by apply g_current.
    + eexists; split; [done|]. by apply good_batch; [|left|].
    + eexists; split; [done|]. eapply good_frame; [apply frame_put|done].
      simpl in Ho. intros Hm. apply Ho, elem_of_app. left. unfold mirrored, engineSlots in *. set_solver.
Qed.

Lemma reached_good base ops : Forall op_allowed ops ->
  exists e, reaches (Some (NewEngine base)) ops = Some e /\ Good e.
Proof.
  intros Ho. apply (reaches_invariant (Op := Op) (fun w => exists e, w = Some e /\ Good e)); [by exists base|done].
Qed.

End loaded.

(** *** Terminal phases *)

(** What a tool's result writes before any rule is looked at. *)
Lemma collect_keeps tool args result e e' : collect tool args result e = Some e' ->
  current e' = current e /\ entries e' = entries e /\ isInToolBatch e' = isInToolBatch e /\ batchNode e' = batchNode e /\
  turns e' = turns e.
Proof.
  unfold FlowEngine.collect. destruct (Tools spec !! tool ≫= TCollect) as [rule|]; [|by intros [= ->]].
  destruct (negb _); [by intros [= ->]|]. destruct (evaluate (When rule) (slots e)) as [[|]| |]; try by intros [= ->].
  intros [= <-]. unfold keep_collected. destruct (String.eqb _ ""); [done|]. destruct (contains _ _); [done|].
  by destruct (_ <=? _)%nat.
Qed.

Lemma fire_terminal event tool e : IsTerminal (current e) = true -> fire event tool e = Some (e, ""%string).
Proof. intros H. unfold FlowEngine.fire. by rewrite H. Qed.

Lemma guard_terminal e : IsTerminal (current e) = true -> guardRunawayLoop e = (e, ""%string).
Proof. intros H. unfold FlowEngine.guardRunawayLoop. by rewrite H, orb_true_r. Qed.

Definition is_return (o : Op) : bool := match o with Return _ => true | _ => false end.

Lemma terminal_step e o e' : IsTerminal (current e) = true -> is_return o = false -> exec_op (Some e) o = Some e' ->
  current e' = current e /\ entries e' = entries e.
Proof.
  intros Ht Ho. destruct o; simpl; try done.
  - unfold FlowEngine.OnToolResult. destruct (collect _ _ _ _) as [e1|] eqn:Ec; [|done]. simpl.
    apply collect_keeps in Ec as (Hc & He & _). simpl in Hc, He. rewrite guard_terminal by (by rewrite Hc). simpl.
    rewrite fire_terminal by (by rewrite Hc). simpl. intros [= <-]. by rewrite Hc, He.
  - unfold FlowEngine.OnNoInput. rewrite fire_terminal by done. simpl. unfold FlowEngine.defaultNoInput. simpl.
    rewrite Ht. by intros [= <-].
  - unfold OnCallerSpoke. destruct (String.eqb _ ""); by intros [= <-].
  - by intros [= <-].
  - unfold count_turn. destruct isToolCall, isInterrupted; simpl; try by intros [= <-].
    destruct (isToolReplyNext e); [by intros [= <-]|]. destruct (isCallerAwaitingReply e); [|by intros [= <-]].
    rewrite Ht. by intros [= <-].
  - unfold CloseAtTurnsWithoutToolWall, IsPastTurnsWithoutToolWall. rewrite Ht, andb_false_r. by intros [= <-].
  - unfold CloseAtSessionLimit. rewrite Ht, orb_true_r. by intros [= <-].
  - unfold CloseAtUnhungFarewell. rewrite Ht, orb_true_r. by intros [= <-].
  - unfold BeginToolBatch. destruct (isInToolBatch e); by intros [= <-].
  - by intros [= <-].
  - by intros [= <-].
Qed.

Lemma reaches_none ops : reaches (None : option Engine) ops = None.
Proof. induction ops as [|o ops IH]; [done|]. exact IH. Qed.

(** A property of a call holds along a sequence of operations that keep it. *)
Lemma reaches_keeps (P : Engine -> Prop) (ops : list Op) e e' :
  (forall o e e', o ∈ ops -> P e -> exec_op (Some e) o = Some e' -> P e') ->
  P e -> reaches (Some e) ops = Some e' -> P e'.
Proof.
  revert e. induction ops as [|o ops IH]; intros e Hs Hp H; [by injection H as <-|].
  unfold reaches in H. cbn [fold_left] in H. change (exec (Some e) o) with (exec_op (Some e) o) in H.
  destruct (exec_op (Some e) o) as [e1|] eqn:E.
  - apply (IH e1); [|eapply (Hs o e); [left|done..]|done]. intros. eapply Hs; [by right|done..].
  - change (reaches None ops = Some e') in H. by rewrite reaches_none in H.
Qed.

(** *** The wall against replies without a tool *)

Definition spoken (o : Op) : Z := match o with Spoke t => if String.eqb (TrimSpace t) "" then 0 else 1 | _ => 0 end.
Definition utterances (ops : list Op) : Z := fold_right Z.add 0 (map spoken ops).

(** Replies counted and the one still owed, against the utterances [u] so
    far. *)
Record owed (u : Z) (e : Engine) : Prop := mkOwed {
  ow_int : - 2 ^ 63 <= turnsWithoutTool e;
  ow_both : turnsWithoutTool e + Z.b2z (isCallerAwaitingReply e) <= u;
  ow_one : Z.b2z (isCallerAwaitingReply e) <= u
}.

Lemma wrapS_le z : - 2 ^ 63 <= z -> wrapS 64 z <= z.
Proof. intros H. unfold wrapS. change (64 - 1) with 63. pose proof (Z.mod_le (z + 2 ^ 63) (2 ^ 64)). lia. Qed.

Lemma owed_weaken u u' e : u <= u' -> owed u e -> owed u' e.
Proof. intros Hu []. constructor; lia. Qed.

(** Both counters as they were, or one of them started over. *)
Lemma owed_less u e e' : owed u e ->
  (turnsWithoutTool e' = turnsWithoutTool e \/ turnsWithoutTool e' = 0) ->
  (isCallerAwaitingReply e' = isCallerAwaitingReply e \/ isCallerAwaitingReply e' = false) -> owed u e'.
Proof.
  intros [] [Hw|Hw] [Ha|Ha]; constructor; rewrite ?Hw, ?Ha; destruct (isCallerAwaitingReply e); simpl in *; lia.
Qed.

(** The two fields of the wall, before and after. *)
Definition lesser (e e' : Engine) : Prop :=
  (turnsWithoutTool e' = turnsWithoutTool e \/ turnsWithoutTool e' = 0) /\
  (isCallerAwaitingReply e' = isCallerAwaitingReply e \/ isCallerAwaitingReply e' = false).

#[local] Instance lesser_refl : Reflexive lesser.
Proof. split; by left. Qed.

#[local] Instance lesser_trans : Transitive lesser.
Proof. intros e1 e2 e3 [[]  []] [[] []]; split; first [left; congruence | right; congruence]. Qed.

Lemma lesser_enter nid e : lesser e (fst (enter nid e)).
Proof. unfold FlowEngine.enter. destruct (NodeOf spec nid); [|done]. simpl. split; [by right|by left]. Qed.

Lemma lesser_close (b : bool) e : lesser e (fst (if b then (e, ""%string) else enter (ClosingTarget (Glob spec)) e)).
Proof. destruct b; [done|apply lesser_enter]. Qed.

Lemma lesser_fire_rules from event tool rules e r : fire_rules from event tool rules e = Some r -> lesser e (fst r).
Proof.
  induction rules as [|rule rules IH]; simpl; [by intros [= <-]|]. destruct (negb _); [done|].
  destruct (evaluate (TCondition rule) (slots e)) as [[|]| |]; try done.
  destruct (_ || _); [by intros [= <-]|]. intros [= <-]. apply lesser_enter.
Qed.

Lemma lesser_fire event tool e r : fire event tool e = Some r -> lesser e (fst r).
Proof. unfold FlowEngine.fire. destruct (IsTerminal (current e)); [by intros [= <-]|]. apply lesser_fire_rules. Qed.

Lemma lesser_collect tool args result e e' : collect tool args result e = Some e' -> lesser e e'.
Proof.
  unfold FlowEngine.collect. destruct (Tools spec !! tool ≫= TCollect) as [rule|]; [|by intros [= ->]].
  destruct (negb _); [by intros [= ->]|]. destruct (evaluate (When rule) (slots e)) as [[|]| |]; try by intros [= ->].
  intros [= <-]. unfold keep_collected. destruct (String.eqb _ ""); [done|]. destruct (contains _ _); [done|].
  destruct (_ <=? _)%nat; [done|]. split; by left.
Qed.

Lemma lesser_result tool args result e e' n : OnToolResult tool args result e = Some (e', n) -> lesser e e'.
Proof.
  unfold FlowEngine.OnToolResult. destruct (collect _ _ _ _) as [e1|] eqn:Ec; [|done]. simpl. apply lesser_collect in Ec.
  assert (L1 : lesser e e1) by (transitivity (record_result tool args result e); [by split; right|done]).
  assert (L2 : lesser e (fst (guardRunawayLoop e1))).
  { transitivity e1; [done|]. unfold FlowEngine.guardRunawayLoop. destruct (_ || _ || _); [done|apply lesser_enter]. }
  destruct (guardRunawayLoop e1) as [e2 n2]. simpl in L2.
  destruct (if String.eqb n2 "" then _ else _) as [[e3 n3]|] eqn:E3; [|done]. simpl. intros [= <- <-].
  assert (L3 : lesser e e3).
  { destruct (String.eqb n2 ""); [|by injection E3 as <- <-]. apply lesser_fire in E3. by transitivity e2. }
  destruct (_ && _); [|done]. transitivity e3; [done|]. split; by left.
Qed.

Lemma owed_step u o e e' : 0 <= u -> owed u e -> exec_op (Some e) o = Some e' -> owed (u + spoken o) e'.
Proof.
  intros Hu Ho H. assert (Hl : lesser e e' -> spoken o = 0 -> owed (u + spoken o) e').
  { intros [] ->. rewrite Z.add_0_r. by apply (owed_less u e). }
  destruct o; simpl in H.
  - destruct (OnToolResult tool args result e) as [[e1 n]|] eqn:E; [|done]. simpl in H. injection H as <-.
    apply Hl; [by apply (lesser_result tool args result e e1 n)|done].
  - destruct (OnNoInput e) as [[e1 n]|] eqn:E; [|done]. simpl in H. injection H as <-. apply Hl; [|done].
    unfold FlowEngine.OnNoInput in E. destruct (fire _ _ _) as [[e2 n2]|] eqn:Ef; [|done]. simpl in E.
    apply lesser_fire in Ef. simpl in Ef. destruct (negb _); [by injection E as <- <-|].
    transitivity e2; [done|]. injection E as E. unfold FlowEngine.defaultNoInput in E.
    destruct (_ || _ || _); [by injection E as <- <-|]. destruct (_ <? _); [by injection E as <- <-|].
    replace e1 with (fst (enter (ClosingTarget (Glob spec)) e2)) by (by rewrite E). apply lesser_enter.
  - unfold OnCallerSpoke in H. simpl. destruct (String.eqb (TrimSpace transcript) "") eqn:Et; injection H as <-.
    + by rewrite Z.add_0_r.
    + destruct Ho. constructor; simpl; [done| |lia]. destruct (isCallerAwaitingReply e); simpl in *; lia.
  - injection H as <-. apply Hl; [split; by left|done].
  - injection H as <-. unfold count_turn. simpl. rewrite Z.add_0_r. destruct isToolCall, isInterrupted; simpl.
    1,2: apply (owed_less u e); [done|by right|by right].
    + by apply (owed_less u e); [|left|left].
    + destruct (isToolReplyNext e); [by apply (owed_less u e); [|left|right]|].
      destruct (isCallerAwaitingReply e) eqn:Ea; [|done]. destruct (_ && _); [|by apply (owed_less u e); [|left|right]].
      destruct Ho as [Hi Hb H1]. rewrite Ea in *. simpl in *.
      pose proof (wrapS_range 64 (turnsWithoutTool e + 1) ltac:(lia)).
      pose proof (wrapS_le (turnsWithoutTool e + 1) ltac:(lia)). constructor; simpl; lia.
  - injection H as <-. apply Hl; [|done]. apply lesser_close.
  - injection H as <-. apply Hl; [|done]. apply lesser_close.
  - injection H as <-. apply Hl; [|done]. apply lesser_close.
  - injection H as <-. apply Hl; [|done]. unfold ReturnTo. destruct (NodeOf spec nodeID) as [n|]; [|done].
    destruct (IsTerminal n); [done|]. simpl. split; by right.
  - injection H as <-. apply Hl; [|done]. unfold BeginToolBatch. destruct (isInToolBatch e); split; by left.
  - injection H as <-. apply Hl; [split; by left|done].
  - injection H as <-. apply Hl; [split; by left|done].
Qed.

Lemma spoken_nonneg o : 0 <= spoken o.
Proof. destruct o; simpl; try done. by destruct (String.eqb _ _). Qed.

Lemma owed_reaches ops : forall u e e', 0 <= u -> owed u e -> reaches (Some e) ops = Some e' -> owed (u + utterances ops) e'.
Proof.
  induction ops as [|o ops IH]; intros u e e' Hu Ho H.
  - injection H as <-. unfold utterances. simpl. by rewrite Z.add_0_r.
  - unfold reaches in H. cbn [fold_left] in H. change (exec (Some e) o) with (exec_op (Some e) o) in H.
    destruct (exec_op (Some e) o) as [e1|] eqn:E.
    + pose proof (spoken_nonneg o). unfold utterances. simpl. rewrite Z.add_assoc.
      apply (IH (u + spoken o) e1); [lia|by apply (owed_step u o e)|done].
    + change (reaches None ops = Some e') in H. by rewrite reaches_none in H.
Qed.

(** One utterance and the bot's reply to it, without a tool. *)
Definition round (t : string) : list Op := [Spoke t; BotTurn false false].

Lemma rounds_count ts : forall e, Forall (fun t => TrimSpace t <> ""%string) ts ->
  IsTerminal (current e) = false -> isToolReplyNext e = false -> 0 < MaxTurnsWithoutTool (Glob spec) ->
  0 <= turnsWithoutTool e -> turnsWithoutTool e + Z.of_nat (length ts) < 2 ^ 63 ->
  exists e', reaches (Some e) (flat_map round ts) = Some e' /\ current e' = current e /\
    turnsWithoutTool e' = turnsWithoutTool e + Z.of_nat (length ts).
Proof.
  induction ts as [|t ts IH]; intros e Hts Ht Hr Hl Hw Hb.
  - exists e. simpl. split_and!; [done..|lia].
  - inversion Hts as [|? ? Hne Hrest]; subst. simpl in Hb.
    assert (E : exec_op (exec_op (Some e) (Spoke t)) (BotTurn false false) =
      Some (put "turnsWithoutTool" (VInt (turnsWithoutTool e + 1)) (set_wall (turnsWithoutTool e + 1)
        (set_awaiting false (set_awaiting true (put "noInput.count" (VInt 0) e)))))).
    { simpl. unfold OnCallerSpoke. rewrite (proj2 (String.eqb_neq _ _) Hne). unfold count_turn. simpl. rewrite Hr, Ht. simpl.
      rewrite (proj2 (Z.ltb_lt _ _) Hl). rewrite wrapS_id by lia. done. }
    set (e1 := put _ _ _) in E.
    destruct (IH e1) as (e' & E' & Hc & Hn); try done; simpl; try lia.
    exists e'. split_and!; [|done|rewrite Hn; simpl; lia].
    change (reaches (exec_op (exec_op (Some e) (Spoke t)) (BotTurn false false)) (flat_map round ts) = Some e').
    by rewrite E.
Qed.

(** *** Silence *)

Lemma count_bumped k e n : countOf e k = n -> 0 <= n -> n + 1 < 2 ^ 53 -> countOf (bump k e) k = n + 1.
Proof.
  intros Hn H0 Hb. unfold FlowEngine.bump, FlowEngine.countOf at 1, slot_of. simpl. rewrite lookup_insert_eq. simpl.
  rewrite Hn, wrapS_id by lia. apply to_int_of_int. lia.
Qed.

Lemma fire_rules_no_match from event tool rules e : (forall r, r ∈ rules -> matches r event tool = false) ->
  fire_rules from event tool rules e = Some (e, ""%string).
Proof.
  induction rules as [|r rules IH]; intros H; simpl; [done|]. rewrite (H r) by (by left). simpl.
  apply IH. intros r' Hr'. apply H. by right.
Qed.

Lemma undeclared_silence e : hasDeclaredNoInputRule spec e = false -> fire EventTypeNoInput "" e = Some (e, ""%string).
Proof.
  intros H. unfold FlowEngine.fire. destruct (IsTerminal (current e)); [done|]. apply fire_rules_no_match.
  intros r Hr. apply not_true_is_false. intros Hm. apply not_true_iff_false in H. apply H, existsb_elem. exists r.
  split; [|done]. simpl in Hr. unfold sortedRules in Hr. apply elem_of_app in Hr.
  apply elem_of_app. by rewrite !elem_of_sort_by in Hr.
Qed.

Lemma silence_step e c node : hasDeclaredNoInputRule spec e = false -> IsTerminal (current e) = false ->
  ClosingTarget (Glob spec) <> ""%string -> Nodes spec !! ClosingTarget (Glob spec) = Some node ->
  countOf e "noInput.count" = c -> 0 <= c -> c + 1 < 2 ^ 53 ->
  exists e', exec_op (Some e) NoInput = Some e' /\
    if c + 1 <? defaultNoInputLimit then current e' = current e /\ countOf e' "noInput.count" = c + 1
    else current e' = node.
Proof.
  intros Hd Ht Hc Hn Hk H0 Hb. simpl. unfold FlowEngine.OnNoInput. set (e1 := bump "noInput.count" e).
  rewrite (undeclared_silence e1) by done. simpl. unfold FlowEngine.defaultNoInput.
  change (current e1) with (current e). rewrite Ht, (proj2 (String.eqb_neq _ _) Hc).
  change (hasDeclaredNoInputRule spec e1) with (hasDeclaredNoInputRule spec e). rewrite Hd. simpl.
  assert (Hcnt : countOf e1 "noInput.count" = c + 1) by by apply count_bumped.
  rewrite Hcnt. destruct (c + 1 <? defaultNoInputLimit); simpl.
  - by exists e1.
  - eexists; split; [done|]. unfold FlowEngine.enter, NodeOf. by rewrite Hn.
Qed.

(** *** The first rule that holds *)

Definition enabled (event tool : string) (e : Engine) (r : Transition) : bool :=
  matches r event tool && match evaluate (TCondition r) (slots e) with Holds b => b | _ => false end.

Lemma fire_rules_find from event tool rules e : decides rules ->
  fire_rules from event tool rules e =
  Some match List.find (enabled event tool e) rules with
       | Some r => if String.eqb (Target r) (id from) || String.eqb (Target r) (id (current e)) then (e, ""%string)
                   else enter (Target r) e
       | None => (e, ""%string)
       end.
Proof.
  induction 1 as [|r rules [_ Hb] Hd IH]; simpl; [done|]. destruct (Hb (slots e)) as [b Eb].
  unfold enabled at 1. rewrite Eb. destruct (matches r event tool); simpl; [|done]. destruct b; [|done].
  by destruct (_ || _).
Qed.

Lemma find_app {A} (f : A -> bool) l l' :
  List.find f (l ++ l') = match List.find f l with Some x => Some x | None => List.find f l' end.
Proof. induction l as [|x l IH]; simpl; [done|]. by destruct (f x). Qed.

(** The first of a list sorted by a key has the least key. *)
Lemma find_sorted_least {A} (key : A -> Z) (f : A -> bool) l r : List.find f (sort_by key l) = Some r ->
  r ∈ l /\ f r = true /\ forall r', r' ∈ l -> f r' = true -> key r <= key r'.
Proof.
  intros H. assert (Hs := sort_by_sorted key l). assert (Hm := elem_of_sort_by key).
  assert (Hin := find_some _ _ H). destruct Hin as [Hin Hf]. apply list_elem_of_In in Hin. rewrite Hm in Hin. split_and!; [done..|].
  intros r' Hr' Hf'. rewrite <- Hm in Hr'. clear Hm Hin. revert H Hs Hr'. generalize (sort_by key l) as L.
  induction L as [|x L IH]; intros H Hs Hr'; [done|]. simpl in H. inversion Hs as [|? ? Hs' Hx]; subst.
  destruct (f x) eqn:Ex.
  - injection H as ->. apply elem_of_cons in Hr' as [->|Hr']; [lia|]. rewrite Forall_forall in Hx. exact (Hx r' Hr').
  - apply elem_of_cons in Hr' as [->|Hr']; [congruence|]. by apply IH.
Qed.

(** *** Batches and the guard against a loop *)

Lemma enter_batch nid e : isInToolBatch (fst (enter nid e)) = isInToolBatch e /\ batchNode (fst (enter nid e)) = batchNode e.
Proof. unfold FlowEngine.enter. by destruct (NodeOf spec nid). Qed.

Lemma fire_rules_batch from event tool rules e r : fire_rules from event tool rules e = Some r ->
  isInToolBatch (fst r) = isInToolBatch e /\ batchNode (fst r) = batchNode e.
Proof.
  induction rules as [|rule rules IH]; simpl; [by intros [= <-]|]. destruct (negb _); [done|].
  destruct (evaluate (TCondition rule) (slots e)) as [[|]| |]; try done.
  destruct (_ || _); [by intros [= <-]|]. intros [= <-]. apply enter_batch.
Qed.

Lemma result_batch tool args result e e' n : OnToolResult tool args result e = Some (e', n) ->
  isInToolBatch e' = isInToolBatch e /\ batchNode e' = batchNode e.
Proof.
  unfold FlowEngine.OnToolResult. destruct (collect _ _ _ _) as [e1|] eqn:Ec; [|done]. simpl.
  apply collect_keeps in Ec as (_ & _ & Hb1 & Hn1 & _). simpl in Hb1, Hn1.
  assert (H2 : isInToolBatch (fst (guardRunawayLoop e1)) = isInToolBatch e1 /\ batchNode (fst (guardRunawayLoop e1)) = batchNode e1).
  { unfold FlowEngine.guardRunawayLoop. destruct (_ || _ || _); [done|apply enter_batch]. }
  destruct (guardRunawayLoop e1) as [e2 n2]. simpl in H2. destruct H2 as [Hb2 Hn2].
  destruct (if String.eqb n2 "" then _ else _) as [[e3 n3]|] eqn:E3; [|done]. simpl. intros [= <- <-].
  assert (isInToolBatch e3 = isInToolBatch e2 /\ batchNode e3 = batchNode e2) as [Hb3 Hn3].
  { destruct (String.eqb n2 ""); [|by injection E3 as <- <-]. unfold FlowEngine.fire in E3.
    destruct (IsTerminal (current e2)); [by injection E3 as <- <-|]. by apply fire_rules_batch in E3. }
  destruct (_ && _) eqn:Eb; simpl; b2p; split; congruence.
Qed.

Definition is_result (o : Op) : bool := match o with ToolResult _ _ _ => true | _ => false end.

Lemma batch_reaches ops e e' : Forall (fun o => is_result o = true) ops -> isInToolBatch e = true ->
  reaches (Some e) ops = Some e' -> isInToolBatch e' = true /\ batchNode e' = batchNode e.
Proof.
  intros Hr Hb. apply (reaches_keeps (fun x => isInToolBatch x = true /\ batchNode x = batchNode e)); [|done].
  intros o a b Ho [Ha Hn] H. rewrite Forall_forall in Hr. specialize (Hr o Ho). destruct o; try done. simpl in H.
  destruct (OnToolResult tool args result a) as [[c n]|] eqn:E; [|done]. injection H as <-.
  apply result_batch in E as [E1 E2]. by rewrite E1, E2.
Qed.

Lemma guard_falls_back e node : 0 < MaxTurns (Glob spec) -> MaxTurns (Glob spec) < turns e ->
  FallbackTarget (Glob spec) <> ""%string -> Nodes spec !! FallbackTarget (Glob spec) = Some node ->
  id (current e) <> FallbackTarget (Glob spec) -> IsTerminal (current e) = false ->
  snd (guardRunawayLoop e) = FallbackTarget (Glob spec) /\ current (fst (guardRunawayLoop e)) = node.
Proof.
  intros Hm Ht Hf Hn Hc Hterm. unfold FlowEngine.guardRunawayLoop.
  rewrite (proj2 (Z.leb_gt _ _) Hm), (proj2 (Z.leb_gt _ _) Ht), (proj2 (String.eqb_neq _ _) Hf), Hterm.
  rewrite (proj2 (String.eqb_neq (FallbackTarget (Glob spec)) (id (current e)))) by congruence. simpl.
  unfold FlowEngine.enter, NodeOf. by rewrite Hn.
Qed.

(** *** The theorems *)

(** C7: whatever happens on a call, the engine neither stops the process nor
    leaves its flow. For a flow the loader accepted, whose conditions compare
    with no collection, every sequence of tool results, silences, utterances,
    keypresses, bot turns, moves and returns can be carried out; the current
    phase is a phase of the flow, so is the one a tool batch is judged in, and
    the slots [node], [turns], [turnsWithoutTool], [lang] and [language] tell
    the engine's own state, whatever the tools and their arguments wrote. *)
Theorem call_stays_in_flow (base : gmap string Value) (ops : list Op) (Ha : accepted spec = true) (Hid : has_ids)
    (Hsc : no_collections) (Ho : Forall op_allowed ops) :
  exists e, reaches (Some (NewEngine base)) ops = Some e /\ Good e.
Proof.
  destruct (accepted_inv spec Ha) as [Hv _]. apply reached_good; try done.
  - by apply validate_well_formed.
  - by apply accepted_sound.
Qed.

(** a terminal phase is not left. Whatever comes after it, short of the
    explicit return of a transfer that never happened, the phase stays, no
    phase is entered and no declared lead is recorded again: no rule, no
    silence, no guard and no time limit moves the call. *)
Theorem terminal_absorbing (e e' : Engine) (ops : list Op) (Ht : IsTerminal (current e) = true)
    (Hr : Forall (fun o => is_return o = false) ops) (H : reaches (Some e) ops = Some e') :
  current e' = current e /\ entries e' = entries e.
Proof.
  revert H. apply (reaches_keeps (fun x => current x = current e /\ entries x = entries e)); [|done].
  intros o a b Ho [Ha He] Hstep. rewrite Forall_forall in Hr. rewrite <- Ha, <- He.
  apply (terminal_step a o b); [by rewrite Ha|by apply Hr|done].
Qed.

(** the wall is never early. From a moment its count stands at zero (a tool
    ran, a phase was entered), whatever is interleaved, the call can stand
    past the wall only after more utterances with words in them than the
    limit, counting the one still unanswered at that moment. *)
Theorem wall_never_early (e e' : Engine) (ops : list Op) (H0 : turnsWithoutTool e = 0)
    (H : reaches (Some e) ops = Some e') (Hp : IsPastTurnsWithoutToolWall spec e' = true) :
  MaxTurnsWithoutTool (Glob spec) < utterances ops + Z.b2z (isCallerAwaitingReply e).
Proof.
  assert (Ho : owed (Z.b2z (isCallerAwaitingReply e)) e) by (constructor; rewrite ?H0; lia).
  apply (owed_reaches ops _ e e') in Ho; [|destruct (isCallerAwaitingReply e); simpl; lia|done].
  unfold IsPastTurnsWithoutToolWall in Hp. b2p. destruct Ho. destruct (isCallerAwaitingReply e'); simpl in *; lia.
Qed.

(** the wall is exact where every utterance is answered without a tool:
    after any number of such rounds in one phase the call stands past the wall
    if and only if there were more of them than the limit, and then closing
    moves it to the closing phase. *)
Theorem wall_exact (e : Engine) (ts : list string) (closing : Node) (Hts : Forall (fun t => TrimSpace t <> ""%string) ts)
    (Ht : IsTerminal (current e) = false) (Hr : isToolReplyNext e = false) (Hl : 0 < MaxTurnsWithoutTool (Glob spec))
    (H0 : turnsWithoutTool e = 0) (Hb : Z.of_nat (length ts) < 2 ^ 63)
    (Hc : ClosingTarget (Glob spec) <> ""%string) (Hn : Nodes spec !! ClosingTarget (Glob spec) = Some closing) :
  exists e', reaches (Some e) (flat_map round ts) = Some e' /\
    IsPastTurnsWithoutToolWall spec e' = (MaxTurnsWithoutTool (Glob spec) <? Z.of_nat (length ts)) /\
    (forall e'', exec_op (Some e') Wall = Some e'' ->
       current e'' = if MaxTurnsWithoutTool (Glob spec) <? Z.of_nat (length ts) then closing else current e).
Proof.
  destruct (rounds_count ts e) as (e' & E & Hcur & Hw); try done; [lia..|]. exists e'.
  assert (Hp : IsPastTurnsWithoutToolWall spec e' = (MaxTurnsWithoutTool (Glob spec) <? Z.of_nat (length ts))).
  { unfold IsPastTurnsWithoutToolWall. rewrite Hw, H0, Hcur, Ht, (proj2 (Z.ltb_lt _ _) Hl), (proj2 (String.eqb_neq _ _) Hc).
    simpl. by rewrite !andb_true_r. }
  split_and!; [done..|]. intros e'' H. simpl in H. unfold CloseAtTurnsWithoutToolWall in H. rewrite Hp in H.
  destruct (_ <? _); simpl in H; injection H as <-; [|done]. unfold FlowEngine.enter, NodeOf. by rewrite Hn.
Qed.

(** silence closes a call at the third time in a row and not before. In a
    phase where no rule of the author's can fire on silence, in a flow that
    names a closing phase, one or two silences since the caller's last sign of
    life leave the call where it is, and a third moves it to the closing
    phase. *)
Theorem third_silence_closes (e : Engine) (closing : Node) (Hd : hasDeclaredNoInputRule spec e = false)
    (Ht : IsTerminal (current e) = false) (Hc : ClosingTarget (Glob spec) <> ""%string)
    (Hn : Nodes spec !! ClosingTarget (Glob spec) = Some closing) (H0 : countOf e "noInput.count" = 0) :
  exists e1 e2 e3, reaches (Some e) [NoInput] = Some e1 /\ reaches (Some e) [NoInput; NoInput] = Some e2 /\
    reaches (Some e) [NoInput; NoInput; NoInput] = Some e3 /\
    current e1 = current e /\ current e2 = current e /\ current e3 = closing.
Proof.
  destruct (silence_step e 0 closing) as (e1 & E1 & C1 & N1); try done.
  destruct (silence_step e1 1 closing) as (e2 & E2 & C2 & N2); try done; [| |].
  { unfold hasDeclaredNoInputRule. by rewrite C1. }
  { by rewrite C1. }
  destruct (silence_step e2 2 closing) as (e3 & E3 & C3); try done.
  { unfold hasDeclaredNoInputRule. by rewrite C2, C1. }
  { by rewrite C2, C1. }
  exists e1, e2, e3. unfold reaches. cbn [fold_left exec engine_machine]. rewrite E1, E2, E3.
  split_and!; try done. by rewrite C2.
Qed.

(** an event moves the call by the first rule that holds. The rules of the
    phase come before the flow-wide ones; among the phase's the rule with the
    least priority wins, the flow-wide rules are asked only when none of the
    phase's holds, and a rule that leads where the call already is, or back to
    the phase judged, keeps it there. *)
Theorem fire_first_rule (e : Engine) (event tool : string) (Ha : accepted spec = true) (Hsc : no_collections)
    (Hg : Good e) (Ht : IsTerminal (current e) = false) :
  let from := if String.eqb event EventTypeToolResult then toolPhase e else current e in
  let own := List.find (enabled event tool e) (sortedRules (Transitions from)) in
  let wide := List.find (enabled event tool e) (sortedRules (GTransitions (Glob spec))) in
  let chosen := match own with Some r => Some r | None => wide end in
  fire event tool e =
    Some match chosen with
         | Some r => if String.eqb (Target r) (id from) || String.eqb (Target r) (id (current e)) then (e, ""%string)
                     else enter (Target r) e
         | None => (e, ""%string) end /\
  (forall r, own = Some r -> r ∈ Transitions from /\ enabled event tool e r = true /\
     forall r', r' ∈ Transitions from -> enabled event tool e r' = true -> Priority r <= Priority r') /\
  (own = None -> forall r', r' ∈ Transitions from -> enabled event tool e r' = false).
Proof.
  intros from own wide chosen. destruct (accepted_inv spec Ha) as [Hv _]. apply validate_well_formed in Hv.
  split_and!.
  - unfold FlowEngine.fire. rewrite Ht. fold from. rewrite fire_rules_find.
    + by rewrite find_app.
    + subst from. destruct (String.eqb event EventTypeToolResult).
      * destruct (toolPhase_known e Hg) as [nid Hn]. by apply (phase_decides Hv Hsc _ nid).
      * eapply (phase_decides Hv Hsc). apply (g_current e Hg).
  - intros r Hr. by apply find_sorted_least in Hr.
  - intros Hnone r' Hr'. apply (find_none _ _ Hnone). apply list_elem_of_In. unfold sortedRules. by apply elem_of_sort_by.
Qed.

(** the tools of one response are judged together. From the moment a batch
    is opened until it is closed, every tool of it is allowed or refused as
    the phase of the response would, whatever the tools before it did to the
    call; and once it is closed a tool is judged in the phase the call has
    reached. *)
Theorem batch_judged_together (e e' : Engine) (ops : list Op) (name : string) (Hb : isInToolBatch e = false)
    (Hr : Forall (fun o => is_result o = true) ops) (H : reaches (Some e) (BeginBatch :: ops) = Some e') :
  IsToolAllowed spec e' name = IsToolAllowed spec e name /\
  AllowedTools spec e' = AllowedTools spec e /\
  (forall e'', exec_op (Some e') EndBatch = Some e'' -> toolPhase e'' = current e').
Proof.
  assert (H' : reaches (Some (set_batch true (current e) "" e)) ops = Some e').
  { unfold reaches in *. cbn [fold_left] in H. cbn [exec engine_machine] in H. simpl in H. unfold BeginToolBatch in H.
    by rewrite Hb in H. }
  apply batch_reaches in H' as [H1 H2]; [|done..].
  assert (Hp : toolPhase e' = toolPhase e) by (unfold toolPhase; rewrite H1, H2, Hb; done).
  unfold IsToolAllowed, AllowedTools. rewrite Hp. split_and!; [done..|]. by intros e'' [= <-].
Qed.

(** a model that loops on tools is stopped. Once a call has made more tool
    calls than the flow's limit, the next result outside the fallback phase
    and outside a terminal one moves the call to the fallback phase, whatever
    the rules of the phase say. *)
Theorem runaway_falls_back (e e' : Engine) (tool : string) (args result : gmap string Value) (n : string) (fallback : Node)
    (Hm : 0 < MaxTurns (Glob spec)) (Hlate : MaxTurns (Glob spec) <= turns e) (Hw : turns e < 2 ^ 63 - 1)
    (Hf : FallbackTarget (Glob spec) <> ""%string) (Hn : Nodes spec !! FallbackTarget (Glob spec) = Some fallback)
    (Hc : id (current e) <> FallbackTarget (Glob spec)) (Ht : IsTerminal (current e) = false)
    (H : OnToolResult tool args result e = Some (e', n)) :
  n = FallbackTarget (Glob spec) /\ current e' = fallback.
Proof.
  unfold FlowEngine.OnToolResult in H. destruct (collect _ _ _ _) as [e1|] eqn:Ec; [|done]. simpl in H.
  apply collect_keeps in Ec as (Hcur & _ & _ & _ & Htu).
  assert (Hte : turns e1 = turns e + 1).
  { rewrite Htu. cbn [FlowEngine.record_result turns recordArgs FlowEngine.bump put set_slots set_awaiting resetTurnsWithoutTool set_wall set_turns].
    apply wrapS_id; lia. }
  destruct (guard_falls_back e1 fallback) as [G1 G2]; try done; [by rewrite Hte; lia|by rewrite Hcur|by rewrite Hcur|].
  destruct (guardRunawayLoop e1) as [e2 n2]. simpl in G1, G2. subst n2.
  rewrite (proj2 (String.eqb_neq _ _) Hf) in H. simpl in H. injection H as <- <-.
  split; [done|]. destruct (_ && _); done.
Qed.

(** returning to a phase undoes the move and nothing else. A return to a
    phase of the flow the call can stay in makes it current, starts the run of
    silence and the wall over, and leaves every other slot, the tool calls
    counted, the collected lists and the phases entered as they were; a return
    to an unknown or a terminal phase changes nothing and says so. *)
Theorem return_restores (e : Engine) (nid : string) :
  match Nodes spec !! nid with
  | Some node =>
      if IsTerminal node then ReturnTo spec nid e = (e, false)
      else exists e', ReturnTo spec nid e = (e', true) /\ current e' = node /\
        turnsWithoutTool e' = 0 /\ isCallerAwaitingReply e' = false /\ isToolReplyNext e' = false /\
        turns e' = turns e /\ collected e' = collected e /\ entries e' = entries e /\
        slots e' !! "node"%string = Some (VStr nid) /\ slots e' !! "noInput.count"%string = Some (VInt 0) /\
        slots e' !! "turnsWithoutTool"%string = Some (VInt 0) /\
        forall k, k ∉ ["node"; "noInput.count"; "turnsWithoutTool"]%string -> slots e' !! k = slots e !! k
  | None => ReturnTo spec nid e = (e, false)
  end.
Proof.
  unfold ReturnTo, NodeOf. destruct (Nodes spec !! nid) as [node|]; [|done]. destruct (IsTerminal node); [done|].
  eexists; split; [done|]. split_and!; try done; simpl.
  - rewrite !lookup_insert_ne by done. by rewrite lookup_insert_eq.
  - by rewrite lookup_insert_eq.
  - rewrite lookup_insert_ne by done. by rewrite lookup_insert_eq.
  - intros k Hk. rewrite !lookup_insert_ne; [done|..]; intros <-; apply Hk; set_solver.
Qed.

End machine.

(** *** Examples *)

(** A flow that looks an order up, retries in a help phase and says
    goodbye. *)
Definition say (x : string) : Text := mkText "" x.
Definition to_found : Transition :=
  mkTransition EventTypeToolResult "lookup" (Some (mkCondition "result.ok" OpEqual (VStr "1") [] [])) "found" 1.
Definition to_help : Transition := mkTransition EventTypeToolResult "lookup" None "help" 5.
Definition greet : Node := mkNode "greet" (say "Greet.") (say "") ["lookup"]%string [to_help; to_found] false None.
Definition found : Node := mkNode "found" (say "Tell {slots.orders}.") (say "") ["lookup"]%string [] false None.
Definition help : Node := mkNode "help" (say "Help.") (say "") [] [] false None.
Definition bye : Node := mkNode "bye" (say "Bye.") (say "Goodbye.") [] [] true (Some (mkLead "LOW" (say "{slots.orders}"))).
Definition lookup_tool : Tool :=
  mkTool "http" (say "Looks an order up.") ["number"]%string ["number"]%string (Some (mkHTTP "" "/orders" "" ∅ ∅ None None None "" {["status"%string := "status"%string]} ∅)) "" []
    (Some (mkCollect "orders" "{args.number}" None)).
Definition demo_global : Global :=
  mkGlobal (say "A clerk.") "help" "bye" 2 1 None (say "") ["hangup"]%string [].
Definition demo : Spec :=
  mkSpec "demo" "v2" "greet" demo_global
    (<["greet"%string := greet]> (<["found"%string := found]> (<["help"%string := help]> (<["bye"%string := bye]> ∅))))
    (<["lookup"%string := lookup_tool]> ∅).

Lemma demo_accepted : accepted demo = true.
Proof. vm_compute. reflexivity. Qed.

Lemma demo_nodes nid n : Nodes demo !! nid = Some n -> (nid, n) ∈ [("greet", greet); ("found", found); ("help", help); ("bye", bye)]%string.
Proof.
  simpl. rewrite !lookup_insert_Some, lookup_empty. intros H. apply list_elem_of_In. simpl.
  naive_solver.
Qed.

Lemma demo_ids : has_ids demo.
Proof.
  intros nid n H%demo_nodes. apply list_elem_of_In in H. simpl in H. naive_solver.
Qed.

Lemma demo_scalar : no_collections demo.
Proof.
  split.
  - intros r c [Hr|(nid & n & Hn%demo_nodes & Hr)] Hc; [by apply elem_of_nil in Hr|].
    apply list_elem_of_In in Hn. apply list_elem_of_In in Hr. simpl in Hn.
    destruct_or! Hn; simplify_eq; simpl in Hr; destruct_or! Hr; simplify_eq; simpl in Hc; by simplify_eq.
  - intros name tool rule c Ht Hr Hw. simpl in Ht. rewrite lookup_insert_Some, lookup_empty in Ht.
    destruct Ht as [[_ <-]|[_ ?]]; [|done]. simpl in Hr. by simplify_eq.
Qed.

Notation demo_new := (NewEngine parse_digit no_format no_sprint demo "en-GB" ∅).
Notation demo_run := (reaches (H := engine_machine parse_digit no_format no_sprint demo "en-GB")).

Definition looked_up : Op :=
  ToolResult "lookup" (<["number"%string := VStr "42"]> ∅) (<["ok"%string := VStr "1"]> (<["status"%string := VStr "sent"]> ∅)).

Lemma call_stays_in_flow_witness :
  exists e, demo_run (Some demo_new) [Spoke "hello"; looked_up; NoInput; TimeLimit; looked_up] = Some e /\
    Good demo "en-GB" e /\ id (current e) = "bye"%string /\ slots e !! "orders"%string = Some (VStr "42").
Proof.
  destruct (call_stays_in_flow parse_digit no_format no_sprint demo "en-GB" ∅
    [Spoke "hello"; looked_up; NoInput; TimeLimit; looked_up] demo_accepted demo_ids demo_scalar) as (e & E & G).
  { repeat constructor. }
  exists e. split_and!; [done..| |]; vm_compute in E; injection E as <-; vm_compute; reflexivity.
Defined.

Definition at_bye : Engine :=
  mkEngine bye ∅ ∅ 0 0 false false false no_node "" [].

Lemma terminal_absorbing_witness :
  exists e, demo_run (Some at_bye) [looked_up; NoInput; TimeLimit] = Some e /\ current e = bye.
Proof.
  destruct (demo_run (Some at_bye) [looked_up; NoInput; TimeLimit]) as [e|] eqn:E; [|vm_compute in E; discriminate E].
  exists e. split; [reflexivity|].
  apply (terminal_absorbing parse_digit no_format no_sprint demo "en-GB" at_bye e [looked_up; NoInput; TimeLimit]).
  - reflexivity.
  - repeat constructor.
  - exact E.
Defined.

Lemma wall_never_early_witness :
  exists e, demo_run (Some demo_new) [Spoke "a"; BotTurn false false; Spoke "b"; BotTurn false false] = Some e /\
    1 < utterances [Spoke "a"; BotTurn false false; Spoke "b"; BotTurn false false] + 0.
Proof.
  destruct (demo_run (Some demo_new) [Spoke "a"; BotTurn false false; Spoke "b"; BotTurn false false]) as [e|] eqn:E;
    [|vm_compute in E; discriminate E].
  exists e. split; [reflexivity|].
  apply (wall_never_early parse_digit no_format no_sprint demo "en-GB" demo_new e); [reflexivity|exact E|].
  vm_compute in E. injection E as <-. vm_compute. reflexivity.
Defined.

Lemma wall_exact_witness :
  exists e, demo_run (Some demo_new) (flat_map round ["no"; "no"]%string) = Some e /\
    IsPastTurnsWithoutToolWall demo e = true.
Proof.
  destruct (wall_exact parse_digit no_format no_sprint demo "en-GB" demo_new ["no"; "no"]%string bye) as (e & E & P & _).
  - repeat constructor; discriminate.
  - reflexivity.
  - reflexivity.
  - reflexivity.
  - reflexivity.
  - reflexivity.
  - discriminate.
  - reflexivity.
  - exists e. split; [exact E|exact P].
Defined.

Lemma third_silence_closes_witness :
  exists e, demo_run (Some demo_new) [NoInput; NoInput; NoInput] = Some e /\ current e = bye.
Proof.
  destruct (third_silence_closes parse_digit no_format no_sprint demo "en-GB" demo_new bye)
    as (f1 & f2 & f3 & _ & _ & E & _ & _ & C).
  - reflexivity.
  - reflexivity.
  - discriminate.
  - reflexivity.
  - vm_compute. reflexivity.
  - exists f3. split; [exact E|exact C].
Defined.

Lemma demo_good : Good demo "en-GB" demo_new.
Proof. constructor; try (by left); try reflexivity; try discriminate. Qed.

Lemma fire_first_rule_witness :
  fire parse_digit no_format no_sprint demo "en-GB" EventTypeToolResult "lookup" demo_new =
  Some (enter parse_digit no_format no_sprint demo "en-GB" "help" demo_new).
Proof.
  destruct (fire_first_rule parse_digit no_format no_sprint demo "en-GB" demo_new EventTypeToolResult "lookup"
    demo_accepted demo_scalar demo_good) as (E & _); [reflexivity|]. etransitivity; [exact E|]. vm_compute. reflexivity.
Defined.

Lemma batch_judged_together_witness :
  exists e, demo_run (Some demo_new) [BeginBatch; looked_up] = Some e /\ current e = found /\
    IsToolAllowed demo e "lookup" = true.
Proof.
  destruct (demo_run (Some demo_new) [BeginBatch; looked_up]) as [e|] eqn:E; [|vm_compute in E; discriminate E].
  exists e. split; [reflexivity|]. split; [vm_compute in E; injection E as <-; reflexivity|].
  destruct (batch_judged_together parse_digit no_format no_sprint demo "en-GB" demo_new e [looked_up] "lookup") as (H & _).
  - reflexivity.
  - repeat constructor.
  - exact E.
  - rewrite H. reflexivity.
Defined.

Definition worn_out : Engine := set_turns 2 (set_current greet demo_new).

Lemma runaway_falls_back_witness :
  exists e, OnToolResult parse_digit no_format no_sprint demo "en-GB" "lookup" ∅ (<["ok"%string := VStr "1"]> ∅) worn_out = Some (e, "help"%string) /\
    current e = help.
Proof.
  destruct (OnToolResult parse_digit no_format no_sprint demo "en-GB" "lookup" ∅ (<["ok"%string := VStr "1"]> ∅) worn_out)
    as [[e n]|] eqn:E; [|vm_compute in E; discriminate E].
  destruct (runaway_falls_back parse_digit no_format no_sprint demo "en-GB" worn_out e "lookup" ∅ (<["ok"%string := VStr "1"]> ∅) n help)
    as [Hn Hc].
  - reflexivity.
  - vm_compute. discriminate.
  - reflexivity.
  - discriminate.
  - reflexivity.
  - discriminate.
  - reflexivity.
  - exact E.
  - exists e. rewrite Hn. split; [reflexivity|exact Hc].
Defined.

End FlowEngine.
