(* ===== verification/FlowCollect.v ===== *)
(** * Collect lists: what [slottool.go] keeps and what [load.go] checks for it

    A collect list is an association of three things: the list of values the
    engine keeps, the slot that renders them, and the slot that counts them.
    The tools, the phases and the other lists write slots too; the loader's
    collision check is what keeps them apart. Here the two meet: for a flow
    the loader accepted, nothing else ever writes the two slots, and they
    always tell the list. *)

From S2P Require Import Prelude GoText Float64 FlowPredicate FlowSpec FlowSlots FlowEngine.

Module FlowCollect.
Import GoText Float64 FlowPredicate FlowSpec FlowSlots FlowEngine.

(** ** Names that collide with nothing *)

Lemma cut_prefix_app p s : cut_prefix p (p +:+ s)%string = Some s.
Proof. unfold cut_prefix. by rewrite has_prefix_app, drop_app. Qed.

Lemma cut_suffix_refl suf : cut_suffix suf suf = Some ""%string.
Proof. destruct suf as [|c suf]; cbn [cut_suffix]; by rewrite String.eqb_refl. Qed.

Lemma cut_suffix_app suf p : cut_suffix suf (p +:+ suf)%string = Some p.
Proof.
  induction p as [|c p IH]; [apply cut_suffix_refl|]. cbn [String.append cut_suffix].
  - destruct (String.eqb (String c (p +:+ suf)) suf) eqn:E.
    + apply String.eqb_eq in E. apply (f_equal String.length) in E. simpl in E. rewrite str_length_app in E. lia.
    + by rewrite IH.
Qed.

Lemma append_inj_l p x y : (p +:+ x)%string = (p +:+ y)%string -> x = y.
Proof. intros H. apply (f_equal (drop (String.length p))) in H. by rewrite !drop_app in H. Qed.

Lemma args_not_visits t : has_prefix (t +:+ ".args.") (t +:+ ".visits") = false.
Proof.
  destruct (has_prefix _ _) eqn:E; [|done]. apply has_prefix_spec in E. rewrite <- str_app_assoc in E.
  by apply append_inj_l in E.
Qed.

Section names.
Variable spec : Spec.

(** What the engine writes under a tool's name. *)
Definition tool_field (t field : string) : Prop :=
  field = "calls"%string \/ field = "ok"%string \/ has_prefix "args." field = true \/
  match Tools spec !! t with
  | Some tool => exists h, HTTP tool = Some h /\ field ∈ Result h
  | None => field ∈ resultKeys spec
  end.

Lemma tool_collision_none names t field : tool_collision spec names (t +:+ "." +:+ field)%string = None ->
  t ∈ names -> ~ tool_field t field.
Proof.
  induction names as [|n names IH]; intros H Ht; [by apply elem_of_nil in Ht|]. cbn [tool_collision] in H.
  apply elem_of_cons in Ht as [->|Ht].
  - rewrite str_app_assoc, cut_prefix_app in H. intros [->|[->|[Hf|Hf]]]; [done|done|by rewrite Hf, orb_true_r in H|].
    destruct (_ || _ || _); [done|]. destruct (Tools spec !! n) as [tool|].
    + destruct Hf as (h & Hh & Hf). rewrite Hh in H. apply contains_true in Hf. by rewrite Hf in H.
    + apply contains_true in Hf. by rewrite Hf in H.
  - destruct (cut_prefix (n +:+ ".") _) as [rest|]; [|by apply IH].
    destruct (_ || _ || _); [done|]. destruct (Tools spec !! n) as [tool|].
    + destruct (match HTTP tool with Some h => _ | None => _ end); [done|by apply IH].
    + destruct (contains _ _); [done|by apply IH].
Qed.

Lemma owner_collision_none owner written tools name tool : owner_collision owner written tools = None ->
  (name, tool) ∈ tools ->
  (Kind tool = ToolKindSlot -> ToolSlot tool <> written) /\
  (forall c, TCollect tool = Some c -> name <> owner ->
     CSlot c <> written /\ (CSlot c +:+ collectCountSuffix)%string <> written).
Proof.
  induction tools as [|[n t] tools IH]; intros H Hin; [by apply elem_of_nil in Hin|]. simpl in H.
  destruct (String.eqb (Kind t) ToolKindSlot && String.eqb (ToolSlot t) written) eqn:Es; [done|].
  destruct (TCollect t) as [c|] eqn:Ec.
  - destruct (negb (String.eqb n owner) && _) eqn:Eo; [done|]. apply elem_of_cons in Hin as [[= -> ->]|Hin]; [|by apply IH].
    split.
    + intros Hk Hw. by rewrite Hk, Hw, !String.eqb_refl in Es.
    + intros c' Hc' Hne. rewrite Ec in Hc'. injection Hc' as ->. rewrite (proj2 (String.eqb_neq _ _) Hne) in Eo. simpl in Eo.
      apply orb_false_iff in Eo as [E1 E2]. split; by apply String.eqb_neq.
  - apply elem_of_cons in Hin as [[= -> ->]|Hin]; [|by apply IH]. split; [|by rewrite Ec].
    intros Hk Hw. by rewrite Hk, Hw, !String.eqb_refl in Es.
Qed.

(** The two slots of a collect list. *)
Definition of_rule (rule : Collect) (k : string) : Prop := k = CSlot rule \/ k = (CSlot rule +:+ collectCountSuffix)%string.
Definition list_slot (k : string) : Prop :=
  exists owner tool rule, Tools spec !! owner = Some tool /\ TCollect tool = Some rule /\ of_rule rule k.

Context (Hsound : sound_slots spec).

Lemma slot_of_engine k : list_slot k -> k ∉ engineSlots.
Proof. intros (o & t & r & Ht & Hr & Hk). by apply (sound_collect spec Hsound o t r Ht Hr k Hk). Qed.

Lemma slot_of_root root x : root ∈ roots -> ~ list_slot (root +:+ "." +:+ x)%string.
Proof.
  intros Hroot (o & t & r & Ht & Hr & Hk). destruct (sound_collect spec Hsound o t r Ht Hr _ Hk) as [_ H].
  specialize (H root Hroot). unfold in_root in H. rewrite str_app_assoc, has_prefix_app, orb_true_r in H. done.
Qed.

(** The rest of the collision check, past the engine's names and roots. *)
Lemma no_collision o t r k : Tools spec !! o = Some t -> TCollect t = Some r -> of_rule r k ->
  (forall nid, cut_suffix ".visits" k = Some nid -> known spec nid = false) /\
  tool_collision spec (toolNames spec) k = None /\ owner_collision o k (toolsOf spec) = None.
Proof.
  intros Ht Hr Hk. pose proof (sound_free spec Hsound o t r Ht Hr k Hk) as H. unfold collectCollision in H.
  destruct (contains engineSlots k); [done|]. destruct (List.find (in_root k) roots); [done|].
  destruct (cut_suffix ".visits" k) as [nid|].
  - destruct (known spec nid) eqn:Ek; [done|]. destruct (tool_collision _ _ _); [done|].
    split_and!; [|done..]. by intros ? [= <-].
  - destruct (tool_collision _ _ _); [done|]. by split_and!.
Qed.

Lemma slot_of_tool name field : name ∈ toolNames spec -> tool_field name field -> ~ list_slot (name +:+ "." +:+ field)%string.
Proof.
  intros Hn Hf (o & t & r & Ht & Hr & Hk). destruct (no_collision o t r _ Ht Hr Hk) as (_ & H & _).
  by apply (tool_collision_none _ _ _ H Hn).
Qed.

Lemma slot_of_visits nid : is_Some (Nodes spec !! nid) -> ~ list_slot (nid +:+ ".visits")%string.
Proof.
  intros Hn (o & t & r & Ht & Hr & Hk). destruct (no_collision o t r _ Ht Hr Hk) as (H & _).
  specialize (H nid (cut_suffix_app _ _)). unfold known in H. by apply bool_decide_eq_false in H.
Qed.

Lemma slot_of_slot_tool name tool : Tools spec !! name = Some tool -> Kind tool = ToolKindSlot -> ~ list_slot (ToolSlot tool).
Proof.
  intros Hn Hkind (o & t & r & Ht & Hr & Hk). destruct (no_collision o t r _ Ht Hr Hk) as (_ & _ & H).
  destruct (owner_collision_none o _ _ name tool H) as [Hs _]; [by apply elem_of_map_to_list|]. by apply Hs.
Qed.

(** Two tools' lists have four slots. *)
Lemma lists_apart o t r o' t' r' k : Tools spec !! o = Some t -> TCollect t = Some r ->
  Tools spec !! o' = Some t' -> TCollect t' = Some r' -> o <> o' -> of_rule r k -> ~ of_rule r' k.
Proof.
  intros Ht Hr Ht' Hr' Hne Hk Hk'. destruct (no_collision o t r k Ht Hr Hk) as (_ & _ & H).
  destruct (owner_collision_none o k _ o' t' H) as [_ Hc]; [by apply elem_of_map_to_list|].
  destruct (Hc r' Hr') as [H1 H2]; [done|]. destruct Hk' as [->| ->]; done.
Qed.

Lemma count_is_not_slot s : (s +:+ collectCountSuffix)%string <> s.
Proof. intros H. apply (f_equal String.length) in H. rewrite str_length_app in H. simpl in H. lia. Qed.

End names.

(** ** The lists of a call *)

Section lists.
Variable ParseFloat : string -> option f64.
Variable FormatFloat : f64 -> string.
Variable Sprint : Value -> string.
Variable spec : Spec.
Variable language : string.

Notation enter := (enter ParseFloat FormatFloat Sprint spec language).
Notation fire_rules := (fire_rules ParseFloat FormatFloat Sprint spec language).
Notation fire := (fire ParseFloat FormatFloat Sprint spec language).
Notation guardRunawayLoop := (guardRunawayLoop ParseFloat FormatFloat Sprint spec language).
Notation collect := (collect ParseFloat FormatFloat Sprint spec).
Notation OnToolResult := (OnToolResult ParseFloat FormatFloat Sprint spec language).
Notation OnNoInput := (OnNoInput ParseFloat FormatFloat Sprint spec language).
Notation NewEngine := (NewEngine ParseFloat FormatFloat Sprint spec language).
Notation exec_op := (exec_op ParseFloat FormatFloat Sprint spec language).
Notation run := (reaches (H := engine_machine ParseFloat FormatFloat Sprint spec language)).

(** A list as its two slots tell it. *)
Record told (e : Engine) (rule : Collect) : Prop := mkTold {
  td_nodup : NoDup (default [] (collected e !! CSlot rule));
  td_bound : (length (default [] (collected e !! CSlot rule)) <= MaxCollectedValues)%nat;
  td_text : slots e !! CSlot rule = Some (VStr (join ", " (default [] (collected e !! CSlot rule))));
  td_count : slots e !! (CSlot rule +:+ collectCountSuffix)%string =
             Some (VInt (Z.of_nat (length (default [] (collected e !! CSlot rule)))))
}.

Definition Lists (e : Engine) : Prop :=
  forall name tool rule, Tools spec !! name = Some tool -> TCollect tool = Some rule -> told e rule.

(** What a tool may report: its own result fields, and whether it
    succeeded. *)
Definition reports (tool : string) (result : gmap string Value) : Prop :=
  forall k, is_Some (result !! k) -> tool_field spec tool k.

(** A call's operations: a tool is one of the flow's or a built-in, reports
    what it declares, and a slot tool writes its own slot. *)
Definition op_known (o : Op) : Prop :=
  match o with
  | ToolResult tool _ result => tool ∈ toolNames spec /\ reports tool result
  | Record slot _ => exists name tool, Tools spec !! name = Some tool /\ Kind tool = ToolKindSlot /\ slot = ToolSlot tool
  | _ => True
  end.

Context (Hsound : sound_slots spec).

(** A change that leaves every list and its slots alone. *)
Record apart (e e' : Engine) : Prop := mkApart {
  ap_lists : collected e' = collected e;
  ap_slots : forall k, list_slot spec k -> slots e' !! k = slots e !! k
}.

#[local] Instance apart_refl : Reflexive apart.
Proof. by constructor. Qed.

#[local] Instance apart_trans : Transitive apart.
Proof. intros e1 e2 e3 [] []. constructor; [congruence|]. intros k Hk. rewrite ap_slots1 by done. by apply ap_slots0. Qed.

Lemma apart_same e e' : collected e' = collected e -> slots e' = slots e -> apart e e'.
Proof. intros Hc Hs. constructor; [done|]. by rewrite Hs. Qed.

Lemma apart_put k v e : ~ list_slot spec k -> apart e (put k v e).
Proof. intros Hk. constructor; [done|]. intros x Hx. simpl. rewrite lookup_insert_ne; [done|]. by intros ->. Qed.

Lemma apart_engine_slot k v e : k ∈ engineSlots -> apart e (put k v e).
Proof. intros Hk. apply apart_put. intros Hl. by apply (slot_of_engine spec Hsound k). Qed.

Lemma apart_reset e : apart e (resetTurnsWithoutTool e).
Proof. transitivity (set_wall 0 e); [by apply apart_same|]. apply apart_engine_slot. unfold engineSlots. set_solver. Qed.

Lemma apart_enter nid e : apart e (fst (enter nid e)).
Proof.
  unfold FlowEngine.enter, NodeOf. destruct (Nodes spec !! nid) as [node|] eqn:E; [|done]. simpl.
  transitivity (put "node" (VStr nid) (set_current node e)).
  { transitivity (set_current node e); [by apply apart_same|]. apply apart_engine_slot. unfold engineSlots. set_solver. }
  etransitivity; [apply apart_reset|].
  match goal with |- apart _ (set_entries _ ?b) => transitivity b; [|by apply apart_same] end.
  unfold bump. apply apart_put. apply (slot_of_visits spec Hsound). by rewrite E.
Qed.

Lemma apart_slots m e : (forall k, list_slot spec k -> m !! k = slots e !! k) -> apart e (set_slots m e).
Proof. by constructor. Qed.

Lemma kept_drop p m k : has_prefix p k = false -> drop_prefix p m !! k = m !! k.
Proof.
  intros Hp. unfold drop_prefix. rewrite map_lookup_filter. destruct (m !! k); simpl; [|done].
  by rewrite option_guard_True.
Qed.

Lemma kept_fold {A} (f : gmap string Value -> A -> gmap string Value) l m k :
  (forall m x, x ∈ l -> f m x !! k = m !! k) -> fold_left f l m !! k = m !! k.
Proof.
  revert m. induction l as [|x l IH]; intros m H; simpl; [done|]. rewrite IH.
  - apply H. left.
  - intros m' y Hy. apply H. by right.
Qed.

Lemma field_of_args t x : tool_field spec t ("args." +:+ x)%string.
Proof. right; right; left. apply has_prefix_app. Qed.

Lemma apart_fields tool result e : tool ∈ toolNames spec -> reports tool result ->
  apart e (set_slots (fold_left (record_field tool) (map_to_list result) (drop_prefix "result." (slots e))) e).
Proof.
  intros Ht Hr. apply apart_slots. intros k Hk. rewrite kept_fold.
  - apply kept_drop. destruct (has_prefix "result." k) eqn:E; [|done]. apply has_prefix_spec in E.
    rewrite E in Hk. by apply (slot_of_root spec Hsound "result") in Hk; [|set_solver].
  - intros m [x v] Hx. apply elem_of_map_to_list in Hx. unfold record_field. simpl. rewrite !lookup_insert_ne; [done| |].
    + intros <-. by apply (slot_of_root spec Hsound "result") in Hk; [|set_solver].
    + intros <-. apply (slot_of_tool spec Hsound tool x) in Hk; [done..|]. apply Hr. by eexists.
Qed.

Lemma apart_args tool args e : tool ∈ toolNames spec -> apart e (recordArgs tool args e).
Proof.
  intros Ht. assert (Hn : forall x, ~ list_slot spec ((tool +:+ ".args.") +:+ x)%string).
  { intros x. rewrite <- str_app_assoc. apply (slot_of_tool spec Hsound tool ("args." +:+ x)); [done|]. apply field_of_args. }
  apply apart_slots. intros k Hk. rewrite kept_fold.
  - apply kept_drop. destruct (has_prefix _ k) eqn:E; [|done]. apply has_prefix_spec in E. rewrite E in Hk. by apply Hn in Hk.
  - intros m [x v] _. unfold record_arg. simpl. destruct (scalarSlotValue v); [|done].
    rewrite lookup_insert_ne; [done|]. intros <-. by apply Hn in Hk.
Qed.

Lemma apart_record tool args result e : tool ∈ toolNames spec -> reports tool result ->
  apart e (record_result ParseFloat tool args result e).
Proof.
  intros Ht Hr. unfold record_result. set (n := wrapS 64 (turns e + 1)).
  transitivity (put "turns" (VInt n) (set_turns n e)).
  { transitivity (set_turns n e); [by apply apart_same|]. apply apart_engine_slot. unfold engineSlots. set_solver. }
  etransitivity; [apply (apart_engine_slot "lastTool" (VStr tool)); unfold engineSlots; set_solver|].
  etransitivity; [apply apart_reset|].
  match goal with |- apart ?a _ => transitivity (set_awaiting false a); [by apply apart_same|] end.
  etransitivity; [apply (apart_engine_slot "noInput.count" (VInt 0)); unfold engineSlots; set_solver|].
  etransitivity; [by apply (apart_fields tool result)|]. etransitivity; [|by apply apart_args].
  unfold bump. apply apart_put. apply (slot_of_tool spec Hsound tool "calls"); [done|by left].
Qed.

Lemma told_apart e e' name tool rule : Tools spec !! name = Some tool -> TCollect tool = Some rule ->
  apart e e' -> told e rule -> told e' rule.
Proof.
  intros Ht Hr [Hc Hs] []. constructor; rewrite Hc; try done.
  - rewrite (Hs (CSlot rule)); [done|]. exists name, tool, rule. split_and!; [done..|by left].
  - rewrite (Hs _); [done|]. exists name, tool, rule. split_and!; [done..|by right].
Qed.

Lemma lists_apart_op e e' : apart e e' -> Lists e -> Lists e'.
Proof. intros Ha Hl name tool rule Ht Hr. apply (told_apart e e' name tool); auto. by apply (Hl name tool). Qed.

(** Appending a value keeps what the two slots tell of that list, and of
    every other. *)
Lemma lists_keep name tool rule value e : Tools spec !! name = Some tool -> TCollect tool = Some rule ->
  Lists e -> Lists (keep_collected rule value e).
Proof.
  intros Ht Hr Hl. unfold keep_collected. destruct (String.eqb value ""); [done|].
  set (v := if (_ <? _)%nat then _ else value). destruct (contains _ v) eqn:Ec; [done|].
  destruct (Nat.leb_spec MaxCollectedValues (length (default [] (collected e !! CSlot rule)))) as [|Hlen]; [done|].
  intros name' tool' rule' Ht' Hr'. specialize (Hl name' tool' rule' Ht' Hr') as Hl'.
  destruct (decide (name = name')) as [<-|Hne].
  - rewrite Ht in Ht'. injection Ht' as <-. rewrite Hr in Hr'. injection Hr' as <-. destruct Hl'.
    constructor; simpl; rewrite lookup_insert_eq; simpl.
    + apply NoDup_app. split_and!; [done| |apply NoDup_singleton]. b2p. intros x Hx ->%list_elem_of_singleton. done.
    + rewrite length_app. simpl. lia.
    + rewrite lookup_insert_ne by (apply count_is_not_slot). by rewrite lookup_insert_eq.
    + by rewrite lookup_insert_eq.
  - assert (Hap : forall k, of_rule rule' k -> ~ of_rule rule k).
    { intros k Hk. by apply (lists_apart spec Hsound name' tool' rule' name tool rule k). }
    assert (H1 := Hap (CSlot rule') (or_introl eq_refl)). assert (H2 := Hap _ (or_intror eq_refl)).
    unfold of_rule in H1, H2. destruct Hl'.
    assert (Hne' : CSlot rule <> CSlot rule') by (intros E; apply H1; by left).
    constructor; simpl; rewrite ?(lookup_insert_ne _ _ _ _ Hne'); try done.
    + rewrite (lookup_insert_ne _ (CSlot rule +:+ collectCountSuffix)%string) by (intros E; apply H1; by right).
      by rewrite (lookup_insert_ne _ _ _ _ Hne').
    + rewrite !lookup_insert_ne; [done|intros E; apply H2; by left|intros E; apply H2; by right].
Qed.

(** A fold over updates of which at least one sets a key and the others leave
    it alone. *)
Lemma fold_sets {A} (f : gmap string Value -> A -> gmap string Value) l m k v x :
  x ∈ l -> (forall m, f m x !! k = Some v) ->
  (forall y m, y ∈ l -> f m y !! k = Some v \/ f m y !! k = m !! k) -> fold_left f l m !! k = Some v.
Proof.
  assert (Hkeep : forall l m, m !! k = Some v -> (forall y m, y ∈ l -> f m y !! k = Some v \/ f m y !! k = m !! k) ->
                  fold_left f l m !! k = Some v).
  { clear. induction l as [|y l IH]; intros m Hm Hy; simpl; [done|]. apply IH.
    - destruct (Hy y m ltac:(left)) as [H|H]; [done|by rewrite H].
    - intros z m' Hz. apply Hy. by right. }
  revert m. induction l as [|y l IH]; intros m Hx Hset Hy; [by apply elem_of_nil in Hx|]. simpl.
  apply elem_of_cons in Hx as [->|Hx].
  - apply Hkeep; [done|]. intros z m' Hz. apply Hy. by right.
  - apply IH; [done..|]. intros z m' Hz. apply Hy. by right.
Qed.

(** The slots of a list a call starts with. *)
Lemma new_slot m name tool rule k v : Tools spec !! name = Some tool -> TCollect tool = Some rule -> of_rule rule k ->
  (forall m, new_collected m (name, tool) !! k = Some v) ->
  fold_left new_collected (map_to_list (Tools spec)) m !! k = Some v.
Proof.
  intros Ht Hr Hk Hset. apply (fold_sets _ _ _ _ _ (name, tool)); [by apply elem_of_map_to_list|done|].
  intros [n t] m' Hin. apply elem_of_map_to_list in Hin. destruct (decide (n = name)) as [->|Hne].
  - left. rewrite Ht in Hin. injection Hin as <-. apply Hset.
  - right. unfold new_collected. simpl. destruct (TCollect t) as [c|] eqn:Hc; [|done].
    pose proof (lists_apart spec Hsound n t c name tool rule) as Ha.
    rewrite !lookup_insert_ne; [done| |]; intros <-; revert Hk; apply Ha; try done; unfold of_rule; auto.
Qed.

Lemma lists_new base : Lists (NewEngine base).
Proof.
  intros name tool rule Ht Hr. unfold FlowEngine.NewEngine.
  set (m := fold_left _ _ _). set (e0 := mkEngine _ m _ _ _ _ _ _ _ _ _).
  assert (T0 : told e0 rule).
  { constructor; simpl; rewrite lookup_empty; simpl; [constructor|lia| |].
    - apply (new_slot _ name tool rule); [done..|by left|]. intros m'. unfold new_collected. simpl. rewrite Hr.
      rewrite lookup_insert_ne by (apply count_is_not_slot). by rewrite lookup_insert_eq.
    - apply (new_slot _ name tool rule); [done..|by right|]. intros m'. unfold new_collected. simpl. rewrite Hr.
      by rewrite lookup_insert_eq. }
  pose proof (told_apart e0 _ name tool rule Ht Hr (apart_enter (InitialNode spec) e0) T0) as []. by constructor.
Qed.

Lemma apart_fire event tool e r : fire event tool e = Some r -> apart e (fst r).
Proof.
  unfold FlowEngine.fire. destruct (IsTerminal (current e)); [by intros [= <-]|].
  generalize (sortedRules (Transitions (if String.eqb event EventTypeToolResult then toolPhase e else current e)) ++
              sortedRules (GTransitions (Glob spec))) as rules.
  generalize (if String.eqb event EventTypeToolResult then toolPhase e else current e) as from. intros from rules.
  induction rules as [|rule rules IH]; simpl; [by intros [= <-]|]. destruct (negb _); [done|].
  destruct (evaluate ParseFloat FormatFloat Sprint (TCondition rule) (slots e)) as [[|]| |]; try done.
  destruct (_ || _); [by intros [= <-]|]. intros [= <-]. apply apart_enter.
Qed.

Lemma apart_close (b : bool) e : apart e (fst (if b then (e, ""%string) else enter (ClosingTarget (Glob spec)) e)).
Proof. destruct b; [done|apply apart_enter]. Qed.

Lemma apart_noInput v e : apart e (put "noInput.count" v e).
Proof. apply apart_engine_slot. unfold engineSlots. set_solver. Qed.

Lemma lists_collect tool args result e e' : collect tool args result e = Some e' -> Lists e -> Lists e'.
Proof.
  unfold FlowEngine.collect. destruct (Tools spec !! tool ≫= TCollect) as [rule|] eqn:E; [|by intros [= ->]].
  apply bind_Some in E as (t & Ht & Hr). destruct (negb _); [by intros [= ->]|].
  destruct (evaluate ParseFloat FormatFloat Sprint (When rule) (slots e)) as [[|]| |]; try by intros [= ->].
  intros [= <-] Hl. by apply (lists_keep tool t).
Qed.

Lemma lists_result tool args result e e' n : tool ∈ toolNames spec -> reports tool result ->
  OnToolResult tool args result e = Some (e', n) -> Lists e -> Lists e'.
Proof.
  intros Ht Hr H Hl. unfold FlowEngine.OnToolResult in H. destruct (collect _ _ _ _) as [e1|] eqn:Ec; [|done]. simpl in H.
  apply lists_collect in Ec; [|apply (lists_apart_op e); [by apply apart_record|done]].
  assert (H2 : apart e1 (fst (guardRunawayLoop e1))).
  { unfold FlowEngine.guardRunawayLoop. destruct (_ || _ || _); [done|apply apart_enter]. }
  destruct (guardRunawayLoop e1) as [e2 n2]. simpl in H2. apply (lists_apart_op e1 e2 H2) in Ec.
  destruct (if String.eqb n2 "" then _ else _) as [[e3 n3]|] eqn:E3; [|done]. simpl in H. injection H as <- <-.
  assert (H3 : Lists e3).
  { destruct (String.eqb n2 ""); [|by injection E3 as <- <-]. apply apart_fire in E3. by apply (lists_apart_op e2 e3 E3). }
  destruct (_ && _); [|done]. apply (lists_apart_op e3); [by apply apart_same|done].
Qed.

Lemma lists_step e o e' : op_known o -> exec_op (Some e) o = Some e' -> Lists e -> Lists e'.
Proof.
  intros Hk H Hl. assert (Happly : apart e e' -> Lists e') by (intros Ha; by apply (lists_apart_op e)). destruct o; simpl in H.
  - destruct (OnToolResult tool args result e) as [[e1 n]|] eqn:E; [|done]. injection H as <-.
    destruct Hk. by apply (lists_result tool args result e e1 n).
  - destruct (OnNoInput e) as [[e1 n]|] eqn:E; [|done]. injection H as <-. apply Happly. unfold FlowEngine.OnNoInput in E.
    destruct (fire _ _ _) as [[e2 n2]|] eqn:Ef; [|done]. simpl in E. apply apart_fire in Ef. simpl in Ef.
    transitivity e2; [etransitivity; [apply apart_noInput|done]|]. destruct (negb _); [by injection E as <- <-|].
    injection E as E. unfold defaultNoInput in E. destruct (_ || _ || _); [by injection E as <- <-|].
    destruct (_ <? _); [by injection E as <- <-|].
    replace e1 with (fst (enter (ClosingTarget (Glob spec)) e2)) by (by rewrite E). apply apart_enter.
  - injection H as <-. apply Happly. unfold OnCallerSpoke. destruct (String.eqb _ ""); [done|].
    transitivity (put "noInput.count" (VInt 0) e); [apply apart_noInput|by apply apart_same].
  - injection H as <-. apply Happly, apart_noInput.
  - injection H as <-. apply Happly. unfold count_turn. destruct isToolCall.
    + transitivity (resetTurnsWithoutTool e); [apply apart_reset|by apply apart_same].
    + destruct isInterrupted; [by apply apart_same|]. destruct (isToolReplyNext e); [by apply apart_same|].
      destruct (isCallerAwaitingReply e); [|done]. destruct (_ && _); [|by apply apart_same].
      match goal with |- apart _ (put _ _ ?b) => transitivity b; [by apply apart_same|] end.
      apply apart_engine_slot. unfold engineSlots. set_solver.
  - injection H as <-. apply Happly, apart_close.
  - injection H as <-. apply Happly, apart_close.
  - injection H as <-. apply Happly, apart_close.
  - injection H as <-. apply Happly. unfold ReturnTo. destruct (NodeOf spec nodeID) as [node|]; [|done].
    destruct (IsTerminal node); [done|]. simpl. transitivity (set_current node e); [by apply apart_same|].
    etransitivity; [apply (apart_engine_slot "node" (VStr nodeID)); unfold engineSlots; set_solver|].
    etransitivity; [apply apart_reset|]. etransitivity; [apply (apart_noInput (VInt 0))|by apply apart_same].
  - injection H as <-. apply Happly. unfold BeginToolBatch. destruct (isInToolBatch e); by apply apart_same.
  - injection H as <-. apply Happly. by apply apart_same.
  - injection H as <-. apply Happly. destruct Hk as (name & tool & Ht & Hkind & ->). apply apart_put.
    by apply (slot_of_slot_tool spec Hsound name).
Qed.

End lists.

Section theorems.
Variable ParseFloat : string -> option f64.
Variable FormatFloat : f64 -> string.
Variable Sprint : Value -> string.
Variable spec : Spec.
Variable language : string.

Notation run := (reaches (H := engine_machine ParseFloat FormatFloat Sprint spec language)).

(** a collect list always tells what was collected. In a flow the loader
    accepted, at every moment of every call each list has no value twice and
    at most twenty of them, its slot renders exactly those values in the order
    they were collected, and its counter counts them: no tool's result or
    argument, no phase's visit counter, no slot tool and no other list ever
    writes either slot. *)
Theorem collect_lists_tell (base : gmap string Value) (ops : list Op) (e : Engine) (Ha : accepted spec = true)
    (Ho : Forall (op_known spec) ops)
    (H : run (Some (NewEngine ParseFloat FormatFloat Sprint spec language base)) ops = Some e) :
  Lists spec e.
Proof.
  apply accepted_sound in Ha. revert H. apply (reaches_keeps ParseFloat FormatFloat Sprint spec language (Lists spec)).
  - intros o a b Hin Hl Hs. rewrite Forall_forall in Ho.
    by apply (lists_step ParseFloat FormatFloat Sprint spec language Ha a o b (Ho o Hin)).
  - by apply lists_new.
Qed.

(** the loader refuses a name that something writes. A result field called
    [visits] is written to the slot of the tool's name and [.visits] each time
    the tool runs, and the loader, which takes the suffix for a phase's
    counter, reports a template that reads it as naming a slot nothing in the
    flow writes. *)
Theorem visits_field_is_refused (tool : string) (args result : gmap string Value) (v : Value) (e : Engine)
    (Hp : Nodes spec !! tool = None) (Hd : has_prefix "userData." (tool +:+ ".visits") = false)
    (Hr : has_prefix "result." (tool +:+ ".visits") = false)
    (Hw : existsb (fun kv => writes kv.2 (tool +:+ ".visits")) (toolsOf spec) = false)
    (Hres : result !! "visits"%string = Some v) :
  has spec (tool +:+ ".visits") = false /\
  slots (record_result ParseFloat tool args result e) !! (tool +:+ ".visits")%string = Some v.
Proof.
  split.
  - unfold has. replace (contains engineSlots (tool +:+ ".visits")) with false.
    + rewrite Hd. simpl. unfold cut_prefix. rewrite Hr, Hw, cut_suffix_app. by apply bool_decide_eq_false; rewrite Hp.
    + symmetry. apply contains_false. intros Hin.
      assert (Hf : Forall (fun k => cut_suffix ".visits" k = None) engineSlots) by (repeat constructor).
      rewrite Forall_forall in Hf. specialize (Hf _ Hin). by rewrite cut_suffix_app in Hf.
  - unfold record_result. cbn [recordArgs slots set_slots]. rewrite kept_fold.
    + rewrite kept_drop.
      * unfold bump. cbn [put slots set_slots]. rewrite lookup_insert_ne; [|intros E; by apply append_inj_l in E].
        apply (fold_sets _ _ _ _ _ ("visits"%string, v)); [by apply elem_of_map_to_list| |].
        -- intros m. unfold record_field. simpl. by rewrite lookup_insert_eq.
        -- intros [x y] m Hx. apply elem_of_map_to_list in Hx. unfold record_field. simpl.
           destruct (decide (x = "visits"%string)) as [->|Hne].
           ++ left. rewrite Hres in Hx. injection Hx as ->. by rewrite lookup_insert_eq.
           ++ right. rewrite !lookup_insert_ne; [done| |].
              ** intros E. rewrite <- E in Hr. change (has_prefix "result." ("result." +:+ x) = false) in Hr.
                 by rewrite has_prefix_app in Hr.
              ** intros E. apply append_inj_l in E. by injection E.
      * apply args_not_visits.
    + intros m [x y] _. unfold record_arg. simpl. destruct (scalarSlotValue y); [|done].
      rewrite lookup_insert_ne; [done|]. rewrite <- str_app_assoc. intros E. by apply append_inj_l in E.
Qed.

End theorems.

(** *** Examples *)

Lemma collect_lists_tell_witness :
  exists e, reaches (H := engine_machine parse_digit no_format no_sprint demo "en-GB")
    (Some (NewEngine parse_digit no_format no_sprint demo "en-GB" ∅)) [looked_up; NoInput; looked_up] = Some e /\
    Lists demo e /\ slots e !! "orders.count"%string = Some (VInt 1).
Proof.
  destruct (reaches (H := engine_machine parse_digit no_format no_sprint demo "en-GB")
    (Some (NewEngine parse_digit no_format no_sprint demo "en-GB" ∅)) [looked_up; NoInput; looked_up]) as [e|] eqn:E;
    [|vm_compute in E; discriminate E].
  exists e. split; [reflexivity|]. split; [|vm_compute in E; injection E as <-; vm_compute; reflexivity].
  refine (collect_lists_tell parse_digit no_format no_sprint demo "en-GB" ∅ [looked_up; NoInput; looked_up] e demo_accepted _ E).
  assert (Hl : op_known demo looked_up).
  { split; [apply contains_true; vm_compute; reflexivity|]. intros k Hk.
    change (is_Some ((<["ok"%string := VStr "1"]> (<["status"%string := VStr "sent"]> ∅) : gmap string Value) !! k)) in Hk.
    rewrite !lookup_insert_is_Some, lookup_empty in Hk. destruct Hk as [<-|[_ [<-|[_ Hk]]]].
    - right. by left.
    - right. right. right. exists (mkHTTP "" "/orders" "" ∅ ∅ None None None "" {["status"%string := "status"%string]} ∅). split; [vm_compute; reflexivity|]. apply contains_true. vm_compute. reflexivity.
    - by destruct Hk. }
  exact (List.Forall_cons _ looked_up _ Hl (List.Forall_cons _ NoInput _ I (List.Forall_cons _ looked_up _ Hl (List.Forall_nil _)))).
Defined.

Lemma visits_field_is_refused_witness :
  has demo "lookup.visits" = false /\
  slots (record_result parse_digit "lookup" ∅ (<["visits"%string := VInt 7]> ∅) at_bye) !! "lookup.visits"%string = Some (VInt 7).
Proof.
  apply (visits_field_is_refused parse_digit demo "lookup" ∅ (<["visits"%string := VInt 7]> ∅) (VInt 7) at_bye); reflexivity.
Defined.

End FlowCollect.
