(* ===== verification/FlowRuntime.v ===== *)
(** * Running a call's tools: [internal/flow/runtime.go]

    The runtime stands between the model and the engine: it decides whether a
    tool the model asks for may run, runs it, feeds the result to the engine
    and answers the model. Here is everything of it that decides or changes
    state; the wording of the standing instructions is not modelled, nor is
    the encoding of arguments and answers as JSON: arguments come decoded, and
    an answer is the object that would be encoded.

    What a tool's action comes to is decided outside (a queue, a backend, the
    store), so each operation that acts is given the answer it will get; what
    the runtime asked for is kept in [asked], in order. *)

From S2P Require Import Prelude GoText Float64 FlowPredicate FlowSpec FlowSlots FlowEngine.

Module FlowRuntime.
Import GoText Float64 FlowPredicate FlowSpec FlowSlots FlowEngine.

(** [internal/flow/builtin.go:Result] *)
Record Result := mkResult { IsOK : bool; Fields : gmap string Value; RModelOnly : gmap string Value; Hint : string; Error : string }.

(** [internal/flow/builtin.go:Failed] *)
Definition Failed (reason hint : string) : Result := mkResult false ∅ ∅ hint reason.

(** [internal/flow/builtin.go:Succeeded] *)
Definition Succeeded (fields : gmap string Value) (hint : string) : Result := mkResult true fields ∅ hint "".

(** [internal/flow/builtin.go:boolAsFlag] *)
Definition boolAsFlag (isOK : bool) : string := if isOK then "1" else "0".

(** [internal/flow/builtin.go:Result.asToolOutput] the object that is
    encoded; [maps.Copy] overwrites. *)
Definition asToolOutput (r : Result) : gmap string Value :=
  let m := RModelOnly r ∪ (Fields r ∪ {["ok"%string := VStr (boolAsFlag (IsOK r))]}) in
  let m := if String.eqb (Error r) "" then m else <["error"%string := VStr (Error r)]> m in
  if String.eqb (Hint r) "" then m else <["hint"%string := VStr (Hint r)]> m.

(** [internal/flow/builtin.go:TransferRequest] *)
Record TransferRequest := mkTransfer { Queue : string; Reason : string; Summary : string; TSlots : Value; FromPhase : string }.

(** [internal/flow/builtin.go:MessageRequest] *)
Record MessageRequest := mkMessage { Message : string; CallbackNumber : string }.

(** [internal/flow/builtin.go:Actions] what the runtime asks for, with the
    call of a backend. *)
Inductive Asked :=
| TransferToAgent (request : TransferRequest)
| TakeMessage (request : MessageRequest)
| Hangup
| RecordLead (lead : LeadRequest)
| BackendCall (tool : string) (args slots : gmap string Value).

(** [internal/flow/builtin.go:var(LeadIntents)] *)
Definition LeadIntents : list string := ["HIGH"; "MEDIUM"; "LOW"; "NONE"; "DO_NOT_CALL"]%string.

(** [internal/flow/builtin.go:const(ToolTransferToAgent)] *)
Definition ToolTransferToAgent : string := "transfer_to_agent".
Definition ToolTakeMessage : string := "take_message".
Definition ToolHangup : string := "hangup".
Definition ToolRecordLead : string := "record_lead".

(** What an action, or a backend, answered: a result, or an error by its
    text. *)
Definition Answer := res string Result.

(** [internal/flow/runtime.go:Runtime] *)
Record Runtime := mkRuntime {
  engine : Engine;
  denied : list string;
  isLeadOffered : bool;
  lastLead : string;
  lastLeadBy : string;
  pinnedInstruction : string;
  asked : list Asked
}.

Definition set_engine e r := mkRuntime e (denied r) (isLeadOffered r) (lastLead r) (lastLeadBy r) (pinnedInstruction r) (asked r).
Definition set_denied d r := mkRuntime (engine r) d (isLeadOffered r) (lastLead r) (lastLeadBy r) (pinnedInstruction r) (asked r).
Definition set_offered b r := mkRuntime (engine r) (denied r) b (lastLead r) (lastLeadBy r) (pinnedInstruction r) (asked r).
Definition set_lead i b r := mkRuntime (engine r) (denied r) (isLeadOffered r) i b (pinnedInstruction r) (asked r).
Definition set_pinned p r := mkRuntime (engine r) (denied r) (isLeadOffered r) (lastLead r) (lastLeadBy r) p (asked r).
Definition ask a r := mkRuntime (engine r) (denied r) (isLeadOffered r) (lastLead r) (lastLeadBy r) (pinnedInstruction r) (asked r ++ [a]).

(** [unicode.IsControl] *)
Definition IsControl (r : rune) : bool := (r <? 32) || ((127 <=? r) && (r <=? 159)).

(** [strings.ToUpper] as far as it can come out as one of the intents: the
    ASCII letters, and the two other letters whose capital is an ASCII one
    (dotless i and long s). *)
Definition upper_rune (r : rune) : rune :=
  if (97 <=? r) && (r <=? 122) then r - 32 else if r =? 305 then 73 else if r =? 383 then 83 else r.
Definition upper_intent (s : string) : string := utf8 (map upper_rune (runes s)).

Section runtime.
Variable ParseFloat : string -> option f64.
Variable FormatFloat : f64 -> string.
Variable Sprint : Value -> string.
Variable spec : Spec.
Variable language : string.
(** Whether a backend is configured. *)
Variable hasBackend : bool.

Notation asString := (asString FormatFloat Sprint).
Notation InstructionNow := (InstructionNow FormatFloat Sprint language).
Notation declaredLead := (declaredLead FormatFloat Sprint language).

(** [internal/flow/slottool.go:cleanSlotValue] a refusal is its reason's
    kind. *)
Inductive Refusal := EmptyValue | TooLong | NotInEnum.
Definition cleanSlotValue (tool : Tool) (raw : Value) : res Refusal string :=
  match raw with
  | VNil => Err EmptyValue
  | _ =>
      let text := match raw with VStr x => x | _ => asString raw end in
      let text := TrimSpace (utf8 (map (fun r => if IsControl r then 32 else r) (runes text))) in
      if String.eqb text "" then Err EmptyValue
      else if (MaxSlotValueLen <? length (runes text))%nat then Err TooLong
      else if match Enum tool with [] => false | _ => negb (contains (Enum tool) text) end then Err NotInEnum
      else Ok text
  end.
Definition refusal_text (r : Refusal) : string :=
  match r with EmptyValue => "value is empty; nothing was recorded" | TooLong => "value is too long; nothing was recorded"
  | NotInEnum => "value is not one of the tool's; nothing was recorded" end.

(** [internal/flow/runtime.go:stringArg] *)
Definition stringArg (args : gmap string Value) (name : string) : string := asString (default VNil (args !! name)).

(** [internal/flow/runtime.go:mapArg] nil for anything but an object. *)
Definition mapArg (args : gmap string Value) (name : string) : Value :=
  match args !! name with Some (VMap m) => VMap m | _ => VNil end.

(** [internal/flow/runtime.go:Runtime.Deny] *)
Definition Deny (names : list string) (r : Runtime) : Runtime := set_denied (denied r ++ names) r.

(** [internal/flow/runtime.go:Runtime.IsToolAllowed] *)
Definition IsToolAllowed (r : Runtime) (name : string) : bool :=
  if String.eqb name ToolRecordLead then isLeadOffered r && negb (contains (denied r) name)
  else negb (contains (denied r) name) && FlowEngine.IsToolAllowed spec (engine r) name.

(** [internal/flow/runtime.go:Runtime.IsLeadSetByPhase] *)
Definition IsLeadSetByPhase (r : Runtime) : bool :=
  isLeadOffered r && match Lead (current (engine r)) with Some _ => true | None => false end.

(** [internal/flow/runtime.go:Runtime.recordDeclaredLead] for a phase and the
    lead it declares; [answer] is what the application will say. *)
Definition recordDeclaredLead (node : string) (lead : option (LeadRequest * bool)) (answer : Answer) (r : Runtime) : Runtime :=
  match lead with
  | None => r
  | Some (lead, _) =>
      if negb (IsToolAllowed r ToolRecordLead) then r
      else
        let r := ask (RecordLead lead) r in
        match answer with
        | Ok result => if IsOK result then set_lead (LIntent lead) ("phase " +:+ node) r else r
        | Err _ => r
        end
  end.

(** [internal/flow/engine.go:L582-L584] the callback of [enter], for the
    phases an operation of the engine has just entered. *)
Definition hear (answer : Answer) (r : Runtime) : Runtime :=
  let heard := entries (engine r) in
  fold_left (fun r entry => recordDeclaredLead entry.1 entry.2 answer r) heard (set_engine (set_entries [] (engine r)) r).

(** [internal/flow/runtime.go:NewRuntime] *)
Definition NewRuntime (e : Engine) : Runtime := mkRuntime e [] false "" "" "" [].

(** [internal/flow/runtime.go:Runtime.OfferRecordLead] *)
Definition OfferRecordLead (answer : Answer) (r : Runtime) : Runtime :=
  if isLeadOffered r then r
  else let r := set_offered true r in recordDeclaredLead (id (current (engine r))) (declaredLead (engine r)) answer r.

(** [internal/flow/runtime.go:Runtime.referencedTools] [builtins] are the
    names of the built-in tools. *)
Definition referenced (r : Runtime) (name : string) : bool :=
  if String.eqb name ToolRecordLead then isLeadOffered r
  else
    let phases := (map_to_list (Nodes spec)).*2 in
    existsb (fun n => contains (NTools n) name) phases && negb (String.eqb name "*") ||
    contains (AlwaysAllowedTools (Glob spec)) name ||
    existsb (fun n => contains (NTools n) "*"%string) phases &&
      (bool_decide (is_Some (Tools spec !! name)) || contains BuiltinToolNames name).

(** [internal/flow/runtime.go:Runtime.Tools] whether a tool is offered to the
    model. *)
Definition offered (r : Runtime) (name : string) : bool :=
  referenced r name && negb (contains (denied r) name) &&
  (contains BuiltinToolNames name || bool_decide (is_Some (Tools spec !! name))).

(** [internal/flow/runtime.go:Runtime.IsHTTPTool] *)
Definition IsHTTPTool (r : Runtime) (name : string) : bool :=
  if contains BuiltinToolNames name || negb (IsToolAllowed r name) then false
  else match Tools spec !! name with Some tool => negb (String.eqb (Kind tool) ToolKindSlot) | None => false end.

(** [internal/flow/runtime.go:Runtime.IsInstructionStale] *)
Definition IsInstructionStale (r : Runtime) : bool := negb (String.eqb (InstructionNow (engine r)) (pinnedInstruction r)).

(** [internal/flow/runtime.go:Runtime.phasePreamble] *)
Definition phasePreamble : string := if String.eqb (lang language) "zh" then "当前环节：
" else "Current phase:
".

(** [internal/flow/runtime.go:Runtime.recoveryHint] *)
Definition recoveryHint : string :=
  if String.eqb (lang language) "zh" then "系统暂时无法完成该操作。请向来电者说明，如再次失败请转人工。"
  else "That could not be completed just now. Tell the caller so, and if it fails again offer to put them through to a person.".

(** [internal/flow/runtime.go:Runtime.recordLead] *)
Definition recordLead (args : gmap string Value) (answer : Answer) (r : Runtime) : Runtime * Result :=
  let intent := upper_intent (TrimSpace (stringArg args "intent")) in
  if IsLeadSetByPhase r then
    (r, Failed "this phase records the lead itself; do not call record_lead, and do not mention this to the customer" "")
  else if negb (contains LeadIntents intent) then (r, Failed "not a lead intent" "")
  else
    let '(notes, _) := leadNotes (stringArg args "notes") in
    let r := ask (RecordLead (mkLeadRequest intent notes)) r in
    let result := match answer with Ok result => result | Err e => Failed e "" end in
    (if IsOK result then set_lead intent ToolRecordLead r else r, result).

(** [internal/flow/runtime.go:Runtime.recordSlot] *)
Definition recordSlot (tool : Tool) (args : gmap string Value) (r : Runtime) : Runtime * Result :=
  match cleanSlotValue tool (default VNil (args !! slotToolValueArg)) with
  | Err why => (r, Failed (refusal_text why) "")
  | Ok value => (set_engine (RecordSlot (ToolSlot tool) value (engine r)) r, Succeeded ∅ "")
  end.

(** [internal/flow/runtime.go:Runtime.run] *)
Definition run (name : string) (args : gmap string Value) (answer : Answer) (r : Runtime) : Runtime * Answer :=
  if String.eqb name ToolTransferToAgent then
    (ask (TransferToAgent (mkTransfer (stringArg args "queue") (stringArg args "reason") (stringArg args "summary")
            (mapArg args "slots") (id (current (engine r))))) r, answer)
  else if String.eqb name ToolTakeMessage then
    (ask (TakeMessage (mkMessage (stringArg args "message") (stringArg args "callbackNumber"))) r, answer)
  else if String.eqb name ToolHangup then (ask Hangup r, answer)
  else match Tools spec !! name with
       | None => (r, Err ("there is no tool called " +:+ name)%string)
       | Some tool =>
           if String.eqb (Kind tool) ToolKindSlot then let '(r, result) := recordSlot tool args r in (r, Ok result)
           else if negb hasBackend then (r, Err ("no backend is configured for " +:+ name)%string)
           else (ask (BackendCall name args (slots (engine r))) r, answer)
       end.

(** [internal/flow/runtime.go:Runtime.Dispatch] [answer] is what the tool's
    action will say, [leadAnswer] what the application will say to the lead of
    a phase the result moves the call to; [None] is a panic. *)
Definition Dispatch (name : string) (args : gmap string Value) (answer leadAnswer : Answer) (r : Runtime) :
    option (Runtime * (gmap string Value * string)) :=
  if negb (IsToolAllowed r name) then
    Some (r, (asToolOutput (Failed ("the tool " +:+ name +:+ " is not available in the current phase")
                              (phasePreamble +:+ InstructionNow (engine r))), ""%string))
  else if String.eqb name ToolRecordLead then
    let '(r, result) := recordLead args answer r in Some (r, (asToolOutput result, ""%string))
  else
    let '(r, answer) := run name args answer r in
    let result := match answer with Ok result => result | Err e => Failed e recoveryHint end in
    let recorded := Fields result ∪ {["ok"%string := VStr (boolAsFlag (IsOK result))]} in
    '(e, node) ← OnToolResult ParseFloat FormatFloat Sprint spec language name args recorded (engine r);
    let r := hear leadAnswer (set_engine e r) in
    let result := if String.eqb node "" then result
                  else mkResult (IsOK result) (Fields result) (RModelOnly result)
                         (phasePreamble +:+ InstructionNow (engine r)) (Error result) in
    Some (r, (asToolOutput result, node)).

(** [internal/flow/runtime.go:Runtime.Instructions] what rendering the
    standing instructions leaves behind. *)
Definition Pin (r : Runtime) : Runtime := set_pinned (InstructionNow (engine r)) r.

(** [internal/flow/runtime.go:L371-L401] the operations that only pass through
    to the engine, and whatever lead the phase they enter declares. *)
Definition pass (o : FlowEngine.Op) (leadAnswer : Answer) (r : Runtime) : option Runtime :=
  e ← FlowEngine.exec_op ParseFloat FormatFloat Sprint spec language (Some (engine r)) o;
  Some (hear leadAnswer (set_engine e r)).

(** ** A call *)

Inductive ROp :=
| RDispatch (name : string) (args : gmap string Value) (answer leadAnswer : Answer)
| RDeny (names : list string)
| ROffer (answer : Answer)
| REvent (o : FlowEngine.Op) (leadAnswer : Answer)
| RPin.

(** The engine's operations the runtime passes on: tool results and slot
    values go through [Dispatch] alone. *)
Definition passed_on (o : FlowEngine.Op) : bool :=
  match o with ToolResult _ _ _ | Record _ _ => false | _ => true end.

Definition exec_rop (w : option Runtime) (o : ROp) : option Runtime :=
  r ← w;
  match o with
  | RDispatch name args answer leadAnswer => fst <$> Dispatch name args answer leadAnswer r
  | RDeny names => Some (Deny names r)
  | ROffer answer => Some (OfferRecordLead answer r)
  | REvent o leadAnswer => pass o leadAnswer r
  | RPin => Some (Pin r)
  end.

#[export] Instance runtime_machine : Machine (option Runtime) ROp := {
  initial w := exists base, w = Some (NewRuntime (NewEngine ParseFloat FormatFloat Sprint spec language base));
  allowed o := match o with REvent o _ => passed_on o = true | _ => True end;
  exec := exec_rop
}.

Lemma rreaches_none ops : reaches (None : option Runtime) ops = None.
Proof. induction ops as [|o ops IH]; [done|]. exact IH. Qed.

Lemma rreaches_keeps (P : Runtime -> Prop) (ops : list ROp) r r' :
  (forall o r r', o ∈ ops -> P r -> exec_rop (Some r) o = Some r' -> P r') ->
  P r -> reaches (Some r) ops = Some r' -> P r'.
Proof.
  revert r. induction ops as [|o ops IH]; intros r Hs Hp H; [by injection H as <-|].
  unfold reaches in H. cbn [fold_left] in H. change (exec (Some r) o) with (exec_rop (Some r) o) in H.
  destruct (exec_rop (Some r) o) as [r1|] eqn:E.
  - apply (IH r1); [|eapply (Hs o r); [left|done..]|done]. intros. eapply Hs; [by right|done..].
  - change (reaches None ops = Some r') in H. by rewrite rreaches_none in H.
Qed.

(** What recording a lead leaves alone. *)
Record beside (r r' : Runtime) : Prop := mkBeside {
  be_engine : engine r' = engine r;
  be_denied : denied r' = denied r;
  be_offered : isLeadOffered r' = isLeadOffered r;
  be_asked : exists leads, asked r' = asked r ++ map RecordLead leads;
  be_campaign : IsToolAllowed r ToolRecordLead = false -> asked r' = asked r /\ lastLead r' = lastLead r
}.

#[local] Instance beside_refl : Reflexive beside.
Proof. intros r. constructor; try done. exists []. by rewrite app_nil_r. Qed.

Lemma beside_allowed r r' : beside r r' -> IsToolAllowed r' ToolRecordLead = IsToolAllowed r ToolRecordLead.
Proof. intros [_ Hd Ho _ _]. unfold IsToolAllowed. by rewrite Hd, Ho. Qed.

#[local] Instance beside_trans : Transitive beside.
Proof.
  intros r1 r2 r3 H12 H23. pose proof (beside_allowed _ _ H12) as Ha.
  destruct H12 as [He Hd Ho [l Hl] Hc], H23 as [He' Hd' Ho' [l' Hl'] Hc']. constructor; try congruence.
  - exists (l ++ l'). by rewrite Hl', Hl, map_app, app_assoc.
  - intros H. destruct (Hc H) as [E1 E2], (Hc' ltac:(by rewrite Ha)) as [E3 E4]. split; congruence.
Qed.

Lemma beside_declared node lead answer r : beside r (recordDeclaredLead node lead answer r).
Proof.
  unfold recordDeclaredLead. destruct lead as [[lead cut]|]; [|done].
  destruct (IsToolAllowed r ToolRecordLead) eqn:E; simpl; [|done].
  destruct answer as [result|e]; [destruct (IsOK result)|]; constructor; try done; try (by exists [lead]); by rewrite E.
Qed.

Lemma beside_hear answer r : beside (set_engine (set_entries [] (engine r)) r) (hear answer r).
Proof.
  unfold hear. set (r0 := set_engine _ r). generalize (entries (engine r)) as l. generalize r0 as x. clear.
  intros x l. revert x. induction l as [|[n lead] l IH]; intros x; simpl; [done|].
  etransitivity; [apply (beside_declared n lead answer)|]. apply IH.
Qed.

Lemma beside_offer answer r : beside (set_offered true r) (OfferRecordLead answer r) \/ OfferRecordLead answer r = r.
Proof. unfold OfferRecordLead. destruct (isLeadOffered r); [by right|left]. apply beside_declared. Qed.

Lemma beside_recordLead args answer r : IsToolAllowed r ToolRecordLead = true -> beside r (fst (recordLead args answer r)).
Proof.
  intros Ha. unfold recordLead. destruct (IsLeadSetByPhase r); [done|]. destruct (negb _); [done|].
  destruct (leadNotes _) as [notes cut]. simpl. destruct (IsOK _); (constructor; try done; [by eexists [_]|by rewrite Ha]).
Qed.


(** The tool an action belongs to. *)
Definition asked_by (a : Asked) : string :=
  match a with
  | TransferToAgent _ => ToolTransferToAgent | TakeMessage _ => ToolTakeMessage | Hangup => ToolHangup
  | RecordLead _ => ToolRecordLead | BackendCall tool _ _ => tool
  end.

(** What running a tool leaves alone. *)
Lemma run_asks name args answer r :
  denied (fst (run name args answer r)) = denied r /\ isLeadOffered (fst (run name args answer r)) = isLeadOffered r /\
  exists own, asked (fst (run name args answer r)) = asked r ++ own /\ Forall (fun a => asked_by a = name) own.
Proof.
  assert (H1 : forall a, asked_by a = name -> denied (ask a r) = denied r /\ isLeadOffered (ask a r) = isLeadOffered r /\
    exists own, asked (ask a r) = asked r ++ own /\ Forall (fun a => asked_by a = name) own).
  { intros a Ha. split_and!; [done..|]. exists [a]. split; [done|]. constructor; [done|constructor]. }
  assert (H0 : denied r = denied r /\ isLeadOffered r = isLeadOffered r /\
    exists own, asked r = asked r ++ own /\ Forall (fun a => asked_by a = name) own).
  { split_and!; [done..|]. exists []. split; [by rewrite app_nil_r|constructor]. }
  unfold run. destruct (String.eqb_spec name ToolTransferToAgent) as [->|_]; [by apply H1|].
  destruct (String.eqb_spec name ToolTakeMessage) as [->|_]; [by apply H1|].
  destruct (String.eqb_spec name ToolHangup) as [->|_]; [by apply H1|].
  destruct (Tools spec !! name) as [tool|]; [|done]. destruct (String.eqb (Kind tool) ToolKindSlot).
  - unfold recordSlot. destruct (cleanSlotValue tool _); done.
  - destruct (negb hasBackend); [done|]. by apply H1.
Qed.

Lemma run_lead name args answer r : lastLead (fst (run name args answer r)) = lastLead r.
Proof.
  unfold run. destruct (String.eqb name _); [done|]. destruct (String.eqb name _); [done|]. destruct (String.eqb name _); [done|].
  destruct (Tools spec !! name) as [tool|]; [|done]. destruct (String.eqb (Kind tool) ToolKindSlot).
  - unfold recordSlot. by destruct (cleanSlotValue tool _).
  - by destruct (negb hasBackend).
Qed.

Lemma beside_set_engine e r : denied (set_engine e r) = denied r /\ isLeadOffered (set_engine e r) = isLeadOffered r /\
  asked (set_engine e r) = asked r.
Proof. done. Qed.

(** Everything a dispatch asks for: its own action first, then the leads of
    the phases it entered. *)
Lemma dispatch_asks name args answer leadAnswer r r' out : Dispatch name args answer leadAnswer r = Some (r', out) ->
  denied r' = denied r /\ isLeadOffered r' = isLeadOffered r /\
  exists own leads, asked r' = asked r ++ own ++ map RecordLead leads /\ Forall (fun a => asked_by a = name) own /\
    (own <> [] -> IsToolAllowed r name = true) /\
    (IsToolAllowed r ToolRecordLead = false -> leads = [] /\ lastLead r' = lastLead r).
Proof.
  unfold Dispatch. destruct (IsToolAllowed r name) eqn:Ea; simpl.
  2: { intros [= <- _]. split_and!; [done..|]. exists [], []. by rewrite app_nil_r. }
  destruct (String.eqb_spec name ToolRecordLead) as [->|Hne].
  - pose proof (beside_recordLead args answer r Ea) as Hb. destruct (recordLead args answer r) as [r1 result]. simpl in Hb.
    intros [= <- _]. destruct Hb as [_ Hd Ho [leads Hl] _]. split_and!; [done..|]. exists (map RecordLead leads), [].
    rewrite app_nil_r. split_and!; [done| |done|by rewrite Ea]. apply Forall_forall. intros a Hin.
    apply list_elem_of_fmap in Hin as (l & -> & _). done.
  - destruct (run_asks name args answer r) as (Hd & Ho & own & Hown & Hby).
    assert (Hlead : lastLead (fst (run name args answer r)) = lastLead r).
    { apply run_lead. }
    destruct (run name args answer r) as [r1 answer1]. simpl in *.
    destruct (OnToolResult _ _ _ _ _ _ _ _ (engine r1)) as [[e node]|]; [|done]. simpl. intros [= <- _].
    destruct (beside_hear leadAnswer (set_engine e r1)) as [_ Hd2 Ho2 [leads Hl] Hc]. simpl in *.
    split_and!; [by rewrite Hd2|by rewrite Ho2|]. exists own, leads. rewrite Hl, Hown, app_assoc. split_and!; [done..|].
    intros Hn. assert (Hn' : IsToolAllowed (set_engine (set_entries [] e) (set_engine e r1)) ToolRecordLead = false).
    { unfold IsToolAllowed in *. simpl. by rewrite Hd, Ho. }
    destruct (Hc Hn') as [E1 E2]. rewrite Hl in E1. split; [|by rewrite E2].
    rewrite <- (app_nil_r (asked r1)) in E1 at 2. apply app_inv_head in E1. by apply map_eq_nil in E1.
Qed.

(** *** The invariant, through the engine's *)

Definition RGood (r : Runtime) : Prop := Good spec language (engine r) /\ entries (engine r) = [].

Lemma rgood_hear answer r : Good spec language (engine r) -> RGood (hear answer r).
Proof.
  intros Hg. pose proof (be_engine _ _ (beside_hear answer r)) as E. split; rewrite E; [|done]. simpl. by destruct Hg.
Qed.

Section loaded.
Hypothesis Hwf : well_formed spec.
Hypothesis Hsound : sound_slots spec.
Hypothesis Hids : has_ids spec.
Hypothesis Hscalar : no_collections spec.

Lemma run_good name args answer r : Good spec language (engine r) -> Good spec language (engine (fst (run name args answer r))).
Proof.
  intros Hg. unfold run. repeat (case_match; [done|]). destruct (Tools spec !! name) as [tool|] eqn:Ht; [|done].
  destruct (String.eqb_spec (Kind tool) ToolKindSlot) as [Hk|]; [|by destruct (negb hasBackend)]. unfold recordSlot, RecordSlot.
  destruct (cleanSlotValue tool _) as [v|]; [|done]. simpl.
  destruct (sound_slot spec Hsound name tool Ht Hk) as (_ & Hres & _).
  apply (good_frame ParseFloat spec language (engine r)); [apply frame_put|done]. intros Hm. apply Hres, elem_of_app. left.
  unfold mirrored, engineSlots in *. set_solver.
Qed.

Lemma dispatch_good name args answer leadAnswer r : RGood r ->
  exists r' out, Dispatch name args answer leadAnswer r = Some (r', out) /\ RGood r'.
Proof.
  intros [Hg He]. unfold Dispatch. destruct (negb (IsToolAllowed r name)) eqn:Ea; [by eexists r, _|].
  destruct (String.eqb_spec name ToolRecordLead) as [->|].
  - apply negb_false_iff in Ea. pose proof (be_engine _ _ (beside_recordLead args answer r Ea)) as E.
    destruct (recordLead args answer r) as [r1 result]. simpl in E. eexists _, _. split; [done|]. unfold RGood. by rewrite E.
  - pose proof (run_good name args answer r Hg) as G1. destruct (run name args answer r) as [r1 answer1]. simpl in G1.
    match goal with |- context [OnToolResult _ _ _ _ _ name args ?rec _] =>
      destruct (OnToolResult_good ParseFloat FormatFloat Sprint spec language Hwf Hsound Hids Hscalar name args rec (engine r1) G1)
        as (e & nd & E & G) end.
    rewrite E. simpl. eexists _, _. split; [done|]. by apply rgood_hear.
Qed.

#[local] Instance RGood_invariant : Invariant (fun w => exists r, w = Some r /\ RGood r).
Proof.
  constructor.
  - intros w [base ->]. eexists. split; [done|]. split; [by apply good_new|done].
  - intros w o (r & -> & Hr) Ho. destruct o; simpl.
    + destruct (dispatch_good name args answer leadAnswer r Hr) as (r' & out & E & G). rewrite E. by exists r'.
    + by eexists.
    + eexists; split; [done|]. destruct (beside_offer answer r) as [[E _ _ _ _]|E]; unfold RGood; by rewrite E.
    + destruct Hr as [Hg _]. unfold pass.
      destruct (inv_exec (Invariant := Good_invariant ParseFloat FormatFloat Sprint spec language Hwf Hsound Hids Hscalar)
        (Some (engine r)) o) as (e & E & G).
      * by exists (engine r).
      * by destruct o.
      * change (FlowEngine.exec_op ParseFloat FormatFloat Sprint spec language (Some (engine r)) o = Some e) in E.
        rewrite E. simpl. eexists; split; [done|]. by apply rgood_hear.
    + by eexists.
Qed.

Lemma rreached_good base ops : Forall allowed ops ->
  exists r, reaches (Some (NewRuntime (NewEngine ParseFloat FormatFloat Sprint spec language base))) ops = Some r /\ RGood r.
Proof.
  intros Ho. apply (reaches_invariant (Op := ROp) (fun w => exists r, w = Some r /\ RGood r)); [by exists base|done].
Qed.

End loaded.

(** *** A phase's own lead *)

Lemma enter_hears nid e : nid <> ""%string ->
  entries (fst (enter ParseFloat FormatFloat Sprint spec language nid e)) = entries e ++
    if String.eqb (snd (enter ParseFloat FormatFloat Sprint spec language nid e)) "" then []
    else [(id (current (fst (enter ParseFloat FormatFloat Sprint spec language nid e))),
           declaredLead (fst (enter ParseFloat FormatFloat Sprint spec language nid e)))].
Proof.
  intros Hne. unfold enter. destruct (NodeOf spec nid); simpl; [|by rewrite app_nil_r].
  by rewrite (proj2 (String.eqb_neq _ _) Hne).
Qed.

(** A move an operation of the engine makes is heard once, as it stands
    afterwards. *)
Definition heard_as (e e' : Engine) (node : string) : Prop :=
  entries e' = entries e ++ if String.eqb node "" then [] else [(id (current e'), declaredLead e')].

Lemma fire_rules_hears from event tool rules e r : (forall x, x ∈ rules -> Target x <> ""%string) ->
  fire_rules ParseFloat FormatFloat Sprint spec language from event tool rules e = Some r -> heard_as e (fst r) (snd r).
Proof.
  unfold heard_as. induction rules as [|rule rules IH]; simpl; intros Hr; [intros [= <-]; by rewrite app_nil_r|].
  assert (IH' := IH (fun x Hx => Hr x (or_intror Hx))) || assert (IH' := IH ltac:(intros x Hx; apply Hr; by right)).
  destruct (negb _); [done|]. destruct (evaluate ParseFloat FormatFloat Sprint (TCondition rule) (slots e)) as [[|]| |]; try done.
  destruct (_ || _); [intros [= <-]; by rewrite app_nil_r|]. intros [= <-]. apply enter_hears. apply Hr. left.
Qed.

Lemma result_hears tool args result e e' node : (forall x, x ∈ Transitions (toolPhase e) \/ x ∈ GTransitions (Glob spec) -> Target x <> ""%string) ->
  OnToolResult ParseFloat FormatFloat Sprint spec language tool args result e = Some (e', node) -> heard_as e e' node.
Proof.
  intros Ht. unfold OnToolResult. destruct (collect _ _ _ _ _ _ _ _) as [e1|] eqn:Ec; [|done]. simpl.
  apply collect_keeps in Ec as (Hc & He & Hb & Hn & _). simpl in Hc, He, Hb, Hn.
  assert (H2 : heard_as e1 (fst (guardRunawayLoop ParseFloat FormatFloat Sprint spec language e1))
                 (snd (guardRunawayLoop ParseFloat FormatFloat Sprint spec language e1)) /\
               (snd (guardRunawayLoop ParseFloat FormatFloat Sprint spec language e1) = ""%string ->
                fst (guardRunawayLoop ParseFloat FormatFloat Sprint spec language e1) = e1)).
  { unfold guardRunawayLoop. destruct (String.eqb_spec (FallbackTarget (Glob spec)) "") as [E|Hne].
    { rewrite !orb_true_r, orb_true_l. unfold heard_as. simpl. by rewrite app_nil_r. }
    destruct (_ || _ || _); [unfold heard_as; simpl; by rewrite app_nil_r|]. split; [by apply enter_hears|].
    unfold enter. destruct (NodeOf spec _); simpl; [by intros|done]. }
  destruct (guardRunawayLoop _ _ _ _ _ e1) as [e2 n2]. simpl in H2. destruct H2 as [H2 Hsame].
  destruct (if String.eqb n2 "" then _ else _) as [[e3 n3]|] eqn:E3; [|done]. simpl. intros [= <- <-].
  assert (H3 : heard_as e e3 n3).
  { destruct (String.eqb_spec n2 "") as [->|Hne].
    - rewrite Hsame in * by done. unfold fire in E3. destruct (IsTerminal (current e1)).
      + injection E3 as <- <-. unfold heard_as. simpl. by rewrite app_nil_r, He.
      + apply fire_rules_hears in E3; [unfold heard_as in *; simpl in E3; by rewrite E3, He|].
        intros x Hx. apply Ht. simpl in Hx. unfold toolPhase in Hx |- *. rewrite Hb, Hn, Hc in Hx.
        apply elem_of_app in Hx as [Hx|Hx]; apply elem_of_sort_by in Hx; auto.
    - injection E3 as <- <-. unfold heard_as in *. by rewrite H2, He. }
  unfold heard_as in *. by destruct (_ && _).
Qed.

(** Running a tool moves nothing in the engine. *)
Lemma run_engine name args answer r :
  current (engine (fst (run name args answer r))) = current (engine r) /\
  entries (engine (fst (run name args answer r))) = entries (engine r) /\
  toolPhase (engine (fst (run name args answer r))) = toolPhase (engine r).
Proof.
  unfold run. destruct (String.eqb name _); [done|]. destruct (String.eqb name _); [done|]. destruct (String.eqb name _); [done|].
  destruct (Tools spec !! name) as [tool|]; [|done]. destruct (String.eqb (Kind tool) ToolKindSlot).
  - unfold recordSlot. by destruct (cleanSlotValue tool _).
  - by destruct (negb hasBackend).
Qed.

(** A tool the call was denied, or leads it was never offered. *)
Definition withheld (name : string) (r : Runtime) : Prop :=
  name ∈ denied r \/ (name = ToolRecordLead /\ isLeadOffered r = false).

Lemma withheld_refused name r : withheld name r -> IsToolAllowed r name = false.
Proof.
  intros [H|[-> H]]; unfold IsToolAllowed; [|by rewrite H].
  apply contains_true in H. rewrite H. by destruct (String.eqb name ToolRecordLead); [rewrite andb_false_r|].
Qed.

Lemma leads_not_by name leads : name <> ToolRecordLead -> Forall (fun a => asked_by a <> name) (map RecordLead leads).
Proof. intros Hn. induction leads; simpl; constructor; [|done]. simpl. congruence. Qed.

(** One operation asks nothing under a withheld tool's name. *)
Lemma withheld_step name o a b : withheld name a -> (name = ToolRecordLead -> name ∉ denied a -> match o with ROffer _ => False | _ => True end) ->
  exec_rop (Some a) o = Some b ->
  denied a ⊆ denied b /\ (isLeadOffered b = isLeadOffered a \/ exists x, o = ROffer x) /\
  exists new, asked b = asked a ++ new /\ Forall (fun x => asked_by x <> name) new.
Proof.
  intros Hw Hno H. assert (Hnil : exists new, asked a = asked a ++ new /\ Forall (fun x => asked_by x <> name) new).
  { exists []. split; [by rewrite app_nil_r|constructor]. }
  assert (Hleads : forall c c', beside c c' -> asked c = asked a -> denied c = denied a ->
    (name = ToolRecordLead -> IsToolAllowed c ToolRecordLead = false) ->
    exists new, asked c' = asked a ++ new /\ Forall (fun x => asked_by x <> name) new).
  { intros c c' [_ _ _ [leads El] Hc] Eask _ Hrec. destruct (decide (name = ToolRecordLead)) as [Hn|Hn].
    - destruct (Hc (Hrec Hn)) as [E _]. exists []. split; [by rewrite app_nil_r, E|constructor].
    - exists (map RecordLead leads). split; [by rewrite El, Eask|by apply leads_not_by]. }
  destruct o; simpl in H.
  - destruct (Dispatch _ _ _ _ a) as [[c out]|] eqn:E; [|done]. simpl in H. injection H as <-.
    apply dispatch_asks in E as (Ed & Eo & own & leads & Eask & Hown & Hact & Hrec). rewrite Ed. split_and!; [done|by left|].
    exists (own ++ map RecordLead leads). split; [done|]. apply Forall_app. split.
    + destruct own as [|x own]; [constructor|]. specialize (Hact ltac:(done)). apply Forall_forall. intros y Hy.
      rewrite Forall_forall in Hown. rewrite (Hown y Hy). intros ->. by rewrite (withheld_refused name a Hw) in Hact.
    + destruct (decide (name = ToolRecordLead)) as [->|Hn]; [|by apply leads_not_by].
      destruct (Hrec (withheld_refused _ _ Hw)) as [-> _]. constructor.
  - injection H as <-. unfold Deny. split_and!; [simpl; set_solver|by left|done].
  - injection H as <-. destruct (beside_offer answer a) as [Hb|Hb].
    + pose proof Hb as [_ Ed _ _ _]. rewrite Ed. split_and!; [done|right; by eexists|]. apply (Hleads _ _ Hb); [done..|].
      intros Hn. unfold IsToolAllowed. simpl. destruct (decide (name ∈ denied a)) as [Hin|Hin].
      * rewrite Hn in Hin. apply contains_true in Hin. by rewrite Hin.
      * by destruct (Hno Hn Hin).
    + rewrite Hb. split_and!; [done|by left|done].
  - unfold pass in H. destruct (FlowEngine.exec_op _ _ _ _ _ _ _) as [e|]; [|done]. simpl in H. injection H as <-.
    pose proof (beside_hear leadAnswer (set_engine e a)) as Hb. pose proof Hb as [_ Ed Eo _ _]. rewrite Ed, Eo.
    split_and!; [done|by left|]. apply (Hleads _ _ Hb); [done..|]. intros ->. unfold IsToolAllowed. simpl.
    by apply (withheld_refused ToolRecordLead a).
  - injection H as <-. split_and!; [done|by left|done].
Qed.

(** *** The theorems *)

(** a call under the runtime never leaves its flow. Whatever the model asks
    for, in whatever order with the silences, the speech and the guards, and
    whatever the actions, the backends and the application answer, no
    operation panics, the phase is a phase of the flow, and every phase
    entered has been heard by the time the operation ends. *)
Theorem runtime_stays_in_flow (base : gmap string Value) (ops : list ROp) (Ha : accepted spec = true)
    (Hid : has_ids spec) (Hsc : no_collections spec) (Ho : Forall allowed ops) :
  exists r, reaches (Some (NewRuntime (NewEngine ParseFloat FormatFloat Sprint spec language base))) ops = Some r /\ RGood r.
Proof.
  destruct (accepted_inv spec Ha) as [Hv _]. apply rreached_good; try done.
  - by apply validate_well_formed.
  - by apply accepted_sound.
Qed.

(** a refused tool does nothing. A tool the phase does not allow, or that the
    call may not use, asks for nothing outside, moves nothing, records nothing
    and is answered with [ok] zero and an explanation. *)
Theorem refused_tool_does_nothing (name : string) (args : gmap string Value) (answer leadAnswer : Answer) (r : Runtime)
    (Hn : IsToolAllowed r name = false) :
  exists out, Dispatch name args answer leadAnswer r = Some (r, (out, ""%string)) /\
    out !! "ok"%string = Some (VStr "0") /\ is_Some (out !! "error"%string).
Proof.
  unfold Dispatch. rewrite Hn. simpl. eexists. split; [done|]. unfold asToolOutput. simpl.
  destruct (String.eqb _ ""); simpl; rewrite ?(lookup_insert_ne _ "hint"%string) by done.
  - rewrite lookup_insert_ne, lookup_insert_eq by done. split; [reflexivity|by eexists].
  - rewrite lookup_insert_ne, lookup_insert_eq by done. split; [reflexivity|by eexists].
Qed.

(** C23: a withheld tool never acts. Once a tool is denied to a call, nothing is
    ever asked under its name again, whatever the flow's allowlists say and
    whatever the model does: a campaign call that was denied the transfer and
    the message places neither. The same holds of leads on a call they were
    never offered on, those that phases declare included. *)
Theorem withheld_tool_never_acts (name : string) (r r' : Runtime) (ops : list ROp)
    (Hd : name ∈ denied r \/ (name = ToolRecordLead /\ isLeadOffered r = false /\
            Forall (fun o => match o with ROffer _ => False | _ => True end) ops))
    (H : reaches (Some r) ops = Some r') :
  exists more, asked r' = asked r ++ more /\ Forall (fun a => asked_by a <> name) more.
Proof.
  pose (Q := fun x => name ∈ denied x \/ (name = ToolRecordLead /\ isLeadOffered x = false /\
               Forall (fun o => match o with ROffer _ => False | _ => True end) ops)).
  pose (P := fun x => Q x /\ exists more, asked x = asked r ++ more /\ Forall (fun a => asked_by a <> name) more).
  enough (Hp : P r') by (by destruct Hp). revert H.
  apply (rreaches_keeps P); [|split; [done|exists []; split; [by rewrite app_nil_r|constructor]]].
  intros o a b Hin [Hw (more & Hm & Hby)] Hs.
  assert (Hstep : Q b /\ exists new, asked b = asked a ++ new /\ Forall (fun x => asked_by x <> name) new);
    [|destruct Hstep as (Hq & new & E & Hf); split; [done|]; exists (more ++ new); rewrite E, Hm, app_assoc;
      split; [done|by apply Forall_app]].
  assert (Hw' : withheld name a) by (destruct Hw as [|(? & ? & _)]; [by left|by right]).
  destruct (withheld_step name o a b Hw') as (Hden & Hoff & Hnew); [|done|].
  { intros -> Hni. destruct Hw as [|(_ & _ & Hf)]; [done|]. rewrite Forall_forall in Hf. by apply Hf. }
  split; [|done]. destruct Hw as [Hin'|(Hn & Ho & Hf)]; [left; by apply Hden|right]. split_and!; [done| |done].
  destruct Hoff as [->|[x ->]]; [done|]. rewrite Forall_forall in Hf. by destruct (Hf _ Hin).
Qed.

(** a phase that declares a lead records it, and nothing else can overrule
    it. On a call that records leads, when a tool's result moves the call to a
    phase with a lead of its own, the application is asked for exactly that
    lead, after the tool's own action, in the words the slots give it at that
    moment; and while the call is in that phase a lead of the model's is
    refused and asks for nothing. *)
Theorem declared_lead_recorded (name node : string) (args out : gmap string Value) (answer : Answer) (result : Result)
    (r r' : Runtime) (declared : DeclaredLead) (Ha : accepted spec = true) (Hr : RGood r) (Hne : name <> ToolRecordLead)
    (Hl : IsToolAllowed r ToolRecordLead = true) (Hok : IsOK result = true)
    (H : Dispatch name args answer (Ok result) r = Some (r', (out, node))) (Hmoved : node <> ""%string)
    (Hd : Lead (current (engine r')) = Some declared) :
  (exists own cut lead, asked r' = asked r ++ own ++ [RecordLead lead] /\ Forall (fun a => asked_by a = name) own /\
     declaredLead (engine r') = Some (lead, cut) /\ LIntent lead = Intent declared /\
     lastLead r' = Intent declared) /\
  (forall args2 answer2, exists refusal, recordLead args2 answer2 r' = (r', refusal) /\ IsOK refusal = false).
Proof.
  destruct (accepted_inv spec Ha) as [Hv _]. apply validate_well_formed in Hv. destruct Hr as [Hg He].
  unfold Dispatch in H. destruct (IsToolAllowed r name); simpl in H; [|by injection H as <- _ <-].
  rewrite (proj2 (String.eqb_neq _ _) Hne) in H. destruct (run_asks name args answer r) as (Hden & Hoff & own & Hown & Hby).
  destruct (run_engine name args answer r) as (E1 & E2 & E3). destruct (run name args answer r) as [r1 answer1]. simpl in *.
  destruct (OnToolResult _ _ _ _ _ _ _ _ (engine r1)) as [[e n]|] eqn:Eres; [|done]. simpl in H. injection H as <- _ <-.
  apply result_hears in Eres.
  2: { intros x Hx. apply (wf_targets spec Hv). rewrite E3 in Hx. destruct Hx as [Hx|Hx]; [right|by left].
       destruct (toolPhase_known spec language (engine r) Hg) as [nid Hn]. by exists nid, (toolPhase (engine r)). }
  unfold heard_as in Eres. rewrite E2, He, (proj2 (String.eqb_neq _ _) Hmoved) in Eres. simpl in Eres.
  set (r2 := hear (Ok result) (set_engine e r1)) in *.
  assert (Heng : engine r2 = set_entries [] e) by apply (be_engine _ _ (beside_hear (Ok result) (set_engine e r1))).
  rewrite Heng in Hd. simpl in Hd.
  assert (Hlead : exists lead cut, declaredLead e = Some (lead, cut) /\ LIntent lead = Intent declared).
  { unfold FlowEngine.declaredLead. rewrite Hd. destruct (leadNotes _) as [notes cut]. by eexists _, _. }
  destruct Hlead as (lead & cut & Hlead & Hintent).
  assert (Hr2 : r2 = set_lead (LIntent lead) ("phase " +:+ id (current e)) (ask (RecordLead lead) (set_engine (set_entries [] e) (set_engine e r1)))).
  { subst r2. unfold hear. simpl. rewrite Eres. simpl. unfold recordDeclaredLead. rewrite Hlead.
    replace (IsToolAllowed (set_engine (set_entries [] e) (set_engine e r1)) ToolRecordLead) with true; [by rewrite Hok|].
    unfold IsToolAllowed in *. simpl in *. by rewrite Hden, Hoff. }
  split.
  - exists own, cut, lead. rewrite Hr2. simpl. rewrite Hown, app_assoc. by split_and!.
  - intros args2 answer2. unfold recordLead.
    assert (Hset : IsLeadSetByPhase r2 = true).
    { unfold IsLeadSetByPhase. rewrite Heng. simpl. rewrite Hd, andb_true_r. rewrite Hr2. simpl. rewrite Hoff.
      unfold IsToolAllowed in Hl. simpl in Hl. by b2p. }
    rewrite Hset. by eexists.
Qed.

End runtime.

(** *** Examples *)

Notation demo_runtime := (NewRuntime (NewEngine parse_digit no_format no_sprint demo "en-GB" ∅)).
Notation demo_calls := (reaches (H := runtime_machine parse_digit no_format no_sprint demo "en-GB" true)).
Definition found_it : Answer := Ok (mkResult true {["status"%string := VStr "sent"]} ∅ "" "").
Definition stored : Answer := Ok (mkResult true ∅ ∅ "" "").
Definition ask_order : ROp := RDispatch "lookup" {["number"%string := VStr "42"]} found_it stored.

Lemma runtime_stays_in_flow_witness :
  exists r, demo_calls (Some demo_runtime) [ROffer stored; ask_order; REvent TimeLimit stored; RPin] = Some r /\
    RGood demo "en-GB" r /\ lastLead r = "LOW"%string.
Proof.
  destruct (runtime_stays_in_flow parse_digit no_format no_sprint demo "en-GB" true ∅
    [ROffer stored; ask_order; REvent TimeLimit stored; RPin] demo_accepted demo_ids demo_scalar) as (r & E & G).
  { repeat constructor. }
  exists r. split; [exact E|]. split; [exact G|]. vm_compute in E. injection E as <-. reflexivity.
Defined.

Lemma refused_tool_does_nothing_witness :
  exists out, Dispatch parse_digit no_format no_sprint demo "en-GB" true "take_message" ∅ stored stored demo_runtime =
    Some (demo_runtime, (out, ""%string)) /\ out !! "ok"%string = Some (VStr "0").
Proof.
  destruct (refused_tool_does_nothing parse_digit no_format no_sprint demo "en-GB" true "take_message" ∅ stored stored demo_runtime)
    as (out & H & O & _); [reflexivity|]. exists out. split; [exact H|exact O].
Defined.

Lemma withheld_tool_never_acts_witness :
  exists r, demo_calls (Some (Deny ["hangup"]%string demo_runtime)) [RDispatch "hangup" ∅ stored stored; ask_order] = Some r /\
    exists more, asked r = [] ++ more /\ Forall (fun a => asked_by a <> "hangup"%string) more.
Proof.
  destruct (demo_calls (Some (Deny ["hangup"]%string demo_runtime)) [RDispatch "hangup" ∅ stored stored; ask_order]) as [r|] eqn:E;
    [|vm_compute in E; discriminate E].
  exists r. split; [reflexivity|].
  apply (withheld_tool_never_acts parse_digit no_format no_sprint demo "en-GB" true "hangup"
    (Deny ["hangup"]%string demo_runtime) r [RDispatch "hangup" ∅ stored stored; ask_order]); [left; left|exact E].
Defined.

(** The demonstration flow with a rule that closes the call on an order not
    found. *)
Definition to_bye : Transition := mkTransition EventTypeToolResult "lookup" None "bye" 5.
Definition greet2 : Node := mkNode "greet" (say "Greet.") (say "") ["lookup"]%string [to_bye] false None.
Definition demo2 : Spec :=
  mkSpec "demo" "v2" "greet" demo_global (<["greet"%string := greet2]> (<["help"%string := help]> (<["bye"%string := bye]> ∅))) (Tools demo).
Definition campaign : Runtime := set_offered true (NewRuntime (NewEngine parse_digit no_format no_sprint demo2 "en-GB" ∅)).

Lemma declared_lead_recorded_witness :
  exists r out, Dispatch parse_digit no_format no_sprint demo2 "en-GB" true "lookup" {["number"%string := VStr "42"]} found_it stored campaign =
    Some (r, (out, "bye"%string)) /\ lastLead r = "LOW"%string /\
    forall args answer, exists refusal, recordLead no_format no_sprint args answer r = (r, refusal) /\ IsOK refusal = false.
Proof.
  destruct (Dispatch parse_digit no_format no_sprint demo2 "en-GB" true "lookup" {["number"%string := VStr "42"]} found_it stored campaign)
    as [[r [out node]]|] eqn:E; [|vm_compute in E; discriminate E].
  assert (Hn : node = "bye"%string) by (vm_compute in E; by injection E).
  assert (Hc : current (engine r) = bye) by (vm_compute in E; by injection E as <-).
  subst node. exists r, out. split; [reflexivity|].
  destruct (declared_lead_recorded parse_digit no_format no_sprint demo2 "en-GB" true "lookup" "bye" {["number"%string := VStr "42"]} out
    found_it (mkResult true ∅ ∅ "" "") campaign r (mkLead "LOW" (say "{slots.orders}"))) as [(own & cut & lead & _ & _ & _ & _ & L) R].
  - vm_compute. reflexivity.
  - split; [|reflexivity]. constructor; try (by left); try reflexivity; try discriminate.
  - discriminate.
  - reflexivity.
  - reflexivity.
  - exact E.
  - discriminate.
  - rewrite Hc. reflexivity.
  - split; [exact L|exact R].
Defined.

End FlowRuntime.
