(* ===== verification/CampaignData.v ===== *)
(** * The records of a campaign: [internal/campaign], types, attempts, dialer's view

    What the campaign service, the attempt store and the dialer exchange. A
    nullable column and a Go pointer are an [option]; the empty text that a
    nullable text column reads as is the empty text. Display-only fields
    ([CreatedAt], [UpdatedAt], the contact counts of a listing) are left out. *)

From S2P Require Import Prelude DayRange Calendar CampaignTypes CallWindow Schedule CampaignPolicy.
Import DayRange Calendar CampaignTypes Window Schedule CampaignPolicy.

Module CampaignData.

#[export] Instance Backoff_eq_dec : EqDecision Backoff.
Proof. solve_decision. Defined.

(** [internal/campaign/types.go:Campaign] *)
Record Campaign := mkCampaign {
  cID : uuid;
  cName : string;
  cDIDID : uuid;
  cDIDNumber : string;
  cStatus : Status;
  cPauseReason : option PauseReason;
  cTimeZone : string;
  cWindow : CallingWindow;
  cDefaultCountryCode : string;
  cMaxConcurrent : Z;
  cRingTimeoutSec : Z;
  cRetryPolicy : RetryPolicy;
  cFollowUpQueueID : option uuid;
  cStartedAt : option instant
}.

(** [internal/campaign/types.go:Contact] *)
Record Contact := mkContact {
  ctID : uuid;
  ctCampaignID : uuid;
  ctNumber : string;
  ctNumberRaw : string;
  ctTimeZone : string;
  ctSlots : gmap string string;
  ctStatus : ContactStatus;
  ctAttempts : Z;
  ctSystemFailures : Z;
  ctNextAttemptAt : option instant;
  ctLastOutcome : option Outcome;
  ctLeadIntent : LeadIntent;
  ctLeadNotes : string;
  ctLastAttemptID : option uuid;
  ctLastCallID : option uuid
}.

#[export] Instance Contact_eq_dec : EqDecision Contact.
Proof. solve_decision. Defined.

(** [internal/campaign/attempt.go:AttemptState] *)
Inductive AttemptState := AttemptDialing | AttemptFinished.

#[export] Instance AttemptState_eq_dec : EqDecision AttemptState.
Proof. solve_decision. Defined.

(** [internal/campaign/attempt.go:Attempt] *)
Record Attempt := mkAttempt {
  aID : uuid;
  aCampaignID : uuid;
  aContactID : uuid;
  aNumber : string;
  aCallID : uuid;
  aLegID : uuid;
  aOriginateJobID : string;
  aState : AttemptState;
  aOutcome : option Outcome;
  aHangupCause : string;
  aTalkSec : Z;
  aIsTouched : bool;
  aLeadIntent : LeadIntent;
  aLeadNotes : string;
  aStartedAt : instant;
  aFinishedAt : option instant
}.

#[export] Instance Attempt_eq_dec : EqDecision Attempt.
Proof. solve_decision. Defined.

(** [internal/campaign/attempt.go:Ending] *)
Record Ending := mkEnding {
  eOutcome : Outcome;
  eHangupCause : string;
  eTalkSec : Z;
  eEndedAt : instant
}.

(** [internal/campaign/attempt.go:Finished] *)
Record Finished := mkFinished {
  fCampaignID : uuid;
  fContactID : uuid;
  fAttemptID : uuid;
  fCallID : uuid;
  fOutcome : Outcome;
  fIsRevision : bool;
  fContactStatus : ContactStatus;
  fNextAttemptAt : option instant;
  fSettleReason : option SettleReason
}.

(** [internal/campaign/dialer.go:Activity] *)
Inductive Activity := ActivityDialing | ActivityWaitingWindow | ActivityWaitingRetry | ActivityAtCapacity.

#[export] Instance Activity_eq_dec : EqDecision Activity.
Proof. solve_decision. Defined.

(** [internal/campaign/dialer.go:Progress] [None] is the empty activity. *)
Record Progress := mkProgress {
  pActivity : option Activity;
  pNextDialAt : option instant;
  pInFlight : Z
}.

#[export] Instance Progress_eq_dec : EqDecision Progress.
Proof. solve_decision. Defined.

(** [internal/campaign/dialer.go:Held] *)
Record Held := mkHeld { hContactID : uuid; hTimeZone : string; hLastTouch : instant }.

(** [internal/campaign/dialer.go:Pending] *)
Record Pending := mkPending {
  pdActiveTotal : Z;
  pdDueNow : Z;
  pdNextFuture : option instant;
  pdAllTotal : Z
}.

(** [internal/campaign/dialer.go:DialingAttempt] *)
Record DialingAttempt := mkDialingAttempt { daAttempt : Attempt; daRingTimeoutSec : Z }.

(** [internal/campaign/attempt.go:var(ErrNoAttempt)] What the attempt store's
    operations refuse, by sentinel; [ErrStore] is any other failure. *)
Inductive StoreError :=
| ErrNumberInFlight | ErrContactNotDialable | ErrNoAttempt | ErrStore (what : string).

#[export] Instance StoreError_eq_dec : EqDecision StoreError.
Proof. solve_decision. Defined.

(** ** Updates of single fields *)

Definition set_status (s : Status) (r : option PauseReason) (c : Campaign) : Campaign :=
  mkCampaign (cID c) (cName c) (cDIDID c) (cDIDNumber c) s r (cTimeZone c) (cWindow c)
    (cDefaultCountryCode c) (cMaxConcurrent c) (cRingTimeoutSec c) (cRetryPolicy c) (cFollowUpQueueID c)
    (cStartedAt c).

Definition set_started (at_ : instant) (c : Campaign) : Campaign :=
  mkCampaign (cID c) (cName c) (cDIDID c) (cDIDNumber c) (cStatus c) (cPauseReason c) (cTimeZone c) (cWindow c)
    (cDefaultCountryCode c) (cMaxConcurrent c) (cRingTimeoutSec c) (cRetryPolicy c) (cFollowUpQueueID c)
    (Some at_).

Definition set_next (next : option instant) (c : Contact) : Contact :=
  mkContact (ctID c) (ctCampaignID c) (ctNumber c) (ctNumberRaw c) (ctTimeZone c) (ctSlots c) (ctStatus c) (ctAttempts c)
    (ctSystemFailures c) next (ctLastOutcome c) (ctLeadIntent c) (ctLeadNotes c)
    (ctLastAttemptID c) (ctLastCallID c).

Definition set_counters (n sys : Z) (c : Contact) : Contact :=
  mkContact (ctID c) (ctCampaignID c) (ctNumber c) (ctNumberRaw c) (ctTimeZone c) (ctSlots c) (ctStatus c) n
    sys (ctNextAttemptAt c) (ctLastOutcome c) (ctLeadIntent c) (ctLeadNotes c)
    (ctLastAttemptID c) (ctLastCallID c).

Definition set_contact_status (s : ContactStatus) (next : option instant) (c : Contact) : Contact :=
  mkContact (ctID c) (ctCampaignID c) (ctNumber c) (ctNumberRaw c) (ctTimeZone c) (ctSlots c) s (ctAttempts c)
    (ctSystemFailures c) next (ctLastOutcome c) (ctLeadIntent c) (ctLeadNotes c)
    (ctLastAttemptID c) (ctLastCallID c).

End CampaignData.
