(* ===== verification/CampaignStore.v ===== *)
(** * The campaign tables: [internal/store/campaignattempts.go], [dialerstore.go], [campaignstore.go]

    The rows a campaign lives in and every statement that changes them, with
    the SQL of [internal/store/queries] read as functions on the tables. A
    transaction ([txFor]) is all or nothing; [READ COMMITTED] rows locked by
    [FOR UPDATE] make the stretches between two commits atomic, so a
    transaction is one step. Attempts are keyed by their call id, on which the
    table has a unique index. [CampaignLedger] proves what holds of the tables
    after any interleaving of these operations. *)

From S2P Require Import Prelude DayRange Calendar CampaignTypes CallWindow Schedule CampaignPolicy CampaignData.
Import DayRange Calendar CampaignTypes Window Schedule CampaignPolicy CampaignData.

Module CampaignStore.

(** [internal/store/ledgerstore.go:CDR] What the finish routine reads of a
    ledger row: the kinds of the legs, [UserData["botReason"]] when it is a
    text, and [Tech["isPlacementFailure"]] when it is a bool. *)
Record CDR := mkCDR {
  cdrCallID : uuid;
  cdrAnsweredAt : instant;
  cdrEndedAt : instant;
  cdrStatus : string;
  cdrHangupCause : string;
  cdrBotSec : Z;
  cdrTalkSec : Z;
  cdrLegs : list string;
  cdrBotReason : string;
  cdrIsPlacementFailure : bool
}.

(** [internal/store/models.go] The tables, and the last identifier
    [uuid.NewV7] made: it makes them in increasing order. *)
Record DB := mkDB {
  campaigns : gmap uuid Campaign;
  contacts : gmap uuid Contact;
  attempts : gmap uuid Attempt;
  dnc : gset string;
  callbacks : gset uuid;
  cdrs : gmap uuid CDR;
  lastID : N
}.

Definition with_campaigns (f : gmap uuid Campaign -> gmap uuid Campaign) (d : DB) : DB :=
  mkDB (f (campaigns d)) (contacts d) (attempts d) (dnc d) (callbacks d) (cdrs d) (lastID d).

Definition with_contacts (f : gmap uuid Contact -> gmap uuid Contact) (d : DB) : DB :=
  mkDB (campaigns d) (f (contacts d)) (attempts d) (dnc d) (callbacks d) (cdrs d) (lastID d).

Definition with_attempts (f : gmap uuid Attempt -> gmap uuid Attempt) (d : DB) : DB :=
  mkDB (campaigns d) (contacts d) (f (attempts d)) (dnc d) (callbacks d) (cdrs d) (lastID d).

Definition with_dnc (f : gset string -> gset string) (d : DB) : DB :=
  mkDB (campaigns d) (contacts d) (attempts d) (f (dnc d)) (callbacks d) (cdrs d) (lastID d).

Definition with_callbacks (f : gset uuid -> gset uuid) (d : DB) : DB :=
  mkDB (campaigns d) (contacts d) (attempts d) (dnc d) (f (callbacks d)) (cdrs d) (lastID d).

Definition with_cdrs (f : gmap uuid CDR -> gmap uuid CDR) (d : DB) : DB :=
  mkDB (campaigns d) (contacts d) (attempts d) (dnc d) (callbacks d) (f (cdrs d)) (lastID d).

(** [uuid.NewV7()]. *)
Definition NewV7 (d : DB) : uuid * DB :=
  (lastID d + 1, mkDB (campaigns d) (contacts d) (attempts d) (dnc d) (callbacks d) (cdrs d) (lastID d + 1))%N.

(** [UPDATE ... SET ... WHERE cond]: every row that satisfies [cond] is
    changed; the count is the rows affected. *)
Definition update_where {A} (cond : A -> bool) (f : A -> A) (m : gmap uuid A) : gmap uuid A :=
  (fun x => if cond x then f x else x) <$> m.

(** [UPDATE ... SET ... WHERE key = k AND cond]. *)
Definition update_row {A} (k : uuid) (cond : A -> bool) (f : A -> A) (m : gmap uuid A) : gmap uuid A :=
  alter (fun x => if cond x then f x else x) k m.

(** The rows [update_row] affects. *)
Definition row_affected {A} (k : uuid) (cond : A -> bool) (m : gmap uuid A) : Z :=
  match m !! k with Some x => Z.b2z (cond x) | None => 0 end.

(** A transaction's outcome: the tables it leaves and what it returns. *)
Definition tx (A : Type) := (DB * res StoreError A)%type.

(** [internal/store/webhookstore.go:txFor] An error rolls everything back. *)
Definition txFor {A} (fn : DB -> res StoreError (A * DB)) (d : DB) : tx A :=
  match fn d with
  | Ok (a, d') => (d', Ok a)
  | Err e => (d, Err e)
  end.

(** [SELECT ... ORDER BY t, id] over rows with those keys. *)
Definition order_by {A} (time : A -> Z) (id : A -> uuid) (l : list A) : list A :=
  sort_by time (sort_by (fun x => Z.of_N (id x)) l).

Definition rows {A} (m : gmap uuid A) : list A := (map_to_list m).*2.

Definition limited {A} (limit : Z) (l : list A) : list A := take (Z.to_nat limit) l.

Definition dialing (a : Attempt) : bool := bool_decide (aState a = AttemptDialing).
Definition active (c : Contact) : bool := bool_decide (ctStatus c = ContactActive).
Definition waits (c : Contact) : bool := bool_decide (is_Some (ctNextAttemptAt c)).
Definition due_at (now : instant) (c : Contact) : bool :=
  match ctNextAttemptAt c with Some t => t <=? now | None => false end.

(** [EXISTS (SELECT 1 FROM campaign_attempts a WHERE a.number_e164 = n AND
    a.state = 'DIALING')]. *)
Definition number_dialing (n : string) (d : DB) : bool :=
  bool_decide (map_Exists (fun _ a => dialing a = true /\ aNumber a = n) (attempts d)).

(** [EXISTS (SELECT 1 FROM dnc_numbers ...)]. *)
Definition on_dnc (n : string) (d : DB) : bool := bool_decide (n ∈ dnc d).

(** ** The attempt's statements *)

(** [internal/store/queries/campaign_attempts.sql.go:sql(ClaimContactForDial)] *)
Definition ClaimContactForDial (id : uuid) (d : DB) : option (uuid * string * DB) :=
  ct ← contacts d !! id;
  if active ct then Some (ctCampaignID ct, ctNumber ct, with_contacts <[id := set_next None ct]> d)
  else None.

(** [internal/store/queries/campaign_attempts.sql.go:sql(InsertCampaignAttempt)]
    [None] is the violation of the partial unique index on the number. *)
Definition InsertCampaignAttempt (a : Attempt) (d : DB) : option DB :=
  if number_dialing (aNumber a) d then None else Some (with_attempts <[aCallID a := a]> d).

(** [internal/store/queries/campaign_attempts.sql.go:sql(SetAttemptJob)] *)
Definition SetAttemptJob (callID : uuid) (job : string) (d : DB) : DB :=
  with_attempts (update_row callID dialing
    (fun a => mkAttempt (aID a) (aCampaignID a) (aContactID a) (aNumber a) (aCallID a) (aLegID a) job
       (aState a) (aOutcome a) (aHangupCause a) (aTalkSec a) (aIsTouched a) (aLeadIntent a) (aLeadNotes a)
       (aStartedAt a) (aFinishedAt a))) d.

(** [internal/store/queries/campaign_attempts.sql.go:sql(SetAttemptLead)] *)
Definition SetAttemptLead (callID : uuid) (intent : LeadIntent) (notes : string) (d : DB) : Z * DB :=
  (row_affected callID dialing (attempts d),
   with_attempts (update_row callID dialing
    (fun a => mkAttempt (aID a) (aCampaignID a) (aContactID a) (aNumber a) (aCallID a) (aLegID a)
       (aOriginateJobID a) (aState a) (aOutcome a) (aHangupCause a) (aTalkSec a) (aIsTouched a) intent notes
       (aStartedAt a) (aFinishedAt a))) d).

(** [internal/store/queries/campaign_attempts.sql.go:sql(LockAttemptByCall)] *)
Definition LockAttemptByCall (callID : uuid) (d : DB) : option Attempt := attempts d !! callID.

(** [later.started_at, later.id) > (this.started_at, this.id)]. *)
Definition later_than (later this : Attempt) : bool :=
  (aStartedAt this <? aStartedAt later)
  || ((aStartedAt this =? aStartedAt later) && (aID this <? aID later)%N).

(** [internal/store/queries/campaign_attempts.sql.go:sql(AttemptIsLatest)] *)
Definition AttemptIsLatest (this : Attempt) (d : DB) : bool :=
  bool_decide (map_Forall (fun _ later => aContactID later = aContactID this -> later_than later this = false)
                 (attempts d)).

(** The row a finish leaves. *)
Definition finished_row (e : Ending) (endedAt : instant) (a : Attempt) : Attempt :=
  mkAttempt (aID a) (aCampaignID a) (aContactID a) (aNumber a) (aCallID a) (aLegID a) (aOriginateJobID a)
    AttemptFinished (Some (eOutcome e)) (eHangupCause e) (wrapS 32 (eTalkSec e)) (IsTouched (eOutcome e))
    (aLeadIntent a) (aLeadNotes a) (aStartedAt a) (Some endedAt).

(** [internal/store/queries/campaign_attempts.sql.go:sql(FinishCampaignAttempt)]
    By the row's identifier: the row the transaction locked. *)
Definition FinishCampaignAttempt (row : Attempt) (e : Ending) (endedAt : instant) (d : DB) : DB :=
  with_attempts (alter (finished_row e endedAt) (aCallID row)) d.

(** [internal/store/queries/campaign_attempts.sql.go:sql(SettleCampaignContact)] *)
Definition SettleCampaignContact (id : uuid) (c : Counters) (s : ContactStatus) (next : option instant)
    (o : Outcome) (attempt call : uuid) (lead : LeadIntent) (notes : string) (d : DB) : DB :=
  with_contacts (alter (fun ct =>
    let none := bool_decide (lead = LeadAbsent) in
    mkContact (ctID ct) (ctCampaignID ct) (ctNumber ct) (ctNumberRaw ct) (ctTimeZone ct) (ctSlots ct) s
      (wrapS 32 (Attempts c)) (wrapS 32 (SystemFailures c)) next (Some o)
      (if none then ctLeadIntent ct else lead) (if none then ctLeadNotes ct else notes)
      (Some attempt) (Some call)) id) d.

(** [internal/store/queries/campaign_attempts.sql.go:sql(AdjustCampaignContactCounters)] *)
Definition AdjustCampaignContactCounters (id : uuid) (c : Counters) (d : DB) : DB :=
  with_contacts (alter (set_counters (wrapS 32 (Attempts c)) (wrapS 32 (SystemFailures c))) id) d.

(** [internal/store/queries/campaign_attempts.sql.go:sql(InsertCallbackForCall)] *)
Definition InsertCallbackForCall (callID : uuid) (d : DB) : DB := with_callbacks (union {[callID]}) d.

(** [internal/store/queries/dnc.sql.go:sql(InsertDNCNumber)] *)
Definition InsertDNCNumber (n : string) (d : DB) : DB := with_dnc (union {[n]}) d.

(** [internal/store/queries/campaign_attempts.sql.go:sql(DeleteDialingAttempt)] *)
Definition DeleteDialingAttempt (callID : uuid) (d : DB) : option (uuid * DB) :=
  a ← attempts d !! callID;
  if dialing a then Some (aContactID a, with_attempts (delete callID) d) else None.

(** [internal/store/queries/campaign_attempts.sql.go:sql(MakeContactDue)] *)
Definition MakeContactDue (id : uuid) (next : instant) (d : DB) : DB :=
  with_contacts (update_row id (fun c => active c && negb (waits c)) (set_next (Some next))) d.

(** ** The attempt store *)

(** [internal/store/campaignattempts.go:AttemptStore.Begin] *)
Definition Begin (contactID : uuid) (now : instant) : DB -> tx Attempt :=
  txFor (fun d =>
    match ClaimContactForDial contactID d with
    | None => Err ErrContactNotDialable
    | Some (campaignID, number, d) =>
        let '(id, d) := NewV7 d in
        let '(callID, d) := NewV7 d in
        let '(legID, d) := NewV7 d in
        let row := mkAttempt id campaignID contactID number callID legID "" AttemptDialing None "" 0 false
                     LeadAbsent "" now None in
        match InsertCampaignAttempt row d with
        | None => Err ErrNumberInFlight
        | Some d => Ok (row, d)
        end
    end).

(** [internal/store/campaignattempts.go:AttemptStore.SetJob] *)
Definition SetJob (callID : uuid) (jobID : string) (d : DB) : DB := SetAttemptJob callID jobID d.

(** [internal/campaign/types.go:LeadIntent.IsValid] *)
Definition LeadIntent_IsValid (l : LeadIntent) : bool :=
  match l with LeadHigh | LeadMedium | LeadLow | LeadNone | LeadDoNotCall => true | _ => false end.

(** [internal/store/campaignattempts.go:AttemptStore.SetLead] *)
Definition SetLead (callID : uuid) (intent : LeadIntent) (notes : string) (d : DB) : tx bool :=
  if negb (LeadIntent_IsValid intent) then (d, Err (ErrStore "not a lead intent"))
  else let '(n, d) := SetAttemptLead callID intent notes d in (d, Ok (0 <? n)).

(** [internal/store/campaignattempts.go:leadSideEffects] The identifier of the
    callback is made before the statement that may not need it. *)
Definition leadSideEffects (att : Attempt) (lead : LeadIntent) (d : DB) : DB :=
  match lead with
  | LeadDoNotCall => InsertDNCNumber (aNumber att) d
  | LeadHigh => InsertCallbackForCall (aCallID att) (NewV7 d).2
  | _ => d
  end.

(** [internal/store/campaignattempts.go:endingFromCDR] *)
Definition endingFromCDR (c : CDR) : Ending :=
  let hasBot := (0 <? cdrBotSec c) || existsb (String.eqb "BOT") (cdrLegs c) in
  let e := mkCallEnd (cdrHangupCause c)
             (negb (is_zero (cdrAnsweredAt c)) || String.eqb (cdrStatus c) "ANSWERED")
             (String.eqb (cdrStatus c) "FAILED") hasBot (cdrBotReason c) (cdrIsPlacementFailure c) in
  mkEnding (Classify e) (cdrHangupCause c) (cdrBotSec c + cdrTalkSec c) (cdrEndedAt c).

Section finish.

(** The zone database, the deployment's outer hours and the finisher's clock. *)
Context (tzdb : string -> option Location) (outer : Range) (clock : instant).

(** [campaign.Schedule{}]: no window, and so no wait for one. *)
Definition no_schedule : Schedule := mkSchedule None (mkWindow [] []) (mkRange 0 0).

(** [internal/store/campaignattempts.go:L308-L319] The contact's fate after its latest attempt. *)
Definition settled (cam : Campaign) (contact : Contact) (c : Counters) (o : Outcome) (lead : LeadIntent)
    (endedAt : instant) : Settlement :=
  let sched := match NewSchedule tzdb (cTimeZone cam) (ctTimeZone contact) (cWindow cam) outer with
               | Ok s => s
               | Err _ => no_schedule
               end in
  if decide (ctStatus contact = ContactDoNotCall)
  then mkSettlement ContactDoNotCall SettleContactOnDNC None
  else Settle (cRetryPolicy cam) c o lead endedAt sched.

(** [internal/store/campaignattempts.go:L272-L276] What the attempt has cost, handed back and charged anew. *)
Definition recount (contact : Contact) (att : Attempt) (o : Outcome) : Counters :=
  let c := mkCounters (ctAttempts contact) (ctSystemFailures contact) in
  let c := match aState att, aOutcome att with AttemptFinished, Some o => Remove c o | _, _ => c end in
  Add c o.

(** [internal/store/campaignattempts.go:attemptFinisher.apply] *)
Definition apply (att : Attempt) (e : Ending) (d : DB) : res StoreError (option Finished * DB) :=
  if negb (Outcome_IsValid (eOutcome e)) then Err (ErrStore "not an outcome")
  else
    let isRevision := bool_decide (aState att = AttemptFinished) in
    if isRevision && bool_decide (aOutcome att = Some (eOutcome e))
       && String.eqb (aHangupCause att) (eHangupCause e) && (aTalkSec att =? eTalkSec e)
    then Ok (None, d)
    else
      let endedAt := if is_zero (eEndedAt e) then clock else eEndedAt e in
      match contacts d !! aContactID att, campaigns d !! aCampaignID att with
      | None, _ => Err (ErrStore "lock contact")
      | _, None => Err (ErrStore "get campaign")
      | Some contact, Some cam =>
          let counters := recount contact att (eOutcome e) in
          let d := FinishCampaignAttempt att e endedAt d in
          let lead := aLeadIntent att in
          let d := leadSideEffects att lead d in
          let done st next reason :=
            Some (mkFinished (aCampaignID att) (aContactID att) (aID att) (aCallID att) (eOutcome e)
                    isRevision st next reason) in
          if negb (AttemptIsLatest att d)
          then Ok (done (ctStatus contact) (ctNextAttemptAt contact) None,
                   AdjustCampaignContactCounters (ctID contact) counters d)
          else
            let s := settled cam contact counters (eOutcome e) lead endedAt in
            Ok (done (SStatus s) (NextAttemptAt s) (Some (Reason s)),
                SettleCampaignContact (ctID contact) counters (SStatus s) (NextAttemptAt s) (eOutcome e)
                  (aID att) (aCallID att) lead (aLeadNotes att) d)
      end.

(** [internal/store/campaignattempts.go:AttemptStore.Finish] *)
Definition Finish (callID : uuid) (e : Ending) : DB -> tx (option Finished) :=
  txFor (fun d =>
    match LockAttemptByCall callID d with
    | None => Err ErrNoAttempt
    | Some att => if negb (dialing att) then Ok (None, d) else apply att e d
    end).

(** [internal/store/campaignattempts.go:AttemptStore.Void] *)
Definition Void (callID : uuid) (now : instant) : DB -> tx unit :=
  txFor (fun d =>
    match DeleteDialingAttempt callID d with
    | None => Err ErrNoAttempt
    | Some (contactID, d) => Ok (tt, MakeContactDue contactID now d)
    end).

(** [internal/store/campaignattempts.go:attemptFinisher.fromCDR] *)
Definition fromCDR (cdr : CDR) (d : DB) : res StoreError (option Finished * DB) :=
  match LockAttemptByCall (cdrCallID cdr) d with
  | None => Ok (None, d)
  | Some att => apply att (endingFromCDR cdr) d
  end.

(** [internal/store/queries/ledger.sql.go:L411-L420] Which row of one
    call replaces which: the [WHERE] of the upsert. *)
Definition cdr_replaces (new old : CDR) : bool :=
  if cdrIsPlacementFailure new then false
  else if cdrIsPlacementFailure old then true
  else cdrEndedAt old <? cdrEndedAt new.

(** [internal/store/ledgerstore.go:L251-L275] The row and the
    attempt's outcome, in one transaction; callbacks and deliveries are not
    modelled. *)
Definition InsertCDR (cdr : CDR) : DB -> tx (option Finished) :=
  txFor (fun d =>
    let written := match cdrs d !! cdrCallID cdr with Some old => cdr_replaces cdr old | None => true end in
    if negb written then Ok (None, d)
    else fromCDR cdr (with_cdrs <[cdrCallID cdr := cdr]> d)).

(** [internal/store/dialerstore.go:AttemptStore.FinishFromLedger] *)
Definition FinishFromLedger (callID : uuid) : DB -> tx (bool * option Finished) :=
  txFor (fun d =>
    match LockAttemptByCall callID d with
    | None => Err ErrNoAttempt
    | Some att =>
        match cdrs d !! callID with
        | None => Ok (false, None, d)
        | Some row =>
            if negb (dialing att) then Ok (true, None, d)
            else match apply att (endingFromCDR row) d with
                 | Ok (done, d) => Ok (true, done, d)
                 | Err e => Err e
                 end
        end
    end).

End finish.

(** ** The dialer's statements *)

(** [internal/store/queries/dialer.sql.go:sql(ListRunningCampaigns)] Oldest start first. *)
Definition RunningCampaigns (d : DB) : list Campaign :=
  order_by (fun c => default 0 (cStartedAt c)) cID (filter (fun c => cStatus c = StatusRunning) (rows (campaigns d))).

(** Another campaign's calls that reached the number within the window. *)
Definition recent_touches (c : Contact) (now : instant) (frequency : duration) (d : DB) : list instant :=
  map aStartedAt (filter (fun a => aNumber a = ctNumber c /\ aCampaignID a <> ctCampaignID c /\
    aIsTouched a = true /\ now - frequency < aStartedAt a) (rows (attempts d))).

(** What [Due] and [HeldByFrequency] share: ACTIVE, due, not on the
    do-not-call list, and nobody dialling the number. *)
Definition dialable (campaignID : uuid) (now : instant) (d : DB) (c : Contact) : bool :=
  N.eqb (ctCampaignID c) campaignID && active c && due_at now c
  && negb (on_dnc (ctNumber c) d) && negb (number_dialing (ctNumber c) d).

Definition next_or_zero (c : Contact) : Z := default 0 (ctNextAttemptAt c).

(** [internal/store/queries/dialer.sql.go:sql(DueCampaignContacts)] *)
Definition Due (campaignID : uuid) (now : instant) (frequency : duration) (limit : Z) (d : DB) : list Contact :=
  limited limit (order_by next_or_zero ctID
    (filter (fun c => dialable campaignID now d c && bool_decide (recent_touches c now frequency d = []) = true)
       (rows (contacts d)))).

(** [internal/store/queries/dialer.sql.go:sql(HeldByFrequency)] With the time of the latest touch. *)
Definition HeldByFrequency (campaignID : uuid) (now : instant) (frequency : duration) (limit : Z) (d : DB)
    : list Held :=
  limited limit (omap (fun c =>
      match recent_touches c now frequency d with
      | [] => None
      | t :: ts => Some (mkHeld (ctID c) (ctTimeZone c) (fold_left Z.max ts t))
      end)
    (order_by next_or_zero ctID (filter (fun c => dialable campaignID now d c = true) (rows (contacts d))))).

(** [internal/store/queries/dialer.sql.go:sql(DeferContacts)] For one contact and its time. *)
Definition defer_one (d : DB) (id : uuid) (at_ : instant) : DB :=
  with_contacts (update_row id
    (fun c => active c && match ctNextAttemptAt c with Some t => t <? at_ | None => false end)
    (set_next (Some at_))) d.

(** [internal/store/dialerstore.go:DialerStore.Defer] The identifiers of one call are distinct. *)
Definition Defer (ids : list uuid) (ats : list instant) (d : DB) : DB :=
  fold_left (fun d x => defer_one d x.1 x.2) (zip ids ats) d.

(** [internal/store/queries/dialer.sql.go:sql(RearmUntriedContacts)] *)
Definition RearmUntried (campaignID : uuid) (now : instant) (d : DB) : DB :=
  with_contacts (update_where
    (fun c => N.eqb (ctCampaignID c) campaignID && active c && bool_decide (ctLastOutcome c = None)
              && match ctNextAttemptAt c with Some t => now <? t | None => false end)
    (set_next (Some now))) d.

(** [internal/store/queries/dialer.sql.go:sql(CampaignPending)] *)
Definition CampaignPending (campaignID : uuid) (now : instant) (d : DB) : Pending :=
  let mine c := N.eqb (ctCampaignID c) campaignID in
  let future := omap (fun c => match ctNextAttemptAt c with
                               | Some t => if mine c && active c && (now <? t) then Some t else None
                               | None => None
                               end) (rows (contacts d)) in
  mkPending (map_count (fun c => mine c && active c) (contacts d))
    (map_count (fun c => mine c && active c && due_at now c) (contacts d))
    (match future with [] => None | t :: ts => Some (fold_left Z.min ts t) end)
    (map_count mine (contacts d)).

(** [internal/store/queries/dialer.sql.go:sql(EarliestPendingContact)] *)
Definition EarliestPending (campaignID : uuid) (d : DB) : option Contact :=
  head (order_by next_or_zero ctID
    (filter (fun c => N.eqb (ctCampaignID c) campaignID && active c && waits c = true) (rows (contacts d)))).

(** Whether a campaign has contacts that satisfy [f]. *)
Definition has_contact (campaignID : uuid) (f : Contact -> bool) (d : DB) : bool :=
  bool_decide (map_Exists (fun _ c => ctCampaignID c = campaignID /\ f c = true) (contacts d)).

Definition has_status (l : list Status) (c : Campaign) : bool := contains l (cStatus c).

(** [internal/store/queries/dialer.sql.go:sql(CompleteCampaign)] *)
Definition Complete (campaignID : uuid) (d : DB) : DB * bool :=
  let cond c := has_status [StatusRunning] c && has_contact campaignID (fun _ => true) d
                && negb (has_contact campaignID active d) in
  (with_campaigns (update_row campaignID cond (fun c => set_status StatusCompleted (cPauseReason c) c)) d,
   0 <? row_affected campaignID cond (campaigns d)).

(** [internal/store/queries/dialer.sql.go:sql(PauseCampaignFor)] *)
Definition PauseFor (campaignID : uuid) (reason : PauseReason) (d : DB) : DB * bool :=
  (with_campaigns (update_row campaignID (has_status [StatusRunning]) (set_status StatusPaused (Some reason))) d,
   0 <? row_affected campaignID (has_status [StatusRunning]) (campaigns d)).

(** [internal/store/queries/dialer.sql.go:sql(DueDNCContacts)] *)
Definition DNCContacts (limit : Z) (d : DB) : list uuid :=
  limited limit (map ctID (filter (fun c =>
      bool_decide ((cStatus <$> campaigns d !! ctCampaignID c) = Some StatusRunning)
      && active c && waits c && on_dnc (ctNumber c) d = true) (rows (contacts d)))).

(** [internal/store/queries/dialer.sql.go:sql(MarkDialingContactsDNC)] *)
Definition MarkDialingDNC (d : DB) : DB :=
  with_contacts (update_where (fun c => active c && negb (waits c) && on_dnc (ctNumber c) d
      && bool_decide (map_Exists (fun _ a => aContactID a = ctID c /\ dialing a = true) (attempts d)))
    (set_contact_status ContactDoNotCall None)) d.

(** [internal/store/queries/dialer.sql.go:sql(ListDialingAttempts)] *)
Definition Dialing (d : DB) : list DialingAttempt :=
  omap (fun a => c ← campaigns d !! aCampaignID a; Some (mkDialingAttempt a (cRingTimeoutSec c)))
    (order_by aStartedAt aID (filter (fun a => dialing a = true) (rows (attempts d)))).

(** [internal/store/queries/dialer.sql.go:sql(RecentAttemptOutcomesSince)] Newest first. *)
Definition RecentOutcomesSince (campaignID : uuid) (since : instant) (limit : Z) (d : DB) : list Outcome :=
  omap aOutcome (limited limit (reverse (order_by (fun a => default 0 (aFinishedAt a)) aID
    (filter (fun a => N.eqb (aCampaignID a) campaignID && negb (dialing a)
       && (since <=? default 0 (aFinishedAt a)) = true) (rows (attempts d)))))).

(** ** The campaign's statements *)

(** [internal/store/queries/campaigns.sql.go:sql(ArmCampaignContacts)] *)
Definition ArmCampaignContacts (campaignID : uuid) (now : instant) (d : DB) : DB :=
  with_contacts (update_where (fun c => N.eqb (ctCampaignID c) campaignID && active c && negb (waits c))
    (set_next (Some now))) d.

(** The four moves a caller may ask for. *)
Inductive Action := ActStart | ActPause | ActResume | ActCancel.

#[export] Instance Action_eq_dec : EqDecision Action.
Proof. solve_decision. Defined.

(** [internal/store/queries/campaigns.sql.go:sql(StartCampaign)] The statuses
    each conditional update leaves. *)
Definition leaves (a : Action) : list Status :=
  match a with
  | ActStart => [StatusDraft]
  | ActPause => [StatusRunning]
  | ActResume => [StatusPaused]
  | ActCancel => [StatusDraft; StatusRunning; StatusPaused]
  end.

(** [internal/store/queries/campaigns.sql.go:sql(CancelCampaign)] What it leaves behind. *)
Definition moved (a : Action) (now : instant) (c : Campaign) : Campaign :=
  match a with
  | ActStart => set_started now (set_status StatusRunning (cPauseReason c) c)
  | ActPause => set_status StatusPaused (Some PauseManual) c
  | ActResume => set_status StatusRunning None c
  | ActCancel => set_status StatusCancelled None c
  end.

Definition action_name (a : Action) : string :=
  match a with ActStart => "START" | ActPause => "PAUSE" | ActResume => "RESUME" | ActCancel => "CANCEL" end.

(** [internal/store/campaignstore.go:CampaignStore.whyNotMoved] *)
Definition whyNotMoved (id : uuid) (a : Action) (d : DB) : Error :=
  match campaigns d !! id with
  | None => mkError ErrNotFound "" ""
  | Some _ => mkError ErrInvalidTransition "" (action_name a)
  end.

(** [internal/store/campaignstore.go:CampaignStore.move] *)
Definition move (id : uuid) (a : Action) (now : instant) (d : DB) : DB * res Error Campaign :=
  if row_affected id (has_status (leaves a)) (campaigns d) =? 0 then (d, Err (whyNotMoved id a d))
  else
    let d := with_campaigns (update_row id (has_status (leaves a)) (moved a now)) d in
    let d := if decide (a = ActStart) then ArmCampaignContacts id now d else d in
    (d, match campaigns d !! id with Some c => Ok c | None => Err (mkError ErrNotFound "" "") end).

(** [internal/campaign/service.go:NewContact] Its identifier is made by the
    importer when it is stored, see [insert_contact]. *)
Record NewContact := mkNewContact {
  ncNumber : string;
  ncNumberRaw : string;
  ncTimeZone : string;
  ncSlots : gmap string string
}.

(** [internal/store/queries/campaigns.sql.go:sql(InsertCampaignContacts)] One
    row of the insert: a number the campaign holds is left as it is. The
    service made the row's identifier with [uuid.NewV7]. *)
Definition insert_contact (campaignID : uuid) (armed : option instant) (d : DB) (n : NewContact) : DB :=
  let '(id, d) := NewV7 d in
  if has_contact campaignID (fun c => String.eqb (ctNumber c) (ncNumber n)) d then d
  else with_contacts <[id := mkContact id campaignID (ncNumber n) (ncNumberRaw n) (ncTimeZone n) (ncSlots n) ContactActive 0 0
         armed None LeadAbsent "" None None]> d.

(** [internal/store/campaignstore.go:CampaignStore.ImportContacts] *)
Definition ImportContacts (campaignID : uuid) (new : list NewContact) (now : instant) (d : DB)
    : DB * option Error :=
  match campaigns d !! campaignID with
  | None => (d, Some (mkError ErrNotFound "" ""))
  | Some cam =>
      if IsTerminal (cStatus cam) then (d, Some (mkError ErrInvalidTransition "" "IMPORT_CONTACTS"))
      else
        let armed := if decide (cStatus cam = StatusDraft) then None else Some now in
        (fold_left (insert_contact campaignID armed) new d, None)
  end.

(** [internal/campaign/service.go:Stored] *)
Record Stored := mkStored { stID : uuid; stIsNew : bool }.

#[export] Instance Stored_eq_dec : EqDecision Stored.
Proof. solve_decision. Defined.

(** [internal/store/queries/campaigns.sql.go:sql(ExistingCampaignContacts)] For one number: the table has a
    unique index on campaign and number. *)
Definition contact_with (campaignID : uuid) (number : string) (d : DB) : option uuid :=
  fst <$> List.find (fun kv => bool_decide (ctCampaignID kv.2 = campaignID) && String.eqb (ctNumber kv.2) number)
            (map_to_list (contacts d)).

(** [internal/store/campaignstore.go:L386-L424] What the import tells of each
    contact: new when the insert returned its number, which it does when the
    tables before did not hold it. [None] is the error of a contact that is
    neither new nor held. *)
Definition stored_as (campaignID : uuid) (before after : DB) (n : NewContact) : option Stored :=
  match contact_with campaignID (ncNumber n) before with
  | Some id => Some (mkStored id false)
  | None => (fun id => mkStored id true) <$> contact_with campaignID (ncNumber n) after
  end.

(** [internal/store/queries/campaigns.sql.go:sql(InsertCampaign)] A DRAFT
    with an identifier of its own. *)
Definition InsertCampaign (c : Campaign) (d : DB) : uuid * DB :=
  let '(id, d) := NewV7 d in
  (id, with_campaigns <[id :=
         mkCampaign id (cName c) (cDIDID c) (cDIDNumber c) StatusDraft None (cTimeZone c) (cWindow c)
           (cDefaultCountryCode c) (cMaxConcurrent c) (cRingTimeoutSec c) (cRetryPolicy c) (cFollowUpQueueID c)
           None]> d).

(** [internal/store/queries/campaigns.sql.go:sql(UpdateCampaign)] *)
Definition UpdateCampaign (id : uuid) (n : Campaign) (d : DB) : DB :=
  with_campaigns (alter (fun c =>
    mkCampaign (cID c) (cName n) (cDIDID n) (cDIDNumber n) (cStatus c) (cPauseReason c) (cTimeZone n) (cWindow n)
      (cDefaultCountryCode n) (cMaxConcurrent n) (cRingTimeoutSec n) (cRetryPolicy n) (cFollowUpQueueID n)
      (cStartedAt c)) id) d.

End CampaignStore.
