(* ===== verification/CampaignLedger.v ===== *)
(** * What the campaign tables promise

    The transactions of [CampaignStore] as the operations of one machine,
    interleaved in any order, and what holds after every one of them: a number
    has one call in flight, an attempt in flight is its contact's latest, a
    call is counted once however often its record is revised, and no ACTIVE
    contact of a started campaign is ever left neither waiting nor in flight. *)

From S2P Require Import Prelude DayRange Calendar CampaignTypes CallWindow Schedule CampaignPolicy CampaignData CampaignStore.
Import DayRange Calendar CampaignTypes Window Schedule CampaignPolicy CampaignData CampaignStore.

Module CampaignLedger.

(** ** The machine *)

(** The tables and the clock every writer reads. *)
Record World := mkWorld { db : DB; clk : instant }.

Inductive Op :=
| OpTick (dt : duration)
| OpCreate (c : Campaign)
| OpUpdate (id : uuid) (c : Campaign)
| OpMove (id : uuid) (a : Action)
| OpComplete (id : uuid)
| OpPauseFor (id : uuid) (r : PauseReason)
| OpImport (id : uuid) (new : list NewContact)
| OpBegin (contact : uuid)
| OpSetJob (call : uuid) (job : string)
| OpSetLead (call : uuid) (l : LeadIntent) (notes : string)
| OpFinish (call : uuid) (e : Ending)
| OpVoid (call : uuid)
| OpCDR (cdr : CDR)
| OpFinishFromLedger (call : uuid)
| OpAddDNC (n : string)
| OpRemoveDNC (n : string)
| OpMarkDialingDNC
| OpDefer (ids : list uuid) (ats : list instant)
| OpRearm (id : uuid).

Definition draft (d : DB) (c : Contact) : Prop :=
  cStatus <$> campaigns d !! ctCampaignID c = Some StatusDraft.

#[export] Instance draft_dec d c : Decision (draft d c).
Proof. unfold draft. apply _. Defined.

(** Its campaign has started, and was not cancelled. *)
Definition started (d : DB) (c : Contact) : Prop :=
  exists s, cStatus <$> campaigns d !! ctCampaignID c = Some s /\ s ∈ [StatusRunning; StatusPaused; StatusCompleted].

(** The dialer begins contacts [Due] and [DNCContacts] named, which are those
    of started campaigns; a started campaign is never a DRAFT again. *)
Definition may_begin (id : uuid) (d : DB) : bool :=
  match contacts d !! id with Some c => negb (bool_decide (draft d c)) | None => true end.

Section machine.
Context (tzdb : string -> option Location) (outer : Range).

Definition exec_op (w : World) (o : Op) : World :=
  let '(mkWorld d t) := w in
  match o with
  | OpTick dt => mkWorld d (t + dt)
  | OpCreate c => mkWorld (InsertCampaign c d).2 t
  | OpUpdate id c => mkWorld (UpdateCampaign id c d) t
  | OpMove id a => mkWorld (move id a t d).1 t
  | OpComplete id => mkWorld (Complete id d).1 t
  | OpPauseFor id r => mkWorld (PauseFor id r d).1 t
  | OpImport id new => mkWorld (ImportContacts id new t d).1 t
  | OpBegin id => mkWorld (if may_begin id d then (Begin id t d).1 else d) t
  | OpSetJob call job => mkWorld (SetJob call job d) t
  | OpSetLead call l notes => mkWorld (SetLead call l notes d).1 t
  | OpFinish call e => mkWorld (Finish tzdb outer t call e d).1 t
  | OpVoid call => mkWorld (Void call t d).1 t
  | OpCDR cdr => mkWorld (InsertCDR tzdb outer t cdr d).1 t
  | OpFinishFromLedger call => mkWorld (FinishFromLedger tzdb outer t call d).1 t
  | OpAddDNC n => mkWorld (InsertDNCNumber n d) t
  | OpRemoveDNC n => mkWorld (with_dnc (fun s => s ∖ {[n]}) d) t
  | OpMarkDialingDNC => mkWorld (MarkDialingDNC d) t
  | OpDefer ids ats => mkWorld (Defer ids ats d) t
  | OpRearm id => mkWorld (RearmUntried id t d) t
  end.

(** The clock does not go back. *)
Definition op_allowed (o : Op) : Prop := match o with OpTick dt => 0 <= dt | _ => True end.

Definition empty_db : DB := mkDB ∅ ∅ ∅ ∅ ∅ ∅ 0.

#[export] Instance machine : Machine World Op := {
  initial w := db w = empty_db;
  allowed := op_allowed;
  exec := exec_op
}.

End machine.

(** ** The invariant *)

(** What an attempt is charged to its contact as. *)
Definition class_of (a : Attempt) : option Class :=
  if dialing a then None else ClassOf <$> aOutcome a.

Definition charged (id : uuid) (cl : Class) (a : Attempt) : bool :=
  N.eqb (aContactID a) id && bool_decide (class_of a = Some cl).

(** The finished attempts of a contact that reached the customer, and those
    the system failed. *)
Definition charges (id : uuid) (cl : Class) (d : DB) : Z := map_count (charged id cl) (attempts d).

(** The contact has a call in flight. *)
Definition in_flight (d : DB) (id : uuid) : Prop :=
  exists k a, attempts d !! k = Some a /\ dialing a = true /\ aContactID a = id.

(** The rows are keyed by the identifiers they hold, and refer to rows that exist. *)
Record keyed (d : DB) (t : instant) : Prop := mkKeyed {
  k_campaign k c : campaigns d !! k = Some c -> cID c = k /\ (k <= lastID d)%N;
  k_contact k c : contacts d !! k = Some c ->
    ctID c = k /\ (k <= lastID d)%N /\ is_Some (campaigns d !! ctCampaignID c);
  k_attempt k a : attempts d !! k = Some a ->
    aCallID a = k /\ k = (aID a + 1)%N /\ (k <= lastID d)%N /\ aStartedAt a <= t;
  k_parent k a : attempts d !! k = Some a ->
    exists c, contacts d !! aContactID a = Some c /\ ctNumber c = aNumber a /\ ctCampaignID c = aCampaignID a;
  k_size : 3 * Z.of_nat (size (attempts d)) <= Z.of_N (lastID d)
}.

(** The attempts in flight. *)
Record flights_ok (d : DB) : Prop := mkFlightsOk {
  f_unique k1 k2 a b : attempts d !! k1 = Some a -> attempts d !! k2 = Some b ->
    dialing a = true -> dialing b = true -> aNumber a = aNumber b -> k1 = k2;
  f_latest k1 k2 a b : attempts d !! k1 = Some a -> attempts d !! k2 = Some b ->
    dialing a = true -> aContactID a = aContactID b -> later_than b a = false;
  f_idle k a c : attempts d !! k = Some a -> contacts d !! aContactID a = Some c ->
    dialing a = true -> ctNextAttemptAt c = None;
  f_started k a c : attempts d !! k = Some a -> contacts d !! aContactID a = Some c -> ~ draft d c;
  f_kept k c : contacts d !! k = Some c -> active c = true -> started d c ->
    is_Some (ctNextAttemptAt c) \/ in_flight d k;
  f_draft k c : contacts d !! k = Some c -> draft d c -> ctNextAttemptAt c = None
}.

(** The counters are the finished attempts, by the class of their outcome. *)
Definition counted (d : DB) : Prop :=
  forall k c, contacts d !! k = Some c ->
    ctAttempts c = charges k ClassReached d /\ ctSystemFailures c = charges k ClassSystem d.

Record good (d : DB) (t : instant) : Prop := mkGood {
  g_keyed : keyed d t;
  g_flights : flights_ok d;
  g_counted : counted d
}.

(** Identifiers stay below the reach of the 32-bit counters. *)
Definition in_reach (d : DB) : Prop := Z.of_N (lastID d) < 2 ^ 31.

Definition inv (w : World) : Prop := in_reach (db w) -> good (db w) (clk w).

(** ** Changes of contacts alone *)

(** A contact keeps everything the invariant reads but its status and due time. *)
Record keeps (c c' : Contact) : Prop := mkKeeps {
  kp_id : ctID c' = ctID c;
  kp_campaign : ctCampaignID c' = ctCampaignID c;
  kp_number : ctNumber c' = ctNumber c;
  kp_attempts : ctAttempts c' = ctAttempts c;
  kp_failures : ctSystemFailures c' = ctSystemFailures c
}.

(** What a statement may make of contact [k]. *)
Record step_ok (d d' : DB) (k : uuid) (c c' : Contact) : Prop := mkStepOk {
  so_keeps : keeps c c';
  so_draft : draft d' c' -> draft d c /\ ctNextAttemptAt c' = None;
  so_idle : in_flight d k -> ctNextAttemptAt c' = None;
  so_kept : active c' = true -> started d' c' -> is_Some (ctNextAttemptAt c') \/ in_flight d k
}.

Lemma keeps_refl c : keeps c c.
Proof. by constructor. Qed.

Lemma keeps_trans c1 c2 c3 : keeps c1 c2 -> keeps c2 c3 -> keeps c1 c3.
Proof. intros [] []. constructor; congruence. Qed.

Lemma in_flight_eq d d' k : attempts d' = attempts d -> in_flight d' k <-> in_flight d k.
Proof. intros E. unfold in_flight. by rewrite E. Qed.

Lemma charges_eq d d' k cl : attempts d' = attempts d -> charges k cl d' = charges k cl d.
Proof. intros E. unfold charges. by rewrite E. Qed.

(** A statement that leaves the attempts alone. *)
Record quiet (d d' : DB) : Prop := mkQuiet {
  q_attempts : attempts d' = attempts d;
  q_ids : (lastID d <= lastID d')%N;
  q_campaigns k c : campaigns d' !! k = Some c -> cID c = k /\ (k <= lastID d')%N;
  q_campaigns_kept k : is_Some (campaigns d !! k) -> is_Some (campaigns d' !! k);
  q_contacts k c' : contacts d' !! k = Some c' -> exists c, contacts d !! k = Some c /\ step_ok d d' k c c';
  q_contacts_kept k : is_Some (contacts d !! k) -> is_Some (contacts d' !! k)
}.

Lemma quiet_keyed d d' t : keyed d t -> quiet d d' -> keyed d' t.
Proof.
  intros [? Hc Ha Hp Hs] [Ea Hid ? ? Hcs Hck]. constructor; [done|..].
  - intros k c' H. destruct (Hcs _ _ H) as (c & Hk & Hso). destruct (Hc _ _ Hk) as (? & ? & ?).
    destruct (so_keeps _ _ _ _ _ Hso) as [-> -> _ _ _]. split; [done|]. split; [lia | auto].
  - rewrite Ea. intros k a H. destruct (Ha _ _ H) as (? & ? & ? & ?). repeat split; try done; lia.
  - rewrite Ea. intros k a H. destruct (Hp _ _ H) as (c & Hk & ? & ?).
    destruct (Hck (aContactID a)) as [c' Hc']; [eauto|]. exists c'.
    destruct (Hcs _ _ Hc') as (c0 & Hk0 & Hso). simplify_eq.
    destruct (so_keeps _ _ _ _ _ Hso) as [_ -> -> _ _]. done.
  - rewrite Ea. lia.
Qed.

Lemma quiet_flights d d' t : keyed d t -> flights_ok d -> quiet d d' -> flights_ok d'.
Proof.
  intros Hk [Hu Hl Hi Hst Hkept Hd] [Ea Hid ? ? Hcs Hck].
  constructor; rewrite ?Ea; [done|done|..].
  - intros k a c' Ha Hc' Hdl. destruct (Hcs _ _ Hc') as (c & Hc & Hso).
    apply (so_idle _ _ _ _ _ Hso). by exists k, a.
  - intros k a c' Ha Hc' Hdr. destruct (Hcs _ _ Hc') as (c & Hc & Hso).
    destruct (so_draft _ _ _ _ _ Hso Hdr). by eapply Hst.
  - intros k c' Hc' Hac Hnd. rewrite (in_flight_eq d d') by done. destruct (Hcs _ _ Hc') as (c & Hc & Hso).
    by apply (so_kept _ _ _ _ _ Hso).
  - intros k c' Hc' Hdr. destruct (Hcs _ _ Hc') as (c & Hc & Hso). by apply (so_draft _ _ _ _ _ Hso).
Qed.

Lemma quiet_good d d' t : good d t -> quiet d d' -> good d' t.
Proof.
  intros [Hk Hf Hn] Hq. constructor; [by eapply quiet_keyed | by eapply quiet_flights|].
  intros k c' Hc'. destruct (q_contacts _ _ Hq _ _ Hc') as (c & Hc & Hso).
  rewrite !(charges_eq d d') by apply Hq.
  destruct (so_keeps _ _ _ _ _ Hso) as [_ _ _ -> ->]. by apply Hn.
Qed.

(** A contact a statement leaves as it was, when its campaign does not leave DRAFT. *)
Lemma step_same d d' t k c : good d t -> contacts d !! k = Some c ->
  (draft d' c -> draft d c) -> (started d' c -> started d c) -> step_ok d d' k c c.
Proof.
  intros [Hk Hf _] Hc Hd Hs. constructor.
  - apply keeps_refl.
  - intros H. split; [auto|]. apply (f_draft _ Hf k); auto.
  - intros (k' & a & Ha & Hdl & Hid). apply (f_idle _ Hf k' a); [done| by rewrite Hid|done].
  - intros Hac Hst. apply (f_kept _ Hf); auto.
Qed.

(** *** Statements on contacts *)

Lemma quiet_with_contacts d t f : good d t ->
  (forall k c', f (contacts d) !! k = Some c' -> exists c, contacts d !! k = Some c /\ step_ok d d k c c') ->
  (forall k, is_Some (contacts d !! k) -> is_Some (f (contacts d) !! k)) ->
  quiet d (with_contacts f d).
Proof.
  intros [Hk _ _] Hs Hd. constructor; simpl; [done|lia|apply (k_campaign _ _ Hk)|done| |done].
  intros k c' H. destruct (Hs k c' H) as (c & Hc & []). exists c. split; [done|]. by constructor.
Qed.

Lemma quiet_update_where d t cond f : good d t ->
  (forall k c, contacts d !! k = Some c -> cond c = true -> step_ok d d k c (f c)) ->
  quiet d (with_contacts (update_where cond f) d).
Proof.
  intros Hg Hs. apply (quiet_with_contacts d t); [done|..]; unfold update_where.
  - intros k c'. rewrite lookup_fmap, fmap_Some. intros (c & Hc & ->). exists c. split; [done|].
    destruct (cond c) eqn:E; [by apply Hs | by apply (step_same d d t)].
  - intros k. by rewrite lookup_fmap, fmap_is_Some.
Qed.

Lemma quiet_update_row d t id cond f : good d t ->
  (forall c, contacts d !! id = Some c -> cond c = true -> step_ok d d id c (f c)) ->
  quiet d (with_contacts (update_row id cond f) d).
Proof.
  intros Hg Hs. apply (quiet_with_contacts d t); [done|..]; unfold update_row.
  - intros k c'. destruct (decide (k = id)) as [->|Hk].
    + rewrite lookup_alter_eq, fmap_Some. intros (c & Hc & ->). exists c. split; [done|].
      destruct (cond c) eqn:E; [by apply Hs | by apply (step_same d d t)].
    + rewrite lookup_alter_ne by done. intros Hc. exists c'. split; [done|]. by apply (step_same d d t).
  - intros k. destruct (decide (k = id)) as [->|Hk];
      [by rewrite lookup_alter_eq, fmap_is_Some | by rewrite lookup_alter_ne].
Qed.

(** A waiting contact may be given another time. *)
Lemma step_reschedule d t k c x : good d t -> contacts d !! k = Some c -> is_Some (ctNextAttemptAt c) ->
  step_ok d d k c (set_next (Some x) c).
Proof.
  intros [Hk Hf _] Hc Hw. constructor; simpl; [by constructor| | |eauto].
  - intros Hd. rewrite (f_draft _ Hf k c Hc Hd) in Hw. by destruct Hw.
  - intros (k' & a & Ha & Hdl & Hid). rewrite (f_idle _ Hf k' a c Ha) in Hw by (by rewrite ?Hid).
    by destruct Hw.
Qed.

Lemma andb3_inv a b c : a && b && c = true -> a = true /\ b = true /\ c = true.
Proof. destruct a, b, c; intuition discriminate. Qed.

Lemma good_defer_one d t id x : good d t -> good (defer_one d id x) t.
Proof.
  intros Hg. apply (quiet_good d); [done|]. eapply quiet_update_row; [done|]. intros c Hc E.
  apply andb_true_iff in E as [_ E]. apply (step_reschedule d t); [done..|].
  destruct (ctNextAttemptAt c); [eauto | done].
Qed.

Lemma good_Defer d t ids ats : good d t -> good (Defer ids ats d) t.
Proof.
  intros Hg. unfold Defer. apply (fold_left_inv (fun d => good d t)); [done|].
  intros. by apply good_defer_one.
Qed.

Lemma good_RearmUntried d t id x : good d t -> good (RearmUntried id x d) t.
Proof.
  intros Hg. apply (quiet_good d); [done|]. eapply quiet_update_where; [done|]. intros k c Hc E.
  apply andb_true_iff in E as [_ E]. apply (step_reschedule d t); [done..|].
  destruct (ctNextAttemptAt c); [eauto | done].
Qed.

Lemma good_MarkDialingDNC d t : good d t -> good (MarkDialingDNC d) t.
Proof.
  intros Hg. apply (quiet_good d); [done|]. eapply quiet_update_where; [done|]. intros k c Hc _.
  by repeat split.
Qed.

(** *** Statements on campaigns *)

Lemma fresh_ne {A} (m : gmap uuid A) i k x : m !! i = None -> m !! k = Some x -> i <> k.
Proof. congruence. Qed.

(** A status that does not put a contact where it was not. *)
Definition same_phase (s s' : Status) : Prop :=
  (s' = StatusDraft -> s = StatusDraft) /\
  (s' ∈ [StatusRunning; StatusPaused; StatusCompleted] -> s ∈ [StatusRunning; StatusPaused; StatusCompleted]).

Lemma quiet_campaign d t (id : uuid) f : good d t ->
  (forall c, campaigns d !! id = Some c -> cID (f c) = cID c) ->
  (forall c, campaigns d !! id = Some c -> same_phase (cStatus c) (cStatus (f c))) ->
  quiet d (with_campaigns (alter f id) d).
Proof.
  intros Hg Hid Hst. pose proof (g_keyed _ _ Hg) as Hk. constructor; simpl; [done|lia|..].
  - intros k c. destruct (decide (k = id)) as [->|Hne].
    + rewrite lookup_alter_eq, fmap_Some. intros (c0 & Hc & ->). rewrite Hid by done.
      by apply (k_campaign _ _ Hk).
    + rewrite lookup_alter_ne by done. apply (k_campaign _ _ Hk).
  - intros k. destruct (decide (k = id)) as [->|Hne];
      [by rewrite lookup_alter_eq, fmap_is_Some | by rewrite lookup_alter_ne].
  - intros k c Hc. exists c. split; [done|].
    assert (Hph : forall s', cStatus <$> alter f id (campaigns d) !! ctCampaignID c = Some s' ->
      exists s, cStatus <$> campaigns d !! ctCampaignID c = Some s /\ same_phase s s').
    { intros s'. destruct (decide (ctCampaignID c = id)) as [->|Hne].
      - rewrite lookup_alter_eq. destruct (campaigns d !! id) as [cam|] eqn:E; [|done].
        intros H. injection H as <-. eexists. split; [done | by apply Hst].
      - rewrite lookup_alter_ne by done. intros ->. eexists. by repeat split. }
    apply (step_same d _ t); [done..| |].
    + intros Hd. destruct (Hph _ Hd) as (s & Hs & [H _]). unfold draft. rewrite Hs. f_equal. auto.
    + intros (s' & Hs' & Hin). destruct (Hph _ Hs') as (s & Hs & [_ H]). exists s. auto.
  - done.
Qed.

Lemma good_campaign_row d t (id : uuid) cond f : good d t ->
  (forall c, cID (f c) = cID c) ->
  (forall c, cond c = true -> same_phase (cStatus c) (cStatus (f c))) ->
  good (with_campaigns (update_row id cond f) d) t.
Proof.
  intros Hg Hid Hst. apply (quiet_good d); [done|]. apply (quiet_campaign d t); [done|..].
  - intros c _. by destruct (cond c).
  - intros c _. destruct (cond c) eqn:E; [by apply Hst | by split].
Qed.

Lemma has_status_eq l c : has_status l c = true -> cStatus c ∈ l.
Proof. apply contains_true. Qed.

Lemma good_Complete d t id : good d t -> good (Complete id d).1 t.
Proof.
  intros Hg. apply good_campaign_row; [done..|]. intros c E. apply andb3_inv in E as [E _].
  apply has_status_eq, list_elem_of_singleton in E. rewrite E. by split; set_solver.
Qed.

Lemma good_PauseFor d t id r : good d t -> good (PauseFor id r d).1 t.
Proof.
  intros Hg. apply good_campaign_row; [done..|]. intros c E.
  apply has_status_eq, list_elem_of_singleton in E. rewrite E. by split; set_solver.
Qed.

Lemma good_UpdateCampaign d t id n : good d t -> good (UpdateCampaign id n d) t.
Proof. intros Hg. apply (quiet_good d); [done|]. apply (quiet_campaign d t); [done..|]. by split. Qed.

Lemma good_InsertCampaign d t c : good d t -> good (InsertCampaign c d).2 t.
Proof.
  intros Hg. pose proof (g_keyed _ _ Hg) as Hk.
  assert (Hn : campaigns d !! (lastID d + 1)%N = None).
  { destruct (campaigns d !! _) eqn:E; [|done]. apply (k_campaign _ _ Hk) in E as [_ E]. lia. }
  apply (quiet_good d); [done|]. constructor; simpl; [done|lia|..].
  - intros k c'. rewrite lookup_insert_Some. intros [[<- <-]|[_ H]]; [simpl; split; [done|lia]|].
    destruct (k_campaign _ _ Hk _ _ H). split; [done|lia].
  - intros k [x Hx]. rewrite lookup_insert_ne by (by eapply fresh_ne). by exists x.
  - intros k ct Hc. exists ct. split; [done|].
    destruct (k_contact _ _ Hk _ _ Hc) as (_ & _ & [cam Hcam]).
    apply (step_same d _ t); [done..| |]; unfold draft, started; simpl;
      by rewrite lookup_insert_ne by (by eapply fresh_ne).
  - done.
Qed.

Lemma waits_spec c : waits c = true <-> is_Some (ctNextAttemptAt c).
Proof. apply bool_decide_eq_true. Qed.

Lemma waits_none c : waits c = false <-> ctNextAttemptAt c = None.
Proof. unfold waits. rewrite bool_decide_eq_false. split; [apply eq_None_not_Some | by intros ->; intros []]. Qed.

(** The start of a DRAFT makes its ACTIVE contacts due as it leaves DRAFT. *)
Lemma quiet_start d t id cam now : good d t -> campaigns d !! id = Some cam -> cStatus cam = StatusDraft ->
  quiet d (ArmCampaignContacts id now
    (with_campaigns (update_row id (has_status (leaves ActStart)) (moved ActStart now)) d)).
Proof.
  intros Hg Hcam Hdraft. pose proof Hg as [Hk Hf _].
  set (d' := ArmCampaignContacts _ _ _).
  assert (Hs : has_status (leaves ActStart) cam = true) by (by apply contains_true; rewrite Hdraft; left).
  assert (Hid : campaigns d' !! id = Some (moved ActStart now cam)).
  { simpl in *. unfold update_row. rewrite lookup_alter_eq, Hcam. simpl. by rewrite Hs. }
  assert (Hother : forall k, k <> id -> campaigns d' !! k = campaigns d !! k).
  { intros k Hne. simpl. unfold update_row. by rewrite lookup_alter_ne. }
  assert (Hdr : forall c, draft d' c <-> draft d c /\ ctCampaignID c <> id).
  { intros c. unfold draft. destruct (decide (ctCampaignID c = id)) as [->|Hne];
      [rewrite Hid; simpl; intuition congruence | rewrite Hother by done; tauto]. }
  assert (Hst : forall c, started d' c -> ctCampaignID c <> id -> started d c).
  { intros c. unfold started. intros H Hne. by rewrite Hother in H. }
  constructor; [done|simpl; lia|..].
  - intros k c. destruct (decide (k = id)) as [->|Hne].
    + rewrite Hid. intros H. injection H as <-. by apply (k_campaign _ _ Hk) in Hcam.
    + rewrite Hother by done. apply (k_campaign _ _ Hk).
  - intros k H. destruct (decide (k = id)) as [->|Hne]; [by eexists | by rewrite Hother].
  - intros k c'. simpl. unfold update_where. rewrite lookup_fmap, fmap_Some. intros (c & Hc & ->).
    exists c. split; [done|]. destruct (_ && negb (waits c)) eqn:E.
    + apply andb3_inv in E as (Eid & _ & _). apply N.eqb_eq in Eid.
      constructor; simpl; [by constructor| | |eauto].
      * rewrite Hdr. simpl. tauto.
      * intros (k' & a & Ha & _ & Hak). exfalso. apply (f_started _ Hf k' a c Ha); [by rewrite Hak|].
        unfold draft. rewrite Eid, Hcam. simpl. by rewrite Hdraft.
    + constructor; [apply keeps_refl| | |].
      * rewrite Hdr. intros [H _]. split; [done|]. by apply (f_draft _ Hf k).
      * apply (step_same d d t); [done..|tauto].
      * intros Hac Hnd. destruct (decide (ctCampaignID c = id)) as [Ec|Hne].
        -- left. apply waits_spec. rewrite Ec, N.eqb_refl, Hac in E. by destruct (waits c).
        -- apply (f_kept _ Hf); auto.
  - intros k. simpl. unfold update_where. by rewrite lookup_fmap, fmap_is_Some.
Qed.

Lemma good_move d t id a now : good d t -> good (move id a now d).1 t.
Proof.
  intros Hg. unfold move. destruct (_ =? 0) eqn:E; [done|]. simpl.
  unfold row_affected in E. destruct (campaigns d !! id) as [cam|] eqn:Hcam; [|done].
  destruct (has_status (leaves a) cam) eqn:Hs; [|done]. apply has_status_eq in Hs.
  destruct (decide (a = ActStart)) as [->|Ha].
  - apply list_elem_of_singleton in Hs. by apply (quiet_good d), (quiet_start _ t _ cam).
  - apply good_campaign_row; [done|by destruct a|]. intros c Hc. apply has_status_eq in Hc.
    destruct a; simpl in *; [done|..]; (split; [done|]); set_solver.
Qed.

(** *** Statements on other tables, and imports *)

Lemma good_same d d' t : good d t -> campaigns d' = campaigns d -> contacts d' = contacts d ->
  attempts d' = attempts d -> (lastID d <= lastID d')%N -> good d' t.
Proof.
  intros Hg Ec Ect Ea Hid. apply (quiet_good d); [done|]. pose proof (g_keyed _ _ Hg) as Hk.
  constructor; rewrite ?Ec, ?Ect; [done|done| |done| |done].
  - intros k c H. destruct (k_campaign _ _ Hk _ _ H). split; [done|lia].
  - intros k c Hc. exists c. split; [done|]. apply (step_same d d' t); [done..| |];
      unfold draft, started; by rewrite Ec.
Qed.

Lemma good_insert d t (id : uuid) c : good d t -> contacts d !! id = None -> (id <= lastID d)%N -> ctID c = id ->
  is_Some (campaigns d !! ctCampaignID c) -> ctAttempts c = 0 -> ctSystemFailures c = 0 ->
  (draft d c -> ctNextAttemptAt c = None) -> (started d c -> is_Some (ctNextAttemptAt c)) ->
  good (with_contacts <[id := c]> d) t.
Proof.
  intros [Hk Hf Hn] Hfr Hle Hid Hcam H0 H0' Hdr Hst.
  assert (Hno : forall k a, attempts d !! k = Some a -> aContactID a <> id).
  { intros k a Ha E. destruct (k_parent _ _ Hk _ _ Ha) as (c0 & Hc0 & _). congruence. }
  constructor.
  - destruct Hk as [? Hkc ? Hp ?]. constructor; simpl; [done| |done| |done].
    + intros k c'. rewrite lookup_insert_Some. intros [[<- <-]|[_ H]]; [done | by apply Hkc].
    + intros k a Ha. rewrite lookup_insert_ne by (by apply not_eq_sym, (Hno k)). by eapply Hp.
  - destruct Hf as [? ? Hi Hs Hkept Hd]. constructor; simpl; [done|done|..].
    + intros k a c' Ha. rewrite lookup_insert_ne by (by apply not_eq_sym, (Hno k)). by apply (Hi k).
    + intros k a c' Ha. rewrite lookup_insert_ne by (by apply not_eq_sym, (Hno k)). by apply (Hs k).
    + intros k c'. rewrite lookup_insert_Some. intros [[<- <-]|[_ H]]; [intros _; auto | by apply (Hkept k)].
    + intros k c'. rewrite lookup_insert_Some. intros [[<- <-]|[_ H]]; [auto | by apply (Hd k)].
  - intros k c'. simpl. rewrite lookup_insert_Some. intros [[<- <-]|[_ H]]; [|by apply Hn].
    assert (Hz : forall cl, charges id cl d = 0).
    { intros cl. unfold charges, map_count. rewrite (proj2 (map_empty_filter _ _)); [by rewrite map_size_empty|].
      intros k a Ha E. simpl in E. apply andb_true_iff in E as [E _]. apply N.eqb_eq in E. by eapply Hno. }
    split; [rewrite H0 | rewrite H0']; symmetry; apply Hz.
Qed.

Lemma good_insert_contact id cam armed n t d : cStatus cam = StatusDraft /\ armed = None \/
    cStatus cam <> StatusDraft /\ is_Some armed ->
  good d t /\ campaigns d !! id = Some cam ->
  good (insert_contact id armed d n) t /\ campaigns (insert_contact id armed d n) !! id = Some cam.
Proof.
  intros Harm [Hg Hcam]. unfold insert_contact. simpl.
  assert (Hg' : good (NewV7 d).2 t) by (apply (good_same d); [done..|simpl; lia]).
  case_match; [done|]. split; [|done]. apply good_insert; simpl; try done.
  - destruct (contacts d !! _) eqn:E; [|done]. apply (k_contact _ _ (g_keyed _ _ Hg)) in E as (_ & E & _). lia.
  - unfold draft. simpl. rewrite Hcam. simpl. intros E. destruct Harm as [[_ ->]|[Hnd _]]; [done|congruence].
  - intros (s & Hs & Hin). simpl in Hs. rewrite Hcam in Hs. injection Hs as Hs.
    destruct Harm as [[Hd _]|[_ Hsome]]; [|done]. rewrite Hs in Hd. subst s. set_solver.
Qed.

Lemma good_ImportContacts d t id new now : good d t -> good (ImportContacts id new now d).1 t.
Proof.
  intros Hg. unfold ImportContacts. destruct (campaigns d !! id) as [cam|] eqn:Hcam; [|done].
  case_match; [done|]. simpl.
  enough (good (fold_left (insert_contact id (if decide (cStatus cam = StatusDraft) then None else Some now)) new d) t /\
    campaigns (fold_left (insert_contact id (if decide (cStatus cam = StatusDraft) then None else Some now)) new d)
      !! id = Some cam) by tauto.
  apply (fold_left_inv (fun d => good d t /\ campaigns d !! id = Some cam)); [done|]. intros d' n Hd _.
  apply good_insert_contact; [|done]. case_decide; [by left | right; eauto].
Qed.

(** *** Attempts *)

Lemma alter_some {A} (f : A -> A) (m : gmap uuid A) (k : uuid) x :
  m !! k = Some x -> alter f k m = <[k := f x]> m.
Proof.
  intros H. apply map_eq. intros i. destruct (decide (i = k)) as [->|Hne].
  - by rewrite lookup_alter_eq, lookup_insert_eq, H.
  - by rewrite lookup_alter_ne, lookup_insert_ne.
Qed.

Lemma alter_none {A} (f : A -> A) (m : gmap uuid A) (k : uuid) : m !! k = None -> alter f k m = m.
Proof.
  intros H. apply map_eq. intros i. destruct (decide (i = k)) as [->|Hne].
  - by rewrite lookup_alter_eq, H.
  - by rewrite lookup_alter_ne.
Qed.

(** An attempt but for its job, its lead and how the call went. *)
Record same_call (a a' : Attempt) : Prop := mkSameCall {
  sc_id : aID a' = aID a;
  sc_campaign : aCampaignID a' = aCampaignID a;
  sc_contact : aContactID a' = aContactID a;
  sc_number : aNumber a' = aNumber a;
  sc_call : aCallID a' = aCallID a;
  sc_started : aStartedAt a' = aStartedAt a
}.

Lemma same_call_later a a' b b' : same_call a a' -> same_call b b' -> later_than b' a' = later_than b a.
Proof. intros [Ea _ _ _ _ Sa] [Eb _ _ _ _ Sb]. unfold later_than. by rewrite Ea, Sa, Eb, Sb. Qed.

Lemma same_call_refl a : same_call a a.
Proof. by constructor. Qed.

(** The row of one attempt is replaced, the call being the same. *)
Lemma replaced_lookup d (k : uuid) a a' i x : attempts d !! k = Some a -> same_call a a' ->
  <[k := a']> (attempts d) !! i = Some x ->
  exists y, attempts d !! i = Some y /\ same_call y x /\ (i <> k -> x = y) /\ (i = k -> y = a /\ x = a').
Proof.
  intros Ha Hsc. rewrite lookup_insert_Some. intros [[<- <-]|[Hne Hx]].
  - exists a. by repeat split; try apply Hsc.
  - exists x. split; [done|]. split; [apply same_call_refl|]. split; [done|]. intros ->. done.
Qed.

Lemma keyed_replace d d' t (k : uuid) a a' (ci : uuid) c c' : keyed d t ->
  attempts d !! k = Some a -> same_call a a' ->
  contacts d !! ci = Some c -> ctID c' = ctID c -> ctNumber c' = ctNumber c -> ctCampaignID c' = ctCampaignID c ->
  campaigns d' = campaigns d -> contacts d' = <[ci := c']> (contacts d) ->
  attempts d' = <[k := a']> (attempts d) -> (lastID d <= lastID d')%N -> keyed d' t.
Proof.
  intros [Hc Hct Ha Hp Hs] Hk Hsc Hci E1 E2 E3 Ec Ect Ea Hid.
  constructor; rewrite ?Ec, ?Ect, ?Ea.
  - intros i x Hx. destruct (Hc _ _ Hx). split; [done|lia].
  - intros i x. rewrite lookup_insert_Some. intros [[<- <-]|[_ Hx]].
    + destruct (Hct _ _ Hci) as (? & ? & ?). rewrite E1, E3. repeat split; try done; lia.
    + destruct (Hct _ _ Hx) as (? & ? & ?). split; [done|]. split; [lia|done].
  - intros i x Hx. destruct (replaced_lookup _ _ _ _ _ _ Hk Hsc Hx) as (y & Hy & [-> _ _ _ -> ->] & _).
    destruct (Ha _ _ Hy) as (? & ? & ? & ?). repeat split; try done; lia.
  - intros i x Hx. destruct (replaced_lookup _ _ _ _ _ _ Hk Hsc Hx) as (y & Hy & [_ -> -> -> _ _] & _).
    destruct (Hp _ _ Hy) as (z & Hz & ? & ?). destruct (decide (ci = aContactID y)) as [E|Hne].
    + rewrite <- E, lookup_insert_eq. exists c'. rewrite E2, E3. assert (z = c) as -> by congruence. done.
    + rewrite lookup_insert_ne by done. by exists z.
  - rewrite map_size_insert_Some by eauto. lia.
Qed.

(** The job or the lead of an attempt is recorded. *)
Lemma good_annotate d t (k : uuid) f : good d t ->
  (forall a, same_call a (f a) /\ aState (f a) = aState a /\ aOutcome (f a) = aOutcome a) ->
  good (with_attempts (alter f k) d) t.
Proof.
  intros [Hk Hf Hn] Hsame. destruct (attempts d !! k) as [a|] eqn:Ha.
  2:{ apply (good_same d); [by constructor|done..| |done]. by apply alter_none. }
  destruct (Hsame a) as (Hsc & Est & Eo).
  assert (Hdl : forall a, dialing (f a) = dialing a).
  { intros x. unfold dialing. by destruct (Hsame x) as (_ & -> & _). }
  assert (Hall : forall i x, alter f k (attempts d) !! i = Some x ->
    exists y, attempts d !! i = Some y /\ same_call y x /\ dialing x = dialing y).
  { intros i x. rewrite (alter_some _ _ _ _ Ha). intros Hx.
    destruct (replaced_lookup _ _ _ _ _ _ Ha Hsc Hx) as (y & Hy & Hs & Hne & He). exists y. split; [done|].
    split; [done|]. destruct (decide (i = k)) as [->|Hi]; [destruct He as [-> ->]; auto | by rewrite Hne]. }
  destruct (k_parent _ _ Hk _ _ Ha) as (c & Hc & _ & _).
  constructor.
  - eapply (keyed_replace d _ t k a (f a) (aContactID a) c c); try done; simpl.
    + by rewrite insert_id.
    + by apply alter_some.
  - destruct Hf as [Hu Hl Hi Hst Hkept Hd]. constructor; simpl.
    + intros k1 k2 x y Hx Hy Hdx Hdy E. destruct (Hall _ _ Hx) as (x0 & Hx0 & Sx & Dx).
      destruct (Hall _ _ Hy) as (y0 & Hy0 & Sy & Dy). apply (Hu k1 k2 x0 y0); [done..|congruence|congruence|].
      by rewrite <- (sc_number _ _ Sx), <- (sc_number _ _ Sy).
    + intros k1 k2 x y Hx Hy Hdx E. destruct (Hall _ _ Hx) as (x0 & Hx0 & Sx & Dx).
      destruct (Hall _ _ Hy) as (y0 & Hy0 & Sy & Dy). rewrite (same_call_later x0 x y0 y) by done.
      apply (Hl k1 k2); [done..|congruence|]. by rewrite <- (sc_contact _ _ Sx), <- (sc_contact _ _ Sy).
    + intros i x c' Hx. destruct (Hall _ _ Hx) as (x0 & Hx0 & Sx & Dx). rewrite (sc_contact _ _ Sx), Dx.
      by apply (Hi i).
    + intros i x c' Hx. destruct (Hall _ _ Hx) as (x0 & Hx0 & Sx & Dx). rewrite (sc_contact _ _ Sx).
      by apply (Hst i).
    + intros i c' Hc' Hac Hs. destruct (Hkept i c' Hc' Hac Hs) as [?|(k' & x & Hx & Hdx & E)]; [by left|].
      right. destruct (decide (k' = k)) as [->|Hne].
      * exists k, (f a). simplify_eq. simpl. rewrite lookup_alter_eq, Ha, Hdl. destruct Hsc. by repeat split.
      * exists k', x. simpl. by rewrite lookup_alter_ne.
    + done.
  - intros i c' Hc'. unfold charges. simpl. rewrite (alter_some _ _ _ _ Ha).
    rewrite !(map_count_insert _ _ _ a) by done. unfold charged, class_of.
    rewrite Hdl, Eo, (sc_contact _ _ Hsc). destruct (Hn i c' Hc') as [-> ->].
    unfold charges, charged, class_of. lia.
Qed.

(** *** Finishing an attempt *)

Lemma map_count_pos {A} (f : A -> bool) (m : gmap uuid A) k x : m !! k = Some x -> f x = true -> 1 <= map_count f m.
Proof.
  intros Hk Hf. pose proof (map_count_delete f m k x Hk) as E. rewrite Hf in E.
  pose proof (map_count_nonneg f (delete k m)). simpl in *. lia.
Qed.

Lemma charges_size k cl d : charges k cl d <= Z.of_nat (size (attempts d)).
Proof.
  unfold charges, map_count. apply inj_le. apply map_size_filter.
Qed.

(** The charge of one attempt, as a number. *)
Definition charge (a : Attempt) (cl : Class) : Z := Z.b2z (bool_decide (class_of a = Some cl)).

Lemma charges_insert d d' (k id : uuid) cl a a' : attempts d !! k = Some a -> aContactID a' = aContactID a ->
  attempts d' = <[k := a']> (attempts d) ->
  charges id cl d' = charges id cl d + (if N.eqb (aContactID a) id then charge a' cl - charge a cl else 0).
Proof.
  intros Ha E Ea. unfold charges. rewrite Ea, (map_count_insert _ _ _ a) by done.
  unfold charged, charge. rewrite E. destruct (N.eqb _ id); simpl; lia.
Qed.

(** The counters [recount] computes are those of the table after the finish. *)
Lemma recount_spec d t (k : uuid) att ct e endedAt :
  in_reach d -> good d t -> attempts d !! k = Some att -> contacts d !! aContactID att = Some ct ->
  let c := recount ct att (eOutcome e) in
  let fin := finished_row e endedAt att in
  wrapS 32 (Attempts c) = ctAttempts ct + charge fin ClassReached - charge att ClassReached /\
  wrapS 32 (SystemFailures c) = ctSystemFailures ct + charge fin ClassSystem - charge att ClassSystem.
Proof.
  intros Hr [Hk _ Hn] Ha Hc. destruct (Hn _ _ Hc) as [Ei Es].
  pose proof (charges_size (aContactID att) ClassReached d) as Hi.
  pose proof (charges_size (aContactID att) ClassSystem d) as Hs.
  pose proof (k_size _ _ Hk) as Hsz. unfold in_reach in Hr.
  assert (Hpos : forall cl, class_of att = Some cl -> 1 <= charges (aContactID att) cl d).
  { intros cl H. apply (map_count_pos _ _ k att); [done|]. unfold charged. rewrite N.eqb_refl. simpl.
    by apply bool_decide_eq_true. }
  assert (0 <= charges (aContactID att) ClassReached d) by apply map_count_nonneg.
  assert (0 <= charges (aContactID att) ClassSystem d) by apply map_count_nonneg.
  unfold recount, charge, class_of, dialing in *. rewrite <- Ei, <- Es in *. simpl.
  destruct (aState att), (aOutcome att) as [o|]; simpl in *;
    unfold Add, Remove; destruct (ClassOf (eOutcome e)) eqn:?; simpl;
    try (destruct (ClassOf o) eqn:Eo; simpl in *; [|specialize (Hpos _ eq_refl)..]);
    rewrite ?wrapS_id by lia; rewrite ?Z.max_r by lia; lia.
Qed.

(** Two attempts of one contact, neither later than the other, are one. *)
Lemma later_antisym d t k1 k2 a b : keyed d t -> attempts d !! k1 = Some a -> attempts d !! k2 = Some b ->
  later_than a b = false -> later_than b a = false -> k1 = k2.
Proof.
  intros Hk Ha Hb. destruct (k_attempt _ _ Hk _ _ Ha) as (_ & -> & _). destruct (k_attempt _ _ Hk _ _ Hb) as (_ & -> & _).
  unfold later_than. intros H1 H2. apply orb_false_iff in H1 as [H1 H3], H2 as [H2 H4].
  apply Z.ltb_ge in H1, H2. assert (aStartedAt a = aStartedAt b) as E by lia.
  rewrite E, Z.eqb_refl in H3, H4. simpl in *. apply N.ltb_ge in H3, H4. lia.
Qed.

(** The contact an ending leaves: its counters are recounted; its fate is
    untouched when the attempt is not its latest, and when it is, an ACTIVE
    contact waits for a time. *)
Record ended_contact (d : DB) (att fin : Attempt) (ct ct' : Contact) : Prop := mkEndedContact {
  ec_id : ctID ct' = ctID ct;
  ec_campaign : ctCampaignID ct' = ctCampaignID ct;
  ec_number : ctNumber ct' = ctNumber ct;
  ec_attempts : ctAttempts ct' = ctAttempts ct + charge fin ClassReached - charge att ClassReached;
  ec_failures : ctSystemFailures ct' = ctSystemFailures ct + charge fin ClassSystem - charge att ClassSystem;
  ec_fate : (exists k b, attempts d !! k = Some b /\ aContactID b = aContactID att /\ later_than b att = true) /\
              ctStatus ct' = ctStatus ct /\ ctNextAttemptAt ct' = ctNextAttemptAt ct \/
            (forall k b, attempts d !! k = Some b -> aContactID b = aContactID att -> later_than b att = false) /\
              (active ct' = true -> is_Some (ctNextAttemptAt ct'))
}.

Lemma flights_finish d d' t (k : uuid) att fin ct ct' : keyed d t -> flights_ok d ->
  attempts d !! k = Some att -> contacts d !! aContactID att = Some ct ->
  same_call att fin -> dialing fin = false -> ended_contact d att fin ct ct' ->
  campaigns d' = campaigns d -> contacts d' = <[aContactID att := ct']> (contacts d) ->
  attempts d' = <[k := fin]> (attempts d) -> flights_ok d'.
Proof.
  intros Hk [Hu Hl Hi Hst Hkept Hd] Ha Hc Hsc Hfin Hend Ec Ect Ea.
  assert (Hlook : forall i x, attempts d' !! i = Some x -> exists y, attempts d !! i = Some y /\ same_call y x /\
    (dialing x = true -> x = y /\ i <> k)).
  { intros i x. rewrite Ea. intros Hx. destruct (replaced_lookup _ _ _ _ _ _ Ha Hsc Hx) as (y & Hy & Hs & Hne & He).
    exists y. split; [done|]. split; [done|]. intros Hdx. destruct (decide (i = k)) as [->|Hik].
    - destruct He as [_ ->]; [done|]. congruence.
    - by rewrite Hne. }
  assert (Hdraft : forall c, draft d' c <-> draft d c) by (intros c; unfold draft; by rewrite Ec).
  assert (Hfate : forall i x, attempts d' !! i = Some x -> dialing x = true -> aContactID x = aContactID att ->
    ctNextAttemptAt ct' = None).
  { intros i x Hx Hdx E. destruct (Hlook _ _ Hx) as (y & Hy & _ & H). destruct (H Hdx) as [-> Hik].
    destruct (ec_fate _ _ _ _ _ Hend) as [(_ & _ & ->)|[Hlatest _]]; [apply (Hi i y); [done|by rewrite E|done]|].
    exfalso. apply Hik. eapply (later_antisym d t); [done..|by eapply Hlatest|].
    by apply (Hl i k). }
  constructor.
  - intros k1 k2 x y Hx Hy Hdx Hdy E. destruct (Hlook _ _ Hx) as (x0 & Hx0 & _ & H1).
    destruct (Hlook _ _ Hy) as (y0 & Hy0 & _ & H2). destruct (H1 Hdx) as [-> _], (H2 Hdy) as [-> _].
    by apply (Hu k1 k2 x0 y0).
  - intros k1 k2 x y Hx Hy Hdx E. destruct (Hlook _ _ Hx) as (x0 & Hx0 & _ & H1).
    destruct (Hlook _ _ Hy) as (y0 & Hy0 & Sy & _). destruct (H1 Hdx) as [-> _].
    rewrite (same_call_later x0 x0 y0 y); [|apply same_call_refl|done].
    apply (Hl k1 k2); [done..|]. by rewrite E, (sc_contact _ _ Sy).
  - intros i x c Hx. rewrite Ect, lookup_insert_Some. intros [[E <-]|[Hne Hcx]] Hdx; [by apply (Hfate i x)|].
    destruct (Hlook _ _ Hx) as (x0 & Hx0 & _ & H1). destruct (H1 Hdx) as [-> _]. by apply (Hi i x0).
  - intros i x c Hx. rewrite Ect, Hdraft, lookup_insert_Some. destruct (Hlook _ _ Hx) as (x0 & Hx0 & Sx & _).
    rewrite (sc_contact _ _ Sx). intros [[E <-]|[Hne Hcx]].
    + unfold draft. rewrite (ec_campaign _ _ _ _ _ Hend). by apply (Hst k att).
    + by apply (Hst i x0).
  - intros i c. rewrite Ect, lookup_insert_Some. intros Hcx Hac Hs.
    assert (Hs' : started d c) by (unfold started; by rewrite <- Ec).
    assert (Hfl : in_flight d i -> (exists b j, attempts d !! j = Some b /\ aContactID b = aContactID att /\
      later_than b att = true) \/ aContactID att <> i -> in_flight d' i).
    { intros (j & b & Hb & Hdb & Eb) Hor. exists j, b. split; [|done]. rewrite Ea.
      rewrite lookup_insert_ne; [done|]. intros <-. simplify_eq. destruct Hor as [(b' & j' & Hb' & E' & Hlt)|]; [|done].
      rewrite (Hl k j' att b') in Hlt; [done..|congruence]. }
    destruct Hcx as [[<- <-]|[Hne Hcx]].
    + destruct (ec_fate _ _ _ _ _ Hend) as [((j & b & Hb & E & Hlt) & Hst' & Hn)|[_ H]]; [|left; auto].
      destruct (Hkept (aContactID att) ct) as [?|H]; [done| | |rewrite Hn; auto|].
      * unfold active in *. by rewrite <- Hst'.
      * unfold started in *. by rewrite <- (ec_campaign _ _ _ _ _ Hend).
      * right. apply Hfl; [done|]. left. by exists b, j.
    + destruct (Hkept i c) as [?|H]; [done..|by left|]. right. apply Hfl; [done|]. by right.
  - intros i c. rewrite Ect, Hdraft, lookup_insert_Some. intros [[<- <-]|[Hne Hcx]] Hdr; [|by apply (Hd i)].
    exfalso. unfold draft in Hdr. rewrite (ec_campaign _ _ _ _ _ Hend) in Hdr. by apply (Hst k att ct).
Qed.

Lemma good_finish d d' t (k : uuid) att fin ct ct' : good d t ->
  attempts d !! k = Some att -> contacts d !! aContactID att = Some ct ->
  same_call att fin -> dialing fin = false -> ended_contact d att fin ct ct' ->
  campaigns d' = campaigns d -> contacts d' = <[aContactID att := ct']> (contacts d) ->
  attempts d' = <[k := fin]> (attempts d) -> (lastID d <= lastID d')%N -> good d' t.
Proof.
  intros [Hk Hf Hn] Ha Hc Hsc Hfin Hend Ec Ect Ea Hid. constructor.
  - by eapply (keyed_replace d d' t k att fin _ ct ct'); try apply Hend.
  - by eapply (flights_finish d d' t k att fin ct ct').
  - intros i c. rewrite Ect, lookup_insert_Some.
    rewrite !(charges_insert d d' k i _ att fin); try done; try apply Hsc.
    intros [[<- <-]|[Hne Hcx]].
    + rewrite N.eqb_refl. destruct (Hn _ _ Hc) as [E1 E2].
      rewrite (ec_attempts _ _ _ _ _ Hend), (ec_failures _ _ _ _ _ Hend), E1, E2. lia.
    + destruct (N.eqb_spec (aContactID att) i); [done|]. rewrite !Z.add_0_r. by apply Hn.
Qed.

Lemma Settle_active p c o lead at_ s : SStatus (Settle p c o lead at_ s) = ContactActive ->
  is_Some (NextAttemptAt (Settle p c o lead at_ s)).
Proof. unfold Settle. repeat (case_match; simpl; try done); simpl; eauto. Qed.

Section run.
Context (tzdb : string -> option Location) (outer : Range) (clock : instant).

Lemma settled_active cam ct c o lead at_ : SStatus (settled tzdb outer cam ct c o lead at_) = ContactActive ->
  is_Some (NextAttemptAt (settled tzdb outer cam ct c o lead at_)).
Proof. unfold settled. case_decide; [done|]. apply Settle_active. Qed.

Lemma side_effects_tables att lead d : let d' := leadSideEffects att lead d in
  campaigns d' = campaigns d /\ contacts d' = contacts d /\ attempts d' = attempts d /\ (lastID d <= lastID d')%N.
Proof. destruct lead; simpl; repeat split; lia. Qed.

(** The tables an ending leaves, as one replacement of the attempt and one of its contact. *)
Lemma apply_inv att e d r d' : apply tzdb outer clock att e d = Ok (Some r, d') ->
  exists ct cam, contacts d !! aContactID att = Some ct /\ campaigns d !! aCampaignID att = Some cam /\
    let endedAt := if is_zero (eEndedAt e) then clock else eEndedAt e in
    let c := recount ct att (eOutcome e) in
    let d1 := leadSideEffects att (aLeadIntent att) (FinishCampaignAttempt att e endedAt d) in
    Outcome_IsValid (eOutcome e) = true /\
    d' = (if AttemptIsLatest att d1 then
            let s := settled tzdb outer cam ct c (eOutcome e) (aLeadIntent att) endedAt in
            SettleCampaignContact (ctID ct) c (SStatus s) (NextAttemptAt s) (eOutcome e) (aID att) (aCallID att)
              (aLeadIntent att) (aLeadNotes att) d1
          else AdjustCampaignContactCounters (ctID ct) c d1).
Proof.
  unfold apply. destruct (Outcome_IsValid _) eqn:Hv; [|done]. simpl. case_match; [done|].
  destruct (contacts d !! _) as [ct|]; [|done]. destruct (campaigns d !! _) as [cam|]; [|done].
  intros Heq. exists ct, cam. repeat split.
  destruct (AttemptIsLatest att _); simpl in Heq; by injection Heq.
Qed.

Lemma apply_none att e d d' : apply tzdb outer clock att e d = Ok (None, d') -> d' = d.
Proof. unfold apply. repeat (case_match; simpl); intros Heq; by inversion Heq. Qed.

Lemma latest_spec att d : AttemptIsLatest att d = true <->
  forall k b, attempts d !! k = Some b -> aContactID b = aContactID att -> later_than b att = false.
Proof.
  unfold AttemptIsLatest. rewrite bool_decide_eq_true. unfold map_Forall. naive_solver.
Qed.

Lemma not_latest_spec att d : AttemptIsLatest att d = false ->
  exists k b, attempts d !! k = Some b /\ aContactID b = aContactID att /\ later_than b att = true.
Proof.
  unfold AttemptIsLatest. rewrite bool_decide_eq_false, map_not_Forall by apply _.
  intros (k & b & Hb & H). exists k, b. split; [done|].
  destruct (decide (aContactID b = aContactID att)) as [E|E]; [|by destruct H].
  split; [done|]. destruct (later_than b att); [done|]. by destruct H.
Qed.

Lemma latest_replace d d' (k : uuid) att fin : attempts d !! k = Some att -> same_call att fin ->
  attempts d' = <[k := fin]> (attempts d) -> AttemptIsLatest att d = true ->
  AttemptIsLatest att d' = true /\ AttemptIsLatest fin d' = true.
Proof.
  intros Ha Hsc Ea Hl. rewrite !latest_spec, Ea. rewrite latest_spec in Hl.
  assert (Hall : forall i b, <[k := fin]> (attempts d) !! i = Some b -> aContactID b = aContactID att ->
    later_than b att = false).
  { intros i b Hb E. destruct (replaced_lookup d k att fin i b Ha Hsc Hb) as (y & Hy & Sy & _).
    rewrite (same_call_later att att y b); [|apply same_call_refl|done].
    apply (Hl i y Hy). by rewrite <- (sc_contact _ _ Sy). }
  split; [done|]. intros i b Hb E. rewrite (sc_contact _ _ Hsc) in E.
  rewrite (same_call_later att fin b b); [by apply (Hall i)|done|apply same_call_refl].
Qed.

Lemma good_apply d t (k : uuid) att e r d' : in_reach d -> good d t -> attempts d !! k = Some att ->
  apply tzdb outer clock att e d = Ok (r, d') -> good d' t.
Proof.
  intros Hr Hg Ha H. pose proof (g_keyed _ _ Hg) as Hk. destruct r as [r|]; [|by rewrite (apply_none _ _ _ _ H)].
  destruct (apply_inv _ _ _ _ _ H) as (ct & cam & Hc & Hcam & _ & ->). clear H.
  set (endedAt := if is_zero _ then _ else _). set (fin := finished_row e endedAt att).
  destruct (k_attempt _ _ Hk _ _ Ha) as (Ecall & _). destruct (k_contact _ _ Hk _ _ Hc) as (Eid & _).
  destruct (side_effects_tables att (aLeadIntent att) (FinishCampaignAttempt att e endedAt d)) as (T1 & T2 & T3 & T4).
  set (d1 := leadSideEffects _ _ _) in *. simpl in T1, T2, T3, T4.
  rewrite Ecall, (alter_some _ _ _ _ Ha) in T3. fold fin in T3.
  assert (Hsc : same_call att fin) by by constructor.
  destruct (recount_spec d t k att ct e endedAt Hr Hg Ha Hc) as [R1 R2]. fold fin in R1, R2.
  rewrite Eid. destruct (AttemptIsLatest att d1) eqn:Hlat.
  - eapply (good_finish d _ t k att fin ct); try done; simpl.
    2:{ rewrite T2. by apply alter_some. }
    constructor; try done. right. split.
    + intros i b Hb E. rewrite latest_spec, T3 in Hlat. destruct (decide (i = k)) as [->|Hne].
      * simplify_eq. apply orb_false_iff. rewrite Z.ltb_irrefl, N.ltb_irrefl. by rewrite andb_false_r.
      * apply (Hlat i); [by rewrite lookup_insert_ne | done].
    + intros Hac. apply settled_active. by apply bool_decide_eq_true in Hac.
  - eapply (good_finish d _ t k att fin ct); try done; simpl.
    2:{ rewrite T2. by apply alter_some. }
    constructor; try done. left. split; [|done].
    destruct (not_latest_spec _ _ Hlat) as (i & b & Hb & E & Hlt). rewrite T3 in Hb.
    destruct (replaced_lookup _ _ _ _ _ _ Ha Hsc Hb) as (y & Hy & Sy & _). exists i, y. split; [done|].
    rewrite <- (sc_contact _ _ Sy). split; [done|].
    by rewrite <- (same_call_later att att y b); [|apply same_call_refl|].
Qed.

Lemma good_Finish d t call e : in_reach d -> good d t -> good (Finish tzdb outer clock call e d).1 t.
Proof.
  intros Hr Hg. unfold Finish, txFor, LockAttemptByCall. destruct (attempts d !! call) as [att|] eqn:Ha; [|done].
  destruct (negb _); [done|]. destruct (apply _ _ _ att e d) as [[r d']|] eqn:H; [|done]. simpl.
  by eapply good_apply.
Qed.

Lemma good_fromCDR d t cdr r d' : in_reach d -> good d t -> fromCDR tzdb outer clock cdr d = Ok (r, d') -> good d' t.
Proof.
  intros Hr Hg. unfold fromCDR, LockAttemptByCall. destruct (attempts d !! _) as [att|] eqn:Ha.
  - by eapply good_apply.
  - intros H. by inversion H; subst.
Qed.

Lemma good_InsertCDR d t cdr : in_reach d -> good d t -> good (InsertCDR tzdb outer clock cdr d).1 t.
Proof.
  intros Hr Hg. unfold InsertCDR, txFor. destruct (negb _); [done|].
  destruct (fromCDR _ _ _ _ _) as [[r d']|] eqn:H; [|done]. simpl.
  eapply (good_fromCDR (with_cdrs <[cdrCallID cdr := cdr]> d)); [done| |done].
  apply (good_same d); [done..|simpl; lia].
Qed.

Lemma good_FinishFromLedger d t call : in_reach d -> good d t -> good (FinishFromLedger tzdb outer clock call d).1 t.
Proof.
  intros Hr Hg. unfold FinishFromLedger, txFor, LockAttemptByCall.
  destruct (attempts d !! call) as [att|] eqn:Ha; [|done]. destruct (cdrs d !! call) as [row|]; [|done].
  destruct (negb _); [done|]. destruct (apply _ _ _ att _ d) as [[r d']|] eqn:H; [|done]. simpl.
  by eapply good_apply.
Qed.

End run.

(** *** Beginning and voiding *)

Lemma number_dialing_false n d : number_dialing n d = false ->
  forall k a, attempts d !! k = Some a -> dialing a = true -> aNumber a <> n.
Proof.
  unfold number_dialing. rewrite bool_decide_eq_false. intros H k a Ha Hd E. apply H. by exists k, a.
Qed.

(** The attempt of a contact carries the contact's number. *)
Lemma parent_number d t k a c : keyed d t -> attempts d !! k = Some a -> contacts d !! aContactID a = Some c ->
  aNumber a = ctNumber c.
Proof. intros Hk Ha Hc. destruct (k_parent _ _ Hk _ _ Ha) as (c' & Hc' & E & _). congruence. Qed.

Section begin.
Context (d d' : DB) (t : instant) (id : uuid) (ct : Contact).
Hypothesis Hg : good d t.
Hypothesis Hc : contacts d !! id = Some ct.
Hypothesis Hnd : ~ draft d ct.
Hypothesis Hnum : number_dialing (ctNumber ct) d = false.
Let row := mkAttempt (lastID d + 1)%N (ctCampaignID ct) id (ctNumber ct) (lastID d + 2)%N (lastID d + 3)%N ""
             AttemptDialing None "" 0 false LeadAbsent "" t None.
Hypothesis Ec : campaigns d' = campaigns d.
Hypothesis Ect : contacts d' = <[id := set_next None ct]> (contacts d).
Hypothesis Ea : attempts d' = <[(lastID d + 2)%N := row]> (attempts d).
Hypothesis Eid : lastID d' = (lastID d + 3)%N.

Lemma begin_fresh : attempts d !! (lastID d + 2)%N = None.
Proof.
  destruct (attempts d !! _) eqn:E; [|done]. apply (k_attempt _ _ (g_keyed _ _ Hg)) in E as (_ & _ & E & _). lia.
Qed.

Lemma begin_attempts i x : attempts d' !! i = Some x ->
  (i = (lastID d + 2)%N /\ x = row) \/ (i <> (lastID d + 2)%N /\ attempts d !! i = Some x).
Proof. rewrite Ea, lookup_insert_Some. intros [[<- <-]|[? ?]]; [by left | right; auto]. Qed.

Lemma begin_contacts i c : contacts d' !! i = Some c ->
  (i = id /\ c = set_next None ct) \/ (i <> id /\ contacts d !! i = Some c).
Proof. rewrite Ect, lookup_insert_Some. intros [[<- <-]|[? ?]]; [by left | right; auto]. Qed.

Lemma begin_none i x : attempts d !! i = Some x -> aContactID x = id -> dialing x = false.
Proof.
  intros Hx E. destruct (dialing x) eqn:Hdx; [|done]. exfalso.
  apply (number_dialing_false _ _ Hnum i x); [done..|].
  apply (parent_number d t i); [apply Hg|done|]. by rewrite E.
Qed.

Lemma begin_keyed : keyed d' t.
Proof.
  destruct (g_keyed _ _ Hg) as [Hkc Hkct Hka Hkp Hks]. constructor.
  - rewrite Ec, Eid. intros i x Hx. destruct (Hkc _ _ Hx). split; [done|lia].
  - rewrite Ec, Eid. intros i x Hx. destruct (begin_contacts _ _ Hx) as [[-> ->]|[_ Hx']].
    + destruct (Hkct _ _ Hc) as (? & ? & ?). repeat split; try done; simpl; lia.
    + destruct (Hkct _ _ Hx') as (? & ? & ?). repeat split; try done; lia.
  - rewrite Eid. intros i x Hx. destruct (begin_attempts _ _ Hx) as [[-> ->]|[_ Hx']].
    + unfold row. simpl. repeat split; lia.
    + destruct (Hka _ _ Hx') as (? & ? & ? & ?). repeat split; try done; lia.
  - intros i x Hx. destruct (begin_attempts _ _ Hx) as [[-> ->]|[_ Hx']].
    + unfold row. simpl. rewrite Ect, lookup_insert_eq. by exists (set_next None ct).
    + destruct (Hkp _ _ Hx') as (c & Hcx & ? & ?). rewrite Ect. destruct (decide (id = aContactID x)) as [->|Hne].
      * rewrite lookup_insert_eq. assert (c = ct) as -> by congruence. by exists (set_next None ct).
      * rewrite lookup_insert_ne by done. by exists c.
  - rewrite Ea, Eid, map_size_insert_None by apply begin_fresh. lia.
Qed.

Lemma begin_flights : flights_ok d'.
Proof.
  pose proof (g_keyed _ _ Hg) as Hk. destruct (g_flights _ _ Hg) as [Hu Hl Hi Hst Hkept Hd]. constructor.
  - intros k1 k2 a b H1 H2 Da Db E.
    destruct (begin_attempts _ _ H1) as [[-> ->]|[_ Ha]], (begin_attempts _ _ H2) as [[-> ->]|[_ Hb]]; [done|..|by apply (Hu k1 k2 a b)];
      exfalso; unfold row; simpl in E; [by apply (number_dialing_false _ _ Hnum k2 b) | by apply (number_dialing_false _ _ Hnum k1 a)].
  - intros k1 k2 a b H1 H2 Da E.
    destruct (begin_attempts _ _ H1) as [[-> ->]|[_ Ha]], (begin_attempts _ _ H2) as [[-> ->]|[_ Hb]].
    + unfold later_than. rewrite Z.ltb_irrefl, N.ltb_irrefl. by rewrite andb_false_r.
    + unfold row. unfold later_than. simpl. destruct (k_attempt _ _ Hk _ _ Hb) as (_ & ? & ? & ?).
      apply orb_false_iff. split; [by apply Z.ltb_ge|]. apply andb_false_iff. right. apply N.ltb_ge. lia.
    + unfold row. simpl in E. rewrite (begin_none k1 a) in Da by done. done.
    + by apply (Hl k1 k2).
  - intros i a c Hx Hcx Da. destruct (begin_contacts _ _ Hcx) as [[E ->]|[Hne Hc']]; [done|].
    destruct (begin_attempts _ _ Hx) as [[-> ->]|[_ Ha]]; [by unfold row|]. by apply (Hi i a).
  - intros i a c Hx Hcx. unfold draft. rewrite Ec. destruct (begin_contacts _ _ Hcx) as [[E ->]|[Hne Hc']]; [done|].
    destruct (begin_attempts _ _ Hx) as [[-> ->]|[_ Ha]]; [by unfold row|]. by apply (Hst i a).
  - intros i c Hcx Hac Hs. destruct (begin_contacts _ _ Hcx) as [[-> ->]|[Hne Hc']].
    + right. exists (lastID d + 2)%N, row. rewrite Ea, lookup_insert_eq. by unfold row.
    + destruct (Hkept i c Hc' Hac) as [?|(k & a & Ha & Da & E)]; [by unfold started in *; rewrite Ec in Hs|by left|].
      right. exists k, a. rewrite Ea, lookup_insert_ne; [done|]. eapply fresh_ne; [apply begin_fresh | done].
  - intros i c Hcx. unfold draft. rewrite Ec. destruct (begin_contacts _ _ Hcx) as [[-> ->]|[Hne Hc']]; [done|].
    by apply (Hd i).
Qed.

Lemma good_begin : good d' t.
Proof.
  constructor; [apply begin_keyed | apply begin_flights|].
  intros i c Hcx. unfold charges. rewrite Ea. rewrite !map_count_insert_new by apply begin_fresh.
    assert (Hch : forall cl, charged i cl row = false).
    { intros cl. unfold row. unfold charged. simpl. by rewrite andb_false_r. }
    rewrite !Hch, !Z.add_0_r. destruct (begin_contacts _ _ Hcx) as [[-> ->]|[Hne Hc']]; [by apply (g_counted _ _ Hg id ct) | by apply (g_counted _ _ Hg)].
Qed.

End begin.

Lemma good_Begin d t id : good d t -> may_begin id d = true -> good (Begin id t d).1 t.
Proof.
  intros Hg Hm. unfold may_begin in Hm. unfold Begin, txFor, ClaimContactForDial.
  destruct (contacts d !! id) as [ct|] eqn:Hc; [|done]. simpl. destruct (active ct); [|done]. simpl.
  unfold InsertCampaignAttempt. simpl. destruct (number_dialing _ _) eqn:Hnum; [done|]. simpl.
  apply negb_true_iff, bool_decide_eq_false in Hm.
  apply (good_begin d _ t id ct); try done; simpl; rewrite <- ?N.add_assoc; done.
Qed.

Section void.
Context (d : DB) (t : instant) (call : uuid) (a : Attempt).
Hypothesis Hg : good d t.
Hypothesis Ha : attempts d !! call = Some a.
Hypothesis Da : dialing a = true.
Let reset (c : Contact) : Contact := if active c && negb (waits c) then set_next (Some t) c else c.
Let d' := MakeContactDue (aContactID a) t (with_attempts (delete call) d).

Lemma void_attempts i x : attempts d' !! i = Some x -> i <> call /\ attempts d !! i = Some x.
Proof. simpl. intros H. apply lookup_delete_Some in H as [H1 H2]. auto. Qed.

Lemma void_contacts i c : contacts d' !! i = Some c -> exists c0, contacts d !! i = Some c0 /\
  c = (if decide (i = aContactID a) then reset c0 else c0).
Proof.
  simpl. unfold update_row. fold reset. destruct (decide (i = aContactID a)) as [->|Hne].
  - rewrite lookup_alter_eq, fmap_Some. naive_solver.
  - rewrite lookup_alter_ne by done. naive_solver.
Qed.

Lemma reset_keeps c : keeps c (reset c).
Proof. unfold reset. destruct (_ && _); by constructor. Qed.

Lemma void_keeps (i : uuid) c c0 : c = (if decide (i = aContactID a) then reset c0 else c0) -> keeps c0 c.
Proof. intros ->. destruct (decide _); [apply reset_keeps | apply keeps_refl]. Qed.

(** The contact of the voided attempt has no other call in flight. *)
Lemma void_none i x : attempts d' !! i = Some x -> dialing x = true -> aContactID x <> aContactID a.
Proof.
  intros H Dx E. destruct (void_attempts _ _ H) as [Hne Hx]. apply Hne.
  destruct (k_parent _ _ (g_keyed _ _ Hg) _ _ Ha) as (c & Hc & En & _).
  apply (f_unique _ (g_flights _ _ Hg) i call x a); [done..|].
  rewrite <- En. apply (parent_number d t i); [apply Hg|done|]. by rewrite E.
Qed.

Lemma void_keyed : keyed d' t.
Proof.
  constructor.
  - apply (k_campaign _ _ (g_keyed _ _ Hg)).
  - intros i c H. destruct (void_contacts _ _ H) as (c0 & Hc0 & E). destruct (void_keeps _ _ _ E) as [-> -> _ _ _].
    by apply (k_contact _ _ (g_keyed _ _ Hg)).
  - intros i x H. apply void_attempts in H as [_ H]. by apply (k_attempt _ _ (g_keyed _ _ Hg)).
  - intros i x H. apply void_attempts in H as [_ H]. destruct (k_parent _ _ (g_keyed _ _ Hg) _ _ H) as (c & Hc & ? & ?).
    simpl. unfold update_row. fold reset. destruct (decide (aContactID x = aContactID a)) as [E|Hne].
    + rewrite E in *. rewrite lookup_alter_eq, Hc. simpl. exists (reset c). destruct (reset_keeps c) as [_ -> -> _ _]. done.
    + rewrite lookup_alter_ne by done. by exists c.
  - simpl. pose proof (k_size _ _ (g_keyed _ _ Hg)). pose proof (map_subseteq_size _ _ (delete_subseteq (attempts d) call)). lia.
Qed.

Lemma void_flights : flights_ok d'.
Proof.
  constructor.
  - intros k1 k2 x y H1 H2. apply void_attempts in H1 as [_ H1]. apply void_attempts in H2 as [_ H2]. by apply (f_unique _ (g_flights _ _ Hg)).
  - intros k1 k2 x y H1 H2. apply void_attempts in H1 as [_ H1]. apply void_attempts in H2 as [_ H2]. by apply (f_latest _ (g_flights _ _ Hg) k1 k2).
  - intros i x c H1 H2 Dx. pose proof (void_none _ _ H1 Dx) as Hne. apply void_attempts in H1 as [_ H1].
    destruct (void_contacts _ _ H2) as (c0 & Hc0 & E). rewrite decide_False in E by done. subst c.
    by apply (f_idle _ (g_flights _ _ Hg) i x).
  - intros i x c H1 H2. apply void_attempts in H1 as [_ H1]. destruct (void_contacts _ _ H2) as (c0 & Hc0 & E).
    unfold draft. rewrite (kp_campaign _ _ (void_keeps _ _ _ E)). by apply (f_started _ (g_flights _ _ Hg) i x).
  - intros i c H Hac Hs. destruct (void_contacts _ _ H) as (c0 & Hc0 & E).
    destruct (decide (i = aContactID a)) as [->|Hne].
    + left. subst c. unfold reset in *. destruct (active c0 && negb (waits c0)) eqn:Ew; [simpl; eauto|].
      rewrite Hac in Ew. apply waits_spec. by destruct (waits c0).
    + subst c. destruct (f_kept _ (g_flights _ _ Hg) i c0 Hc0 Hac Hs) as [?|(k & x & Hx & Dx & E)]; [by left|].
      right. exists k, x. simpl. rewrite lookup_delete_ne; [done|]. intros <-. congruence.
  - intros i c H. destruct (void_contacts _ _ H) as (c0 & Hc0 & E). intros Hd.
    unfold draft in Hd. rewrite (kp_campaign _ _ (void_keeps _ _ _ E)) in Hd.
    destruct (decide (i = aContactID a)) as [->|Hne]; [|subst c; by apply (f_draft _ (g_flights _ _ Hg) i)].
    exfalso. by apply (f_started _ (g_flights _ _ Hg) call a c0).
Qed.

Lemma good_void : good d' t.
Proof.
  constructor; [apply void_keyed | apply void_flights|].
  intros i c H. destruct (void_contacts _ _ H) as (c0 & Hc0 & E). destruct (void_keeps _ _ _ E) as [_ _ _ -> ->].
  unfold charges. simpl. rewrite !(map_count_delete _ _ call a) by done.
  assert (Hch : forall cl, charged i cl a = false).
  { intros cl. unfold charged, class_of. rewrite Da. simpl. by rewrite andb_false_r. }
  rewrite !Hch, !Z.sub_0_r. by apply (g_counted _ _ Hg).
Qed.

End void.

Lemma good_Void d t call : good d t -> good (Void call t d).1 t.
Proof.
  intros Hg. unfold Void, txFor, DeleteDialingAttempt.
  destruct (attempts d !! call) as [a|] eqn:Ha; [|done]. simpl. destruct (dialing a) eqn:Da; [|done]. simpl.
  by apply (good_void d t call a).
Qed.

(** *** Every operation *)

Lemma good_tick d t dt : good d t -> 0 <= dt -> good d (t + dt).
Proof.
  intros [[] Hf Hn] Hdt. constructor; [|done|done]. constructor; try done.
  intros k a Ha. destruct (k_attempt0 _ _ Ha) as (? & ? & ? & ?). repeat split; try done; lia.
Qed.

Section machine.
Context (tzdb : string -> option Location) (outer : Range).
#[local] Existing Instance machine.

Lemma apply_ids clock att e d r d' : apply tzdb outer clock att e d = Ok (r, d') -> (lastID d <= lastID d')%N.
Proof.
  destruct r as [r|]; [|by intros ->%apply_none].
  intros H. destruct (apply_inv _ _ _ _ _ _ _ _ H) as (ct & cam & _ & _ & _ & ->).
  destruct (side_effects_tables att (aLeadIntent att)
    (FinishCampaignAttempt att e (if is_zero (eEndedAt e) then clock else eEndedAt e) d)) as (_ & _ & _ & E).
  simpl in E. by destruct (AttemptIsLatest _ _).
Qed.

Lemma import_ids id armed new d : (lastID d <= lastID (fold_left (insert_contact id armed) new d))%N.
Proof.
  apply (fold_left_inv (fun d' => (lastID d <= lastID d')%N)); [lia|]. intros d' n H _.
  unfold insert_contact. simpl. case_match; simpl; lia.
Qed.

Lemma defer_ids ids ats d : lastID (Defer ids ats d) = lastID d.
Proof. unfold Defer. by apply (fold_left_inv (fun d' => lastID d' = lastID d)). Qed.

Lemma exec_ids w o : (lastID (db w) <= lastID (db (exec_op tzdb outer w o)))%N.
Proof.
  destruct w as [d t]. destruct o; simpl; try lia.
  - unfold move. case_match; [simpl; lia|]. simpl. case_decide; simpl; lia.
  - unfold ImportContacts. case_match; [|simpl; lia]. case_match; [simpl; lia|]. apply import_ids.
  - destruct (may_begin _ _); [|lia]. unfold Begin, txFor, ClaimContactForDial, InsertCampaignAttempt.
    destruct (contacts d !! contact); simpl; [|lia]. destruct (active _); simpl; [|lia].
    destruct (number_dialing _ _); simpl; lia.
  - unfold SetLead. case_match; simpl; lia.
  - unfold Finish, txFor. destruct (LockAttemptByCall call d); simpl; [|lia]. destruct (negb _); simpl; [lia|].
    destruct (apply _ _ _ _ e d) as [[r d']|] eqn:H; simpl; [by eapply apply_ids | lia].
  - unfold Void, txFor, DeleteDialingAttempt. destruct (attempts d !! call); simpl; [|lia].
    destruct (dialing _); simpl; lia.
  - unfold InsertCDR, txFor, fromCDR. destruct (negb _); simpl; [lia|].
    destruct (LockAttemptByCall _ _); simpl; [|lia]. destruct (apply _ _ _ _ _ _) as [[r d']|] eqn:H'; simpl; [by apply apply_ids in H' | lia].
  - unfold FinishFromLedger, txFor. destruct (LockAttemptByCall call d); simpl; [|lia].
    destruct (cdrs d !! call); simpl; [|lia].
    destruct (negb _); simpl; [lia|].
    destruct (apply _ _ _ _ _ d) as [[r d']|] eqn:H'; simpl; [by eapply apply_ids | lia].
  - rewrite defer_ids. lia.
Qed.

Lemma good_exec w o : in_reach (db w) -> good (db w) (clk w) -> op_allowed o ->
  good (db (exec_op tzdb outer w o)) (clk (exec_op tzdb outer w o)).
Proof.
  destruct w as [d t]. intros Hr Hg Ho. destruct o; simpl in *.
  - by apply good_tick.
  - by apply good_InsertCampaign.
  - by apply good_UpdateCampaign.
  - by apply good_move.
  - by apply good_Complete.
  - by apply good_PauseFor.
  - by apply good_ImportContacts.
  - destruct (may_begin _ _) eqn:E; [by apply good_Begin | done].
  - unfold SetJob, SetAttemptJob, update_row. apply good_annotate; [done|]. intros a. by destruct (dialing a).
  - unfold SetLead. case_match; [done|]. simpl. unfold update_row. apply good_annotate; [done|].
    intros a. by destruct (dialing a).
  - by apply good_Finish.
  - by apply good_Void.
  - by apply good_InsertCDR.
  - by apply good_FinishFromLedger.
  - apply (good_same d); [done..|simpl; lia].
  - apply (good_same d); [done..|simpl; lia].
  - by apply good_MarkDialingDNC.
  - by apply good_Defer.
  - by apply good_RearmUntried.
Qed.

Lemma good_empty t : good empty_db t.
Proof.
  constructor.
  - constructor; simpl; intros *; rewrite ?lookup_empty; done.
  - constructor; simpl; intros *; rewrite ?lookup_empty; done.
  - intros k c. simpl. by rewrite lookup_empty.
Qed.

#[export] Instance inv_instance : Invariant (H := machine tzdb outer) inv.
Proof.
  split.
  - intros [d t] Hi _. simpl in *. subst d. apply good_empty.
  - intros w o Hw Ho Hr. apply good_exec; [|apply Hw|done];
      (unfold in_reach in *; pose proof (exec_ids w o); simpl in *; lia).
Qed.

(** After any run that stays within reach of the counters. *)
Lemma ledger_good w ops : initial (Machine := machine tzdb outer) w -> Forall op_allowed ops ->
  in_reach (db (reaches (H := machine tzdb outer) w ops)) ->
  good (db (reaches (H := machine tzdb outer) w ops)) (clk (reaches (H := machine tzdb outer) w ops)).
Proof. intros Hw Ho. by apply (reaches_invariant (H := machine tzdb outer) inv w ops). Qed.

End machine.

(** *** Contacts on the do-not-call list *)

(** Contact [k] is DNC, and its calls in flight are among [calls]. *)
Definition refused (k : uuid) (calls : gset uuid) (d : DB) : Prop :=
  (exists c, contacts d !! k = Some c /\ ctStatus c = ContactDoNotCall) /\
  (forall i a, attempts d !! i = Some a -> aContactID a = k -> dialing a = true -> i ∈ calls).

Lemma refused_active c : ctStatus c = ContactDoNotCall -> active c = false.
Proof. intros H. unfold active. by rewrite H. Qed.

Section dnc.
Context (tzdb : string -> option Location) (outer : Range) (k : uuid) (calls : gset uuid).

(** A statement on ACTIVE contacts only passes a DNC one by. *)
Lemma refused_update_where d cond f : (forall c, cond c = true -> active c = true) ->
  refused k calls d -> refused k calls (with_contacts (update_where cond f) d).
Proof.
  intros Hc [(c & Hk & Hs) Hf]. split; [|done]. exists c. split; [|done]. simpl. unfold update_where.
  rewrite lookup_fmap, Hk. simpl. destruct (cond c) eqn:E; [|done].
  apply Hc in E. by rewrite refused_active in E.
Qed.

Lemma refused_update_row d id cond f : (forall c, cond c = true -> active c = true) ->
  refused k calls d -> refused k calls (with_contacts (update_row id cond f) d).
Proof.
  intros Hc [(c & Hk & Hs) Hf]. split; [|done]. exists c. split; [|done]. simpl. unfold update_row.
  destruct (decide (id = k)) as [->|Hne]; [rewrite lookup_alter_eq, Hk | by rewrite lookup_alter_ne].
  simpl. destruct (cond c) eqn:E; [|done]. apply Hc in E. by rewrite refused_active in E.
Qed.

Lemma refused_same d d' : contacts d' = contacts d -> attempts d' = attempts d ->
  refused k calls d -> refused k calls d'.
Proof. intros Ec Ea. unfold refused. by rewrite Ec, Ea. Qed.

Lemma refused_annotate d i f : (forall a, same_call a (f a) /\ dialing (f a) = dialing a) ->
  refused k calls d -> refused k calls (with_attempts (alter f i) d).
Proof.
  intros Hs [Hc Hf]. split; [done|]. intros j a. simpl. destruct (decide (j = i)) as [->|Hne].
  - rewrite lookup_alter_eq, fmap_Some. intros (x & Hx & ->). destruct (Hs x) as [[_ _ -> _ _ _] ->]. by apply Hf.
  - rewrite lookup_alter_ne by done. apply Hf.
Qed.

Lemma refused_apply d t clock att e r d' (i : uuid) : keyed d t -> attempts d !! i = Some att ->
  apply tzdb outer clock att e d = Ok (r, d') -> refused k calls d -> refused k calls d'.
Proof.
  intros Hk Ha H Href. destruct r as [r|]; [|by rewrite (apply_none _ _ _ _ _ _ _ H)].
  destruct (apply_inv _ _ _ _ _ _ _ _ H) as (ct & cam & Hc & _ & _ & ->). clear H.
  set (endedAt := if is_zero _ then _ else _).
  destruct (side_effects_tables att (aLeadIntent att) (FinishCampaignAttempt att e endedAt d)) as (_ & T2 & T3 & _).
  set (d1 := leadSideEffects _ _ _) in *. destruct Href as [(c & Hck & Hst) Hf].
  assert (Hf1 : forall j a, attempts d1 !! j = Some a -> aContactID a = k -> dialing a = true -> j ∈ calls).
  { intros j a. rewrite T3. simpl. destruct (decide (j = aCallID att)) as [->|Hne].
    - rewrite lookup_alter_eq, fmap_Some. by intros (x & Hx & ->) _ ?.
    - rewrite lookup_alter_ne by done. apply Hf. }
  destruct (k_contact _ _ Hk _ _ Hc) as (Eid & _). rewrite Eid.
  destruct (AttemptIsLatest att d1); (split; [|done]); simpl; rewrite T2; simpl;
    (destruct (decide (aContactID att = k)) as [E|Hne];
      [rewrite E, lookup_alter_eq, Hck; simpl; eexists; split; [done|] | rewrite lookup_alter_ne by done; by exists c]).
  - simpl. rewrite E in Hc. assert (ct = c) as -> by congruence. unfold settled. by rewrite decide_True.
  - done.
Qed.

Lemma refused_exec w o : keyed (db w) (clk w) -> refused k calls (db w) ->
  refused k calls (db (exec_op tzdb outer w o)).
Proof.
  destruct w as [d t]. intros Hk H. simpl in Hk, H. destruct o; simpl; try done.
  - unfold move. case_match; [done|]. simpl. case_decide; [|done].
    apply refused_update_where; [|done]. by intros x (_ & ? & _)%andb3_inv.
  - unfold ImportContacts. case_match; [|done]. case_match; [done|]. simpl.
    apply (fold_left_inv (fun d => refused k calls d /\ (k <= lastID d)%N)).
    + split; [done|]. destruct H as [(x & Hx & _) _]. by apply (k_contact _ _ Hk) in Hx as (_ & ? & _).
    + intros d' n [[(x & Hx & Hs) Hf] Hle] _. unfold insert_contact. simpl. case_match; simpl.
      * split; [split; [by exists x | done] | lia].
      * split; [|lia]. split; [|done]. exists x. simpl. rewrite lookup_insert_ne; [done|]. lia.
  - destruct (may_begin _ _); [|done]. unfold Begin, txFor, ClaimContactForDial.
    destruct (contacts d !! contact) as [c|] eqn:Hc; [|done]. simpl. destruct (active c) eqn:Hac; [|done]. simpl.
    unfold InsertCampaignAttempt. destruct (number_dialing _ _); [done|]. simpl.
    destruct H as [(x & Hx & Hs) Hf].
    assert (contact <> k) by (intros ->; assert (x = c) as -> by congruence; by rewrite refused_active in Hac).
    split.
    + exists x. simpl. by rewrite lookup_insert_ne.
    + intros i a. simpl. rewrite lookup_insert_Some. intros [[_ <-]|[_ Ha]]; [done | by apply Hf].
  - unfold SetJob, SetAttemptJob, update_row. apply refused_annotate; [|done]. intros a.
    by destruct (dialing a) eqn:E.
  - unfold SetLead. case_match; [done|]. simpl. unfold update_row. apply refused_annotate; [|done]. intros a.
    by destruct (dialing a) eqn:E.
  - unfold Finish, txFor, LockAttemptByCall. destruct (attempts d !! call) as [att|] eqn:Ha; [|done].
    destruct (negb _); [done|]. destruct (apply _ _ _ att e d) as [[r d']|] eqn:Hap; [|done]. simpl.
    by eapply refused_apply.
  - unfold Void, txFor, DeleteDialingAttempt. destruct (attempts d !! call) as [a|]; [|done]. simpl.
    destruct (dialing a); [|done]. simpl. apply refused_update_row; [by intros x [? _]%andb_true_iff|].
    destruct H as [Hc Hf]. split; [done|]. intros i x. simpl. rewrite lookup_delete_Some. intros [_ Hx]. by apply Hf.
  - unfold InsertCDR, txFor. destruct (negb _); [done|]. unfold fromCDR, LockAttemptByCall. simpl.
    destruct (attempts d !! _) as [att|] eqn:Ha; [|by apply (refused_same d)].
    destruct (apply _ _ _ att _ _) as [[r d']|] eqn:Hap; [|done]. simpl.
    eapply (refused_apply (with_cdrs <[cdrCallID cdr := cdr]> d) t); [|done|done|by apply (refused_same d)].
    destruct Hk. by constructor.
  - unfold FinishFromLedger, txFor, LockAttemptByCall. destruct (attempts d !! call) as [att|] eqn:Ha; [|done].
    destruct (cdrs d !! call); [|done]. destruct (negb _); [done|].
    destruct (apply _ _ _ att _ d) as [[r d']|] eqn:Hap; [|done]. simpl. by eapply refused_apply.
  - apply refused_update_where; [|done]. intros x E. apply andb_true_iff in E as [E _].
    by apply andb3_inv in E as (? & _ & _).
  - unfold Defer. apply (fold_left_inv (refused k calls)); [done|]. intros d' x Hd' _.
    apply refused_update_row; [by intros y [? _]%andb_true_iff | done].
  - apply refused_update_where; [|done]. intros x E. apply andb_true_iff in E as [E _].
    by apply andb3_inv in E as (_ & ? & _).
Qed.

End dnc.

(** ** Properties *)

Section properties.
Context (tzdb : string -> option Location) (outer : Range).
#[local] Existing Instance machine.

Definition run (w : World) (ops : list Op) : World := reaches (H := machine tzdb outer) w ops.

(** C2: a call is counted once: after any interleaving of the dialer's, the
    ledger's, the API's and the list's transactions, the two counters of every
    contact are exactly the number of its finished attempts whose outcome
    reached the customer and the number the system failed, whatever revisions
    their records went through and however many attempts were voided. *)
Theorem counted_once w ops k c : initial (Machine := machine tzdb outer) w -> Forall op_allowed ops ->
  in_reach (db (run w ops)) -> contacts (db (run w ops)) !! k = Some c ->
  ctAttempts c = charges k ClassReached (db (run w ops)) /\
  ctSystemFailures c = charges k ClassSystem (db (run w ops)).
Proof. intros Hw Ho Hr. by apply (g_counted _ _ (ledger_good tzdb outer w ops Hw Ho Hr)). Qed.

(** C35: a number has one call in flight, across every campaign; an attempt in
    flight is its contact's latest, and its contact waits for no other dial. *)
Theorem one_call_per_number w ops : initial (Machine := machine tzdb outer) w -> Forall op_allowed ops ->
  in_reach (db (run w ops)) -> let d := db (run w ops) in
  forall k a, attempts d !! k = Some a -> dialing a = true ->
    (forall i b, attempts d !! i = Some b -> dialing b = true -> aNumber b = aNumber a -> i = k) /\
    AttemptIsLatest a d = true /\
    exists c, contacts d !! aContactID a = Some c /\ ctNextAttemptAt c = None /\ ctNumber c = aNumber a.
Proof.
  intros Hw Ho Hr d k a Ha Hd. destruct (ledger_good tzdb outer w ops Hw Ho Hr) as [Hk Hf _].
  split; [|split].
  - intros i b Hb Hdb E. by apply (f_unique _ Hf i k b a).
  - apply latest_spec. intros i b Hb E. by apply (f_latest _ Hf k i a b).
  - destruct (k_parent _ _ Hk _ _ Ha) as (c & Hc & E & _). exists c. split; [done|]. split; [|done].
    by apply (f_idle _ Hf k a).
Qed.

(** C25: no contact is lost: an ACTIVE contact of a campaign that was started and
    not cancelled either waits for a time or has its call in flight, after any
    interleaving, so there is always a next step for it. *)
Theorem no_contact_lost w ops k c : initial (Machine := machine tzdb outer) w -> Forall op_allowed ops ->
  in_reach (db (run w ops)) -> contacts (db (run w ops)) !! k = Some c ->
  ctStatus c = ContactActive -> started (db (run w ops)) c ->
  is_Some (ctNextAttemptAt c) \/ in_flight (db (run w ops)) k.
Proof.
  intros Hw Ho Hr Hc Hac. apply (f_kept _ (g_flights _ _ (ledger_good tzdb outer w ops Hw Ho Hr))); [done|].
  by apply bool_decide_eq_true.
Qed.

Lemma reaches_ids w ops : (lastID (db w) <= lastID (db (run w ops)))%N.
Proof.
  unfold run, reaches. apply (fold_left_inv (fun w' => (lastID (db w) <= lastID (db w'))%N)); [lia|].
  intros w' o H _. pose proof (exec_ids tzdb outer w' o). simpl. lia.
Qed.

(** C36: do-not-call is final: once a contact is DNC it is DNC after every later
    operation, revisions of older calls included, and no call to it is ever
    placed or reopened: every call to it in flight later was in flight then. *)
Theorem dnc_is_final w before after k c : initial (Machine := machine tzdb outer) w ->
  Forall op_allowed before -> Forall op_allowed after ->
  in_reach (db (run w (before ++ after))) ->
  contacts (db (run w before)) !! k = Some c -> ctStatus c = ContactDoNotCall ->
  (exists c', contacts (db (run w (before ++ after))) !! k = Some c' /\ ctStatus c' = ContactDoNotCall) /\
  forall i a, attempts (db (run w (before ++ after))) !! i = Some a -> aContactID a = k -> dialing a = true ->
    exists a0, attempts (db (run w before)) !! i = Some a0 /\ aContactID a0 = k /\ dialing a0 = true.
Proof.
  intros Hw Hb Ha Hr Hc Hs. unfold run in *. rewrite reaches_app in *.
  set (w1 := reaches (H := machine tzdb outer) w before) in *.
  assert (Hinv : inv w1) by by apply (reaches_invariant (H := machine tzdb outer) inv w before).
  set (w2 := reaches (H := machine tzdb outer) w1 after) in *.
  set (calls := dom (filter (fun x => aContactID x.2 = k /\ dialing x.2 = true) (attempts (db w1))) : gset uuid).
  assert (Hcalls : forall i, i ∈ calls <-> exists a, attempts (db w1) !! i = Some a /\ aContactID a = k /\ dialing a = true).
  { intros i. unfold calls. rewrite elem_of_dom. unfold is_Some. setoid_rewrite map_lookup_filter_Some. done. }
  enough (H : inv w2 /\ (in_reach (db w2) -> refused k calls (db w2))).
  { destruct H as [_ H]. destruct (H Hr) as [He Hf]. split; [done|]. intros i a Hi E Hd. apply Hcalls. by eapply Hf. }
  unfold w2, reaches. apply (fold_left_inv (fun w' => inv w' /\ (in_reach (db w') ->
    refused k calls (db w')))).
  - split; [done|]. intros _. split; [by exists c|]. intros i a Hi Hk Hd. apply Hcalls. by exists a.
  - intros w' o [Hi Href] Ho. assert (op_allowed o) by (rewrite Forall_forall in Ha; by apply Ha).
    split; [by apply (inv_exec (H := machine tzdb outer))|]. intros Hr'.
    assert (in_reach (db w')) by (unfold in_reach in *; pose proof (exec_ids tzdb outer w' o); simpl in *; lia).
    apply refused_exec; [by apply Hi | by apply Href].
Qed.

(** The contact and the attempt an ending of the latest attempt leaves. *)
Definition ending_of (clock : instant) (e : Ending) : instant := if is_zero (eEndedAt e) then clock else eEndedAt e.

Definition settled_contact (clock : instant) (cam : Campaign) (ct : Contact) (att : Attempt) (e : Ending) : Contact :=
  let c := recount ct att (eOutcome e) in
  let s := settled tzdb outer cam ct c (eOutcome e) (aLeadIntent att) (ending_of clock e) in
  let none := bool_decide (aLeadIntent att = LeadAbsent) in
  mkContact (ctID ct) (ctCampaignID ct) (ctNumber ct) (ctNumberRaw ct) (ctTimeZone ct) (ctSlots ct) (SStatus s)
    (wrapS 32 (Attempts c)) (wrapS 32 (SystemFailures c)) (NextAttemptAt s) (Some (eOutcome e))
    (if none then ctLeadIntent ct else aLeadIntent att) (if none then ctLeadNotes ct else aLeadNotes att)
    (Some (aID att)) (Some (aCallID att)).

Lemma apply_latest clock att e d t ct cam : keyed d t -> attempts d !! aCallID att = Some att ->
  contacts d !! aContactID att = Some ct -> campaigns d !! aCampaignID att = Some cam ->
  Outcome_IsValid (eOutcome e) = true -> dialing att = true \/ aOutcome att <> Some (eOutcome e) ->
  AttemptIsLatest att d = true ->
  exists r d', apply tzdb outer clock att e d = Ok (r, d') /\
    campaigns d' = campaigns d /\
    contacts d' = <[aContactID att := settled_contact clock cam ct att e]> (contacts d) /\
    attempts d' = <[aCallID att := finished_row e (ending_of clock e) att]> (attempts d) /\
    cdrs d' = cdrs d /\ (lastID d <= lastID d')%N /\
    dnc d' = (if decide (aLeadIntent att = LeadDoNotCall) then {[aNumber att]} ∪ dnc d else dnc d) /\
    callbacks d' = (if decide (aLeadIntent att = LeadHigh) then {[aCallID att]} ∪ callbacks d else callbacks d).
Proof.
  intros Hk Ha Hc Hcam Hv Hne Hlat. unfold apply. rewrite Hv. simpl.
  replace (_ && _ && _ && _) with false.
  2:{ destruct Hne as [Hd|Hne].
      - apply bool_decide_eq_true in Hd. by rewrite bool_decide_eq_false_2 by (by rewrite Hd).
      - rewrite (bool_decide_eq_false_2 (aOutcome att = _)) by done. by rewrite andb_false_r. }
  rewrite Hc, Hcam. fold (ending_of clock e).
  destruct (side_effects_tables att (aLeadIntent att) (FinishCampaignAttempt att e (ending_of clock e) d))
    as (T1 & T2 & T3 & T4).
  set (d1 := leadSideEffects _ _ _) in *. simpl in T1, T2, T3, T4.
  rewrite (alter_some _ _ _ _ Ha) in T3.
  destruct (latest_replace d d1 (aCallID att) att (finished_row e (ending_of clock e) att)) as [Hl1 _];
    [done|by constructor|done|done|]. rewrite Hl1. simpl. eexists _, _. split; [done|]. simpl.
  destruct (k_contact _ _ Hk _ _ Hc) as (Eid & _). rewrite Eid.
  split; [done|]. split; [by rewrite T2, (alter_some _ _ _ _ Hc)|].
  split; [done|].
  subst d1. destruct (aLeadIntent att); simpl; repeat split; try done; lia.
Qed.

Lemma Settle_unknown_dnc p c lead at_ s :
  SStatus (Settle p c OutcomeUnknown lead at_ s) = ContactDoNotCall -> lead = LeadDoNotCall.
Proof. unfold Settle. case_decide; [done|]. repeat (case_match; simpl; try done). Qed.

Lemma Settle_lead_dnc p c o at_ s : Settle p c o LeadDoNotCall at_ s = mkSettlement ContactDoNotCall SettleLeadDoNotCall None.
Proof. unfold Settle. by rewrite decide_True. Qed.

(** An UNKNOWN ending first, and then another: the second decides everything. *)
Lemma settled_twice clock clock' cam ct att e u at_ : eOutcome u = OutcomeUnknown -> dialing att = true ->
  0 <= ctAttempts ct < 2 ^ 31 - 1 -> 0 <= ctSystemFailures ct < 2 ^ 31 - 1 ->
  settled_contact clock cam (settled_contact clock' cam ct att u) (finished_row u at_ att) e =
  settled_contact clock cam ct att e.
Proof.
  intros Eu Hd H1 H2. apply bool_decide_eq_true in Hd.
  assert (Hrec : recount (settled_contact clock' cam ct att u) (finished_row u at_ att) (eOutcome e) =
    recount ct att (eOutcome e)).
  { unfold recount. simpl. unfold recount. rewrite Hd, Eu. simpl. rewrite !wrapS_id by lia.
    unfold Remove. simpl. f_equal. f_equal; lia. }
  unfold settled_contact at 1. rewrite Hrec. simpl. set (c := recount ct att (eOutcome e)).
  assert (Hset : let s := settled tzdb outer cam (settled_contact clock' cam ct att u) c
      (eOutcome e) (aLeadIntent att) (ending_of clock e) in
    let s' := settled tzdb outer cam ct c (eOutcome e) (aLeadIntent att) (ending_of clock e) in
    SStatus s = SStatus s' /\ NextAttemptAt s = NextAttemptAt s').
  { unfold settled. simpl. unfold settled. destruct (decide (ctStatus ct = ContactDoNotCall)) as [E|E].
    - by rewrite decide_True.
    - case_decide as Hd2; [|done]. rewrite Eu in Hd2. apply Settle_unknown_dnc in Hd2.
      rewrite Hd2. by rewrite Settle_lead_dnc. }
  destruct Hset as [-> ->]. unfold settled_contact. fold c. simpl.
  by destruct (bool_decide (aLeadIntent att = LeadAbsent)).
Qed.

(** A side effect repeated is the side effect. *)
Lemma if_union_twice {A} `{Countable A} (P : Prop) `{Decision P} (X Y : gset A) :
  (if decide P then X ∪ (if decide P then X ∪ Y else Y) else (if decide P then X ∪ Y else Y)) =
  (if decide P then X ∪ Y else Y).
Proof. destruct (decide P); [set_solver | done]. Qed.

Lemma cdr_decides_at d t t1 t2 t3 (call : uuid) att cdr at_ : in_reach d -> good d t ->
  let unknown := mkEnding OutcomeUnknown "UNKNOWN" 0 at_ in
  attempts d !! call = Some att -> dialing att = true -> cdrs d !! call = None -> cdrCallID cdr = call ->
  eOutcome (endingFromCDR cdr) <> OutcomeUnknown ->
  let recorded := (InsertCDR tzdb outer t2 cdr d).1 in
  let before := (InsertCDR tzdb outer t2 cdr (Finish tzdb outer t1 call unknown d).1).1 in
  let after := (Finish tzdb outer t3 call unknown recorded).1 in
  after = recorded /\
  campaigns before = campaigns after /\ contacts before = contacts after /\
  attempts before = attempts after /\ cdrs before = cdrs after /\
  dnc before = dnc after /\ callbacks before = callbacks after /\
  aOutcome <$> attempts before !! call = Some (Some (eOutcome (endingFromCDR cdr))).
Proof.
  intros Hr Hg u Ha Hd Hno Ecdr Hneu. pose proof Hg as [Hk Hf Hn].
  assert (Hv : Outcome_IsValid (eOutcome (endingFromCDR cdr)) = true) by apply Classify_valid.
  remember (endingFromCDR cdr) as ec eqn:Eec. set (fu := finished_row u (ending_of t1 u) att).
  destruct (k_attempt _ _ Hk _ _ Ha) as (Ecall & _). destruct (k_parent _ _ Hk _ _ Ha) as (ct & Hc & _ & Ecam).
  destruct (k_contact _ _ Hk _ _ Hc) as (_ & _ & [cam Hcam]). rewrite Ecam in Hcam.
  assert (Hlat : AttemptIsLatest att d = true).
  { apply latest_spec. intros i b Hb E. by apply (f_latest _ Hf call i att b). }
  destruct (apply_latest t1 att u d t ct cam) as (r1 & d1 & A1 & C1 & T1 & B1 & L1 & I1 & N1 & K1);
    [done|by rewrite Ecall|done|done|done|by left|done|].
  destruct (apply_latest t2 att ec (with_cdrs <[call := cdr]> d) t ct cam) as (r2 & d2 & A2 & C2 & T2 & B2 & L2 & _ & N2 & K2);
    [by destruct Hk; constructor|by rewrite Ecall|done|done|done|by left|done|].
  fold fu in B1. rewrite Ecall in *.
  assert (Hk1 : keyed (with_cdrs <[call := cdr]> d1) t).
  { destruct (g_keyed _ _ (good_apply tzdb outer t1 d t call att u r1 d1 Hr Hg Ha A1)). by constructor. }
  destruct (apply_latest t2 fu ec (with_cdrs <[call := cdr]> d1) t (settled_contact t1 cam ct att u) cam)
    as (r3 & d3 & A3 & C3 & T3 & B3 & L3 & _ & N3 & K3);
    cbn [with_cdrs campaigns contacts attempts]; try done.
  { rewrite B1. unfold fu. simpl. rewrite Ecall. apply lookup_insert_eq. }
  { rewrite T1. unfold fu. simpl. apply lookup_insert_eq. }
  { by rewrite C1. }
  { right. intros E. injection E as E. by apply Hneu. }
  { by apply (latest_replace d d1 call att fu); [|constructor|..]. }
  assert (Hfin : Finish tzdb outer t1 call u d = (d1, Ok r1)).
  { unfold Finish, txFor, LockAttemptByCall. by rewrite Ha, Hd; simpl; rewrite A1. }
  assert (Hins : InsertCDR tzdb outer t2 cdr d1 = (d3, Ok r3)).
  { unfold InsertCDR, txFor. rewrite Ecdr, L1, Hno. simpl. unfold fromCDR, LockAttemptByCall. simpl.
    rewrite Ecdr, B1, lookup_insert_eq. rewrite <- Eec. by rewrite A3. }
  assert (Hins' : InsertCDR tzdb outer t2 cdr d = (d2, Ok r2)).
  { unfold InsertCDR, txFor. rewrite Ecdr, Hno. simpl. unfold fromCDR, LockAttemptByCall. simpl.
    rewrite Ecdr, Ha. rewrite <- Eec. by rewrite A2. }
  assert (Hfin' : Finish tzdb outer t3 call u d2 = (d2, Ok None)).
  { unfold Finish, txFor, LockAttemptByCall. by rewrite B2, lookup_insert_eq. }
  cbv zeta. rewrite Hfin, Hins'. cbn [fst]. rewrite Hins, Hfin'. cbn [fst]. split; [done|].
  rewrite C3, T3, B3, L3, N3, K3, C2, T2, B2, L2, N2, K2. 
  cbn [with_cdrs campaigns contacts attempts cdrs dnc callbacks lastID] in *. rewrite C1, T1, B1, L1, N1, K1.
  unfold fu. cbn [finished_row aCallID aContactID aNumber aLeadIntent]. rewrite ?Ecall.
  assert (Hbnd : forall cl, 0 <= charges (aContactID att) cl d < 2 ^ 31 - 1).
  { intros cl. pose proof (charges_size (aContactID att) cl d). pose proof (k_size _ _ Hk).
    unfold in_reach in Hr. unfold charges in *. pose proof (map_count_nonneg (charged (aContactID att) cl) (attempts d)). lia. }
  destruct (Hn _ _ Hc) as [E1 E2].
  rewrite !insert_insert_eq, lookup_insert_eq, settled_twice by (done || rewrite ?E1, ?E2; auto).
  repeat split; apply if_union_twice.
Qed.

(** C24: the ledger decides a call a restart had guessed about: take a call
    that is in flight and has no record yet, after any interleaving. Whether
    the reconciliation guesses UNKNOWN for it and then its record arrives, or
    the record arrives and then the guess, each at whatever time but with no
    other transaction in between, the attempt, its contact (its counters, its
    fate and its next time) and the lists end up the same: as the record alone,
    when it says anything but UNKNOWN, would have left them.
    [void_forgets_answer] shows an interleaving in which they do not. *)
Theorem cdr_decides w ops call att cdr at_ t1 t2 t3 : initial (Machine := machine tzdb outer) w ->
  Forall op_allowed ops -> in_reach (db (run w ops)) ->
  let d := db (run w ops) in
  let unknown := mkEnding OutcomeUnknown "UNKNOWN" 0 at_ in
  attempts d !! call = Some att -> dialing att = true -> cdrs d !! call = None -> cdrCallID cdr = call ->
  eOutcome (endingFromCDR cdr) <> OutcomeUnknown ->
  let recorded := (InsertCDR tzdb outer t2 cdr d).1 in
  let before := (InsertCDR tzdb outer t2 cdr (Finish tzdb outer t1 call unknown d).1).1 in
  let after := (Finish tzdb outer t3 call unknown recorded).1 in
  after = recorded /\
  campaigns before = campaigns after /\ contacts before = contacts after /\
  attempts before = attempts after /\ cdrs before = cdrs after /\
  dnc before = dnc after /\ callbacks before = callbacks after /\
  aOutcome <$> attempts before !! call = Some (Some (eOutcome (endingFromCDR cdr))).
Proof.
  intros Hw Ho Hr d unknown Ha Hd Hno Ecall Hneu recorded before after.
  pose proof (ledger_good tzdb outer w ops Hw Ho Hr) as Hg. fold (run w ops) in Hg. fold d in Hg.
  by apply (cdr_decides_at d (clk (run w ops)) t1 t2 t3 call att cdr).
Qed.

End properties.

(** ** A run *)

Definition demo_campaign : Campaign :=
  mkCampaign 0 "Renewals" 9 "+4681234567" StatusDraft None "UTC" (mkWindow [] []) "46" 5 30 DefaultRetryPolicy None None.

(** Two contacts; the first is dialled, left no trace, and is dialled again a
    day later; the second declined to be called. *)
Definition demo_setup : list Op := [
  OpTick (1000 * second); OpCreate demo_campaign;
  OpImport 1 [mkNewContact "+46700000001" "0700000001" "" ∅; mkNewContact "+46700000002" "0700000002" "" ∅];
  OpMove 1 ActStart;
  OpBegin 2; OpFinish 5 (mkEnding OutcomeUnknown "UNKNOWN" 0 (1000 * second));
  OpAddDNC "+46700000002"; OpBegin 3; OpMarkDialingDNC;
  OpTick (24 * hour); OpBegin 2].

Definition demo_cdr (call : uuid) : CDR :=
  mkCDR call (1030 * second) (1090 * second) "ANSWERED" "NORMAL_CLEARING" 60 0 ["BOT"] "" false.

Definition no_zones : string -> option Location := fun _ => None.
Definition demo_outer : Range := mkRange 0 0.
Definition demo_run (ops : list Op) : World := run no_zones demo_outer (mkWorld empty_db 0) ops.

(** a voided attempt does leave a trace: when a record that says ANSWERED
    reaches an older attempt while a newer one is being placed, and the newer
    one is then voided, the contact's latest attempt is the answered one and
    yet the contact is ACTIVE and due at once; [Due] offers it for another call. *)
Theorem void_forgets_answer :
  let w := demo_run (demo_setup ++ [OpCDR (demo_cdr 5); OpVoid 11]) in
  aOutcome <$> attempts (db w) !! 5%N = Some (Some OutcomeAnswered) /\
  aState <$> attempts (db w) !! 11%N = None /\
  ((fun a => AttemptIsLatest a (db w)) <$> attempts (db w) !! 5%N = Some true) /\
  map (fun c => (ctID c, ctStatus c)) (Due 1 (clk w) 0 10 (db w)) = [(2%N, ContactActive)].
Proof. vm_compute. repeat split. Qed.

(** ** Witnesses *)

Lemma counted_once_witness :
  exists c, contacts (db (demo_run demo_setup)) !! 2%N = Some c /\ ctAttempts c = 1 /\
    ctAttempts c = charges 2%N ClassReached (db (demo_run demo_setup)) /\
    ctSystemFailures c = charges 2%N ClassSystem (db (demo_run demo_setup)).
Proof.
  eexists. split; [vm_compute; reflexivity|]. split; [reflexivity|].
  apply (counted_once no_zones demo_outer (mkWorld empty_db 0) demo_setup).
  - reflexivity.
  - repeat constructor; vm_compute; congruence.
  - vm_compute. reflexivity.
  - vm_compute. reflexivity.
Defined.

Lemma one_call_per_number_witness :
  exists a, attempts (db (demo_run demo_setup)) !! 11%N = Some a /\
    AttemptIsLatest a (db (demo_run demo_setup)) = true.
Proof.
  eexists. split; [vm_compute; reflexivity|].
  eapply (one_call_per_number no_zones demo_outer (mkWorld empty_db 0) demo_setup) with (k := 11%N).
  - reflexivity.
  - repeat constructor; vm_compute; congruence.
  - vm_compute. reflexivity.
  - vm_compute. reflexivity.
  - reflexivity.
Defined.

Lemma no_contact_lost_witness :
  exists c, contacts (db (demo_run demo_setup)) !! 2%N = Some c /\ ctNextAttemptAt c = None /\
    (is_Some (ctNextAttemptAt c) \/ in_flight (db (demo_run demo_setup)) 2%N).
Proof.
  eexists. split; [vm_compute; reflexivity|]. split; [reflexivity|].
  apply (no_contact_lost no_zones demo_outer (mkWorld empty_db 0) demo_setup).
  - reflexivity.
  - repeat constructor; vm_compute; congruence.
  - vm_compute. reflexivity.
  - vm_compute. reflexivity.
  - reflexivity.
  - exists StatusRunning. split; [vm_compute; reflexivity | left].
Defined.

Lemma dnc_is_final_witness :
  exists c', contacts (db (demo_run (demo_setup ++ [OpCDR (demo_cdr 8); OpVoid 8]))) !! 3%N = Some c' /\
    ctStatus c' = ContactDoNotCall.
Proof.
  eapply (dnc_is_final no_zones demo_outer (mkWorld empty_db 0) demo_setup [OpCDR (demo_cdr 8); OpVoid 8] 3%N).
  - reflexivity.
  - repeat constructor; vm_compute; congruence.
  - repeat constructor.
  - vm_compute. reflexivity.
  - vm_compute. reflexivity.
  - reflexivity.
Defined.

Lemma cdr_decides_witness :
  let w := demo_run demo_setup in
  let u := mkEnding OutcomeUnknown "UNKNOWN" 0 (clk w) in
  contacts (InsertCDR no_zones demo_outer (clk w + hour) (demo_cdr 11) (Finish no_zones demo_outer (clk w) 11 u (db w)).1).1 =
  contacts (InsertCDR no_zones demo_outer (clk w + hour) (demo_cdr 11) (db w)).1.
Proof.
  destruct (attempts (db (demo_run demo_setup)) !! 11%N) as [att|] eqn:Ea; [|vm_compute in Ea; discriminate].
  pose proof (cdr_decides no_zones demo_outer (mkWorld empty_db 0) demo_setup 11%N att (demo_cdr 11)
    (clk (demo_run demo_setup)) (clk (demo_run demo_setup)) (clk (demo_run demo_setup) + hour) 0) as H.
  cbv zeta in H. intros w u.
  destruct H as (E & _ & Hc & _).
  - reflexivity.
  - repeat constructor; vm_compute; congruence.
  - vm_compute. reflexivity.
  - exact Ea.
  - vm_compute in Ea. injection Ea as <-. reflexivity.
  - vm_compute. reflexivity.
  - reflexivity.
  - vm_compute. discriminate.
  - rewrite E in Hc. exact Hc.
Defined.

End CampaignLedger.
