(* ===== verification/Dialer.v ===== *)
(** * The campaign dialer: [internal/dialer]

    The actor that admits calls, written as the code is: every operation in a
    state monad over the actor's own fields and the world it acts on, which is
    reached only through the interface [Deps] (the store, the placer, the bot
    slots, the line account, the registry and the clock). The account of calls
    in flight is proved exact after every iteration, no admission passes a
    limit, and the conditions under which an admission pass ends are stated. *)

From S2P Require Import Prelude Float64 DayRange PhoneNum Calendar CampaignTypes CallWindow Schedule CampaignPolicy Capacity BotSlots CampaignData CampaignStore.
Import Float64 DayRange Calendar CampaignTypes Window Schedule CampaignPolicy Capacity CampaignData.

Module Dialer.

(** ** What it talks to *)

(** [internal/outbound/outbound.go:AIDialRequest] The fields the dialer sets. *)
Record AIDialRequest := mkAIDialRequest {
  rqCallID : uuid;
  rqLegID : uuid;
  rqTo : string;
  rqCanonicalTo : string;
  rqDIDNumber : string;
  rqRingTimeout : duration;
  rqCampaignID : uuid;
  rqAttemptID : uuid
}.

(** What the placer refuses with, as the dialer tells refusals apart, and the
    error's text for the others. *)
Inductive PlaceError :=
| PlaceAlreadyPlaced
| PlaceNothingSent
| PlaceNoOutboundEndpoint
| PlaceFailed (kind : DialError) (text : string).

(** [internal/dialer/dialer.go:Store] The store, [Placer], [Slots], [Lines],
    the registry's [IsLive] and the [Clock], over a world [W]. [None] for the
    slots or the lines is the nil interface: the rule is not applied. *)
Class Deps (W : Type) := {
  stRunningCampaigns : W -> res StoreError (list Campaign) * W;
  stMove : uuid -> CampaignStore.Action -> W -> res Error Campaign * W;
  stDue : uuid -> instant -> duration -> Z -> W -> res StoreError (list Contact) * W;
  stHeldByFrequency : uuid -> instant -> duration -> Z -> W -> res StoreError (list Held) * W;
  stDefer : list uuid -> list instant -> W -> res StoreError unit * W;
  stRearmUntried : uuid -> instant -> W -> res StoreError unit * W;
  stPending : uuid -> instant -> W -> res StoreError Pending * W;
  stEarliestPending : uuid -> W -> res StoreError (option Contact) * W;
  stComplete : uuid -> instant -> W -> res StoreError bool * W;
  stPauseFor : uuid -> PauseReason -> W -> res StoreError bool * W;
  stDNCContacts : Z -> W -> res StoreError (list uuid) * W;
  stMarkDialingDNC : W -> res StoreError unit * W;
  stDialing : W -> res StoreError (list DialingAttempt) * W;
  stRecentOutcomesSince : uuid -> instant -> Z -> W -> res StoreError (list Outcome) * W;
  stBegin : uuid -> instant -> W -> res StoreError Attempt * W;
  stSetJob : uuid -> string -> W -> res StoreError unit * W;
  stFinish : uuid -> Ending -> W -> res StoreError (option Finished) * W;
  stVoid : uuid -> instant -> W -> res StoreError unit * W;
  stFinishFromLedger : uuid -> W -> res StoreError bool * W;
  plPlaceAI : AIDialRequest -> W -> res PlaceError string * W;
  slUsage : option (W -> BotSlots.Usage);
  lnDIDLimits : option (W -> res StoreError (gmap string Z) * W);
  lnLinesInUse : string -> W -> Z;
  isLive : uuid -> W -> bool;
  clockNow : W -> instant
}.

(** ** Its state *)

(** [internal/dialer/dialer.go:Config] [noOverdial] is the tests' switch. *)
Record Config := mkConfig {
  MaxRinging : Z;
  Frequency : duration;
  OutboundHours : Range;
  TrunkBreakerCount : Z;
  ProviderBreakerCount : Z;
  DialForm : PhoneNum.DialForm;
  DefaultCountryCode : string;
  CfgInboundReserve : Z;
  OverflowTightenRate : f64;
  OverflowStopRate : f64;
  noOverdial : bool;
  SafetyScan : duration;
  BackstopMargin : duration;
  DialTimeout : duration;
  MaxBatch : Z
}.

(** [internal/dialer/dialer.go:Config.withDefaults] *)
Definition withDefaults (c : Config) : Config :=
  let rates := fle (OverflowTightenRate c) f0 || fle (OverflowStopRate c) (OverflowTightenRate c) in
  mkConfig
    (if MaxRinging c <? 1 then 100 else MaxRinging c)
    (Frequency c) (OutboundHours c)
    (if TrunkBreakerCount c <? 1 then 20 else TrunkBreakerCount c)
    (if ProviderBreakerCount c <? 1 then 5 else ProviderBreakerCount c)
    (DialForm c) (DefaultCountryCode c) (CfgInboundReserve c)
    (if rates then fdiv (of_int 1) (of_int 100) else OverflowTightenRate c)
    (if rates then fdiv (of_int 3) (of_int 100) else OverflowStopRate c)
    (noOverdial c)
    (if SafetyScan c <=? 0 then 60 * second else SafetyScan c)
    (if BackstopMargin c <=? 0 then 30 * second else BackstopMargin c)
    (if DialTimeout c <=? 0 then 15 * second else DialTimeout c)
    (if MaxBatch c <=? 0 then 200 else MaxBatch c).

(** [internal/dialer/dialer.go:flight] *)
Record flight := mkFlight {
  flAttemptID : uuid;
  flContactID : uuid;
  flCampaignID : uuid;
  flCallID : uuid;
  flStartedAt : instant;
  flRing : duration;
  flNextCheck : instant;
  flIsAnswered : bool
}.

(** [internal/dialer/dialer.go:L230-L237] The account of calls in flight. *)
Record Account := mkAccount {
  flights : gmap uuid flight;
  inflight : gmap uuid Z;
  ringing : Z;
  talking : Z;
  ringingBy : gmap uuid Z
}.

(** [internal/dialer/admit.go:rangSample] *)
Record rangSample := mkRangSample {
  smAt : instant;
  smDialledAt : instant;
  smCampaignID : uuid;
  smIsAnswered : bool
}.

(** [internal/dialer/dialer.go:Dialer] The fields the actor owns ([acc] the
    account of calls in flight), the published view, and the campaigns the change hook was told of. The mailbox is the list
    of messages an iteration takes; the schedules cached by their own
    arguments, the warnings given once and the timer are left out. *)
Record Dialer := mkDialer {
  cfg : Config;
  isReady : bool;
  isDirty : bool;
  dncDirty : bool;
  nextWake : instant;
  rot : nat;
  acc : Account;
  stats : gmap uuid CapacityStats;
  samples : list rangSample;
  limits : gmap string Z;
  halted : gset uuid;
  since : gmap uuid instant;
  rearm : gset uuid;
  progress : gmap uuid Progress;
  stopped : gset uuid;
  view : gmap uuid Progress;
  touched : list uuid
}.

Definition set_isReady (x : bool) (d : Dialer) : Dialer :=
  mkDialer (cfg d) x (isDirty d) (dncDirty d) (nextWake d) (rot d) (acc d) (stats d) (samples d) (limits d)
    (halted d) (since d) (rearm d) (progress d) (stopped d) (view d) (touched d).

Definition set_isDirty (x : bool) (d : Dialer) : Dialer :=
  mkDialer (cfg d) (isReady d) x (dncDirty d) (nextWake d) (rot d) (acc d) (stats d) (samples d) (limits d)
    (halted d) (since d) (rearm d) (progress d) (stopped d) (view d) (touched d).

Definition set_dncDirty (x : bool) (d : Dialer) : Dialer :=
  mkDialer (cfg d) (isReady d) (isDirty d) x (nextWake d) (rot d) (acc d) (stats d) (samples d) (limits d)
    (halted d) (since d) (rearm d) (progress d) (stopped d) (view d) (touched d).

Definition set_nextWake (x : instant) (d : Dialer) : Dialer :=
  mkDialer (cfg d) (isReady d) (isDirty d) (dncDirty d) x (rot d) (acc d) (stats d) (samples d) (limits d)
    (halted d) (since d) (rearm d) (progress d) (stopped d) (view d) (touched d).

Definition set_rot (x : nat) (d : Dialer) : Dialer :=
  mkDialer (cfg d) (isReady d) (isDirty d) (dncDirty d) (nextWake d) x (acc d) (stats d) (samples d) (limits d)
    (halted d) (since d) (rearm d) (progress d) (stopped d) (view d) (touched d).

Definition set_acc (x : Account) (d : Dialer) : Dialer :=
  mkDialer (cfg d) (isReady d) (isDirty d) (dncDirty d) (nextWake d) (rot d) x (stats d) (samples d) (limits d)
    (halted d) (since d) (rearm d) (progress d) (stopped d) (view d) (touched d).

Definition set_stats (x : gmap uuid CapacityStats) (d : Dialer) : Dialer :=
  mkDialer (cfg d) (isReady d) (isDirty d) (dncDirty d) (nextWake d) (rot d) (acc d) x (samples d) (limits d)
    (halted d) (since d) (rearm d) (progress d) (stopped d) (view d) (touched d).

Definition set_samples (x : list rangSample) (d : Dialer) : Dialer :=
  mkDialer (cfg d) (isReady d) (isDirty d) (dncDirty d) (nextWake d) (rot d) (acc d) (stats d) x (limits d)
    (halted d) (since d) (rearm d) (progress d) (stopped d) (view d) (touched d).

Definition set_limits (x : gmap string Z) (d : Dialer) : Dialer :=
  mkDialer (cfg d) (isReady d) (isDirty d) (dncDirty d) (nextWake d) (rot d) (acc d) (stats d) (samples d) x
    (halted d) (since d) (rearm d) (progress d) (stopped d) (view d) (touched d).

Definition set_halted (x : gset uuid) (d : Dialer) : Dialer :=
  mkDialer (cfg d) (isReady d) (isDirty d) (dncDirty d) (nextWake d) (rot d) (acc d) (stats d) (samples d)
    (limits d) x (since d) (rearm d) (progress d) (stopped d) (view d) (touched d).

Definition set_since (x : gmap uuid instant) (d : Dialer) : Dialer :=
  mkDialer (cfg d) (isReady d) (isDirty d) (dncDirty d) (nextWake d) (rot d) (acc d) (stats d) (samples d)
    (limits d) (halted d) x (rearm d) (progress d) (stopped d) (view d) (touched d).

Definition set_rearm (x : gset uuid) (d : Dialer) : Dialer :=
  mkDialer (cfg d) (isReady d) (isDirty d) (dncDirty d) (nextWake d) (rot d) (acc d) (stats d) (samples d)
    (limits d) (halted d) (since d) x (progress d) (stopped d) (view d) (touched d).

Definition set_progress (x : gmap uuid Progress) (d : Dialer) : Dialer :=
  mkDialer (cfg d) (isReady d) (isDirty d) (dncDirty d) (nextWake d) (rot d) (acc d) (stats d) (samples d)
    (limits d) (halted d) (since d) (rearm d) x (stopped d) (view d) (touched d).

Definition set_stopped (x : gset uuid) (d : Dialer) : Dialer :=
  mkDialer (cfg d) (isReady d) (isDirty d) (dncDirty d) (nextWake d) (rot d) (acc d) (stats d) (samples d)
    (limits d) (halted d) (since d) (rearm d) (progress d) x (view d) (touched d).

Definition set_view (x : gmap uuid Progress) (d : Dialer) : Dialer :=
  mkDialer (cfg d) (isReady d) (isDirty d) (dncDirty d) (nextWake d) (rot d) (acc d) (stats d) (samples d)
    (limits d) (halted d) (since d) (rearm d) (progress d) (stopped d) x (touched d).

Definition set_touched (x : list uuid) (d : Dialer) : Dialer :=
  mkDialer (cfg d) (isReady d) (isDirty d) (dncDirty d) (nextWake d) (rot d) (acc d) (stats d) (samples d)
    (limits d) (halted d) (since d) (rearm d) (progress d) (stopped d) (view d) x.

(** [internal/dialer/dialer.go:New] *)
Definition New (c : Config) : Dialer :=
  mkDialer (withDefaults c) false true true 0 0 (mkAccount ∅ ∅ 0 0 ∅) ∅ [] ∅ ∅ ∅ ∅ ∅ ∅ ∅ [].

(** ** The monad *)

(** A stretch of the actor: its own fields and the world, and a result. *)
Definition M (W A : Type) : Type := Dialer * W -> A * (Dialer * W).

#[export] Instance M_ret {W} : MRet (M W) := fun A x s => (x, s).
#[export] Instance M_bind {W} : MBind (M W) := fun A B f m s => let '(a, s') := m s in f a s'.

Definition get {W} : M W Dialer := fun s => (s.1, s).
Definition gets {W A} (f : Dialer -> A) : M W A := fun s => (f s.1, s).
Definition modify {W} (f : Dialer -> Dialer) : M W unit := fun s => (tt, (f s.1, s.2)).

(** A call out to the world, and a read of it. *)
Definition call {W A} (f : W -> A * W) : M W A := fun s => let '(a, w) := f s.2 in (a, (s.1, w)).
Definition ask {W A} (f : W -> A) : M W A := fun s => (f s.2, s).

Definition when {W} (b : bool) (m : M W unit) : M W unit := if b then m else mret tt.

Fixpoint for_each {W A} (l : list A) (f : A -> M W unit) : M W unit :=
  match l with
  | [] => mret tt
  | x :: l => f x ≫= fun _ => for_each l f
  end.

(** ** The account *)

(** A count in a map, its entry gone at zero. *)
Definition bump (id : uuid) (delta : Z) (m : gmap uuid Z) : gmap uuid Z :=
  let n := default 0 (m !! id) + delta in
  if n <=? 0 then delete id m else <[id := n]> m.

(** [internal/dialer/admit.go:Dialer.ringBy] *)
Definition ringBy (id : uuid) (delta : Z) (a : Account) : Account :=
  mkAccount (flights a) (inflight a) (ringing a) (talking a) (bump id delta (ringingBy a)).

(** [internal/dialer/admit.go:L374-L381] A flight enters the account, ringing. *)
Definition take_off (f : flight) (a : Account) : Account :=
  ringBy (flCampaignID f) 1
    (mkAccount (<[flCallID f := f]> (flights a))
       (<[flCampaignID f := default 0 (inflight a !! flCampaignID f) + 1]> (inflight a))
       (ringing a + 1) (talking a) (ringingBy a)).

(** [internal/dialer/admit.go:Dialer.drop] *)
Definition drop_flight (callID : uuid) (a : Account) : Account * option flight :=
  match flights a !! callID with
  | None => (a, None)
  | Some f =>
      let inflight' := bump (flCampaignID f) (-1) (inflight a) in
      let flights' := delete callID (flights a) in
      (if flIsAnswered f
       then mkAccount flights' inflight' (ringing a) (talking a - 1) (ringingBy a)
       else ringBy (flCampaignID f) (-1)
              (mkAccount flights' inflight' (ringing a - 1) (talking a) (ringingBy a)), Some f)
  end.

(** [internal/dialer/dialer.go:L558-L567] A ringing flight is answered. *)
Definition pick_up (callID : uuid) (f : flight) (a : Account) : Account :=
  let f' := mkFlight (flAttemptID f) (flContactID f) (flCampaignID f) (flCallID f) (flStartedAt f) (flRing f)
              (flNextCheck f) true in
  ringBy (flCampaignID f) (-1)
    (mkAccount (<[callID := f']> (flights a)) (inflight a) (ringing a - 1) (talking a + 1) (ringingBy a)).

Definition with_check (at_ : instant) (f : flight) : flight :=
  mkFlight (flAttemptID f) (flContactID f) (flCampaignID f) (flCallID f) (flStartedAt f) (flRing f) at_ (flIsAnswered f).

(** [f.nextCheck = at_]. *)
Definition recheck (callID : uuid) (at_ : instant) (a : Account) : Account :=
  mkAccount (alter (with_check at_) callID (flights a)) (inflight a) (ringing a) (talking a) (ringingBy a).

(** The calls of campaign [id] in flight, as [d.inflight[id]] reads. *)
Definition in_flight_of (d : Dialer) (id : uuid) : Z := default 0 (inflight (acc d) !! id).

Section actor.
Context {W : Type} {deps : Deps W} (tzdb : string -> option Location).

Notation act := (M W).

(** [internal/dialer/dialer.go:Dialer.touch] *)
Definition touch (id : uuid) : act unit := modify (fun d => set_touched (touched d ++ [id]) d).

Definition now : act instant := ask clockNow.

(** [internal/dialer/admit.go:Dialer.drop] On the actor's account. *)
Definition drop (callID : uuid) : act (option flight) := fun s =>
  let '(a, f) := drop_flight callID (acc s.1) in (f, (set_acc a s.1, s.2)).

(** ** Statistics *)

(** [internal/dialer/admit.go:const(warmStart)] *)
Definition warmStart : Z := 3 * Z.of_nat RateWindow.

(** [internal/dialer/admit.go:Dialer.statsFor] *)
Definition statsFor (id : uuid) : act CapacityStats :=
  known ← gets (fun d => stats d !! id);
  match known with
  | Some s => mret s
  | None =>
      s ← gets (fun d => NewCapacityStats (OverflowTightenRate (cfg d)) (OverflowStopRate (cfg d)));
      recent ← call (stRecentOutcomesSince id (unixNano 0) warmStart);
      match recent with
      | Err _ => mret s
      | Ok recent =>
          let s := fold_left Observe (reverse recent) s in
          _ ← modify (fun d => set_stats (<[id := s]> (stats d)) d);
          mret s
      end
  end.

(** [internal/dialer/admit.go:const(sampleMargin)] *)
Definition sampleMargin : duration := 3 * second.

(** [internal/dialer/admit.go:Dialer.sample] *)
Definition sample (f : flight) (isAnswered : bool) (now : instant) : act unit :=
  let at_ := flStartedAt f + (flRing f + sampleMargin) in
  let at_ := if at_ <? now then now else at_ in
  modify (fun d => set_samples (samples d ++ [mkRangSample at_ (flStartedAt f) (flCampaignID f) isAnswered]) d).

(** [internal/dialer/admit.go:Dialer.matureSamples] The next sample's time, zero for none. *)
Definition matureSamples (now : instant) : act instant := fun s =>
  let d := s.1 in
  let keep := filter (fun sm => now < smAt sm) (samples d) in
  let ripe := filter (fun sm => ~ now < smAt sm) (samples d) in
  let stats' := fold_left (fun m sm =>
    match m !! smCampaignID sm with
    | Some s => <[smCampaignID sm := Rang s (smDialledAt sm) (smIsAnswered sm)]> m
    | None => m
    end) ripe (stats d) in
  (fold_left earlier (map smAt keep) zero_time, (set_samples keep (set_stats stats' d), s.2)).

(** [internal/dialer/admit.go:Dialer.expectedAnswers] The counts in the order
    the map is ranged over. *)
Fixpoint expectedAnswers_loop (l : list (uuid * Z)) (sum : f64) : act f64 :=
  match l with
  | [] => mret sum
  | (id, n) :: l =>
      s ← statsFor id;
      no ← gets (fun d => noOverdial (cfg d));
      let bound := if no : bool then f1 else Bound s in
      expectedAnswers_loop l (fadd sum (fmul bound (of_int n)))
  end.

Definition expectedAnswers : act f64 :=
  by_campaign ← gets (fun d => map_to_list (ringingBy (acc d)));
  expectedAnswers_loop by_campaign f0.

(** ** Limits *)

(** [internal/obs/callmetrics.go:const(DialerBlockedCampaign)] Why admission stopped. *)
Inductive Blocked := BlockedCampaign | BlockedRinging | BlockedDIDLines | BlockedBot.

(** [internal/dialer/admit.go:L198-L202] The DID's lines are all in use. *)
Definition lines_full (c : Campaign) (d : Dialer) (w : W) : bool :=
  match lnDIDLimits, limits d !! cDIDNumber c with
  | Some _, Some limit => limit <=? lnLinesInUse (cDIDNumber c) w
  | _, _ => false
  end.

(** [internal/dialer/admit.go:L204-L209] The bot rule, on the answers expected. *)
Definition bot_full (u : BotSlots.Usage) (reserve : Z) (expected : f64) : bool :=
  let reserve := Z.max reserve (BotSlots.UInboundReserve u) in
  let held := of_int (BotSlots.UInUse u + BotSlots.UReserved u + BotSlots.UWaiting u) in
  flt (fadd (of_int (BotSlots.UCap u - reserve)) (fdiv (of_int 1) (of_int 1000000000)))
      (fadd (fadd held expected) f1).

(** [internal/dialer/admit.go:Dialer.limit] *)
Definition limit (c : Campaign) : act (option Blocked) :=
  d ← get;
  lines ← ask (lines_full c d);
  if cMaxConcurrent c <=? in_flight_of d (cID c) then mret (Some BlockedCampaign)
  else if MaxRinging (cfg d) <=? ringing (acc d) then mret (Some BlockedRinging)
  else if lines : bool then mret (Some BlockedDIDLines)
  else match slUsage with
       | None => mret None
       | Some usage =>
           u ← ask usage;
           expected ← expectedAnswers;
           mret (if bot_full u (CfgInboundReserve (cfg d)) expected then Some BlockedBot else None)
       end.

(** ** Contacts *)

(** [internal/dialer/admit.go:Dialer.scheduleFor] Without its cache. *)
Definition scheduleFor (c : Campaign) (zone : string) : act (option Schedule) :=
  outer ← gets (fun d => OutboundHours (cfg d));
  let s := match NewSchedule tzdb (cTimeZone c) zone (cWindow c) outer with
           | Ok s => Ok s
           | Err e => if String.eqb zone "" then Err e else NewSchedule tzdb (cTimeZone c) "" (cWindow c) outer
           end in
  mret (match s with Ok s => if decide (is_Some (Zone s)) then Some s else None | Err _ => None end).

(** [internal/dialer/admit.go:bucket] *)
Record bucket := mkBucket { bReady : list Contact; bDone : bool; bBlocked : option Blocked }.

(** [internal/dialer/admit.go:const(maxRefills)] *)
Definition maxRefills : nat := 50.

(** [internal/dialer/admit.go:L286-L291] When a held contact may be dialled. *)
Definition held_until (c : Campaign) (h : Held) : act instant :=
  frequency ← gets (fun d => Frequency (cfg d));
  sched ← scheduleFor c (hTimeZone h);
  let at_ := hLastTouch h + frequency in
  mret (match sched with Some s => default at_ (NextOpen s at_) | None => at_ end).

Fixpoint collect {A B} (f : A -> act B) (l : list A) : act (list B) :=
  match l with
  | [] => mret []
  | x :: l => y ← f x; ys ← collect f l; mret (y :: ys)
  end.

(** [internal/dialer/admit.go:L309-L314] When a due contact may be dialled: [None] is now. *)
Definition wait_until (c : Campaign) (now : instant) (ct : Contact) : act (option instant) :=
  sched ← scheduleFor c (ctTimeZone ct);
  mret (match sched with
        | Some s => if IsOpen s now then None else Some (default (now + 24 * hour) (NextStart s now))
        | None => None
        end).

(** [internal/dialer/admit.go:Dialer.refill] The rounds left, the contacts
    ready and whether any contact was moved. *)
Fixpoint refill_loop (c : Campaign) (limit : Z) (now : instant) (rounds : nat) (ready : list Contact) (moved : bool)
    : act (res StoreError (list Contact * bool)) :=
  match rounds with
  | O => _ ← modify (set_isDirty true); mret (Ok (ready, moved))
  | S rounds =>
      frequency ← gets (fun d => Frequency (cfg d));
      held ← call (stHeldByFrequency (cID c) now frequency limit);
      match held with
      | Err e => mret (Err e)
      | Ok ((_ :: _) as held) =>
          ats ← collect (held_until c) held;
          r ← call (stDefer (map hContactID held) ats);
          match r with
          | Err e => mret (Err e)
          | Ok _ => refill_loop c limit now rounds ready true
          end
      | Ok [] =>
          due ← call (stDue (cID c) now frequency limit);
          match due with
          | Err e => mret (Err e)
          | Ok [] => mret (Ok (ready, moved))
          | Ok due =>
              waits ← collect (wait_until c now) due;
              let judged := zip due waits in
              let closed := omap (fun x => at_ ← x.2; Some (ctID x.1, at_)) judged in
              let ready := ready ++ omap (fun x => match x.2 with None => Some x.1 | Some _ => None end) judged in
              r ← match closed with
                  | [] => mret (Ok tt)
                  | _ => call (stDefer closed.*1 closed.*2)
                  end;
              match r with
              | Err e => mret (Err e)
              | Ok _ =>
                  let moved := moved || negb (bool_decide (closed = [])) in
                  match ready with
                  | _ :: _ => mret (Ok (ready, moved))
                  | [] => refill_loop c limit now rounds ready moved
                  end
              end
          end
      end
  end.

Definition refill (c : Campaign) (b : bucket) (now : instant) : act (res StoreError (list Contact * bool)) :=
  d ← get;
  let free := Z.min (cMaxConcurrent c - in_flight_of d (cID c)) (MaxRinging (cfg d) - ringing (acc d)) in
  let limit := Z.min (Z.max (free * 4) 20) (MaxBatch (cfg d)) in
  refill_loop c limit now maxRefills (bReady b) false.

(** ** Ending attempts *)

(** [internal/dialer/admit.go:Dialer.judgeBreakers] *)
Definition judgeBreakers (f : Finished) : act unit :=
  d ← get;
  if decide (fCampaignID f ∈ halted d) then mret tt
  else
    let since := default 0 (since d !! fCampaignID f) in
    reason ←
      (if decide (ClassOf (fOutcome f) = ClassSystem) then
         recent ← call (stRecentOutcomesSince (fCampaignID f) since (TrunkBreakerCount (cfg d)));
         mret (match recent with
               | Ok recent => if TrunkBreakerTrips recent (TrunkBreakerCount (cfg d)) then Some PauseTrunkFailure else None
               | Err _ => None
               end)
       else if decide (fOutcome f = OutcomeBotFailed) then
         recent ← call (stRecentOutcomesSince (fCampaignID f) since (Z.max (ProviderBreakerCount (cfg d) * 50) 200));
         mret (match recent with
               | Ok recent =>
                   if ProviderBreakerTrips recent (ProviderBreakerCount (cfg d)) then Some PauseProviderFailure else None
               | Err _ => None
               end)
       else mret None);
    match reason with
    | None => mret tt
    | Some reason =>
        paused ← call (stPauseFor (fCampaignID f) reason);
        match paused with
        | Ok true =>
            _ ← touch (fCampaignID f);
            modify (fun d => set_isDirty true (set_halted ({[fCampaignID f]} ∪ halted d) d))
        | _ => mret tt
        end
    end.

(** [internal/dialer/admit.go:Dialer.pauseNoEndpoint] *)
Definition pauseNoEndpoint (id : uuid) : act unit :=
  d ← get;
  if decide (id ∈ halted d \/ id ∈ stopped d) then mret tt
  else
    _ ← modify (fun d => set_stopped ({[id]} ∪ stopped d) d);
    paused ← call (stPauseFor id PauseOutboundNotConfigured);
    match paused with
    | Ok true =>
        _ ← modify (fun d => set_isDirty true (set_halted ({[id]} ∪ halted d) d));
        touch id
    | _ => mret tt
    end.

(** [internal/dialer/admit.go:Dialer.voidAttempt] *)
Definition voidAttempt (f : flight) (now : instant) : act unit :=
  r ← call (stVoid (flCallID f) now);
  match r with
  | Err _ => mret tt
  | Ok _ => _ ← drop (flCallID f); mret tt
  end.

(** [internal/dialer/admit.go:L441-L450] The cause an attempt that was not placed is finished with. *)
Definition dial_cause (outcome : option Outcome) (text : string) : string :=
  match outcome with
  | Some OutcomeDNCSkipped => "NUMBER_ON_DNC"
  | Some OutcomeInvalidNumber => "INVALID_NUMBER"
  | _ => String.substring 0 200 text
  end.

(** [internal/dialer/admit.go:Dialer.dialFailed] *)
Definition dialFailed (c : Campaign) (f : flight) (err : PlaceError) (now : instant) : act unit :=
  match err with
  | PlaceAlreadyPlaced => mret tt
  | PlaceNothingSent => voidAttempt f now
  | PlaceNoOutboundEndpoint => _ ← voidAttempt f now; pauseNoEndpoint (cID c)
  | PlaceFailed kind text =>
      let verdict := ClassifyDialError kind in
      if IsPending verdict then mret tt
      else if IsVoid verdict then voidAttempt f now
      else match VOutcome verdict with
           | None => mret tt
           | Some outcome =>
               done ← call (stFinish (flCallID f) (mkEnding outcome (dial_cause (Some outcome) text) 0 now));
               match done with
               | Err _ => mret tt
               | Ok done =>
                   _ ← drop (flCallID f);
                   match done with Some done => judgeBreakers done | None => mret tt end
               end
           end
  end.

(** [internal/dialer/admit.go:Dialer.dialString] Without its warning. *)
Definition dialString (d : Dialer) (c : Campaign) (number : string) : string :=
  let cc := if String.eqb (cDefaultCountryCode c) "" then DefaultCountryCode (cfg d) else cDefaultCountryCode c in
  (PhoneNum.DialString number (DialForm (cfg d)) cc).1.

(** [internal/dialer/admit.go:Dialer.admit] The outcome of the write-ahead:
    whether an attempt was begun. *)
Definition admitCall (c : Campaign) (ct : Contact) (now : instant) : act bool :=
  att ← call (stBegin (ctID ct) now);
  match att with
  | Err _ => mret false
  | Ok att =>
      d ← get;
      let ring := durSec (cRingTimeoutSec c) in
      let f := mkFlight (aID att) (ctID ct) (cID c) (aCallID att) now ring (now + (ring + BackstopMargin (cfg d))) false in
      _ ← modify (fun d => set_acc (take_off f (acc d)) d);
      placed ← call (plPlaceAI (mkAIDialRequest (aCallID att) (aLegID att) (dialString d c (ctNumber ct)) (ctNumber ct)
                                  (cDIDNumber c) ring (cID c) (aID att)));
      _ ← match placed with
          | Ok job => if String.eqb job "" then mret tt
                      else (_ ← call (stSetJob (aCallID att) job); mret tt)
          | Err err => dialFailed c f err now
          end;
      mret true
  end.

(** [internal/dialer/admit.go:Dialer.admitOne] The bucket it leaves. *)
Definition admitOne (c : Campaign) (b : bucket) (now : instant) : act bucket :=
  filled ← match bReady b with
           | _ :: _ => mret (Ok (bReady b, false))
           | [] => refill c b now
           end;
  match filled with
  | Err _ => mret (mkBucket (bReady b) true (bBlocked b))
  | Ok ([], _) => mret (mkBucket [] true (bBlocked b))
  | Ok (contact :: ready, _) =>
      reason ← limit c;
      match reason with
      | Some reason => mret (mkBucket (contact :: ready) true (Some reason))
      | None =>
          _ ← admitCall c contact now;
          mret (mkBucket ready (bDone b) (bBlocked b))
      end
  end.

(** ** The pass *)

(** [internal/dialer/admit.go:const(stoppedRetry)] *)
Definition stoppedRetry : duration := 5 * second.

Definition buckets := gmap uuid bucket.

Definition empty_bucket : bucket := mkBucket [] false None.

(** The campaign may be given another call in this pass. *)
Definition open_for (d : Dialer) (bs : buckets) (c : Campaign) : bool :=
  negb (bDone (default empty_bucket (bs !! cID c)) || bool_decide (cID c ∈ halted d) || bool_decide (cID c ∈ stopped d)).

(** [internal/dialer/admit.go:L95-L104] The loop that picks the open campaign
    with the fewest calls in flight, the first of them in the order given. *)
Definition pick (d : Dialer) (bs : buckets) (l : list Campaign) : option Campaign :=
  fold_left (fun pick c =>
    if open_for d bs c then
      match pick with
      | Some p => if in_flight_of d (cID c) <? in_flight_of d (cID p) then Some c else pick
      | None => Some c
      end
    else pick) l None.

(** [internal/dialer/admit.go:L94-L109] The admission loop, over the campaigns
    from the rotating start on. [None] is a loop that has not ended. *)
Fixpoint admission (fuel : nat) (l : list Campaign) (bs : buckets) (now : instant) : act (option buckets) :=
  match fuel with
  | O => mret None
  | S fuel =>
      d ← get;
      match pick d bs l with
      | None => mret (Some bs)
      | Some c =>
          b ← admitOne c (default empty_bucket (bs !! cID c)) now;
          admission fuel l (<[cID c := b]> bs) now
      end
  end.

(** [live[(start+i)%n]] for [i] from 0. *)
Definition rotated {A} (start : nat) (l : list A) : list A := List.skipn start l ++ take start l.

(** [internal/dialer/admit.go:Dialer.account] The earliest time the campaign
    needs another look, zero for none. *)
Definition account (c : Campaign) (b : option bucket) (now : instant) : act instant :=
  pending ← call (stPending (cID c) now);
  match pending with
  | Err _ => mret zero_time
  | Ok pending =>
      d ← get;
      if decide (cID c ∈ halted d) then
        _ ← modify (fun d => set_progress (delete (cID c) (progress d)) d);
        mret zero_time
      else
        let n := in_flight_of d (cID c) in
        completed ←
          (if (pdActiveTotal pending =? 0) && (n =? 0) && (0 <? pdAllTotal pending) then
             done ← call (stComplete (cID c) now);
             match done with
             | Ok true =>
                 _ ← touch (cID c);
                 _ ← modify (fun d => set_progress (delete (cID c) (progress d)) d);
                 mret true
             | _ => mret false
             end
           else mret false);
        if completed : bool then mret zero_time
        else
          p ← (match b ≫= bBlocked with
               | Some _ => mret (mkProgress (Some ActivityAtCapacity) None 0)
               | None =>
                   if 0 <? n then mret (mkProgress (Some ActivityDialing) (pdNextFuture pending) 0)
                   else
                     first ← call (stEarliestPending (cID c));
                     closed ← match first with
                              | Ok (Some first) =>
                                  sched ← scheduleFor c (ctTimeZone first);
                                  mret (match sched with Some s => negb (IsOpen s now) | None => false end)
                              | _ => mret false
                              end;
                     mret (mkProgress (Some (if closed : bool then ActivityWaitingWindow else ActivityWaitingRetry))
                             (pdNextFuture pending) 0)
               end);
          _ ← modify (fun d => set_progress (<[cID c := p]> (progress d)) d);
          mret (default zero_time (pdNextFuture pending))
  end.

(** [internal/dialer/recover.go:L144-L157] Skipping the contacts listed; how many were. *)
Fixpoint skip_contacts (ids : list uuid) (now : instant) (skipped : Z) : act Z :=
  match ids with
  | [] => mret skipped
  | id :: ids =>
      att ← call (stBegin id now);
      match att with
      | Err _ => skip_contacts ids now skipped
      | Ok att =>
          r ← call (stFinish (aCallID att) (mkEnding OutcomeDNCSkipped "NUMBER_ON_DNC" 0 now));
          skip_contacts ids now (if is_ok r then skipped + 1 else skipped)
      end
  end.

(** [internal/dialer/recover.go:L135-L161] The rounds left. *)
Fixpoint skipDNC_loop (rounds : nat) (now : instant) : act unit :=
  match rounds with
  | O => mret tt
  | S rounds =>
      ids ← call (stDNCContacts 200);
      match ids with
      | Err _ | Ok [] => mret tt
      | Ok ids =>
          skipped ← skip_contacts ids now 0;
          if skipped =? 0 then mret tt else skipDNC_loop rounds now
      end
  end.

(** [internal/dialer/recover.go:Dialer.skipDNC] *)
Definition skipDNC (now : instant) : act unit :=
  _ ← call stMarkDialingDNC;
  skipDNC_loop 100 now.

(** [internal/dialer/admit.go:L48-L82] What a pass does before it admits, and the campaigns it admits for. *)
Definition housekeeping (running : list Campaign) (now : instant) : act (list Campaign) :=
  next ← matureSamples now;
  _ ← modify (fun d => if negb (is_zero next) && (next <? nextWake d) then set_nextWake next d else d);
  dirty ← gets dncDirty;
  _ ← (if dirty : bool then
         _ ← modify (set_dncDirty false);
         _ ← skipDNC now;
         for_each running (fun c => touch (cID c))
       else mret tt);
  _ ← for_each running (fun c =>
        d ← get;
        if decide (cID c ∈ rearm d) then
          _ ← modify (fun d => set_rearm (rearm d ∖ {[cID c]}) d);
          _ ← call (stRearmUntried (cID c) now);
          mret tt
        else mret tt);
  _ ← match lnDIDLimits with
      | None => mret tt
      | Some read =>
          limits ← call read;
          match limits with
          | Err _ => mret tt
          | Ok limits => modify (set_limits limits)
          end
      end;
  gets (fun d => filter (fun c => cID c ∉ halted d) running).

(** The account of every campaign, and the earliest time any needs another look. *)
Fixpoint account_all (live : list Campaign) (bs : buckets) (now next : instant) : act instant :=
  match live with
  | [] => mret next
  | c :: live =>
      n ← account c (bs !! cID c) now;
      account_all live bs now (if is_zero n then next else earlier next n)
  end.

(** A bucket's claim on the next pass, given whether its campaign was stopped. *)
Definition again (now : instant) (d : Dialer) (x : uuid * bucket) : Dialer :=
  let '(id, b) := x in
  if decide (id ∈ stopped d) then
    if now + stoppedRetry <? nextWake d then set_nextWake (now + stoppedRetry) d else d
  else match bBlocked b with
       | None => if bDone b then d else set_isDirty true d
       | Some _ => d
       end.

(** [internal/dialer/admit.go:Dialer.pass] The fuel is that of the admission
    loop; [None] is a pass that has not ended. *)
Definition pass (fuel : nat) : act (option unit) :=
  _ ← modify (fun d => set_stopped ∅ (set_isDirty false d));
  now ← now;
  _ ← modify (fun d => set_nextWake (now + SafetyScan (cfg d)) d);
  running ← call stRunningCampaigns;
  match running with
  | Err _ => _ ← modify (set_nextWake (now + 5 * second)); mret (Some tt)
  | Ok running =>
      live ← housekeeping running now;
      let bs := list_to_map (map (fun c => (cID c, empty_bucket)) live) : buckets in
      start ← gets (fun d => Nat.modulo (rot d) (length live));
      _ ← (if decide (live = []) then mret tt else modify (fun d => set_rot (S (rot d)) d));
      ended ← admission fuel (rotated start live) bs now;
      match ended with
      | None => mret None
      | Some bs =>
          next ← account_all live bs now zero_time;
          let seen := list_to_set (map cID live) : gset uuid in
          _ ← modify (fun d => set_progress (filter (fun x => x.1 ∈ seen) (progress d)) d);
          _ ← modify (fun d =>
                let next := fold_left earlier (map flNextCheck (map_to_list (flights (acc d))).*2) next in
                if negb (is_zero next) && (next <? nextWake d) then set_nextWake next d else d);
          _ ← modify (fun d => fold_left (again now) (map_to_list bs) d);
          mret (Some tt)
      end
  end.

(** ** The read side *)

(** [internal/dialer/admit.go:Dialer.publish] *)
Definition publish : act unit :=
  modify (fun d =>
    let prev := view d in
    let next := map_imap (fun id p => Some (mkProgress (pActivity p) (pNextDialAt p) (in_flight_of d id))) (progress d) in
    let moved := filter (fun x => prev !! x.1 <> Some x.2) (map_to_list next) in
    let gone := filter (fun x => next !! x.1 = None) (map_to_list prev) in
    set_touched (touched d ++ moved.*1 ++ gone.*1) (set_view next d)).

(** ** Recovery *)

(** [internal/dialer/recover.go:const(liveRecheck)] *)
Definition liveRecheck : duration := 60 * second.

(** [internal/dialer/recover.go:reconciliation] *)
Inductive reconciliation := reconciledNone | reconciledFromCDR | reconciledUnknown.

#[local] Instance reconciliation_eq_dec : EqDecision reconciliation.
Proof. solve_decision. Defined.

(** [internal/dialer/recover.go:Dialer.reconcile] *)
Definition reconcile (callID : uuid) (now : instant) : act reconciliation :=
  found ← call (stFinishFromLedger callID);
  match found with
  | Err _ => mret reconciledNone
  | Ok true => _ ← drop callID; mret reconciledFromCDR
  | Ok false =>
      done ← call (stFinish callID (mkEnding OutcomeUnknown "UNKNOWN" 0 now));
      match done with
      | Err _ => mret reconciledNone
      | Ok _ => _ ← drop callID; mret reconciledUnknown
      end
  end.

(** [internal/dialer/recover.go:Dialer.recoverAttempts] *)
Definition recoverAttempts : act unit :=
  dialing ← call stDialing;
  match dialing with
  | Err _ => mret tt
  | Ok dialing =>
      now ← now;
      for_each dialing (fun da =>
        let a := daAttempt da in
        d ← get;
        if decide (is_Some (flights (acc d) !! aCallID a)) then mret tt
        else
          live ← ask (isLive (aCallID a));
          if live : bool then
            let ring := durSec (daRingTimeoutSec da) in
            modify (fun d => set_acc (take_off
              (mkFlight (aID a) (aContactID a) (aCampaignID a) (aCallID a) (aStartedAt a) ring
                 (aStartedAt a + (ring + BackstopMargin (cfg d))) false) (acc d)) d)
          else (_ ← reconcile (aCallID a) now; mret tt))
  end.

(** [internal/dialer/recover.go:Dialer.checkBackstops] *)
Definition checkBackstops (now : instant) : act unit :=
  due ← gets (fun d => (map_to_list (flights (acc d))).*2);
  for_each due (fun f =>
    if now <? flNextCheck f then mret tt
    else
      live ← ask (isLive (flCallID f));
      if live : bool then modify (fun d => set_acc (recheck (flCallID f) (now + liveRecheck) (acc d)) d)
      else
        r ← reconcile (flCallID f) now;
        _ ← (if decide (r = reconciledNone)
             then modify (fun d => set_acc (recheck (flCallID f) (now + liveRecheck) (acc d)) d)
             else mret tt);
        modify (set_isDirty true)).

(** ** Messages *)

(** [internal/dialer/dialer.go:finishedMsg] A command carries the move it asks
    for; [CmdSync] is the command that does nothing. *)
Inductive Msg :=
| FinishedMsg (f : Finished)
| AnsweredMsg (callID : uuid)
| WakeMsg (dnc : bool) (rearmFor : uuid)
| CmdMove (id : uuid) (a : CampaignStore.Action)
| CmdSync.

(** The statistics of a campaign moved, if they are kept. *)
Definition on_stats (id : uuid) (f : CapacityStats -> CapacityStats) : act unit :=
  modify (fun d => set_stats (alter f id (stats d)) d).

(** [internal/dialer/admit.go:Dialer.feedStats] *)
Definition feedStats (f : Finished) (fl : option flight) : act unit :=
  known ← gets (fun d => stats d !! fCampaignID f);
  match known with
  | None => mret tt
  | Some _ =>
      if negb (DoesRing (fOutcome f)) then mret tt
      else
        now ← now;
        let fl := default (mkFlight 0 0 (fCampaignID f) (fCallID f) now 0 0 false) fl in
        if IsAnsweredOutcome (fOutcome f) then
          _ ← (if flIsAnswered fl then mret tt
               else _ ← on_stats (fCampaignID f) (fun s => Answered s (fCallID f)); sample fl true now);
          if decide (fOutcome f = OutcomeOverflow) then on_stats (fCampaignID f) (fun s => Overflowed s (fCallID f))
          else mret tt
        else sample fl false now
  end.

(** [internal/dialer/admit.go:Dialer.onFinished] *)
Definition onFinished (f : Finished) : act unit :=
  fl ← drop (fCallID f);
  _ ← modify (set_isDirty true);
  _ ← touch (fCampaignID f);
  if fIsRevision f then mret tt
  else _ ← feedStats f fl; judgeBreakers f.

(** [internal/dialer/dialer.go:Dialer.began] *)
Definition began (id : uuid) : act unit :=
  now ← now;
  modify (fun d => set_dncDirty true (set_halted (halted d ∖ {[id]}) (set_since (<[id := now]> (since d)) d))).

(** [internal/dialer/dialer.go:Dialer.move] A start and a resume begin the breakers' run anew. *)
Definition move (id : uuid) (a : CampaignStore.Action) : act (res Error Campaign) :=
  r ← call (stMove id a);
  _ ← (match r, a with
       | Ok _, CampaignStore.ActStart | Ok _, CampaignStore.ActResume => began id
       | _, _ => mret tt
       end);
  _ ← modify (set_isDirty true);
  _ ← (match r with Ok cam => touch (cID cam) | Err _ => mret tt end);
  mret r.

(** [internal/dialer/dialer.go:Dialer.handle] *)
Definition handle (m : Msg) : act unit :=
  match m with
  | CmdMove id a => _ ← move id a; mret tt
  | CmdSync => mret tt
  | FinishedMsg f => onFinished f
  | AnsweredMsg callID =>
      found ← gets (fun d => flights (acc d) !! callID);
      match found with
      | Some f =>
          if flIsAnswered f then mret tt
          else
            _ ← statsFor (flCampaignID f);
            _ ← on_stats (flCampaignID f) (fun s => Answered s (flCallID f));
            now ← now;
            _ ← sample f true now;
            modify (fun d => set_isDirty true (set_acc (pick_up callID f (acc d)) d))
      | None => mret tt
      end
  | WakeMsg dnc rearmFor =>
      modify (fun d =>
        let d := set_isDirty true d in
        let d := if dnc then set_dncDirty true d else d in
        if N.eqb rearmFor uuid_Nil then d else set_rearm ({[rearmFor]} ∪ rearm d) d)
  end.

(** [internal/dialer/dialer.go:L463-L482] One turn of [Run]: the messages
    taken, whether the switch has been reconciled, and the fuel of the pass. *)
Definition turn (fuel : nat) (inbox : list Msg) (reconciled : bool) : act (option unit) :=
  now ← now;
  _ ← for_each inbox handle;
  ready ← gets isReady;
  _ ← (if negb ready && reconciled then
         _ ← modify (set_isReady true);
         _ ← recoverAttempts;
         modify (set_isDirty true)
       else mret tt);
  ready ← gets isReady;
  ended ← (if ready : bool then
             _ ← checkBackstops now;
             d ← get;
             if (nextWake d <=? now) || isDirty d then pass fuel else mret (Some tt)
           else mret (Some tt));
  match ended with
  | None => mret None
  | Some _ => _ ← publish; mret (Some tt)
  end.

End actor.

End Dialer.
