(* ===== verification/DialerAccount.v ===== *)
(** * The dialer's account of calls in flight

    What the dialer relies on of its store, as the laws of a class; a small
    program logic for the actor's monad; and the account: after any turn of
    the actor the counts the limits are judged by are exactly those of the
    flights it holds, and only contacts the store offered are ever begun. *)

From S2P Require Import Prelude Float64 Calendar CampaignTypes CallWindow Schedule CampaignPolicy Capacity BotSlots CampaignData CampaignStore Dialer.
Import Calendar CampaignTypes Capacity CampaignData Dialer.

Module DialerAccount.

(** ** What the dialer relies on *)

Section laws.
Context {W : Type} {deps : Deps W}.

(** A call out. A contact is begun only when the store has offered it. *)
Inductive world_step (offered : W -> uuid -> Prop) (w : W) : W -> Prop :=
| ws_running : world_step offered w (stRunningCampaigns w).2
| ws_move id a : world_step offered w (stMove id a w).2
| ws_due id t f n : world_step offered w (stDue id t f n w).2
| ws_held id t f n : world_step offered w (stHeldByFrequency id t f n w).2
| ws_defer ids ats : world_step offered w (stDefer ids ats w).2
| ws_rearm id t : world_step offered w (stRearmUntried id t w).2
| ws_pending id t : world_step offered w (stPending id t w).2
| ws_earliest id : world_step offered w (stEarliestPending id w).2
| ws_complete id t : world_step offered w (stComplete id t w).2
| ws_pause id r : world_step offered w (stPauseFor id r w).2
| ws_dnc n : world_step offered w (stDNCContacts n w).2
| ws_mark : world_step offered w (stMarkDialingDNC w).2
| ws_dialing : world_step offered w (stDialing w).2
| ws_recent id t n : world_step offered w (stRecentOutcomesSince id t n w).2
| ws_begin id t : offered w id -> world_step offered w (stBegin id t w).2
| ws_job id job : world_step offered w (stSetJob id job w).2
| ws_finish id e : world_step offered w (stFinish id e w).2
| ws_void id t : world_step offered w (stVoid id t w).2
| ws_ledger id : world_step offered w (stFinishFromLedger id w).2
| ws_place rq : world_step offered w (plPlaceAI rq w).2
| ws_limits read : lnDIDLimits = Some read -> world_step offered w (read w).2.

(** The store's promises: [sane] is what it keeps of itself; a call id is issued
    once and stays issued; a contact offered stays offered, and so does a
    campaign that has started. *)
Class DepsLaws := {
  sane : W -> Prop;
  issued : W -> uuid -> Prop;
  offered : W -> uuid -> Prop;
  runs : W -> uuid -> Prop;
  law_sane w w' : world_step offered w w' -> sane w -> sane w';
  law_issued w w' k : world_step offered w w' -> issued w k -> issued w' k;
  law_offered w w' k : world_step offered w w' -> offered w k -> offered w' k;
  law_runs w w' k : world_step offered w w' -> runs w k -> runs w' k;
  law_running w l c : (stRunningCampaigns w).1 = Ok l -> c ∈ l -> sane w -> runs (stRunningCampaigns w).2 (cID c);
  law_due id t f n w l ct : (stDue id t f n w).1 = Ok l -> ct ∈ l -> sane w -> runs w id ->
    offered (stDue id t f n w).2 (ctID ct);
  law_dnc n w l id : (stDNCContacts n w).1 = Ok l -> id ∈ l -> sane w -> offered (stDNCContacts n w).2 id;
  law_begin id t w a : sane w -> offered w id -> (stBegin id t w).1 = Ok a ->
    ~ issued w (aCallID a) /\ issued (stBegin id t w).2 (aCallID a);
  law_dialing w l da : (stDialing w).1 = Ok l -> da ∈ l -> sane w -> issued (stDialing w).2 (aCallID (daAttempt da))
}.

End laws.

Arguments DepsLaws W {deps}.

(** ** The account's invariant *)

Definition of_campaign (id : uuid) (f : flight) : bool := N.eqb (flCampaignID f) id.
Definition rings (f : flight) : bool := negb (flIsAnswered f).

Lemma of_campaign_eq id f : of_campaign id f = N.eqb (flCampaignID f) id.
Proof. done. Qed.

Lemma rings_eq f : rings f = negb (flIsAnswered f).
Proof. done. Qed.

(** [m] holds the positive counts. *)
Definition tallies (m : gmap uuid Z) (n : uuid -> Z) : Prop :=
  forall id, m !! id = if n id <=? 0 then None else Some (n id).

Record account_ok (a : Account) : Prop := mkAccountOk {
  ao_key k f : flights a !! k = Some f -> flCallID f = k;
  ao_inflight : tallies (inflight a) (fun id => map_count (of_campaign id) (flights a));
  ao_ringing : ringing a = map_count rings (flights a);
  ao_talking : talking a = map_count flIsAnswered (flights a);
  ao_ringingBy : tallies (ringingBy a) (fun id => map_count (fun f => of_campaign id f && rings f) (flights a))
}.

Lemma tallies_default m n id : tallies m n -> (forall id, 0 <= n id) -> default 0 (m !! id) = n id.
Proof. intros Hm Hn. rewrite Hm. specialize (Hn id). destruct (Z.leb_spec (n id) 0); simpl; lia. Qed.

Lemma tallies_bump m n id delta n' : tallies m n -> (forall i, 0 <= n i) ->
  (forall i, n' i = if N.eqb id i then n i + delta else n i) -> tallies (bump id delta m) n'.
Proof.
  intros Hm Hn Hn' i. unfold bump. rewrite (tallies_default m n id) by done. rewrite Hn'.
  destruct (N.eqb_spec id i) as [->|Hne].
  - destruct (_ <=? 0); [apply lookup_delete_eq | apply lookup_insert_eq].
  - destruct (_ <=? 0); [rewrite lookup_delete_ne by done | rewrite lookup_insert_ne by done]; apply Hm.
Qed.

Lemma take_off_ok a f : account_ok a -> flights a !! flCallID f = None -> flIsAnswered f = false ->
  account_ok (take_off f a).
Proof.
  intros [Hk Hi Hr Ht Hb] Hf Ha. unfold take_off, ringBy. constructor; simpl.
  - intros k g. rewrite lookup_insert_Some. intros [[<- <-]|[_ H]]; [done | by apply Hk].
  - intros id. rewrite map_count_insert_new by done. rewrite (tallies_default _ _ _ Hi) by (intros; apply map_count_nonneg).
    rewrite ?of_campaign_eq. destruct (N.eqb_spec (flCampaignID f) id) as [<-|Hne].
    + rewrite lookup_insert_eq. simpl. destruct (Z.leb_spec (map_count (of_campaign (flCampaignID f)) (flights a) + 1) 0); [|done].
      pose proof (map_count_nonneg (of_campaign (flCampaignID f)) (flights a)). lia.
    + rewrite lookup_insert_ne by done. simpl. rewrite Z.add_0_r. apply Hi.
  - rewrite map_count_insert_new by done. rewrite ?rings_eq. rewrite Ha. simpl. lia.
  - rewrite map_count_insert_new by done. rewrite Ha. simpl. lia.
  - eapply tallies_bump; [apply Hb | intros; apply map_count_nonneg|]. intros id. simpl.
    rewrite map_count_insert_new by done. rewrite ?of_campaign_eq, ?rings_eq. rewrite Ha. simpl.
    destruct (N.eqb _ id); simpl; lia.
Qed.

Lemma drop_flight_ok a k : account_ok a -> account_ok (drop_flight k a).1.
Proof.
  intros [Hk Hi Hr Ht Hb]. unfold drop_flight. destruct (flights a !! k) as [f|] eqn:Hf; [|by constructor].
  assert (Hkey : forall i g, delete k (flights a) !! i = Some g -> flCallID g = i).
  { intros i g. rewrite lookup_delete_Some. intros [_ H]. by apply Hk. }
  assert (Hin : tallies (bump (flCampaignID f) (-1) (inflight a))
    (fun id => map_count (of_campaign id) (delete k (flights a)))).
  { eapply tallies_bump; [apply Hi | intros; apply map_count_nonneg|]. intros id. simpl.
    rewrite (map_count_delete _ _ k f) by done. rewrite ?of_campaign_eq. destruct (N.eqb _ id); simpl; lia. }
  assert (Hc : forall p, map_count p (delete k (flights a)) = map_count p (flights a) - Z.b2z (p f))
    by (intros p; by apply map_count_delete).
  destruct (flIsAnswered f) eqn:Ea; unfold ringBy; constructor; simpl; try done.
  - rewrite Hc. rewrite ?rings_eq. rewrite Ea. simpl. lia.
  - rewrite Hc, Ea. simpl. lia.
  - intros id. simpl. rewrite Hb, Hc. rewrite ?rings_eq, Ea, andb_false_r. simpl. by rewrite Z.sub_0_r.
  - rewrite Hc. rewrite ?rings_eq. rewrite Ea. simpl. lia.
  - rewrite Hc, Ea. simpl. lia.
  - eapply tallies_bump; [apply Hb | intros; apply map_count_nonneg|]. intros id. simpl. rewrite Hc.
    rewrite ?of_campaign_eq, ?rings_eq. rewrite Ea. simpl. destruct (N.eqb _ id); simpl; lia.
Qed.

Lemma pick_up_ok a k f : account_ok a -> flights a !! k = Some f -> flIsAnswered f = false -> account_ok (pick_up k f a).
Proof.
  intros [Hk Hi Hr Ht Hb] Hf Ea. unfold pick_up, ringBy.
  set (f' := mkFlight _ _ _ _ _ _ _ true).
  assert (Hc : forall p, map_count p (<[k := f']> (flights a)) = map_count p (flights a) - Z.b2z (p f) + Z.b2z (p f'))
    by (intros p; by apply map_count_insert).
  constructor; simpl.
  - intros i g. rewrite lookup_insert_Some. intros [[<- <-]|[_ H]]; [by apply Hk in Hf | by apply Hk].
  - intros id. rewrite Hc. rewrite ?of_campaign_eq. simpl. rewrite Hi.
    replace (map_count (of_campaign id) (flights a) - _ + _) with (map_count (of_campaign id) (flights a)) by lia. done.
  - rewrite Hc. rewrite ?rings_eq. rewrite Ea. simpl. lia.
  - rewrite Hc, Ea. simpl. lia.
  - eapply tallies_bump; [apply Hb | intros; apply map_count_nonneg|]. intros id. simpl. rewrite Hc.
    rewrite ?of_campaign_eq, ?rings_eq. rewrite Ea. simpl. rewrite andb_false_r. destruct (N.eqb _ id); simpl; lia.
Qed.

Lemma map_count_alter (p : flight -> bool) (m : gmap uuid flight) (k : uuid) g : (forall f, p (g f) = p f) -> map_count p (alter g k m) = map_count p m.
Proof.
  intros Hp. destruct (m !! k) as [f|] eqn:Hf.
  - assert (E : alter g k m = <[k := g f]> m).
    { apply map_eq. intros i. destruct (decide (i = k)) as [->|Hne];
        [by rewrite lookup_alter_eq, lookup_insert_eq, Hf | by rewrite lookup_alter_ne, lookup_insert_ne]. }
    rewrite E, (map_count_insert _ _ _ f) by done. rewrite Hp. lia.
  - f_equal. apply map_eq. intros i. destruct (decide (i = k)) as [->|Hne];
      [by rewrite lookup_alter_eq, Hf | by rewrite lookup_alter_ne].
Qed.

Lemma recheck_ok a k t : account_ok a -> account_ok (recheck k t a).
Proof.
  intros [Hk Hi Hr Ht Hb]. unfold recheck. constructor; simpl.
  - intros i g. rewrite lookup_alter_Some. intros [(<- & f & Hf & ->)|[_ H]]; [simpl; by apply Hk | by apply Hk].
  - intros id. rewrite map_count_alter by done. apply Hi.
  - by rewrite map_count_alter.
  - by rewrite map_count_alter.
  - intros id. rewrite map_count_alter by done. apply Hb.
Qed.

(** ** A program logic for the actor *)

Create HintDb quiet.

Section logic.
Context {W : Type} {deps : Deps W} {laws : DepsLaws W} (tzdb : string -> option Location).

Notation act := (M W).

(** What the world only ever adds to. *)
Record wle (w w' : W) : Prop := mkWle {
  wle_sane : sane w -> sane w';
  wle_issued k : issued w k -> issued w' k;
  wle_offered k : offered w k -> offered w' k;
  wle_runs k : runs w k -> runs w' k
}.

#[export] Instance wle_preorder : PreOrder wle.
Proof. split; [by split | intros ? ? ? [] []; split; auto]. Qed.

Definition sle (s s' : Dialer * W) : Prop := cfg s'.1 = cfg s.1 /\ wle s.2 s'.2.

#[export] Instance sle_preorder : PreOrder sle.
Proof.
  split; [intros s; split; [done|reflexivity]|]. intros s1 s2 s3 [E1 H1] [E2 H2].
  split; [congruence | by etransitivity].
Qed.

Lemma step_wle w w' : world_step offered w w' -> wle w w'.
Proof.
  intros H. constructor; [by apply law_sane | intros k; by apply law_issued | intros k; by apply law_offered |
    intros k; by apply law_runs].
Qed.

Definition stable (P : W -> Prop) : Prop := forall w w', wle w w' -> P w -> P w'.

(** The account is right, and every flight's call id was issued. *)
Record good_state (s : Dialer * W) : Prop := mkGoodState {
  gs_ok : account_ok (acc s.1);
  gs_issued k : is_Some (flights (acc s.1) !! k) -> issued s.2 k;
  gs_sane : sane s.2
}.

(** [m] leaves the account alone. *)
Definition quiet {A} (P : W -> Prop) (m : act A) (Q : A -> W -> Prop) : Prop :=
  forall s, sane s.2 -> P s.2 -> acc (m s).2.1 = acc s.1 /\ sle s (m s).2 /\ Q (m s).1 (m s).2.2.

Definition quiet0 {A} (m : act A) : Prop := quiet (fun _ => True) m (fun _ _ => True).

Lemma quiet_bind {A B} P (m : act A) R (f : A -> act B) Q :
  quiet P m R -> (forall a, quiet (R a) (f a) Q) -> quiet P (m ≫= f) Q.
Proof.
  intros Hm Hf s Hs HP. destruct (Hm s Hs HP) as (E1 & L1 & HR). pose proof (wle_sane _ _ (proj2 L1) Hs) as Hs1.
  unfold mbind, M_bind in *. destruct (m s) as [a s1]. destruct (Hf a s1 Hs1 HR) as (E2 & L2 & HQ). simpl in *.
  split; [congruence|]. split; [by etransitivity | done].
Qed.

Lemma quiet_ret {A} (x : A) P (Q : A -> W -> Prop) : (forall w, P w -> Q x w) -> quiet P (mret x) Q.
Proof. intros HQ s _ HP. split; [done|]. split; [reflexivity | by apply HQ]. Qed.

Lemma quiet_weaken {A} (m : act A) (P P' : W -> Prop) (Q Q' : A -> W -> Prop) : quiet P m Q ->
  (forall w, P' w -> P w) -> (forall a w, Q a w -> Q' a w) -> quiet P' m Q'.
Proof. intros Hm HP HQ s Hs H. destruct (Hm s) as (? & ? & ?); auto. Qed.

Lemma quiet_frame {A} (m : act A) P : quiet0 m -> stable P -> quiet P m (fun _ => P).
Proof. intros Hm Hst s Hs HP. destruct (Hm s) as (? & Hle & _); [done..|]. split; [done|]. split; [done|]. by eapply Hst; [apply Hle|]. Qed.

(** Running a sequence, a call and a change of fields. *)
Lemma bind_run {A B} (m : act A) (f : A -> act B) s : (m ≫= f) s = f (m s).1 (m s).2.
Proof. unfold mbind, M_bind. by destruct (m s). Qed.

Lemma call_run {A} (f : W -> A * W) s : call f s = ((f s.2).1, (s.1, (f s.2).2)).
Proof. unfold call. by destruct (f s.2). Qed.

Lemma get_run {A} (f : Dialer -> act A) s : (get ≫= f) s = f s.1 s.
Proof. done. Qed.

Lemma gets_run {A B} (f : Dialer -> B) (g : B -> act A) s : (gets f ≫= g) s = g (f s.1) s.
Proof. done. Qed.

Lemma ask_run {A B} (f : W -> B) (g : B -> act A) s : (ask f ≫= g) s = g (f s.2) s.
Proof. done. Qed.

Lemma modify_run {A} g (f : unit -> act A) s : (modify g ≫= f) s = f tt (g s.1, s.2).
Proof. done. Qed.

(** *** What leaves the account alone *)

Lemma quiet0_bind {A B} (m : act A) (f : A -> act B) : quiet0 m -> (forall a, quiet0 (f a)) -> quiet0 (m ≫= f).
Proof. intros Hm Hf. by eapply quiet_bind. Qed.

Lemma quiet0_ret {A} (x : A) : quiet0 (mret x : act A).
Proof. by apply quiet_ret. Qed.

Lemma quiet0_get : quiet0 (get : act Dialer).
Proof. intros s _ _. by split. Qed.

Lemma quiet0_gets {A} (f : Dialer -> A) : quiet0 (gets f : act A).
Proof. intros s _ _. by split. Qed.

Lemma quiet0_ask {A} (f : W -> A) : quiet0 (ask f).
Proof. intros s _ _. by split. Qed.

Lemma quiet0_modify (g : Dialer -> Dialer) : (forall d, acc (g d) = acc d /\ cfg (g d) = cfg d) ->
  quiet0 (modify g : act unit).
Proof. intros Hg s _ _. destruct (Hg s.1) as [Ea Ec]. split; [done|]. split; [|done]. split; [done|reflexivity]. Qed.

Lemma quiet0_call {A} (f : W -> A * W) : (forall w, world_step offered w (f w).2) -> quiet0 (call f).
Proof.
  intros Hf s _ _. unfold call. pose proof (step_wle _ _ (Hf s.2)) as Hle. destruct (f s.2) as [a w]. by split.
Qed.

Lemma quiet0_for_each {A} (l : list A) (f : A -> act unit) : (forall x, quiet0 (f x)) -> quiet0 (for_each l f).
Proof.
  intros Hf. induction l as [|x l IH]; simpl; [apply quiet0_ret|]. apply quiet0_bind; [apply Hf | by intros].
Qed.

Lemma quiet0_collect {A B} (l : list A) (f : A -> act B) : (forall x, quiet0 (f x)) -> quiet0 (collect f l).
Proof.
  intros Hf. induction l as [|x l IH]; simpl; [apply quiet0_ret|].
  apply quiet0_bind; [apply Hf|]. intros y. apply quiet0_bind; [done|]. intros ys. apply quiet0_ret.
Qed.

Ltac quiet_leaf :=
  first
    [ apply quiet0_ret | apply quiet0_get | apply quiet0_gets | apply quiet0_ask
    | apply quiet0_modify; intros; cbn; repeat case_match; done
    | apply quiet0_call; intros; first [by constructor | by eapply ws_limits] ].

(** Along the code: sequences, branches, calls, and the operations known. *)
Ltac solve_quiet :=
  repeat first
    [ quiet_leaf
    | solve [eauto with quiet nocore]
    | apply quiet0_for_each; intros
    | apply quiet0_collect; intros
    | apply quiet0_bind; [|intros ?]
    | match goal with
      | |- quiet0 (match ?x with _ => _ end) => destruct x
      | |- quiet0 (let '(_, _) := ?x in _) => destruct x
      end ].

Lemma quiet0_touch id : quiet0 (touch id : act unit).
Proof. unfold touch. solve_quiet. Qed.
Hint Resolve quiet0_touch : quiet.

Lemma quiet0_statsFor id : quiet0 (statsFor id : act CapacityStats).
Proof. unfold statsFor. solve_quiet. Qed.
Hint Resolve quiet0_statsFor : quiet.

Lemma quiet0_sample f b t : quiet0 (sample f b t : act unit).
Proof. unfold sample. solve_quiet. Qed.
Hint Resolve quiet0_sample : quiet.

Lemma quiet0_on_stats id f : quiet0 (on_stats id f : act unit).
Proof. unfold on_stats. solve_quiet. Qed.
Hint Resolve quiet0_on_stats : quiet.

Lemma quiet0_matureSamples t : quiet0 (matureSamples t : act instant).
Proof. intros s _ _. by split. Qed.
Hint Resolve quiet0_matureSamples : quiet.

Lemma quiet0_expectedAnswers : quiet0 (expectedAnswers : act _).
Proof.
  unfold expectedAnswers. apply quiet0_bind; [quiet_leaf|]. intros l.
  generalize Float64.f0. induction l as [|[id n] l IH]; intros sum; simpl; [quiet_leaf|].
  apply quiet0_bind; [apply quiet0_statsFor|]. intros st. apply quiet0_bind; [quiet_leaf|]. intros. apply IH.
Qed.
Hint Resolve quiet0_expectedAnswers : quiet.

Lemma quiet0_limit c : quiet0 (limit c : act _).
Proof. unfold limit. solve_quiet. Qed.
Hint Resolve quiet0_limit : quiet.

Lemma quiet0_scheduleFor c z : quiet0 (scheduleFor tzdb c z : act _).
Proof. unfold scheduleFor. solve_quiet. Qed.
Hint Resolve quiet0_scheduleFor : quiet.

Lemma quiet0_held_until c h : quiet0 (held_until tzdb c h : act _).
Proof. unfold held_until. solve_quiet. Qed.
Hint Resolve quiet0_held_until : quiet.

Lemma quiet0_wait_until c t ct : quiet0 (wait_until tzdb c t ct : act _).
Proof. unfold wait_until. solve_quiet. Qed.
Hint Resolve quiet0_wait_until : quiet.

Lemma quiet0_judgeBreakers f : quiet0 (judgeBreakers f : act unit).
Proof. unfold judgeBreakers. solve_quiet. Qed.
Hint Resolve quiet0_judgeBreakers : quiet.

Lemma quiet0_pauseNoEndpoint id : quiet0 (pauseNoEndpoint id : act unit).
Proof. unfold pauseNoEndpoint. solve_quiet. Qed.
Hint Resolve quiet0_pauseNoEndpoint : quiet.

Lemma quiet0_feedStats f fl : quiet0 (feedStats f fl : act unit).
Proof. unfold feedStats, now. solve_quiet. Qed.
Hint Resolve quiet0_feedStats : quiet.

Lemma quiet0_account c b t : quiet0 (account tzdb c b t : act _).
Proof. unfold account. solve_quiet. Qed.
Hint Resolve quiet0_account : quiet.

Lemma quiet0_account_all l bs t n : quiet0 (account_all tzdb l bs t n : act _).
Proof. revert n. induction l as [|c l IH]; intros n; simpl; solve_quiet. Qed.
Hint Resolve quiet0_account_all : quiet.

Lemma quiet0_move id a : quiet0 (Dialer.move id a : act _).
Proof. unfold Dialer.move, began, now. solve_quiet. Qed.
Hint Resolve quiet0_move : quiet.

(** *** Contacts on offer *)

Definition on_offer (l : list Contact) (w : W) : Prop := Forall (fun ct => offered w (ctID ct)) l.

Lemma stable_on_offer l : stable (on_offer l).
Proof. intros w w' [_ _ H _] Hl. eapply Forall_impl; [exact Hl|]. auto. Qed.

Lemma stable_forall {A} (l : list A) f : stable (fun w => Forall (fun x => offered w (f x)) l).
Proof. intros w w' [_ _ H _] Hl. eapply Forall_impl; [exact Hl|]. auto. Qed.

Lemma quiet_due id t f n : quiet (fun w => runs w id) (call (stDue id t f n))
  (fun r w => forall l, r = Ok l -> on_offer l w).
Proof.
  intros s Hs Hr. unfold call. pose proof (step_wle _ _ (ws_due offered s.2 id t f n)) as Hle.
  pose proof (law_due id t f n s.2) as Hl. destruct (stDue id t f n s.2) as [r w]. simpl in *.
  split; [done|]. split; [by split|]. intros l ->. apply Forall_forall. intros ct Hct. by apply (Hl l ct).
Qed.

(** A step whose result does not matter, under a stable fact. *)
Lemma quiet_seq {A B} (m : act A) P (f : A -> act B) Q : quiet0 m -> stable P ->
  (forall a, quiet P (f a) Q) -> quiet P (m ≫= f) Q.
Proof. intros Hm Hst Hf. eapply quiet_bind; [by apply quiet_frame | done]. Qed.

Definition ready_on_offer (r : res StoreError (list Contact * bool)) (w : W) : Prop :=
  forall ready moved, r = Ok (ready, moved) -> on_offer ready w.

(** The contacts ready were offered, and the campaign has started. *)
Definition offer_of (c : Campaign) (l : list Contact) (w : W) : Prop := on_offer l w /\ runs w (cID c).

Lemma stable_offer_of c l : stable (offer_of c l).
Proof. intros w w' Hle [H1 H2]. split; [by eapply stable_on_offer | by apply Hle]. Qed.

Lemma quiet_refill_loop c lim t rounds ready moved :
  quiet (offer_of c ready) (refill_loop tzdb c lim t rounds ready moved : act _) ready_on_offer.
Proof.
  revert ready moved. induction rounds as [|rounds IH]; intros ready moved; simpl.
  { apply quiet_seq; [quiet_leaf|apply stable_offer_of|]. intros _. apply quiet_ret.
    intros w [H _] ready' moved' E. by injection E as <- <-. }
  apply quiet_seq; [quiet_leaf|apply stable_offer_of|]. intros frequency.
  apply quiet_seq; [quiet_leaf|apply stable_offer_of|]. intros [[|h held]|e].
  - eapply (quiet_bind _ _ (fun r w => offer_of c ready w /\ forall l, r = Ok l -> on_offer l w)).
    { intros s Hs H. destruct (quiet_due (cID c) t frequency lim s Hs (proj2 H)) as (E & Hle & Hl).
      split; [done|]. split; [done|]. split; [|done]. by eapply stable_offer_of; [apply Hle|]. }
    intros [[|ct due]|e]; [|cbv zeta|apply quiet_ret; intros w _ ? ? E; done].
    { apply quiet_ret. intros w [[H _] _] ready' moved' E. by injection E as <- <-. }
    apply (quiet_weaken _ (offer_of c (ready ++ ct :: due)) _ ready_on_offer); [|intros w [[H1 H0] H2]|done].
    2:{ split; [|done]. apply Forall_app. split; [done | by apply H2]. }
    apply quiet_seq; [solve_quiet|apply stable_offer_of|]. intros waits.
    apply quiet_seq; [solve_quiet|apply stable_offer_of|]. intros [_|e]; [|apply quiet_ret; intros w _ ? ? E; done].
    set (open := omap _ (zip (ct :: due) waits)).
    assert (Hsub : forall w, on_offer (ready ++ ct :: due) w -> on_offer (ready ++ open) w).
    { intros w H. apply Forall_app in H as [H1 H2]. apply Forall_app. split; [done|].
      apply Forall_forall. intros x Hx. apply list_elem_of_omap in Hx as ([y o] & Hin & E).
      destruct o; [done|]. injection E as <-. rewrite Forall_forall in H2. apply H2.
      apply elem_of_zip_l in Hin. done. }
    destruct (ready ++ open) as [|x l] eqn:E.
    + eapply quiet_weaken; [apply IH | intros w [H Hr]; split; [by apply Hsub | done] | done].
    + apply quiet_ret. intros w [H _] ready' moved' E'. injection E' as <- <-. by apply Hsub.
  - apply quiet_seq; [solve_quiet|apply stable_offer_of|]. intros ats.
    apply quiet_seq; [quiet_leaf|apply stable_offer_of|]. intros [_|e]; [apply IH|].
    apply quiet_ret. intros w _ ? ? E. done.
  - apply quiet_ret. intros w _ ? ? E. done.
Qed.

Lemma quiet_refill c b t : quiet (offer_of c (bReady b)) (refill tzdb c b t : act _) ready_on_offer.
Proof.
  unfold refill. apply quiet_seq; [quiet_leaf|apply stable_offer_of|]. intros d. apply quiet_refill_loop.
Qed.

(** *** What changes the account *)

(** A new flight: its call id was issued and is no flight's. *)
Lemma take_off_state d w f : good_state (d, w) -> flights (acc d) !! flCallID f = None -> issued w (flCallID f) ->
  flIsAnswered f = false -> good_state (set_acc (take_off f (acc d)) d, w).
Proof.
  intros [Hok Hi Hs] Hf Hw Ha. split; simpl in *; [by apply take_off_ok| |done]. intros k. unfold take_off, ringBy. simpl.
  rewrite lookup_insert_is_Some. intros [<-|[_ H]]; [done | by apply Hi].
Qed.

(** What [limit] asks before a call is admitted for [c], of the account. *)
Definition room_for (c : Campaign) (d : Dialer) : Prop :=
  in_flight_of d (cID c) < cMaxConcurrent c /\ ringing (acc d) < MaxRinging (cfg d).

(** An invariant of the actor that what it does to its account keeps: flights
    leave, are rechecked, and enter with room for them, for [campaigns]. *)
Class Invariant (campaigns : Campaign -> Prop) (J : Dialer * W -> Prop) : Prop := {
  inv_good s : J s -> good_state s;
  inv_quiet s s' : J s -> acc s'.1 = acc s.1 -> sle s s' -> J s';
  inv_drop k d w : J (d, w) -> J (set_acc (drop_flight k (acc d)).1 d, w);
  inv_recheck k t d w : J (d, w) -> J (set_acc (recheck k t (acc d)) d, w);
  inv_take_off f c d w : J (d, w) -> campaigns c -> flCampaignID f = cID c -> room_for c d ->
    flights (acc d) !! flCallID f = None -> issued w (flCallID f) -> flIsAnswered f = false ->
    J (set_acc (take_off f (acc d)) d, w)
}.

Section keeping.
Context (campaigns : Campaign -> Prop) (J : Dialer * W -> Prop) {inv : Invariant campaigns J}.

(** [m] keeps the invariant. *)
Definition safe {A} (P : W -> Prop) (m : act A) (Q : A -> W -> Prop) : Prop :=
  forall s, J s -> P s.2 -> J (m s).2 /\ sle s (m s).2 /\ Q (m s).1 (m s).2.2.

Lemma quiet_safe {A} P (m : act A) Q : quiet P m Q -> safe P m Q.
Proof.
  intros Hm s HJ HP. destruct (Hm s (gs_sane _ (inv_good _ HJ)) HP) as (Ea & Hle & HQ). split; [|done]. by eapply inv_quiet.
Qed.

Lemma safe_bind {A B} P (m : act A) R (f : A -> act B) Q :
  safe P m R -> (forall a, safe (R a) (f a) Q) -> safe P (m ≫= f) Q.
Proof.
  intros Hm Hf s Hg HP. destruct (Hm s Hg HP) as (E1 & L1 & HR). unfold mbind, M_bind in *.
  destruct (m s) as [a s1]. destruct (Hf a s1 E1 HR) as (E2 & L2 & HQ). simpl in *.
  split; [done|]. split; [by etransitivity | done].
Qed.

Lemma safe_weaken {A} (m : act A) (P P' : W -> Prop) (Q Q' : A -> W -> Prop) : safe P m Q ->
  (forall w, P' w -> P w) -> (forall a w, Q a w -> Q' a w) -> safe P' m Q'.
Proof. intros Hm HP HQ s Hg H. destruct (Hm s) as (? & ? & ?); auto. Qed.

Lemma safe_frame {A} (m : act A) P : safe (fun _ => True) m (fun _ _ => True) -> stable P -> safe P m (fun _ => P).
Proof. intros Hm Hst s Hg HP. destruct (Hm s Hg) as (? & Hle & _); [done|]. split; [done|]. split; [done|]. by eapply Hst; [apply Hle|]. Qed.

Definition safe0 {A} (m : act A) : Prop := safe (fun _ => True) m (fun _ _ => True).

Lemma quiet0_safe0 {A} (m : act A) : quiet0 m -> safe0 m.
Proof. apply quiet_safe. Qed.

Lemma safe0_bind {A B} (m : act A) (f : A -> act B) : safe0 m -> (forall a, safe0 (f a)) -> safe0 (m ≫= f).
Proof. intros Hm Hf. by eapply safe_bind. Qed.

Lemma safe0_for_each {A} (l : list A) (f : A -> act unit) : (forall x, safe0 (f x)) -> safe0 (for_each l f).
Proof.
  intros Hf. induction l as [|x l IH]; simpl; [apply quiet0_safe0, quiet0_ret|].
  apply safe0_bind; [apply Hf | by intros].
Qed.

Lemma safe0_drop k : safe0 (drop k : act _).
Proof.
  intros [d w] HJ _. unfold drop. cbn [fst snd]. pose proof (inv_drop k d w HJ) as Hd.
  destruct (drop_flight k (acc d)) as [a f]. by split.
Qed.

Lemma safe0_recheck k t : safe0 (modify (fun d => set_acc (recheck k t (acc d)) d) : act unit).
Proof. intros [d w] HJ _. simpl. split; [|by split]. by apply (inv_recheck k t d w HJ). Qed.

Hint Resolve quiet0_safe0 : quiet.

Ltac safe_leaf :=
  first [ solve [apply quiet0_safe0; solve_quiet] | apply safe0_drop | apply safe0_recheck
        | solve [eauto with safe nocore] ].

Ltac solve_safe :=
  repeat first
    [ safe_leaf
    | apply safe0_for_each; intros
    | apply safe0_bind; [|intros ?]
    | match goal with
      | |- safe0 (match ?x with _ => _ end) => destruct x
      | |- safe0 (let '(_, _) := ?x in _) => destruct x
      end ].

Create HintDb safe.

Lemma safe0_voidAttempt f t : safe0 (voidAttempt f t : act unit).
Proof. unfold voidAttempt. solve_safe. Qed.
Hint Resolve safe0_voidAttempt : safe.

Lemma safe0_dialFailed c f e t : safe0 (dialFailed c f e t : act unit).
Proof. unfold dialFailed. destruct e; cbv zeta; solve_safe. Qed.
Hint Resolve safe0_dialFailed : safe.

Lemma safe0_reconcile k t : safe0 (reconcile k t : act _).
Proof. unfold reconcile. solve_safe. Qed.
Hint Resolve safe0_reconcile : safe.

Lemma safe0_checkBackstops t : safe0 (checkBackstops t : act unit).
Proof. unfold checkBackstops. solve_safe. Qed.
Hint Resolve safe0_checkBackstops : safe.

Lemma safe0_onFinished f : safe0 (onFinished f : act unit).
Proof. unfold onFinished. solve_safe. Qed.
Hint Resolve safe0_onFinished : safe.

Lemma safe0_publish : safe0 (publish : act unit).
Proof. unfold publish. solve_safe. Qed.
Hint Resolve safe0_publish : safe.

Lemma safe_admit c ct t s : J s -> offered s.2 (ctID ct) -> campaigns c -> room_for c s.1 ->
  J (admitCall c ct t s).2 /\ sle s (admitCall c ct t s).2.
Proof.
  destruct s as [d w]. intros HJ Hoff Hc Hroom. simpl in Hoff, Hroom.
  pose proof (gs_sane _ (inv_good _ HJ)) as Hs. simpl in Hs. unfold admitCall. rewrite bind_run, call_run. cbn [fst snd].
  pose proof (step_wle _ _ (ws_begin offered w (ctID ct) t Hoff)) as Hle.
  pose proof (law_begin (ctID ct) t w) as Hb. destruct (stBegin (ctID ct) t w) as [[att|e] w']; cbn [fst snd] in *.
  2:{ split; [|by split]. eapply inv_quiet; [exact HJ | done | by split]. }
  destruct (Hb att Hs Hoff eq_refl) as [Hfresh Hiss].
  rewrite get_run. cbn [fst snd]. cbv zeta. set (f := mkFlight _ _ _ _ _ _ _ _). rewrite modify_run. cbn [fst snd].
  assert (Hg1 : J (set_acc (take_off f (acc d)) d, w')).
  { apply (inv_take_off f c); [|done|done|done| |done|done].
    - eapply inv_quiet; [exact HJ | done | by split].
    - apply eq_None_not_Some. intros H. by apply Hfresh, (gs_issued _ (inv_good _ HJ)). }
  match goal with |- context [?m (set_acc _ d, w')] => assert (Hm : safe0 m) by solve_safe end.
  destruct (Hm _ Hg1 I) as (H1 & [H2 H3] & _). split; [done|]. split; [done|]. simpl in *. by etransitivity.
Qed.

(** Past the limits there is room. *)
Lemma limit_room c s : (limit c s : _ * _).1 = None -> room_for c s.1.
Proof.
  unfold limit, room_for. rewrite get_run, ask_run.
  destruct (cMaxConcurrent c <=? in_flight_of s.1 (cID c)) eqn:E1; [done|].
  destruct (MaxRinging (cfg s.1) <=? ringing (acc s.1)) eqn:E2; [done|]. lia.
Qed.

Lemma limit_safe c s : J s -> (limit c s).1 = None ->
  J (limit c s).2 /\ sle s (limit c s).2 /\ room_for c (limit c s).2.1.
Proof.
  intros HJ Hn. destruct (quiet0_limit c s (gs_sane _ (inv_good _ HJ)) I) as (Ea & Hle & _). pose proof (limit_room c s Hn) as Hr.
  split; [by eapply inv_quiet|]. split; [done|]. unfold room_for, in_flight_of in *. by rewrite Ea, (proj1 Hle).
Qed.

(** *** Skipping and admitting *)

Lemma safe_seq {A B} (m : act A) P (f : A -> act B) Q : safe0 m -> stable P ->
  (forall a, safe P (f a) Q) -> safe P (m ≫= f) Q.
Proof. intros Hm Hst Hf. eapply safe_bind; [by apply safe_frame | done]. Qed.

Lemma quiet_begin id t : quiet (fun w => offered w id) (call (stBegin id t)) (fun _ _ => True).
Proof.
  intros s _ Hoff. unfold call. pose proof (step_wle _ _ (ws_begin offered s.2 id t Hoff)) as Hle.
  destruct (stBegin id t s.2) as [r w]. by split.
Qed.

Definition ids_on_offer (ids : list uuid) (w : W) : Prop := Forall (offered w) ids.

Lemma stable_ids ids : stable (ids_on_offer ids).
Proof. intros w w' [_ _ H _] Hl. eapply Forall_impl; [exact Hl|]. auto. Qed.

Lemma quiet_skip_contacts ids t n : quiet (ids_on_offer ids) (skip_contacts ids t n : act Z) (fun _ _ => True).
Proof.
  revert n. induction ids as [|id ids IH]; intros n; simpl; [by apply quiet_ret|].
  eapply (quiet_bind _ _ (fun _ => ids_on_offer ids)).
  { intros s Hs H. apply Forall_cons in H as [H1 H2]. destruct (quiet_begin id t s Hs H1) as (E & Hle & _).
    split; [done|]. split; [done|]. by eapply stable_ids; [apply Hle|]. }
  intros [att|e]; [|apply IH]. apply quiet_seq; [solve_quiet|apply stable_ids|]. intros r. apply IH.
Qed.

Lemma quiet0_skipDNC_loop n t : quiet0 (skipDNC_loop n t : act unit).
Proof.
  induction n as [|n IH]; simpl; [quiet_leaf|].
  eapply (quiet_bind _ _ (fun r w => forall l, r = Ok l -> ids_on_offer l w)).
  { intros s Hs _. unfold call. pose proof (step_wle _ _ (ws_dnc offered s.2 200)) as Hle.
    pose proof (law_dnc 200 s.2) as Hl. destruct (stDNCContacts 200 s.2) as [r w]. simpl in *.
    split; [done|]. split; [by split|]. intros l ->. apply Forall_forall. intros id Hid. by apply (Hl l id). }
  intros [[|id ids]|e]; [by apply quiet_ret| |by apply quiet_ret].
  eapply quiet_bind; [|intros skipped; by destruct (skipped =? 0); [apply quiet_ret|apply IH]].
  eapply quiet_weaken; [apply quiet_skip_contacts | intros w H; by apply H | done].
Qed.
Hint Resolve quiet0_skipDNC_loop : quiet.

Lemma quiet0_skipDNC t : quiet0 (skipDNC t : act unit).
Proof. unfold skipDNC. solve_quiet. Qed.
Hint Resolve quiet0_skipDNC : quiet.

Lemma quiet0_housekeeping l t : quiet0 (housekeeping l t : act _).
Proof.
  unfold housekeeping. destruct lnDIDLimits as [read|] eqn:E; [|solve_quiet].
  assert (quiet0 (call read)) by (apply quiet0_call; intros; by apply ws_limits).
  solve_quiet.
Qed.
Hint Resolve quiet0_housekeeping : quiet.

Lemma quiet_filled c b t :
  quiet (offer_of c (bReady b)) (match bReady b with [] => refill tzdb c b t | _ :: _ => mret (Ok (bReady b, false)) end : act _)
    ready_on_offer.
Proof.
  pose proof (quiet_refill c b t) as Hr. destruct (bReady b); [done|]. apply quiet_ret.
  intros w [Hw _] ? ? E. by injection E as <- <-.
Qed.

Lemma safe_admitOne c b t : campaigns c ->
  safe (offer_of c (bReady b)) (admitOne tzdb c b t : act bucket) (fun b' => on_offer (bReady b')).
Proof.
  intros Hc. unfold admitOne.
  apply (safe_bind _ _ (fun r w => ready_on_offer r w /\ on_offer (bReady b) w)).
  { apply quiet_safe. intros s Hs H. destruct (quiet_filled c b t s Hs H) as (E & Hle & Hr).
    split; [done|]. split; [done|]. split; [done|]. by eapply stable_on_offer; [apply Hle|apply H]. }
  intros [[[|ct ready] moved]|e]; [apply quiet_safe, quiet_ret; intros; by constructor| |
    apply quiet_safe, quiet_ret; by intros w []].
  apply (safe_weaken _ (on_offer (ct :: ready)) _ (fun b' => on_offer (bReady b'))); [|intros w [H _]; by eapply H|done].
  intros s HJ Hoff. rewrite bind_run. destruct (limit c s).1 as [reason|] eqn:El.
  - destruct (quiet0_limit c s (gs_sane _ (inv_good _ HJ)) I) as (Ea & Hle & _).
    split; [by eapply inv_quiet|]. split; [done|]. by eapply stable_on_offer; [apply Hle|].
  - destruct (limit_safe c s HJ El) as (HJ1 & L1 & Hroom). rewrite bind_run.
    assert (Ho : on_offer (ct :: ready) (limit c s).2.2) by (by eapply stable_on_offer; [apply L1|]).
    apply Forall_cons in Ho as [H1 H2]. destruct (safe_admit c ct t _ HJ1 H1 Hc Hroom) as [HJ2 L2].
    split; [done|]. split; [by etransitivity|]. by eapply stable_on_offer; [apply L2|].
Qed.

Definition buckets_on_offer (bs : buckets) (w : W) : Prop := map_Forall (fun _ b => on_offer (bReady b) w) bs.

Lemma stable_buckets bs : stable (buckets_on_offer bs).
Proof. intros w w' Hle H k b Hk. eapply stable_on_offer; [exact Hle|]. by eapply H. Qed.

Lemma pick_of d bs l c : pick d bs l = Some c -> c ∈ l.
Proof.
  unfold pick. set (step := fun _ _ => _).
  assert (H : forall acc0, fold_left step l acc0 = Some c -> acc0 = Some c \/ c ∈ l); [|by intros E; destruct (H _ E)].
  induction l as [|x l IH]; intros acc0; simpl; [by left|]. intros E. destruct (IH _ E) as [E'|Hin]; [|right; by right].
  unfold step in E'. destruct (open_for d bs x); [|by left]. destruct acc0 as [p|].
  - destruct (_ <? _); [right; injection E' as ->; left | by left].
  - right. injection E' as ->. left.
Qed.

(** Every contact in the buckets was offered, and every campaign has started. *)
Definition admissible (l : list Campaign) (bs : buckets) (w : W) : Prop :=
  buckets_on_offer bs w /\ Forall (fun c => runs w (cID c)) l.

Lemma stable_admissible l bs : stable (admissible l bs).
Proof.
  intros w w' Hle [H1 H2]. split; [by eapply stable_buckets|]. eapply Forall_impl; [exact H2|].
  intros c. apply Hle.
Qed.

Lemma admissible_bucket l bs c w : admissible l bs w -> c ∈ l ->
  offer_of c (bReady (default empty_bucket (bs !! cID c))) w.
Proof.
  intros [H1 H2] Hc. split; [|rewrite Forall_forall in H2; by apply H2].
  destruct (bs !! cID c) as [b|] eqn:E; simpl; [by eapply H1 | constructor].
Qed.

Lemma safe_admission fuel l bs t : Forall campaigns l ->
  safe (admissible l bs) (admission tzdb fuel l bs t : act _) (fun _ _ => True).
Proof.
  intros Hl. revert bs. induction fuel as [|fuel IH]; intros bs; simpl; [by apply quiet_safe, quiet_ret|].
  apply safe_seq; [apply quiet0_safe0; quiet_leaf | apply stable_admissible |]. intros d.
  destruct (pick d bs l) as [c|] eqn:Hp; [|by apply quiet_safe, quiet_ret]. apply pick_of in Hp.
  eapply (safe_bind _ _ (fun b => admissible l (<[cID c := b]> bs))); [|intros b; apply IH].
  intros s Hg H. rewrite Forall_forall in Hl.
  destruct (safe_admitOne c (default empty_bucket (bs !! cID c)) t (Hl _ Hp) s Hg) as (Hg' & Hle & Hb);
    [by apply (admissible_bucket l)|].
  split; [done|]. split; [done|]. apply (stable_admissible l bs _ _ (proj2 Hle)) in H as [H1 H2].
  split; [by apply map_Forall_insert_2 | done].
Qed.

Lemma again_all t l d :
  acc (fold_left (again t) l d) = acc d /\ cfg (fold_left (again t) l d) = cfg d.
Proof.
  revert d. induction l as [|[id b] l IH]; intros d; [done|]. cbn [fold_left].
  destruct (IH (again t d (id, b))) as [E1 E2]. rewrite E1, E2. unfold again. repeat case_match; done.
Qed.

(** The campaigns admitted for are among the running ones. *)
Lemma housekeeping_running l t s c : c ∈ (housekeeping l t s).1 -> c ∈ l.
Proof.
  unfold housekeeping. repeat (rewrite bind_run). unfold gets. cbn [fst]. intros Hx.
  by apply list_elem_of_filter in Hx as [_ Hx].
Qed.

Lemma rotated_forall {A} (P : A -> Prop) k l : Forall P l -> Forall P (rotated k l).
Proof. intros H. unfold rotated. apply Forall_app. split; [by apply Forall_drop | by apply Forall_take]. Qed.

(** The buckets a pass starts with are empty. *)
Lemma admissible_start live k w : Forall (fun c => runs w (cID c)) live ->
  admissible (rotated k live) (list_to_map (map (fun c => (cID c, empty_bucket)) live)) w.
Proof.
  intros H. split; [|by apply rotated_forall]. intros i b Hb.
  apply elem_of_list_to_map_2, list_elem_of_fmap in Hb as (c & [= -> ->] & _). constructor.
Qed.

(** A pass that found [running], after its first lines. *)
Lemma safe_pass fuel s : J s -> (forall l, (stRunningCampaigns s.2).1 = Ok l -> Forall campaigns l) ->
  J (pass tzdb fuel s).2 /\ sle s (pass tzdb fuel s).2.
Proof.
  intros HJ Hrun. pose proof (gs_sane _ (inv_good _ HJ)) as Hs. unfold pass. rewrite modify_run. unfold now.
  rewrite ask_run, modify_run, bind_run, call_run. cbn [fst snd]. set (d1 := set_nextWake _ _). set (t := clockNow s.2).
  pose proof (step_wle _ _ (ws_running offered s.2)) as Hle. pose proof (law_running s.2) as Hr.
  destruct (stRunningCampaigns s.2) as [[running|e] w1]; cbn [fst snd] in *.
  2:{ split; [eapply inv_quiet; [exact HJ|done|]|]; by split. }
  assert (HJ1 : J (d1, w1)) by (eapply inv_quiet; [exact HJ|done|by split]). rewrite bind_run.
  pose proof (housekeeping_running running t (d1, w1)) as Hincl.
  destruct (quiet_safe _ _ _ (quiet0_housekeeping running t) (d1, w1) HJ1 I) as (HJ2 & L2 & _).
  set (live := (housekeeping running t (d1, w1)).1) in *. set (s2 := (housekeeping running t (d1, w1)).2) in *.
  assert (Hlive : Forall campaigns live /\ Forall (fun c => runs s2.2 (cID c)) live).
  { specialize (Hrun _ eq_refl). split; apply Forall_forall; intros c Hc%Hincl.
    - rewrite Forall_forall in Hrun. by apply Hrun.
    - apply L2. by apply (Hr running). }
  match goal with |- J (?m s2).2 /\ _ => assert (Hm : safe (fun w => Forall (fun c => runs w (cID c)) live) m (fun _ _ => True)) end.
  2:{ destruct (Hm s2 HJ2 (proj2 Hlive)) as (HJ3 & L3 & _). split; [done|]. etransitivity; [|exact L3].
      etransitivity; [|exact L2]. by split. }
  destruct Hlive as [Hlive _]. clear -Hlive inv. cbv zeta.
  assert (Hst : stable (fun w => Forall (fun c => runs w (cID c)) live)).
  { intros w w' Hle H. eapply Forall_impl; [exact H|]. intros c. apply Hle. }
  apply safe_seq; [safe_leaf | done |]. intros start. apply safe_seq; [solve_safe | done |]. intros _.
  eapply safe_bind; [eapply safe_weaken; [by apply safe_admission, rotated_forall | apply admissible_start | done]|].
  intros [bs|]; [|by apply quiet_safe, quiet_ret]. eapply (safe_weaken _ (fun _ => True) _ (fun _ _ => True)); [|done..].
  apply safe0_bind; [safe_leaf|]. intros next.
  apply safe0_bind; [safe_leaf|]. intros _. apply safe0_bind; [safe_leaf|]. intros _.
  apply safe0_bind; [|intros; safe_leaf]. apply quiet0_safe0, quiet0_modify. intros d. apply again_all.
Qed.

End keeping.

(** ** Recovery, messages and turns *)

#[export] Instance good_invariant : Invariant (fun _ => True) good_state.
Proof.
  split; [done | | | |].
  - intros s s' [Hok Hi Hs] Ea [_ Hle]. split; [by rewrite Ea| |by apply Hle]. rewrite Ea. intros k Hk. by apply Hle, Hi.
  - intros k d w [Hok Hi Hs]. split; simpl; [by apply drop_flight_ok| |done]. intros i. unfold drop_flight.
    destruct (flights (acc d) !! k) as [f|]; [|apply Hi].
    destruct (flIsAnswered f); simpl; intros [x Hx]; apply lookup_delete_Some in Hx as [_ Hx]; apply Hi; by exists x.
  - intros k t d w [Hok Hi Hs]. split; simpl; [by apply recheck_ok| |done]. intros i. unfold recheck. simpl.
    rewrite lookup_alter_is_Some. apply Hi.
  - intros f c d w Hg _ _ _ Hf Hw Ha. by apply take_off_state.
Qed.

Notation safe1 := (safe0 good_state).

Lemma safe_recover_one da t : safe good_state (fun w => issued w (aCallID (daAttempt da)))
  (d ← get;
   if decide (is_Some (flights (acc d) !! aCallID (daAttempt da))) then mret tt
   else
     live ← ask (isLive (aCallID (daAttempt da)));
     if live : bool then
       let ring := CampaignPolicy.durSec (daRingTimeoutSec da) in
       modify (fun d => set_acc (take_off
         (mkFlight (aID (daAttempt da)) (aContactID (daAttempt da)) (aCampaignID (daAttempt da))
            (aCallID (daAttempt da)) (aStartedAt (daAttempt da)) ring
            (aStartedAt (daAttempt da) + (ring + BackstopMargin (cfg d))) false) (acc d)) d)
     else (_ ← reconcile (aCallID (daAttempt da)) t; mret tt) : act unit) (fun _ _ => True).
Proof.
  intros [d w] Hg Hiss. rewrite get_run. cbn [fst snd].
  destruct (decide _) as [Hin|Hnone]; [by split|].
  rewrite ask_run. cbn [fst snd]. destruct (isLive _ w).
  - cbv zeta. unfold modify. cbn [fst snd]. split; [|by split].
    apply take_off_state; [done | by apply eq_None_not_Some | done | done].
  - match goal with |- context [?m (d, w)] => assert (Hm : safe1 m) end.
    { apply safe0_bind; [apply (safe0_reconcile _ good_state)|]. intros _. apply (quiet0_safe0 _ good_state), quiet0_ret. }
    by apply Hm.
Qed.

Lemma safe_for_each {A} (l : list A) P (f : A -> act unit) : (forall x, stable (P x)) ->
  (forall x, safe good_state (P x) (f x) (fun _ _ => True)) -> safe good_state (fun w => Forall (fun x => P x w) l) (for_each l f) (fun _ _ => True).
Proof.
  intros Hst Hf. induction l as [|x l IH]; simpl; [by apply (quiet_safe _ good_state), quiet_ret|].
  eapply (safe_bind good_state _ _ (fun _ w => Forall (fun x => P x w) l)); [|by intros].
  intros s Hg H. apply Forall_cons in H as [H1 H2]. destruct (Hf x s Hg H1) as (Hg' & Hle & _).
  split; [done|]. split; [done|]. eapply Forall_impl; [exact H2|]. intros y Hy. eapply Hst; [apply Hle | exact Hy].
Qed.

Lemma safe0_recoverAttempts : safe1 (recoverAttempts : act unit).
Proof.
  unfold recoverAttempts.
  eapply (safe_bind good_state _ _ (fun r w => forall l, r = Ok l -> Forall (fun da => issued w (aCallID (daAttempt da))) l)).
  { apply (quiet_safe _ good_state). intros s Hs _. unfold call. pose proof (step_wle _ _ (ws_dialing offered s.2)) as Hle.
    pose proof (law_dialing s.2) as Hl. destruct (stDialing s.2) as [r w]. simpl in *.
    split; [done|]. split; [by split|]. intros l ->. apply Forall_forall. intros da Hda. by apply (Hl l da). }
  intros [l|e]; [|by apply (quiet_safe _ good_state), quiet_ret].
  eapply safe_weaken; [|intros w H; by apply H | intros ? ? H; exact H].
  apply (safe_seq good_state); [by apply (quiet0_safe0 _ good_state), quiet0_ask| |]; [intros w w' Hle H; eapply Forall_impl; [exact H|]; intros da; apply Hle|].
  intros t. apply (safe_for_each _ (fun da w => issued w (aCallID (daAttempt da)))); [|intros da; apply safe_recover_one].
  intros da w w' Hle. apply Hle.
Qed.

(** [m] keeps the account right when it starts as [A]. *)
Definition safe_from (A : Account) {B} (m : act B) : Prop :=
  forall s, good_state s -> acc s.1 = A -> good_state (m s).2 /\ sle s (m s).2.

Lemma safe_from_bind A {B C} (m : act B) (f : B -> act C) : quiet0 m -> (forall b, safe_from A (f b)) ->
  safe_from A (m ≫= f).
Proof.
  intros Hm Hf s Hg E. destruct (Hm s (gs_sane _ Hg) I) as (E1 & L1 & _). destruct (quiet_safe _ good_state _ _ _ Hm s Hg I) as (G1 & _ & _).
  rewrite bind_run. destruct (Hf (m s).1 (m s).2) as [G2 L2]; [done|congruence|].
  split; [done | by etransitivity].
Qed.

Lemma safe0_answer k : safe1 (handle (AnsweredMsg k) : act unit).
Proof.
  intros s Hg _. cbn [handle]. rewrite gets_run. cbn [fst snd].
  destruct (flights (acc s.1) !! k) as [f|] eqn:Hf; [|by split]. destruct (flIsAnswered f) eqn:Ea; [by split|].
  match goal with |- context [?m s] => assert (Hm : safe_from (acc s.1) m) end.
  2:{ destruct (Hm s Hg eq_refl) as [G L]. by split. }
  apply safe_from_bind; [solve_quiet|]. intros st. apply safe_from_bind; [solve_quiet|]. intros _.
  apply safe_from_bind; [quiet_leaf|]. intros t. apply safe_from_bind; [solve_quiet|]. intros _.
  intros [d w] [Hok Hi Hs] E. simpl in *. split; [|by split]. split; simpl; [| |done].
  - apply pick_up_ok; [done | by rewrite E | done].
  - intros i. unfold pick_up, ringBy. simpl. rewrite lookup_insert_is_Some. intros [<-|[_ H]]; [|by apply Hi].
    apply Hi. rewrite E. by exists f.
Qed.

Lemma safe1_pass fuel : safe1 (pass tzdb fuel : act _).
Proof.
  intros s Hg _. destruct (safe_pass (fun _ => True) good_state fuel s Hg) as [H L]; [|done].
  intros l _. by apply Forall_forall.
Qed.

(** Along the code, with what is known of each operation. *)
Ltac solve_turn :=
  repeat first
    [ solve [apply (quiet0_safe0 _ good_state); solve_quiet]
    | apply (safe0_onFinished _ good_state) | apply (safe0_checkBackstops _ good_state)
    | apply safe1_pass | apply safe0_recoverAttempts | apply safe0_answer
    | apply (safe0_for_each (fun _ => True) good_state); intros
    | apply (safe0_bind good_state); [|intros ?]
    | match goal with |- safe1 (if ?x then _ else _) => destruct x end
    | match goal with |- safe1 (match ?x with _ => _ end) => destruct x end ].

Lemma safe0_handle m : safe1 (handle m : act unit).
Proof.
  destruct m as [f|k|dnc id|id a|]; [|apply safe0_answer| | |]; cbn [handle]; solve_turn.
Qed.

Ltac quiet_step := apply safe0_bind; [apply (quiet0_safe0 (fun _ => True) good_state); quiet_leaf|].

Lemma safe0_turn fuel inbox reconciled : safe1 (turn tzdb fuel inbox reconciled : act _).
Proof.
  unfold turn, now. quiet_step. intros t. apply safe0_bind; [apply (safe0_for_each (fun _ => True) good_state), safe0_handle|]. intros _.
  quiet_step. intros isready. apply safe0_bind.
  { destruct (_ && _); [|apply (quiet0_safe0 (fun _ => True) good_state); quiet_leaf]. quiet_step. intros _.
    apply safe0_bind; [apply safe0_recoverAttempts|]. intros _. apply (quiet0_safe0 (fun _ => True) good_state); quiet_leaf. }
  intros _. quiet_step. intros ready. apply safe0_bind.
  - destruct ready; [|apply (quiet0_safe0 (fun _ => True) good_state); quiet_leaf].
    apply safe0_bind; [apply (safe0_checkBackstops (fun _ => True) good_state)|]. intros _. quiet_step. intros d.
    destruct (_ || _); [apply safe1_pass | apply (quiet0_safe0 (fun _ => True) good_state); quiet_leaf].
  - intros [_|]; [|apply (quiet0_safe0 (fun _ => True) good_state); quiet_leaf].
    apply safe0_bind; [apply (safe0_publish (fun _ => True) good_state)|]. intros _.
    apply (quiet0_safe0 (fun _ => True) good_state); quiet_leaf.
Qed.

(** What the actor goes through: it starts empty, takes turns, and between them
    the world moves on its own, issuing and offering more. *)
Inductive reach (c : Config) : Dialer * W -> Prop :=
| reach_new w : sane w -> reach c (New c, w)
| reach_turn s fuel inbox reconciled : reach c s -> reach c (turn tzdb fuel inbox reconciled s).2
| reach_world d w w' : reach c (d, w) -> wle w w' -> reach c (d, w').

Lemma reach_good c s : reach c s -> good_state s.
Proof.
  induction 1 as [w Hs|s fuel inbox b H IH|d w w' H IH Hle].
  - split; [split; done| |done]. intros k [f Hf]. done.
  - by apply (safe0_turn fuel inbox b s IH).
  - destruct IH as [Hok Hi Hs]. split; [done| |by apply Hle]. intros k Hk. by apply Hle, Hi.
Qed.

(** However the dialer's turns, its store's answers and what others do in
    between interleave, its account is exact: the calls of each campaign in
    flight, the ringing calls in all and of each campaign, and the talking
    calls are the numbers of the flights it holds, so that a limit judged by
    them is judged by the calls there are, and no slot of a campaign is lost
    or freed twice. *)
Theorem account_exact c s (Hs : reach c s) : account_ok (acc s.1).
Proof. apply (reach_good c s Hs). Qed.

End logic.

End DialerAccount.
