(* ===== verification/DialerPass.v ===== *)
(** * What an admission pass guarantees

    A pass adds no call past the ringing limit or a campaign's own, whatever
    its store and its placer answer; the next call goes to the open campaign
    with the fewest in flight; and the pass ends, in a number of rounds known
    beforehand, as long as the store begins what it just offered and the placer
    takes every call ([Accepts]; [DialerWorld.pass_ends] is that of the tables). *)

From S2P Require Import Prelude Float64 DayRange PhoneNum Calendar CampaignTypes CallWindow Schedule CampaignPolicy Capacity BotSlots CampaignData CampaignStore Dialer DialerAccount.
Import Calendar CampaignTypes Window Capacity CampaignData Dialer DialerAccount.

Module DialerPass.

(** The calls at once the running campaigns allow the one called [id]. *)
Definition allowance (running : list Campaign) (id : uuid) : Z :=
  fold_right Z.max 0 (map cMaxConcurrent (filter (fun c => cID c = id) running)).

Lemma allowance_ge running c : c ∈ running -> cMaxConcurrent c <= allowance running (cID c).
Proof.
  unfold allowance. induction running as [|x l IH]; intros H; [by apply not_elem_of_nil in H|].
  apply elem_of_cons in H as [<-|H].
  - rewrite filter_cons_True by done. simpl. lia.
  - rewrite filter_cons. destruct (decide (cID x = cID c)); simpl; specialize (IH H); lia.
Qed.

Lemma in_flight_exact a id : account_ok a -> default 0 (inflight a !! id) = map_count (of_campaign id) (flights a).
Proof. intros Ha. apply (tallies_default _ _ _ (ao_inflight a Ha)). intros. apply map_count_nonneg. Qed.

Lemma map_count_delete_le {A} (p : A -> bool) (m : gmap uuid A) (k : uuid) : map_count p (delete k m) <= map_count p m.
Proof.
  destruct (m !! k) as [x|] eqn:E; [|by rewrite delete_id].
  rewrite (map_count_delete _ _ k x) by done. destruct (p x); simpl; lia.
Qed.

(** A flight dropped lowers no count below what is left. *)
Lemma drop_flight_flights k a : flights (drop_flight k a).1 = delete k (flights a).
Proof.
  unfold drop_flight. destruct (flights a !! k) as [f|] eqn:E; [|by rewrite delete_id].
  by destruct (flIsAnswered f).
Qed.

Lemma rotated_length {A} k (l : list A) : length (rotated k l) = length l.
Proof. unfold rotated. rewrite length_app, length_skipn, length_take. lia. Qed.

Section pass.
Context {W : Type} {deps : Deps W} {laws : DepsLaws W} (tzdb : string -> option Location).

Notation act := (M W).

(** The account stays within [R] ringing calls and [I id] calls of a campaign. *)
Record within (C : Config) (R : Z) (I : uuid -> Z) (s : Dialer * W) : Prop := mkWithin {
  wi_good : good_state s;
  wi_cfg : cfg s.1 = C;
  wi_ringing : ringing (acc s.1) <= R;
  wi_inflight id : in_flight_of s.1 id <= I id
}.

#[local] Instance within_invariant C R I : MaxRinging C <= R ->
  Invariant (fun c => cMaxConcurrent c <= I (cID c)) (within C R I).
Proof.
  intros HR. split.
  - by intros s [].
  - intros s s' [Hg Hc Hr Hi] Ea Hle. constructor; unfold in_flight_of in *; rewrite ?Ea; try done.
    + destruct Hg as [Hok Hiss Hs]. split; rewrite ?Ea; [done| |by apply Hle]. intros k Hk. by apply Hle, Hiss.
    + by rewrite (proj1 Hle).
  - intros k d w [[Hok Hiss Hs] Hc Hr Hi]. simpl in *. pose proof (drop_flight_ok _ k Hok) as Hok'.
    pose proof (drop_flight_flights k (acc d)) as Hf.
    constructor; simpl; [split; simpl; [done| |done]| done | |].
    + intros i [x Hx]. rewrite Hf, lookup_delete_Some in Hx. apply Hiss. exists x. by apply Hx.
    + rewrite (ao_ringing _ Hok'), Hf. pose proof (map_count_delete_le rings (flights (acc d)) k).
      pose proof (ao_ringing _ Hok). lia.
    + intros id. specialize (Hi id). unfold in_flight_of in *. simpl.
      rewrite in_flight_exact in Hi |- * by done. rewrite Hf.
      pose proof (map_count_delete_le (of_campaign id) (flights (acc d)) k). lia.
  - intros k t d w [[Hok Hiss Hs] Hc Hr Hi]. constructor; simpl in *; try done.
    split; simpl; [by apply recheck_ok| |done]. intros i. unfold recheck. simpl. rewrite lookup_alter_is_Some. apply Hiss.
  - intros f c d w [Hg Hc Hr Hi] Hcam Hid [Hroom1 Hroom2] Hf Hw Ha. simpl in *.
    constructor; simpl; [by apply take_off_state | done | rewrite Hc in Hroom2; lia |].
    intros id. specialize (Hi id). unfold in_flight_of in *. simpl. destruct (decide (flCampaignID f = id)) as [E|E].
    + rewrite E, lookup_insert_eq. simpl. rewrite Hid in E. subst id. lia.
    + by rewrite lookup_insert_ne.
Qed.

(** The campaigns a pass from here finds running. *)
Definition running_at (s : Dialer * W) : list Campaign :=
  match (stRunningCampaigns s.2).1 with Ok l => l | Err _ => [] end.

(** C26: A pass keeps the limits, whatever its store, its placer and the other
    parts answer while it runs and however long it takes: afterwards no more
    calls ring than rang before or [MaxRinging] allows, and no campaign has
    more calls in flight than it had or its own [max_concurrent] allows, a
    campaign that is not running none that it did not have. *)
Theorem pass_within_limits c s fuel (Hs : reach tzdb c s) :
  let s' := (pass tzdb fuel s).2 in
  ringing (acc s'.1) <= Z.max (ringing (acc s.1)) (MaxRinging (cfg s.1)) /\
  forall id, in_flight_of s'.1 id <= Z.max (in_flight_of s.1 id) (allowance (running_at s) id).
Proof.
  cbv zeta. pose proof (reach_good tzdb c s Hs) as Hg.
  set (R := Z.max _ (MaxRinging _)).
  set (I := fun id => Z.max (in_flight_of s.1 id) (allowance (running_at s) id)).
  assert (HR : MaxRinging (cfg s.1) <= R) by lia.
  destruct (safe_pass tzdb _ _ (inv := within_invariant (cfg s.1) R I HR) fuel s) as [[_ _ H1 H2] _].
  - constructor; [done | done | lia | intros id; unfold I; lia].
  - intros l E. apply Forall_forall. intros x Hx. unfold I, running_at. rewrite E.
    pose proof (allowance_ge l x Hx). lia.
  - by split.
Qed.

(** ** The campaign picked *)

Definition pick_ok (d : Dialer) (bs : buckets) (l : list Campaign) (r : option Campaign) : Prop :=
  match r with
  | None => Forall (fun c => open_for d bs c = false) l
  | Some c => exists l1 l2, l = l1 ++ c :: l2 /\ open_for d bs c = true /\
      Forall (fun x => open_for d bs x = true -> in_flight_of d (cID c) < in_flight_of d (cID x)) l1 /\
      Forall (fun x => open_for d bs x = true -> in_flight_of d (cID c) <= in_flight_of d (cID x)) l2
  end.

(** An open campaign is what is picked. *)
Lemma pick_open d bs l : match pick d bs l with Some c => open_for d bs c = true | None => True end.
Proof.
  unfold pick. induction l as [|x l IH] using rev_ind; [done|]. rewrite fold_left_app. simpl.
  destruct (fold_left _ l None) as [p|]; destruct (open_for d bs x) eqn:Ex; try destruct (_ <? _);
    done.
Qed.

(** The next call goes to the campaign, of those neither done nor halted nor
    stopped, with the fewest calls in flight, and of several with as few to the
    first from the pass's rotating start on; none is picked exactly when none
    is open. *)
Theorem pick_fewest d bs l : pick_ok d bs l (pick d bs l).
Proof.
  induction l as [|x l IH] using rev_ind; [by constructor|]. unfold pick in *. rewrite fold_left_app. simpl.
  destruct (fold_left _ l None) as [p|]; cbn [pick_ok] in IH.
  - destruct IH as (l1 & l2 & -> & Hp & H1 & H2).
    destruct (open_for d bs x) eqn:Ex; [destruct (Z.ltb_spec (in_flight_of d (cID x)) (in_flight_of d (cID p)))|].
    + exists (l1 ++ p :: l2), []. split; [done|]. split; [done|]. split; [|done].
      apply Forall_app. split; [|apply Forall_cons; split; [done|]].
      * eapply Forall_impl; [exact H1|]. simpl. intros y Hy Ho. specialize (Hy Ho). lia.
      * eapply Forall_impl; [exact H2|]. simpl. intros y Hy Ho. specialize (Hy Ho). lia.
    + exists l1, (l2 ++ [x]). split; [by rewrite <- app_assoc|]. split; [done|]. split; [done|].
      apply Forall_app. split; [done|]. by repeat constructor.
    + exists l1, (l2 ++ [x]). split; [by rewrite <- app_assoc|]. split; [done|]. split; [done|].
      apply Forall_app. split; [done|]. constructor; [by rewrite Ex | done].
  - destruct (open_for d bs x) eqn:Ex; [|apply Forall_app; split; [done|by constructor]].
    exists l, []. split; [done|]. split; [done|]. split; [|done].
    eapply Forall_impl; [exact IH|]. simpl. by intros y ->.
Qed.

(** ** A pass ends *)

(** A pass whose admission loop has not ended has not. *)
Lemma pass_none fuel s running live :
  let t := clockNow s.2 in
  let s1 := (set_nextWake (t + SafetyScan (cfg s.1)) (set_stopped ∅ (set_isDirty false s.1)), (stRunningCampaigns s.2).2) in
  let s2 := (housekeeping running t s1).2 in
  (stRunningCampaigns s.2).1 = Ok running -> (housekeeping running t s1).1 = live -> live <> [] ->
  (admission tzdb fuel (rotated (rot s2.1 mod length live) live)
     (list_to_map (map (fun c => (cID c, empty_bucket)) live)) t (set_rot (S (rot s2.1)) s2.1, s2.2)).1 = None ->
  (pass tzdb fuel s).1 = None.
Proof.
  cbv zeta. intros Hr Hl Hne Ha. unfold pass. rewrite modify_run. unfold now. rewrite ask_run, modify_run, bind_run, call_run.
  cbn [fst snd]. rewrite Hr, bind_run.
  change (cfg (set_stopped ∅ (set_isDirty false s.1))) with (cfg s.1). rewrite Hl, gets_run, bind_run, decide_False by done.
  rewrite bind_run. unfold modify at 1. cbn [fst snd]. rewrite Ha. done.
Qed.

Lemma length_omap_le {A B} (f : A -> option B) l : (length (omap f l) <= length l)%nat.
Proof. induction l as [|x l IH]; [done|]. csimpl. destruct (f x); csimpl; lia. Qed.

(** *** What it takes *)

(** The interface with its writes taken out, but for what refilling a bucket
    writes: what is true of the world here is true from the fetch of a contact
    to its write-ahead. *)
Definition looking : Deps W := {|
  stRunningCampaigns w := (Ok [], w);
  stMove id a w := ((stMove id a w).1, w);
  stDue := stDue;
  stHeldByFrequency := stHeldByFrequency;
  stDefer := stDefer;
  stRearmUntried id t w := (Ok tt, w);
  stPending id t w := ((stPending id t w).1, w);
  stEarliestPending id w := (Ok None, w);
  stComplete id t w := (Ok false, w);
  stPauseFor id r w := (Ok false, w);
  stDNCContacts n w := (Ok [], w);
  stMarkDialingDNC w := (Ok tt, w);
  stDialing w := (Ok [], w);
  stRecentOutcomesSince := stRecentOutcomesSince;
  stBegin id t w := (Err (ErrStore ""), w);
  stSetJob id job w := (Ok tt, w);
  stFinish id e w := (Ok None, w);
  stVoid id t w := (Ok tt, w);
  stFinishFromLedger id w := (Ok false, w);
  plPlaceAI rq w := ((plPlaceAI rq w).1, w);
  slUsage := slUsage;
  lnDIDLimits := lnDIDLimits;
  lnLinesInUse := lnLinesInUse;
  isLive := isLive;
  clockNow := clockNow
|}.

(** A contact just fetched is [fresh] until something else is begun; while the
    store is [able], a fresh contact is begun; and the placer places. *)
Class Accepts (peek : @DepsLaws W looking) := {
  able : W -> Prop;
  able_back w w' : sane w -> wle w w' -> able w' -> able w;
  looking_sane w : sane w -> @sane W looking peek w;
  looking_runs w id : runs w id -> @runs W looking peek w id;
  due_limited id t f n w l : (stDue id t f n w).1 = Ok l -> Z.of_nat (length l) <= Z.max 0 n;
  begins id t w : @offered W looking peek w id -> able w -> exists a, (stBegin id t w).1 = Ok a;
  places rq w : exists job, (plPlaceAI rq w).1 = Ok job
}.

Section accepted.
Context (peek : @DepsLaws W looking) {accepts : Accepts peek}.

Notation fresh := (@offered W looking peek).

Lemma refill_loop_length c lim t rounds moved s ready m :
  (refill_loop tzdb c lim t rounds [] moved s).1 = Ok (ready, m) -> Z.of_nat (length ready) <= Z.max 0 lim.
Proof.
  revert moved s. induction rounds as [|rounds IH]; intros moved s; cbn [refill_loop].
  { rewrite modify_run. intros [= <- _]. simpl. lia. }
  rewrite gets_run, bind_run, call_run. cbn [fst snd].
  destruct (stHeldByFrequency _ _ _ _ _) as [[[|h held]|e] w1]; cbn [fst snd]; [| |done].
  - rewrite bind_run, call_run. cbn [fst snd].
    pose proof (due_limited (cID c) t (Frequency (cfg s.1)) lim w1) as Hdue.
    destruct (stDue _ _ _ _ _) as [[[|ct due]|e] w2]; cbn [fst snd]; [intros [= <- _]; simpl; lia| |done].
    specialize (Hdue _ eq_refl). rewrite bind_run. set (judged := zip _ _). cbv zeta.
    set (open := [] ++ omap _ judged).
    assert (Hopen : (length open <= length (ct :: due))%nat).
    { unfold open. simpl app. etransitivity; [apply length_omap_le|]. unfold judged. rewrite length_zip_with. lia. }
    rewrite bind_run. match goal with |- context [match ?r with Ok _ => _ | Err e => _ end] => destruct r as [u|e] end; [|done].
    clearbody open. destruct open as [|x l]; [by apply IH|]. intros [= <- _]. lia.
  - rewrite bind_run, bind_run, call_run. cbn [fst snd].
    match goal with |- context [stDefer ?a ?b ?w] => destruct (stDefer a b w) as [[u|e] w3] end; cbn [fst snd]; [|done]. apply IH.
Qed.

Lemma refill_length c b t s ready m : bReady b = [] -> (refill tzdb c b t s).1 = Ok (ready, m) ->
  Z.of_nat (length ready) <= Z.max 0 (MaxBatch (cfg s.1)).
Proof.
  intros Hb. unfold refill. rewrite get_run, Hb. intros H%refill_loop_length. lia.
Qed.

Lemma looking_refill_loop c lim t rounds ready moved :
  refill_loop (deps := looking) tzdb c lim t rounds ready moved = refill_loop tzdb c lim t rounds ready moved.
Proof. reflexivity. Qed.

Lemma looking_refill c b t s : refill (deps := looking) tzdb c b t s = refill tzdb c b t s.
Proof. unfold refill. rewrite !get_run, looking_refill_loop. done. Qed.

Lemma looking_limit c : limit (deps := looking) c = limit c.
Proof. reflexivity. Qed.

(** What a refill fetched is begun. *)
Lemma refill_fresh c b t s ct ready m : bReady b = [] -> sane s.2 -> runs s.2 (cID c) ->
  (refill tzdb c b t s).1 = Ok (ct :: ready, m) -> fresh (limit c (refill tzdb c b t s).2).2.2 (ctID ct).
Proof.
  intros Hb Hs Hr E.
  destruct (quiet_refill (deps := looking) (laws := peek) tzdb c b t s (looking_sane _ Hs)) as (_ & Hle & Hon).
  { split; [rewrite Hb; constructor | by apply looking_runs]. }
  rewrite looking_refill in Hle, Hon.
  specialize (Hon _ _ E). apply Forall_cons in Hon as [Hf _].
  destruct (quiet0_limit (deps := looking) (laws := peek) c (refill tzdb c b t s).2) as (_ & Hle2 & _).
  - apply Hle, looking_sane, Hs.
  - done.
  - rewrite looking_limit in Hle2. by apply Hle2.
Qed.

(** A call begun rings; one that could not be begun changes no account. *)
Lemma admit_rings c ct t s :
  match (stBegin (ctID ct) t s.2).1 with
  | Ok _ => ringing (acc (admitCall c ct t s).2.1) = ringing (acc s.1) + 1
  | Err _ => acc (admitCall c ct t s).2.1 = acc s.1
  end.
Proof.
  destruct s as [d w]. unfold admitCall. rewrite bind_run, call_run. cbn [fst snd].
  destruct (stBegin (ctID ct) t w) as [[a|e] w']; cbn [fst snd]; [|done].
  rewrite get_run. cbn [fst snd]. cbv zeta. rewrite modify_run. cbn [fst snd]. rewrite bind_run, call_run.
  cbn [fst snd]. match goal with |- context [plPlaceAI ?rq w'] => destruct (places rq w') as [job Hj];
    destruct (plPlaceAI rq w') as [r w2] end. simpl in Hj. subst r. cbn [fst snd].
  rewrite bind_run. destruct (String.eqb job ""); cbn [fst snd]; [done|].
  rewrite bind_run, call_run. by destruct (stSetJob _ _ _).
Qed.

(** *** The measure *)

(** What a bucket may still cost: nothing once done, else a look and its
    contacts. *)
Definition cost (b : bucket) : nat := if bDone b then 0 else S (length (bReady b)).

Definition costs (bs : buckets) : nat := sum_list_with (fun x => cost x.2) (map_to_list bs).

Lemma costs_new (bs : buckets) k b : bs !! k = None -> costs (<[k := b]> bs) = (cost b + costs bs)%nat.
Proof.
  intros Hk. unfold costs. assert (Hsum : forall l l' : list (uuid * bucket), l ≡ₚ l' ->
    sum_list_with (fun x => cost x.2) l = sum_list_with (fun x => cost x.2) l').
  { intros l l'. induction 1; simpl; lia. }
  by rewrite (Hsum _ _ (map_to_list_insert bs k b Hk)).
Qed.

Lemma costs_insert (bs : buckets) k b b' : bs !! k = Some b ->
  (costs (<[k := b']> bs) + cost b = costs bs + cost b')%nat.
Proof.
  intros Hb. rewrite <- (insert_delete_id bs k b Hb) at 2. rewrite <- (insert_delete_eq bs k b').
  rewrite !costs_new by apply lookup_delete_eq. lia.
Qed.

(** The rounds that may be left: a look at each campaign, the contacts ready,
    and for each call that may still ring a batch. *)
Definition free (s : Dialer * W) : nat := Z.to_nat (MaxRinging (cfg s.1) - ringing (acc s.1)).
Definition batch (s : Dialer * W) : nat := S (Z.to_nat (MaxBatch (cfg s.1))).
Definition measure (bs : buckets) (s : Dialer * W) : nat := (costs bs + batch s * free s)%nat.

(** One round uses some of it up. *)
Lemma admitOne_uses c b t s : good_state s -> offer_of c (bReady b) s.2 -> bDone b = false ->
  let s' := (admitOne tzdb c b t s).2 in
  able s'.2 ->
  (cost (admitOne tzdb c b t s).1 + batch s * free s' < cost b + batch s * free s)%nat.
Proof.
  cbv zeta. intros Hg Hb Hd. pose proof (gs_sane _ Hg) as Hs. unfold admitOne. rewrite bind_run.
  destruct (quiet_filled tzdb c b t s Hs Hb) as (Ea & Hle & Hr).
  pose proof (refill_length c b t s) as Hlen. pose proof (refill_fresh c b t s) as Hfresh.
  set (m := match bReady b with [] => _ | _ :: _ => _ end : act _) in *.
  assert (Em : match bReady b with [] => m s = refill tzdb c b t s | l => m s = (Ok (l, false), s) end) by by destruct (bReady b).
  clearbody m. unfold cost. rewrite Hd. unfold free.
  destruct (m s) as [r s1] eqn:Ems. cbn [fst snd] in *.
  assert (Efree : forall s2 : Dialer * W, acc s2.1 = acc s1.1 -> cfg s2.1 = cfg s1.1 ->
    MaxRinging (cfg s2.1) - ringing (acc s2.1) = MaxRinging (cfg s.1) - ringing (acc s.1)).
  { intros s2 -> ->. by rewrite Ea, (proj1 Hle). }
  destruct r as [[[|ct ready] moved]|e]; cbn [fst snd mret M_ret bDone]; intros Hable; [rewrite (Efree s1) by done; lia| |rewrite (Efree s1) by done; lia].
  rewrite bind_run in Hable |- *.
  destruct (quiet0_limit c s1 (wle_sane _ _ (proj2 Hle) Hs) I) as (Ea2 & Hle2 & _). pose proof (limit_room c s1) as Hroom.
  destruct (limit c s1) as [[reason|] s2] eqn:El; cbn [fst snd mret M_ret bDone bReady] in *.
  { rewrite (Efree s2) by (try done; apply Hle2). lia. }
  pose proof (Hroom eq_refl) as [_ Hroom2]. rewrite bind_run in Hable |- *. cbn [fst snd mret M_ret bDone bReady] in *.
  pose proof (admit_rings c ct t s2) as Hring. pose proof (Efree s2 Ea2 (proj1 Hle2)) as E2. rewrite <- E2.
  assert (Hstep : sle s2 (admitCall c ct t s2).2 /\ sane s2.2).
  { assert (Hg2 : good_state s2).
    { eapply (inv_quiet (J := good_state)); [exact Hg | congruence | by etransitivity]. }
    split; [|apply Hg2]. refine (proj2 (safe_admit _ good_state c ct t s2 Hg2 _ Logic.I _)).
    - specialize (Hr _ _ eq_refl). apply Forall_cons in Hr as [Hr _]. by apply Hle2.
    - unfold room_for, in_flight_of. rewrite Ea2. replace (cfg s2.1) with (cfg s1.1) by (symmetry; apply Hle2). by apply Hroom. }
  destruct Hstep as [[Hcfg Hw] Hs2]. apply (able_back _ _ Hs2 Hw) in Hable. clear Hw.
  destruct (stBegin (ctID ct) t s2.2) as [[a|e] w'] eqn:Eb; cbn [fst] in Hring.
  - assert (Hlt : ringing (acc s2.1) < MaxRinging (cfg s2.1)) by (rewrite Ea2; replace (cfg s2.1) with (cfg s1.1) by (symmetry; apply Hle2); exact Hroom2).
    replace (cfg (admitCall c ct t s2).2.1) with (cfg s2.1) by (symmetry; exact Hcfg). rewrite Hring.
    assert (Hl : (length ready <= length (bReady b) + Z.to_nat (MaxBatch (cfg s.1)))%nat).
    { destruct (bReady b) as [|x l] eqn:Hbr.
      - specialize (Hlen (ct :: ready) moved eq_refl ltac:(by rewrite <- Em)). simpl in Hlen. lia.
      - injection Em as _ -> _ _. simpl. lia. }
    unfold batch. nia.
  - replace (cfg (admitCall c ct t s2).2.1) with (cfg s2.1) by (symmetry; exact Hcfg). rewrite Hring. destruct (bReady b) as [|x l] eqn:Hbr.
    + exfalso. destruct (begins (ctID ct) t s2.2) as [a Ha]; [|done|by rewrite Eb in Ha].
      specialize (Hfresh ct ready moved eq_refl Hs (proj2 Hb) ltac:(by rewrite <- Em)). rewrite <- Em in Hfresh. cbn [snd] in Hfresh. by rewrite El in Hfresh.
    + injection Em as _ -> _ _. simpl. lia.
Qed.

Lemma admission_ends fuel l bs t s : good_state s -> admissible l bs s.2 -> (forall c, c ∈ l -> is_Some (bs !! cID c)) ->
  able (admission tzdb fuel l bs t s).2.2 -> (measure bs s < fuel)%nat -> is_Some (admission tzdb fuel l bs t s).1.
Proof.
  revert bs s. induction fuel as [|fuel IH]; intros bs s Hg Hbs Hdom; [lia|]. cbn [admission]. rewrite get_run.
  destruct (pick s.1 bs l) as [c|] eqn:Hp; [|by eexists]. rewrite bind_run. intros Hable Hm.
  pose proof (pick_open s.1 bs l) as Hopen. rewrite Hp in Hopen. unfold open_for in Hopen. apply pick_of in Hp as Hin.
  pose proof (admissible_bucket l bs c _ Hbs Hin) as Hob. destruct (Hdom c Hin) as [b Hb]. rewrite Hb in Hopen, Hob, Hable |- *.
  cbn [default from_option id] in *. assert (Hd : bDone b = false) by by destruct (bDone b).
  destruct (safe_admitOne tzdb _ good_state c b t Logic.I s Hg Hob) as (Hg' & Hle & Hob').
  pose proof (admitOne_uses c b t s Hg Hob Hd) as Hu. cbv zeta in Hu.
  destruct (admitOne tzdb c b t s) as [b' s']. cbn [fst snd] in *.
  assert (Hadm : admissible l (<[cID c := b']> bs) s'.2).
  { apply (stable_admissible l bs _ _ (proj2 Hle)) in Hbs as [H1 H2]. split; [by apply map_Forall_insert_2 | done]. }
  destruct (safe_admission tzdb (fun _ => True) good_state fuel l (<[cID c := b']> bs) t) with s' as (_ & Hend & _); [by apply Forall_true|done..|].
  specialize (Hu (able_back _ _ (gs_sane _ Hg') (proj2 Hend) Hable)).
  apply IH; try done.
  - intros x Hx. apply lookup_insert_is_Some'. right. by apply Hdom.
  - pose proof (costs_insert bs (cID c) b b' Hb). unfold measure in *.
    assert (Hbatch : batch s' = batch s) by (unfold batch; by rewrite (proj1 Hle)). lia.
Qed.

Lemma housekeeping_length l t s : (length (housekeeping l t s).1 <= length l)%nat.
Proof. unfold housekeeping. repeat (rewrite bind_run). unfold gets. cbn [fst]. apply length_filter. Qed.


Lemma costs_start (live : list Campaign) :
  (costs (list_to_map (map (fun c => (cID c, empty_bucket)) live)) <= length live)%nat.
Proof.
  induction live as [|c live IH]; [done|]. cbn [map list_to_map foldr fst snd length].
  set (bs := list_to_map _ : buckets) in *. change (foldr _ _ _) with bs. destruct (bs !! cID c) as [b|] eqn:E.
  - pose proof (costs_insert bs (cID c) b empty_bucket E) as H. simpl in H.
    apply elem_of_list_to_map_2, list_elem_of_fmap in E as (x & [= _ ->] & _). simpl in H. lia.
  - rewrite (costs_new bs (cID c) empty_bucket E). change (cost empty_bucket) with 1%nat. lia.
Qed.

(** A pass ends when the store was still able at the end. *)
Lemma pass_done c s fuel : reach tzdb c s -> able (pass tzdb fuel s).2.2 ->
  (length (running_at s) + batch s * free s < fuel)%nat -> (pass tzdb fuel s).1 = Some tt.
Proof.
  intros Hs. pose proof (reach_good tzdb c s Hs) as Hg. unfold running_at, pass. rewrite modify_run. unfold now.
  rewrite ask_run, modify_run, bind_run, call_run. cbn [fst snd]. set (d1 := set_nextWake _ _). set (t := clockNow s.2).
  pose proof (step_wle _ _ (ws_running offered s.2)) as Hle. pose proof (law_running s.2) as Hrl.
  destruct (stRunningCampaigns s.2) as [[running|e] w1]; cbn [fst snd] in *; [|done].
  assert (Hg1 : good_state (d1, w1)).
  { destruct Hg as [Hok Hi Hsane]. split; [done| |by apply Hle]. intros k Hk. by apply Hle, Hi. }
  rewrite bind_run. pose proof (housekeeping_length running t (d1, w1)) as Hlen.
  pose proof (housekeeping_running running t (d1, w1)) as Hincl.
  destruct (quiet0_housekeeping running t (d1, w1) (gs_sane _ Hg1) Logic.I) as (Ea & L2 & _).
  destruct (quiet_safe _ good_state _ _ _ (quiet0_housekeeping running t) (d1, w1) Hg1 Logic.I) as (Hg2 & _ & _).
  set (live := (housekeeping running t (d1, w1)).1) in *. set (s2 := (housekeeping running t (d1, w1)).2) in *.
  clearbody live s2. cbv zeta. set (bs := list_to_map _ : buckets). rewrite gets_run, bind_run.
  match goal with |- context [(?m s2).2] => set (s3 := (m s2).2) end.
  assert (E3 : acc s3.1 = acc s2.1 /\ cfg s3.1 = cfg s2.1 /\ s3.2 = s2.2) by (unfold s3; by destruct (decide _)).
  clearbody s3. destruct E3 as (E3 & E4 & E5). rewrite bind_run.
  set (l := rotated (rot s2.1 mod length live) live).
  pose proof (admission_ends fuel l bs t s3) as Hend.
  destruct (admission tzdb fuel l bs t s3) as [[bs'|] s4]; cbn [fst snd] in *; [by rewrite !bind_run|].
  intros Hable Hm. exfalso. destruct Hend as [x Hx]; [| | |done| |done].
  - destruct Hg2 as [Hok Hi Hsane]. split; rewrite ?E3, ?E5; done.
  - rewrite E5. apply admissible_start, Forall_forall. intros x Hx%Hincl. apply L2.
    by apply (Hrl running x eq_refl Hx (gs_sane _ Hg)).
  - intros x Hx. unfold l, rotated in Hx. rewrite elem_of_app in Hx.
    assert (Hx' : x ∈ live) by (rewrite <- (take_drop (rot s2.1 mod length live) live), elem_of_app; tauto).
    apply not_eq_None_Some. intros Hn%not_elem_of_list_to_map_2. apply Hn.
    apply list_elem_of_fmap. exists (cID x, empty_bucket). split; [done|]. apply list_elem_of_fmap. by exists x.
  - pose proof (costs_start live) as Hc. fold bs in Hc.
    assert (Ecfg : cfg s3.1 = cfg s.1) by (rewrite E4; apply L2).
    assert (Eacc : acc s3.1 = acc s.1) by (rewrite E3, Ea; done).
    unfold measure, batch, free in *. rewrite Ecfg, Eacc. lia.
Qed.

End accepted.

End pass.

(** ** A store and a placer that refuse nothing *)

Definition demo_campaign : Campaign :=
  mkCampaign 1 "Renewals" 9 "+4681234567" StatusRunning None "UTC" (mkWindow [] []) "46" 2 30
    CampaignPolicy.DefaultRetryPolicy None None.

Definition demo_contact : Contact :=
  mkContact 2 1 "+46700000001" "0700000001" "" ∅ ContactActive 0 0 (Some 0) None LeadAbsent "" None None.

Definition demo_attempt (k : N) : Attempt :=
  mkAttempt k 1 2 "+46700000001" (k + 1) (k + 2) "" AttemptDialing None "" 0 false LeadAbsent "" 0 None.

(** The world is the last identifier made. *)
#[local] Instance demo_deps : Deps N := {
  stRunningCampaigns w := (Ok [demo_campaign], w);
  stMove _ _ w := (Ok demo_campaign, w);
  stDue _ _ _ _ w := (Ok [demo_contact], w);
  stHeldByFrequency _ _ _ _ w := (Ok [], w);
  stDefer _ _ w := (Ok tt, w);
  stRearmUntried _ _ w := (Ok tt, w);
  stPending _ _ w := (Ok (mkPending 1 1 None 1), w);
  stEarliestPending _ w := (Ok None, w);
  stComplete _ _ w := (Ok false, w);
  stPauseFor _ _ w := (Ok false, w);
  stDNCContacts _ w := (Ok [], w);
  stMarkDialingDNC w := (Ok tt, w);
  stDialing w := (Ok [], w);
  stRecentOutcomesSince _ _ _ w := (Ok [], w);
  stBegin _ _ w := (Ok (demo_attempt (w + 1)), w + 3)%N;
  stSetJob _ _ w := (Ok tt, w);
  stFinish _ _ w := (Ok None, w);
  stVoid _ _ w := (Ok tt, w);
  stFinishFromLedger _ w := (Ok false, w);
  plPlaceAI _ w := (Ok "job", w);
  slUsage := None;
  lnDIDLimits := None;
  lnLinesInUse _ _ := 0;
  isLive _ _ := true;
  clockNow _ := 1000 * second
}.

Lemma demo_monotone offered (w w' : N) : world_step offered w w' -> (w <= w')%N.
Proof. destruct 1; simpl; try lia. done. Qed.

#[local, refine] Instance demo_laws : DepsLaws N := {
  sane _ := True;
  issued w k := (k <= w)%N;
  offered _ _ := True;
  runs _ _ := True
}.
Proof.
  all: try done.
  - intros w w' k H. pose proof (demo_monotone _ _ _ H). lia.
  - intros id t w a _ _ [= <-]. simpl. lia.
  - intros w l da [= <-] Hda. by apply elem_of_nil in Hda.
Defined.

Definition demo_cfg : Config :=
  mkConfig 3 0 (DayRange.mkRange 0 0) 0 0 PhoneNum.FormE164 "46" 0 Float64.f0 Float64.f0 false 0 0 0 0.

Definition no_zones : string -> option Location := fun _ => None.

Lemma account_exact_witness :
  let s := (turn no_zones 5 [] true (New demo_cfg, 0%N)).2 in account_ok (acc s.1) /\ ringing (acc s.1) = 2.
Proof.
  split; [|by vm_compute]. apply (account_exact no_zones demo_cfg). by apply reach_turn, reach_new.
Defined.

(** One call rings and one more may; the campaign may have two. *)
Lemma pass_within_limits_witness :
  let s := (New demo_cfg, 0%N) in let s' := (pass no_zones 5 s).2 in
  ringing (acc s'.1) = 2 /\ ringing (acc s'.1) <= Z.max (ringing (acc s.1)) (MaxRinging (cfg s.1)) /\
  in_flight_of s'.1 1 <= Z.max (in_flight_of s.1 1) (allowance [demo_campaign] 1).
Proof.
  destruct (pass_within_limits no_zones demo_cfg (New demo_cfg, 0%N) 5) as [H1 H2]; [by apply reach_new|].
  split; [by vm_compute|]. split; [exact H1 | exact (H2 1%N)].
Defined.

End DialerPass.
