(* ===== verification/DialerWorld.v ===== *)
(** * The dialer over the campaign tables

    The dialer's interface implemented by the transactions of [CampaignStore],
    with any placer and with stores that may fail at any call; that this
    implementation keeps the interface's laws, so that the theorems on the
    actor hold of it; and that the dialer and every other writer of the
    tables, interleaved in any way, keep both the account and the tables. *)

From S2P Require Import Prelude Float64 DayRange PhoneNum Calendar CampaignTypes CallWindow Schedule CampaignPolicy Capacity BotSlots CampaignData CampaignStore CampaignLedger Dialer DialerAccount DialerPass.
Import DayRange Calendar CampaignTypes CampaignPolicy CampaignData CampaignStore CampaignLedger.
Import Dialer DialerAccount DialerPass.

Module DialerWorld.

(** ** What a transaction leaves in place *)

(** The campaign exists and is no DRAFT. *)
Definition has_started (d : DB) (id : uuid) : Prop :=
  exists cam, campaigns d !! id = Some cam /\ cStatus cam <> StatusDraft.

(** Started campaigns stay started, contacts stay with their campaign. *)
Record grows (d d' : DB) : Prop := mkGrows {
  gr_started id : has_started d id -> has_started d' id;
  gr_contact k c : contacts d !! k = Some c ->
    exists c', contacts d' !! k = Some c' /\ ctCampaignID c' = ctCampaignID c
}.

#[export] Instance grows_preorder : PreOrder grows.
Proof.
  split; [intros d; split; [done | eauto]|]. intros d1 d2 d3 [H1 H2] [H3 H4]. split; [auto|].
  intros k c Hc. destruct (H2 _ _ Hc) as (c2 & Hc2 & E2). destruct (H4 _ _ Hc2) as (c3 & Hc3 & E3).
  exists c3. split; [done|congruence].
Qed.

Lemma grows_same d d' : campaigns d' = campaigns d -> contacts d' = contacts d -> grows d d'.
Proof. intros E1 E2. split; unfold has_started; rewrite ?E1, ?E2; eauto. Qed.

Lemma grows_contacts d d' : campaigns d' = campaigns d ->
  (forall k c, contacts d !! k = Some c -> exists c', contacts d' !! k = Some c' /\ ctCampaignID c' = ctCampaignID c) ->
  grows d d'.
Proof. intros E1 H. split; [|done]. unfold has_started. by rewrite E1. Qed.

Lemma grows_alter d d' id f : (forall c, ctCampaignID (f c) = ctCampaignID c) -> campaigns d' = campaigns d ->
  contacts d' = alter f id (contacts d) -> grows d d'.
Proof.
  intros Hf E1 E2. apply grows_contacts; [done|]. intros k c Hc. rewrite E2.
  destruct (decide (id = k)) as [->|Hne].
  - exists (f c). by rewrite lookup_alter_eq, Hc.
  - exists c. by rewrite lookup_alter_ne.
Qed.

Lemma grows_map d d' f : (forall c, ctCampaignID (f c) = ctCampaignID c) -> campaigns d' = campaigns d ->
  contacts d' = f <$> contacts d -> grows d d'.
Proof.
  intros Hf E1 E2. apply grows_contacts; [done|]. intros k c Hc. exists (f c). by rewrite E2, lookup_fmap, Hc.
Qed.

(** A campaign's row changed, its status never back to DRAFT. *)
Lemma grows_campaign d d' (id : uuid) f : (forall c, cStatus c <> StatusDraft -> cStatus (f c) <> StatusDraft) ->
  campaigns d' = alter f id (campaigns d) -> contacts d' = contacts d -> grows d d'.
Proof.
  intros Hf E1 E2. split; [|rewrite E2; eauto]. intros i (cam & Hc & Hs). unfold has_started. rewrite E1.
  destruct (decide (id = i)) as [->|Hne].
  - exists (f cam). rewrite lookup_alter_eq, Hc. auto.
  - exists cam. by rewrite lookup_alter_ne.
Qed.

Lemma grows_move d id a t : grows d (CampaignStore.move id a t d).1.
Proof.
  unfold CampaignStore.move. destruct (_ =? 0); [reflexivity|]. cbn [fst].
  assert (H : grows d (with_campaigns (update_row id (has_status (leaves a)) (moved a t)) d)).
  { eapply (grows_campaign _ _ id (fun x => if has_status (leaves a) x then moved a t x else x)); [|done|done].
    intros c Hc. destruct (has_status _ c); [by destruct a | done]. }
  destruct (decide _); [|done]. etransitivity; [exact H|].
  eapply grows_map; [|done|reflexivity]. intros c. cbv beta. by destruct (_ && _ && _).
Qed.

Section writers.
Context (tzdb : string -> option Location) (outer : Range).

Lemma grows_apply clock att e d r d' : apply tzdb outer clock att e d = Ok (r, d') -> grows d d'.
Proof.
  destruct r as [r|]; [|by intros ->%apply_none]. intros H.
  destruct (apply_inv _ _ _ _ _ _ _ _ H) as (ct & cam & _ & _ & _ & ->).
  match goal with |- context [leadSideEffects att _ ?d0] =>
    destruct (side_effects_tables att (aLeadIntent att) d0) as (E1 & E2 & _ & _) end. simpl in E1, E2.
  match goal with |- context [leadSideEffects att ?l ?d0] => set (d1 := leadSideEffects att l d0) in * end.
  clearbody d1. etransitivity; [by apply (grows_same d d1)|].
  destruct (AttemptIsLatest _ _); cbv zeta; (eapply grows_alter; [|done|reflexivity]); by intros c.
Qed.

Lemma grows_import id armed new d t : keyed d t -> grows d (fold_left (insert_contact id armed) new d).
Proof.
  intros Hk.
  cut (grows d (fold_left (insert_contact id armed) new d) /\
       forall k c, contacts (fold_left (insert_contact id armed) new d) !! k = Some c ->
         (k <= lastID (fold_left (insert_contact id armed) new d))%N); [by intros []|].
  apply (fold_left_inv (fun d' => grows d d' /\ forall k c, contacts d' !! k = Some c -> (k <= lastID d')%N)).
  { split; [reflexivity|]. intros k c Hc. by destruct (k_contact _ _ Hk _ _ Hc) as (_ & ? & _). }
  intros d' n [Hg Hids] _. unfold insert_contact. cbn [NewV7].
  destruct (has_contact _ _ _); cbn [with_contacts contacts lastID].
  - split; [etransitivity; [exact Hg | by apply grows_same]|]. intros k c Hc. specialize (Hids _ _ Hc). simpl. lia.
  - split.
    + etransitivity; [exact Hg|]. apply grows_contacts; [done|]. intros k c Hc. exists c. split; [|done]. simpl.
      rewrite lookup_insert_ne; [done|]. intros <-. specialize (Hids _ _ Hc). lia.
    + intros k c. simpl. rewrite lookup_insert_Some. intros [[<- _]|[_ Hc]]; [lia|]. specialize (Hids _ _ Hc). lia.
Qed.

(** Every writer lets what has started be. *)
Lemma grows_exec w o : keyed (db w) (clk w) -> grows (db w) (db (exec_op tzdb outer w o)).
Proof.
  destruct w as [d t]. intros Hk. simpl in Hk. destruct o; simpl.
  - reflexivity.
  - split; [|eauto]. intros i (cam & Hc & Hs). exists cam. split; [|done]. simpl.
    rewrite lookup_insert_ne; [done|]. intros <-. destruct (k_campaign _ _ Hk _ _ Hc). lia.
  - by eapply (grows_campaign _ _ id); [|reflexivity|done].
  - apply grows_move.
  - eapply (grows_campaign _ _ id); [|reflexivity|done]. intros x Hx. cbv beta. by destruct (_ && _).
  - eapply (grows_campaign _ _ id); [|reflexivity|done]. intros x Hx. cbv beta. by destruct (has_status _ _).
  - unfold ImportContacts. destruct (campaigns d !! id) as [cam|]; [|reflexivity].
    destruct (IsTerminal _); [reflexivity|]. by eapply grows_import.
  - destruct (may_begin _ _); [|reflexivity]. unfold Begin, txFor, ClaimContactForDial, InsertCampaignAttempt.
    destruct (contacts d !! contact) as [c|] eqn:Hc; cbn [mbind option_bind]; [|reflexivity].
    destruct (active c); [|reflexivity]. cbn [NewV7]. destruct (number_dialing _ _); [reflexivity|].
    apply grows_contacts; [done|]. intros k x Hx. simpl. destruct (decide (contact = k)) as [->|Hne].
    + exists (set_next None c). rewrite lookup_insert_eq. split; [done|]. by rewrite Hc in Hx; injection Hx as ->.
    + exists x. by rewrite lookup_insert_ne.
  - by apply grows_same.
  - unfold SetLead. destruct (negb _); [reflexivity|]. by apply grows_same.
  - unfold Finish, txFor. destruct (LockAttemptByCall _ d); [|reflexivity]. destruct (negb _); [reflexivity|].
    destruct (apply _ _ _ _ e d) as [[r d']|] eqn:H; [|reflexivity]. by eapply grows_apply.
  - unfold Void, txFor, DeleteDialingAttempt. destruct (attempts d !! _) as [a|]; [|reflexivity].
    cbn [mbind option_bind]. destruct (dialing a); [|reflexivity].
    eapply (grows_alter _ _ (aContactID a)); [|done|reflexivity]. intros c. cbv beta. by destruct (_ && _).
  - unfold InsertCDR, txFor, fromCDR. destruct (negb _); [reflexivity|].
    destruct (LockAttemptByCall _ _); [|by apply grows_same].
    destruct (apply _ _ _ _ _ _) as [[r d']|] eqn:H; [|reflexivity]. etransitivity; [|by eapply grows_apply].
    by apply grows_same.
  - unfold FinishFromLedger, txFor. destruct (LockAttemptByCall _ d); [|reflexivity].
    destruct (cdrs d !! _); [|reflexivity]. destruct (negb _); [reflexivity|].
    destruct (apply _ _ _ _ _ d) as [[r d']|] eqn:H; [|reflexivity]. by eapply grows_apply.
  - by apply grows_same.
  - by apply grows_same.
  - eapply grows_map; [|done|reflexivity]. intros c. cbv beta. by destruct (_ && _).
  - unfold Defer. apply (fold_left_inv (fun d' => grows d d')); [reflexivity|]. intros d' x Hg _.
    etransitivity; [exact Hg|]. eapply (grows_alter _ _ x.1); [|done|reflexivity]. intros c. cbv beta. by destruct (_ && _).
  - eapply grows_map; [|done|reflexivity]. intros c. cbv beta. by destruct (_ && _).
Qed.

End writers.

(** ** The implementation *)

(** The tables and the clock, how many calls out there were, and what reached
    the placer, newest first. *)
Record DW := mkDW { ledger : World; calls : nat; sent : list AIDialRequest }.

Definition tables (w : DW) : DB := db (ledger w).

Section implementation.

(** The zones and the outer hours; which calls out fail; what the placer
    answers; and what the other parts say. *)
Context (tzdb : string -> option Location) (outer : Range) (fault : nat -> bool)
  (place : nat -> AIDialRequest -> res PlaceError string)
  (usage : option BotSlots.Usage) (caps : option (gmap string Z)) (lines : string -> Z) (live : uuid -> bool).

Definition tick (w : DW) : DW := mkDW (ledger w) (S (calls w)) (sent w).

Definition unavailable : StoreError := ErrStore "the database is not available".

(** A query. *)
Definition reads {A} (f : DB -> A) (w : DW) : res StoreError A * DW :=
  (if fault (calls w) then Err unavailable else Ok (f (tables w)), tick w).

#[local] Instance in_reach_dec d : Decision (in_reach d).
Proof. unfold in_reach. apply _. Defined.

(** A transaction, by the database's clock, which stands still during a turn:
    the time the dialer hands in is the time it read. Identifiers end before
    the counters do. *)
Definition writes {A} (f : DB -> instant -> DB * res StoreError A) (w : DW) : res StoreError A * DW :=
  let '(d, r) := f (tables w) (clk (ledger w)) in
  if fault (calls w) then (Err unavailable, tick w)
  else if decide (in_reach d) then (r, mkDW (mkWorld d (clk (ledger w))) (S (calls w)) (sent w))
  else (Err unavailable, tick w).

Definition done {A} (r : DB * A) : DB * res StoreError A := (r.1, Ok r.2).

#[export] Instance world_deps : Deps DW := {
  stRunningCampaigns := reads RunningCampaigns;
  stMove id a w :=
    let '(d, r) := CampaignStore.move id a (clk (ledger w)) (tables w) in
    (r, mkDW (mkWorld d (clk (ledger w))) (S (calls w)) (sent w));
  stDue id now frequency n := reads (Due id now frequency n);
  stHeldByFrequency id now frequency n := reads (HeldByFrequency id now frequency n);
  stDefer ids ats := writes (fun d _ => done (Defer ids ats d, tt));
  stRearmUntried id _ := writes (fun d t => done (RearmUntried id t d, tt));
  stPending id now := reads (CampaignPending id now);
  stEarliestPending id := reads (EarliestPending id);
  stComplete id _ := writes (fun d _ => done (Complete id d));
  stPauseFor id r := writes (fun d _ => done (PauseFor id r d));
  stDNCContacts n := reads (DNCContacts n);
  stMarkDialingDNC := writes (fun d _ => done (MarkDialingDNC d, tt));
  stDialing := reads Dialing;
  stRecentOutcomesSince id since n := reads (RecentOutcomesSince id since n);
  stBegin id _ := writes (fun d t => Begin id t d);
  stSetJob call job := writes (fun d _ => done (SetJob call job d, tt));
  stFinish call e := writes (fun d t => Finish tzdb outer t call e d);
  stVoid call _ := writes (fun d t => Void call t d);
  stFinishFromLedger call := writes (fun d t =>
    let '(d, r) := FinishFromLedger tzdb outer t call d in
    (d, match r with Ok (found, _) => Ok found | Err e => Err e end));
  plPlaceAI rq w := (place (calls w) rq, mkDW (ledger w) (S (calls w)) (rq :: sent w));
  slUsage := (fun u _ => u) <$> usage;
  lnDIDLimits := (fun m => reads (fun _ => m)) <$> caps;
  lnLinesInUse did _ := lines did;
  isLive k _ := live k;
  clockNow w := clk (ledger w)
}.

(** ** The laws *)

Definition sound (w : DW) : Prop := good (tables w) (clk (ledger w)) /\ in_reach (tables w).

(** A step of the dialer is a step of the tables' machine, or leaves them. *)
Definition follows (w w' : DW) : Prop :=
  tables w' = tables w /\ clk (ledger w') = clk (ledger w) \/
  exists o, op_allowed o /\ ledger w' = exec_op tzdb outer (ledger w) o /\ in_reach (tables w').

Lemma reads_follows {A} (f : DB -> A) w : follows w (reads f w).2.
Proof. by left. Qed.

Lemma writes_follows {A} (f : DB -> instant -> DB * res StoreError A) o w : op_allowed o ->
  mkWorld (f (tables w) (clk (ledger w))).1 (clk (ledger w)) = exec_op tzdb outer (ledger w) o ->
  follows w (writes f w).2.
Proof.
  intros Ho E. unfold writes. destruct (f _ _) as [d r]. destruct (fault _); [by left|].
  destruct (decide _) as [Hr|]; [|by left]. right. exists o. by split.
Qed.

Lemma follows_sound w w' : follows w w' -> sound w -> sound w'.
Proof.
  intros [[E1 E2]|(o & Ho & E & Hr)] [Hg Hin]; unfold sound in *; [by rewrite E1, E2|].
  split; [|done]. unfold tables in *. rewrite E in Hr |- *. by apply good_exec.
Qed.

Lemma follows_grows w w' : follows w w' -> sound w -> grows (tables w) (tables w').
Proof.
  intros [[E1 E2]|(o & Ho & E & Hr)] [Hg Hin]; [by rewrite E1|]. unfold tables in *. rewrite E.
  apply grows_exec, Hg.
Qed.

Lemma follows_ids w w' : follows w w' -> (lastID (tables w) <= lastID (tables w'))%N.
Proof.
  intros [[E1 E2]|(o & Ho & E & Hr)]; [by rewrite E1|]. unfold tables in *. rewrite E. apply exec_ids.
Qed.

(** The contact exists, and its campaign has started. *)
Definition on_list (w : DW) (id : uuid) : Prop :=
  sound w /\ exists c, contacts (tables w) !! id = Some c /\ has_started (tables w) (ctCampaignID c).

Definition under_way (w : DW) (id : uuid) : Prop := sound w /\ has_started (tables w) id.

Lemma on_list_begins w id : on_list w id -> may_begin id (tables w) = true.
Proof.
  intros (_ & c & Hc & cam & Hcam & Hs). unfold may_begin. rewrite Hc. rewrite bool_decide_eq_false_2; [done|].
  unfold draft. rewrite Hcam. simpl. congruence.
Qed.

Lemma move_ids id a t d : lastID (CampaignStore.move id a t d).1 = lastID d.
Proof. unfold CampaignStore.move. destruct (_ =? 0); [done|]. cbn [fst]. by destruct (decide _). Qed.

Lemma move_follows id a w : in_reach (tables w) -> follows w (stMove id a w).2.
Proof.
  destruct w as [[d t] n l]. intros Hr. right. exists (OpMove id a). pose proof (move_ids id a t d) as E.
  simpl in *. unfold tables, in_reach in *. simpl in *. destruct (CampaignStore.move id a t d) as [d' r]. simpl in *.
  split; [done|]. split; [done|]. by rewrite E.
Qed.

(** Every call out is one of the machine's operations. *)
Lemma step_follows w w' : world_step on_list w w' -> in_reach (tables w) -> follows w w'.
Proof.
  intros H Hin. destruct H; try apply reads_follows; try (by apply move_follows); try (by left);
    match goal with
    | |- follows w (stDefer ?a ?b w).2 => apply (writes_follows _ (OpDefer a b))
    | |- follows w (stRearmUntried ?a _ w).2 => apply (writes_follows _ (OpRearm a))
    | |- follows w (stComplete ?a _ w).2 => apply (writes_follows _ (OpComplete a))
    | |- follows w (stPauseFor ?a ?r w).2 => apply (writes_follows _ (OpPauseFor a r))
    | |- follows w (stMarkDialingDNC w).2 => apply (writes_follows _ OpMarkDialingDNC)
    | |- follows w (stBegin ?a _ w).2 => apply (writes_follows _ (OpBegin a))
    | |- follows w (stSetJob ?a ?j w).2 => apply (writes_follows _ (OpSetJob a j))
    | |- follows w (stFinish ?a ?e w).2 => apply (writes_follows _ (OpFinish a e))
    | |- follows w (stVoid ?a _ w).2 => apply (writes_follows _ (OpVoid a))
    | |- follows w (stFinishFromLedger ?a w).2 => apply (writes_follows _ (OpFinishFromLedger a))
    | _ => idtac
    end; try done; unfold tables; destruct w as [[tb tm] nc snt]; simpl; try done.
  - apply on_list_begins in H. unfold tables in H. simpl in H. by rewrite H.
  - by destruct (FinishFromLedger _ _ _ _ _).
  - simpl in H. destruct caps; [|done]. injection H as <-. by left.
Qed.

Lemma rows_lookup {A} (m : gmap uuid A) x : x ∈ rows m <-> exists k : uuid, m !! k = Some x.
Proof.
  unfold rows. rewrite list_elem_of_fmap. split.
  - intros ([k y] & -> & H). exists k. by apply elem_of_map_to_list.
  - intros [k H]. exists (k, x). split; [done|]. by apply elem_of_map_to_list.
Qed.

Lemma RunningCampaigns_started d t c : good d t -> c ∈ RunningCampaigns d -> has_started d (cID c).
Proof.
  intros Hg Hc. unfold RunningCampaigns, order_by in Hc. rewrite !elem_of_sort_by in Hc.
  apply list_elem_of_filter in Hc as [Hs [k Hk]%rows_lookup]. destruct (k_campaign _ _ (g_keyed _ _ Hg) _ _ Hk) as [-> _].
  exists c. split; [done|]. by rewrite Hs.
Qed.

Lemma limited_elem {A} n (l : list A) x : x ∈ limited n l -> x ∈ l.
Proof. unfold limited. intros H. rewrite <- (take_drop (Z.to_nat n) l). apply elem_of_app. by left. Qed.

Lemma contact_listed d t k c : good d t -> contacts d !! k = Some c -> contacts d !! ctID c = Some c.
Proof. intros Hg Hk. by destruct (k_contact _ _ (g_keyed _ _ Hg) _ _ Hk) as (-> & _). Qed.

Lemma Due_listed d t id now f n c : good d t -> c ∈ Due id now f n d ->
  contacts d !! ctID c = Some c /\ ctCampaignID c = id.
Proof.
  intros Hg Hc%limited_elem. unfold order_by in Hc. rewrite !elem_of_sort_by in Hc.
  apply list_elem_of_filter in Hc as [Hd [k Hk]%rows_lookup]. split; [by eapply contact_listed|].
  unfold dialable in Hd. apply andb_prop in Hd as [Hd _]. repeat (apply andb_prop in Hd as [Hd _]). by apply N.eqb_eq.
Qed.

Lemma DNCContacts_listed d t n id : good d t -> id ∈ DNCContacts n d ->
  exists c, contacts d !! id = Some c /\ has_started d (ctCampaignID c).
Proof.
  intros Hg (c & -> & Hc)%limited_elem%list_elem_of_fmap.
  apply list_elem_of_filter in Hc as [Hd [k Hk]%rows_lookup]. exists c. split; [by eapply contact_listed|].
  repeat (apply andb_prop in Hd as [Hd _]). apply bool_decide_eq_true in Hd. unfold has_started.
  destruct (campaigns d !! ctCampaignID c) as [cam|]; [|done]. exists cam. split; [done|]. simpl in Hd. injection Hd as ->. done.
Qed.

Lemma Dialing_issued d t da : good d t -> da ∈ Dialing d -> (aCallID (daAttempt da) <= lastID d)%N.
Proof.
  intros Hg (a & Ha & E)%list_elem_of_omap. unfold order_by in Ha. rewrite !elem_of_sort_by in Ha.
  apply list_elem_of_filter in Ha as [_ [k Hk]%rows_lookup].
  destruct (campaigns d !! aCampaignID a); [|done]. injection E as <-. simpl.
  destruct (k_attempt _ _ (g_keyed _ _ Hg) _ _ Hk) as (-> & _ & H & _). done.
Qed.

Lemma Begin_issued id t d d' a : Begin id t d = (d', Ok a) -> (lastID d < aCallID a <= lastID d')%N.
Proof.
  unfold Begin, txFor, ClaimContactForDial, InsertCampaignAttempt.
  destruct (contacts d !! id) as [c|]; cbn [mbind option_bind]; [|done]. destruct (active c); [|done]. cbn [NewV7].
  destruct (number_dialing _ _); [done|]. intros E. injection E as <- <-. simpl. lia.
Qed.

Lemma reads_ok {A} (f : DB -> A) w l : (reads f w).1 = Ok l -> l = f (tables w).
Proof. unfold reads. destruct (fault _); simpl; [done|]. by intros [= ->]. Qed.

Lemma sound_step w w' : world_step on_list w w' -> sound w -> sound w'.
Proof. intros H Hs. eapply follows_sound; [|exact Hs]. eapply step_follows; [exact H | apply Hs]. Qed.

Lemma step_grows w w' : world_step on_list w w' -> sound w -> grows (tables w) (tables w').
Proof. intros H Hs. eapply follows_grows; [|exact Hs]. eapply step_follows; [exact H | apply Hs]. Qed.

#[export, refine] Instance world_laws : DepsLaws DW := {
  sane := sound;
  issued w k := sound w /\ (k <= lastID (tables w))%N;
  offered := on_list;
  runs := under_way
}.
Proof.
  - apply sound_step.
  - intros w w' k H [Hs Hk]. split; [by eapply sound_step|].
    pose proof (follows_ids _ _ (step_follows _ _ H (proj2 Hs))). lia.
  - intros w w' k H (Hs & c & Hc & Hst). split; [by eapply sound_step|].
    destruct (step_grows _ _ H Hs) as [G1 G2]. destruct (G2 _ _ Hc) as (c' & Hc' & E). exists c'.
    split; [done|]. rewrite E. by apply G1.
  - intros w w' k H [Hs Hst]. split; [by eapply sound_step|]. by apply (step_grows _ _ H Hs).
  - intros w l c ->%reads_ok Hc Hs. split; [done|]. by eapply RunningCampaigns_started; [apply Hs|].
  - intros id t f n w l ct ->%reads_ok Hc Hs [_ Hr]. split; [done|]. exists ct.
    destruct (Due_listed _ _ _ _ _ _ _ (proj1 Hs) Hc) as [Hl E]. split; [done|]. by rewrite E.
  - intros n w l id ->%reads_ok Hc Hs. split; [done|]. by eapply DNCContacts_listed; [apply Hs|].
  - intros id t w a Hs Hoff Ha.
    assert (Hs' : sound (stBegin id t w).2) by (apply (sound_step w); [by apply ws_begin|done]). simpl in *.
    revert Ha Hs'. unfold writes. destruct (Begin id (clk (ledger w)) (tables w)) as [d r] eqn:E.
    destruct (fault _); [done|]. destruct (decide _); [|done]. simpl. intros -> Hs'.
    pose proof (Begin_issued _ _ _ _ _ E). split; [intros [_ Hk]; lia|]. split; [done|]. unfold tables. simpl. lia.
  - intros w l da ->%reads_ok Hda Hs. split; [done|]. by eapply Dialing_issued; [apply Hs|].
Defined.

(** ** The whole system *)

(** The actor's turns, and what the other writers of the tables do meanwhile:
    anything but begin an attempt, which only the dialer does. *)
Inductive system (c : Config) : Dialer * DW -> Prop :=
| sys_new t : system c (New c, mkDW (mkWorld empty_db t) 0 [])
| sys_turn s fuel inbox reconciled : system c s -> system c (turn tzdb fuel inbox reconciled s).2
| sys_other d w o : system c (d, w) -> op_allowed o -> in_reach (db (exec_op tzdb outer (ledger w) o)) ->
    system c (d, mkDW (exec_op tzdb outer (ledger w) o) (calls w) (sent w)).

Lemma system_reach c s : system c s -> reach tzdb c s.
Proof.
  induction 1 as [t|s fuel inbox b H IH|d w o H IH Ho Hr].
  - apply reach_new. split; [apply good_empty | done].
  - by apply reach_turn.
  - eapply reach_world; [exact IH|]. assert (Hf : follows w (mkDW (exec_op tzdb outer (ledger w) o) (calls w) (sent w))).
    { right. by exists o. }
    assert (Hs : sound w) by apply (reach_good tzdb c _ IH).
    pose proof (follows_sound _ _ Hf Hs) as Hs'. pose proof (follows_grows _ _ Hf Hs) as [G1 G2].
    pose proof (follows_ids _ _ Hf) as Hids. constructor; simpl; [done| | |].
    + intros k [_ Hk]. split; [done|lia].
    + intros k (_ & x & Hc & Hst). split; [done|]. destruct (G2 _ _ Hc) as (c' & Hc' & E). exists c'.
      split; [done|]. rewrite E. by apply G1.
    + intros k [_ Hst]. split; [done|]. by apply G1.
Qed.

(** C1: However the dialer's turns and the other writers' transactions
    interleave, whatever the placer answers and whichever calls to the database
    fail, the dialer's account is that of its flights and the tables keep
    their invariant: one call in flight to a number, every attempt in flight
    its contact's latest and its contact not waiting, every ACTIVE contact of a
    started campaign waiting or in flight, and the counters the finished
    attempts, each counted once. The dialer only ever begins contacts of
    campaigns that have started. *)
Theorem dialer_keeps_tables c s (Hs : system c s) :
  account_ok (acc s.1) /\ good (tables s.2) (clk (ledger s.2)).
Proof. pose proof (reach_good tzdb c s (system_reach c s Hs)) as [Hok _ Hsane]. split; [done | apply Hsane]. Qed.

End implementation.

(** ** A pass ends *)

Section accepting.

(** Every call to the database succeeds, and the placer takes every call. *)
Context (tzdb : string -> option Location) (outer : Range) (job : nat -> AIDialRequest -> string)
  (usage : option BotSlots.Usage) (caps : option (gmap string Z)) (lines : string -> Z) (live : uuid -> bool).

#[local] Instance accepting_deps : Deps DW :=
  world_deps tzdb outer (fun _ => false) (fun n rq => Ok (job n rq)) usage caps lines live.

#[local] Instance accepting_laws : DepsLaws DW :=
  world_laws tzdb outer (fun _ => false) (fun n rq => Ok (job n rq)) usage caps lines live.

(** The contact can be begun: it is ACTIVE and its number is in no call. *)
Definition free_contact (id : uuid) (d : DB) : Prop :=
  exists c, contacts d !! id = Some c /\ active c = true /\ number_dialing (ctNumber c) d = false.

(** Deferring changes when contacts are due, nothing else of them. *)
Lemma Defer_keeps ids ats d : attempts (Defer ids ats d) = attempts d /\
  forall id, free_contact id d -> free_contact id (Defer ids ats d).
Proof.
  unfold Defer. apply (fold_left_inv (fun d' => attempts d' = attempts d /\ forall id, free_contact id d -> free_contact id d')).
  { done. }
  intros d' x [Ea Hd] _. split; [done|]. intros id Hc. destruct (Hd id Hc) as (c & Hc' & Ha & Hn).
  unfold free_contact, defer_one, with_contacts, update_row. cbn [contacts]. match goal with |- context [alter ?g x.1 _] => set (f := g) end. destruct (decide (x.1 = id)) as [<-|Hne].
  - exists (f c). rewrite lookup_alter_eq, Hc'. split; [done|]. unfold f. by destruct (_ && _).
  - exists c. by rewrite lookup_alter_ne.
Qed.

(** What the looking part of the dialer does to the world. *)
Lemma looking_step (off : DW -> uuid -> Prop) w w' : @world_step DW looking off w w' ->
  (tables w' = tables w /\ clk (ledger w') = clk (ledger w)) \/ exists ids ats, w' = (stDefer ids ats w).2.
Proof.
  intros H. destruct H; try (by left); [right; by do 2 eexists|].
  left. simpl in H. destruct caps; [|done]. injection H as <-. done.
Qed.

Lemma looking_sound off w w' : @world_step DW looking off w w' -> sound w -> sound w'.
Proof.
  intros [[E1 E2]|(ids & ats & ->)]%looking_step Hs; [unfold sound in *; by rewrite E1, E2|].
  by eapply sound_step; [apply ws_defer|].
Qed.

Lemma looking_free off w w' id : @world_step DW looking off w w' -> free_contact id (tables w) -> free_contact id (tables w').
Proof.
  intros [[E1 _]|(ids & ats & ->)]%looking_step Hf; [by rewrite E1|]. simpl. unfold writes. simpl.
  destruct (decide _); [|done]. by apply Defer_keeps.
Qed.

Lemma Due_free d t id now f n c : good d t -> c ∈ Due id now f n d -> free_contact (ctID c) d.
Proof.
  intros Hg Hc. exists c. split; [by eapply Due_listed|]. apply limited_elem in Hc. unfold order_by in Hc.
  rewrite !elem_of_sort_by in Hc. apply list_elem_of_filter in Hc as [[Hd _]%andb_prop _].
  unfold dialable in Hd. apply andb_prop in Hd as [Hd Hn]. repeat (apply andb_prop in Hd as [Hd ?]).
  split; [done|]. by apply negb_true_iff.
Qed.

#[local, refine] Instance looking_laws : @DepsLaws DW looking := {
  sane := sound;
  issued _ _ := True;
  offered w id := free_contact id (tables w);
  runs _ _ := True
}.
Proof.
  - apply looking_sound.
  - done.
  - intros w w' k. apply looking_free.
  - done.
  - done.
  - intros id t f n w l ct E Hc Hs _. apply reads_ok in E as ->. by eapply Due_free; [apply Hs|].
  - intros n w l id [= <-] Hl. by apply elem_of_nil in Hl.
  - done.
  - done.
Defined.

Lemma Begin_free id t d : free_contact id d -> exists d' a, Begin id t d = (d', Ok a) /\ lastID d' = (lastID d + 3)%N.
Proof.
  intros (c & Hc & Ha & Hn). unfold Begin, txFor, ClaimContactForDial, InsertCampaignAttempt.
  rewrite Hc. cbn [mbind option_bind]. rewrite Ha. cbn [NewV7].
  match goal with |- context [number_dialing ?a ?b] => change (number_dialing a b) with (number_dialing (ctNumber c) d) end.
  rewrite Hn. do 2 eexists. split; [reflexivity|]. simpl. lia.
Qed.

(** The identifiers of one more attempt are there. *)
Definition ids_left (d : DB) : Prop := Z.of_N (lastID d) + 3 < 2 ^ 31.

#[local, refine] Instance accepting_accepts : Accepts looking_laws := { able w := ids_left (tables w) }.
Proof.
  - intros w w' Hs [_ Hi _ _] Hw'. destruct (Hi (lastID (tables w))) as [_ Hle]; [by split|]. unfold ids_left in *. lia.
  - done.
  - done.
  - intros id t f n w l ->%reads_ok. unfold Due, limited. rewrite length_take. lia.
  - intros id t w Hf Hids. destruct (Begin_free id (clk (ledger w)) (tables w) Hf) as (d' & a & E & El).
    exists a. simpl. unfold writes. rewrite E. simpl. rewrite decide_True; [done|]. unfold in_reach, ids_left in *. rewrite El. lia.
  - intros rq w. by eexists.
Defined.

(** C38: A pass ends. While the calls to the database succeed and the placer
    takes every call (one that refuses need not let it end, [pass_never_ends]),
    from every state the dialer and the other writers of the tables can reach
    the admission loop of a pass takes at most a round for each running
    campaign and, for each call that may still ring, one batch of contacts and
    one more, so the actor is back at its mailbox after finitely many calls
    out, as long as the identifiers of the tables last. *)
Theorem pass_ends c s fuel
    (Hs : system tzdb outer (fun _ => false) (fun n rq => Ok (job n rq)) usage caps lines live c s)
    (Hids : ids_left (tables (pass tzdb fuel s).2.2))
    (Hfuel : Z.of_nat (length (running_at s)) +
       (Z.max 0 (MaxBatch (cfg s.1)) + 1) * Z.max 0 (MaxRinging (cfg s.1) - ringing (acc s.1)) < Z.of_nat fuel) :
  (pass tzdb fuel s).1 = Some tt.
Proof.
  apply (pass_done tzdb looking_laws c); [by apply system_reach in Hs | done |]. unfold batch, free. lia.
Qed.

End accepting.

(** ** A run *)

Definition demo_cfg : Config :=
  mkConfig 10 0 demo_outer 0 0 PhoneNum.FormE164 "46" 0 Float64.f0 Float64.f0 false 0 0 0 0.

#[local] Instance demo_deps : Deps DW :=
  world_deps no_zones demo_outer (fun _ => false) (fun _ _ => Ok "job") None None (fun _ => 0) (fun _ => true).

Definition other (o : Op) (s : Dialer * DW) : Dialer * DW :=
  (s.1, mkDW (exec_op no_zones demo_outer (ledger s.2) o) (calls s.2) (sent s.2)).

Definition demo_prepared : Dialer * DW :=
  other (OpImport 1 [mkNewContact "+46700000001" "0700000001" "" ∅; mkNewContact "+46700000002" "0700000002" "" ∅])
    (other (OpCreate demo_campaign) (other (OpTick (1000 * second)) (New demo_cfg, mkDW (mkWorld empty_db 0) 0 []))).

(** Two contacts, the campaign started, one turn of the dialer. *)
Definition demo_dialled : Dialer * DW := (turn no_zones 50 [CmdMove 1 ActStart] true demo_prepared).2.

Lemma dialer_keeps_tables_witness :
  ringing (acc demo_dialled.1) = 2 /\ length (sent demo_dialled.2) = 2%nat /\
  account_ok (acc demo_dialled.1) /\ good (tables demo_dialled.2) (clk (ledger demo_dialled.2)).
Proof.
  split; [by vm_compute|]. split; [by vm_compute|].
  apply (dialer_keeps_tables no_zones demo_outer (fun _ => false) (fun _ _ => Ok "job") None None (fun _ => 0)
    (fun _ => true) demo_cfg).
  apply sys_turn. apply sys_other; [|done|by vm_compute]. apply sys_other; [|done|by vm_compute].
  apply sys_other; [|by vm_compute|by vm_compute]. apply sys_new.
Defined.

(** The campaign started and two contacts due: the pass begins both and ends. *)
Lemma pass_ends_witness :
  let s := other (OpMove 1 ActStart) demo_prepared in
  (pass no_zones 3000 s).1 = Some tt /\ ringing (acc (pass no_zones 3000 s).2.1) = 2 /\
  (pass no_zones 2 s).1 = None.
Proof.
  intros s. split; [|by vm_compute].
  apply (pass_ends no_zones demo_outer (fun _ _ => "job"%string) None None (fun _ => 0) (fun _ => true) demo_cfg).
  - apply sys_other; [|done|by vm_compute]. apply sys_other; [|done|by vm_compute].
    apply sys_other; [|by vm_compute|by vm_compute]. apply sys_other; [|done|by vm_compute]. apply sys_new.
  - by vm_compute.
  - by vm_compute.
Defined.

(** ** A pass that does not end *)

(** The placer refuses every call for the DID's line limit. *)
#[local] Instance full_deps : Deps DW :=
  world_deps no_zones demo_outer (fun _ => false) (fun _ _ => Err (PlaceFailed DialLineLimit "at the limit"))
    None None (fun _ => 0) (fun _ => true).

(** One contact, and the campaign started. *)
Definition full_started : Dialer * DW :=
  let s := other (OpMove 1 ActStart) (other (OpImport 1 [mkNewContact "+46700000001" "0700000001" "" ∅])
    (other (OpCreate demo_campaign) (other (OpTick (1000 * second)) (New demo_cfg, mkDW (mkWorld empty_db 0) 0 [])))) in s.

Definition full_campaign : Campaign := default demo_campaign (campaigns (tables full_started.2) !! 1%N).
Definition full_contact : Contact :=
  mkContact 2 1 "+46700000001" "0700000001" "" ∅ ContactActive 0 0 (Some (1000 * second)) None LeadAbsent "" None None.

(** The tables a round of the admission loop finds, whatever identifiers were made before. *)
Definition full_db (n : N) : DB :=
  mkDB {[1%N := full_campaign]} {[2%N := full_contact]} ∅ ∅ ∅ ∅ n.

Definition full_state (d : Dialer) (n : N) (k : nat) (l : list AIDialRequest) : Dialer * DW :=
  (d, mkDW (mkWorld (full_db n) (1000 * second)) k l).

Definition full_now : instant := 1000 * second.

(** The actor as the pass's admission loop finds it. *)
Definition full_dialer : Dialer := (pass no_zones 0 full_started).2.1.

Definition full_row (n : N) : Attempt :=
  mkAttempt (n + 1) 1 2 "+46700000001" (n + 1 + 1) (n + 1 + 1 + 1) "" AttemptDialing None "" 0 false LeadAbsent ""
    full_now None.

(** The tables with the contact's attempt written ahead. *)
Definition begun_db (n : N) : DB :=
  mkDB {[1%N := full_campaign]} (<[2%N := set_next None full_contact]> {[2%N := full_contact]})
    (<[(n + 1 + 1)%N := full_row n]> ∅) ∅ ∅ ∅ (n + 1 + 1 + 1).

Lemma full_begin n : Begin 2 full_now (full_db n) = (begun_db n, Ok (full_row n)).
Proof. reflexivity. Qed.

Lemma full_void n : Void (n + 1 + 1) full_now (begun_db n) = (full_db (n + 1 + 1 + 1), Ok tt).
Proof.
  unfold Void, txFor, DeleteDialingAttempt. cbn [begun_db attempts]. rewrite lookup_insert_eq.
  cbn [mbind option_bind dialing aState full_row]. unfold dialing. cbn [aState full_row bool_decide].
  rewrite bool_decide_eq_true_2 by done. unfold with_attempts, MakeContactDue, with_contacts.
  cbn [attempts contacts campaigns dnc callbacks cdrs lastID begun_db aContactID full_row].
  rewrite delete_insert_id by done. done.
Qed.

Lemma full_refill n k l :
  refill no_zones full_campaign empty_bucket full_now (full_state full_dialer n k l) =
    (Ok ([full_contact], false), full_state full_dialer n (S (S k)) l).
Proof. vm_compute. reflexivity. Qed.

Lemma full_limit n k l :
  limit full_campaign (full_state full_dialer n k l) = (None, full_state full_dialer n k l).
Proof. vm_compute. reflexivity. Qed.

Definition no_flights : Account := mkAccount ∅ ∅ 0 0 ∅.

Lemma full_dialer_acc : acc full_dialer = no_flights.
Proof. vm_compute. reflexivity. Qed.

(** A flight taken off and dropped leaves an empty account empty. *)
Lemma drop_taken f : flCampaignID f = 1%N -> flIsAnswered f = false ->
  drop_flight (flCallID f) (take_off f no_flights) = (no_flights, Some f).
Proof.
  intros Hc Ha. unfold drop_flight, take_off, ringBy. cbn [flights inflight ringing talking ringingBy no_flights].
  rewrite lookup_insert_eq, Ha, Hc. unfold no_flights. do 2 f_equal. by rewrite delete_insert_id.
Qed.

Lemma set_acc_back d a : acc d = a -> forall b, set_acc a (set_acc b d) = d.
Proof. intros <- b. by destruct d. Qed.

Lemma in_reach_id d d' : lastID d = lastID d' -> in_reach d -> in_reach d'.
Proof. unfold in_reach. by intros ->. Qed.

(** A round of the loop: the contact is begun, refused, voided, and due again. *)
Lemma full_admit n k l : exists b n' k' l',
  admitCall full_campaign full_contact full_now (full_state full_dialer n k l) = (b, full_state full_dialer n' k' l').
Proof.
  unfold admitCall. rewrite bind_run, call_run. cbn [full_state fst snd stBegin full_deps world_deps]. unfold writes at 1 2.
  cbn [tables ledger db clk]. change (ctID full_contact) with 2%N. rewrite full_begin. cbn [tables ledger db clk calls].
  destruct (decide (in_reach (begun_db n))) as [Hr|Hr]; [|by repeat eexists].
  cbn [fst snd]. rewrite get_run. cbn [fst snd]. cbv zeta. set (f := mkFlight _ _ _ _ _ _ _ _). rewrite modify_run.
  cbn [fst snd]. rewrite bind_run, call_run. cbn [fst snd plPlaceAI full_deps world_deps ledger calls sent].
  rewrite bind_run. unfold dialFailed, ClassifyDialError. cbn [IsPending IsVoid]. unfold voidAttempt.
  rewrite bind_run, call_run. cbn [fst snd stVoid full_deps world_deps]. unfold writes. cbn [tables ledger db clk calls sent].
  change (flCallID f) with (n + 1 + 1)%N. rewrite full_void. rewrite decide_True by (by eapply in_reach_id; [|exact Hr]).
  cbn [fst snd]. rewrite bind_run. unfold drop. cbn [fst snd set_acc acc]. rewrite full_dialer_acc.
  change (n + 1 + 1)%N with (flCallID f). rewrite drop_taken by done. cbn [fst snd].
  rewrite (set_acc_back _ _ full_dialer_acc). by do 4 eexists.
Qed.

Definition full_buckets : buckets := {[1%N := empty_bucket]}.

Lemma full_round n k l : exists n' k' l',
  admitOne no_zones full_campaign empty_bucket full_now (full_state full_dialer n k l) =
    (empty_bucket, full_state full_dialer n' k' l').
Proof.
  unfold admitOne. cbn [bReady empty_bucket]. rewrite bind_run, full_refill. cbn [fst snd].
  rewrite bind_run, full_limit. cbn [fst snd].
  destruct (full_admit n (S (S k)) l) as (b & n' & k' & l' & E). rewrite bind_run, E. by do 3 eexists.
Qed.

Lemma full_admission fuel n k l :
  (admission no_zones fuel [full_campaign] full_buckets full_now (full_state full_dialer n k l)).1 = None.
Proof.
  revert n k l. induction fuel as [|fuel IH]; intros n k l; [done|]. cbn [admission]. rewrite get_run.
  assert (Hp : pick full_dialer full_buckets [full_campaign] = Some full_campaign) by (vm_compute; reflexivity).
  cbn [full_state fst]. rewrite Hp.
  assert (Hb : default empty_bucket (full_buckets !! cID full_campaign) = empty_bucket) by (vm_compute; reflexivity).
  rewrite Hb, bind_run. destruct (full_round n k l) as (n' & k' & l' & E). rewrite E. cbn [fst snd].
  assert (Hi : <[cID full_campaign := empty_bucket]> full_buckets = full_buckets) by (vm_compute; reflexivity).
  rewrite Hi. apply IH.
Qed.

Lemma admission_at fuel l bs t s l' bs' t' s' : l = l' -> bs = bs' -> t = t' -> s = s' ->
  (admission no_zones fuel l' bs' t' s').1 = None -> (admission no_zones fuel l bs t s).1 = None.
Proof. by intros -> -> -> ->. Qed.

(** An admission pass need not end: while the placer refuses every call of a
    campaign for the DID's line limit and the dialer's own line rule lets it
    through, each refused contact is voided, due again at the time the pass
    reads, and fetched and begun again by the same pass. No number of rounds is
    enough. *)
Theorem pass_never_ends fuel : (pass no_zones fuel full_started).1 = None.
Proof.
  apply (pass_none no_zones fuel full_started [full_campaign] [full_campaign]);
    [vm_compute; reflexivity | vm_compute; reflexivity | done|].
  eapply (admission_at fuel _ _ _ _ [full_campaign] full_buckets full_now
            (full_state full_dialer 2 (calls (pass no_zones 0 full_started).2.2) []));
    [vm_compute; reflexivity..|].
  apply full_admission.
Qed.

End DialerWorld.
