(* ===== verification/FlowCampaign.v ===== *)
(** * What a campaign asks of a flow: [internal/flow/campaign.go]

    Whether a flow can hand the caller to a person, and the business data it
    reads: the vocabulary of the columns a contact list may carry. *)

From S2P Require Import Prelude GoText Float64 FlowPredicate FlowSpec FlowSlots FlowEngine.
Import GoText Float64 FlowPredicate FlowSpec FlowSlots FlowEngine.

Module FlowCampaign.

(** [internal/flow/builtin.go:const(ToolTransferToAgent)] *)
Definition ToolTransferToAgent : string := "transfer_to_agent".

(** [internal/flow/campaign.go:CanTransfer] *)
Definition CanTransfer (spec : option Spec) : bool :=
  match spec with
  | None => false
  | Some s =>
      contains (AlwaysAllowedTools (Glob s)) ToolTransferToAgent ||
      existsb (fun kv => contains (NTools kv.2) "*"%string || contains (NTools kv.2) ToolTransferToAgent)
        (map_to_list (Nodes s))
  end.

(** [internal/flow/campaign.go:const(userDataPrefix)] *)
Definition userDataPrefix : string := "userData.".

(** [internal/flow/campaign.go:L55-L59] [addSlot]: the names a slot adds. *)
Definition addSlot (slot : string) : list string :=
  match cut_prefix userDataPrefix slot with
  | Some name => if String.eqb name "" then [] else [name]
  | None => []
  end.

(** [internal/flow/campaign.go:L60-L66] [addText] *)
Definition addText (text : Text) : list string :=
  flat_map (fun s => flat_map addSlot (slotRefs s)) [EN text; ZH text].

(** [internal/flow/campaign.go:L67-L79] [addCondition]: unlike the loader's
    walk, a group's own slot is added too. *)
Fixpoint addCondition (c : Condition) : list string :=
  match c with
  | mkCondition slot _ _ all any => addSlot slot ++ flat_map addCondition all ++ flat_map addCondition any
  end.

(** [internal/flow/campaign.go:L80-L84] [addRules] *)
Definition addRules (rules : list Transition) : list string :=
  flat_map (fun rule => match TCondition rule with Some c => addCondition c | None => [] end) rules.

(** The slots the references of a template add. *)
Definition addTemplate (x : string) : list string :=
  flat_map (fun m => if String.eqb m.1 "slots" then addSlot m.2 else []) (find_all templateReference 0 x).

(** [internal/flow/campaign.go:L85-L103] [walkBody] *)
Fixpoint walkBody (v : Value) : list string :=
  match v with
  | VStr x => addTemplate x
  | VMap m => flat_map (fun kv => walkBody kv.2) m
  | VList l => flat_map walkBody l
  | _ => []
  end.

(** [internal/flow/campaign.go:L107-L112] what a phase adds. *)
Definition addNode (n : Node) : list string :=
  addText (Instruction n) ++ addText (Announce n) ++
  match Lead n with Some l => addText (Notes l) | None => [] end ++ addRules (Transitions n).

(** [internal/flow/campaign.go:L115-L121] what a tool adds. *)
Definition addTool (t : Tool) : list string :=
  match HTTP t with
  | None => []
  | Some h => walkBody (VMap (default [] (Body h))) ++ walkBody (VStr (Path h)) ++
              flat_map (fun kv => walkBody (VStr kv.2)) (map_to_list (Query h))
  end.

(** [internal/flow/campaign.go:UserDataNames] The keys of [found], sorted. *)
Definition UserDataNames (spec : option Spec) : list string :=
  match spec with
  | None => []
  | Some s =>
      sort_strings (elements (list_to_set (
        addRules (GTransitions (Glob s)) ++
        flat_map (fun kv => addNode kv.2) (map_to_list (Nodes s)) ++
        flat_map (fun kv => addTool kv.2) (map_to_list (Tools s))) : gset string))
  end.

(** ** Lemmas *)

Lemma elem_of_flat_map {A B} (f : A -> list B) (l : list A) y : y ∈ flat_map f l <-> exists x, x ∈ l /\ y ∈ f x.
Proof. rewrite list_elem_of_In, in_flat_map. by setoid_rewrite list_elem_of_In. Qed.

Lemma elem_of_values {A} (f : A -> list string) (m : gmap string A) y :
  y ∈ flat_map (fun kv => f kv.2) (map_to_list m) <-> exists k a, m !! k = Some a /\ y ∈ f a.
Proof.
  rewrite elem_of_flat_map. split.
  - intros ([k a] & Hx & Hy). apply elem_of_map_to_list in Hx. by exists k, a.
  - intros (k & a & Hx & Hy). exists (k, a). by rewrite elem_of_map_to_list.
Qed.

Lemma elem_of_UserDataNames s name : name ∈ UserDataNames (Some s) <->
  name ∈ addRules (GTransitions (Glob s)) \/
  (exists nid n, Nodes s !! nid = Some n /\ name ∈ addNode n) \/
  (exists tid t, Tools s !! tid = Some t /\ name ∈ addTool t).
Proof.
  unfold UserDataNames.
  by rewrite elem_of_sort_strings, elem_of_elements, elem_of_list_to_set, !elem_of_app, (elem_of_values addNode), (elem_of_values addTool).
Qed.

Lemma addSlot_some slot name : name ∈ addSlot slot -> slot = (userDataPrefix +:+ name)%string /\ name <> ""%string.
Proof.
  unfold addSlot, cut_prefix. destruct (has_prefix _ _) eqn:E; [|by intros ?%elem_of_nil].
  apply has_prefix_spec in E. destruct (String.eqb_spec (drop (String.length userDataPrefix) slot) ""); [by intros ?%elem_of_nil|].
  intros ->%list_elem_of_singleton. done.
Qed.

(** What a template comes to depends on what its references come to. *)
Lemma replace_all_ext {A} (found : string -> option (nat * A)) (f g : A -> string) k s :
  (forall x, x ∈ find_all found k s -> f x = g x) -> replace_all found f k s = replace_all found g k s.
Proof.
  revert k. induction s as [|c s IH]; intros k H; [done|]. simpl in *.
  destruct k as [|k]; [|by apply IH]. destruct (found (String c s)) as [[w x]|].
  - f_equal; [apply H; left|]. apply IH. intros y Hy. apply H. by right.
  - f_equal. by apply IH.
Qed.

Lemma find_all_first {A} (found : string -> option (nat * A)) s w x :
  (forall y, found ""%string <> Some y) -> found s = Some (w, x) -> x ∈ find_all found 0 s.
Proof. intros He H. destruct s as [|c s]; [by apply He in H|]. simpl. rewrite H. left. Qed.

Section value_induction.
Variable P : Value -> Prop.
Hypothesis on_leaf : forall v, (match v with VList _ | VMap _ => False | _ => True end) -> P v.
Hypothesis on_list : forall l, Forall P l -> P (VList l).
Hypothesis on_map : forall m, Forall (fun kv => P kv.2) m -> P (VMap m).

Fixpoint value_ind' (v : Value) : P v :=
  match v with
  | VList l => on_list l ((fix many l := match l return Forall P l with
                                         | [] => List.Forall_nil _
                                         | x :: l => List.Forall_cons _ _ _ (value_ind' x) (many l) end) l)
  | VMap m => on_map m ((fix many m := match m return Forall (fun kv => P kv.2) m with
                                       | [] => List.Forall_nil _
                                       | kv :: m => List.Forall_cons _ _ _ (value_ind' kv.2) (many m) end) m)
  | v => on_leaf v I
  end.
End value_induction.

(** ** Completeness of the vocabulary *)

Section reads.
Variable ParseFloat : string -> option f64.
Variable FormatFloat : f64 -> string.
Variable Sprint : Value -> string.

Notation evaluate := (evaluate ParseFloat FormatFloat Sprint).
Notation evaluate_cond := (evaluate_cond ParseFloat FormatFloat Sprint).
Notation render := (render FormatFloat Sprint).
Notation renderValue := (renderValue FormatFloat Sprint).
Notation renderString := (renderString FormatFloat Sprint).

(** Two stores of slots that tell the named business data, and everything that
    is not business data, alike. *)
Definition alike (names : list string) (a b : gmap string Value) : Prop :=
  forall slot, (forall name, slot = (userDataPrefix +:+ name)%string -> name <> ""%string -> name ∈ names) -> a !! slot = b !! slot.

Lemma alike_slot names a b slot : alike names a b -> addSlot slot ⊆ names -> a !! slot = b !! slot.
Proof.
  intros H Hs. apply H. intros name -> Hn. apply Hs. unfold addSlot, cut_prefix.
  rewrite has_prefix_app, drop_app. rewrite (proj2 (String.eqb_neq _ _) Hn). left.
Qed.

Lemma alike_text names a b e e' t lang : alike names a b -> slots e = a -> slots e' = b -> addText t ⊆ names ->
  render e (For t lang) = render e' (For t lang).
Proof.
  intros H <- <- Ht. unfold FlowEngine.render. destruct (negb _); [done|]. apply replace_all_ext. intros slot Hs.
  unfold slot_of. rewrite (alike_slot _ _ _ slot H); [done|]. intros name Hn. apply Ht. unfold addText.
  apply elem_of_flat_map. exists (For t lang). split.
  - unfold For. repeat case_match; set_solver.
  - apply elem_of_flat_map. by exists slot.
Qed.

Lemma alike_cond names a b c : alike names a b -> addCondition c ⊆ names -> evaluate_cond a c = evaluate_cond b c.
Proof.
  intros H. induction c as [slot op v all any Hall Hany] using condition_ind'. intros Hc. cbn [addCondition] in Hc.
  assert (Hslot : a !! slot = b !! slot) by (eapply alike_slot; [done|set_solver]).
  assert (Ha : Forall (fun c => evaluate_cond a c = evaluate_cond b c) all).
  { apply Forall_forall. intros c Hin. eapply Forall_forall in Hall; [|done]. apply Hall. intros n Hn. apply Hc.
    rewrite !elem_of_app, !elem_of_flat_map. eauto. }
  assert (Hb : Forall (fun c => evaluate_cond a c = evaluate_cond b c) any).
  { apply Forall_forall. intros c Hin. eapply Forall_forall in Hany; [|done]. apply Hany. intros n Hn. apply Hc.
    rewrite !elem_of_app, !elem_of_flat_map. eauto. }
  clear Hall Hany Hc. destruct all as [|c all]; [destruct any as [|c any]|].
  - simpl. unfold evaluateLeaf. simpl. by rewrite Hslot.
  - clear Ha. simpl. apply Forall_cons in Hb as [-> Hb]. destruct (evaluate_cond b c) as [[]| |]; try done.
    induction Hb as [|x l E Hl IH]; [done|]. rewrite E. by destruct (evaluate_cond b x) as [[]| |].
  - clear Hb. simpl. apply Forall_cons in Ha as [-> Ha]. destruct (evaluate_cond b c) as [[]| |]; try done.
    induction Ha as [|x l E Hl IH]; [done|]. rewrite E. by destruct (evaluate_cond b x) as [[]| |].
Qed.

Lemma alike_reference names a b args m : alike names a b -> (if String.eqb m.1 "slots" then addSlot m.2 else []) ⊆ names ->
  (m.1 = "args" \/ m.1 = "slots")%string -> resolveReference args a m = resolveReference args b m.
Proof.
  intros H Hm Hk. unfold resolveReference. destruct (String.eqb_spec m.1 "args") as [|Hne]; [done|].
  destruct Hk as [|Hk]; [done|]. rewrite Hk in Hm. by rewrite (alike_slot _ _ _ m.2 H).
Qed.

Lemma find_all_found {A} (found : string -> option (nat * A)) k s x :
  x ∈ find_all found k s -> exists w s', found s' = Some (w, x).
Proof.
  revert k. induction s as [|c s IH]; intros k H; [by apply elem_of_nil in H|]. simpl in H.
  destruct k as [|k]; [|by eapply IH]. destruct (found (String c s)) as [[w y]|] eqn:E.
  - apply elem_of_cons in H as [->|H]; [by eauto|by eapply IH].
  - by eapply IH.
Qed.

Lemma templateReference_source s w m : templateReference s = Some (w, m) -> (m.1 = "args" \/ m.1 = "slots")%string.
Proof.
  unfold templateReference. destruct (reference "{args." s) as [[? ?]|]; [intros [= <- <-]; by left|].
  destruct (reference "{slots." s) as [[? ?]|]; [intros [= <- <-]; by right|done].
Qed.

Lemma alike_template names a b args x : alike names a b -> addTemplate x ⊆ names ->
  forall m, m ∈ find_all templateReference 0 x -> resolveReference args a m = resolveReference args b m.
Proof.
  intros H Hx m Hm. apply (alike_reference names); [done| |].
  - intros n Hn. apply Hx. apply elem_of_flat_map. by exists m.
  - apply find_all_found in Hm as (w & s' & E). by apply templateReference_source in E.
Qed.

Lemma alike_string names a b args x : alike names a b -> addTemplate x ⊆ names -> renderString x args a = renderString x args b.
Proof.
  intros H Hx. pose proof (alike_template _ _ _ args _ H Hx) as Hm. unfold FlowEngine.renderString.
  assert (Hr : forall f, f = replace_all templateReference (fun m => asString FormatFloat Sprint (resolveReference args a m)) 0 x ->
    f = replace_all templateReference (fun m => asString FormatFloat Sprint (resolveReference args b m)) 0 x).
  { intros f ->. apply replace_all_ext. intros m Hin. by rewrite (Hm m Hin). }
  destruct (templateReference x) as [[w m]|] eqn:E; [|f_equal; by apply Hr].
  destruct (_ =? _)%nat; [|f_equal; by apply Hr]. apply Hm. eapply find_all_first; [|done]. done.
Qed.

Lemma alike_value names a b args v : alike names a b -> walkBody v ⊆ names -> renderValue v args a = renderValue v args b.
Proof.
  intros H. induction v as [v Hv|l Hl|m Hm] using value_ind'; intros Hw.
  - destruct v; try done. by eapply alike_string.
  - simpl. f_equal. apply map_ext_in. intros x Hx. apply list_elem_of_In in Hx. eapply Forall_forall in Hl; [|done].
    apply Hl. intros n Hn. apply Hw. simpl. apply elem_of_flat_map. eauto.
  - simpl. f_equal. apply map_ext_in. intros kv Hx. apply list_elem_of_In in Hx. eapply Forall_forall in Hm; [|done].
    f_equal. apply Hm. intros n Hn. apply Hw. simpl. apply elem_of_flat_map. eauto.
Qed.

(** At two states whose slots agree outside the missing names, every text,
    condition and request of the walk comes to the same. *)
Lemma vocabulary_reads (s : Spec) (e e' : Engine) (H : alike (UserDataNames (Some s)) (slots e) (slots e')) :
  (forall nid n lang, Nodes s !! nid = Some n ->
     render e (For (Instruction n) lang) = render e' (For (Instruction n) lang) /\
     render e (For (Announce n) lang) = render e' (For (Announce n) lang) /\
     forall l, Lead n = Some l -> render e (For (Notes l) lang) = render e' (For (Notes l) lang)) /\
  (forall rule, (rule ∈ GTransitions (Glob s) \/ exists nid n, Nodes s !! nid = Some n /\ rule ∈ Transitions n) ->
     evaluate (TCondition rule) (slots e) = evaluate (TCondition rule) (slots e')) /\
  (forall tid t h args, Tools s !! tid = Some t -> HTTP t = Some h ->
     (forall body, Body h = Some body -> renderValue (VMap body) args (slots e) = renderValue (VMap body) args (slots e')) /\
     (forall m, m ∈ find_all templateReference 0 (Path h) -> resolveReference args (slots e) m = resolveReference args (slots e') m) /\
     (forall k x, Query h !! k = Some x -> renderString x args (slots e) = renderString x args (slots e'))).
Proof.
  set (names := UserDataNames (Some s)) in *.
  assert (Hnode : forall nid n, Nodes s !! nid = Some n -> addNode n ⊆ names).
  { intros nid n Hn x Hx. apply elem_of_UserDataNames. right. left. eauto. }
  assert (Htool : forall tid t, Tools s !! tid = Some t -> addTool t ⊆ names).
  { intros tid t Ht x Hx. apply elem_of_UserDataNames. right. right. eauto. }
  assert (Hrules : forall rules rule, addRules rules ⊆ names -> rule ∈ rules ->
    evaluate (TCondition rule) (slots e) = evaluate (TCondition rule) (slots e')).
  { intros rules rule Hr Hin. destruct (TCondition rule) as [c|] eqn:E; [|done]. simpl. eapply alike_cond; [done|].
    intros n Hn. apply Hr, elem_of_flat_map. exists rule. by rewrite E. }
  split; [|split].
  - intros nid n lang Hn. apply Hnode in Hn. unfold addNode in Hn.
    split; [|split; [|intros l Hl; rewrite Hl in Hn]]; (eapply alike_text; [done..|]); set_solver.
  - intros rule [Hr|(nid & n & Hn & Hr)].
    + apply (Hrules (GTransitions (Glob s))); [|done]. intros x Hx. apply elem_of_UserDataNames. by left.
    + apply (Hrules (Transitions n)); [|done]. apply Hnode in Hn. unfold addNode in Hn. set_solver.
  - intros tid t h args Ht Hh. apply Htool in Ht. unfold addTool in Ht. rewrite Hh in Ht. split; [|split].
    + intros body Hb. rewrite Hb in Ht. eapply alike_value; [done|]. simpl default in Ht. set_solver.
    + intros m Hm. eapply alike_template; [done| |done]. simpl in Ht. set_solver.
    + intros k x Hq. eapply alike_string; [done|]. intros n Hn. apply Ht. rewrite !elem_of_app. right. right.
      apply elem_of_values with (f := fun v => walkBody (VStr v)). by exists k, x.
Qed.

(** *** Two calls side by side *)

Section twins.
Variable s : Spec.
Variable language : string.
Notation names := (UserDataNames (Some s)).
Notation enter := (enter ParseFloat FormatFloat Sprint s language).
Notation fire_rules := (fire_rules ParseFloat FormatFloat Sprint s language).
Notation fire := (fire ParseFloat FormatFloat Sprint s language).
Notation exec_op := (exec_op ParseFloat FormatFloat Sprint s language).
Notation NewEngine := (NewEngine ParseFloat FormatFloat Sprint s language).
Notation bump := (bump ParseFloat).

(** What a collect rule reads, and the counters the engine reads back. *)
Definition collect_reads (c : Collect) : list string :=
  match When c with Some w => addCondition w | None => [] end ++ addTemplate (CTemplate c).

Record reads_within (ops : list Op) : Prop := mkReadsWithin {
  rw_collect tid t c : Tools s !! tid = Some t -> TCollect t = Some c -> collect_reads c ⊆ names;
  rw_visits nid n : Nodes s !! nid = Some n -> addSlot (nid +:+ ".visits")%string = [];
  rw_calls tool args result : ToolResult tool args result ∈ ops -> addSlot (tool +:+ ".calls")%string = []
}.

(** Two engines equal in everything but their slots, which are alike, in
    phases the vocabulary covers. *)
Record twin (e e' : Engine) : Prop := mkTwin {
  tw_rest : e' = set_slots (slots e') e;
  tw_slots : alike names (slots e) (slots e');
  tw_current : addNode (current e) ⊆ names;
  tw_batch : addNode (batchNode e) ⊆ names
}.

Definition twins (r r' : option (Engine * string)) : Prop :=
  match r, r' with
  | Some (e, n), Some (e', n') => n = n' /\ twin e e'
  | None, None => True
  | _, _ => False
  end.

Lemma node_reads nid n : Nodes s !! nid = Some n -> addNode n ⊆ names.
Proof. intros Hn x Hx. apply elem_of_UserDataNames. right. left. eauto. Qed.

Lemma no_node_reads : addNode no_node ⊆ names.
Proof. apply list_subseteq_nil. Qed.

Lemma rule_reads rules : addRules rules ⊆ names ->
  forall rule, rule ∈ rules -> match TCondition rule with Some c => addCondition c ⊆ names | None => True end.
Proof.
  intros H rule Hin. destruct (TCondition rule) as [c|] eqn:E; [|done].
  intros n Hn. apply H, elem_of_flat_map. exists rule. by rewrite E.
Qed.

Lemma alike_evaluate c a b : alike names a b -> match c with Some c => addCondition c ⊆ names | None => True end ->
  evaluate c a = evaluate c b.
Proof. intros H Hc. destruct c; [by eapply alike_cond|done]. Qed.

Lemma alike_insert ns k v a b : alike ns a b -> alike ns (<[k := v]> a) (<[k := v]> b).
Proof. intros H slot Hs. destruct (decide (slot = k)) as [->|]; [by simplify_map_eq|]. rewrite !lookup_insert_ne by done. by apply H. Qed.

Lemma alike_drop ns p a b : alike ns a b -> alike ns (drop_prefix p a) (drop_prefix p b).
Proof.
  intros H slot Hs. apply option_eq. intros v. unfold drop_prefix. rewrite !map_lookup_filter_Some, (H slot Hs). done.
Qed.

Lemma alike_fold {A} ns (f : gmap string Value -> A -> gmap string Value) l a b :
  (forall x a b, alike ns a b -> alike ns (f a x) (f b x)) -> alike ns a b -> alike ns (fold_left f l a) (fold_left f l b).
Proof. intros Hf. revert a b. induction l as [|x l IH]; intros a b H; simpl; auto. Qed.

Lemma twin_slots e e' m m' : twin e e' -> alike names m m' -> twin (set_slots m e) (set_slots m' e').
Proof. intros [-> _ H1 H2] H. by constructor. Qed.

Lemma twin_put e e' k v : twin e e' -> twin (put k v e) (put k v e').
Proof. intros H. apply twin_slots; [done|]. by apply alike_insert, H. Qed.

Lemma twin_count e e' k : twin e e' -> addSlot k = [] -> countOf ParseFloat e k = countOf ParseFloat e' k.
Proof.
  intros H Hk. unfold countOf, slot_of. rewrite (alike_slot names (slots e) (slots e') k (tw_slots _ _ H)); [done|].
  rewrite Hk. apply list_subseteq_nil.
Qed.

Lemma twin_bump e e' k : twin e e' -> addSlot k = [] -> twin (bump k e) (bump k e').
Proof. intros H Hk. unfold FlowEngine.bump. rewrite (twin_count _ _ _ H Hk). by apply twin_put. Qed.

(** Setters of the fields both engines share. *)
Lemma twin_fields e e' : twin e e' ->
  (forall n, addNode n ⊆ names -> twin (set_current n e) (set_current n e')) /\
  (forall c, twin (set_collected c e) (set_collected c e')) /\
  (forall n, twin (set_turns n e) (set_turns n e')) /\ (forall n, twin (set_wall n e) (set_wall n e')) /\
  (forall b, twin (set_awaiting b e) (set_awaiting b e')) /\ (forall b, twin (set_toolReply b e) (set_toolReply b e')) /\
  (forall b n t, addNode n ⊆ names -> twin (set_batch b n t e) (set_batch b n t e')) /\
  (forall l, twin (set_entries l e) (set_entries l e')).
Proof. intros [-> H1 H2 H3]. repeat split; intros; try constructor; done. Qed.

Lemma twin_same e e' : twin e e' ->
  current e' = current e /\ collected e' = collected e /\ turns e' = turns e /\ turnsWithoutTool e' = turnsWithoutTool e /\
  isCallerAwaitingReply e' = isCallerAwaitingReply e /\ isToolReplyNext e' = isToolReplyNext e /\
  isInToolBatch e' = isInToolBatch e /\ batchNode e' = batchNode e /\ batchMovedTo e' = batchMovedTo e /\ entries e' = entries e.
Proof. intros [-> _ _ _]. repeat split. Qed.

Lemma twin_text e e' t l : twin e e' -> addText t ⊆ names -> render e (For t l) = render e' (For t l).
Proof. intros H Ht. eapply alike_text; [apply H|done|done|done]. Qed.

Lemma twin_lead e e' : twin e e' ->
  declaredLead FormatFloat Sprint language e = declaredLead FormatFloat Sprint language e'.
Proof.
  intros H. unfold declaredLead. destruct (twin_same _ _ H) as (-> & _). pose proof (tw_current _ _ H) as Hc.
  destruct (Lead (current e)) as [l|] eqn:El; [|done]. rewrite (twin_text e e'); [done..|].
  unfold addNode in Hc. rewrite El in Hc. set_solver.
Qed.

Section runs.
Context (ops : list Op) (Hw : reads_within ops).

#[local] Ltac same H := pose proof (twin_same _ _ H) as (Ecur & Ecol & Eturns & Ewall & Eawait & Ereply & Einb & Ebn & Ebm & Eent).
#[local] Ltac fields H := pose proof (twin_fields _ _ H) as (Fcur & Fcol & Fturns & Fwall & Fawait & Freply & Fbatch & Fent).

Lemma twin_enter nid e e' : twin e e' -> twins (Some (enter nid e)) (Some (enter nid e')).
Proof.
  intros H. unfold FlowEngine.enter, NodeOf. destruct (Nodes s !! nid) as [n|] eqn:Hn; [|done].
  split; [done|]. assert (H1 : twin (set_current n e) (set_current n e')) by (fields H; by apply Fcur, (node_reads nid)).
  assert (H2 : twin (resetTurnsWithoutTool (put "node" (VStr nid) (set_current n e)))
                    (resetTurnsWithoutTool (put "node" (VStr nid) (set_current n e')))).
  { unfold resetTurnsWithoutTool. apply twin_put. apply (twin_put _ _ "node" (VStr nid)) in H1. fields H1. apply Fwall. }
  apply (twin_bump _ _ (nid +:+ ".visits")%string) in H2; [|by eapply (rw_visits _ Hw)].
  rewrite (twin_lead _ _ H2). same H2. rewrite Eent. fields H2. apply Fent.
Qed.

Lemma twin_enter_fst nid e e' : twin e e' -> twin (enter nid e).1 (enter nid e').1.
Proof. intros H%(twin_enter nid). unfold twins in H. destruct (enter nid e), (enter nid e'). apply H. Qed.

Lemma twin_fire_rules from event tool rules e e' : twin e e' ->
  (forall rule, rule ∈ rules -> match TCondition rule with Some c => addCondition c ⊆ names | None => True end) ->
  twins (fire_rules from event tool rules e) (fire_rules from event tool rules e').
Proof.
  intros H. induction rules as [|rule rules IH]; intros Hr; [done|]. cbn [FlowEngine.fire_rules].
  specialize (IH ltac:(intros r Hin; apply Hr; by right)).
  destruct (negb _); [done|]. rewrite (alike_evaluate _ _ _ (tw_slots _ _ H)) by (apply Hr; left).
  destruct (evaluate _ _) as [[]| |]; try done. same H. rewrite Ecur.
  destruct (_ || _); [done|]. by apply twin_enter.
Qed.

Lemma twin_fire event tool e e' : twin e e' -> twins (fire event tool e) (fire event tool e').
Proof.
  intros H. unfold FlowEngine.fire. same H. unfold toolPhase. rewrite Ecur, Einb, Ebn.
  destruct (IsTerminal (current e)); [done|]. apply twin_fire_rules; [done|].
  assert (Hg : addRules (GTransitions (Glob s)) ⊆ names) by (intros x Hx; apply elem_of_UserDataNames; by left).
  assert (Hn : forall n, addNode n ⊆ names -> addRules (Transitions n) ⊆ names) by (unfold addNode; set_solver).
  pose proof (tw_current _ _ H). pose proof (tw_batch _ _ H).
  intros rule. unfold sortedRules. rewrite elem_of_app, !elem_of_sort_by. intros [Hr|Hr].
  - destruct (String.eqb event EventTypeToolResult); [destruct (isInToolBatch e)|]; (eapply rule_reads; [|exact Hr]; auto).
  - by apply (rule_reads (GTransitions (Glob s))).
Qed.

Lemma twin_collect tool args result e e' : twin e e' ->
  match collect ParseFloat FormatFloat Sprint s tool args result e, collect ParseFloat FormatFloat Sprint s tool args result e' with
  | Some a, Some b => twin a b | None, None => True | _, _ => False
  end.
Proof.
  intros H. unfold collect. destruct (Tools s !! tool) as [t|] eqn:Ht; [|done]. simpl.
  destruct (TCollect t) as [c|] eqn:Hc; [|done]. destruct (negb _); [done|].
  pose proof (rw_collect _ Hw tool t c Ht Hc) as Hr. unfold collect_reads in Hr.
  rewrite (alike_evaluate _ _ _ (tw_slots _ _ H)) by (destruct (When c); set_solver).
  destruct (evaluate _ _) as [[]| |]; try done.
  rewrite (alike_string _ _ (slots e') args _ (tw_slots _ _ H)) by set_solver.
  set (v := TrimSpace _). clearbody v. unfold keep_collected. same H. rewrite Ecol.
  repeat (case_match; try done). all: apply twin_put, twin_put; fields H; apply Fcol.
Qed.

Lemma twin_reset e e' : twin e e' -> twin (resetTurnsWithoutTool e) (resetTurnsWithoutTool e').
Proof. intros H. unfold resetTurnsWithoutTool. apply twin_put. fields H. apply Fwall. Qed.

Lemma twin_record tool args result e e' : twin e e' -> addSlot (tool +:+ ".calls")%string = [] ->
  twin (record_result ParseFloat tool args result e) (record_result ParseFloat tool args result e').
Proof.
  intros H Ht. unfold record_result. same H. rewrite Eturns. set (n := wrapS 64 _).
  set (a := put "lastTool" _ _). set (b := put "lastTool" _ (put _ _ (set_turns _ e'))).
  assert (Hab : twin a b) by (apply twin_put, twin_put; fields H; apply Fturns). clearbody a b.
  apply twin_reset in Hab. fields Hab. specialize (Fawait false). apply (twin_put _ _ "noInput.count" (VInt 0)) in Fawait.
  set (a' := put "noInput.count" _ _) in *. set (b' := put "noInput.count" _ (set_awaiting _ (resetTurnsWithoutTool b))) in *.
  clearbody a' b'. unfold recordArgs. apply twin_slots.
  - apply twin_bump; [|done]. apply twin_slots; [done|]. apply alike_fold; [|apply alike_drop, Fawait].
    intros kv x y Hxy. unfold record_field. by do 2 apply alike_insert.
  - apply alike_fold.
    + intros kv x y Hxy. unfold record_arg. destruct (scalarSlotValue _); [by apply alike_insert|done].
    + apply alike_drop. refine (tw_slots _ _ (twin_bump _ _ _ _ Ht)). apply twin_slots; [done|].
      apply alike_fold; [|apply alike_drop, Fawait]. intros kv x y Hxy. unfold record_field. by do 2 apply alike_insert.
Qed.

Lemma twin_ToolResult tool args result e e' : twin e e' -> addSlot (tool +:+ ".calls")%string = [] ->
  twins (OnToolResult ParseFloat FormatFloat Sprint s language tool args result e)
        (OnToolResult ParseFloat FormatFloat Sprint s language tool args result e').
Proof.
  intros H Ht. unfold OnToolResult. pose proof (twin_collect tool args result _ _ (twin_record tool args result _ _ H Ht)) as Hc.
  destruct (collect _ _ _ _ _ _ _ _) as [a|], (collect _ _ _ _ _ _ _ (record_result _ _ _ _ e')) as [b|]; try done. simpl.
  assert (Hg : twins (Some (guardRunawayLoop ParseFloat FormatFloat Sprint s language a))
                     (Some (guardRunawayLoop ParseFloat FormatFloat Sprint s language b))).
  { unfold guardRunawayLoop. same Hc. rewrite Ecur, Eturns. destruct (_ || _ || _ || _ || _); [done|]. by apply twin_enter. }
  destruct (guardRunawayLoop _ _ _ _ _ a) as [a1 n], (guardRunawayLoop _ _ _ _ _ b) as [b1 n']. destruct Hg as [<- Hg].
  assert (Hf : twins (if String.eqb n "" then fire EventTypeToolResult tool a1 else Some (a1, n))
                     (if String.eqb n "" then fire EventTypeToolResult tool b1 else Some (b1, n))).
  { destruct (String.eqb n ""); [by apply twin_fire|done]. }
  destruct (if String.eqb n "" then fire EventTypeToolResult tool a1 else _) as [[a2 m]|],
    (if String.eqb n "" then fire EventTypeToolResult tool b1 else _) as [[b2 m']|]; try done.
  destruct Hf as [<- Hf]. simpl. same Hf. rewrite Einb, Ebn. split; [done|].
  destruct (negb _ && _); [|done]. fields Hf. apply Fbatch. apply (tw_batch _ _ Hf).
Qed.

Lemma twin_NoInput e e' : twin e e' ->
  twins (OnNoInput ParseFloat FormatFloat Sprint s language e) (OnNoInput ParseFloat FormatFloat Sprint s language e').
Proof.
  intros H. unfold OnNoInput. apply (twin_bump _ _ "noInput.count") in H; [|done].
  pose proof (twin_fire EventTypeNoInput "" _ _ H) as Hf. destruct (fire _ _ _) as [[a n]|], (fire _ _ (bump _ e')) as [[b n']|]; try done.
  destruct Hf as [<- Hf]. simpl. destruct (negb _); [done|]. unfold defaultNoInput, hasDeclaredNoInputRule. same Hf.
  rewrite Ecur, (twin_count _ _ "noInput.count" Hf) by done. destruct (_ || _ || _); [done|]. destruct (_ <? _); [done|].
  by apply twin_enter.
Qed.

Definition twin_states (w w' : option Engine) : Prop :=
  match w, w' with Some e, Some e' => twin e e' | None, None => True | _, _ => False end.

Lemma twin_op o w w' : o ∈ ops -> twin_states w w' -> twin_states (exec_op w o) (exec_op w' o).
Proof.
  intros Ho H. destruct w as [e|], w' as [e'|]; try done. simpl in H. unfold FlowEngine.exec_op. simpl.
  same H. fields H. destruct o; simpl.
  - pose proof (twin_ToolResult tool args result _ _ H ltac:(by eapply (rw_calls _ Hw))) as Hr.
    destruct (OnToolResult _ _ _ _ _ _ _ _ e) as [[]|], (OnToolResult _ _ _ _ _ _ _ _ e') as [[]|]; try done. apply Hr.
  - pose proof (twin_NoInput _ _ H) as Hr.
    destruct (OnNoInput _ _ _ _ _ e) as [[]|], (OnNoInput _ _ _ _ _ e') as [[]|]; try done. apply Hr.
  - unfold OnCallerSpoke. destruct (String.eqb _ _); [done|].
    apply (twin_put _ _ "noInput.count" (VInt 0)) in H. pose proof (twin_fields _ _ H) as (_ & _ & _ & _ & Fa & _). apply Fa.
  - by apply twin_put.
  - unfold count_turn. rewrite Ereply, Eawait. destruct isToolCall.
    { pose proof (twin_fields _ _ (twin_reset _ _ H)) as (_ & _ & _ & _ & Fa & _). specialize (Fa false).
      pose proof (twin_fields _ _ Fa) as (_ & _ & _ & _ & _ & Fr & _). apply Fr. }
    destruct isInterrupted; [apply Freply|]. destruct (isToolReplyNext e).
    { pose proof (twin_fields _ _ (Freply false)) as (_ & _ & _ & _ & Fa & _). apply Fa. }
    destruct (isCallerAwaitingReply e); [|done]. cbn [current set_awaiting]. rewrite Ecur. specialize (Fawait false).
    destruct (_ && _); [|done]. cbn [turnsWithoutTool set_awaiting]. rewrite Ewall. apply twin_put.
    pose proof (twin_fields _ _ Fawait) as (_ & _ & _ & Fw & _). apply Fw.
  - unfold CloseAtTurnsWithoutToolWall, IsPastTurnsWithoutToolWall. rewrite Ecur, Ewall.
    destruct (negb _); [done|]. by apply twin_enter_fst.
  - unfold CloseAtSessionLimit. rewrite Ecur. destruct (_ || _); [done|]. by apply twin_enter_fst.
  - unfold CloseAtUnhungFarewell. rewrite Ecur. destruct (_ || _); [done|]. by apply twin_enter_fst.
  - unfold ReturnTo, NodeOf. destruct (Nodes s !! nodeID) as [n|] eqn:Hn; [|done]. destruct (IsTerminal n); [done|]. simpl.
    specialize (Fcur n (node_reads nodeID n Hn)).
    apply (twin_put _ _ "node" (VStr nodeID)), twin_reset, (twin_put _ _ "noInput.count" (VInt 0)) in Fcur.
    pose proof (twin_fields _ _ Fcur) as (_ & _ & _ & _ & Fa & _). specialize (Fa false).
    pose proof (twin_fields _ _ Fa) as (_ & _ & _ & _ & _ & Fr & _). apply Fr.
  - unfold BeginToolBatch. rewrite Einb, Ecur. destruct (isInToolBatch e); [done|]. apply Fbatch, (tw_current _ _ H).
  - apply Fbatch, no_node_reads.
  - by apply twin_put.
Qed.

Lemma twin_run l w w' : l ⊆ ops -> twin_states w w' -> twin_states (fold_left exec_op l w) (fold_left exec_op l w').
Proof.
  revert w w'. induction l as [|o l IH]; intros w w' Hl H; [done|]. simpl.
  apply IH; [set_solver|]. apply twin_op; [set_solver|done].
Qed.

Lemma twin_NewEngine base base' : alike names base base' -> twin (NewEngine base) (NewEngine base').
Proof.
  intros H. unfold FlowEngine.NewEngine.
  match goal with |- twin (set_entries [] (fst (enter _ ?a))) (set_entries [] (fst (enter _ ?b))) => assert (Hab : twin a b) end.
  { constructor; cbn [current batchNode slots]; try done; [|apply no_node_reads..]. apply alike_fold; [|by do 2 apply alike_insert].
    intros kv x y Hxy. unfold new_collected. destruct (TCollect kv.2); [by do 2 apply alike_insert|done]. }
  apply (twin_enter_fst (InitialNode s)) in Hab. fields Hab. apply Fent.
Qed.

End runs.

(** A call on the flow: the engine started over its seeded slots, and what
    happened on it; [None] when it panicked. *)
Definition call (base : gmap string Value) (ops : list Op) : option Engine :=
  fold_left exec_op ops (Some (NewEngine base)).

(** C37: The vocabulary of a campaign's contacts is complete for what the walk
    covers: run the same operations of a flow on two calls whose business data
    differs only in names outside [UserDataNames], and both panic or neither
    does; both are then in the same phase after the same turns, entered the
    same phases with the same leads and heard them in the same order, are given
    the same instruction and announcement, and would send the same body, path
    values and query values to the backend for the same arguments. The flow's
    collect rules must read nothing outside the vocabulary (the walk skips
    them) and no phase or tool be named like business data; the wait line is
    left out, [wait_line_name_missed]. *)
Theorem UserDataNames_complete (base base' : gmap string Value) (ops : list Op)
    (H : alike names base base') (Hw : reads_within ops) :
  match call base ops, call base' ops with
  | Some e, Some e' =>
      current e = current e' /\ turns e = turns e' /\ entries e = entries e' /\ collected e = collected e' /\
      InstructionNow FormatFloat Sprint language e = InstructionNow FormatFloat Sprint language e' /\
      AnnounceNow FormatFloat Sprint language e = AnnounceNow FormatFloat Sprint language e' /\
      (forall tid t h args, Tools s !! tid = Some t -> HTTP t = Some h ->
         (forall body, Body h = Some body -> renderValue (VMap body) args (slots e) = renderValue (VMap body) args (slots e')) /\
         (forall m, m ∈ find_all templateReference 0 (Path h) -> resolveReference args (slots e) m = resolveReference args (slots e') m) /\
         (forall k x, Query h !! k = Some x -> renderString x args (slots e) = renderString x args (slots e')))
  | None, None => True
  | _, _ => False
  end.
Proof.
  pose proof (twin_run ops Hw ops _ _ ltac:(done) (twin_NewEngine ops Hw _ _ H : twin_states (Some _) (Some _))) as Ht.
  fold (call base ops) (call base' ops) in Ht. destruct (call base ops) as [e|], (call base' ops) as [e'|]; try done. simpl in Ht.
  destruct (twin_same _ _ Ht) as (Ec & Eco & Et & _ & _ & _ & _ & _ & _ & Ee). pose proof (tw_current _ _ Ht) as Hc.
  unfold InstructionNow, AnnounceNow. rewrite Ec.
  do 4 (split; [done|]). split; [|split].
  - apply twin_text; [done|]. unfold addNode in Hc. set_solver.
  - apply twin_text; [done|]. unfold addNode in Hc. set_solver.
  - apply vocabulary_reads, Ht.
Qed.

End twins.

End reads.

(** ** Transfers *)

(** A flow that cannot transfer never lets the model call the transfer: the
    engine refuses it in every phase of the flow. *)
Lemma no_transfer_offered s e nid : CanTransfer (Some s) = false -> Nodes s !! nid = Some (toolPhase e) ->
  IsToolAllowed s e ToolTransferToAgent = false.
Proof.
  unfold CanTransfer. intros [Ha Hn]%orb_false_iff Hp. unfold IsToolAllowed. rewrite Ha.
  destruct (contains (NTools (toolPhase e)) "*" || contains (NTools (toolPhase e)) ToolTransferToAgent) eqn:E; [|done].
  rewrite <- Hn. symmetry. apply existsb_elem. exists (nid, toolPhase e). split; [by apply elem_of_map_to_list|done].
Qed.

(** ** Examples *)

(** A flow that greets the customer by name. *)
Definition greeting_node (line : string) : Node := mkNode "greet" (say line) (say "") ["lookup"]%string [to_help; to_found] false None.
Definition greeting (line wait : string) : Spec :=
  mkSpec "demo" "v2" "greet" (mkGlobal (say "A clerk.") "help" "bye" 2 1 None (say wait) ["hangup"]%string [])
    (<["greet"%string := greeting_node line]>
      (<["found"%string := found]> (<["help"%string := help]> (<["bye"%string := bye]> ∅))))
    (<["lookup"%string := lookup_tool]> ∅).

Definition calling (name value : string) : Engine :=
  mkEngine no_node {[name := VStr value]} ∅ 0 0 false false false no_node "" [].

Lemma alike_other names slot a b : (forall name, slot = (userDataPrefix +:+ name)%string -> name <> ""%string /\ name ∉ names) ->
  has_prefix userDataPrefix slot = true -> alike names {[slot := a]} {[slot := b]}.
Proof.
  intros Hn Hp k Hk. destruct (decide (k = slot)) as [->|Hne]; [|by rewrite !lookup_singleton_ne by done].
  apply has_prefix_spec in Hp. destruct (Hn _ Hp) as [H1 H2]. by specialize (Hk _ Hp H1).
Qed.

(** The same call to two customers whose age, which the flow never reads, differs. *)
Definition greeted (age : string) : gmap string Value :=
  SeedSlots "+46700000000" "campaign" "" [("name"%string, VStr "Ann"); ("age"%string, VStr age)].

Lemma UserDataNames_complete_witness :
  let flow := greeting "Greet {slots.userData.name}." "" in
  let ops := [Spoke "Hello"%string; looked_up; Return "greet"%string] in
  UserDataNames (Some flow) = ["name"]%string /\
  match call parse_digit no_format no_sprint flow "en" (greeted "41") ops,
        call parse_digit no_format no_sprint flow "en" (greeted "7") ops with
  | Some e, Some e' => id (current e) = "greet"%string /\ current e = current e' /\ slots e <> slots e' /\
      InstructionNow no_format no_sprint "en" e = InstructionNow no_format no_sprint "en" e'
  | _, _ => False
  end.
Proof.
  intros flow ops. split; [vm_compute; reflexivity|].
  assert (H : alike (UserDataNames (Some flow)) (greeted "41") (greeted "7")).
  { intros slot Hs. destruct (decide (slot = "userData.age"%string)) as [->|Hne].
    { specialize (Hs "age"%string eq_refl ltac:(done)). apply contains_true in Hs. vm_compute in Hs. discriminate. }
    set (m := SeedSlots "+46700000000" "campaign" "" [("name"%string, VStr "Ann")]).
    replace (greeted "41") with (<["userData.age"%string := VStr "41"]> m) by (vm_compute; reflexivity).
    replace (greeted "7") with (<["userData.age"%string := VStr "7"]> m) by (vm_compute; reflexivity).
    by rewrite !lookup_insert_ne by done. }
  assert (Hw : reads_within flow ops).
  { constructor.
    - intros tid t c Ht Hc. unfold flow, greeting in Ht. simpl in Ht. apply lookup_insert_Some in Ht as [[<- <-]|[_ Ht]]; [|done].
      injection Hc as <-. apply list_subseteq_nil.
    - intros nid n Hn. unfold flow, greeting in Hn. simpl in Hn.
      repeat (apply lookup_insert_Some in Hn as [[<- _]|[_ Hn]]; [reflexivity|]). done.
    - intros tool args result Hin. unfold ops in Hin. rewrite !elem_of_cons in Hin.
      destruct Hin as [Hin|[Hin|[Hin|Hin]]]; [discriminate| |discriminate|by apply elem_of_nil in Hin].
      assert (tool = "lookup"%string) as -> by (apply (f_equal (fun o => match o with ToolResult n _ _ => n | _ => tool end)) in Hin; exact Hin).
      reflexivity. }
  pose proof (UserDataNames_complete parse_digit no_format no_sprint flow "en" _ _ ops H Hw) as Hr.
  pose (run age := call parse_digit no_format no_sprint flow "en" (greeted age) ops).
  assert (H1 : (fun e => (id (current e), slots e !! "userData.age"%string)) <$> run "41" = Some ("greet", Some (VStr "41"))%string)
    by (vm_compute; reflexivity).
  assert (H2 : (fun e => (id (current e), slots e !! "userData.age"%string)) <$> run "7" = Some ("greet", Some (VStr "7"))%string)
    by (vm_compute; reflexivity).
  unfold run in H1, H2. clear run. revert H1 H2 Hr. generalize (call parse_digit no_format no_sprint flow "en" (greeted "41") ops).
  generalize (call parse_digit no_format no_sprint flow "en" (greeted "7") ops).
  intros [e'|] [e|] H1 H2 Hr; [|discriminate..].
  injection H1 as Hid H1. injection H2 as _ H2. destruct Hr as (Hc & _ & _ & _ & Hi & _).
  split; [exact Hid|]. split; [exact Hc|]. split; [|exact Hi]. intros E. rewrite E, H2 in H1. discriminate.
Defined.

(** The vocabulary misses what the wait line reads: there is a flow the
    loader accepts whose wait line names a customer's business data, what the
    caller hears while a tool runs depends on it, and [UserDataNames] does not
    list it, so that no contact list may carry it. *)
Theorem wait_line_name_missed :
  exists s a b, accepted s = true /\ alike (UserDataNames (Some s)) (slots a) (slots b) /\
    ToolWaitLineNow no_format no_sprint s "en-GB" a <> ToolWaitLineNow no_format no_sprint s "en-GB" b.
Proof.
  exists (greeting "Greet." "One moment, {slots.userData.name}."), (calling "userData.name" "Ann"), (calling "userData.name" "Bo").
  split; [vm_compute; reflexivity|]. split; [|vm_compute; discriminate].
  apply alike_other; [|reflexivity]. intros name E. change ("userData.name"%string = (userDataPrefix +:+ name)%string) in E.
  injection E as <-. split; [done|]. apply contains_false. vm_compute. reflexivity.
Qed.

End FlowCampaign.
