(* ===== verification/CampaignService.v ===== *)
(** * The campaign use cases: [internal/campaign/service.go]

    Creating a campaign, changing it under the field locks of its status, and
    moving it between statuses, over the tables of [CampaignStore]. The
    validators are the ones the other files prove correct; here it is what the
    service makes of them: which fields it judges changed, which of those it
    validates, and what it then lets into the tables. *)

From S2P Require Import Prelude GoText DayRange Calendar CampaignTypes CallWindow Schedule CampaignPolicy CampaignData CampaignStore CampaignLedger FlowPredicate FlowSpec FlowEngine FlowCampaign.
Import GoText DayRange Calendar CampaignTypes Window Schedule CampaignPolicy CampaignData CampaignStore CampaignLedger FlowCampaign.

Module CampaignService.

(** [internal/campaign/service.go:DIDFlow] *)
Record DIDFlow := mkDIDFlow {
  fID : uuid;
  fNumber : string;
  fIsEnabled : bool;
  fAllowOutbound : bool;
  fSpec : option FlowSpec.Spec
}.

(** [internal/campaign/service.go:DIDFlow.CheckForCampaign] *)
Definition CheckForCampaign (d : DIDFlow) : option Error :=
  if negb (fIsEnabled d) then Some (invalid "didId" "DID_DISABLED")
  else if negb (fAllowOutbound d) then Some (mkError ErrDIDNotOutbound "didId" "DID_NOT_OUTBOUND")
  else match fSpec d with
       | None => Some (invalid "didId" "DID_HAS_NO_PUBLISHED_FLOW")
       | Some s => if CanTransfer (Some s) then Some (mkError ErrFlowHasTransfer "didId" "FLOW_CAN_TRANSFER") else None
       end.

(** What the service answers beside its own refusals. The fields of a locked
    refusal are its [Params]. [ErrBroken] is any other failure of the store. *)
Inductive SvcError :=
| Refused (e : Error)
| Locked (s : Status) (fields : list string)
| ErrQueueNotFound | ErrDIDNotFound | ErrBroken.

#[export] Instance SvcError_eq_dec : EqDecision SvcError.
Proof. solve_decision. Defined.

(** [internal/campaign/service.go:Env] *)
Record Env := mkEnv { OutboundHours : Range; AnswerWindow : duration; EnvCountryCode : string }.

(** [internal/config/outbound.go:const(OutboundAnswerWindow)] *)
Definition OutboundAnswerWindow : duration := 60 * second.
Definition MinOutboundRingTimeout : duration := 5 * second.

(** [internal/config/outbound.go:const(DefaultOutboundHours)] *)
Definition DefaultOutboundHours : string := "08:00-21:00".

(** [internal/campaign/service.go:NewService] What it makes of the environment
    it is given. *)
Definition NewService (env : Env) : Env :=
  mkEnv
    (if decide (OutboundHours env = mkRange 0 0)
     then match Parse (TrimSpace DefaultOutboundHours) with Ok r => r | Err _ => mkRange 0 0 end
     else OutboundHours env)
    (if AnswerWindow env <=? 0 then OutboundAnswerWindow else AnswerWindow env)
    (EnvCountryCode env).

(** [internal/campaign/service.go:Env.ringTimeoutMaxSec] *)
Definition ringTimeoutMaxSec (env : Env) : Z := Z.quot (AnswerWindow env - 1) second.

(** [internal/campaign/service.go:const(DefaultMaxConcurrent)] *)
Definition DefaultMaxConcurrent : Z := 5.
Definition DefaultRingTimeoutSec : Z := 30.
Definition minMaxConcurrent : Z := 1.
Definition maxMaxConcurrent : Z := 100000.
Definition maxNameRunes : nat := 200.
Definition minRingTimeoutSec : Z := Z.quot MinOutboundRingTimeout second.

(** [internal/campaign/service.go:New] *)
Record New := mkNew {
  nName : string;
  nDIDID : uuid;
  nTimeZone : string;
  nCallingWindow : CallingWindow;
  nDefaultCountryCode : string;
  nMaxConcurrent : option Z;
  nRingTimeoutSec : option Z;
  nRetryPolicy : option RetryPolicy;
  nFollowUpQueueID : option uuid
}.

(** [internal/campaign/service.go:Patch] *)
Record Patch := mkPatch {
  pName : option string;
  pDIDID : option uuid;
  pTimeZone : option string;
  pCallingWindow : option CallingWindow;
  pDefaultCountryCode : option string;
  pClearDefaultCountryCode : bool;
  pMaxConcurrent : option Z;
  pRingTimeoutSec : option Z;
  pRetryPolicy : option RetryPolicy;
  pFollowUpQueueID : option uuid;
  pClearFollowUpQueue : bool
}.

Definition no_patch : Patch := mkPatch None None None None None false None None None None false.

(** [internal/campaign/service.go:var(updatable)] The fields a client may
    write. *)
Inductive CField :=
| FName | FDIDID | FTimeZone | FCallingWindow | FDefaultCountryCode
| FMaxConcurrent | FRingTimeoutSec | FRetryPolicy | FFollowUpQueueID.

#[export] Instance CField_eq_dec : EqDecision CField.
Proof. solve_decision. Defined.

Definition updatable : list CField :=
  [FName; FDIDID; FTimeZone; FCallingWindow; FDefaultCountryCode; FMaxConcurrent; FRingTimeoutSec; FRetryPolicy; FFollowUpQueueID].

Definition CField_text (f : CField) : string :=
  match f with
  | FName => "name" | FDIDID => "didId" | FTimeZone => "timeZone" | FCallingWindow => "callingWindow"
  | FDefaultCountryCode => "defaultCountryCode" | FMaxConcurrent => "maxConcurrent"
  | FRingTimeoutSec => "ringTimeoutSec" | FRetryPolicy => "retryPolicy" | FFollowUpQueueID => "followUpQueueId"
  end.

(** [internal/campaign/service.go:var(mutableWhileRunning)] *)
Definition mutableWhileRunning (f : CField) : bool := contains [FMaxConcurrent; FCallingWindow; FRetryPolicy] f.

(** ** [fmt.Sprint]

    A struct prints as its fields between braces, a slice as its elements
    between brackets, a map as [map[k:v ...]] in the order of its keys. *)

(** The text of an outcome, [OutcomeOther] being any other. *)
Definition Outcome_text (o : Outcome) : string :=
  match o with
  | OutcomeAnswered => "ANSWERED" | OutcomeBotFailed => "BOT_FAILED" | OutcomeOverflow => "OVERFLOW"
  | OutcomeNoAnswer => "NO_ANSWER" | OutcomeBusy => "BUSY" | OutcomeRejected => "REJECTED"
  | OutcomeUnknown => "UNKNOWN" | OutcomeTransient => "TRANSIENT" | OutcomeOriginateFailed => "ORIGINATE_FAILED"
  | OutcomeInvalidNumber => "INVALID_NUMBER" | OutcomeDNCSkipped => "DNC_SKIPPED" | OutcomeOther s => s
  end.

Definition spaced : list string -> string := FlowSlots.FlowSlots.join " ".

Definition sprint_range (r : TimeRange) : string := ("{" +:+ TStart r +:+ " " +:+ TEnd r +:+ "}")%string.
Definition sprint_window (w : CallingWindow) : string :=
  ("{[" +:+ spaced (Days w) +:+ "] [" +:+ spaced (map sprint_range (Ranges w)) +:+ "]}")%string.

Definition sprint_interval (kv : Outcome * Z) : string := (Outcome_text kv.1 +:+ ":" +:+ pretty kv.2)%string.
Definition sprint_backoff (b : Backoff) : string :=
  ("{" +:+ pretty (BaseSec b) +:+ " " +:+ pretty (Factor b) +:+ " " +:+ pretty (CapSec b) +:+ "}")%string.
Definition by_text (a b : Outcome * Z) : Prop := string_le (Outcome_text a.1) (Outcome_text b.1).
#[export] Instance by_text_dec a b : Decision (by_text a b).
Proof. unfold by_text. apply _. Defined.
Definition sprint_policy (p : RetryPolicy) : string :=
  ("{" +:+ pretty (MaxAttempts p) +:+ " " +:+ pretty (MaxSystemRetries p) +:+
   " [" +:+ spaced (map Outcome_text (RetryOutcomes p)) +:+
   "] map[" +:+ spaced (map sprint_interval (merge_sort by_text (map_to_list (IntervalSec p)))) +:+
   "] " +:+ sprint_backoff (TransientBackoff p) +:+ "}")%string.

(** ** Fields *)

Definition set_name (x : string) (c : Campaign) : Campaign :=
  mkCampaign (cID c) x (cDIDID c) (cDIDNumber c) (cStatus c) (cPauseReason c) (cTimeZone c) (cWindow c)
    (cDefaultCountryCode c) (cMaxConcurrent c) (cRingTimeoutSec c) (cRetryPolicy c) (cFollowUpQueueID c) (cStartedAt c).
Definition set_did (x : uuid) (c : Campaign) : Campaign :=
  mkCampaign (cID c) (cName c) x (cDIDNumber c) (cStatus c) (cPauseReason c) (cTimeZone c) (cWindow c)
    (cDefaultCountryCode c) (cMaxConcurrent c) (cRingTimeoutSec c) (cRetryPolicy c) (cFollowUpQueueID c) (cStartedAt c).
Definition set_did_number (x : string) (c : Campaign) : Campaign :=
  mkCampaign (cID c) (cName c) (cDIDID c) x (cStatus c) (cPauseReason c) (cTimeZone c) (cWindow c)
    (cDefaultCountryCode c) (cMaxConcurrent c) (cRingTimeoutSec c) (cRetryPolicy c) (cFollowUpQueueID c) (cStartedAt c).
Definition set_zone (x : string) (c : Campaign) : Campaign :=
  mkCampaign (cID c) (cName c) (cDIDID c) (cDIDNumber c) (cStatus c) (cPauseReason c) x (cWindow c)
    (cDefaultCountryCode c) (cMaxConcurrent c) (cRingTimeoutSec c) (cRetryPolicy c) (cFollowUpQueueID c) (cStartedAt c).
Definition set_window (x : CallingWindow) (c : Campaign) : Campaign :=
  mkCampaign (cID c) (cName c) (cDIDID c) (cDIDNumber c) (cStatus c) (cPauseReason c) (cTimeZone c) x
    (cDefaultCountryCode c) (cMaxConcurrent c) (cRingTimeoutSec c) (cRetryPolicy c) (cFollowUpQueueID c) (cStartedAt c).
Definition set_country (x : string) (c : Campaign) : Campaign :=
  mkCampaign (cID c) (cName c) (cDIDID c) (cDIDNumber c) (cStatus c) (cPauseReason c) (cTimeZone c) (cWindow c)
    x (cMaxConcurrent c) (cRingTimeoutSec c) (cRetryPolicy c) (cFollowUpQueueID c) (cStartedAt c).
Definition set_concurrent (x : Z) (c : Campaign) : Campaign :=
  mkCampaign (cID c) (cName c) (cDIDID c) (cDIDNumber c) (cStatus c) (cPauseReason c) (cTimeZone c) (cWindow c)
    (cDefaultCountryCode c) x (cRingTimeoutSec c) (cRetryPolicy c) (cFollowUpQueueID c) (cStartedAt c).
Definition set_ring (x : Z) (c : Campaign) : Campaign :=
  mkCampaign (cID c) (cName c) (cDIDID c) (cDIDNumber c) (cStatus c) (cPauseReason c) (cTimeZone c) (cWindow c)
    (cDefaultCountryCode c) (cMaxConcurrent c) x (cRetryPolicy c) (cFollowUpQueueID c) (cStartedAt c).
Definition set_policy (x : RetryPolicy) (c : Campaign) : Campaign :=
  mkCampaign (cID c) (cName c) (cDIDID c) (cDIDNumber c) (cStatus c) (cPauseReason c) (cTimeZone c) (cWindow c)
    (cDefaultCountryCode c) (cMaxConcurrent c) (cRingTimeoutSec c) x (cFollowUpQueueID c) (cStartedAt c).
Definition set_queue (x : option uuid) (c : Campaign) : Campaign :=
  mkCampaign (cID c) (cName c) (cDIDID c) (cDIDNumber c) (cStatus c) (cPauseReason c) (cTimeZone c) (cWindow c)
    (cDefaultCountryCode c) (cMaxConcurrent c) (cRingTimeoutSec c) (cRetryPolicy c) x (cStartedAt c).

(** A field that is present replaces the stored one. *)
Definition patched {A} (x : option A) (set : A -> Campaign -> Campaign) (c : Campaign) : Campaign :=
  match x with Some v => set v c | None => c end.

(** [internal/campaign/service.go:L541-L572] *)
Definition apply_patch (p : Patch) (cur : Campaign) : Campaign :=
  let next := patched (pName p) set_name cur in
  let next := patched (pDIDID p) set_did next in
  let next := patched (pTimeZone p) set_zone next in
  let next := patched (pCallingWindow p) set_window next in
  let next := if pClearDefaultCountryCode p then set_country "" next
              else patched (pDefaultCountryCode p) set_country next in
  let next := patched (pMaxConcurrent p) set_concurrent next in
  let next := patched (pRingTimeoutSec p) set_ring next in
  let next := patched (pRetryPolicy p) set_policy next in
  if pClearFollowUpQueue p then set_queue None next
  else match pFollowUpQueueID p with Some q => set_queue (Some q) next | None => next end.

(** [internal/campaign/service.go:differs] *)
Definition differs (f : CField) (a b : Campaign) : bool :=
  match f with
  | FName => negb (String.eqb (cName a) (cName b))
  | FDIDID => negb (bool_decide (cDIDID a = cDIDID b))
  | FTimeZone => negb (String.eqb (cTimeZone a) (cTimeZone b))
  | FCallingWindow => negb (String.eqb (sprint_window (cWindow a)) (sprint_window (cWindow b)))
  | FDefaultCountryCode => negb (String.eqb (cDefaultCountryCode a) (cDefaultCountryCode b))
  | FMaxConcurrent => negb (cMaxConcurrent a =? cMaxConcurrent b)
  | FRingTimeoutSec => negb (cRingTimeoutSec a =? cRingTimeoutSec b)
  | FRetryPolicy => negb (String.eqb (sprint_policy (cRetryPolicy a)) (sprint_policy (cRetryPolicy b)))
  | FFollowUpQueueID => negb (bool_decide (cFollowUpQueueID a = cFollowUpQueueID b))
  end.

(** [internal/config/config.go:ValidateDefaultCountryCode] true where it
    returns no error. *)
Definition ValidateDefaultCountryCode (code : string) : bool :=
  match code with
  | EmptyString => true
  | String c0 _ =>
      negb ((3 <? String.length code)%nat || Ascii.eqb c0 "0"%char) &&
      forallb (fun ch => (48 <=? ch) && (ch <=? 57)) (runes code)
  end.

(** ** The use cases *)

Section service.
(** The IANA database, the numbers with their published flows, the queues,
    whether the deployment can place a call, and the environment as
    [NewService] made it. *)
Variable tzdb : string -> option Location.
Variable DIDFlow_of : uuid -> option DIDFlow.
Variable queue_known : uuid -> bool.
Variable CanPlaceAI : bool.
Variable env : Env.

Definition refuse {A} (r : res Error A) : res SvcError A :=
  match r with Ok v => Ok v | Err e => Err (Refused e) end.

Definition on_field (touched : list CField) (f : CField) (check : Campaign -> res SvcError Campaign) (c : Campaign) : res SvcError Campaign :=
  if contains touched f then check c else Ok c.

Definition refuse_if (bad : bool) (e : Error) (c : Campaign) : res SvcError Campaign :=
  if bad then Err (Refused e) else Ok c.

(** [internal/campaign/service.go:L733-L741] *)
Definition check_name (c : Campaign) : res SvcError Campaign :=
  let c := set_name (TrimSpace (cName c)) c in
  guard_res (String.eqb (cName c) "") (Refused (invalid "name" "EMPTY"))
    (refuse_if (maxNameRunes <? length (runes (cName c)))%nat (invalid "name" "TOO_LONG") c).

(** [internal/campaign/service.go:L742-L746] *)
Definition check_zone (c : Campaign) : res SvcError Campaign :=
  refuse_if (negb (is_ok (LoadZone tzdb (cTimeZone c)))) (invalid "timeZone" "TIME_ZONE_INVALID") c.

(** [internal/campaign/service.go:L747-L753] *)
Definition check_window (c : Campaign) : res SvcError Campaign :=
  w ← refuse (Normalize (cWindow c) (OutboundHours env)); Ok (set_window w c).

(** [internal/campaign/service.go:L754-L757] *)
Definition check_concurrent (c : Campaign) : res SvcError Campaign :=
  refuse_if ((cMaxConcurrent c <? minMaxConcurrent) || (maxMaxConcurrent <? cMaxConcurrent c)) (invalid "maxConcurrent" "OUT_OF_RANGE") c.

(** [internal/campaign/service.go:L758-L771] *)
Definition check_ring (c : Campaign) : res SvcError Campaign :=
  guard_res (cRingTimeoutSec c <? minRingTimeoutSec) (Refused (invalid "ringTimeoutSec" "OUT_OF_RANGE"))
    (refuse_if (ringTimeoutMaxSec env <? cRingTimeoutSec c) (mkError ErrRingTimeoutTooLong "ringTimeoutSec" "NOT_BELOW_ANSWER_WINDOW") c).

(** [internal/campaign/service.go:L772-L778] *)
Definition check_policy (c : Campaign) : res SvcError Campaign :=
  p ← refuse (NormalizePolicy (cRetryPolicy c)); Ok (set_policy p c).

(** [internal/campaign/service.go:L779-L783] *)
Definition check_country (c : Campaign) : res SvcError Campaign :=
  refuse_if (negb (String.eqb (cDefaultCountryCode c) "") && negb (ValidateDefaultCountryCode (cDefaultCountryCode c)))
    (invalid "defaultCountryCode" "INVALID") c.

(** [internal/campaign/service.go:L784-L796] *)
Definition check_did (c : Campaign) : res SvcError Campaign :=
  match DIDFlow_of (cDIDID c) with
  | None => Err (Refused (invalid "didId" "DID_NOT_FOUND"))
  | Some d => match CheckForCampaign d with
              | Some e => Err (Refused e)
              | None => Ok (set_did_number (fNumber d) c)
              end
  end.

(** [internal/campaign/service.go:Service.validate] *)
Definition validate (touched : list CField) (c : Campaign) : res SvcError Campaign :=
  c ← on_field touched FName check_name c;
  c ← on_field touched FTimeZone check_zone c;
  c ← on_field touched FCallingWindow check_window c;
  c ← on_field touched FMaxConcurrent check_concurrent c;
  c ← on_field touched FRingTimeoutSec check_ring c;
  c ← on_field touched FRetryPolicy check_policy c;
  c ← on_field touched FDefaultCountryCode check_country c;
  on_field touched FDIDID check_did c.

(** [internal/campaign/service.go:L596-L607] The fields that changed and may
    not. *)
Definition lockedFields (s : Status) (ch : list CField) : list CField :=
  filter (fun f => f ∈ ch /\ (IsTerminal s = true \/ (s <> StatusDraft /\ mutableWhileRunning f = false))) updatable.

(** [internal/campaign/service.go:L537-L612] What [Update] hands to the store. *)
Definition change (p : Patch) (cur : Campaign) : res SvcError Campaign :=
  let next := apply_patch p cur in
  let touched := filter (fun f => differs f cur next = true) updatable in
  next ← validate touched next;
  let ch := filter (fun f => differs f cur next = true) touched in
  match lockedFields (cStatus cur) ch with
  | [] => Ok next
  | l => Err (Locked (cStatus cur) (map CField_text l))
  end.

(** [internal/store/campaignstore.go:mapCampaignWriteError] The foreign keys a
    write can violate. *)
Definition foreign_keys (c : Campaign) : option SvcError :=
  match DIDFlow_of (cDIDID c) with
  | None => Some ErrDIDNotFound
  | Some _ => match cFollowUpQueueID c with
              | Some q => if queue_known q then None else Some ErrQueueNotFound
              | None => None
              end
  end.

Definition not_found : SvcError := Refused (mkError ErrNotFound "" "").

(** [internal/store/campaignstore.go:CampaignStore.Get] without the counts. *)
Definition Get (id : uuid) (w : World) : res SvcError Campaign :=
  match campaigns (db w) !! id with Some c => Ok c | None => Err not_found end.

(** [internal/campaign/service.go:Service.Update] with
    [CampaignStore.Update]: the row is locked from the read to the write. *)
Definition Update (id : uuid) (p : Patch) (w : World) : World * res SvcError Campaign :=
  match campaigns (db w) !! id with
  | None => (w, Err not_found)
  | Some cur =>
      match change p cur with
      | Err e => (w, Err e)
      | Ok next =>
          match foreign_keys next with
          | Some e => (w, Err e)
          | None => let w := mkWorld (UpdateCampaign id next (db w)) (clk w) in (w, Get id w)
          end
      end
  end.

(** [internal/campaign/service.go:L431-L447] The campaign [Create] checks; its
    identifier is the insert's. *)
Definition campaign_of (n : New) : Campaign :=
  mkCampaign uuid_Nil (nName n) (nDIDID n) "" StatusDraft None (nTimeZone n) (nCallingWindow n)
    (nDefaultCountryCode n) (default DefaultMaxConcurrent (nMaxConcurrent n))
    (default DefaultRingTimeoutSec (nRingTimeoutSec n)) (default DefaultRetryPolicy (nRetryPolicy n))
    (nFollowUpQueueID n) None.

(** [internal/campaign/service.go:Service.Create] *)
Definition Create (n : New) (w : World) : World * res SvcError Campaign :=
  match validate updatable (campaign_of n) with
  | Err e => (w, Err e)
  | Ok c =>
      match foreign_keys c with
      | Some e => (w, Err e)
      | None => let '(id, d) := InsertCampaign c (db w) in let w := mkWorld d (clk w) in (w, Get id w)
      end
  end.

(** [internal/campaign/service.go:Service.checkCanDial] *)
Definition checkCanDial : option SvcError :=
  if CanPlaceAI then None else Some (Refused (mkError ErrOutboundNotConfigured "" "")).

(** [internal/campaign/service.go:RepoController] *)
Definition ctl (a : Action) (id : uuid) (w : World) : World * res SvcError Campaign :=
  let '(d, r) := move id a (clk w) (db w) in (mkWorld d (clk w), refuse r).

(** The refusal of an action in a status ([NewTransitionError]). *)
Definition not_from_here (action : string) : SvcError := Refused (mkError ErrInvalidTransition "" action).

(** [internal/campaign/service.go:Service.Start] *)
Definition Start (id : uuid) (w : World) : World * res SvcError Campaign :=
  match Get id w with
  | Err e => (w, Err e)
  | Ok cur =>
      if negb (bool_decide (cStatus cur = StatusDraft)) then (w, Err (not_from_here "START"))
      else match checkCanDial with
           | Some e => (w, Err e)
           | None => match validate [FDIDID; FTimeZone; FCallingWindow; FRingTimeoutSec] cur with
                     | Err e => (w, Err e)
                     | Ok _ => ctl ActStart id w
                     end
           end
  end.

(** [internal/campaign/service.go:Service.Pause] *)
Definition Pause : uuid -> World -> World * res SvcError Campaign := ctl ActPause.

(** [internal/campaign/service.go:Service.Resume] *)
Definition Resume (id : uuid) (w : World) : World * res SvcError Campaign :=
  match Get id w with
  | Err e => (w, Err e)
  | Ok cur =>
      if negb (bool_decide (cStatus cur = StatusPaused)) then (w, Err (not_from_here "RESUME"))
      else match checkCanDial with Some e => (w, Err e) | None => ctl ActResume id w end
  end.

(** [internal/campaign/service.go:Service.Cancel] *)
Definition Cancel : uuid -> World -> World * res SvcError Campaign := ctl ActCancel.

(** ** What a field must hold

    The number's flow changes on its own, so its check is one made at a
    moment; the others hold of a stored campaign for good. *)
Definition name_ok (name : string) : Prop :=
  name <> ""%string /\ (length (runes name) <= maxNameRunes)%nat.

Definition field_ok (f : CField) (c : Campaign) : Prop :=
  match f with
  | FName => name_ok (cName c)
  | FDIDID => exists d, DIDFlow_of (cDIDID c) = Some d /\ CheckForCampaign d = None
  | FTimeZone => is_ok (LoadZone tzdb (cTimeZone c)) = true
  | FCallingWindow => exists ps, normal (OutboundHours env) (cWindow c) ps
  | FDefaultCountryCode => ValidateDefaultCountryCode (cDefaultCountryCode c) = true
  | FMaxConcurrent => minMaxConcurrent <= cMaxConcurrent c <= maxMaxConcurrent
  | FRingTimeoutSec => minRingTimeoutSec <= cRingTimeoutSec c <= ringTimeoutMaxSec env
  | FRetryPolicy => policy_wf (cRetryPolicy c)
  | FFollowUpQueueID => True
  end.

(** *** The validators *)

Lemma on_field_Ok touched f check c c' : on_field touched f check c = Ok c' ->
  f ∈ touched /\ check c = Ok c' \/ f ∉ touched /\ c' = c.
Proof.
  unfold on_field. destruct (contains touched f) eqn:E; [apply contains_true in E; by left|].
  apply contains_false in E. intros [= <-]. by right.
Qed.

Lemma refuse_if_Ok bad e c c' : refuse_if bad e c = Ok c' -> bad = false /\ c' = c.
Proof. unfold refuse_if. destruct bad; [done|]. by intros [= <-]. Qed.

Lemma refuse_Ok {A} (r : res Error A) v : refuse r = Ok v -> r = Ok v.
Proof. destruct r; simpl; congruence. Qed.

Lemma step_name touched c c' : on_field touched FName check_name c = Ok c' ->
  exists v, c' = set_name v c /\ (FName ∈ touched -> v = TrimSpace (cName c) /\ name_ok v) /\ (FName ∉ touched -> v = cName c).
Proof.
  intros [[Hf H]|[Hf ->]]%on_field_Ok.
  - unfold check_name in H. apply guard_res_Ok in H as [He H]. apply refuse_if_Ok in H as [Hl ->]. simpl in He, Hl.
    exists (TrimSpace (cName c)). split; [done|]. split; [|done]. intros _. split; [done|].
    apply String.eqb_neq in He. apply Nat.ltb_ge in Hl. done.
  - exists (cName c). by destruct c.
Qed.

Lemma step_window touched c c' : on_field touched FCallingWindow (check_window) c = Ok c' ->
  exists v, c' = set_window v c /\
    (FCallingWindow ∈ touched -> Normalize (cWindow c) (OutboundHours env) = Ok v) /\ (FCallingWindow ∉ touched -> v = cWindow c).
Proof.
  intros [[Hf H]|[Hf ->]]%on_field_Ok.
  - unfold check_window in H. apply bind_Ok_inv in H as (w & Hw & [= <-]). apply refuse_Ok in Hw. by exists w.
  - exists (cWindow c). by destruct c.
Qed.

Lemma step_policy touched c c' : on_field touched FRetryPolicy check_policy c = Ok c' ->
  exists v, c' = set_policy v c /\
    (FRetryPolicy ∈ touched -> NormalizePolicy (cRetryPolicy c) = Ok v) /\ (FRetryPolicy ∉ touched -> v = cRetryPolicy c).
Proof.
  intros [[Hf H]|[Hf ->]]%on_field_Ok.
  - unfold check_policy in H. apply bind_Ok_inv in H as (w & Hw & [= <-]). apply refuse_Ok in Hw. by exists w.
  - exists (cRetryPolicy c). by destruct c.
Qed.

Lemma step_did touched c c' : on_field touched FDIDID check_did c = Ok c' ->
  exists v, c' = set_did_number v c /\
    (FDIDID ∈ touched -> exists d, DIDFlow_of (cDIDID c) = Some d /\ CheckForCampaign d = None /\ v = fNumber d) /\
    (FDIDID ∉ touched -> v = cDIDNumber c).
Proof.
  intros [[Hf H]|[Hf ->]]%on_field_Ok.
  - unfold check_did in H. destruct (DIDFlow_of (cDIDID c)) as [d|] eqn:Hd; [|done].
    destruct (CheckForCampaign d) eqn:Hc; [done|]. injection H as <-. exists (fNumber d). split; [done|]. split; [|done]. by exists d.
  - exists (cDIDNumber c). by destruct c.
Qed.

(** A check that changes nothing. *)
Lemma untouched_step touched f check (P : Campaign -> Prop) c c' :
  (check c = Ok c' -> c' = c /\ P c) -> on_field touched f check c = Ok c' -> c' = c /\ (f ∈ touched -> P c).
Proof. intros Hc [[Hf H]|[Hf ->]]%on_field_Ok; [|done]. destruct (Hc H) as [-> HP]. done. Qed.

Lemma zone_Ok c c' : check_zone c = Ok c' -> c' = c /\ field_ok FTimeZone c.
Proof. intros [H ->]%refuse_if_Ok. by apply negb_false_iff in H. Qed.
Lemma concurrent_Ok c c' : check_concurrent c = Ok c' -> c' = c /\ field_ok FMaxConcurrent c.
Proof. intros [H ->]%refuse_if_Ok. apply orb_false_iff in H as [?%Z.ltb_ge ?%Z.ltb_ge]. done. Qed.
Lemma ring_Ok c c' : check_ring c = Ok c' -> c' = c /\ field_ok FRingTimeoutSec c.
Proof. intros [H1%Z.ltb_ge [H2%Z.ltb_ge ->]%refuse_if_Ok]%guard_res_Ok. done. Qed.
Lemma country_Ok c c' : check_country c = Ok c' -> c' = c /\ field_ok FDefaultCountryCode c.
Proof.
  intros [H ->]%refuse_if_Ok. split; [done|]. simpl. destruct (String.eqb_spec (cDefaultCountryCode c) "") as [->|]; [done|].
  by apply negb_false_iff in H.
Qed.

(** What [validate] makes of a campaign: the fields it normalises, and what it
    found good. *)
Record validated (touched : list CField) (c c' : Campaign) : Prop := mkValidated {
  v_frame : exists n w p num, c' = set_did_number num (set_policy p (set_window w (set_name n c)));
  v_name : cName c' = if decide (FName ∈ touched) then TrimSpace (cName c) else cName c;
  v_window : if decide (FCallingWindow ∈ touched) then Normalize (cWindow c) (OutboundHours env) = Ok (cWindow c') else cWindow c' = cWindow c;
  v_policy : if decide (FRetryPolicy ∈ touched) then NormalizePolicy (cRetryPolicy c) = Ok (cRetryPolicy c') else cRetryPolicy c' = cRetryPolicy c;
  v_ok f : f ∈ touched -> field_ok f c'
}.

Lemma Normalize_wf w w' : Normalize w (OutboundHours env) = Ok w' -> exists ps, normal (OutboundHours env) w' ps.
Proof. intros (ps & ps' & _ & _ & _ & H)%Normalize_Ok. eauto. Qed.

Lemma validate_Ok touched c c' : validate touched c = Ok c' -> validated touched c c'.
Proof.
  unfold validate. intros H.
  apply bind_Ok_inv in H as (c1 & (n & -> & Hn & Hn')%step_name & H).
  apply bind_Ok_inv in H as (c2 & H2 & H). apply (untouched_step _ _ _ _ _ _ (zone_Ok _ _)) in H2 as [-> Hz].
  apply bind_Ok_inv in H as (c3 & (w & -> & Hw & Hw')%step_window & H).
  apply bind_Ok_inv in H as (c4 & H4 & H). apply (untouched_step _ _ _ _ _ _ (concurrent_Ok _ _)) in H4 as [-> Hc].
  apply bind_Ok_inv in H as (c5 & H5 & H). apply (untouched_step _ _ _ _ _ _ (ring_Ok _ _)) in H5 as [-> Hr].
  apply bind_Ok_inv in H as (c6 & (p & -> & Hp & Hp')%step_policy & H).
  apply bind_Ok_inv in H as (c7 & H7 & H). apply (untouched_step _ _ _ _ _ _ (country_Ok _ _)) in H7 as [-> Hcc].
  apply step_did in H as (num & -> & Hd & _). simpl in *. constructor; simpl.
  - by exists n, w, p, num.
  - case_decide; [by apply Hn|auto].
  - case_decide; auto.
  - case_decide; auto.
  - intros [] Hf; simpl; try done.
    + by apply Hn.
    + destruct (Hd Hf) as (d & ? & ? & _). by exists d.
    + by apply Hz.
    + eapply Normalize_wf. by apply Hw.
    + by apply Hcc.
    + by apply Hc.
    + by apply Hr.
    + by eapply NormalizePolicy_Ok, Hp.
Qed.

(** What [Update] stores, field by field. *)
Record updated (p : Patch) (cur c : Campaign) : Prop := mkUpdated {
  u_rest : cID c = cID cur /\ cStatus c = cStatus cur /\ cPauseReason c = cPauseReason cur /\ cStartedAt c = cStartedAt cur;
  u_terminal f : IsTerminal (cStatus cur) = true -> differs f cur c = false;
  u_locked f : cStatus cur <> StatusDraft -> mutableWhileRunning f = false -> differs f cur c = false;
  u_ok f : differs f cur c = true -> field_ok f c;
  u_same f : differs f cur (apply_patch p cur) = false -> differs f cur c = false
}.

Lemma elem_of_updatable f : f ∈ updatable.
Proof. destruct f; apply contains_true; reflexivity. Qed.

Lemma apply_patch_rest p c :
  cID (apply_patch p c) = cID c /\ cStatus (apply_patch p c) = cStatus c /\
  cPauseReason (apply_patch p c) = cPauseReason c /\ cStartedAt (apply_patch p c) = cStartedAt c.
Proof. unfold apply_patch, patched. repeat case_match; done. Qed.

(** A field that was not looked at is not changed by the validation. *)
Lemma validated_untouched touched c c' f cur : validated touched c c' -> f ∉ touched -> differs f cur c' = differs f cur c.
Proof.
  intros [(n & w & p & num & ->) Hn Hw Hp _] Hf. simpl in *.
  destruct f; simpl; try done.
  - by rewrite Hn, decide_False.
  - rewrite decide_False in Hw by done. by rewrite Hw.
  - rewrite decide_False in Hp by done. by rewrite Hp.
Qed.

Lemma change_Ok p cur c : change p cur = Ok c -> updated p cur c.
Proof.
  unfold change. set (next := apply_patch p cur). set (touched := filter _ updatable).
  intros H. apply bind_Ok_inv in H as (v & Hv & H). apply validate_Ok in Hv.
  destruct (lockedFields _ _) as [|] eqn:Hl; [|done]. injection H as <-.
  assert (Hdiff : forall f, differs f cur v = true -> f ∈ touched).
  { intros f Hf. destruct (decide (f ∈ touched)) as [|Hn]; [done|]. rewrite (validated_untouched _ _ _ _ cur Hv Hn) in Hf.
    exfalso. apply Hn. apply list_elem_of_filter. split; [done|apply elem_of_updatable]. }
  assert (Hlock : forall f, differs f cur v = true ->
    ~ (IsTerminal (cStatus cur) = true \/ (cStatus cur <> StatusDraft /\ mutableWhileRunning f = false))).
  { intros f Hf Hs. assert (Hin : f ∈ lockedFields (cStatus cur) (filter (fun f => differs f cur v = true) touched)).
    { apply list_elem_of_filter. split; [|apply elem_of_updatable]. split; [|done]. apply list_elem_of_filter. auto. }
    rewrite Hl in Hin. by apply elem_of_nil in Hin. }
  constructor.
  - destruct (v_frame _ _ _ Hv) as (n & w & q & num & ->). simpl. apply apply_patch_rest.
  - intros f Ht. destruct (differs f cur v) eqn:E; [|done]. exfalso. eapply Hlock; [done|by left].
  - intros f Hd Hm. destruct (differs f cur v) eqn:E; [|done]. exfalso. eapply Hlock; [done|by right].
  - intros f Hf. eapply v_ok; [done|]. by apply Hdiff.
  - intros f Hf. rewrite (validated_untouched _ _ _ _ cur Hv); [done|]. intros Hin. apply list_elem_of_filter in Hin as [E _].
    fold next in Hf. congruence.
Qed.

(** *** The store *)

Lemma update_row_same (id : uuid) c (w : World) :
  (exists cur, campaigns (db w) !! id = Some cur /\ cID c = cID cur /\ cStatus c = cStatus cur /\
     cPauseReason c = cPauseReason cur /\ cStartedAt c = cStartedAt cur) ->
  UpdateCampaign id c (db w) = with_campaigns <[id := c]> (db w).
Proof.
  intros (cur & Hcur & E1 & E2 & E3 & E4). unfold UpdateCampaign, with_campaigns. f_equal.
  rewrite (alter_some _ _ _ _ Hcur). f_equal. rewrite <- E1, <- E2, <- E3, <- E4. by destruct c.
Qed.

Lemma Update_inv id p w w' r : Update id p w = (w', r) ->
  match r with
  | Err e => w' = w
  | Ok c => exists cur, campaigns (db w) !! id = Some cur /\ change p cur = Ok c /\
      w' = mkWorld (with_campaigns <[id := c]> (db w)) (clk w)
  end.
Proof.
  unfold Update. intros H. destruct (campaigns (db w) !! id) as [cur|] eqn:Hc; [|by injection H as <- <-].
  destruct (change p cur) as [c|e] eqn:Hch; [|by injection H as <- <-].
  destruct (foreign_keys c) as [e|]; [by injection H as <- <-|].
  destruct (u_rest _ _ _ (change_Ok _ _ _ Hch)) as (E1 & E2 & E3 & E4).
  rewrite (update_row_same id c w) in H by (exists cur; auto).
  unfold Get in H. simpl in H. rewrite lookup_insert_eq in H. injection H as <- <-. by exists cur.
Qed.

(** C30: An update is all or nothing and respects the field locks. When it is
    refused nothing changed. When it succeeds it replaced that campaign's row
    and nothing else, left the status alone, changed no field (as [differs]
    compares them) of a finished campaign, none but the limit, the window and
    the policy of a started one and none the patch does not ask for, and every
    field it changed holds a value the validators accept. *)
Theorem Update_respects_locks (id : uuid) (p : Patch) (w w' : World) (r : res SvcError Campaign)
    (H : Update id p w = (w', r)) :
  match r with
  | Err e => w' = w
  | Ok c => exists cur, campaigns (db w) !! id = Some cur /\ updated p cur c /\
      w' = mkWorld (with_campaigns <[id := c]> (db w)) (clk w)
  end.
Proof.
  apply Update_inv in H. destruct r as [c|e]; [|done]. destruct H as (cur & Hc & Hch & ->). exists cur.
  split; [done|]. split; [by apply change_Ok|done].
Qed.

(** The patch that sends the whole form back. *)
Definition form_of (c : Campaign) : Patch :=
  mkPatch (Some (cName c)) (Some (cDIDID c)) (Some (cTimeZone c)) (Some (cWindow c)) (Some (cDefaultCountryCode c)) false
    (Some (cMaxConcurrent c)) (Some (cRingTimeoutSec c)) (Some (cRetryPolicy c)) (cFollowUpQueueID c) false.

Lemma apply_form c : apply_patch (form_of c) c = c.
Proof. destruct c as [? ? ? ? ? ? ? ? ? ? ? ? [] ?]; reflexivity. Qed.

Lemma differs_refl f c : differs f c c = false.
Proof. destruct f; simpl; rewrite ?String.eqb_refl, ?Z.eqb_refl, ?bool_decide_eq_true_2; done. Qed.

Lemma validate_nothing c : validate [] c = Ok c.
Proof. reflexivity. Qed.

(** A client that sends the whole form back is never refused for a field
    it did not touch: in any status, and whatever became of the number, the
    hours and the limits since, the update succeeds and changes nothing. *)
Theorem whole_form_is_accepted (id : uuid) (w : World) (c : Campaign)
    (Hc : campaigns (db w) !! id = Some c) (Hfk : foreign_keys c = None) :
  Update id (form_of c) w = (w, Ok c).
Proof.
  unfold Update. rewrite Hc. unfold change. rewrite apply_form.
  assert (Hf : filter (fun f => differs f c c = true) updatable = []).
  { apply filter_none. intros f _. by rewrite differs_refl. }
  rewrite Hf, validate_nothing. cbn [mbind res_bind].
  assert (Hl : forall s, lockedFields s (filter (fun f => differs f c c = true) []) = []).
  { intros s. apply filter_none. by intros f _ [?%elem_of_nil _]. }
  rewrite Hl, Hfk. assert (Hu : UpdateCampaign id c (db w) = db w).
  { unfold UpdateCampaign, with_campaigns. destruct (db w) as [m ? ? ? ? ? ?]. f_equal. simpl in Hc |- *.
    rewrite (alter_some _ _ _ _ Hc). rewrite insert_id; [done|]. rewrite Hc. by destruct c. }
  rewrite Hu. unfold Get. simpl. destruct w as [d t]. simpl in *. by rewrite Hc.
Qed.

(** *** Moves *)

Lemma move_Ok id a now d d' c : move id a now d = (d', Ok c) ->
  exists cur, campaigns d !! id = Some cur /\ cStatus cur ∈ leaves a /\ c = moved a now cur /\
    campaigns d' = <[id := c]> (campaigns d) /\
    contacts d' = if decide (a = ActStart) then contacts (ArmCampaignContacts id now d) else contacts d.
Proof.
  unfold move, row_affected. destruct (campaigns d !! id) as [cur|] eqn:Hc; [|done].
  destruct (has_status (leaves a) cur) eqn:Hs; [|done]. change (Z.b2z true =? 0) with false. cbv iota.
  assert (Hrow : update_row id (has_status (leaves a)) (moved a now) (campaigns d) = <[id := moved a now cur]> (campaigns d)).
  { unfold update_row. by rewrite (alter_some _ _ _ _ Hc), Hs. }
  intros H. exists cur. split; [done|]. apply has_status_eq in Hs. split; [done|].
  unfold with_campaigns in H. rewrite Hrow in H.
  destruct (decide (a = ActStart)); simpl in H; rewrite lookup_insert_eq in H; by injection H as <- <-.
Qed.

Lemma move_Err id a now d d' e : move id a now d = (d', Err e) -> d' = d.
Proof.
  unfold move, row_affected. destruct (campaigns d !! id) as [cur|] eqn:Hc; [|by intros [= <-]].
  destruct (has_status (leaves a) cur) eqn:Hs; [|by intros [= <-]]. change (Z.b2z true =? 0) with false. cbv iota.
  unfold update_row. destruct (decide (a = ActStart)); simpl; by rewrite (alter_some _ _ _ _ Hc), lookup_insert_eq.
Qed.

Lemma ctl_inv a id w w' r : ctl a id w = (w', r) ->
  match r with
  | Err _ => w' = w
  | Ok c => exists d', move id a (clk w) (db w) = (d', Ok c) /\ w' = mkWorld d' (clk w)
  end.
Proof.
  unfold ctl. destruct (move id a (clk w) (db w)) as [d' [c|e]] eqn:E; intros [= <- <-]; simpl; [by eauto|].
  apply move_Err in E as ->. by destruct w.
Qed.

(** A campaign is started only when it can dial: a refused start changes
    nothing, and one that succeeds moved a DRAFT to RUNNING on a deployment
    that can place calls, from a number that is enabled, allows outbound calls
    and has a published flow in no phase of which the model may transfer the
    caller to a person; its zone resolves, its window lies inside today's
    permitted hours, its ring timeout ends before the answer window closes,
    and every active contact of it that was not waiting for a time is due now. *)
Theorem Start_checked (id : uuid) (w w' : World) (r : res SvcError Campaign) (H : Start id w = (w', r)) :
  match r with
  | Err e => w' = w
  | Ok c => exists cur d s, campaigns (db w) !! id = Some cur /\ cStatus cur = StatusDraft /\ cStatus c = StatusRunning /\
      campaigns (db w') = <[id := c]> (campaigns (db w)) /\
      CanPlaceAI = true /\ DIDFlow_of (cDIDID cur) = Some d /\ fIsEnabled d = true /\ fAllowOutbound d = true /\ fSpec d = Some s /\
      (forall e nid, FlowSpec.Nodes s !! nid = Some (FlowEngine.toolPhase e) -> FlowEngine.IsToolAllowed s e ToolTransferToAgent = false) /\
      is_ok (LoadZone tzdb (cTimeZone cur)) = true /\ is_ok (Normalize (cWindow cur) (OutboundHours env)) = true /\
      cRingTimeoutSec cur * second < AnswerWindow env /\
      forall k ct, contacts (db w') !! k = Some ct -> ctCampaignID ct = id -> active ct = true -> is_Some (ctNextAttemptAt ct)
  end.
Proof.
  unfold Start, Get in H. destruct (campaigns (db w) !! id) as [cur|] eqn:Hc; [|by injection H as <- <-].
  destruct (bool_decide (cStatus cur = StatusDraft)) eqn:Hs; simpl in H; [|by injection H as <- <-].
  apply bool_decide_eq_true in Hs. unfold checkCanDial in H. destruct CanPlaceAI; [|by injection H as <- <-].
  destruct (validate _ cur) as [v|e] eqn:Hv; [|by injection H as <- <-].
  apply ctl_inv in H. destruct r as [c|e]; [|done]. destruct H as (d' & Hm & ->).
  apply move_Ok in Hm as (cur' & Hc' & _ & -> & Ec & Ect). rewrite Hc in Hc'. injection Hc' as <-.
  apply validate_Ok in Hv as [(n & wd & p & num & ->) _ Hw _ Hok]. simpl in Hw.
  assert (Hin : forall f, contains [FDIDID; FTimeZone; FCallingWindow; FRingTimeoutSec] f = true ->
    field_ok f (set_did_number num (set_policy p (set_window wd (set_name n cur))))).
  { intros f Hf. by apply Hok, contains_true. }
  destruct (Hin FDIDID eq_refl) as (d & Hd & Hcheck). simpl in Hd. unfold CheckForCampaign in Hcheck.
  destruct (fIsEnabled d) eqn:He; [|done]. destruct (fAllowOutbound d) eqn:Hout; [|done].
  destruct (fSpec d) as [s|] eqn:Hspec; [|done]. cbn [negb] in Hcheck. destruct (CanTransfer (Some s)) eqn:Htr; [done|].
  exists cur, d, s. repeat (split; [first [done|exact Ec]|]). split; [by intros e nid; apply no_transfer_offered|].
  split; [exact (Hin FTimeZone eq_refl)|]. split; [by rewrite Hw|].
  destruct (Hin FRingTimeoutSec eq_refl) as [Hr1 Hr2]. simpl in Hr1, Hr2. split.
  - unfold ringTimeoutMaxSec in Hr2. change minRingTimeoutSec with 5 in Hr1.
    assert (0 < AnswerWindow env).
    { destruct (Z.lt_ge_cases 0 (AnswerWindow env)) as [|Hle]; [done|].
      pose proof (Z.quot_le_mono (AnswerWindow env - 1) (-1) second ltac:(done) ltac:(lia)) as Hq.
      change (Z.quot (-1) second) with 0 in Hq. lia. }
    rewrite Z.quot_div_nonneg in Hr2 by (unfold second; lia). unfold second in *.
    pose proof (Z.mul_div_le (AnswerWindow env - 1) 1000000000). lia.
  - intros k ct Hk Hid Hact. simpl in Hk. rewrite Ect in Hk. simpl in Hk. unfold update_where in Hk.
    rewrite lookup_fmap in Hk. destruct (contacts (db w) !! k) as [ct0|]; [|done]. injection Hk as <-.
    destruct (_ && _ && _) eqn:Ea; [by eexists|]. rewrite Hid, N.eqb_refl, Hact in Ea. apply waits_spec. simpl in Ea.
    by apply negb_false_iff in Ea.
Qed.

End service.

(** ** A deployment *)

Definition demo_zones (name : string) : option Location := if String.eqb name "UTC" then Some UTC else None.
Definition demo_dids (id : uuid) : option DIDFlow :=
  if N.eqb id 9 then Some (mkDIDFlow 9 "+4681234567" true true (Some FlowEngine.demo)) else None.
Definition no_queues (q : uuid) : bool := false.
Definition demo_env : Env := NewService (mkEnv (mkRange 0 0) 0 "46").

Definition office : CallingWindow := mkWindow ["MON"; "TUE"]%string [mkTimeRange "09:00" "18:00"].
Definition demo_new : New := mkNew " Renewals " 9 "UTC" office "" None None None None.
Definition demo_empty : World := mkWorld empty_db (1000 * second).
Definition demo_draft : World := (Create demo_zones demo_dids no_queues demo_env demo_new demo_empty).1.
Definition demo_running : World := (Start demo_zones demo_dids true demo_env 1 demo_draft).1.

Definition window_patch (w : CallingWindow) : Patch :=
  mkPatch None None None (Some w) None false None None None None false.
Definition limit_patch : Patch := mkPatch None None None None None false (Some 7) None None None false.
Definition rename_patch : Patch := mkPatch (Some "Other"%string) None None None None false (Some 7) None None None false.

Lemma Update_respects_locks_witness : exists w' c,
  Update demo_zones demo_dids no_queues demo_env 1 limit_patch demo_running = (w', Ok c) /\
  exists cur, campaigns (db demo_running) !! 1%N = Some cur /\ updated demo_zones demo_dids demo_env limit_patch cur c /\
    w' = mkWorld (with_campaigns <[1%N := c]> (db demo_running)) (clk demo_running).
Proof.
  destruct (Update demo_zones demo_dids no_queues demo_env 1 limit_patch demo_running) as [w' [c|e]] eqn:E.
  - exists w', c. split; [done|]. exact (Update_respects_locks _ _ _ _ _ _ _ _ _ E).
  - exfalso. apply (f_equal (fun x => is_ok x.2)) in E. vm_compute in E. discriminate E.
Defined.

(** A locked field changed beside one that is not. *)
Example rename_is_locked :
  (Update demo_zones demo_dids no_queues demo_env 1 rename_patch demo_running).2 = Err (Locked StatusRunning ["name"%string]).
Proof. vm_compute. reflexivity. Qed.

Lemma whole_form_is_accepted_witness : exists c, campaigns (db demo_running) !! 1%N = Some c /\
  Update demo_zones demo_dids no_queues demo_env 1 (form_of c) demo_running = (demo_running, Ok c).
Proof.
  destruct (campaigns (db demo_running) !! 1%N) as [c|] eqn:E; [|vm_compute in E; discriminate E]. exists c. split; [done|].
  apply whole_form_is_accepted; [exact E|]. vm_compute in E. injection E as <-. vm_compute. reflexivity.
Defined.

Lemma Start_checked_witness : exists w' c,
  Start demo_zones demo_dids true demo_env 1 demo_draft = (w', Ok c) /\ cStatus c = StatusRunning.
Proof.
  destruct (Start demo_zones demo_dids true demo_env 1 demo_draft) as [w' [c|e]] eqn:E.
  - exists w', c. split; [done|]. by destruct (Start_checked _ _ _ _ _ _ _ _ E) as (cur & d & s & _ & _ & Hs & _).
  - exfalso. apply (f_equal (fun x => is_ok x.2)) in E. vm_compute in E. discriminate E.
Defined.

(** A schedule on no day of the week never opens. *)
Lemma never_opens (s : Schedule) t : (forall d, d ∈ Days (Window s) -> d ∉ Weekdays) -> IsOpen s t = false.
Proof.
  intros Hd. destruct (IsOpen s t) eqn:E; [|done]. apply IsOpen_covered, spans_covered in E as [(day & r & p & _ & Hin & _) _].
  exfalso. apply (Hd _ Hin). unfold weekdayName. apply list_elem_of_In, nth_In.
  pose proof (Z.mod_pos_bound (weekday day + 6) 7 ltac:(lia)). simpl. lia.
Qed.

Lemma row_stored (id : uuid) c d t : campaigns (db (mkWorld (with_campaigns <[id := c]> d) t)) !! id = Some c.
Proof. simpl. apply lookup_insert_eq. Qed.

(** The field locks and the validators can be passed by: [differs] compares
    what two windows print as, so a window whose days are the one text
    ["MON TUE"] counts as unchanged on a campaign whose days are MON and TUE.
    The update of the RUNNING campaign succeeds, stores the list as it came,
    and the campaign never opens again. *)
Theorem days_that_print_alike :
  let r := Update demo_zones demo_dids no_queues demo_env 1 (window_patch (mkWindow ["MON TUE"%string] (Ranges office))) demo_running in
  exists before c, campaigns (db demo_running) !! 1%N = Some before /\ cStatus before = StatusRunning /\ cWindow before = office /\
    r.2 = Ok c /\ campaigns (db r.1) !! 1%N = Some c /\ Days (cWindow c) = ["MON TUE"%string] /\
    is_ok (Normalize (cWindow c) (OutboundHours demo_env)) = false /\
    forall s t, NewSchedule demo_zones (cTimeZone c) "" (cWindow c) (OutboundHours demo_env) = Ok s -> IsOpen s t = false.
Proof.
  assert (Hb : (fun c => (cStatus c, cWindow c)) <$> campaigns (db demo_running) !! 1%N = Some (StatusRunning, office))
    by (vm_compute; reflexivity).
  destruct (campaigns (db demo_running) !! 1%N) as [before|] eqn:Eb; [|discriminate Hb]. injection Hb as Hst Hw.
  intros r. assert (Hr : (fun c => (Days (cWindow c), is_ok (Normalize (cWindow c) (OutboundHours demo_env)))) <$> r.2 = Ok (["MON TUE"%string], false))
    by (vm_compute; reflexivity).
  destruct (r.2) as [c|] eqn:Er; [|discriminate Hr]. injection Hr as Hdays Hno.
  exists before, c. split; [reflexivity|]. split; [exact Hst|]. split; [exact Hw|]. split; [first [exact Er|reflexivity]|].
  split. { pose proof (Update_respects_locks _ _ _ _ _ _ _ r.1 r.2 (surjective_pairing r)) as Hu. rewrite Er in Hu.
    destruct Hu as (cur & _ & _ & Hu). rewrite Hu. apply row_stored. }
  split; [exact Hdays|]. split; [exact Hno|]. intros s t Hs. apply never_opens. intros d Hd.
  unfold NewSchedule in Hs. apply bind_Ok_inv in Hs as (loc & _ & [= <-]). simpl in Hd. rewrite Hdays in Hd.
  apply list_elem_of_singleton in Hd as ->. apply contains_false. vm_compute. reflexivity.
Qed.

End CampaignService.
