(* ===== verification/CampaignValid.v ===== *)
(** * What a stored campaign satisfies

    The validators run when a campaign is written; the rest of the program
    reads the tables and trusts them. Here the settings every stored campaign
    has, as an invariant of any interleaving of the service with the writers of
    the campaign tables. [differs] compares what windows and policies print
    as, so the invariant needs that printing tells the values clients send
    apart: it does for texts without the characters [fmt.Sprint] adds. *)

From S2P Require Import Prelude GoText DayRange Calendar CampaignTypes CallWindow Schedule CampaignPolicy CampaignData CampaignStore CampaignLedger FlowSlots FlowCampaign CampaignService.
Import GoText DayRange Calendar CampaignTypes Window Schedule CampaignPolicy CampaignData CampaignStore CampaignLedger CampaignService.

Module CampaignValid.

(** ** Printing tells values apart *)

(** A text without a character. *)
Definition lacks (b : ascii) (s : string) : bool := negb (has_byte b s).

Lemma lacks_cons b c s : lacks b (String c s) = true <-> c <> b /\ lacks b s = true.
Proof.
  unfold lacks. simpl. destruct (Ascii.eqb_spec c b) as [->|Hne]; simpl; naive_solver.
Qed.

Lemma lacks_app b s t : lacks b (s +:+ t)%string = lacks b s && lacks b t.
Proof.
  unfold lacks. induction s as [|c s IH]; simpl; [done|]. destruct (Ascii.eqb c b); [done|]. apply IH.
Qed.

(** Texts up to the first [b] are the same when the whole is. *)
Lemma cut_at b s s' r r' : lacks b s = true -> lacks b s' = true ->
  (s +:+ String b r)%string = (s' +:+ String b r')%string -> s = s' /\ r = r'.
Proof.
  revert s'. induction s as [|c s IH]; intros [|c' s'] Hs Hs' E; simpl in E.
  - by injection E.
  - injection E as -> _. by apply lacks_cons in Hs' as [? _].
  - injection E as -> _. by apply lacks_cons in Hs as [? _].
  - injection E as -> E. apply lacks_cons in Hs as [_ Hs]. apply lacks_cons in Hs' as [_ Hs'].
    by destruct (IH _ Hs Hs' E) as [-> ->].
Qed.

Lemma lacks_never b s t r : lacks b s = true -> s = (t +:+ String b r)%string -> False.
Proof. intros H ->. rewrite lacks_app in H. apply andb_true_iff in H as [_ H]. by apply lacks_cons in H as [? _]. Qed.

Definition space : ascii := " ".
Definition bracket : ascii := "]".
Definition colon : ascii := ":".

(** A text that prints as one word. *)
Definition word (s : string) : Prop := s <> ""%string /\ lacks space s = true.

Lemma spaced_cons x y l : spaced (x :: y :: l) = (x +:+ String space (spaced (y :: l)))%string.
Proof. reflexivity. Qed.

Lemma spaced_inj l l' : Forall word l -> Forall word l' -> spaced l = spaced l' -> l = l'.
Proof.
  intros H. revert l'. induction H as [|x l [Hx Hsx] Hl IH]; intros l' H' E.
  - destruct H' as [|y l' [Hy _] _]; [done|]. exfalso. destruct l'; simpl in E; [by subst|]. by destruct y.
  - destruct H' as [|y l' [Hy Hsy] H'].
    { exfalso. destruct l; simpl in E; [by subst|]. by destruct x. }
    destruct l as [|x2 l], l' as [|y2 l'].
    + by rewrite (E : x = y).
    + exfalso. rewrite spaced_cons in E. by apply (lacks_never _ _ _ _ Hsx E).
    + exfalso. rewrite spaced_cons in E. symmetry in E. by apply (lacks_never _ _ _ _ Hsy E).
    + rewrite !spaced_cons in E. destruct (cut_at _ _ _ _ _ Hsx Hsy E) as [-> E']. f_equal. by apply IH.
Qed.

Lemma app_tail_inj (a b t : string) : (a +:+ t)%string = (b +:+ t)%string -> a = b.
Proof.
  revert b. induction a as [|c a IH]; intros [|c' b] E; simpl in E; [done|..].
  - apply (f_equal String.length) in E. simpl in E. rewrite str_length_app in E. lia.
  - apply (f_equal String.length) in E. simpl in E. rewrite str_length_app in E. lia.
  - injection E as -> E. f_equal. by apply IH.
Qed.

Lemma lacks_spaced b l : b <> space -> Forall (fun s => lacks b s = true) l -> lacks b (spaced l) = true.
Proof.
  intros Hb. induction 1 as [|x [|y l] Hx Hl IH]; [done|done|]. rewrite spaced_cons, lacks_app, Hx. simpl.
  apply lacks_cons. split; [congruence|done].
Qed.

(** *** Windows *)

Definition clean_day (d : string) : Prop := word d /\ lacks bracket d = true.
Definition clean_range (r : TimeRange) : Prop := lacks space (TStart r) = true /\ lacks space (TEnd r) = true.

(** A window whose texts hold none of the characters that print around them. *)
Definition clean_window (w : CallingWindow) : Prop := Forall clean_day (Days w) /\ Forall clean_range (Ranges w).

Definition range_words (r : TimeRange) : list string := [("{" +:+ TStart r)%string; (TEnd r +:+ "}")%string].

Lemma spaced_ranges rs : spaced (map sprint_range rs) = spaced (flat_map range_words rs).
Proof.
  induction rs as [|r [|r2 rs] IH]; [done|reflexivity|].
  change (flat_map range_words (r :: r2 :: rs)) with (("{" +:+ TStart r)%string :: (TEnd r +:+ "}")%string :: flat_map range_words (r2 :: rs)).
  change (map sprint_range (r :: r2 :: rs)) with (sprint_range r :: sprint_range r2 :: map sprint_range rs).
  rewrite spaced_cons. change (sprint_range r2 :: map sprint_range rs) with (map sprint_range (r2 :: rs)). rewrite IH.
  change (flat_map range_words (r2 :: rs)) with (("{" +:+ TStart r2)%string :: (TEnd r2 +:+ "}")%string :: flat_map range_words rs).
  rewrite !(spaced_cons ("{" +:+ TStart r)), !(spaced_cons (TEnd r +:+ "}")). unfold sprint_range.
  rewrite <- !str_app_assoc. reflexivity.
Qed.

Lemma range_words_word rs : Forall clean_range rs -> Forall word (flat_map range_words rs).
Proof.
  induction 1 as [|r rs [Hs He] _ IH]; [constructor|]. simpl. constructor; [|constructor; [|done]].
  - split; [done|]. by apply lacks_cons.
  - split; [by destruct (TEnd r)|]. by rewrite lacks_app, He.
Qed.

Lemma range_words_inj rs rs' : flat_map range_words rs = flat_map range_words rs' -> rs = rs'.
Proof.
  revert rs'. induction rs as [|[s e] rs IH]; intros [|[s' e'] rs']; simpl; try done.
  intros [= -> He H]. apply app_tail_inj in He as ->. f_equal. by apply IH.
Qed.

Lemma sprint_window_inj w w' : clean_window w -> clean_window w' -> sprint_window w = sprint_window w' -> w = w'.
Proof.
  intros [Hd Hr] [Hd' Hr'] E. unfold sprint_window in E. simpl in E. injection E as E.
  assert (Hl : forall w, Forall clean_day (Days w) -> lacks bracket (spaced (Days w)) = true).
  { intros v Hv. apply lacks_spaced; [done|]. eapply Forall_impl; [exact Hv|]. by intros d [_ ?]. }
  apply (cut_at bracket) in E as [Ed E]; [|by apply Hl..]. injection E as Er. apply app_tail_inj in Er.
  rewrite !spaced_ranges in Er. apply spaced_inj in Er; [|by apply range_words_word..]. apply range_words_inj in Er.
  apply spaced_inj in Ed; [|eapply Forall_impl; [eassumption|by intros d [? _]]..]. destruct w, w'. simpl in *. by subst.
Qed.

(** A window in normal form prints apart from any other. *)
Lemma Format_words : forallb (fun m => lacks space (Format m)) (seqZ 0 1441) = true.
Proof. vm_compute. reflexivity. Qed.

Lemma normal_clean outer w ps : normal outer w ps -> clean_window w.
Proof.
  intros H. split.
  - apply Forall_forall. intros d Hd. destruct (normal_days _ _ _ H) as (_ & _ & Hin). apply Hin in Hd.
    apply list_elem_of_In in Hd. simpl in Hd. destruct_or! Hd; subst; (split; [split|]); done.
  - rewrite (normal_texts _ _ _ H). apply Forall_forall. intros r Hr. apply list_elem_of_fmap in Hr as (p & -> & Hp).
    destruct (normal_within _ _ _ H p Hp) as [(Hs & He & _) _]. unfold MinutesPerDay in *. split; simpl; unfold StartText, EndText;
      apply (forallb_seqZ _ _ _ Format_words); lia.
Qed.

(** *** Policies *)

Lemma pretty_N_digits (P : string -> Prop) n s : (forall d s, P s -> P (String (pretty_N_char d) s)) ->
  P s -> P (pretty_N_go n s).
Proof.
  intros HP. revert s. induction n as [n IH] using (well_founded_ind N.lt_wf_0). intros s Hs.
  destruct (decide (0 < n)%N) as [Hn|Hn].
  - rewrite pretty_N_go_step by done. apply IH; [by apply N.div_lt|]. by apply HP.
  - assert (n = 0%N) as -> by lia. by rewrite pretty_N_go_0.
Qed.

Lemma pretty_N_char_in (n : N) : In (pretty_N_char n) ["0"; "1"; "2"; "3"; "4"; "5"; "6"; "7"; "8"; "9"]%char.
Proof. unfold pretty_N_char. simpl. repeat case_match; tauto. Qed.

(** A number prints without a byte that is no digit and no sign. *)
Lemma pretty_lacks b (z : Z) : contains ["0"; "1"; "2"; "3"; "4"; "5"; "6"; "7"; "8"; "9"; "-"]%char b = false -> lacks b (pretty z) = true.
Proof.
  intros Hb%contains_false.
  assert (HN : forall n : N, lacks b (pretty n) = true).
  { intros n. unfold pretty, pretty_N. destruct (decide (n = 0)%N).
    - apply lacks_cons. split; [intros <-; apply Hb; left|done].
    - apply pretty_N_digits; [|done]. intros d s Hs. apply lacks_cons. split; [|done]. intros <-. apply Hb.
      apply list_elem_of_In. pose proof (pretty_N_char_in d) as H. simpl in *. tauto. }
  destruct z; [|apply HN|].
  - apply lacks_cons. split; [intros <-; apply Hb; left|done].
  - apply lacks_cons. split; [|apply HN]. intros <-. apply Hb. apply list_elem_of_In. simpl. tauto.
Qed.

Definition declared (o : Outcome) : Prop := match o with OutcomeOther _ => False | _ => True end.

Lemma declared_text o : declared o -> word (Outcome_text o) /\ lacks bracket (Outcome_text o) = true /\ lacks colon (Outcome_text o) = true.
Proof. by destruct o. Qed.

Lemma Outcome_text_inj o o' : declared o -> declared o' -> Outcome_text o = Outcome_text o' -> o = o'.
Proof. by destruct o, o'. Qed.

(** A policy about the outcomes the program knows. *)
Definition clean_policy (p : RetryPolicy) : Prop :=
  Forall declared (RetryOutcomes p) /\ forall o v, IntervalSec p !! o = Some v -> declared o.

Lemma map_words {A} (f : A -> string) l : (forall x, x ∈ l -> word (f x)) -> Forall word (map f l).
Proof. intros H. apply Forall_fmap, Forall_forall, H. Qed.

Lemma interval_word kv : declared kv.1 -> word (sprint_interval kv) /\ lacks bracket (sprint_interval kv) = true.
Proof.
  intros ([Hne Hs] & Hb & _)%declared_text. unfold sprint_interval. split; [split|].
  - by destruct (Outcome_text kv.1).
  - rewrite lacks_app, Hs. simpl. apply lacks_cons. split; [done|by apply pretty_lacks].
  - rewrite lacks_app, Hb. simpl. apply lacks_cons. split; [done|by apply pretty_lacks].
Qed.

Lemma intervals_inj l l' : (forall kv, kv ∈ l -> declared kv.1) -> (forall kv, kv ∈ l' -> declared kv.1) ->
  map sprint_interval l = map sprint_interval l' -> l = l'.
Proof.
  revert l'. induction l as [|[o v] l IH]; intros [|[o' v'] l'] H H' E; simpl in E; try done.
  injection E as Eh Et. unfold sprint_interval in Eh. simpl in Eh.
  pose proof (H (o, v) ltac:(left)) as Ho. pose proof (H' (o', v') ltac:(left)) as Ho'. simpl in Ho, Ho'.
  apply (cut_at colon) in Eh as [Eo Ev]; [|by apply declared_text..].
  apply Outcome_text_inj in Eo as ->; [|done..]. apply (inj pretty) in Ev as ->. f_equal.
  apply IH; [..|done]; intros kv Hkv; [apply H|apply H']; by right.
Qed.

Lemma sprint_policy_inj p p' : clean_policy p -> clean_policy p' -> sprint_policy p = sprint_policy p' -> p = p'.
Proof.
  intros [Ho Hi] [Ho' Hi'] E. unfold sprint_policy in E. simpl in E. injection E as E.
  assert (Hlist : forall p, (forall o v, IntervalSec p !! o = Some v -> declared o) ->
    forall kv, kv ∈ merge_sort by_text (map_to_list (IntervalSec p)) -> declared kv.1).
  { intros q Hq [o v] Hkv. rewrite merge_sort_Permutation in Hkv. apply elem_of_map_to_list in Hkv. by eapply Hq. }
  assert (Hwords : forall l, Forall declared l -> Forall word (map Outcome_text l) /\ Forall (fun s => lacks bracket s = true) (map Outcome_text l)).
  { intros l Hl. rewrite !Forall_fmap. split; eapply Forall_impl; try exact Hl; intros o Hd; by apply declared_text in Hd as (? & ? & ?). }
  apply (cut_at space) in E as [E1%(inj pretty) E]; [|by apply pretty_lacks..].
  apply (cut_at space) in E as [E2%(inj pretty) E]; [|by apply pretty_lacks..]. injection E as E.
  apply (cut_at bracket) in E as [E3 E]; [|by apply lacks_spaced; [|apply Hwords]..]. injection E as E.
  apply spaced_inj in E3; [|by apply Hwords..].
  assert (E3' : RetryOutcomes p = RetryOutcomes p').
  { clear -E3 Ho Ho'. revert E3 Ho'. generalize (RetryOutcomes p'). induction Ho as [|o l Hd _ IH]; intros [|o' l'] E H'; simpl in E; try done.
    apply Forall_cons in H' as [Hd' H']. injection E as Eo El. apply Outcome_text_inj in Eo as ->; [|done..]. f_equal. by apply IH. }
  assert (Hb : forall p, (forall o v, IntervalSec p !! o = Some v -> declared o) ->
    Forall word (map sprint_interval (merge_sort by_text (map_to_list (IntervalSec p)))) /\
    Forall (fun s => lacks bracket s = true) (map sprint_interval (merge_sort by_text (map_to_list (IntervalSec p))))).
  { intros q Hq. rewrite !Forall_fmap. split; apply Forall_forall; intros kv Hkv; by apply interval_word, (Hlist _ Hq). }
  apply (cut_at bracket) in E as [E4 E]; [|by apply lacks_spaced; [|apply Hb]..].
  apply spaced_inj in E4; [|by apply Hb..]. apply intervals_inj in E4; [|by apply Hlist..].
  assert (E4' : IntervalSec p = IntervalSec p').
  { apply map_to_list_inj. by rewrite <- (merge_sort_Permutation by_text (map_to_list (IntervalSec p))), E4, merge_sort_Permutation. }
  unfold sprint_backoff in E. simpl in E. injection E as E. rewrite <- !str_app_assoc in E. simpl in E.
  apply (cut_at space) in E as [E5%(inj pretty) E]; [|by apply pretty_lacks..].
  rewrite <- !str_app_assoc in E. simpl in E.
  apply (cut_at space) in E as [E6%(inj pretty) E]; [|by apply pretty_lacks..]. do 2 apply app_tail_inj in E. apply (inj pretty) in E.
  destruct p as [? ? ? ? []], p' as [? ? ? ? []]. simpl in *. by subst.
Qed.

Lemma policy_clean p : policy_wf p -> clean_policy p.
Proof.
  intros H. split.
  - apply Forall_forall. intros o Ho. apply (proj2 (pw_outcomes _ H)) in Ho as [Ho|Ho]; apply list_elem_of_In in Ho;
      simpl in Ho; destruct_or! Ho; by subst.
  - intros o v Hv. assert (Ho : o ∈ reachedOutcomes) by (by apply (pw_keys _ H); eauto).
    apply list_elem_of_In in Ho. simpl in Ho. destruct_or! Ho; by subst.
Qed.

(** ** The other writers *)

(** A row whose settings are another's: only its status changed. *)
Definition same_settings (c c' : Campaign) : Prop :=
  cName c' = cName c /\ cDIDID c' = cDIDID c /\ cTimeZone c' = cTimeZone c /\ cWindow c' = cWindow c /\
  cDefaultCountryCode c' = cDefaultCountryCode c /\ cMaxConcurrent c' = cMaxConcurrent c /\
  cRingTimeoutSec c' = cRingTimeoutSec c /\ cRetryPolicy c' = cRetryPolicy c /\ cFollowUpQueueID c' = cFollowUpQueueID c.

Definition keeps_settings (d d' : DB) : Prop :=
  forall (id : uuid) c', campaigns d' !! id = Some c' -> exists c, campaigns d !! id = Some c /\ same_settings c c'.

Lemma keeps_eq d d' : campaigns d' = campaigns d -> keeps_settings d d'.
Proof. intros E id c'. rewrite E. intros H. exists c'. by repeat split. Qed.

Lemma keeps_alter d d' (k : uuid) f : (forall c, same_settings c (f c)) -> campaigns d' = alter f k (campaigns d) -> keeps_settings d d'.
Proof.
  intros Hf E id c'. rewrite E. destruct (decide (k = id)) as [->|Hne].
  - rewrite lookup_alter_eq. intros (c & Hc & ->)%fmap_Some. by exists c.
  - rewrite lookup_alter_ne by done. intros H. exists c'. by repeat split.
Qed.

Lemma keeps_move d id a t : keeps_settings d (CampaignStore.move id a t d).1.
Proof.
  unfold CampaignStore.move. destruct (_ =? 0); [by apply keeps_eq|].
  eapply (keeps_alter _ _ id (fun x => if has_status (leaves a) x then moved a t x else x)).
  - intros c. destruct (has_status _ c); [|by repeat split]. destruct a; by repeat split.
  - by destruct (decide _).
Qed.

Section writers.
Context (tzdb : string -> option Location) (outer : Range).

Lemma apply_campaigns clock att e d r d' : apply tzdb outer clock att e d = Ok (r, d') -> campaigns d' = campaigns d.
Proof.
  destruct r as [r|]; [|by intros ->%apply_none]. intros H.
  destruct (apply_inv _ _ _ _ _ _ _ _ H) as (ct & cam & _ & _ & _ & ->).
  match goal with |- context [leadSideEffects att _ ?d0] => destruct (side_effects_tables att (aLeadIntent att) d0) as (E1 & _) end.
  simpl in E1. by destruct (AttemptIsLatest _ _).
Qed.

Lemma import_campaigns id armed new d : campaigns (fold_left (insert_contact id armed) new d) = campaigns d.
Proof.
  apply (fold_left_inv (fun d' => campaigns d' = campaigns d)); [done|]. intros d' n E _. unfold insert_contact. simpl.
  by destruct (has_contact _ _ _).
Qed.

(** An operation that writes no settings. *)
Definition writes_no_settings (o : Op) : Prop := match o with OpCreate _ | OpUpdate _ _ => False | _ => op_allowed o end.

Lemma keeps_exec w o : writes_no_settings o -> keeps_settings (db w) (db (exec_op tzdb outer w o)).
Proof.
  destruct w as [d t]. destruct o; try done; intros _; simpl; try (by apply keeps_eq).
  - apply keeps_move.
  - eapply (keeps_alter _ _ id); [|reflexivity]. intros x. cbv beta. destruct (_ && _); by repeat split.
  - eapply (keeps_alter _ _ id); [|reflexivity]. intros x. cbv beta. destruct (has_status _ _); by repeat split.
  - unfold ImportContacts. destruct (campaigns d !! id); [|by apply keeps_eq]. destruct (IsTerminal _); [by apply keeps_eq|].
    apply keeps_eq, import_campaigns.
  - destruct (may_begin _ _); [|by apply keeps_eq]. apply keeps_eq. unfold Begin, txFor, ClaimContactForDial, InsertCampaignAttempt.
    destruct (contacts d !! contact) as [c|]; cbn [mbind option_bind]; [|done].
    destruct (active c); [|done]. cbn [NewV7]. by destruct (number_dialing _ _).
  - apply keeps_eq. unfold SetLead. by destruct (negb _).
  - apply keeps_eq. unfold Finish, txFor. destruct (LockAttemptByCall _ d); [|done]. destruct (negb _); [done|].
    destruct (apply _ _ _ _ e d) as [[r d']|] eqn:H; [|done]. by eapply apply_campaigns.
  - apply keeps_eq. unfold Void, txFor, DeleteDialingAttempt. destruct (attempts d !! _) as [a|]; [|done].
    cbn [mbind option_bind]. by destruct (dialing a).
  - apply keeps_eq. unfold InsertCDR, txFor, fromCDR. destruct (negb _); [done|]. destruct (LockAttemptByCall _ _); [|done].
    destruct (apply _ _ _ _ _ _) as [[r d']|] eqn:H; [|done]. simpl. by rewrite (apply_campaigns _ _ _ _ _ _ H).
  - apply keeps_eq. unfold FinishFromLedger, txFor. destruct (LockAttemptByCall _ d); [|done].
    destruct (cdrs d !! _); [|done]. destruct (negb _); [done|].
    destruct (apply _ _ _ _ _ d) as [[r d']|] eqn:H; [|done]. by eapply apply_campaigns.
  - apply keeps_eq. unfold Defer. apply (fold_left_inv (fun d' => campaigns d' = campaigns d)); done.
Qed.

End writers.

(** ** The system *)

(** What the service is deployed with at a moment: the numbers with their
    published flows, the queues, whether it can place a call, and the
    environment as [NewService] made it. The next deployment may narrow the
    hours or the answer window under the campaigns that are stored. *)
Record Deployment := mkDeployment {
  dDIDs : uuid -> option DIDFlow;
  dQueues : uuid -> bool;
  dCanPlaceAI : bool;
  dEnv : Env
}.

(** The tables, and the deployments that served the writes of settings. *)
Record System := mkSystem { tables : World; past : list Deployment }.

Section system.
Variable tzdb : string -> option Location.

(** The service's operations, and those of the other writers of the tables. *)
Inductive SysOp :=
| Creates (n : New)
| Updates (id : uuid) (p : Patch)
| Starts (id : uuid) | Pauses (id : uuid) | Resumes (id : uuid) | Cancels (id : uuid)
| Others (o : Op).

(** An operation, under the deployment that serves it. *)
Definition exec_sys (e : Deployment) (w : World) (o : SysOp) : World :=
  match o with
  | Creates n => (Create tzdb (dDIDs e) (dQueues e) (dEnv e) n w).1
  | Updates id p => (Update tzdb (dDIDs e) (dQueues e) (dEnv e) id p w).1
  | Starts id => (Start tzdb (dDIDs e) (dCanPlaceAI e) (dEnv e) id w).1
  | Pauses id => (Pause id w).1
  | Resumes id => (Resume (dCanPlaceAI e) id w).1
  | Cancels id => (Cancel id w).1
  | Others o => exec_op tzdb (OutboundHours (dEnv e)) w o
  end.

(** A patch whose window and policy print apart from others. *)
Definition clean_patch (p : Patch) : Prop :=
  (forall w, pCallingWindow p = Some w -> clean_window w) /\ (forall r, pRetryPolicy p = Some r -> clean_policy r).

Definition sys_allowed (o : SysOp) : Prop :=
  match o with
  | Updates _ p => clean_patch p
  | Others o => writes_no_settings o
  | _ => True
  end.

(** The operations that write settings. *)
Definition writes_settings (o : SysOp) : bool := match o with Creates _ | Updates _ _ => true | _ => false end.

#[export] Instance sys : Machine System (Deployment * SysOp) := {
  initial s := db (tables s) = empty_db;
  allowed o := sys_allowed o.2;
  exec s o := mkSystem (exec_sys o.1 (tables s) o.2) (if writes_settings o.2 then o.1 :: past s else past s)
}.

(** A setting some deployment accepted. *)
Definition accepted (es : list Deployment) (f : CField) (c : Campaign) : Prop :=
  exists e, e ∈ es /\ field_ok tzdb (dDIDs e) (dEnv e) f c.

(** Every setting is one the validators of a deployment so far accepted. *)
Definition settings_ok (es : list Deployment) (c : Campaign) : Prop := forall f, f <> FDIDID -> accepted es f c.

Definition all_ok (es : list Deployment) (w : World) : Prop :=
  forall (id : uuid) c, campaigns (db w) !! id = Some c -> settings_ok es c.

Lemma accepted_more es e f c : accepted es f c -> accepted (e :: es) f c.
Proof. intros (x & Hx & H). exists x. split; [by right|done]. Qed.

Lemma all_ok_more es e w : all_ok es w -> all_ok (e :: es) w.
Proof. intros H id c Hc f Hf. by apply accepted_more, (H id). Qed.

Lemma same_settings_ok es c c' : same_settings c c' -> settings_ok es c -> settings_ok es c'.
Proof.
  intros (E1 & E2 & E3 & E4 & E5 & E6 & E7 & E8 & E9) H f Hf. destruct (H f Hf) as (e & He & Hok). exists e. split; [done|].
  destruct f; simpl in *; by rewrite ?E1, ?E3, ?E4, ?E5, ?E6, ?E7, ?E8.
Qed.

Lemma all_ok_keeps es w w' : keeps_settings (db w) (db w') -> all_ok es w -> all_ok es w'.
Proof. intros Hk H id c Hc. destruct (Hk _ _ Hc) as (c0 & Hc0 & Hs). eapply same_settings_ok; [done|by eapply H]. Qed.

Lemma all_ok_ctl es a id w : all_ok es w -> all_ok es (ctl a id w).1.
Proof.
  intros H. eapply all_ok_keeps; [|exact H]. unfold ctl. pose proof (keeps_move (db w) id a (clk w)) as Hm.
  by destruct (CampaignStore.move id a (clk w) (db w)).
Qed.

Lemma apply_patch_window p c : cWindow (apply_patch p c) = default (cWindow c) (pCallingWindow p).
Proof. unfold apply_patch, patched. by repeat case_match. Qed.

Lemma apply_patch_policy p c : cRetryPolicy (apply_patch p c) = default (cRetryPolicy c) (pRetryPolicy p).
Proof. unfold apply_patch, patched. by repeat case_match. Qed.

(** A field that prints as it did holds what it did. *)
Lemma unchanged_ok es p cur f : clean_patch p -> settings_ok es cur -> f <> FDIDID ->
  differs f cur (apply_patch p cur) = false -> accepted es f (apply_patch p cur).
Proof.
  intros [Hw Hp] Hok Hf Hd. destruct (Hok f Hf) as (e & He & Hfe). clear Hok. exists e. split; [done|]. rename Hfe into Hok.
  destruct f; cbn [differs CampaignService.field_ok] in Hd, Hok |- *; try done.
  - apply negb_false_iff, String.eqb_eq in Hd. by rewrite <- Hd.
  - apply negb_false_iff, String.eqb_eq in Hd. by rewrite <- Hd.
  - apply negb_false_iff, String.eqb_eq in Hd. destruct Hok as [ps Hok]. exists ps.
    apply sprint_window_inj in Hd; [by rewrite <- Hd|by eapply normal_clean|]. rewrite apply_patch_window.
    destruct (pCallingWindow p); [by apply Hw|by eapply normal_clean].
  - apply negb_false_iff, String.eqb_eq in Hd. by rewrite <- Hd.
  - apply negb_false_iff, Z.eqb_eq in Hd. by rewrite <- Hd.
  - apply negb_false_iff, Z.eqb_eq in Hd. by rewrite <- Hd.
  - apply negb_false_iff, String.eqb_eq in Hd. apply sprint_policy_inj in Hd; [by rewrite <- Hd|by apply policy_clean|].
    rewrite apply_patch_policy. destruct (pRetryPolicy p); [by apply Hp|by apply policy_clean].
Qed.

Lemma validated_ok es e touched c c' f : validated tzdb (dDIDs e) (dEnv e) touched c c' -> f <> FDIDID ->
  (f ∉ touched -> accepted es f c) -> accepted (e :: es) f c'.
Proof.
  intros Hv Hf Hn. destruct (decide (f ∈ touched)) as [Ht|Ht].
  { exists e. split; [left|by eapply v_ok]. }
  destruct (Hn Ht) as (e0 & He0 & Hok). exists e0. split; [by right|].
  destruct Hv as [(n & w & q & num & ->) Hname Hwin Hpol _]. simpl in *. destruct f; simpl in *; try done.
  - by rewrite Hname, decide_False.
  - rewrite decide_False in Hwin by done. by rewrite Hwin.
  - rewrite decide_False in Hpol by done. by rewrite Hpol.
Qed.

Lemma change_settings_ok es e p cur c : clean_patch p -> settings_ok es cur ->
  change tzdb (dDIDs e) (dEnv e) p cur = Ok c -> settings_ok (e :: es) c.
Proof.
  intros Hp Hok H f Hf. unfold change in H. apply bind_Ok_inv in H as (v & Hv & H). apply validate_Ok in Hv.
  destruct (lockedFields _ _); [|done]. injection H as <-. eapply validated_ok; [exact Hv|done|]. intros Hn.
  apply (unchanged_ok es _ cur); [done..|]. destruct (differs f cur (apply_patch p cur)) eqn:E; [|done]. exfalso. apply Hn.
  apply list_elem_of_filter. split; [done|apply elem_of_updatable].
Qed.

Lemma all_ok_Update es e id p w : clean_patch p -> all_ok es w ->
  all_ok (e :: es) (Update tzdb (dDIDs e) (dQueues e) (dEnv e) id p w).1.
Proof.
  intros Hp H. destruct (Update _ _ _ _ id p w) as [w' [c|x]] eqn:E; pose proof (Update_inv _ _ _ _ _ _ _ _ _ E) as Hu; simpl in Hu |- *;
    [|subst; by apply all_ok_more].
  destruct Hu as (cur & Hcur & Hch & ->). intros k c'. simpl.
  rewrite lookup_insert_Some. intros [[<- <-]|[_ Hk]]; [|by eapply (all_ok_more es e w H)].
  eapply change_settings_ok; [done|by eapply H|done].
Qed.

Lemma all_ok_Create es e n w : all_ok es w -> all_ok (e :: es) (Create tzdb (dDIDs e) (dQueues e) (dEnv e) n w).1.
Proof.
  intros H. apply (all_ok_more es e) in H. unfold Create. destruct (validate _ _ _ _ _) as [c|] eqn:Hv; [|done].
  destruct (foreign_keys _ _ _); [done|].
  cbn [InsertCampaign NewV7 fst]. intros k c'. simpl. rewrite lookup_insert_Some. intros [[_ <-]|[_ Hk]]; [|by eapply H].
  intros f Hf. apply validate_Ok in Hv. pose proof (v_ok _ _ _ _ _ _ Hv f (elem_of_updatable f)) as Hok.
  exists e. split; [left|]. by destruct f.
Qed.

#[export] Instance all_ok_invariant : Invariant (fun s => all_ok (past s) (tables s)).
Proof.
  split.
  - intros s Hw id c. simpl in Hw. by rewrite Hw.
  - intros [w es] [e o] H Ho. simpl in H, Ho |- *. destruct o; simpl in Ho |- *.
    + by apply all_ok_Create.
    + by apply all_ok_Update.
    + unfold Start. destruct (Get id w); [|done]. destruct (negb _); [done|]. destruct (checkCanDial _); [done|].
      destruct (validate _ _ _ _ _); [|done]. by apply all_ok_ctl.
    + by apply all_ok_ctl.
    + unfold Resume. destruct (Get id w); [|done]. destruct (negb _); [done|]. destruct (checkCanDial _); [done|]. by apply all_ok_ctl.
    + by apply all_ok_ctl.
    + eapply all_ok_keeps; [|exact H]. by apply keeps_exec.
Qed.

(** C27: Whatever the clients, the dialer and the telephony did to the tables,
    and whatever deployments did it, every stored campaign has a name, a limit
    in its bounds, a country code that is one, a zone that resolves and a retry
    policy [Settle] can rely on; its ring timeout ends before the answer window
    closes, and its window is normalised inside the permitted hours, of a
    deployment that served a write of settings (not today's, perhaps:
    [hours_narrowed_since]; [Start] checks those again), with which a schedule can be built; provided the
    windows and policies in updates print apart from others, and that the time
    zone database does not change. *)
Theorem campaigns_stay_valid (s : System) (ops : list (Deployment * SysOp)) (id : uuid) (c : Campaign)
    (Hw : initial s) (Ho : Forall allowed ops) (Hc : campaigns (db (tables (reaches s ops))) !! id = Some c) :
  let served e := e ∈ past (reaches s ops) in
  name_ok (cName c) /\ minMaxConcurrent <= cMaxConcurrent c <= maxMaxConcurrent /\
  ValidateDefaultCountryCode (cDefaultCountryCode c) = true /\
  NormalizePolicy (cRetryPolicy c) = Ok (cRetryPolicy c) /\
  (exists e, served e /\ minRingTimeoutSec <= cRingTimeoutSec c <= ringTimeoutMaxSec (dEnv e)) /\
  (exists e, served e /\ Normalize (cWindow c) (OutboundHours (dEnv e)) = Ok (cWindow c)) /\
  (forall outer, exists sc, NewSchedule tzdb (cTimeZone c) "" (cWindow c) outer = Ok sc).
Proof.
  pose proof (reaches_invariant (fun s => all_ok (past s) (tables s)) s ops Hw Ho id c Hc) as H.
  assert (Hf : forall f, f <> FDIDID -> accepted (past (reaches s ops)) f c) by (intros; by apply H).
  destruct (Hf FName ltac:(done)) as (? & _ & H1). destruct (Hf FMaxConcurrent ltac:(done)) as (? & _ & H2).
  destruct (Hf FDefaultCountryCode ltac:(done)) as (? & _ & H3). destruct (Hf FRetryPolicy ltac:(done)) as (? & _ & H4).
  destruct (Hf FRingTimeoutSec ltac:(done)) as (e1 & He1 & H5). destruct (Hf FCallingWindow ltac:(done)) as (e2 & He2 & ps & H6).
  destruct (Hf FTimeZone ltac:(done)) as (? & _ & H7). simpl in *.
  split_and!; try done; try lia.
  - by apply NormalizePolicy_id.
  - exists e1. auto.
  - exists e2. split; [done|]. by eapply Normalize_normal.
  - intros outer. unfold NewSchedule. simpl. destruct (LoadZone tzdb (cTimeZone c)) as [loc|]; [|done]. by eexists.
Qed.

End system.

(** ** A run *)

Definition first_deployment : Deployment := mkDeployment demo_dids no_queues true demo_env.
(** The hours narrowed to the morning, under the campaign that was written. *)
Definition next_deployment : Deployment := mkDeployment demo_dids no_queues true (NewService (mkEnv (mkRange 480 600) 0 "46")).

Definition demo_ops : list (Deployment * SysOp) := [
  (first_deployment, Creates demo_new);
  (first_deployment, Updates 1 (window_patch (mkWindow ["TUE"; "MON"; "SAT"]%string [mkTimeRange "10:00" "12:00"])));
  (first_deployment, Starts 1); (first_deployment, Others (OpTick 5)); (next_deployment, Updates 1 limit_patch);
  (next_deployment, Pauses 1)].

Lemma demo_allowed : Forall (fun o => sys_allowed o.2) demo_ops.
Proof.
  assert (H1 : clean_patch (window_patch (mkWindow ["TUE"; "MON"; "SAT"]%string [mkTimeRange "10:00" "12:00"]))).
  { split; [|done]. intros w [= <-]. split; apply Forall_forall; intros x Hx; apply list_elem_of_In in Hx; simpl in Hx;
      destruct_or! Hx; subst; repeat split; done. }
  assert (H2 : clean_patch limit_patch) by (by split).
  do 6 (apply Forall_cons; split; [first [exact I|exact H1|exact H2|simpl; lia]|]). constructor.
Qed.

Definition demo_system : System := reaches (H := sys demo_zones) (mkSystem demo_empty []) demo_ops.

(** The stored window is outside the hours of today. *)
Example hours_narrowed_since :
  (fun c => is_ok (Normalize (cWindow c) (OutboundHours (dEnv next_deployment)))) <$> campaigns (db (tables demo_system)) !! 1%N = Some false.
Proof. vm_compute. reflexivity. Qed.

Lemma campaigns_stay_valid_witness : exists c,
  campaigns (db (tables demo_system)) !! 1%N = Some c /\
  Days (cWindow c) = ["MON"; "TUE"; "SAT"]%string /\ minMaxConcurrent <= cMaxConcurrent c <= maxMaxConcurrent.
Proof.
  assert (Hd : (fun c => Days (cWindow c)) <$> campaigns (db (tables demo_system)) !! 1%N = Some ["MON"; "TUE"; "SAT"]%string)
    by (vm_compute; reflexivity).
  destruct (campaigns _ !! 1%N) as [c|] eqn:E; [|discriminate Hd]. exists c. split; [reflexivity|]. injection Hd as Hd. split; [exact Hd|].
  eapply (campaigns_stay_valid demo_zones (mkSystem demo_empty []) demo_ops 1 c); [reflexivity|exact demo_allowed|exact E].
Defined.

End CampaignValid.
