(* ===== verification/CampaignImport.v ===== *)
(** * Importing contacts: [internal/campaign/contacts.go]

    A list of rows becomes contacts of a campaign: each row is checked on its
    own, the first row with a number claims it, the claims are stored in one
    transaction, and every row is told what became of it. *)

From S2P Require Import Prelude GoText DayRange PhoneNum Calendar CampaignTypes CallWindow Schedule CampaignPolicy CampaignData CampaignStore CampaignLedger FlowSlots FlowSpec FlowEngine FlowCampaign CampaignService.
Import GoText DayRange Calendar CampaignTypes Window CampaignPolicy CampaignData CampaignStore CampaignLedger FlowCampaign CampaignService.

Module CampaignImport.

(** [internal/campaign/contacts.go:const(MaxImportRows)] *)
Definition MaxImportRows : Z := 5000.

(** [internal/campaign/contacts.go:const(MaxSlotValueRunes)] *)
Definition MaxSlotValueRunes : nat := FlowSlots.MaxSlotValueLen.
Definition MaxSlotsPerRow : nat := 32.

(** [internal/campaign/contacts.go:RowStatus] [RowUnset] is the empty text. *)
Inductive RowStatus := RowUnset | RowImported | RowDuplicate | RowRejected.

#[export] Instance RowStatus_eq_dec : EqDecision RowStatus.
Proof. solve_decision. Defined.

(** [internal/campaign/contacts.go:RowCode] *)
Inductive RowCode :=
| RowNumberEmpty | RowNumberInvalid | RowTimeZoneInvalid | RowSlotsTooMany | RowSlotUnknown | RowSlotTooLong.

#[export] Instance RowCode_eq_dec : EqDecision RowCode.
Proof. solve_decision. Defined.

(** [internal/campaign/contacts.go:ImportRow] *)
Record ImportRow := mkRow { iNumber : string; iTimeZone : string; iSlots : gmap string string }.

(** [internal/campaign/contacts.go:RowResult] *)
Record RowResult := mkRowResult {
  Index : nat;
  RStatus : RowStatus;
  ContactID : uuid;
  RNumber : string;
  Code : option RowCode;
  Detail : string
}.

(** [internal/campaign/contacts.go:ImportResult] *)
Record ImportResult := mkImportResult { Imported : Z; Duplicates : Z; Rejected : Z; Rows : list RowResult }.

(** [unicode.IsControl]: the category Cc. *)
Definition IsControl (r : rune) : bool := ((0 <=? r) && (r <=? 31)) || ((127 <=? r) && (r <=? 159)).

(** [internal/campaign/contacts.go:L225-L230] What a value becomes. *)
Definition cleanValue (value : string) : string :=
  TrimSpace (utf8 (map (fun r => if IsControl r then 32 else r) (runes value))).

(** [internal/campaign/contacts.go:cleanSlots] *)
Definition cleanSlots (slots : gmap string string) : gmap string string :=
  omap (fun value => let v := cleanValue value in if String.eqb v "" then None else Some v) slots.

(** The reason [Canonical] gives, as a row's code. *)
Definition code_of (r : PhoneNum.Reason) : RowCode :=
  match r with PhoneNum.NumberEmpty => RowNumberEmpty | PhoneNum.NumberInvalid => RowNumberInvalid end.

(** The first name a check fails on. *)
Definition first_bad (bad : string -> bool) (names : list string) : option string := List.find bad names.

Section import.
Variable tzdb : string -> option Location.
Variable DIDFlow_of : uuid -> option DIDFlow.
Variable env : Env.

(** [internal/campaign/contacts.go:checkRow] *)
Definition checkRow (row : ImportRow) (country : string) (declared : list string) : string * option RowCode * string :=
  match PhoneNum.Canonical (iNumber row) country with
  | Err r => (""%string, Some (code_of r), ""%string)
  | Ok number =>
      if negb (String.eqb (iTimeZone row) "") && negb (is_ok (LoadZone tzdb (iTimeZone row)))
      then (number, Some RowTimeZoneInvalid, iTimeZone row)
      else
        let slots := cleanSlots (iSlots row) in
        if (MaxSlotsPerRow <? size slots)%nat then (number, Some RowSlotsTooMany, ""%string)
        else
          let names := sort_strings (map_to_list slots).*1 in
          match first_bad (fun name => negb (contains declared name)) names with
          | Some name => (number, Some RowSlotUnknown, name)
          | None =>
              match first_bad (fun name => (MaxSlotValueRunes <? length (runes (default ""%string (slots !! name))))%nat) names with
              | Some name => (number, Some RowSlotTooLong, name)
              | None => (number, None, ""%string)
              end
          end
  end.

(** [internal/campaign/service.go:Service.countryCode] *)
Definition countryCode (c : Campaign) : string :=
  if negb (String.eqb (cDefaultCountryCode c) "") then cDefaultCountryCode c else EnvCountryCode env.

(** The state of the loop over the rows: the results so far, how many were
    rejected, the contacts to store, and for each number its place among them,
    for each usable row the place of the contact that stands for it, and the
    rows that claim their number. *)
Record Scan := mkScan {
  sRows : list RowResult;
  sRejected : Z;
  sBatch : list NewContact;
  sAt : gmap string nat;
  sPos : gmap nat nat;
  sFirst : gset nat
}.

(** [internal/campaign/contacts.go:L126-L154] One turn of the loop. *)
Definition scan_row (country : string) (declared : list string) (s : Scan) (row : ImportRow) : Scan :=
  let i := length (sRows s) in
  let '(number, code, detail) := checkRow row country declared in
  match code with
  | Some code =>
      mkScan (sRows s ++ [mkRowResult i RowRejected uuid_Nil number (Some code) detail]) (sRejected s + 1)
        (sBatch s) (sAt s) (sPos s) (sFirst s)
  | None =>
      let out := sRows s ++ [mkRowResult i RowUnset uuid_Nil number None ""] in
      match sAt s !! number with
      | Some k => mkScan out (sRejected s) (sBatch s) (sAt s) (<[i := k]> (sPos s)) (sFirst s)
      | None =>
          let k := length (sBatch s) in
          mkScan out (sRejected s)
            (sBatch s ++ [mkNewContact number (iNumber row) (iTimeZone row) (cleanSlots (iSlots row))])
            (<[number := k]> (sAt s)) (<[i := k]> (sPos s)) ({[i]} ∪ sFirst s)
      end
  end.

Definition scan_rows (country : string) (declared : list string) (rows : list ImportRow) : Scan :=
  fold_left (scan_row country declared) rows (mkScan [] 0 [] ∅ ∅ ∅).

(** [internal/campaign/contacts.go:L166-L180] What a stored batch tells the
    row [r]. *)
Definition tell (s : Scan) (stored : list Stored) (r : RowResult) : RowResult :=
  match sPos s !! Index r with
  | None => r
  | Some k =>
      let st := default (mkStored uuid_Nil false) (stored !! k) in
      mkRowResult (Index r)
        (if bool_decide (Index r ∈ sFirst s) && stIsNew st then RowImported else RowDuplicate)
        (stID st) (RNumber r) (Code r) (Detail r)
  end.

(** The rows with a status. *)
Definition count (st : RowStatus) (rows : list RowResult) : Z :=
  Z.of_nat (length (filter (fun r => RStatus r = st) rows)).

(** [internal/campaign/contacts.go:Service.ImportContacts] *)
Definition Import (id : uuid) (rows : list ImportRow) (w : World) : World * res SvcError ImportResult :=
  if bool_decide (rows = []) then (w, Err (Refused (invalid "contacts" "EMPTY")))
  else if MaxImportRows <? Z.of_nat (length rows) then (w, Err (Refused (invalid "contacts" "TOO_MANY_ROWS")))
  else match Get id w with
  | Err e => (w, Err e)
  | Ok c =>
      if IsTerminal (cStatus c) then (w, Err (not_from_here "IMPORT_CONTACTS"))
      else match DIDFlow_of (cDIDID c) with
      | None => (w, Err ErrDIDNotFound)
      | Some d =>
          let declared := UserDataNames (fSpec d) in
          let s := scan_rows (countryCode c) declared rows in
          match sBatch s with
          | [] => (w, Ok (mkImportResult 0 0 (sRejected s) (sRows s)))
          | batch =>
              let '(db', err) := ImportContacts id batch (clk w) (db w) in
              let w' := mkWorld db' (clk w) in
              match err with
              | Some e => (w', Err (Refused e))
              | None =>
                  match mapM (stored_as id (db w) db') batch with
                  | None => (w', Err ErrBroken)
                  | Some stored =>
                      let out := map (tell s stored) (sRows s) in
                      (w', Ok (mkImportResult (count RowImported out) (count RowDuplicate out) (sRejected s) out))
                  end
              end
          end
      end
  end.

(** ** The scan *)

Section scan.
Variables (country : string) (declared : list string).

Notation check row := (checkRow row country declared).

Definition num (row : ImportRow) : string := (check row).1.1.
Definition usable (row : ImportRow) : Prop := (check row).1.2 = None.

#[export] Instance usable_dec row : Decision (usable row).
Proof. unfold usable. apply _. Defined.

(** The contact a row claims. *)
Definition claim (row : ImportRow) : NewContact := mkNewContact (num row) (iNumber row) (iTimeZone row) (cleanSlots (iSlots row)).

(** What the first loop writes of a row. *)
Definition first_result (i : nat) (row : ImportRow) : RowResult :=
  match check row with
  | (number, Some code, detail) => mkRowResult i RowRejected uuid_Nil number (Some code) detail
  | (number, None, _) => mkRowResult i RowUnset uuid_Nil number None ""
  end.

(** No usable row before [i] has its number. *)
Definition leads (rows : list ImportRow) (i : nat) (row : ImportRow) : Prop :=
  forall j row', (j < i)%nat -> rows !! j = Some row' -> usable row' -> num row' <> num row.

(** What the loop knows after the rows [pre]. *)
Record scanned (pre : list ImportRow) (s : Scan) : Prop := mkScanned {
  sc_rows : sRows s = imap first_result pre;
  sc_rejected : sRejected s = Z.of_nat (length (filter (fun row => ~ usable row) pre));
  sc_at n k : sAt s !! n = Some k <-> exists c, sBatch s !! k = Some c /\ ncNumber c = n;
  sc_pos i k : sPos s !! i = Some k <-> exists row, pre !! i = Some row /\ usable row /\ sAt s !! num row = Some k;
  sc_first i : i ∈ sFirst s <-> exists row, pre !! i = Some row /\ usable row /\ leads pre i row;
  sc_claim k c : sBatch s !! k = Some c -> exists i row, pre !! i = Some row /\ usable row /\ leads pre i row /\ c = claim row;
  sc_covered i row : pre !! i = Some row -> usable row -> is_Some (sAt s !! num row)
}.

Lemma lookup_snoc {A} (l : list A) x i y : (l ++ [x]) !! i = Some y <-> l !! i = Some y \/ i = length l /\ y = x.
Proof.
  destruct (decide (i < length l)%nat) as [Hi|Hi].
  - rewrite lookup_app_l by done. split; [by left|]. by intros [H|[-> _]]; [|lia].
  - rewrite lookup_app_r by lia. rewrite (lookup_ge_None_2 l i) by lia. destruct (i - length l)%nat as [|n] eqn:E; simpl.
    + split; [intros [= <-]; right; split; [lia|done]|]. by intros [|[_ ->]].
    + split; [done|]. intros [|[-> _]]; [done|lia].
Qed.

Lemma leads_snoc pre row i r : (i <= length pre)%nat -> leads (pre ++ [row]) i r <-> leads pre i r.
Proof.
  intros Hi. unfold leads. split; intros H j r' Hj Hr.
  - apply (H j r' Hj). apply lookup_snoc. by left.
  - apply lookup_snoc in Hr as [Hr|[-> _]]; [by apply (H j r' Hj)|lia].
Qed.

Lemma scanned_start : scanned [] (mkScan [] 0 [] ∅ ∅ ∅).
Proof.
  constructor; simpl; [done|done|..].
  - intros n k. rewrite lookup_empty. split; [done|]. by intros (c & H & _).
  - intros i k. rewrite lookup_empty. split; [done|]. by intros (r & H & _).
  - intros i. split; [by intros ?%not_elem_of_empty|]. by intros (r & H & _).
  - done.
  - done.
Qed.

(** The rows seen so far, with one more. *)
Lemma sees pre row (P : nat -> ImportRow -> Prop) i : (exists r, (pre ++ [row]) !! i = Some r /\ P i r) <->
  (exists r, pre !! i = Some r /\ P i r) \/ i = length pre /\ P (length pre) row.
Proof.
  split.
  - intros (r & [Hr|[-> ->]]%lookup_snoc & H); [left; by exists r|by right].
  - intros [(r & Hr & H)|[-> H]]; [exists r|exists row]; (split; [apply lookup_snoc; auto|done]).
Qed.

Lemma leads_before pre row i r : pre !! i = Some r -> leads (pre ++ [row]) i r <-> leads pre i r.
Proof. intros Hi%lookup_lt_Some. apply leads_snoc. lia. Qed.

Lemma rows_snoc pre s row : sRows s = imap first_result pre -> sRows s ++ [first_result (length pre) row] = imap first_result (pre ++ [row]).
Proof. intros ->. rewrite imap_app. simpl. by rewrite Nat.add_0_r. Qed.

Lemma rejected_snoc pre s row : sRejected s = Z.of_nat (length (filter (fun row => ~ usable row) pre)) ->
  sRejected s + (if decide (usable row) then 0 else 1) = Z.of_nat (length (filter (fun row => ~ usable row) (pre ++ [row]))).
Proof.
  intros ->. rewrite filter_app, length_app, Nat2Z.inj_add. f_equal. case_decide.
  - by rewrite filter_cons_False by tauto.
  - by rewrite filter_cons_True.
Qed.

Lemma claims_snoc pre s row : scanned pre s -> forall k c, sBatch s !! k = Some c ->
  exists i r, (pre ++ [row]) !! i = Some r /\ usable r /\ leads (pre ++ [row]) i r /\ c = claim r.
Proof.
  intros H k c Hk. destruct (sc_claim _ _ H _ _ Hk) as (i & r & Hr & Hu & Hl & ->). exists i, r.
  split; [apply lookup_snoc; by left|]. split; [done|]. split; [by apply leads_before|done].
Qed.

Lemma first_before pre s row i : scanned pre s -> i ∈ sFirst s \/ i = length pre /\ usable row /\ leads pre (length pre) row <->
  exists r, (pre ++ [row]) !! i = Some r /\ usable r /\ leads (pre ++ [row]) i r.
Proof.
  intros H. rewrite (sc_first _ _ H), (sees pre row (fun i r => usable r /\ leads (pre ++ [row]) i r)), leads_snoc by lia.
  split; (intros [(r & Hr & Hu & Hl)|Hr]; [left; exists r; split; [done|]; split; [done|by eapply leads_before]|by right]).
Qed.

(** A row that claims nothing. *)
Lemma scanned_keep pre s row pos : scanned pre s -> ~ (usable row /\ leads pre (length pre) row) ->
  (usable row -> is_Some (sAt s !! num row)) ->
  (forall i k, pos !! i = Some k <-> sPos s !! i = Some k \/ i = length pre /\ usable row /\ sAt s !! num row = Some k) ->
  scanned (pre ++ [row]) (mkScan (sRows s ++ [first_result (length pre) row]) (sRejected s + if decide (usable row) then 0 else 1)
    (sBatch s) (sAt s) pos (sFirst s)).
Proof.
  intros H Hno Hsome Hpos. constructor; simpl.
  - by apply rows_snoc, H.
  - by apply rejected_snoc, H.
  - apply H.
  - intros i k. rewrite Hpos, (sc_pos _ _ H).
    by rewrite (sees pre row (fun i r => usable r /\ sAt s !! num r = Some k)).
  - intros i. rewrite <- first_before by done. tauto.
  - by apply claims_snoc.
  - intros i r [Hr|[_ ->]]%lookup_snoc Hu; [by eapply sc_covered|auto].
Qed.

(** A row that claims its number. *)
Lemma scanned_claims pre s row : scanned pre s -> usable row -> sAt s !! num row = None ->
  scanned (pre ++ [row]) (mkScan (sRows s ++ [first_result (length pre) row]) (sRejected s)
    (sBatch s ++ [claim row]) (<[num row := length (sBatch s)]> (sAt s)) (<[length pre := length (sBatch s)]> (sPos s))
    ({[length pre]} ∪ sFirst s)).
Proof.
  intros H Hu Hat.
  assert (Hl : leads pre (length pre) row).
  { intros j r _ Hr Hur E. destruct (sc_covered _ _ H _ _ Hr Hur) as [k Hk]. by rewrite E, Hat in Hk. }
  constructor; simpl.
  - by apply rows_snoc, H.
  - rewrite <- (rejected_snoc _ s) by apply H. rewrite decide_True by done. lia.
  - intros n k. rewrite lookup_insert_Some. split.
    + intros [[<- <-]|[_ Hn]].
      * exists (claim row). split; [apply lookup_snoc; by right|done].
      * apply (sc_at _ _ H) in Hn as (c & Hc & Hcn). exists c. split; [apply lookup_snoc; by left|done].
    + intros (c & [Hc|[-> ->]]%lookup_snoc & Hcn); [|by left]. right.
      assert (Hn : sAt s !! n = Some k) by (apply (sc_at _ _ H); by exists c). split; [|done]. intros <-. congruence.
  - intros i k. rewrite lookup_insert_Some, (sc_pos _ _ H), (sees pre row (fun i r => usable r /\ <[num row:=length (sBatch s)]> (sAt s) !! num r = Some k)).
    rewrite lookup_insert_eq. split.
    + intros [[<- <-]|[_ (r & Hr & Hur & Hk)]]; [by right|]. left. exists r. split; [done|]. split; [done|].
      rewrite lookup_insert_ne; [done|]. intros E. rewrite E in Hat. congruence.
    + intros [(r & Hr & Hur & Hk)|(-> & _ & [= <-])]; [|by left]. right. split; [apply lookup_lt_Some in Hr; lia|]. exists r.
      split; [done|]. split; [done|]. rewrite lookup_insert_ne in Hk; [done|]. intros E. by apply (Hl i r (lookup_lt_Some _ _ _ Hr) Hr Hur).
  - intros i. rewrite <- first_before by done. set_solver.
  - intros k c [Hc|[_ ->]]%lookup_snoc; [by eapply claims_snoc|]. exists (length pre), row.
    split; [apply lookup_snoc; by right|]. split; [done|]. split; [by apply leads_snoc|done].
  - intros i r [Hr|[_ ->]]%lookup_snoc Hur; [|by rewrite lookup_insert_eq].
    rewrite lookup_insert_is_Some'. right. by eapply sc_covered.
Qed.

Lemma scanned_step pre s row : scanned pre s -> scanned (pre ++ [row]) (scan_row country declared s row).
Proof.
  intros H. assert (Hlen : length (sRows s) = length pre) by (by rewrite (sc_rows _ _ H), length_imap).
  unfold scan_row. rewrite Hlen.
  destruct (check row) as [[number code] detail] eqn:Hc.
  assert (Hnum : num row = number) by (unfold num; by rewrite Hc).
  assert (Hus : usable row <-> code = None) by (unfold usable; by rewrite Hc).
  assert (Hfr := eq_refl (first_result (length pre) row)). unfold first_result at 2 in Hfr. rewrite Hc in Hfr.
  destruct code as [code|].
  - assert (Hn : ~ usable row) by (rewrite Hus; done). rewrite <- Hfr.
    pose proof (scanned_keep pre s row (sPos s) H) as Hk. rewrite decide_False in Hk by done. apply Hk; [tauto|tauto|]. tauto.
  - assert (Hu : usable row) by (by apply Hus). clear Hus. rewrite <- Hfr. destruct (sAt s !! number) as [k0|] eqn:Hk0.
    + pose proof (scanned_keep pre s row (<[length pre := k0]> (sPos s)) H) as Hk. rewrite decide_True, Z.add_0_r in Hk by done.
      apply Hk; clear Hk.
      * intros [_ Hl]. apply (sc_at _ _ H) in Hk0 as (c & Hb & Hcn). destruct (sc_claim _ _ H _ _ Hb) as (i & r & Hr & Hur & _ & ->).
        apply (Hl i r); [by eapply lookup_lt_Some|done|done|]. simpl in Hcn. by rewrite Hcn, Hnum.
      * by rewrite Hnum, Hk0.
      * intros i k. rewrite lookup_insert_Some, Hnum, Hk0. split; [intros [[<- <-]|[_ ?]]; auto|].
        intros [Hi|(-> & _ & [= <-])]; [|by left]. right. split; [|done]. intros <-.
        apply (sc_pos _ _ H) in Hi as (r & Hr & _). apply lookup_lt_Some in Hr. lia.
    + subst number. by apply scanned_claims.
Qed.

Lemma scan_rows_scanned rows : scanned rows (scan_rows country declared rows).
Proof.
  induction rows as [|row rows IH] using rev_ind; [apply scanned_start|].
  unfold scan_rows. rewrite fold_left_app. by apply scanned_step.
Qed.

Lemma batch_distinct pre s k k' c c' : scanned pre s -> sBatch s !! k = Some c -> sBatch s !! k' = Some c' ->
  ncNumber c = ncNumber c' -> k = k'.
Proof.
  intros H Hk Hk' E. assert (H1 : sAt s !! ncNumber c = Some k) by (apply (sc_at _ _ H); by exists c).
  assert (H2 : sAt s !! ncNumber c = Some k') by (apply (sc_at _ _ H); by exists c'). congruence.
Qed.

(** ** The store *)

Variables (id : uuid) (armed : option instant).

Definition new_contact (k : uuid) (n : NewContact) : Contact :=
  mkContact k id (ncNumber n) (ncNumberRaw n) (ncTimeZone n) (ncSlots n) ContactActive 0 0 armed None LeadAbsent "" None None.

Definition held (number : string) (d : DB) : Prop :=
  exists k c, contacts d !! k = Some c /\ ctCampaignID c = id /\ ctNumber c = number.

Lemma contact_with_spec number d :
  match contact_with id number d with
  | Some k => exists c, contacts d !! k = Some c /\ ctCampaignID c = id /\ ctNumber c = number
  | None => ~ held number d
  end.
Proof.
  unfold contact_with. destruct (List.find _ _) as [[k c]|] eqn:E; simpl.
  - apply find_some in E as [Hin H]. simpl in H. apply andb_true_iff in H as [H1%bool_decide_eq_true H2%String.eqb_eq].
    apply list_elem_of_In, elem_of_map_to_list in Hin. by exists c.
  - intros (k & c & Hk & Hid & Hn). apply elem_of_map_to_list, list_elem_of_In in Hk.
    pose proof (find_none _ _ E _ Hk) as H. simpl in H. by rewrite bool_decide_eq_true_2, Hn, String.eqb_refl in H.
Qed.

Lemma has_contact_held number d : has_contact id (fun c => String.eqb (ctNumber c) number) d = true <-> held number d.
Proof.
  unfold has_contact, held. rewrite bool_decide_eq_true. unfold map_Exists. by setoid_rewrite String.eqb_eq.
Qed.

(** What the insert of a batch makes of the tables. *)
Record stored_batch (batch : list NewContact) (d d' : DB) : Prop := mkStoredBatch {
  sb_kept k c : contacts d !! k = Some c -> contacts d' !! k = Some c;
  sb_only k c : contacts d' !! k = Some c -> contacts d !! k = Some c \/
    contacts d !! k = None /\ exists n, n ∈ batch /\ c = new_contact k n;
  sb_all n : n ∈ batch -> held (ncNumber n) d';
  sb_ids (k : uuid) : is_Some (contacts d' !! k) -> (k <= lastID d')%N
}.

Lemma held_kept d d' number : (forall k c, contacts d !! k = Some c -> contacts d' !! k = Some c) -> held number d -> held number d'.
Proof. intros H (k & c & Hk & Hc). exists k, c. split; [by apply H|done]. Qed.

Lemma insert_stored batch d : (forall k : uuid, is_Some (contacts d !! k) -> (k <= lastID d)%N) ->
  stored_batch batch d (fold_left (insert_contact id armed) batch d).
Proof.
  intros Hids. induction batch as [|n batch IH] using rev_ind.
  { constructor; simpl; [done|by left|by intros n ?%elem_of_nil|done]. }
  rewrite fold_left_app. simpl. set (d1 := fold_left _ batch d) in *. destruct IH as [Hk Ho Ha Hi].
  unfold insert_contact. cbn [NewV7]. set (d2 := mkDB _ _ _ _ _ _ _).
  destruct (has_contact id (fun c => String.eqb (ctNumber c) (ncNumber n)) d2) eqn:Eh.
  - apply has_contact_held in Eh. constructor; simpl.
    + done.
    + intros k c Hc. destruct (Ho _ _ Hc) as [|(Hn & n' & Hn' & ->)]; [by left|right]. split; [done|]. exists n'.
      split; [apply elem_of_app; by left|done].
    + intros n' [Hn'|Hn'%list_elem_of_singleton]%elem_of_app; [by apply Ha|by subst].
    + intros k Hs. specialize (Hi k Hs). lia.
  - assert (Hfresh : contacts d1 !! ((lastID d1 + 1)%N : uuid) = None).
    { destruct (contacts d1 !! _) eqn:E; [|done]. specialize (Hi (lastID d1 + 1)%N ltac:(by rewrite E)). lia. }
    assert (Hfresh' : contacts d !! ((lastID d1 + 1)%N : uuid) = None).
    { destruct (contacts d !! ((lastID d1 + 1)%N : uuid)) eqn:E; [|done]. by rewrite (Hk _ _ E) in Hfresh. }
    assert (Hkeep : forall k c, contacts d1 !! k = Some c ->
      contacts (with_contacts <[(lastID d1 + 1)%N := new_contact (lastID d1 + 1)%N n]> d2) !! k = Some c).
    { intros k c Hc. simpl. rewrite lookup_insert_ne; [done|].
      intros <-. by rewrite Hc in Hfresh. }
    constructor; simpl in *.
    + intros k c Hc. by apply Hkeep, Hk.
    + intros k c. rewrite lookup_insert_Some. intros [[<- <-]|[_ Hc]].
      * right. split; [done|]. exists n. split; [apply elem_of_app; right; left|done].
      * destruct (Ho _ _ Hc) as [|(Hn & n' & Hn' & ->)]; [by left|right]. split; [done|]. exists n'.
        split; [apply elem_of_app; by left|done].
    + intros n' [Hn'|Hn'%list_elem_of_singleton]%elem_of_app.
      * eapply held_kept; [|by apply Ha]. intros k c Hc. by apply Hkeep.
      * subst n'. exists (lastID d1 + 1)%N, (new_contact (lastID d1 + 1)%N n). split; [apply lookup_insert_eq|done].
    + intros k Hs. apply lookup_insert_is_Some in Hs as [<-|[_ Hs]]; [lia|]. specialize (Hi k Hs). lia.
Qed.

(** ** What the rows are told *)

(** The contact a row with the number is told of. *)
Definition told_contact (rows : list ImportRow) (i : nat) (row : ImportRow) (d d' : DB) (out : RowResult) : Prop :=
  exists ct, contacts d' !! ContactID out = Some ct /\ ctCampaignID ct = id /\ ctNumber ct = num row /\
    match RStatus out with
    | RowImported => contacts d !! ContactID out = None /\ leads rows i row /\ ct = new_contact (ContactID out) (claim row)
    | RowDuplicate => contacts d !! ContactID out = Some ct \/ ~ leads rows i row
    | _ => False
    end.

(** What row [i] is told after an import that took the tables from [d] to [d']. *)
Definition told (rows : list ImportRow) (i : nat) (row : ImportRow) (d d' : DB) (out : RowResult) : Prop :=
  Index out = i /\ RNumber out = num row /\ Code out = (check row).1.2 /\
  match (check row).1.2 with
  | Some _ => RStatus out = RowRejected /\ Detail out = (check row).2
  | None => told_contact rows i row d d' out
  end.

(** The results of a batch that was stored. *)
Record stored_ok (batch : list NewContact) (d d' : DB) (stored : list Stored) : Prop := mkStoredOk {
  so_batch : stored_batch batch d d';
  so_told k n : batch !! k = Some n -> exists st, stored !! k = Some st /\ stored_as id d d' n = Some st
}.

Lemma stored_as_inv d d' n st : stored_as id d d' n = Some st ->
  exists c, contacts (if stIsNew st then d' else d) !! stID st = Some c /\ ctCampaignID c = id /\ ctNumber c = ncNumber n /\
    (stIsNew st = true -> ~ held (ncNumber n) d).
Proof.
  unfold stored_as. pose proof (contact_with_spec (ncNumber n) d) as H. destruct (contact_with id (ncNumber n) d) as [k|].
  - intros [= <-]. simpl. destruct H as (c & ? & ? & ?). by exists c.
  - pose proof (contact_with_spec (ncNumber n) d') as H'. destruct (contact_with id (ncNumber n) d') as [k|]; [|done].
    intros [= <-]. simpl. destruct H' as (c & ? & ? & ?). by exists c.
Qed.

Lemma stored_as_some batch d d' n : stored_batch batch d d' -> n ∈ batch -> is_Some (stored_as id d d' n).
Proof.
  intros H Hn. unfold stored_as. destruct (contact_with id (ncNumber n) d); [by eexists|].
  pose proof (contact_with_spec (ncNumber n) d') as H'. destruct (contact_with id (ncNumber n) d'); [by eexists|].
  exfalso. apply H'. by eapply sb_all.
Qed.

Lemma first_result_told rows s i row d d' stored : scanned rows s -> stored_ok (sBatch s) d d' stored -> rows !! i = Some row ->
  told rows i row d d' (tell s stored (first_result i row)).
Proof.
  intros H Hst Hi. unfold told, first_result. unfold num at 1. destruct (check row) as [[number code] detail] eqn:Hc.
  assert (Hus : usable row <-> code = None) by (unfold usable; by rewrite Hc). simpl.
  destruct code as [code|]; unfold tell; simpl.
  { destruct (sPos s !! i) as [k|] eqn:Hp; [|done]. apply (sc_pos _ _ H) in Hp as (r & Hr & Hu & _).
    rewrite Hi in Hr. injection Hr as <-. by apply Hus in Hu. }
  assert (Hu : usable row) by (by apply Hus). destruct (sc_covered _ _ H _ _ Hi Hu) as [k Hk].
  assert (Hp : sPos s !! i = Some k) by (apply (sc_pos _ _ H); by exists row). rewrite Hp. simpl.
  split; [done|]. split; [done|]. split; [done|].
  apply (sc_at _ _ H) in Hk as (n & Hb & Hn). destruct (so_told _ _ _ _ Hst _ _ Hb) as (st & Hs & Has). rewrite Hs. simpl.
  apply stored_as_inv in Has as (c & Hcc & Hcid & Hcn & Hnew). unfold told_contact. simpl.
  assert (Hc' : contacts d' !! stID st = Some c) by (destruct (stIsNew st); [done|by apply (sb_kept _ _ _ (so_batch _ _ _ _ Hst))]).
  exists c. split; [done|]. split; [done|]. split; [by rewrite Hcn|].
  destruct (bool_decide_reflect (i ∈ sFirst s)) as [Hf|Hf]; simpl.
  - destruct (stIsNew st); [|by left].
    apply (sc_first _ _ H) in Hf as (r & Hr & _ & Hl). rewrite Hi in Hr. injection Hr as <-.
    assert (Hnd : contacts d !! stID st = None).
    { destruct (contacts d !! stID st) as [c0|] eqn:E; [|done]. exfalso. apply Hnew; [done|].
      pose proof (sb_kept _ _ _ (so_batch _ _ _ _ Hst) _ _ E) as E'. rewrite Hc' in E'. injection E' as <-. by exists (stID st), c. }
    split; [done|]. split; [done|]. destruct (sb_only _ _ _ (so_batch _ _ _ _ Hst) _ _ Hc') as [E|(_ & n' & Hn' & ->)]; [congruence|].
    apply list_elem_of_lookup in Hn' as [k' Hk']. simpl in Hcn. destruct (batch_distinct _ _ _ _ _ _ H Hk' Hb Hcn).
    rewrite Hb in Hk'. injection Hk' as <-. destruct (sc_claim _ _ H _ _ Hb) as (j & r & Hr & Hur & Hlr & ->). simpl in Hn.
    destruct (Nat.lt_trichotomy i j) as [Hij|[<-|Hij]].
    + exfalso. by apply (Hlr i row Hij Hi Hu).
    + rewrite Hi in Hr. by injection Hr as <-.
    + exfalso. by apply (Hl j r Hij Hr Hur).
  - right. intros Hl. apply Hf, (sc_first _ _ H). by exists row.
Qed.

Lemma counts_add rows (out : list RowResult) d d' : length out = length rows ->
  (forall i row, rows !! i = Some row -> exists r, out !! i = Some r /\ told rows i row d d' r) ->
  count RowImported out + count RowDuplicate out + Z.of_nat (length (filter (fun row => ~ usable row) rows)) = Z.of_nat (length rows).
Proof.
  intros Hlen Hall.
  assert (H2 : Forall2 (fun row r => if decide (usable row) then RStatus r = RowImported \/ RStatus r = RowDuplicate else RStatus r = RowRejected) rows out).
  { apply Forall2_same_length_lookup_2; [done|]. intros i row r Hr Ho. destruct (Hall _ _ Hr) as (r' & Ho' & _ & _ & _ & Ht).
    rewrite Ho in Ho'. injection Ho' as <-. case_decide as Hu.
    - unfold usable in Hu. rewrite Hu in Ht. destruct Ht as (ct & _ & _ & _ & Ht). destruct (RStatus r); tauto.
    - unfold usable in Hu. destruct (check row).1.2; [tauto|done]. }
  clear Hall Hlen. unfold count. induction H2 as [|row r rows out Hr _ IH]; [done|].
  rewrite !filter_cons. simpl. case_decide as Hu.
  - rewrite (decide_False (P := ~ usable row)) by tauto. destruct Hr as [E|E]; rewrite E;
      repeat case_decide; simpl in *; try done; lia.
  - rewrite Hr. repeat case_decide; simpl in *; try done; lia.
Qed.

End scan.

Lemma ids_of_good d t : good d t -> forall k : uuid, is_Some (contacts d !! k) -> (k <= lastID d)%N.
Proof. intros [Hk _ _] k [c Hc]. by destruct (k_contact _ _ Hk _ _ Hc) as (_ & ? & _). Qed.

(** A batch that is not empty is stored, and every contact of it is told of. *)
Lemma import_batch id cam batch w : good (db w) (clk w) -> campaigns (db w) !! id = Some cam -> IsTerminal (cStatus cam) = false ->
  let armed := if decide (cStatus cam = StatusDraft) then None else Some (clk w) in
  exists d' stored, ImportContacts id batch (clk w) (db w) = (d', None) /\
    mapM (stored_as id (db w) d') batch = Some stored /\ stored_ok id armed batch (db w) d' stored.
Proof.
  intros Hg Hcam Ht armed. unfold ImportContacts. rewrite Hcam, Ht. fold armed.
  set (d' := fold_left (insert_contact id armed) batch (db w)).
  assert (Hsb : stored_batch id armed batch (db w) d') by (apply insert_stored; by eapply ids_of_good).
  assert (Hm : is_Some (mapM (stored_as id (db w) d') batch)).
  { apply mapM_is_Some_2, Forall_forall. intros n Hn. by eapply stored_as_some. }
  destruct Hm as [stored Hm]. exists d', stored. split; [done|]. split; [done|]. split; [done|].
  intros k n Hk. apply mapM_Some_1 in Hm. destruct (Forall2_lookup_l _ _ _ _ _ Hm Hk) as (st & ? & ?). by exists st.
Qed.

(** When nothing is usable every row is rejected. *)
Lemma nothing_usable country declared rows s : scanned country declared rows s -> sBatch s = [] ->
  forall i row, rows !! i = Some row -> ~ usable country declared row.
Proof.
  intros H Hb i row Hi Hu. destruct (sc_covered _ _ _ _ H _ _ Hi Hu) as [k Hk]. apply (sc_at _ _ _ _ H) in Hk as (c & Hc & _).
  by rewrite Hb in Hc.
Qed.

Lemma rejected_told country declared id armed rows i row d d' : ~ usable country declared row ->
  told country declared id armed rows i row d d' (first_result country declared i row).
Proof.
  unfold usable, told, first_result, num. destruct (checkRow row country declared) as [[number [code|]] detail]; simpl; [done|]. intros H. by destruct H.
Qed.

(** C28: An import tells every row the truth. When it is refused the tables are
    as they were. When it succeeds no contact that was there is touched; the
    counts add up to the rows; a rejected row is told the first check it
    fails; a usable row is told a contact of the campaign with its canonical
    number, which, when it is told IMPORTED, is a new one made of that very row
    (its slots cleaned, due at once unless the campaign is a DRAFT) and no
    usable row before it has the number, and which, when it is told DUPLICATE,
    was there before the import or belongs to an earlier row. *)
Theorem import_tells_the_truth (id : uuid) (rows : list ImportRow) (w w' : World) (r : res SvcError ImportResult)
    (Hg : good (db w) (clk w)) (H : Import id rows w = (w', r)) :
  match r with
  | Err _ => w' = w
  | Ok r => exists cam dd, campaigns (db w) !! id = Some cam /\ IsTerminal (cStatus cam) = false /\ DIDFlow_of (cDIDID cam) = Some dd /\
      let country := countryCode cam in let declared := UserDataNames (fSpec dd) in
      let armed := if decide (cStatus cam = StatusDraft) then None else Some (clk w) in
      (forall (k : uuid) ct, contacts (db w) !! k = Some ct -> contacts (db w') !! k = Some ct) /\
      length (Rows r) = length rows /\ Imported r + Duplicates r + Rejected r = Z.of_nat (length rows) /\
      Rejected r = Z.of_nat (length (filter (fun row => ~ usable country declared row) rows)) /\
      forall i row, rows !! i = Some row -> exists out, Rows r !! i = Some out /\
        told country declared id armed rows i row (db w) (db w') out
  end.
Proof.
  unfold Import in H. destruct (bool_decide (rows = [])); [by injection H as <- <-|].
  destruct (_ <? _); [by injection H as <- <-|]. unfold Get in H.
  destruct (campaigns (db w) !! id) as [cam|] eqn:Hcam; [|by injection H as <- <-].
  destruct (IsTerminal (cStatus cam)) eqn:Ht; [by injection H as <- <-|].
  destruct (DIDFlow_of (cDIDID cam)) as [dd|] eqn:Hdid; [|by injection H as <- <-].
  set (declared := UserDataNames (fSpec dd)) in *. set (s := scan_rows (countryCode cam) declared rows) in *.
  pose proof (scan_rows_scanned (countryCode cam) declared rows) as Hs. fold s in Hs.
  assert (Hrows : forall i row, rows !! i = Some row -> sRows s !! i = Some (first_result (countryCode cam) declared i row)).
  { intros i row Hi. by rewrite (sc_rows _ _ _ _ Hs), list_lookup_imap, Hi. }
  assert (Hlen : length (sRows s) = length rows) by (by rewrite (sc_rows _ _ _ _ Hs), length_imap).
  destruct (sBatch s) as [|n0 b] eqn:Hb.
  - injection H as <- <-. exists cam, dd. do 3 (split; [done|]). cbv zeta. fold declared. split; [done|]. simpl. split; [done|].
    pose proof (nothing_usable _ _ _ _ Hs Hb) as Hno. split; [|split; [apply Hs|]].
    + rewrite (sc_rejected _ _ _ _ Hs), filter_every; [lia|]. intros row [i Hi]%list_elem_of_lookup. by eapply Hno.
    + intros i row Hi. eexists. split; [by apply Hrows|]. by eapply rejected_told, Hno.
  - destruct (import_batch id cam (n0 :: b) w Hg Hcam Ht) as (d' & stored & E1 & E2 & Hst). rewrite E1, E2 in H.
    injection H as <- <-. exists cam, dd. do 3 (split; [done|]). cbv zeta. fold declared. rewrite <- Hb in Hst. simpl.
    assert (Hall : forall i row, rows !! i = Some row -> exists out, map (tell s stored) (sRows s) !! i = Some out /\
      told (countryCode cam) declared id (if decide (cStatus cam = StatusDraft) then None else Some (clk w)) rows i row (db w) d' out).
    { intros i row Hi. eexists. rewrite list_lookup_fmap, (Hrows _ _ Hi). split; [done|]. by apply first_result_told. }
    split; [apply (so_batch _ _ _ _ _ _ Hst)|]. split; [by rewrite length_map|]. split; [|split; [apply Hs|exact Hall]].
    rewrite (sc_rejected _ _ _ _ Hs). eapply counts_add; [by rewrite length_map|exact Hall].
Qed.

End import.

(** ** An import *)

Definition demo_rows : list ImportRow := [
  mkRow "070-000 00 01" "" ∅; mkRow "+46700000001" "UTC" ∅; mkRow "n/a" "" ∅; mkRow "0700000002" "Mars" ∅;
  mkRow "0700000003" "" (<["age"%string := "41"%string]> ∅)].

Lemma good_Create zones dids queues env n w : good (db w) (clk w) ->
  good (db (Create zones dids queues env n w).1) (clk (Create zones dids queues env n w).1).
Proof.
  intros H. unfold Create. destruct (validate zones dids env updatable (campaign_of n)) as [c|]; [|done].
  destruct (foreign_keys dids queues c); [done|]. by apply good_InsertCampaign.
Qed.

Lemma demo_draft_good : good (db demo_draft) (clk demo_draft).
Proof. apply good_Create, good_empty. Qed.

Lemma import_tells_the_truth_witness : exists w' r,
  Import demo_zones demo_dids demo_env 1 demo_rows demo_draft = (w', Ok r) /\
  map RStatus (Rows r) = [RowImported; RowDuplicate; RowRejected; RowRejected; RowRejected] /\
  map Code (Rows r) = [None; None; Some RowNumberInvalid; Some RowTimeZoneInvalid; Some RowSlotUnknown] /\
  Imported r + Duplicates r + Rejected r = 5.
Proof.
  assert (Hv : (fun r => (map RStatus (Rows r), map Code (Rows r))) <$> (Import demo_zones demo_dids demo_env 1 demo_rows demo_draft).2 =
    Ok ([RowImported; RowDuplicate; RowRejected; RowRejected; RowRejected],
        [None; None; Some RowNumberInvalid; Some RowTimeZoneInvalid; Some RowSlotUnknown])) by (vm_compute; reflexivity).
  destruct (Import demo_zones demo_dids demo_env 1 demo_rows demo_draft) as [w' r] eqn:E. simpl in Hv.
  pose proof (import_tells_the_truth demo_zones demo_dids demo_env 1 demo_rows demo_draft w' r demo_draft_good E) as H.
  destruct r as [r|]; [|discriminate Hv]. injection Hv as Hs Hc. destruct H as (cam & dd & _ & _ & _ & _ & _ & Hn & _).
  exists w', r. split; [reflexivity|]. split; [exact Hs|]. split; [exact Hc|exact Hn].
Defined.

End CampaignImport.
