(* ===== verification/Reporter.v ===== *)
(** * Campaign reports: [internal/campaign/reporter.go]

    The reporter turns "this campaign may have changed" into reports to the
    supervisors' screens. Its operations interleave: writers change campaigns
    and then touch the reporter, timers expire, a report is read from the
    tables and compared while others go on. The model is a machine with one
    operation per stretch of code between two lock operations; a report state
    is an object of its own ([heap]), because the map may drop it while a timer
    still holds it. *)

From S2P Require Import Prelude CampaignTypes CallWindow CampaignPolicy CampaignData.
Import CampaignTypes Window CampaignPolicy CampaignData.

Module Reporter.

(** [internal/campaign/reporter.go:const(ReportInterval)] *)
Definition ReportInterval : duration := second.

(** [internal/campaign/types.go:ContactCounts] *)
Record ContactCounts := mkCounts { Total : Z; Active : Z; Done : Z; Exhausted : Z; InvalidNumber : Z; DNC : Z }.

#[export] Instance ContactCounts_eq_dec : EqDecision ContactCounts.
Proof. solve_decision. Defined.

(** [internal/campaign/reporter.go:Snapshot] *)
Record Snapshot := mkSnapshot {
  snCampaignID : uuid;
  snStatus : Status;
  snPauseReason : option PauseReason;
  snActivity : option Activity;
  snNextDialAt : option instant;
  snInFlight : Z;
  snContacts : ContactCounts
}.

#[export] Instance Snapshot_eq_dec : EqDecision Snapshot.
Proof. solve_decision. Defined.

(** A campaign as [Service.Load] returns it: the row, the dialer's account of
    it and the counts of its contacts. *)
Record View := mkView { vCampaign : Campaign; vProgress : Progress; vCounts : ContactCounts }.

(** [internal/campaign/reporter.go:SnapshotOf] *)
Definition SnapshotOf (v : View) : Snapshot :=
  let c := vCampaign v in
  if bool_decide (cStatus c = StatusRunning) && bool_decide (is_Some (pActivity (vProgress v)))
  then mkSnapshot (cID c) (cStatus c) (cPauseReason c) (pActivity (vProgress v)) (pNextDialAt (vProgress v))
         (pInFlight (vProgress v)) (vCounts v)
  else mkSnapshot (cID c) (cStatus c) (cPauseReason c) None None 0 (vCounts v).

(** [internal/campaign/reporter.go:Snapshot.Equal] *)
Definition Equal (s o : Snapshot) : bool :=
  if negb (N.eqb (snCampaignID s) (snCampaignID o)) || negb (bool_decide (snStatus s = snStatus o)) ||
     negb (bool_decide (snPauseReason s = snPauseReason o)) || negb (bool_decide (snActivity s = snActivity o)) ||
     negb (snInFlight s =? snInFlight o) || negb (bool_decide (snContacts s = snContacts o)) then false
  else match snNextDialAt s, snNextDialAt o with
       | None, None => true
       | Some t, Some u => t =? u
       | _, _ => false
       end.

(** What the holder of a state's lock is doing: reading the campaign, or about
    to compare what it read. *)
Inductive Phase := Loading | Loaded (s : Snapshot).

(** [internal/campaign/reporter.go:reportState] with the closure's campaign,
    the time its timer expires, how many calls of [fire] wait for its lock and
    what the one that holds it does. [begins] are the times [fire] cleared
    [armed], newest first; the code keeps no such list. *)
Record State := mkState {
  rid : uuid;
  armed : bool;
  due : option instant;
  waiters : nat;
  holder : option Phase;
  last : option Snapshot;
  begins : list instant
}.

(** [internal/campaign/reporter.go:Reporter] and what surrounds it: the clock,
    the campaigns and the deleted ones, the campaigns that were changed by a
    writer that has yet to touch the reporter, the reports emitted, newest
    first, the campaigns a writer touched after [Close], and those a reading of
    which failed after it, when the reporter's own retry is refused. *)
Record World := mkWorld {
  now : instant;
  cur : gmap uuid View;
  dead : gset uuid;
  owed : list uuid;
  missed : gset uuid;
  unread : gset uuid;
  closed : bool;
  states : gmap uuid N;
  heap : gmap N State;
  fresh : N;
  emitted : list (instant * Snapshot)
}.

Definition set_state (p : N) (st : State) (w : World) : World :=
  mkWorld (now w) (cur w) (dead w) (owed w) (missed w) (unread w) (closed w) (states w) (<[p := st]> (heap w)) (fresh w) (emitted w).

Definition set_owed (l : list uuid) (w : World) : World :=
  mkWorld (now w) (cur w) (dead w) l (missed w) (unread w) (closed w) (states w) (heap w) (fresh w) (emitted w).

Definition set_missed (id : uuid) (w : World) : World :=
  mkWorld (now w) (cur w) (dead w) (owed w) ({[id]} ∪ missed w) (unread w) (closed w) (states w) (heap w) (fresh w) (emitted w).

(** [internal/campaign/reporter.go:L122-L126] The state of a campaign, made when there is none. *)
Definition state_of (id : uuid) (w : World) : N * State * World :=
  match states w !! id with
  | Some p => (p, default (mkState id false None 0 None None []) (heap w !! p), w)
  | None =>
      let st := mkState id false None 0 None None [] in
      (fresh w, st, mkWorld (now w) (cur w) (dead w) (owed w) (missed w) (unread w) (closed w) (<[id := fresh w]> (states w))
                      (<[fresh w := st]> (heap w)) (fresh w + 1) (emitted w))
  end.

Definition set_unread (id : uuid) (w : World) : World :=
  mkWorld (now w) (cur w) (dead w) (owed w) (missed w) ({[id]} ∪ unread w) (closed w) (states w) (heap w) (fresh w) (emitted w).

(** [internal/campaign/reporter.go:Reporter.Touch] [refused] keeps, for the
    proofs, whose touch a closed reporter refused. *)
Definition touch (refused : uuid -> World -> World) (id : uuid) (w : World) : World :=
  if closed w then refused id w
  else
    let '(p, st, w) := state_of id w in
    if armed st then w
    else set_state p (mkState (rid st) true (Some (now w + ReportInterval)) (waiters st) (holder st) (last st) (begins st)) w.

Definition Touch : uuid -> World -> World := touch set_missed.

(** The timer of a state expires, and its [fire] waits for the state's lock. *)
Definition Expire (p : N) (w : World) : World :=
  match heap w !! p with
  | Some st =>
      match due st with
      | Some t => if t <=? now w
                  then set_state p (mkState (rid st) (armed st) None (S (waiters st)) (holder st) (last st) (begins st)) w
                  else w
      | None => w
      end
  | None => w
  end.

(** [internal/campaign/reporter.go:L154-L158] A [fire] takes the state's lock and clears [armed]. *)
Definition Begin (p : N) (w : World) : World :=
  match heap w !! p with
  | Some (mkState id _ d (S n) None l bs) => set_state p (mkState id false d n (Some Loading) l (now w :: bs)) w
  | _ => w
  end.

(** The lock of a state is given back. *)
Definition unlock (st : State) : State := mkState (rid st) (armed st) (due st) (waiters st) None (last st) (begins st).

(** [internal/campaign/reporter.go:L160-L168] The campaign is read: it is found, it is gone and its state
    is dropped from the map, or ... *)
Definition LoadDone (p : N) (w : World) : World :=
  match heap w !! p with
  | Some (mkState id a d n (Some Loading) l bs) =>
      match cur w !! id with
      | Some v => set_state p (mkState id a d n (Some (Loaded (SnapshotOf v))) l bs) w
      | None =>
          let w := set_state p (mkState id a d n None l bs) w in
          mkWorld (now w) (cur w) (dead w) (owed w) (missed w) (unread w) (closed w) (delete id (states w)) (heap w) (fresh w) (emitted w)
      end
  | _ => w
  end.

(** [internal/campaign/reporter.go:L169-L173] ... the reading failed, and the campaign is touched again. *)
Definition LoadFailed (p : N) (w : World) : World :=
  match heap w !! p with
  | Some (mkState id a d n (Some Loading) l bs) => touch set_unread id (set_state p (mkState id a d n None l bs) w)
  | _ => w
  end.

(** [internal/campaign/reporter.go:L175-L180] What was read is compared with the last report, and reported. *)
Definition Report (p : N) (w : World) : World :=
  match heap w !! p with
  | Some (mkState id a d n (Some (Loaded snap)) l bs) =>
      if match l with Some s => Equal s snap | None => false end
      then set_state p (mkState id a d n None l bs) w
      else
        let w := set_state p (mkState id a d n None (Some snap) bs) w in
        mkWorld (now w) (cur w) (dead w) (owed w) (missed w) (unread w) (closed w) (states w) (heap w) (fresh w) ((now w, snap) :: emitted w)
  | _ => w
  end.

(** [internal/campaign/reporter.go:Reporter.Close] The windows still open are
    stopped and fired, in any order, which includes the code's one after the
    other. *)
Definition flush (open : bool) (st : State) : State :=
  if open && armed st
  then mkState (rid st) (armed st) None (S (waiters st)) (holder st) (last st) (begins st)
  else st.
Definition Close (w : World) : World :=
  mkWorld (now w) (cur w) (dead w) (owed w) (missed w) (unread w) true (states w)
    (map_imap (fun p st => Some (flush (bool_decide (states w !! rid st = Some p)) st)) (heap w)) (fresh w) (emitted w).

(** A writer stores a campaign, and will touch it; a DRAFT is deleted. *)
Definition Change (id : uuid) (v : View) (w : World) : World :=
  if bool_decide (id ∈ dead w) then w
  else mkWorld (now w) (<[id := v]> (cur w)) (dead w) (id :: owed w) (missed w) (unread w) (closed w) (states w) (heap w) (fresh w) (emitted w).
Definition Remove (id : uuid) (w : World) : World :=
  mkWorld (now w) (delete id (cur w)) ({[id]} ∪ dead w) (owed w) (missed w) (unread w) (closed w) (states w) (heap w) (fresh w) (emitted w).

(** One element less. *)
Fixpoint remove_one (id : uuid) (l : list uuid) : list uuid :=
  match l with
  | [] => []
  | x :: l => if N.eqb x id then l else x :: remove_one id l
  end.

(** Only campaigns that are or were stored are touched. *)
Definition Touches (id : uuid) (w : World) : World :=
  if bool_decide (is_Some (cur w !! id) \/ id ∈ dead w) then Touch id (set_owed (remove_one id (owed w)) w) else w.

Inductive Op :=
| OpTick (dt : duration)
| OpChange (id : uuid) (v : View) | OpRemove (id : uuid) | OpTouch (id : uuid)
| OpExpire (p : N) | OpBegin (p : N) | OpLoad (p : N) | OpLoadFails (p : N) | OpReport (p : N)
| OpClose.

Definition exec_op (w : World) (o : Op) : World :=
  match o with
  | OpTick dt => mkWorld (now w + dt) (cur w) (dead w) (owed w) (missed w) (unread w) (closed w) (states w) (heap w) (fresh w) (emitted w)
  | OpChange id v => Change id v w
  | OpRemove id => Remove id w
  | OpTouch id => Touches id w
  | OpExpire p => Expire p w
  | OpBegin p => Begin p w
  | OpLoad p => LoadDone p w
  | OpLoadFails p => LoadFailed p w
  | OpReport p => Report p w
  | OpClose => Close w
  end.

(** The clock does not go back, and a campaign's row carries its identifier. *)
Definition op_allowed (o : Op) : Prop :=
  match o with OpTick dt => 0 <= dt | OpChange id v => cID (vCampaign v) = id | _ => True end.

Definition start (t : instant) : World := mkWorld t ∅ ∅ [] ∅ ∅ false ∅ ∅ 0 [].

#[export] Instance reporter : Machine World Op := {
  initial w := exists t, w = start t;
  allowed := op_allowed;
  exec := exec_op
}.

(** ** The invariant *)

(** The last report of a campaign. *)
Definition last_report (id : uuid) (l : list (instant * Snapshot)) : option Snapshot :=
  snd <$> List.find (fun r => N.eqb (snCampaignID r.2) id) l.

(** A state made for a campaign that was gone already: it never reports. *)
Definition zombie (w : World) (st : State) : Prop :=
  rid st ∈ dead w /\ last st = None /\ match holder st with Some (Loaded _) => False | _ => True end.

(** The state will report [s] or has. *)
Definition covers (st : State) (s : Snapshot) : Prop :=
  armed st = true \/ (0 < waiters st)%nat \/
  match holder st with Some Loading => True | Some (Loaded s0) => s0 = s | None => last st = Some s end.

(** Every report differs from the campaign's report before it. *)
Fixpoint differ (l : list (instant * Snapshot)) : Prop :=
  match l with
  | [] => True
  | (_, s) :: l => (forall s', last_report (snCampaignID s) l = Some s' -> Equal s' s = false) /\ differ l
  end.

(** Times at least a window apart, newest first. *)
Fixpoint spaced (l : list instant) : Prop :=
  match l with
  | [] => True
  | t :: l => (forall u, head l = Some u -> u + ReportInterval <= t) /\ spaced l
  end.

(** What holds of a state on its own, at a time and before or after [Close]. *)
Record state_ok (t : instant) (cl : bool) (st : State) : Prop := mkStateOk {
  s_due u : due st = Some u -> armed st = true;
  s_armed : armed st = true -> is_Some (due st) \/ (0 < waiters st)%nat;
  s_loaded s : holder st = Some (Loaded s) -> snCampaignID s = rid st;
  s_wait : (0 < waiters st)%nat -> due st = None /\ (armed st = true \/ cl = true);
  s_one : cl = false -> (waiters st <= 1)%nat;
  s_spaced : cl = false -> spaced (begins st);
  s_past u : head (begins st) = Some u -> u <= t;
  s_next u v : head (begins st) = Some u -> due st = Some v -> u + ReportInterval <= v;
  s_ready u : cl = false -> head (begins st) = Some u -> (0 < waiters st)%nat -> u + ReportInterval <= t
}.

(** All of it, but that [ex] may be a campaign about to be touched. *)
Record good (ex : option uuid) (w : World) : Prop := mkGood {
  g_state p st : heap w !! p = Some st -> state_ok (now w) (closed w) st /\ (p < fresh w)%N /\ (is_Some (cur w !! rid st) \/ rid st ∈ dead w);
  g_ptr id p : states w !! id = Some p -> exists st, heap w !! p = Some st /\ rid st = id;
  g_live p st : heap w !! p = Some st -> rid st ∉ dead w -> states w !! rid st = Some p;
  g_dead id : id ∈ dead w -> cur w !! id = None;
  g_row id v : cur w !! id = Some v -> cID (vCampaign v) = id;
  g_cover id v : Some id <> ex -> cur w !! id = Some v -> id ∉ owed w -> id ∉ missed w -> id ∉ unread w ->
    exists p st, states w !! id = Some p /\ heap w !! p = Some st /\ covers st (SnapshotOf v);
  g_last p st : heap w !! p = Some st -> zombie w st \/ last st = last_report (rid st) (emitted w);
  g_one p p' st st' : heap w !! p = Some st -> heap w !! p' = Some st' -> rid st = rid st' -> p <> p' -> zombie w st \/ zombie w st';
  g_told id : is_Some (last_report id (emitted w)) -> id ∈ dead w \/ is_Some (states w !! id);
  g_differ : differ (emitted w)
}.

Lemma covers_holder st s : covers st s <-> armed st = true \/ (0 < waiters st)%nat \/
  match holder st with Some Loading => True | Some (Loaded s0) => s0 = s | None => last st = Some s end.
Proof. done. Qed.

(** *** One state replaced *)

Lemma good_set ex p st st' w : good ex w -> heap w !! p = Some st -> rid st' = rid st -> last st' = last st -> state_ok (now w) (closed w) st' ->
  (zombie w st -> zombie w st') ->
  (forall v, Some (rid st) <> ex -> cur w !! rid st = Some v -> rid st ∉ owed w -> rid st ∉ missed w -> rid st ∉ unread w ->
     covers st (SnapshotOf v) -> covers st' (SnapshotOf v)) ->
  good ex (set_state p st' w).
Proof.
  intros [Hs Hp Hl Hd Hr Hc Hlast Hone Htold Hdf] Hst Hrid Hlst Hok Hz Hcov. constructor; simpl; try done.
  - intros q sq. rewrite lookup_insert_Some. intros [[<- <-]|[_ Hq]]; [|by apply (Hs q)]. destruct (Hs _ _ Hst) as (_ & ? & ?).
    by rewrite Hrid.
  - intros id q Hq. destruct (Hp _ _ Hq) as (sq & Hsq & <-). destruct (decide (p = q)) as [<-|Hne].
    + exists st'. rewrite lookup_insert_eq. by simplify_eq.
    + exists sq. by rewrite lookup_insert_ne.
  - intros q sq. rewrite lookup_insert_Some. intros [[<- <-]|[_ Hq]]; [|by apply (Hl q)]. rewrite Hrid. by apply Hl.
  - intros id v Hx Hv Ho Hm Hu. destruct (Hc _ _ Hx Hv Ho Hm Hu) as (q & sq & Hq & Hsq & Hcv). destruct (decide (p = q)) as [<-|Hne].
    + exists p, st'. rewrite lookup_insert_eq. split; [done|]. split; [done|]. simplify_eq.
      destruct (Hp _ _ Hq) as (sq & Hsq' & <-). simplify_eq. by apply Hcov.
    + exists q, sq. by rewrite lookup_insert_ne.
  - intros q sq. rewrite lookup_insert_Some. intros [[<- <-]|[_ Hq]]; [|by apply (Hlast q)]. rewrite Hlst, Hrid.
    destruct (Hlast _ _ Hst) as [Hz'|]; [|by right]. left. by apply Hz.
  - intros q q' sq sq' Hq Hq'. rewrite lookup_insert_Some in Hq. rewrite lookup_insert_Some in Hq'.
    destruct Hq as [[<- <-]|[Hne Hq]], Hq' as [[<- <-]|[Hne' Hq']]; intros E Hd'; try done.
    + rewrite Hrid in E. destruct (Hone _ _ _ _ Hst Hq' E Hd'); [left; by apply Hz|by right].
    + rewrite Hrid in E. destruct (Hone _ _ _ _ Hq Hst E Hd'); [by left|right; by apply Hz].
    + by eapply Hone.
Qed.

(** *** The operations *)

(** A world that differs in what is owed and missed. *)
Lemma good_less ex ex' w owed' missed' unread' : good ex w ->
  (forall id, Some id <> ex' -> id ∉ owed' -> id ∉ missed' -> id ∉ unread' -> Some id <> ex /\ id ∉ owed w /\ id ∉ missed w /\ id ∉ unread w) ->
  good ex' (mkWorld (now w) (cur w) (dead w) owed' missed' unread' (closed w) (states w) (heap w) (fresh w) (emitted w)).
Proof.
  intros [Hs Hp Hl Hd Hr Hc Hlast Hone Htold Hdf] H. constructor; simpl; try done.
  intros id v Hx Hv Ho Hm Hu. destruct (H id Hx Ho Hm Hu) as (? & ? & ? & ?). by apply Hc.
Qed.

Lemma fresh_state_ok id t cl : state_ok t cl (mkState id false None 0 None None []).
Proof. constructor; simpl; try done; lia. Qed.

(** A state is made for a campaign that has none. *)
Lemma good_fresh ex id w : good ex w -> states w !! id = None -> (is_Some (cur w !! id) \/ id ∈ dead w) ->
  good ex (mkWorld (now w) (cur w) (dead w) (owed w) (missed w) (unread w) (closed w) (<[id := fresh w]> (states w))
          (<[fresh w := mkState id false None 0 None None []]> (heap w)) (fresh w + 1) (emitted w)).
Proof.
  intros [Hs Hp Hl Hd Hr Hc Hlast Hone Htold Hdf] Hno Hex.
  assert (Hf : heap w !! fresh w = None).
  { destruct (heap w !! fresh w) as [st|] eqn:E; [|done]. destruct (Hs _ _ E) as (_ & ? & _). lia. }
  (* a live campaign without a state has no state anywhere, and no report *)
  assert (Hnone : id ∉ dead w -> forall q sq, heap w !! q = Some sq -> rid sq <> id).
  { intros Hid q sq Hq E. rewrite <- E in Hid. pose proof (Hl _ _ Hq Hid) as H. rewrite E in H. congruence. }
  set (w' := mkWorld _ _ _ _ _ _ _ _ _ _ _).
  assert (Hnew : zombie w' (mkState id false None 0 None None []) \/ id ∉ dead w).
  { destruct (decide (id ∈ dead w)); [left; by repeat split|by right]. }
  constructor; simpl; try done.
  - intros q sq. rewrite lookup_insert_Some. intros [[<- <-]|[_ Hq]].
    + split; [apply fresh_state_ok|]. split; [lia|done].
    + destruct (Hs _ _ Hq) as (? & ? & ?). split; [done|]. split; [lia|done].
  - intros i q. rewrite lookup_insert_Some. intros [[<- <-]|[_ Hq]].
    + rewrite lookup_insert_eq. by eexists.
    + destruct (Hp _ _ Hq) as (sq & Hsq & <-). exists sq. rewrite lookup_insert_ne; [done|]. intros <-. congruence.
  - intros q sq. rewrite lookup_insert_Some. intros [[<- <-]|[_ Hq]] Hdd; simpl; [by rewrite lookup_insert_eq|].
    rewrite lookup_insert_ne; [by apply Hl|]. intros E. pose proof (Hl _ _ Hq Hdd) as H. by rewrite <- E, Hno in H.
  - intros i v Hx Hv Ho Hm Hu. destruct (Hc _ _ Hx Hv Ho Hm Hu) as (q & sq & Hq & Hsq & Hcv). exists q, sq.
    rewrite !lookup_insert_ne; [done|..]; intros <-; congruence.
  - intros q sq. rewrite lookup_insert_Some. intros [[<- <-]|[_ Hq]]; [|by apply (Hlast q)]. simpl.
    destruct Hnew as [|Hid]; [by left|]. right. destruct (last_report id (emitted w)) as [s|] eqn:El; [|done]. exfalso.
    destruct (Htold id) as [|[q Hq]]; [by rewrite El|done|congruence].
  - intros q q' sq sq'. rewrite !lookup_insert_Some. intros [[<- <-]|[_ Hq]] [[<- <-]|[_ Hq']] E Hne; simpl in *; try done.
    + destruct Hnew as [|Hid]; [by left|]. by edestruct Hnone.
    + destruct Hnew as [|Hid]; [by right|]. by edestruct Hnone.
    + by apply (Hone q q').
  - intros i Hi. destruct (Htold i Hi) as [|Hsm]; [by left|right]. apply lookup_insert_is_Some'. by right.
Qed.

(** A campaign whose window is open is covered. *)
Lemma good_full id w p st : good (Some id) w -> states w !! id = Some p -> heap w !! p = Some st -> armed st = true -> good None w.
Proof.
  intros [Hs Hp Hl Hd Hr Hc Hlast Hone Htold Hdf] Hq Hst Ha. constructor; try done.
  intros i v _ Hv Ho Hm Hu. destruct (decide (i = id)) as [->|Hne].
  - exists p, st. split; [done|]. split; [done|]. by left.
  - apply Hc; [congruence|done..].
Qed.

Lemma arm_ok t st : state_ok t false st -> armed st = false ->
  state_ok t false (mkState (rid st) true (Some (t + ReportInterval)) (waiters st) (holder st) (last st) (begins st)).
Proof.
  intros [H1 H2 H3 H4 H5 H6 H7 H8 H9] Ha.
  assert (Hw : waiters st = 0%nat). { destruct (waiters st) as [|n] eqn:E; [done|]. destruct (H4 ltac:(lia)) as [_ [|]]; congruence. }
  constructor; simpl; rewrite ?Hw; try done; try lia.
  - intros _. left. by eexists.
  - intros u v Hu [= <-]. specialize (H7 u Hu). lia.
Qed.

(** After the touch the campaign is covered. *)
Lemma good_touch refused id w : good (Some id) w -> (is_Some (cur w !! id) \/ id ∈ dead w) ->
  good None (refused id w) -> good None (touch refused id w).
Proof.
  intros Hg Hex Hr. unfold touch. destruct (closed w) eqn:Hcl; [done|].
  assert (Hst : exists p st w1, state_of id w = (p, st, w1) /\ good (Some id) w1 /\ heap w1 !! p = Some st /\ states w1 !! id = Some p /\ rid st = id /\ closed w1 = false).
  { unfold state_of. destruct (states w !! id) as [p|] eqn:Ep.
    - destruct (g_ptr _ _ Hg _ _ Ep) as (st & Hst & <-). exists p, st, w. by rewrite Hst.
    - do 3 eexists. split; [reflexivity|]. split; [by apply good_fresh|]. simpl. by rewrite !lookup_insert_eq. }
  destruct Hst as (p & st & w1 & -> & Hg1 & Hh & Hs & Hid & Hcl1). destruct (armed st) eqn:Ha; [by eapply good_full|].
  destruct (g_state _ _ Hg1 _ _ Hh) as (Hok & _ & _). rewrite Hcl1 in Hok.
  eapply (good_full id _ p); [|exact Hs|apply lookup_insert_eq|done]. eapply good_set; try done.
  - rewrite Hcl1. by apply arm_ok.
  - intros v _ _ _ _ _. by left.
Qed.

Lemma remove_one_other id x l : x ∉ remove_one id l -> x <> id -> x ∉ l.
Proof.
  induction l as [|y l IH]; simpl; [done|]. destruct (N.eqb_spec y id) as [->|Hne].
  - intros H Hx [->|H']%elem_of_cons; done.
  - intros H Hx [->|H']%elem_of_cons; [apply H; left|]. apply IH; [|done|done]. intros Hin. apply H. by right.
Qed.

Lemma good_Touches id w : good None w -> good None (Touches id w).
Proof.
  intros Hg. unfold Touches. destruct (bool_decide_reflect (is_Some (cur w !! id) \/ id ∈ dead w)) as [Hex|]; [|done].
  assert (Hg1 : good (Some id) (set_owed (remove_one id (owed w)) w)).
  { eapply good_less; [exact Hg|]. intros i Hi Ho Hm Hu. split; [done|]. split; [|done]. apply (remove_one_other id); [done|congruence]. }
  apply good_touch; [done|done|]. eapply good_less; [exact Hg1|]. intros i _ Ho Hm Hu. split; [intros [= ->]|]; set_solver.
Qed.

Lemma good_Expire p w : good None w -> good None (Expire p w).
Proof.
  intros Hg. unfold Expire. destruct (heap w !! p) as [st|] eqn:Hst; [|done]. destruct (due st) as [t|] eqn:Hd; [|done].
  destruct (Z.leb_spec t (now w)) as [Ht|]; [|done]. destruct (g_state _ _ Hg _ _ Hst) as ([H1 H2 H3 H4 H5 H6 H7 H8 H9] & _ & _).
  assert (Hw : waiters st = 0%nat). { destruct (waiters st) as [|n] eqn:E; [done|]. destruct (H4 ltac:(lia)). congruence. }
  eapply good_set; try done.
  - constructor; simpl; rewrite ?Hw; try done; try lia.
    + intros _. split; [done|]. left. by eapply H1.
    + intros u _ Hu _. specialize (H8 u t Hu Hd). lia.
  - intros v _ _ _ _ _. right. left. simpl. lia.
Qed.

Lemma good_begins p w : good None w -> good None (Begin p w).
Proof.
  intros Hg. unfold Begin. destruct (heap w !! p) as [[id a d [|n] [h|] l bs]|] eqn:Hst; try done.
  destruct (g_state _ _ Hg _ _ Hst) as ([H1 H2 H3 H4 H5 H6 H7 H8 H9] & _ & _). simpl in *.
  destruct (H4 ltac:(lia)) as [-> Ha]. eapply good_set; try done.
  - constructor; simpl; try done.
    + intros Hn. split; [done|]. right. destruct (closed w); [done|]. specialize (H5 eq_refl). lia.
    + intros Hc. specialize (H5 Hc). lia.
    + intros Hc. split; [|by apply H6]. intros u Hu. apply H9; [done..|lia].
    + by intros u [= <-].
    + intros u Hc _ Hn. specialize (H5 Hc). lia.
  - intros v _ _ _ _ _. right. right. done.
Qed.

Lemma good_release p w id a d n h l bs : good None w -> heap w !! p = Some (mkState id a d n h l bs) ->
  (forall v, cur w !! id = Some v -> id ∉ owed w -> id ∉ missed w -> id ∉ unread w -> covers (mkState id a d n h l bs) (SnapshotOf v) ->
     covers (mkState id a d n None l bs) (SnapshotOf v)) ->
  good None (set_state p (mkState id a d n None l bs) w).
Proof.
  intros Hg Hst Hc. destruct (g_state _ _ Hg _ _ Hst) as ([H1 H2 H3 H4 H5 H6 H7 H8 H9] & _ & _). simpl in *.
  eapply good_set; try done; [intros (? & ? & _); by repeat split|]. simpl. eauto.
Qed.

Lemma Equal_eq s o : Equal s o = true -> s = o.
Proof.
  unfold Equal. destruct (_ || _) eqn:E; [done|]. rewrite !orb_false_iff, !negb_false_iff in E.
  destruct E as [[[[[H1%N.eqb_eq H2%bool_decide_eq_true] H3%bool_decide_eq_true] H4%bool_decide_eq_true] H5%Z.eqb_eq] H6%bool_decide_eq_true].
  destruct s, o; simpl in *; subst. repeat case_match; simplify_eq; try done. by intros ->%Z.eqb_eq.
Qed.

Lemma Equal_refl s : Equal s s = true.
Proof.
  unfold Equal. rewrite N.eqb_refl, Z.eqb_refl, !bool_decide_eq_true_2 by done. simpl. case_match; [apply Z.eqb_refl|done].
Qed.

Lemma good_LoadDone p w : good None w -> good None (LoadDone p w).
Proof.
  intros Hg. unfold LoadDone. destruct (heap w !! p) as [[id a d n [[|]|] l bs]|] eqn:Hst; try done.
  destruct (g_state _ _ Hg _ _ Hst) as ([H1 H2 H3 H4 H5 H6 H7 H8 H9] & _ & Hex). simpl in *. destruct (cur w !! id) as [v|] eqn:Hv.
  - eapply good_set; try done.
    + constructor; simpl; try done. intros s [= <-]. rewrite <- (g_row _ _ Hg _ _ Hv). unfold SnapshotOf. by case_match.
    + intros (Hd & _). simpl in Hd. by rewrite (g_dead _ _ Hg _ Hd) in Hv.
    + simpl. intros v' _ Hv' _ _ _. right. right. simpl. congruence.
  - assert (Hd : id ∈ dead w) by (destruct Hex as [[? ?]|]; done).
    assert (Hg1 : good None (set_state p (mkState id a d n None l bs) w)).
    { eapply good_release; [done..|]. intros v Hv'. congruence. }
    destruct Hg1 as [Hs Hp Hl Hdd Hr Hc Hlast Hone Htold Hdf]. constructor; simpl in *; try done.
    + intros i q [_ Hq]%lookup_delete_Some. by apply Hp.
    + intros q sq Hq Hn. rewrite lookup_delete_ne by congruence. by apply (Hl q).
    + intros i v Hx Hv' Ho Hm Hu. destruct (Hc _ _ Hx Hv' Ho Hm Hu) as (q & sq & Hq & ? & ?). exists q, sq.
      rewrite lookup_delete_ne by congruence. done.
    + intros i Hi. destruct (decide (i = id)) as [->|]; [by left|]. rewrite lookup_delete_ne by done. by apply Htold.
Qed.

(** After a reading that failed the campaign is uncovered until it is touched. *)
Lemma good_LoadFailed p w : good None w -> good None (LoadFailed p w).
Proof.
  intros Hg. unfold LoadFailed. destruct (heap w !! p) as [[id a d n [[|]|] l bs]|] eqn:Hst; try done.
  destruct (g_state _ _ Hg _ _ Hst) as ([H1 H2 H3 H4 H5 H6 H7 H8 H9] & _ & Hex). simpl in *.
  assert (Hg1 : good (Some id) w) by (destruct Hg as [Hs Hp Hl Hd Hr Hc Hlast Hone Htold Hdf]; constructor; try done; intros i v _; by apply Hc).
  assert (Hg2 : good (Some id) (set_state p (mkState id a d n None l bs) w)) by (by eapply good_set).
  apply good_touch; [done|done|]. eapply good_less; [exact Hg2|]. intros i _ Ho Hm Hu. split; [intros [= ->]|]; set_solver.
Qed.

Lemma last_report_cons id t s l : last_report id ((t, s) :: l) = if N.eqb (snCampaignID s) id then Some s else last_report id l.
Proof. unfold last_report. simpl. by case_match. Qed.

(** What was read is reported. *)
Lemma good_emit p w id a d n snap l bs : good None w -> heap w !! p = Some (mkState id a d n (Some (Loaded snap)) l bs) ->
  (forall s, l = Some s -> Equal s snap = false) ->
  good None (mkWorld (now w) (cur w) (dead w) (owed w) (missed w) (unread w) (closed w) (states w)
               (<[p := mkState id a d n None (Some snap) bs]> (heap w)) (fresh w) ((now w, snap) :: emitted w)).
Proof.
  intros [Hs Hp Hl Hd Hr Hc Hlast Hone Htold Hdf] Hst Hne.
  destruct (Hs _ _ Hst) as ([H1 H2 H3 H4 H5 H6 H7 H8 H9] & Hlt & Hex). simpl in *. specialize (H3 _ eq_refl).
  assert (Hown : l = last_report id (emitted w)). { by destruct (Hlast _ _ Hst) as [(_ & _ & [])|]. }
  assert (Hoth : forall q sq, heap w !! q = Some sq -> rid sq = id -> p <> q -> zombie w sq).
  { intros q sq Hq E Hnq. by destruct (Hone _ _ _ _ Hst Hq (eq_sym E) Hnq) as [(_ & _ & [])|]. }
  constructor; simpl; try done.
  - intros q sq. rewrite lookup_insert_Some. intros [[<- <-]|[_ Hq]]; [|by apply (Hs q)]. split; [by constructor|done].
  - intros i q Hq. destruct (Hp _ _ Hq) as (sq & Hsq & <-). destruct (decide (p = q)) as [<-|Hnq].
    + rewrite lookup_insert_eq. eexists. split; [done|]. by simplify_eq.
    + exists sq. by rewrite lookup_insert_ne.
  - intros q sq. rewrite lookup_insert_Some. intros [[<- <-]|[_ Hq]]; [apply (Hl _ _ Hst)|by apply (Hl q)].
  - intros i v Hx Hv Ho Hm Hu. destruct (Hc _ _ Hx Hv Ho Hm Hu) as (q & sq & Hq & Hsq & Hcv). destruct (decide (p = q)) as [<-|Hnq].
    + exists p. rewrite lookup_insert_eq. eexists. split; [done|]. split; [done|]. simplify_eq.
      destruct Hcv as [|[|E]]; simpl in *; [by left|by right; left|right; right; simpl; by rewrite E].
    + exists q, sq. by rewrite lookup_insert_ne.
  - intros q sq. rewrite lookup_insert_Some, last_report_cons, H3. intros [[<- <-]|[Hnq Hq]]; simpl.
    + right. by rewrite N.eqb_refl.
    + destruct (N.eqb_spec id (rid sq)) as [E|]; [|by apply (Hlast q)]. left. by apply (Hoth q).
  - intros q q' sq sq'. rewrite !lookup_insert_Some. intros [[<- <-]|[? Hq]] [[<- <-]|[? Hq']] E Hnq; simpl in *; try done.
    + right. by apply (Hoth q').
    + left. by apply (Hoth q).
    + by apply (Hone q q').
  - intros i. rewrite last_report_cons, H3. destruct (N.eqb_spec id i) as [<-|]; [|apply Htold]. intros _.
    destruct (decide (id ∈ dead w)) as [|Hn]; [by left|right]. pose proof (Hl _ _ Hst Hn). simpl in *. by eexists.
  - split; [|done]. intros s. rewrite H3, <- Hown. apply Hne.
Qed.

Lemma good_Report p w : good None w -> good None (Report p w).
Proof.
  intros Hg. unfold Report. destruct (heap w !! p) as [[id a d n [[|snap]|] l bs]|] eqn:Hst; try done.
  destruct l as [s|]; [destruct (Equal s snap) eqn:E|].
  - eapply good_release; [done..|]. intros v _ _ _ _ [|[|Hc]]; simpl in *; [by left|by right; left|right; right; simpl].
    apply Equal_eq in E. congruence.
  - apply (good_emit p w id a d n snap (Some s) bs Hg Hst). by intros ? [= <-].
  - by apply (good_emit p w id a d n snap None bs Hg Hst).
Qed.

(** *** What surrounds the reporter *)

Lemma good_Change id v w : cID (vCampaign v) = id -> good None w -> good None (Change id v w).
Proof.
  intros Hid Hg. unfold Change. destruct (bool_decide_reflect (id ∈ dead w)) as [|Hnd]; [done|].
  destruct Hg as [Hs Hp Hl Hd Hr Hc Hlast Hone Htold Hdf]. constructor; simpl; try done.
  - intros p st Hst. destruct (Hs _ _ Hst) as (? & ? & Hex). split; [done|]. split; [done|].
    destruct Hex as [|]; [left; apply lookup_insert_is_Some'; by right|by right].
  - intros i Hi. rewrite lookup_insert_ne by congruence. by apply Hd.
  - intros i u [[<- <-]|[_ Hu]]%lookup_insert_Some; [done|by apply Hr].
  - intros i u Hx Hu Ho Hm Hun. rewrite lookup_insert_ne in Hu by set_solver. apply Hc; [done|done|set_solver|done..].
Qed.

Lemma good_Remove id w : good None w -> good None (Remove id w).
Proof.
  intros [Hs Hp Hl Hd Hr Hc Hlast Hone Htold Hdf].
  assert (Hz : forall st, zombie w st -> zombie (Remove id w) st) by (intros st (? & ? & ?); repeat split; [set_solver|done..]).
  constructor; simpl; try done.
  - intros p st Hst. destruct (Hs _ _ Hst) as (? & ? & Hex). split; [done|]. split; [done|].
    destruct (decide (rid st = id)) as [->|]; [right; set_solver|]. rewrite lookup_delete_ne by done. destruct Hex; [by left|right; set_solver].
  - intros p st Hst Hn. apply Hl; [done|set_solver].
  - intros i Hi. destruct (decide (i = id)) as [->|]; [apply lookup_delete_eq|]. rewrite lookup_delete_ne by done. apply Hd. set_solver.
  - intros i u [_ Hu]%lookup_delete_Some. by apply Hr.
  - intros i u Hx [_ Hu]%lookup_delete_Some. by apply Hc.
  - intros p st Hst. destruct (Hlast _ _ Hst); [left|right]; auto.
  - intros p q sp sq Hq Hq' E Hne. destruct (Hone _ _ _ _ Hq Hq' E Hne); [left|right]; auto.
  - intros i Hi. destruct (Htold i Hi); [left; set_solver|by right].
Qed.

Lemma good_Tick dt w : 0 <= dt -> good None w -> good None (exec_op w (OpTick dt)).
Proof.
  intros Hdt [Hs Hp Hl Hd Hr Hc Hlast Hone Htold Hdf]. constructor; simpl; try done.
  intros p st Hst. destruct (Hs _ _ Hst) as ([H1 H2 H3 H4 H5 H6 H7 H8 H9] & ? & ?). split; [|done]. constructor; try done.
  - intros u Hu. specialize (H7 u Hu). lia.
  - intros u Hcl Hu Hn. specialize (H9 u Hcl Hu Hn). lia.
Qed.

(** *** Closing *)

Lemma flush_ok t cl b st : state_ok t cl st -> state_ok t true (flush b st).
Proof.
  intros [H1 H2 H3 H4 H5 H6 H7 H8 H9]. unfold flush. destruct (b && armed st) eqn:E; constructor; simpl; try done.
  - intros _. right. lia.
  - intros _. split; [done|]. by right.
  - intros Hn. destruct (H4 Hn). split; [done|]. by right.
Qed.

Lemma flush_same b st : rid (flush b st) = rid st /\ last (flush b st) = last st /\ holder (flush b st) = holder st /\ armed (flush b st) = armed st.
Proof. unfold flush. by destruct (b && armed st). Qed.

Lemma flush_covers b st s : covers st s -> covers (flush b st) s.
Proof. unfold flush. destruct (b && armed st) eqn:E; [|done]. intros _. right. left. simpl. lia. Qed.

Lemma good_Close w : good None w -> good None (Close w).
Proof.
  intros [Hs Hp Hl Hd Hr Hc Hlast Hone Htold Hdf].
  assert (Hlk : forall p st, heap (Close w) !! p = Some st <-> exists s0, heap w !! p = Some s0 /\ st = flush (bool_decide (states w !! rid s0 = Some p)) s0).
  { intros p st. unfold Close. simpl. rewrite map_lookup_imap. destruct (heap w !! p) as [s0|]; simpl; [|naive_solver].
    split; [intros [= <-]; by eexists|]. by intros (? & [= <-] & ->). }
  assert (Hz : forall b st, zombie w st -> zombie (Close w) (flush b st)).
  { intros b st (? & ? & ?). destruct (flush_same b st) as (E1 & E2 & E3 & _). unfold zombie. by rewrite E1, E2, E3. }
  constructor; try done.
  - intros p st. rewrite Hlk. intros (s0 & H0 & ->). destruct (Hs _ _ H0) as (? & ? & ?). split; [by eapply flush_ok|]. split; [done|].
    by rewrite (proj1 (flush_same _ _)).
  - intros i p Hi. destruct (Hp _ _ Hi) as (s0 & H0 & <-). eexists. split; [apply Hlk; by eexists|]. apply flush_same.
  - intros p st. rewrite Hlk. intros (s0 & H0 & ->). rewrite (proj1 (flush_same _ _)). by apply Hl.
  - intros i v Hx Hv Ho Hm Hu. destruct (Hc _ _ Hx Hv Ho Hm Hu) as (p & s0 & Hi & H0 & Hcv). exists p. eexists. split; [done|].
    split; [apply Hlk; by eexists|]. by apply flush_covers.
  - intros p st. rewrite Hlk. intros (s0 & H0 & ->). destruct (Hlast _ _ H0) as [|E]; [left; by apply Hz|right].
    destruct (flush_same (bool_decide (states w !! rid s0 = Some p)) s0) as (-> & -> & _). done.
  - intros p q sp sq. rewrite !Hlk. intros (s0 & H0 & ->) (s1 & H1 & ->). rewrite !(proj1 (flush_same _ _)). intros E Hne.
    destruct (Hone _ _ _ _ H0 H1 E Hne); [left|right]; by apply Hz.
Qed.

#[export] Instance reporter_good : Invariant (good None).
Proof.
  split.
  - intros w [t ->]. constructor; simpl; try done; try set_solver.
    by intros id [? ?].
  - intros w [dt|id v|id|id|p|p|p|p|p|] Ha Hg; [by apply good_Tick|by apply good_Change|by apply good_Remove|by apply good_Touches|by apply good_Expire
     |by apply good_begins|by apply good_LoadDone|by apply good_LoadFailed|by apply good_Report|by apply good_Close].
Qed.

(** ** What the reports carry *)

(** Nothing of the campaign waits in the reporter. *)
Definition quiet (id : uuid) (w : World) : Prop :=
  forall p st, heap w !! p = Some st -> rid st = id -> armed st = false /\ waiters st = 0%nat /\ holder st = None.

(** C31: no change is lost. Once no writer has yet to touch the reporter for a
    campaign and nothing of the campaign waits in the reporter, its last report
    is what the tables hold, whatever the interleaving of writers, timers and
    readings was and whichever readings failed before [Close]. Left out are the
    campaigns a writer touched after [Close], and those a reading of which
    failed after it: the reporter's own retry is refused then, and the change is
    lost ([close_loses_a_change]). *)
Theorem no_change_lost w0 ops id v : initial w0 -> Forall allowed ops ->
  cur (reaches w0 ops) !! id = Some v -> id ∉ owed (reaches w0 ops) -> id ∉ missed (reaches w0 ops) -> id ∉ unread (reaches w0 ops) ->
  quiet id (reaches w0 ops) -> last_report id (emitted (reaches w0 ops)) = Some (SnapshotOf v).
Proof.
  intros H0 Ho Hv How Hm Hu Hq. pose proof (reaches_invariant (good None) _ _ H0 Ho) as Hg.
  destruct (g_cover _ _ Hg id v ltac:(done) Hv How Hm Hu) as (p & st & Hp & Hst & Hc).
  destruct (g_ptr _ _ Hg _ _ Hp) as (st' & Hst' & <-). simplify_eq. destruct (Hq _ _ Hst eq_refl) as (Ha & Hw & Hh).
  destruct Hc as [|[|Hl]]; [congruence|lia|]. rewrite Hh in Hl.
  destruct (g_last _ _ Hg _ _ Hst) as [(_ & Hz & _)|<-]; congruence.
Qed.

Lemma differ_split l1 t s l2 s' : differ (l1 ++ (t, s) :: l2) -> last_report (snCampaignID s) l2 = Some s' -> Equal s' s = false.
Proof. induction l1 as [|[t1 s1] l1 IH]; simpl; intros [H Hd]; [by apply H|by apply IH]. Qed.

(** a report says something new: it differs from the campaign's report
    before it in something that the supervisors watch. *)
Theorem reports_differ w0 ops l1 t s l2 s' : initial w0 -> Forall allowed ops ->
  emitted (reaches w0 ops) = l1 ++ (t, s) :: l2 -> last_report (snCampaignID s) l2 = Some s' -> s <> s'.
Proof.
  intros H0 Ho He Hl ->. pose proof (g_differ _ _ (reaches_invariant (good None) _ _ H0 Ho)) as Hd. rewrite He in Hd.
  pose proof (differ_split _ _ _ _ _ Hd Hl) as H. by rewrite Equal_refl in H.
Qed.

Lemma spaced_split l1 t u l2 : spaced (l1 ++ t :: u :: l2) -> u + ReportInterval <= t.
Proof. induction l1 as [|a l1 IH]; [intros [H _]; by apply H|]. intros [_ H]. by apply IH. Qed.

(** until [Close], the windows of a campaign close at least
    [ReportInterval] apart, and at most one of them waits for the one that is
    being read, so a burst of changes costs one reading a second. *)
Theorem windows_are_apart w0 ops p st : initial w0 -> Forall allowed ops ->
  heap (reaches w0 ops) !! p = Some st -> closed (reaches w0 ops) = false ->
  (waiters st <= 1)%nat /\ forall l1 t u l2, begins st = l1 ++ t :: u :: l2 -> u + ReportInterval <= t.
Proof.
  intros H0 Ho Hst Hcl. destruct (g_state _ _ (reaches_invariant (good None) _ _ H0 Ho) _ _ Hst) as (Hok & _ & _).
  split; [by eapply s_one|]. intros l1 t u l2 E. apply (spaced_split l1 t u l2). rewrite <- E. by eapply s_spaced.
Qed.

(** ** A change is reported *)

(** Steps the reporter makes of its own, and time passing. *)
Definition own_step (o : Op) : Prop :=
  match o with OpTick dt => 0 <= dt | OpExpire _ | OpBegin _ | OpLoad _ | OpReport _ => True | _ => False end.

Lemma own_allowed ops : Forall own_step ops -> Forall allowed ops.
Proof. intros H. eapply Forall_impl; [exact H|]. by intros []. Qed.

Definition delivered (id : uuid) (v : View) (w : World) : Prop :=
  exists ops, Forall own_step ops /\ last_report id (emitted (reaches w ops)) = Some (SnapshotOf v).

Lemma delivered_after o id v w : own_step o -> delivered id v (exec w o) -> delivered id v w.
Proof. intros Ho (ops & H & E). exists (o :: ops). split; [by constructor|done]. Qed.

Lemma delivered_now id v w p st : good None w -> heap w !! p = Some st -> rid st = id -> last st = Some (SnapshotOf v) ->
  delivered id v w.
Proof.
  intros Hg Hst <- Hl. exists []. split; [done|]. simpl. destruct (g_last _ _ Hg _ _ Hst) as [(_ & Hz & _)|<-]; congruence.
Qed.

Lemma deliver_loaded id v w p st : good None w -> heap w !! p = Some st -> rid st = id ->
  holder st = Some (Loaded (SnapshotOf v)) -> delivered id v w.
Proof.
  intros Hg Hst Hid Hh. apply (delivered_after (OpReport p)); [done|]. pose proof (good_Report p _ Hg) as Hg'. simpl.
  destruct st as [i a d n h l bs]. simpl in *. subst. unfold Report in *. rewrite Hst in *.
  destruct l as [s|]; [destruct (Equal s (SnapshotOf v)) eqn:E|].
  - apply Equal_eq in E as ->. by eapply delivered_now; [exact Hg'|apply lookup_insert_eq|..].
  - by eapply delivered_now; [exact Hg'|apply lookup_insert_eq|..].
  - by eapply delivered_now; [exact Hg'|apply lookup_insert_eq|..].
Qed.

Lemma deliver_loading id v w p st : good None w -> heap w !! p = Some st -> rid st = id -> cur w !! id = Some v ->
  holder st = Some Loading -> delivered id v w.
Proof.
  intros Hg Hst Hid Hv Hh. apply (delivered_after (OpLoad p)); [done|]. pose proof (good_LoadDone p _ Hg) as Hg'. simpl.
  destruct st as [i a d n h l bs]. simpl in *. subst. unfold LoadDone in *. rewrite Hst, Hv in *.
  by eapply deliver_loaded; [exact Hg'|apply lookup_insert_eq|..].
Qed.

Lemma deliver_waiting id v w p st : good None w -> heap w !! p = Some st -> rid st = id -> cur w !! id = Some v ->
  (0 < waiters st)%nat -> holder st = None -> delivered id v w.
Proof.
  intros Hg Hst Hid Hv Hw Hh. apply (delivered_after (OpBegin p)); [done|]. pose proof (good_begins p _ Hg) as Hg'. simpl.
  destruct st as [i a d [|n] h l bs]; simpl in *; [lia|]. subst. unfold Begin in *. rewrite Hst in *.
  by eapply deliver_loading; [exact Hg'|apply lookup_insert_eq|..].
Qed.

Lemma deliver_armed id v w p st : good None w -> heap w !! p = Some st -> rid st = id -> cur w !! id = Some v ->
  armed st = true -> holder st = None -> delivered id v w.
Proof.
  intros Hg Hst Hid Hv Ha Hh. destruct (g_state _ _ Hg _ _ Hst) as (Hok & _ & _).
  destruct (s_armed _ _ _ Hok Ha) as [[d Hd]|]; [|by eapply deliver_waiting].
  apply (delivered_after (OpTick (Z.max 0 (d - now w)))); [simpl; lia|].
  pose proof (good_Tick (Z.max 0 (d - now w)) _ ltac:(lia) Hg) as Hg1. pose proof (good_Expire p _ Hg1) as Hg2.
  apply (delivered_after (OpExpire p)); [done|]. simpl in *. unfold Expire in *. simpl in *. rewrite Hst, Hd in *.
  rewrite (proj2 (Z.leb_le d _)) in * by lia.
  by eapply deliver_waiting; [exact Hg2|apply lookup_insert_eq|simpl; try done; lia..].
Qed.

Lemma deliver_idle id v w p st : good None w -> heap w !! p = Some st -> rid st = id -> cur w !! id = Some v ->
  covers st (SnapshotOf v) -> holder st = None -> delivered id v w.
Proof.
  intros Hg Hst Hid Hv [Ha|[Hw|Hc]] Hh; [by eapply deliver_armed|by eapply deliver_waiting|].
  rewrite Hh in Hc. by eapply delivered_now.
Qed.

Lemma Report_releases p w st s : heap w !! p = Some st -> holder st = Some (Loaded s) ->
  exists st', heap (Report p w) !! p = Some st' /\ rid st' = rid st /\ armed st' = armed st /\ waiters st' = waiters st /\
    holder st' = None /\ last st' = Some s /\ cur (Report p w) = cur w.
Proof.
  intros Hst Hh. unfold Report. rewrite Hst. destruct st as [i a d n h l bs]. simpl in *. subst.
  destruct l as [s0|]; [destruct (Equal s0 s) eqn:E; [apply Equal_eq in E as ->|]|]; simpl; rewrite lookup_insert_eq; by eexists.
Qed.

(** from every state the reporter can be in, its own steps and the
    passing of time are enough for a campaign's present state to be the last
    one reported, unless a writer has yet to touch the reporter or did so
    after [Close], or a reading failed after it: no interleaving leaves a change that nothing will report. *)
Theorem change_can_be_reported w0 ops id v : initial w0 -> Forall allowed ops ->
  cur (reaches w0 ops) !! id = Some v -> id ∉ owed (reaches w0 ops) -> id ∉ missed (reaches w0 ops) -> id ∉ unread (reaches w0 ops) ->
  exists more, Forall own_step more /\ last_report id (emitted (reaches w0 (ops ++ more))) = Some (SnapshotOf v).
Proof.
  intros H0 Ho Hv How Hm Hu. pose proof (reaches_invariant (good None) _ _ H0 Ho) as Hg.
  destruct (g_cover _ _ Hg id v ltac:(done) Hv How Hm Hu) as (p & st & Hp & Hst & Hc).
  destruct (g_ptr _ _ Hg _ _ Hp) as (st' & Hst' & Hid). simplify_eq. setoid_rewrite reaches_app.
  change (delivered (rid st) v (reaches w0 ops)). destruct (holder st) as [[|s]|] eqn:Hh.
  - by eapply deliver_loading.
  - apply (delivered_after (OpReport p)); [done|].
    destruct (Report_releases p _ st s Hst Hh) as (st1 & Hst1 & Hr & Ha & Hw & Hh1 & Hl & Hcur).
    eapply (deliver_idle _ _ _ p st1); [by apply good_Report|exact Hst1|done|simpl; by rewrite Hcur|..|done].
    unfold covers in *. rewrite Ha, Hw, Hh1, Hl. rewrite Hh in Hc. destruct Hc as [| [| ->]]; auto.
  - by eapply deliver_idle.
Qed.

(** ** A run, and what it shows *)

Definition demo_view (s : Status) (active inflight : Z) : View :=
  mkView (mkCampaign 7 "Renewals" 9 "+4681234567" s None "UTC" (mkWindow [] []) "46" 5 30 DefaultRetryPolicy None None)
    (mkProgress (Some ActivityDialing) None inflight) (mkCounts 4 active 1 0 0 0).

Definition demo_ops : list Op :=
  [OpChange 7 (demo_view StatusRunning 3 1); OpTouch 7; OpTick second; OpExpire 0; OpBegin 0; OpLoadFails 0;
   OpTick second; OpChange 7 (demo_view StatusRunning 2 1); OpExpire 0; OpBegin 0; OpTouch 7; OpLoad 0; OpReport 0;
   OpChange 7 (demo_view StatusCompleted 0 0); OpTouch 7; OpTick second; OpExpire 0; OpBegin 0; OpLoad 0; OpReport 0].

#[local] Notation demo_world := (reaches (start 0) demo_ops).

Lemma demo_initial : initial (start 0).
Proof. by exists 0. Qed.

Lemma demo_run_allowed : Forall allowed demo_ops.
Proof. repeat constructor; done. Qed.

Lemma demo_world_is : cur demo_world !! (7 : uuid) = Some (demo_view StatusCompleted 0 0) /\ owed demo_world = [] /\ missed demo_world = ∅ /\ unread demo_world = ∅ /\
  closed demo_world = false /\
  heap demo_world = {[0%N := mkState 7 false None 0 None (Some (SnapshotOf (demo_view StatusCompleted 0 0))) [3 * second; 2 * second; second]]} /\
  emitted demo_world = [(3 * second, SnapshotOf (demo_view StatusCompleted 0 0)); (2 * second, SnapshotOf (demo_view StatusRunning 2 1))].
Proof.
  split; [vm_compute; reflexivity|]. split; [vm_compute; reflexivity|].
  do 2 (split; [apply (bool_decide_eq_true_1 _); vm_compute; reflexivity|]). split; [vm_compute; reflexivity|].
  split; [|vm_compute; reflexivity]. rewrite <- (list_to_map_to_list (heap demo_world)).
  replace (map_to_list (heap demo_world)) with
    [(0%N, mkState 7 false None 0 None (Some (SnapshotOf (demo_view StatusCompleted 0 0))) [3 * second; 2 * second; second])]
    by (vm_compute; reflexivity).
  reflexivity.
Qed.

Lemma no_change_lost_witness : last_report 7 (emitted demo_world) = Some (SnapshotOf (demo_view StatusCompleted 0 0)).
Proof.
  destruct demo_world_is as (Hv & Ho & Hm & Hu & _ & Hh & _).
  apply (no_change_lost (start 0) demo_ops 7 _ demo_initial demo_run_allowed Hv).
  - rewrite Ho. apply not_elem_of_nil.
  - rewrite Hm. apply not_elem_of_empty.
  - rewrite Hu. apply not_elem_of_empty.
  - intros p st. rewrite Hh. intros [_ <-]%lookup_singleton_Some _. by repeat split.
Defined.

Lemma reports_differ_witness : SnapshotOf (demo_view StatusCompleted 0 0) <> SnapshotOf (demo_view StatusRunning 2 1).
Proof.
  destruct demo_world_is as (_ & _ & _ & _ & _ & _ & He).
  eapply (reports_differ (start 0) demo_ops []); [apply demo_initial|apply demo_run_allowed|exact He|reflexivity].
Defined.

Lemma windows_are_apart_witness : 2 * second + ReportInterval <= 3 * second.
Proof.
  destruct demo_world_is as (_ & _ & _ & _ & Hc & Hh & _).
  eapply (windows_are_apart (start 0) demo_ops 0 _ demo_initial demo_run_allowed) with (l1 := []);
    [rewrite Hh; apply lookup_singleton_eq|exact Hc|reflexivity].
Defined.

(** After the first eleven operations a reading is under way, and the campaign was touched since. *)
#[local] Notation half_world := (reaches (start 0) (take 11 demo_ops)).

Lemma change_can_be_reported_witness : exists more, Forall own_step more /\
  last_report 7 (emitted (reaches (start 0) (take 11 demo_ops ++ more))) = Some (SnapshotOf (demo_view StatusRunning 2 1)).
Proof.
  assert (Hv : cur half_world !! (7 : uuid) = Some (demo_view StatusRunning 2 1)) by (vm_compute; reflexivity).
  assert (Ho : owed half_world = []) by (vm_compute; reflexivity).
  assert (Hm : missed half_world = ∅) by (apply (bool_decide_eq_true_1 _); vm_compute; reflexivity).
  assert (Hu : unread half_world = ∅) by (apply (bool_decide_eq_true_1 _); vm_compute; reflexivity).
  apply (change_can_be_reported (start 0) _ 7 _ demo_initial (Forall_take _ _ _ demo_run_allowed) Hv).
  - rewrite Ho. apply not_elem_of_nil.
  - rewrite Hm. apply not_elem_of_empty.
  - rewrite Hu. apply not_elem_of_empty.
Defined.

(** a report reflects the tables as they were when its window closed and
    may come late: when the reading is slow, two reports of a campaign are
    closer to each other than [ReportInterval]. *)
Theorem reports_can_be_close : exists ops t1 t2 s1 s2, Forall allowed ops /\
  closed (reaches (start 0) ops) = false /\ emitted (reaches (start 0) ops) = [(t2, s2); (t1, s1)] /\
  snCampaignID s1 = snCampaignID s2 /\ t2 - t1 < ReportInterval.
Proof.
  exists [OpChange 7 (demo_view StatusRunning 3 1); OpTouch 7; OpTick second; OpExpire 0; OpBegin 0; OpLoad 0;
     OpChange 7 (demo_view StatusCompleted 0 0); OpTouch 7; OpTick second; OpExpire 0; OpReport 0; OpBegin 0; OpLoad 0; OpReport 0].
  do 4 eexists. split; [repeat constructor; done|]. split; [reflexivity|]. split; [vm_compute; reflexivity|]. split; [reflexivity|vm_compute; reflexivity].
Qed.

(** a change that was touched before [Close] is lost when its reading fails
    after it: nothing of the campaign is left in the reporter, and its last
    report is an older state. *)
Theorem close_loses_a_change : exists ops v s, Forall allowed ops /\
  cur (reaches (start 0) ops) !! (7 : uuid) = Some v /\ owed (reaches (start 0) ops) = [] /\ missed (reaches (start 0) ops) = ∅ /\
  forallb (fun x => negb (armed x.2) && (waiters x.2 =? 0)%nat && bool_decide (holder x.2 = None)) (map_to_list (heap (reaches (start 0) ops))) = true /\
  last_report 7 (emitted (reaches (start 0) ops)) = Some s /\ Equal s (SnapshotOf v) = false.
Proof.
  exists [OpChange 7 (demo_view StatusRunning 3 1); OpTouch 7; OpTick second; OpExpire 0; OpBegin 0; OpLoad 0; OpReport 0;
     OpChange 7 (demo_view StatusCompleted 0 0); OpTouch 7; OpClose; OpBegin 0; OpLoadFails 0].
  do 2 eexists. split; [repeat constructor; done|]. split; [vm_compute; reflexivity|]. split; [vm_compute; reflexivity|].
  split; [apply (bool_decide_eq_true_1 _); vm_compute; reflexivity|]. split; [vm_compute; reflexivity|]. split; [vm_compute; reflexivity|vm_compute; reflexivity].
Qed.

End Reporter.
