(* ===== verification/URL.v ===== *)
(** * URLs: what the program uses of Go's [net/url]

    The escaping of a path, of one path segment and of a query component, the
    two forms of a path a [url.URL] keeps, and the encoding and reading of
    query parameters. The laws the callers rely on are proved here: what was
    escaped reads back, an escaped segment holds nothing that ends it, an
    encoded query is read as the parameters it was made of. *)

From S2P Require Import Prelude GoText.

Module URL.
Import GoText.

(** ** Bytes *)

Definition one_of (l : list Z) (c : ascii) : bool := existsb (Z.eqb (byteZ c)) l.

(** [strings.Cut] at a byte. *)
Fixpoint cut_at (b : ascii) (s : string) : option (string * string) :=
  match s with
  | EmptyString => None
  | String c s => if Ascii.eqb c b then Some (EmptyString, s)
                  else match cut_at b s with Some (x, y) => Some (String c x, y) | None => None end
  end.
Definition Cut (b : ascii) (s : string) : string * string := default (s, EmptyString) (cut_at b s).

(** [strings.Split] at a byte. *)
Fixpoint split (b : ascii) (s : string) : list string :=
  match s with
  | EmptyString => [EmptyString]
  | String c s => if Ascii.eqb c b then EmptyString :: split b s
                  else match split b s with x :: l => String c x :: l | [] => [] end
  end.

Fixpoint all_bytes (f : ascii -> bool) (s : string) : bool :=
  match s with EmptyString => true | String c s => f c && all_bytes f s end.

Definition slash : ascii := "/"%char.
Definition amp : ascii := "&"%char.
Definition eq_sign : ascii := "="%char.
Definition percent : ascii := "%"%char.
Definition plus : ascii := "+"%char.
Definition space : ascii := " "%char.

(** ** Escaping *)

Inductive Mode := EncPath | EncSegment | EncQuery.

(** The digits of [%XX]: [unhex] and [upperhex]. *)
Definition unhex (c : ascii) : option Z :=
  if in_range 48 57 c then Some (byteZ c - 48)
  else if in_range 97 102 c then Some (byteZ c - 87)
  else if in_range 65 70 c then Some (byteZ c - 55)
  else None.
Definition upperhex (n : Z) : ascii := byte_of (if n <? 10 then n + 48 else n + 55).

(** Letters, digits and [-_.~]. *)
Definition unreserved (c : ascii) : bool :=
  in_range 97 122 c || in_range 65 90 c || in_range 48 57 c || one_of [45; 95; 46; 126] c.

(** [$&+,/:;=?@] *)
Definition reserved (c : ascii) : bool := one_of [36; 38; 43; 44; 47; 58; 59; 61; 63; 64] c.

Definition shouldEscape (m : Mode) (c : ascii) : bool :=
  if unreserved c then false
  else if reserved c then
    match m with
    | EncPath => one_of [63] c
    | EncSegment => one_of [47; 59; 44; 63] c
    | EncQuery => true
    end
  else true.

Definition is_query (m : Mode) : bool := match m with EncQuery => true | _ => false end.

(** One byte as it is sent. *)
Definition escape_byte (m : Mode) (c : ascii) : string :=
  if is_query m && Ascii.eqb c space then "+"
  else if shouldEscape m c
       then String percent (String (upperhex (byteZ c / 16)) (String (upperhex (byteZ c mod 16)) EmptyString))
       else String c EmptyString.

(** [url.PathEscape] is [escape EncSegment], [url.QueryEscape] [escape EncQuery]. *)
Fixpoint escape (m : Mode) (s : string) : string :=
  match s with EmptyString => EmptyString | String c s => (escape_byte m c +:+ escape m s)%string end.

(** [url.PathUnescape] and [url.QueryUnescape]; [None] is the error. *)
Fixpoint unescape (m : Mode) (s : string) : option string :=
  match s with
  | EmptyString => Some EmptyString
  | String c s =>
      if Ascii.eqb c percent then
        match s with
        | String h (String l s) =>
            match unhex h, unhex l with
            | Some a, Some b => String (byte_of (16 * a + b)) <$> unescape m s
            | _, _ => None
            end
        | _ => None
        end
      else String (if is_query m && Ascii.eqb c plus then space else c) <$> unescape m s
  end.

(** ** The path of a URL *)

(** The fields of [url.URL] the program reads. *)
Record URL := mkURL {
  Scheme : string;
  User : option string;
  Host : string;
  UPath : string;
  RawPath : string;
  RawQuery : string;
  ForceQuery : bool;
  Fragment : string
}.

Definition empty_url : URL := mkURL "" None "" "" "" "" false "".

(** [!$&'()*+,;=:@[]%] and what need not be escaped. *)
Definition valid_path_byte (c : ascii) : bool :=
  one_of [33; 36; 38; 39; 40; 41; 42; 43; 44; 59; 61; 58; 64; 91; 93; 37] c || negb (shouldEscape EncPath c).
Definition validEncoded (s : string) : bool := all_bytes valid_path_byte s.

(** [URL.setPath]: the path, and the form it was written in when it is not the default one. *)
Definition setPath (p : string) : option (string * string) :=
  path ← unescape EncPath p;
  Some (path, if String.eqb p (escape EncPath path) then ""%string else p).

(** [URL.EscapedPath] *)
Definition escaped_path (path raw : string) : string :=
  if negb (String.eqb raw "") && validEncoded raw && bool_decide (unescape EncPath raw = Some path) then raw
  else if String.eqb path "*" then "%2A"%string else escape EncPath path.
Definition EscapedPath (u : URL) : string := escaped_path (UPath u) (RawPath u).

(** A byte below the space or DEL: [url.Parse] refuses it. *)
Definition ctl (c : ascii) : bool := (byteZ c <? 32) || (byteZ c =? 127).

(** The escaped path of [url.Parse("http://h/" + literal)] without its slash. *)
Definition parse_path (literal : string) : option string :=
  let '(u, frag) := Cut "#" literal in
  if negb (all_bytes (fun c => negb (ctl c)) u) then None
  else
    '(path, raw) ← setPath (String slash (fst (Cut "?" u)));
    _ ← unescape EncPath frag;
    Some (drop 1 (escaped_path path raw)).

(** The place of the last byte [b]: what is before it and what is from it on. *)
Fixpoint last_cut (b : ascii) (s : string) : option (string * string) :=
  match s with
  | EmptyString => None
  | String c r =>
      match last_cut b r with
      | Some (x, y) => Some (String c x, y)
      | None => if Ascii.eqb c b then Some (EmptyString, s) else None
      end
  end.

(** [URL.Hostname]: the port and the brackets of an IPv6 address removed. *)
Definition valid_port (s : string) : bool :=
  match s with String _ digits => all_digits digits | EmptyString => true end.
Fixpoint drop_last (s : string) : string :=
  match s with EmptyString => EmptyString | String _ EmptyString => EmptyString | String c s => String c (drop_last s) end.
Definition Hostname (u : URL) : string :=
  let h := match last_cut ":" (Host u) with
           | Some (before, port) => if valid_port port then before else Host u
           | None => Host u
           end in
  if has_prefix "[" h && has_prefix "]" (rev_string h) then drop_last (drop 1 h) else h.

(** ** Queries *)

(** [Values.Encode] of parameters with one value each, already in the order of their names. *)
Definition encode_pair (kv : string * string) : string := (escape EncQuery kv.1 +:+ "=" +:+ escape EncQuery kv.2)%string.
Fixpoint Encode (l : list (string * string)) : string :=
  match l with
  | [] => ""
  | [kv] => encode_pair kv
  | kv :: l => (encode_pair kv +:+ "&" +:+ Encode l)%string
  end.

(** [url.ParseQuery]: the parameters that could be read, in order, and whether all could. *)
Definition parse_pair (part : string) : list (string * string) * bool :=
  if has_byte ";" part then ([], false)
  else if String.eqb part "" then ([], true)
  else
    let '(key, value) := Cut eq_sign part in
    match unescape EncQuery key, unescape EncQuery value with
    | Some k, Some v => ([(k, v)], true)
    | _, _ => ([], false)
    end.
Definition parse_parts (parts : list string) : list (string * string) * bool :=
  fold_right (fun p acc => ((parse_pair p).1 ++ acc.1, (parse_pair p).2 && acc.2)) ([], true) parts.
Definition ParseQuery (query : string) : list (string * string) * bool := parse_parts (split amp query).

(** ** Laws *)

(** *** Bytes *)

Lemma all_bytes_app f a b : all_bytes f (a +:+ b)%string = all_bytes f a && all_bytes f b.
Proof. induction a as [|c a IH]; simpl; [done|]. by rewrite IH, andb_assoc. Qed.

Lemma all_bytes_impl (f g : ascii -> bool) s : (forall c, f c = true -> g c = true) -> all_bytes f s = true -> all_bytes g s = true.
Proof. intros H. induction s as [|c s IH]; simpl; [done|]. intros [Hc Hs]%andb_true_iff. by rewrite (H _ Hc), IH. Qed.

(** Every byte is one of 256: a property that computes is checked on all of them. *)
Fixpoint upto (n : nat) : list N := match n with O => [] | S n => N.of_nat n :: upto n end.
Definition every_ascii (f : ascii -> bool) : bool := forallb (fun n => f (ascii_of_N n)) (upto 256).

Lemma upto_in n k : (k < N.of_nat n)%N -> List.In k (upto n).
Proof.
  induction n as [|n IH]; [lia|]. intros H. simpl. destruct (N.eqb_spec (N.of_nat n) k) as [|Hne]; [by left|].
  right. apply IH. lia.
Qed.

Lemma every_ascii_all f : every_ascii f = true -> forall c, f c = true.
Proof.
  intros H c. unfold every_ascii in H. rewrite forallb_forall in H. rewrite <- (ascii_N_embedding c).
  apply H, upto_in. pose proof (N_ascii_bounded c). done.
Qed.

(** *** Splitting *)

Definition free (b : ascii) (s : string) : bool := all_bytes (fun c => negb (Ascii.eqb c b)) s.

Lemma split_free b s : free b s = true -> split b s = [s].
Proof.
  induction s as [|c s IH]; [done|]. unfold free. simpl. intros [Hc Hs]%andb_true_iff. apply negb_true_iff in Hc.
  rewrite Hc. by rewrite (IH Hs).
Qed.

Lemma split_app b x s : free b x = true -> split b (x +:+ String b s)%string = x :: split b s.
Proof.
  induction x as [|c x IH]; simpl; [by rewrite Ascii.eqb_refl|].
  unfold free. simpl. intros [Hc Hs]%andb_true_iff. apply negb_true_iff in Hc. rewrite Hc. by rewrite (IH Hs).
Qed.

Lemma split_nonnil b s : split b s <> [].
Proof. induction s as [|c s IH]; simpl; [done|]. destruct (Ascii.eqb c b); [done|]. by destruct (split b s). Qed.

(** Splitting two texts set one after the other joins the last part of the first and the first of the second. *)
Fixpoint glue (a b : list string) : list string :=
  match a with
  | [] => b
  | [x] => match b with y :: b => (x +:+ y)%string :: b | [] => [x] end
  | x :: a => x :: glue a b
  end.

Lemma split_concat b s t : split b (s +:+ t)%string = glue (split b s) (split b t).
Proof.
  induction s as [|c s IH]; simpl.
  { pose proof (split_nonnil b t). by destruct (split b t). }
  destruct (Ascii.eqb c b).
  - rewrite IH. pose proof (split_nonnil b s). by destruct (split b s).
  - rewrite IH. destruct (split b s) as [|x [|y l]] eqn:E; simpl; [by apply split_nonnil in E| |done].
    by destruct (split b t) eqn:Et; [by apply split_nonnil in Et|].
Qed.

Lemma cut_free b x s : free b x = true -> Cut b (x +:+ String b s)%string = (x, s).
Proof.
  intros H. enough (E : cut_at b (x +:+ String b s)%string = Some (x, s)) by (unfold Cut; by rewrite E).
  induction x as [|c x IH]; simpl; [by rewrite Ascii.eqb_refl|].
  unfold free in H. simpl in H. apply andb_true_iff in H as [Hc Hs]. apply negb_true_iff in Hc. by rewrite Hc, (IH Hs).
Qed.

(** *** Escaping *)

Lemma escape_byte_reads m c s : unescape m (escape_byte m c +:+ s)%string = String c <$> unescape m s.
Proof.
  pose proof (byteZ_range c) as Hr. unfold escape_byte. destruct (is_query m && Ascii.eqb c space) eqn:Hsp.
  { apply andb_true_iff in Hsp as [Hq ->%Ascii.eqb_eq]. simpl. by rewrite Hq. }
  destruct (shouldEscape m c) eqn:He; cbn [String.append unescape].
  - assert (Hx : forall n, 0 <= n < 16 -> unhex (upperhex n) = Some n).
    { intros n Hn. assert (forallb (fun k => bool_decide (unhex (upperhex k) = Some k)) (seqZ 0 16) = true) as Hall by reflexivity.
      rewrite forallb_forall in Hall. apply (bool_decide_eq_true_1 _). apply Hall, list_elem_of_In, elem_of_seqZ. lia. }
    assert (Hd : 0 <= byteZ c / 16 < 16) by (split; [apply Z.div_pos|apply Z.div_lt_upper_bound]; lia).
    rewrite !Hx by (exact Hd || (apply Z.mod_pos_bound; lia)).
    simpl. rewrite <- Z_div_mod_eq_full, byte_of_byteZ. done.
  - assert (Hp : Ascii.eqb c percent = false).
    { apply Ascii.eqb_neq. intros ->. destruct m; discriminate. }
    rewrite Hp. destruct (is_query m && Ascii.eqb c plus) eqn:Hpl; [|done].
    apply andb_true_iff in Hpl as [Hq ->%Ascii.eqb_eq]. destruct m; discriminate.
Qed.

(** What was escaped reads back. *)
Lemma unescape_escape m s : unescape m (escape m s) = Some s.
Proof. induction s as [|c s IH]; simpl; [done|]. by rewrite escape_byte_reads, IH. Qed.

(** A path is read one way, whether as a whole or a segment at a time. *)
Lemma unescape_path_segment s : unescape EncSegment s = unescape EncPath s.
Proof.
  induction s as [s IH] using (induction_ltof1 _ String.length). unfold ltof in IH. destruct s as [|c s]; [done|]. simpl.
  destruct (Ascii.eqb c percent).
  - destruct s as [|h [|l s]]; [done..|]. rewrite (IH s) by (simpl; lia). done.
  - rewrite (IH s) by (simpl; lia). done.
Qed.

Lemma unescape_app m a b x : unescape m a = Some x -> unescape m (a +:+ b)%string = String.append x <$> unescape m b.
Proof.
  revert x. induction a as [a IH] using (induction_ltof1 _ String.length). unfold ltof in IH. intros x.
  destruct a as [|c a]; simpl; [intros [= <-]; by destruct (unescape m b)|]. destruct (Ascii.eqb c percent).
  - destruct a as [|h [|l a]]; [done..|]. simpl. destruct (unhex h), (unhex l); try done.
    destruct (unescape m a) as [y|] eqn:E; intros [= <-]. rewrite (IH a ltac:(simpl; lia) y E). by destruct (unescape m b).
  - destruct (unescape m a) as [y|] eqn:E; intros [= <-]. rewrite (IH a ltac:(simpl; lia) y E). by destruct (unescape m b).
Qed.

(** The bytes an escaped text can hold. *)
Lemma escape_bytes m (f : ascii -> bool) s :
  every_ascii (fun c => all_bytes f (escape_byte m c)) = true -> all_bytes f (escape m s) = true.
Proof.
  intros H. induction s as [|c s IH]; simpl; [done|]. rewrite all_bytes_app, IH, andb_true_r. exact (every_ascii_all _ H c).
Qed.

(** An escaped segment does not end, nor does it start a query or a fragment. *)
Lemma segment_is_closed s : free slash (escape EncSegment s) = true.
Proof. apply escape_bytes. vm_compute. reflexivity. Qed.
Lemma segment_is_valid s : validEncoded (escape EncSegment s) = true.
Proof. apply escape_bytes. vm_compute. reflexivity. Qed.
Lemma path_is_valid s : validEncoded (escape EncPath s) = true.
Proof. apply escape_bytes. vm_compute. reflexivity. Qed.
Lemma query_is_closed s : free amp (escape EncQuery s) = true /\ free eq_sign (escape EncQuery s) = true /\ free ";" (escape EncQuery s) = true.
Proof. repeat split; apply escape_bytes; vm_compute; reflexivity. Qed.

Lemma escaped_path_valid path raw : validEncoded (escaped_path path raw) = true.
Proof.
  unfold escaped_path. destruct (_ && _ && _) eqn:E; [b2p; done|]. destruct (String.eqb path "*"); [reflexivity|apply path_is_valid].
Qed.

(** The escaped path reads as the path. *)
Lemma escaped_path_reads path raw : unescape EncPath (escaped_path path raw) = Some path.
Proof.
  unfold escaped_path. destruct (_ && _ && _) eqn:E; [by apply andb_true_iff in E as [_ ?%bool_decide_eq_true]|].
  destruct (String.eqb_spec path "*") as [->|]; [reflexivity|apply unescape_escape].
Qed.

(** *** Queries *)

Lemma parse_pair_encode kv : parse_pair (encode_pair kv) = ([kv], true).
Proof.
  destruct kv as [k v]. unfold parse_pair, encode_pair. cbn [fst snd].
  destruct (query_is_closed k) as (_ & Hk & Hks), (query_is_closed v) as (_ & _ & Hvs).
  assert (Hf : forall x, free ";" x = true -> has_byte ";" x = false).
  { induction x as [|c x IH]; [done|]. unfold free. simpl. intros [Hc Hx]%andb_true_iff. apply negb_true_iff in Hc. by rewrite Hc, IH. }
  rewrite Hf by (unfold free in *; rewrite !all_bytes_app, Hks, Hvs; done).
  change ("=" +:+ escape EncQuery v)%string with (String eq_sign (escape EncQuery v)).
  rewrite cut_free by done. rewrite !unescape_escape. by destruct (escape EncQuery k).
Qed.

Lemma encode_pair_closed kv : free amp (encode_pair kv) = true.
Proof.
  unfold encode_pair, free. rewrite !all_bytes_app. destruct (query_is_closed kv.1) as (H1 & _), (query_is_closed kv.2) as (H2 & _).
  unfold free in *. by rewrite H1, H2.
Qed.

Lemma parse_parts_app a b : parse_parts (a ++ b) = ((parse_parts a).1 ++ (parse_parts b).1, (parse_parts a).2 && (parse_parts b).2).
Proof. induction a as [|x a IH]; simpl; [by destruct (parse_parts b)|]. rewrite IH. simpl. by rewrite app_assoc, andb_assoc. Qed.

(** An encoded query is read as the parameters it was made of, and adds them to those written before it. *)
Lemma ParseQuery_Encode l : ParseQuery (Encode l) = (l, true).
Proof.
  unfold ParseQuery. induction l as [|kv l IH]; [reflexivity|]. destruct l as [|kv' l].
  - cbn [Encode]. rewrite split_free by apply encode_pair_closed. simpl. by rewrite parse_pair_encode.
  - change (Encode (kv :: kv' :: l)) with (encode_pair kv +:+ String amp (Encode (kv' :: l)))%string.
    rewrite split_app by apply encode_pair_closed. change (encode_pair kv :: split amp (Encode (kv' :: l))) with ([encode_pair kv] ++ split amp (Encode (kv' :: l))).
    rewrite parse_parts_app, IH. simpl. by rewrite parse_pair_encode.
Qed.

Lemma split_amp a b : split amp (a +:+ String amp b)%string = split amp a ++ split amp b.
Proof.
  induction a as [|c a IH]; simpl; [done|]. destruct (Ascii.eqb c amp); [by rewrite IH|].
  rewrite IH. pose proof (split_nonnil amp a). by destruct (split amp a).
Qed.

Lemma ParseQuery_app a b : ParseQuery (a +:+ String amp b)%string =
  ((ParseQuery a).1 ++ (ParseQuery b).1, (ParseQuery a).2 && (ParseQuery b).2).
Proof. unfold ParseQuery. by rewrite split_amp, parse_parts_app. Qed.

End URL.
