(* ===== verification/FlowHTTP.v ===== *)
(** * Flow tools over HTTP: [internal/flow/httptool.go], [httpspec.go],
    [secrets.go]

    A declarative tool is a template of a request and a way to read the
    answer. The values in a request come from the model, so each is escaped
    into the one path segment or the one query value it stands for; a
    credential is named in a header and comes from the deployment; of the
    answer only the mapped fields are read.

    JSON, the parsing of base URLs and [http.NewRequest]'s own checks are
    arguments of the sections that use them, as are the deployment's secrets
    and the transport. *)

From S2P Require Import Prelude GoText URL Float64 FlowPredicate FlowSpec FlowSlots FlowEngine FlowRuntime.

Module FlowHTTP.
Import GoText URL Float64 FlowPredicate FlowSpec FlowSlots FlowEngine FlowRuntime.

(** ** Secrets *)

(** [internal/flow/secrets.go:const(SecretEnvPrefix)] *)
Definition SecretEnvPrefix : string := "AICC_TOOL_SECRET_".

(** A run of the bytes that satisfy [f], and what follows. *)
Fixpoint run_of (f : ascii -> bool) (s : string) : string * string :=
  match s with
  | String c s' => if f c then let '(n, rest) := run_of f s' in (String c n, rest) else (EmptyString, s)
  | EmptyString => (EmptyString, EmptyString)
  end.

Definition secret_byte (c : ascii) : bool := in_range 65 90 c || in_range 48 57 c || (byteZ c =? 95).

(** [internal/flow/secrets.go:var(secretReference)] at the front of a text:
    its length and the name. *)
Definition secretReference (s : string) : option (nat * string) :=
  rest ← cut_prefix "{secrets." s;
  let '(n, rest) := run_of secret_byte rest in
  if negb (String.eqb n "") && has_prefix "}" rest then Some (9 + String.length n + 1, n)%nat else None.

(** [internal/flow/secrets.go:var(anySecretReference)] *)
Definition anySecretReference (s : string) : option (nat * unit) :=
  rest ← cut_prefix "{secrets." s;
  let '(n, rest) := run_of (fun c => negb (one_of [123; 125] c)) rest in
  Some (9 + String.length n + (if has_prefix "}" rest then 1 else 0), tt)%nat.

(** [internal/flow/secrets.go:SecretEnv] *)
Definition SecretEnv (name : string) : string := (SecretEnvPrefix +:+ name)%string.

(** [internal/flow/secrets.go:secretNames] *)
Definition secretNames (value : string) : list string := find_all secretReference 0 value.

(** [internal/flow/secrets.go:hasMalformedSecret] *)
Definition hasMalformedSecret (value : string) : bool :=
  negb (length (find_all anySecretReference 0 value) =? length (secretNames value))%nat.

(** [internal/flow/secrets.go:mentionsSecret] *)
Definition mentionsSecret (value : string) : bool := str_contains value "{secrets.".

(** [internal/flow/secrets.go:var(credentialWords)] *)
Definition credentialWords : list string := ["auth"; "cookie"; "token"; "key"; "secret"; "password"]%string.

(** [internal/flow/secrets.go:isCredentialHeader] [strings.ToLower] of a
    header name, which is ASCII where the name is one. *)
Definition isCredentialHeader (name : string) : bool := existsb (str_contains (ToLower name)) credentialWords.

(** A line break or a NUL. *)
Definition breaks_header (s : string) : bool := negb (all_bytes (fun c => negb (one_of [13; 10; 0] c)) s).

Section secrets.
Variable lookup : string -> option string.

(** What is wrong with the secret [name]; [None] when it can be sent. *)
Inductive SecretProblem := Unset (header var : string) | Unsendable (header var : string).
Definition secret_problem (header name : string) : option SecretProblem :=
  match lookup (SecretEnv name) with
  | None => Some (Unset header (SecretEnv name))
  | Some v => if String.eqb v "" then Some (Unset header (SecretEnv name))
              else if breaks_header v then Some (Unsendable header (SecretEnv name)) else None
  end.

(** [internal/flow/secrets.go:resolveSecrets] the first failure, or the value. *)
Definition resolveSecrets (header value : string) : res SecretProblem string :=
  match omap (secret_problem header) (secretNames value) with
  | p :: _ => Err p
  | [] => Ok (replace_all secretReference (fun name => default ""%string (lookup (SecretEnv name))) 0 value)
  end.

(** [internal/flow/secrets.go:MissingSecrets] the tool, the header and the name. *)
Definition MissingSecrets (spec : Spec) : list (string * string * string) :=
  flat_map (fun kv => match HTTP kv.2 with
    | None => []
    | Some h =>
        if String.eqb (Kind kv.2) ToolKindSlot then []
        else flat_map (fun hv => flat_map (fun name =>
               match lookup (SecretEnv name) with
               | Some v => if String.eqb v "" then [(kv.1, hv.1, name)] else []
               | None => [(kv.1, hv.1, name)]
               end) (secretNames hv.2)) (map_to_list (Headers h))
    end) (map_to_list (Tools spec)).

(** [internal/flow/secrets.go:RequireToolSecrets] *)
Definition RequireToolSecrets (spec : Spec) : bool := match MissingSecrets spec with [] => true | _ => false end.

End secrets.

(** ** The path and the query of a tool *)

(** [internal/flow/httpspec.go:urlParts] *)
Record urlParts := mkParts { path : string; rawQuery : string; isQueryForced : bool; query : gmap string string }.

Inductive PartsProblem := GivenTwice (key : string) | Unreadable | Repeated (key : string).

Definition sorted_keys {A} (m : gmap string A) : list string := sort_strings (map_to_list m).*1.

(** [templateReference.MatchString] *)
Definition has_reference (s : string) : bool := match find_all templateReference 0 s with [] => false | _ => true end.

(** [strings.FieldsFuncSeq] at [&] and [;]: the pieces that are not empty. *)
Definition pairs_of (s : string) : list string :=
  filter (fun p => p <> ""%string) (flat_map (split ";") (split amp s)).

(** [internal/flow/httpspec.go:L56-L61] the closure [conflict]. *)
Definition conflict (h : HTTPCall) (key : string) : list PartsProblem :=
  match Query h !! key with Some _ => [GivenTwice key] | None => [] end.

(** The values [url.ParseQuery] gives a key, in order. *)
Definition values_of (l : list (string * string)) (key : string) : list string :=
  map snd (filter (fun kv => kv.1 = key) l).

(** [internal/flow/httpspec.go:HTTPCall.urlParts] *)
Definition url_parts (h : HTTPCall) : urlParts * list PartsProblem :=
  let p := fst (Cut "#" (Path h)) in
  match cut_at "?" p with
  | None => (mkParts p "" false (Query h), [])
  | Some (p, literalQuery) =>
      if String.eqb literalQuery "" then (mkParts p "" true (Query h), [])
      else if negb (has_reference literalQuery) then
        (mkParts p literalQuery false (Query h),
         flat_map (fun pair => let key := fst (Cut eq_sign pair) in conflict h (default key (unescape EncQuery key))) (pairs_of literalQuery))
      else
        let '(values, isRead) := ParseQuery literalQuery in
        if negb isRead then (mkParts p "" false (Query h), [Unreadable])
        else
          let keys := sort_strings (remove_dups values.*1) in
          (mkParts p "" false (list_to_map (map (fun key => (key, default ""%string (head (values_of values key)))) keys) ∪ Query h),
           flat_map (fun key => (if (1 <? length (values_of values key))%nat then [Repeated key] else []) ++ conflict h key) keys)
  end.

(** [internal/flow/httpspec.go:escapeLiteralPath] [None] is the error. *)
Definition escapeLiteralPath (literal : string) : option string :=
  if String.eqb literal "" then Some ""%string else parse_path literal.

(** A text cut at its references: what is before the first, and each with what
    follows it up to the next. *)
Fixpoint split_all {A} (found : string -> option (nat * A)) (skip : nat) (s : string) : string * list (A * string) :=
  match s with
  | EmptyString => (EmptyString, [])
  | String c s' =>
      match skip with
      | S k => split_all found k s'
      | O => match found s with
             | Some (w, x) => let '(l, rest) := split_all found (w - 1) s' in (EmptyString, (x, l) :: rest)
             | None => let '(l, rest) := split_all found 0 s' in (String c l, rest)
             end
      end
  end.

(** The literal stretches ([templateReference.Split]). *)
Definition literals (template : string) : list string :=
  let '(l, rest) := split_all templateReference 0 template in l :: rest.*2.

(** ** What the loader refuses *)

(** [internal/flow/httpspec.go:var(headerName)] *)
Definition header_byte (c : ascii) : bool := one_of [33; 35; 36; 37; 38; 39; 42; 43; 45; 46; 94; 95; 96; 124; 126] c || letter c || in_range 48 57 c.
Definition headerName (s : string) : bool := negb (String.eqb s "") && all_bytes header_byte s.

(** [internal/flow/httpspec.go:var(reservedHeaders)] *)
Definition reservedHeaders : list string :=
  ["host"; "content-length"; "transfer-encoding"; "connection"; "te"; "upgrade"; "trailer"; "keep-alive"]%string.

Inductive BaseProblem := BaseTemplate | BaseNotURL | BaseNotAbsolute | BaseNoHost | BaseUser | BaseQuery | BaseFragment.

Inductive HTTPProblem :=
| BadBase (why : BaseProblem) | BadTimeout | BadParts (p : PartsProblem)
| PathNotAbsolute | PathSecret | PathNotURL | PathArg (arg : string) | PathOptionalArg (arg : string) | PathSlot (slot : string)
| QueryNoName | QuerySecret (param : string) | QueryArg (param arg : string) | QuerySlot (param slot : string)
| HeaderName (header : string) | HeaderReserved (header : string) | HeaderTwice (header other : string) | HeaderBreak (header : string)
| HeaderTemplate (header : string) | HeaderMalformedSecret (header : string) | HeaderLiteralCredential (header : string)
| ModelOnlyNoName | ModelOnlyReserved (field : string) | ModelOnlyClash (field : string) | ModelOnlyNoPath (field : string)
| ModelOnlyNoEach (field : string) | ModelOnlyInnerNoName (field : string) | ModelOnlyInnerNoPath (field inner : string)
| BodySecret | CollectSecret.

Definition bad (b : bool) (p : HTTPProblem) : list HTTPProblem := if b then [p] else [].

(** [internal/flow/httpspec.go:bodyMentionsSecret] *)
Fixpoint bodyMentionsSecret (v : Value) : bool :=
  match v with
  | VStr x => mentionsSecret x
  | VMap m => existsb (fun kv => mentionsSecret kv.1 || bodyMentionsSecret kv.2) m
  | VList l => existsb bodyMentionsSecret l
  | _ => false
  end.

(** [internal/flow/httpspec.go:validateModelOnly] *)
Definition validateModelOnly (call : HTTPCall) : list HTTPProblem :=
  flat_map (fun field =>
    match ModelOnlyFields call !! field with
    | None => []
    | Some m =>
        (if String.eqb (TrimSpace field) "" then [ModelOnlyNoName]
         else bad (contains ["ok"; "error"; "hint"]%string field) (ModelOnlyReserved field)) ++
        bad (bool_decide (is_Some (ResultPaths call !! field))) (ModelOnlyClash field) ++
        bad (String.eqb (TrimSpace (MPath m)) "") (ModelOnlyNoPath field) ++
        (if negb (IsProjection m) then []
         else bad (bool_decide (MEach m = ∅)) (ModelOnlyNoEach field) ++
              flat_map (fun inner => bad (String.eqb (TrimSpace inner) "") (ModelOnlyInnerNoName field) ++
                                     bad (String.eqb (TrimSpace (default ""%string (MEach m !! inner))) "") (ModelOnlyInnerNoPath field inner))
                (sorted_keys (MEach m)))
    end) (sorted_keys (ModelOnlyFields call)).

(** [internal/flow/httpspec.go:L193-L219] the loop over the headers, with the
    lower-case names seen so far. *)
Fixpoint validate_headers (headers seen : gmap string string) (names : list string) : list HTTPProblem :=
  match names with
  | [] => []
  | header :: rest =>
      let value := default ""%string (headers !! header) in
      let lower := ToLower header in
      (if negb (headerName header) then [HeaderName header] else bad (contains reservedHeaders lower) (HeaderReserved header)) ++
      (match seen !! lower with Some other => [HeaderTwice header other] | None => [] end) ++
      bad (breaks_header value) (HeaderBreak header) ++
      bad (has_reference value) (HeaderTemplate header) ++
      bad (hasMalformedSecret value) (HeaderMalformedSecret header) ++
      bad (isCredentialHeader header && match secretNames value with [] => true | _ => false end) (HeaderLiteralCredential header) ++
      validate_headers headers (<[lower := header]> seen) rest
  end.

Section spec.
Variable Parse : string -> option URL.

(** [internal/flow/httpspec.go:baseURLProblem] *)
Definition baseURLProblem (raw : string) : option BaseProblem :=
  if mentionsSecret raw || has_reference raw then Some BaseTemplate
  else match Parse raw with
  | None => Some BaseNotURL
  | Some u =>
      if negb (String.eqb (Scheme u) "http") && negb (String.eqb (Scheme u) "https") then Some BaseNotAbsolute
      else if String.eqb (Host u) "" || String.eqb (Hostname u) "" then Some BaseNoHost
      else if bool_decide (is_Some (User u)) then Some BaseUser
      else if negb (String.eqb (RawQuery u) "") || ForceQuery u then Some BaseQuery
      else if negb (String.eqb (Fragment u) "") then Some BaseFragment
      else None
  end.

(** [internal/flow/httptool.go:deploymentBase] *)
Definition deploymentBase (raw : string) : option URL :=
  u ← Parse raw;
  if negb (String.eqb (Scheme u) "http") && negb (String.eqb (Scheme u) "https") then None
  else if String.eqb (Hostname u) "" then None
  else if negb (String.eqb (RawQuery u) "") || negb (String.eqb (Fragment u) "") then None
  else Some u.

(** What is wrong with one reference of the path, and of a query parameter. *)
Definition path_reference (s : Spec) (tool : Tool) (m : string * string) : list HTTPProblem :=
  if String.eqb m.1 "args" && negb (contains (toolArgNames tool) m.2) then [PathArg m.2]
  else if String.eqb m.1 "args" && negb (contains (Required tool) m.2) then [PathOptionalArg m.2]
  else bad (String.eqb m.1 "slots" && negb (has s m.2)) (PathSlot m.2).
Definition query_reference (s : Spec) (tool : Tool) (param : string) (m : string * string) : list HTTPProblem :=
  if String.eqb m.1 "args" && negb (contains (toolArgNames tool) m.2) then [QueryArg param m.2]
  else bad (String.eqb m.1 "slots" && negb (has s m.2)) (QuerySlot param m.2).

(** [internal/flow/httpspec.go:validateHTTPCall] *)
Definition validateHTTPCall (s : Spec) (tool : Tool) (call : HTTPCall) : list HTTPProblem :=
  (if String.eqb (BaseURL call) "" then [] else match baseURLProblem (BaseURL call) with Some why => [BadBase why] | None => [] end) ++
  (match TimeoutMs call with Some t => bad ((t <? MinToolTimeoutMs) || (MaxToolTimeoutMs <? t)) BadTimeout | None => [] end) ++
  (let '(parts, problems) := url_parts call in
   map BadParts problems ++
   (if String.eqb (Path call) "" then []
    else bad (negb (has_prefix "/" (Path call))) PathNotAbsolute ++
         bad (mentionsSecret (Path call)) PathSecret ++
         bad (existsb (fun l => bool_decide (escapeLiteralPath l = None)) (literals (path parts))) PathNotURL ++
         flat_map (path_reference s tool) (find_all templateReference 0 (path parts))) ++
   flat_map (fun param =>
     let value := default ""%string (query parts !! param) in
     bad (String.eqb (TrimSpace param) "") QueryNoName ++ bad (mentionsSecret value) (QuerySecret param) ++
     flat_map (query_reference s tool param) (find_all templateReference 0 value)) (sorted_keys (query parts))) ++
  validate_headers (Headers call) ∅ (sorted_keys (Headers call)) ++
  validateModelOnly call ++
  bad (bodyMentionsSecret (VMap (default [] (Body call)))) BodySecret ++
  bad (match TCollect tool with Some c => mentionsSecret (CTemplate c) | None => false end) CollectSecret.

(** [internal/flow/load.go:L240-L249] every tool that is sent. *)
Definition http_accepted (s : Spec) : bool :=
  forallb (fun kv => match HTTP kv.2 with
                     | Some call => String.eqb (Kind kv.2) ToolKindSlot || match validateHTTPCall s kv.2 call with [] => true | _ => false end
                     | None => true end) (map_to_list (Tools s)).
End spec.

(** ** Rendering a request *)

Section call.
Variable ParseFloat : string -> option f64.
Variable FormatFloat : f64 -> string.
Variable Sprint : Value -> string.

Notation asString := (asString FormatFloat Sprint).
Notation renderString := (renderString FormatFloat Sprint).
Notation renderValue := (renderValue FormatFloat Sprint).

Inductive ValueProblem := NotSingle | IsEmptyText | IsDots.

(** A refusal the model reads: it names the reference and never the value. *)
Inductive RenderError := PathInvalid | PathValue (m : string * string) (why : ValueProblem) | QueryValue (m : string * string) (param : string).

Definition is_collection (v : Value) : bool := match v with VList _ | VMap _ => true | _ => false end.

(** [internal/flow/httpspec.go:pathValue] *)
Definition pathValue (value : Value) : res ValueProblem string :=
  if is_collection value then Err NotSingle
  else
    let text := asString value in
    if String.eqb text "" then Err IsEmptyText
    else if String.eqb text "." || String.eqb text ".." then Err IsDots
    else Ok text.

Section render.
Variable args slots : gmap string Value.

Definition escape_literal (l : string) : res RenderError string :=
  match escapeLiteralPath l with Some x => Ok x | None => Err PathInvalid end.

(** [internal/flow/httpspec.go:L324-L337] the loop over the references, each
    with the literal stretch after it. *)
Fixpoint render_refs (refs : list ((string * string) * string)) : res RenderError string :=
  match refs with
  | [] => Ok ""%string
  | (m, l) :: rest =>
      match pathValue (resolveReference args slots m) with
      | Err why => Err (PathValue m why)
      | Ok text => l ← escape_literal l; out ← render_refs rest; Ok (escape EncSegment text +:+ l +:+ out)%string
      end
  end.

(** [internal/flow/httpspec.go:renderPath] *)
Definition renderPath (template : string) : res RenderError string :=
  let '(l, refs) := split_all templateReference 0 template in
  l ← escape_literal l; out ← render_refs refs; Ok (l +:+ out)%string.

(** [internal/flow/httpspec.go:L364-L375] one parameter: refused, left out or
    rendered. *)
Definition render_param (param template : string) : res RenderError (option string) :=
  let refs := find_all templateReference 0 template in
  match List.find (fun m => is_collection (resolveReference args slots m)) refs with
  | Some m => Err (QueryValue m param)
  | None =>
      if existsb (fun m => String.eqb m.1 "args" && is_nil (resolveReference args slots m)) refs then Ok None
      else Ok (Some (asString (renderString template args slots)))
  end.

(** [internal/flow/httpspec.go:renderQuery] the parameters in the order of
    their names, one value each. *)
Fixpoint render_params (q : gmap string string) (params : list string) : res RenderError (list (string * string)) :=
  match params with
  | [] => Ok []
  | param :: rest =>
      text ← render_param param (default ""%string (q !! param));
      values ← render_params q rest;
      Ok (match text with Some text => (param, text) :: values | None => values end)
  end.
Definition renderQuery (q : gmap string string) : res RenderError (list (string * string)) := render_params q (sorted_keys q).

End render.

(** [strings.TrimSuffix] of a slash. *)
Fixpoint trim_slash (s : string) : string :=
  match s with
  | EmptyString => EmptyString
  | String c s' => match s' with EmptyString => if Ascii.eqb c slash then EmptyString else s | _ => String c (trim_slash s') end
  end.

(** [internal/flow/httpspec.go:buildURL] *)
Definition buildURL (base : URL) (escapedPath : string) (parts : urlParts) (values : list (string * string)) : option URL :=
  let raw := (trim_slash (EscapedPath base) +:+ escapedPath)%string in
  decoded ← unescape EncSegment raw;
  let encoded := Encode values in
  let q := if String.eqb encoded "" then rawQuery parts
           else if String.eqb (rawQuery parts) "" then encoded else (rawQuery parts +:+ "&" +:+ encoded)%string in
  Some (mkURL (Scheme base) (User base) (Host base) decoded raw q (isQueryForced parts) "").

(** [internal/flow/httptool.go:sendsEmptyObject] *)
Definition sendsEmptyObject (method : string) : bool := contains ["POST"; "PUT"; "PATCH"]%string (ToUpper method).

(** ** A call *)

(** [internal/flow/httptool.go:Backend] the base, whether it is pinned and the
    deployment's secrets; the client and its host policy are the transport
    below. *)
Record Backend := mkBackend { base : option URL; isBasePinned : bool; secrets : string -> option string }.

(** A request as it is handed to the client. *)
Record Request := mkRequest { rqMethod : string; rqURL : URL; rqHeaders : list (string * string); rqBody : option string; rqTimeout : duration }.

Inductive CallError :=
| NoBase | BaseUnusable | CannotCombine (p : PartsProblem) | CannotEncode | CannotBuild | NoSecret (p : SecretProblem)
| PolicyRefused | TimedOut | SendFailed | Redirected (status : Z) | ReadFailed | StatusError (status : Z) (code : string) | NotAnObject.

(** How far the preparation of a call comes: a refusal the model can correct,
    an error, or a request. *)
Inductive Prep := Refuse (e : RenderError) | CannotCall (e : CallError) | Send (r : Request).

Variable Parse : string -> option URL.
(** [json.Marshal] of a rendered body. *)
Variable Marshal : Value -> option string.
(** Whether [http.NewRequestWithContext] takes the method and the URL. *)
Variable NewRequest : string -> URL -> bool.

(** [internal/flow/httptool.go:L167-L178] *)
Definition call_base (b : Backend) (spec : HTTPCall) : res CallError URL :=
  if negb (String.eqb (BaseURL spec) "") && negb (isBasePinned b) then
    match Parse (BaseURL spec), baseURLProblem Parse (BaseURL spec) with
    | Some u, None => Ok u
    | _, _ => Err BaseUnusable
    end
  else match base b with Some u => Ok u | None => Err NoBase end.

(** [internal/flow/httptool.go:L199-L213] the body; [None] is the error. *)
Definition call_body (spec : HTTPCall) (method : string) (args slots : gmap string Value) : option (option string) :=
  match Body spec with
  | Some t => Some <$> Marshal (renderValue (VMap t) args slots)
  | None => Some (if sendsEmptyObject method then Some "{}"%string else None)
  end.

(** [Header.Set]: a header replaces the one of its name, in whatever case. *)
Definition set_header (l : list (string * string)) (kv : string * string) : list (string * string) :=
  filter (fun h => ToLower h.1 <> ToLower kv.1) l ++ [kv].

(** [internal/flow/httptool.go:L226-L232] the headers in the order of their names. *)
Fixpoint call_headers (lookup : string -> option string) (headers : gmap string string) (names : list string) : res SecretProblem (list (string * string)) :=
  match names with
  | [] => Ok []
  | n :: rest =>
      v ← resolveSecrets lookup n (default ""%string (headers !! n));
      l ← call_headers lookup headers rest;
      Ok ((n, v) :: l)
  end.

(** [internal/flow/httptool.go:L167-L232] what is sent. *)
Definition prepare (b : Backend) (spec : HTTPCall) (args slots : gmap string Value) : Prep :=
  match call_base b spec with
  | Err e => CannotCall e
  | Ok u =>
      let '(parts, problems) := url_parts spec in
      match problems with
      | p :: _ => CannotCall (CannotCombine p)
      | [] =>
          match renderPath args slots (path parts) with
          | Err e => Refuse e
          | Ok p =>
              match renderQuery args slots (query parts) with
              | Err e => Refuse e
              | Ok q =>
                  match buildURL u p parts q with
                  | None => Refuse PathInvalid
                  | Some target =>
                      let method := if String.eqb (Method spec) "" then "POST"%string else Method spec in
                      match call_body spec method args slots with
                      | None => CannotCall CannotEncode
                      | Some body =>
                          if negb (NewRequest method target) then CannotCall CannotBuild
                          else
                            let json := match body with Some _ => [("Content-Type", "application/json")]%string | None => [] end in
                            match call_headers (secrets b) (Headers spec) (sorted_keys (Headers spec)) with
                            | Err p => CannotCall (NoSecret p)
                            | Ok headers => Send (mkRequest method target (fold_left set_header headers json) body (Timeout spec))
                            end
                      end
                  end
              end
          end
      end
  end.

(** ** The answer *)

Definition field (name : string) (m : list (string * Value)) : option Value :=
  snd <$> List.find (fun kv => String.eqb kv.1 name) m.

(** [internal/flow/httptool.go:lookupPath] *)
Fixpoint lookup_segments (v : Value) (segments : list string) : option Value :=
  match segments with
  | [] => Some v
  | seg :: rest => match v with VMap m => x ← field seg m; lookup_segments x rest | _ => None end
  end.
Definition lookupPath (document : list (string * Value)) (p : string) : option Value :=
  if String.eqb p "" then None else lookup_segments (VMap document) (split "." p).

(** [internal/flow/httptool.go:ModelOnlyField.extract] *)
Definition project (each : gmap string string) (element : Value) : option Value :=
  match element with
  | VMap object => Some (VMap (map_to_list (omap (lookupPath object) each)))
  | _ => None
  end.
Definition extract (f : ModelOnlyField) (response : list (string * Value)) : option Value :=
  value ← lookupPath response (MPath f);
  if negb (IsProjection f) then Some value
  else match value with
       | VList elements => Some (VList (omap (project (MEach f)) elements))
       | _ => None
       end.

(** [internal/flow/httptool.go:resultFrom] *)
Definition resultFrom (spec : HTTPCall) (response : list (string * Value)) : FlowRuntime.Result :=
  let isOK := match SuccessWhen spec with
              | Some t => default false (valuesEqual ParseFloat FormatFloat Sprint (default VNil (lookupPath response (SPath t))) (VStr (SEquals t)))
              | None => true
              end in
  if negb isOK then
    let message := match lookupPath response (ErrorFrom spec) with
                   | Some reported => asString reported
                   | None => "the backend rejected the request"%string
                   end in
    mkResult false ∅ ∅ "" message
  else mkResult true (omap (lookupPath response) (ResultPaths spec)) (omap (fun f => extract f response) (ModelOnlyFields spec)) "" "".

(** [internal/flow/httptool.go:const(maxBackendErrorLen)] *)
Definition maxBackendErrorLen : nat := 128.

(** [unicode.IsControl] *)
Definition is_control (r : rune) : bool := ((0 <=? r) && (r <=? 31)) || ((127 <=? r) && (r <=? 159)).

(** [json.Unmarshal] of an object. *)
Variable Unmarshal : string -> option (list (string * Value)).

(** [internal/flow/httptool.go:backendErrorCode] *)
Definition backendErrorCode (errorFrom payload : string) : string :=
  if String.eqb errorFrom "" then ""%string
  else match Unmarshal payload ≫= fun decoded => lookupPath decoded errorFrom with
       | Some (VStr _ | VFloat _ | VBool _) as value =>
           let code := utf8 (filter (fun r => is_control r = false) (runes (asString (default VNil value)))) in
           if (maxBackendErrorLen <? length (runes code))%nat then truncateRunes code maxBackendErrorLen else code
       | _ => ""%string
       end.

(** What the client answers: the host policy refused the connection, the time
    ran out, sending failed otherwise, or a status came with a payload that
    was read, or not (in time, or otherwise). *)
Inductive Reply :=
| ReplyRefused | ReplyTimedOut | ReplyFailed
| Answered (status : Z) (payload : string) | AnsweredUnread (status : Z) (isTimeout : bool).

(** [internal/flow/httptool.go:L244-L292] *)
Definition answer (spec : HTTPCall) (r : Reply) : res CallError FlowRuntime.Result :=
  let redirect (status : Z) := (300 <=? status) && (status <? 400) in
  match r with
  | ReplyRefused => Err PolicyRefused
  | ReplyTimedOut => Err TimedOut
  | ReplyFailed => Err SendFailed
  | AnsweredUnread status isTimeout =>
      if redirect status then Err (Redirected status) else Err (if isTimeout then TimedOut else ReadFailed)
  | Answered status payload =>
      if redirect status then Err (Redirected status)
      else if 400 <=? status then Err (StatusError status (backendErrorCode (ErrorFrom spec) payload))
      else match Unmarshal payload with
           | None => Err NotAnObject
           | Some decoded => Ok (resultFrom spec decoded)
           end
  end.

(** The words of a refusal are [refusal]'s, an argument. *)
Variable refusal : RenderError -> string.

(** [internal/flow/httptool.go:Backend.Call] with the transport [Do]. *)
Definition Call (b : Backend) (Do : Request -> Reply) (spec : HTTPCall) (args slots : gmap string Value) : res CallError FlowRuntime.Result :=
  match prepare b spec args slots with
  | Refuse e => Ok (Failed (refusal e) "")
  | CannotCall e => Err e
  | Send r => answer spec (Do r)
  end.

End call.

(** ** The shape of a path *)

(** A stretch of a path as it is sent: a text the flow wrote, escaped, or the
    value of a reference. *)
Inductive Piece := Text (wire : string) | Ref (m : string * string).

(** Segments set one after the other: the last of the first and the first of
    the second are one segment. *)
Fixpoint cat {A} (a b : list (list A)) : list (list A) :=
  match a with
  | [] => b
  | [x] => match b with y :: b => (x ++ y) :: b | [] => [x] end
  | x :: a => x :: cat a b
  end.

Definition literal_shape (l : string) : option (list (list Piece)) :=
  (fun w => map (fun x => [Text x]) (split slash w)) <$> escapeLiteralPath l.
Fixpoint refs_shape (refs : list ((string * string) * string)) : option (list (list Piece)) :=
  match refs with
  | [] => Some [[]]
  | (m, l) :: rest => ls ← literal_shape l; more ← refs_shape rest; Some (cat [[Ref m]] (cat ls more))
  end.

(** The segments of a template, whatever the values are. *)
Definition template_shape (template : string) : option (list (list Piece)) :=
  let '(l, refs) := split_all templateReference 0 template in
  ls ← literal_shape l; more ← refs_shape refs; Some (cat ls more).

Definition has_ref (seg : list Piece) : Prop := exists m, Ref m ∈ seg.

Definition concat_str (l : list string) : string := fold_right String.append ""%string l.

Section shape.
Variable FormatFloat : f64 -> string.
Variable Sprint : Value -> string.
Variable args slots : gmap string Value.

Notation asString := (asString FormatFloat Sprint).

Definition value_text (m : string * string) : string := asString (resolveReference args slots m).

(** A piece as it is sent, and what it stands for. *)
Definition sent (p : Piece) : string := match p with Text w => w | Ref m => escape EncSegment (value_text m) end.
Definition meant (p : Piece) : string := match p with Text w => default ""%string (unescape EncSegment w) | Ref m => value_text m end.
Definition sent_segment (seg : list Piece) : string := concat_str (map sent seg).
Definition meant_segment (seg : list Piece) : string := concat_str (map meant seg).

Lemma concat_str_app a b : concat_str (a ++ b) = (concat_str a +:+ concat_str b)%string.
Proof. induction a as [|x a IH]; simpl; [done|]. by rewrite IH, str_app_assoc. Qed.

Lemma cat_sent a b : map sent_segment (cat a b) = glue (map sent_segment a) (map sent_segment b).
Proof.
  induction a as [|x a IH]; [done|]. destruct a as [|y a].
  - destruct b as [|y b]; simpl; [done|]. unfold sent_segment at 1. by rewrite map_app, concat_str_app.
  - change (cat (x :: y :: a) b) with (x :: cat (y :: a) b). rewrite map_cons, IH. done.
Qed.

Lemma cat_nonnil {A} (a b : list (list A)) : a <> [] -> cat a b <> [].
Proof. destruct a as [|x [|y a]]; simpl; [done|by destruct b|done]. Qed.

Lemma in_cat {A} (P : list A -> Prop) a b : (forall x y, P x -> P y -> P (x ++ y)) -> Forall P a -> Forall P b -> Forall P (cat a b).
Proof.
  intros Happ Ha Hb. induction Ha as [|x a Hx Ha IH]; simpl; [done|]. destruct a as [|y a]; [|by constructor].
  destruct Hb as [|y b Hy Hb]; [by constructor|]. constructor; [by apply Happ|done].
Qed.

(** What holds of every segment: it reads as what it stands for, and a value in
    it is a text that is not empty and not dots. *)
Definition value_ok (p : Piece) : Prop :=
  match p with
  | Text w => is_Some (unescape EncSegment w)
  | Ref m => value_text m ∉ [""; "."; ".."]%string
  end.

Lemma segment_reads seg : Forall value_ok seg -> unescape EncSegment (sent_segment seg) = Some (meant_segment seg).
Proof.
  unfold sent_segment, meant_segment. induction 1 as [|p seg Hp Hs IH]; [done|]. simpl.
  assert (E : unescape EncSegment (sent p) = Some (meant p)).
  { destruct p as [w|m]; simpl in *; [|apply unescape_escape]. destruct Hp as [d Hd]. by rewrite Hd. }
  by rewrite (unescape_app _ _ _ _ E), IH.
Qed.

Lemma split_reads w : is_Some (unescape EncSegment w) -> Forall (fun x => is_Some (unescape EncSegment x)) (split slash w).
Proof.
  induction w as [w IH] using (induction_ltof1 _ String.length). unfold ltof in IH. intros [d Hd].
  destruct w as [|c w]; [by repeat constructor; eexists|]. cbn [unescape] in Hd. cbn [split]. destruct (Ascii.eqb_spec c percent) as [->|Hc].
  - destruct w as [|h [|l w]]; [done..|]. destruct (unhex h) as [a|] eqn:Eh, (unhex l) as [b|] eqn:El; try done.
    destruct (unescape EncSegment w) as [y|] eqn:Ew; [|done].
    assert (Hns : forall x n, unhex x = Some n -> Ascii.eqb x slash = false) by (intros x n Hx; apply Ascii.eqb_neq; intros ->; discriminate).
    cbn [split]. rewrite (Hns _ _ Eh), (Hns _ _ El). specialize (IH w ltac:(simpl; lia) ltac:(by eexists)).
    change (Ascii.eqb percent slash) with false. cbn [split]. destruct (split slash w) as [|x rest] eqn:Es; [by apply split_nonnil in Es|].
    inversion_clear IH as [|? ? [z Hz] Hrest]. constructor; [|done]. cbn. rewrite Eh, El, Hz. by eexists.
  - destruct (unescape EncSegment w) as [y|] eqn:Ew; [|done]. specialize (IH w ltac:(simpl; lia) ltac:(by eexists)).
    destruct (Ascii.eqb c slash); [constructor; [by eexists|done]|]. destruct (split slash w) as [|x rest] eqn:Es; [by apply split_nonnil in Es|].
    inversion_clear IH as [|? ? [z Hz] Hrest]. constructor; [|done]. cbn [unescape]. rewrite (proj2 (Ascii.eqb_neq _ _) Hc), Hz. by eexists.
Qed.

(** The path of a parsed URL that starts with a slash is sent with one. *)
Lemma setPath_slash rest path raw : setPath (String slash rest) = Some (path, raw) -> exists w, escaped_path path raw = String slash w.
Proof.
  unfold setPath. destruct (unescape EncPath (String slash rest)) as [x|] eqn:E; [|done]. cbn [mbind option_bind].
  cbn [unescape] in E. change (Ascii.eqb slash percent) with false in E. cbn [is_query andb] in E.
  destruct (unescape EncPath rest) as [y|]; [|done]. cbn [fmap option_fmap option_map] in E. injection E as <-.
  intros H. injection H as <- Hraw. unfold escaped_path. destruct (_ && _ && _) eqn:Ec; [|by eexists].
  rewrite <- Hraw. rewrite <- Hraw in Ec. destruct (String.eqb rest _); [done|by eexists].
Qed.

(** A literal stretch as it is sent: it reads, and holds nothing that ends the path. *)
Lemma escapeLiteralPath_spec l w : escapeLiteralPath l = Some w -> is_Some (unescape EncSegment w) /\ validEncoded w = true.
Proof.
  unfold escapeLiteralPath. destruct (String.eqb l ""); [intros [= <-]; by repeat eexists|]. unfold parse_path.
  destruct (Cut "#" l) as [u frag]. destruct (negb _); [done|].
  destruct (setPath (String slash (Cut "?" u).1)) as [[path raw]|] eqn:E; [|done]. cbn [mbind option_bind].
  destruct (unescape EncPath frag); [|done]. intros [= <-]. destruct (setPath_slash _ _ _ E) as [w Hw].
  pose proof (escaped_path_reads path raw) as Hr. pose proof (escaped_path_valid path raw) as Hv.
  rewrite Hw in *. cbn [drop]. rewrite unescape_path_segment. cbn [unescape] in Hr. change (Ascii.eqb slash percent) with false in Hr.
  destruct (unescape EncPath w); [|done]. split; [by eexists|]. done.
Qed.

Lemma literal_shape_spec l w : escape_literal l = Ok w ->
  exists ls, literal_shape l = Some ls /\ ls <> [] /\ split slash w = map sent_segment ls /\ Forall (Forall value_ok) ls /\ validEncoded w = true.
Proof.
  unfold escape_literal, literal_shape. destruct (escapeLiteralPath l) as [x|] eqn:E; [|done]. intros [= ->].
  destruct (escapeLiteralPath_spec _ _ E) as [Hr Hv]. eexists. split; [reflexivity|]. split; [|split; [|split; [|done]]].
  - pose proof (split_nonnil slash w). by destruct (split slash w).
  - rewrite map_map. rewrite <- (map_id (split slash w)) at 1. apply map_ext. intros x. unfold sent_segment. simpl. by rewrite str_app_nil.
  - apply split_reads in Hr. apply Forall_map. eapply Forall_impl; [exact Hr|]. intros x Hx. by repeat constructor.
Qed.

Lemma refs_shape_spec refs out : render_refs FormatFloat Sprint args slots refs = Ok out ->
  exists ls, refs_shape refs = Some ls /\ ls <> [] /\ split slash out = map sent_segment ls /\ Forall (Forall value_ok) ls /\ validEncoded out = true.
Proof.
  revert out. induction refs as [|[m l] refs IH]; intros out; simpl.
  { intros [= <-]. exists [[]]. by repeat constructor. }
  destruct (pathValue _ _ _) as [text|why] eqn:Ep; [|done]. intros H.
  apply bind_Ok_inv in H as (w & Hw & H). apply bind_Ok_inv in H as (rest & Hrest & [= <-]).
  destruct (literal_shape_spec _ _ Hw) as (ls & -> & Hn & Hs & Hok & Hv).
  destruct (IH _ Hrest) as (more & -> & Hn' & Hs' & Hok' & Hv').
  assert (Hval : value_text m = text /\ text ∉ [""; "."; ".."]%string).
  { unfold pathValue in Ep. destruct (is_collection _); [done|]. change (FlowPredicate.asString _ _ _) with (value_text m) in Ep.
    destruct (String.eqb_spec (value_text m) ""); [done|]. destruct (_ || _) eqn:Ed; [done|]. injection Ep as <-.
    apply orb_false_iff in Ed as [E1%String.eqb_neq E2%String.eqb_neq]. split; [done|]. set_solver. }
  destruct Hval as [<- Hval]. exists (cat [[Ref m]] (cat ls more)). split; [reflexivity|]. split; [by apply cat_nonnil|].
  split; [|split].
  - rewrite !cat_sent, <- Hs, <- Hs', <- split_concat.
    assert (E : map sent_segment [[Ref m]] = split slash (escape EncSegment (value_text m))).
    { rewrite split_free by apply segment_is_closed. unfold sent_segment. simpl. by rewrite str_app_nil. }
    by rewrite E, <- split_concat.
  - apply in_cat; [intros; by apply Forall_app|by repeat constructor|]. apply in_cat; [intros; by apply Forall_app|done..].
  - pose proof (segment_is_valid (value_text m)) as Hm. unfold validEncoded in *. by rewrite !all_bytes_app, Hv, Hv', Hm.
Qed.

(** A segment with a value in it is not empty and not dots. *)
Lemma infix_dots a t b : t ∉ [""; "."; ".."]%string -> (a +:+ t +:+ b)%string ∉ [""; "."; ".."]%string.
Proof.
  intros Ht Hin. apply Ht. clear Ht.
  assert (Hdot : forall c s, String c s ∈ [""; "."; ".."]%string -> c = "."%char /\ s ∈ [""; "."; ".."]%string).
  { intros c s. rewrite !elem_of_cons. intros [|[[= -> ->]|[[= -> ->]|[]%not_elem_of_nil]]]; [done|..]; set_solver. }
  induction a as [|c a IH]; [|by apply IH; apply Hdot in Hin as [_ ?]]. simpl in Hin. clear -Hin Hdot. revert Hin.
  assert (Hlen : forall s, s ∈ [""; "."; ".."]%string <-> (String.length s <= 2)%nat /\ all_bytes dot s = true).
  { intros s. split; [rewrite !elem_of_cons; intros [->|[->|[->|[]%not_elem_of_nil]]]; simpl; split; (lia || done)|].
    assert (E : forall c, dot c = true -> c = "."%char) by (intros c Hc; unfold dot in Hc; rewrite <- (byte_of_byteZ c); by apply Z.eqb_eq in Hc as ->).
    destruct s as [|c [|c' [|c'' s]]]; simpl; intros [Hl Hd]; [set_solver| | |lia]; b2p.
    - rewrite (E c) by done. set_solver.
    - rewrite (E c), (E c') by done. set_solver. }
  rewrite !Hlen, str_length_app, all_bytes_app. intros [Hl [Ha _]%andb_true_iff]. split; [lia|done].
Qed.

Lemma value_not_dots seg : Forall value_ok seg -> has_ref seg -> meant_segment seg ∉ [""; "."; ".."]%string.
Proof.
  intros H [m Hm]. apply list_elem_of_split in Hm as (a & b & ->). unfold meant_segment. rewrite map_app, concat_str_app. simpl.
  apply infix_dots. apply Forall_app in H as [_ H]. by inversion_clear H.
Qed.

End shape.

(** C39: A path keeps its segments, whatever the model puts in. What is sent has
    exactly the segments of the template, which do not depend on the values;
    each reads as what the flow wrote with the values in their places, to the
    letter; a segment with a value in it is never empty, [.] or [..]; and
    nothing in the path starts a query or a fragment. *)
Theorem path_keeps_its_segments FormatFloat Sprint args slots template p :
  renderPath FormatFloat Sprint args slots template = Ok p ->
  exists shape, template_shape template = Some shape /\
    split slash p = map (sent_segment FormatFloat Sprint args slots) shape /\
    validEncoded p = true /\
    Forall (fun seg => unescape EncSegment (sent_segment FormatFloat Sprint args slots seg) = Some (meant_segment FormatFloat Sprint args slots seg) /\
                       (has_ref seg -> meant_segment FormatFloat Sprint args slots seg ∉ [""; "."; ".."]%string)) shape.
Proof.
  unfold renderPath, template_shape. destruct (split_all templateReference 0 template) as [l refs]. intros H.
  apply bind_Ok_inv in H as (w & Hw & H). apply bind_Ok_inv in H as (out & Hout & [= <-]).
  destruct (literal_shape_spec FormatFloat Sprint args slots _ _ Hw) as (ls & -> & _ & Hs & Hok & Hv).
  destruct (refs_shape_spec _ _ _ _ _ _ Hout) as (more & -> & _ & Hs' & Hok' & Hv').
  eexists. split; [reflexivity|]. split; [by rewrite cat_sent, split_concat, Hs, Hs'|]. split; [by unfold validEncoded in *; rewrite all_bytes_app, Hv|].
  eapply Forall_impl; [apply in_cat; [|exact Hok|exact Hok']; intros; by apply Forall_app|]. intros seg Hseg. split; [by apply segment_reads|by apply value_not_dots].
Qed.

(** ** The request *)

Lemma buildURL_spec base p parts values u : validEncoded p = true -> is_Some (unescape EncSegment p) ->
  buildURL base p parts values = Some u ->
  Scheme u = Scheme base /\ User u = User base /\ Host u = Host base /\ Fragment u = ""%string /\
  EscapedPath u = (trim_slash (EscapedPath base) +:+ p)%string /\
  ParseQuery (RawQuery u) = ((ParseQuery (rawQuery parts)).1 ++ values, (ParseQuery (rawQuery parts)).2).
Proof.
  intros Hv _. unfold buildURL. set (raw := (trim_slash (EscapedPath base) +:+ p)%string).
  destruct (unescape EncSegment raw) as [decoded|] eqn:E; [|done]. cbn [mbind option_bind]. intros [= <-]. simpl. repeat split.
  - unfold EscapedPath, escaped_path. simpl. rewrite unescape_path_segment in E.
    assert (Hraw : validEncoded raw = true).
    { unfold raw, validEncoded. rewrite all_bytes_app. apply andb_true_iff. split; [|exact Hv].
      pose proof (escaped_path_valid (UPath base) (RawPath base)) as H. fold (EscapedPath base) in H. unfold validEncoded in H.
      clear -H. induction (EscapedPath base) as [|c s IH]; [done|]. simpl in *. apply andb_true_iff in H as [Hc Hs].
      destruct s as [|c' s]; [destruct (Ascii.eqb c slash); simpl; [done|by rewrite Hc]|]. cbn [all_bytes]. rewrite Hc. by apply IH. }
    rewrite Hraw, E, bool_decide_eq_true_2 by done. destruct (String.eqb_spec raw "") as [->|]; [|done].
    simpl in E. injection E as <-. done.
  - assert (Hne : forall kv l, Encode (kv :: l) <> ""%string).
    { intros kv l. unfold Encode, encode_pair. destruct l; destruct (escape EncQuery kv.1); done. }
    destruct values as [|kv values]; [simpl; rewrite app_nil_r; by destruct (ParseQuery (rawQuery parts))|].
    rewrite (proj2 (String.eqb_neq _ _) (Hne kv values)). destruct (String.eqb_spec (rawQuery parts) "") as [->|].
    + rewrite ParseQuery_Encode. done.
    + change ("&" +:+ Encode (kv :: values))%string with (String amp (Encode (kv :: values))). rewrite ParseQuery_app, ParseQuery_Encode. simpl.
      by rewrite andb_true_r.
Qed.

(** What a template's path renders to can be appended to a base. *)
Lemma buildURL_total base p parts values : is_Some (unescape EncSegment p) -> is_Some (buildURL base p parts values).
Proof.
  intros [d Hd]. unfold buildURL.
  assert (Hb : is_Some (unescape EncSegment (trim_slash (EscapedPath base)))).
  { rewrite unescape_path_segment. pose proof (escaped_path_reads (UPath base) (RawPath base)) as H. fold (EscapedPath base) in H.
    revert H. generalize (UPath base). induction (EscapedPath base) as [s IH] using (induction_ltof1 _ String.length). unfold ltof in IH.
    intros x. destruct s as [|c s]; [by eexists|]. cbn [unescape trim_slash]. destruct (Ascii.eqb_spec c percent) as [->|Hc].
    - destruct s as [|h [|l s]]; [done..|]. destruct (unhex h) as [a|] eqn:Eh, (unhex l) as [b|] eqn:El; try done.
      destruct (unescape EncPath s) as [y|] eqn:Es; [|done]. intros _.
      assert (E : trim_slash (String h (String l s)) = String h (String l (trim_slash s)) \/ s = ""%string).
      { destruct s; [by right|by left]. }
      assert (Hl : Ascii.eqb l slash = false) by (apply Ascii.eqb_neq; intros ->; discriminate).
      destruct E as [->| ->].
      + cbn [unescape]. change (Ascii.eqb percent percent) with true. cbn [unescape]. rewrite Eh, El.
        destruct (IH s ltac:(simpl; lia) y Es) as [z ->]. by eexists.
      + cbn [trim_slash]. rewrite Hl. cbn [unescape]. change (Ascii.eqb percent percent) with true. rewrite Eh, El. by eexists.
    - destruct (unescape EncPath s) as [y|] eqn:Es; [|done]. intros _. destruct s as [|c' s].
      + destruct (Ascii.eqb c slash); [by eexists|]. cbn [unescape]. rewrite (proj2 (Ascii.eqb_neq _ _) Hc). by eexists.
      + destruct (IH (String c' s) ltac:(simpl; lia) y Es) as [z Hz]. cbn [unescape]. rewrite (proj2 (Ascii.eqb_neq _ _) Hc). rewrite Hz. by eexists. }
  destruct Hb as [b Hb]. rewrite (unescape_app _ _ _ _ Hb), Hd. by eexists.
Qed.

Section request.
Variable FormatFloat : f64 -> string.
Variable Sprint : Value -> string.
Variable Parse : string -> option URL.
Variable Marshal : Value -> option string.
Variable NewRequest : string -> URL -> bool.

Notation renderPath := (renderPath FormatFloat Sprint).
Notation renderQuery := (renderQuery FormatFloat Sprint).
Notation prepare := (prepare FormatFloat Sprint Parse Marshal NewRequest).

Lemma render_params_spec args slots q params vs : render_params FormatFloat Sprint args slots q params = Ok vs ->
  vs.*1 `sublist_of` params /\ forall param text, (param, text) ∈ vs <->
    param ∈ params /\ render_param FormatFloat Sprint args slots param (default ""%string (q !! param)) = Ok (Some text) /\ (param, text) ∈ vs.
Proof.
  revert vs. induction params as [|p params IH]; intros vs; simpl; [intros [= <-]; split; [constructor|set_solver]|].
  intros H. apply bind_Ok_inv in H as (t & Ht & H). apply bind_Ok_inv in H as (l & Hl & [= <-]). destruct (IH _ Hl) as [Hs Hin].
  destruct t as [t|]; simpl.
  - split; [by constructor|]. intros param text. split; [|tauto]. intros H. split; [|split; [|done]].
    + apply elem_of_cons in H as [[= <- <-]|H]; [by left|]. right. by apply Hin in H as (? & _).
    + apply elem_of_cons in H as [[= <- <-]|H]; [done|]. by apply Hin in H as (_ & ? & _).
  - split; [by constructor|]. intros param text. split; [|tauto]. intros H. split; [right|split; [|done]]; by apply Hin in H as (? & ? & _).
Qed.

Lemma render_params_complete args slots q params vs param text : render_params FormatFloat Sprint args slots q params = Ok vs ->
  param ∈ params -> render_param FormatFloat Sprint args slots param (default ""%string (q !! param)) = Ok (Some text) -> (param, text) ∈ vs.
Proof.
  revert vs. induction params as [|p params IH]; intros vs; simpl; [intros _ []%elem_of_nil|].
  intros H. apply bind_Ok_inv in H as (t & Ht & H). apply bind_Ok_inv in H as (l & Hl & [= <-]).
  intros [->|Hp]%elem_of_cons Hr; [rewrite Hr in Ht; injection Ht as <-; by left|]. specialize (IH _ Hl Hp Hr). destruct t; [by right|done].
Qed.

Lemma sorted_keys_spec {A} (m : gmap string A) : NoDup (sorted_keys m) /\ forall k, k ∈ sorted_keys m <-> is_Some (m !! k).
Proof.
  unfold sorted_keys. split.
  - rewrite sort_strings_perm. apply NoDup_fst_map_to_list.
  - intros k. rewrite elem_of_sort_strings, list_elem_of_fmap. split.
    + intros ([k' v] & -> & H). apply elem_of_map_to_list in H. by eexists.
    + intros [v Hv]. exists (k, v). split; [done|]. by apply elem_of_map_to_list.
Qed.

(** The parts of a preparation that ends with a request. *)
Lemma prepare_Send b spec args slots r : prepare b spec args slots = Send r ->
  exists u p q body headers, call_base Parse b spec = Ok u /\ (url_parts spec).2 = [] /\
    renderPath args slots (path (url_parts spec).1) = Ok p /\ renderQuery args slots (query (url_parts spec).1) = Ok q /\
    buildURL u p (url_parts spec).1 q = Some (rqURL r) /\
    rqMethod r = (if String.eqb (Method spec) "" then "POST"%string else Method spec) /\
    call_body FormatFloat Sprint Marshal spec (rqMethod r) args slots = Some body /\ rqBody r = body /\
    call_headers (secrets b) (Headers spec) (sorted_keys (Headers spec)) = Ok headers /\
    rqHeaders r = fold_left set_header headers (match body with Some _ => [("Content-Type", "application/json")]%string | None => [] end) /\
    rqTimeout r = Timeout spec.
Proof.
  unfold FlowHTTP.prepare. destruct (call_base Parse b spec) as [u|]; [|done]. destruct (url_parts spec) as [parts [|pr problems]]; [|done].
  destruct (FlowHTTP.renderPath _ _ _ _ _) as [p|] eqn:Ep; [|done]. destruct (FlowHTTP.renderQuery _ _ _ _ _) as [q|] eqn:Eq; [|done].
  destruct (buildURL u p parts q) as [target|] eqn:Et; [|done]. destruct (call_body _ _ _ _ _ _ _) as [body|] eqn:Eb; [|done].
  destruct (negb _); [done|]. destruct (call_headers _ _ _) as [headers|] eqn:Eh; [|done]. intros [= <-].
  exists u, p, q, body, headers. by repeat split.
Qed.

Lemma path_reads args slots template p : renderPath args slots template = Ok p -> is_Some (unescape EncSegment p) /\ validEncoded p = true.
Proof.
  unfold FlowHTTP.renderPath. destruct (split_all templateReference 0 template) as [l refs]. intros H.
  apply bind_Ok_inv in H as (w & Hw & H). apply bind_Ok_inv in H as (out & Hout & [= <-]).
  unfold escape_literal in Hw. destruct (escapeLiteralPath l) as [x|] eqn:El; [|done]. injection Hw as <-.
  destruct (escapeLiteralPath_spec _ _ El) as [[d Hd] Hv].
  destruct (refs_shape_spec FormatFloat Sprint args slots _ _ Hout) as (ls & _ & Hn & Hs & Hok & Hv').
  split; [|unfold validEncoded in *; by rewrite all_bytes_app, Hv].
  rewrite (unescape_app _ _ _ _ Hd). enough (is_Some (unescape EncSegment out)) as [y ->] by (by eexists). clear -Hout.
  revert out Hout. induction refs as [|[m t] refs IH]; simpl; intros out; [intros [= <-]; by eexists|].
  destruct (pathValue _ _ _) as [text|]; [|done]. intros H. apply bind_Ok_inv in H as (w & Hw & H). apply bind_Ok_inv in H as (rest & Hr & [= <-]).
  unfold escape_literal in Hw. destruct (escapeLiteralPath t) as [x|] eqn:El; [|done]. injection Hw as <-.
  destruct (escapeLiteralPath_spec _ _ El) as [[d Hd] _]. destruct (IH _ Hr) as [y Hy].
  rewrite (unescape_app _ _ _ _ (unescape_escape _ _)), (unescape_app _ _ _ _ Hd), Hy. by eexists.
Qed.

(** A query carries exactly its parameters. The backend that reads the
    query of a request finds the parameters the flow wrote in the path, then
    one value for each parameter whose arguments the model passed, which is
    the rendered text to the letter: no value adds, ends or changes another. *)
Theorem query_arrives_as_rendered b spec args slots r (H : prepare b spec args slots = Send r) :
  exists vs, ParseQuery (RawQuery (rqURL r)) =
      ((ParseQuery (rawQuery (url_parts spec).1)).1 ++ vs, (ParseQuery (rawQuery (url_parts spec).1)).2) /\
    NoDup vs.*1 /\
    forall param text, (param, text) ∈ vs <->
      exists template, query (url_parts spec).1 !! param = Some template /\
        render_param FormatFloat Sprint args slots param template = Ok (Some text).
Proof.
  destruct (prepare_Send _ _ _ _ _ H) as (u & p & q & body & headers & _ & _ & Hp & Hq & Hu & _). exists q.
  destruct (path_reads _ _ _ _ Hp) as [Hr Hv]. destruct (buildURL_spec _ _ _ _ _ Hv Hr Hu) as (_ & _ & _ & _ & _ & ->). split; [done|].
  destruct (render_params_spec _ _ _ _ _ Hq) as [Hsub Hin]. destruct (sorted_keys_spec (query (url_parts spec).1)) as [Hnd Hk].
  split; [by eapply sublist_NoDup|]. intros param text. split.
  - intros (Hp' & Ht & _)%Hin. apply Hk in Hp' as [t Hkt]. exists t. split; [done|]. by rewrite Hkt in Ht.
  - intros (t & Hkt & Ht). eapply render_params_complete; [exact Hq|by apply Hk|]. by rewrite Hkt.
Qed.

(** *** Headers *)

Lemma breaks_header_app a b : breaks_header (a +:+ b)%string = breaks_header a || breaks_header b.
Proof. unfold breaks_header. by rewrite all_bytes_app, negb_andb. Qed.

(** What replaces references with texts that are whole keeps a text whole. *)
Lemma replace_all_whole {A} (found : string -> option (nat * A)) text skip s : breaks_header s = false ->
  (forall x, x ∈ find_all found skip s -> breaks_header (text x) = false) -> breaks_header (replace_all found text skip s) = false.
Proof.
  revert skip. induction s as [|c s IH]; intros skip Hs Hx; [done|]. change (String c s) with (String c "" +:+ s)%string in Hs.
  rewrite breaks_header_app in Hs. apply orb_false_iff in Hs as [Hc Hs]. simpl in *. destruct skip as [|k]; [|by apply IH].
  destruct (found (String c s)) as [[w x]|].
  - rewrite breaks_header_app. apply orb_false_iff. split; [apply Hx; by left|]. apply IH; [done|]. intros y Hy. apply Hx. by right.
  - change (String c (replace_all found text 0 s)) with (String c "" +:+ replace_all found text 0 s)%string. rewrite breaks_header_app, Hc.
    by apply IH.
Qed.

Lemma resolveSecrets_Ok lookup header value out : resolveSecrets lookup header value = Ok out ->
  forall name, name ∈ secretNames value -> secret_problem lookup header name = None.
Proof.
  unfold resolveSecrets. destruct (omap _ _) as [|p l] eqn:E; [|done]. intros _ name Hn.
  destruct (secret_problem lookup header name) as [p|] eqn:Ep; [|done].
  assert (p ∈ omap (secret_problem lookup header) (secretNames value)) as Hin by (apply list_elem_of_omap; eauto).
  rewrite E in Hin. by apply elem_of_nil in Hin.
Qed.

Lemma resolveSecrets_whole lookup header value out : resolveSecrets lookup header value = Ok out -> breaks_header value = false ->
  breaks_header out = false.
Proof.
  intros H Hv. pose proof (resolveSecrets_Ok _ _ _ _ H) as Hn. unfold resolveSecrets in H. destruct (omap _ _); [|done]. injection H as <-.
  apply replace_all_whole; [done|]. intros name Hin. specialize (Hn name Hin). unfold secret_problem in Hn.
  destruct (lookup (SecretEnv name)) as [v|]; [|done]. simpl. destruct (String.eqb v ""); [done|]. by destruct (breaks_header v).
Qed.

Lemma call_headers_in lookup headers names l : call_headers lookup headers names = Ok l ->
  l.*1 = names /\ forall n v, (n, v) ∈ l -> resolveSecrets lookup n (default ""%string (headers !! n)) = Ok v.
Proof.
  revert l. induction names as [|x names IH]; intros l; simpl; [intros [= <-]; split; [done|]; by intros ? ? ?%elem_of_nil|].
  intros H. apply bind_Ok_inv in H as (v & Hv & H). apply bind_Ok_inv in H as (rest & Hr & [= <-]). destruct (IH _ Hr) as [<- Hin].
  split; [done|]. intros n v' [[= -> ->]|H]%elem_of_cons; [done|by apply Hin].
Qed.

Lemma set_header_in l kv h : h ∈ set_header l kv -> h = kv \/ h ∈ l.
Proof. unfold set_header. rewrite elem_of_app, list_elem_of_singleton, list_elem_of_filter. intuition. Qed.

Lemma set_headers_in hs l h : h ∈ fold_left set_header hs l -> h ∈ hs \/ h ∈ l.
Proof.
  revert l. induction hs as [|x hs IH]; intros l; simpl; [by right|]. intros [|H]%IH; [left; by right|].
  apply set_header_in in H as [->|]; [left; by left|by right].
Qed.

(** What the loader's acceptance of a tool gives about what it sends. *)
Lemma bad_nil b p : bad b p = [] <-> b = false.
Proof. by destruct b. Qed.

Lemma validate_headers_ok headers seen names : validate_headers headers seen names = [] -> forall n, n ∈ names ->
  headerName n = true /\ ToLower n ∉ reservedHeaders /\ breaks_header (default ""%string (headers !! n)) = false.
Proof.
  revert seen. induction names as [|x names IH]; intros seen; simpl; [by intros _ ? ?%elem_of_nil|].
  intros H n Hn. apply app_nil_inv in H as [H1 H]. apply app_nil_inv in H as [_ H]. apply app_nil_inv in H as [H3 H].
  apply app_nil_inv in H as [_ H]. apply app_nil_inv in H as [_ H]. apply app_nil_inv in H as [_ H].
  apply elem_of_cons in Hn as [->|Hn]; [|by eapply IH]. apply bad_nil in H3.
  destruct (headerName x); [|done]. simpl in H1. apply bad_nil, contains_false in H1. done.
Qed.

Lemma accepted_call s tool spec : validateHTTPCall Parse s tool spec = [] ->
  (forall t, TimeoutMs spec = Some t -> MinToolTimeoutMs <= t <= MaxToolTimeoutMs) /\
  (url_parts spec).2 = [] /\
  (Path spec <> ""%string -> (forall l, l ∈ literals (path (url_parts spec).1) -> escapeLiteralPath l <> None) /\
     forall m, m ∈ find_all templateReference 0 (path (url_parts spec).1) -> path_reference s tool m = []) /\
  validate_headers (Headers spec) ∅ (sorted_keys (Headers spec)) = [].
Proof.
  unfold validateHTTPCall. destruct (url_parts spec) as [parts problems]. intros H.
  apply app_nil_inv in H as [_ H]. apply app_nil_inv in H as [Ht H]. apply app_nil_inv in H as [Hp H]. apply app_nil_inv in H as [Hh _].
  apply app_nil_inv in Hp as [Hprob Hp]. apply app_nil_inv in Hp as [Hp _]. simpl. split; [|split; [|split; [|done]]].
  - intros t E. rewrite E in Ht. apply bad_nil, orb_false_iff in Ht as [?%Z.ltb_ge ?%Z.ltb_ge]. lia.
  - by destruct problems.
  - intros Hpath. rewrite (proj2 (String.eqb_neq _ _) Hpath) in Hp. apply app_nil_inv in Hp as [_ Hp]. apply app_nil_inv in Hp as [_ Hp].
    apply app_nil_inv in Hp as [Hl Hr]. apply bad_nil in Hl. split.
    + intros l Hin Hn. assert (existsb (fun l => bool_decide (escapeLiteralPath l = None)) (literals (path parts)) = true); [|congruence].
      apply existsb_exists. exists l. split; [by apply list_elem_of_In|]. by apply bool_decide_eq_true_2.
    + intros m Hm. by apply (flat_map_nil _ _ m) in Hr.
Qed.

(** A request goes where the base says. It has the base's scheme, user and
    host, no fragment, the base's own path followed by the rendered one, the
    declared method, a body exactly when the flow or the method asks for one,
    headers whose values hold no line break and no NUL whatever the secrets
    are, and between half a second and ten seconds to be answered. *)
Theorem request_goes_to_base b s tool spec args slots r
    (Ha : validateHTTPCall Parse s tool spec = []) (H : prepare b spec args slots = Send r) :
  exists u p, call_base Parse b spec = Ok u /\ renderPath args slots (path (url_parts spec).1) = Ok p /\
    Scheme (rqURL r) = Scheme u /\ User (rqURL r) = User u /\ Host (rqURL r) = Host u /\ Fragment (rqURL r) = ""%string /\
    EscapedPath (rqURL r) = (trim_slash (EscapedPath u) +:+ p)%string /\
    rqMethod r = (if String.eqb (Method spec) "" then "POST"%string else Method spec) /\
    (is_Some (rqBody r) <-> is_Some (Body spec) \/ sendsEmptyObject (rqMethod r) = true) /\
    (forall n v, (n, v) ∈ rqHeaders r -> breaks_header v = false) /\
    500 * 1000000 <= rqTimeout r <= 10000 * 1000000.
Proof.
  destruct (prepare_Send _ _ _ _ _ H) as (u & p & q & body & headers & Hb & _ & Hp & _ & Hu & Hm & Hbody & Hrb & Hh & Hrh & Ht).
  destruct (path_reads _ _ _ _ Hp) as [Hr Hv]. destruct (buildURL_spec _ _ _ _ _ Hv Hr Hu) as (E1 & E2 & E3 & E4 & E5 & _).
  destruct (accepted_call _ _ _ Ha) as (Htime & _ & _ & Hhead). exists u, p.
  repeat split; try done.
  - rewrite Hrb. unfold call_body in Hbody. destruct (Body spec) as [t|]; [left; by eexists|].
    injection Hbody as <-. intros [? Hs]. right. by destruct (sendsEmptyObject (rqMethod r)).
  - rewrite Hrb. unfold call_body in Hbody. intros Hor. destruct (Body spec) as [t|].
    + destruct (Marshal _); [|done]. injection Hbody as <-. by eexists.
    + injection Hbody as <-. destruct Hor as [[? ?]| ->]; [done|by eexists].
  - intros n v Hin. rewrite Hrh in Hin. apply set_headers_in in Hin as [Hin|Hin].
    + destruct (call_headers_in _ _ _ _ Hh) as [Hn Hv']. specialize (Hv' _ _ Hin). eapply resolveSecrets_whole; [exact Hv'|].
      apply (validate_headers_ok _ _ _ Hhead). rewrite <- Hn. apply list_elem_of_fmap. by exists (n, v).
    + destruct body; [|by apply elem_of_nil in Hin]. apply list_elem_of_singleton in Hin. by injection Hin as -> ->.
  - rewrite Ht. unfold Timeout, DefaultToolTimeoutMs. destruct (TimeoutMs spec) as [t|] eqn:E; simpl; [|lia].
    specialize (Htime _ eq_refl). unfold MinToolTimeoutMs in Htime. lia.
  - rewrite Ht. unfold Timeout, DefaultToolTimeoutMs. destruct (TimeoutMs spec) as [t|] eqn:E; simpl; [|lia].
    specialize (Htime _ eq_refl). unfold MaxToolTimeoutMs in Htime. lia.
Qed.

(** *** When a call is sent *)

Lemma split_all_refs {A} (found : string -> option (nat * A)) skip t : (split_all found skip t).2.*1 = find_all found skip t.
Proof.
  revert skip. induction t as [|c t IH]; intros [|k]; simpl; try done.
  destruct (found (String c t)) as [[w x]|].
  - specialize (IH (w - 1)%nat). destruct (split_all found (w - 1) t). simpl in *. by f_equal.
  - specialize (IH 0%nat). by destruct (split_all found 0 t).
Qed.

Lemma renderPath_ok args slots template : (forall l, l ∈ literals template -> escapeLiteralPath l <> None) ->
  (forall m, m ∈ find_all templateReference 0 template -> is_ok (pathValue FormatFloat Sprint (resolveReference args slots m)) = true) ->
  exists p, renderPath args slots template = Ok p.
Proof.
  unfold literals, FlowHTTP.renderPath. rewrite <- split_all_refs. destruct (split_all templateReference 0 template) as [l refs]. simpl. intros Hl Hm.
  assert (Hlit : forall x, escapeLiteralPath x <> None -> exists w, escape_literal x = Ok w) by (intros x; unfold escape_literal; destruct (escapeLiteralPath x); [by eexists|done]).
  destruct (Hlit l) as [w ->]; [apply Hl; by left|]. cbn [mbind res_bind].
  enough (exists out, render_refs FormatFloat Sprint args slots refs = Ok out) as [out ->] by (by eexists).
  assert (Hrest : forall x, x ∈ refs.*2 -> escapeLiteralPath x <> None) by (intros; apply Hl; by right). clear Hl.
  induction refs as [|[m t] refs IH]; simpl; [by eexists|].
  specialize (Hm m ltac:(by left)) as Hm1. destruct (pathValue _ _ _); [|done]. destruct (Hlit t) as [wt ->]; [apply Hrest; by left|].
  cbn [mbind res_bind]. destruct IH as [out ->]; [intros; apply Hm; by right|intros; apply Hrest; by right|]. by eexists.
Qed.

Lemma renderQuery_ok args slots q : (forall k t m, q !! k = Some t -> m ∈ find_all templateReference 0 t -> is_collection (resolveReference args slots m) = false) ->
  exists vs, renderQuery args slots q = Ok vs.
Proof.
  intros H. unfold FlowHTTP.renderQuery. induction (sorted_keys q) as [|k ks IH]; simpl; [by eexists|].
  assert (exists o, render_param FormatFloat Sprint args slots k (default ""%string (q !! k)) = Ok o) as [o ->].
  { unfold render_param. destruct (List.find _ _) as [m|] eqn:E; [|case_match; by eexists]. exfalso.
    apply List.find_some in E as [Hin Hc]. apply list_elem_of_In in Hin. destruct (q !! k) as [t|] eqn:Ek; [|simpl in Hin; by apply elem_of_nil in Hin].
    by rewrite (H _ _ _ Ek Hin) in Hc. }
  cbn [mbind res_bind]. destruct IH as [vs ->]. by eexists.
Qed.

Lemma call_headers_ok lookup headers names :
  (forall n name, n ∈ names -> name ∈ secretNames (default ""%string (headers !! n)) -> secret_problem lookup n name = None) ->
  exists l, call_headers lookup headers names = Ok l.
Proof.
  intros H. induction names as [|n names IH]; simpl; [by eexists|].
  assert (exists v, resolveSecrets lookup n (default ""%string (headers !! n)) = Ok v) as [v ->].
  { unfold resolveSecrets. destruct (omap _ _) as [|p l] eqn:E; [by eexists|]. exfalso.
    assert (p ∈ omap (secret_problem lookup n) (secretNames (default ""%string (headers !! n)))) as Hp by (rewrite E; by left).
    apply list_elem_of_omap in Hp as (name & Hn & Hp). rewrite (H n name) in Hp; [done|by left|done]. }
  cbn [mbind res_bind]. destruct IH as [l ->]; [|by eexists]. intros n' name Hn. apply H. by right.
Qed.

Lemma find_all_source m t : m ∈ find_all templateReference 0 t -> m.1 = "args"%string \/ m.1 = "slots"%string.
Proof.
  generalize 0%nat. induction t as [|c t IH]; intros k; simpl; [by intros ?%elem_of_nil|]. destruct k as [|k]; [|apply IH].
  destruct (templateReference (String c t)) as [[w x]|] eqn:E; [|apply IH]. intros [->|H]%elem_of_cons; [|by eapply IH].
  unfold templateReference in E. destruct (reference "{args." _) as [[? ?]|]; [injection E as <- <-; by left|].
  destruct (reference "{slots." _) as [[? ?]|]; [injection E as <- <-; by right|done].
Qed.

(** An accepted tool is sent. When the loader accepted it, the model
    passed every argument the tool requires as a single value that can be a
    path segment, the slots its path names hold such values and no query
    parameter is a collection, and the deployment has the secrets, then the
    call is prepared: neither a path without a segment nor a parameter the
    template cannot take stops it. *)
Theorem accepted_call_is_sent b s tool spec args slots u
    (Ha : validateHTTPCall Parse s tool spec = []) (Hpath : Path spec <> ""%string) (Hbase : call_base Parse b spec = Ok u)
    (Hargs : forall a, a ∈ Required tool -> is_ok (pathValue FormatFloat Sprint (default VNil (args !! a))) = true)
    (Hslots : forall n, ("slots"%string, n) ∈ find_all templateReference 0 (path (url_parts spec).1) -> has s n = true ->
       is_ok (pathValue FormatFloat Sprint (default VNil (slots !! n))) = true)
    (Hquery : forall k t m, query (url_parts spec).1 !! k = Some t -> m ∈ find_all templateReference 0 t -> is_collection (resolveReference args slots m) = false)
    (Hsecrets : forall n v name, Headers spec !! n = Some v -> name ∈ secretNames v -> secret_problem (secrets b) n name = None)
    (Hmarshal : forall v, is_Some (Marshal v)) (Hnew : forall m x, NewRequest m x = true) :
  exists r, prepare b spec args slots = Send r.
Proof.
  destruct (accepted_call _ _ _ Ha) as (_ & Hprob & Hp & _). destruct (Hp Hpath) as [Hlit Href]. unfold FlowHTTP.prepare. rewrite Hbase.
  destruct (url_parts spec) as [parts problems]. simpl in *. subst problems.
  destruct (renderPath_ok args slots (path parts) Hlit) as [p Ep].
  { intros [src n] Hm. specialize (Href _ Hm) as Hr. unfold path_reference in Hr. simpl in Hr.
    destruct (find_all_source _ _ Hm) as [E|E]; simpl in E; subst src; unfold resolveReference; simpl in *.
    - destruct (negb (contains (toolArgNames tool) n)); [done|]. destruct (contains (Required tool) n) eqn:Ec; [|done].
      apply contains_true in Ec. by apply Hargs.
    - apply bad_nil in Hr. apply negb_false_iff in Hr. by apply Hslots. }
  rewrite Ep. destruct (renderQuery_ok args slots (query parts) Hquery) as [q ->].
  destruct (buildURL_total u p parts q (proj1 (path_reads _ _ _ _ Ep))) as [target ->].
  assert (exists body, call_body FormatFloat Sprint Marshal spec (if String.eqb (Method spec) "" then "POST"%string else Method spec) args slots = Some body) as [body ->].
  { unfold call_body. destruct (Body spec) as [t|]; [|by eexists]. destruct (Hmarshal (renderValue FormatFloat Sprint (VMap t) args slots)) as [x ->]. by eexists. }
  rewrite Hnew. simpl. destruct (call_headers_ok (secrets b) (Headers spec) (sorted_keys (Headers spec))) as [l ->]; [|by eexists].
  intros n name Hn Hname. destruct (Headers spec !! n) as [v|] eqn:E; [by eapply Hsecrets|]. simpl in Hname. by apply elem_of_nil in Hname.
Qed.

(** *** Secrets *)

Definition same_but_headers (r r' : Request) : Prop :=
  rqMethod r = rqMethod r' /\ rqURL r = rqURL r' /\ rqBody r = rqBody r' /\ rqTimeout r = rqTimeout r'.

Lemma call_headers_alike l1 l2 headers names : (forall n name, secret_problem l1 n name = secret_problem l2 n name) ->
  match call_headers l1 headers names, call_headers l2 headers names with
  | Ok h1, Ok h2 => True
  | Err e1, Err e2 => e1 = e2
  | _, _ => False
  end.
Proof.
  intros H. induction names as [|n names IH]; simpl; [done|].
  assert (E : match resolveSecrets l1 n (default ""%string (headers !! n)), resolveSecrets l2 n (default ""%string (headers !! n)) with
              | Ok _, Ok _ => True | Err e1, Err e2 => e1 = e2 | _, _ => False end).
  { unfold resolveSecrets. rewrite (list_omap_ext (secret_problem l1 n) (secret_problem l2 n) (secretNames (default ""%string (headers !! n)))
      (secretNames (default ""%string (headers !! n)))); [by destruct (omap (secret_problem l2 n) _)|]. apply Forall_Forall2_diag, Forall_true. done. }
  destruct (resolveSecrets l1 _ _), (resolveSecrets l2 _ _); try done. cbn [mbind res_bind].
  by destruct (call_headers l1 headers names), (call_headers l2 headers names).
Qed.

Lemma prepare_alike b1 b2 spec args slots : base b1 = base b2 -> isBasePinned b1 = isBasePinned b2 ->
  (forall n name, secret_problem (secrets b1) n name = secret_problem (secrets b2) n name) ->
  match prepare b1 spec args slots, prepare b2 spec args slots with
  | Send r1, Send r2 => same_but_headers r1 r2
  | Refuse e1, Refuse e2 => e1 = e2
  | CannotCall e1, CannotCall e2 => e1 = e2
  | _, _ => False
  end.
Proof.
  intros Hb Hpin Hs. assert (E : call_base Parse b1 spec = call_base Parse b2 spec) by (unfold call_base; by rewrite Hb, Hpin).
  unfold FlowHTTP.prepare. rewrite E. destruct (call_base Parse b2 spec) as [u|]; [|done]. destruct (url_parts spec) as [parts [|pr problems]]; [|done].
  destruct (FlowHTTP.renderPath _ _ _ _ _) as [p|]; [|done]. destruct (FlowHTTP.renderQuery _ _ _ _ _) as [q|]; [|done].
  destruct (buildURL u p parts q) as [target|]; [|done]. destruct (call_body _ _ _ _ _ _ _) as [body|]; [|done]. destruct (negb _); [done|].
  pose proof (call_headers_alike (secrets b1) (secrets b2) (Headers spec) (sorted_keys (Headers spec)) Hs) as H.
  destruct (call_headers (secrets b1) _ _), (call_headers (secrets b2) _ _); [done..|]. by subst.
Qed.

(** A secret shows only in the headers of the request. Take two
    deployments that differ in nothing but the values of secrets that can be
    sent: a call is refused, fails or is sent by both alike, with the same
    method, URL, body and time limit; and when the backends answer the two
    requests alike, the model, the flow and the caller of [Call] are told the
    same. *)
Theorem secret_stays_in_headers ParseFloat Unmarshal refusal b1 b2 Do1 Do2 spec args slots
    (Hb : base b1 = base b2) (Hpin : isBasePinned b1 = isBasePinned b2)
    (Hs : forall n name, secret_problem (secrets b1) n name = secret_problem (secrets b2) n name)
    (Hdo : forall r1 r2, same_but_headers r1 r2 -> Do1 r1 = Do2 r2) :
  (forall r1, prepare b1 spec args slots = Send r1 -> exists r2, prepare b2 spec args slots = Send r2 /\ same_but_headers r1 r2) /\
  Call ParseFloat FormatFloat Sprint Parse Marshal NewRequest Unmarshal refusal b1 Do1 spec args slots =
  Call ParseFloat FormatFloat Sprint Parse Marshal NewRequest Unmarshal refusal b2 Do2 spec args slots.
Proof.
  pose proof (prepare_alike b1 b2 spec args slots Hb Hpin Hs) as H. split.
  - intros r1 E. rewrite E in H. destruct (prepare b2 spec args slots) as [| |r2]; [done..|]. by exists r2.
  - unfold Call. destruct (prepare b1 spec args slots) as [e|e|r1], (prepare b2 spec args slots) as [e'|e'|r2]; try done; [by subst..|].
    by rewrite (Hdo _ _ H).
Qed.

(** What was published has its secrets. When the publish rule found every
    secret of a flow on the deployment, no call of the flow's tools fails for
    a secret that is not set. *)
Theorem published_secrets_are_set b s name tool spec args slots
    (Hp : RequireToolSecrets (secrets b) s = true) (Ht : Tools s !! name = Some tool) (Hk : Kind tool <> ToolKindSlot) (Hh : HTTP tool = Some spec) :
  forall header var, prepare b spec args slots <> CannotCall (NoSecret (Unset header var)).
Proof.
  intros header var H.
  assert (Hset : forall n v x, Headers spec !! n = Some v -> x ∈ secretNames v -> exists y, secrets b (SecretEnv x) = Some y /\ y <> ""%string).
  { intros n v x Hn Hx. unfold RequireToolSecrets in Hp. destruct (MissingSecrets (secrets b) s) eqn:E; [|done]. clear Hp. unfold MissingSecrets in E.
    apply (flat_map_nil _ _ (name, tool)) in E; [|by apply elem_of_map_to_list]. simpl in E. rewrite Hh in E.
    rewrite (proj2 (String.eqb_neq _ _) Hk) in E. apply (flat_map_nil _ _ (n, v)) in E; [|by apply elem_of_map_to_list].
    apply (flat_map_nil _ _ x) in E; [|done]. cbn beta in E. destruct (secrets b (SecretEnv x)) as [y|]; [|done]. exists y. split; [done|].
    by destruct (String.eqb_spec y ""). }
  unfold FlowHTTP.prepare in H. destruct (call_base Parse b spec) as [u|e] eqn:Eb.
  2: { unfold call_base in Eb. injection H as ->. repeat case_match; congruence. }
  destruct (url_parts spec) as [parts [|pr problems]]; [|done].
  destruct (FlowHTTP.renderPath _ _ _ _ _) as [p|]; [|done]. destruct (FlowHTTP.renderQuery _ _ _ _ _) as [q|]; [|done].
  destruct (buildURL u p parts q) as [target|]; [|done]. destruct (call_body _ _ _ _ _ _ _) as [body|]; [|done]. destruct (negb _); [done|].
  destruct (call_headers _ _ _) as [l|pr] eqn:E; [done|]. injection H as ->.
  enough (forall names, call_headers (secrets b) (Headers spec) names <> Err (Unset header var)) by (by eapply H).
  clear E. induction names as [|n names IH]; simpl; [done|].
  destruct (resolveSecrets (secrets b) n _) as [v|e] eqn:Er; cbn [mbind res_bind];
    [destruct (call_headers _ _ names); [done|]; cbn [mbind res_bind]; congruence|].
  intros [= ->]. unfold resolveSecrets in Er. destruct (omap _ _) as [|p' l'] eqn:Eo; [done|]. injection Er as ->.
  assert (Unset header var ∈ omap (secret_problem (secrets b) n) (secretNames (default ""%string (Headers spec !! n)))) as Hin by (rewrite Eo; by left).
  apply list_elem_of_omap in Hin as (x & Hx & Hpr). destruct (Headers spec !! n) as [v|] eqn:En; simpl in Hx; [|by apply elem_of_nil in Hx].
  destruct (Hset _ _ _ En Hx) as (y & Hy & Hne). unfold secret_problem in Hpr. rewrite Hy, (proj2 (String.eqb_neq _ _) Hne) in Hpr. by case_match.
Qed.

End request.

(** ** The answer shows only what is mapped *)

(** Two responses look the same to a tool: at every path it reads. *)
Definition alike_element (each : gmap string string) (a b : Value) : Prop :=
  match a, b with
  | VMap m, VMap n => forall k p, each !! k = Some p -> lookupPath m p = lookupPath n p
  | VMap _, _ | _, VMap _ => False
  | _, _ => True
  end.
Definition alike_value (f : ModelOnlyField) (a b : option Value) : Prop :=
  if IsProjection f then
    match a, b with
    | Some (VList l), Some (VList m) => Forall2 (alike_element (MEach f)) l m
    | Some (VList _), _ | _, Some (VList _) => False
    | _, _ => True
    end
  else a = b.
Definition alike_response (spec : HTTPCall) (a b : list (string * Value)) : Prop :=
  (forall t, SuccessWhen spec = Some t -> lookupPath a (SPath t) = lookupPath b (SPath t)) /\
  lookupPath a (ErrorFrom spec) = lookupPath b (ErrorFrom spec) /\
  (forall k p, ResultPaths spec !! k = Some p -> lookupPath a p = lookupPath b p) /\
  (forall k f, ModelOnlyFields spec !! k = Some f -> alike_value f (lookupPath a (MPath f)) (lookupPath b (MPath f))).

Lemma omap_alike {A B} (f g : A -> option B) (m : gmap string A) : (forall k x, m !! k = Some x -> f x = g x) -> omap f m = omap g m.
Proof. intros H. apply map_eq. intros k. rewrite !lookup_omap. destruct (m !! k) eqn:E; simpl; [by eapply H|done]. Qed.

Lemma extract_alike f a b : alike_value f (lookupPath a (MPath f)) (lookupPath b (MPath f)) -> extract f a = extract f b.
Proof.
  unfold alike_value, extract. destruct (IsProjection f) eqn:Ep; [|by intros ->].
  destruct (lookupPath a (MPath f)) as [x|], (lookupPath b (MPath f)) as [y|]; simpl; [|by destruct x|by destruct y|done].
  destruct x; try (by destruct y). destruct y; try done. intros H. do 2 f_equal.
  apply list_omap_ext. eapply Forall2_impl; [exact H|]. intros u v Huv. destruct u, v; try done. simpl in *. do 3 f_equal. by apply omap_alike.
Qed.

(** Of an answer only the mapped fields come through. Two responses that
    agree at the paths the tool reads (inside a projected list, at the paths
    of each element) give the model, the slots and the transcript the same,
    whatever else they hold; and an answer that says no leaves nothing but
    its message. *)
Theorem answer_shows_only_mapped ParseFloat FormatFloat Sprint Unmarshal spec status p1 p2 d1 d2
    (H1 : Unmarshal p1 = Some d1) (H2 : Unmarshal p2 = Some d2) (H : alike_response spec d1 d2) :
  answer ParseFloat FormatFloat Sprint Unmarshal spec (Answered status p1) = answer ParseFloat FormatFloat Sprint Unmarshal spec (Answered status p2).
Proof.
  destruct H as (Hs & He & Hr & Hm). unfold answer, backendErrorCode. rewrite H1, H2. cbn [mbind option_bind]. rewrite He.
  destruct (_ && _); [done|]. destruct (400 <=? status); [done|]. f_equal. unfold resultFrom. rewrite He.
  rewrite (omap_alike (lookupPath d1) (lookupPath d2) (ResultPaths spec)) by exact Hr.
  rewrite (omap_alike (fun f => extract f d1) (fun f => extract f d2) (ModelOnlyFields spec)) by (intros; by eapply extract_alike, Hm).
  destruct (SuccessWhen spec) as [t|]; [by rewrite (Hs t)|done].
Qed.

(** The comparison with the expected text never panics. *)
Lemma success_test_decides ParseFloat FormatFloat Sprint v x : is_Some (valuesEqual ParseFloat FormatFloat Sprint v (VStr x)).
Proof. unfold valuesEqual. destruct v; simpl; try (by eexists); repeat case_match; by eexists. Qed.

(** ** Examples *)

Definition demo_call : HTTPCall :=
  mkHTTP "" "/orders/{args.id}/notes?v=2" ""
    {["text" := "{args.text}"; "by" := "{slots.caller}"; "ref" := "{args.ref}"]}%string
    {["Authorization" := "Bearer {secrets.CRM_KEY}"]}%string
    (Some 800) (Some [("note", VStr "{args.text}")]%string)
    (Some (mkSuccess "status" "created")) "error.message"
    {["noteId" := "note.id"]}%string
    {["passages" := mkModelOnly "hits" {["text" := "body"]} true]}%string.
Definition demo_tool : Tool :=
  mkTool "http" (say "Adds a note.") ["id"; "text"; "ref"]%string ["id"; "text"]%string (Some demo_call) "" [] None.
Definition demo_spec : Spec :=
  mkSpec "demo" "v2" "greet" (mkGlobal (say "A clerk.") "greet" "greet" 2 1 None (say "") [] [])
    {["greet"%string := mkNode "greet" (say "Greet.") (say "") ["note"]%string [] false None]}
    {["note"%string := demo_tool]}.

Definition demo_base : URL := mkURL "http" None "crm.internal:8080" "/api/" "" "" false "".
Definition one_secret (value name : string) : option string :=
  if String.eqb name "AICC_TOOL_SECRET_CRM_KEY" then Some value else None.
Definition demo_backend (secret : string) : Backend := mkBackend (Some demo_base) false (one_secret secret).
Definition nasty : gmap string Value :=
  {["id" := VStr "../@evil.com/x?y#z"; "text" := VStr "a&by=b c"]}%string.
Definition demo_slots : gmap string Value := {["caller" := VStr "+4681234567"]}%string.
Definition no_parse (s : string) : option URL := None.
Definition quiet_marshal (v : Value) : option string := Some "{}"%string.
Definition any_request (m : string) (u : URL) : bool := true.

#[local] Notation demo_prepare b := (prepare no_format no_sprint no_parse quiet_marshal any_request b demo_call nasty demo_slots).

Definition demo_request (secret : string) : Request :=
  mkRequest "POST"
    (mkURL "http" None "crm.internal:8080" "/api/orders/../@evil.com/x?y#z/notes" "/api/orders/..%2F@evil.com%2Fx%3Fy%23z/notes"
       "v=2&by=%2B4681234567&text=a%26by%3Db+c" false "")
    [("Content-Type", "application/json"); ("Authorization", "Bearer " +:+ secret)]%string (Some "{}"%string) (800 * 1000000).

Lemma demo_sent : demo_prepare (demo_backend "k1") = Send (demo_request "k1").
Proof. vm_compute. reflexivity. Qed.

Lemma demo_tool_accepted : validateHTTPCall no_parse demo_spec demo_tool demo_call = [].
Proof. vm_compute. reflexivity. Qed.

Lemma path_keeps_its_segments_witness :
  split slash "/orders/..%2F@evil.com%2Fx%3Fy%23z/notes" = [""; "orders"; "..%2F@evil.com%2Fx%3Fy%23z"; "notes"]%string /\
  exists shape, template_shape "/orders/{args.id}/notes" = Some shape /\
    split slash "/orders/..%2F@evil.com%2Fx%3Fy%23z/notes" = map (sent_segment no_format no_sprint nasty demo_slots) shape /\
    validEncoded "/orders/..%2F@evil.com%2Fx%3Fy%23z/notes" = true /\
    Forall (fun seg => unescape EncSegment (sent_segment no_format no_sprint nasty demo_slots seg) = Some (meant_segment no_format no_sprint nasty demo_slots seg) /\
                       (has_ref seg -> meant_segment no_format no_sprint nasty demo_slots seg ∉ [""; "."; ".."]%string)) shape.
Proof. split; [reflexivity|]. apply path_keeps_its_segments. vm_compute. reflexivity. Defined.

Lemma query_arrives_as_rendered_witness :
  exists vs, ParseQuery (RawQuery (rqURL (demo_request "k1"))) =
      ((ParseQuery (rawQuery (url_parts demo_call).1)).1 ++ vs, (ParseQuery (rawQuery (url_parts demo_call).1)).2) /\
    NoDup vs.*1 /\
    forall param text, (param, text) ∈ vs <->
      exists template, query (url_parts demo_call).1 !! param = Some template /\
        render_param no_format no_sprint nasty demo_slots param template = Ok (Some text).
Proof. exact (query_arrives_as_rendered _ _ _ _ _ _ _ _ _ _ demo_sent). Defined.

Lemma request_goes_to_base_witness : Host (rqURL (demo_request "k1")) = "crm.internal:8080"%string /\
  EscapedPath (rqURL (demo_request "k1")) = "/api/orders/..%2F@evil.com%2Fx%3Fy%23z/notes"%string /\
  breaks_header "Bearer k1" = false.
Proof.
  destruct (request_goes_to_base _ _ _ _ _ _ _ _ _ _ _ _ demo_tool_accepted demo_sent) as (u & p & Hu & Hp & _ & _ & Hh & _ & He & _ & _ & Hb & _).
  injection Hu as <-. split; [exact Hh|]. split; [|apply (Hb "Authorization"%string); right; left].
  rewrite He. vm_compute in Hp. injection Hp as <-. vm_compute. reflexivity.
Defined.

Lemma accepted_call_is_sent_witness : exists r, demo_prepare (demo_backend "k1") = Send r.
Proof.
  eapply (accepted_call_is_sent _ _ _ _ _ _ demo_spec demo_tool demo_call _ _ demo_base demo_tool_accepted); [done|reflexivity|..].
  - intros a Ha. assert (a = "id" \/ a = "text")%string as [->| ->] by set_solver; vm_compute; reflexivity.
  - intros n Hn. vm_compute in Hn. set_solver.
  - intros k t m Hk Hm. assert (H : map_Forall (fun _ t => Forall (fun m => is_collection (resolveReference nasty demo_slots m) = false) (find_all templateReference 0 t)) (query (url_parts demo_call).1)).
    { apply (bool_decide_eq_true_1 _). vm_compute. reflexivity. }
    specialize (H k t Hk). rewrite Forall_forall in H. by apply H.
  - intros n v name Hn Hname. cbn [Headers demo_call] in Hn. apply lookup_singleton_Some in Hn as [<- <-]. vm_compute in Hname.
    apply list_elem_of_singleton in Hname as ->. vm_compute. reflexivity.
  - intros v. by eexists.
  - done.
Defined.

(** The same answer to every request that asks for the same. *)
Definition reply_to (r : Request) : Reply := Answered 200 (rqMethod r).

Definition one_field (s : string) : option (list (string * Value)) := Some [("status"%string, VStr s)].
Definition unnamed (e : RenderError) : string := "the request cannot be made".

Lemma secret_stays_in_headers_witness :
  Call parse_digit no_format no_sprint no_parse quiet_marshal any_request one_field unnamed (demo_backend "k1") reply_to demo_call nasty demo_slots =
  Call parse_digit no_format no_sprint no_parse quiet_marshal any_request one_field unnamed (demo_backend "other") reply_to demo_call nasty demo_slots.
Proof.
  apply (secret_stays_in_headers no_format no_sprint no_parse quiet_marshal any_request).
  - reflexivity.
  - reflexivity.
  - intros n name. unfold secret_problem, demo_backend, one_secret. cbn [secrets].
    by destruct (String.eqb (SecretEnv name) "AICC_TOOL_SECRET_CRM_KEY").
  - intros r1 r2 (H & _). unfold reply_to. by rewrite H.
Defined.

Lemma published_secrets_are_set_witness : demo_prepare (demo_backend "k1") <> CannotCall (NoSecret (Unset "Authorization" "AICC_TOOL_SECRET_CRM_KEY")).
Proof.
  apply (published_secrets_are_set _ _ _ _ _ _ demo_spec "note" demo_tool); [vm_compute; reflexivity|vm_compute; reflexivity|done|reflexivity].
Defined.

Definition demo_answer (private : string) (_ : string) : option (list (string * Value)) :=
  Some [("status", VStr "created"); ("note", VMap [("id", VStr "n7"); ("author", VStr private)]);
        ("hits", VList [VMap [("body", VStr "Returns take 14 days."); ("owner", VStr private)]; VStr "x"])]%string.

Lemma answer_shows_only_mapped_witness : forall d1 d2, demo_answer "Ann" "" = Some d1 -> demo_answer "Bo" "" = Some d2 ->
  d1 <> d2 /\
  answer parse_digit no_format no_sprint (fun p => demo_answer p "") demo_call (Answered 201 "Ann") =
  answer parse_digit no_format no_sprint (fun p => demo_answer p "") demo_call (Answered 201 "Bo").
Proof.
  intros d1 d2 H1 H2. split; [intros ->; rewrite <- H2 in H1; discriminate|]. apply (answer_shows_only_mapped _ _ _ _ _ _ _ _ d1 d2); [done..|].
  injection H1 as <-. injection H2 as <-. split; [|split; [|split]].
  - intros t [= <-]. reflexivity.
  - reflexivity.
  - cbn [ResultPaths demo_call]. intros k p [<- <-]%lookup_singleton_Some. reflexivity.
  - cbn [ModelOnlyFields demo_call]. intros k f [<- <-]%lookup_singleton_Some. simpl. constructor; [|by repeat constructor]. cbn [MEach]. intros k p [<- <-]%lookup_singleton_Some. reflexivity.
Defined.

End FlowHTTP.
