(* ===== verification/NetIP.v ===== *)
(** * IP addresses: what the program uses of Go's [net/netip] and [net]

    Addresses of the two families, prefixes, the standard text forms and
    [host:port]. *)

From S2P Require Import Prelude GoText URL.

Module NetIP.
Import GoText URL.

(** [netip.Addr]: an IPv4 address is 32 bits, an IPv6 one 128 bits and a zone. *)
Inductive Addr := V4 (n : Z) | V6 (n : Z) (zone : string).

#[export] Instance Addr_eq_dec : EqDecision Addr.
Proof. solve_decision. Defined.

Definition valid (a : Addr) : Prop := match a with V4 n => 0 <= n < 2 ^ 32 | V6 n _ => 0 <= n < 2 ^ 128 end.

Definition WithZone (zone : string) (a : Addr) : Addr := match a with V4 n => V4 n | V6 n _ => V6 n zone end.
Definition Zone (a : Addr) : string := match a with V4 _ => ""%string | V6 _ z => z end.

(** [::ffff:a.b.c.d] *)
Definition is_mapped (n : Z) : bool := Z.shiftr n 32 =? 65535.
Definition Unmap (a : Addr) : Addr :=
  match a with V6 n _ => if is_mapped n then V4 (Z.land n (2 ^ 32 - 1)) else a | V4 _ => a end.

(** [netip.Prefix] *)
Record Prefix := mkPrefix { PAddr : Addr; Bits : Z }.

(** [Prefix.Contains]: of the same family, and never an address with a zone. *)
Definition Contains (p : Prefix) (a : Addr) : bool :=
  match PAddr p, a with
  | V4 n, V4 m => Z.shiftr n (32 - Bits p) =? Z.shiftr m (32 - Bits p)
  | V6 n _, V6 m z => String.eqb z "" && (Z.shiftr n (128 - Bits p) =? Z.shiftr m (128 - Bits p))
  | _, _ => false
  end.

(** ** Text *)

(** [parseIPv4Fields]: the octets so far, the value and the number of digits of
    the one being read. *)
Fixpoint parse_v4 (fields : list Z) (val : Z) (digits : nat) (s : string) : option (list Z) :=
  match s with
  | EmptyString => if (digits =? 0)%nat || negb (length fields =? 3)%nat then None else Some (fields ++ [val])
  | String c s =>
      if byte_digit c then
        if (digits =? 1)%nat && (val =? 0) then None
        else
          let val := val * 10 + (byteZ c - 48) in
          if 255 <? val then None else parse_v4 fields val (S digits) s
      else if Ascii.eqb c "." then
        if (digits =? 0)%nat || (length fields =? 3)%nat then None else parse_v4 (fields ++ [val]) 0 0 s
      else None
  end.

Definition number (base : Z) (l : list Z) : Z := fold_left (fun acc x => acc * base + x) l 0.

(** The hexadecimal digits at the front: how many, their value and the rest;
    [None] when there are more than four. *)
Fixpoint hex_run (count : nat) (acc : Z) (s : string) : option (nat * Z * string) :=
  match s with
  | String c r => match unhex c with
                  | Some d => if (3 <? count)%nat then None else hex_run (S count) (acc * 16 + d) r
                  | None => Some (count, acc, s)
                  end
  | EmptyString => Some (count, acc, s)
  end.

(** [parseIPv6]'s loop: the groups of 16 bits so far, where the ellipsis is and
    what is left to read. Each turn reads a group, so nine turns are enough. *)
Fixpoint parse_v6 (fuel : nat) (groups : list Z) (ellipsis : option nat) (s : string) : option (list Z * option nat) :=
  match fuel with
  | O => None
  | S fuel =>
      if (8 <=? length groups)%nat then (if String.eqb s "" then Some (groups, ellipsis) else None)
      else match hex_run 0 0 s with
      | None | Some (O, _, _) => None
      | Some (_, acc, rest) =>
          match rest with
          | EmptyString => Some (groups ++ [acc], ellipsis)
          | String c rest' =>
              if Ascii.eqb c "." then
                if bool_decide (ellipsis = None) && negb (length groups =? 6)%nat then None
                else if (6 <? length groups)%nat then None
                else
                  match parse_v4 [] 0 0 s with
                  | Some [a; b; c; d] => Some (groups ++ [a * 256 + b; c * 256 + d], ellipsis)
                  | _ => None
                  end
              else if negb (Ascii.eqb c ":") then None
              else match rest' with
                   | EmptyString => None
                   | String c' rest'' =>
                       let groups := groups ++ [acc] in
                       if Ascii.eqb c' ":" then
                         match ellipsis with
                         | Some _ => None
                         | None => if String.eqb rest'' "" then Some (groups, Some (length groups))
                                   else parse_v6 fuel groups (Some (length groups)) rest''
                         end
                       else parse_v6 fuel groups ellipsis rest'
                   end
          end
      end
  end.

(** The groups with the ellipsis filled in. *)
Definition expand (groups : list Z) (ellipsis : option nat) : option (list Z) :=
  match ellipsis with
  | None => if (length groups =? 8)%nat then Some groups else None
  | Some at_ => if (length groups <? 8)%nat then Some (take at_ groups ++ repeat 0 (8 - length groups) ++ skipn at_ groups) else None
  end.

Definition parse_ipv6 (s : string) : option Addr :=
  let '(s, zone, isZoned) := match cut_at percent s with Some (s, z) => (s, z, true) | None => (s, ""%string, false) end in
  if isZoned && String.eqb zone "" then None
  else
    let ellipsis := has_prefix "::" s in
    let rest := if ellipsis then GoText.drop 2 s else s in
    if ellipsis && String.eqb rest "" then Some (V6 0 zone)
    else
      '(groups, at_) ← parse_v6 9 [] (if ellipsis then Some 0%nat else None) rest;
      groups ← expand groups at_;
      Some (V6 (number 65536 groups) zone).

(** The first dot, colon or percent sign decides. *)
Fixpoint first_of (s : string) : option ascii :=
  match s with
  | EmptyString => None
  | String c s => if Ascii.eqb c "." || Ascii.eqb c ":" || Ascii.eqb c percent then Some c else first_of s
  end.

(** [netip.ParseAddr] *)
Definition ParseAddr (s : string) : option Addr :=
  match first_of s with
  | Some c =>
      if Ascii.eqb c "." then (fun l => V4 (number 256 l)) <$> parse_v4 [] 0 0 s
      else if Ascii.eqb c ":" then parse_ipv6 s else None
  | None => None
  end.

Example parse_dotted : ParseAddr "169.254.169.254" = Some (V4 2852039166).
Proof. reflexivity. Qed.
Example parse_mapped : Unmap <$> ParseAddr "::ffff:10.0.0.1" = Some (V4 167772161).
Proof. reflexivity. Qed.
Example parse_zone : ParseAddr "fe80::1%eth0" = Some (V6 (Z.shiftl 65152 112 + 1) "eth0").
Proof. reflexivity. Qed.
Example parse_refused : map ParseAddr ["010.0.0.1"; "1.2.3"; "1:2"; "::1::"; "12345::"; "1.2.3.4.5"; "1..2.3"; "fe80::1%"]%string = repeat None 8.
Proof. reflexivity. Qed.

(** [net.SplitHostPort]; [None] is the error. *)
Definition SplitHostPort (hostport : string) : option (string * string) :=
  match last_cut ":" hostport with
  | None => None
  | Some (before, from) =>
      let port := GoText.drop 1 from in
      if has_prefix "[" hostport then
        match cut_at "]" hostport with
        | Some (h, rest) =>
            let host := GoText.drop 1 h in
            (* the bracket ends where the last colon is *)
            if String.eqb rest from && negb (has_byte "[" host) && negb (has_byte "[" rest) && negb (has_byte "]" rest) then Some (host, port) else None
        | None => None
        end
      else if has_byte ":" before then None
      else if has_byte "[" hostport || has_byte "]" hostport then None
      else Some (before, port)
  end.

Example split_port : map SplitHostPort ["a.b:80"; "[::1]:443"; "::1:80"; "a.b"; "[::1]"; "a:"]%string =
  [Some ("a.b", "80"); Some ("::1", "443"); None; None; None; Some ("a", "")]%string.
Proof. reflexivity. Qed.

End NetIP.
