(* ===== verification/Egress.v ===== *)
(** * The outbound host policy: [internal/egress/policy.go], [dialer.go]

    Where the platform may open a connection for a flow's author: which
    addresses are never reached, which always, and which only when the host the
    tool named is on the deployment's list. [strings.ToLower], whose tables are
    Unicode's, is an argument, and so are the resolver and what the network
    answers. *)

From S2P Require Import Prelude GoText URL NetIP.

Module Egress.
Import GoText URL NetIP.

(** [internal/egress/policy.go:Rule] *)
Inductive Rule :=
| RulePrivate | RuleLoopback | RuleAllowedHost | RuleLinkLocal | RuleCloudMetadata | RuleUnspecified | RuleMulticast
| RulePublicNotListed | RuleNonCanonical.

(** [internal/egress/policy.go:Class] *)
Inductive Class := ClassPublic | ClassPrivate | ClassLoopback | ClassLinkLocal | ClassUnspecified | ClassMulticast | ClassCloudMetadata.

#[export] Instance Class_eq_dec : EqDecision Class.
Proof. solve_decision. Defined.
#[export] Instance Rule_eq_dec : EqDecision Rule.
Proof. solve_decision. Defined.

(** [a.b.c.d/bits], and a prefix of IPv6 by its first groups. *)
Definition v4 (a b c d : Z) : Z := number 256 [a; b; c; d].
Definition p4 (a b c d bits : Z) : Prefix := mkPrefix (V4 (v4 a b c d)) bits.
Definition p6 (groups : list Z) (bits : Z) : Prefix :=
  mkPrefix (V6 (number 65536 (groups ++ repeat 0 (8 - length groups))) "") bits.

(** [internal/egress/policy.go:var(privatePrefixes)] *)
Definition privatePrefixes : list Prefix := [p4 10 0 0 0 8; p4 172 16 0 0 12; p4 192 168 0 0 16; p6 [64512] 7].

(** [internal/egress/policy.go:var(loopbackPrefixes)] *)
Definition loopbackPrefixes : list Prefix := [p4 127 0 0 0 8; p6 [0; 0; 0; 0; 0; 0; 0; 1] 128].

(** [internal/egress/policy.go:var(linkLocalPrefixes)] *)
Definition linkLocalPrefixes : list Prefix := [p4 169 254 0 0 16; p6 [65152] 10].

(** [internal/egress/policy.go:var(unspecifiedPrefixes)] *)
Definition unspecifiedPrefixes : list Prefix := [p4 0 0 0 0 8; p6 [] 128].

(** [internal/egress/policy.go:var(multicastPrefixes)] *)
Definition multicastPrefixes : list Prefix := [p4 224 0 0 0 4; p4 255 255 255 255 32; p6 [65280] 8].

(** [internal/egress/policy.go:var(cloudMetadataPrefixes)] *)
Definition cloudMetadataPrefixes : list Prefix := [p6 [64768; 3778] 32].

(** [internal/egress/policy.go:var(nat64Prefix)] *)
Definition nat64Prefix : Prefix := p6 [100; 65435] 96.

(** [internal/egress/policy.go:var(nat64LocalPrefix)] *)
Definition nat64LocalPrefix : Prefix := p6 [100; 65435; 1] 48.

(** Byte [i] of the sixteen of an IPv6 address. *)
Definition byte16 (n i : Z) : Z := Z.land (Z.shiftr n (8 * (15 - i))) 255.

(** [internal/egress/policy.go:embeddedIPv4] *)
Definition embeddedIPv4 (a : Addr) : Addr :=
  match a with
  | V4 _ => a
  | V6 n _ =>
      if Contains nat64Prefix a then V4 (v4 (byte16 n 12) (byte16 n 13) (byte16 n 14) (byte16 n 15))
      else if Contains nat64LocalPrefix a then V4 (v4 (byte16 n 6) (byte16 n 7) (byte16 n 9) (byte16 n 10))
      else a
  end.

(** [internal/egress/policy.go:containedIn] *)
Definition containedIn (prefixes : list Prefix) (a : Addr) : bool := existsb (fun p => Contains p a) prefixes.

(** [internal/egress/policy.go:Classify] *)
Definition Classify (a : Addr) : Class :=
  let a := embeddedIPv4 (Unmap (WithZone "" a)) in
  if containedIn cloudMetadataPrefixes a then ClassCloudMetadata
  else if containedIn unspecifiedPrefixes a then ClassUnspecified
  else if containedIn linkLocalPrefixes a then ClassLinkLocal
  else if containedIn multicastPrefixes a then ClassMulticast
  else if containedIn loopbackPrefixes a then ClassLoopback
  else if containedIn privatePrefixes a then ClassPrivate
  else ClassPublic.

(** ** The allowlist *)

(** [internal/egress/policy.go:Entry] *)
Record Entry := mkEntry { EHost : string; EPort : string; IsWildcard : bool; addr : option Addr }.

Definition name_byte (c : ascii) : bool := in_range 97 122 c || in_range 48 57 c || (byteZ c =? 95).

(** [internal/egress/policy.go:var(hostLabel)] *)
Definition hostLabel (s : string) : bool :=
  match s, rev_string s with
  | String c _, String d _ => name_byte c && name_byte d && all_bytes (fun x => name_byte x || (byteZ x =? 45)) s
  | _, _ => false
  end.

(** [internal/egress/policy.go:isHostName] *)
Definition isHostName (host : string) : bool :=
  negb (253 <? String.length host)%nat &&
  forallb (fun label => negb (63 <? String.length label)%nat && hostLabel label) (split "." host).

(** [internal/egress/policy.go:var(numericPart)] *)
Definition numericPart (s : string) : bool :=
  match s with
  | String z (String x rest) =>
      (Ascii.eqb z "0" && (Ascii.eqb x "x" || Ascii.eqb x "X") && all_bytes (fun c => bool_decide (is_Some (unhex c))) rest) || all_digits s
  | EmptyString => false
  | _ => all_digits s
  end.

(** [strings.TrimSuffix] of a dot, and [strings.Trim] of brackets. *)
Definition trim_dot (s : string) : string := if has_prefix "." (rev_string s) then drop_last s else s.
Fixpoint trim_left (s : string) : string :=
  match s with String c r => if Ascii.eqb c "[" || Ascii.eqb c "]" then trim_left r else s | EmptyString => s end.
Definition trim_brackets (s : string) : string := rev_string (trim_left (rev_string (trim_left s))).

(** [internal/egress/policy.go:isNonCanonicalNumeric] *)
Definition isNonCanonicalNumeric (host : string) : bool :=
  if bool_decide (is_Some (ParseAddr host)) then false
  else
    let parts := split "." (trim_dot host) in
    negb (4 <? length parts)%nat && forallb numericPart parts.

(** [strconv.Atoi] *)
Fixpoint digits_from (acc : Z) (s : string) : Z :=
  match s with EmptyString => acc | String c s => digits_from (acc * 10 + (byteZ c - 48)) s end.
Definition digits_value (s : string) : Z := digits_from 0 s.
Definition Atoi (s : string) : option Z :=
  let '(neg, d) := match s with
                   | String c r => if Ascii.eqb c "-" then (true, r) else if Ascii.eqb c "+" then (false, r) else (false, s)
                   | EmptyString => (false, s)
                   end in
  if String.eqb d "" || negb (all_digits d) then None
  else
    let n := if (neg : bool) then - digits_value d else digits_value d in
    if (- 2 ^ 63 <=? n) && (n <? 2 ^ 63) then Some n else None.

Inductive EntryError := BadPort | NotHostPort | WildcardTooWide | NotAHost | NonStandard | HasZone.

Section policy.
Variable ToLower : string -> string.
(** [Addr.String] *)
Variable AddrString : Addr -> string.

(** [internal/egress/policy.go:addressEntry] *)
Definition addressEntry (a : Addr) (port : string) : res EntryError Entry :=
  if negb (String.eqb (Zone a) "") then Err HasZone
  else Ok (mkEntry (AddrString (Unmap a)) port false (Some (Unmap a))).

(** [internal/egress/policy.go:L237-L257] an entry that is not an address. *)
Definition nameEntry (host port : string) : res EntryError Entry :=
  let host := trim_dot (ToLower host) in
  let isWildcard := has_prefix "*." host in
  let host := if isWildcard then drop 2 host else host in
  if isWildcard && negb (has_byte "." host) then Err WildcardTooWide
  else if String.eqb host "" || negb (isHostName host) then Err NotAHost
  else if negb isWildcard && isNonCanonicalNumeric host then Err NonStandard
  else Ok (mkEntry host port isWildcard None).

(** [internal/egress/policy.go:parseEntry] *)
Definition parseEntry (item : string) : res EntryError Entry :=
  match ParseAddr (trim_brackets item) with
  | Some a => addressEntry a ""
  | None =>
      match SplitHostPort item with
      | Some (h, p) =>
          match Atoi p with
          | Some n => if (n <? 1) || (65535 <? n) then Err BadPort
                      else match ParseAddr h with Some a => addressEntry a p | None => nameEntry h p end
          | None => Err BadPort
          end
      | None => if has_byte ":" item then Err NotHostPort else nameEntry item ""
      end
  end.

(** [internal/egress/policy.go:ParseAllowList] *)
Definition ParseAllowList (raw : string) : res EntryError (list Entry) :=
  mapM parseEntry (filter (fun item => item <> ""%string) (map TrimSpace (split "," raw))).

(** [internal/egress/policy.go:Policy] *)
Definition Policy : Type := list Entry.

(** [internal/egress/policy.go:NewPolicy] *)
Definition NewPolicy (allowed : list Entry) (alwaysAllowed : list string) : Policy :=
  allowed ++ omap (fun host =>
    if String.eqb host "" then None
    else match parseEntry host with
         | Ok e => if IsWildcard e then None else Some (mkEntry (EHost e) "" false (addr e))
         | Err _ => None
         end) alwaysAllowed.

(** [internal/egress/policy.go:L389-L410] one turn of the loop. *)
Definition matches (host port : string) (hostAddr : option Addr) (e : Entry) : bool :=
  if negb (String.eqb (EPort e) "") && negb (String.eqb (EPort e) port) then false
  else match addr e, hostAddr with
       | Some a, Some h => bool_decide (a = h)
       | Some _, None => false
       | None, Some _ => false
       | None, None => if IsWildcard e then has_prefix (rev_string ("." +:+ EHost e)) (rev_string host)
                       else String.eqb host (EHost e)
       end.

(** [internal/egress/policy.go:Policy.isListed] *)
Definition isListed (p : Policy) (host port : string) : bool :=
  let host := trim_dot (ToLower host) in
  existsb (matches host port (Unmap <$> ParseAddr host)) p.

(** [internal/egress/policy.go:Policy.Check] the rule that allowed the
    connection, or refused it. *)
Definition check (p : Policy) (host port : string) (a : Addr) : res Rule Rule :=
  match Classify a with
  | ClassUnspecified => Err RuleUnspecified
  | ClassCloudMetadata => Err RuleCloudMetadata
  | ClassLinkLocal => Err RuleLinkLocal
  | ClassMulticast => Err RuleMulticast
  | ClassLoopback => Ok RuleLoopback
  | ClassPrivate => Ok RulePrivate
  | ClassPublic => if isListed p host port then Ok RuleAllowedHost else Err RulePublicNotListed
  end.

(** [internal/egress/policy.go:portNumber] *)
Definition portNumber (port : string) : Z :=
  match Atoi port with Some n => if (n <? 0) || (65535 <? n) then 0 else n | None => 0 end.

(** ** Dialling *)

Inductive DialError := NotAddress | Refused (rule : Rule) | NotResolved | ConnectFailed | NoAddress.

(** The resolver; the sockets the network layer opens to connect to an address,
    which the policy does not choose; and whether a socket connects. *)
Variable Resolver : string -> option (list Addr).
Variable sockets : Addr -> Z -> list Addr.
Variable Net : Addr -> Z -> bool.

(** [internal/egress/dialer.go:Dialer.resolve] *)
Definition resolve (host : string) : res DialError (list Addr) :=
  match ParseAddr host with
  | Some a => if negb (String.eqb (Zone a) "") then Err (Refused RuleLinkLocal) else Ok [a]
  | None => match Resolver host with Some l => Ok l | None => Err NotResolved end
  end.

(** [internal/egress/dialer.go:Dialer.connect] with [Dialer.control]: a socket
    is judged as it is about to connect. The sockets that went out, and the
    one that connected. *)
Fixpoint connect (p : Policy) (host port : string) (l : list Addr) : list Addr * option Addr :=
  match l with
  | [] => ([], None)
  | a :: rest =>
      match check p host port a with
      | Err _ => connect p host port rest
      | Ok _ => if Net a (portNumber port) then ([a], Some a)
                else let '(out, conn) := connect p host port rest in (a :: out, conn)
      end
  end.

(** [internal/egress/dialer.go:L75-L86] the loop over the addresses: the
    sockets that went out, the errors and the connection. *)
Fixpoint dial_each (p : Policy) (host port : string) (addrs : list Addr) : list Addr * res (list DialError) Addr :=
  match addrs with
  | [] => ([], Err [])
  | a :: rest =>
      match check p host port a with
      | Err rule => let '(out, r) := dial_each p host port rest in
                    (out, match r with Ok c => Ok c | Err es => Err (Refused rule :: es) end)
      | Ok _ =>
          match connect p host port (sockets (WithZone "" a) (portNumber port)) with
          | (out, Some c) => (out, Ok c)
          | (out, None) => let '(out', r) := dial_each p host port rest in
                           (out ++ out', match r with Ok c => Ok c | Err es => Err (ConnectFailed :: es) end)
          end
      end
  end.

(** [internal/egress/dialer.go:Dialer.DialContext] *)
Definition DialContext (p : Policy) (address : string) : list Addr * res (list DialError) Addr :=
  match SplitHostPort address with
  | None => ([], Err [NotAddress])
  | Some (host, port) =>
      if isNonCanonicalNumeric host then ([], Err [Refused RuleNonCanonical])
      else match resolve host with
           | Err e => ([], Err [e])
           | Ok addrs =>
               match dial_each p host port addrs with
               | (out, Err []) => (out, Err [NoAddress])
               | r => r
               end
           end
  end.

(** ** What is reached *)

(** The classes no list opens. *)
Definition never (c : Class) : bool :=
  match c with ClassLinkLocal | ClassCloudMetadata | ClassUnspecified | ClassMulticast => true | _ => false end.

Lemma checkOk p host port a r : check p host port a = Ok r ->
  never (Classify a) = false /\ (Classify a = ClassPublic -> isListed p host port = true).
Proof. unfold check. destruct (Classify a); try done; intros H; split; try done. by destruct (isListed p host port). Qed.

Lemma connect_allowed p host port l a : a ∈ (connect p host port l).1 -> exists r, check p host port a = Ok r.
Proof.
  induction l as [|x l IH]; simpl; [by intros ?%elem_of_nil|]. destruct (check p host port x) as [r|] eqn:E; [|done].
  destruct (Net x _); simpl; [intros ->%list_elem_of_singleton; by eexists|].
  destruct (connect p host port l) as [out conn]. simpl in *. intros [->|H]%elem_of_cons; [by eexists|by apply IH].
Qed.

Lemma dial_each_allowed p host port addrs a : a ∈ (dial_each p host port addrs).1 -> exists r, check p host port a = Ok r.
Proof.
  induction addrs as [|x addrs IH]; simpl; [by intros ?%elem_of_nil|]. destruct (check p host port x) as [r|].
  - pose proof (connect_allowed p host port (sockets (WithZone "" x) (portNumber port)) a) as Hc.
    destruct (connect _ _ _ _) as [out [c|]]; simpl in *; [done|]. destruct (dial_each p host port addrs) as [out' r']. simpl in *.
    intros [H|H]%elem_of_app; [by apply Hc|by apply IH].
  - destruct (dial_each p host port addrs) as [out' r']. by apply IH.
Qed.

(** A socket that goes out was judged. *)
Lemma dial_checked p address a : a ∈ (DialContext p address).1 ->
  exists host port, SplitHostPort address = Some (host, port) /\ isNonCanonicalNumeric host = false /\
    never (Classify a) = false /\ (Classify a = ClassPublic -> isListed p host port = true).
Proof.
  unfold DialContext. destruct (SplitHostPort address) as [[host port]|]; [|by intros ?%elem_of_nil].
  destruct (isNonCanonicalNumeric host) eqn:En; [by intros ?%elem_of_nil|]. destruct (resolve host) as [addrs|e]; [|by intros ?%elem_of_nil].
  intros H. assert (Hin : a ∈ (dial_each p host port addrs).1) by (destruct (dial_each p host port addrs) as [out [c|[|e es]]]; exact H).
  apply dial_each_allowed in Hin as [r Hr]. exists host, port. by destruct (checkOk _ _ _ _ _ Hr).
Qed.

End policy.

(** ** The classes as ranges of addresses *)

(** What an address stands for: the IPv4 address of an IPv4-mapped one
    (::ffff:0:0/96), of the well-known NAT64 prefix (64:ff9b::/96, its last 32
    bits) and of the local one (64:ff9b:1::/48, the 16 bits on either side of
    the octet after bit 64). *)
Definition destination (a : Addr) : Addr :=
  match a with
  | V4 n => V4 n
  | V6 n _ =>
      if n / 2 ^ 32 =? 0xffff then V4 (n mod 2 ^ 32)
      else if n / 2 ^ 32 =? 0x64ff9b0000000000000000 then V4 (n mod 2 ^ 32)
      else if n / 2 ^ 80 =? 0x64ff9b0001 then V4 ((n / 2 ^ 64) mod 2 ^ 16 * 2 ^ 16 + (n / 2 ^ 40) mod 2 ^ 16)
      else V6 n ""
  end.

(** An address from [lo] on and before [hi]. *)
Definition from_to (lo hi n : Z) : Prop := lo <= n < hi.

(** 0.0.0.0/8, 169.254.0.0/16, 224.0.0.0/4 and 255.255.255.255; ::, fe80::/10,
    ff00::/8 and fd00:ec2::/32. *)
Definition forbidden (a : Addr) : Prop :=
  match a with
  | V4 n => from_to 0x00000000 0x01000000 n \/ from_to 0xa9fe0000 0xa9ff0000 n \/ from_to 0xe0000000 0xf0000000 n \/ n = 0xffffffff
  | V6 n _ =>
      n = 0 \/ from_to 0xfe800000000000000000000000000000 0xfec00000000000000000000000000000 n \/
      from_to 0xff000000000000000000000000000000 0x100000000000000000000000000000000 n \/
      from_to 0xfd000ec2000000000000000000000000 0xfd000ec3000000000000000000000000 n
  end.

(** 127.0.0.0/8 and ::1; 10.0.0.0/8, 172.16.0.0/12, 192.168.0.0/16 and fc00::/7. *)
Definition inside (a : Addr) : Prop :=
  match a with
  | V4 n => from_to 0x7f000000 0x80000000 n \/ from_to 0x0a000000 0x0b000000 n \/ from_to 0xac100000 0xac200000 n \/ from_to 0xc0a80000 0xc0a90000 n
  | V6 n _ => n = 1 \/ from_to 0xfc000000000000000000000000000000 0xfe000000000000000000000000000000 n
  end.

Lemma Contains4 c b n : 0 <= b <= 32 -> Contains (mkPrefix (V4 c) b) (V4 n) = (n / 2 ^ (32 - b) =? c / 2 ^ (32 - b)).
Proof. intros H. unfold Contains. simpl. rewrite !Z.shiftr_div_pow2 by lia. apply Z.eqb_sym. Qed.

Lemma Contains6 c b n : 0 <= b <= 128 -> Contains (mkPrefix (V6 c "") b) (V6 n "") = (n / 2 ^ (128 - b) =? c / 2 ^ (128 - b)).
Proof. intros H. unfold Contains. simpl. rewrite !Z.shiftr_div_pow2 by lia. apply Z.eqb_sym. Qed.

(** What a prefix of [32 - k] (of [128 - k]) bits holds. *)
Lemma block k c n : 0 < k -> n / k = c <-> from_to (c * k) ((c + 1) * k) n.
Proof.
  intros Hk. unfold from_to. pose proof (Z.div_mod n k ltac:(lia)). pose proof (Z.mod_pos_bound n k Hk). split; [intros <-; nia|].
  intros Hn. symmetry. apply (Z.div_unique n k c (n - c * k)); [left; nia|lia].
Qed.

Lemma low_byte n i : Z.land (Z.shiftr n i) 255 = (n / 2 ^ i) mod 256 \/ i < 0.
Proof. destruct (Z.leb_spec 0 i); [left|right; lia]. rewrite Z.shiftr_div_pow2 by done. exact (Z.land_ones _ 8 ltac:(lia)). Qed.

(** Two bytes next to each other. *)
Lemma two_bytes x : (x / 256) mod 256 * 256 + x mod 256 = x mod 65536.
Proof. change 65536 with (256 * 256). rewrite (Z.rem_mul_r x 256 256) by lia. lia. Qed.

Lemma v4_halves a b c d : v4 a b c d = (a * 256 + b) * 65536 + (c * 256 + d).
Proof. unfold v4, number. simpl. lia. Qed.

Lemma inner_of n hi lo : 0 <= lo -> hi = lo + 8 -> byte16 n (15 - hi / 8) * 256 + byte16 n (15 - lo / 8) = (n / 2 ^ lo) mod 2 ^ 16 \/ lo mod 8 <> 0 \/ 120 < hi.
Proof.
  intros Hlo ->. destruct (Z.eq_dec (lo mod 8) 0) as [E|]; [|by right; left]. destruct (Z.leb_spec (lo + 8) 120); [left|by right; right].
  pose proof (Z.div_mod lo 8 ltac:(lia)) as Hd. rewrite E in Hd.
  assert (Ed : (lo + 8) / 8 = lo / 8 + 1) by (symmetry; apply (Z.div_unique (lo + 8) 8 (lo / 8 + 1) 0); lia).
  unfold byte16. rewrite Ed. replace (8 * (15 - (15 - (lo / 8 + 1)))) with (lo + 8) by lia. replace (8 * (15 - (15 - lo / 8))) with lo by lia.
  destruct (low_byte n (lo + 8)) as [->|]; [|lia]. destruct (low_byte n lo) as [->|]; [|lia].
  rewrite Z.pow_add_r, <- Z.div_div by lia. change (2 ^ 8) with 256. change (2 ^ 16) with 65536. apply two_bytes.
Qed.

Lemma embedded_destination a : embeddedIPv4 (Unmap (WithZone "" a)) = destination a.
Proof.
  destruct a as [n|n z]; [done|]. cbn [WithZone]. unfold Unmap, is_mapped, destination. rewrite Z.shiftr_div_pow2 by lia.
  destruct (Z.eqb_spec (n / 2 ^ 32) 65535) as [E|E].
  { cbn [embeddedIPv4]. f_equal. change (2 ^ 32 - 1) with (Z.ones 32). by rewrite Z.land_ones by lia. }
  cbn [embeddedIPv4]. unfold nat64Prefix, nat64LocalPrefix, p6. rewrite !Contains6 by lia.
  change (number 65536 ([100; 65435] ++ repeat 0 (8 - length [100; 65435])) / 2 ^ (128 - 96)) with 0x64ff9b0000000000000000.
  change (number 65536 ([100; 65435; 1] ++ repeat 0 (8 - length [100; 65435; 1])) / 2 ^ (128 - 48)) with 0x64ff9b0001.
  change (128 - 96) with 32. change (128 - 48) with 80.
  destruct (_ =? 0x64ff9b0000000000000000).
  { rewrite v4_halves. f_equal. destruct (inner_of n 24 16) as [H1|[H1|H1]]; try done. destruct (inner_of n 8 0) as [H2|[H2|H2]]; try done.
    change (15 - 24 / 8) with 12 in H1. change (15 - 16 / 8) with 13 in H1. change (15 - 8 / 8) with 14 in H2. change (15 - 0 / 8) with 15 in H2.
    rewrite H1, H2. change (2 ^ 0) with 1. rewrite Z.div_1_r. change (2 ^ 32) with (65536 * 65536). change (2 ^ 16) with 65536.
    rewrite (Z.rem_mul_r n 65536 65536) by lia. lia. }
  destruct (_ =? 0x64ff9b0001); [|done].
  rewrite v4_halves. f_equal. destruct (inner_of n 72 64) as [H1|[H1|H1]]; try done. destruct (inner_of n 48 40) as [H2|[H2|H2]]; try done.
  change (15 - 72 / 8) with 6 in H1. change (15 - 64 / 8) with 7 in H1. change (15 - 48 / 8) with 9 in H2. change (15 - 40 / 8) with 10 in H2.
  by rewrite H1, H2.
Qed.

Lemma holds4 c b n lo hi : 0 <= b <= 32 -> c / 2 ^ (32 - b) * 2 ^ (32 - b) = lo -> (c / 2 ^ (32 - b) + 1) * 2 ^ (32 - b) = hi ->
  Contains (mkPrefix (V4 c) b) (V4 n) = true <-> from_to lo hi n.
Proof. intros Hb <- <-. rewrite Contains4 by done. rewrite Z.eqb_eq. apply block. lia. Qed.

Lemma holds6 c b n lo hi : 0 <= b <= 128 -> c / 2 ^ (128 - b) * 2 ^ (128 - b) = lo -> (c / 2 ^ (128 - b) + 1) * 2 ^ (128 - b) = hi ->
  Contains (mkPrefix (V6 c "") b) (V6 n "") = true <-> from_to lo hi n.
Proof. intros Hb <- <-. rewrite Contains6 by done. rewrite Z.eqb_eq. apply block. lia. Qed.

Lemma contained_or p l a : containedIn (p :: l) a = true <-> Contains p a = true \/ containedIn l a = true.
Proof. simpl. apply orb_true_iff. Qed.

Ltac prefix_range :=
  match goal with
  | |- context [Contains (mkPrefix (V6 ?c ?z) ?b) (V4 ?n)] => change (Contains (mkPrefix (V6 c z) b) (V4 n)) with false
  | |- context [Contains (mkPrefix (V4 ?c) ?b) (V6 ?n ?z)] => change (Contains (mkPrefix (V4 c) b) (V6 n z)) with false
  | |- context [Contains (mkPrefix (V4 ?c) ?b) (V4 ?n)] =>
      let lo := eval vm_compute in (c / 2 ^ (32 - b) * 2 ^ (32 - b)) in let hi := eval vm_compute in ((c / 2 ^ (32 - b) + 1) * 2 ^ (32 - b)) in
      rewrite (holds4 c b n lo hi ltac:(lia) eq_refl eq_refl)
  | |- context [Contains (mkPrefix (V6 ?c "") ?b) (V6 ?n "")] =>
      let lo := eval vm_compute in (c / 2 ^ (128 - b) * 2 ^ (128 - b)) in let hi := eval vm_compute in ((c / 2 ^ (128 - b) + 1) * 2 ^ (128 - b)) in
      rewrite (holds6 c b n lo hi ltac:(lia) eq_refl eq_refl)
  end.
Ltac ranges :=
  rewrite ?contained_or; unfold p4, p6; repeat prefix_range; unfold from_to; change (containedIn [] _) with false;
  split; intros; intuition (try discriminate; try lia).

Lemma destination_plain a : match destination a with V4 _ => True | V6 _ z => z = ""%string end.
Proof. destruct a as [|n z]; [done|]. unfold destination. destruct (_ =? _); [done|]. destruct (_ =? _); [done|]. by destruct (_ =? _). Qed.

Lemma forbidden_spec a : match a with V4 _ => True | V6 _ z => z = ""%string end ->
  containedIn cloudMetadataPrefixes a = true \/ containedIn unspecifiedPrefixes a = true \/ containedIn linkLocalPrefixes a = true \/
  containedIn multicastPrefixes a = true <-> forbidden a.
Proof.
  unfold cloudMetadataPrefixes, unspecifiedPrefixes, linkLocalPrefixes, multicastPrefixes. destruct a as [n|n z]; [intros _|intros ->]; unfold forbidden; ranges.
Qed.

Lemma inside_spec a : match a with V4 _ => True | V6 _ z => z = ""%string end ->
  containedIn loopbackPrefixes a = true \/ containedIn privatePrefixes a = true <-> inside a.
Proof.
  unfold loopbackPrefixes, privatePrefixes. destruct a as [n|n z]; [intros _|intros ->]; unfold inside; ranges.
Qed.

(** The classes are those ranges of what the address stands for. *)
Lemma Classify_spec a : (never (Classify a) = true <-> forbidden (destination a)) /\
  (Classify a = ClassPublic <-> ~ forbidden (destination a) /\ ~ inside (destination a)) /\
  (Classify a = ClassLoopback \/ Classify a = ClassPrivate -> inside (destination a)).
Proof.
  unfold Classify. rewrite embedded_destination. pose proof (destination_plain a) as Hd. revert Hd. generalize (destination a). clear a. intros a Ha.
  rewrite <- (forbidden_spec a Ha), <- (inside_spec a Ha).
  destruct (containedIn cloudMetadataPrefixes a), (containedIn unspecifiedPrefixes a), (containedIn linkLocalPrefixes a), (containedIn multicastPrefixes a),
    (containedIn loopbackPrefixes a), (containedIn privatePrefixes a); simpl; intuition done.
Qed.

(** ** An address written another way *)

Lemma byte16_div n i : byte16 n i = (n / 2 ^ (8 * (15 - i))) mod 256 \/ 15 < i.
Proof.
  destruct (Z.leb_spec i 15); [left|by right]. unfold byte16. rewrite Z.shiftr_div_pow2 by lia. exact (Z.land_ones _ 8 ltac:(lia)).
Qed.

(** The IPv4 address [n] as an IPv4-mapped one, behind the well-known NAT64
    prefix, and behind the local one, around the octet [u] and before a
    suffix. *)
Definition mapped (n : Z) : Z := 65535 * 2 ^ 32 + n.
Definition nat64 (n : Z) : Z := number 65536 [100; 65435; 0; 0; 0; 0] * 2 ^ 32 + n.
Definition nat64_local (n u suffix : Z) : Z :=
  number 65536 [100; 65435; 1] * 2 ^ 80 + (n / 2 ^ 16) * 2 ^ 64 + u * 2 ^ 56 + (n mod 2 ^ 16) * 2 ^ 40 + suffix.

Lemma v4_bytes n : 0 <= n < 2 ^ 32 -> v4 (n / 2 ^ 24) ((n / 2 ^ 16) mod 256) ((n / 2 ^ 8) mod 256) (n mod 256) = n.
Proof. intros H. unfold v4, number. simpl fold_left. Z.div_mod_to_equations. lia. Qed.

Lemma Unmap_mapped n zone : 0 <= n < 2 ^ 32 -> Unmap (WithZone "" (V6 (mapped n) zone)) = V4 n.
Proof.
  intros H. unfold Unmap, WithZone, is_mapped, mapped. rewrite Z.shiftr_div_pow2 by lia.
  rewrite Z.div_add_l, Z.div_small, Z.add_0_r by lia. change (V4 (Z.land (65535 * 2 ^ 32 + n) (Z.ones 32)) = V4 n). f_equal. rewrite Z.land_ones by lia.
  rewrite Z.add_comm, Z_mod_plus_full. by apply Z.mod_small.
Qed.

Lemma not_mapped n zone : Z.shiftr n 80 <> 0 -> Unmap (WithZone "" (V6 n zone)) = V6 n "".
Proof.
  intros H. unfold Unmap, WithZone, is_mapped. destruct (Z.eqb_spec (Z.shiftr n 32) 65535) as [E|]; [|done]. exfalso. apply H.
  replace 80 with (32 + 48) by lia. rewrite <- Z.shiftr_shiftr, E by lia. reflexivity.
Qed.

Ltac by_division := rewrite ?Z.shiftr_div_pow2 by lia; Z.div_mod_to_equations; lia.

Lemma embedded_nat64 n : 0 <= n < 2 ^ 32 -> embeddedIPv4 (V6 (nat64 n) "") = V4 n.
Proof.
  intros H.
  assert (E : Contains nat64Prefix (V6 (nat64 n) "") = true).
  { unfold Contains, nat64Prefix, p6. cbn [PAddr Bits]. unfold nat64. rewrite (Z.shiftr_div_pow2 (_ + n)) by lia.
    change (2 ^ (128 - 96)) with (2 ^ 32). rewrite Z.div_add_l, Z.div_small, Z.add_0_r by lia. reflexivity. }
  unfold embeddedIPv4. rewrite E. f_equal. rewrite <- (v4_bytes n H) at 5.
  assert (B : forall i, 0 <= 8 * (15 - i) < 32 -> byte16 (nat64 n) i = (n / 2 ^ (8 * (15 - i))) mod 256).
  { intros i Hi. destruct (byte16_div (nat64 n) i) as [->|]; [|lia]. unfold nat64.
    replace (number 65536 [100; 65435; 0; 0; 0; 0] * 2 ^ 32 + n) with (number 65536 [100; 65435; 0; 0; 0; 0] * 2 ^ (32 - 8 * (15 - i) - 8) * 256 * 2 ^ (8 * (15 - i)) + n).
    - rewrite Z.div_add_l by lia. rewrite Z.add_comm, Z_mod_plus_full. done.
    - f_equal. rewrite <- !Z.mul_assoc. f_equal. change 256 with (2 ^ 8). rewrite <- !Z.pow_add_r by lia. f_equal. lia. }
  rewrite !B by lia. simpl (2 ^ _). f_equal; [Z.div_mod_to_equations; lia|by rewrite Z.div_1_r].
Qed.

Lemma local_top n u suffix : 0 <= n < 2 ^ 32 -> 0 <= u < 256 -> 0 <= suffix < 2 ^ 40 ->
  Z.shiftr (nat64_local n u suffix) 80 = number 65536 [100; 65435; 1].
Proof.
  intros Hn Hu Hs. unfold nat64_local. rewrite Z.shiftr_div_pow2 by lia.
  assert (Hhi : 0 <= n / 2 ^ 16 < 2 ^ 16) by (Z.div_mod_to_equations; lia).
  assert (Hlo : 0 <= n mod 2 ^ 16 < 2 ^ 16) by (apply Z.mod_pos_bound; lia).
  rewrite <- !Z.add_assoc. rewrite Z.div_add_l, Z.div_small, Z.add_0_r by lia. done.
Qed.

Lemma embedded_nat64_local n u suffix : 0 <= n < 2 ^ 32 -> 0 <= u < 256 -> 0 <= suffix < 2 ^ 40 ->
  embeddedIPv4 (V6 (nat64_local n u suffix) "") = V4 n.
Proof.
  intros Hn Hu Hs. pose proof (local_top _ _ _ Hn Hu Hs) as Ht.
  assert (E1 : Contains nat64Prefix (V6 (nat64_local n u suffix) "") = false).
  { unfold Contains, nat64Prefix, p6. cbn [PAddr Bits]. apply andb_false_iff. right. apply Z.eqb_neq. intros E.
    apply (f_equal (fun x => Z.shiftr x 48)) in E. rewrite !Z.shiftr_shiftr in E by lia. change (128 - 96 + 48) with 80 in E. rewrite Ht in E. vm_compute in E. done. }
  assert (E2 : Contains nat64LocalPrefix (V6 (nat64_local n u suffix) "") = true).
  { unfold Contains, nat64LocalPrefix, p6. cbn [PAddr Bits]. change (128 - 48) with 80. rewrite Ht. reflexivity. }
  unfold embeddedIPv4. rewrite E1, E2. f_equal. rewrite <- (v4_bytes n Hn) at 5.
  assert (Hhi : 0 <= n / 2 ^ 16 < 2 ^ 16) by (Z.div_mod_to_equations; lia).
  assert (Hlo : 0 <= n mod 2 ^ 16 < 2 ^ 16) by (apply Z.mod_pos_bound; lia).
  assert (B : forall i, i <= 15 -> byte16 (nat64_local n u suffix) i = (nat64_local n u suffix / 2 ^ (8 * (15 - i))) mod 256).
  { intros i Hi. destruct (byte16_div (nat64_local n u suffix) i) as [|]; [done|lia]. }
  rewrite !B by lia. unfold nat64_local. clear B E1 E2 Ht. generalize (number 65536 [100; 65435; 1]). intros P.
  f_equal; simpl (2 ^ _) in *; clear -Hn Hu Hs Hhi Hlo; Z.div_mod_to_equations; lia.
Qed.

Lemma nat64_not_mapped n : 0 <= n < 2 ^ 32 -> Z.shiftr (nat64 n) 80 <> 0.
Proof.
  intros H. unfold nat64. let p := eval vm_compute in (number 65536 [100; 65435; 0; 0; 0; 0]) in change (number 65536 [100; 65435; 0; 0; 0; 0]) with p.
  rewrite Z.shiftr_div_pow2 by lia. Z.div_mod_to_equations. lia.
Qed.

(** An address is judged by the one it stands for. The IPv4 address written
    as an IPv4-mapped one, behind the well-known NAT64 prefix or behind the
    local one, in whatever zone, is of the same class as itself; so no way of
    writing a link-local or private address makes it public, nor a public one
    private. *)
Theorem judged_by_inner_address n zone u suffix : 0 <= n < 2 ^ 32 -> 0 <= u < 256 -> 0 <= suffix < 2 ^ 40 ->
  Classify (V6 (mapped n) zone) = Classify (V4 n) /\ Classify (V6 (nat64 n) zone) = Classify (V4 n) /\
  Classify (V6 (nat64_local n u suffix) zone) = Classify (V4 n).
Proof.
  intros Hn Hu Hs. unfold Classify. change (embeddedIPv4 (Unmap (WithZone "" (V4 n)))) with (V4 n).
  rewrite Unmap_mapped by done. change (embeddedIPv4 (V4 n)) with (V4 n).
  rewrite (not_mapped (nat64 n)) by (by apply nat64_not_mapped). rewrite embedded_nat64 by done.
  rewrite (not_mapped (nat64_local n u suffix)) by (rewrite local_top by done; done). rewrite embedded_nat64_local by done. done.
Qed.

Lemma judged_by_inner_address_witness :
  ParseAddr "::ffff:169.254.169.254" = Some (V6 (mapped 2852039166) "") /\ Classify (V6 (mapped 2852039166) "") = ClassLinkLocal /\
  ParseAddr "64:ff9b::a9fe:a9fe" = Some (V6 (nat64 2852039166) "") /\ Classify (V6 (nat64 2852039166) "") = ClassLinkLocal /\
  ParseAddr "64:ff9b:1:a9fe:a9:fe00::" = Some (V6 (nat64_local 2852039166 0 0) "") /\ Classify (V6 (nat64_local 2852039166 0 0) "") = ClassLinkLocal.
Proof.
  destruct (judged_by_inner_address 2852039166 "" 0 0 ltac:(lia) ltac:(lia) ltac:(lia)) as (E1 & E2 & E3).
  rewrite E1, E2, E3. split; [reflexivity|]. split; [reflexivity|]. split; [reflexivity|]. split; [reflexivity|]. split; reflexivity.
Defined.

(** ** What the list opens *)

Lemma rev_app_spec a b : String.rev_app a b = (rev_string a +:+ b)%string.
Proof.
  unfold rev_string, String.rev. revert b. induction a as [|c a IH]; intros b; simpl; [done|].
  rewrite (IH (String c b)), (IH (String c "")), <- str_app_assoc. done.
Qed.

Lemma rev_cons c a : rev_string (String c a) = (rev_string a +:+ String c "")%string.
Proof. unfold rev_string at 1, String.rev. simpl. apply rev_app_spec. Qed.

Lemma rev_string_app a b : rev_string (a +:+ b)%string = (rev_string b +:+ rev_string a)%string.
Proof.
  induction a as [|c a IH]; simpl; [by rewrite str_app_nil|]. by rewrite !rev_cons, IH, str_app_assoc.
Qed.

Lemma rev_string_twice a : rev_string (rev_string a) = a.
Proof. induction a as [|c a IH]; [done|]. rewrite rev_cons, rev_string_app, IH. done. Qed.

Lemma has_suffix a h : has_prefix (rev_string a) (rev_string h) = true -> exists s, h = (s +:+ a)%string.
Proof.
  intros H. apply has_prefix_spec in H. exists (rev_string (drop (String.length (rev_string a)) (rev_string h))).
  apply (f_equal rev_string) in H. by rewrite rev_string_app, !rev_string_twice in H.
Qed.

Section listed.
Variable ToLower : string -> string.
Variable AddrString : Addr -> string.

(** An entry names a host, already in lower case and without its dot: the
    address it is, the name it is, or a name under a domain of at least two
    labels. *)
Definition names (e : Entry) (host : string) : Prop :=
  match addr e with
  | Some a => Zone a = ""%string /\ exists h, ParseAddr host = Some h /\ Unmap h = a
  | None => ParseAddr host = None /\ isHostName (EHost e) = true /\
            if IsWildcard e then has_byte "." (EHost e) = true /\ exists sub, host = (sub +:+ "." +:+ EHost e)%string
            else host = EHost e
  end.

(** An entry as parsing makes it. *)
Definition made (e : Entry) : Prop :=
  match addr e with
  | Some a => Zone a = ""%string
  | None => isHostName (EHost e) = true /\ (IsWildcard e = true -> has_byte "." (EHost e) = true)
  end.

Lemma addressEntry_made a port e : addressEntry AddrString a port = Ok e -> made e.
Proof.
  unfold addressEntry. destruct (String.eqb_spec (Zone a) "") as [E|]; [|done]. intros [= <-]. unfold made. simpl.
  unfold Unmap. destruct a as [|n z]; [reflexivity|]. destruct (is_mapped n); [reflexivity|exact E].
Qed.

Lemma nameEntry_made host port e : nameEntry ToLower host port = Ok e -> made e.
Proof.
  unfold nameEntry. generalize (trim_dot (ToLower host)) as h0. intros h0. destruct (has_prefix "*." h0) eqn:Ew; cbn [andb negb].
  - destruct (has_byte "." (drop 2 h0)) eqn:Ed; [|done]. cbn [negb]. destruct (_ || _) eqn:Eh; [done|]. intros [= <-].
    apply orb_false_iff in Eh as [_ Eh]. apply negb_false_iff in Eh. by split.
  - destruct (_ || _) eqn:Eh; [done|]. destruct (isNonCanonicalNumeric h0); [done|]. intros [= <-].
    apply orb_false_iff in Eh as [_ Eh]. apply negb_false_iff in Eh. by split.
Qed.

Lemma parseEntry_made item e : parseEntry ToLower AddrString item = Ok e -> made e.
Proof.
  unfold parseEntry. destruct (ParseAddr (trim_brackets item)); [apply addressEntry_made|].
  destruct (SplitHostPort item) as [[h p]|].
  - destruct (Atoi p) as [n|]; [|done]. destruct (_ || _); [done|]. destruct (ParseAddr h); [apply addressEntry_made|apply nameEntry_made].
  - destruct (has_byte ":" item); [done|apply nameEntry_made].
Qed.

Lemma matches_names e host port : made e -> matches host port (Unmap <$> ParseAddr host) e = true ->
  (EPort e = ""%string \/ EPort e = port) /\ names e host.
Proof.
  unfold matches, made, names. intros Hm H. destruct (_ && _) eqn:Ep; [done|].
  split. { apply andb_false_iff in Ep as [E|E]; apply negb_false_iff, String.eqb_eq in E; auto. }
  destruct (addr e) as [a|]; destruct (ParseAddr host) as [h|]; simpl in H; try done.
  - apply bool_decide_eq_true in H as ->. split; [done|]. by exists h.
  - destruct Hm as [Hh Hw]. split; [done|]. split; [done|]. destruct (IsWildcard e); [|by apply String.eqb_eq].
    split; [by apply Hw|]. by apply has_suffix in H.
Qed.

(** The host is named, for the port or for all, by an item of the list or by
    the deployment's own base. *)
Definition listed_by (raw base host port : string) : Prop :=
  (exists item e, item ∈ map TrimSpace (split "," raw) /\ parseEntry ToLower AddrString item = Ok e /\
     (EPort e = ""%string \/ EPort e = port) /\ names e (trim_dot (ToLower host))) \/
  (exists e, base <> ""%string /\ parseEntry ToLower AddrString base = Ok e /\ IsWildcard e = false /\ names e (trim_dot (ToLower host))).

Lemma listed_is_named raw entries base host port :
  ParseAllowList ToLower AddrString raw = Ok entries -> isListed ToLower (NewPolicy ToLower AddrString entries [base]) host port = true ->
  listed_by raw base host port.
Proof.
  intros Hp Hl. unfold isListed in Hl. apply existsb_exists in Hl as (e & He & Hm). unfold NewPolicy in He.
  apply in_app_or in He as [He|He].
  - left. unfold ParseAllowList in Hp. assert (Hin : exists item, item ∈ filter (fun i => i <> ""%string) (map TrimSpace (split "," raw)) /\ parseEntry ToLower AddrString item = Ok e).
    { revert entries Hp He. induction (filter _ _) as [|i l IH]; simpl; intros entries H He; [injection H as <-; done|].
      apply bind_Ok_inv in H as (e0 & He0 & H). apply bind_Ok_inv in H as (es & Hes & [= <-]). destruct He as [<-|He].
      - exists i. split; [by left|done].
      - destruct (IH _ Hes He) as (i' & Hi' & ?). exists i'. split; [by right|done]. }
    destruct Hin as (item & Hi & Hi'). apply list_elem_of_filter in Hi as [_ Hi]. exists item, e. split; [done|]. split; [done|].
    apply matches_names in Hm; [done|]. by eapply parseEntry_made.
  - right. simpl in He. destruct (String.eqb_spec base "") as [|Hne]; [done|]. destruct (parseEntry ToLower AddrString base) as [e0|] eqn:E; [|done].
    destruct (IsWildcard e0) eqn:Ew; [done|]. destruct He as [<-|[]]. exists e0. split; [done|]. split; [done|]. split; [done|].
    pose proof (parseEntry_made _ _ E) as Hmade. apply matches_names in Hm as [_ Hm]; [|unfold made in *; simpl in *; by rewrite Ew in Hmade].
    unfold names in *. simpl in *. by rewrite Ew.
Qed.

(** The list opens only what it names. A host that passes as listed is
    named by an item of AICC_TOOL_ALLOWED_HOSTS that is for its port or for
    all, or by the deployment's own base: as the same address, as the same
    name, or as a name under a domain of at least two labels. A name opens no
    address, whatever it resolves to, and an address no name. *)
Theorem list_opens_only_what_it_names raw entries base host port :
  ParseAllowList ToLower AddrString raw = Ok entries -> isListed ToLower (NewPolicy ToLower AddrString entries [base]) host port = true ->
  (exists item e, item ∈ map TrimSpace (split "," raw) /\ parseEntry ToLower AddrString item = Ok e /\
     (EPort e = ""%string \/ EPort e = port) /\ names e (trim_dot (ToLower host))) \/
  (exists e, base <> ""%string /\ parseEntry ToLower AddrString base = Ok e /\ IsWildcard e = false /\ names e (trim_dot (ToLower host))).
Proof. apply listed_is_named. Qed.

Variable Resolver : string -> option (list Addr).
Variable sockets : Addr -> Z -> list Addr.
Variable Net : Addr -> Z -> bool.

(** C40: No socket goes where the policy does not allow. Whatever a name
    resolves to, and whatever sockets the network layer opens for an address,
    a socket that goes out connects to no address that is, or stands for, a
    link-local one (169.254.0.0/16, fe80::/10), the metadata of the cloud
    (fd00:ec2::/32), an unspecified one (0.0.0.0/8, ::), a multicast or the
    broadcast one; and to one that is neither of the host itself nor private
    only when the host the tool named is named, for that port or for all, by an
    item of the list or by the deployment's base. A host that is a number in
    another form than the standard one opens none. *)
Theorem dial_reaches_only_allowed raw entries base address a : ParseAllowList ToLower AddrString raw = Ok entries ->
  a ∈ (DialContext ToLower Resolver sockets Net (NewPolicy ToLower AddrString entries [base]) address).1 ->
  ~ forbidden (destination a) /\
  exists host port, SplitHostPort address = Some (host, port) /\ isNonCanonicalNumeric host = false /\
    (inside (destination a) \/ listed_by raw base host port).
Proof.
  intros Hp (host & port & E & En & Hn & Hl)%dial_checked. destruct (Classify_spec a) as (H1 & H2 & H3).
  split; [rewrite <- H1; by rewrite Hn|]. exists host, port. split; [done|]. split; [done|].
  destruct (Class_eq_dec (Classify a) ClassPublic) as [Ec|Ec]; [right; by eapply listed_is_named, Hl|left; apply H3].
  destruct (Classify a); try done; auto.
Qed.

(** A port is compared as it was written. The list accepts an entry whose
    port is a number with a sign or with zeros in front, and no connection to
    the port that number is ever matches it. *)
Theorem padded_port_never_matches : exists e, parseEntry (fun s => s) AddrString "api.example.com:0443" = Ok e /\ Atoi (EPort e) = Some 443 /\
  forall host, isListed (fun s => s) [e] host "443" = false.
Proof.
  eexists. split; [reflexivity|]. split; [reflexivity|]. intros host. unfold isListed. simpl. unfold matches. simpl. done.
Qed.

End listed.

(** ** Examples *)

Definition as_is (s : string) : string := s.
Definition no_text (a : Addr) : string := ""%string.
Definition demo_list : string := "*.crm.example.com:443, 203.0.113.7".
Definition demo_entries : list Entry := match ParseAllowList as_is no_text demo_list with Ok l => l | Err _ => [] end.
Definition demo_policy : Policy := NewPolicy as_is no_text demo_entries ["crm.internal"]%string.

(** A name that resolves to the metadata address first and to a public one then. *)
Definition demo_resolver (host : string) : option (list Addr) := Some [V4 2852039166; V4 3405803777].
Definition one_socket (a : Addr) (port : Z) : list Addr := [a].
Definition answers (a : Addr) (port : Z) : bool := true.

#[local] Notation demo_dial address := (DialContext as_is demo_resolver one_socket answers demo_policy address).

Lemma dial_reaches_only_allowed_witness : (demo_dial "eu.crm.example.com:443").1 = [V4 3405803777] /\
  (demo_dial "eu.crm.example.com:80").1 = [] /\
  ~ forbidden (V4 3405803777) /\
  exists host port, SplitHostPort "eu.crm.example.com:443" = Some (host, port) /\ isNonCanonicalNumeric host = false /\
    (inside (V4 3405803777) \/ listed_by as_is no_text demo_list "crm.internal" host port).
Proof.
  split; [vm_compute; reflexivity|]. split; [vm_compute; reflexivity|].
  apply (dial_reaches_only_allowed as_is no_text demo_resolver one_socket answers demo_list demo_entries "crm.internal" "eu.crm.example.com:443" (V4 3405803777));
    [vm_compute; reflexivity|].
  change (NewPolicy as_is no_text demo_entries ["crm.internal"%string]) with demo_policy.
  replace (demo_dial "eu.crm.example.com:443").1 with [V4 3405803777] by (vm_compute; reflexivity). by left.
Defined.

(** What the ranges mean: the metadata address under each of its forms. *)
Example metadata_is_forbidden :
  Forall (fun s => exists a, ParseAddr s = Some a /\ forbidden (destination a))
    ["169.254.169.254"; "::ffff:169.254.169.254"; "64:ff9b::a9fe:a9fe"; "64:ff9b:1:a9fe:a9:fe00::"; "fd00:ec2::254"; "fd00:ec2::23"]%string.
Proof. repeat (constructor; [eexists; split; [reflexivity|vm_compute; intuition discriminate]|]). constructor. Qed.

Lemma list_opens_only_what_it_names_witness :
  (exists item e, item ∈ map TrimSpace (split "," demo_list) /\ parseEntry as_is no_text item = Ok e /\
     (EPort e = ""%string \/ EPort e = "443"%string) /\ names e "eu.crm.example.com") \/
  (exists e, "crm.internal"%string <> ""%string /\ parseEntry as_is no_text "crm.internal" = Ok e /\ IsWildcard e = false /\ names e "eu.crm.example.com").
Proof.
  apply (list_opens_only_what_it_names as_is no_text demo_list demo_entries "crm.internal" "eu.crm.example.com." "443"); vm_compute; reflexivity.
Defined.

End Egress.
