(* ===== verification/TelephonyData.v ===== *)
(** * What telephony works on: [internal/telephony/switchevent.go], the parts of
    [call.go] that route a call, and what it announces

    A switch event as it is normalized, the bot's share of a call, a live call
    (the aggregate of [Call.v] with what the registry and the coordinator keep
    on it) and the envelopes that are published. The business data of a call is
    one map, made with the call and changed in place afterwards; an
    envelope carries the map and not its contents, so what it says is read off
    the world in which it is read ([Registry.event_data]). *)

From S2P Require Import Prelude GoText Calendar Schedule Call.

Module TelephonyData.
Import GoText Call.

(** [internal/events/event.go:CallType] *)
Inductive CallType := CallTypeInbound | CallTypeOutbound | CallTypeConsult | CallTypeInternal | CallTypeText (s : string).

#[export] Instance CallType_eq_dec : EqDecision CallType.
Proof. solve_decision. Defined.

(** [events.CallType] of a text. *)
Definition callType (s : string) : CallType :=
  if String.eqb s "INBOUND" then CallTypeInbound
  else if String.eqb s "OUTBOUND" then CallTypeOutbound
  else if String.eqb s "CONSULT" then CallTypeConsult
  else if String.eqb s "INTERNAL" then CallTypeInternal
  else CallTypeText s.

(** ** The bot's share *)

(** [internal/telephony/switchevent.go:BotShare] *)
Record BotShare := mkBot {
  Sec : Z;
  FlowID : option uuid;
  FlowSlug : string;
  BDID : string;
  BQueue : string;
  Summary : string;
  Reason : string;
  UnbackedClaims : list string;
  IsStamped : bool
}.

#[export] Instance BotShare_eq_dec : EqDecision BotShare.
Proof. solve_decision. Defined.

Definition zero_bot : BotShare := mkBot 0 None "" "" "" "" "" [] false.

(** [internal/telephony/switchevent.go:BotShare.HandedOver] *)
Definition HandedOver (b : BotShare) : bool := IsStamped b.

(** [internal/telephony/switchevent.go:BotShare.IsZero] *)
Definition BotIsZero (b : BotShare) : bool :=
  (Sec b =? 0) && bool_decide (FlowID b = None) && String.eqb (BDID b) "" && String.eqb (BQueue b) "".

(** [internal/telephony/switchevent.go:BotShare.Merge] *)
Definition BotMerge (b other : BotShare) : BotShare :=
  mkBot (if Sec b =? 0 then Sec other else Sec b)
    (match FlowID b with Some f => Some f | None => FlowID other end)
    (or_text (FlowSlug b) (FlowSlug other)) (or_text (BDID b) (BDID other)) (or_text (BQueue b) (BQueue other))
    (or_text (Summary b) (Summary other)) (or_text (Reason b) (Reason other))
    (match UnbackedClaims b with [] => UnbackedClaims other | l => l end)
    (IsStamped b || IsStamped other).

(** ** Switch events *)

(** [internal/telephony/switchevent.go:SwitchEventKind] the kinds the
    coordinator tells apart. *)
Inductive SwitchEventKind :=
| KindChannelCreate | KindChannelAnswer | KindChannelPark | KindChannelBridge | KindChannelUnbridge
| KindChannelHold | KindChannelUnhold | KindChannelHangup | KindDTMF | KindRecordStart | KindRecordStop
| KindAudioStreamConnected | KindAudioStreamDisconnected | KindAudioStreamError
| KindQueueMemberJoined | KindQueueMemberLeft | KindQueueAgentOffered | KindQueueBridgeStart | KindQueueBridgeEnd
| KindQueueBridgeFailed | KindElse.

#[export] Instance SwitchEventKind_eq_dec : EqDecision SwitchEventKind.
Proof. solve_decision. Defined.

(** [internal/telephony/switchevent.go:CallDirection] *)
Inductive CallDirection := DirectionInbound | DirectionOutbound | DirectionUnknown.

#[export] Instance CallDirection_eq_dec : EqDecision CallDirection.
Proof. solve_decision. Defined.

(** [internal/telephony/switchevent.go:SwitchEvent] The fields the telephony
    layer reads; [vars] are the channel variables of the raw event. *)
Record SwitchEvent := mkEvent {
  Kind : SwitchEventKind;
  OccurredAt : instant;
  EvChannelID : string;
  OtherChannelID : string;
  ChannelName : string;
  Direction : CallDirection;
  ANI : string;
  DestinationNumber : string;
  Context : string;
  EvUserData : gmap string Value;
  CallTypeHint : string;
  LegDID : string;
  EvHangupCause : string;
  EvBilledSec : Z;
  Bot : BotShare;
  Digit : string;
  DurationMs : Z;
  Queue : string;
  AgentName : string;
  MemberChannelID : string;
  ParentChannelID : string;
  EvCause : string;
  EvCancelReason : string;
  EvJoinedAt : instant;
  EvLeftAt : instant;
  vars : gmap string string
}.

(** [Raw.Variable]: a variable the channel does not carry is empty. *)
Definition Variable_ (ev : SwitchEvent) (name : string) : string := default "" (vars ev !! name).

(** ** A live call *)

(** [internal/telephony/call.go:Call] with what [Call.v] leaves aside: its
    classification, whether its identity was minted by the dialplan, and the
    bot's share. *)
Record LiveCall := mkLive {
  base : Call;
  LCallType : CallType;
  Language : string;
  IsMintedID : bool;
  LBot : BotShare;
  LQueueID : option uuid;
  IsBotAbandoned : bool
}.

Definition with_base (c : LiveCall) (b : Call) : LiveCall :=
  mkLive b (LCallType c) (Language c) (IsMintedID c) (LBot c) (LQueueID c) (IsBotAbandoned c).
Definition with_bot (c : LiveCall) (b : BotShare) : LiveCall :=
  mkLive (base c) (LCallType c) (Language c) (IsMintedID c) b (LQueueID c) (IsBotAbandoned c).
Definition with_user_data (c : LiveCall) (d : gmap string Value) : LiveCall :=
  mkLive (with_data (base c) d) (LCallType c) (Language c) (IsMintedID c) (LBot c) (LQueueID c) (IsBotAbandoned c).
Definition abandoned (c : LiveCall) : LiveCall :=
  mkLive (base c) (LCallType c) (Language c) (IsMintedID c) (LBot c) (LQueueID c) true.

Definition legs (c : LiveCall) : list Party := Parties (base c).
Definition with_legs (c : LiveCall) (l : list Party) : LiveCall := with_base c (with_parties (base c) l (State (base c))).

(** The first leg on a channel, changed: what writing through the pointer
    [PartyByChannel] answers does. *)
Fixpoint change_leg (channelID : string) (f : Party -> Party) (l : list Party) : list Party :=
  match l with
  | [] => []
  | p :: l => if String.eqb (ChannelID p) channelID then f p :: l else p :: change_leg channelID f l
  end.

Definition on_leg (c : LiveCall) (channelID : string) (f : Party -> Party) : LiveCall :=
  with_legs c (change_leg channelID f (legs c)).

Definition leg_at (c : LiveCall) (channelID : string) : option Party := PartyByChannel (base c) channelID.

(** ** Envelopes *)

(** [internal/events/event.go:Type] the types telephony publishes. *)
Inductive EventType :=
| TypePartyDialing | TypePartyRinging | TypePartyEstablished | TypePartyHeld | TypePartyRetrieved | TypePartyReleased
| TypePartyChanged | TypePartyDTMF | TypeCallUserData | TypeCallRecordingStarted | TypeCallRecordingStopped
| TypeCallCDR | TypeQueueJoined | TypeQueueLeft | TypeQueueCount | TypeQueueAgentOffered.

#[export] Instance EventType_eq_dec : EqDecision EventType.
Proof. solve_decision. Defined.

Inductive PValue :=
| PText (s : string) | PTime (t : instant) | PInt (n : Z) | PKeys (l : list string) | PFlag (b : bool)
| PRole (r : PartyRole) | PState_ (s : PartyState).

#[export] Instance PValue_eq_dec : EqDecision PValue.
Proof. solve_decision. Defined.

(** An envelope of [internal/events/event.go] with its scope; [TData] is the
    business data map it carries, named by the call that owns it. *)
Record Told := mkTold {
  TType : EventType;
  TCall : option uuid;
  TCallType : CallType;
  TParty : option uuid;
  TAgent : option uuid;
  TQueue : option uuid;
  TData : option nat;
  TPayload : list (string * PValue);
  TScopeAgents : list uuid;
  TScopeQueue : option uuid
}.

#[export] Instance Told_eq_dec : EqDecision Told.
Proof. solve_decision. Defined.

(** [internal/telephony/waiting.go:WaitingCall] with the member's channel. *)
Record WaitingCall := mkWaiting {
  WCallID : uuid;
  WCallType : CallType;
  FromNumber : string;
  WQueueID : uuid;
  QueueName : string;
  QueueDisplayName : string;
  SLAThresholdSec : Z;
  WJoinedAt : instant;
  WLanguage : string;
  WUserData : option nat;
  WChannelID : string
}.

#[export] Instance WaitingCall_eq_dec : EqDecision WaitingCall.
Proof. solve_decision. Defined.

(** What the coordinator tells its ports: the agents
    ([internal/telephony/coordinator.go:AgentLookup]), the transcription tap
    ([Tapper]), the transcript ([TranscriptStarter], [Audiences]) and the ledger
    of queue movements ([CDRAssembler.QueueEvent]). *)
Inductive Port :=
| SetOnCall (agent : uuid) (isOnCall : bool) (call : uuid)
| BeginAfterCallWork (agent call party : uuid)
| BenchForNoAnswer (agent : uuid)
| TapAttach (call : uuid) (agent party : uuid) (channel language : string)
| TapDetach (channel : string)
| TapPause (channel : string)
| TapResume (channel : string)
| TranscriptStart (call : uuid) (t : CallType) (answeredAt : instant)
| SetAudience (call : uuid) (agents : list uuid)
| QueueEvent (kind : SwitchEventKind) (queue : string) (call agent : option uuid).

End TelephonyData.
