(* ===== verification/Registry.v ===== *)
(** * The registry of live calls: [internal/telephony/registry.go]

    Each call is served by an actor: a goroutine that takes work from a
    mailbox and is the only one to change the call. Work is a switch event,
    posted and not waited for, or a closure, waited for. The closures are the
    coordinator's: here they are a type of commands with an interpretation
    ([Closures]), and what the registry needs of them is [ClosureLaws].

    The goroutines of the actors, and those of the requests, run whenever they
    like. Between any two accesses of the thread that is modelled to what it
    shares with them, [tick] takes the next entry of the schedule and lets the
    steps it lists happen; a theorem that holds for every schedule holds for
    every interleaving. *)

From S2P Require Import Prelude GoText Calendar Schedule Call TelephonyData.

Module Registry.
Import GoText Call TelephonyData.

(** [internal/telephony/registry.go:mailboxSize] *)
Definition mailboxSize : nat := 256.

(** ** What an actor does with a switch event *)

(** [internal/telephony/registry.go:actor.publish] [self] names the actor,
    whose business data map the envelope carries. *)
Definition publish (self : nat) (c : LiveCall) (t : EventType) (p : option Party) (payload : list (string * PValue)) : Told :=
  mkTold t (Some (CallID (base c))) (LCallType c) (PartyID <$> p) (p ≫= PAgentID) (LQueueID c)
    (Some self) payload
    (match p with
     | Some p => match PAgentID p with Some a => [a] | None => [] end
     | None => AgentIDs (base c)
     end)
    (match p with Some _ => None | None => LQueueID c end).

(** A call with what it has announced, and whether it has finished. *)
Record Acted := mkActed { acCall : LiveCall; acTold : list Told; acFinished : bool }.

Definition on_call (f : LiveCall -> LiveCall) (x : Acted) : Acted := mkActed (f (acCall x)) (acTold x) (acFinished x).

Definition announce (self : nat) (t : EventType) (p : option Party) (payload : list (string * PValue)) (x : Acted) : Acted :=
  mkActed (acCall x) (acTold x ++ [publish self (acCall x) t p payload]) (acFinished x).

(** [internal/telephony/registry.go:actor.transition] of the leg on a channel. *)
Definition transition (self : nat) (channelID : string) (trigger : PartyTrigger) (at_ : instant) (t : EventType) (x : Acted) : Acted :=
  match leg_at (acCall x) channelID with
  | None => x
  | Some p =>
      match apply p trigger at_ with
      | Err _ => x
      | Ok p' =>
          announce self t (Some p')
            ([("role"%string, PRole (Role p')); ("state"%string, PState_ (PState p'))] ++
             (if bool_decide (trigger = TriggerRelease) then [("cause"%string, PText (ReleaseCause p'))] else []))
            (on_call (fun c => on_leg c channelID (fun _ => p')) x)
      end
  end.

(** [internal/telephony/registry.go:actor.establish] *)
Definition establish (self : nat) (channelID : string) (at_ : instant) (x : Acted) : Acted :=
  match leg_at (acCall x) channelID with
  | Some p =>
      if bool_decide (PState p = PartyDialing) || bool_decide (PState p = PartyRinging)
      then transition self channelID TriggerAnswer at_ TypePartyEstablished x
      else x
  | None => x
  end.

Definition with_answered (t : instant) (p : Party) : Party :=
  mkParty (PartyID p) (ChannelID p) (Role p) (PState p) (Number p) (OtherNumber p) (PAgentID p) (PExtension p)
    (PCreatedAt p) t (ReleasedAt p) (ReleaseCause p) (IsBotLeg p) (Bridges p) (BilledSec p) (IsMuted p).
Definition with_other_number (n : string) (p : Party) : Party :=
  mkParty (PartyID p) (ChannelID p) (Role p) (PState p) (Number p) n (PAgentID p) (PExtension p)
    (PCreatedAt p) (AnsweredAt p) (ReleasedAt p) (ReleaseCause p) (IsBotLeg p) (Bridges p) (BilledSec p) (IsMuted p).
Definition with_release (cause : string) (billed : Z) (p : Party) : Party :=
  mkParty (PartyID p) (ChannelID p) (Role p) (PState p) (Number p) (OtherNumber p) (PAgentID p) (PExtension p)
    (PCreatedAt p) (AnsweredAt p) (ReleasedAt p) cause (IsBotLeg p) (Bridges p) billed (IsMuted p).

Definition finish (at_ : instant) (x : Acted) : Acted :=
  let '(b, ok) := Finish (base (acCall x)) at_ in mkActed (with_base (acCall x) b) (acTold x) ok.

Definition cdr_payload (c : LiveCall) : list (string * PValue) :=
  [("answeredAt"%string, PTime (CallAnsweredAt (base c))); ("endedAt"%string, PTime (CEndedAt (base c)))].

(** [internal/telephony/registry.go:L447-L469] The hangup of a leg. *)
Definition hangup (self : nat) (ch : string) (ev : SwitchEvent) (x : Acted) : Acted :=
  let x := on_call (fun c => on_leg c ch (fun p => CloseBridge (with_release (EvHangupCause ev) (EvBilledSec ev) p) (OccurredAt ev))) x in
  let x := on_call (fun c => with_bot c (BotMerge (LBot c) (Bot ev))) x in
  let x := transition self ch TriggerRelease (OccurredAt ev) TypePartyReleased x in
  let x := finish (OccurredAt ev) x in
  if acFinished x then announce self TypeCallCDR None (cdr_payload (acCall x)) x else x.

(** [internal/telephony/registry.go:L470-L483] A bridge of the leg on [ch] to the
    one on [o]. *)
Definition bridge (self : nat) (ch o : string) (at_ : instant) (x : Acted) : Acted :=
  let x :=
    match leg_at (acCall x) ch, leg_at (acCall x) o with
    | Some p, Some other =>
        let x := on_call (fun c => on_leg c ch (with_other_number (Number other))) x in
        let x := on_call (fun c => on_leg c o (with_other_number (Number p))) x in
        let x := on_call (fun c => on_leg c o (fun q => OpenBridge q ch at_)) x in
        establish self o at_ x
    | _, _ => x
    end in
  let x := on_call (fun c => on_leg c ch (fun q => OpenBridge q o at_)) x in
  establish self ch at_ x.

(** [internal/telephony/registry.go:L491-L493] *)
Definition close_unless_held (at_ : instant) (p : Party) : Party :=
  if bool_decide (PState p = PartyHeld) then p else CloseBridge p at_.

Definition stay_kind (k : SwitchEventKind) : Call.EventKind :=
  match k with
  | KindChannelUnbridge => Call.KindChannelUnbridge
  | KindChannelBridge => Call.KindChannelBridge
  | KindChannelHangup => Call.KindChannelHangup
  | KindQueueMemberJoined => Call.KindQueueMemberJoined
  | _ => Call.KindOther
  end.

(** The stay an event is about, changed. *)
Definition on_stay (ev : SwitchEvent) (f : QueueFacts -> QueueFacts) (c : LiveCall) : LiveCall :=
  let '(stays, i) := QueueStay (QueueStays (base c)) (Queue ev) (EvJoinedAt ev) in
  with_base c (with_stays (base c)
    (match i with Some i => <[i := f (nth i stays zero_stay)]> stays | None => stays end)).

(** [internal/telephony/registry.go:L512-L513] *)
Definition stay_bridged (at_ : instant) (s : QueueFacts) : QueueFacts :=
  mkStay (QName s) (JoinedAt s) at_ (LeftAt s) (Cause s) (CancelReason s) (QAgentID s).
(** [internal/telephony/registry.go:L514-L522] *)
Definition stay_left (ev : SwitchEvent) (s : QueueFacts) : QueueFacts :=
  mkStay (QName s) (JoinedAt s) (BridgedAt s) (if is_zero (EvLeftAt ev) then OccurredAt ev else EvLeftAt ev)
    (EvCause ev) (EvCancelReason ev) (QAgentID s).

(** [internal/telephony/registry.go:actor.applySwitchEvent] [acFinished] is the
    call handed to [OnCallFinished], and the actor stopped. *)
Definition applySwitchEvent (self : nat) (c : LiveCall) (ev : SwitchEvent) : Acted :=
  let c := with_base c (settleTransfers (base c) (stay_kind (Kind ev)) [EvChannelID ev; OtherChannelID ev; MemberChannelID ev]) in
  let x := mkActed c [] false in
  let ch := EvChannelID ev in
  match leg_at c ch with
  | None => x
  | Some party =>
      match Kind ev with
      | KindChannelAnswer =>
          on_call (fun c => on_leg c ch (fun p => if is_zero (AnsweredAt p) then with_answered (OccurredAt ev) p else p)) x
      | KindChannelHold => transition self ch TriggerHold (OccurredAt ev) TypePartyHeld x
      | KindChannelUnhold => transition self ch TriggerRetrieve (OccurredAt ev) TypePartyRetrieved x
      | KindChannelHangup => hangup self ch ev x
      | KindChannelBridge => bridge self ch (OtherChannelID ev) (OccurredAt ev) x
      | KindChannelUnbridge =>
          on_call (fun c => on_leg (on_leg c ch (close_unless_held (OccurredAt ev))) (OtherChannelID ev) (close_unless_held (OccurredAt ev))) x
      | KindQueueMemberJoined =>
          on_call (fun c => with_base c (with_stays (base c) (JoinQueue (QueueStays (base c)) (Queue ev) (EvJoinedAt ev) (OccurredAt ev)))) x
      | KindQueueBridgeStart => on_call (on_stay ev (stay_bridged (OccurredAt ev))) x
      | KindQueueMemberLeft => on_call (on_stay ev (stay_left ev)) x
      | KindDTMF => announce self TypePartyDTMF (Some party) [("digit"%string, PText (Digit ev)); ("durationMs"%string, PInt (DurationMs ev))] x
      | KindRecordStart => announce self TypeCallRecordingStarted None [] x
      | KindRecordStop => announce self TypeCallRecordingStopped None [] x
      | _ => x
      end
  end.

(** [internal/telephony/registry.go:actor.mergeUserData] with [orEmpty]. *)
Definition mergeUserData (self : nat) (patch : gmap string Value) (c : LiveCall) : LiveCall * UserDataChange * list Told :=
  let '(data, change) := MergeUserData (UserData (base c)) patch in
  let c := with_user_data c data in
  (c, change,
   if IsEmpty change then []
   else [publish self c TypeCallUserData None [("changedKeys"%string, PKeys (Changed change)); ("deletedKeys"%string, PKeys (Deleted change))]]).

(** [internal/telephony/registry.go:actor.patchUserData] *)
Definition patchUserData (self : nat) (patch : gmap string Value) (c : LiveCall) : LiveCall * res UserDataChange UserDataChange * list Told :=
  let plan := planUserDataMerge (UserData (base c)) patch in
  match Dropped plan with
  | [] => let '(c, change, told) := mergeUserData self patch c in (c, Ok change, told)
  | _ => (c, Err plan, [])
  end.

(** ** Actors and the maps *)

(** What a closure makes of a call: the call, what it announces, and the
    counter of transfer tokens. *)
Record Ran := mkRan { ranCall : LiveCall; ranTold : list Told; ranTokens : Z }.

Class Closures (Cmd : Type) := {
  run : Cmd -> nat -> Z -> LiveCall -> Ran;
  (* the closures of requests, not the coordinator's own *)
  outside : Cmd -> bool
}.

Section registry.
Context {Cmd : Type} `{!Closures Cmd}.

(** [internal/telephony/registry.go:command] *)
Inductive Mail := MEvent (ev : SwitchEvent) | MDo (c : Cmd).

(** [internal/telephony/registry.go:actor] [quit]: the channel is closed. *)
Record Actor := mkActor { call : LiveCall; mailbox : list Mail; quit : bool }.

(** A step of another goroutine: an actor takes its next piece of work, or
    leaves its loop; a request posts a closure to a call. *)
Inductive Step := SRun (r : nat) | SExit (r : nat) | SAsk (id : uuid) (c : Cmd).

(** What becomes of a closure sent to an actor that has been stopped: the
    select takes the closed channel, or the mailbox and then the closed channel,
    or the actor still runs it. *)
Inductive Late := LRefuse | LLeave | LRun.

Record Turn := mkTurn { tSteps : list Step; tLate : Late }.

Inductive Out :=
| OTold (t : Told)
| OFinished (r : nat) (c : LiveCall)
| ORetired (r : nat) (id : uuid)
| ODropped (r : nat)
| OAbsorbed (keep absorb : nat)
| OPort (p : Port).

(** [internal/telephony/registry.go:Registry] and what the coordinator keeps:
    the bridges it has seen, the waiting line and the monitoring legs. [datas]
    is the content of each call's business data map. *)
Record World := mkWorld {
  actors : gmap nat Actor;
  byCall : gmap uuid nat;
  byChannel : gmap string nat;
  boundAt : gmap string instant;
  nextRef : nat;
  datas : gmap nat (gmap string Value);
  tokens : Z;
  bridged : gmap string string;
  waiting : gmap string WaitingCall;
  observers : gmap string string;
  out : list Out;
  sched : list Turn
}.

Definition start (turns : list Turn) : World := mkWorld ∅ ∅ ∅ ∅ 0 ∅ 0 ∅ ∅ ∅ [] turns.

Definition say (l : list Out) (w : World) : World :=
  mkWorld (actors w) (byCall w) (byChannel w) (boundAt w) (nextRef w) (datas w) (tokens w) (bridged w) (waiting w)
    (observers w) (out w ++ l) (sched w).
Definition put_actor (r : nat) (a : Actor) (w : World) : World :=
  mkWorld (<[r := a]> (actors w)) (byCall w) (byChannel w) (boundAt w) (nextRef w)
    (<[r := UserData (base (call a))]> (datas w))
    (tokens w) (bridged w) (waiting w) (observers w) (out w) (sched w).
Definition with_tokens (t : Z) (w : World) : World :=
  mkWorld (actors w) (byCall w) (byChannel w) (boundAt w) (nextRef w) (datas w) t (bridged w) (waiting w)
    (observers w) (out w) (sched w).
Definition with_sched (l : list Turn) (w : World) : World :=
  mkWorld (actors w) (byCall w) (byChannel w) (boundAt w) (nextRef w) (datas w) (tokens w) (bridged w) (waiting w)
    (observers w) (out w) l.
Definition with_bridged (m : gmap string string) (w : World) : World :=
  mkWorld (actors w) (byCall w) (byChannel w) (boundAt w) (nextRef w) (datas w) (tokens w) m (waiting w)
    (observers w) (out w) (sched w).
Definition with_waiting (m : gmap string WaitingCall) (w : World) : World :=
  mkWorld (actors w) (byCall w) (byChannel w) (boundAt w) (nextRef w) (datas w) (tokens w) (bridged w) m
    (observers w) (out w) (sched w).
Definition with_observers (m : gmap string string) (w : World) : World :=
  mkWorld (actors w) (byCall w) (byChannel w) (boundAt w) (nextRef w) (datas w) (tokens w) (bridged w) (waiting w)
    m (out w) (sched w).

(** What an envelope says when it is read in [w]. *)
Definition event_data (w : World) (t : Told) : option (gmap string Value) := r ← TData t; datas w !! r.

(** One piece of work, taken from the mailbox of [a]. *)
Definition work (r : nat) (a : Actor) (m : Mail) (w : World) : World :=
  match m with
  | MEvent ev =>
      let x := applySwitchEvent r (call a) ev in
      say (map OTold (acTold x) ++ (if acFinished x then [OFinished r (acCall x)] else []))
        (put_actor r (mkActor (acCall x) (mailbox a) (quit a || acFinished x)) w)
  | MDo c =>
      let x := run c r (tokens w) (call a) in
      say (map OTold (ranTold x)) (with_tokens (ranTokens x) (put_actor r (mkActor (ranCall x) (mailbox a) (quit a)) w))
  end.

(** [internal/telephony/registry.go:actor.loop] one turn of the loop that takes
    work. *)
Definition deliver (r : nat) (w : World) : World :=
  match actors w !! r with
  | Some a =>
      match mailbox a with
      | m :: rest => work r (mkActor (call a) rest (quit a)) m w
      | [] => w
      end
  | None => w
  end.

Definition push (r : nat) (a : Actor) (m : Mail) (w : World) : World :=
  put_actor r (mkActor (call a) (mailbox a ++ [m]) (quit a)) w.

(** [internal/telephony/registry.go:actor.post] *)
Definition post (r : nat) (m : Mail) (w : World) : World * bool :=
  match actors w !! r with
  | None => (w, false)
  | Some a =>
      if quit a then (w, false)
      else if (length (mailbox a) <? mailboxSize)%nat then (push r a m w, true)
      else (say [ODropped r] w, false)
  end.

(** [internal/telephony/registry.go:Registry.remove] with the loop's exit,
    which a closed [quit] allows. *)
Definition remove (r : nat) (w : World) : World :=
  match actors w !! r with
  | Some a =>
      if quit a then
        say [ORetired r (CallID (base (call a)))]
          (mkWorld (delete r (actors w)) (delete (CallID (base (call a))) (byCall w))
             (filter (fun kv => kv.2 <> r) (byChannel w))
             (filter (fun kv => byChannel w !! kv.1 <> Some r) (boundAt w))
             (nextRef w) (datas w) (tokens w) (bridged w) (waiting w) (observers w) (out w) (sched w))
      else w
  | None => w
  end.

Definition step (w : World) (s : Step) : World :=
  match s with
  | SRun r => deliver r w
  | SExit r => remove r w
  | SAsk id c =>
      if outside c then
        match byCall w !! id with
        | Some r => match actors w !! r with
                    | Some a => if (length (mailbox a) <? mailboxSize)%nat then push r a (MDo c) w else w
                    | None => w
                    end
        | None => w
        end
      else w
  end.

(** The other goroutines, until the next access of this one. *)
Definition tick (w : World) : World * Late :=
  match sched w with
  | [] => (w, LRefuse)
  | t :: rest => (fold_left step (tSteps t) (with_sched rest w), tLate t)
  end.

Definition pause (w : World) : World := (tick w).1.

Definition add_call (c : LiveCall) (w : World) : World :=
  mkWorld (<[nextRef w := mkActor c [] false]> (actors w)) (<[CallID (base c) := nextRef w]> (byCall w)) (byChannel w)
    (boundAt w) (S (nextRef w)) (<[nextRef w := UserData (base c)]> (datas w)) (tokens w) (bridged w) (waiting w) (observers w) (out w) (sched w).

(** [internal/telephony/registry.go:Registry.CreateCall] *)
Definition CreateCall (id : uuid) (t : CallType) (language : string) (isMinted : bool) (at_ : instant) (w : World) : World * bool :=
  let w := pause w in
  match byCall w !! id with
  | Some _ => (w, false)
  | None => (add_call (mkLive (NewCall id at_) t language isMinted zero_bot None false) w, true)
  end.

Definition bind (channelID : string) (r : nat) (now : instant) (w : World) : World :=
  mkWorld (actors w) (byCall w) (<[channelID := r]> (byChannel w))
    (match boundAt w !! channelID with Some _ => boundAt w | None => <[channelID := now]> (boundAt w) end)
    (nextRef w) (datas w) (tokens w) (bridged w) (waiting w) (observers w) (out w) (sched w).

(** [internal/telephony/registry.go:Registry.BindChannel] *)
Definition BindChannel (channelID : string) (id : uuid) (now : instant) (w : World) : World * bool :=
  let w := pause w in
  match byCall w !! id with
  | None => (w, false)
  | Some r => (bind channelID r now w, true)
  end.

(** [internal/telephony/registry.go:Registry.Owns] *)
Definition Owns (channelID : string) (w : World) : World * bool :=
  let w := pause w in (w, bool_decide (is_Some (byChannel w !! channelID))).

(** [internal/telephony/registry.go:Registry.CallForChannel] *)
Definition CallForChannel (channelID : string) (w : World) : World * option uuid :=
  let w := pause w in
  (w, r ← byChannel w !! channelID; a ← actors w !! r; Some (CallID (base (call a)))).

(** [internal/telephony/registry.go:Registry.Dispatch] *)
Definition Dispatch (ev : SwitchEvent) (w : World) : World * bool :=
  if String.eqb (EvChannelID ev) "" then (w, false)
  else
    let w := pause w in
    match byChannel w !! EvChannelID ev with
    | None => (w, false)
    | Some r => post r (MEvent ev) (pause w)
    end.

(** [internal/telephony/registry.go:Registry.Retire] with [actor.stop] *)
Definition Retire (id : uuid) (w : World) : World :=
  let w := pause w in
  match byCall w !! id with
  | None => w
  | Some r =>
      let w := pause w in
      match actors w !! r with
      | None => w
      | Some a => put_actor r (mkActor (call a) (mailbox a) true) w
      end
  end.

(** What a closure found and what it left. *)
Record Seen := mkSeen { seenRef : nat; before : LiveCall; after : LiveCall; seenTokens : Z }.

Definition run_now (r : nat) (c : Cmd) (w : World) : World * option Seen :=
  match actors w !! r with
  | None => (w, None)
  | Some a =>
      let x := run c r (tokens w) (call a) in
      (work r a (MDo c) w, Some (mkSeen r (call a) (ranCall x) (ranTokens x)))
  end.

(** The work ahead of a closure, and then the closure. When the actor is
    stopped on the way the sender may give up; the closure stays behind. *)
Fixpoint wait_turn (late : Late) (n : nat) (r : nat) (c : Cmd) (w : World) : World * option Seen :=
  match actors w !! r with
  | None => (w, None)
  | Some a =>
      match quit a, late with
      | true, LRefuse | true, LLeave =>
          (if (length (mailbox a) <? mailboxSize)%nat then push r a (MDo c) w else w, None)
      | _, _ => match n with
                | O => run_now r c w
                | S n => wait_turn late n r c (deliver r w)
                end
      end
  end.

(** [internal/telephony/registry.go:actor.postSync] *)
Definition postSync (r : nat) (c : Cmd) (w : World) : World * option Seen :=
  let '(w, late) := tick w in
  match actors w !! r with
  | None => (w, None)
  | Some a =>
      match quit a, late with
      | true, LRefuse => (w, None)
      | _, _ => wait_turn late (length (mailbox a)) r c w
      end
  end.

(** [internal/telephony/registry.go:Registry.do] *)
Definition Do (id : uuid) (c : Cmd) (w : World) : World * option Seen :=
  let w := pause w in
  match byCall w !! id with
  | None => (w, None)
  | Some r => postSync r c w
  end.

End registry.

Arguments Mail : clear implicits.
Arguments Actor : clear implicits.
Arguments Step : clear implicits.
Arguments Turn : clear implicits.
Arguments World : clear implicits.
End Registry.
