(* ===== verification/RegistryFacts.v ===== *)
(** * What holds of the registry in every interleaving

    First what an actor's work does to a call, then the invariant of the
    registry, and the relation between two worlds with only other goroutines'
    steps in between ([evolves]): what the thread that is modelled may rely on
    from one access to the next. *)

From S2P Require Import Prelude GoText Calendar Schedule Call TelephonyData Registry.

Module RegistryFacts.
Import GoText Call TelephonyData Registry.

(** ** The legs of a call *)

(** What of a leg no event and no request changes. *)
Definition shape (p : Party) : uuid * string * PartyRole * option uuid := (PartyID p, ChannelID p, Role p, PAgentID p).
Definition shapes (c : LiveCall) := shape <$> legs c.
Definition channels (c : LiveCall) : list string := ChannelID <$> legs c.
Definition is_originator (p : Party) : bool := bool_decide (Role p = RoleOriginator).
Definition originators (l : list Party) : nat := length (List.filter is_originator l).

(** The legs have channels of their own, and one of them began the call. *)
Record call_ok (c : LiveCall) : Prop := mkCallOk {
  co_channels : NoDup (channels c);
  co_origin : legs c <> [] -> originators (legs c) = 1%nat
}.

(** The same call with the same legs. *)
Record frame (c c' : LiveCall) : Prop := mkFrame {
  fr_id : CallID (base c') = CallID (base c);
  fr_minted : IsMintedID c' = IsMintedID c;
  fr_type : LCallType c' = LCallType c;
  fr_shapes : shapes c' = shapes c
}.

#[export] Instance frame_refl : Reflexive frame.
Proof. by intros c. Qed.
#[export] Instance frame_trans : Transitive frame.
Proof. intros a b c [] []. constructor; congruence. Qed.

Lemma shapes_channels c c' : shapes c' = shapes c -> channels c' = channels c.
Proof.
  intros H. assert (E : (fun s : uuid * string * PartyRole * option uuid => s.1.1.2) <$> shapes c' = (fun s => s.1.1.2) <$> shapes c) by congruence.
  unfold shapes in E. rewrite <- !list_fmap_compose in E. exact E.
Qed.

Lemma shapes_originators l l' : shape <$> l' = shape <$> l -> originators l' = originators l.
Proof.
  unfold originators. revert l'. induction l as [|p l IH]; intros [|p' l'] H; try done. simpl in H.
  injection H as H1 H2 H3 H4 H. simpl.
  assert (E : is_originator p' = is_originator p) by (unfold is_originator; by rewrite H3). rewrite E.
  destruct (is_originator p); simpl; [f_equal|]; by apply IH.
Qed.

Lemma frame_ok c c' : frame c c' -> call_ok c -> call_ok c'.
Proof.
  intros [_ _ _ H] [H1 H2]. constructor; [by rewrite (shapes_channels c c' H)|].
  intros Hn. rewrite (shapes_originators (legs c) (legs c') H). apply H2.
  unfold shapes in H. destruct (legs c); [|done]. by destruct (legs c').
Qed.

Lemma change_leg_shape ch f l : (forall p, shape (f p) = shape p) -> shape <$> change_leg ch f l = shape <$> l.
Proof.
  intros Hf. induction l as [|p l IH]; [done|]. cbn [change_leg]. destruct (String.eqb _ _); rewrite !fmap_cons.
  - by rewrite Hf.
  - by rewrite IH.
Qed.

(** An actor's step that keeps the call's identity, legs and state. *)
Record stays (x y : Acted) : Prop := mkStays {
  st_frame : frame (acCall x) (acCall y);
  st_state : State (base (acCall y)) = State (base (acCall x));
  st_finished : acFinished y = acFinished x
}.

#[export] Instance stays_refl : Reflexive stays.
Proof. by intros x. Qed.
#[export] Instance stays_trans : Transitive stays.
Proof. intros a b c [] []. constructor; [by etrans|congruence|congruence]. Qed.

Lemma announce_stays self t p l x : stays x (announce self t p l x).
Proof. done. Qed.

Lemma on_leg_frame c ch f : (forall p, shape (f p) = shape p) -> frame c (on_leg c ch f).
Proof. intros Hf. constructor; try done. by apply change_leg_shape. Qed.

Lemma on_leg_stays ch f x : (forall p, shape (f p) = shape p) -> stays x (on_call (fun c => on_leg c ch f) x).
Proof. intros Hf. constructor; [by apply on_leg_frame|done|done]. Qed.

Lemma with_stays_stays f x : stays x (on_call (fun c => with_base c (with_stays (base c) (f c))) x).
Proof. done. Qed.

Lemma apply_shape p t at_ p' : apply p t at_ = Ok p' -> shape p' = shape p.
Proof. unfold apply. destruct (partyTransitions _ _); [|done]. by intros [= <-]. Qed.

Lemma OpenBridge_shape p o at_ : shape (OpenBridge p o at_) = shape p.
Proof. unfold OpenBridge. by destruct (bridge_open _). Qed.

Lemma CloseBridge_shape p at_ : shape (CloseBridge p at_) = shape p.
Proof. unfold CloseBridge. destruct (last _) as [b|]; [|done]. by destruct (is_zero _). Qed.

Lemma leg_at_spec c ch p : leg_at c ch = Some p -> p ∈ legs c /\ ChannelID p = ch.
Proof.
  unfold leg_at, PartyByChannel. intros H. apply find_some in H as [H1 H2].
  split; [by apply list_elem_of_In|by apply String.eqb_eq].
Qed.

Lemma leg_at_None c ch : leg_at c ch = None <-> ch ∉ channels c.
Proof.
  unfold leg_at, PartyByChannel, channels, legs. induction (Parties (base c)) as [|p l IH]; simpl; [set_solver|].
  destruct (String.eqb_spec (ChannelID p) ch) as [->|Hne]; [split; [done|set_solver]|]. rewrite IH. set_solver.
Qed.

Lemma change_leg_replace ch p p' l : List.find (fun p => String.eqb (ChannelID p) ch) l = Some p -> shape p' = shape p ->
  shape <$> change_leg ch (fun _ => p') l = shape <$> l.
Proof.
  induction l as [|q l IH]; [done|]. cbn [change_leg List.find].
  destruct (String.eqb_spec (ChannelID q) ch); rewrite !fmap_cons.
  - intros [= ->] ->. done.
  - intros Hf Hs. by rewrite (IH Hf Hs).
Qed.

Lemma transition_stays self ch t at_ ty x : stays x (transition self ch t at_ ty x).
Proof.
  unfold transition. destruct (leg_at _ _) as [p|] eqn:E; [|done]. destruct (apply p t at_) as [p'|e] eqn:Ea; [|done].
  constructor; [|done|done]. constructor; try done.
  exact (change_leg_replace ch p p' _ E (apply_shape _ _ _ _ Ea)).
Qed.

Lemma establish_stays self ch at_ x : stays x (establish self ch at_ x).
Proof. unfold establish. destruct (leg_at _ _); [|done]. destruct (_ || _); [|done]. apply transition_stays. Qed.

Ltac stays_tac := first [apply transition_stays | apply establish_stays | apply announce_stays | apply with_stays_stays
  | apply on_leg_stays; intros ?; by rewrite ?OpenBridge_shape, ?CloseBridge_shape | done].

Lemma bridge_stays self ch o at_ x : stays x (bridge self ch o at_ x).
Proof.
  unfold bridge. etrans; [|apply establish_stays]. etrans; [|apply on_leg_stays; intros ?; apply OpenBridge_shape].
  destruct (leg_at _ ch); [|done]. destruct (leg_at _ o); [|done].
  etrans; [|apply establish_stays]. etrans; [|apply on_leg_stays; intros ?; apply OpenBridge_shape].
  etrans; [|by apply on_leg_stays]. by apply on_leg_stays.
Qed.

(** A finished call had not ended, has no leg left, and ends. *)
Record acted_ok (c : LiveCall) (ev : SwitchEvent) (x : Acted) : Prop := mkActedOk {
  ao_frame : frame c (acCall x);
  ao_goes_on : acFinished x = false -> State (base (acCall x)) = State (base c);
  ao_finished : acFinished x = true ->
    State (base c) <> CallEnded /\ State (base (acCall x)) = CallEnded /\ Kind ev = KindChannelHangup /\
    Forall (fun p => IsActive p = false) (legs (acCall x))
}.

Lemma stays_ok c ev x : stays (mkActed c [] false) x -> acted_ok c ev x.
Proof. intros [H1 H2 H3]. simpl in *. constructor; [done|done|]. by rewrite H3. Qed.

Lemma ActiveParties_none c : length (ActiveParties c) = 0%nat <-> Forall (fun p => IsActive p = false) (Parties c).
Proof.
  unfold ActiveParties. induction (Parties c) as [|p l IH]; simpl; [split; constructor|].
  destruct (IsActive p) eqn:E; simpl; [split; [done|]; by inversion 1; congruence|]. rewrite IH.
  split; [by constructor|by inversion 1].
Qed.

Lemma hangup_ok self c ch ev x : Kind ev = KindChannelHangup -> stays (mkActed c [] false) x -> acted_ok c ev (hangup self ch ev x).
Proof.
  intros Hk H. unfold hangup.
  match goal with |- context [finish _ ?z] => assert (Hz : stays (mkActed c [] false) z) end.
  { etrans; [|apply transition_stays]. etrans; [exact H|].
    transitivity (on_call (fun c => on_leg c ch (fun p => CloseBridge (with_release (EvHangupCause ev) (EvBilledSec ev) p) (OccurredAt ev))) x); [|done].
    apply on_leg_stays. intros p. by rewrite CloseBridge_shape. }
  match goal with |- context [finish _ ?z] => generalize dependent z end. clear x H. intros x [H1 H2 H3]. simpl in *.
  unfold finish, Finish. destruct (negb _ || bool_decide _) eqn:E; simpl.
  - constructor; [|done|done]. by destruct (acCall x).
  - apply orb_false_iff in E as [E1 E2]. apply negb_false_iff, Nat.eqb_eq in E1. apply bool_decide_eq_false in E2.
    constructor; simpl; [|done|].
    + destruct H1. by constructor.
    + intros _. split; [congruence|]. split; [done|]. split; [done|]. by apply ActiveParties_none.
Qed.

Theorem applySwitchEvent_ok self c ev : acted_ok c ev (applySwitchEvent self c ev).
Proof.
  unfold applySwitchEvent.
  set (c0 := with_base c (settleTransfers (base c) _ _)).
  assert (H0 : stays (mkActed c [] false) (mkActed c0 [] false)).
  { subst c0. constructor; [|simpl|done]; destruct (stay_kind _); done. }
  destruct (leg_at c0 _) as [p|] eqn:Ep; [|by apply stays_ok].
  assert (Hs : forall x, stays (mkActed c0 [] false) x -> acted_ok c ev x).
  { intros x Hx. apply stays_ok. by etrans. }
  destruct (Kind ev) eqn:Ek; try (by apply Hs); try (apply Hs; stays_tac).
  - apply Hs, on_leg_stays. intros q. by destruct (is_zero _).
  - apply Hs, bridge_stays.
  - apply Hs. constructor; [|done|done].
    etrans; apply on_leg_frame; intros q; unfold close_unless_held; destruct (bool_decide _); rewrite ?CloseBridge_shape; done.
  - by apply hangup_ok.
  - apply Hs. unfold on_stay, on_call. simpl. by destruct (QueueStay _ _ _) as [stays [i|]].
  - apply Hs. unfold on_stay, on_call. simpl. by destruct (QueueStay _ _ _) as [stays [i|]].
Qed.

(** A leg that is still on the call. *)
Definition active (ch : string) (c : LiveCall) : Prop := exists p, p ∈ legs c /\ ChannelID p = ch /\ IsActive p = true.

Lemma change_leg_elem ch f l p : p ∈ l -> exists q, q ∈ change_leg ch f l /\ (q = p \/ q = f p /\ ChannelID p = ch).
Proof.
  induction l as [|p' l IH]; [by intros ?%not_elem_of_nil|]. rewrite elem_of_cons. cbn [change_leg].
  destruct (String.eqb_spec (ChannelID p') ch) as [E|E]; intros [->|H].
  - exists (f p'). split; [left|auto].
  - exists p. split; [by right|auto].
  - exists p'. split; [left|auto].
  - destruct (IH H) as (q & ? & ?). exists q. split; [by right|done].
Qed.

Definition keeps_active (ch : string) (x y : Acted) : Prop := active ch (acCall x) -> active ch (acCall y).

#[export] Instance keeps_active_refl ch : Reflexive (keeps_active ch).
Proof. intros x. by unfold keeps_active. Qed.
#[export] Instance keeps_active_trans ch : Transitive (keeps_active ch).
Proof. unfold keeps_active. intros a b c; auto. Qed.

Lemma on_leg_active ch ch' f c : (forall p, ChannelID (f p) = ChannelID p) ->
  (forall p, ch' = ch -> IsActive p = true -> IsActive (f p) = true) -> active ch c -> active ch (on_leg c ch' f).
Proof.
  intros Hc Ha (p & Hp & E & Hact). destruct (change_leg_elem ch' f (legs c) p Hp) as (q & Hq & [->|[-> E']]).
  - by exists p.
  - exists (f p). split; [done|]. rewrite Hc. split; [done|]. apply Ha; [congruence|done].
Qed.

Lemma transition_active ch self ch' t at_ ty x : (ch' = ch -> t <> TriggerRelease) -> keeps_active ch x (transition self ch' t at_ ty x).
Proof.
  intros Ht Hact. unfold transition. destruct (leg_at _ _) as [p|] eqn:E; [|done]. apply leg_at_spec in E as [Hp E].
  destruct (apply p t at_) as [p'|e] eqn:Ea; [|done]. simpl.
  pose proof (apply_shape _ _ _ _ Ea) as Hs. injection Hs as _ Hs _ _.
  destruct Hact as (q & Hq & Eq & Hact). destruct (change_leg_elem ch' (fun _ => p') (legs (acCall x)) q Hq) as (q' & Hq' & [->|[-> E']]).
  - by exists q.
  - exists p'. split; [done|]. split; [congruence|]. assert (Hne : t <> TriggerRelease) by (apply Ht; congruence).
    unfold apply in Ea. destruct (partyTransitions (PState p) t) as [s|] eqn:Es; [|done]. injection Ea as <-.
    unfold IsActive. simpl. apply negb_true_iff, bool_decide_eq_false. intros ->.
    destruct (PState p), t; simpl in Es; congruence.
Qed.

Lemma establish_active ch self ch' at_ x : keeps_active ch x (establish self ch' at_ x).
Proof. unfold establish. destruct (leg_at _ _); [|done]. destruct (_ || _); [|done]. by apply transition_active. Qed.

Lemma OpenBridge_active p o at_ : IsActive (OpenBridge p o at_) = IsActive p.
Proof. unfold OpenBridge. by destruct (bridge_open _). Qed.
Lemma CloseBridge_active p at_ : IsActive (CloseBridge p at_) = IsActive p.
Proof. unfold CloseBridge. destruct (last _) as [b|]; [|done]. by destruct (is_zero _). Qed.
Lemma OpenBridge_channel p o at_ : ChannelID (OpenBridge p o at_) = ChannelID p.
Proof. unfold OpenBridge. by destruct (bridge_open _). Qed.
Lemma CloseBridge_channel p at_ : ChannelID (CloseBridge p at_) = ChannelID p.
Proof. unfold CloseBridge. destruct (last _) as [b|]; [|done]. by destruct (is_zero _). Qed.

Ltac leg_tac := intros; rewrite ?OpenBridge_active, ?CloseBridge_active, ?OpenBridge_channel, ?CloseBridge_channel; done.

Lemma bridge_active ch self ch' o at_ x : keeps_active ch x (bridge self ch' o at_ x).
Proof.
  unfold bridge. etrans; [|apply establish_active]. etrans; [|unfold keeps_active; apply on_leg_active; leg_tac].
  destruct (leg_at _ ch'); [|by unfold keeps_active]. destruct (leg_at _ o); [|by unfold keeps_active].
  etrans; [|apply establish_active]. etrans; [|unfold keeps_active; apply on_leg_active; leg_tac].
  etrans; [|unfold keeps_active; apply on_leg_active; leg_tac]. unfold keeps_active. apply on_leg_active; leg_tac.
Qed.

Lemma finish_active ch at_ x : keeps_active ch x (finish at_ x).
Proof. unfold keeps_active, finish, Finish. by destruct (negb _ || _). Qed.

(** A leg leaves the call only at its own hangup. *)
Lemma applySwitchEvent_active ch self c ev : (Kind ev = KindChannelHangup -> EvChannelID ev <> ch) -> active ch c ->
  active ch (acCall (applySwitchEvent self c ev)) /\ acFinished (applySwitchEvent self c ev) = false.
Proof.
  intros Hh Hact. assert (H : active ch (acCall (applySwitchEvent self c ev))).
  { unfold applySwitchEvent. set (c0 := with_base c (settleTransfers (base c) _ _)).
    assert (H0 : active ch c0) by (subst c0; unfold active, legs; simpl; by destruct (stay_kind _)).
    destruct (leg_at c0 _) as [p|] eqn:Ep; [|done].
    destruct (Kind ev) eqn:Ek; try done; try (by apply transition_active).
    - apply on_leg_active; [| |done]; intros q; by destruct (is_zero _).
    - by apply bridge_active.
    - simpl. unfold close_unless_held. apply on_leg_active; [| |apply on_leg_active; [| |done]]; intros q; destruct (bool_decide _); leg_tac.
    - specialize (Hh eq_refl). unfold hangup. match goal with |- context [finish _ ?z] => assert (Hz : active ch (acCall z)) end.
      { apply transition_active; [done|]. simpl. apply on_leg_active; [leg_tac| |done]. intros q <-. done. }
      apply (finish_active ch (OccurredAt ev)) in Hz. by destruct (acFinished _).
    - simpl. unfold on_stay. by destruct (QueueStay _ _ _) as [stays [i|]].
    - simpl. unfold on_stay. by destruct (QueueStay _ _ _) as [stays [i|]]. }
  split; [done|]. destruct (acFinished _) eqn:E; [|done].
  destruct (ao_finished _ _ _ (applySwitchEvent_ok self c ev) E) as (_ & _ & _ & Hall).
  destruct H as (p & Hp & _ & Hp'). rewrite Forall_forall in Hall. rewrite (Hall p Hp) in Hp'. done.
Qed.

(** ** The invariant *)

(** What the registry asks of the closures: they know the call by its
    identity, neither end it nor take it up again, keep its legs in order, and
    those of requests leave the legs alone. *)
Class ClosureLaws (Cmd : Type) `{!Closures Cmd} := {
  run_id c r t x : CallID (base (ranCall (run c r t x))) = CallID (base x);
  run_minted c r t x : IsMintedID (ranCall (run c r t x)) = IsMintedID x;
  run_type c r t x : LCallType (ranCall (run c r t x)) = LCallType x;
  run_ended c r t x : State (base (ranCall (run c r t x))) = CallEnded <-> State (base x) = CallEnded;
  fit : Cmd -> Prop;
  run_ok c r t x : fit c -> call_ok x -> call_ok (ranCall (run c r t x));
  outside_fit c : outside c = true -> fit c;
  run_active c r t x ch : active ch x -> active ch (ranCall (run c r t x));
  run_outside c r t x : outside c = true -> shapes (ranCall (run c r t x)) = shapes x
}.

Section facts.
Context {Cmd : Type} `{!Closures Cmd, !ClosureLaws Cmd}.
Implicit Types (w : World Cmd) (a : Actor Cmd).

Definition is_event (m : Mail Cmd) : bool := match m with MEvent _ => true | MDo _ => false end.
Definition hangs_up (ch : string) (m : Mail Cmd) : bool :=
  match m with MEvent ev => bool_decide (Kind ev = KindChannelHangup /\ EvChannelID ev = ch) | MDo _ => false end.
Definition is_outside (m : Mail Cmd) : bool := match m with MEvent _ => true | MDo c => outside c end.

Definition fit_mail (m : Mail Cmd) : Prop := match m with MEvent _ => True | MDo c => fit c end.

Definition no_events a : Prop := Forall (fun m => is_event m = false) (mailbox a).
(** The leg on a channel is up: the actor runs, the leg is on the call, and its
    hangup is not on its way. *)
Record up (ch : string) a : Prop := mkUp {
  up_runs : quit a = false;
  up_active : active ch (call a);
  up_mail : Forall (fun m => hangs_up ch m = false) (mailbox a)
}.

Definition reported (l : list Out) : list nat := omap (fun o => match o with OFinished r _ => Some r | _ => None end) l.
Definition absorbed (l : list Out) : list nat := omap (fun o => match o with OAbsorbed _ r => Some r | _ => None end) l.

(** A call that was absorbed is not reported. *)
Definition apart (l : list Out) : Prop := forall r, r ∈ absorbed l -> r ∉ reported l.

Record actor_ok (log : list Out) (r : nat) a : Prop := mkActorOk {
  ac_call : call_ok (call a);
  ac_ended : State (base (call a)) = CallEnded <-> r ∈ reported log;
  ac_stopped : State (base (call a)) = CallEnded -> quit a = true;
  ac_quit : quit a = true -> State (base (call a)) = CallEnded \/ no_events a;
  ac_box : (length (mailbox a) <= mailboxSize)%nat;
  ac_fit : Forall fit_mail (mailbox a);
  ac_outside : quit a = false -> Forall (fun m => is_outside m = true) (mailbox a);
  ac_absorbed : r ∈ absorbed log -> quit a = true
}.

Record registry_ok w : Prop := mkRegistryOk {
  ro_call : forall (id : uuid) r, byCall w !! id = Some r -> exists a, actors w !! r = Some a /\ CallID (base (call a)) = id;
  ro_actor : forall r a, actors w !! r = Some a -> byCall w !! CallID (base (call a)) = Some r;
  ro_chan : forall ch r, byChannel w !! ch = Some r -> is_Some (actors w !! r);
  ro_fresh : forall r, is_Some (actors w !! r) \/ r ∈ reported (out w) \/ r ∈ absorbed (out w) -> (r < nextRef w)%nat;
  ro_actors : forall r a, actors w !! r = Some a -> actor_ok (out w) r a;
  ro_once : NoDup (reported (out w));
  ro_apart : apart (out w)
}.

Lemma reported_app l l' : reported (l ++ l') = reported l ++ reported l'.
Proof. apply omap_app. Qed.
Lemma absorbed_app l l' : absorbed (l ++ l') = absorbed l ++ absorbed l'.
Proof. apply omap_app. Qed.
Lemma reported_told l : reported (map OTold l) = [].
Proof. by induction l. Qed.
Lemma absorbed_told l : absorbed (map OTold l) = [].
Proof. by induction l. Qed.

Lemma apart_app l l' : apart l -> absorbed l' = [] -> (forall r, r ∈ absorbed l -> r ∉ reported l') -> apart (l ++ l').
Proof.
  intros H Hl' Hr r. rewrite absorbed_app, reported_app, Hl', app_nil_r, elem_of_app. intros Ha [Hin|Hin]; [by apply (H r)|by apply (Hr r)].
Qed.

(** *** One actor changed *)

Lemma put_ok w w' r a a' l : registry_ok w -> actors w !! r = Some a -> CallID (base (call a')) = CallID (base (call a)) ->
  actors w' = <[r := a']> (actors w) -> byCall w' = byCall w -> byChannel w' = byChannel w -> nextRef w' = nextRef w ->
  out w' = out w ++ l -> actor_ok (out w ++ l) r a' -> absorbed l = [] ->
  reported l = [] \/ reported l = [r] /\ quit a = false -> registry_ok w'.
Proof.
  intros [H1 H2 H3 H4 H5 H6 H7] Hr Hid Ea Ec Eh En Eo Ha Hl Hrep.
  assert (Hnew : forall r', r' ∈ reported l -> r' = r /\ r ∉ reported (out w) /\ r ∉ absorbed (out w)).
  { intros r' Hr'. destruct Hrep as [E|[E Hq]]; rewrite E in Hr'; [set_solver|]. split; [set_solver|].
    destruct (H5 r a Hr) as [_ He Hs _ _ _ _ Hab]. split; [rewrite <- He; intros Hd; apply Hs in Hd; congruence|].
    intros Hin. apply Hab in Hin. congruence. }
  assert (Hlr : is_Some (actors w !! r)) by (by exists a).
  constructor; rewrite ?Ea, ?Ec, ?Eh, ?En, ?Eo.
  - intros id r' E. destruct (H1 id r' E) as (b & Hb & Hi). destruct (decide (r' = r)) as [->|Hne].
    + exists a'. rewrite lookup_insert_eq. split; [done|]. simplify_eq. done.
    + exists b. by rewrite lookup_insert_ne.
  - intros r' b. rewrite lookup_insert_Some. intros [[<- <-]|[Hne E]]; [rewrite Hid|]; by apply H2.
  - intros ch r' E. destruct (decide (r' = r)) as [->|Hne]; [rewrite lookup_insert_eq; by eexists|].
    rewrite lookup_insert_ne by done. by apply (H3 ch).
  - intros r'. rewrite reported_app, absorbed_app, !elem_of_app, Hl, lookup_insert_is_Some'. intros Hc. apply H4.
    destruct Hc as [[<-|?]|[[?|Hn]|[?|Hn]]]; auto; [|set_solver]. apply Hnew in Hn as [-> _]. auto.
  - intros r' b. rewrite lookup_insert_Some. intros [[<- <-]|[Hne E]]; [done|].
    destruct (H5 r' b E) as [A1 A2 A3 A4 A5 A8 A6 A7]. constructor; try done.
    + rewrite A2, reported_app, elem_of_app. split; [auto|]. intros [?|Hn]; [done|]. apply Hnew in Hn as [-> _]. done.
    + rewrite absorbed_app, Hl, app_nil_r. done.
  - rewrite reported_app. destruct Hrep as [->|[E Hq]]; [by rewrite app_nil_r|]. rewrite E in *.
    apply NoDup_app. split; [done|]. split; [|apply NoDup_singleton].
    intros r' Hin Hs. apply Hnew in Hs as (-> & ? & _). done.
  - apply apart_app; [done|done|]. intros r' Hab Hn. apply Hnew in Hn as (-> & _ & ?). done.
Qed.

Lemma pop_ok log r a m rest : actor_ok log r a -> mailbox a = m :: rest ->
  actor_ok log r (mkActor (call a) rest (quit a)).
Proof.
  intros [A1 A2 A3 A4 A5 A8 A6 A7] E. constructor; simpl; try done.
  - intros Hq. destruct (A4 Hq) as [?|Hn]; [by left|]. right. unfold no_events in *. rewrite E in Hn. by inversion Hn.
  - rewrite E in A5. simpl in A5. lia.
  - rewrite E in A8. by inversion A8.
  - intros Hq. specialize (A6 Hq). rewrite E in A6. by inversion A6.
Qed.

Lemma work_ok w r a0 a m : registry_ok w -> actors w !! r = Some a0 -> call a = call a0 -> quit a = quit a0 ->
  actor_ok (out w) r a -> fit_mail m -> (is_event m = true -> quit a = true -> State (base (call a)) = CallEnded) ->
  registry_ok (work r a m w).
Proof.
  intros Hw Hr Ec Eq [A1 A2 A3 A4 A5 A8 A6 A7] Hfit Hm. destruct m as [ev|c]; simpl.
  - destruct (applySwitchEvent_ok r (call a) ev) as [Hf Hgo Hfin].
    set (x := applySwitchEvent r (call a) ev) in *.
    eapply (put_ok w _ r a0 (mkActor (acCall x) (mailbox a) (quit a || acFinished x))); try done; simpl.
    + destruct Hf. congruence.
    + destruct (acFinished x) eqn:Ex.
      * destruct (Hfin eq_refl) as (Hne & He & _). constructor; simpl; rewrite ?orb_true_r; try done.
        -- by eapply frame_ok.
        -- split; [|done]. intros _. rewrite !reported_app, !elem_of_app. right. right. left.
        -- auto.
      * rewrite app_nil_r. constructor; simpl; rewrite ?orb_false_r, ?(Hgo eq_refl); try done.
        -- by eapply frame_ok.
        -- by rewrite A2, reported_app, reported_told, app_nil_r.
        -- by rewrite absorbed_app, absorbed_told, app_nil_r.
    + rewrite absorbed_app, absorbed_told. by destruct (acFinished x).
    + rewrite reported_app, reported_told. destruct (acFinished x) eqn:Ex; [right|by left]. split; [done|].
      destruct (Hfin eq_refl) as (Hne & _). rewrite <- Eq. destruct (quit a) eqn:Ea; [|done]. by destruct Hne; apply Hm.
  - set (x := run c r (tokens w) (call a)).
    eapply (put_ok w _ r a0 (mkActor (ranCall x) (mailbox a) (quit a))); try done; simpl.
    + unfold x. by rewrite run_id, Ec.
    + constructor; simpl; unfold x; rewrite ?run_ended; try done.
      * by apply run_ok.
      * by rewrite A2, reported_app, reported_told, app_nil_r.
      * by rewrite absorbed_app, absorbed_told, app_nil_r.
    + apply absorbed_told.
    + left. apply reported_told.
Qed.

Lemma deliver_ok w r : registry_ok w -> registry_ok (deliver r w).
Proof.
  intros Hw. unfold deliver. destruct (actors w !! r) as [a|] eqn:Ea; [|done].
  destruct (mailbox a) as [|m rest] eqn:Em; [done|].
  pose proof (ro_actors _ Hw r a Ea) as Ha.
  eapply work_ok; try done; [by eapply pop_ok|pose proof (ac_fit _ _ _ Ha) as Hf; rewrite Em in Hf; by inversion Hf|]. simpl. intros Hm Hq. destruct (ac_quit _ _ _ Ha Hq) as [?|Hn]; [done|].
  unfold no_events in Hn. rewrite Em in Hn. inversion Hn. congruence.
Qed.

Lemma push_ok w r a m : registry_ok w -> actors w !! r = Some a -> (length (mailbox a) < mailboxSize)%nat ->
  fit_mail m -> quit a = true /\ is_event m = false \/ quit a = false /\ is_outside m = true -> registry_ok (push r a m w).
Proof.
  intros Hw Hr Hl Hfit Hm. destruct (ro_actors _ Hw r a Hr) as [A1 A2 A3 A4 A5 A8 A6 A7].
  eapply (put_ok w _ r a (mkActor (call a) (mailbox a ++ [m]) (quit a)) []); try done; [by rewrite app_nil_r| |by left].
  rewrite app_nil_r. constructor; simpl; try done.
  - intros Hq. destruct (A4 Hq) as [?|Hn]; [by left|]. right. unfold no_events in *. simpl. apply Forall_app. split; [done|].
    destruct Hm as [[_ ?]|[? _]]; [by constructor|congruence].
  - rewrite length_app. simpl. lia.
  - apply Forall_app. by repeat constructor.
  - intros Hq. apply Forall_app. split; [auto|]. destruct Hm as [[? _]|[_ ?]]; [congruence|by constructor].
Qed.

Lemma remove_ok w r : registry_ok w -> registry_ok (remove r w).
Proof.
  intros Hw. unfold remove. destruct (actors w !! r) as [a|] eqn:Ea; [|done]. destruct (quit a) eqn:Eq; [|done].
  destruct Hw as [H1 H2 H3 H4 H5 H6 H7].
  constructor; simpl; rewrite ?reported_app, ?absorbed_app, ?app_nil_r; try done.
  - intros id r'. rewrite lookup_delete_Some. intros [Hne E]. destruct (H1 id r' E) as (b & Hb & Hi). exists b.
    rewrite lookup_delete_ne; [done|]. intros <-. congruence.
  - intros r' b. rewrite !lookup_delete_Some. intros [Hne E]. split; [|by apply H2].
    intros Hid. apply H2 in Ea. apply H2 in E. congruence.
  - intros ch r'. rewrite map_lookup_filter_Some. simpl. intros [E Hne]. rewrite lookup_delete_ne by done. by apply (H3 ch).
  - intros r' Hr'. apply H4. destruct Hr' as [Hr'|?]; [left|by right]. rewrite lookup_delete_is_Some in Hr'. by destruct Hr'.
  - intros r' b. rewrite lookup_delete_Some. intros [Hne E]. destruct (H5 r' b E) as [A1 A2 A3 A4 A5 A8 A6 A7].
    constructor; rewrite ?reported_app, ?absorbed_app, ?app_nil_r; done.
  - apply apart_app; [done..|]. intros ? _. apply not_elem_of_nil.
Qed.

Lemma step_ok w s : registry_ok w -> registry_ok (step w s).
Proof.
  intros Hw. destruct s as [r|r|id c]; simpl; [by apply deliver_ok|by apply remove_ok|].
  destruct (outside c) eqn:Eo; [|done]. destruct (byCall w !! id) as [r|]; [|done].
  destruct (actors w !! r) as [a|] eqn:Ea; [|done]. destruct (Nat.ltb_spec (length (mailbox a)) mailboxSize); [|done].
  apply push_ok; try done; simpl; [by apply outside_fit|]. destruct (quit a); auto.
Qed.

Lemma with_sched_ok w l : registry_ok w -> registry_ok (with_sched l w).
Proof. by intros []. Qed.

Lemma tick_ok w : registry_ok w -> registry_ok (tick w).1.
Proof.
  intros Hw. unfold tick. destruct (sched w) as [|t rest]; [done|]. simpl.
  apply (fold_left_inv registry_ok); [by apply with_sched_ok|]. intros. by apply step_ok.
Qed.

Lemma pause_ok w : registry_ok w -> registry_ok (pause w).
Proof. apply tick_ok. Qed.

(** *** What other goroutines may do meanwhile *)

Record later a a' : Prop := mkLater {
  lt_id : CallID (base (call a')) = CallID (base (call a));
  lt_minted : IsMintedID (call a') = IsMintedID (call a);
  lt_type : LCallType (call a') = LCallType (call a);
  lt_quit : quit a = true -> quit a' = true;
  lt_shapes : quit a' = false -> shapes (call a') = shapes (call a);
  lt_mail : forall ev, MEvent ev ∈ mailbox a' -> MEvent ev ∈ mailbox a;
  lt_idle : quit a = false -> no_events a -> quit a' = false;
  lt_up : forall ch, up ch a -> up ch a'
}.

#[export] Instance later_refl : Reflexive later.
Proof. by intros a. Qed.
#[local] Hint Extern 0 (later _ _) => reflexivity : core.
Lemma no_events_spec a : no_events a <-> forall ev, MEvent ev ∉ mailbox a.
Proof.
  unfold no_events. rewrite Forall_forall. split.
  - intros H ev Hin. by specialize (H _ Hin).
  - intros H [ev|c] Hin; [by destruct (H ev)|done].
Qed.

Lemma lt_events a a' : later a a' -> no_events a -> no_events a'.
Proof. intros H. rewrite !no_events_spec. intros Hn ev Hin. by eapply Hn, lt_mail. Qed.

#[export] Instance later_trans : Transitive later.
Proof.
  intros a b c H1 H2. pose proof (lt_events _ _ H1) as He. destruct H1, H2. constructor; try congruence; auto. intros Hq.
  destruct (quit b) eqn:E; [rewrite lt_quit1 in Hq by done; done|]. rewrite lt_shapes1 by done. auto.
Qed.

(** Calls come and go only by the thread that is modelled: meanwhile they
    work off their mail, take on requests, and leave when they are stopped. *)
Record evolves w w' : Prop := mkEvolves {
  ev_next : nextRef w' = nextRef w;
  ev_absorbed : absorbed (out w') = absorbed (out w);
  ev_reported : forall r, r ∈ reported (out w') -> r ∈ reported (out w) \/ exists a, actors w !! r = Some a /\ quit a = false;
  ev_chan : forall ch r, byChannel w' !! ch = Some r -> byChannel w !! ch = Some r;
  ev_keep : forall ch r, byChannel w !! ch = Some r -> is_Some (actors w' !! r) -> byChannel w' !! ch = Some r;
  ev_actor : forall r a', actors w' !! r = Some a' -> exists a, actors w !! r = Some a /\ later a a';
  ev_up : forall r a ch, actors w !! r = Some a -> up ch a -> is_Some (actors w' !! r);
  ev_idle : forall r a, actors w !! r = Some a -> quit a = false -> no_events a -> is_Some (actors w' !! r)
}.

#[export] Instance evolves_refl : Reflexive evolves.
Proof. intros w. constructor; try done; intros; eauto. Qed.
#[export] Instance evolves_trans : Transitive evolves.
Proof.
  intros w1 w2 w3 [] []. constructor; try congruence; auto.
  - intros r Hr. destruct (ev_reported1 r Hr) as [Hr'|(a2 & Ha2 & Hq)]; [auto|]. destruct (ev_actor0 r a2 Ha2) as (a1 & Ha1 & Hl).
    right. exists a1. split; [done|]. destruct (quit a1) eqn:E; [|done]. rewrite (lt_quit _ _ Hl E) in Hq. done.
  - intros ch r E [a3 Ha]. destruct (ev_actor1 r a3 Ha) as (a2 & Ha2 & _). eauto.
  - intros r a3 Ha. destruct (ev_actor1 r a3 Ha) as (a2 & Ha2 & ?). destruct (ev_actor0 r a2 Ha2) as (a1 & ? & ?).
    exists a1. split; [done|]. by etrans.
  - intros r a ch Ha Hc. destruct (ev_up0 r a ch Ha Hc) as [a2 Ha2]. destruct (ev_actor0 r a2 Ha2) as (a1 & Ha1 & Hl).
    simplify_eq. apply (ev_up1 r a2 ch Ha2). by apply Hl.
  - intros r a Ha Hq Hn. destruct (ev_idle0 r a Ha Hq Hn) as [a2 Ha2]. destruct (ev_actor0 r a2 Ha2) as (a1 & Ha1 & Hl).
    simplify_eq. apply (ev_idle1 r a2 Ha2); [by apply Hl|by eapply lt_events].
Qed.

Lemma evolves_up w w' r a ch : evolves w w' -> actors w !! r = Some a -> up ch a ->
  exists a', actors w' !! r = Some a' /\ later a a' /\ up ch a'.
Proof.
  intros H Ha Hc. destruct (ev_up _ _ H r a ch Ha Hc) as [a' Ha']. exists a'. split; [done|].
  destruct (ev_actor _ _ H r a' Ha') as (b & Hb & Hl). simplify_eq. split; [done|]. by apply Hl.
Qed.

(** One actor moved on. *)
Lemma put_evolves w w' r a a' l : actors w !! r = Some a -> later a a' ->
  actors w' = <[r := a']> (actors w) -> byChannel w' = byChannel w -> nextRef w' = nextRef w -> out w' = out w ++ l -> absorbed l = [] ->
  (forall r', r' ∈ reported l -> r' = r /\ quit a = false) -> evolves w w'.
Proof.
  intros Hr Hl Ea Eh En Eo Hab Hrep. constructor; rewrite ?Ea, ?Eh; try done.
  - by rewrite Eo, absorbed_app, Hab, app_nil_r.
  - intros r'. rewrite Eo, reported_app, elem_of_app. intros [?|Hin]; [by left|]. destruct (Hrep r' Hin) as [-> ?]. right. by exists a.
  - intros r' b. rewrite lookup_insert_Some. intros [[<- <-]|[Hne E]]; eauto.
  - intros r' b ch E _. rewrite lookup_insert_is_Some'. right. by exists b.
  - intros r' b E _ _. rewrite lookup_insert_is_Some'. right. by exists b.
Qed.

(** Work that leaves the legs of a running call alone. *)
Lemma work_evolves w r a0 a m : actors w !! r = Some a0 -> call a = call a0 -> quit a = quit a0 ->
  (forall ch, up ch a0 -> Forall (fun m => hangs_up ch m = false) (mailbox a) /\ hangs_up ch m = false) ->
  (forall ev, MEvent ev ∈ mailbox a -> MEvent ev ∈ mailbox a0) -> (no_events a0 -> is_event m = false) ->
  (quit a = false -> is_outside m = true) -> (is_event m = true -> quit a = true -> State (base (call a)) = CallEnded) ->
  evolves w (work r a m w).
Proof.
  intros Hr Ec Eq Hup Hmail Hev Hout Hend. destruct m as [ev|c]; simpl.
  - destruct (applySwitchEvent_ok r (call a) ev) as [Hf _ Hfin]. set (x := applySwitchEvent r (call a) ev) in *.
    eapply (put_evolves w _ r a0 (mkActor (acCall x) (mailbox a) (quit a || acFinished x))); try done; simpl.
    + rewrite Ec in Hf. destruct Hf as [F1 F2 F3 F4]. constructor; simpl; try done.
      * rewrite Eq. by intros ->.
      * intros _ Hn. by specialize (Hev Hn).
      * intros ch Hc. destruct (Hup ch Hc) as [Hm Hh]. destruct Hc as [Hq Ha _]. simpl in Hh. rewrite bool_decide_eq_false in Hh.
        destruct (applySwitchEvent_active ch r (call a) ev) as [Ha' Hf']; [naive_solver|by rewrite Ec|].
        fold x in Ha', Hf'. constructor; simpl; [by rewrite Eq, Hq, Hf'|done|done].
    + rewrite absorbed_app, absorbed_told. by destruct (acFinished x).
    + intros r'. rewrite reported_app, reported_told. destruct (acFinished x) eqn:Ex; [|by intros ?%not_elem_of_nil].
      simpl. intros ->%list_elem_of_singleton. split; [done|]. rewrite <- Eq. destruct (quit a) eqn:E; [|done].
      destruct (Hfin eq_refl) as (Hne & _). by destruct Hne; apply Hend.
  - set (x := run c r (tokens w) (call a)).
    eapply (put_evolves w _ r a0 (mkActor (ranCall x) (mailbox a) (quit a))); try done; simpl; [|apply absorbed_told|rewrite reported_told; by intros r' ?%not_elem_of_nil].
    constructor; simpl; unfold x; rewrite ?run_id, ?run_minted, ?run_type, ?Ec; try done.
    + by rewrite Eq.
    + intros Hq. rewrite run_outside by auto. done.
    + intros Hq _. congruence.
    + intros ch Hc. destruct (Hup ch Hc) as [Hm _]. destruct Hc as [Hq Ha _]. constructor; simpl; [congruence|by apply run_active|done].
Qed.

Lemma deliver_evolves w r : registry_ok w -> evolves w (deliver r w).
Proof.
  intros Hw. unfold deliver. destruct (actors w !! r) as [a|] eqn:Ea; [|done].
  destruct (mailbox a) as [|m rest] eqn:Em; [done|]. pose proof (ro_actors _ Hw r a Ea) as [_ _ _ Aq _ _ Ho _].
  eapply work_evolves; try done; unfold no_events in *; rewrite ?Em in *; simpl.
  - intros ch [Hq Ha Hc]. rewrite Em in Hc. by inversion Hc.
  - intros ev Hin. rewrite ?Em. by right.
  - intros Hn. by inversion Hn.
  - intros Hq. specialize (Ho Hq). by inversion Ho.
  - intros Hm Hq. destruct (Aq Hq) as [?|Hn]; [done|]. inversion Hn. congruence.
Qed.

Lemma push_evolves w r a m : actors w !! r = Some a -> is_event m = false -> evolves w (push r a m w).
Proof.
  intros Ha Hm. assert (Hh : forall ch, hangs_up ch m = false) by by destruct m.
  eapply (put_evolves w _ r a (mkActor (call a) (mailbox a ++ [m]) (quit a)) []); try done; simpl; [|by rewrite app_nil_r|by intros r' ?%not_elem_of_nil].
  constructor; try done; unfold no_events; simpl.
  - intros ev. rewrite elem_of_app, list_elem_of_singleton. intros [?|<-]; done.
  - intros ch []. constructor; simpl; try done. apply Forall_app. by repeat constructor.
Qed.

Lemma remove_evolves w r : evolves w (remove r w).
Proof.
  unfold remove. destruct (actors w !! r) as [a|] eqn:Ea; [|done]. destruct (quit a) eqn:Eq; [|done].
  constructor; simpl; try done.
  - by rewrite absorbed_app, app_nil_r.
  - intros r'. rewrite reported_app, app_nil_r. by left.
  - intros ch r'. rewrite map_lookup_filter_Some. by intros [? _].
  - intros ch r' E Hr'. rewrite map_lookup_filter_Some. split; [done|]. simpl. intros ->. rewrite lookup_delete_eq in Hr'. by destruct Hr'.
  - intros r' b. rewrite lookup_delete_Some. intros [_ ?]. by exists b.
  - intros r' b ch E Hc. rewrite lookup_delete_is_Some. split; [|by exists b]. intros <-. destruct Hc. congruence.
  - intros r' b E Hq Hn. rewrite lookup_delete_is_Some. split; [|by exists b]. intros <-. congruence.
Qed.

Lemma step_evolves w s : registry_ok w -> evolves w (step w s).
Proof.
  intros Hw. destruct s as [r|r|id c]; simpl; [by apply deliver_evolves|by apply remove_evolves|].
  destruct (outside c); [|done]. destruct (byCall w !! id) as [r|]; [|done].
  destruct (actors w !! r) as [a|] eqn:Ea; [|done]. destruct (_ <? _)%nat; [|done]. by apply push_evolves.
Qed.

Lemma tick_evolves w : registry_ok w -> evolves w (tick w).1.
Proof.
  intros Hw. unfold tick. destruct (sched w) as [|t rest]; [done|]. simpl.
  assert (H : registry_ok (with_sched rest w) /\ evolves w (with_sched rest w)).
  { split; [by apply with_sched_ok|]. constructor; try done; intros; eauto. }
  revert H. generalize (with_sched rest w). induction (tSteps t) as [|s l IH]; intros w' [Hok Hev]; simpl; [done|].
  apply IH. split; [by apply step_ok|]. etrans; [done|]. by apply step_evolves.
Qed.

Lemma pause_evolves w : registry_ok w -> evolves w (pause w).
Proof. apply tick_evolves. Qed.

(** *** The registry's operations *)

(** No call that runs has the identity. *)
Definition not_running (id : uuid) w : Prop :=
  forall r a, actors w !! r = Some a -> CallID (base (call a)) = id -> quit a = true.

Lemma evolves_not_running w w' id : evolves w w' -> not_running id w -> not_running id w'.
Proof.
  intros H Hn r a' Ha' E. destruct (ev_actor _ _ H r a' Ha') as (a & Ha & []). apply lt_quit0. apply (Hn r a Ha). congruence.
Qed.

Lemma deliver_box w r a m rest : actors w !! r = Some a -> mailbox a = m :: rest ->
  exists a', actors (deliver r w) !! r = Some a' /\ mailbox a' = rest.
Proof.
  intros Ha Hm. unfold deliver. rewrite Ha, Hm. destruct m as [ev|c]; simpl; rewrite lookup_insert_eq; eexists; split; done.
Qed.

(** The closure has been run, on a call whose mail was worked off. *)
Definition ran_at (id : uuid) (c : Cmd) w w' (s : Seen) : Prop :=
  exists w1 r a, registry_ok w1 /\ evolves w w1 /\ actors w1 !! r = Some a /\ CallID (base (call a)) = id /\ mailbox a = [] /\
    seenRef s = r /\ before s = call a /\ after s = ranCall (run c r (tokens w1) (call a)) /\ w' = work r a (MDo c) w1.

Lemma actor_unique w r r' a a' : registry_ok w -> actors w !! r = Some a -> actors w !! r' = Some a' ->
  CallID (base (call a)) = CallID (base (call a')) -> r = r'.
Proof. intros Hw H1%(ro_actor _ Hw) H2%(ro_actor _ Hw) E. congruence. Qed.

Lemma stopped_not_running w r a : registry_ok w -> actors w !! r = Some a -> quit a = true -> not_running (CallID (base (call a))) w.
Proof. intros Hw Ha Hq r' b Hb E. pose proof (actor_unique w r' r b a Hw Hb Ha E) as ->. congruence. Qed.

Lemma left_behind w r a c : fit c -> registry_ok w -> actors w !! r = Some a -> quit a = true ->
  let w' := if (length (mailbox a) <? mailboxSize)%nat then push r a (MDo c) w else w in
  registry_ok w' /\ evolves w w' /\ not_running (CallID (base (call a))) w'.
Proof.
  intros Hf Hw Ha Hq. destruct (Nat.ltb_spec (length (mailbox a)) mailboxSize); simpl.
  - pose proof (push_evolves w r a (MDo c) Ha eq_refl) as He.
    split; [apply push_ok; auto|]. split; [done|]. apply (evolves_not_running w); [done|]. by eapply stopped_not_running.
  - split; [done|]. split; [done|]. by eapply stopped_not_running.
Qed.

Lemma wait_turn_spec late n r c w a : fit c -> registry_ok w -> actors w !! r = Some a -> length (mailbox a) = n ->
  match wait_turn late n r c w with
  | (w', None) => registry_ok w' /\ evolves w w' /\ not_running (CallID (base (call a))) w'
  | (w', Some s) => ran_at (CallID (base (call a))) c w w' s
  end.
Proof.
  intros Hfit. revert w a. induction n as [|n IH]; intros w a Hw Ha Hn; simpl; rewrite Ha.
  all: pose proof (left_behind w r a c Hfit Hw Ha) as Hstop.
  - destruct (quit a) eqn:Eq, late; try (by apply Hstop); unfold run_now; rewrite Ha;
      exists w, r, a; (split; [done|]); (split; [done|]); apply nil_length_inv in Hn; done.
  - destruct (mailbox a) as [|m rest] eqn:Em; [done|]. simpl in Hn. injection Hn as Hn.
    assert (Hd : match wait_turn late n r c (deliver r w) with
      | (w', None) => registry_ok w' /\ evolves w w' /\ not_running (CallID (base (call a))) w'
      | (w', Some s) => ran_at (CallID (base (call a))) c w w' s end).
    { destruct (deliver_box w r a m rest Ha Em) as (a' & Ha' & Em').
      pose proof (deliver_evolves w r Hw) as Hev. destruct (ev_actor _ _ Hev r a' Ha') as (b & Hb & Hl). simplify_eq.
      specialize (IH (deliver r w) a' (deliver_ok w r Hw) Ha' eq_refl). rewrite (lt_id _ _ Hl) in IH.
      destruct (wait_turn late (length (mailbox a')) r c (deliver r w)) as [w' [s|]].
      - destruct IH as (w1 & r1 & a1 & H1 & H2 & H3). exists w1, r1, a1. split; [done|]. split; [by etrans|done].
      - destruct IH as (H1 & H2 & H3). split; [done|]. split; [by etrans|done]. }
    destruct (quit a) eqn:Eq, late; try done; by apply Hstop.
Qed.

Lemma ran_at_ok id c w w' s : fit c -> ran_at id c w w' s -> registry_ok w'.
Proof.
  intros Hf (w1 & r & a & Hw & _ & Ha & _ & _ & _ & _ & _ & ->).
  eapply work_ok; try done. by apply (ro_actors _ Hw).
Qed.

(** [Do] either runs the closure, after some time, or finds no running call. *)
Lemma Do_spec id c w : fit c -> registry_ok w ->
  match Do id c w with
  | (w', None) => registry_ok w' /\ evolves w w' /\ not_running id w'
  | (w', Some s) => ran_at id c w w' s /\ registry_ok w'
  end.
Proof.
  intros Hfit Hw. unfold Do. pose proof (pause_ok w Hw) as Hp. pose proof (pause_evolves w Hw) as Hpe.
  destruct (byCall (pause w) !! id) as [r|] eqn:Er.
  - unfold postSync. pose proof (tick_ok _ Hp) as Ht. pose proof (tick_evolves _ Hp) as Hte.
    destruct (ro_call _ Hp id r Er) as (a0 & Ha0 & Hid).
    destruct (tick (pause w)) as [w1 late] eqn:Et. simpl in Ht, Hte.
    assert (Hev : evolves w w1) by by etrans.
    destruct (actors w1 !! r) as [a|] eqn:Ea.
    + destruct (ev_actor _ _ Hte r a Ea) as (b & Hb & Hl). simplify_eq. rewrite <- (lt_id _ _ Hl).
      pose proof (wait_turn_spec late _ r c w1 a Hfit Ht Ea eq_refl) as Hwt.
      assert (Hd : match wait_turn late (length (mailbox a)) r c w1 with
        | (w', None) => registry_ok w' /\ evolves w w' /\ not_running (CallID (base (call a))) w'
        | (w', Some s) => ran_at (CallID (base (call a))) c w w' s /\ registry_ok w' end).
      { destruct (wait_turn _ _ _ _ _) as [w' [s|]].
        - split; [|by eapply ran_at_ok]. destruct Hwt as (w2 & r1 & a1 & H1 & H2 & H3). exists w2, r1, a1.
          split; [done|]. split; [by etrans|done].
        - destruct Hwt as (H1 & H2 & H3). split; [done|]. split; [by etrans|done]. }
      destruct (quit a) eqn:Eq, late; try done.
      split; [done|]. split; [done|]. intros r' c' Hc' E.
      assert (r' = r) as -> by (apply (ro_actor _ Ht) in Hc'; apply (ro_actor _ Ht) in Ea; congruence). congruence.
    + split; [done|]. split; [done|]. intros r' c' Hc' E. destruct (ev_actor _ _ Hte r' c' Hc') as (b & Hb & Hl).
      apply (ro_actor _ Hp) in Hb. rewrite <- (lt_id _ _ Hl), E in Hb. congruence.
  - split; [done|]. split; [done|]. intros r' c' Hc' E. apply (ro_actor _ Hp) in Hc'. congruence.
Qed.

Lemma add_call_ok w c : registry_ok w -> byCall w !! CallID (base c) = None -> legs c = [] -> State (base c) <> CallEnded ->
  registry_ok (add_call c w).
Proof.
  intros [H1 H2 H3 H4 H5 H6 H7] Hn Hl Hs.
  assert (Hnew : actors w !! nextRef w = None).
  { destruct (actors w !! nextRef w) eqn:E; [|done]. assert (nextRef w < nextRef w)%nat; [|lia]. apply H4. left. by eexists. }
  assert (Hlog : nextRef w ∉ reported (out w) /\ nextRef w ∉ absorbed (out w)).
  { split; intros Hin; assert (nextRef w < nextRef w)%nat by (apply H4; auto); lia. }
  constructor; simpl; try done.
  - intros id r. rewrite lookup_insert_Some. intros [[<- <-]|[Hne E]].
    + eexists. by rewrite lookup_insert_eq.
    + destruct (H1 id r E) as (a & Ha & Hi). exists a. rewrite lookup_insert_ne; [done|]. intros <-. congruence.
  - intros r a. rewrite lookup_insert_Some. intros [[<- <-]|[Hne E]]; simpl; [by rewrite lookup_insert_eq|].
    rewrite lookup_insert_ne; [by apply H2|]. intros Hid. apply H2 in E. congruence.
  - intros ch r E. rewrite lookup_insert_is_Some'. right. by apply (H3 ch).
  - intros r. rewrite lookup_insert_is_Some'. intros Hr.
    assert (r = nextRef w \/ (r < nextRef w)%nat); [|lia].
    destruct Hr as [[<-|?]|?]; [by left|right; apply H4; auto..].
  - intros r a. rewrite lookup_insert_Some. intros [[<- <-]|[Hne E]]; [|by apply H5].
    constructor; simpl; try done; try tauto; try lia.
    constructor; unfold channels; rewrite Hl; simpl; [constructor|done].
Qed.

Lemma bind_ok w ch r now a : registry_ok w -> actors w !! r = Some a -> registry_ok (bind ch r now w).
Proof.
  intros [] Ha. constructor; simpl; try done. intros ch' r'. rewrite lookup_insert_Some. intros [[<- <-]|[_ E]]; eauto.
Qed.

Lemma CreateCall_spec id t l m at_ w : registry_ok w ->
  match CreateCall id t l m at_ w with
  | (w', true) => exists w1, evolves w w1 /\ registry_ok w1 /\ byCall w1 !! id = None /\ registry_ok w' /\
      w' = add_call (mkLive (NewCall id at_) t l m zero_bot None false) w1
  | (w', false) => registry_ok w' /\ evolves w w' /\ is_Some (byCall w' !! id)
  end.
Proof.
  intros Hw. unfold CreateCall. pose proof (pause_ok w Hw) as Hp. pose proof (pause_evolves w Hw) as Hpe.
  destruct (byCall (pause w) !! id) as [r|] eqn:Er; [done|].
  exists (pause w). split; [done|]. split; [done|]. split; [done|]. split; [by apply add_call_ok|done].
Qed.

Lemma BindChannel_spec ch id now w : registry_ok w ->
  match BindChannel ch id now w with
  | (w', true) => exists w1 r a, evolves w w1 /\ registry_ok w1 /\ byCall w1 !! id = Some r /\ actors w1 !! r = Some a /\
      CallID (base (call a)) = id /\ registry_ok w' /\ w' = bind ch r now w1
  | (w', false) => registry_ok w' /\ evolves w w' /\ (forall r a, actors w' !! r = Some a -> CallID (base (call a)) <> id)
  end.
Proof.
  intros Hw. unfold BindChannel. pose proof (pause_ok w Hw) as Hp. pose proof (pause_evolves w Hw) as Hpe.
  destruct (byCall (pause w) !! id) as [r|] eqn:Er.
  - destruct (ro_call _ Hp id r Er) as (a & Ha & Hid). exists (pause w), r, a. do 5 (split; [done|]). split; [by eapply bind_ok|done].
  - split; [done|]. split; [done|]. intros r' c' Hc' E. apply (ro_actor _ Hp) in Hc'. congruence.
Qed.

End facts.
End RegistryFacts.
