(* ===== verification/LegLife.v ===== *)
(** * The life of a leg under its call's events

    The legs of a call are changed by the call's actor alone, one switch event
    after another ([Registry.applySwitchEvent]). Each event moves a leg by
    small moves ([leg_move]): it notes an answer, or gives the leg's table a
    trigger, or touches neither the state nor the two times. What holds of
    every move holds of any sequence of events, in whatever order the switch
    delivers them. *)

From S2P Require Import Prelude GoText Calendar Schedule Call TelephonyData Registry RegistryFacts.

Module LegLife.
Import GoText Call TelephonyData Registry RegistryFacts.

(** What a leg's life is told in. *)
Definition core (p : Party) : PartyState * instant * instant := (PState p, AnsweredAt p, ReleasedAt p).

(** The triggers an event gives to the leg on [ch] while it is in [st]. *)
Definition gives (ev : SwitchEvent) (ch : string) (st : PartyState) (t : PartyTrigger) : Prop :=
  match t with
  | TriggerAnswer => Kind ev = KindChannelBridge /\ (ch = EvChannelID ev \/ ch = OtherChannelID ev) /\
      (st = PartyDialing \/ st = PartyRinging)
  | TriggerHold => Kind ev = KindChannelHold /\ ch = EvChannelID ev
  | TriggerRetrieve => Kind ev = KindChannelUnhold /\ ch = EvChannelID ev
  | TriggerRelease => Kind ev = KindChannelHangup /\ ch = EvChannelID ev
  end.

Inductive leg_move (ev : SwitchEvent) (p q : Party) : Prop :=
| lm_keep : shape q = shape p -> core q = core p -> leg_move ev p q
| lm_answered : Kind ev = KindChannelAnswer -> ChannelID p = EvChannelID ev -> AnsweredAt p = 0 ->
    q = with_answered (OccurredAt ev) p -> leg_move ev p q
| lm_trigger t : gives ev (ChannelID p) (PState p) t -> apply p t (OccurredAt ev) = Ok q -> leg_move ev p q.

(** ** Each event moves each leg *)

Definition moves (ev : SwitchEvent) : list Party -> list Party -> Prop := Forall2 (rtc (leg_move ev)).
Definition call_moves (ev : SwitchEvent) (x y : Acted) : Prop := moves ev (legs (acCall x)) (legs (acCall y)).

#[export] Instance moves_refl ev : Reflexive (moves ev).
Proof. intros l. unfold moves. reflexivity. Qed.
#[export] Instance moves_trans ev : Transitive (moves ev).
Proof. intros a b c. unfold moves. by etrans. Qed.
#[export] Instance call_moves_refl ev : Reflexive (call_moves ev).
Proof. intros x. unfold call_moves. reflexivity. Qed.
#[export] Instance call_moves_trans ev : Transitive (call_moves ev).
Proof. intros x y z. unfold call_moves. apply moves_trans. Qed.

Lemma change_leg_moves ev ch f l :
  (forall p, List.find (fun p => String.eqb (ChannelID p) ch) l = Some p -> leg_move ev p (f p)) ->
  moves ev l (change_leg ch f l).
Proof.
  induction l as [|p l IH]; intros H; [constructor|]. cbn [change_leg]. cbn [List.find] in H.
  destruct (String.eqb (ChannelID p) ch).
  - constructor; [by apply rtc_once, H|reflexivity].
  - constructor; [done|by apply IH].
Qed.

Lemma on_leg_moves ev ch f c : (forall p, leg_at c ch = Some p -> leg_move ev p (f p)) ->
  moves ev (legs c) (legs (on_leg c ch f)).
Proof. intros H. by apply change_leg_moves. Qed.

Lemma on_leg_keeps ev ch f c : (forall p, shape (f p) = shape p) -> (forall p, core (f p) = core p) ->
  moves ev (legs c) (legs (on_leg c ch f)).
Proof. intros Hs Hc. apply on_leg_moves. intros p _. by apply lm_keep. Qed.

Lemma OpenBridge_core p o at_ : core (OpenBridge p o at_) = core p.
Proof. unfold OpenBridge. by destruct (bridge_open _). Qed.
Lemma CloseBridge_core p at_ : core (CloseBridge p at_) = core p.
Proof. unfold CloseBridge. destruct (last _) as [b|]; [|done]. by destruct (is_zero _). Qed.

Lemma on_call_keeps ev ch f x : (forall p, shape (f p) = shape p) -> (forall p, core (f p) = core p) ->
  call_moves ev x (on_call (fun c => on_leg c ch f) x).
Proof. apply on_leg_keeps. Qed.

Ltac keeps := first [apply on_call_keeps | apply on_leg_keeps]; intros ?; unfold close_unless_held; try destruct (bool_decide _);
  rewrite ?OpenBridge_shape, ?CloseBridge_shape, ?OpenBridge_core, ?CloseBridge_core; done.

Lemma transition_moves ev self ch t ty x :
  (forall p, leg_at (acCall x) ch = Some p -> gives ev ch (PState p) t) ->
  call_moves ev x (transition self ch t (OccurredAt ev) ty x).
Proof.
  intros Hg. unfold transition. destruct (leg_at (acCall x) ch) as [p|] eqn:E; [|reflexivity].
  destruct (apply p t (OccurredAt ev)) as [p'|e] eqn:Ea; [|reflexivity].
  unfold call_moves. simpl. apply on_leg_moves. intros q Hq. assert (q = p) as -> by congruence.
  apply (lm_trigger ev p p' t); [|done]. destruct (leg_at_spec _ _ _ E) as [_ ->]. by apply Hg.
Qed.

Lemma establish_moves ev self ch x : Kind ev = KindChannelBridge -> ch = EvChannelID ev \/ ch = OtherChannelID ev ->
  call_moves ev x (establish self ch (OccurredAt ev) x).
Proof.
  intros Hk Hc. unfold establish. destruct (leg_at (acCall x) ch) as [p|] eqn:E; [|reflexivity].
  destruct (bool_decide_reflect (PState p = PartyDialing)) as [Ed|Ed], (bool_decide_reflect (PState p = PartyRinging)) as [Er|Er];
    simpl; try reflexivity; apply transition_moves; intros q Hq; assert (q = p) as -> by congruence; repeat split; auto.
Qed.

Lemma bridge_moves ev self x : Kind ev = KindChannelBridge ->
  call_moves ev x (bridge self (EvChannelID ev) (OtherChannelID ev) (OccurredAt ev) x).
Proof.
  intros Hk. unfold bridge. etrans; [|apply establish_moves; auto]. etrans; [|keeps].
  destruct (leg_at _ _) as [p|]; [|reflexivity]. destruct (leg_at _ _) as [other|]; [|reflexivity].
  etrans; [|apply establish_moves; auto]. etrans; [|keeps].
  etrans; [|keeps]. keeps.
Qed.

Lemma finish_legs at_ x : legs (acCall (finish at_ x)) = legs (acCall x).
Proof. unfold finish, Finish. by destruct (negb _ || _). Qed.

Lemma hangup_moves ev self x : Kind ev = KindChannelHangup -> call_moves ev x (hangup self (EvChannelID ev) ev x).
Proof.
  intros Hk. unfold hangup.
  match goal with |- context [finish _ ?z] => assert (Hz : call_moves ev x z) end.
  { etrans; [|by apply transition_moves]. unfold call_moves. simpl.
    apply on_leg_keeps; intros q; by rewrite ?CloseBridge_shape, ?CloseBridge_core. }
  match goal with |- context [finish _ ?z] => set (y := z) in * end.
  unfold call_moves in *. destruct (acFinished _); simpl; by rewrite finish_legs.
Qed.

Lemma applySwitchEvent_moves ev self c : moves ev (legs c) (legs (acCall (applySwitchEvent self c ev))).
Proof.
  unfold applySwitchEvent. set (c0 := with_base c (settleTransfers (base c) _ _)).
  assert (E0 : legs c0 = legs c) by (subst c0; unfold legs; simpl; by destruct (stay_kind _)).
  rewrite <- E0. change (legs c0) with (legs (acCall (mkActed c0 [] false))).
  match goal with |- moves _ _ (legs (acCall ?y)) => change (call_moves ev (mkActed c0 [] false) y) end.
  destruct (leg_at c0 _) as [p|] eqn:Ep; [|reflexivity].
  destruct (Kind ev) eqn:Ek; try reflexivity; try (unfold call_moves; simpl; reflexivity).
  all: try (apply transition_moves; intros q _; by rewrite ?Ek).
  - unfold call_moves. simpl. apply on_leg_moves. intros q Hq. destruct (leg_at_spec _ _ _ Hq) as [_ Hch].
    unfold is_zero. destruct (Z.eqb_spec (AnsweredAt q) 0); [by apply lm_answered|by apply lm_keep].
  - by apply bridge_moves.
  - unfold call_moves. simpl. etrans; keeps.
  - by apply hangup_moves.
  - unfold call_moves, on_stay. simpl. destruct (QueueStay _ _ _) as [st [i|]]; reflexivity.
  - unfold call_moves, on_stay. simpl. destruct (QueueStay _ _ _) as [st [i|]]; reflexivity.
Qed.

(** ** Any sequence of events *)

(** [internal/telephony/registry.go:actor.loop] The call after its actor has
    taken the events. *)
Definition after_events (self : nat) (c : LiveCall) (evs : list SwitchEvent) : LiveCall :=
  fold_left (fun c ev => acCall (applySwitchEvent self c ev)) evs c.

(** A leg as it is added, or adopted with the time it had answered. *)
Definition new_leg (p : Party) : Prop :=
  (PState p = PartyDialing \/ PState p = PartyRinging) /\ ReleasedAt p = 0.

(** An event that says when the leg on [ch] answered, or was put through. *)
Definition answers (ch : string) (ev : SwitchEvent) : Prop :=
  Kind ev = KindChannelAnswer /\ ch = EvChannelID ev.
Definition bridges (ch : string) (ev : SwitchEvent) : Prop :=
  Kind ev = KindChannelBridge /\ (ch = EvChannelID ev \/ ch = OtherChannelID ev).
Definition hangs_up_leg (ch : string) (ev : SwitchEvent) : Prop :=
  Kind ev = KindChannelHangup /\ ch = EvChannelID ev.

(** What [q], once [p], may be after the events. *)
Record life (p : Party) (evs : list SwitchEvent) (q : Party) : Prop := mkLife {
  li_shape : shape q = shape p;
  li_released : ReleasedAt q <> 0 <-> PState q = PartyReleased;
  li_talks : PState q = PartyTalking \/ PState q = PartyHeld -> AnsweredAt q <> 0;
  li_bridged : PState q = PartyTalking \/ PState q = PartyHeld -> exists ev, ev ∈ evs /\ bridges (ChannelID p) ev;
  li_answered : AnsweredAt q = AnsweredAt p \/
    exists ev, ev ∈ evs /\ (answers (ChannelID p) ev \/ bridges (ChannelID p) ev) /\ AnsweredAt q = OccurredAt ev;
  li_hung_up : PState q = PartyReleased -> exists ev, ev ∈ evs /\ hangs_up_leg (ChannelID p) ev /\ ReleasedAt q = OccurredAt ev
}.

(** What no later event undoes. *)
Definition settled (p q : Party) : Prop :=
  (PState p = PartyReleased -> PState q = PartyReleased /\ ReleasedAt q = ReleasedAt p) /\
  (AnsweredAt p <> 0 -> AnsweredAt q = AnsweredAt p).

#[export] Instance settled_refl : Reflexive settled.
Proof. by intros p. Qed.
#[export] Instance settled_trans : Transitive settled.
Proof. intros a b c [H1 H2] [H3 H4]. split; [intros [? E]%H1; destruct (H3 ltac:(done)); split; congruence|]. intros H. rewrite H4; [auto|]. by rewrite H2. Qed.

Lemma core_eq p q : core q = core p -> PState q = PState p /\ AnsweredAt q = AnsweredAt p /\ ReleasedAt q = ReleasedAt p.
Proof. by intros [= -> -> ->]. Qed.

Lemma leg_move_settled ev p q : leg_move ev p q -> settled p q.
Proof.
  intros [_ (E1 & E2 & E3)%core_eq|_ _ E ->|t Hg Ha]; [unfold settled; by rewrite E1, E2, E3|by split|].
  unfold apply in Ha. destruct (partyTransitions (PState p) t) as [s|] eqn:Es; [|done]. injection Ha as <-.
  split; simpl; [intros E; rewrite E in Es; by destruct t|].
  intros Hne. unfold is_zero. rewrite (proj2 (Z.eqb_neq _ _) Hne). by destruct (bool_decide _).
Qed.

Lemma new_life p : new_leg p -> life p [] p.
Proof. intros [[E|E] Hr]; constructor; rewrite ?E, ?Hr; try done; try (by intros [?|?]); by left. Qed.

(** The trigger's effect on what is told of a leg. *)
Lemma apply_core p t at_ q : apply p t at_ = Ok q -> exists s, partyTransitions (PState p) t = Some s /\ PState q = s /\
  AnsweredAt q = (if bool_decide (s = PartyTalking) && is_zero (AnsweredAt p) then at_ else AnsweredAt p) /\
  ReleasedAt q = (if bool_decide (s = PartyReleased) then at_ else ReleasedAt p).
Proof. unfold apply. destruct (partyTransitions _ _) as [s|]; [|done]. intros [= <-]. by exists s. Qed.

Lemma leg_move_life p evs ev m q : OccurredAt ev <> 0 -> life p evs m -> leg_move ev m q -> life p (evs ++ [ev]) q.
Proof.
  intros Ht [L1 L2 L3 L4 L5 L6] Hm.
  assert (Hin : forall P : SwitchEvent -> Prop, (exists e, e ∈ evs /\ P e) -> exists e, e ∈ evs ++ [ev] /\ P e).
  { intros P (e & ? & ?). exists e. split; [|done]. apply elem_of_app. by left. }
  assert (Hev : ev ∈ evs ++ [ev]) by (apply elem_of_app; right; by apply list_elem_of_singleton).
  assert (Hch : ChannelID m = ChannelID p) by (unfold shape in L1; congruence).
  destruct Hm as [Hs (E1 & E2 & E3)%core_eq|Hk Hc Hz ->|t Hg Ha].
  - constructor; rewrite ?E1, ?E2, ?E3; try done; [congruence|auto|destruct L5; auto|auto].
  - constructor; simpl; try done; [auto| |auto]. right. exists ev. split; [done|]. split; [|done].
    left. split; [done|congruence].
  - pose proof (apply_shape _ _ _ _ Ha) as Hs. apply apply_core in Ha as (s & Es & Eq & Ea & Er).
    rewrite Hch in Hg. destruct (PState m) eqn:Em, t; simpl in Es; try done; injection Es as <-; simpl in *;
      destruct Hg as (Hk & Hg); constructor; rewrite ?Eq, ?Ea, ?Er; unfold is_zero;
      try (by rewrite Hs); try (destruct (Z.eqb_spec (AnsweredAt m) 0)); simpl; try tauto; try (by auto); try done.
    all: try (by intros [?|?]).
    all: try (split; [intros ?%L2; done|done]).
    all: try (intros _; exists ev; split; [done|]; unfold bridges, hangs_up_leg; tauto).
    all: try (destruct L5 as [?|?]; [by left|right; by auto]).
    all: try (right; exists ev; split; [done|]; unfold answers, bridges; tauto).
Qed.

Lemma rtc_life p evs ev m q : OccurredAt ev <> 0 -> life p (evs ++ [ev]) m -> rtc (leg_move ev) m q -> life p (evs ++ [ev]) q.
Proof.
  intros Ht Hm Hr. revert Hm. induction Hr as [|m m' q Hmv _ IH]; [done|]. intros Hm. apply IH.
  destruct (leg_move_life p (evs ++ [ev]) ev m m' Ht Hm Hmv) as [K1 K2 K3 K4 K5 K6].
  assert (Hin : forall e, e ∈ (evs ++ [ev]) ++ [ev] -> e ∈ evs ++ [ev]) by set_solver.
  constructor; try done.
  - intros H. destruct (K4 H) as (e & ? & ?). exists e. auto.
  - destruct K5 as [?|(e & ? & ?)]; [by left|right]. exists e. auto.
  - intros H. destruct (K6 H) as (e & ? & ?). exists e. auto.
Qed.

Lemma life_more p evs ev m : life p evs m -> life p (evs ++ [ev]) m.
Proof.
  intros [K1 K2 K3 K4 K5 K6]. assert (Hin : forall e, e ∈ evs -> e ∈ evs ++ [ev]) by set_solver.
  constructor; try done.
  - intros H. destruct (K4 H) as (e & ? & ?). exists e. auto.
  - destruct K5 as [?|(e & ? & ?)]; [by left|right]. exists e. auto.
  - intros H. destruct (K6 H) as (e & ? & ?). exists e. auto.
Qed.

Lemma rtc_settled ev p q : rtc (leg_move ev) p q -> settled p q.
Proof. induction 1 as [|p m q H _ IH]; [done|]. etrans; [|done]. by eapply leg_move_settled. Qed.

Lemma after_app self c l1 l2 : after_events self c (l1 ++ l2) = after_events self (after_events self c l1) l2.
Proof. unfold after_events. by rewrite fold_left_app. Qed.

Lemma after_life self c evs i p : legs c !! i = Some p -> new_leg p -> (forall ev, ev ∈ evs -> OccurredAt ev <> 0) ->
  exists q, legs (after_events self c evs) !! i = Some q /\ life p evs q.
Proof.
  intros Hp Hn. induction evs as [|ev evs IH] using rev_ind; intros Ht; [exists p; split; [done|by apply new_life]|].
  destruct IH as (m & Hm & Hl); [intros e He; apply Ht; set_solver|]. rewrite after_app.
  destruct (Forall2_lookup_l _ _ _ _ _ (applySwitchEvent_moves ev self (after_events self c evs)) Hm) as (q & Hq & Hr).
  exists q. split; [done|]. eapply rtc_life; [apply Ht; set_solver|by apply life_more|done].
Qed.

Lemma after_settled self c evs i p : legs c !! i = Some p ->
  exists q, legs (after_events self c evs) !! i = Some q /\ settled p q.
Proof.
  revert c p. induction evs as [|ev evs IH]; intros c p Hp; [by exists p|]. simpl.
  destruct (Forall2_lookup_l _ _ _ _ _ (applySwitchEvent_moves ev self c) Hp) as (m & Hm & Hr).
  destruct (IH _ _ Hm) as (q & Hq & Hs). exists q. split; [done|]. etrans; [by eapply rtc_settled|done].
Qed.

(** ** Properties *)

(** C12: a leg's life, whatever order the switch reports it in. From the moment
    a leg is added (or adopted with the time it had answered), after any
    sequence of switch events about its call: the release time is set exactly
    when the leg is RELEASED, and is the time of a hangup of its channel; a leg
    that talks or is held was named by a bridge and has an answer time - an
    answer alone, which a phone gives with nobody in front of it, moves no
    state; the answer time is the one the leg came with or the time of an
    answer of its channel or of a bridge that names it; and nothing after
    undoes RELEASED, moves the release time, or moves an answer time once
    set. *)
Theorem leg_lifecycle (self : nat) (c : LiveCall) (i : nat) (p : Party) (l1 l2 : list SwitchEvent)
    (Hp : legs c !! i = Some p) (Hn : new_leg p) (Ht : forall ev, ev ∈ l1 -> OccurredAt ev <> 0) :
  exists q q', legs (after_events self c l1) !! i = Some q /\ legs (after_events self c (l1 ++ l2)) !! i = Some q' /\
    ChannelID q = ChannelID p /\
    (ReleasedAt q <> 0 <-> PState q = PartyReleased) /\
    (PState q = PartyReleased -> exists ev, ev ∈ l1 /\ Kind ev = KindChannelHangup /\ EvChannelID ev = ChannelID p /\
       ReleasedAt q = OccurredAt ev) /\
    (PState q = PartyTalking \/ PState q = PartyHeld -> AnsweredAt q <> 0 /\
       exists ev, ev ∈ l1 /\ Kind ev = KindChannelBridge /\ (EvChannelID ev = ChannelID p \/ OtherChannelID ev = ChannelID p)) /\
    (AnsweredAt q = AnsweredAt p \/
       exists ev, ev ∈ l1 /\ AnsweredAt q = OccurredAt ev /\
         (Kind ev = KindChannelAnswer /\ EvChannelID ev = ChannelID p \/
          Kind ev = KindChannelBridge /\ (EvChannelID ev = ChannelID p \/ OtherChannelID ev = ChannelID p))) /\
    (PState q = PartyReleased -> PState q' = PartyReleased /\ ReleasedAt q' = ReleasedAt q) /\
    (AnsweredAt q <> 0 -> AnsweredAt q' = AnsweredAt q).
Proof.
  destruct (after_life self c l1 i p Hp Hn Ht) as (q & Hq & [L1 L2 L3 L4 L5 L6]). rewrite after_app.
  destruct (after_settled self _ l2 i q Hq) as (q' & Hq' & Hr & Ha). exists q, q'.
  unfold answers, bridges, hangs_up_leg in *. split_and!; try done.
  - unfold shape in L1. congruence.
  - intros (ev & ? & (? & ?) & ?)%L6. by exists ev.
  - intros H. split; [by apply L3|]. destruct (L4 H) as (ev & ? & ? & ?). exists ev. naive_solver.
  - destruct L5 as [?|(ev & ? & ? & ?)]; [by left|right]. exists ev. naive_solver.
Qed.

(** *** Examples *)

Definition an_event (kind : SwitchEventKind) (at_ : instant) (ch other : string) : SwitchEvent :=
  mkEvent kind at_ ch other "" DirectionOutbound "" "" "" ∅ "" "" "" 0 zero_bot "" 0 "" "" "" "" "" "" 0 0 ∅.

Definition rung : LiveCall :=
  mkLive (AddParty (AddParty (NewCall 1 1) 2 "a" "13800000000" 1) 3 "b" "1001" 5) CallTypeInbound "zh" true zero_bot None false.

(** The phone answers by itself, is put through, held, and hung up. *)
Definition picked_up : list SwitchEvent := [an_event KindChannelAnswer 10 "b" ""; an_event KindChannelBridge 20 "b" "a"].
Definition hung_up : list SwitchEvent := [an_event KindChannelHold 30 "b" ""; an_event KindChannelHangup 40 "b" "";
  an_event KindChannelUnhold 50 "b" ""].

Example answer_is_no_conversation :
  (core <$> legs (after_events 0 rung [an_event KindChannelAnswer 10 "b" ""])) !! 1%nat = Some (PartyRinging, 10, 0).
Proof. reflexivity. Qed.

Lemma leg_lifecycle_witness : exists q q',
  legs (after_events 0 rung (picked_up ++ hung_up)) !! 1%nat = Some q /\
  legs (after_events 0 rung ((picked_up ++ hung_up) ++ [an_event KindChannelBridge 60 "a" "b"])) !! 1%nat = Some q' /\
  PState q' = PartyReleased /\ ReleasedAt q' = 40 /\ AnsweredAt q' = 10.
Proof.
  destruct (leg_lifecycle 0 rung 1 (mkParty 3 "b" RoleTarget PartyRinging "1001" "" None "" 5 0 0 "" false [] 0 false)
    (picked_up ++ hung_up) [an_event KindChannelBridge 60 "a" "b"]) as (q & q' & Hq & Hq' & _ & _ & _ & _ & _ & Hr & Ha).
  - reflexivity.
  - split; [by right|done].
  - intros ev Hev. unfold picked_up, hung_up in Hev. simpl in Hev.
    repeat (apply elem_of_cons in Hev as [->|Hev]; [simpl; lia|]). by apply elem_of_nil in Hev.
  - exists q, q'. split; [done|]. split; [done|]. vm_compute in Hq. injection Hq as <-.
    destruct (Hr eq_refl) as [H1 H2]. split; [done|]. split; [done|]. by apply Ha.
Defined.

End LegLife.
