(* ===== verification/Coordinator.v ===== *)
(** * The coordinator of calls: [internal/telephony/coordinator.go],
    [waiting.go]

    Switch events become calls: a channel nobody knows is adopted, the two calls
    of a bridge become one, a call whose identity the dialplan reveals late is
    moved to it, agents are told, and the waiting line follows the queues.
    [Handle] runs one event at a time, between steps of the actors and of the
    requests ([Registry.tick]).

    What the event's moment decides is an environment: which agent is at an
    extension, the clock, fresh identities, the parsing of a UUID, the data a
    call was placed with, the queues' configuration, and which ports are
    attached. *)

From S2P Require Import Prelude GoText Calendar Schedule Call TelephonyData Registry.

Module Coordinator.
Import GoText Call TelephonyData Registry.

(** ** What the switch's event says *)

(** [strings.HasSuffix] *)
Definition has_suffix (suf s : string) : bool := has_prefix (rev_string suf) (rev_string s).

(** [internal/telephony/coordinator.go:isHarnessLeg] *)
Definition isHarnessLeg (ev : SwitchEvent) : bool :=
  String.eqb (Variable_ ev "aicc_harness") "true" && has_suffix "-a" (ChannelName ev).

(** [internal/telephony/adapter.go:ObserverVar] *)
Definition ObserverVar : string := "aicc_observer".

(** [internal/telephony/coordinator.go:isObserverLeg] *)
Definition isObserverLeg (ev : SwitchEvent) : bool := negb (String.eqb (Variable_ ev ObserverVar) "").

(** [internal/telephony/coordinator.go:isBotLeg] *)
Definition isBotLeg (ev : SwitchEvent) : bool :=
  let did := Variable_ ev "aicc_did" in
  bool_decide (Direction ev = DirectionOutbound) && negb (String.eqb did "") && String.eqb (DestinationNumber ev) did.

(** [internal/telephony/coordinator.go:managedExtensionOf] *)
Definition managedExtensionOf (ev : SwitchEvent) : string :=
  let ext := Variable_ ev "aicc_extension" in
  if negb (String.eqb ext "") then ext
  else if bool_decide (Direction ev = DirectionOutbound) then Variable_ ev "dialed_user"
  else "".

(** [internal/telephony/coordinator.go:callTypeOf] *)
Definition callTypeOf (ev : SwitchEvent) : CallType :=
  match callType (CallTypeHint ev) with
  | CallTypeInbound => CallTypeInbound
  | CallTypeOutbound => CallTypeOutbound
  | CallTypeInternal => CallTypeInternal
  | _ =>
      if bool_decide (Direction ev = DirectionInbound) then
        if String.eqb (Context ev) "public" then CallTypeInbound else CallTypeInternal
      else CallTypeOutbound
  end.

(** [internal/telephony/coordinator.go:otherNumber] *)
Definition otherNumber (ev : SwitchEvent) : string :=
  if bool_decide (Direction ev = DirectionInbound) then DestinationNumber ev else ANI ev.

(** [internal/telephony/coordinator.go:legNumber] *)
Definition legNumber (ev : SwitchEvent) : string :=
  if bool_decide (Direction ev = DirectionInbound) then ANI ev
  else
    let dialed := Variable_ ev "dialed_user" in
    if negb (String.eqb dialed "") then dialed
    else if negb (String.eqb (DestinationNumber ev) "") then DestinationNumber ev
    else ANI ev.

(** [internal/telephony/coordinator.go:dialedDestination] *)
Definition dialedDestination (ev : SwitchEvent) : string :=
  let placed := Variable_ ev "aicc_destination" in
  if negb (String.eqb placed "") then placed else DestinationNumber ev.

(** [internal/telephony/coordinator.go:orNumber] *)
Definition orNumber (preferred fallback : string) : string :=
  if negb (String.eqb preferred "") then preferred else fallback.

(** [internal/telephony/coordinator.go:isDialledNumber] *)
Definition isDialledNumber (s : string) : bool :=
  negb (String.eqb s "") && forallb (fun r => negb ((r <? 48) || (57 <? r))) (runes s).

(** [internal/telephony/coordinator.go:dialingPayload] *)
Definition dialingPayload (ownNumber destination : string) : list (string * PValue) :=
  [("role"%string, PRole RoleOriginator); ("state"%string, PState_ PartyDialing); ("fromNumber"%string, PText ownNumber)] ++
  (if isDialledNumber destination then [("toNumber"%string, PText destination)] else []).

(** [internal/telephony/coordinator.go:isDestination] *)
Definition isDestination (s : string) : bool :=
  let digits := trim_prefix "+" s in
  negb (String.eqb digits "" || (20 <? Z.of_nat (String.length digits))) &&
  forallb (fun r => negb ((r <? 48) || (57 <? r))) (runes digits).

(** [internal/telephony/coordinator.go:isDTMF] *)
Definition isDTMF (digits : string) : bool :=
  negb (String.eqb digits "" || (32 <? Z.of_nat (String.length digits))) &&
  forallb (fun r => ((48 <=? r) && (r <=? 57)) || (r =? 42) || (r =? 35) ||
                    ((65 <=? r) && (r <=? 68)) || ((97 <=? r) && (r <=? 100))) (runes digits).

(** ** The closures *)

(** [internal/telephony/coordinator.go:normalizeOriginator] the first of the
    earliest legs that hold the role. *)
Definition earliest_originator (l : list Party) : option nat :=
  fst <$> fold_left (fun best ip =>
    match best with
    | None => if bool_decide (Role ip.2 = RoleOriginator) then Some ip else None
    | Some b => if bool_decide (Role ip.2 = RoleOriginator) && (PCreatedAt ip.2 <? PCreatedAt b.2) then Some ip else best
    end) (imap pair l) None.

Definition as_target (p : Party) : Party :=
  mkParty (PartyID p) (ChannelID p) RoleTarget (PState p) (Number p) (OtherNumber p) (PAgentID p) (PExtension p)
    (PCreatedAt p) (AnsweredAt p) (ReleasedAt p) (ReleaseCause p) (IsBotLeg p) (Bridges p) (BilledSec p) (IsMuted p).

(** [internal/telephony/coordinator.go:normalizeOriginator] *)
Definition normalizeOriginator (l : list Party) : list Party :=
  imap (fun i p => if bool_decide (Role p = RoleOriginator) && negb (bool_decide (earliest_originator l = Some i))
                   then as_target p else p) l.

(** [internal/telephony/coordinator.go:L1059-L1064] the legs moved into a call,
    but for those on a channel it has. *)
Definition move_legs (moved l : list Party) : list Party :=
  fold_left (fun l p => if existsb (fun q => String.eqb (ChannelID q) (ChannelID p)) l then l else l ++ [p]) moved l.

(** What another call hands over in a merge. *)
Record Absorbed := mkAbsorbed {
  mLegs : list Party; mStays : list QueueFacts; mBot : BotShare; mData : gmap string Value; mTransfers : gmap string transferClaim
}.

(** [internal/telephony/coordinator.go:L1057-L1093] what merging does to the
    call that is kept. *)
Definition merge_into (self : nat) (m : Absorbed) (c : LiveCall) : LiveCall * UserDataChange * list Told :=
  let c := with_legs c (move_legs (mLegs m) (legs c)) in
  let c := with_base c (with_stays (base c) (MergeQueueStays (QueueStays (base c)) (mStays m))) in
  let c := with_bot c (BotMerge (LBot c) (mBot m)) in
  let c := with_base c (with_transfers (base c) (transfers (base c) ∪ mTransfers m)) in
  let '(c, change, told) := mergeUserData self (mData m) c in
  (with_legs c (normalizeOriginator (legs c)), change, told).

(** [internal/telephony/coordinator.go:L611-L650] the closure of [addParty]. *)
Definition join_leg (ev : SwitchEvent) (partyID : uuid) (agent : option uuid) (agentExtension : string) (isMatchedByCaller : bool)
    (c : LiveCall) : LiveCall :=
  match leg_at c (EvChannelID ev) with
  | Some _ => c
  | None =>
      on_leg (with_base c (AddParty (base c) partyID (EvChannelID ev) (legNumber ev) (OccurredAt ev))) (EvChannelID ev)
        (fun p =>
           let ext := managedExtensionOf ev in
           let ext := match agent with
                      | Some _ => if String.eqb ext "" && negb isMatchedByCaller then agentExtension else ext
                      | None => ext
                      end in
           mkParty (PartyID p) (ChannelID p) (Role p) (PState p) (Number p) (otherNumber ev) agent ext
             (PCreatedAt p) (AnsweredAt p) (ReleasedAt p) (ReleaseCause p) (isBotLeg ev) (Bridges p) (BilledSec p) (IsMuted p))
  end.

Definition with_muted (b : bool) (p : Party) : Party :=
  mkParty (PartyID p) (ChannelID p) (Role p) (PState p) (Number p) (OtherNumber p) (PAgentID p) (PExtension p)
    (PCreatedAt p) (AnsweredAt p) (ReleasedAt p) (ReleaseCause p) (IsBotLeg p) (Bridges p) (BilledSec p) b.

Definition transfer_on (f : Call -> Call) (c : LiveCall) : LiveCall := with_base c (f (base c)).

(** The closures of this file and of the requests. *)
Inductive Command :=
| CRead
| CAddParty (ev : SwitchEvent) (partyID : uuid) (agent : option uuid) (agentExtension : string) (isMatchedByCaller : bool)
| CMerge (m : Absorbed)
| CUserData (patch : gmap string Value)
| CPatch (agentID : uuid) (patch : gmap string Value)
| CMute (channelID : string) (muted : bool)
| CClaim (channelID : string) (now : instant)
| CKeep (channelID : string) (tok : Z) (now : instant)
| CRelease (channelID : string) (tok : Z)
| CAbandonBot.

#[export] Instance command_closures : Closures Command := {
  run cmd self t c :=
    match cmd with
    | CRead => mkRan c [] t
    | CAddParty ev partyID agent ext byCaller => mkRan (join_leg ev partyID agent ext byCaller c) [] t
    | CMerge m => let '(c, _, told) := merge_into self m c in mkRan c told t
    | CUserData patch => let '(c, _, told) := mergeUserData self patch c in mkRan c told t
    | CPatch agentID patch =>
        if contains (AgentIDs (base c)) agentID then let '(c, _, told) := patchUserData self patch c in mkRan c told t
        else mkRan c [] t
    | CMute channelID muted => mkRan (on_leg c channelID (with_muted muted)) [] t
    | CClaim channelID now =>
        let '(b, t, _) := claimTransfer (base c) t channelID now in mkRan (with_base c b) [] t
    | CKeep channelID tok now => mkRan (with_base c (keepTransfer (base c) channelID tok now).1) [] t
    | CRelease channelID tok => mkRan (with_base c (releaseTransfer (base c) channelID tok)) [] t
    | CAbandonBot => mkRan (abandoned c) [] t
    end;
  outside cmd := match cmd with CAddParty _ _ _ _ _ | CMerge _ => false | _ => true end
}.

Notation CWorld := (World Command).

(** ** State passing *)

Definition M (A : Type) : Type := CWorld -> CWorld * A.
#[export] Instance M_ret : MRet M := fun _ x w => (w, x).
#[export] Instance M_bind : MBind M := fun _ _ f m w => let '(w, x) := m w in f x w.

Lemma handler_run {A B} (m : M A) (f : A -> M B) w : (m ≫= f) w = f (m w).2 (m w).1.
Proof. unfold mbind, M_bind. by destruct (m w). Qed.

Definition tell (l : list Out) : M () := fun w => (say l w, ()).
Definition event (t : Told) : M () := tell [OTold t].
Definition port (p : Port) : M () := tell [OPort p].

(** ** The environment *)

Record QueueSummary := mkQueue { qID : uuid; qName : string; qDisplayName : string; qSLAThresholdSec : Z }.

Record Env := mkEnv {
  eAgentAt : string -> option uuid;
  eAgentByName : string -> option uuid;
  eParse : string -> option uuid;
  eNow : instant;
  eCallID : uuid;
  ePartyID : uuid;
  eCallData : uuid -> gmap string Value;
  eQueue : string -> option QueueSummary;
  hasTaps : bool;
  hasTranscripts : bool;
  hasAudiences : bool;
  hasCDR : bool
}.

Section handle.
Variable e : Env.

(** [internal/telephony/coordinator.go:Coordinator.agentForLeg] the agent, the
    extension matched, and whether only the caller's number did. *)
Definition agentForLeg (ev : SwitchEvent) : option (uuid * string * bool) :=
  let dialed := Variable_ ev "dialed_user" in
  let extension := Variable_ ev "aicc_extension" in
  let isOut := bool_decide (Direction ev = DirectionOutbound) in
  let candidates := [dialed; extension; if isOut then DestinationNumber ev else ANI ev] in
  head (omap (fun candidate =>
    if String.eqb candidate "" then None
    else match eAgentAt e candidate with
         | Some agentID =>
             Some (agentID, candidate,
                   negb isOut && String.eqb candidate (ANI ev) && negb (String.eqb candidate dialed) && negb (String.eqb candidate extension))
         | None => None
         end) candidates).

(** [internal/telephony/coordinator.go:Coordinator.isMintedID] *)
Definition isMintedID (id : uuid) : M bool :=
  s ← Do id CRead; mret (match s with Some s => IsMintedID (after s) | None => false end).

(** [internal/telephony/coordinator.go:Coordinator.isAgentOnly] *)
Definition isAgentOnly (id : uuid) : M bool :=
  s ← Do id CRead;
  mret (match s with Some s => forallb (fun p => bool_decide (is_Some (PAgentID p))) (legs (after s)) | None => true end).

(** [internal/telephony/coordinator.go:Coordinator.applyCallData] *)
Definition applyCallData (id : uuid) : M () :=
  let data := eCallData e id in
  if bool_decide (data = ∅) then mret () else _ ← Do id (CUserData data); mret ().

(** [internal/telephony/coordinator.go:Coordinator.applyInboundUserData] *)
Definition applyInboundUserData (id : uuid) (ev : SwitchEvent) : M () :=
  if bool_decide (EvUserData ev = ∅) then mret () else _ ← Do id (CUserData (EvUserData ev)); mret ().

(** The map an envelope of this file carries. *)
Definition data_of (s : Seen) : option nat := Some (seenRef s).

(** [internal/telephony/coordinator.go:L651-L736] a leg that has joined is
    announced. *)
Definition announce_leg (id : uuid) (ev : SwitchEvent) (agent : option (uuid * string * bool)) (s : option Seen) : M () :=
  match s with
  | None => mret ()
  | Some s =>
      match leg_at (before s) (EvChannelID ev), leg_at (after s) (EvChannelID ev) with
      | None, Some p =>
          let agentID := (fun a => a.1.1) <$> agent in
          let agentExtension := match agent with Some a => a.1.2 | None => ""%string end in
          let isOriginator := bool_decide (Role p = RoleOriginator) in
          let originatorNumber := match Originator (base (after s)) with Some o => Number o | None => ""%string end in
          let agents := match agentID with Some a => [a] | None => [] end in
          _ ← (if isOriginator then
                 event (mkTold TypePartyDialing (Some id) (LCallType (after s)) (Some (PartyID p)) agentID None (data_of s)
                          (dialingPayload (Number p) (dialedDestination ev)) agents None)
               else mret ());
          match agentID with
          | None => mret ()
          | Some a =>
              _ ← (if negb isOriginator then
                     event (mkTold TypePartyRinging (Some id) (LCallType (after s)) (Some (PartyID p)) agentID None (data_of s)
                              [("fromNumber"%string, PText (orNumber originatorNumber (ANI ev)));
                               ("toNumber"%string, PText agentExtension); ("extensionNumber"%string, PText agentExtension)] [a] None)
                   else mret ());
              port (SetOnCall a true id)
          end
      | _, _ => mret ()
      end
  end.

(** [internal/telephony/coordinator.go:Coordinator.addParty] *)
Definition addParty (id : uuid) (ev : SwitchEvent) (agent : option (uuid * string * bool)) : M () :=
  s ← Do id (CAddParty ev (ePartyID e) ((fun a => a.1.1) <$> agent)
               (match agent with Some a => a.1.2 | None => ""%string end) (match agent with Some a => a.2 | None => false end));
  announce_leg id ev agent s.

(** [internal/telephony/coordinator.go:Coordinator.announceMerge] *)
Definition announceMerge (keep : uuid) (moved : list Party) : M () :=
  s ← Do keep CRead;
  match s with
  | None => mret ()
  | Some s =>
      tell (omap (fun p => match PAgentID p with
                           | Some a => Some (OTold (mkTold TypePartyChanged (Some keep) (LCallType (after s)) (Some (PartyID p)) (Some a)
                                              None (data_of s) [("reason"%string, PText "CALL_MERGED")] [a] None))
                           | None => None
                           end) moved)
  end.

(** [internal/telephony/coordinator.go:L1107-L1111] *)
Fixpoint rebind (keep : uuid) (moved : list Party) : M () :=
  match moved with
  | [] => mret ()
  | p :: moved => _ ← BindChannel (ChannelID p) keep (eNow e); rebind keep moved
  end.

Definition log_absorbed (keep absorb : option nat) : M () :=
  match keep, absorb with Some k, Some a => tell [OAbsorbed k a] | _, _ => mret () end.

(** [internal/telephony/coordinator.go:Coordinator.merge] *)
Definition merge (keep absorb : uuid) : M () :=
  a ← Do absorb CRead;
  let m := match a with
           | Some a => mkAbsorbed (legs (after a)) (QueueStays (base (after a))) (LBot (after a)) (UserData (base (after a)))
                         (transfers (base (after a)))
           | None => mkAbsorbed [] [] zero_bot ∅ ∅
           end in
  k ← Do keep (CMerge m);
  match k with
  | None => mret ()
  | Some k =>
      _ ← rebind keep (mLegs m);
      _ ← (fun w => (Retire absorb w, ()));
      _ ← announceMerge keep (mLegs m);
      log_absorbed (Some (seenRef k)) (seenRef <$> a)
  end.

(** [internal/telephony/coordinator.go:Coordinator.reidentify] *)
Definition reidentify (ev : SwitchEvent) : M () :=
  if String.eqb (EvChannelID ev) "" then mret ()
  else if String.eqb (Variable_ ev "aicc_call_id") "" then mret ()
  else match eParse e (Variable_ ev "aicc_call_id") with
  | None => mret ()
  | Some minted =>
      bound ← CallForChannel (EvChannelID ev);
      match bound with
      | None => mret ()
      | Some bound =>
          if bool_decide (bound = minted) then mret ()
          else
            isMinted ← isMintedID bound;
            if isMinted : bool then mret ()
            else
              ok ← CreateCall minted (callTypeOf ev) (Variable_ ev "aicc_language") true (OccurredAt ev);
              _ ← (if ok : bool then _ ← applyCallData minted; applyInboundUserData minted ev else mret ());
              merge minted bound
      end
  end.

(** [internal/telephony/coordinator.go:L567-L596] a channel that starts a call,
    or joins one that another channel started. *)
Definition adopt_as (id : uuid) (isMinted : bool) (ev : SwitchEvent) (agent : option (uuid * string * bool)) : M () :=
  created ← CreateCall id (callTypeOf ev) (Variable_ ev "aicc_language") isMinted (OccurredAt ev);
  if created : bool then
    _ ← applyCallData id;
    _ ← applyInboundUserData id ev;
    ok ← BindChannel (EvChannelID ev) id (eNow e);
    if ok : bool then addParty id ev agent else mret ()
  else
    _ ← BindChannel (EvChannelID ev) id (eNow e);
    addParty id ev agent.

(** [internal/telephony/coordinator.go:Coordinator.adopt] *)
Definition adopt (ev : SwitchEvent) : M () :=
  if String.eqb (EvChannelID ev) "" then mret ()
  else
    owns ← Owns (EvChannelID ev);
    if owns : bool then mret ()
    else
      let named := if String.eqb (Variable_ ev "aicc_call_id") "" then None else eParse e (Variable_ ev "aicc_call_id") in
      let agent := agentForLeg ev in
      let parent := if String.eqb (MemberChannelID ev) "" then ParentChannelID ev else MemberChannelID ev in
      let nil_ := match named with Some id => bool_decide (id = uuid_Nil) | None => true end in
      member ← (if nil_ && negb (String.eqb parent "") then CallForChannel parent else mret None);
      match member with
      | Some member =>
          ok ← BindChannel (EvChannelID ev) member (eNow e);
          if ok : bool then addParty member ev agent else mret ()
      | None => adopt_as (if nil_ then eCallID e else default uuid_Nil named) (bool_decide (is_Some named)) ev agent
      end.

(** [internal/telephony/coordinator.go:Coordinator.noteBridge] *)
Definition noteBridge (a b : string) : M bool := fun w =>
  let m := bridged w in
  let isRepeat := bool_decide (default "" (m !! a) = b) && bool_decide (default "" (m !! b) = a) in
  (with_bridged (<[b := a]> (<[a := b]> m)) w, isRepeat)%string.

(** [internal/telephony/coordinator.go:Coordinator.forgetBridge] *)
Definition forgetBridge (channelID : string) : M () := fun w =>
  let m := bridged w in
  match m !! channelID with
  | None => (w, ())
  | Some peer =>
      let m := delete channelID m in
      (with_bridged (if bool_decide (default ""%string (m !! peer) = channelID) then delete peer m else m) w, ())
  end.

(** [internal/telephony/coordinator.go:Coordinator.tapAgentLeg] *)
Definition tapAgentLeg (id : uuid) (channels : list string) : M () :=
  if negb (hasTaps e) then mret ()
  else
    s ← Do id CRead;
    match s with
    | None => mret ()
    | Some s =>
        let c := after s in
        if bool_decide (LCallType c = CallTypeInbound) || bool_decide (LCallType c = CallTypeOutbound) then
          tell (flat_map (fun ch =>
            if String.eqb ch "" then []
            else flat_map (fun p =>
              match PAgentID p with
              | Some a =>
                  if String.eqb (ChannelID p) ch then
                    (if hasTranscripts e then [OPort (TranscriptStart id (LCallType c) (CallAnsweredAt (base c)))] else []) ++
                    [OPort (TapAttach id a (PartyID p) ch (Language c))]
                  else []
              | None => []
              end) (legs c)) channels)
        else mret ()
    end.

(** [internal/telephony/coordinator.go:Coordinator.announceAudience] *)
Definition announceAudience (id : uuid) : M () :=
  if negb (hasAudiences e) then mret ()
  else
    s ← Do id CRead;
    match s with Some s => port (SetAudience id (AgentIDs (base (after s)))) | None => mret () end.

(** [internal/telephony/coordinator.go:L834-L854] which of two calls is kept. *)
Definition which_kept (callID otherID : uuid) : M (uuid * uuid) :=
  m1 ← isMintedID callID;
  m2 ← (if m1 : bool then isMintedID otherID else mret false);
  if m1 && negb m2 then mret (callID, otherID)
  else
    m3 ← isMintedID otherID;
    m4 ← (if m3 : bool then isMintedID callID else mret false);
    if m3 && negb m4 then mret (otherID, callID)
    else
      a ← isAgentOnly callID;
      if a : bool then mret (otherID, callID)
      else
        _ ← isAgentOnly otherID;
        mret (callID, otherID).

(** [internal/telephony/coordinator.go:Coordinator.join] *)
Definition join (ev : SwitchEvent) : M () :=
  let a := EvChannelID ev in
  let b := OtherChannelID ev in
  if String.eqb a "" || String.eqb b "" then mret ()
  else
    callID ← CallForChannel a;
    otherID ← CallForChannel b;
    match callID, otherID with
    | Some callID, Some otherID =>
        if bool_decide (callID = otherID) then
          isRepeat ← noteBridge a b;
          if isRepeat : bool then mret ()
          else _ ← tapAgentLeg callID [a; b]; announceAudience callID
        else
          ka ← which_kept callID otherID;
          _ ← merge ka.1 ka.2;
          _ ← tapAgentLeg ka.1 [a; b];
          announceAudience ka.1
    | _, _ => mret ()
    end.

(** [strings.EqualFold] with a text of capital letters and underlines. *)
Definition fold_upper (r : rune) : rune :=
  if (97 <=? r) && (r <=? 122) then r - 32 else if r =? 383 then 83 else if r =? 8490 then 75 else r.
Definition equal_fold (s upper : string) : bool := bool_decide (map fold_upper (runes s) = runes upper).

(** [internal/telephony/coordinator.go:Coordinator.agentDidNotAnswer] *)
Definition agentDidNotAnswer (ev : SwitchEvent) : M () :=
  if String.eqb (AgentName ev) "" || negb (equal_fold (TrimSpace (EvHangupCause ev)) "NO_ANSWER") then mret ()
  else match eAgentByName e (AgentName ev) with
       | Some a => port (BenchForNoAnswer a)
       | None => mret ()
       end.

(** [internal/telephony/coordinator.go:Coordinator.offerToAgent] *)
Definition offerToAgent (ev : SwitchEvent) : M () :=
  match eAgentByName e (AgentName ev) with
  | None => mret ()
  | Some agentID =>
      id ← CallForChannel (MemberChannelID ev);
      match id with
      | None => mret ()
      | Some id =>
          s ← Do id CRead;
          let '(t, d, ani) :=
            match s with
            | Some s => (LCallType (after s), data_of s,
                         match Originator (base (after s)) with Some o => Number o | None => ""%string end)
            | None => (CallTypeText "", None, ""%string)
            end in
          event (mkTold TypeQueueAgentOffered (Some id) t None (Some agentID) None d
                   [("queue"%string, PText (Queue ev)); ("fromNumber"%string, PText ani)] [agentID] None)
      end
  end.

(** ** The waiting line *)

(** [internal/telephony/waiting.go:WaitingLine.count] *)
Definition waiting_count (queueID : uuid) (m : gmap string WaitingCall) : Z * instant :=
  map_fold (fun _ c acc =>
    if bool_decide (WQueueID c = queueID)
    then (acc.1 + 1, if is_zero acc.2 || (WJoinedAt c <? acc.2) then WJoinedAt c else acc.2)
    else acc) (0, zero_time) m.

(** [internal/telephony/waiting.go:Coordinator.publishQueueCount] *)
Definition publishQueueCount (queueID : uuid) (queueName : string) : M () := fun w =>
  let '(n, longest) := waiting_count queueID (waiting w) in
  event (mkTold TypeQueueCount None (CallTypeText "") None None (Some queueID) None
    ([("queueName"%string, PText queueName); ("waiting"%string, PInt n)] ++
     (if is_zero longest then [] else [("longestWaitAt"%string, PTime longest)])) [] (Some queueID)) w.

(** [internal/telephony/waiting.go:callIDOrNil] *)
Definition callIDOrNil (id : uuid) : option uuid := if bool_decide (id = uuid_Nil) then None else Some id.

(** [internal/telephony/waiting.go:WaitingLine.join] *)
Definition line_join (c : WaitingCall) : M bool := fun w =>
  match waiting w !! WChannelID c with
  | Some old => if bool_decide (WQueueID old = WQueueID c) then (w, false)
                else (with_waiting (<[WChannelID c := c]> (waiting w)) w, true)
  | None => (with_waiting (<[WChannelID c := c]> (waiting w)) w, true)
  end.

(** [internal/telephony/waiting.go:WaitingLine.leave] *)
Definition line_leave (channelID : string) : M (option WaitingCall) := fun w =>
  match waiting w !! channelID with
  | Some c => (with_waiting (delete channelID (waiting w)) w, Some c)
  | None => (w, None)
  end.

(** [internal/telephony/waiting.go:Coordinator.queueJoined] *)
Definition queueJoined (ev : SwitchEvent) : M () :=
  if String.eqb (MemberChannelID ev) "" then mret ()
  else match eQueue e (Queue ev) with
  | None => mret ()
  | Some q =>
      let joined := if is_zero (EvJoinedAt ev) then OccurredAt ev else EvJoinedAt ev in
      id ← CallForChannel (MemberChannelID ev);
      s ← match id with Some id => Do id CRead | None => mret None end;
      let entry := fun t lang d num =>
        mkWaiting (default uuid_Nil id) t num (qID q) (qName q) (qDisplayName q) (qSLAThresholdSec q) joined lang d (MemberChannelID ev) in
      let c :=
        match s with
        | Some s => entry (LCallType (after s)) (Language (after s)) (data_of s)
                      (match Originator (base (after s)) with
                       | Some o => if String.eqb (Number o) "" then ANI ev else Number o
                       | None => ANI ev
                       end)
        | None => entry (CallTypeText "") ""%string None (ANI ev)
        end in
      isNew ← line_join c;
      if isNew : bool then
        _ ← event (mkTold TypeQueueJoined (callIDOrNil (WCallID c)) (WCallType c) None None (Some (WQueueID c)) (WUserData c)
                     [("queueName"%string, PText (QueueName c)); ("fromNumber"%string, PText (FromNumber c));
                      ("joinedAt"%string, PTime (WJoinedAt c))] [] (Some (WQueueID c)));
        publishQueueCount (WQueueID c) (QueueName c)
      else mret ()
  end.

(** [internal/telephony/waiting.go:Coordinator.queueLeft] *)
Definition queueLeft (channelID : string) (ev : SwitchEvent) : M () :=
  if String.eqb channelID "" then mret ()
  else
    c ← line_leave channelID;
    match c with
    | None => mret ()
    | Some c =>
        _ ← event (mkTold TypeQueueLeft (callIDOrNil (WCallID c)) (WCallType c) None None (Some (WQueueID c)) None
                     ([("queueName"%string, PText (QueueName c)); ("fromNumber"%string, PText (FromNumber c));
                       ("waitSec"%string, PInt (intSeconds (Calendar.Sub (OccurredAt ev) (WJoinedAt c))))] ++
                      (if String.eqb (EvCause ev) "" then [] else [("cause"%string, PText (EvCause ev))]) ++
                      (if String.eqb (EvCancelReason ev) "" then [] else [("cancelReason"%string, PText (EvCancelReason ev))]))
                     [] (Some (WQueueID c)));
        publishQueueCount (WQueueID c) (QueueName c)
    end.

(** [internal/telephony/waiting.go:Coordinator.trackQueue] *)
Definition trackQueue (ev : SwitchEvent) : M () :=
  match Kind ev with
  | KindQueueMemberJoined => queueJoined ev
  | KindQueueBridgeStart | KindQueueMemberLeft => queueLeft (MemberChannelID ev) ev
  | KindChannelHangup => queueLeft (EvChannelID ev) ev
  | _ => mret ()
  end.

(** ** One event *)

(** [internal/telephony/coordinator.go:endedLeg] *)
Record endedLeg := mkEnded { edAgent : uuid; edCall : uuid; edParty : uuid; edType : CallType; edAnswered : bool }.

(** [internal/telephony/coordinator.go:Coordinator.agentLegEnded] *)
Definition agentLegEnded (channelID : string) : M (option endedLeg) :=
  id ← CallForChannel channelID;
  match id with
  | None => mret None
  | Some id =>
      s ← Do id CRead;
      mret (s ← s; p ← leg_at (after s) channelID; a ← PAgentID p;
            Some (mkEnded a (CallID (base (after s))) (PartyID p) (LCallType (after s)) (negb (is_zero (AnsweredAt p)))))
  end.

(** [internal/telephony/coordinator.go:L337-L346] *)
Definition follow_tap (ev : SwitchEvent) : M () :=
  if hasTaps e && negb (String.eqb (EvChannelID ev) "") then
    match Kind ev with
    | KindChannelHold => port (TapPause (EvChannelID ev))
    | KindChannelUnhold => port (TapResume (EvChannelID ev))
    | KindChannelUnbridge | KindChannelHangup => port (TapDetach (EvChannelID ev))
    | _ => mret ()
    end
  else mret ().

(** [internal/telephony/coordinator.go:L364-L380] *)
Definition queue_ledger (ev : SwitchEvent) : M () :=
  if negb (hasCDR e) then mret ()
  else match Kind ev with
  | KindQueueMemberJoined | KindQueueAgentOffered | KindQueueBridgeStart | KindQueueMemberLeft =>
      id ← CallForChannel (MemberChannelID ev);
      port (QueueEvent (Kind ev) (Queue ev) id
              (if String.eqb (AgentName ev) "" then None else eAgentByName e (AgentName ev)))
  | _ => mret ()
  end.

(** [internal/telephony/coordinator.go:Coordinator.forgetObserver] *)
Definition forgetObserver (channelID : string) : M () := fun w =>
  (with_observers (filter (fun kv => kv.2 <> channelID) (observers w)) w, ()).

(** [internal/telephony/coordinator.go:L386-L412] the event reaches its call,
    and the agent whose leg ended is told. *)
Definition dispatch_and_release (ev : SwitchEvent) : M () :=
  ended ← (if bool_decide (Kind ev = KindChannelHangup) then agentLegEnded (EvChannelID ev) else mret None);
  _ ← Dispatch ev;
  match ended with
  | None => mret ()
  | Some d =>
      _ ← port (SetOnCall (edAgent d) false (edCall d));
      if edAnswered d && negb (bool_decide (edType d = CallTypeInternal))
      then port (BeginAfterCallWork (edAgent d) (edCall d) (edParty d))
      else mret ()
  end.

(** [internal/telephony/coordinator.go:Coordinator.Handle] *)
Definition Handle (ev : SwitchEvent) : M () :=
  if isHarnessLeg ev then mret ()
  else if isObserverLeg ev then
    if bool_decide (Kind ev = KindChannelHangup) then forgetObserver (EvChannelID ev) else mret ()
  else
    _ ← match Kind ev with
        | KindChannelCreate => adopt ev
        | KindChannelBridge => join ev
        | KindQueueBridgeFailed => agentDidNotAnswer ev
        | KindQueueAgentOffered => offerToAgent ev
        | _ => mret ()
        end;
    _ ← follow_tap ev;
    _ ← (if bool_decide (Kind ev = KindChannelUnbridge \/ Kind ev = KindChannelHangup) then forgetBridge (EvChannelID ev) else mret ());
    _ ← reidentify ev;
    _ ← trackQueue ev;
    _ ← queue_ledger ev;
    dispatch_and_release ev.

End handle.

End Coordinator.
