(* ===== verification/CoordinatorFacts.v ===== *)
(** * What holds of the coordinator in every interleaving

    The closures of [Coordinator.v] keep a call in order ([command_laws]); the
    states the coordinator can be in ([reachable]); every leg of a running call
    is found by its channel, and a bridge makes one call of two. *)

From S2P Require Import Prelude GoText Calendar Schedule Call TelephonyData Registry RegistryFacts Coordinator.

Module CoordinatorFacts.
Import GoText Call TelephonyData Registry RegistryFacts Coordinator.

(** ** The closures *)

Lemma originators_app l l' : originators (l ++ l') = (originators l + originators l')%nat.
Proof. unfold originators. by rewrite List.filter_app, length_app. Qed.

Lemma join_leg_new ev id agent ext by_ c : leg_at c (EvChannelID ev) = None ->
  exists p, legs (join_leg ev id agent ext by_ c) = legs c ++ [p] /\ ChannelID p = EvChannelID ev /\ PartyID p = id /\
    Role p = (match legs c with [] => RoleOriginator | _ => RoleTarget end) /\ IsActive p = true /\ PAgentID p = agent.
Proof.
  intros Hn. unfold join_leg. rewrite Hn. apply leg_at_None in Hn. unfold channels in Hn.
  unfold AddParty, on_leg, legs in *. simpl.
  set (f := fun p : Party => mkParty _ _ _ _ _ _ _ _ _ _ _ _ _ _ _ _).
  assert (H : forall l p, EvChannelID ev ∉ ChannelID <$> l -> ChannelID p = EvChannelID ev ->
    change_leg (EvChannelID ev) f (l ++ [p]) = l ++ [f p]).
  { induction l as [|q l IH]; intros p Hq Hp; simpl.
    - by rewrite Hp, String.eqb_refl.
    - rewrite fmap_cons, not_elem_of_cons in Hq. destruct (String.eqb_spec (ChannelID q) (EvChannelID ev)); [by destruct Hq|].
      rewrite IH; [done| |done]. tauto. }
  destruct (Parties (base c)) as [|q l] eqn:El; simpl.
  - eexists. split; [rewrite String.eqb_refl; reflexivity|]. done.
  - rewrite fmap_cons, not_elem_of_cons in Hn. destruct (String.eqb_spec (ChannelID q) (EvChannelID ev)); [by destruct Hn|].
    eexists. split; [rewrite H; [reflexivity|tauto|done]|]. done.
Qed.

Lemma join_leg_old ev id agent ext by_ c p : leg_at c (EvChannelID ev) = Some p -> join_leg ev id agent ext by_ c = c.
Proof. unfold join_leg. by intros ->. Qed.

Lemma has_leg_spec (p : Party) l : existsb (fun q => String.eqb (ChannelID q) (ChannelID p)) l = true <-> ChannelID p ∈ ChannelID <$> l.
Proof.
  rewrite existsb_elem, list_elem_of_fmap. setoid_rewrite String.eqb_eq. split; intros (q & ? & ?); exists q; done.
Qed.

Lemma move_legs_spec moved l : NoDup (ChannelID <$> l) ->
  NoDup (ChannelID <$> move_legs moved l) /\
  (forall ch, ch ∈ ChannelID <$> move_legs moved l <-> ch ∈ ChannelID <$> l \/ ch ∈ ChannelID <$> moved) /\
  (exists l', move_legs moved l = l ++ l' /\ forall p, p ∈ l' -> p ∈ moved) /\
  (forall p, p ∈ moved -> NoDup (ChannelID <$> moved) -> ChannelID p ∉ ChannelID <$> l -> p ∈ move_legs moved l).
Proof.
  revert l. induction moved as [|p moved IH]; intros l Hl.
  { cbn. split; [done|]. split; [intros ch; rewrite elem_of_nil; tauto|]. split; [exists []; split; [by rewrite app_nil_r|]|]; set_solver. }
  change (move_legs (p :: moved) l) with
    (move_legs moved (if existsb (fun q => String.eqb (ChannelID q) (ChannelID p)) l then l else l ++ [p])).
  pose proof (has_leg_spec p l) as Hp. destruct (existsb _ l).
  - assert (Hin : ChannelID p ∈ ChannelID <$> l) by tauto. destruct (IH l Hl) as (H1 & H2 & (l' & E & H3) & H4).
    split; [done|]. split; [intros ch; rewrite H2, fmap_cons, elem_of_cons; split; [tauto|intros [?|[->|?]]; auto]|].
    split; [exists l'; split; [done|intros q Hq; right; auto]|].
    intros q Hq Hnd Hnq. rewrite fmap_cons, NoDup_cons in Hnd. apply elem_of_cons in Hq as [->|Hq]; [tauto|]. apply H4; [done|tauto|done].
  - assert (Hnin : ChannelID p ∉ ChannelID <$> l) by (intros ?%Hp; done).
    assert (Hl' : NoDup (ChannelID <$> l ++ [p])).
    { rewrite fmap_app, NoDup_app. split; [done|]. split; [|apply NoDup_singleton]. intros x Hx Hs. set_solver. }
    destruct (IH _ Hl') as (H1 & H2 & (l' & E & H3) & H4). split; [done|].
    split; [intros ch; rewrite H2, fmap_app, elem_of_app, fmap_cons, elem_of_cons; cbn [fmap list_fmap]; rewrite !elem_of_cons, elem_of_nil; tauto|].
    split; [exists (p :: l'); split; [rewrite E; by rewrite <- app_assoc|]; intros q; rewrite !elem_of_cons; intros [->|?]; auto|].
    intros q Hq Hnd Hnq. rewrite fmap_cons, NoDup_cons in Hnd. apply elem_of_cons in Hq as [->|Hq].
    + rewrite E, elem_of_app, elem_of_app. left. right. left.
    + apply H4; [done|tauto|]. rewrite fmap_app, elem_of_app. intros [?|Hs]; [done|].
      simpl in Hs. apply list_elem_of_singleton in Hs. destruct Hnd as [Hnd _]. apply Hnd. rewrite <- Hs. by apply list_elem_of_fmap_2.
Qed.

(** One leg that began the call is left. *)
Definition only_originator (k n i : nat) (p : Party) : Party :=
  if bool_decide (Role p = RoleOriginator) && negb (bool_decide (k = n + i)%nat) then as_target p else p.

Lemma originators_cons p l : originators (p :: l) = ((if is_originator p then 1 else 0) + originators l)%nat.
Proof. unfold originators. simpl. by destruct (is_originator p). Qed.

Lemma only_originator_after k n l : (k < n)%nat -> originators (imap (only_originator k n) l) = 0%nat.
Proof.
  revert n. induction l as [|p l IH]; intros n Hk; [done|]. rewrite imap_cons, originators_cons.
  rewrite (imap_ext _ (only_originator k (S n))) by (intros i q _; unfold only_originator; simpl; by rewrite Nat.add_succ_r).
  rewrite IH by lia. unfold only_originator, is_originator. rewrite (bool_decide_eq_false_2 (k = _)) by lia.
  destruct (Role p) eqn:Er; simpl; by rewrite ?Er.
Qed.

Lemma only_originator_one k n l p : (n <= k)%nat -> l !! (k - n)%nat = Some p -> Role p = RoleOriginator ->
  originators (imap (only_originator k n) l) = 1%nat.
Proof.
  revert n. induction l as [|q l IH]; intros n Hk Hl Hp; [done|]. rewrite imap_cons, originators_cons.
  rewrite (imap_ext _ (only_originator k (S n))) by (intros i r _; unfold only_originator; simpl; by rewrite Nat.add_succ_r).
  unfold only_originator at 1, is_originator. destruct (decide (k = n)) as [->|Hne].
  - rewrite Nat.sub_diag in Hl. injection Hl as ->. rewrite only_originator_after by lia.
    rewrite (bool_decide_eq_true_2 (n = _)) by lia. rewrite Hp. simpl. by rewrite Hp.
  - rewrite (IH (S n)); [|lia| |done].
    + rewrite (bool_decide_eq_false_2 (k = _)) by lia. destruct (Role q) eqn:Er; simpl; by rewrite ?Er.
    + replace (k - n)%nat with (S (k - S n)) in Hl by lia. done.
Qed.

Lemma earliest_originator_spec l :
  match earliest_originator l with
  | Some k => exists p, l !! k = Some p /\ Role p = RoleOriginator
  | None => forall p, p ∈ l -> Role p <> RoleOriginator
  end.
Proof.
  unfold earliest_originator.
  set (f := fun (best : option (nat * Party)) (ip : nat * Party) => match best with None => _ | Some b => _ end).
  set (ok := fun o : option (nat * Party) => match o with Some ip => l !! ip.1 = Some ip.2 /\ Role ip.2 = RoleOriginator | None => True end).
  assert (Hok : ok (fold_left f (imap pair l) None)).
  { apply (fold_left_inv ok); [done|]. intros best [i p] Hb Hin. apply elem_of_lookup_imap in Hin as (j & q & [= -> ->] & Hj).
    unfold f. destruct best as [b|]; simpl.
    - destruct (bool_decide _) eqn:Er; simpl; [|done]. apply bool_decide_eq_true in Er. by destruct (_ <? _).
    - destruct (bool_decide _) eqn:Er; simpl; [|done]. by apply bool_decide_eq_true in Er. }
  assert (Hsome : forall l b, is_Some (fold_left f l (Some b))).
  { induction l0 as [|ip l0 IH]; intros b; [by eexists|]. simpl. by destruct (_ && _). }
  assert (Hnone : forall l0, fold_left f l0 None = None -> forall ip, ip ∈ l0 -> Role ip.2 <> RoleOriginator).
  { induction l0 as [|ip l0 IH]; intros E jp Hj; [by apply not_elem_of_nil in Hj|]. simpl in E.
    destruct (bool_decide (Role ip.2 = RoleOriginator)) eqn:Er; [destruct (Hsome l0 ip) as [? Hs]; congruence|].
    apply bool_decide_eq_false in Er. apply elem_of_cons in Hj as [->|Hj]; [done|]. by apply IH. }
  destruct (fold_left f (imap pair l) None) as [[k p]|] eqn:E; simpl; [by exists p|].
  intros p Hp. apply list_elem_of_lookup in Hp as [i Hi]. apply (Hnone _ E (i, p)). apply elem_of_lookup_imap. by exists i, p.
Qed.

Lemma normalize_channels l : ChannelID <$> normalizeOriginator l = ChannelID <$> l.
Proof.
  unfold normalizeOriginator. rewrite fmap_imap. rewrite <- imap_const. apply imap_ext. intros i p _. simpl. by destruct (_ && _).
Qed.

Lemma normalize_one l : originators l <> 0%nat -> originators (normalizeOriginator l) = 1%nat.
Proof.
  intros Hl. pose proof (earliest_originator_spec l) as H. unfold normalizeOriginator.
  destruct (earliest_originator l) as [k|] eqn:E.
  - destruct H as (p & Hk & Hp). rewrite (imap_ext _ (only_originator k 0)).
    + apply (only_originator_one k 0 l p); [lia|by rewrite Nat.sub_0_r|done].
    + intros i q _. unfold only_originator. simpl. rewrite (bool_decide_ext (Some k = Some i) (k = i)); [done|naive_solver].
  - destruct Hl. unfold originators. clear E. induction l as [|p l IH]; [done|]. simpl. unfold is_originator at 1.
    rewrite bool_decide_eq_false_2 by (apply H; left). apply IH. intros q Hq. apply H. by right.
Qed.

Lemma normalize_active ch l : (exists p, p ∈ l /\ ChannelID p = ch /\ IsActive p = true) ->
  exists p, p ∈ normalizeOriginator l /\ ChannelID p = ch /\ IsActive p = true.
Proof.
  intros (p & Hp & Hch & Ha). apply list_elem_of_lookup in Hp as [i Hi].
  eexists. split; [apply elem_of_lookup_imap; exists i, p; split; [reflexivity|done]|]. by destruct (_ && _).
Qed.

(** *** What merging leaves *)

Definition fit_command (cmd : Command) : Prop :=
  match cmd with
  | CMerge m => NoDup (ChannelID <$> mLegs m) /\ (mLegs m <> [] -> originators (mLegs m) = 1%nat)
  | _ => True
  end.

Definition merged_legs (m : Absorbed) (c : LiveCall) : list Party := normalizeOriginator (move_legs (mLegs m) (legs c)).

Lemma patch_user_data_spec self patch c : let x := (patchUserData self patch c).1.1 in
  legs x = legs c /\ CallID (base x) = CallID (base c) /\ IsMintedID x = IsMintedID c /\ LCallType x = LCallType c /\
  State (base x) = State (base c).
Proof.
  unfold patchUserData. by destruct (Dropped _).
Qed.

Lemma merged_legs_ok m c : fit_command (CMerge m) -> call_ok c ->
  NoDup (ChannelID <$> merged_legs m c) /\ (merged_legs m c <> [] -> originators (merged_legs m c) = 1%nat).
Proof.
  intros [Hm1 Hm2] [Hc1 Hc2]. destruct (move_legs_spec (mLegs m) (legs c) Hc1) as (H1 & H2 & (l' & E & H3) & H4).
  unfold merged_legs. rewrite normalize_channels. split; [done|]. intros Hne. apply normalize_one.
  destruct (legs c) as [|p l] eqn:El.
  - destruct (mLegs m) as [|q l2] eqn:Em; [done|]. specialize (Hm2 ltac:(done)).
    assert (Hall : forall x, x ∈ q :: l2 -> x ∈ move_legs (q :: l2) []) by (intros x Hx; apply H4; [done|done|apply not_elem_of_nil]).
    unfold originators in *. intros H0. apply length_zero_iff_nil in H0.
    destruct (List.filter is_originator (q :: l2)) as [|x xs] eqn:Ef; [done|].
    assert (Hx : In x (List.filter is_originator (q :: l2))) by (rewrite Ef; by left).
    apply filter_In in Hx as [Hx1 Hx2]. apply list_elem_of_In, Hall, list_elem_of_In in Hx1.
    assert (Hin : In x (List.filter is_originator (move_legs (q :: l2) []))) by by apply filter_In. by rewrite H0 in Hin.
  - rewrite E, originators_app. rewrite (Hc2 ltac:(done)). lia.
Qed.

(** What any closure does to a call. *)
Record kept_by (cmd : Command) (x y : LiveCall) : Prop := mkKept {
  kb_id : CallID (base y) = CallID (base x);
  kb_minted : IsMintedID y = IsMintedID x;
  kb_type : LCallType y = LCallType x;
  kb_ended : State (base y) = CallEnded <-> State (base x) = CallEnded;
  kb_legs : match cmd with
            | CAddParty ev id agent ext by_ => y = join_leg ev id agent ext by_ x
            | CMerge m => legs y = merged_legs m x
            | CMute ch b => legs y = change_leg ch (with_muted b) (legs x)
            | _ => legs y = legs x
            end
}.

Lemma run_kept cmd r t x : kept_by cmd x (ranCall (run cmd r t x)).
Proof.
  destruct cmd as [|ev partyID agent agentExtension isMatchedByCaller|m|patch|ag patch|ch0 mu|ch0 now|ch0 tok now|ch0 tok|]; simpl; try done.
  - assert (H : CallID (base (join_leg ev partyID agent agentExtension isMatchedByCaller x)) = CallID (base x) /\
      IsMintedID (join_leg ev partyID agent agentExtension isMatchedByCaller x) = IsMintedID x /\
      LCallType (join_leg ev partyID agent agentExtension isMatchedByCaller x) = LCallType x /\
      (State (base (join_leg ev partyID agent agentExtension isMatchedByCaller x)) = CallEnded <-> State (base x) = CallEnded)).
    { unfold join_leg. destruct (leg_at _ _); [done|]. unfold AddParty.
      destruct (Parties (base x)), (State (base x)); simpl; repeat split; try done; try (by case_decide). }
    destruct H as (H1 & H2 & H3 & H4). by constructor.
  - destruct (contains _ _); [|done]. pose proof (patch_user_data_spec r patch x) as (H1 & H2 & H3 & H4 & H5).
    destruct (patchUserData r patch x) as [[c ch] told]. simpl in *. constructor; simpl; try congruence. by rewrite H5.
  - unfold claimTransfer. by destruct (match _ with Some _ => _ | None => _ end).
  - unfold keepTransfer. destruct (transfers _ !! _); [|done]. by destruct (_ =? _).
  - unfold releaseTransfer. destruct (transfers _ !! _); [|done]. by destruct (_ =? _).
Qed.

Lemma join_leg_ok ev id agent ext by_ c : call_ok c -> call_ok (join_leg ev id agent ext by_ c).
Proof.
  intros [H1 H2]. destruct (leg_at c (EvChannelID ev)) as [p|] eqn:E; [by rewrite (join_leg_old _ _ _ _ _ _ p)|].
  destruct (join_leg_new ev id agent ext by_ c E) as (p & El & Hc & _ & Hr & _). apply leg_at_None in E.
  constructor; unfold channels; rewrite El.
  - rewrite fmap_app, NoDup_app. split; [done|]. split; [|apply NoDup_singleton].
    intros ch Hin Hs. simpl in Hs. apply list_elem_of_singleton in Hs. unfold channels in E. congruence.
  - intros _. rewrite originators_app, originators_cons. unfold is_originator. rewrite Hr.
    destruct (legs c) as [|q l]; [done|]. by rewrite (H2 ltac:(done)).
Qed.

Lemma join_leg_active ch ev id agent ext by_ c : active ch c -> active ch (join_leg ev id agent ext by_ c).
Proof.
  destruct (leg_at c (EvChannelID ev)) as [p|] eqn:E; [by rewrite (join_leg_old _ _ _ _ _ _ p)|].
  destruct (join_leg_new ev id agent ext by_ c E) as (p & El & _). intros (q & Hq & Ha). exists q. rewrite El. set_solver.
Qed.

Lemma merged_legs_active ch m c : active ch c -> exists p, p ∈ merged_legs m c /\ ChannelID p = ch /\ IsActive p = true.
Proof.
  intros (p & Hp & Ha). apply normalize_active. exists p. split; [|done].
  clear Ha. unfold move_legs. revert Hp. generalize (legs c). induction (mLegs m) as [|q l IH]; intros l' Hp; [done|]. simpl. apply IH.
  destruct (existsb _ _); set_solver.
Qed.

#[export, refine] Instance command_laws : ClosureLaws Command := {| fit := fit_command |}.
Proof.
  - intros c r t x. apply (run_kept c r t x).
  - intros c r t x. apply (run_kept c r t x).
  - intros c r t x. apply (run_kept c r t x).
  - intros c r t x. apply (run_kept c r t x).
  - intros c r t x Hf Hx. destruct (run_kept c r t x) as [_ _ _ _ Hl].
    assert (Hsame : forall y, shapes y = shapes x -> call_ok y).
    { intros y Hy. destruct Hx as [H1 H2]. constructor; [by rewrite (shapes_channels x)|]. intros Hn.
      rewrite (shapes_originators (legs x)); [|done]. apply H2. unfold shapes in Hy. destruct (legs x); [|done]. by destruct (legs y). }
    destruct c as [|ev pid ag ext by_|m|patch|ag patch|ch0 mu|ch0 now|ch0 tok now|ch0 tok|]; try (apply Hsame; unfold shapes; by rewrite Hl).
    + rewrite Hl. by apply join_leg_ok.
    + destruct (merged_legs_ok m x Hf Hx). constructor; unfold channels; by rewrite Hl.
    + apply Hsame. unfold shapes. rewrite Hl. by apply change_leg_shape.
  - by intros [].
  - intros c r t x ch Hx. destruct (run_kept c r t x) as [_ _ _ _ Hl].
    assert (Hsame : forall y, legs y = legs x -> active ch y) by (intros y Hy; unfold active; by rewrite Hy).
    destruct c as [|ev pid ag ext by_|m|patch|ag patch|ch0 mu|ch0 now|ch0 tok now|ch0 tok|]; try (by apply Hsame).
    + rewrite Hl. by apply join_leg_active.
    + unfold active. rewrite Hl. by apply merged_legs_active.
    + destruct Hx as (p & Hp & Hch & Ha). unfold active. rewrite Hl.
      destruct (change_leg_elem ch0 (with_muted mu) (legs x) p Hp) as (q & Hq & [->|[-> _]]); eauto.
  - intros c r t x Ho. destruct (run_kept c r t x) as [_ _ _ _ Hl].
    destruct c; try done; unfold shapes; rewrite Hl; try done. by apply change_leg_shape.
Defined.

End CoordinatorFacts.
