(* ===== verification/CoordinatorSafety.v ===== *)
(** * Legs, identities and reports: what the coordinator promises

    Most of what the coordinator does is [quiet]: it reads calls and tells its
    ports, and to the calls it is as if only time had passed. What is not is
    adopting a channel, merging two calls and posting the event; for these the
    legs and the channels are followed through every access. *)

From S2P Require Import Prelude GoText Calendar Schedule Call TelephonyData Registry RegistryFacts Coordinator CoordinatorFacts.

Module CoordinatorSafety.
Import GoText Call TelephonyData Registry RegistryFacts Coordinator CoordinatorFacts.

(** ** Invariants between two events *)

(** The legs of a running call are on the channels bound to it. *)
Definition bound (w : CWorld) : Prop :=
  forall r a, actors w !! r = Some a -> quit a = false -> forall ch, ch ∈ channels (call a) <-> byChannel w !! ch = Some r.

(** The events a running call has not seen are about channels bound to it. *)
Definition mailed (w : CWorld) : Prop :=
  forall r a ev, actors w !! r = Some a -> quit a = false -> MEvent ev ∈ mailbox a -> byChannel w !! EvChannelID ev = Some r.

Record in_order (w : CWorld) : Prop := mkInOrder { io_ok : registry_ok w; io_bound : bound w; io_mailed : mailed w }.

Lemma running_before (w w' : CWorld) r a' : evolves w w' -> actors w' !! r = Some a' -> quit a' = false ->
  exists a, actors w !! r = Some a /\ later a a' /\ quit a = false /\ channels (call a') = channels (call a).
Proof.
  intros He Ha' Hq. destruct (ev_actor _ _ He r a' Ha') as (a & Ha & Hl). exists a. split; [done|]. split; [done|].
  split; [|by apply shapes_channels, Hl]. destruct (quit a) eqn:E; [|done]. rewrite (lt_quit _ _ Hl E) in Hq. done.
Qed.

Lemma evolves_in_order w w' : registry_ok w' -> evolves w w' -> in_order w -> in_order w'.
Proof.
  intros Hw' He [_ Hb Hm]. constructor; [done|..].
  - intros r a' Ha' Hq ch. destruct (running_before _ _ _ _ He Ha' Hq) as (a & Ha & Hl & Hqa & ->).
    rewrite (Hb r a Ha Hqa ch). split; [intros E; apply (ev_keep _ _ He ch r E); by exists a'|apply (ev_chan _ _ He)].
  - intros r a' ev Ha' Hq Hin. destruct (running_before _ _ _ _ He Ha' Hq) as (a & Ha & Hl & Hqa & _).
    apply (ev_keep _ _ He); [|by exists a']. apply (Hm r a ev Ha Hqa). by apply (lt_mail _ _ Hl).
Qed.

(** ** Quiet operations *)

#[local] Hint Extern 0 (later _ _) => reflexivity : core.

Definition quiet {A} (m : M A) : Prop := forall w, registry_ok w -> registry_ok (m w).1 /\ evolves w (m w).1.

Lemma quiet_nothing {A} (x : A) : quiet (mret x).
Proof. by intros w Hw. Qed.

Lemma quiet_then_quiet {A B} (m : M A) (f : A -> M B) : quiet m -> (forall x, quiet (f x)) -> quiet (m ≫= f).
Proof.
  intros Hm Hf w Hw. destruct (Hm w Hw) as [H1 H2]. unfold mbind, M_bind. destruct (m w) as [w1 x]. simpl in *.
  destruct (Hf x w1 H1) as [H3 H4]. split; [done|]. by etrans.
Qed.

Definition silent (l : list (@Out)) : Prop := reported l = [] /\ absorbed l = [].

Lemma quiet_tell l : silent l -> quiet (tell l).
Proof.
  intros [H1 H2] w Hw. simpl. split.
  - destruct Hw as [W1 W2 W3 W4 W5 W6 W7]. constructor; simpl; try done.
    + intros r. rewrite reported_app, absorbed_app, H1, H2, !app_nil_r. apply W4.
    + intros r a Ha. destruct (W5 r a Ha) as []. constructor; rewrite ?reported_app, ?absorbed_app, ?H1, ?H2, ?app_nil_r; done.
    + by rewrite reported_app, H1, app_nil_r.
    + apply apart_app; [done..|]. intros r _. rewrite H1. apply not_elem_of_nil.
  - constructor; simpl; try done; intros; eauto; [by rewrite absorbed_app, H2, app_nil_r|].
    match goal with H : _ ∈ reported _ |- _ => rewrite reported_app, H1, app_nil_r in H; by left end.
Qed.

Lemma quiet_event t : quiet (event t).
Proof. by apply quiet_tell. Qed.
Lemma quiet_port p : quiet (port p).
Proof. by apply quiet_tell. Qed.

(** Changing what only the coordinator keeps. *)
Lemma quiet_own {A} (f : CWorld -> CWorld) (g : CWorld -> A) :
  (forall w, actors (f w) = actors w /\ byCall (f w) = byCall w /\ byChannel (f w) = byChannel w /\ nextRef (f w) = nextRef w /\ out (f w) = out w) ->
  quiet (fun w => (f w, g w)).
Proof.
  intros H w Hw. destruct (H w) as (H1 & H2 & H3 & H4 & H5). simpl. split.
  - destruct Hw. constructor; rewrite ?H1, ?H2, ?H3, ?H4, ?H5; done.
  - constructor; rewrite ?H1, ?H2, ?H3, ?H4, ?H5; try done; intros; eauto.
Qed.

Lemma ran_at_evolves id c w w' s : outside c = true -> ran_at id c w w' s -> evolves w w'.
Proof.
  intros Ho (w1 & r & a & Hw & He & Ha & _ & Hm & _ & _ & _ & ->). etrans; [done|].
  eapply work_evolves; try done. intros ch _. by rewrite Hm.
Qed.

Lemma quiet_Do id c : outside c = true -> quiet (Do id c).
Proof.
  intros Ho w Hw. pose proof (Do_spec id c w (outside_fit c Ho) Hw) as H. destruct (Do id c w) as [w' [s|]]; simpl.
  - destruct H as [H H']. split; [done|]. by eapply ran_at_evolves.
  - by destruct H as (? & ? & _).
Qed.

Lemma quiet_CallForChannel ch : quiet (CallForChannel ch).
Proof. intros w Hw. split; [by apply pause_ok|by apply pause_evolves]. Qed.
Lemma quiet_Owns ch : quiet (Owns ch).
Proof. intros w Hw. split; [by apply pause_ok|by apply pause_evolves]. Qed.

#[local] Hint Resolve quiet_nothing quiet_event quiet_port quiet_CallForChannel quiet_Owns : quiet.
#[local] Hint Extern 1 (quiet (Do _ _)) => apply quiet_Do; reflexivity : quiet.

Ltac quiet :=
  repeat first
    [ progress eauto 2 with quiet
    | apply quiet_then_quiet; [|intros ?]
    | match goal with |- quiet (match ?x with _ => _ end) => destruct x end
    | match goal with |- quiet (if ?x then _ else _) => destruct x end ].

Section ops.
Variable e : Env.

Lemma quiet_isMintedID id : quiet (isMintedID id).
Proof. unfold isMintedID. quiet. Qed.
Lemma quiet_isAgentOnly id : quiet (isAgentOnly id).
Proof. unfold isAgentOnly. quiet. Qed.
Lemma quiet_applyCallData id : quiet (applyCallData e id).
Proof. unfold applyCallData. quiet. Qed.
Lemma quiet_applyInboundUserData id ev : quiet (applyInboundUserData id ev).
Proof. unfold applyInboundUserData. quiet. Qed.

Lemma silent_omap {A} (f : A -> option (@Out)) l : (forall x o, f x = Some o -> silent [o]) -> silent (omap f l).
Proof.
  intros H. induction l as [|x l [IH1 IH2]]; [done|]. simpl. destruct (f x) as [o|] eqn:E; [|done]. destruct (H x o E) as [H1 H2].
  pose proof (reported_app [o] (omap f l)) as R. pose proof (absorbed_app [o] (omap f l)) as A'. rewrite H1, IH1 in R.
  rewrite H2, IH2 in A'. by split.
Qed.

Lemma silent_flat_map {A} (f : A -> list (@Out)) l : (forall x, silent (f x)) -> silent (flat_map f l).
Proof.
  intros H. induction l as [|x l [IH1 IH2]]; [done|]. simpl. destruct (H x) as [H1 H2].
  unfold silent. by rewrite reported_app, absorbed_app, H1, H2, IH1, IH2.
Qed.

Lemma quiet_announceMerge keep moved : quiet (announceMerge keep moved).
Proof.
  unfold announceMerge. apply quiet_then_quiet; [eauto with quiet|]. intros [s|]; [|eauto with quiet].
  apply quiet_tell, silent_omap. intros p o. destruct (PAgentID p); [|done]. by intros [= <-].
Qed.

Lemma quiet_tapAgentLeg id chs : quiet (tapAgentLeg e id chs).
Proof.
  unfold tapAgentLeg. quiet. apply quiet_tell, silent_flat_map. intros ch. destruct (String.eqb ch ""); [done|].
  apply silent_flat_map. intros p. destruct (PAgentID p); [|done]. destruct (String.eqb _ _); [|done]. by destruct (hasTranscripts e).
Qed.

Lemma quiet_announceAudience id : quiet (announceAudience e id).
Proof. unfold announceAudience. quiet. Qed.
Lemma quiet_noteBridge a b : quiet (noteBridge a b).
Proof. by apply quiet_own. Qed.
Lemma quiet_forgetBridge ch : quiet (forgetBridge ch).
Proof. intros w Hw. unfold forgetBridge. destruct (bridged w !! ch) as [p|]; [|done]. by apply (quiet_own (with_bridged _) (fun _ => ())). Qed.
Lemma quiet_forgetObserver ch : quiet (forgetObserver ch).
Proof. by apply (quiet_own (fun w => with_observers _ w) (fun _ => ())). Qed.
Lemma quiet_agentDidNotAnswer ev : quiet (agentDidNotAnswer e ev).
Proof. unfold agentDidNotAnswer. quiet. Qed.
Lemma quiet_offerToAgent ev : quiet (offerToAgent e ev).
Proof. unfold offerToAgent. quiet. Qed.
Lemma quiet_follow_tap ev : quiet (follow_tap e ev).
Proof. unfold follow_tap. quiet. Qed.
Lemma quiet_queue_ledger ev : quiet (queue_ledger e ev).
Proof. unfold queue_ledger. quiet. Qed.
Lemma quiet_agentLegEnded ch : quiet (agentLegEnded ch).
Proof. unfold agentLegEnded. quiet. Qed.

Lemma quiet_publishQueueCount id name : quiet (publishQueueCount id name).
Proof. intros w Hw. unfold publishQueueCount. destruct (waiting_count _ _) as [n l]. by apply quiet_event. Qed.
Lemma quiet_line_join c : quiet (line_join c).
Proof.
  intros w Hw. unfold line_join. destruct (waiting w !! _) as [o|]; [destruct (bool_decide _); [done|]|];
    by apply (quiet_own (with_waiting _) (fun _ => true)).
Qed.
Lemma quiet_line_leave ch : quiet (line_leave ch).
Proof.
  intros w Hw. unfold line_leave. destruct (waiting w !! ch) as [c|]; [|done]. by apply (quiet_own (with_waiting _) (fun _ => Some c)).
Qed.
#[local] Hint Resolve quiet_publishQueueCount quiet_line_join quiet_line_leave : quiet.

Lemma quiet_queueLeft ch ev : quiet (queueLeft ch ev).
Proof. unfold queueLeft. quiet. Qed.
Lemma quiet_queueJoined ev : quiet (queueJoined e ev).
Proof. unfold queueJoined. quiet. Qed.
Lemma quiet_trackQueue ev : quiet (trackQueue e ev).
Proof. unfold trackQueue. destruct (Kind ev); eauto using quiet_queueJoined, quiet_queueLeft with quiet. Qed.

Lemma quiet_which_kept a b : quiet (which_kept a b).
Proof. unfold which_kept. quiet; auto using quiet_isMintedID, quiet_isAgentOnly. Qed.

End ops.

(** ** Following a channel *)

Notation CActor := (Actor Command).

(** A channel is bound to a call on which its leg is up. *)
Definition up_on (ch : string) (w : CWorld) (r : nat) (a : CActor) : Prop :=
  byChannel w !! ch = Some r /\ actors w !! r = Some a /\ up ch a.

(** The same call: what is fixed when a call is made. *)
Record same_call (a a' : CActor) : Prop := mkSame {
  sm_id : CallID (base (call a')) = CallID (base (call a));
  sm_minted : IsMintedID (call a') = IsMintedID (call a);
  sm_type : LCallType (call a') = LCallType (call a)
}.

#[export] Instance same_call_refl : Reflexive same_call.
Proof. by intros a. Qed.
#[export] Instance same_call_trans : Transitive same_call.
Proof. intros a b c [] []. constructor; congruence. Qed.

Lemma later_same (a a' : CActor) : later a a' -> same_call a a'.
Proof. by intros []. Qed.

(** Legs that are up stay up, on the call they are on. *)
Definition keeps_up (w w' : CWorld) : Prop :=
  forall ch r a, up_on ch w r a -> exists a', up_on ch w' r a' /\ same_call a a'.

#[export] Instance keeps_up_refl : Reflexive keeps_up.
Proof. intros w ch r a H. by exists a. Qed.
#[export] Instance keeps_up_trans : Transitive keeps_up.
Proof. intros w1 w2 w3 H1 H2 ch r a H. destruct (H1 _ _ _ H) as (b & Hb & ?). destruct (H2 _ _ _ Hb) as (c & Hc & ?). exists c. split; [done|by etrans]. Qed.

Lemma evolves_keeps_up w w' : evolves w w' -> keeps_up w w'.
Proof.
  intros He ch r a (Hc & Ha & Hu). destruct (evolves_up _ _ _ _ _ He Ha Hu) as (a' & Ha' & Hl & Hu'). exists a'.
  split; [|by apply later_same]. split; [|done]. apply (ev_keep _ _ He); [done|by exists a'].
Qed.

Definition ran (c : Command) (r : nat) (a : CActor) (w : CWorld) : CActor :=
  mkActor (ranCall (run c r (tokens w) (call a))) (mailbox a) (quit a).

Lemma work_actors (w : CWorld) r a c : actors (work r a (MDo c) w) = <[r := ran c r a w]> (actors w).
Proof. done. Qed.
Lemma work_channels (w : CWorld) r a c : byChannel (work r a (MDo c) w) = byChannel w.
Proof. done. Qed.

Lemma ran_same c r a w : same_call a (ran c r a w).
Proof. constructor; [apply run_id|apply run_minted|apply run_type]. Qed.

Lemma ran_up c r a w ch : mailbox a = [] -> up ch a -> up ch (ran c r a w).
Proof. intros Hm [Hq Hact Hmail]. constructor; [done|by apply run_active|]. unfold ran. simpl. by rewrite Hm. Qed.

(** A closure run on a call without mail. *)
Lemma run_keeps_up (w : CWorld) r a c : actors w !! r = Some a -> mailbox a = [] -> keeps_up w (work r a (MDo c) w).
Proof.
  intros Ha Hm ch r' b (Hc & Hb & Hu). unfold up_on. rewrite work_actors, work_channels. destruct (decide (r' = r)) as [->|Hne].
  - assert (b = a) as -> by congruence. exists (ran c r a w). rewrite lookup_insert_eq. split; [|apply ran_same]. split; [done|]. split; [done|]. by apply ran_up.
  - exists b. by rewrite lookup_insert_ne.
Qed.

(** A call that runs, and will as far as its mail says. *)
Definition alive (w : CWorld) (r : nat) (id : uuid) : Prop :=
  exists a, actors w !! r = Some a /\ CallID (base (call a)) = id /\ ((exists ch, up ch a) \/ (quit a = false /\ no_events a)).

Lemma evolves_alive w w' r id : evolves w w' -> alive w r id -> alive w' r id.
Proof.
  intros He (a & Ha & Hid & Hl).
  assert (Hs : is_Some (actors w' !! r)).
  { destruct Hl as [[ch Hu]|[Hq Hn]]; [by apply (ev_up _ _ He r a ch)|by apply (ev_idle _ _ He r a)]. }
  destruct Hs as [a' Ha']. destruct (ev_actor _ _ He r a' Ha') as (b & Hb & Hlt). simplify_eq. exists a'.
  split; [done|]. split; [by apply Hlt|].
  destruct Hl as [[ch Hu]|[Hq Hn]]; [left; exists ch; by apply Hlt|right]. split; [by apply Hlt|]. by eapply lt_events.
Qed.

Lemma alive_runs w r id : alive w r id -> exists a, actors w !! r = Some a /\ CallID (base (call a)) = id /\ quit a = false.
Proof. intros (a & Ha & Hid & Hl). exists a. split; [done|]. split; [done|]. by destruct Hl as [[ch []]|[]]. Qed.

Lemma up_on_alive ch w r a : up_on ch w r a -> alive w r (CallID (base (call a))).
Proof. intros (_ & Ha & Hu). exists a. split; [done|]. split; [done|]. left. by exists ch. Qed.

(** A closure sent to a call that is alive is run, on that call. *)
Lemma Do_alive id c w r : fit c -> registry_ok w -> alive w r id -> exists s w1 a w',
  Do id c w = (w', Some s) /\ registry_ok w' /\ registry_ok w1 /\ evolves w w1 /\ actors w1 !! r = Some a /\ quit a = false /\
  CallID (base (call a)) = id /\ mailbox a = [] /\ seenRef s = r /\ before s = call a /\
  after s = ranCall (run c r (tokens w1) (call a)) /\ w' = work r a (MDo c) w1.
Proof.
  intros Hf Hw Hal. pose proof (Do_spec id c w Hf Hw) as H. destruct (Do id c w) as [w' [s|]].
  - destruct H as [(w1 & r1 & a & Hw1 & He & Ha & Hid & Hm & Hr & Hb & Haf & ->) Hok].
    destruct (alive_runs _ _ _ (evolves_alive _ _ _ _ He Hal)) as (b & Hb' & Hid' & Hq).
    assert (r1 = r) as -> by (eapply actor_unique; [exact Hw1|done|done|congruence]). assert (b = a) as -> by congruence.
    exists s, w1, a, (work r a (MDo c) w1). done.
  - destruct H as (Hok & He & Hn). destruct (alive_runs _ _ _ (evolves_alive _ _ _ _ He Hal)) as (b & Hb & Hid & Hq).
    specialize (Hn r b Hb Hid). congruence.
Qed.

(** ** Adopting a channel *)

Lemma add_call_in_order w c : in_order w -> byCall w !! CallID (base c) = None -> legs c = [] -> State (base c) <> CallEnded ->
  in_order (add_call c w).
Proof.
  intros [Hw Hb Hm] Hn Hl Hs. constructor; [by apply add_call_ok|..].
  - intros r a. simpl. rewrite lookup_insert_Some. intros [[<- <-]|[Hne Ha]] Hq ch; [|by apply Hb].
    simpl. unfold channels. rewrite Hl. simpl. split; [by intros ?%not_elem_of_nil|]. intros E.
    destruct (ro_chan _ Hw ch _ E) as [a Ha]. assert (nextRef w < nextRef w)%nat; [|lia]. apply (ro_fresh _ Hw). left. by exists a.
  - intros r a ev. simpl. rewrite lookup_insert_Some. intros [[<- <-]|[Hne Ha]] Hq; [by intros ?%not_elem_of_nil|]. by apply Hm.
Qed.

Lemma add_call_keeps_up w c : registry_ok w -> keeps_up w (add_call c w).
Proof.
  intros Hw ch r a (Hc & Ha & Hu). exists a. split; [|done]. split; [done|]. split; [|done]. simpl.
  rewrite lookup_insert_ne; [done|]. intros <-. assert (nextRef w < nextRef w)%nat; [|lia]. apply (ro_fresh _ Hw). left. by exists a.
Qed.

(** Between the binding of a channel and its leg: every other channel is in
    order, and no running call has a leg on this one. *)
Record half_bound (w : CWorld) (ch : string) (r : nat) : Prop := mkHalf {
  hb_ok : registry_ok w;
  hb_others : forall r' a, actors w !! r' = Some a -> quit a = false -> forall ch', ch' <> ch ->
    ch' ∈ channels (call a) <-> byChannel w !! ch' = Some r';
  hb_none : forall r' a, actors w !! r' = Some a -> quit a = false -> ch ∉ channels (call a);
  hb_chan : forall r', byChannel w !! ch = Some r' -> r' = r;
  hb_mailed : mailed w
}.

Lemma evolves_half_bound w w' ch r : registry_ok w' -> evolves w w' -> half_bound w ch r -> half_bound w' ch r.
Proof.
  intros Hw' He [Hw Ho Hn Hc Hm]. constructor; [done|..].
  - intros r' a' Ha' Hq ch' Hne. destruct (running_before _ _ _ _ He Ha' Hq) as (a & Ha & Hl & Hqa & ->).
    rewrite (Ho r' a Ha Hqa ch' Hne). split; [intros E; apply (ev_keep _ _ He ch' r' E); by exists a'|apply (ev_chan _ _ He)].
  - intros r' a' Ha' Hq. destruct (running_before _ _ _ _ He Ha' Hq) as (a & Ha & Hl & Hqa & ->). by apply (Hn r').
  - intros r' E. apply Hc. by apply (ev_chan _ _ He).
  - intros r' a' ev Ha' Hq Hin. destruct (running_before _ _ _ _ He Ha' Hq) as (a & Ha & Hl & Hqa & _).
    apply (ev_keep _ _ He); [|by exists a']. apply (Hm r' a ev Ha Hqa). by apply (lt_mail _ _ Hl).
Qed.

Lemma bind_half_bound w ch r now a : in_order w -> actors w !! r = Some a -> byChannel w !! ch = None ->
  half_bound (bind ch r now w) ch r.
Proof.
  intros [Hw Hb Hm] Ha Hn. constructor; simpl; [by eapply bind_ok|..].
  - intros r' b Hb' Hq ch' Hne. rewrite lookup_insert_ne by done. by apply Hb.
  - intros r' b Hb' Hq Hin. apply (Hb r' b Hb' Hq) in Hin. congruence.
  - intros r'. rewrite lookup_insert_eq. congruence.
  - intros r' b ev Hb' Hq Hin. simpl. specialize (Hm r' b ev Hb' Hq Hin). rewrite lookup_insert_ne; [done|]. congruence.
Qed.

Lemma bind_keeps_up w ch r now : byChannel w !! ch = None -> keeps_up w (bind ch r now w).
Proof.
  intros Hn ch' r' a (Hc & Ha & Hu). exists a. split; [|done]. split; [|done]. simpl. rewrite lookup_insert_ne; [done|]. congruence.
Qed.

Section adopt.
Variable e : Env.

Lemma quiet_announce_leg id ev agent s : quiet (announce_leg id ev agent s).
Proof. unfold announce_leg. quiet. Qed.

Lemma quiet_then {A} (m : M A) (w w0 : CWorld) : in_order w -> keeps_up w0 w -> quiet m -> in_order (m w).1 /\ keeps_up w0 (m w).1.
Proof.
  intros Hw Hk Hm. destruct (Hm w (io_ok _ Hw)) as [H1 H2]. split; [by eapply evolves_in_order|].
  etrans; [done|]. by apply evolves_keeps_up.
Qed.

(** The leg joins the call its channel is bound to. *)
Lemma addParty_spec id ev agent w r a : half_bound w (EvChannelID ev) r -> actors w !! r = Some a ->
  CallID (base (call a)) = id -> byChannel w !! EvChannelID ev = Some r ->
  in_order (addParty e id ev agent w).1 /\ keeps_up w (addParty e id ev agent w).1 /\
  forall r' a', byChannel (addParty e id ev agent w).1 !! EvChannelID ev = Some r' -> actors (addParty e id ev agent w).1 !! r' = Some a' ->
    CallID (base (call a')) = id.
Proof.
  intros Hh Ha Hid Hch.
  set (good := fun w2 : CWorld => forall r' a', byChannel w2 !! EvChannelID ev = Some r' -> actors w2 !! r' = Some a' -> CallID (base (call a')) = id).
  change (in_order (addParty e id ev agent w).1 /\ keeps_up w (addParty e id ev agent w).1 /\ good (addParty e id ev agent w).1).
  unfold addParty. rewrite handler_run. set (cmd := CAddParty ev _ _ _ _).
  pose proof (Do_spec id cmd w (I : fit cmd) (hb_ok _ _ _ Hh)) as H.
  destruct (Do id cmd w) as [w2 o]. simpl.
  assert (Hgoal : in_order w2 /\ keeps_up w w2 /\ good w2).
  2:{ destruct Hgoal as (G1 & G2 & G3). pose proof (quiet_announce_leg id ev agent o) as Hq.
      destruct (quiet_then _ w2 w G1 G2 Hq) as [H1 H2]. split; [done|]. split; [done|].
      destruct (Hq w2 (io_ok _ G1)) as [_ He]. intros r' a' Hc' Ha'.
      destruct (ev_actor _ _ He r' a' Ha') as (b & Hb & Hl). rewrite (lt_id _ _ Hl). apply (G3 r'); [|done]. by apply (ev_chan _ _ He). }
  unfold good. clear good.
  destruct o as [s|].
  - destruct H as [(w1 & r1 & a1 & Hw1 & He & Ha1 & Hid1 & Hm1 & _ & _ & _ & ->) Hok].
    assert (r1 = r) as ->.
    { destruct (ev_actor _ _ He r1 a1 Ha1) as (b & Hb & Hl). eapply (actor_unique w); [apply Hh|done|done|].
      rewrite <- (lt_id _ _ Hl). congruence. }
    pose proof (evolves_half_bound _ _ _ _ Hw1 He Hh) as [_ Ho Hnone Hc1 Hm].
    assert (Hch1 : byChannel w1 !! EvChannelID ev = Some r) by (apply (ev_keep _ _ He); [done|by exists a1]).
    assert (Hk : keeps_up w (work r a1 (MDo cmd) w1)).
    { etrans; [by apply evolves_keeps_up|]. by apply run_keeps_up. }
    split; [|split; [done|]].
    + constructor; [done|..].
      * intros r' b. simpl. rewrite lookup_insert_Some. intros [[<- <-]|[Hne Hb]] Hq ch; simpl in *.
        -- assert (Hnl : leg_at (call a1) (EvChannelID ev) = None) by (apply leg_at_None; by apply (Hnone r)).
           destruct (join_leg_new ev (ePartyID e) ((fun a => a.1.1) <$> agent) (match agent with Some a => a.1.2 | None => ""%string end)
             (match agent with Some a => a.2 | None => false end) (call a1) Hnl) as (p & El & Hp & _).
           unfold channels. rewrite El, fmap_app, elem_of_app. simpl. rewrite elem_of_cons, elem_of_nil, Hp.
           destruct (decide (ch = EvChannelID ev)) as [->|Hne]; [tauto|].
           specialize (Ho r a1 Ha1 Hq ch Hne). unfold channels in Ho. tauto.
        -- destruct (decide (ch = EvChannelID ev)) as [->|Hnc]; [|by apply Ho].
           split; [intros Hin; by apply (Hnone r' b Hb Hq) in Hin|]. intros E. congruence.
      * intros r' b ev'. simpl. rewrite lookup_insert_Some. intros [[<- <-]|[Hne Hb]] Hq; simpl; [by rewrite Hm1; intros ?%not_elem_of_nil|]. by apply Hm.
    + intros r' b. simpl. rewrite Hch1. intros [= <-]. rewrite lookup_insert_eq. intros [= <-]. simpl.
      pose proof (run_id cmd r (tokens w1) (call a1)) as Hri. simpl in Hri. congruence.
  - destruct H as (Hok & He & Hnr). pose proof (evolves_half_bound _ _ _ _ Hok He Hh) as [_ Ho Hnone Hc1 Hm].
    assert (Hrid : forall b, actors w2 !! r = Some b -> CallID (base (call b)) = id).
    { intros b Hb. destruct (ev_actor _ _ He r b Hb) as (c & Hc & Hl). rewrite (lt_id _ _ Hl). congruence. }
    split; [|split; [by apply evolves_keeps_up|]].
    + constructor; [done| |done]. intros r' b Hb Hq ch. destruct (decide (ch = EvChannelID ev)) as [->|Hne]; [|by apply Ho].
      split; [intros Hin; by apply (Hnone r' b Hb Hq) in Hin|]. intros E. apply Hc1 in E as ->.
      specialize (Hnr r b Hb (Hrid b Hb)). congruence.
    + intros r' b Hc' Hb. apply Hc1 in Hc' as ->. by apply Hrid.
Qed.

(** What adopting a channel onto the call [id] leaves. *)
Definition adopted (ev : SwitchEvent) (id : uuid) (w0 w : CWorld) : Prop :=
  in_order w /\ keeps_up w0 w /\
  forall r a, byChannel w !! EvChannelID ev = Some r -> actors w !! r = Some a -> CallID (base (call a)) = id.

Lemma adopted_from ev id w0 w1 w : keeps_up w0 w1 -> adopted ev id w1 w -> adopted ev id w0 w.
Proof. intros Hk (H1 & H2 & H3). split; [done|]. split; [by etrans|done]. Qed.

(** Binding the channel and adding its leg, or finding the call gone. *)
Lemma bind_and_join (stop : bool) id ev agent w : in_order w -> byChannel w !! EvChannelID ev = None ->
  adopted ev id w ((ok ← BindChannel (EvChannelID ev) id (eNow e);
                    if stop && negb ok then mret () else addParty e id ev agent) w).1.
Proof.
  intros Hw Hn. rewrite handler_run. pose proof (BindChannel_spec (EvChannelID ev) id (eNow e) w (io_ok _ Hw)) as H.
  destruct (BindChannel _ _ _ w) as [w' [|]]; cbn [fst snd].
  - rewrite andb_false_r. destruct H as (w1 & r & a & He & Hw1 & _ & Ha & Hid & _ & ->).
    assert (Hn1 : byChannel w1 !! EvChannelID ev = None).
    { destruct (byChannel w1 !! EvChannelID ev) as [r'|] eqn:E; [|done]. apply (ev_chan _ _ He) in E. congruence. }
    assert (Hk : keeps_up w (bind (EvChannelID ev) r (eNow e) w1)).
    { etrans; [by apply evolves_keeps_up|]. by apply bind_keeps_up. }
    eapply adopted_from; [exact Hk|]. apply (addParty_spec id ev agent _ r a); try done.
    + eapply bind_half_bound; [by eapply evolves_in_order|done|done].
    + simpl. by rewrite lookup_insert_eq.
  - destruct H as (Hw' & He & Hno).
    assert (Hb : forall w2, registry_ok w2 -> evolves w' w2 -> adopted ev id w w2).
    { intros w2 Hw2 He2. assert (He' : evolves w w2) by by etrans. split; [by eapply evolves_in_order|].
      split; [by apply evolves_keeps_up|]. intros r a Hc. apply (ev_chan _ _ He') in Hc. congruence. }
    destruct stop; simpl; [by apply Hb|]. unfold addParty. rewrite handler_run. set (cmd := CAddParty ev _ _ _ _).
    pose proof (Do_spec id cmd w' (I : fit cmd) Hw') as Hd. destruct (Do id cmd w') as [w2 [s|]]; simpl.
    + destruct Hd as [(w1 & r & a & _ & He1 & Ha & Hid & _) _]. destruct (ev_actor _ _ He1 r a Ha) as (b & Hb' & Hl).
      destruct (Hno r b Hb'). rewrite <- (lt_id _ _ Hl). done.
    + destruct Hd as (Hok & He2 & _). by apply Hb.
Qed.

Lemma quiet_unbound {A} (m : M A) (w0 w : CWorld) ch : quiet m -> in_order w -> keeps_up w0 w -> byChannel w !! ch = None ->
  in_order (m w).1 /\ keeps_up w0 (m w).1 /\ byChannel (m w).1 !! ch = None.
Proof.
  intros Hm Hw Hk Hn. destruct (quiet_then m w w0 Hw Hk Hm) as [H1 H2]. split; [done|]. split; [done|].
  destruct (Hm w (io_ok _ Hw)) as [_ He]. destruct (byChannel (m w).1 !! ch) as [r|] eqn:E; [|done].
  apply (ev_chan _ _ He) in E. congruence.
Qed.

Lemma bind_or_stop id ev agent w : in_order w -> byChannel w !! EvChannelID ev = None ->
  adopted ev id w ((ok ← BindChannel (EvChannelID ev) id (eNow e);
                    if ok : bool then addParty e id ev agent else mret ()) w).1.
Proof.
  intros Hw Hn. pose proof (bind_and_join true id ev agent w Hw Hn) as H. rewrite handler_run in *.
  by destruct (BindChannel _ _ _ w).2.
Qed.

Lemma adopt_as_spec id isMinted ev agent w : in_order w -> byChannel w !! EvChannelID ev = None ->
  adopted ev id w (adopt_as e id isMinted ev agent w).1.
Proof.
  intros Hw Hn. unfold adopt_as. rewrite handler_run.
  pose proof (CreateCall_spec id (callTypeOf ev) (Variable_ ev "aicc_language") isMinted (OccurredAt ev) w (io_ok _ Hw)) as H.
  destruct (CreateCall _ _ _ _ _ w) as [w' [|]]; cbn [fst snd].
  - destruct H as (w1 & He & Hw1 & Hno & _ & ->).
    assert (Hn1 : byChannel w1 !! EvChannelID ev = None).
    { destruct (byChannel w1 !! EvChannelID ev) as [r'|] eqn:E; [|done]. apply (ev_chan _ _ He) in E. congruence. }
    set (c := mkLive _ _ _ _ _ _ _).
    assert (H2 : in_order (add_call c w1) /\ keeps_up w (add_call c w1) /\ byChannel (add_call c w1) !! EvChannelID ev = None).
    { split; [apply add_call_in_order; [by eapply evolves_in_order|done..]|]. split; [|done].
      etrans; [by apply evolves_keeps_up|by apply add_call_keeps_up]. }
    generalize dependent (add_call c w1). intros w2 H2. clear dependent w1. rewrite !(handler_run (applyCallData e id)), !(handler_run (applyInboundUserData id ev)).
    destruct H2 as (H1 & H2 & H3).
    destruct (quiet_unbound _ w w2 _ (quiet_applyCallData e id) H1 H2 H3) as (H4 & H5 & H6).
    destruct (quiet_unbound _ w _ _ (quiet_applyInboundUserData id ev) H4 H5 H6) as (H7 & H8 & H9).
    eapply adopted_from; [exact H8|]. by apply bind_or_stop.
  - destruct H as (Hw' & He & _). rewrite handler_run.
    assert (Hn' : byChannel w' !! EvChannelID ev = None).
    { destruct (byChannel w' !! EvChannelID ev) as [r'|] eqn:E; [|done]. apply (ev_chan _ _ He) in E. congruence. }
    eapply adopted_from; [by apply evolves_keeps_up|].
    pose proof (bind_and_join false id ev agent w') as H. rewrite handler_run in H. apply H; [by eapply evolves_in_order|done].
Qed.

(** The call an event names. *)
Definition named (ev : SwitchEvent) : option uuid :=
  if String.eqb (Variable_ ev "aicc_call_id") "" then None else eParse e (Variable_ ev "aicc_call_id").

(** The channel's call, when it is not the one the event names, is one the leg
    is up on. *)
Definition ready (ev : SwitchEvent) (w : CWorld) : Prop :=
  forall id r a, named ev = Some id -> id <> uuid_Nil -> byChannel w !! EvChannelID ev = Some r -> actors w !! r = Some a ->
    CallID (base (call a)) = id \/ up (EvChannelID ev) a.

Lemma ready_evolves ev w w' : evolves w w' -> ready ev w -> ready ev w'.
Proof.
  intros He H id r a' Hn Hid Hc Ha'. destruct (ev_actor _ _ He r a' Ha') as (a & Ha & Hl).
  destruct (H id r a Hn Hid (ev_chan _ _ He _ _ Hc) Ha) as [E|Hu]; [left; by rewrite (lt_id _ _ Hl)|right; by apply Hl].
Qed.

Lemma adopt_spec ev w : in_order w -> in_order (adopt e ev w).1 /\ keeps_up w (adopt e ev w).1 /\
  (ready ev w -> ready ev (adopt e ev w).1).
Proof.
  intros Hw. unfold adopt. destruct (String.eqb_spec (EvChannelID ev) "") as [He|He]; [done|].
  rewrite handler_run. destruct (quiet_then _ w w Hw ltac:(done) (quiet_Owns (EvChannelID ev))) as [H1 H2].
  destruct (quiet_Owns (EvChannelID ev) w (io_ok _ Hw)) as [_ Hev]. unfold Owns in *. simpl in *.
  case_bool_decide as Ho.
  { simpl. split; [done|]. split; [done|]. by apply ready_evolves. }
  assert (Hn : byChannel (pause w) !! EvChannelID ev = None) by by apply eq_None_not_Some.
  fold (named ev). set (nil_ := match named ev with Some id => _ | None => _ end). clear Ho Hev. cbv zeta. revert H1 H2 Hn.
  generalize (pause w). intros w1 H1 H2 Hn. rewrite handler_run.
  set (q := (if nil_ && _ then CallForChannel _ else mret None) : M (option uuid)).
  assert (Hq : quiet q) by (subst q; destruct (nil_ && _); [apply quiet_CallForChannel|apply quiet_nothing]).
  assert (Hmem : nil_ = false -> (q w1).2 = None) by (subst q; by intros ->).
  destruct (quiet_unbound q w w1 _ Hq H1 H2 Hn) as (H4 & H5 & H6). destruct (q w1) as [w2 member]. cbn [fst snd] in *.
  assert (Hnil : forall id, named ev = Some id -> id <> uuid_Nil -> nil_ = false).
  { intros id E Hid. subst nil_. rewrite E. by apply bool_decide_eq_false. }
  destruct member as [member|].
  - destruct (adopted_from _ _ w _ _ H5 (bind_or_stop member ev (agentForLeg e ev) w2 H4 H6)) as (G1 & G2 & _).
    split; [done|]. split; [done|]. intros _ id r a E Hid. by specialize (Hmem (Hnil id E Hid)).
  - set (id0 := if nil_ then _ else _).
    destruct (adopted_from _ _ w _ _ H5 (adopt_as_spec id0 (bool_decide (is_Some (named ev))) ev (agentForLeg e ev) w2 H4 H6)) as (G1 & G2 & G3).
    split; [done|]. split; [done|]. intros _ id r a E Hid Hc Ha. left. rewrite (G3 r a Hc Ha). subst id0. by rewrite (Hnil id E Hid), E.
Qed.

End adopt.

End CoordinatorSafety.
