(* ===== verification/CoordinatorMerge.v ===== *)
(** * Two calls made one

    What [Coordinator.merge] leaves, whatever the other goroutines do between
    its accesses: the legs of the two calls are on one, and found there. *)

From S2P Require Import Prelude GoText Calendar Schedule Call TelephonyData Registry RegistryFacts Coordinator CoordinatorFacts CoordinatorSafety.

Module CoordinatorMerge.
Import GoText Call TelephonyData Registry RegistryFacts Coordinator CoordinatorFacts CoordinatorSafety.

Notation CActor := (Actor Command).

(** Between the moving of the legs and the end of the absorbed call. [todo] are
    the channels still to be bound to the call that is kept. *)
Record merging (rk ra : nat) (keep absorb : uuid) (w0 : CWorld) (todo : list string) (w : CWorld) : Prop := mkMerging {
  mg_ok : registry_ok w;
  mg_keep : forall a, actors w !! rk = Some a -> quit a = false -> forall ch,
    ch ∈ channels (call a) <-> byChannel w !! ch = Some rk \/ ch ∈ todo;
  mg_other : forall r a, r <> rk -> r <> ra -> actors w !! r = Some a -> quit a = false -> forall ch,
    ch ∈ channels (call a) <-> byChannel w !! ch = Some r;
  mg_moved : forall ch r, ch ∈ todo -> byChannel w !! ch = Some r -> r = ra \/ r = rk;
  mg_absorb : exists a, actors w !! ra = Some a /\ quit a = false /\ no_events a /\ CallID (base (call a)) = absorb;
  mg_mailed : mailed w;
  mg_id : forall r a, actors w !! r = Some a -> CallID (base (call a)) = keep -> r = rk;
  mg_up : forall ch r a, up_on ch w0 r a -> r <> ra -> exists a', up_on ch w r a' /\ same_call a a';
  mg_same : forall a a', actors w0 !! rk = Some a -> actors w !! rk = Some a' -> same_call a a';
  mg_joined : forall ch a, up_on ch w0 ra a -> alive w0 rk keep ->
    exists a', actors w !! rk = Some a' /\ up ch a' /\ (byChannel w !! ch = Some rk \/ ch ∈ todo)
}.

Section merge.
Variables (rk ra : nat) (keep absorb : uuid) (w0 : CWorld).
Hypothesis Hne : rk <> ra.
Hypothesis Hk0 : exists a, actors w0 !! rk = Some a /\ CallID (base (call a)) = keep.
#[local] Notation merging := (merging rk ra keep absorb w0).

Lemma merging_evolves todo w w' : registry_ok w' -> evolves w w' -> merging todo w -> merging todo w'.
Proof using.
  intros Hw' He [Hw Hk Ho Hm Ha Hmail Hid Hup Hs Hj]. constructor; [done|..].
  - intros a' Ha' Hq ch. destruct (running_before _ _ _ _ He Ha' Hq) as (a & Ha1 & Hl & Hqa & ->). rewrite (Hk a Ha1 Hqa).
    split; (intros [E|?]; [left|by right]); [apply (ev_keep _ _ He); [done|by exists a']|by apply (ev_chan _ _ He)].
  - intros r a' Hr1 Hr2 Ha' Hq ch. destruct (running_before _ _ _ _ He Ha' Hq) as (a & Ha1 & Hl & Hqa & ->). rewrite (Ho r a Hr1 Hr2 Ha1 Hqa).
    split; intros E; [apply (ev_keep _ _ He); [done|by exists a']|by apply (ev_chan _ _ He)].
  - intros ch r Hin E. apply (Hm ch); [done|]. by apply (ev_chan _ _ He).
  - destruct Ha as (a & Ha & Hq & Hn & Hi). destruct (ev_idle _ _ He ra a Ha Hq Hn) as [a' Ha'].
    destruct (ev_actor _ _ He ra a' Ha') as (b & Hb & Hl). simplify_eq. exists a'. split; [done|]. split; [by apply Hl|].
    split; [by eapply lt_events|]. by apply Hl.
  - intros r a' ev Ha' Hq Hin. destruct (running_before _ _ _ _ He Ha' Hq) as (a & Ha1 & Hl & Hqa & _).
    apply (ev_keep _ _ He); [|by exists a']. apply (Hmail r a ev Ha1 Hqa). by apply (lt_mail _ _ Hl).
  - intros r a' Ha' E. destruct (ev_actor _ _ He r a' Ha') as (a & Ha1 & Hl). apply (Hid r a); [done|]. by rewrite <- (lt_id _ _ Hl).
  - intros ch r a Hu Hr. destruct (Hup ch r a Hu Hr) as (a1 & Hu1 & Hs1). destruct (evolves_keeps_up _ _ He ch r a1 Hu1) as (a2 & ? & ?).
    exists a2. split; [done|by etrans].
  - intros a a' Ha1 Ha'. destruct (ev_actor _ _ He rk a' Ha') as (b & Hb & Hl). etrans; [by apply (Hs a b)|by apply later_same].
  - intros ch a Hu Hal. destruct (Hj ch a Hu Hal) as (a1 & Ha1 & Hu1 & Hc). destruct (evolves_up _ _ _ _ _ He Ha1 Hu1) as (a2 & Ha2 & _ & Hu2).
    exists a2. split; [done|]. split; [done|]. destruct Hc as [Hc|?]; [left|by right]. apply (ev_keep _ _ He); [done|by exists a2].
Qed.

Lemma merging_quiet {A} (m : M A) todo w : quiet m -> merging todo w -> merging todo (m w).1.
Proof using. intros Hm Hw. destruct (Hm w (mg_ok _ _ _ _ _ _ _ Hw)). by eapply merging_evolves. Qed.

Lemma merging_bind ch now todo w a : merging (ch :: todo) w -> actors w !! rk = Some a -> merging todo (bind ch rk now w).
Proof using Hne.
  intros [Hw Hk Ho Hm Ha Hmail Hid Hup Hs Hj] Hrk.
  assert (Hch : forall r, byChannel w !! ch = Some r -> r = ra \/ r = rk) by (intros r; apply Hm; left).
  assert (Hsame : forall r, r <> rk -> r <> ra -> forall c, byChannel w !! c = Some r <-> byChannel (bind ch rk now w) !! c = Some r).
  { intros r Hr1 Hr2 c. simpl. destruct (decide (c = ch)) as [->|Hc]; [rewrite lookup_insert_eq|by rewrite lookup_insert_ne].
    split; [intros [?|?]%Hch; done|congruence]. }
  assert (Hmine : forall c, byChannel w !! c = Some rk -> byChannel (bind ch rk now w) !! c = Some rk).
  { intros c E. simpl. destruct (decide (c = ch)) as [->|Hc]; [by rewrite lookup_insert_eq|by rewrite lookup_insert_ne]. }
  constructor; try done; [by eapply bind_ok|..].
  - intros b Hb Hq c. rewrite (Hk b Hb Hq c), elem_of_cons. simpl. destruct (decide (c = ch)) as [->|Hc].
    + rewrite lookup_insert_eq. tauto.
    + rewrite lookup_insert_ne by done. tauto.
  - intros r b Hr1 Hr2 Hb Hq c. rewrite <- Hsame by done. by apply Ho.
  - intros c r Hin. simpl. rewrite lookup_insert_Some. intros [[<- <-]|[_ E]]; [by right|]. apply (Hm c); [by right|done].
  - intros r b ev Hb Hq Hin. specialize (Hmail r b ev Hb Hq Hin). destruct (decide (r = rk)) as [->|Hr1]; [by apply Hmine|].
    destruct (decide (r = ra)) as [->|Hr2]; [|by apply Hsame]. destruct Ha as (a' & Ha' & _ & Hn & _). assert (b = a') as -> by (simpl in Hb; congruence).
    rewrite no_events_spec in Hn. by apply Hn in Hin.
  - intros c r b Hu Hr. destruct (Hup c r b Hu Hr) as (b1 & (Hc1 & Hb1 & Hu1) & Hs1). exists b1. split; [|done]. split; [|done].
    destruct (decide (r = rk)) as [->|Hr1]; [by apply Hmine|by apply Hsame].
  - intros c b Hu Hal. destruct (Hj c b Hu Hal) as (a1 & Ha1 & Hu1 & Hc). exists a1. split; [done|]. split; [done|].
    destruct Hc as [Hc|Hc]; [left; by apply Hmine|]. apply elem_of_cons in Hc as [->|?]; [|by right]. left. simpl. by rewrite lookup_insert_eq.
Qed.

(** No call of the identity is left to bind to. *)
Lemma merging_gone ch todo w : merging (ch :: todo) w -> (forall r a, actors w !! r = Some a -> CallID (base (call a)) <> keep) ->
  merging todo w.
Proof using Hk0.
  intros [Hw Hk Ho Hm Ha Hmail Hid Hup Hs Hj] Hno. destruct Hk0 as (a0 & Ha0 & Hid0).
  assert (Hnone : forall a, actors w !! rk = Some a -> False).
  { intros a E. apply (Hno rk a E). rewrite (sm_id _ _ (Hs a0 a Ha0 E)). done. }
  constructor; try done.
  - intros a E. by destruct (Hnone a E).
  - intros c r Hin. apply Hm. by right.
  - intros c a Hu Hal. destruct (Hj c a Hu Hal) as (a1 & E & _). by destruct (Hnone a1 E).
Qed.

Lemma rebind_spec e (moved : list Party) w : merging (ChannelID <$> moved) w -> merging [] (rebind e keep moved w).1.
Proof using Hk0 Hne.
  revert w. induction moved as [|p moved IH]; intros w Hw; [done|]. cbn [rebind]. rewrite handler_run. apply IH. rewrite fmap_cons in Hw.
  pose proof (BindChannel_spec (ChannelID p) keep (eNow e) w (mg_ok _ _ _ _ _ _ _ Hw)) as H.
  destruct (BindChannel _ _ _ w) as [w' [|]]; simpl.
  - destruct H as (w1 & r & a & He & Hw1 & _ & Ha & Hid & _ & ->). pose proof (merging_evolves _ _ _ Hw1 He Hw) as Hm.
    assert (r = rk) as -> by exact (mg_id _ _ _ _ _ _ _ Hm r a Ha Hid). eapply merging_bind; [exact Hm|exact Ha].
  - destruct H as (Hw' & He & Hno). eapply merging_gone; [by eapply merging_evolves|done].
Qed.

(** What merging leaves of the legs that were up. *)
Record merged (w : CWorld) : Prop := mkMerged {
  md_order : in_order w;
  md_other : forall ch r a, up_on ch w0 r a -> r <> ra -> exists a', up_on ch w r a' /\ same_call a a';
  md_joined : forall ch a ak, up_on ch w0 ra a -> alive w0 rk keep -> actors w0 !! rk = Some ak ->
    exists a', up_on ch w rk a' /\ same_call ak a';
  md_retired : forall a, actors w !! ra = Some a -> quit a = true;
  md_fresh : (ra < nextRef w)%nat;
  md_unreported : ra ∉ reported (out w)
}.

Lemma merged_evolves w w' : registry_ok w' -> evolves w w' -> merged w -> merged w'.
Proof using.
  intros Hw' He [Ho Hot Hj Hr Hf Hun]. constructor; [by eapply evolves_in_order|..].
  - intros ch r a Hu Hra. destruct (Hot ch r a Hu Hra) as (b & Hb & Hs). destruct (evolves_keeps_up _ _ He _ _ _ Hb) as (c & Hc & Hs').
    exists c. split; [done|by etrans].
  - intros ch a ak Hu Hal Hak. destruct (Hj ch a ak Hu Hal Hak) as (b & Hb & Hs). destruct (evolves_keeps_up _ _ He _ _ _ Hb) as (c & Hc & Hs').
    exists c. split; [done|by etrans].
  - intros a Ha. destruct (ev_actor _ _ He ra a Ha) as (b & Hb & Hl). apply (lt_quit _ _ Hl). by apply Hr.
  - by rewrite (ev_next _ _ He).
  - intros Hin. destruct (ev_reported _ _ He ra Hin) as [?|(a & Ha & Hq)]; [done|]. rewrite (Hr a Ha) in Hq. done.
Qed.

Lemma merging_Retire w : merging [] w -> merged (Retire absorb w).
Proof using Hne.
  intros Hw. unfold Retire.
  pose proof (merging_quiet (fun w => (pause w, ())) [] w (fun w Hw => conj (pause_ok w Hw) (pause_evolves w Hw)) Hw) as H1. simpl in H1.
  pose proof (merging_quiet (fun w => (pause w, ())) [] _ (fun w Hw => conj (pause_ok w Hw) (pause_evolves w Hw)) H1) as H2. simpl in H2.
  destruct (mg_absorb _ _ _ _ _ _ _ H1) as (a1 & Ha1 & _ & _ & Hi1).
  pose proof (ro_actor _ (mg_ok _ _ _ _ _ _ _ H1) ra a1 Ha1) as Hc. rewrite Hi1 in Hc. rewrite Hc.
  destruct H2 as [Hok Hk Ho Hm (a & Ha & Hq & Hn & Hi) Hmail Hid Hup Hs Hj]. rewrite Ha.
  assert (Hput : registry_ok (put_actor ra (mkActor (call a) (mailbox a) true) (pause (pause w)))).
  { destruct (ro_actors _ Hok ra a Ha) as [A1 A2 A3 A4 A5 A6 A7 A8].
    eapply (put_ok (pause (pause w)) _ ra a (mkActor (call a) (mailbox a) true) []); try done; [by rewrite app_nil_r| |by left].
    rewrite app_nil_r. constructor; simpl; try done. by right. }
  assert (Hst : forall ch r b, r <> ra -> up_on ch (pause (pause w)) r b -> up_on ch (put_actor ra (mkActor (call a) (mailbox a) true) (pause (pause w))) r b).
  { intros ch r b Hr (U1 & U2 & U3). split; [done|]. split; [|done]. simpl. by rewrite lookup_insert_ne. }
  constructor; [constructor; [done|..]|..].
  - intros r b. simpl. rewrite lookup_insert_Some. intros [[<- <-]|[Hr Hb]] Hqb ch; [done|]. destruct (decide (r = rk)) as [->|Hrk].
    + rewrite (Hk b Hb Hqb ch), elem_of_nil. tauto.
    + by apply Ho.
  - intros r b ev. simpl. rewrite lookup_insert_Some. intros [[<- <-]|[Hr Hb]] Hqb; [done|]. by apply Hmail.
  - intros ch r b Hu Hr. destruct (Hup ch r b Hu Hr) as (b' & Hb' & ?). exists b'. split; [by apply Hst|done].
  - intros ch b ak Hu Hal Hak. destruct (Hj ch b Hu Hal) as (b' & Hb' & Hu' & [Hch|Hnil]); [|by apply not_elem_of_nil in Hnil].
    exists b'. split; [by apply Hst|]. by apply Hs.
  - intros b. simpl. rewrite lookup_insert_eq. by intros [= <-].
  - apply (ro_fresh _ Hok). left. by exists a.
  - simpl. destruct (ro_actors _ Hok ra a Ha) as [_ A2 A3 _ _ _ _ _]. rewrite <- A2. intros Hend. rewrite (A3 Hend) in Hq. done.
Qed.

Lemma merged_log w : merged w -> merged (say [OAbsorbed rk ra] w).
Proof using.
  intros [[Hok Hb Hm] Hot Hj Hr Hlt Hun].
  assert (Hrep : reported (out (say [OAbsorbed rk ra] w)) = reported (out w)) by (simpl; by rewrite reported_app, app_nil_r).
  assert (Habs : forall r, r ∈ absorbed (out (say [OAbsorbed rk ra] w)) <-> r ∈ absorbed (out w) \/ r = ra).
  { intros r. simpl. rewrite absorbed_app, elem_of_app. simpl. by rewrite list_elem_of_singleton. }
  constructor; [constructor; try done|done..|by rewrite Hrep].
  destruct Hok as [W1 W2 W3 W4 W5 W6 W7]. constructor; try done; rewrite ?Hrep; try done.
  - intros r. rewrite ?Hrep, Habs. intros [?|[?|[?|E]]]; [by apply W4; auto..|by rewrite E].
  - intros r a Ha. destruct (W5 r a Ha) as []. constructor; rewrite ?Hrep, ?Habs; try done.
    intros [?|E]; [auto|]. subst r. by apply Hr.
  - intros r. rewrite ?Hrep, Habs. intros [?|E]; [by apply W7|by rewrite E].
Qed.

End merge.
Definition handed_over (c : LiveCall) : Absorbed :=
  mkAbsorbed (legs c) (QueueStays (base c)) (LBot c) (UserData (base c)) (transfers (base c)).

Lemma handed_over_fit c : call_ok c -> fit (CMerge (handed_over c)).
Proof. intros []. by split. Qed.

(** The legs that are up on the one call, on the other. *)
Lemma merged_active m x ch : call_ok x -> NoDup (ChannelID <$> mLegs m) -> (exists p, p ∈ mLegs m /\ ChannelID p = ch /\ IsActive p = true) ->
  ch ∉ channels x -> exists p, p ∈ merged_legs m x /\ ChannelID p = ch /\ IsActive p = true.
Proof.
  intros [Hx _] Hm (p & Hp & Hch & Ha) Hn. apply normalize_active. exists p. split; [|done].
  destruct (move_legs_spec (mLegs m) (legs x) Hx) as (_ & _ & _ & H). apply H; [done|done|by rewrite Hch].
Qed.

(** The legs of [ra] have joined those of [rk]. *)
Lemma start_merging w0 w1 w2 ra rk (a aa ak : CActor) keep absorb :
  in_order w2 -> evolves w0 w1 -> evolves w0 w2 -> actors w1 !! ra = Some a -> call_ok (call a) ->
  actors w2 !! ra = Some aa -> quit aa = false -> no_events aa -> channels (call aa) = channels (call a) -> CallID (base (call aa)) = absorb ->
  actors w2 !! rk = Some ak -> mailbox ak = [] -> CallID (base (call ak)) = keep -> keep <> absorb ->
  registry_ok (work rk ak (MDo (CMerge (handed_over (call a)))) w2) ->
  rk <> ra /\ merging rk ra keep absorb w0 (channels (call a)) (work rk ak (MDo (CMerge (handed_over (call a)))) w2).
Proof.
  set (cmd := CMerge _). intros Hw2 He1 He2 Ha Hca Haa Hq Hn Hch Hid Hak Hmail Hidk Hne Hok.
  assert (Hr : rk <> ra) by (intros ->; congruence). split; [done|].
  pose proof (ro_actors _ (io_ok _ Hw2) rk ak Hak) as [Hck _ _ _ _ _ _ _].
  pose proof (run_kept cmd rk (tokens w2) (call ak)) as Hk. 
  assert (Hl : legs (ranCall (run cmd rk (tokens w2) (call ak))) = merged_legs (handed_over (call a)) (call ak)) by exact (kb_legs _ _ _ Hk).
  assert (Hchs : forall c, c ∈ channels (call (ran cmd rk ak w2)) <-> c ∈ channels (call ak) \/ c ∈ channels (call a)).
  { intros c. unfold channels at 1. change (call (ran cmd rk ak w2)) with (ranCall (run cmd rk (tokens w2) (call ak))). rewrite Hl.
    unfold merged_legs. rewrite normalize_channels. by apply move_legs_spec, Hck. }
  assert (Hra : forall c, c ∈ channels (call a) -> byChannel w2 !! c = Some ra).
  { intros c. rewrite <- Hch. by apply (io_bound _ Hw2 ra aa). }
  constructor; rewrite ?work_actors, ?work_channels.
  - done.
  - intros b. rewrite lookup_insert_eq. intros [= <-] Hqb c. rewrite Hchs. by rewrite (io_bound _ Hw2 rk ak Hak Hqb c).
  - intros r b Hrk Hrab. rewrite lookup_insert_ne by done. apply (io_bound _ Hw2).
  - intros c r Hin E. left. specialize (Hra c Hin). congruence.
  - exists aa. by rewrite lookup_insert_ne.
  - intros r b ev. rewrite work_actors, lookup_insert_Some. intros [[<- <-]|[Hrk Hb]] Hqb; simpl; [rewrite Hmail; by intros ?%not_elem_of_nil|].
    by apply (io_mailed _ Hw2).
  - intros r b Hb E. eapply (actor_unique _ r rk b (ran cmd rk ak w2) Hok); [by rewrite work_actors|by rewrite work_actors, lookup_insert_eq|].
    rewrite E, (sm_id _ _ (ran_same cmd rk ak w2)). congruence.
  - intros c r b Hu _. destruct (evolves_keeps_up _ _ He2 c r b Hu) as (b1 & Hu1 & Hs1).
    destruct (run_keeps_up w2 rk ak cmd Hak Hmail c r b1 Hu1) as (b2 & ? & ?). exists b2. split; [done|by etrans].
  - intros b b' Hb. rewrite lookup_insert_eq. intros [= <-]. destruct (ev_actor _ _ He2 rk ak Hak) as (b1 & Hb1 & Hlt). simplify_eq.
    etrans; [by apply later_same|apply ran_same].
  - intros c b (Hcb & Hb & Hub) Hal. exists (ran cmd rk ak w2). rewrite lookup_insert_eq. split; [done|].
    destruct (evolves_up _ _ _ _ _ He1 Hb Hub) as (a1 & Ha1 & _ & Hu1). assert (a1 = a) as -> by congruence.
    destruct (up_active _ _ Hu1) as (p & Hp & Hpc & Hpa).
    assert (Hin : c ∈ channels (call a)) by (rewrite <- Hpc; by apply list_elem_of_fmap_2).
    split; [|by right]. destruct (alive_runs _ _ _ (evolves_alive _ _ _ _ He2 Hal)) as (b2 & Hb2 & _ & Hqk).
    assert (b2 = ak) as -> by congruence. constructor; [done| |simpl; by rewrite Hmail].
    unfold active. change (call (ran cmd rk ak w2)) with (ranCall (run cmd rk (tokens w2) (call ak))). rewrite Hl.
    apply merged_active; [done|apply Hca|by exists p|]. intros Hbad. apply (io_bound _ Hw2 rk ak Hak Hqk) in Hbad. rewrite (Hra c Hin) in Hbad. congruence.
Qed.

(** What the merging of the call of [ra] into [keep] leaves. *)
Record merge_post (keep : uuid) (ra : nat) (w w' : CWorld) : Prop := mkMergePost {
  mp_order : in_order w';
  mp_other : forall ch r a, up_on ch w r a -> r <> ra -> exists a', up_on ch w' r a' /\ same_call a a';
  mp_joined : forall rk ak ch a, actors w !! rk = Some ak -> CallID (base (call ak)) = keep -> alive w rk keep -> up_on ch w ra a ->
    exists a', up_on ch w' rk a' /\ same_call ak a'
}.

Lemma merge_spec e keep absorb w ra : in_order w -> alive w ra absorb -> keep <> absorb -> merge_post keep ra w (merge e keep absorb w).1.
Proof.
  intros Hw Hal Hne. unfold merge. rewrite handler_run. assert (Hfr : fit CRead) by exact I.
  destruct (Do_alive absorb CRead w ra Hfr (io_ok _ Hw) Hal)
    as (s & w1 & a & wa & -> & Hwa & Hw1 & He1 & Ha & Hq & Hid & Hm & Hs & _ & Haf & Ewa). cbn [fst snd]. simpl in Haf. rewrite Haf.
  fold (handed_over (call a)). set (cmd := CMerge (handed_over (call a))). rewrite handler_run.
  assert (Hca : call_ok (call a)) by apply (ro_actors _ Hw1 ra a Ha).
  assert (Hea : evolves w wa).
  { etrans; [done|]. subst wa. eapply work_evolves; try done. intros ch _. by rewrite Hm. }
  assert (Haa : actors wa !! ra = Some a) by (subst wa; rewrite work_actors, lookup_insert_eq; by destruct a).
  pose proof (Do_spec keep cmd wa (handed_over_fit _ Hca) Hwa) as Hd.
  destruct (Do keep cmd wa) as [w3 [k|]]; cbn [fst snd].
  - destruct Hd as [(w2 & rk & ak & Hw2 & He2 & Hak & Hidk & Hmk & Hsk & _ & _ & ->) Hok].
    assert (He : evolves w w2) by by etrans.
    destruct (ev_idle _ _ He2 ra a Haa Hq) as [aa Haa2]; [unfold no_events; rewrite Hm; constructor|].
    destruct (ev_actor _ _ He2 ra aa Haa2) as (b & Hb & Hl). assert (b = a) as -> by congruence.
    assert (Hn : no_events a) by (unfold no_events; rewrite Hm; constructor).
    assert (Hqa : quit aa = false) by by apply Hl.
    destruct (start_merging w w1 w2 ra rk a aa ak keep absorb) as [Hr Hst]; try done.
    { by eapply evolves_in_order. }
    { by eapply lt_events. }
    { by apply shapes_channels, Hl. }
    { by rewrite (lt_id _ _ Hl). }
    assert (Hk0 : exists ak, actors w !! rk = Some ak /\ CallID (base (call ak)) = keep).
    { destruct (ev_actor _ _ He rk ak Hak) as (b & Hb0 & Hlt). exists b. split; [done|]. by rewrite <- (lt_id _ _ Hlt). }
    fold cmd in Hst. change (seenRef <$> Some s) with (Some (seenRef s)). rewrite Hs, Hsk, !handler_run. cbn [handed_over mLegs log_absorbed].
    pose proof (rebind_spec rk ra keep absorb w Hr Hk0 e (legs (call a)) _ Hst) as Hrb.
    pose proof (merging_Retire rk ra keep absorb w Hr _ Hrb) as Hmd.
    pose proof (quiet_announceMerge keep (legs (call a))) as Hqm.
    match goal with |- context [announceMerge _ _ ?z] => destruct (Hqm z) as [Hqo Hqe]; [by apply Hmd|] end.
    pose proof (merged_evolves rk ra keep w _ _ Hqo Hqe Hmd) as Hmd2.
    destruct (merged_log rk ra keep w _ Hmd2) as [M1 M2 M3 _ _ _]. constructor; [exact M1|exact M2|].
    intros rk' ak' ch b Hb' Hid' Hal' Hu. assert (rk' = rk) as ->; [|by eapply M3].
    destruct Hk0 as (b0 & Hb0 & Hid0). apply (actor_unique w rk' rk ak' b0); [apply Hw|done|done|congruence].
  - destruct Hd as (Hok & He & Hnr). assert (He' : evolves w w3) by by etrans. simpl. constructor.
    + by eapply evolves_in_order.
    + intros ch r b Hu _. by apply (evolves_keeps_up _ _ He').
    + intros rk ak ch b Hak Hidk Halk _. destruct (alive_runs _ _ _ (evolves_alive _ _ _ _ He' Halk)) as (c & Hc & Hidc & Hqc).
      specialize (Hnr rk c Hc Hidc). congruence.
Qed.

End CoordinatorMerge.
