(* ===== verification/CoordinatorHandle.v ===== *)
(** * One event after another

    [Coordinator.Handle] as a whole: after any number of events, in any
    interleaving with the actors and the requests, the legs of every running
    call are those on the channels bound to it, and a call whose identity was
    minted by the dialplan keeps a minted one. *)

From S2P Require Import Prelude GoText Calendar Schedule Call TelephonyData Registry RegistryFacts Coordinator CoordinatorFacts CoordinatorSafety CoordinatorMerge.

Module CoordinatorHandle.
Import GoText Call TelephonyData Registry RegistryFacts Coordinator CoordinatorFacts CoordinatorSafety CoordinatorMerge.

(** ** Whose identity was minted *)

(** A call that is alive, and whether its identity was minted. *)
Definition minted_as (w : CWorld) (r : nat) (id : uuid) (m : bool) : Prop :=
  alive w r id /\ forall a, actors w !! r = Some a -> IsMintedID (call a) = m.

Lemma minted_as_evolves w w' r id m : evolves w w' -> minted_as w r id m -> minted_as w' r id m.
Proof.
  intros He [Hal Hm]. split; [by eapply evolves_alive|]. intros a' Ha'. destruct (ev_actor _ _ He r a' Ha') as (a & Ha & Hl).
  rewrite (lt_minted _ _ Hl). by apply Hm.
Qed.

Lemma up_on_minted ch w r a : up_on ch w r a -> minted_as w r (CallID (base (call a))) (IsMintedID (call a)).
Proof. intros Hu. split; [by eapply up_on_alive|]. destruct Hu as (_ & Ha & _). intros b Hb. congruence. Qed.

Lemma isMintedID_exact w r id m : registry_ok w -> minted_as w r id m -> (isMintedID id w).2 = m.
Proof.
  intros Hw [Hal Hm]. unfold isMintedID. rewrite handler_run. assert (Hf : fit CRead) by exact I.
  destruct (Do_alive id CRead w r Hf Hw Hal) as (s & w1 & a & w' & -> & _ & _ & He & Ha & _ & _ & _ & _ & _ & Haf & _).
  simpl. rewrite Haf. simpl. destruct (ev_actor _ _ He r a Ha) as (b & Hb & Hl). rewrite (lt_minted _ _ Hl). by apply Hm.
Qed.

(** A call that has a minted identity is given up only for one that has. *)
Lemma which_kept_spec w rc ro c o mc mo : registry_ok w -> minted_as w rc c mc -> minted_as w ro o mo ->
  (which_kept c o w).2 = (c, o) /\ (mo = true -> mc = true) \/ (which_kept c o w).2 = (o, c) /\ (mc = true -> mo = true).
Proof.
  intros Hw Hc Ho. unfold which_kept. rewrite handler_run.
  destruct (quiet_isMintedID c w Hw) as [Hw1 He1]. rewrite (isMintedID_exact w rc c mc Hw Hc).
  apply (minted_as_evolves _ _ _ _ _ He1) in Hc, Ho. clear He1. revert Hw1 Hc Ho. generalize (isMintedID c w).1. clear w Hw. intros w Hw Hc Ho.
  rewrite handler_run. set (q2 := if mc : bool then isMintedID o else mret false).
  assert (Hq2 : quiet q2) by (subst q2; destruct mc; [apply quiet_isMintedID|apply quiet_nothing]).
  assert (E2 : (q2 w).2 = mc && mo) by (subst q2; destruct mc; [by apply (isMintedID_exact w ro)|done]).
  destruct (Hq2 w Hw) as [Hw2 He2]. apply (minted_as_evolves _ _ _ _ _ He2) in Hc, Ho. rewrite E2. clear E2 He2.
  revert Hw2 Hc Ho. generalize (q2 w).1. clear w Hw q2 Hq2. intros w Hw Hc Ho.
  destruct mc, mo; simpl; auto; rewrite handler_run, (isMintedID_exact w ro o _ Hw Ho); simpl.
  all: destruct (quiet_isMintedID o w Hw) as [Hw3 He3]; apply (minted_as_evolves _ _ _ _ _ He3) in Hc, Ho.
  - rewrite handler_run, (isMintedID_exact _ rc c _ Hw3 Hc). simpl. rewrite handler_run. destruct (isAgentOnly c _).2; [by right|].
    rewrite handler_run. by left.
  - rewrite handler_run, (isMintedID_exact _ rc c _ Hw3 Hc). simpl. by right.
  - rewrite !handler_run. simpl. destruct (isAgentOnly c _).2; [by right|]. rewrite handler_run. by left.
Qed.

(** ** Legs through an event *)

(** A leg that is up stays up, and a minted identity is not lost. *)
Definition follows (w w' : CWorld) : Prop :=
  forall ch r a, up_on ch w r a -> exists r' a', up_on ch w' r' a' /\ (IsMintedID (call a) = true -> IsMintedID (call a') = true).

#[export] Instance follows_refl : Reflexive follows.
Proof. intros w ch r a H. by exists r, a. Qed.
#[export] Instance follows_trans : Transitive follows.
Proof.
  intros w1 w2 w3 H1 H2 ch r a H. destruct (H1 _ _ _ H) as (r2 & b & Hb & ?). destruct (H2 _ _ _ Hb) as (r3 & c & Hc & ?).
  exists r3, c. auto.
Qed.

Lemma keeps_up_follows w w' : keeps_up w w' -> follows w w'.
Proof. intros H ch r a Hu. destruct (H ch r a Hu) as (a' & Hu' & Hs). exists r, a'. split; [done|]. by rewrite (sm_minted _ _ Hs). Qed.

Lemma quiet_follows {A} (m : M A) (w : CWorld) : in_order w -> quiet m -> in_order (m w).1 /\ keeps_up w (m w).1.
Proof. intros Hw Hm. by apply quiet_then. Qed.

(** A channel's call as [CallForChannel] tells it. *)
Lemma CallForChannel_up ch w : in_order w -> (forall r, byChannel w !! ch = Some r -> exists a, up_on ch w r a) ->
  let w' := (CallForChannel ch w).1 in in_order w' /\ keeps_up w w' /\
  match (CallForChannel ch w).2 with
  | Some id => exists r a, up_on ch w r a /\ CallID (base (call a)) = id
  | None => byChannel w !! ch = None
  end.
Proof.
  intros Hw Hu. destruct (quiet_follows _ w Hw (quiet_CallForChannel ch)) as [H1 H2]. split; [done|]. split; [done|].
  destruct (quiet_CallForChannel ch w (io_ok _ Hw)) as [_ He]. unfold CallForChannel in *. simpl in *.
  destruct (byChannel w !! ch) as [r|] eqn:E.
  - destruct (Hu r eq_refl) as (a & Ha). destruct (H2 ch r a Ha) as (a' & (Hc' & Ha' & _) & Hs). rewrite Hc'. simpl. rewrite Ha'. simpl.
    exists r, a. split; [done|]. by rewrite (sm_id _ _ Hs).
  - destruct (byChannel (pause w) !! ch) as [r|] eqn:E'; [|done]. apply (ev_chan _ _ He) in E'. congruence.
Qed.

Section events.
Variable e : Env.
#[local] Notation ready := (ready e).
#[local] Notation named := (named e).

(** What a bridge leaves: every leg that was up is, and those of the two calls
    are on one. *)
Record joined (ra rb : nat) (w w' : CWorld) : Prop := mkJoined {
  jn_order : in_order w';
  jn_follows : follows w w';
  jn_one : exists r, forall ch r' a, up_on ch w r' a -> r' = ra \/ r' = rb -> exists a', up_on ch w' r a';
  jn_other : forall ch r a, up_on ch w r a -> r <> ra -> r <> rb -> exists a', up_on ch w' r a' /\ same_call a a'
}.

Lemma joined_quiet {A} ra rb w w' (m : M A) : quiet m -> joined ra rb w w' -> joined ra rb w (m w').1.
Proof.
  intros Hm [Ho Hf [r Hr] Ht]. destruct (quiet_follows m w' Ho Hm) as [H1 H2]. constructor; [done|..].
  - etrans; [done|]. by apply keeps_up_follows.
  - exists r. intros ch r' a Hu Hin. destruct (Hr ch r' a Hu Hin) as (a' & Hu'). destruct (H2 ch r a' Hu') as (a2 & ? & _). by exists a2.
  - intros ch r' a Hu H3 H4. destruct (Ht ch r' a Hu H3 H4) as (a' & Hu' & Hs). destruct (H2 ch r' a' Hu') as (a2 & ? & ?).
    exists a2. split; [done|by etrans].
Qed.

Lemma joined_after ra rb w0 w w' : keeps_up w0 w -> joined ra rb w w' -> joined ra rb w0 w'.
Proof.
  intros Hk [Ho Hf [r Hr] Ht]. constructor; [done|..].
  - etrans; [by apply keeps_up_follows|done].
  - exists r. intros ch r' a Hu Hin. destruct (Hk ch r' a Hu) as (a' & Hu' & _). by apply (Hr ch r' a').
  - intros ch r' a Hu H3 H4. destruct (Hk ch r' a Hu) as (a' & Hu' & Hs). destruct (Ht ch r' a' Hu' H3 H4) as (a2 & ? & ?).
    exists a2. split; [done|by etrans].
Qed.

Lemma joined_swap ra rb w w' : joined ra rb w w' -> joined rb ra w w'.
Proof. intros [Ho Hf [r Hr] Ht]. constructor; [done|done| |]; [exists r; intros; eapply Hr; [done|tauto]|auto]. Qed.

(** The call of [ro] merged into that of [rk]. *)
Lemma merge_joined w rk ro k o mk mo : in_order w -> minted_as w rk k mk -> minted_as w ro o mo -> k <> o -> (mo = true -> mk = true) ->
  joined rk ro w (merge e k o w).1.
Proof.
  intros Hw [Hk Hmk] [Ho Hmo] Hne Himp. destruct (merge_spec e k o w ro Hw Ho Hne) as [H1 H2 H3].
  destruct Hk as (ak & Hak & Hidk & Hlk).
  assert (Hne' : rk <> ro) by (intros ->; destruct Ho as (? & ? & ? & _); congruence).
  assert (Hal : alive w rk k) by by exists ak.
  constructor; [done|..].
  - intros ch r a Hu. destruct (decide (r = ro)) as [->|Hr].
    + destruct (H3 rk ak ch a Hak Hidk Hal Hu) as (a' & Hu' & Hs). exists rk, a'. split; [done|]. rewrite (sm_minted _ _ Hs), (Hmk ak Hak).
      destruct Hu as (_ & Ha & _). rewrite (Hmo a Ha). done.
    + destruct (H2 ch r a Hu Hr) as (a' & ? & Hs). exists r, a'. split; [done|]. by rewrite (sm_minted _ _ Hs).
  - exists rk. intros ch r a Hu [-> | ->].
    + destruct (H2 ch rk a Hu Hne') as (a' & ? & _). by exists a'.
    + destruct (H3 rk ak ch a Hak Hidk Hal Hu) as (a' & ? & _). by exists a'.
  - intros ch r a Hu _ Hr. by apply H2.
Qed.

(** The bridge of two legs that are up. *)
Lemma join_joined ev w ra rb a b : in_order w -> EvChannelID ev <> ""%string -> OtherChannelID ev <> ""%string ->
  up_on (EvChannelID ev) w ra a -> up_on (OtherChannelID ev) w rb b -> joined ra rb w (join e ev w).1.
Proof.
  intros Hw Hca Hcb Ha Hb. unfold join. destruct (String.eqb_spec (EvChannelID ev) ""); [done|].
  destruct (String.eqb_spec (OtherChannelID ev) ""); [done|]. cbn [orb].
  assert (Hone : forall ch (w : CWorld) r a, up_on ch w r a -> forall r', byChannel w !! ch = Some r' -> exists a, up_on ch w r' a).
  { intros ch w0 r c Hu r' E. destruct Hu as (E' & ? & ?). assert (r' = r) as -> by congruence. by exists c. }
  rewrite handler_run. destruct (CallForChannel_up (EvChannelID ev) w Hw (Hone _ _ _ _ Ha)) as (Hw1 & Hk1 & H1).
  destruct (CallForChannel (EvChannelID ev) w) as [w1 id1]. cbn [fst snd] in *.
  destruct (Hk1 _ _ _ Ha) as (a1 & Ha1 & Hs1). destruct (Hk1 _ _ _ Hb) as (b1 & Hb1 & Hsb1).
  destruct id1 as [id1|]; [|by destruct Ha; congruence].
  assert (Hid1 : CallID (base (call a1)) = id1).
  { destruct H1 as (r & c & (E & Hc & _) & <-). destruct Ha as (E' & Ha & _). rewrite (sm_id _ _ Hs1). congruence. }
  rewrite handler_run. destruct (CallForChannel_up (OtherChannelID ev) w1 Hw1 (Hone _ _ _ _ Hb1)) as (Hw2 & Hk2 & H2).
  destruct (CallForChannel (OtherChannelID ev) w1) as [w2 id2]. cbn [fst snd] in *.
  destruct (Hk2 _ _ _ Ha1) as (a2 & Ha2 & Hs2). destruct (Hk2 _ _ _ Hb1) as (b2 & Hb2 & Hsb2).
  destruct id2 as [id2|]; [|by destruct Hb1; congruence].
  assert (Hid2 : CallID (base (call b2)) = id2).
  { destruct H2 as (r & c & (E & Hc & _) & <-). destruct Hb1 as (E' & Hb1 & _). rewrite (sm_id _ _ Hsb2). congruence. }
  assert (Hid1' : CallID (base (call a2)) = id1) by (rewrite (sm_id _ _ Hs2); done).
  apply (joined_after _ _ w w2); [by etrans|]. clear H1 H2 Hid1 Hk1 Hk2 Hs1 Hs2 Hsb1 Hsb2 Hw1 Ha1 Hb1 Hw Ha Hb w w1 a1 b1 a b.
  case_bool_decide as Heq.
  - assert (ra = rb) as <-.
    { destruct Ha2 as (_ & Ha & _), Hb2 as (_ & Hb & _). eapply (actor_unique w2); [apply Hw2|done|done|congruence]. }
    assert (Hj : joined ra ra w2 w2).
    { constructor; [done|done| |intros ch r c ? _ _; by exists c]. exists ra. intros ch r c Hu [-> | ->]; by exists c. }
    rewrite handler_run. apply (joined_quiet _ _ _ _ _ (quiet_noteBridge (EvChannelID ev) (OtherChannelID ev))) in Hj.
    destruct (noteBridge _ _ w2).2; [done|]. rewrite handler_run. apply joined_quiet; [apply quiet_announceAudience|].
    by apply joined_quiet; [apply quiet_tapAgentLeg|].
  - rewrite handler_run. pose proof (up_on_minted _ _ _ _ Ha2) as Hm1. pose proof (up_on_minted _ _ _ _ Hb2) as Hm2. rewrite Hid1' in Hm1. rewrite Hid2 in Hm2.
    pose proof (which_kept_spec w2 ra rb id1 id2 _ _ (io_ok _ Hw2) Hm1 Hm2) as Hwk.
    destruct (quiet_follows _ w2 Hw2 (quiet_which_kept id1 id2)) as [Hw3 Hk3].
    destruct (quiet_which_kept id1 id2 w2 (io_ok _ Hw2)) as [_ He3]. apply (minted_as_evolves _ _ _ _ _ He3) in Hm1, Hm2.
    eapply joined_after; [exact Hk3|]. destruct (which_kept id1 id2 w2) as [w3 ka]. cbn [fst snd] in *.
    rewrite !handler_run. apply joined_quiet; [apply quiet_announceAudience|]. apply joined_quiet; [apply quiet_tapAgentLeg|].
    destruct Hwk as [[-> Himp] | [-> Himp]]; cbn [fst snd].
    + by eapply merge_joined.
    + apply joined_swap. eapply merge_joined; [done|exact Hm2|exact Hm1|congruence|done].
Qed.

(** *** The identity an event names *)

Lemma ready_up ev w r a : up_on (EvChannelID ev) w r a -> ready ev w.
Proof. intros (Hc & Ha & Hu) id r' a' _ _ Hc' Ha'. right. congruence. Qed.

Lemma ready_unbound ev w : byChannel w !! EvChannelID ev = None -> ready ev w.
Proof. intros H id r a _ _ E. congruence. Qed.

(** An event comes in time when it does not name the nil identity, the call it
    names late is not ending, and the legs of a bridge are up (on calls that
    run, and with no hangup of theirs waiting), if their channels are known at
    all. The code takes events in any order; what it does with others is in
    [late_bridge_reports_twice] and [late_bridges_share_a_channel]. *)
Record timely (ev : SwitchEvent) (w : CWorld) : Prop := mkTimely {
  ty_named : named ev <> Some uuid_Nil;
  ty_call : ready ev w;
  ty_bridge : Kind ev = KindChannelBridge -> forall ch r, ch = EvChannelID ev \/ ch = OtherChannelID ev -> byChannel w !! ch = Some r ->
    exists a, up_on ch w r a
}.

Definition safe (ev : SwitchEvent) (w w' : CWorld) : Prop := in_order w' /\ follows w w' /\ ready ev w'.

Lemma safe_quiet {A} ev w w' (m : M A) : quiet m -> safe ev w w' -> safe ev w (m w').1.
Proof.
  intros Hm (H1 & H2 & H3). destruct (quiet_follows m w' H1 Hm) as [Ho Hk]. split; [done|].
  split; [etrans; [done|by apply keeps_up_follows]|]. destruct (Hm w' (io_ok _ H1)) as [_ He]. by eapply ready_evolves.
Qed.

Lemma join_safe ev w : in_order w -> timely ev w -> Kind ev = KindChannelBridge -> safe ev w (join e ev w).1.
Proof.
  intros Hw [_ Hrd Hb] Hk. specialize (Hb Hk). assert (H0 : safe ev w w) by done.
  destruct (byChannel w !! EvChannelID ev) as [ra|] eqn:Ea, (byChannel w !! OtherChannelID ev) as [rb|] eqn:Eb.
  2-4: unfold join; destruct (_ || _); [done|]; rewrite handler_run.
  2-4: destruct (CallForChannel_up (EvChannelID ev) w Hw (fun r => Hb _ r (or_introl eq_refl))) as (_ & _ & H1);
       pose proof (safe_quiet ev w w _ (quiet_CallForChannel (EvChannelID ev)) H0) as Hs1.
  2-4: destruct (quiet_CallForChannel (EvChannelID ev) w (io_ok _ Hw)) as [_ He];
       destruct (CallForChannel (EvChannelID ev) w) as [w1 id1]; cbn [fst snd] in *; rewrite handler_run;
       pose proof (safe_quiet ev w w1 _ (quiet_CallForChannel (OtherChannelID ev)) Hs1) as Hs2.
  - destruct (Hb _ ra (or_introl eq_refl) Ea) as [a Ha]. destruct (Hb _ rb (or_intror eq_refl) Eb) as [b Hb'].
    destruct (String.eqb_spec (EvChannelID ev) "") as [E|E]; [unfold join; by rewrite E|].
    destruct (String.eqb_spec (OtherChannelID ev) "") as [E'|E']; [unfold join; by rewrite E', orb_true_r|].
    destruct (join_joined ev w ra rb a b Hw E E' Ha Hb') as [J1 J2 _ _]. split; [done|]. split; [done|].
    destruct (J2 _ _ _ Ha) as (r' & a' & Ha' & _). by eapply ready_up.
  - assert (E2 : (CallForChannel (OtherChannelID ev) w1).2 = None); [|rewrite E2; by destruct id1].
    unfold CallForChannel. simpl. destruct (byChannel (pause w1) !! OtherChannelID ev) as [r|] eqn:E; [|done].
    apply (ev_chan _ _ (pause_evolves w1 (io_ok _ (proj1 Hs1)))), (ev_chan _ _ He) in E. congruence.
  - destruct id1 as [id1|]; [|exact Hs2]. destruct H1 as (r & a & (E & _) & _). congruence.
  - destruct id1 as [id1|]; [|exact Hs2]. destruct H1 as (r & a & (E & _) & _). congruence.
Qed.

Lemma adopt_safe ev w : in_order w -> timely ev w -> safe ev w (adopt e ev w).1.
Proof.
  intros Hw [_ Hrd _]. destruct (adopt_spec e ev w Hw) as (H1 & H2 & H3). split; [done|]. split; [by apply keeps_up_follows|auto].
Qed.

(** Legs of minted calls: the others may be lost in a call that ends while it
    is named. *)
Definition follows_minted (w w' : CWorld) : Prop :=
  forall ch r a, up_on ch w r a -> IsMintedID (call a) = true -> exists r' a', up_on ch w' r' a' /\ IsMintedID (call a') = true.

Lemma follows_then_minted w0 w w' : follows w0 w -> follows_minted w w' -> follows_minted w0 w'.
Proof. intros H1 H2 ch r a Hu Hm. destruct (H1 ch r a Hu) as (r1 & a1 & Hu1 & Hm1). by apply (H2 ch r1 a1 Hu1), Hm1. Qed.
Lemma minted_then_follows w0 w w' : follows_minted w0 w -> follows w w' -> follows_minted w0 w'.
Proof. intros H1 H2 ch r a Hu Hm. destruct (H1 ch r a Hu Hm) as (r1 & a1 & Hu1 & Hm1). destruct (H2 ch r1 a1 Hu1) as (r2 & a2 & ? & ?). exists r2, a2. auto. Qed.
Lemma follows_minted_of w w' : follows w w' -> follows_minted w w'.
Proof. intros H ch r a Hu Hm. destruct (H ch r a Hu) as (r' & a' & ? & ?). exists r', a'. auto. Qed.

Definition orderly (w w' : CWorld) : Prop := in_order w' /\ follows_minted w w'.

Lemma orderly_quiet {A} w w' (m : M A) : quiet m -> orderly w w' -> orderly w (m w').1.
Proof.
  intros Hm (H1 & H2). destruct (quiet_follows m w' H1 Hm) as [Ho Hk]. split; [done|]. eapply minted_then_follows; [done|by apply keeps_up_follows].
Qed.

Lemma orderly_of w w' : in_order w' -> keeps_up w w' -> orderly w w'.
Proof. intros H1 H2. split; [done|]. by apply follows_minted_of, keeps_up_follows. Qed.

(** A call made for a name, and given its data. *)
Lemma named_call_made id ev w : in_order w ->
  let m := ok ← CreateCall id (callTypeOf ev) (Variable_ ev "aicc_language") true (OccurredAt ev);
           (if ok : bool then _ ← applyCallData e id; applyInboundUserData id ev else mret ()) in
  in_order (m w).1 /\ keeps_up w (m w).1.
Proof.
  intros Hw m. subst m. rewrite handler_run.
  pose proof (CreateCall_spec id (callTypeOf ev) (Variable_ ev "aicc_language") true (OccurredAt ev) w (io_ok _ Hw)) as H.
  destruct (CreateCall _ _ _ _ _ w) as [w' [|]]; cbn [fst snd].
  - destruct H as (w1 & He & Hw1 & Hno & _ & ->).
    apply quiet_then; [|etrans; [by apply evolves_keeps_up|by apply add_call_keeps_up]|].
    + apply add_call_in_order; [by eapply evolves_in_order|done..].
    + apply quiet_then_quiet; [apply quiet_applyCallData|intros _; apply quiet_applyInboundUserData].
  - destruct H as (Hw' & He & _). split; [by eapply evolves_in_order|by apply evolves_keeps_up].
Qed.

Lemma reidentify_orderly ev w : in_order w -> named ev <> Some uuid_Nil -> ready ev w -> orderly w (reidentify e ev w).1.
Proof.
  intros Hw Hnil Hrd. assert (H0 : orderly w w) by by apply orderly_of. unfold reidentify.
  destruct (String.eqb_spec (EvChannelID ev) "") as [E|E]; [done|].
  destruct (String.eqb (Variable_ ev "aicc_call_id") "") eqn:Ev; [done|].
  destruct (eParse e (Variable_ ev "aicc_call_id")) as [minted|] eqn:Ep; [|done].
  assert (Hn : named ev = Some minted) by (unfold named; by rewrite Ev). rewrite handler_run.
  destruct (quiet_follows _ w Hw (quiet_CallForChannel (EvChannelID ev))) as [Hw1 Hk1].
  destruct (quiet_CallForChannel (EvChannelID ev) w (io_ok _ Hw)) as [_ He1].
  unfold CallForChannel in *. cbn [fst snd] in *. apply (ready_evolves e ev _ _ He1) in Hrd. clear He1.
  revert Hw1 Hk1 Hrd. generalize (pause w). intros w1 Hw1 Hk1 Hrd. clear H0. assert (H1 : orderly w w1) by by apply orderly_of.
  destruct (byChannel w1 !! EvChannelID ev) as [r|] eqn:Er; simpl; [|done].
  destruct (actors w1 !! r) as [a|] eqn:Ea; simpl; [|done].
  case_bool_decide as Hb; [done|].
  destruct (Hrd minted r a Hn ltac:(congruence) Er Ea) as [?|Hu]; [done|].
  assert (Hua : up_on (EvChannelID ev) w1 r a) by done. pose proof (up_on_minted _ _ _ _ Hua) as Hm. rewrite handler_run.
  rewrite (isMintedID_exact w1 r _ _ (io_ok _ Hw1) Hm).
  destruct (quiet_follows _ w1 Hw1 (quiet_isMintedID (CallID (base (call a))))) as [Hw2 Hk2].
  revert Hw2 Hk2. generalize (isMintedID (CallID (base (call a))) w1).1. intros w2 Hw2 Hk2.
  assert (H2 : orderly w w2) by (apply orderly_of; [done|by etrans]).
  destruct (IsMintedID (call a)) eqn:Em; [done|].
  destruct (named_call_made minted ev w2 Hw2) as [Hw3 Hk3]. rewrite handler_run, handler_run. rewrite handler_run in Hw3, Hk3.
  match type of Hw3 with in_order ?z => generalize dependent z end. intros w3 Hw3 Hk3.
  destruct (Hk2 _ _ _ Hua) as (a2 & Hu2 & Hs2). destruct (Hk3 _ _ _ Hu2) as (a3 & Hu3 & Hs3).
  pose proof (up_on_alive _ _ _ _ Hu3) as Hal. rewrite (sm_id _ _ Hs3), (sm_id _ _ Hs2) in Hal.
  destruct (merge_spec e minted (CallID (base (call a))) w3 r Hw3 Hal ltac:(congruence)) as [M1 M2 _].
  split; [done|]. apply (follows_then_minted w w3); [apply keeps_up_follows; by do 2 (etrans; [eassumption|])|].
  intros ch r' b Hub Hmb. assert (Hr : r' <> r).
  { intros ->. destruct Hub as (_ & Hb1 & _), Hu3 as (_ & Hb3 & _). assert (b = a3) as -> by congruence.
    rewrite (sm_minted _ _ Hs3), (sm_minted _ _ Hs2), Em in Hmb. done. }
  destruct (M2 ch r' b Hub Hr) as (b' & Hub' & Hsb). exists r', b'. by rewrite (sm_minted _ _ Hsb).
Qed.

(** *** The event reaches its call *)

(** Every leg but one that hangs up. *)
Definition follows_but (ev : SwitchEvent) (w w' : CWorld) : Prop :=
  forall ch r a, up_on ch w r a -> (Kind ev = KindChannelHangup -> EvChannelID ev <> ch) -> exists a', up_on ch w' r a' /\ same_call a a'.

Lemma Dispatch_spec ev w : in_order w -> in_order (Dispatch ev w).1 /\ follows_but ev w (Dispatch ev w).1.
Proof.
  intros Hw. assert (Hof : forall w', registry_ok w' -> evolves w w' -> in_order w' /\ follows_but ev w w').
  { intros w' Hok He. split; [by eapply evolves_in_order|]. intros ch r a Hu _. by apply (evolves_keeps_up _ _ He). }
  unfold Dispatch. destruct (String.eqb (EvChannelID ev) ""); [by apply Hof; [apply Hw|]|].
  pose proof (pause_ok w (io_ok _ Hw)) as Hp. pose proof (pause_evolves w (io_ok _ Hw)) as Hpe.
  destruct (byChannel (pause w) !! EvChannelID ev) as [r|] eqn:Er; [|by apply Hof].
  pose proof (pause_ok _ Hp) as Hp2. pose proof (pause_evolves _ Hp) as Hpe2.
  assert (He : evolves w (pause (pause w))) by by etrans.
  unfold post. destruct (actors (pause (pause w)) !! r) as [a|] eqn:Ea; [|by apply Hof].
  assert (Hc : byChannel (pause (pause w)) !! EvChannelID ev = Some r) by (apply (ev_keep _ _ Hpe2); [done|by exists a]).
  revert Hp2 He Ea Hc. generalize (pause (pause w)). clear Hp Hpe Hpe2 Er. intros w2 Hw2 He Ea Hc.
  destruct (quit a) eqn:Eq; [by apply Hof|]. destruct (Nat.ltb_spec (length (mailbox a)) mailboxSize) as [Hlt|Hlt].
  - assert (Hok : registry_ok (push r a (MEvent ev) w2)) by (apply push_ok; auto; exact I).
    pose proof (evolves_in_order _ _ Hw2 He Hw) as [_ Hb Hm]. split.
    + constructor; [done|..].
      * intros r' b. simpl. rewrite lookup_insert_Some. intros [[<- <-]|[Hr Hb']] Hq ch; [by apply (Hb r a)|by apply Hb].
      * intros r' b ev'. simpl. rewrite lookup_insert_Some. intros [[<- <-]|[Hr Hb']] Hq; [|by apply Hm].
        simpl. rewrite elem_of_app, list_elem_of_singleton. intros [Hin|[= ->]]; [by apply (Hm r a)|done].
    + intros ch r' b Hu Hh. destruct (evolves_keeps_up _ _ He ch r' b Hu) as (b1 & (U1 & U2 & U3) & Hs).
      destruct (decide (r' = r)) as [->|Hr].
      * assert (b1 = a) as -> by congruence. exists (mkActor (call a) (mailbox a ++ [MEvent ev]) (quit a)). split; [|by destruct Hs].
        split; [done|]. split; [simpl; by rewrite lookup_insert_eq|]. destruct U3 as [U4 U5 U6]. constructor; [done|done|].
        simpl. apply Forall_app. split; [done|]. repeat constructor. apply bool_decide_eq_false. naive_solver.
      * exists b1. split; [|done]. split; [done|]. split; [|done]. simpl. by rewrite lookup_insert_ne.
  - assert (Hq : quiet (tell [ODropped r])) by by apply quiet_tell.
    destruct (Hq w2 Hw2) as [Q1 Q2]. apply Hof; [done|]. by etrans.
Qed.

(** ** One event *)

Lemma follow_step ev w0 w w' : follows_minted w0 w -> follows_but ev w w' ->
  forall ch r a, up_on ch w0 r a -> IsMintedID (call a) = true -> (Kind ev = KindChannelHangup -> EvChannelID ev <> ch) ->
    exists r' a', up_on ch w' r' a' /\ IsMintedID (call a') = true.
Proof.
  intros H1 H2 ch r a Hu Hm Hh. destruct (H1 ch r a Hu Hm) as (r1 & a1 & Hu1 & Hm1). destruct (H2 ch r1 a1 Hu1 Hh) as (a2 & Hu2 & Hs).
  exists r1, a2. by rewrite (sm_minted _ _ Hs).
Qed.

Definition handled (ev : SwitchEvent) (w w' : CWorld) : Prop :=
  in_order w' /\
  forall ch r a, up_on ch w r a -> IsMintedID (call a) = true -> (Kind ev = KindChannelHangup -> EvChannelID ev <> ch) ->
    exists r' a', up_on ch w' r' a' /\ IsMintedID (call a') = true.

Lemma handled_quiet {A} ev w w' (m : M A) : quiet m -> handled ev w w' -> handled ev w (m w').1.
Proof.
  intros Hm [H1 H2]. destruct (quiet_follows m w' H1 Hm) as [Ho Hk]. split; [done|].
  intros ch r a Hu Hmt Hh. destruct (H2 ch r a Hu Hmt Hh) as (r1 & a1 & Hu1 & Hm1). destruct (Hk ch r1 a1 Hu1) as (a2 & Hu2 & Hs).
  exists r1, a2. by rewrite (sm_minted _ _ Hs).
Qed.

Lemma orderly_handled ev w w' : orderly w w' -> handled ev w w'.
Proof. intros [H1 H2]. split; [done|]. intros ch r a Hu Hm _. by apply (H2 ch r a). Qed.

Lemma dispatch_and_release_spec ev w w' : orderly w w' -> handled ev w (dispatch_and_release ev w').1.
Proof.
  intros H. unfold dispatch_and_release. rewrite handler_run.
  set (q := (if bool_decide _ then agentLegEnded _ else mret None) : M (option endedLeg)).
  assert (Hq : quiet q) by (subst q; destruct (bool_decide _); [apply quiet_agentLegEnded|apply quiet_nothing]).
  apply (orderly_quiet w w' q Hq) in H. destruct (q w') as [w1 ended]. cbn [fst snd] in *. rewrite handler_run.
  destruct H as [H1 H2]. destruct (Dispatch_spec ev w1 H1) as [D1 D2].
  assert (Hh : handled ev w (Dispatch ev w1).1) by (split; [done|by apply (follow_step ev w w1)]).
  destruct ended as [d|]; [|done]. rewrite handler_run. apply (handled_quiet _ _ _ _ (quiet_port (SetOnCall (edAgent d) false (edCall d)))) in Hh.
  destruct (_ && _); [|done]. by apply handled_quiet; [apply quiet_port|].
Qed.

Lemma Handle_handled ev w : in_order w -> timely ev w -> handled ev w (Handle e ev w).1.
Proof.
  intros Hw Ht. assert (H0 : handled ev w w) by by apply orderly_handled, orderly_of. unfold Handle.
  destruct (isHarnessLeg ev); [done|]. destruct (isObserverLeg ev).
  { destruct (bool_decide _); [|done]. by apply handled_quiet; [apply quiet_forgetObserver|]. }
  rewrite !handler_run. apply dispatch_and_release_spec.
  apply orderly_quiet; [apply quiet_queue_ledger|]. apply orderly_quiet; [apply quiet_trackQueue|].
  set (first := match Kind ev with KindChannelCreate => _ | _ => _ end).
  assert (Hf : safe ev w (first w).1).
  { assert (Hs0 : safe ev w w) by (split; [done|]; split; [done|apply Ht]). subst first. destruct (Kind ev) eqn:Ek; try done.
    - by apply adopt_safe.
    - by apply join_safe.
    - by apply safe_quiet; [apply quiet_offerToAgent|].
    - by apply safe_quiet; [apply quiet_agentDidNotAnswer|]. }
  apply (safe_quiet _ _ _ _ (quiet_follow_tap e ev)) in Hf.
  set (forget := (if bool_decide _ then forgetBridge _ else mret ()) : M ()).
  assert (Hq : quiet forget) by (subst forget; destruct (bool_decide _); [apply quiet_forgetBridge|apply quiet_nothing]).
  apply (safe_quiet _ _ _ _ Hq) in Hf. destruct Hf as (F1 & F2 & F3).
  destruct (reidentify_orderly ev _ F1 (ty_named _ _ Ht) F3) as [R1 R2]. split; [done|]. by eapply follows_then_minted.
Qed.

End events.

(** ** Any number of timely events *)

Inductive reachable : CWorld -> Prop :=
| reach_start turns : reachable (start turns)
| reach_event e ev w : reachable w -> timely e ev w -> reachable (Handle e ev w).1
| reach_step s w : reachable w -> reachable (step w s)
| reach_turns turns w : reachable w -> reachable (with_sched turns w).

Lemma start_in_order turns : in_order (start turns).
Proof.
  constructor; [constructor|..]; simpl; try done.
  - intros r [[? ?]|[Hin|Hin]]; [done|by apply not_elem_of_nil in Hin..].
  - constructor.
  - by intros r ?%not_elem_of_nil.
Qed.

Lemma reachable_in_order w : reachable w -> in_order w.
Proof.
  induction 1 as [turns|e ev w H IH Ht|s w H IH|turns w H IH].
  - apply start_in_order.
  - by apply (Handle_handled e ev w IH Ht).
  - eapply evolves_in_order; [by apply step_ok, IH|by apply step_evolves, IH|done].
  - destruct IH as [H1 H2 H3]. constructor; [by apply with_sched_ok|done|done].
Qed.

End CoordinatorHandle.
