(* ===== verification/CoordinatorProps.v ===== *)
(** * What the coordinator of calls promises

    The properties of [Registry.v] and [Coordinator.v], over every interleaving
    of the events with the actors and the requests ([reachable]), and the
    functional behaviour of a hangup and of a merge. *)

From S2P Require Import Prelude GoText Calendar Schedule Call TelephonyData Registry RegistryFacts Coordinator CoordinatorFacts CoordinatorSafety CoordinatorMerge CoordinatorHandle.

Module CoordinatorProps.
Import GoText Call TelephonyData Registry RegistryFacts Coordinator CoordinatorFacts CoordinatorSafety CoordinatorMerge CoordinatorHandle.

(** ** The last hangup *)

Lemma leg_at_change ch f l : (forall p, ChannelID (f p) = ChannelID p) ->
  List.find (fun p => String.eqb (ChannelID p) ch) (change_leg ch f l) = f <$> List.find (fun p => String.eqb (ChannelID p) ch) l.
Proof.
  intros Hf. induction l as [|p l IH]; [done|]. cbn [change_leg]. destruct (String.eqb (ChannelID p) ch) eqn:E; cbn [List.find].
  - by rewrite Hf, E.
  - by rewrite E.
Qed.

Lemma change_leg_other ch f l q : q ∈ l -> ChannelID q <> ch -> q ∈ change_leg ch f l.
Proof.
  intros Hq Hne. induction l as [|p l IH]; [done|]. cbn [change_leg]. apply elem_of_cons in Hq.
  destruct (String.eqb_spec (ChannelID p) ch) as [E|E]; rewrite elem_of_cons; destruct Hq as [->|Hq]; auto. done.
Qed.

(** The leg that is changed, and the others. *)
Lemma change_leg_inv ch f l p q : NoDup (ChannelID <$> l) -> List.find (fun p => String.eqb (ChannelID p) ch) l = Some p ->
  q ∈ change_leg ch f l -> q = f p \/ q ∈ l /\ ChannelID q <> ch.
Proof.
  induction l as [|r l IH]; [done|]. rewrite fmap_cons, NoDup_cons. intros [Hn Hd]. cbn [change_leg List.find].
  destruct (String.eqb_spec (ChannelID r) ch) as [E|E].
  - intros [= ->]. rewrite !elem_of_cons. intros [->|Hq]; [by left|]. right. split; [by right|].
    intros Hc. apply Hn. rewrite E, <- Hc. by apply list_elem_of_fmap_2.
  - intros Hp. rewrite !elem_of_cons. intros [->|Hq]; [right; auto|]. destruct (IH Hd Hp Hq) as [?|[? ?]]; auto.
Qed.

(** What the hangup makes of its leg. *)
Definition released (ev : SwitchEvent) (p : Party) : Party :=
  let p := CloseBridge (with_release (EvHangupCause ev) (EvBilledSec ev) p) (OccurredAt ev) in
  match apply p TriggerRelease (OccurredAt ev) with Ok p => p | Err _ => p end.

Lemma CloseBridge_release p at_ : ReleaseCause (CloseBridge p at_) = ReleaseCause p /\ BilledSec (CloseBridge p at_) = BilledSec p.
Proof. unfold CloseBridge. destruct (last _) as [b|]; [|done]. by destruct (is_zero _). Qed.

Lemma released_spec ev p : ChannelID (released ev p) = ChannelID p /\ IsActive (released ev p) = false /\
  ReleaseCause (released ev p) = EvHangupCause ev /\ BilledSec (released ev p) = EvBilledSec ev.
Proof.
  unfold released. set (q := CloseBridge _ _). destruct (CloseBridge_release (with_release (EvHangupCause ev) (EvBilledSec ev) p) (OccurredAt ev)) as [H1 H2].
  fold q in H1, H2. assert (Hc : ChannelID q = ChannelID p) by (subst q; by rewrite CloseBridge_channel).
  unfold apply. destruct (PState q) eqn:Eq; simpl; try done. split; [done|]. split; [|done]. unfold IsActive. by rewrite Eq.
Qed.

Lemma hangup_legs self ch ev c p : leg_at c ch = Some p ->
  let x := hangup self ch ev (mkActed c [] false) in
  legs (acCall x) = change_leg ch (fun _ => released ev p) (legs c) /\
  (acFinished x = true <-> Forall (fun q => IsActive q = false) (legs (acCall x)) /\ State (base c) <> CallEnded).
Proof.
  intros Hp. unfold hangup. set (f := fun p => CloseBridge (with_release (EvHangupCause ev) (EvBilledSec ev) p) (OccurredAt ev)).
  set (x1 := on_call (fun c => with_bot c _) (on_call (fun c => on_leg c ch f) (mkActed c [] false))).
  set (x2 := transition self ch TriggerRelease (OccurredAt ev) TypePartyReleased x1).
  assert (Hx2 : legs (acCall x2) = change_leg ch (fun _ => released ev p) (legs c) /\ State (base (acCall x2)) = State (base c) /\ acFinished x2 = false).
  { assert (Hf : forall q, ChannelID (f q) = ChannelID q) by (intros q; subst f; cbv beta; by rewrite CloseBridge_channel).
    assert (E1 : leg_at (acCall x1) ch = Some (f p)).
    { unfold leg_at, PartyByChannel in *. simpl. rewrite leg_at_change by done. unfold legs. by rewrite Hp. }
    subst x2. unfold transition. rewrite E1. unfold released. change (CloseBridge _ _) with (f p).
    assert (Hone : forall l, List.find (fun p => String.eqb (ChannelID p) ch) l = Some p -> change_leg ch f l = change_leg ch (fun _ => f p) l).
    { induction l as [|q l IH]; [done|]. cbn [change_leg List.find]. destruct (String.eqb _ _); [by intros [= ->]|]. intros Hq. by rewrite IH. }
    assert (Htwo : forall g l, change_leg ch g (change_leg ch f l) = change_leg ch (fun q => g (f q)) l).
    { intros g l. induction l as [|q l IH]; [done|]. cbn [change_leg]. destruct (String.eqb (ChannelID q) ch) eqn:E; cbn [change_leg].
      - by rewrite Hf, E.
      - by rewrite E, IH. }
    destruct (apply (f p) TriggerRelease (OccurredAt ev)) as [p'|er]; simpl; [|split; [by apply Hone|done]].
    unfold legs. simpl. split; [by apply Htwo|done]. }
  destruct Hx2 as (El & Es & _). clearbody x2. unfold finish, Finish. rewrite Es.
  pose proof (ActiveParties_none (base (acCall x2))) as Ha.
  destruct (negb _ || bool_decide _) eqn:Eb; simpl.
  - split; [exact El|]. split; [done|]. intros [Hall Hne]. apply orb_true_iff in Eb as [Eb|Eb%bool_decide_eq_true]; [|done].
    apply Ha in Hall. by rewrite Hall in Eb.
  - apply orb_false_iff in Eb as [Eb Eb2%bool_decide_eq_false]. apply negb_false_iff, Nat.eqb_eq, Ha in Eb. split; [exact El|].
    split; [intros _; by split|done].
Qed.

(** C13: The hangup of a leg releases that leg, with the cause and the seconds
    the switch told, and leaves the others as they are; it finishes the call,
    and lets the ledger write its record, exactly when every other leg has been
    released. *)
Theorem hangup_ends_call self c ev p (Hc : call_ok c) (Hk : Kind ev = KindChannelHangup)
    (Hp : leg_at c (EvChannelID ev) = Some p) (Hs : State (base c) <> CallEnded) :
  let x := applySwitchEvent self c ev in
  (exists q, q ∈ legs (acCall x) /\ ChannelID q = EvChannelID ev /\ IsActive q = false /\
     ReleaseCause q = EvHangupCause ev /\ BilledSec q = EvBilledSec ev) /\
  (forall q, ChannelID q <> EvChannelID ev -> q ∈ legs (acCall x) <-> q ∈ legs c) /\
  (acFinished x = true <-> forall q, q ∈ legs c -> ChannelID q <> EvChannelID ev -> IsActive q = false).
Proof.
  intros x. subst x. unfold applySwitchEvent. set (c0 := with_base c (settleTransfers (base c) _ _)).
  assert (H0 : legs c0 = legs c /\ State (base c0) = State (base c)) by (subst c0; unfold legs; simpl; by destruct (stay_kind _)).
  destruct H0 as [El Es]. assert (Hp0 : leg_at c0 (EvChannelID ev) = Some p) by (unfold leg_at, PartyByChannel, legs in *; by rewrite El).
  rewrite Hp0, Hk. destruct (hangup_legs self (EvChannelID ev) ev c0 p Hp0) as [H1 H2]. rewrite El in H1. rewrite Es in H2.
  set (x := hangup _ _ _ _) in *. clearbody x. destruct (released_spec ev p) as (R1 & R2 & R3 & R4).
  pose proof (leg_at_spec _ _ _ Hp) as [Hin Hch].
  assert (Hother : forall q, ChannelID q <> EvChannelID ev -> q ∈ legs (acCall x) <-> q ∈ legs c).
  { intros q Hq. rewrite H1. split; [|by intros ?; apply change_leg_other].
    intros Hq'. destruct (change_leg_inv _ _ _ p q (co_channels _ Hc) Hp Hq') as [->|[? _]]; [congruence|done]. }
  split; [|split; [done|]].
  - exists (released ev p). split; [|by rewrite R1]. rewrite H1.
    destruct (change_leg_elem (EvChannelID ev) (fun _ => released ev p) (legs c) p Hin) as (q & Hq & [->|[-> _]]); [|done].
    destruct (change_leg_inv _ _ _ p p (co_channels _ Hc) Hp Hq) as [E|[_ Hbad]]; [exact (eq_ind p (fun z => z ∈ _) Hq _ E)|done].
  - rewrite H2. rewrite Forall_forall. split.
    + intros [Hall _] q Hq Hne. apply Hall. by apply (Hother q Hne).
    + intros Hall. split; [|done]. intros q Hq. rewrite H1 in Hq.
      destruct (change_leg_inv _ _ _ p q (co_channels _ Hc) Hp Hq) as [->|[? ?]]; auto.
Qed.

(** ** Two calls made one *)

(** C14: The call that is kept in a merge has the legs of both, each channel
    once, and one of them began the conversation; a leg still up on either is up
    on it; the transfers on their way are those of both, its own first; and its
    identity, and whether it has ended, are as before. *)
Theorem merge_is_complete self c d (Hc : call_ok c) (Hd : call_ok d) :
  let '(x, _, _) := merge_into self (handed_over d) c in
  call_ok x /\ CallID (base x) = CallID (base c) /\ IsMintedID x = IsMintedID c /\ State (base x) = State (base c) /\
  (forall ch, ch ∈ channels x <-> ch ∈ channels c \/ ch ∈ channels d) /\
  (forall ch, active ch c \/ (active ch d /\ ch ∉ channels c) -> active ch x) /\
  (forall ch t, transfers (base x) !! ch = Some t <->
     transfers (base c) !! ch = Some t \/ transfers (base c) !! ch = None /\ transfers (base d) !! ch = Some t).
Proof.
  pose proof (run_kept (CMerge (handed_over d)) self 0 c) as Hk. pose proof (run_ok (CMerge (handed_over d)) self 0 c (handed_over_fit d Hd) Hc) as Hok.
  assert (Hrest : let x := (merge_into self (handed_over d) c).1.1 in State (base x) = State (base c) /\ transfers (base x) = transfers (base c) ∪ transfers (base d)).
  { done. }
  assert (Hr : ranCall (run (CMerge (handed_over d)) self 0 c) = (merge_into self (handed_over d) c).1.1) by (simpl; by destruct (merge_into _ _ _) as [[x y] z]).
  rewrite Hr in Hk, Hok. destruct (merge_into self (handed_over d) c) as [[x y] z]. cbn [fst snd] in *.
  destruct Hk as [K1 K2 _ _ K5]. simpl in K5. destruct Hrest as [R1 R2]. split; [done|]. split; [done|]. split; [done|]. split; [done|].
  split; [|split].
  - intros ch. unfold channels at 1. rewrite K5. unfold merged_legs. rewrite normalize_channels. by apply move_legs_spec, Hc.
  - intros ch [Ha|[(p & Hp) Hn]]; unfold active; rewrite K5; [by apply merged_legs_active|].
    apply merged_active; [done|apply Hd|by exists p|done].
  - intros ch t. rewrite R2, lookup_union_Some_raw. done.
Qed.


(** ** In every reachable state *)

(** C3: In every run whose events come in time ([timely]: a bridge names legs
    that are up, a late identity reaches a call that is not ending, none is
    nil), whatever the actors and the requests do in between, a channel is on
    the books of a running call exactly when the registry attributes it to that
    call: so no channel is on two running calls, its call has one leg on it, and
    every call with a leg has exactly one leg that began it. Without the
    condition it fails: [late_bridges_share_a_channel]. *)
Theorem legs_are_bound w r a (Hw : reachable w) (Ha : actors w !! r = Some a) (Hq : quit a = false) :
  (forall ch, ch ∈ channels (call a) <-> byChannel w !! ch = Some r) /\ NoDup (channels (call a)) /\
  (legs (call a) <> [] -> originators (legs (call a)) = 1%nat).
Proof.
  destruct (reachable_in_order w Hw) as [Hok Hb _]. destruct (ro_actors _ Hok r a Ha) as [[H1 H2] _ _ _ _ _ _ _].
  split; [by apply Hb|by split].
Qed.

(** C4: In every run whose events come in time ([timely], as above), whatever
    the actors and the requests do in between, a call is handed to the ledger
    at most once, and one that was absorbed by another never; the calls that
    are still held and were handed over are those that ended, and they take no
    more work. Without the condition an ended call can still be absorbed:
    [late_bridge_reports_twice]. *)
Theorem reported_once w (Hw : reachable w) :
  NoDup (reported (out w)) /\ (forall r, r ∈ absorbed (out w) -> r ∉ reported (out w)) /\
  (forall r a, actors w !! r = Some a ->
     (r ∈ reported (out w) <-> State (base (call a)) = CallEnded) /\ (r ∈ reported (out w) \/ r ∈ absorbed (out w) -> quit a = true)).
Proof.
  destruct (reachable_in_order w Hw) as [Hok _ _]. split; [apply Hok|]. split; [apply Hok|]. intros r a Ha.
  destruct (ro_actors _ Hok r a Ha) as [_ H1 H2 _ _ _ _ H3]. rewrite <- H1. split; [done|]. intros [?|?]; auto.
Qed.

(** A mailbox never holds more than it has room for, and what waits in the
    mailbox of a running call is an event about one of its own channels, or a
    request. *)
Theorem mailboxes_are_bounded w r a (Hw : reachable w) (Ha : actors w !! r = Some a) :
  (length (mailbox a) <= mailboxSize)%nat /\
  (quit a = false -> forall m, m ∈ mailbox a ->
     match m with MEvent ev => EvChannelID ev ∈ channels (call a) | MDo c => outside c = true end).
Proof.
  destruct (reachable_in_order w Hw) as [Hok Hb Hm]. destruct (ro_actors _ Hok r a Ha) as [_ _ _ _ H1 _ H2 _]. split; [done|].
  intros Hq [ev|c] Hin.
  - apply (Hb r a Ha Hq). by apply (Hm r a ev Ha Hq).
  - specialize (H2 Hq). rewrite Forall_forall in H2. by apply (H2 (MDo c)).
Qed.

(** C10: A leg that is up on a call whose identity the dialplan minted is, after
    any timely event but its own hangup (when it is a bridge, its legs are up;
    a late identity reaches a call that is not ending, and none is nil), in
    every run of timely events and whatever the actors and the requests do in
    between, on a running call with a minted identity: bridges and late
    identities never move it to a provisional one. *)
Theorem minted_kept e ev w ch r a (Hw : reachable w) (Ht : timely e ev w) (Hu : up_on ch w r a) (Hm : IsMintedID (call a) = true)
    (Hh : Kind ev = KindChannelHangup -> EvChannelID ev <> ch) :
  exists r' a', up_on ch (Handle e ev w).1 r' a' /\ IsMintedID (call a') = true.
Proof. destruct (Handle_handled e ev w (reachable_in_order w Hw) Ht) as [_ H]. by apply (H ch r a). Qed.

(** ** Witnesses *)

Definition env_of (callID partyID : uuid) : Env :=
  mkEnv (fun s => if String.eqb s "1001" then Some 7%N else None) (fun _ => None)
    (fun s => if String.eqb s "call-99" then Some 99%N else None) 0 callID partyID (fun _ => ∅) (fun _ => None) false false false false.

Definition switch_event (kind : SwitchEventKind) (at_ : instant) (ch other : string) (dir : CallDirection) (ani dest : string)
    (data : gmap string Value) (vars : gmap string string) : SwitchEvent :=
  mkEvent kind at_ ch other "" dir ani dest "public" data "" "" "NORMAL_CLEARING" 5 zero_bot "" 0 "" "" "" "" "" "" 0 0 vars.

Definition named_vars : gmap string string := <["aicc_call_id"%string := "call-99"%string]> ∅.

(** A caller whose call the dialplan named, and an agent's phone with a call of
    its own. *)
Definition caller_arrives : SwitchEvent := switch_event KindChannelCreate 10 "a" "" DirectionInbound "13800000000" "95001" ∅ named_vars.
Definition agent_is_dialled : SwitchEvent := switch_event KindChannelCreate 11 "b" "" DirectionOutbound "95001" "1001" ∅ ∅.
Definition they_are_bridged : SwitchEvent := switch_event KindChannelBridge 12 "b" "a" DirectionOutbound "95001" "1001" ∅ ∅.
Definition caller_hangs_up : SwitchEvent := switch_event KindChannelHangup 13 "a" "" DirectionInbound "13800000000" "95001" ∅ ∅.

Definition world_1 : CWorld := (Handle (env_of 1 21) caller_arrives (start [])).1.
Definition world_2 : CWorld := (Handle (env_of 2 22) agent_is_dialled world_1).1.

Definition actor_at (w : CWorld) (r : nat) : CActor :=
  default (mkActor (mkLive (NewCall 0 0) CallTypeInbound "" false zero_bot None false) [] true) (actors w !! r).

Definition upb (ch : string) (w : CWorld) (r : nat) : bool :=
  bool_decide (byChannel w !! ch = Some r) && bool_decide (is_Some (actors w !! r)) && negb (quit (actor_at w r)) &&
  existsb (fun p => String.eqb (ChannelID p) ch && IsActive p) (legs (call (actor_at w r))) &&
  forallb (fun m => negb (hangs_up ch m)) (mailbox (actor_at w r)).

Lemma upb_up ch w r : upb ch w r = true -> up_on ch w r (actor_at w r).
Proof.
  unfold upb. rewrite !andb_true_iff. intros ((((H1 & H2) & H3) & H4) & H5).
  apply bool_decide_eq_true in H1, H2. apply negb_true_iff in H3. split; [done|].
  split; [unfold actor_at; by destruct H2 as [a ->]|]. constructor; [done| |].
  - apply existsb_exists in H4 as (p & Hp & E). apply andb_true_iff in E as [E1 E2]. exists p.
    split; [by apply list_elem_of_In|]. split; [by apply String.eqb_eq|done].
  - rewrite forallb_forall in H5. apply Forall_forall. intros m Hm. apply negb_true_iff, H5. by apply list_elem_of_In.
Qed.

Lemma unnamed_ready e ev w : named e ev = None -> ready e ev w.
Proof. intros H id r a E. rewrite H in E. discriminate E. Qed.

Lemma reachable_1 : reachable world_1.
Proof.
  apply reach_event; [apply reach_start|]. constructor; [by vm_compute|by apply ready_unbound|done].
Qed.

Lemma reachable_2 : reachable world_2.
Proof. apply reach_event; [apply reachable_1|]. constructor; [by vm_compute|by apply unnamed_ready|done]. Qed.

Lemma hangup_ends_call_witness :
  acFinished (applySwitchEvent 0 (call (actor_at world_1 0)) caller_hangs_up) = true.
Proof.
  pose proof (hangup_ends_call 0 (call (actor_at world_1 0)) caller_hangs_up) as H.
  destruct (leg_at (call (actor_at world_1 0)) "a") as [p|] eqn:Ep; [|vm_compute in Ep; discriminate].
  assert (Hc : call_ok (call (actor_at world_1 0))).
  { constructor; [apply (bool_decide_eq_true_1 (NoDup (channels (call (actor_at world_1 0))))); vm_compute; reflexivity|intros _; vm_compute; reflexivity]. }
  assert (Hs : State (base (call (actor_at world_1 0))) <> CallEnded) by (vm_compute; discriminate).
  destruct (H p Hc eq_refl Ep Hs) as (_ & _ & Hf). apply Hf. clear.
  assert (Hall : forallb (fun q => bool_decide (ChannelID q = "a"%string)) (legs (call (actor_at world_1 0))) = true) by (vm_compute; reflexivity).
  intros q Hq Hne. rewrite forallb_forall in Hall. apply list_elem_of_In, Hall, bool_decide_eq_true in Hq. exact (False_ind _ (Hne Hq)).
Defined.

Lemma merge_is_complete_witness :
  let '(x, _, _) := merge_into 0 (handed_over (call (actor_at world_2 1))) (call (actor_at world_2 0)) in
  call_ok x /\ CallID (base x) = 99%N /\ "b"%string ∈ channels x.
Proof.
  pose proof (merge_is_complete 0 (call (actor_at world_2 0)) (call (actor_at world_2 1))) as H.
  assert (Hc : call_ok (call (actor_at world_2 0))) by apply (ro_actors _ (io_ok _ (reachable_in_order _ reachable_2)) 0 _ (proj1 (proj2 (upb_up "a" world_2 0 ltac:(vm_compute; reflexivity))))).
  assert (Hd : call_ok (call (actor_at world_2 1))) by apply (ro_actors _ (io_ok _ (reachable_in_order _ reachable_2)) 1 _ (proj1 (proj2 (upb_up "b" world_2 1 ltac:(vm_compute; reflexivity))))).
  specialize (H Hc Hd). destruct (merge_into 0 (handed_over (call (actor_at world_2 1))) (call (actor_at world_2 0))) as [[x y] z].
  destruct H as (H1 & H2 & _ & _ & H3 & _). split; [exact H1|]. split; [rewrite H2; vm_compute; reflexivity|].
  apply H3. right. apply (bool_decide_eq_true_1 ("b"%string ∈ channels (call (actor_at world_2 1)))). vm_compute. reflexivity.
Defined.


Lemma legs_are_bound_witness : "a"%string ∈ channels (call (actor_at world_2 0)) /\ originators (legs (call (actor_at world_2 0))) = 1%nat.
Proof.
  pose proof (upb_up "a" world_2 0 ltac:(vm_compute; reflexivity)) as (E & Ha & Hu).
  destruct (legs_are_bound world_2 0 _ reachable_2 Ha (up_runs _ _ Hu)) as (H1 & _ & H2). split; [by apply H1|].
  apply H2. vm_compute. discriminate.
Defined.

(** The two calls made one, and the absorbed one on the books of the merge. *)
Definition world_3 : CWorld := (Handle (env_of 3 23) they_are_bridged world_2).1.

Lemma reachable_3 : reachable world_3.
Proof.
  apply reach_event; [apply reachable_2|]. constructor; [by vm_compute|by apply unnamed_ready|].
  intros _ ch r [-> | ->] Hc; exists (actor_at world_2 r).
  - assert (r = 1%nat) as -> by (vm_compute in Hc; congruence). apply (upb_up "b"). vm_compute. reflexivity.
  - assert (r = 0%nat) as -> by (vm_compute in Hc; congruence). apply (upb_up "a"). vm_compute. reflexivity.
Qed.

Lemma reported_once_witness : 1%nat ∈ absorbed (out world_3) /\ 1%nat ∉ reported (out world_3).
Proof.
  assert (H : 1%nat ∈ absorbed (out world_3)) by (apply (bool_decide_eq_true_1 (1%nat ∈ absorbed (out world_3))); vm_compute; reflexivity).
  split; [exact H|]. destruct (reported_once world_3 reachable_3) as (_ & Ha & _). by apply Ha.
Defined.

Lemma mailboxes_are_bounded_witness : (length (mailbox (actor_at world_3 0)) <= 256)%nat.
Proof.
  pose proof (upb_up "a" world_3 0 ltac:(vm_compute; reflexivity)) as (_ & Ha & _).
  apply (mailboxes_are_bounded world_3 0 _ reachable_3 Ha).
Defined.

Lemma minted_kept_witness : exists r a, up_on "a" world_3 r a /\ IsMintedID (call a) = true.
Proof.
  apply (minted_kept (env_of 3 23) they_are_bridged world_2 "a" 0 (actor_at world_2 0) reachable_2).
  - constructor; [by vm_compute|by apply unnamed_ready|].
    intros _ ch r [-> | ->] Hc; exists (actor_at world_2 r).
    + assert (r = 1%nat) as -> by (vm_compute in Hc; congruence). apply (upb_up "b"). vm_compute. reflexivity.
    + assert (r = 0%nat) as -> by (vm_compute in Hc; congruence). apply (upb_up "a"). vm_compute. reflexivity.
  - apply upb_up. vm_compute. reflexivity.
  - vm_compute. reflexivity.
  - discriminate.
Defined.

(** ** Runs the code does not mean *)

(** An agent's phone places a call; the dialplan names it when it answers. *)
Definition agent_answers : SwitchEvent := switch_event KindChannelAnswer 12 "b" "" DirectionOutbound "95001" "1001" ∅ named_vars.
Definition world_named : CWorld := (Handle (env_of 3 23) agent_answers (Handle (env_of 2 22) agent_is_dialled (start [])).1).1.

Definition told_on_call (w : CWorld) : list (uuid * bool * uuid) :=
  omap (fun o => match o with OPort (SetOnCall a b c) => Some (a, b, c) | _ => None end) (out w).

(** The agent's leg is on call 99, and the last the roster was told is that the
    agent is on call 2, which nobody can listen in on any more. *)
Example roster_names_absorbed_call :
  told_on_call world_named = [(7%N, true, 2%N)] /\ (CallForChannel "b" world_named).2 = Some 99%N /\
  map_Forall (fun _ a => CallID (base (call a)) = 2%N -> quit a = true) (actors world_named).
Proof. split; [vm_compute; reflexivity|]. split; [vm_compute; reflexivity|]. apply (bool_decide_eq_true_1 _). vm_compute. reflexivity. Qed.

(** An agent's leg hangs up, which ends its call, and the bridge of that leg
    with the caller's comes after; the actor that stopped has not left, and
    still runs what it is sent. *)
Definition takes_late (e : Env) (ev : SwitchEvent) (w : CWorld) : CWorld :=
  (Handle e ev (with_sched (replicate 40 (mkTurn [] LRun)) w)).1.
Definition agent_hangs_up : SwitchEvent := switch_event KindChannelHangup 12 "b" "" DirectionOutbound "95001" "1001" ∅ ∅.
Definition world_ended : CWorld := step (Handle (env_of 3 23) agent_hangs_up world_2).1 (SRun 1).
Definition world_taken : CWorld := takes_late (env_of 4 24) they_are_bridged world_ended.

(** The ledger has the agent's call, and its leg is on the caller's call too. *)
Example late_bridge_reports_twice :
  reported (out world_taken) = [1%nat] /\ absorbed (out world_taken) = [1%nat] /\
  ((fun p => (ChannelID p, PState p)) <$> legs (call (actor_at world_taken 0))) = [("a"%string, PartyDialing); ("b"%string, PartyReleased)].
Proof. repeat split; vm_compute; reflexivity. Qed.

(** A leg that names the ended call joins it, and is bridged to a third. *)
Definition env_two : Env :=
  mkEnv (fun _ => None) (fun _ => None) (fun _ => Some 2%N) 0 5 25 (fun _ => ∅) (fun _ => None) false false false false.
Definition world_shared : CWorld :=
  let w := takes_late env_two (switch_event KindChannelCreate 14 "d" "" DirectionInbound "13" "95001" ∅ named_vars) world_taken in
  let w := takes_late (env_of 6 26) (switch_event KindChannelCreate 15 "e" "" DirectionInbound "14" "95001" ∅ ∅) w in
  takes_late (env_of 7 27) (switch_event KindChannelBridge 16 "e" "d" DirectionInbound "14" "95001" ∅ ∅) w.

Example late_bridges_share_a_channel :
  quit (actor_at world_shared 0) = false /\ quit (actor_at world_shared 2) = false /\
  (ChannelID <$> legs (call (actor_at world_shared 0))) = ["a"; "b"]%string /\
  (ChannelID <$> legs (call (actor_at world_shared 2))) = ["e"; "b"; "d"]%string.
Proof. repeat split; vm_compute; reflexivity. Qed.

(** A call that carries an order, and a later request that changes it. *)
Definition order (v : string) : gmap string Value := <["orderId"%string := VStr v]> ∅.
Definition caller_with_order : SwitchEvent := switch_event KindChannelCreate 10 "a" "" DirectionInbound "13800000000" "95001" (order "A") ∅.
Definition world_order : CWorld := (Handle (env_of 1 21) caller_with_order (start [])).1.
Definition first_dialing (w : CWorld) : option Told :=
  head (omap (fun o => match o with OTold t => if bool_decide (TType t = TypePartyDialing) then Some t else None | _ => None end) (out w)).

(** The envelope published when the leg was dialled says something else once
    the data has changed: it holds the call's own map. *)
Example envelope_follows_the_call :
  (t ← first_dialing world_order; event_data world_order t) = Some (order "A") /\
  (t ← first_dialing world_order; event_data (Do 1%N (CUserData (order "B")) world_order).1 t) = Some (order "B").
Proof. split; vm_compute; reflexivity. Qed.

(** In a merge the absorbed call's value stands where both calls have one. *)
Example merging_overwrites : let c := with_user_data (call (actor_at world_1 0)) (order "kept") in
  UserData (base (merge_into 0 (handed_over (with_user_data c (order "absorbed"))) c).1.1) = order "absorbed".
Proof. vm_compute. reflexivity. Qed.

End CoordinatorProps.
