(* ===== verification/Seconds.v ===== *)
(** * Whole seconds

    Go's [int(d.Seconds())] goes through floating point: the whole seconds and
    the rest divided by a thousand million, added, and cut off. For durations
    under 2^22 seconds (48 days) nothing is lost, and the result is the whole
    seconds: the rounding of the quotient and of the sum never reaches the next
    second. *)

From S2P Require Import Prelude Float64 Schedule Call.

Module Seconds.
Import Float64 Call.

(** ** Rounding *)

Lemma shr_1_m r : 0 <= shr_m r -> shr_m (shr_1 r) = shr_m r / 2.
Proof.
  destruct r as [[|[p|p|]|p] b s]; simpl; intros H; try done.
  - rewrite Pos2Z.inj_xI. rewrite Z.add_comm, Z.mul_comm, Z.div_add by lia. done.
  - rewrite Pos2Z.inj_xO. rewrite Z.mul_comm, Z.div_mul by lia. done.
Qed.

Lemma iter_shr_m p r : 0 <= shr_m r -> shr_m (iter_pos shr_1 p r) = shr_m r / 2 ^ Z.pos p.
Proof.
  revert r. induction p as [p IH|p IH|]; intros r Hr; simpl; [| |by rewrite shr_1_m].
  - assert (H1 : shr_m (shr_1 r) = shr_m r / 2) by by apply shr_1_m.
    assert (H2 : 0 <= shr_m (shr_1 r)) by (rewrite H1; by apply Z.div_pos).
    pose proof (IH _ H2) as H3. rewrite IH by (rewrite H3; apply Z.div_pos; lia). rewrite H3, H1.
    rewrite !Z.div_div by lia. f_equal. rewrite (Pos2Z.inj_xI p).
    replace (2 * Z.pos p + 1) with (1 + (Z.pos p + Z.pos p)) by lia. rewrite !Z.pow_add_r by lia. lia.
  - pose proof (IH _ Hr) as H3. rewrite IH by (rewrite H3; apply Z.div_pos; lia). rewrite H3.
    rewrite Z.div_div by lia. f_equal. rewrite (Pos2Z.inj_xO p).
    replace (2 * Z.pos p) with (Z.pos p + Z.pos p) by lia. by rewrite Z.pow_add_r by lia.
Qed.

Lemma digits_bounds p n : Z.pos (digits2_pos p) = n -> 2 ^ (n - 1) <= Z.pos p < 2 ^ n.
Proof. intros <-. apply digits2_pos_bounds. Qed.

Lemma digits_unique p n : 0 < n -> 2 ^ (n - 1) <= Z.pos p < 2 ^ n -> Z.pos (digits2_pos p) = n.
Proof.
  intros Hn [H1 H2]. pose proof (digits2_pos_bounds p) as [D1 D2]. set (d := Z.pos (digits2_pos p)) in *.
  assert (d - 1 < n) by (apply (Z.pow_lt_mono_r_iff 2); lia).
  assert (n - 1 < d) by (apply (Z.pow_lt_mono_r_iff 2); lia). lia.
Qed.

(** A mantissa of 53 digits or more is cut to 53, and rounded by one at most. *)
Lemma round_near m e l : 53 <= Z.pos (digits2_pos m) -> -1074 <= e -> Z.pos (digits2_pos m) + e <= 1000 ->
  exists v m' j, binary_round_aux 53 1024 false (Z.pos m) e l = S754_finite false m' (e + (Z.pos (digits2_pos m) - 53) + j) /\
    (j = 0 \/ j = 1) /\ Z.pos m' * 2 ^ j = v /\
    Z.pos m / 2 ^ (Z.pos (digits2_pos m) - 53) <= v <= Z.pos m / 2 ^ (Z.pos (digits2_pos m) - 53) + 1.
Proof.
  set (d := Z.pos (digits2_pos m)). intros Hd He1 He2. pose proof (digits_bounds m d eq_refl) as [B1 B2].
  set (k := d - 53) in *. set (m1 := Z.pos m / 2 ^ k).
  assert (Hm1 : 2 ^ 52 <= m1 < 2 ^ 53).
  { subst m1. split; [apply Z.div_le_lower_bound; [lia|]|apply Z.div_lt_upper_bound; [lia|]]; rewrite <- Z.pow_add_r by lia.
    - by replace (k + 52) with (d - 1) by lia.
    - by replace (k + 53) with d by lia. }
  assert (Hfe : forall x, -1074 <= x - 53 -> fexp 53 1024 x = x - 53) by (intros x Hx; unfold fexp, emin; lia).
  assert (Hfirst : exists r, shr_fexp 53 1024 (Z.pos m) e l = (r, e + k) /\ shr_m r = m1).
  { unfold shr_fexp. simpl Zdigits2. fold d. rewrite Hfe by lia. replace (d + e - 53 - e) with k by lia.
    assert (Hr : shr_m (shr_record_of_loc (Z.pos m) l) = Z.pos m) by by destruct l as [|[]].
    unfold shr. destruct k as [|p|p] eqn:Ek; [|eexists; split; [done|]|lia].
    - exists (shr_record_of_loc (Z.pos m) l). rewrite Z.add_0_r. split; [done|]. rewrite Hr. subst m1. by rewrite Z.pow_0_r, Z.div_1_r.
    - rewrite iter_shr_m by (rewrite Hr; lia). by rewrite Hr. }
  destruct Hfirst as (r & Er & Em). unfold binary_round_aux. rewrite Er.
  set (v := round_nearest_even (shr_m r) (loc_of_shr_record r)).
  assert (Hv : m1 <= v <= m1 + 1).
  { subst v. rewrite Em. unfold round_nearest_even. destruct (loc_of_shr_record r) as [|[]]; [lia| |lia|lia]. destruct (Z.even m1); lia. }
  destruct v as [|pv|pv] eqn:Ev; [lia| |lia].
  destruct (Z.eq_dec (Z.pos pv) (2 ^ 53)) as [E53|N53].
  - assert (Edg : Z.pos (digits2_pos pv) = 54) by (apply digits_unique; lia).
    assert (Hs : shr_fexp 53 1024 (Z.pos pv) (e + k) loc_Exact = (iter_pos shr_1 1 (Build_shr_record (Z.pos pv) false false), e + k + 1)).
    { unfold shr_fexp. simpl Zdigits2. rewrite Edg, Hfe by lia. replace (54 + (e + k) - 53 - (e + k)) with 1 by lia. done. }
    rewrite Hs, (iter_shr_m 1) by (simpl; lia). simpl shr_m. rewrite E53. change (2 ^ 53 / 2 ^ 1) with (Z.pos 4503599627370496).
    exists (Z.pos pv), 4503599627370496%positive, 1.
    rewrite (proj2 (Z.leb_le (e + k + 1) _)) by lia. split; [done|]. split; [auto|]. rewrite E53. split; [done|lia].
  - assert (Edg : Z.pos (digits2_pos pv) = 53) by (apply digits_unique; lia).
    assert (Hs : shr_fexp 53 1024 (Z.pos pv) (e + k) loc_Exact = (Build_shr_record (Z.pos pv) false false, e + k)).
    { unfold shr_fexp. simpl Zdigits2. rewrite Edg, Hfe by lia. replace (53 + (e + k) - 53 - (e + k)) with 0 by lia. done. }
    rewrite Hs. simpl shr_m. exists (Z.pos pv), pv, 0. rewrite (proj2 (Z.leb_le (e + k) _)) by lia. rewrite Z.add_0_r.
    split; [done|]. split; [auto|]. split; [lia|done].
Qed.

(** ** The two floats that are added *)

(** A small integer as a float. *)
Lemma of_int_finite x : 0 < x < 2 ^ 53 ->
  exists m e, of_int x = S754_finite false m e /\ Z.pos (digits2_pos m) = 53 /\ -53 <= e <= 0 /\ Z.pos m = x * 2 ^ (- e).
Proof.
  intros Hx. destruct x as [|m|m]; [lia| |lia]. unfold of_int, binary_normalize, binary_round.
  pose proof (digits2_pos_small m 53 ltac:(lia)) as Hd. unfold shl_align, fexp, emin.
  replace (Z.max (Z.pos (digits2_pos m) + 0 - 53) (3 - 1024 - 53) - 0) with (Z.pos (digits2_pos m) - 53) by lia.
  replace (Z.max (Z.pos (digits2_pos m) + 0 - 53) (3 - 1024 - 53)) with (Z.pos (digits2_pos m) - 53) by lia.
  destruct (Z.pos (digits2_pos m) - 53) as [|q|q] eqn:E; [|lia|].
  - exists m, 0. rewrite round_exact by lia. split; [done|]. split; [lia|]. split; [lia|]. rewrite Z.mul_1_r. done.
  - exists (Pos.iter xO m q), (Z.neg q). rewrite round_exact; [|rewrite digits2_pos_iter; lia|lia|lia]. split; [done|].
    split; [rewrite digits2_pos_iter; lia|]. split; [lia|]. rewrite iter_xO_value. by replace (- Z.neg q) with (Z.pos q) by lia.
Qed.

Definition giga : f64 := of_int 1000000000.

Lemma giga_finite : giga = S754_finite false 8388608000000000 (-23).
Proof. reflexivity. Qed.

(** The quotient stays away from one. *)
Lemma fraction_finite n : 0 < n < 1000000000 ->
  exists m e, fdiv (of_int n) giga = S754_finite false m e /\ -200 <= e < 0 /\ Z.pos m * 2 ^ 30 <= (2 ^ 30 - 1) * 2 ^ (- e).
Proof.
  intros Hn. destruct (of_int_finite n ltac:(lia)) as (m1 & e1 & E1 & D1 & He1 & V1). rewrite E1, giga_finite.
  unfold fdiv, SFdiv, SFdiv_core_binary. assert (Z1 : Zdigits2 (Z.pos m1) = 53) by exact D1.
  assert (Z2 : Zdigits2 8388608000000000 = 53) by reflexivity. rewrite Z1, Z2. cbv zeta.
  assert (Hfe : fexp 53 1024 (53 + e1 - (53 + -23)) = e1 + 23 - 53) by (unfold fexp, emin; lia). rewrite Hfe.
  replace (Z.min (e1 + 23 - 53) (e1 - -23)) with (e1 - 30) by lia. replace (e1 - -23 - (e1 - 30)) with 53 by lia.
  cbv iota. rewrite Z.shiftl_mul_pow2 by lia. pose proof (digits_bounds m1 53 D1) as [B1 B2].
  pose proof (Z.div_eucl_eq (Z.pos m1 * 2 ^ 53) 8388608000000000 ltac:(lia)) as Heq.
  pose proof (Z.mod_pos_bound (Z.pos m1 * 2 ^ 53) 8388608000000000 ltac:(lia)) as Hmod. unfold Z.modulo in Hmod.
  destruct (Z.div_eucl (Z.pos m1 * 2 ^ 53) 8388608000000000) as [q r].
  assert (Hq : 2 ^ 51 < q < 2 ^ 54) by lia. destruct q as [|q|q]; [lia| |lia].
  destruct (Z.lt_ge_cases (Z.pos q) (2 ^ 52)) as [Hsmall|Hbig]; [lia|].
  assert (Hd : Z.pos (digits2_pos q) = 53 \/ Z.pos (digits2_pos q) = 54).
  { destruct (Z.lt_ge_cases (Z.pos q) (2 ^ 53)); [left|right]; apply digits_unique; lia. }
  cbv beta iota zeta. change (xorb false false) with false.
  destruct (round_near q (e1 - 30) (new_location 8388608000000000 r) ltac:(lia) ltac:(lia) ltac:(lia)) as (v & m' & j & -> & Hj & Hv & Hb).
  eexists m', _. split; [reflexivity|]. split; [lia|].
  set (k := Z.pos (digits2_pos q) - 53) in *. assert (Hk : k = 0 \/ k = 1) by lia.
  assert (He : 23 <= - e1).
  { assert (2 ^ 22 < 2 ^ (- e1)) as H%Z.pow_lt_mono_r_iff by nia; lia. }
  set (w := 2 ^ (30 - e1)). assert (Ew : w = 2 ^ 30 * 2 ^ (- e1)) by (subst w; rewrite <- Z.pow_add_r by lia; f_equal; lia).
  assert (Hw : 2 ^ 53 <= w) by (subst w; apply Z.pow_le_mono_r; lia).
  assert (Hq9 : Z.pos q * 1000000000 <= 999999999 * w) by nia.
  assert (Et : 2 ^ (- (e1 - 30 + k + j)) * 2 ^ j * 2 ^ k = w) by (subst w; rewrite <- !Z.pow_add_r by lia; f_equal; lia).
  assert (Hvk : v * 2 ^ k <= Z.pos q + 2).
  { pose proof (Z.mul_div_le (Z.pos q) (2 ^ k) ltac:(destruct Hk as [-> | ->]; lia)). destruct Hk as [-> | ->]; lia. }
  set (t := 2 ^ (- (e1 - 30 + k + j))) in *. clearbody t w. clear E1 Heq Hfe B1 B2 D1 V1 Hmod Ew He He1.
  destruct Hj as [-> | ->], Hk as [Ek|Ek]; rewrite Ek in *; lia.
Qed.

(** ** The sum *)

(** A sum that stays away from the next integer is cut off to the right one. *)
Lemma trunc_round m f a : 0 <= a < 2 ^ 22 -> 0 < f <= 400 -> a * 2 ^ f <= Z.pos m -> Z.pos m * 2 ^ 30 <= (a * 2 ^ 30 + (2 ^ 30 - 1)) * 2 ^ f ->
  f64_trunc (binary_round 53 1024 false m (- f)) = a.
Proof.
  intros Ha Hf Hlo Hhi. unfold binary_round. pose proof (digits2_pos_bounds m) as [B1 B2].
  set (d := Z.pos (digits2_pos m)) in *. assert (Hd : 0 < d) by lia.
  assert (Hdf : d <= f + 22).
  { assert (Hlt : 2 ^ (d - 1) < 2 ^ (f + 22)); [|apply Z.pow_lt_mono_r_iff in Hlt; lia]. rewrite (Z.pow_add_r 2 f 22) by lia. nia. }
  assert (Hlt : Z.pos m < (a + 1) * 2 ^ f) by nia.
  assert (Hfe : fexp 53 1024 (d + - f) = d - f - 53) by (unfold fexp, emin; lia). rewrite Hfe.
  unfold shl_align. replace (d - f - 53 - - f) with (d - 53) by lia.
  destruct (Z.lt_ge_cases d 53) as [Hs|Hs].
  - destruct (d - 53) as [|p|p] eqn:Ep; [lia|lia|].
    rewrite round_exact; [|rewrite digits2_pos_iter; lia|lia|lia]. unfold f64_trunc. rewrite (proj2 (Z.leb_gt 0 _)) by lia.
    rewrite iter_xO_value. replace (- (d - f - 53)) with (f + Z.pos p) by lia. rewrite Z.pow_add_r by lia.
    rewrite Z.div_mul_cancel_r by lia. symmetry. apply Z.div_unique with (Z.pos m - a * 2 ^ f); [left|]; nia.
  - assert (E : (match d - 53 with Z.neg p => (Pos.iter xO m p, d - f - 53) | _ => (m, - f) end) = (m, - f)) by (by destruct (d - 53) eqn:?; [| |lia]).
    rewrite E. destruct (round_near m (- f) loc_Exact Hs ltac:(lia) ltac:(fold d; lia)) as (v & m' & j & -> & Hj & Hv & Hb). fold d in Hb |- *.
    unfold f64_trunc. rewrite (proj2 (Z.leb_gt 0 _)) by lia. set (k := d - 53) in *.
    assert (Hk : 0 <= k <= f - 31) by lia. set (u := f - k - j). replace (- (- f + k + j)) with u by lia.
    assert (E1 : 2 ^ (f - k) = 2 ^ u * 2 ^ j) by (subst u; rewrite <- Z.pow_add_r by lia; f_equal; lia).
    assert (E2 : 2 ^ f = 2 ^ (f - k) * 2 ^ k) by (rewrite <- Z.pow_add_r by lia; f_equal; lia).
    assert (E3 : 2 ^ (f - k) = 2 ^ (f - k - 30) * 2 ^ 30) by (rewrite <- Z.pow_add_r by lia; f_equal; lia).
    assert (H2 : 2 <= 2 ^ (f - k - 30)) by (change 2 with (2 ^ 1) at 1; apply Z.pow_le_mono_r; lia).
    assert (Hlov : a * 2 ^ (f - k) <= v).
    { etrans; [|apply Hb]. apply Z.div_le_lower_bound; [lia|]. nia. }
    assert (Hhiv : v < (a + 1) * 2 ^ (f - k)).
    { assert (Z.pos m / 2 ^ k <= (a + 1) * 2 ^ (f - k) - 2 ^ (f - k - 30)); [|lia].
      apply Z.div_le_upper_bound; [lia|]. rewrite E2 in Hhi. rewrite E3 in Hhi |- *.
      set (x := 2 ^ k) in *. set (y := 2 ^ (f - k - 30)) in *. clearbody x y. nia. }
    symmetry. apply Z.div_unique with (Z.pos m' - a * 2 ^ u); [|lia].
    rewrite E1, <- Hv in Hlov, Hhiv. set (x := 2 ^ j) in *. assert (0 < x) by (subst x; lia). clearbody x. left. nia.
Qed.

(** For a duration under 2^22 seconds, which is 48 days, Go's
    [int(d.Seconds())] is exactly its whole seconds, the detour through floating
    point notwithstanding. *)
Theorem intSeconds_whole d (Hd : 0 <= d < 2 ^ 22 * second) : intSeconds d = d / second.
Proof.
  unfold intSeconds. change (of_int 1000000000) with giga. unfold second in *.
  rewrite Z.quot_div_nonneg, Z.rem_mod_nonneg by lia. set (a := d / 1000000000). set (n := d mod 1000000000).
  assert (Ha : 0 <= a < 2 ^ 22).
  { subst a. split; [by apply Z.div_pos; lia|]. apply Z.div_lt_upper_bound; lia. }
  assert (Hn : 0 <= n < 1000000000) by (apply Z.mod_pos_bound; lia). clearbody a n. clear Hd d.
  destruct (Z.eq_dec n 0) as [->|Hn0].
  - change (fdiv (of_int 0) giga) with (S754_zero false). destruct (Z.eq_dec a 0) as [->|Ha0]; [done|].
    destruct (of_int_finite a ltac:(lia)) as (m & ex & -> & Dm & He & Vm). simpl.
    destruct (Z.leb_spec 0 ex) as [Hle|Hlt]; [|rewrite Vm, Z.div_mul; lia].
    assert (ex = 0) as -> by lia. change (- 0) with 0 in Vm. lia.
  - destruct (fraction_finite n ltac:(lia)) as (mq & eq_ & -> & Heq & Hb).
    destruct (Z.eq_dec a 0) as [->|Ha0].
    { change (of_int 0) with (S754_zero false). simpl. rewrite (proj2 (Z.leb_gt 0 _)) by lia. apply Z.div_small. nia. }
    destruct (of_int_finite a ltac:(lia)) as (ms & es & -> & Ds & He & Vs). unfold fadd, SFadd.
    assert (Hsh : forall m ex, Z.min es eq_ <= ex -> Z.pos (fst (shl_align m ex (Z.min es eq_))) = Z.pos m * 2 ^ (ex - Z.min es eq_)).
    { intros m ex Hex. unfold shl_align. destruct (Z.min es eq_ - ex) as [|p|p] eqn:E; simpl fst.
      - replace (ex - Z.min es eq_) with 0 by lia. lia.
      - lia.
      - rewrite iter_xO_value. do 2 f_equal. lia. }
    cbv zeta. simpl cond_Zopp. rewrite !Hsh by lia. set (f := - Z.min es eq_).
    assert (E1 : Z.pos ms * 2 ^ (es - Z.min es eq_) = a * 2 ^ f) by (rewrite Vs, <- Z.mul_assoc, <- Z.pow_add_r by lia; do 2 f_equal; lia).
    assert (E2 : 2 ^ f = 2 ^ (- eq_) * 2 ^ (eq_ - Z.min es eq_)) by (rewrite <- Z.pow_add_r by lia; f_equal; lia).
    set (x := 2 ^ (eq_ - Z.min es eq_)) in *. assert (Hx : 0 < x) by (subst x; lia).
    rewrite E1. replace (Z.min es eq_) with (- f) by lia. unfold binary_normalize.
    destruct (a * 2 ^ f + Z.pos mq * x) as [|m|m] eqn:Em; [nia| |nia]. apply trunc_round; [done|lia|nia|].
    rewrite <- Em, E2. clearbody x. nia.
Qed.

Lemma intSeconds_whole_witness : intSeconds (103 * second + 570000000) = 103.
Proof. rewrite (intSeconds_whole (103 * second + 570000000)); [reflexivity|unfold second; lia]. Defined.

End Seconds.
