(* ===== verification/CallRecord.v ===== *)
(** * Call records: [internal/telephony/cdr.go]

    What the ledger is told of a call that has finished: a snapshot of the call
    and, from the facts recorded on it, one row ([assemble]) with the journey of
    the call. The row is a function of the snapshot, of the clock for a call
    that never ended, and of the directory of queues. Writing it, and booking
    the audio ([ingestRecording]), happens in goroutines of its own; what they
    do is a list of effects here.

    A leg of the snapshot is a leg of [Call.v]: a moment that the snapshot has
    as a null pointer is the zero time. A pointer to a leg is its place with the
    leg. *)

From S2P Require Import Prelude GoText Calendar Schedule Call TelephonyData Coordinator.

Module CallRecord.
Import GoText Call TelephonyData.

(** [internal/telephony/call.go:Snapshot] *)
Record Snapshot := mkSnap {
  sCallID : uuid;
  sCallType : CallType;
  sState : CallState;
  sLanguage : string;
  sQueueID : option uuid;
  sParties : list Party;
  sUserData : gmap string Value;
  sQueue : QueueFacts;
  sQueueStays : list QueueFacts;
  sBot : BotShare;
  sIsBotAbandoned : bool;
  sCreatedAt : instant;
  sEndedAt : instant
}.

(** [internal/telephony/call.go:Call.Snapshot] *)
Definition snapshot (c : LiveCall) : Snapshot :=
  mkSnap (CallID (base c)) (LCallType c) (State (base c)) (Language c) (LQueueID c) (legs c) (UserData (base c))
    (CurrentQueue (base c)) (QueueStays (base c)) (LBot c) (IsBotAbandoned c) (CreatedAt (base c)) (CEndedAt (base c)).

Definition Ref : Type := nat * Party.
Definition refs (s : Snapshot) : list Ref := imap pair (sParties s).
Definition same (p q : Ref) : bool := bool_decide (p.1 = q.1).
Definition answered (p : Ref) : bool := negb (is_zero (AnsweredAt p.2)).
Definition released (p : Ref) : bool := negb (is_zero (ReleasedAt p.2)).
Definition begins (p : Ref) : bool := bool_decide (Role p.2 = RoleOriginator).
Definition is_agent (p : Ref) : bool := bool_decide (is_Some (PAgentID p.2)).
Definition seconds_between (t u : instant) : Z := intSeconds (Calendar.Sub u t).

(** ** Picking legs *)

(** [internal/telephony/cdr.go:split] *)
Definition split (s : Snapshot) : option Ref * list Ref :=
  fold_left (fun acc p => if begins p then (Some p, acc.2) else if is_agent p then (acc.1, acc.2 ++ [p]) else acc) (refs s) (None, []).

(** [internal/telephony/cdr.go:dialledLegs] *)
Definition dialledLegs (s : Snapshot) : list Ref :=
  List.filter (fun p => negb (begins p || is_agent p || IsBotLeg p.2)) (refs s).

(** [internal/telephony/cdr.go:isAgentPlaced] *)
Definition isAgentPlaced (originator : option Ref) : bool :=
  match originator with Some p => negb (String.eqb (PExtension p.2) "") | None => false end.

(** [internal/telephony/cdr.go:botLeg] *)
Definition botLeg (s : Snapshot) : option Ref := List.find (fun p => IsBotLeg p.2) (refs s).

(** [internal/telephony/cdr.go:botJoined] *)
Definition botJoined (s : Snapshot) (botSec : Z) : bool :=
  (match botLeg s with Some p => answered p | None => false end) || (0 <? botSec) || HandedOver (sBot s).

(** [internal/telephony/cdr.go:billedLeg] *)
Definition billedLeg (s : Snapshot) (originator : option Ref) (dialled : list Ref) (placed : bool) : option Ref :=
  match sCallType s with
  | CallTypeInternal => None
  | CallTypeOutbound => if placed then List.find answered dialled else originator
  | _ => originator
  end.

(** [internal/telephony/cdr.go:talkingLegs] *)
Definition talkingLegs (agentLegs : list Ref) (placed : bool) (dialled : list Ref) : list Ref :=
  if placed then agentLegs ++ dialled else agentLegs.

Definition spans_of (l : list Ref) : list (Ref * BridgeSpan) := flat_map (fun p => map (pair p) (Bridges p.2)) l.

(** [internal/telephony/cdr.go:firstBridgedLeg] *)
Definition firstBridgedLeg (l : list Ref) : option Ref :=
  (fold_left (fun acc pb => if is_zero acc.1 || (StartedAt pb.2 <? acc.1) then (StartedAt pb.2, Some pb.1) else acc)
     (spans_of l) (zero_time, None)).2.

(** [internal/telephony/cdr.go:ringSpan] *)
Definition ringSpan (agentLegs : list Ref) : Z :=
  let '(first, last) :=
    fold_left (fun acc p =>
      (earlier acc.1 (PCreatedAt p.2),
       let stop := if released p then ReleasedAt p.2 else PCreatedAt p.2 in if acc.2 <? stop then stop else acc.2))
      agentLegs (zero_time, zero_time) in
  if is_zero first || negb (first <? last) then 0 else seconds_between first last.

(** ** Queues *)

(** [internal/telephony/cdr.go:queueStays] *)
Definition queueStays (s : Snapshot) : list QueueFacts :=
  List.filter (fun q => negb (is_zero (JoinedAt q))) (match sQueueStays s with [] => [sQueue s] | l => l end).

(** [internal/telephony/cdr.go:stayWaitSec] *)
Definition stayWaitSec (q : QueueFacts) : Z :=
  let stop := if is_zero (BridgedAt q) then LeftAt q else BridgedAt q in
  if is_zero stop then 0 else seconds_between (JoinedAt q) stop.

(** [internal/telephony/cdr.go:isCallerGone] *)
Definition isCallerGone (q : QueueFacts) : bool := Coordinator.equal_fold (TrimSpace (Cause q)) "CANCEL".

(** [internal/telephony/cdr.go:const(MissedShortAbandoned)] *)
Inductive MissedReason :=
| MissedShortAbandoned | MissedAbandonedRinging | MissedAbandonedWaiting | MissedAgentsDidNotAnswer | MissedNoAvailableAgent.

#[export] Instance MissedReason_eq_dec : EqDecision MissedReason.
Proof. solve_decision. Defined.

(** [internal/telephony/cdr.go:shortAbandonThreshold] *)
Definition shortAbandonThreshold : duration := 5 * second.

(** [internal/telephony/cdr.go:CDRAssembler.missedReason] *)
Definition missedReason (stays : list QueueFacts) (agentLegs : list Ref) : option MissedReason :=
  let queue := default zero_stay (last stays) in
  let nobody := match agentLegs with [] => true | _ => false end in
  if is_zero (BridgedAt queue) && isCallerGone queue &&
     existsb (fun p => negb (answered p) && released p && negb (ReleasedAt p.2 <? LeftAt queue)) agentLegs
  then Some MissedAbandonedRinging
  else if negb (is_zero (JoinedAt queue)) && is_zero (BridgedAt queue) then
    let wait := Calendar.Sub (LeftAt queue) (JoinedAt queue) in
    if String.eqb (Cause queue) "Timeout" then Some MissedNoAvailableAgent
    else if negb (isCallerGone queue) then Some (if nobody then MissedNoAvailableAgent else MissedAgentsDidNotAnswer)
    else if (0 <=? wait) && (wait <? shortAbandonThreshold) then Some MissedShortAbandoned
    else Some MissedAbandonedWaiting
  else if nobody then None
  else Some MissedAgentsDidNotAnswer.

(** ** A call handed on by the agent who placed it *)

(** [internal/telephony/cdr.go:placerHandedOver] *)
Definition placerHandedOver (s : Snapshot) (originator : Ref) (ended : instant) : bool :=
  let talked := FirstBridgeAt [originator.2] in
  released originator && (ReleasedAt originator.2 <? ended) && negb (is_zero talked) &&
  (existsb (fun q => talked <? JoinedAt q) (queueStays s) ||
   existsb (fun p => negb (begins p) && (talked <? PCreatedAt p.2)) (refs s)).

(** [internal/telephony/cdr.go:placerIsAHop] *)
Definition placerIsAHop (dialled : list Ref) (metBot handedOver : bool) : bool :=
  (metBot && match dialled with [] => true | _ => false end) || handedOver.

(** [internal/telephony/cdr.go:teardownWindow] *)
Definition teardownWindow : duration := second.

(** [internal/telephony/cdr.go:bridgedAt] *)
Definition bridgedAt (p : Ref) (other : string) (t : instant) : bool :=
  negb (String.eqb other "") &&
  existsb (fun b => String.eqb (BOtherChannelID b) other && negb (t <? StartedAt b) &&
                    (is_zero (EndedAt b) || negb (EndedAt b <? t - teardownWindow))) (Bridges p.2).

(** [internal/telephony/cdr.go:couldEndCustomer] *)
Definition couldEndCustomer (s : Snapshot) (originator customer p : Ref) : bool :=
  let gone := ReleasedAt p.2 in
  if bridgedAt p (ChannelID customer.2) gone || bridgedAt customer (ChannelID p.2) gone then true
  else if negb (released originator) || (PCreatedAt p.2 <? ReleasedAt originator.2 - teardownWindow) then false
  else negb (existsb (fun q => negb (PCreatedAt p.2 <? JoinedAt q) && (is_zero (LeftAt q) || negb (LeftAt q <? PCreatedAt p.2))) (queueStays s)).

(** The first leg of a list that no other beats. *)
Definition best (better : Ref -> Ref -> bool) (l : list Ref) : option Ref :=
  fold_left (fun acc p => match acc with Some q => if better p q then Some p else acc | None => Some p end) l None.

(** [internal/telephony/cdr.go:customerLeg] *)
Definition customerLeg (s : Snapshot) (originator : Ref) : option Ref :=
  match fold_left (fun acc b => match acc with Some c => if StartedAt b <? StartedAt c then Some b else acc | None => Some b end)
          (Bridges originator.2) None with
  | None => None
  | Some first =>
      match List.find (fun p => negb (same p originator) && negb (String.eqb (ChannelID p.2) "") &&
                                String.eqb (ChannelID p.2) (BOtherChannelID first)) (refs s) with
      | Some p => Some p
      | None => best (fun p q => PCreatedAt p.2 <? PCreatedAt q.2)
                  (List.filter (fun p => negb (StartedAt first <? PCreatedAt p.2)) (dialledLegs s))
      end
  end.

(** [internal/telephony/cdr.go:endingCause] *)
Definition endingCause (s : Snapshot) (originator : Ref) : string :=
  let later p q := ReleasedAt q.2 <? ReleasedAt p.2 in
  match best later (List.filter (fun p => negb (same p originator) && released p) (refs s)) with
  | None => ReleaseCause originator.2
  | Some last =>
      match customerLeg s originator with
      | Some customer =>
          if negb (released customer) then ReleaseCause last.2
          else
            let gone := ReleasedAt customer.2 in
            let before := best later (List.filter (fun p =>
              negb (same p originator) && negb (same p customer) && released p && (ReleasedAt p.2 <? gone) &&
              couldEndCustomer s originator customer p) (refs s)) in
            match before with
            | Some b => if Calendar.Sub gone (ReleasedAt b.2) <=? teardownWindow then ReleaseCause b.2
                        else if negb (gone + teardownWindow <? ReleasedAt last.2) then ReleaseCause customer.2 else ReleaseCause last.2
            | None => if negb (gone + teardownWindow <? ReleasedAt last.2) then ReleaseCause customer.2 else ReleaseCause last.2
            end
      | None => ReleaseCause last.2
      end
  end.

(** ** The journey *)

Inductive HopKind := AGENT | BOT | QUEUE | TRUNK | DIALING.

#[export] Instance HopKind_eq_dec : EqDecision HopKind.
Proof. solve_decision. Defined.

(** [internal/store/ledgerstore.go:Leg] *)
Record Leg := mkLeg { LKind : HopKind; Label : string; DurationSec : Z; Note : string }.

#[export] Instance Leg_eq_dec : EqDecision Leg.
Proof. solve_decision. Defined.

(** [internal/telephony/cdr.go:placerLeg] *)
Definition placerLeg (originator : Ref) (ended : instant) : Leg :=
  let ended := if released originator then ReleasedAt originator.2 else ended in
  let bridged := BridgedSec [originator.2] ended in
  mkLeg AGENT (Number originator.2)
    (if 0 <? bridged then bridged
     else if answered originator then Z.max 0 (seconds_between (AnsweredAt originator.2) ended) else 0) "".

(** [internal/telephony/cdr.go:joinedAt] *)
Definition joinedAt (s : Snapshot) (p : Ref) : instant :=
  let at_ := FirstBridgeAt [p.2] in
  let at_ := if is_zero at_ && answered p then AnsweredAt p.2 else at_ in
  let at_ := if is_zero at_ then PCreatedAt p.2 else at_ in
  if is_zero at_ then sCreatedAt s else at_.

(** [internal/telephony/cdr.go:journeyHop] *)
Definition journeyHop (s : Snapshot) (p : Ref) : HopKind * string :=
  if begins p then
    if isAgentPlaced (Some p) || bool_decide (sCallType s = CallTypeInternal) then (AGENT, Number p.2) else (TRUNK, Number p.2)
  else if is_agent p then (AGENT, Number p.2)
  else if negb (String.eqb (PExtension p.2) "") then (AGENT, PExtension p.2)
  else if bool_decide (sCallType s = CallTypeOutbound) then (TRUNK, Number p.2)
  else (AGENT, Number p.2).

Record Hop := mkHop { hLeg : Leg; hJoined : instant }.

(** [internal/telephony/cdr.go:L1087-L1101] *)
Definition bot_hop (s : Snapshot) (botSec : Z) : Hop :=
  mkHop (mkLeg BOT (FlowSlug (sBot s)) botSec "") (match botLeg s with Some b => joinedAt s b | None => sCreatedAt s end).

(** [internal/telephony/cdr.go:L1102-L1108] *)
Definition queue_hop (q : QueueFacts) : Hop := mkHop (mkLeg QUEUE (QName q) (stayWaitSec q) (CancelReason q)) (JoinedAt q).

(** [internal/telephony/cdr.go:L1109-L1124] *)
Definition party_hop (s : Snapshot) (p : Ref) : Hop :=
  let '(kind, label) := journeyHop s p in
  mkHop
    (if answered p then
       let ended := if released p then ReleasedAt p.2 else if negb (is_zero (sEndedAt s)) then sEndedAt s else sCreatedAt s in
       mkLeg kind label (seconds_between (AnsweredAt p.2) ended) ""
     else mkLeg kind label 0 "did not answer")
    (joinedAt s p).

Definition hops (s : Snapshot) (stays : list QueueFacts) (originator : option Ref) (parties : list Ref) (botSec : Z) (withPlacer : bool)
    (ended : instant) : list Hop :=
  (match originator with Some o => if withPlacer then [mkHop (placerLeg o ended) (sCreatedAt s)] else [] | None => [] end) ++
  (if botJoined s botSec then [bot_hop s botSec] else []) ++ map queue_hop stays ++ map (party_hop s) parties.

(** [internal/telephony/cdr.go:buildLegs] *)
Definition buildLegs (s : Snapshot) (stays : list QueueFacts) (originator : option Ref) (parties : list Ref) (botSec : Z)
    (withPlacer : bool) (ended : instant) : list Leg :=
  map hLeg (sort_by hJoined (hops s stays originator parties botSec withPlacer ended)).

(** [internal/telephony/cdr.go:unreachedJourney] *)
Definition unreachedJourney (s : Snapshot) (originator : Ref) (isAnswered : bool) (ended : instant) (dialled : string) : list Leg :=
  if negb isAnswered then [mkLeg DIALING (if String.eqb dialled "" then Number originator.2 else dialled) 0 ""]
  else if isAgentPlaced (Some originator) then [placerLeg originator ended]
  else
    let '(kind, label) := journeyHop s originator in
    [mkLeg kind label (if answered originator then Z.max 0 (seconds_between (AnsweredAt originator.2) ended) else 0) ""].

(** [internal/telephony/cdr.go:causeUserBusy] *)
Definition causeUserBusy : string := "USER_BUSY".

(** [internal/telephony/cdr.go:calleeWasBusy] *)
Definition calleeWasBusy (s : Snapshot) (originator : option Ref) (dialled : list Ref) (placed : bool) : bool :=
  match originator with
  | Some o =>
      bool_decide (sCallType s = CallTypeOutbound) &&
      (if negb placed then String.eqb (ReleaseCause o.2) causeUserBusy
       else existsb (fun p => negb (answered p) && String.eqb (ReleaseCause p.2) causeUserBusy) dialled)
  | None => false
  end.

(** ** The row *)

(** [internal/store/ledgerstore.go:const(CDRStatusAnswered)] those this path
    writes. *)
Inductive CDRStatus := CDRStatusAnswered | CDRStatusNoAnswer | CDRStatusBusy.

#[export] Instance CDRStatus_eq_dec : EqDecision CDRStatus.
Proof. solve_decision. Defined.

(** What became of the call: [Status] and the columns that go with it. *)
Record Outcome := mkOutcome {
  oStatus : CDRStatus;
  oTalkSec : Z;
  oPrimaryAgentID : option uuid;
  oRingSec : Z;
  oMissedReason : option MissedReason
}.

(** [internal/store/ledgerstore.go:CDR] the columns this path fills in. *)
Record CDR := mkCDR {
  rCallID : uuid;
  rCallType : CallType;
  rLanguage : string;
  rStartedAt : instant;
  rEndedAt : instant;
  rTotalSec : Z;
  rQueueID : option uuid;
  rQueueWaitSec : Z;
  rUserData : gmap string Value;
  rDID : string;
  rFlowID : option uuid;
  rBotSec : Z;
  rFromNumber : string;
  rToNumber : string;
  rHangupCause : string;
  rAgentIDs : list uuid;
  rAnsweredAt : instant;
  rBillSec : Z;
  rOutcome : Outcome;
  rLegs : list Leg;
  rUnbackedClaims : list string;
  rCallerChannelID : option string;
  rSwitchBillSec : option Z
}.

(** [internal/telephony/cdr.go:QueueDirectory] and the clock; without a
    directory no queue is found. *)
Record Env := mkEnv { eNow : instant; eQueueIDByName : string -> option uuid }.

Section record.
Variable e : Env.

(** [internal/telephony/cdr.go:L262-L266] *)
Definition ended_at (s : Snapshot) : instant := if is_zero (sEndedAt s) then eNow e else sEndedAt s.

(** [internal/telephony/cdr.go:L278-L286] *)
Definition bot_sec (s : Snapshot) : Z :=
  match botLeg s with
  | Some b => let bridged := BridgedSec [b.2] (ended_at s) in if 0 <? bridged then bridged else Sec (sBot s)
  | None => Sec (sBot s)
  end.

(** [internal/telephony/cdr.go:L297-L320] who called whom, and the cause of
    the hangup. *)
Definition numbers (s : Snapshot) (originator : option Ref) (placed handedOver : bool) : string * string * string :=
  match originator with
  | None => ("", "", "")%string
  | Some o =>
      let cause := if handedOver then endingCause s o else ReleaseCause o.2 in
      if String.eqb (BDID (sBot s)) "" then (Number o.2, OtherNumber o.2, cause)
      else if bool_decide (sCallType s = CallTypeOutbound) && negb placed then (BDID (sBot s), Number o.2, cause)
      else (Number o.2, BDID (sBot s), cause)
  end.

(** [internal/telephony/cdr.go:L331-L344] *)
Definition queue_of (s : Snapshot) (stays : list QueueFacts) : option uuid :=
  match sQueueID s with
  | Some q => Some q
  | None =>
      let name := QName (default zero_stay (head stays)) in
      let name := if String.eqb name "" then BQueue (sBot s) else name in
      if String.eqb name "" then None else eQueueIDByName e name
  end.

Definition add_agent (l : list uuid) (p : Ref) : list uuid :=
  match PAgentID p.2 with Some a => if contains l a then l else l ++ [a] | None => l end.

(** [internal/telephony/cdr.go:L351-L377] *)
Definition agent_ids (originator : option Ref) (agentLegs : list Ref) (placed : bool) : list uuid :=
  let l := fold_left add_agent agentLegs [] in
  match originator with Some o => if placed then add_agent l o else l | None => l end.

(** [internal/telephony/cdr.go:L385-L411] *)
Definition answer_and_bill (s : Snapshot) (originator billed : option Ref) (placed : bool) : instant * Z :=
  let unbilled :=
    if placed then fold_left (fun first p => if begins p || negb (answered p) then first else earlier first (AnsweredAt p.2)) (refs s) zero_time
    else match originator with Some o => if answered o then AnsweredAt o.2 else zero_time | None => zero_time end in
  match billed with
  | Some b => if answered b then (AnsweredAt b.2, Z.max 0 (seconds_between (AnsweredAt b.2) (ended_at s))) else (unbilled, 0)
  | None => (unbilled, 0)
  end.

(** [internal/telephony/cdr.go:L418-L470] *)
Definition outcome (s : Snapshot) (originator : option Ref) (agentLegs dialled : list Ref) (stays : list QueueFacts) (placed metBot : bool) : Outcome :=
  let talking := talkingLegs agentLegs placed dialled in
  let firstBridge := FirstBridgeAt (map snd talking) in
  let soughtAPerson := (match agentLegs with [] => false | _ => true end) || (match stays with [] => false | _ => true end) in
  let of_originator := match originator with Some o => PAgentID o.2 | None => None end in
  if negb (is_zero firstBridge) then
    let reached := firstBridgedLeg talking in
    let primary := match reached with Some p => PAgentID p.2 | None => None end in
    mkOutcome CDRStatusAnswered (BridgedSec (map snd talking) (ended_at s))
      (match primary with Some a => Some a | None => if placed then of_originator else None end)
      (match reached with Some p => Z.max 0 (seconds_between (PCreatedAt p.2) firstBridge) | None => 0 end) None
  else if negb soughtAPerson && placed && metBot then mkOutcome CDRStatusAnswered 0 of_originator 0 None
  else if negb placed && negb soughtAPerson && ((0 <? Sec (sBot s)) || match originator with Some o => answered o | None => false end)
  then mkOutcome CDRStatusAnswered 0 None 0 None
  else mkOutcome (if calleeWasBusy s originator dialled placed then CDRStatusBusy else CDRStatusNoAnswer) 0 None (ringSpan agentLegs)
         (missedReason stays agentLegs).

(** [internal/telephony/cdr.go:L472-L483] *)
Definition journey (s : Snapshot) (originator : option Ref) (agentLegs dialled : list Ref) (stays : list QueueFacts) (placed metBot handedOver : bool)
    (botSec : Z) (status : CDRStatus) (toNumber : string) : list Leg :=
  let l := if placed then buildLegs s stays originator (agentLegs ++ dialled) botSec (placerIsAHop dialled metBot handedOver) (ended_at s)
           else buildLegs s stays originator agentLegs botSec false (ended_at s) in
  match l, originator with
  | [], Some o => unreachedJourney s o (bool_decide (status = CDRStatusAnswered)) (ended_at s) toNumber
  | _, _ => l
  end.

(** [internal/telephony/cdr.go:L485-L497] *)
Definition with_bot_words (b : BotShare) (d : gmap string Value) : gmap string Value :=
  let d := if String.eqb (Summary b) "" then d else <["botSummary"%string := VStr (Summary b)]> d in
  if String.eqb (Reason b) "" then d else <["botReason"%string := VStr (Reason b)]> d.

(** [internal/telephony/cdr.go:CDRAssembler.assemble] *)
Definition assemble (s : Snapshot) : CDR :=
  let '(originator, agentLegs) := split s in
  let botSec := bot_sec s in
  let placed := isAgentPlaced originator in
  let handedOver := match originator with Some o => placed && placerHandedOver s o (ended_at s) | None => false end in
  let '(fromNumber, toNumber, cause) := numbers s originator placed handedOver in
  let stays := queueStays s in
  let dialled := dialledLegs s in
  let billed := billedLeg s originator dialled placed in
  let '(answeredAt, billSec) := answer_and_bill s originator billed placed in
  let metBot := botJoined s botSec in
  let o := outcome s originator agentLegs dialled stays placed metBot in
  mkCDR (sCallID s) (sCallType s) (sLanguage s) (sCreatedAt s) (ended_at s) (seconds_between (sCreatedAt s) (ended_at s))
    (queue_of s stays) (match stays with q :: _ => stayWaitSec q | [] => 0 end) (with_bot_words (sBot s) (sUserData s))
    (BDID (sBot s)) (FlowID (sBot s)) botSec fromNumber toNumber cause (agent_ids originator agentLegs placed) answeredAt billSec o
    (journey s originator agentLegs dialled stays placed metBot handedOver botSec (oStatus o) toNumber)
    (UnbackedClaims (sBot s)) ((fun p => ChannelID p.2) <$> originator)
    (match originator, billed with Some _, Some b => if 0 <? BilledSec b.2 then Some (BilledSec b.2) else None | _, _ => None end).

(** [internal/telephony/cdr.go:CDRAssembler.checkDurations] what is said to be
    wrong. *)
Definition checkDurations (r : CDR) : list string :=
  (if rTotalSec r <? rBillSec r then ["billed for longer than the call lasted"%string] else []) ++
  (if rTotalSec r <? oTalkSec (rOutcome r) then ["talked for longer than the call lasted"%string] else []) ++
  (if rTotalSec r <? rBotSec r + rQueueWaitSec r + oTalkSec (rOutcome r) then ["the phases add up to more than the call"%string] else []).

(** ** The end of a call *)

(** [internal/telephony/cdr.go:answeredSides] *)
Definition answeredSides (s : Snapshot) : bool * bool :=
  fold_left (fun acc p =>
    if negb (answered p) then acc
    else if IsBotLeg p.2 then (true, acc.2)
    else if is_agent p then (acc.1, true) else acc) (refs s) (false, false).

(** [internal/recording/storage.go:DurationSec] *)
Definition RecordingSec (sizeBytes : Z) : Z := if sizeBytes <=? 44 then 0 else Z.quot (sizeBytes - 44) 32000.

(** What the goroutine of a finished call does. *)
Inductive Effect :=
| EInsertCDR (r : CDR)
| EInsertRecording (call : uuid) (sizeBytes durationSec : Z)
| EMarkRecorded (call : uuid)
| EOfferRecording (call : uuid) (hadBot hadHuman : bool).

(** [internal/telephony/cdr.go:CDRAssembler.ingestRecording] [ingest] is the
    size of the audio the storage took in, [booked] whether its row was
    written; [stored] and [offered]: a storage and a recipient are attached. *)
Definition ingestRecording (s : Snapshot) (stored : bool) (ingest : option Z) (booked offered : bool) : list Effect :=
  if negb stored then []
  else match ingest with
  | None => []
  | Some size =>
      EInsertRecording (sCallID s) size (RecordingSec size) ::
      (if booked then
         EMarkRecorded (sCallID s) ::
         (if offered then let '(bot, human) := answeredSides s in [EOfferRecording (sCallID s) bot human] else [])
       else [])
  end.

(** [internal/telephony/cdr.go:CDRAssembler.CallFinished] *)
Definition CallFinished (s : Snapshot) (stored : bool) (ingest : option Z) (booked offered : bool) : list Effect :=
  (if negb (botJoined s (Sec (sBot s))) || HandedOver (sBot s) || isAgentPlaced (split s).1 || sIsBotAbandoned s
   then [EInsertCDR (assemble s)] else []) ++
  ingestRecording s stored ingest booked offered.

End record.

(** [internal/store/ledgerstore.go:const(QueueEventJoined)] *)
Inductive QueueEventName := QueueEventJoined | QueueEventLeft | QueueEventOffered | QueueEventBridged | QueueEventAbandoned.

#[export] Instance QueueEventName_eq_dec : EqDecision QueueEventName.
Proof. solve_decision. Defined.

Definition milliseconds (d : duration) : Z := Z.quot d 1000000.

(** [internal/telephony/cdr.go:CDRAssembler.QueueEvent] the row, when the
    queue is known. *)
Definition QueueEvent (queueID : option uuid) (ev : SwitchEvent) : option (uuid * QueueEventName * Z) :=
  q ← queueID;
  match Kind ev with
  | KindQueueMemberJoined => Some (q, QueueEventJoined, 0)
  | KindQueueAgentOffered => Some (q, QueueEventOffered, 0)
  | KindQueueBridgeStart =>
      Some (q, QueueEventBridged, if is_zero (EvJoinedAt ev) then 0 else milliseconds (Calendar.Sub (OccurredAt ev) (EvJoinedAt ev)))
  | KindQueueMemberLeft =>
      Some (q, if String.eqb (EvCause ev) "Cancel" then QueueEventAbandoned else QueueEventLeft,
            if is_zero (EvJoinedAt ev) || is_zero (EvLeftAt ev) then 0 else milliseconds (Calendar.Sub (EvLeftAt ev) (EvJoinedAt ev)))
  | _ => None
  end.

End CallRecord.
