(* ===== verification/CallRecordFacts.v ===== *)
(** * What a call record says

    The row of a finished call: its columns fit together, its reason for a
    missed call is true of the call, its journey leaves nothing out and is in
    order, and its durations fit into the call. *)

From S2P Require Import Prelude GoText Calendar Schedule Call TelephonyData CallRecord Seconds.

Module CallRecordFacts.
Import GoText Call TelephonyData CallRecord Seconds.

(** ** Legs *)

Lemma elem_of_refs s p : p ∈ refs s -> p.2 ∈ sParties s.
Proof.
  unfold refs. destruct p as [i q]. intros H. apply elem_of_lookup_imap in H as (j & x & [= -> ->] & H).
  by eapply list_elem_of_lookup_2.
Qed.

Lemma split_spec s : forall o l, split s = (o, l) ->
  (forall p, o = Some p -> p ∈ refs s /\ begins p = true) /\ (forall p, p ∈ l -> p ∈ refs s /\ begins p = false /\ is_agent p = true).
Proof.
  unfold split. set (step := fun (acc : option Ref * list Ref) p => _).
  assert (H : forall l acc o l', fold_left step l acc = (o, l') ->
    (forall p, o = Some p -> (p ∈ l /\ begins p = true) \/ acc.1 = Some p) /\
    (forall p, p ∈ l' -> (p ∈ l /\ begins p = false /\ is_agent p = true) \/ p ∈ acc.2)).
  { induction l as [|x l IH]; intros acc o l'; simpl; [intros ->; simpl; split; auto|]. intros E. apply IH in E as [H1 H2]. unfold step in *.
    split; intros p Hp; [apply H1 in Hp as [[Hp Hb]|Hp]|apply H2 in Hp as [[Hp Hb]|Hp]]; [left; split; [by right|done]| |left; split; [by right|done]|].
    - destruct (begins x) eqn:Ex; simpl in Hp; [injection Hp as <-; left; split; [left|done]|].
      destruct (is_agent x); by right.
    - destruct (begins x) eqn:Ex; simpl in Hp; [by right|]. destruct (is_agent x) eqn:Ea; simpl in Hp; [|by right].
      apply elem_of_app in Hp as [Hp|Hp%list_elem_of_singleton]; [by right|]. subst. left. split; [left|done]. }
  intros o l E. apply H in E as [H1 H2]. split; intros p Hp; [apply H1 in Hp as [Hp|Hp]|apply H2 in Hp as [Hp|Hp]]; try done. set_solver.
Qed.

Lemma dialled_spec s p : p ∈ dialledLegs s -> p ∈ refs s /\ begins p = false /\ PAgentID p.2 = None.
Proof.
  unfold dialledLegs. intros H. apply list_elem_of_In, filter_In in H as [H Hc]. apply list_elem_of_In in H. split; [done|].
  rewrite negb_true_iff, !orb_false_iff in Hc. destruct Hc as [[Hb Ha] _]. split; [done|].
  unfold is_agent in Ha. apply bool_decide_eq_false in Ha. by apply eq_None_not_Some.
Qed.

Lemma first_bridged_in l p : firstBridgedLeg l = Some p -> p ∈ l.
Proof.
  unfold firstBridgedLeg. set (step := fun (acc : instant * option Ref) (pb : Ref * BridgeSpan) => _).
  assert (H : forall sp acc, (forall q, (fold_left step sp acc).2 = Some q -> q ∈ map fst sp \/ acc.2 = Some q)).
  { induction sp as [|x sp IH]; intros acc q; simpl; [by right|]. intros E. apply IH in E as [E|E]; [left; by right|].
    unfold step in E. destruct (_ || _); [|by right]. injection E as <-. left. left. }
  intros E. apply H in E as [E|E]; [|done]. apply list_elem_of_In, in_map_iff in E as ([q b] & Eq & E). simpl in Eq. subst q.
  unfold spans_of in E. apply in_flat_map in E as (q & Hq & E). apply in_map_iff in E as (b' & [= -> ->] & _). by apply list_elem_of_In.
Qed.

(** ** Agents *)

Lemma add_agent_spec l p : NoDup l -> NoDup (add_agent l p) /\ (forall a, a ∈ l -> a ∈ add_agent l p) /\
  (forall a, PAgentID p.2 = Some a -> a ∈ add_agent l p).
Proof.
  intros Hl. unfold add_agent. destruct (PAgentID p.2) as [a|]; [|naive_solver]. destruct (contains l a) eqn:E.
  - split; [done|]. split; [done|]. intros ? [= <-]. by apply contains_true.
  - split; [|split].
    + apply NoDup_app. split; [done|]. split; [|apply NoDup_singleton]. intros x Hx ->%list_elem_of_singleton.
      apply contains_true in Hx. congruence.
    + set_solver.
    + intros ? [= <-]. set_solver.
Qed.

Lemma agents_fold l acc : NoDup acc -> NoDup (fold_left add_agent l acc) /\ (forall a, a ∈ acc -> a ∈ fold_left add_agent l acc) /\
  (forall p a, p ∈ l -> PAgentID p.2 = Some a -> a ∈ fold_left add_agent l acc).
Proof.
  revert acc. induction l as [|p l IH]; intros acc Hacc; simpl; [split; [done|]; split; [done|set_solver]|].
  destruct (add_agent_spec acc p Hacc) as (H1 & H2 & H3). destruct (IH _ H1) as (G1 & G2 & G3).
  split; [done|]. split; [auto|]. intros q a [->|Hq]%elem_of_cons Ha; eauto.
Qed.

Lemma agent_ids_spec o l placed : NoDup (agent_ids o l placed) /\
  (forall p a, p ∈ l -> PAgentID p.2 = Some a -> a ∈ agent_ids o l placed) /\
  (forall p a, o = Some p -> placed = true -> PAgentID p.2 = Some a -> a ∈ agent_ids o l placed).
Proof.
  unfold agent_ids. destruct (agents_fold l [] (NoDup_nil_2)) as (H1 & _ & H3). destruct o as [p|]; [|by repeat split; eauto].
  destruct placed; [|by repeat split; eauto]. destruct (add_agent_spec _ p H1) as (G1 & G2 & G3). split; [done|]. split; [eauto|].
  intros q a [= <-] _ Ha. auto.
Qed.

(** ** The parts of the row *)

Section row.
Context (e : Env) (s : Snapshot).

Definition originator : option Ref := (split s).1.
Definition agentLegs : list Ref := (split s).2.
Definition placed : bool := isAgentPlaced originator.
Definition stays : list QueueFacts := queueStays s.
Definition last_stay : QueueFacts := default zero_stay (last stays).
Definition talking : list Ref := talkingLegs agentLegs placed (dialledLegs s).
Definition the_outcome : Outcome :=
  outcome e s originator agentLegs (dialledLegs s) stays placed (botJoined s (bot_sec e s)).

Lemma assemble_parts : exists handedOver from to cause answeredAt billSec,
  assemble e s =
  (let billed := billedLeg s originator (dialledLegs s) placed in
  mkCDR (sCallID s) (sCallType s) (sLanguage s) (sCreatedAt s) (ended_at e s) (seconds_between (sCreatedAt s) (ended_at e s))
    (queue_of e s stays) (match stays with q :: _ => stayWaitSec q | [] => 0 end) (with_bot_words (sBot s) (sUserData s))
    (BDID (sBot s)) (TelephonyData.FlowID (sBot s)) (bot_sec e s) from to cause (agent_ids originator agentLegs placed) answeredAt billSec the_outcome
    (journey e s originator agentLegs (dialledLegs s) stays placed (botJoined s (bot_sec e s)) handedOver (bot_sec e s) (oStatus the_outcome) to)
    (UnbackedClaims (sBot s)) ((fun p => ChannelID p.2) <$> originator)
    (match originator, billed with Some _, Some b => if 0 <? BilledSec b.2 then Some (BilledSec b.2) else None | _, _ => None end)) /\
  (answeredAt, billSec) = answer_and_bill e s originator (billedLeg s originator (dialledLegs s) placed) placed /\
  handedOver = match originator with Some o => placed && placerHandedOver s o (ended_at e s) | None => false end.
Proof.
  unfold assemble, the_outcome, talking, placed, originator, agentLegs, stays. destruct (split s) as [o l]. simpl.
  destruct (numbers _ _ _ _) as [[from to] cause] eqn:En. destruct (answer_and_bill _ _ _ _ _) as [a b] eqn:Ea.
  eexists _, from, to, cause, a, b. split; [reflexivity|]. split; [by rewrite ?Ea|reflexivity].
Qed.

Lemma bill_nonneg o b p : 0 <= (answer_and_bill e s o b p).2.
Proof. unfold answer_and_bill. destruct b as [b|]; [destruct (answered b)|]; simpl; lia. Qed.

Lemma busy_outbound o d p : calleeWasBusy s o d p = true -> sCallType s = CallTypeOutbound.
Proof.
  unfold calleeWasBusy. destruct o; [|done]. intros [E%bool_decide_eq_true _]%andb_true_iff. done.
Qed.

(** What the outcome says, case by case. *)
Lemma outcome_cases :
  (exists reached, oStatus the_outcome = CDRStatusAnswered /\ oMissedReason the_outcome = None /\
     oTalkSec the_outcome = BridgedSec (map snd talking) (ended_at e s) /\ FirstBridgeAt (map snd talking) <> 0 /\
     firstBridgedLeg talking = reached /\
     oPrimaryAgentID the_outcome =
       match (match reached with Some p => PAgentID p.2 | None => None end) with
       | Some a => Some a
       | None => if placed then match originator with Some o => PAgentID o.2 | None => None end else None
       end) \/
  (oStatus the_outcome = CDRStatusAnswered /\ oMissedReason the_outcome = None /\ oTalkSec the_outcome = 0 /\
   FirstBridgeAt (map snd talking) = 0 /\ agentLegs = [] /\ stays = [] /\
   (placed = true \/ oPrimaryAgentID the_outcome = None) /\
   (oPrimaryAgentID the_outcome = match originator with Some o => PAgentID o.2 | None => None end \/ oPrimaryAgentID the_outcome = None)) \/
  (oStatus the_outcome <> CDRStatusAnswered /\ oMissedReason the_outcome = missedReason stays agentLegs /\ oTalkSec the_outcome = 0 /\
   FirstBridgeAt (map snd talking) = 0 /\ oPrimaryAgentID the_outcome = None /\
   (oStatus the_outcome = CDRStatusBusy -> sCallType s = CallTypeOutbound)).
Proof.
  unfold the_outcome, outcome. fold talking. destruct (is_zero (FirstBridgeAt (map snd talking))) eqn:E; [apply Z.eqb_eq in E|apply Z.eqb_neq in E]; cbn [negb].
  2:{ left. eexists. split_and!; try done. all: reflexivity. }
  right. destruct agentLegs as [|al als] eqn:Hal; [destruct stays as [|sy sys] eqn:Hst|].
  - cbn [orb negb andb]. destruct (placed && _) eqn:Ep.
    { left. apply andb_true_iff in Ep as [Ep _]. rewrite Ep. repeat split; auto. }
    rewrite andb_true_r. destruct (negb placed && _) eqn:En.
    { left. repeat split; auto. }
    right. repeat split; auto; simpl; destruct (calleeWasBusy _ _ _ _) eqn:Eb; try done. intros _; by apply busy_outbound in Eb.
  - right. cbn [orb negb andb]. rewrite andb_false_r. cbn [andb].
    repeat split; auto; simpl; destruct (calleeWasBusy _ _ _ _) eqn:Eb; try done. intros _; by apply busy_outbound in Eb.
  - right. cbn [orb negb andb]. rewrite andb_false_r. cbn [andb].
    repeat split; auto; simpl; destruct (calleeWasBusy _ _ _ _) eqn:Eb; try done. intros _; by apply busy_outbound in Eb.
Qed.

End row.

(** ** Durations *)

Lemma merge_to l sp : Schedule.valid_spans l -> sp ∈ Schedule.merge l -> exists x, x ∈ l /\ Schedule.to sp <= Schedule.to x.
Proof.
  intros Hv Hsp. destruct (Schedule.merge_separated l Hv) as [_ Hm]. pose proof (Hm sp Hsp).
  assert (Hc : Schedule.covered (Schedule.merge l) (Schedule.to sp - 1)) by (exists sp; unfold Schedule.in_span; split; [done|lia]).
  apply (proj1 (Schedule.merge_covered _ _)) in Hc as (x & Hx & Hi). exists x. unfold Schedule.in_span in Hi. split; [done|lia].
Qed.

(** Stretches one after the other fit into what they lie in. *)
Lemma span_sum_within l lo hi : StronglySorted (fun a b => Schedule.to a < Schedule.from b) l -> Schedule.valid_spans l -> lo <= hi ->
  (forall sp, sp ∈ l -> lo <= Schedule.from sp /\ Schedule.to sp <= hi) -> 0 <= span_sum l <= hi - lo.
Proof.
  revert lo. induction l as [|x l IH]; intros lo Hs Hv Hle Hin; simpl; [lia|]. apply StronglySorted_inv in Hs as [Hs Hx].
  rewrite list.Forall_forall in Hx. pose proof (Hv x ltac:(left)). pose proof (Hin x ltac:(left)).
  destruct (IH (Schedule.to x)) as [H1 H2]; [done| |lia| |lia].
  - intros y Hy. apply Hv. by right.
  - intros y Hy. pose proof (Hx y Hy). pose proof (Hin y ltac:(by right)). lia.
Qed.

(** The legs are bridged within [lo, hi]. *)
Definition bridged_within (parties : list Party) (endedAt lo hi : instant) : Prop :=
  forall p b, p ∈ parties -> b ∈ Bridges p ->
    lo <= StartedAt b /\ (if is_zero (EndedAt b) then endedAt else EndedAt b) <= hi.

Lemma total_within parties endedAt lo hi : lo <= hi -> bridged_within parties endedAt lo hi ->
  0 <= bridged_total parties endedAt <= hi - lo.
Proof.
  intros Hle Hw. rewrite bridged_total_merge. destruct (Schedule.merge_separated _ (bridge_spans_valid parties endedAt)) as [Hs Hv].
  assert (Hall : forall x, x ∈ bridge_spans parties endedAt -> lo <= Schedule.from x /\ Schedule.to x <= hi).
  { intros x Hx. unfold bridge_spans in Hx. apply list_elem_of_In, in_flat_map in Hx as (p & Hp%list_elem_of_In & Hx).
    apply in_flat_map in Hx as (b & Hb%list_elem_of_In & Hx). pose proof (Hw p b Hp Hb) as [H1 H2]. cbv zeta in Hx.
    match goal with H : context [?x <? ?y] |- _ => destruct (Z.ltb_spec x y) end; [|done]. destruct Hx as [<-|[]]. done. }
  apply span_sum_within; [done|done|done|]. intros sp Hsp. split.
  - pose proof (Schedule.merge_from _ _ Hsp) as (x & Hx & Hxl)%list_elem_of_fmap. rewrite Hx. by apply Hall.
  - destruct (merge_to _ sp (bridge_spans_valid parties endedAt) Hsp) as (x & Hx & Hle'). pose proof (Hall x Hx). lia.
Qed.

Lemma BridgedSec_total parties endedAt : BridgedSec parties endedAt = intSeconds (bridged_total parties endedAt).
Proof. unfold BridgedSec, bridged_total. destruct (bridge_spans parties endedAt) eqn:E; reflexivity. Qed.

(** The longest call the seconds are exact for: 48 days. *)
Definition longest : duration := 2 ^ 22 * second.

Lemma BridgedSec_within parties endedAt lo hi : lo <= hi < lo + longest -> bridged_within parties endedAt lo hi ->
  0 <= BridgedSec parties endedAt <= (hi - lo) / second.
Proof.
  intros Hle Hw. pose proof (total_within _ _ lo hi ltac:(lia) Hw). rewrite BridgedSec_total, intSeconds_whole by (unfold longest in Hle; lia).
  split; [apply Z.div_pos; unfold second; lia|]. apply Z.div_le_mono; unfold second; lia.
Qed.

Lemma seconds_between_whole t u : t <= u < t + longest -> seconds_between t u = (u - t) / second.
Proof.
  intros H. unfold seconds_between. rewrite Schedule.Sub_small by (unfold longest, second in H; lia). apply intSeconds_whole. unfold longest in H. lia.
Qed.

(** Nothing on the call happens outside it. *)
Record well_timed (e : Env) (s : Snapshot) : Prop := mkTimed {
  wt_span : sCreatedAt s <= ended_at e s < sCreatedAt s + longest;
  wt_answered : forall p, p ∈ sParties s -> answered (0%nat, p) = true -> sCreatedAt s <= AnsweredAt p <= ended_at e s;
  wt_bridges : bridged_within (sParties s) (ended_at e s) (sCreatedAt s) (ended_at e s)
}.

(** The call goes through its phases one after the other: the bot until [j],
    the first queue until [k], people afterwards; the bot does not claim more
    than its phase. *)
Record phases (e : Env) (s : Snapshot) (j k : instant) : Prop := mkPhases {
  ph_order : sCreatedAt s <= j /\ j <= k /\ k <= ended_at e s;
  ph_bot : forall b, botLeg s = Some b -> bridged_within [b.2] (ended_at e s) (sCreatedAt s) j;
  ph_stamp : Sec (sBot s) <= (j - sCreatedAt s) / second;
  ph_wait : forall q, head (queueStays s) = Some q ->
    let stop := if is_zero (BridgedAt q) then LeftAt q else BridgedAt q in
    is_zero stop = true \/ (j <= JoinedAt q /\ JoinedAt q <= stop /\ stop <= k);
  ph_talk : bridged_within (map snd (talking s)) (ended_at e s) k (ended_at e s)
}.

Lemma talking_refs s p : p ∈ talking s -> p ∈ refs s.
Proof.
  unfold talking, talkingLegs, agentLegs. destruct (split_spec s _ _ (surjective_pairing _)) as [_ H].
  destruct (placed s); [intros [Hp|Hp]%elem_of_app|intros Hp]; [by apply H|by apply dialled_spec|by apply H].
Qed.

Lemma billed_refs s b : billedLeg s (originator s) (dialledLegs s) (placed s) = Some b -> b ∈ refs s.
Proof.
  assert (Ho : originator s = Some b -> b ∈ refs s).
  { intros H. destruct (split_spec s _ _ (surjective_pairing _)) as [H1 _]. by apply H1. }
  unfold billedLeg. destruct (sCallType s); try done; try exact Ho. destruct (placed s); [|exact Ho].
  intros H%find_some. destruct H as [H%list_elem_of_In _]. by apply dialled_spec.
Qed.

Lemma bill_fits e s : well_timed e s -> let r := assemble e s in 0 <= rBillSec r <= rTotalSec r.
Proof.
  intros [Hs Ha _] r. subst r. destruct (assemble_parts e s) as (ho & from & to & cause & at_ & b & -> & E & _). cbv zeta. cbn [rBillSec rTotalSec].
  rewrite (seconds_between_whole (sCreatedAt s)) by done. unfold answer_and_bill in E.
  assert (Hz : 0 <= (ended_at e s - sCreatedAt s) / second) by (apply Z.div_pos; unfold second; lia).
  destruct (billedLeg _ _ _ _) as [p|] eqn:Ep; [|injection E as _ ->; lia]. destruct (answered p) eqn:Epa; injection E as _ ->; [|lia].
  pose proof (Ha p.2 (elem_of_refs _ _ (billed_refs _ _ Ep)) Epa). rewrite seconds_between_whole by lia. split; [lia|].
  apply Z.max_lub; [done|]. apply Z.div_le_mono; unfold second; lia.
Qed.

Lemma talk_fits e s lo : sCreatedAt s <= lo <= ended_at e s -> ended_at e s < sCreatedAt s + longest ->
  bridged_within (map snd (talking s)) (ended_at e s) lo (ended_at e s) ->
  0 <= oTalkSec (the_outcome e s) <= (ended_at e s - lo) / second.
Proof.
  intros Hlo He Hw. pose proof (BridgedSec_within _ _ lo (ended_at e s) ltac:(lia) Hw).
  destruct (outcome_cases e s) as [(? & _ & _ & -> & _)|[(_ & _ & -> & _)|(_ & _ & -> & _)]]; [done|split; [done|]..].
  all: apply Z.div_pos; unfold second; lia.
Qed.

Lemma all_within e s : well_timed e s -> bridged_within (map snd (talking s)) (ended_at e s) (sCreatedAt s) (ended_at e s).
Proof.
  intros [_ _ Hw] p b Hp Hb. apply list_elem_of_fmap in Hp as (q & -> & Hq). apply (Hw q.2 b); [|done].
  by apply elem_of_refs, talking_refs.
Qed.

Lemma bot_fits e s j k : well_timed e s -> phases e s j k -> bot_sec e s <= (j - sCreatedAt s) / second.
Proof.
  intros [Hs _ _] [Ho Hb Hst _ _]. unfold bot_sec. destruct (botLeg s) as [b|]; [|done]. cbv zeta. destruct (0 <? _); [|done].
  apply BridgedSec_within; [lia|]. by apply Hb.
Qed.

Lemma wait_fits e s j k : well_timed e s -> phases e s j k ->
  match stays s with q :: _ => stayWaitSec q | [] => 0 end <= (k - j) / second.
Proof.
  intros [Hs _ _] [Ho _ _ Hw _]. assert (Hz : 0 <= (k - j) / second) by (apply Z.div_pos; unfold second; lia). unfold stays.
  destruct (queueStays s) as [|q l] eqn:E; [done|]. specialize (Hw q eq_refl). unfold stayWaitSec. cbv zeta in Hw.
  destruct Hw as [-> |Hw]; [done|]. destruct (is_zero (if is_zero (BridgedAt q) then _ else _)); [done|].
  rewrite seconds_between_whole by lia. apply Z.div_le_mono; unfold second; lia.
Qed.

Lemma three_fit a b c : a / second + b / second + c / second <= (a + b + c) / second.
Proof.
  assert (H : 0 < second) by (unfold second; lia). apply Z.div_le_lower_bound; [done|].
  pose proof (Z.mul_div_le a second H). pose proof (Z.mul_div_le b second H). pose proof (Z.mul_div_le c second H). lia.
Qed.

(** C19: The durations of a record fit into its call. If nothing on the call
    happens before it begins or after it ends and it lasts under 48 days, the
    seconds billed and the seconds talked are neither negative nor more than
    the call's, whichever leg is billed and however the stretches of talk
    overlap. If moreover bot, first queue and people take the call one after
    the other, the seconds of the three phases add up to no more than the
    call's, and [checkDurations] has nothing to say. *)
Theorem durations_fit e s (Hw : well_timed e s) :
  let r := assemble e s in
  0 <= rBillSec r <= rTotalSec r /\ 0 <= oTalkSec (rOutcome r) <= rTotalSec r /\
  ((exists j k, phases e s j k) -> checkDurations r = []).
Proof.
  pose proof (bill_fits e s Hw) as Hb. pose proof (all_within e s Hw) as Ha. intros r. subst r. simpl in Hb. split; [exact Hb|].
  pose proof (wt_span _ _ Hw) as Hs. pose proof (talk_fits e s (sCreatedAt s) ltac:(lia) ltac:(lia) Ha) as Ht. unfold checkDurations.
  destruct (assemble_parts e s) as (ho & from & to & cause & at_ & b & E & _). rewrite E in Hb |- *.
  cbv zeta in Hb |- *. cbn [rBillSec rTotalSec rOutcome rBotSec rQueueWaitSec] in Hb |- *.
  rewrite (seconds_between_whole (sCreatedAt s)) in Hb |- * by lia. split; [exact Ht|]. intros (j & k & Hp).
  pose proof (bot_fits e s j k Hw Hp) as H1. pose proof (wait_fits e s j k Hw Hp) as H2. pose proof (ph_order _ _ _ _ Hp).
  pose proof (talk_fits e s k ltac:(lia) ltac:(lia) (ph_talk _ _ _ _ Hp)) as H3.
  pose proof (three_fit (j - sCreatedAt s) (k - j) (ended_at e s - k)) as H4.
  replace (j - sCreatedAt s + (k - j) + (ended_at e s - k)) with (ended_at e s - sCreatedAt s) in H4 by lia.
  rewrite !(proj2 (Z.ltb_ge _ _)) by lia. done.
Qed.

(** ** The columns *)

(** C29: The columns of a record fit together. An answered call names no reason
    for having been missed; one that was not has no talk time and no primary
    agent; only an outbound call is busy; nothing negative is billed; no agent
    is listed twice, and the primary agent is one of those listed. *)
Theorem record_is_consistent e s :
  let r := assemble e s in let o := rOutcome r in
  (oStatus o = CDRStatusAnswered -> oMissedReason o = None) /\
  (oStatus o <> CDRStatusAnswered -> oTalkSec o = 0 /\ oPrimaryAgentID o = None) /\
  (oStatus o = CDRStatusBusy -> rCallType r = CallTypeOutbound) /\
  0 <= rBillSec r /\ NoDup (rAgentIDs r) /\
  (forall a, oPrimaryAgentID o = Some a -> a ∈ rAgentIDs r).
Proof.
  intros r o. subst o r. destruct (assemble_parts e s) as (ho & from & to & cause & at_ & b & -> & E & _). cbv zeta.
  cbn [rOutcome rCallType rBillSec rAgentIDs]. pose proof (bill_nonneg e s (originator s) (billedLeg s (originator s) (dialledLegs s) (placed s)) (placed s)) as Hb.
  rewrite <- E in Hb. simpl in Hb. destruct (agent_ids_spec (originator s) (agentLegs s) (placed s)) as (Hn & Hl & Ho).
  destruct (outcome_cases e s) as [(reached & E1 & E2 & E3 & _ & E4 & E5)|[(E1 & E2 & E3 & _ & Eag & _ & E4 & E5)|(E1 & E2 & E3 & _ & E4 & E5)]].
  - split_and!; try done; try congruence. intros a Ha. rewrite E5 in Ha. destruct reached as [p|]; simpl in Ha.
    + destruct (PAgentID p.2) as [x|] eqn:Ex.
      * injection Ha as ->. apply first_bridged_in in E4. unfold talking, talkingLegs in E4.
        destruct (placed s); [apply elem_of_app in E4 as [E4|E4%dialled_spec]; [eauto|naive_solver congruence]|eauto].
      * destruct (placed s) eqn:Ep; [|done]. destruct (originator s) as [p'|] eqn:Eo; [|done]. by eapply Ho.
    + destruct (placed s) eqn:Ep; [|done]. destruct (originator s) as [p'|] eqn:Eo; [|done]. by eapply Ho.
  - split_and!; try done; try congruence. intros a Ha. destruct E4 as [Ep|E4]; [|congruence]. destruct E5 as [E5|E5]; [|congruence].
    rewrite E5 in Ha. destruct (originator s) as [p'|] eqn:Eo; [|done]. by eapply Ho.
  - split_and!; try done; try congruence.
Qed.

(** ** Why nobody answered *)

Lemma stays_joined s q : q ∈ queueStays s -> is_zero (JoinedAt q) = false.
Proof.
  unfold queueStays. intros H. apply list_elem_of_In, filter_In in H as [_ H]. by apply negb_true_iff in H.
Qed.

Lemma last_stay_joined s : is_zero (JoinedAt (last_stay s)) = match stays s with [] => true | _ => false end.
Proof.
  unfold last_stay, stays. pose proof (stays_joined s) as H. destruct (queueStays s) as [|q l]; [done|].
  destruct (last (q :: l)) as [x|] eqn:E; [|by apply last_None in E]. apply H. apply last_Some in E as [l' ->]. set_solver.
Qed.

Lemma gone_joined s : isCallerGone (last_stay s) = true -> stays s <> [].
Proof. unfold last_stay. intros H E. rewrite E in H. vm_compute in H. done. Qed.

Definition blames_caller (m : option MissedReason) : Prop :=
  m = Some MissedShortAbandoned \/ m = Some MissedAbandonedRinging \/ m = Some MissedAbandonedWaiting.

(** C20: The reason a call was missed is true of it. The caller is said to have
    given up just when nobody answered and their last stay in a queue ended by
    their leaving it before being connected: while a phone was ringing only if
    an agent's leg was let go unanswered no earlier than they left, and as a
    short call only within five seconds of joining. Agents are said not to have
    answered only if a leg went out to one, nobody to have been available only
    if the caller's last stay ended unconnected and not by their leaving, and
    nothing is said of an unanswered call only if no agent was called and the
    caller's last stay, if they had one, was connected. Earlier stays are not
    looked at. *)
Theorem missed_reason_true e s :
  let o := rOutcome (assemble e s) in let q := last_stay s in
  (blames_caller (oMissedReason o) <->
     oStatus o <> CDRStatusAnswered /\ stays s <> [] /\ BridgedAt q = 0 /\ isCallerGone q = true) /\
  (oMissedReason o = Some MissedAbandonedRinging ->
     exists p, p ∈ agentLegs s /\ answered p = false /\ released p = true /\ LeftAt q <= ReleasedAt p.2) /\
  (oMissedReason o = Some MissedShortAbandoned -> 0 <= Calendar.Sub (LeftAt q) (JoinedAt q) < 5 * second) /\
  (oMissedReason o = Some MissedAgentsDidNotAnswer -> agentLegs s <> []) /\
  (oMissedReason o = Some MissedNoAvailableAgent -> stays s <> [] /\ BridgedAt q = 0 /\ isCallerGone q = false) /\
  (oMissedReason o = None -> oStatus o = CDRStatusAnswered \/ (agentLegs s = [] /\ (stays s = [] \/ BridgedAt q <> 0))).
Proof.
  intros o q. subst o. destruct (assemble_parts e s) as (ho & from & to & cause & at_ & b & -> & _ & _). cbv zeta. cbn [rOutcome].
  assert (Hans : oStatus (the_outcome e s) = CDRStatusAnswered /\ oMissedReason (the_outcome e s) = None \/
    oStatus (the_outcome e s) <> CDRStatusAnswered /\ oMissedReason (the_outcome e s) = missedReason (stays s) (agentLegs s)).
  { destruct (outcome_cases e s) as [(? & E1 & E2 & _)|[(E1 & E2 & _)|(E1 & E2 & _)]]; auto. }
  destruct Hans as [[Es ->]|[Es ->]].
  { unfold blames_caller. rewrite Es. split_and!; try done; [|by left]. split; [intuition discriminate|]. intros [H _]. by destruct H. }
  pose proof (last_stay_joined s) as Hj. pose proof (gone_joined s) as Hg. unfold missedReason. fold (last_stay s). fold q in Hj, Hg |- *. rewrite Hj.
  assert (Ht : String.eqb (Cause q) "Timeout" = true -> isCallerGone q = false).
  { intros Et%String.eqb_eq. unfold isCallerGone. rewrite Et. reflexivity. }
  assert (Hb : is_zero (BridgedAt q) = true <-> BridgedAt q = 0) by apply Z.eqb_eq.
  unfold blames_caller. destruct (is_zero (BridgedAt q)) eqn:Eb; destruct (isCallerGone q) eqn:Eg; cbn [andb negb].
  - assert (Hb0 : BridgedAt q = 0) by tauto. specialize (Hg eq_refl). destruct (existsb _ (agentLegs s)) eqn:Ex.
    { split_and!; try done; [tauto|]. intros _. apply existsb_elem in Ex as (p & Hp & Hc). exists p.
      rewrite !andb_true_iff, !negb_true_iff, Z.ltb_ge in Hc. tauto. }
    destruct (stays s) eqn:Est; [done|]. cbn [negb andb]. destruct (String.eqb (Cause q) "Timeout"); [by specialize (Ht eq_refl)|].
    destruct ((0 <=? _) && _) eqn:Ew.
    + split_and!; try done; [tauto|]. intros _. rewrite andb_true_iff, Z.leb_le, Z.ltb_lt in Ew. exact Ew.
    + split_and!; try done. tauto.
  - assert (Hb0 : BridgedAt q = 0) by tauto. destruct (stays s) as [|s0 l0] eqn:Est; cbn [negb andb].
    + destruct (agentLegs s) eqn:Eag; split_and!; try done; try (intuition discriminate).
    + destruct (String.eqb (Cause q) "Timeout"); [|destruct (agentLegs s) eqn:Eag]; split_and!; try done; intuition discriminate.
  - assert (Hb0 : BridgedAt q <> 0) by (intros H; apply Hb in H; done). rewrite andb_false_r. destruct (agentLegs s) eqn:Eag; split_and!; try done; try (intuition discriminate).
  - assert (Hb0 : BridgedAt q <> 0) by (intros H; apply Hb in H; done). rewrite andb_false_r. destruct (agentLegs s) eqn:Eag; split_and!; try done; try (intuition discriminate).
Qed.

(** ** The journey *)

(** The people a journey lists: agents, and on a call an agent placed the legs
    dialled out. *)
Definition journey_parties (s : Snapshot) : list Ref := if placed s then agentLegs s ++ dialledLegs s else agentLegs s.

(** What happened on the call, with the time each stretch was joined: the bot if
    it joined, every stay in a queue, every leg of a person. *)
Definition stretches (e : Env) (s : Snapshot) : list Hop :=
  (if botJoined s (bot_sec e s)
   then [mkHop (mkLeg BOT (FlowSlug (sBot s)) (bot_sec e s) "") (match botLeg s with Some b => joinedAt s b | None => sCreatedAt s end)] else []) ++
  map (fun q => mkHop (mkLeg QUEUE (QName q) (stayWaitSec q) (CancelReason q)) (JoinedAt q)) (stays s) ++
  map (party_hop s) (journey_parties s).

(** A journey made of them, and of at most one stretch more: the agent's who
    placed the call, or the one that stands for a call on which there were none. *)
Definition journey_of (e : Env) (s : Snapshot) (l : list Leg) : Prop :=
  exists hs extra, l = map hLeg hs /\ StronglySorted (key_le hJoined) hs /\ hs ≡ₚ extra ++ stretches e s /\
    (length extra <= 1)%nat /\ (extra <> [] -> placed s = true \/ stretches e s = []).

Lemma build_journey e s wp : (wp = true -> placed s = true) ->
  journey_of e s (buildLegs s (stays s) (originator s) (journey_parties s) (bot_sec e s) wp (ended_at e s)).
Proof.
  intros Hwp. unfold buildLegs, hops. set (x := match originator s with Some _ => _ | None => [] end). eexists _, x.
  split; [reflexivity|]. split; [apply sort_by_sorted|]. split; [by rewrite sort_by_perm|]. unfold x.
  destruct (originator s); [|split; [simpl; lia|done]]. destruct wp; (split; [simpl; lia|]); [intros _; left; by apply Hwp|done].
Qed.

(** C21: The journey of a record is complete and in order. A call with an
    originator has one. It is made of one stretch for each stay in a queue, one
    for the bot if and only if the bot joined, and one for each leg of an agent
    (of a person dialled, on a call an agent placed), answered or not, each as
    often as it happened; of at most one stretch more, the placing agent's own or
    the one of a call on which nothing else happened; and they stand in the
    order in which they were joined. *)
Theorem journey_is_complete e s :
  let l := rLegs (assemble e s) in (originator s <> None -> l <> []) /\ journey_of e s l.
Proof.
  intros l. subst l. destruct (assemble_parts e s) as (ho & from & to & cause & at_ & b & -> & _ & _). cbv zeta. cbn [rLegs]. unfold journey.
  set (l := if placed s then buildLegs s (stays s) (originator s) (agentLegs s ++ dialledLegs s) _ _ _ else _).
  assert (Hl : journey_of e s l).
  { unfold l. destruct (placed s) eqn:Ep.
    - assert (E : agentLegs s ++ dialledLegs s = journey_parties s) by (unfold journey_parties; by rewrite Ep). rewrite E. by apply build_journey.
    - assert (E : agentLegs s = journey_parties s) by (unfold journey_parties; by rewrite Ep). rewrite E. by apply build_journey. }
  destruct l as [|x l'] eqn:El; [|by split]. destruct (originator s) as [o|] eqn:Eo; [|split; [done|exact Hl]].
  destruct Hl as (hs & extra & E & _ & Hp & _). assert (Hn : stretches e s = []).
  { destruct hs; [|done]. apply Permutation_nil_l in Hp. by destruct extra, (stretches e s). }
  assert (Hu : exists y, unreachedJourney s o (bool_decide (oStatus (the_outcome e s) = CDRStatusAnswered)) (ended_at e s) to = [y]).
  { unfold unreachedJourney. destruct (negb _); [by eexists|]. destruct (isAgentPlaced _); [by eexists|]. unfold journeyHop.
    repeat match goal with |- context [if ?c then _ else _] => destruct c end; by eexists. }
  destruct Hu as (y & ->). split; [done|]. exists [mkHop y 0], [mkHop y 0]. rewrite Hn, app_nil_r.
  split; [done|]. split; [repeat constructor|]. split; [done|]. split; [simpl; lia|]. by right.
Qed.

(** ** At work *)

(** A call the bot answers, hands to a queue, and an agent takes. *)
Definition moment (ms : Z) : instant := (1000000 + ms) * 1000000.

Definition caller : Party :=
  mkParty 1 "ch-caller" RoleOriginator PartyReleased "13900000000" "4001" None "" (moment 0) (moment 1000) (moment 103570) "NORMAL_CLEARING" false [] 102 false.
Definition bot_leg : Party :=
  mkParty 2 "ch-bot" RoleTarget PartyReleased "4001" "" None "" (moment 500) (moment 900) (moment 20100) "NORMAL_CLEARING" true
    [mkBridge "ch-caller" (moment 1000) (moment 20000)] 0 false.
Definition agent_leg : Party :=
  mkParty 3 "ch-agent" RoleTarget PartyReleased "1001" "" (Some 7%N) "" (moment 40000) (moment 45000) (moment 103570) "NORMAL_CLEARING" false
    [mkBridge "ch-caller" (moment 45000) (moment 60000); mkBridge "ch-caller" (moment 61500) 0] 0 false.
Definition one_stay : QueueFacts := mkStay "support" (moment 20200) (moment 45000) (moment 103570) "" "" (Some 7%N).
Definition served_call : Snapshot :=
  mkSnap 9 CallTypeInbound CallEnded "en" None [caller; bot_leg; agent_leg] ∅ one_stay [one_stay]
    (mkBot 18 None "front-desk" "4001" "support" "" "" [] true) false (moment 0) (moment 103570).
Definition no_directory : Env := mkEnv 0 (fun _ => None).

Example served_call_row :
  let r := assemble no_directory served_call in
  (rTotalSec r, rBillSec r, rBotSec r, rQueueWaitSec r, oTalkSec (rOutcome r)) = (103, 102, 19, 24, 57) /\
  map LKind (rLegs r) = [BOT; QUEUE; AGENT] /\ rAgentIDs r = [7%N] /\ oPrimaryAgentID (rOutcome r) = Some 7%N.
Proof. by vm_compute. Qed.

Lemma bridged_within_check parties endedAt lo hi :
  forallb (fun p => forallb (fun b => (lo <=? StartedAt b) && ((if is_zero (EndedAt b) then endedAt else EndedAt b) <=? hi)) (Bridges p)) parties = true ->
  bridged_within parties endedAt lo hi.
Proof.
  intros H p b Hp Hb. rewrite forallb_elem in H. specialize (H p Hp). rewrite forallb_elem in H. specialize (H b Hb).
  rewrite andb_true_iff, !Z.leb_le in H. exact H.
Qed.

Lemma durations_fit_witness : let r := assemble no_directory served_call in
  well_timed no_directory served_call /\ oTalkSec (rOutcome r) <= rTotalSec r /\ checkDurations r = [].
Proof.
  assert (Hw : well_timed no_directory served_call).
  { constructor.
    - by vm_compute.
    - assert (H : forallb (fun p => (moment 0 <=? AnsweredAt p) && (AnsweredAt p <=? moment 103570)) (sParties served_call) = true) by reflexivity.
      rewrite forallb_elem in H. intros p Hp _. specialize (H p Hp). rewrite andb_true_iff, !Z.leb_le in H. exact H.
    - by apply bridged_within_check. }
  destruct (durations_fit no_directory served_call Hw) as (_ & Ht & Hc). split; [exact Hw|]. split; [apply Ht|]. apply Hc.
  exists (moment 20000), (moment 45000). constructor.
  - vm_compute. repeat split; discriminate.
  - intros b Eb. apply bridged_within_check. vm_compute in Eb. by injection Eb as <-.
  - by vm_compute.
  - intros q Eq. injection Eq as <-. right. vm_compute. repeat split; discriminate.
  - by apply bridged_within_check.
Defined.

End CallRecordFacts.
