(* ===== verification/AudioLeg.v ===== *)
(** * Audio to and from the telephone leg of an AI call:
    [internal/aicall/framer.go], [uplink.go] and the uplink of [session.go]

    The framer cuts the model's speech into frames of 20 ms; the uplink clock
    gives the model one frame, real or silent, for every 20 ms of wall clock.
    The clock's queue is a ring of five places, as in the code; what it does is
    specified by a bounded queue. Returning a frame to the pool is not an
    effect here. *)

From S2P Require Import Prelude Calendar Media.

Module AudioLeg.
Import Media.

(** ** The framer *)

(** [internal/aicall/framer.go:framer] *)
Record framer := mkFramer { fLaw : Law; fSize : Z; fPending : list Z }.

(** [internal/aicall/framer.go:newFramer] *)
Definition newFramer (l : Law) : framer := mkFramer l FrameSamples [].

Definition with_pending (f : framer) (p : list Z) : framer := mkFramer (fLaw f) (fSize f) p.

(** The loops of [push]: whole frames off the front, and what is left. A round
    takes at least one byte. *)
Fixpoint whole_frames (fuel : nat) (size : Z) (audio : list Z) : list (list Z) * list Z :=
  match fuel with
  | O => ([], audio)
  | S fuel =>
      if size <=? Z.of_nat (length audio) then
        let '(frames, rest) := whole_frames fuel size (drop (Z.to_nat size) audio) in
        (take (Z.to_nat size) audio :: frames, rest)
      else ([], audio)
  end.

(** [internal/aicall/framer.go:framer.push] the framer and the frames it
    emits. *)
Definition push (f : framer) (audio : list Z) : framer * list (list Z) :=
  match fPending f with
  | [] =>
      let '(frames, rest) := whole_frames (length audio) (fSize f) audio in
      (with_pending f (fPending f ++ rest), frames)
  | _ =>
      let pending := fPending f ++ audio in
      let '(frames, rest) := whole_frames (length pending) (fSize f) pending in
      (with_pending f rest, frames)
  end.

(** [internal/aicall/framer.go:framer.flush] *)
Definition flush (f : framer) : framer * list (list Z) :=
  match fPending f with
  | [] => (f, [])
  | p => (with_pending f [], [p ++ replicate (Z.to_nat (fSize f) - length p) (Silence (fLaw f))])
  end.

(** [internal/aicall/framer.go:framer.reset] *)
Definition reset (f : framer) : framer := with_pending f [].

(** ** The uplink clock *)

(** [internal/aicall/uplink.go:const(uplinkSlot)] *)
Definition uplinkSlot : duration := 20 * 1000000.

(** [internal/aicall/uplink.go:const(uplinkMaxBacklog)] *)
Definition uplinkMaxBacklog : Z := 5.

(** [internal/aicall/uplink.go:uplinkStats] *)
Record uplinkStats := mkUplinkStats {
  Received : Z; Sent : Z; Filled : Z; DroppedBacklog : Z; DroppedHushed : Z; MaxBacklog : Z
}.

(** [internal/aicall/uplink.go:uplinkClock] an empty place of the ring is
    [None]. *)
Record uplinkClock := mkClock {
  uStart : instant;
  slotsDone : Z;
  ring : list (option (list Z));
  uHead : Z;
  uCount : Z;
  stats : uplinkStats
}.

(** [internal/aicall/uplink.go:newUplinkClock] *)
Definition newUplinkClock (start : instant) : uplinkClock :=
  mkClock start 0 (replicate (Z.to_nat uplinkMaxBacklog) None) 0 0 (mkUplinkStats 0 0 0 0 0 0).

Definition with_ring (c : uplinkClock) (q : list (option (list Z))) (h n : Z) : uplinkClock :=
  mkClock (uStart c) (slotsDone c) q h n (stats c).
Definition with_stats (c : uplinkClock) (s : uplinkStats) : uplinkClock :=
  mkClock (uStart c) (slotsDone c) (ring c) (uHead c) (uCount c) s.

(** [internal/aicall/uplink.go:uplinkClock.push] *)
Definition clock_push (c : uplinkClock) (frame : list Z) : uplinkClock :=
  let s := stats c in
  let s := mkUplinkStats (Received s + 1) (Sent s) (Filled s) (DroppedBacklog s) (DroppedHushed s) (MaxBacklog s) in
  let c := with_stats c s in
  let c :=
    if uCount c =? uplinkMaxBacklog then
      with_stats (with_ring c (<[Z.to_nat (uHead c) := None]> (ring c)) ((uHead c + 1) mod uplinkMaxBacklog) (uCount c - 1))
        (mkUplinkStats (Received s) (Sent s) (Filled s) (DroppedBacklog s + 1) (DroppedHushed s) (MaxBacklog s))
    else c in
  let c := with_ring c (<[Z.to_nat ((uHead c + uCount c) mod uplinkMaxBacklog) := Some frame]> (ring c)) (uHead c) (uCount c + 1) in
  let s := stats c in
  if MaxBacklog s <? uCount c
  then with_stats c (mkUplinkStats (Received s) (Sent s) (Filled s) (DroppedBacklog s) (DroppedHushed s) (uCount c))
  else c.

(** [internal/aicall/uplink.go:uplinkClock.owed] *)
Definition owed (c : uplinkClock) (now : instant) : Z * uplinkClock :=
  let slots := Z.quot (Calendar.Sub now (uStart c)) uplinkSlot in
  let n := slots - slotsDone c in
  if n <=? 0 then (0, c)
  else (n, mkClock (uStart c) slots (ring c) (uHead c) (uCount c) (stats c)).

(** [internal/aicall/uplink.go:uplinkClock.pop] *)
Definition pop (c : uplinkClock) : option (list Z) * uplinkClock :=
  if uCount c =? 0 then (None, c)
  else
    (default None (ring c !! Z.to_nat (uHead c)),
     with_ring c (<[Z.to_nat (uHead c) := None]> (ring c)) ((uHead c + 1) mod uplinkMaxBacklog) (uCount c - 1)).

(** [internal/aicall/uplink.go:uplinkClock.queued] *)
Definition queued (c : uplinkClock) : Z := uCount c.

(** [internal/aicall/uplink.go:uplinkClock.release] a place for every round. *)
Fixpoint release (fuel : nat) (c : uplinkClock) : uplinkClock :=
  match fuel with
  | O => c
  | S fuel => match pop c with (Some _, c) => release fuel c | (None, c) => c end
  end.

(** [internal/aicall/uplink.go:uplinkSilenceFrame] *)
Definition uplinkSilenceFrame (input : AudioFormat) : list Z :=
  match Enc input with
  | EncodingMuLaw => replicate (Z.to_nat FrameSamples) (Silence LawMu)
  | EncodingALaw => replicate (Z.to_nat FrameSamples) (Silence LawAlaw)
  | EncodingPCM16 => replicate (Z.to_nat (Z.quot (RateHz input) 50 * 2)) 0
  end.

(** ** The pump *)

(** What became of a slot. *)
Inductive slot := SFrame (f : list Z) | SFill | SHushed (f : option (list Z)).

(** The pump of a call: its clock and converter, what the model was given and
    whether it stopped taking it. [log], what became of each slot, and
    [received] are kept by nobody in the program. *)
Record uplink := mkUplink {
  uClock : uplinkClock;
  uConverter : Converter;
  uModel : list (list Z);
  uFailed : bool;
  log : list slot;
  received : list (list Z)
}.

Section pump.
Context (silence : list Z).

(** [internal/aicall/session.go:Session.feedSlot] [taken]: the model accepts
    the frame. *)
Definition feedSlot (u : uplink) (frame : option (list Z)) (taken : bool) : uplink :=
  let s := stats (uClock u) in
  match frame with
  | None =>
      mkUplink (with_stats (uClock u) (mkUplinkStats (Received s) (Sent s + 1) (Filled s + 1) (DroppedBacklog s) (DroppedHushed s) (MaxBacklog s)))
        (uConverter u) (uModel u ++ [silence]) (negb taken) (log u ++ [SFill]) (received u)
  | Some f =>
      let '(conv, out) := Convert (uConverter u) f in
      mkUplink (with_stats (uClock u) (mkUplinkStats (Received s) (Sent s + 1) (Filled s) (DroppedBacklog s) (DroppedHushed s) (MaxBacklog s)))
        conv (uModel u ++ [out]) (negb taken) (log u ++ [SFrame f]) (received u)
  end.

(** One round of [sendDueSlots]: [hushed] is what the flag reads in it. *)
Definition one_slot (u : uplink) (hushed taken : bool) : uplink :=
  let '(frame, c) := pop (uClock u) in
  let u := mkUplink c (uConverter u) (uModel u) (uFailed u) (log u) (received u) in
  if hushed then
    let s := stats c in
    let c := match frame with
             | Some _ => with_stats c (mkUplinkStats (Received s) (Sent s) (Filled s) (DroppedBacklog s) (DroppedHushed s + 1) (MaxBacklog s))
             | None => c
             end in
    mkUplink c (uConverter u) (uModel u) (uFailed u) (log u ++ [SHushed frame]) (received u)
  else feedSlot u frame taken.

Fixpoint due_slots (n : nat) (rounds : nat -> bool * bool) (u : uplink) : uplink :=
  match n with
  | O => u
  | S n =>
      let '(hushed, taken) := rounds O in
      let u := one_slot u hushed taken in
      if uFailed u then u else due_slots n (fun i => rounds (S i)) u
  end.

(** [internal/aicall/session.go:Session.sendDueSlots] *)
Definition sendDueSlots (u : uplink) (now : instant) (rounds : nat -> bool * bool) : uplink :=
  let '(n, c) := owed (uClock u) now in
  due_slots (Z.to_nat n) rounds (mkUplink c (uConverter u) (uModel u) (uFailed u) (log u) (received u)).

Definition arrive (u : uplink) (frame : list Z) : uplink :=
  mkUplink (clock_push (uClock u) frame) (uConverter u) (uModel u) (uFailed u) (log u) (received u ++ [frame]).

(** What wakes the pump: a frame, or the ticker, with the frames that are
    already waiting ([takeArrived]), the time read then and what each round
    meets. *)
Inductive wake := WFrame (frame : list Z) | WTick (waiting : list (list Z)) (now : instant) (rounds : nat -> bool * bool).

(** [internal/aicall/session.go:Session.pumpCallerAudio] a round of the loop;
    the loop ends when the model stops taking audio. *)
Definition pump (u : uplink) (w : wake) : uplink :=
  if uFailed u then u
  else match w with
  | WFrame f => arrive u f
  | WTick waiting now rounds => sendDueSlots (fold_left arrive waiting u) now rounds
  end.

End pump.

Definition newUplink (start : instant) (conv : Converter) : uplink := mkUplink (newUplinkClock start) conv [] false [] [].

(** ** The framer loses nothing *)

Lemma whole_frames_spec size audio : 0 < size -> forall fuel, (length audio <= fuel)%nat ->
  let '(frames, rest) := whole_frames fuel size audio in
  concat frames ++ rest = audio /\ Forall (fun f => Z.of_nat (length f) = size) frames /\ Z.of_nat (length rest) < size.
Proof.
  intros Hs fuel. revert audio. induction fuel as [|fuel IH]; intros audio Hf; simpl.
  - destruct audio; simpl in *; [|lia]. split; [done|]. split; [constructor|lia].
  - destruct (Z.leb_spec size (Z.of_nat (length audio))) as [Hl|Hl]; [|split; [done|]; split; [constructor|lia]].
    specialize (IH (drop (Z.to_nat size) audio) ltac:(rewrite length_drop; lia)).
    destruct (whole_frames fuel size (drop (Z.to_nat size) audio)) as [frames rest]. destruct IH as (H1 & H2 & H3). simpl.
    split; [|split; [constructor; [rewrite length_take; lia|done]|done]]. rewrite <- app_assoc, H1. apply take_drop.
Qed.

Definition framed (f : framer) : Prop := 0 < fSize f /\ Z.of_nat (length (fPending f)) < fSize f.

Lemma push_spec f audio : framed f ->
  let '(f', frames) := push f audio in
  framed f' /\ fSize f' = fSize f /\ fLaw f' = fLaw f /\ concat frames ++ fPending f' = fPending f ++ audio /\
  Forall (fun x => Z.of_nat (length x) = fSize f) frames.
Proof.
  intros [Hs Hp]. unfold push. destruct (fPending f) as [|b p] eqn:E.
  - pose proof (whole_frames_spec (fSize f) audio Hs (length audio) ltac:(lia)) as H.
    destruct (whole_frames _ _ _) as [frames rest]. destruct H as (H1 & H2 & H3). unfold framed. simpl. done.
  - pose proof (whole_frames_spec (fSize f) ((b :: p) ++ audio) Hs (length ((b :: p) ++ audio)) ltac:(lia)) as H.
    destruct (whole_frames _ _ _) as [frames rest]. destruct H as (H1 & H2 & H3). unfold framed. simpl in *. done.
Qed.

Definition push_all (f : framer) (chunks : list (list Z)) : framer * list (list Z) :=
  fold_left (fun acc chunk => let '(f, out) := push acc.1 chunk in (f, acc.2 ++ out)) chunks (f, []).

Lemma push_all_spec chunks f out : framed f -> Forall (fun x => Z.of_nat (length x) = fSize f) out ->
  let '(f', out') := fold_left (fun acc chunk => let '(f, out) := push acc.1 chunk in (f, acc.2 ++ out)) chunks (f, out) in
  framed f' /\ fSize f' = fSize f /\ fLaw f' = fLaw f /\ concat out' ++ fPending f' = concat out ++ fPending f ++ concat chunks /\
  Forall (fun x => Z.of_nat (length x) = fSize f) out'.
Proof.
  revert f out. induction chunks as [|c chunks IH]; intros f out Hf Ho; simpl; [by rewrite app_nil_r|].
  pose proof (push_spec f c Hf) as H. destruct (push f c) as [f1 o1]. destruct H as (H1 & H2 & H3 & H4 & H5).
  specialize (IH f1 (out ++ o1) H1). rewrite H2 in IH. specialize (IH ltac:(by apply Forall_app)).
  destruct (fold_left _ chunks _) as [f' out']. destruct IH as (G1 & G2 & G3 & G4 & G5). split; [done|]. split; [done|]. split; [congruence|].
  split; [|done]. rewrite G4, concat_app, <- app_assoc. f_equal. rewrite !app_assoc. by rewrite H4.
Qed.

(** The framer loses nothing and invents nothing. However the model cuts its
    speech into chunks, every frame sent is exactly 20 ms long, the frames in
    their order are the speech, and the end of a turn sends what was left,
    filled up with silence to one frame. *)
Theorem framer_keeps_speech l chunks :
  let '(f, frames) := push_all (newFramer l) chunks in
  let '(f', last) := flush f in
  Forall (fun x => Z.of_nat (length x) = FrameSamples) (frames ++ last) /\ fPending f' = [] /\
  exists n, concat (frames ++ last) = concat chunks ++ replicate n (Silence l) /\ Z.of_nat n < FrameSamples.
Proof.
  pose proof (push_all_spec chunks (newFramer l) [] ltac:(done) ltac:(constructor)) as H. unfold push_all.
  destruct (fold_left _ _ _) as [f frames]. destruct H as ([Hs H1] & H2 & H3 & H4 & H5). simpl in H2, H3, H4, H5. unfold flush.
  destruct (fPending f) as [|b p] eqn:E.
  - rewrite app_nil_r in *. split; [done|]. split; [done|]. exists 0%nat. simpl. rewrite app_nil_r. done.
  - split.
    { apply Forall_app. split; [done|]. constructor; [|constructor]. rewrite length_app, length_replicate, H2 in *. lia. }
    split; [done|]. exists (Z.to_nat (fSize f) - length (b :: p))%nat. assert (Hq : 0 < Z.of_nat (length (b :: p))) by (simpl; lia).
    rewrite concat_app, <- H4, H3. generalize dependent (b :: p). intros q E Hp H4 Hq. unfold concat at 2.
    rewrite app_nil_r, app_assoc. split; [done|]. rewrite H2 in *. lia.
Qed.

(** ** The ring is a bounded queue *)

(** The queue a ring holds, oldest first. *)
Record holds (c : uplinkClock) (q : list (list Z)) : Prop := mkHolds {
  ho_ring : length (ring c) = 5%nat;
  ho_head : 0 <= uHead c < 5;
  ho_count : uCount c = Z.of_nat (length q) /\ uCount c <= 5;
  ho_queue : forall i f, q !! i = Some f -> ring c !! Z.to_nat ((uHead c + Z.of_nat i) mod 5) = Some (Some f)
}.

Definition bounded_push (q : list (list Z)) (f : list Z) : list (list Z) :=
  (if (length q =? 5)%nat then tail q else q) ++ [f].

Lemma mod5_ne h i j : 0 <= i < 5 -> 0 <= j < 5 -> i <> j -> Z.to_nat ((h + i) mod 5) <> Z.to_nat ((h + j) mod 5).
Proof. intros Hi Hj Hn E. apply Z2Nat.inj in E; [|apply Z.mod_pos_bound; lia..]. Z.to_euclidean_division_equations. lia. Qed.

Lemma mod5_lt h : (Z.to_nat (h mod 5) < 5)%nat.
Proof. pose proof (Z.mod_pos_bound h 5 ltac:(lia)). lia. Qed.

Lemma lookup_length {A} (l : list A) i x : l !! i = Some x -> (i < length l)%nat.
Proof. apply lookup_lt_Some. Qed.

(** Taking the oldest out. *)
Lemma drop_oldest c f q : holds c (f :: q) ->
  holds (with_ring c (<[Z.to_nat (uHead c) := None]> (ring c)) ((uHead c + 1) mod uplinkMaxBacklog) (uCount c - 1)) q.
Proof.
  intros [H1 H2 [H3 H4] H5]. simpl in H3. constructor; simpl.
  - by rewrite length_insert.
  - apply Z.mod_pos_bound. done.
  - lia.
  - intros i g Hg. pose proof (lookup_length _ _ _ Hg). change uplinkMaxBacklog with 5. rewrite Zplus_mod_idemp_l.
    replace (uHead c + 1 + Z.of_nat i) with (uHead c + Z.of_nat (S i)) by lia. rewrite list_lookup_insert_ne; [by apply H5|].
    replace (uHead c) with ((uHead c + 0) mod 5) at 1 by (rewrite Z.add_0_r; apply Z.mod_small; lia). apply mod5_ne; lia.
Qed.

Lemma put_newest c q f : holds c q -> (length q < 5)%nat ->
  holds (with_ring c (<[Z.to_nat ((uHead c + uCount c) mod uplinkMaxBacklog) := Some f]> (ring c)) (uHead c) (uCount c + 1)) (q ++ [f]).
Proof.
  intros [H1 H2 [H3 H4] H5] Hl. constructor; simpl.
  - by rewrite length_insert.
  - done.
  - rewrite length_app. simpl. lia.
  - intros i g Hg. change uplinkMaxBacklog with 5. rewrite H3. apply lookup_app_Some in Hg as [Hg|[Hi Hg]].
    + pose proof (lookup_length _ _ _ Hg). rewrite list_lookup_insert_ne; [by apply H5|]. apply mod5_ne; lia.
    + destruct (i - length q)%nat as [|k] eqn:E; [|done]. injection Hg as ->. replace i with (length q) by lia.
      apply list_lookup_insert_eq. rewrite H1. apply mod5_lt.
Qed.

Lemma holds_stats c s q : holds (with_stats c s) q <-> holds c q.
Proof. split; intros [H1 H2 H3 H4]; by constructor. Qed.

Definition same_but_queue (c c' : uplinkClock) : Prop := uStart c' = uStart c /\ slotsDone c' = slotsDone c.

Lemma clock_push_spec c q f : holds c q ->
  let c' := clock_push c f in
  holds c' (bounded_push q f) /\ same_but_queue c c' /\
  stats c' = mkUplinkStats (Received (stats c) + 1) (Sent (stats c)) (Filled (stats c))
    (DroppedBacklog (stats c) + if (length q =? 5)%nat then 1 else 0) (DroppedHushed (stats c)) (Z.max (MaxBacklog (stats c)) (uCount c')).
Proof.
  intros H c'. subst c'. unfold clock_push, bounded_push. set (s1 := mkUplinkStats (Received (stats c) + 1) _ _ _ _ _).
  pose proof (ho_count _ _ H) as [Hn Hn5]. assert (Hb : (uCount c =? uplinkMaxBacklog) = (length q =? 5)%nat).
  { change uplinkMaxBacklog with 5. destruct (Z.eqb_spec (uCount c) 5), (Nat.eqb_spec (length q) 5); lia. }
  cbn [uCount with_stats]. rewrite Hb. destruct (length q =? 5)%nat eqn:E.
  - apply Nat.eqb_eq in E. destruct q as [|x q]; [done|]. simpl in E. cbn [tail].
    pose proof (drop_oldest c x q H) as Hd. set (c1 := with_ring c _ _ _) in Hd.
    pose proof (put_newest (with_stats c1 (mkUplinkStats (Received s1) (Sent s1) (Filled s1) (DroppedBacklog s1 + 1) (DroppedHushed s1) (MaxBacklog s1))) q f
      (proj2 (holds_stats _ _ _) Hd) ltac:(lia)) as Hp.
    change (with_stats (with_ring (with_stats c s1) _ _ _) _) with (with_stats c1 (mkUplinkStats (Received s1) (Sent s1) (Filled s1) (DroppedBacklog s1 + 1) (DroppedHushed s1) (MaxBacklog s1))).
    set (c2 := with_ring (with_stats c1 _) _ _ _) in Hp |- *. change (MaxBacklog (stats c2)) with (MaxBacklog (stats c)).
    change (uCount c2) with (uCount c - 1 + 1). destruct (Z.ltb_spec (MaxBacklog (stats c)) (uCount c - 1 + 1)).
    + split; [by apply holds_stats|]. split; [done|]. simpl. f_equal. lia.
    + split; [done|]. split; [done|]. simpl. f_equal. lia.
  - apply Nat.eqb_neq in E. pose proof (put_newest (with_stats c s1) q f (proj2 (holds_stats _ _ _) H) ltac:(lia)) as Hp.
    set (c2 := with_ring (with_stats c s1) _ _ _) in Hp |- *. change (MaxBacklog (stats c2)) with (MaxBacklog (stats c)).
    change (uCount c2) with (uCount c + 1). destruct (Z.ltb_spec (MaxBacklog (stats c)) (uCount c + 1)).
    + split; [by apply holds_stats|]. split; [done|]. simpl. f_equal; lia.
    + split; [done|]. split; [done|]. simpl. f_equal; lia.
Qed.

Lemma pop_spec c q : holds c q ->
  match q with
  | [] => pop c = (None, c)
  | f :: q' => exists c', pop c = (Some f, c') /\ holds c' q' /\ same_but_queue c c' /\ stats c' = stats c
  end.
Proof.
  intros H. pose proof (ho_count _ _ H) as [Hn Hn5]. unfold pop. destruct q as [|f q]; simpl in Hn.
  - by rewrite Hn.
  - pose proof (ho_queue _ _ H 0%nat f eq_refl) as E. pose proof (ho_head _ _ H). rewrite Z.add_0_r, Z.mod_small in E by lia.
    rewrite (proj2 (Z.eqb_neq _ _)), E by lia. eexists. split; [reflexivity|]. split; [by apply (drop_oldest _ f)|done].
Qed.

(** ** What the pump does *)

Definition taken_of (l : list slot) : list (list Z) :=
  omap (fun x => match x with SFrame f => Some f | SHushed f => f | SFill => None end) l.
Definition count_slots (p : slot -> bool) (l : list slot) : Z := Z.of_nat (length (List.filter p l)).
Definition is_fed (x : slot) : bool := match x with SHushed _ => false | _ => true end.
Definition is_fill (x : slot) : bool := match x with SFill => true | _ => false end.
Definition is_hushed_frame (x : slot) : bool := match x with SHushed (Some _) => true | _ => false end.

Lemma count_slots_snoc p l x : count_slots p (l ++ [x]) = count_slots p l + Z.b2z (p x).
Proof. unfold count_slots. rewrite List.filter_app, length_app. simpl. destruct (p x); simpl; lia. Qed.

Lemma taken_of_snoc l x : taken_of (l ++ [x]) = taken_of l ++ taken_of [x].
Proof. apply omap_app. Qed.

(** What the model is given for the slots of a log. *)
Definition feed (silence : list Z) (acc : Converter * list (list Z)) (x : slot) : Converter * list (list Z) :=
  match x with
  | SFrame f => let '(c, out) := Convert acc.1 f in (c, acc.2 ++ [out])
  | SFill => (acc.1, acc.2 ++ [silence])
  | SHushed _ => acc
  end.

(** The books of the uplink. *)
Record books (silence : list Z) (conv : Converter) (u : uplink) : Prop := mkBooks {
  bk_model : (uConverter u, uModel u) = fold_left (feed silence) (log u) (conv, []);
  bk_sent : Sent (stats (uClock u)) = count_slots is_fed (log u);
  bk_filled : Filled (stats (uClock u)) = count_slots is_fill (log u);
  bk_hushed : DroppedHushed (stats (uClock u)) = count_slots is_hushed_frame (log u);
  bk_received : Received (stats (uClock u)) = Z.of_nat (length (received u));
  bk_backlog : uCount (uClock u) <= MaxBacklog (stats (uClock u)) <= 5;
  bk_queue : exists q, holds (uClock u) q /\ sublist (taken_of (log u) ++ q) (received u) /\
    Received (stats (uClock u)) = Z.of_nat (length (taken_of (log u))) + DroppedBacklog (stats (uClock u)) + Z.of_nat (length q)
}.

Section pump_facts.
Context (silence : list Z) (conv : Converter) (start : instant).
Notation books := (books silence conv).

Lemma books_initial : books (newUplink start conv).
Proof.
  constructor; try done. exists []. split; [|done]. constructor; simpl; try done.
Qed.

Lemma books_arrive u f : books u -> books (arrive u f).
Proof.
  intros [H4 H5 H6 H7 H8 H9 (q & Hq & Hs & Hr)]. destruct (clock_push_spec _ _ f Hq) as (G1 & [G2 G3] & G4).
  unfold arrive. constructor; cbn [uClock uConverter uModel uFailed log received]; try congruence; try (by rewrite G4).
  - rewrite G4. simpl. rewrite length_app, H8. simpl. lia.
  - rewrite G4. simpl. destruct (ho_count _ _ G1). lia.
  - exists (bounded_push q f). split; [exact G1|]. rewrite G4. cbn [Received DroppedBacklog]. unfold bounded_push.
    destruct (length q =? 5)%nat eqn:E.
    + apply Nat.eqb_eq in E. destruct q as [|x q]; [done|]. cbn [tail length] in *. split.
      * rewrite app_assoc. apply sublist_app; [|done]. etrans; [|exact Hs]. apply sublist_app; [done|]. by apply sublist_cons.
      * rewrite length_app. simpl. lia.
    + split; [rewrite app_assoc; by apply sublist_app|]. rewrite length_app. simpl. lia.
Qed.

Lemma books_slot u hushed taken : books u ->
  let u' := one_slot silence u hushed taken in
  books u' /\ length (log u') = S (length (log u)) /\ same_but_queue (uClock u) (uClock u').
Proof.
  intros [H4 H5 H6 H7 H8 H9 (q & Hq & Hs & Hr)] u'. subst u'. unfold one_slot. pose proof (pop_spec _ _ Hq) as Hp. destruct q as [|f q].
  - rewrite Hp. destruct hushed; unfold feedSlot; cbn [uClock uConverter uModel uFailed log received].
    + split; [|split; [rewrite length_app; simpl; lia|done]]. constructor; cbn [uClock uConverter uModel uFailed log received];
        rewrite ?count_slots_snoc, ?fold_left_app; simpl Z.b2z; try lia; try done. exists []. rewrite taken_of_snoc. change (taken_of [_]) with (@nil (list Z)). rewrite (app_nil_r (taken_of (log u))). done.
    + split; [|split; [rewrite length_app; simpl; lia|done]]. constructor; cbn [uClock uConverter uModel uFailed log received stats with_stats Sent Filled DroppedHushed Received MaxBacklog uCount];
        rewrite ?count_slots_snoc, ?fold_left_app; simpl Z.b2z; try lia; try done.
      * simpl. by rewrite <- H4.
      * exists []. rewrite taken_of_snoc. change (taken_of [_]) with (@nil (list Z)). rewrite (app_nil_r (taken_of (log u))). split; [by apply holds_stats|]. done.
  - destruct Hp as (c' & -> & Hq' & [E1 E2] & E3).
    assert (Hc : uCount c' <= MaxBacklog (stats c') <= 5).
    { rewrite E3. destruct (ho_count _ _ Hq) as [Hn _], (ho_count _ _ Hq') as [Hn' _]. simpl in Hn. lia. }
    assert (Hq2 : forall l, taken_of l = [f] -> sublist (taken_of (log u ++ l) ++ q) (received u) /\
      Received (stats c') = Z.of_nat (length (taken_of (log u ++ l))) + DroppedBacklog (stats c') + Z.of_nat (length q)).
    { intros l El. unfold taken_of in *. rewrite omap_app, El, <- app_assoc, E3. split; [done|]. rewrite length_app. simpl in *. lia. }
    destruct hushed; unfold feedSlot; cbn [uClock uConverter uModel uFailed log received].
    + split; [|split; [rewrite length_app; simpl; lia|done]]. constructor; cbn [uClock uConverter uModel uFailed log received stats with_stats Sent Filled DroppedHushed Received MaxBacklog uCount];
        rewrite ?count_slots_snoc, ?fold_left_app, ?E3; simpl Z.b2z; try lia; try done; try (rewrite E3 in Hc; lia).
      exists q. split; [by apply holds_stats|]. rewrite <- E3. by apply Hq2.
    + destruct (Convert (uConverter u) f) as [conv' out] eqn:Ec. cbn [uClock uConverter uModel uFailed log received].
      split; [|split; [rewrite length_app; simpl; lia|done]]. constructor; cbn [uClock uConverter uModel uFailed log received stats with_stats Sent Filled DroppedHushed Received MaxBacklog uCount];
        rewrite ?count_slots_snoc, ?fold_left_app, ?E3; simpl Z.b2z; try lia; try done; try (rewrite E3 in Hc; lia).
      * simpl. rewrite <- H4. simpl. by rewrite Ec.
      * exists q. split; [by apply holds_stats|]. rewrite <- E3. by apply Hq2.
Qed.

Lemma books_due n rounds u : books u -> uFailed u = false ->
  let u' := due_slots silence n rounds u in
  books u' /\ same_but_queue (uClock u) (uClock u') /\ (length (log u') <= length (log u) + n)%nat /\
  (uFailed u' = false -> length (log u') = length (log u) + n)%nat.
Proof.
  revert rounds u. induction n as [|n IH]; intros rounds u Hu Hf; simpl; [split; [done|]; split; [done|]; lia|].
  destruct (rounds 0%nat) as [hushed taken]. destruct (books_slot u hushed taken Hu) as (H1 & H2 & [H3 H4]).
  destruct (uFailed (one_slot silence u hushed taken)) eqn:E.
  - split; [done|]. split; [done|]. split; [lia|congruence].
  - destruct (IH (fun i => rounds (S i)) _ H1 E) as (G1 & [G2 G3] & G4 & G5). split; [done|]. split; [split; congruence|].
    split; [lia|]. intros G%G5. lia.
Qed.

(** The slots that have gone by. *)
Definition elapsed (ws : list wake) : Z :=
  fold_left (fun n w => match w with WTick _ now _ => Z.max n (Z.quot (Calendar.Sub now start) uplinkSlot) | WFrame _ => n end) ws 0.

Lemma elapsed_snoc ws w : elapsed (ws ++ [w]) =
  match w with WTick _ now _ => Z.max (elapsed ws) (Z.quot (Calendar.Sub now start) uplinkSlot) | WFrame _ => elapsed ws end.
Proof. unfold elapsed. by rewrite fold_left_app. Qed.

Lemma books_arrivals l u : books u -> let u' := fold_left arrive l u in
  books u' /\ same_but_queue (uClock u) (uClock u') /\ log u' = log u /\ uFailed u' = uFailed u.
Proof.
  revert u. induction l as [|f l IH]; intros u Hu; simpl; [done|]. destruct (IH _ (books_arrive u f Hu)) as (H1 & [H2 H3] & H4 & H5).
  split; [done|]. split; [|done]. destruct (bk_queue _ _ _ Hu) as (q & Hq & _). destruct (clock_push_spec _ _ f Hq) as (_ & [G1 G2] & _).
  split; [by rewrite H2|by rewrite H3].
Qed.

(** The pump, its clock included. *)
Definition kept (n : Z) (u : uplink) : Prop :=
  books u /\ uStart (uClock u) = start /\ Z.of_nat (length (log u)) <= slotsDone (uClock u) <= n /\
  (uFailed u = false -> Z.of_nat (length (log u)) = slotsDone (uClock u) /\ slotsDone (uClock u) = n).

Lemma kept_pump n u w : kept n u ->
  kept (match w with WTick _ now _ => Z.max n (Z.quot (Calendar.Sub now start) uplinkSlot) | WFrame _ => n end) (pump silence u w).
Proof.
  intros (Hb & Hs & Hl & Hn). unfold pump. destruct (uFailed u) eqn:Ef.
  { split; [done|]. split; [done|]. split; [destruct w; lia|congruence]. }
  destruct (Hn eq_refl) as [Hn1 Hn2]. destruct w as [f|waiting now rounds].
  - destruct (books_arrivals [f] u Hb) as (H1 & [H2 H3] & H4 & H5). cbn [fold_left] in H1, H2, H3, H4, H5.
    split; [done|]. split; [congruence|]. rewrite H3, H4. done.
  - destruct (books_arrivals waiting u Hb) as (H1 & [H2 H3] & H4 & H5). set (v := fold_left arrive waiting u) in *.
    unfold sendDueSlots, owed. rewrite H2, H3, Hs. set (k := Z.quot _ _). destruct (Z.leb_spec (k - slotsDone (uClock u)) 0) as [Hk|Hk].
    + change (Z.to_nat 0) with 0%nat. cbn [due_slots]. split; [by destruct v|]. cbn [uClock log uFailed]. split; [congruence|]. rewrite H3, H4. split; [lia|]. intros _. lia.
    + set (v' := mkUplink _ (uConverter v) _ _ _ _).
      assert (Hv : books v').
      { destruct H1 as [B1 B2 B3 B4 B5 B6 (q & [Q1 Q2 Q3 Q4] & B7)]. constructor; try done. exists q. split; [by constructor|done]. }
      destruct (books_due (Z.to_nat (k - slotsDone (uClock u))) rounds v' Hv) as (G1 & [G2 G3] & G4 & G5).
      { simpl. congruence. }
      simpl in G2, G3, G4, G5. split; [done|]. split; [congruence|]. rewrite G3. rewrite H4 in G4, G5. split; [lia|]. intros G%G5. lia.
Qed.

(** ** The line the clock stands for *)

(** What the uplink promises, without its ring: frames wait in a line of at most
    five, and a slot takes the first of them. *)
Record line := mkLine { waiting : list (list Z); became : list slot; gone_by : Z; overflowed : Z; stopped : bool }.

(** The oldest of five gives way. *)
Definition line_arrive (l : line) (f : list Z) : line :=
  if (length (waiting l) =? 5)%nat
  then mkLine (tail (waiting l) ++ [f]) (became l) (gone_by l) (overflowed l + 1) (stopped l)
  else mkLine (waiting l ++ [f]) (became l) (gone_by l) (overflowed l) (stopped l).

(** An empty slot is filled with silence, a hushed one is passed over. *)
Definition line_slot (l : line) (hushed taken : bool) : line :=
  let x := match waiting l, hushed with
           | f :: _, false => SFrame f | [], false => SFill
           | f :: _, true => SHushed (Some f) | [], true => SHushed None
           end in
  mkLine (tail (waiting l)) (became l ++ [x]) (gone_by l) (overflowed l) (negb hushed && negb taken).

Fixpoint line_slots (n : nat) (rounds : nat -> bool * bool) (l : line) : line :=
  match n with
  | O => l
  | S n => let l := line_slot l (rounds O).1 (rounds O).2 in if stopped l then l else line_slots n (fun i => rounds (S i)) l
  end.

Definition line_wake (l : line) (w : wake) : line :=
  if stopped l then l
  else match w with
  | WFrame f => line_arrive l f
  | WTick arrived now rounds =>
      let l := fold_left line_arrive arrived l in
      let k := Z.quot (Calendar.Sub now start) uplinkSlot in
      line_slots (Z.to_nat (k - gone_by l)) rounds (mkLine (waiting l) (became l) (Z.max (gone_by l) k) (overflowed l) (stopped l))
  end.

Definition new_line : line := mkLine [] [] 0 0 false.

(** The pump is at this point of the line. *)
Record stands (u : uplink) (l : line) : Prop := mkStands {
  st_queue : holds (uClock u) (waiting l);
  st_log : log u = became l;
  st_done : slotsDone (uClock u) = gone_by l;
  st_dropped : DroppedBacklog (stats (uClock u)) = overflowed l;
  st_failed : uFailed u = stopped l;
  st_start : uStart (uClock u) = start
}.

Lemma stands_arrive u l f : stands u l -> stands (arrive u f) (line_arrive l f).
Proof.
  intros [H1 H2 H3 H4 H5 H6]. destruct (clock_push_spec _ _ f H1) as (G1 & [G2 G3] & G4). unfold line_arrive, bounded_push in *.
  destruct (length (waiting l) =? 5)%nat; constructor; simpl; try done; try congruence; rewrite G4; simpl; lia.
Qed.

Lemma stands_arrivals fs : forall u l, stands u l -> stands (fold_left arrive fs u) (fold_left line_arrive fs l).
Proof. induction fs as [|f fs IH]; intros u l H; simpl; [done|]. by apply IH, stands_arrive. Qed.

Lemma stands_slot u l hushed taken : stands u l -> uFailed u = false -> stands (one_slot silence u hushed taken) (line_slot l hushed taken).
Proof.
  intros [H1 H2 H3 H4 H5 H6] Hf. unfold one_slot, line_slot. pose proof (pop_spec _ _ H1) as Hp. destruct (waiting l) as [|f q] eqn:Eq.
  - rewrite Hp. destruct hushed; unfold feedSlot; (constructor; simpl; try congruence). by apply holds_stats.
  - destruct Hp as (c' & -> & Hq & [E1 E2] & E3).
    destruct hushed; unfold feedSlot; simpl; [|destruct (Convert (uConverter u) f)]; (constructor; simpl; try congruence; try done); by apply holds_stats.
Qed.

Lemma stands_slots n : forall rounds u l, stands u l -> uFailed u = false -> stands (due_slots silence n rounds u) (line_slots n rounds l).
Proof.
  induction n as [|n IH]; intros rounds u l H Hf; simpl; [done|]. destruct (rounds 0%nat) as [h t]. simpl.
  pose proof (stands_slot u l h t H Hf) as Hs. change (negb h && negb t) with (stopped (line_slot l h t)). rewrite <- (st_failed _ _ Hs). destruct (uFailed (one_slot silence u h t)) eqn:E; [done|by apply IH].
Qed.

Lemma stands_wake u l w : stands u l -> stands (pump silence u w) (line_wake l w).
Proof.
  intros H. unfold pump, line_wake. rewrite <- (st_failed _ _ H). destruct (uFailed u) eqn:Ef; [done|]. destruct w as [f|fs now rounds]; [by apply stands_arrive|].
  pose proof (stands_arrivals fs u l H) as Ha. set (v := fold_left arrive fs u) in *. set (m := fold_left line_arrive fs l) in *.
  assert (Ev : uFailed v = false).
  { unfold v. clear - Ef. revert u Ef. induction fs as [|f fs IH]; intros u Ef; simpl; [done|]. by apply IH. }
  destruct Ha as [H1 H2 H3 H4 H5 H6]. unfold sendDueSlots, owed. rewrite H6, H3. set (k := Z.quot _ _).
  destruct (Z.leb_spec (k - gone_by m) 0) as [Hk|Hk].
  - change (Z.to_nat 0) with 0%nat. replace (Z.to_nat (k - gone_by m)) with 0%nat by lia. simpl. constructor; simpl; try done. lia.
  - apply stands_slots; [|done]. destruct H1 as [Q1 Q2 Q3 Q4]. constructor; simpl; try done; lia.
Qed.

Lemma stands_run ws : stands (fold_left (pump silence) ws (newUplink start conv)) (fold_left line_wake ws new_line).
Proof.
  induction ws as [|w ws IH] using rev_ind; [|rewrite !fold_left_app; by apply stands_wake].
  constructor; try done.
Qed.

(** C18: The model hears one frame, real or silent, for every 20 ms that go by.
    However frames arrive and however late the pump is woken, the slots sent,
    filled or passed over while a transfer is settled are those elapsed, until
    the model stops taking audio; and the pump, ring, counters and all, does
    what a plain line of at most five frames does: a slot takes the frame that
    has waited longest, is filled with silence just when none waits, and the
    oldest frame is dropped just when another comes while five wait. What the
    model is given is those slots, converted in their order; every frame
    received was given, dropped, dropped while hushed, or is still waiting, and
    none was given twice. *)
Theorem uplink_keeps_time ws :
  let u := fold_left (pump silence) ws (newUplink start conv) in
  let st := stats (uClock u) in let l := fold_left line_wake ws new_line in
  log u = became l /\ uFailed u = stopped l /\ queued (uClock u) = Z.of_nat (length (waiting l)) /\ DroppedBacklog st = overflowed l /\
  Z.of_nat (length (log u)) <= elapsed ws /\ (uFailed u = false -> Z.of_nat (length (log u)) = elapsed ws) /\
  (uConverter u, uModel u) = fold_left (feed silence) (log u) (conv, []) /\ sublist (taken_of (log u)) (received u) /\
  Received st = (Sent st - Filled st) + DroppedBacklog st + DroppedHushed st + queued (uClock u) /\
  Sent st = Z.of_nat (length (uModel u)) /\ 0 <= queued (uClock u) <= MaxBacklog st /\ MaxBacklog st <= 5.
Proof.
  assert (H : forall ws, kept (elapsed ws) (fold_left (pump silence) ws (newUplink start conv))).
  { clear ws. intros ws. induction ws as [|w ws IH] using rev_ind.
    - split; [apply books_initial|]. done.
    - rewrite fold_left_app, elapsed_snoc. by apply kept_pump. }
  destruct (H ws) as ([H4 H5 H6 H7 H8 H9 (q & Hq & Hs & Hr)] & _ & Hl & Hn). intros u st line. fold u in H4, H5, H6, H7, H8, H9, Hq, Hs, Hr, Hl, Hn.
  fold st in H5, H6, H7, H8, H9, Hr. unfold queued. destruct (ho_count _ _ Hq) as [Hc _].
  pose proof (stands_run ws) as [S1 S2 S3 S4 S5 _]. fold u in S1, S2, S3, S4, S5. destruct (ho_count _ _ S1) as [Sc _].
  split; [done|]. split; [done|]. split; [done|]. split; [done|].
  split; [lia|]. split; [intros E; destruct (Hn E); lia|]. split; [done|]. split; [etrans; [|exact Hs]; by apply sublist_inserts_r|].
  assert (Ht : forall l, Z.of_nat (length (taken_of l)) = count_slots is_fed l - count_slots is_fill l + count_slots is_hushed_frame l).
  { intros l. induction l as [|x l IH] using rev_ind; [done|]. rewrite taken_of_snoc, length_app, Nat2Z.inj_add, IH, !count_slots_snoc.
    destruct x as [f| |[f|]]; simpl; lia. }
  assert (Hm : forall l acc, Z.of_nat (length (fold_left (feed silence) l acc).2) = Z.of_nat (length acc.2) + count_slots is_fed l).
  { intros l. induction l as [|x l IH]; intros acc; simpl; [unfold count_slots; simpl; lia|]. rewrite IH. unfold count_slots. simpl.
    destruct x; unfold feed; simpl; [destruct (Convert _ _)|..]; simpl; rewrite ?length_app; simpl; lia. }
  specialize (Ht (log u)). specialize (Hm (log u) (conv, [])). rewrite <- H4 in Hm. simpl in Hm. lia.
Qed.

End pump_facts.

End AudioLeg.
