(* ===== verification/AISession.v ===== *)
(** * The session of an AI call: [internal/aicall/session.go], [metrics.go]

    One telephone leg joined to one speech model. Five goroutines and the
    orchestrator's calls meet in the session: each stretch they run under [mu],
    and each access to the leg's queue or to a channel, is one step of a thread,
    and between two steps of a thread anything else may run. A thread is the
    list of its remaining steps ([thread]; the frames of one chunk are queued in
    one step); the playback watcher, which loops on
    a ticker, is a state machine ([watch]).

    The model reports through [ProviderEvent]s, what is asked of it is recorded
    ([Told]); the leg is the queue [tx], from which its own goroutine takes one
    frame after another ([wire]). Metrics and logs are left out. *)

From S2P Require Import Prelude GoText Calendar Media AudioLeg.

Module AISession.
Import GoText Media AudioLeg.

(** [internal/aicall/session.go:frameDurationMs] *)
Definition frameDurationMs : Z := 20.
Definition millisecond : duration := 1000000.

(** [internal/aicall/session.go:const(defaultBargeGuard)] *)
Definition defaultBargeGuard : duration := 800 * millisecond.
(** [internal/aicall/session.go:const(audibleGapSlack)] *)
Definition audibleGapSlack : duration := 2 * frameDurationMs * millisecond.
(** [internal/aicall/session.go:const(defaultNoInput)] *)
Definition defaultNoInput : duration := 8 * second.
(** [internal/aicall/orchestrator.go:actionGraceCap] *)
Definition actionGraceCap : duration := 10 * second.
(** [internal/voice/rtp.go:NewRTPSession] the room of the leg's queue. *)
Definition txRoom : nat := 1500.
(** [internal/aicall/session.go:New] the room of the watcher's channel. *)
Definition markerRoom : nat := 8.

(** ** Data *)

(** [internal/provider/session.go:InterruptReason] *)
Inductive InterruptReason := InterruptReasonSpeech | InterruptReasonDTMF | InterruptReasonSystem.

#[export] Instance InterruptReason_eq_dec : EqDecision InterruptReason.
Proof. solve_decision. Defined.

(** [internal/provider/session.go:Event] the fields each type carries. *)
Inductive ProviderEvent :=
| PAudioDelta (audio : list Z)
| PSpeechStarted | PSpeechStopped
| PInterrupted (by_ : InterruptReason)
| PResponseStarted (isSpokenLine isLineAskedAgain : bool)
| PResponseDone
| PInputTranscript (text : string) (isFinal : bool)
| POutputTranscript (text : string) (isFinal : bool)
| PToolCall (id name args : string)
| PError (text : string) (isFatal : bool)
| PClosed.

(** [internal/aicall/session.go:playbackMarker] with the epoch of its turn and,
    counted from all the leg has taken ([ever]), the frames that were queued for
    it, which only the proofs read. *)
Record playbackMarker := mkMarker {
  generation : Z; mTurn : Z; mHasAudio : bool; mIsAside : bool; mEpoch : nat; mFrames : Z
}.

(** [internal/aicall/session.go:Event] the fields each type carries. [before]
    and [after] of a NO_INPUT are read by nobody: how often the caller had been
    heard to speak, and how many turns had begun, when the bot's last word was
    out and when the watch fired. *)
Inductive Event :=
| EReady
| ECustomerSaid (text : string) (isFinal : bool)
| EBotSaid (turn : Z) (text : string) (isFinal isAside : bool)
| EToolCall (turn : Z) (id name args : string)
| ETurnDone (turn : Z) (isInterrupted hasAudio isAside : bool)
| EPlaybackDone (m : playbackMarker)
| ENoInput (isCallerUnanswered : bool) (text : string) (before after : nat * Z)
| EBargeIn (reason : InterruptReason) (turn : Z) (unplayed played : duration) (isGenerating isByProvider : bool)
| ECallerSpeech
| EDigit (digit : string)
| EFailed (reason : string)
| EEnded.

(** What the model is asked for. *)
Inductive Told :=
| TInterrupt (reason : InterruptReason) (playedMs : Z)
| TToolResult (id output : string)
| TUserText (text : string)
| TInstructions (text : string)
| TSpeak (text : string) (isClosing : bool)
| TClose.

(** A frame on its way to the caller, with the turn and the epoch it was queued
    in, which nobody reads. *)
Record Frame := mkFrame { fBytes : list Z; fTurn : Z; fEpoch : nat }.

(** [internal/aicall/session.go:muteRecord] *)
Record muteRecord := mkMute { tool : string; mutePlayedMs : Z; flushedMs : Z }.

(** [internal/aicall/metrics.go:turnTimer] without the share of the provider. *)
Record turnTimer := mkTimer {
  speechStoppedAt : instant;
  isAnswered : bool;
  words : string;
  hasResponseSinceSpeech : bool
}.

(** [internal/aicall/metrics.go:turnTimer.onSpeechStopped] *)
Definition onSpeechStopped (now : instant) (t : turnTimer) : turnTimer := mkTimer now false (words t) (hasResponseSinceSpeech t).

(** [internal/aicall/metrics.go:turnTimer.onSpeechStarted] *)
Definition onSpeechStarted (t : turnTimer) : turnTimer := mkTimer 0 false (words t) false.

(** [internal/aicall/metrics.go:turnTimer.onResponseStarted] *)
Definition onResponseStarted (t : turnTimer) : turnTimer :=
  mkTimer (speechStoppedAt t) (if is_zero (speechStoppedAt t) then isAnswered t else true) "" true.

(** [internal/aicall/metrics.go:turnTimer.onCallerWords] *)
Definition onCallerWords (text : string) (t : turnTimer) : turnTimer :=
  if String.eqb (TrimSpace text) "" || hasResponseSinceSpeech t then t
  else mkTimer (speechStoppedAt t) (isAnswered t) text (hasResponseSinceSpeech t).

(** [internal/aicall/metrics.go:turnTimer.onSteppedIn] the words, when a
    measurement was closed. *)
Definition onSteppedIn (t : turnTimer) : option string * turnTimer :=
  if is_zero (speechStoppedAt t) || isAnswered t then (None, t)
  else (Some (words t), mkTimer 0 (isAnswered t) "" (hasResponseSinceSpeech t)).

(** [internal/aicall/metrics.go:turnTimer.onFirstFrame] *)
Definition onFirstFrame (t : turnTimer) : turnTimer :=
  if is_zero (speechStoppedAt t) then t else mkTimer 0 false (words t) (hasResponseSinceSpeech t).

(** ** The state *)

(** [internal/aicall/session.go:Session] what [mu] guards. The generations do
    not wrap. *)
Record Session := mkSession {
  framesQueued : Z;
  audioTurns : Z;
  lastAudioTurn : Z;
  isBotSpeaking : bool;
  isResponding : bool;
  openTurns : Z;
  isCutOff : bool;
  cutOffChunks : Z;
  mutedTurn : Z;
  muteLog : option muteRecord;
  isNextTurnMuted : bool;
  turnOwedUntil : instant;
  audibleSince : instant;
  audibleUntil : instant;
  timer : turnTimer;
  drainGeneration : Z;
  idleGeneration : Z;
  turnSeq : Z;
  isAsideOwed : bool;
  asideTurn : Z;
  playFramer : framer;
  downlink : Converter
}.

Definition set_framesQueued (v : Z) (s : Session) : Session :=
  mkSession v (audioTurns s) (lastAudioTurn s) (isBotSpeaking s) (isResponding s) (openTurns s) (isCutOff s) (cutOffChunks s) (mutedTurn s) (muteLog s) (isNextTurnMuted s) (turnOwedUntil s) (audibleSince s) (audibleUntil s) (timer s) (drainGeneration s) (idleGeneration s) (turnSeq s) (isAsideOwed s) (asideTurn s) (playFramer s) (downlink s).
Definition set_audioTurns (v : Z) (s : Session) : Session :=
  mkSession (framesQueued s) v (lastAudioTurn s) (isBotSpeaking s) (isResponding s) (openTurns s) (isCutOff s) (cutOffChunks s) (mutedTurn s) (muteLog s) (isNextTurnMuted s) (turnOwedUntil s) (audibleSince s) (audibleUntil s) (timer s) (drainGeneration s) (idleGeneration s) (turnSeq s) (isAsideOwed s) (asideTurn s) (playFramer s) (downlink s).
Definition set_lastAudioTurn (v : Z) (s : Session) : Session :=
  mkSession (framesQueued s) (audioTurns s) v (isBotSpeaking s) (isResponding s) (openTurns s) (isCutOff s) (cutOffChunks s) (mutedTurn s) (muteLog s) (isNextTurnMuted s) (turnOwedUntil s) (audibleSince s) (audibleUntil s) (timer s) (drainGeneration s) (idleGeneration s) (turnSeq s) (isAsideOwed s) (asideTurn s) (playFramer s) (downlink s).
Definition set_isBotSpeaking (v : bool) (s : Session) : Session :=
  mkSession (framesQueued s) (audioTurns s) (lastAudioTurn s) v (isResponding s) (openTurns s) (isCutOff s) (cutOffChunks s) (mutedTurn s) (muteLog s) (isNextTurnMuted s) (turnOwedUntil s) (audibleSince s) (audibleUntil s) (timer s) (drainGeneration s) (idleGeneration s) (turnSeq s) (isAsideOwed s) (asideTurn s) (playFramer s) (downlink s).
Definition set_isResponding (v : bool) (s : Session) : Session :=
  mkSession (framesQueued s) (audioTurns s) (lastAudioTurn s) (isBotSpeaking s) v (openTurns s) (isCutOff s) (cutOffChunks s) (mutedTurn s) (muteLog s) (isNextTurnMuted s) (turnOwedUntil s) (audibleSince s) (audibleUntil s) (timer s) (drainGeneration s) (idleGeneration s) (turnSeq s) (isAsideOwed s) (asideTurn s) (playFramer s) (downlink s).
Definition set_openTurns (v : Z) (s : Session) : Session :=
  mkSession (framesQueued s) (audioTurns s) (lastAudioTurn s) (isBotSpeaking s) (isResponding s) v (isCutOff s) (cutOffChunks s) (mutedTurn s) (muteLog s) (isNextTurnMuted s) (turnOwedUntil s) (audibleSince s) (audibleUntil s) (timer s) (drainGeneration s) (idleGeneration s) (turnSeq s) (isAsideOwed s) (asideTurn s) (playFramer s) (downlink s).
Definition set_isCutOff (v : bool) (s : Session) : Session :=
  mkSession (framesQueued s) (audioTurns s) (lastAudioTurn s) (isBotSpeaking s) (isResponding s) (openTurns s) v (cutOffChunks s) (mutedTurn s) (muteLog s) (isNextTurnMuted s) (turnOwedUntil s) (audibleSince s) (audibleUntil s) (timer s) (drainGeneration s) (idleGeneration s) (turnSeq s) (isAsideOwed s) (asideTurn s) (playFramer s) (downlink s).
Definition set_cutOffChunks (v : Z) (s : Session) : Session :=
  mkSession (framesQueued s) (audioTurns s) (lastAudioTurn s) (isBotSpeaking s) (isResponding s) (openTurns s) (isCutOff s) v (mutedTurn s) (muteLog s) (isNextTurnMuted s) (turnOwedUntil s) (audibleSince s) (audibleUntil s) (timer s) (drainGeneration s) (idleGeneration s) (turnSeq s) (isAsideOwed s) (asideTurn s) (playFramer s) (downlink s).
Definition set_mutedTurn (v : Z) (s : Session) : Session :=
  mkSession (framesQueued s) (audioTurns s) (lastAudioTurn s) (isBotSpeaking s) (isResponding s) (openTurns s) (isCutOff s) (cutOffChunks s) v (muteLog s) (isNextTurnMuted s) (turnOwedUntil s) (audibleSince s) (audibleUntil s) (timer s) (drainGeneration s) (idleGeneration s) (turnSeq s) (isAsideOwed s) (asideTurn s) (playFramer s) (downlink s).
Definition set_muteLog (v : option muteRecord) (s : Session) : Session :=
  mkSession (framesQueued s) (audioTurns s) (lastAudioTurn s) (isBotSpeaking s) (isResponding s) (openTurns s) (isCutOff s) (cutOffChunks s) (mutedTurn s) v (isNextTurnMuted s) (turnOwedUntil s) (audibleSince s) (audibleUntil s) (timer s) (drainGeneration s) (idleGeneration s) (turnSeq s) (isAsideOwed s) (asideTurn s) (playFramer s) (downlink s).
Definition set_isNextTurnMuted (v : bool) (s : Session) : Session :=
  mkSession (framesQueued s) (audioTurns s) (lastAudioTurn s) (isBotSpeaking s) (isResponding s) (openTurns s) (isCutOff s) (cutOffChunks s) (mutedTurn s) (muteLog s) v (turnOwedUntil s) (audibleSince s) (audibleUntil s) (timer s) (drainGeneration s) (idleGeneration s) (turnSeq s) (isAsideOwed s) (asideTurn s) (playFramer s) (downlink s).
Definition set_turnOwedUntil (v : instant) (s : Session) : Session :=
  mkSession (framesQueued s) (audioTurns s) (lastAudioTurn s) (isBotSpeaking s) (isResponding s) (openTurns s) (isCutOff s) (cutOffChunks s) (mutedTurn s) (muteLog s) (isNextTurnMuted s) v (audibleSince s) (audibleUntil s) (timer s) (drainGeneration s) (idleGeneration s) (turnSeq s) (isAsideOwed s) (asideTurn s) (playFramer s) (downlink s).
Definition set_audibleSince (v : instant) (s : Session) : Session :=
  mkSession (framesQueued s) (audioTurns s) (lastAudioTurn s) (isBotSpeaking s) (isResponding s) (openTurns s) (isCutOff s) (cutOffChunks s) (mutedTurn s) (muteLog s) (isNextTurnMuted s) (turnOwedUntil s) v (audibleUntil s) (timer s) (drainGeneration s) (idleGeneration s) (turnSeq s) (isAsideOwed s) (asideTurn s) (playFramer s) (downlink s).
Definition set_audibleUntil (v : instant) (s : Session) : Session :=
  mkSession (framesQueued s) (audioTurns s) (lastAudioTurn s) (isBotSpeaking s) (isResponding s) (openTurns s) (isCutOff s) (cutOffChunks s) (mutedTurn s) (muteLog s) (isNextTurnMuted s) (turnOwedUntil s) (audibleSince s) v (timer s) (drainGeneration s) (idleGeneration s) (turnSeq s) (isAsideOwed s) (asideTurn s) (playFramer s) (downlink s).
Definition set_timer (v : turnTimer) (s : Session) : Session :=
  mkSession (framesQueued s) (audioTurns s) (lastAudioTurn s) (isBotSpeaking s) (isResponding s) (openTurns s) (isCutOff s) (cutOffChunks s) (mutedTurn s) (muteLog s) (isNextTurnMuted s) (turnOwedUntil s) (audibleSince s) (audibleUntil s) v (drainGeneration s) (idleGeneration s) (turnSeq s) (isAsideOwed s) (asideTurn s) (playFramer s) (downlink s).
Definition set_drainGeneration (v : Z) (s : Session) : Session :=
  mkSession (framesQueued s) (audioTurns s) (lastAudioTurn s) (isBotSpeaking s) (isResponding s) (openTurns s) (isCutOff s) (cutOffChunks s) (mutedTurn s) (muteLog s) (isNextTurnMuted s) (turnOwedUntil s) (audibleSince s) (audibleUntil s) (timer s) v (idleGeneration s) (turnSeq s) (isAsideOwed s) (asideTurn s) (playFramer s) (downlink s).
Definition set_idleGeneration (v : Z) (s : Session) : Session :=
  mkSession (framesQueued s) (audioTurns s) (lastAudioTurn s) (isBotSpeaking s) (isResponding s) (openTurns s) (isCutOff s) (cutOffChunks s) (mutedTurn s) (muteLog s) (isNextTurnMuted s) (turnOwedUntil s) (audibleSince s) (audibleUntil s) (timer s) (drainGeneration s) v (turnSeq s) (isAsideOwed s) (asideTurn s) (playFramer s) (downlink s).
Definition set_turnSeq (v : Z) (s : Session) : Session :=
  mkSession (framesQueued s) (audioTurns s) (lastAudioTurn s) (isBotSpeaking s) (isResponding s) (openTurns s) (isCutOff s) (cutOffChunks s) (mutedTurn s) (muteLog s) (isNextTurnMuted s) (turnOwedUntil s) (audibleSince s) (audibleUntil s) (timer s) (drainGeneration s) (idleGeneration s) v (isAsideOwed s) (asideTurn s) (playFramer s) (downlink s).
Definition set_isAsideOwed (v : bool) (s : Session) : Session :=
  mkSession (framesQueued s) (audioTurns s) (lastAudioTurn s) (isBotSpeaking s) (isResponding s) (openTurns s) (isCutOff s) (cutOffChunks s) (mutedTurn s) (muteLog s) (isNextTurnMuted s) (turnOwedUntil s) (audibleSince s) (audibleUntil s) (timer s) (drainGeneration s) (idleGeneration s) (turnSeq s) v (asideTurn s) (playFramer s) (downlink s).
Definition set_asideTurn (v : Z) (s : Session) : Session :=
  mkSession (framesQueued s) (audioTurns s) (lastAudioTurn s) (isBotSpeaking s) (isResponding s) (openTurns s) (isCutOff s) (cutOffChunks s) (mutedTurn s) (muteLog s) (isNextTurnMuted s) (turnOwedUntil s) (audibleSince s) (audibleUntil s) (timer s) (drainGeneration s) (idleGeneration s) (turnSeq s) (isAsideOwed s) v (playFramer s) (downlink s).
Definition set_playFramer (v : framer) (s : Session) : Session :=
  mkSession (framesQueued s) (audioTurns s) (lastAudioTurn s) (isBotSpeaking s) (isResponding s) (openTurns s) (isCutOff s) (cutOffChunks s) (mutedTurn s) (muteLog s) (isNextTurnMuted s) (turnOwedUntil s) (audibleSince s) (audibleUntil s) (timer s) (drainGeneration s) (idleGeneration s) (turnSeq s) (isAsideOwed s) (asideTurn s) v (downlink s).
Definition set_downlink (v : Converter) (s : Session) : Session :=
  mkSession (framesQueued s) (audioTurns s) (lastAudioTurn s) (isBotSpeaking s) (isResponding s) (openTurns s) (isCutOff s) (cutOffChunks s) (mutedTurn s) (muteLog s) (isNextTurnMuted s) (turnOwedUntil s) (audibleSince s) (audibleUntil s) (timer s) (drainGeneration s) (idleGeneration s) (turnSeq s) (isAsideOwed s) (asideTurn s) (playFramer s) v.

(** A call: the session, the leg's queue and what has left it for the caller,
    the watcher's channels, the flags, the clock, what was published and what
    the model was told. [coin] is what a select finds ready, [refuses] whether
    the model takes a request, [endingArmed] what [IsEndingArmed] answers: the
    environment sets them. [epoch] and [heard] are kept by nobody: how often the
    count of queued frames began anew, and how often the caller was heard to
    speak; nor is [ever], every frame the leg's queue has taken. *)
Record World := mkWorld {
  sess : Session;
  tx : list Frame;
  wire : list Frame;
  ever : list Frame;
  playbackDone : list playbackMarker;
  rearm : bool;
  isHushed : bool;
  isClosed : bool;
  endingArmed : bool;
  refuses : bool;
  coin : bool;
  clock : instant;
  events : list Event;
  told : list Told;
  epoch : nat;
  heard : nat
}.

Definition set_sess (v : Session) (s : World) : World :=
  mkWorld v (tx s) (wire s) (ever s) (playbackDone s) (rearm s) (isHushed s) (isClosed s) (endingArmed s) (refuses s) (coin s) (clock s) (events s) (told s) (epoch s) (heard s).
Definition set_tx (v : list Frame) (s : World) : World :=
  mkWorld (sess s) v (wire s) (ever s) (playbackDone s) (rearm s) (isHushed s) (isClosed s) (endingArmed s) (refuses s) (coin s) (clock s) (events s) (told s) (epoch s) (heard s).
Definition set_wire (v : list Frame) (s : World) : World :=
  mkWorld (sess s) (tx s) v (ever s) (playbackDone s) (rearm s) (isHushed s) (isClosed s) (endingArmed s) (refuses s) (coin s) (clock s) (events s) (told s) (epoch s) (heard s).
Definition set_ever (v : list Frame) (s : World) : World :=
  mkWorld (sess s) (tx s) (wire s) v (playbackDone s) (rearm s) (isHushed s) (isClosed s) (endingArmed s) (refuses s) (coin s) (clock s) (events s) (told s) (epoch s) (heard s).
Definition set_playbackDone (v : list playbackMarker) (s : World) : World :=
  mkWorld (sess s) (tx s) (wire s) (ever s) v (rearm s) (isHushed s) (isClosed s) (endingArmed s) (refuses s) (coin s) (clock s) (events s) (told s) (epoch s) (heard s).
Definition set_rearm (v : bool) (s : World) : World :=
  mkWorld (sess s) (tx s) (wire s) (ever s) (playbackDone s) v (isHushed s) (isClosed s) (endingArmed s) (refuses s) (coin s) (clock s) (events s) (told s) (epoch s) (heard s).
Definition set_isHushed (v : bool) (s : World) : World :=
  mkWorld (sess s) (tx s) (wire s) (ever s) (playbackDone s) (rearm s) v (isClosed s) (endingArmed s) (refuses s) (coin s) (clock s) (events s) (told s) (epoch s) (heard s).
Definition set_isClosed (v : bool) (s : World) : World :=
  mkWorld (sess s) (tx s) (wire s) (ever s) (playbackDone s) (rearm s) (isHushed s) v (endingArmed s) (refuses s) (coin s) (clock s) (events s) (told s) (epoch s) (heard s).
Definition set_endingArmed (v : bool) (s : World) : World :=
  mkWorld (sess s) (tx s) (wire s) (ever s) (playbackDone s) (rearm s) (isHushed s) (isClosed s) v (refuses s) (coin s) (clock s) (events s) (told s) (epoch s) (heard s).
Definition set_refuses (v : bool) (s : World) : World :=
  mkWorld (sess s) (tx s) (wire s) (ever s) (playbackDone s) (rearm s) (isHushed s) (isClosed s) (endingArmed s) v (coin s) (clock s) (events s) (told s) (epoch s) (heard s).
Definition set_coin (v : bool) (s : World) : World :=
  mkWorld (sess s) (tx s) (wire s) (ever s) (playbackDone s) (rearm s) (isHushed s) (isClosed s) (endingArmed s) (refuses s) v (clock s) (events s) (told s) (epoch s) (heard s).
Definition set_clock (v : instant) (s : World) : World :=
  mkWorld (sess s) (tx s) (wire s) (ever s) (playbackDone s) (rearm s) (isHushed s) (isClosed s) (endingArmed s) (refuses s) (coin s) v (events s) (told s) (epoch s) (heard s).
Definition set_events (v : list Event) (s : World) : World :=
  mkWorld (sess s) (tx s) (wire s) (ever s) (playbackDone s) (rearm s) (isHushed s) (isClosed s) (endingArmed s) (refuses s) (coin s) (clock s) v (told s) (epoch s) (heard s).
Definition set_told (v : list Told) (s : World) : World :=
  mkWorld (sess s) (tx s) (wire s) (ever s) (playbackDone s) (rearm s) (isHushed s) (isClosed s) (endingArmed s) (refuses s) (coin s) (clock s) (events s) v (epoch s) (heard s).
Definition set_epoch (v : nat) (s : World) : World :=
  mkWorld (sess s) (tx s) (wire s) (ever s) (playbackDone s) (rearm s) (isHushed s) (isClosed s) (endingArmed s) (refuses s) (coin s) (clock s) (events s) (told s) v (heard s).
Definition set_heard (v : nat) (s : World) : World :=
  mkWorld (sess s) (tx s) (wire s) (ever s) (playbackDone s) (rearm s) (isHushed s) (isClosed s) (endingArmed s) (refuses s) (coin s) (clock s) (events s) (told s) (epoch s) v.

Definition with_sess (f : Session -> Session) (w : World) : World := set_sess (f (sess w)) w.

(** [internal/aicall/session.go:Config] *)
Record Config := mkConfig { BargeGuard : duration; NoInput : duration }.

(** [internal/aicall/session.go:Session.bargeGuard] *)
Definition bargeGuard (cfg : Config) : duration :=
  if BargeGuard cfg <? 0 then 0 else if BargeGuard cfg =? 0 then defaultBargeGuard else BargeGuard cfg.

(** [internal/aicall/session.go:Session.noInputAfter] *)
Definition noInputAfter (cfg : Config) : duration :=
  if NoInput cfg <? 0 then 0 else if NoInput cfg =? 0 then defaultNoInput else NoInput cfg.

(** ** The leg *)

(** [internal/voice/rtp.go:RTPSession.Pending] *)
Definition Pending (w : World) : nat := length (tx w).

(** [internal/voice/rtp.go:RTPSession.Send] *)
Definition Send (f : Frame) (w : World) : bool * World :=
  if (length (tx w) <? txRoom)%nat then (true, set_ever (ever w ++ [f]) (set_tx (tx w ++ [f]) w)) else (false, w).

(** [internal/voice/rtp.go:RTPSession.ClearTx] *)
Definition ClearTx (w : World) : Z * World := (Z.of_nat (length (tx w)), set_tx [] w).

(** [internal/voice/rtp.go:RTPSession.popTx] *)
Definition popTx (w : World) : World :=
  match tx w with f :: q => set_wire (wire w ++ [f]) (set_tx q w) | [] => w end.

(** [internal/aicall/session.go:Session.queuedPlayout] *)
Definition queuedPlayout (w : World) : duration := Z.of_nat (Pending w) * frameDurationMs * millisecond.

(** ** What a turn queues *)

(** [internal/aicall/session.go:Session.queueFrame] *)
Definition queueFrame (w : World) (bytes : list Z) : World :=
  let isIdle := (Pending w =? 0)%nat in
  let '(sent, w) := Send (mkFrame bytes (turnSeq (sess w)) (epoch w)) w in
  if negb sent then w
  else
    let now := clock w in
    let w := with_sess (fun s =>
      if isIdle && (is_zero (audibleSince s) || (audibleUntil s + audibleGapSlack <? now))
      then set_audibleUntil now (set_audibleSince now s) else s) w in
    with_sess (fun s =>
      let s := if is_zero (audibleSince s) then s else set_audibleUntil (audibleUntil s + frameDurationMs * millisecond) s in
      set_timer (onFirstFrame (timer s)) (set_framesQueued (framesQueued s + 1) s)) w.

(** [internal/aicall/session.go:Session.playAudio] under the lock. *)
Definition playAudio (audio : list Z) (w : World) : World :=
  let s := sess w in
  if isCutOff s then set_sess (set_cutOffChunks (cutOffChunks s + 1) s) w
  else
    let '(conv, out) := Convert (downlink s) audio in
    let '(fr, frames) := push (playFramer s) out in
    fold_left queueFrame frames (set_sess (set_playFramer fr (set_downlink conv (set_isBotSpeaking true s))) w).

(** [internal/aicall/session.go:Session.logMuted] *)
Definition logMuted (s : Session) : Session := set_muteLog None s.

(** [internal/aicall/session.go:Session.beginTurn] *)
Definition beginTurn (isSpokenLine isLineAskedAgain : bool) (w : World) : World :=
  let s := sess w in
  let turn := turnSeq s + 1 in
  let s := set_turnSeq turn (set_framesQueued 0 s) in
  let s :=
    if isAsideOwed s then (let s := set_isAsideOwed false s in if isSpokenLine then set_asideTurn turn s else s)
    else if isSpokenLine && isLineAskedAgain && negb (asideTurn s =? 0) && (asideTurn s =? turn - 1) then set_asideTurn turn s
    else s in
  let s := set_timer (onResponseStarted (timer s)) s in
  let s := set_openTurns (Z.min (openTurns s + 1) 2) (set_turnOwedUntil 0 (set_isResponding true s)) in
  let s := logMuted s in
  let s := if isCutOff s then set_cutOffChunks 0 (set_isCutOff false s) else s in
  let s := if isNextTurnMuted s then set_isCutOff true (set_mutedTurn turn (set_isNextTurnMuted false s)) else s in
  let s := set_idleGeneration (idleGeneration s + 1) (set_drainGeneration (drainGeneration s + 1) s) in
  set_epoch (S (epoch w)) (set_sess s w).

(** The frames of a turn, in one of its epochs, among others. *)
Definition of_turn (e : nat) (t : Z) (l : list Frame) : Z :=
  Z.of_nat (length (List.filter (fun f => (fEpoch f =? e)%nat && (fTurn f =? t)) l)).

(** [internal/aicall/session.go:Session.endTurn] under the lock: the marker for
    the watcher. *)
Definition endTurn (w : World) : playbackMarker * World :=
  let '(fr, frames) := flush (playFramer (sess w)) in
  let w := fold_left queueFrame frames (with_sess (set_playFramer fr) w) in
  let s := sess w in
  let s := set_openTurns (Z.max (openTurns s - 1) 0) (set_isResponding false (set_isBotSpeaking false s)) in
  let s := logMuted (set_drainGeneration (drainGeneration s + 1) s) in
  let hasAudio := 0 <? framesQueued s in
  let s := if hasAudio then set_lastAudioTurn (turnSeq s) (set_audioTurns (audioTurns s + 1) s) else s in
  (mkMarker (drainGeneration s) (turnSeq s) hasAudio (negb (asideTurn s =? 0) && (turnSeq s =? asideTurn s)) (epoch w)
     (of_turn (epoch w) (turnSeq s) (ever w)),
   set_sess s w).

(** [internal/aicall/session.go:Session.endTurn] the channel. *)
Definition hand_marker (m : playbackMarker) (w : World) : World :=
  if (length (playbackDone w) <? markerRoom)%nat then set_playbackDone (playbackDone w ++ [m]) w else w.

(** [internal/aicall/session.go:Session.stopPlaybackLocked] the milliseconds
    heard, whether anything had been queued, and the frames flushed. *)
Definition stopPlaybackLocked (endsTheTurn : bool) (w : World) : (Z * bool * Z) * World :=
  let '(cleared, w) := ClearTx w in
  let s := sess w in
  let played := Z.max (framesQueued s - cleared) 0 in
  let hadQueued := 0 <? framesQueued s in
  let s := set_audibleUntil 0 (set_audibleSince 0 (set_isBotSpeaking false (set_framesQueued 0 (set_playFramer (reset (playFramer s)) s)))) in
  let s := if endsTheTurn then set_isResponding false s else s in
  let s := set_idleGeneration (idleGeneration s + 1) (set_drainGeneration (drainGeneration s + 1) s) in
  ((played * frameDurationMs, hadQueued, cleared), set_epoch (S (epoch w)) (set_sess s w)).

(** [internal/aicall/session.go:Session.endInterruptedTurn] *)
Definition endInterruptedTurn (w : World) : bool * World :=
  let n := Z.max (openTurns (sess w) - 1) 0 in
  (n =? 0, with_sess (set_openTurns n) w).

(** [internal/aicall/session.go:Session.turnState] *)
Definition turnState (w : World) : Z * bool :=
  let s := sess w in (turnSeq s, negb (turnSeq s =? 0) && (turnSeq s =? asideTurn s)).

(** [internal/aicall/session.go:Session.cancelDeadAirWatch] *)
Definition cancelDeadAirWatch (w : World) : World := with_sess (fun s => set_idleGeneration (idleGeneration s + 1) s) w.

(** The caller is heard to speak. *)
Definition hear (w : World) : World := set_heard (S (heard w)) w.

(** [internal/aicall/session.go:Session.stepIn] *)
Definition stepIn (w : World) : option string * World :=
  let '(r, t) := onSteppedIn (timer (sess w)) in (r, with_sess (set_timer t) w).

(** [internal/aicall/session.go:Session.askedForATurn] *)
Definition askedForATurn (w : World) : World := with_sess (set_turnOwedUntil (clock w + actionGraceCap)) w.

(** A turn asked for and not started holds the floor. *)
Definition turn_owed (w : World) : bool := negb (is_zero (turnOwedUntil (sess w))) && (clock w <? turnOwedUntil (sess w)).

(** [internal/aicall/session.go:Session.isQuiet] *)
Definition isQuiet (w : World) : bool :=
  negb (isResponding (sess w)) && negb (isBotSpeaking (sess w)) && negb (isAsideOwed (sess w)) &&
  negb (turn_owed w) && (Pending w =? 0)%nat.

(** [internal/aicall/session.go:Session.isHoldingTheFloor] *)
Definition isHoldingTheFloor (w : World) : bool :=
  isResponding (sess w) || isBotSpeaking (sess w) || turn_owed w || ((0 <? framesQueued (sess w)) && negb (Pending w =? 0)%nat).

(** [internal/aicall/session.go:Session.isTurnGenerating] *)
Definition isTurnGenerating (w : World) : bool := isResponding (sess w) || turn_owed w.

(** [internal/aicall/session.go:Session.audioProgress] *)
Definition audioProgress (w : World) : Z * bool := (audioTurns (sess w), 0 <? framesQueued (sess w)).

(** [internal/aicall/session.go:Session.audioSince] *)
Definition audioSince (turn : Z) (w : World) : bool * bool := (turn <? lastAudioTurn (sess w), 0 <? framesQueued (sess w)).

(** [internal/aicall/session.go:Session.currentTurn] *)
Definition currentTurn (w : World) : Z := turnSeq (sess w).

(** [internal/aicall/session.go:Session.isMutedTurn] *)
Definition isMutedTurn (turn : Z) (w : World) : bool := negb (turn =? 0) && (turn =? mutedTurn (sess w)).

(** [internal/aicall/session.go:Session.MuteTurn] *)
Definition MuteTurn (turn : Z) (toolName : string) (w : World) : World :=
  if (turn =? 0) || negb (turnSeq (sess w) =? turn) then w
  else
    let isGenerating := isResponding (sess w) in
    let w := with_sess (fun s => let s := set_mutedTurn turn s in if isGenerating then set_isCutOff true s else s) w in
    let '((playedMs, _, cleared), w) := stopPlaybackLocked false w in
    let w := with_sess (set_muteLog (Some (mkMute toolName playedMs (cleared * frameDurationMs)))) w in
    if isGenerating then w else with_sess logMuted w.

(** [internal/aicall/session.go:Session.muteNextTurn] *)
Definition muteNextTurn (isMuted : bool) (w : World) : World := with_sess (set_isNextTurnMuted isMuted) w.

(** ** Threads *)

(** The steps a thread still has to take. *)
Inductive thread :=
| Idle
| Do (f : World -> World * thread).

(** A step that asks nothing of the world. *)
Definition run_ (f : World -> World) (k : thread) : thread := Do (fun w => (f w, k)).
Definition tell (t : Told) : World -> World := fun w => set_told (told w ++ [t]) w.
Definition publish (e : Event) : World -> World := fun w => set_events (events w ++ [e]) w.

(** [internal/aicall/session.go:Session.emit] *)
Definition emit (e : Event) (k : thread) : thread :=
  Do (fun w => if isClosed w then (w, k)
               else (w, Do (fun w => (if isClosed w && coin w then w else publish e w, k)))).

(** [internal/aicall/session.go:Session.Close] a second call does nothing. *)
Definition Close (k : thread) : thread :=
  Do (fun w =>
    if isClosed w then (w, k)
    else (set_isClosed true w,
      run_ (with_sess (set_turnOwedUntil 0)) (run_ (tell TClose) (run_ (fun w => (ClearTx w).2) k)))).

(** [internal/aicall/session.go:Session.fail] *)
Definition fail (reason : string) (k : thread) : thread :=
  Do (fun w => if isClosed w then (w, k) else (w, emit (EFailed reason) (Close k))).

Section session.
Context (cfg : Config).

(** [internal/aicall/session.go:Session.bargeIn] *)
Definition bargeIn (reason : InterruptReason) (k : thread) : thread :=
  Do (fun w =>
    let s := sess w in
    let isGenerating := isResponding s in
    let turn := turnSeq s in
    let audibleFor := Calendar.Sub (clock w) (audibleSince s) in
    let isAudioInFlight := (0 <? framesQueued s) && negb (Pending w =? 0)%nat in
    let isKeyOverGeneration := bool_decide (reason = InterruptReasonDTMF) && isGenerating in
    if negb (isBotSpeaking s) && negb isAudioInFlight && negb isKeyOverGeneration then (w, k)
    else if bool_decide (reason = InterruptReasonSpeech) && (0 <? bargeGuard cfg) && (audibleFor <? bargeGuard cfg) then (w, k)
    else (w, Do (fun w =>
      let unplayed := queuedPlayout w in
      (w, Do (fun w =>
        let '((playedMs, hadQueued, _), w) := stopPlaybackLocked true w in
        let playedMs := if hadQueued then playedMs else -1 in
        let report :=
          run_ (tell (TInterrupt reason playedMs))
            (emit (EBargeIn reason turn unplayed (if playedMs <? 0 then -1 else playedMs * millisecond) isGenerating false) k) in
        (w, if isGenerating then run_ (with_sess (set_isCutOff true)) report else report)))))).

(** [internal/aicall/session.go:Session.handleModelEvent] *)
Definition handleModelEvent (ev : ProviderEvent) : thread :=
  match ev with
  | PAudioDelta audio => Do (fun w => (w, if isHushed w then Idle else run_ (playAudio audio) Idle))
  | PSpeechStarted =>
      run_ (fun w => hear (cancelDeadAirWatch w)) (run_ (with_sess (fun s => set_timer (onSpeechStarted (timer s)) s))
        (bargeIn InterruptReasonSpeech (emit ECallerSpeech Idle)))
  | PSpeechStopped => run_ (fun w => with_sess (fun s => set_timer (onSpeechStopped (clock w) (timer s)) s) w) Idle
  | PInterrupted by_ =>
      Do (fun w =>
        let '(isCurrent, w) := endInterruptedTurn w in
        (w, Do (fun w =>
          let unplayed := queuedPlayout w in
          (w, Do (fun w =>
            let '((playedMs, hadQueued, _), w) := stopPlaybackLocked isCurrent w in
            (w, Do (fun w =>
              let '(turn, isAside) := turnState w in
              let done_ := emit (ETurnDone turn true false isAside) Idle in
              (w, if hadQueued then
                    run_ (tell (TInterrupt by_ playedMs))
                      (if isCurrent && negb (bool_decide (by_ = InterruptReasonSystem))
                       then emit (EBargeIn by_ turn unplayed (playedMs * millisecond) true true) done_ else done_)
                  else done_)))))))) 
  | PResponseStarted spoken again => run_ (beginTurn spoken again) Idle
  | PResponseDone =>
      Do (fun w =>
        let '(m, w) := endTurn w in
        (w, run_ (hand_marker m)
          (Do (fun w => let '(turn, isAside) := turnState w in (w, emit (ETurnDone turn false (mHasAudio m) isAside) Idle)))))
  | PInputTranscript text isFinal =>
      let said := emit (ECustomerSaid text isFinal) Idle in
      if isFinal then run_ (with_sess (fun s => set_timer (onCallerWords text (timer s)) s)) said else said
  | POutputTranscript text isFinal =>
      Do (fun w => let '(turn, isAside) := turnState w in (w, emit (EBotSaid turn text isFinal isAside) Idle))
  | PToolCall id name args => Do (fun w => (w, emit (EToolCall (currentTurn w) id name args) Idle))
  | PError text isFatal => if isFatal then fail text Idle else Idle
  | PClosed => Idle
  end.

(** [internal/aicall/session.go:keypressText] *)
Definition keypressText (digit : string) : string := ("(The caller pressed " ++ digit ++ " on their keypad.)")%string.

(** [internal/aicall/session.go:Session.sendCue] *)
Definition sendCue (text : string) (k : thread) : thread :=
  Do (fun w => if refuses w then (w, k) else (tell (TUserText text) w, run_ askedForATurn k)).

(** [internal/aicall/session.go:Session.pumpDigits] a round of the loop. *)
Definition pumpDigit (digit : string) : thread :=
  Do (fun w =>
    if endingArmed w then (w, emit (EDigit digit) Idle)
    else (w, run_ (with_sess (fun s => set_timer (onSpeechStarted (timer s)) s))
      (bargeIn InterruptReasonDTMF (emit (EDigit digit) (sendCue (keypressText digit) Idle))))).

(** ** What the orchestrator asks for *)

Inductive request :=
| RAnswerTool (id output : string)
| RSendCue (text : string)
| RReinstruct (text : string)
| RSpeak (text : string) (isClosing : bool)
| RSpeakAside (text : string)
| RMuteTurn (turn : Z) (toolName : string)
| RMuteNextTurn (isMuted : bool)
| RHush (isHushed : bool)
| RRewatchDeadAir
| RFail (reason : string)
| RClose.

(** [internal/aicall/session.go:Session.SpeakAside] *)
Definition SpeakAside (text : string) : thread :=
  Do (fun w => ((stepIn w).2, run_ (with_sess (set_isAsideOwed true))
    (Do (fun w => if refuses w then (w, run_ (with_sess (set_isAsideOwed false)) Idle) else (tell (TSpeak text false) w, Idle))))).

Definition ask (r : request) : thread :=
  match r with
  | RAnswerTool id output => Do (fun w => if refuses w then (w, Idle) else (tell (TToolResult id output) w, run_ askedForATurn Idle))
  | RSendCue text => Do (fun w => ((stepIn w).2, sendCue text Idle))
  | RReinstruct text => Do (fun w => (if refuses w then w else tell (TInstructions text) w, Idle))
  | RSpeak text isClosing => Do (fun w => ((stepIn w).2, Do (fun w => (if refuses w then w else tell (TSpeak text isClosing) w, Idle))))
  | RSpeakAside text => SpeakAside text
  | RMuteTurn turn toolName => run_ (MuteTurn turn toolName) Idle
  | RMuteNextTurn b => run_ (muteNextTurn b) Idle
  | RHush b => run_ (set_isHushed b) Idle
  | RRewatchDeadAir => run_ (set_rearm true) Idle
  | RFail reason => fail reason Idle
  | RClose => Close Idle
  end.

(** ** The playback watcher *)

(** Where [watchPlayback] stands. [g] and [seen] are the idle generation the
    dead-air watch carries and, for the proofs, what had been heard and begun
    when it was read. *)
Inductive watch :=
| WWait
| WDrain (m : playbackMarker)
| WLook (m : playbackMarker)
| WTick (m : playbackMarker)
| WRest (m : playbackMarker)
| WSay (m : playbackMarker) (t : thread) (g : Z) (seen : nat * Z)
| WDrop (g : Z) (seen : nat * Z)
| WIdle (due : instant) (g : Z) (seen : nat * Z)
| WStep (g : Z) (seen now : nat * Z)
| WFire (t : thread) (g : Z) (seen : nat * Z)
| WFired (g : Z) (seen : nat * Z)
| WEnd.

(** What the watcher's select takes when more than one case is ready. *)
Inductive choice := TakeMarker | TakeTimer | TakeRearm | TakeTicker | TakeDone.

Definition seen_now (w : World) : nat * Z := (heard w, turnSeq (sess w)).

(** [internal/aicall/session.go:Session.isCurrentDrain] *)
Definition isCurrentDrain (g : Z) (w : World) : bool := drainGeneration (sess w) =? g.

(** [internal/aicall/session.go:Session.isCurrentIdle] *)
Definition isCurrentIdle (g : Z) (w : World) : bool := idleGeneration (sess w) =? g.

Definition take_marker (w : World) : option (playbackMarker * World) :=
  match playbackDone w with m :: q => Some (m, set_playbackDone q w) | [] => None end.

(** The dead-air watch begins, unless it is off. *)
Definition watch_idle (w : World) (g : Z) (seen : nat * Z) : watch :=
  if noInputAfter cfg <=? 0 then WWait else WIdle (clock w + noInputAfter cfg) g seen.

Definition run_thread (t : thread) (w : World) : World * thread :=
  match t with Idle => (w, Idle) | Do f => f w end.

(** [internal/aicall/session.go:Session.watchPlayback] one step of it:
    [awaitDrained] is [WDrain] to [WRest], [awaitCallerOrDeadAir] is [WIdle] to
    [WFire]. A choice that is not ready leaves it waiting. *)
Definition watchPlayback (c : choice) (w : World) (p : watch) : World * watch :=
  match p, c with
  | (WWait | WFired _ _), TakeDone => if isClosed w then (w, WEnd) else (w, p)
  | (WTick _ | WRest _ | WIdle _ _ _), TakeDone => if isClosed w then (w, WWait) else (w, p)
  | WWait, TakeMarker => match take_marker w with Some (m, w) => (w, WDrain m) | None => (w, p) end
  | WDrain m, _ => if isCurrentDrain (generation m) w then (w, WLook m) else (w, WWait)
  | WLook m, _ => if (Pending w =? 0)%nat then (w, WRest m) else (w, WTick m)
  | WTick m, TakeTicker => (w, WDrain m)
  | WRest m, TakeTicker =>
      if isCurrentDrain (generation m) w
      then (w, WSay m (emit (EPlaybackDone m) Idle) (idleGeneration (sess w)) (seen_now w))
      else (w, WWait)
  | WSay m t g seen, _ => match t with Idle => (w, WDrop g seen) | _ => let '(w, t) := run_thread t w in (w, WSay m t g seen) end
  | WDrop g seen, _ => (set_rearm false w, watch_idle w g seen)
  | WIdle due g seen, TakeMarker => match take_marker w with Some (m, w) => (w, WDrain m) | None => (w, p) end
  | WIdle due g seen, TakeTimer =>
      if due <=? clock w then (if isCurrentIdle g w then (w, WStep g seen (seen_now w)) else (w, WWait)) else (w, p)
  | WStep g seen now, _ =>
      let '(r, w) := stepIn w in
      (w, WFire (emit (ENoInput (bool_decide (is_Some r)) (default "" r) seen now) Idle) g seen)
  | WFire t g seen, _ => match t with Idle => (w, WFired g seen) | _ => let '(w, t) := run_thread t w in (w, WFire t g seen) end
  | WFired g seen, TakeMarker => match take_marker w with Some (m, w) => (w, WDrain m) | None => (w, p) end
  | WFired g seen, TakeRearm =>
      if rearm w then
        let w := set_rearm false w in
        (w, if isCurrentIdle g w then watch_idle w g seen else p)
      else (w, p)
  | _, _ => (w, p)
  end.

(** ** The whole session *)

(** The model's pump, the digits' pump, the watcher, and the goroutines that ask
    for something. *)
Record System := mkSystem {
  world : World;
  modelPump : thread;
  digitPump : thread;
  watcher : watch;
  asking : list thread
}.

(** Whatever may happen next: a goroutine takes a step, the leg takes a frame,
    time goes by, or the environment changes its mind. *)
Inductive op :=
| OModelEvent (ev : ProviderEvent)
| OModelStep
| ODigit (digit : string)
| ODigitStep
| OWatch (c : choice)
| OAsk (r : request)
| OAskStep (i : nat)
| OWire
| OTime (d : duration)
| OEnvironment (armed refusing coin_ : bool).

Definition step (st : System) (o : op) : System :=
  let w := world st in
  match o with
  | OModelEvent ev => match modelPump st with Idle => mkSystem w (handleModelEvent ev) (digitPump st) (watcher st) (asking st) | _ => st end
  | OModelStep => let '(w, t) := run_thread (modelPump st) w in mkSystem w t (digitPump st) (watcher st) (asking st)
  | ODigit d => match digitPump st with Idle => mkSystem w (modelPump st) (pumpDigit d) (watcher st) (asking st) | _ => st end
  | ODigitStep => let '(w, t) := run_thread (digitPump st) w in mkSystem w (modelPump st) t (watcher st) (asking st)
  | OWatch c => let '(w, p) := watchPlayback c w (watcher st) in mkSystem w (modelPump st) (digitPump st) p (asking st)
  | OAsk r => mkSystem w (modelPump st) (digitPump st) (watcher st) (asking st ++ [ask r])
  | OAskStep i =>
      match asking st !! i with
      | Some t => let '(w, t) := run_thread t w in mkSystem w (modelPump st) (digitPump st) (watcher st) (<[i := t]> (asking st))
      | None => st
      end
  | OWire => mkSystem (popTx w) (modelPump st) (digitPump st) (watcher st) (asking st)
  | OTime d => mkSystem (set_clock (clock w + d) w) (modelPump st) (digitPump st) (watcher st) (asking st)
  | OEnvironment a r c => mkSystem (set_coin c (set_refuses r (set_endingArmed a w))) (modelPump st) (digitPump st) (watcher st) (asking st)
  end.

(** [internal/aicall/session.go:New] *)
Definition new_session (law : Law) (down : Converter) : Session :=
  mkSession 0 0 0 false false 0 false 0 0 None false 0 0 0 (mkTimer 0 false "" false) 0 0 0 false 0 (newFramer law) down.

Definition new_system (law : Law) (down : Converter) (now : instant) : System :=
  mkSystem (mkWorld (new_session law down) [] [] [] [] false false false false false false now [EReady] [] 0 0) Idle Idle WWait [].

(** A call from its start, whatever happens in it. *)
Definition plays (law : Law) (down : Converter) (now : instant) (ops : list op) : System :=
  fold_left step ops (new_system law down now).

End session.

End AISession.
