(* ===== verification/AISessionFacts.v ===== *)
(** * What the session of an AI call keeps in every interleaving

    The count of queued frames is the count of the frames of the turn in
    progress, wherever they are; a marker whose generation is current belongs to
    the playback in progress; a dead-air watch whose generation is current has
    seen nobody speak and no turn begin. Each step of every thread keeps this,
    and [evolves] says what a thread may rely on between its own steps. *)

From S2P Require Import Prelude GoText Calendar Media AudioLeg AISession.

Module AISessionFacts.
Import AISession.

(** ** Counting frames *)

Definition of_epoch (e : nat) (l : list Frame) : Z := Z.of_nat (length (List.filter (fun f => (fEpoch f =? e)%nat) l)).

Lemma of_epoch_app e l1 l2 : of_epoch e (l1 ++ l2) = of_epoch e l1 + of_epoch e l2.
Proof. unfold of_epoch. rewrite List.filter_app, length_app. lia. Qed.

Lemma of_epoch_cons e f l : of_epoch e (f :: l) = Z.b2z (fEpoch f =? e)%nat + of_epoch e l.
Proof. unfold of_epoch. simpl. destruct (_ =? _)%nat; simpl; lia. Qed.

Lemma of_epoch_bounds e l : 0 <= of_epoch e l <= Z.of_nat (length l).
Proof. unfold of_epoch. pose proof (List.filter_length_le (fun f => (fEpoch f =? e)%nat) l). lia. Qed.

Lemma of_epoch_none e l : (forall f, f ∈ l -> (fEpoch f < e)%nat) -> of_epoch e l = 0.
Proof.
  induction l as [|f l IH]; intros H; [done|]. rewrite of_epoch_cons, IH by (intros; apply H; by right).
  rewrite (proj2 (Nat.eqb_neq _ _)); [done|]. pose proof (H f ltac:(left)). lia.
Qed.

Lemma of_epoch_all e l : (forall f, f ∈ l -> fEpoch f = e) -> of_epoch e l = Z.of_nat (length l).
Proof.
  induction l as [|f l IH]; intros H; [done|]. rewrite of_epoch_cons, IH by (intros; apply H; by right).
  rewrite (proj2 (Nat.eqb_eq _ _)) by (apply H; left). simpl. lia.
Qed.

(** Frames leave in the order in which they were queued. *)
Definition in_order (l : list Frame) : Prop := StronglySorted (fun f g => (fEpoch f <= fEpoch g)%nat) l.

(** The frames of the epoch that have been sent are those counted less those
    waiting: if an older frame still waits, none of them has been sent. *)
Lemma sent_of_epoch e l q : in_order (l ++ q) -> (forall f, f ∈ l ++ q -> (fEpoch f <= e)%nat) ->
  of_epoch e l = Z.max (of_epoch e (l ++ q) - Z.of_nat (length q)) 0.
Proof.
  intros Hs He. rewrite of_epoch_app. pose proof (of_epoch_bounds e q). pose proof (of_epoch_bounds e l).
  assert (Hq : of_epoch e q = Z.of_nat (length q) \/ exists g, g ∈ q /\ (fEpoch g < e)%nat).
  { assert (Hqe : forall g, g ∈ q -> (fEpoch g <= e)%nat) by (intros; apply He; set_solver). clear - Hqe. induction q as [|g q IH]; [by left|].
    pose proof (Hqe g ltac:(left)). destruct (Nat.eq_dec (fEpoch g) e) as [E|E]; [|right; exists g; split; [left|lia]].
    destruct IH as [IH|(x & Hx & Hlt)]; [intros; apply Hqe; by right| |right; exists x; split; [by right|done]].
    left. rewrite of_epoch_cons, IH, (proj2 (Nat.eqb_eq _ _) E). simpl. lia. }
  destruct Hq as [Hq|Hq]; [lia|]. assert (Hz : of_epoch e l = 0); [|lia]. apply of_epoch_none. intros f Hf.
  destruct Hq as (g & Hg & Hlt). enough (fEpoch f <= fEpoch g)%nat by lia. clear - Hs Hf Hg. induction l as [|x l IH]; [by apply not_elem_of_nil in Hf|].
  apply StronglySorted_inv in Hs as [Hs Hx]. rewrite list.Forall_forall in Hx. apply elem_of_cons in Hf as [->|Hf]; [apply Hx; set_solver|auto].
Qed.

(** ** The invariant *)

(** What a marker stands for, while its generation is current. *)
Definition marks (w : World) (m : playbackMarker) : Prop :=
  generation m <= drainGeneration (sess w) /\ mHasAudio m = (0 <? mFrames m) /\
  (drainGeneration (sess w) = generation m -> epoch w = mEpoch m /\ turnSeq (sess w) = mTurn m /\ mFrames m <= framesQueued (sess w)).

(** Every frame that was queued for the turn has left for the caller. *)
Definition heard_out (w : World) (m : playbackMarker) : Prop := mFrames m <= of_turn (mEpoch m) (mTurn m) (wire w).

Definition good_event (w : World) (e : Event) : Prop :=
  match e with
  | EPlaybackDone m => heard_out w m /\ mHasAudio m = (0 <? mFrames m)
  | ENoInput _ _ before after => before = after
  | _ => True
  end.

Record ok (w : World) : Prop := mkOk {
  ok_order : in_order (wire w ++ tx w);
  ok_epochs : forall f, f ∈ wire w ++ tx w -> (fEpoch f <= epoch w)%nat;
  ok_turns : forall f, f ∈ wire w ++ tx w -> fEpoch f = epoch w -> fTurn f = turnSeq (sess w);
  ok_ever : forall f, f ∈ ever w -> (fEpoch f <= epoch w)%nat /\ (fEpoch f = epoch w -> fTurn f = turnSeq (sess w));
  ok_count : framesQueued (sess w) = of_epoch (epoch w) (ever w) /\ (isClosed w = false -> of_epoch (epoch w) (wire w ++ tx w) = framesQueued (sess w));
  ok_markers : forall m, m ∈ playbackDone w -> marks w m;
  ok_events : forall e, e ∈ events w -> good_event w e
}.

(** What others may do between two steps of a thread. *)
Record evolves (w w' : World) : Prop := mkEvolves {
  ev_drain : drainGeneration (sess w) <= drainGeneration (sess w');
  ev_idle : idleGeneration (sess w) <= idleGeneration (sess w');
  ev_same_drain : drainGeneration (sess w') = drainGeneration (sess w) ->
    epoch w' = epoch w /\ turnSeq (sess w') = turnSeq (sess w) /\ framesQueued (sess w) <= framesQueued (sess w');
  ev_same_idle : idleGeneration (sess w') = idleGeneration (sess w) -> seen_now w' = seen_now w;
  ev_wire : exists l, wire w' = wire w ++ l;
  ev_closed : isClosed w = true -> isClosed w' = true
}.

#[export] Instance evolves_refl : Reflexive evolves.
Proof. intros w. constructor; try done; try lia. exists []. by rewrite app_nil_r. Qed.

#[export] Instance evolves_trans : Transitive evolves.
Proof.
  intros a b c [A1 A2 A3 A4 (la & A5) A6] [B1 B2 B3 B4 (lb & B5) B6]. constructor; try lia.
  - intros E. rewrite B4, A4 by lia. done.
  - exists (la ++ lb). by rewrite B5, A5, app_assoc.
  - auto.
Qed.

Lemma of_turn_app e t l1 l2 : of_turn e t (l1 ++ l2) = of_turn e t l1 + of_turn e t l2.
Proof. unfold of_turn. rewrite List.filter_app, length_app. lia. Qed.

Lemma of_turn_nonneg e t l : 0 <= of_turn e t l.
Proof. unfold of_turn. lia. Qed.

Lemma marks_evolves w w' m : evolves w w' -> marks w m -> marks w' m.
Proof.
  intros [E1 _ E2 _ _ _] (H1 & H2 & H3). split; [lia|]. split; [done|]. intros E. destruct E2 as (E3 & E4 & E5); [lia|].
  destruct H3 as (H4 & H5 & H6); [lia|]. split; [congruence|]. split; [congruence|lia].
Qed.

Lemma heard_out_evolves w w' m : evolves w w' -> heard_out w m -> heard_out w' m.
Proof.
  intros [_ _ _ _ (l & E) _] H. unfold heard_out in *. rewrite E, of_turn_app. pose proof (of_turn_nonneg (mEpoch m) (mTurn m) l). lia.
Qed.

Lemma good_event_evolves w w' e : evolves w w' -> good_event w e -> good_event w' e.
Proof. intros H. destruct e; simpl; try done. intros [H1 H2]. split; [by eapply heard_out_evolves|done]. Qed.

(** ** Steps *)

(** What the invariant reads. *)
Definition core (w : World) :=
  ((wire w, tx w, playbackDone w, isClosed w, events w, ever w), (epoch w, heard w),
   (framesQueued (sess w), drainGeneration (sess w), idleGeneration (sess w), turnSeq (sess w))).

Definition fine (w w' : World) : Prop := ok w' /\ evolves w w'.

Lemma fine_trans a b c : fine a b -> (ok b -> fine b c) -> fine a c.
Proof. intros [H1 H2] H. destruct (H H1) as [H3 H4]. split; [done|]. by etrans. Qed.

Lemma fine_intro w w' : ok w -> evolves w w' -> in_order (wire w' ++ tx w') ->
  (forall f, f ∈ wire w' ++ tx w' -> (fEpoch f <= epoch w')%nat) ->
  (forall f, f ∈ wire w' ++ tx w' -> fEpoch f = epoch w' -> fTurn f = turnSeq (sess w')) ->
  (forall f, f ∈ ever w' -> (fEpoch f <= epoch w')%nat /\ (fEpoch f = epoch w' -> fTurn f = turnSeq (sess w'))) ->
  framesQueued (sess w') = of_epoch (epoch w') (ever w') -> (isClosed w' = false -> of_epoch (epoch w') (wire w' ++ tx w') = framesQueued (sess w')) ->
  (forall m, m ∈ playbackDone w' -> m ∈ playbackDone w \/ marks w' m) ->
  (forall e, e ∈ events w' -> e ∈ events w \/ good_event w' e) -> fine w w'.
Proof.
  intros [_ _ _ _ _ H5 H6] Hev G1 G2 G3 G8 G4 G5 G6 G7. split; [|exact Hev]. constructor; try done.
  - intros m [Hm|Hm]%G6; [|done]. eapply marks_evolves; eauto.
  - intros e [He|He]%G7; [|done]. eapply good_event_evolves; eauto.
Qed.

(** Steps that leave the frames where they are. *)
Lemma fine_frame w w' : ok w -> wire w' = wire w -> tx w' = tx w -> ever w' = ever w -> epoch w' = epoch w ->
  framesQueued (sess w') = framesQueued (sess w) -> turnSeq (sess w') = turnSeq (sess w) ->
  drainGeneration (sess w) <= drainGeneration (sess w') -> idleGeneration (sess w) <= idleGeneration (sess w') ->
  (idleGeneration (sess w') = idleGeneration (sess w) -> heard w' = heard w) ->
  isClosed w' = isClosed w \/ isClosed w' = true ->
  (evolves w w' -> forall m, m ∈ playbackDone w' -> m ∈ playbackDone w \/ marks w' m) ->
  (evolves w w' -> forall e, e ∈ events w' -> e ∈ events w \/ good_event w' e) -> fine w w'.
Proof.
  intros H E1 E2 E0 E3 E4 E5 E6 E7 E8 E9 E10 E11. assert (Hev : evolves w w').
  { constructor; try done.
    - intros _. rewrite E3, E4, E5. done.
    - intros E. unfold seen_now. by rewrite E8, E5.
    - exists []. by rewrite app_nil_r.
    - destruct E9; congruence. }
  destruct H as [H1 H2 H3 H8 [H4 H7] H5 H6]. apply fine_intro; rewrite ?E0, ?E1, ?E2, ?E3, ?E4, ?E5; auto; [by constructor|].
  intros Hc. apply H7. destruct E9; congruence.
Qed.

Ltac frame H := apply fine_frame; [exact H|try done; try lia..]; try (by left); try (by right); try (by intros _ ? ?; left).

Lemma fine_core w w' : core w' = core w -> ok w -> fine w w'.
Proof.
  unfold core. intros [= E1 E2 E3 E4 E5 E0 E6 E7 E8 E9 E10 E11] H. frame H; rewrite ?E9, ?E10, ?E4, ?E3, ?E5; try lia; try (by left); intros; by left.
Qed.

Lemma fine_refl w : ok w -> fine w w.
Proof. by split. Qed.

Lemma fine_publish e w : ok w -> good_event w e -> fine w (publish e w).
Proof.
  intros H He. frame H. intros Hev x [Hx| ->%list_elem_of_singleton]%elem_of_app; [by left|right]. by eapply good_event_evolves.
Qed.

Lemma fine_queueFrame w bytes : ok w -> fine w (queueFrame w bytes).
Proof.
  intros H. unfold queueFrame, Send. destruct (_ <? _)%nat; [|by apply fine_refl]. cbn [negb].
  set (w1 := set_ever _ _). set (w2 := with_sess _ w1).
  assert (E : core (with_sess (fun s => let s := if is_zero (audibleSince s) then s else set_audibleUntil (audibleUntil s + frameDurationMs * millisecond) s in
      set_timer (onFirstFrame (timer s)) (set_framesQueued (framesQueued s + 1) s)) w2) =
    core (with_sess (fun s => set_framesQueued (framesQueued s + 1) s) w1)).
  { unfold w2, with_sess, core. simpl. destruct (_ && _); simpl; destruct (is_zero _); done. }
  eapply fine_trans; [|by apply fine_core, E]. clear E w2. pose proof H as [H1 H2 H3 H8 [H4 H7] H5 H6].
  apply fine_intro; simpl; rewrite ?app_assoc; try done; try (by left).
  - constructor; simpl; try done; try lia. exists []. by rewrite app_nil_r.
  - apply StronglySorted_app. split_and!; [|done|repeat constructor]. intros x y Hx ->%list_elem_of_singleton. by apply H2.
  - intros x [Hx| ->%list_elem_of_singleton]%elem_of_app; [by apply H2|done].
  - intros x [Hx| ->%list_elem_of_singleton]%elem_of_app Ee; [by apply H3|done].
  - intros x [Hx| ->%list_elem_of_singleton]%elem_of_app; [by apply H8|done].
  - rewrite of_epoch_app, of_epoch_cons, H4. change (of_epoch _ []) with 0. cbn [fEpoch]. rewrite Nat.eqb_refl. simpl Z.b2z. lia.
  - intros Hc. rewrite (of_epoch_app _ (wire w ++ tx w)), of_epoch_cons, H7 by done. change (of_epoch _ []) with 0. cbn [fEpoch]. rewrite Nat.eqb_refl. simpl Z.b2z. lia.
Qed.

Lemma fine_frames frames w : ok w -> fine w (fold_left queueFrame frames w).
Proof.
  revert w. induction frames as [|f frames IH]; intros w H; simpl; [by apply fine_refl|].
  eapply fine_trans; [by apply fine_queueFrame|apply IH].
Qed.

Lemma fine_playAudio audio w : ok w -> fine w (playAudio audio w).
Proof.
  intros H. unfold playAudio. destruct (isCutOff (sess w)); [by apply fine_core|].
  destruct (Media.Convert _ _) as [conv out], (AudioLeg.push _ _) as [fr frames].
  eapply fine_trans; [|apply fine_frames]. by apply fine_core.
Qed.

(** The count begins anew: nothing is of the new epoch yet. *)
Lemma fine_bump w w' : ok w ->
  (exists q, sublist (wire w' ++ tx w') (wire w ++ tx w) /\ wire w' = wire w ++ q) ->
  epoch w' = S (epoch w) -> framesQueued (sess w') = 0 -> drainGeneration (sess w') = drainGeneration (sess w) + 1 ->
  idleGeneration (sess w') = idleGeneration (sess w) + 1 -> playbackDone w' = playbackDone w -> isClosed w' = isClosed w -> events w' = events w -> ever w' = ever w ->
  fine w w'.
Proof.
  intros H (q & Hs & Hq) E1 E2 E3 E4 E5 E6 E7 E0. pose proof H as [H1 H2 H3 H8 H4 H5 H6].
  assert (Hin : forall f, f ∈ wire w' ++ tx w' -> (fEpoch f <= epoch w)%nat).
  { intros f Hf. apply H2. by eapply elem_of_sublist. }
  assert (He : forall f, f ∈ ever w -> (fEpoch f < epoch w')%nat) by (intros f Hf; destruct (H8 f Hf); lia).
  apply fine_intro; rewrite ?E2, ?E5, ?E7, ?E0; try done; try (by left).
  - constructor; try lia; [by exists q|congruence].
  - revert Hs H1. unfold in_order. generalize (wire w' ++ tx w') (wire w ++ tx w). clear. intros a b Hs. induction Hs as [|x a b Hs IH|x a b Hs IH]; intros Hb.
    + constructor.
    + apply StronglySorted_inv in Hb as [Hb Hx]. constructor; [auto|]. rewrite list.Forall_forall in *. intros y Hy. apply Hx. by eapply elem_of_sublist.
    + apply StronglySorted_inv in Hb as [Hb Hx]. auto.
  - intros f Hf. pose proof (Hin f Hf). lia.
  - intros f Hf Ef. pose proof (Hin f Hf). lia.
  - intros f Hf. pose proof (He f Hf). lia.
  - by rewrite of_epoch_none.
  - intros _. rewrite of_epoch_none; [done|]. intros f Hf. pose proof (Hin f Hf). lia.
Qed.

Lemma fine_stop b w : ok w -> fine w (stopPlaybackLocked b w).2.
Proof.
  intros H. apply fine_bump; try done; try (by destruct b).
  exists []. simpl. rewrite !app_nil_r. split; [|done]. apply sublist_inserts_r. done.
Qed.

Lemma fine_beginTurn spoken again w : ok w -> fine w (beginTurn spoken again w).
Proof.
  intros H. unfold beginTurn. cbv zeta. set (s1 := if isAsideOwed _ then _ else _).
  assert (E : (framesQueued s1, drainGeneration s1, idleGeneration s1) = (0, drainGeneration (sess w), idleGeneration (sess w))).
  { unfold s1. repeat match goal with |- context [if ?c then _ else _] => destruct c end; done. }
  injection E as E1 E2 E3. clearbody s1. apply fine_bump; try done; simpl;
    repeat match goal with |- context [if ?c then _ else _] => destruct c end; simpl; try congruence.
  all: exists []; by rewrite app_nil_r.
Qed.

Lemma of_turn_all e t l : (forall f, f ∈ l -> fEpoch f = e -> fTurn f = t) -> of_turn e t l = of_epoch e l.
Proof.
  intros H. unfold of_turn, of_epoch. do 2 f_equal. apply List.filter_ext_in. intros f Hf%list_elem_of_In.
  destruct (Nat.eqb_spec (fEpoch f) e) as [E|E]; [|done]. rewrite (H f) by done. by rewrite Z.eqb_refl.
Qed.

(** What was queued for the turn in progress is what was counted. *)
Lemma of_turn_ever w : ok w -> of_turn (epoch w) (turnSeq (sess w)) (ever w) = framesQueued (sess w).
Proof. intros H. rewrite of_turn_all by (intros f Hf; by apply (ok_ever _ H)). symmetry. apply (ok_count _ H). Qed.

Lemma fine_endTurn w : ok w -> let '(m, w') := endTurn w in fine w w' /\ marks w' m.
Proof.
  intros H. unfold endTurn. destruct (AudioLeg.flush _) as [fr frames]. set (w1 := fold_left _ _ _).
  assert (H1 : fine w w1).
  { unfold w1. eapply fine_trans; [|apply fine_frames]. by apply fine_core. }
  clearbody w1. destruct H1 as [H1 H2]. cbv zeta. set (s1 := logMuted _).
  assert (E : forall b : bool, (framesQueued (if b then set_lastAudioTurn (turnSeq s1) (set_audioTurns (audioTurns s1 + 1) s1) else s1), turnSeq (if b then set_lastAudioTurn (turnSeq s1) (set_audioTurns (audioTurns s1 + 1) s1) else s1),
      drainGeneration (if b then set_lastAudioTurn (turnSeq s1) (set_audioTurns (audioTurns s1 + 1) s1) else s1), idleGeneration (if b then set_lastAudioTurn (turnSeq s1) (set_audioTurns (audioTurns s1 + 1) s1) else s1)) =
    (framesQueued (sess w1), turnSeq (sess w1), drainGeneration (sess w1) + 1, idleGeneration (sess w1))) by (by intros []).
  change (framesQueued s1) with (framesQueued (sess w1)). set (b := 0 <? framesQueued (sess w1)). specialize (E b).
  set (s2 := if b then _ else s1) in *. clearbody s2. injection E as E1 E2 E3 E4.
  split.
  - split; [|etrans; [exact H2|]]; [eapply proj1|eapply proj2]; (frame H1; simpl; rewrite ?E1, ?E2, ?E3, ?E4; try done; lia).
  - unfold marks. simpl. rewrite E1, E2, E3. pose proof (of_turn_ever w1 H1) as He. split; [lia|]. rewrite He. split; [done|]. intros _. split; [done|]. split; [done|lia].
Qed.

Lemma fine_hand m w : ok w -> marks w m -> fine w (hand_marker m w).
Proof.
  intros H Hm. unfold hand_marker. destruct (_ <? _)%nat; [|by apply fine_refl]. frame H.
  intros Hev x [Hx| ->%list_elem_of_singleton]%elem_of_app; [by left|right]. by eapply marks_evolves.
Qed.

Lemma fine_take w m w' : ok w -> take_marker w = Some (m, w') -> fine w w' /\ marks w' m.
Proof.
  intros H E. unfold take_marker in E. destruct (playbackDone w) as [|x q] eqn:Eq; [done|]. injection E as <- <-.
  assert (Hf : fine w (set_playbackDone q w)).
  { frame H. intros _ y Hy. left. rewrite Eq. by right. }
  split; [done|]. eapply marks_evolves; [apply Hf|]. apply (ok_markers _ H). rewrite Eq. left.
Qed.

Lemma fine_popTx w : ok w -> fine w (popTx w).
Proof.
  intros H. unfold popTx. destruct (tx w) as [|f q] eqn:E; [by apply fine_refl|]. pose proof H as [H1 H2 H3 H8 [H4 H7] H5 H6]. rewrite E in *.
  assert (Ea : (wire w ++ [f]) ++ q = wire w ++ f :: q) by (by rewrite <- app_assoc).
  apply fine_intro; simpl; rewrite ?Ea; try done; try (by left). constructor; simpl; try done. by exists [f].
Qed.

Lemma fine_close w : ok w -> fine w (set_isClosed true w).
Proof. intros H. frame H. Qed.

Lemma fine_clear w : ok w -> isClosed w = true -> fine w (ClearTx w).2.
Proof.
  intros H Hc. pose proof H as [H1 H2 H3 H8 [H4 H7] H5 H6]. assert (Hin : forall f, f ∈ wire w -> f ∈ wire w ++ tx w) by set_solver.
  apply fine_intro; simpl; rewrite ?app_nil_r; try (by left); auto; try congruence.
  - constructor; simpl; try done. exists []. by rewrite app_nil_r.
  - by apply StronglySorted_app_1_l in H1.
Qed.

Lemma fine_heard w : ok w -> fine w (hear (cancelDeadAirWatch w)).
Proof. intros H. frame H; simpl; lia. Qed.

Lemma fine_mute turn t w : ok w -> fine w (MuteTurn turn t w).
Proof.
  intros H. unfold MuteTurn. destruct (_ || _); [by apply fine_refl|]. cbv zeta. set (w1 := with_sess _ w).
  assert (H1 : fine w w1) by (apply fine_core; [|done]; unfold w1, with_sess, core; simpl; by destruct (isResponding _)).
  pose proof (fine_stop false w1 (proj1 H1)) as H2. destruct (stopPlaybackLocked false w1) as [[[p h] c] w2]. simpl in H2.
  eapply fine_trans; [exact H1|intros _]. eapply fine_trans; [exact H2|intros H3].
  destruct (isResponding _); [by apply fine_core|]. by apply fine_core.
Qed.

End AISessionFacts.
