(* ===== verification/AISessionProps.v ===== *)
(** * What the session of an AI call promises

    Every thread keeps the invariant step by step ([keeps]), relying on nothing
    that others may take away; so does the watcher, whose markers and watches
    say something only while their generations are current. *)

From S2P Require Import Prelude GoText Calendar Media AudioLeg AISession AISessionFacts.

Module AISessionProps.
Import Media AISession AISessionFacts.

(** ** Threads *)

Definition stable (P : World -> Prop) : Prop := forall a b, evolves a b -> P a -> P b.

(** Every step of the thread keeps the invariant if [P] holds before it; what it
    needs for the next is stable. *)
Fixpoint keeps (t : thread) (P : World -> Prop) : Prop :=
  match t with
  | Idle => True
  | Do f => forall w, ok w -> P w ->
      match f w with (w', t') => fine w w' /\ exists P', stable P' /\ P' w' /\ keeps t' P' end
  end.

Definition anyhow : World -> Prop := fun _ => True.

Lemma stable_anyhow : stable anyhow.
Proof. done. Qed.

Lemma keeps_weaken t : forall P : World -> Prop, keeps t anyhow -> keeps t P.
Proof.
  destruct t as [|f]; intros P H; [done|]. intros w Hw _. exact (H w Hw I).
Qed.

(** A step that leaves a thread which needs nothing. *)
Lemma keeps_step (f : World -> World * thread) :
  (forall w, ok w -> fine w (f w).1 /\ keeps (f w).2 anyhow) -> keeps (Do f) anyhow.
Proof.
  intros H w Hw _. specialize (H w Hw). destruct (f w) as [w' t']. destruct H as [H1 H2]. split; [done|]. exists anyhow. by split_and!.
Qed.

Lemma keeps_run f k : (forall w, ok w -> fine w (f w)) -> keeps k anyhow -> keeps (run_ f k) anyhow.
Proof. intros Hf Hk. apply keeps_step. intros w Hw. split; [by apply Hf|done]. Qed.

(** What the invariant does not read may be changed. *)
Lemma keeps_core f k : (forall w, core (f w) = core w) -> keeps k anyhow -> keeps (run_ f k) anyhow.
Proof. intros Hf. apply keeps_run. intros w Hw. by apply fine_core. Qed.

Lemma keeps_read (f : World -> thread) : (forall w, keeps (f w) anyhow) -> keeps (Do (fun w => (w, f w))) anyhow.
Proof. intros H. apply keeps_step. intros w Hw. split; [by apply fine_refl|apply H]. Qed.

(** An event of another thread than the watcher. *)
Definition ordinary (e : Event) : Prop := match e with EPlaybackDone _ | ENoInput _ _ _ _ => False | _ => True end.

Lemma keeps_emit e k : ordinary e -> keeps k anyhow -> keeps (emit e k) anyhow.
Proof.
  intros He Hk. apply keeps_step. intros w Hw. destruct (isClosed w) eqn:Ec; (split; [by apply fine_refl|]); [done|].
  apply keeps_step. intros v Hv. destruct (isClosed v && coin v); (split; [|done]); [by apply fine_refl|].
  apply fine_publish; [done|]. by destruct e.
Qed.

Definition shut : World -> Prop := fun w => isClosed w = true.

Lemma stable_shut : stable shut.
Proof. intros a b [_ _ _ _ _ H] Ha. exact (H Ha). Qed.

Lemma keeps_Close k : keeps k anyhow -> keeps (Close k) anyhow.
Proof.
  intros Hk w Hw _. destruct (isClosed w); (split; [by apply fine_refl || by apply fine_close|]); [by exists anyhow; split_and!|].
  exists shut. split; [exact stable_shut|]. split; [done|]. intros w1 H1 Hc1. split; [by apply fine_core|].
  exists shut. split; [exact stable_shut|]. split; [done|]. intros w2 H2 Hc2. split; [by apply fine_core|].
  exists shut. split; [exact stable_shut|]. split; [done|]. intros w3 H3 Hc3. split; [by apply fine_clear|]. exists anyhow. by split_and!.
Qed.

Lemma keeps_fail reason k : keeps k anyhow -> keeps (fail reason k) anyhow.
Proof.
  intros Hk. apply keeps_step. intros w Hw. destruct (isClosed w); (split; [by apply fine_refl|]); [done|].
  apply keeps_emit; [done|]. by apply keeps_Close.
Qed.

Section session.
Context (cfg : Config).

Lemma keeps_bargeIn reason k : keeps k anyhow -> keeps (bargeIn cfg reason k) anyhow.
Proof.
  intros Hk. apply keeps_step. intros w Hw. cbv zeta. destruct (_ && _); [split; [by apply fine_refl|done]|].
  destruct (bool_decide _ && _ && _); [split; [by apply fine_refl|done]|]. split; [by apply fine_refl|]. cbn [snd].
  apply keeps_read. intros w1. apply keeps_step. intros w2 Hw2. pose proof (fine_stop true w2 Hw2) as Hs.
  destruct (stopPlaybackLocked true w2) as [[[p h] c] w3]. simpl in Hs. split; [done|]. cbn [snd].
  assert (Hr : forall m e, ordinary e -> keeps (run_ (tell m) (emit e k)) anyhow).
  { intros m e He. apply keeps_core; [done|]. by apply keeps_emit. }
  destruct (isResponding (sess w)); [apply keeps_core; [done|]|]; by apply Hr.
Qed.

Lemma keeps_handle ev : keeps (handleModelEvent cfg ev) anyhow.
Proof.
  destruct ev as [audio| | |by_|spoken again| |text fin|text fin|id name args|text fatal|]; unfold handleModelEvent.
  - apply keeps_read. intros w. destruct (isHushed w); [done|]. apply keeps_run; [|done]. intros v. apply fine_playAudio.
  - apply keeps_run; [apply fine_heard|]. apply keeps_core; [done|]. apply keeps_bargeIn. by apply keeps_emit.
  - by apply keeps_core.
  - apply keeps_step. intros w Hw. unfold endInterruptedTurn. split; [by apply fine_core|]. cbn [snd]. apply keeps_read. intros w1.
    apply keeps_step. intros w2 Hw2. set (b := Z.max _ 0 =? 0). pose proof (fine_stop b w2 Hw2) as Hs.
    destruct (stopPlaybackLocked b w2) as [[[p h] c] w3]. simpl in Hs. split; [done|]. cbn [snd]. apply keeps_read. intros w4.
    assert (Hd : forall turn isAside, keeps (emit (ETurnDone turn true false isAside) Idle) anyhow) by (intros; by apply keeps_emit).
    destruct h; [|apply Hd]. apply keeps_core; [done|]. destruct (b && _); [|apply Hd]. apply keeps_emit; [done|apply Hd].
  - apply keeps_run; [|done]. intros w. apply fine_beginTurn.
  - intros w Hw _. pose proof (fine_endTurn w Hw) as He. destruct (endTurn w) as [m w1]. destruct He as [He Hm]. split; [done|].
    exists (fun w => marks w m). split; [intros a b Hab; by apply marks_evolves|]. split; [done|].
    intros w2 Hw2 Hm2. split; [by apply fine_hand|]. exists anyhow. split; [done|]. split; [done|].
    apply keeps_read. intros w3. by apply keeps_emit.
  - cbv zeta. assert (keeps (emit (ECustomerSaid text fin) Idle) anyhow) by by apply keeps_emit. destruct fin; [by apply keeps_core|done].
  - apply keeps_read. intros w. by apply keeps_emit.
  - apply keeps_read. intros w. by apply keeps_emit.
  - destruct fatal; [by apply keeps_fail|done].
  - done.
Qed.

Lemma keeps_sendCue text k : keeps k anyhow -> keeps (sendCue text k) anyhow.
Proof.
  intros Hk. apply keeps_step. intros w Hw. destruct (refuses w); (split; [by apply fine_refl || by apply fine_core|]); [done|]. by apply keeps_core.
Qed.

Lemma keeps_digit d : keeps (pumpDigit cfg d) anyhow.
Proof.
  unfold pumpDigit. apply keeps_step. intros w Hw. destruct (endingArmed w); (split; [by apply fine_refl|]); [by apply keeps_emit|].
  apply keeps_core; [done|]. apply keeps_bargeIn. apply keeps_emit; [done|]. by apply keeps_sendCue.
Qed.

Lemma core_stepIn w : core (stepIn w).2 = core w.
Proof. unfold stepIn. by destruct (onSteppedIn _). Qed.

Lemma keeps_ask r : keeps (ask r) anyhow.
Proof.
  assert (Hs : forall k, keeps k anyhow -> keeps (Do (fun w => ((stepIn w).2, k))) anyhow).
  { intros k Hk. apply (keeps_core (fun w => (stepIn w).2)); [apply core_stepIn|done]. }
  destruct r as [id output|text|text|text closing|text|turn name|b|b| |reason|]; unfold ask.
  - apply keeps_step. intros w Hw. destruct (refuses w); (split; [by apply fine_refl || by apply fine_core|]); [done|]. by apply keeps_core.
  - apply Hs. by apply keeps_sendCue.
  - apply keeps_step. intros w Hw. split; [|done]. simpl. destruct (refuses w); [by apply fine_refl|by apply fine_core].
  - apply Hs. apply keeps_step. intros w Hw. split; [|done]. simpl. destruct (refuses w); [by apply fine_refl|by apply fine_core].
  - apply Hs. apply keeps_core; [done|]. apply keeps_step. intros w Hw. destruct (refuses w); (split; [by apply fine_refl || by apply fine_core|]); [|done].
    by apply keeps_core.
  - apply keeps_run; [|done]. intros w. apply fine_mute.
  - by apply keeps_core.
  - by apply keeps_core.
  - by apply keeps_core.
  - by apply keeps_fail.
  - by apply keeps_Close.
Qed.

(** ** The watcher *)

(** The thread goes on from here. *)
Definition going (w : World) (t : thread) : Prop := exists P, stable P /\ P w /\ keeps t P.

Definition quiet_since (w : World) (g : Z) (seen : nat * Z) : Prop :=
  g <= idleGeneration (sess w) /\ (idleGeneration (sess w) = g -> seen_now w = seen).

Definition watching (w : World) (p : watch) : Prop :=
  match p with
  | WWait | WEnd => True
  | WDrain m | WLook m | WTick m => marks w m
  | WRest m => marks w m /\ (isClosed w = false -> drainGeneration (sess w) = generation m -> heard_out w m)
  | WSay m t g seen => going w t /\ quiet_since w g seen
  | WDrop g seen | WIdle _ g seen | WFired g seen => quiet_since w g seen
  | WStep g seen now => quiet_since w g seen /\ seen = now
  | WFire t g seen => going w t /\ quiet_since w g seen
  end.

Lemma going_evolves w w' t : evolves w w' -> going w t -> going w' t.
Proof. intros H (P & H1 & H2 & H3). exists P. split; [done|]. split; [by eapply H1|done]. Qed.

Lemma quiet_since_evolves w w' g seen : evolves w w' -> quiet_since w g seen -> quiet_since w' g seen.
Proof.
  intros [_ H1 _ H2 _ _] [H3 H4]. split; [lia|]. intros E. rewrite H2 by lia. apply H4. lia.
Qed.

Lemma watching_evolves w w' p : evolves w w' -> watching w p -> watching w' p.
Proof.
  intros H. destruct p; simpl; try done; try (by apply marks_evolves); try (by apply quiet_since_evolves).
  - intros [H1 H2]. split; [by eapply marks_evolves|]. intros Hc Hd. eapply heard_out_evolves; [done|]. apply H2.
    + destruct H as [_ _ _ _ _ H]. destruct (isClosed w); [|done]. by rewrite H in Hc.
    + destruct H as [H _ _ _ _ _], H1 as [H1 _]. lia.
  - intros [H1 H2]. split; [by eapply going_evolves|by eapply quiet_since_evolves].
  - intros [H1 H2]. split; [by eapply quiet_since_evolves|done].
  - intros [H1 H2]. split; [by eapply going_evolves|by eapply quiet_since_evolves].
Qed.

(** With nothing waiting, the turn's frames are out. *)
Lemma drained_heard w m : ok w -> marks w m -> tx w = [] -> isClosed w = false -> drainGeneration (sess w) = generation m -> heard_out w m.
Proof.
  intros H (_ & _ & Hm) Et Hc Hd. destruct (Hm Hd) as (E1 & E2 & Hf). unfold heard_out. pose proof (ok_count _ H) as [_ H4]. specialize (H4 Hc).
  rewrite Et, app_nil_r in H4. rewrite <- E1, <- E2, of_turn_all by (intros f Hin; apply (ok_turns _ H); set_solver). lia.
Qed.

Lemma going_run w t w' t' : ok w -> going w t -> run_thread t w = (w', t') -> fine w w' /\ going w' t'.
Proof.
  intros Hw (P & H1 & H2 & H3) E. destruct t as [|f]; simpl in E; [injection E as <- <-; split; [by apply fine_refl|by exists P]|].
  specialize (H3 w Hw H2). rewrite E in H3. done.
Qed.

Lemma going_anyhow w t : keeps t anyhow -> going w t.
Proof. intros H. by exists anyhow. Qed.

Lemma watch_step c w p w' p' : ok w -> watching w p -> watchPlayback cfg c w p = (w', p') -> fine w w' /\ watching w' p'.
Proof.
  intros Hw Hp. assert (Hr : forall q, watching w q -> fine w w /\ watching w q) by (intros; split; [by apply fine_refl|done]).
  assert (Htake : forall q : watch, watching w q -> match take_marker w with Some (m, v) => (v, WDrain m) | None => (w, q) end = (w', p') -> fine w w' /\ watching w' p').
  { intros q Hq E. destruct (take_marker w) as [[m v]|] eqn:Et; injection E as <- <-; [|by apply Hr]. by apply fine_take. }
  assert (Hidle : forall g seen, quiet_since w g seen -> watching w (watch_idle cfg w g seen)).
  { intros g seen Hq. unfold watch_idle. by destruct (_ <=? 0). }
  destruct p as [|m|m|m|m|m t g seen|g seen|due g seen|g seen now|t g seen|g seen|]; simpl in Hp.
  - destruct c; simpl; try (intros [= <- <-]; by apply Hr); [by apply Htake|]. destruct (isClosed w); intros [= <- <-]; by apply Hr.
  - destruct c; simpl; (destruct (isCurrentDrain _ _); intros [= <- <-]; by apply Hr).
  - assert (H : forall b : bool, b = (Pending w =? 0)%nat -> (if b then (w, WRest m) else (w, WTick m)) = (w', p') -> fine w w' /\ watching w' p').
    { intros b Eb. destruct b; intros [= <- <-]; apply Hr; [|done]. split; [done|]. intros Hc Hd. symmetry in Eb. apply Nat.eqb_eq, nil_length_inv in Eb.
      by apply drained_heard. }
    destruct c; simpl; by apply H.
  - destruct c; simpl; try (intros [= <- <-]; by apply Hr). destruct (isClosed w); intros [= <- <-]; by apply Hr.
  - pose proof (Hp : watching w (WRest m)) as Hq. destruct c; simpl; try (intros [= <- <-]; by apply Hr); [|destruct (isClosed w); intros [= <- <-]; apply Hr; [done|exact Hq]].
    unfold isCurrentDrain. destruct (Z.eqb_spec (drainGeneration (sess w)) (generation m)) as [Ed|Ed]; intros [= <- <-]; [|by apply Hr]. apply Hr. simpl.
    destruct Hp as [Hm Hh]. split; [|split; [lia|done]]. exists (fun w => isClosed w = false -> heard_out w m). split.
    { intros a b Hab Ha Hc. eapply heard_out_evolves; [done|]. apply Ha. destruct Hab as [_ _ _ _ _ Hab]. destruct (isClosed a); [|done]. by rewrite Hab in Hc. }
    split; [intros Hc; by apply Hh|]. intros v Hv Hhv. destruct (isClosed v) eqn:Ec; (split; [by apply fine_refl|]); [by exists anyhow|].
    exists (fun w => heard_out w m). split; [intros a b Hab; by apply heard_out_evolves|]. split; [by apply Hhv|].
    intros u Hu Hhu. destruct (isClosed u && coin u); (split; [|by exists anyhow]); [by apply fine_refl|]. apply fine_publish; [done|].
    split; [done|]. apply Hm.
  - destruct Hp as [Hp Hq]. assert (H : (match t with Idle => (w, WDrop g seen) | _ => let '(w, t) := run_thread t w in (w, WSay m t g seen) end) = (w', p') -> fine w w' /\ watching w' p').
    { destruct t as [|f]; [intros [= <- <-]; by apply Hr|]. destruct (run_thread (Do f) w) as [v t'] eqn:E. intros [= <- <-].
      destruct (going_run _ _ _ _ Hw Hp E) as [Hf Hg]. split; [done|]. split; [done|]. eapply quiet_since_evolves; [apply Hf|done]. }
    destruct c; exact H.
  - assert (H : fine w (set_rearm false w) /\ watching (set_rearm false w) (watch_idle cfg w g seen)).
    { assert (Hf : fine w (set_rearm false w)) by by apply fine_core. split; [done|]. eapply watching_evolves; [apply Hf|]. by apply Hidle. }
    destruct c; simpl; intros [= <- <-]; exact H.
  - destruct c; simpl; try (intros [= <- <-]; by apply Hr); [by apply Htake| |destruct (isClosed w); intros [= <- <-]; by apply Hr].
    destruct (_ <=? _); [|intros [= <- <-]; by apply Hr]. unfold isCurrentIdle. destruct (Z.eqb_spec (idleGeneration (sess w)) g) as [E|E]; intros [= <- <-]; [|by apply Hr].
    apply Hr. split; [done|]. symmetry. by apply Hp.
  - destruct Hp as [Hq ->]. assert (H : (let '(r, v) := stepIn w in (v, WFire (emit (ENoInput (bool_decide (is_Some r)) (default "" r) now now) Idle) g now)) = (w', p') -> fine w w' /\ watching w' p').
    { destruct (stepIn w) as [r v] eqn:E. intros [= <- <-]. assert (Hf : fine w v). { apply fine_core; [|done]. by rewrite <- (core_stepIn w), E. }
      split; [done|]. split; [|eapply quiet_since_evolves; [apply Hf|done]]. apply going_anyhow. apply keeps_step. intros u Hu.
      destruct (isClosed u); (split; [by apply fine_refl|]); [done|]. apply keeps_step. intros x Hx. destruct (_ && _); (split; [|done]); [by apply fine_refl|].
      by apply fine_publish. }
    destruct c; exact H.
  - destruct Hp as [Hp Hq]. assert (H : (match t with Idle => (w, WFired g seen) | _ => let '(w, t) := run_thread t w in (w, WFire t g seen) end) = (w', p') -> fine w w' /\ watching w' p').
    { destruct t as [|f]; [intros [= <- <-]; by apply Hr|]. destruct (run_thread (Do f) w) as [v t'] eqn:E. intros [= <- <-].
      destruct (going_run _ _ _ _ Hw Hp E) as [Hf Hg]. split; [done|]. split; [done|]. eapply quiet_since_evolves; [apply Hf|done]. }
    destruct c; exact H.
  - destruct c; simpl; try (intros [= <- <-]; by apply Hr); [by apply Htake| |destruct (isClosed w); intros [= <- <-]; by apply Hr].
    destruct (rearm w); [|intros [= <- <-]; by apply Hr]. intros [= <- <-]. assert (Hf : fine w (set_rearm false w)) by by apply fine_core. split; [done|].
    eapply watching_evolves; [apply Hf|]. destruct (isCurrentIdle _ _); [|done]. unfold watch_idle. simpl. by destruct (_ <=? 0).
  - destruct c; simpl; intros [= <- <-]; by apply Hr.
Qed.

(** ** The whole session *)

Record sound (st : System) : Prop := mkSound {
  so_ok : ok (world st);
  so_model : going (world st) (modelPump st);
  so_digit : going (world st) (digitPump st);
  so_watch : watching (world st) (watcher st);
  so_ask : forall t, t ∈ asking st -> going (world st) t
}.

Lemma sound_new law down now : sound (new_system law down now).
Proof.
  constructor; simpl; try (by apply going_anyhow); try done; [|intros t Ht; by apply not_elem_of_nil in Ht].
  constructor; simpl; try done; try (intros ? H; by apply not_elem_of_nil in H); [constructor|]. intros e ->%list_elem_of_singleton. done.
Qed.

(** The other threads go on from what a step of one leaves. *)
Lemma sound_others st w' m d p a : sound st -> fine (world st) w' ->
  m = modelPump st \/ going w' m -> d = digitPump st \/ going w' d -> p = watcher st \/ watching w' p ->
  (forall t, t ∈ a -> t ∈ asking st \/ going w' t) -> sound (mkSystem w' m d p a).
Proof.
  intros [H1 H2 H3 H4 H5] [Hw Hev] Hm Hd Hp Ha. constructor; simpl; [done|..].
  - destruct Hm as [->|Hm]; [by eapply going_evolves|done].
  - destruct Hd as [->|Hd]; [by eapply going_evolves|done].
  - destruct Hp as [->|Hp]; [by eapply watching_evolves|done].
  - intros t Ht. destruct (Ha t Ht) as [Hin|Hg]; [|done]. eapply going_evolves; [done|]. by apply H5.
Qed.

Lemma session_sound_step st o : sound st -> sound (step cfg st o).
Proof.
  intros H. pose proof H as [H1 H2 H3 H4 H5]. pose proof (fine_refl _ H1) as Hr.
  destruct o as [ev| |d| |c|r|i| |d|a r c]; simpl.
  - destruct (modelPump st); [|done]. apply sound_others with (st := st); auto. right. apply going_anyhow, keeps_handle.
  - destruct (run_thread _ _) as [w' t'] eqn:E. destruct (going_run _ _ _ _ H1 H2 E) as [Hf Hg]. apply sound_others with (st := st); auto.
  - destruct (digitPump st); [|done]. apply sound_others with (st := st); auto. right. apply going_anyhow, keeps_digit.
  - destruct (run_thread _ _) as [w' t'] eqn:E. destruct (going_run _ _ _ _ H1 H3 E) as [Hf Hg]. apply sound_others with (st := st); auto.
  - destruct (watchPlayback _ _ _ _) as [w' p'] eqn:E. destruct (watch_step _ _ _ _ _ H1 H4 E) as [Hf Hg]. apply sound_others with (st := st); auto.
  - apply sound_others with (st := st); auto. intros t [Ht| ->%list_elem_of_singleton]%elem_of_app; [by left|right]. apply going_anyhow, keeps_ask.
  - destruct (asking st !! i) as [t|] eqn:Ei; [|done]. destruct (run_thread _ _) as [w' t'] eqn:E.
    destruct (going_run _ _ _ _ H1 (H5 t ltac:(by eapply list_elem_of_lookup_2)) E) as [Hf Hg]. apply sound_others with (st := st); auto.
    intros x (j & Hx)%list_elem_of_lookup_1. destruct (decide (i = j)) as [<-|Hj].
    + rewrite list_lookup_insert_eq in Hx by (by eapply lookup_lt_Some). injection Hx as <-. by right.
    + rewrite list_lookup_insert_ne in Hx by done. left. by eapply list_elem_of_lookup_2.
  - apply sound_others with (st := st); auto. by apply fine_popTx.
  - apply sound_others with (st := st); auto. by apply fine_core.
  - apply sound_others with (st := st); auto. by apply fine_core.
Qed.

Lemma sound_plays law down now ops : sound (plays cfg law down now ops).
Proof.
  unfold plays. apply (fold_left_inv sound); [apply sound_new|]. intros a b Ha _. by apply session_sound_step.
Qed.

End session.

(** ** What the caller heard *)

Lemma of_turn_epoch w l : ok w -> (forall f, f ∈ l -> f ∈ wire w ++ tx w) -> of_turn (epoch w) (turnSeq (sess w)) l = of_epoch (epoch w) l.
Proof. intros H Hl. apply of_turn_all. intros f Hf%Hl. by apply (ok_turns _ H). Qed.

(** C15: what an interruption reports is what the caller heard. However the
    threads of the call, its leg and its watcher have interleaved, while the
    session is not closed a flush finds
    the played time of the turn in progress to the frame: twenty milliseconds
    for each frame of it that has left for the caller since its count began, and
    none while an older turn's tail still waits before it. It also says
    truly whether the turn had queued anything, and leaves nothing waiting. *)
Theorem interruption_reports_what_was_heard cfg law down now ops b :
  isClosed (world (plays cfg law down now ops)) = false ->
  let w := world (plays cfg law down now ops) in
  let '((playedMs, hadQueued, cleared), w') := stopPlaybackLocked b w in
  playedMs = frameDurationMs * of_turn (epoch w) (turnSeq (sess w)) (wire w) /\
  hadQueued = (0 <? of_turn (epoch w) (turnSeq (sess w)) (wire w ++ tx w)) /\
  cleared = Z.of_nat (length (tx w)) /\ tx w' = [] /\ wire w' = wire w.
Proof.
  intros Hc w. pose proof (so_ok _ (sound_plays cfg law down now ops)) as H. fold w in H, Hc. pose proof H as [H1 H2 _ _ [_ H4] _ _].
  unfold stopPlaybackLocked. cbn [ClearTx]. rewrite !of_turn_epoch by (done || set_solver). rewrite (sent_of_epoch _ _ (tx w)) by done.
  simpl sess. rewrite !H4 by done. split; [lia|]. done.
Qed.


(** C17: dead air is silence: in every interleaving, between the moment the
    bot's last words were out and the moment the watch fired, no speech of the
    caller was handled and no turn began. A keypress is not speech and does not
    put the watch off ([keypress_is_not_speech]). *)
Theorem dead_air_was_quiet cfg law down now ops unanswered text before after :
  ENoInput unanswered text before after ∈ events (world (plays cfg law down now ops)) -> before = after.
Proof. apply (ok_events _ (so_ok _ (sound_plays cfg law down now ops))). Qed.

(** ** A call *)

Definition plain : Converter := mkConv (G711Format LawMu) (G711Format LawMu) 1 1 None.
Definition config0 : Config := mkConfig 0 0.
Definition words (n : nat) : list Z := replicate (160 * n) 0xFF.
Definition model (n : nat) (ev : ProviderEvent) : list op := OModelEvent ev :: replicate n OModelStep.
Definition watches (l : list choice) : list op := map OWatch l.

(** The greeting: two frames, heard out; then eight seconds of nothing. *)
Definition greeting : list op :=
  model 1 (PResponseStarted false false) ++ model 2 (PAudioDelta (words 2)) ++ model 5 PResponseDone ++
  [OWire; OWire] ++ watches [TakeMarker; TakeMarker; TakeMarker; TakeTicker] ++ watches (replicate 4 TakeTimer) ++
  [OTime (8 * second)] ++ watches (replicate 5 TakeTimer).

Example greeting_heard : events (world (plays config0 LawMu plain 1 greeting)) =
  [EReady; ETurnDone 1 false true false; EPlaybackDone (mkMarker 2 1 true false 1 2); ENoInput false "" (O, 1) (O, 1)].
Proof. vm_compute. reflexivity. Qed.


Lemma dead_air_was_quiet_witness :
  ENoInput false "" (O, 1) (O, 1) ∈ events (world (plays config0 LawMu plain 1 greeting)) /\ (O, 1) = (O, 1).
Proof.
  assert (H : ENoInput false "" (O, 1) (O, 1) ∈ events (world (plays config0 LawMu plain 1 greeting)))
    by (rewrite greeting_heard; right; right; right; left).
  split; [exact H|exact (dead_air_was_quiet _ _ _ _ _ _ _ _ _ H)].
Defined.

Definition cut_short : list op :=
  model 1 (PResponseStarted false false) ++ model 2 (PAudioDelta (words 3)) ++ [OWire].

Lemma interruption_reports_what_was_heard_witness :
  isClosed (world (plays config0 LawMu plain 1 cut_short)) = false /\
  (stopPlaybackLocked true (world (plays config0 LawMu plain 1 cut_short))).1 = (20, true, 2).
Proof.
  assert (H : isClosed (world (plays config0 LawMu plain 1 cut_short)) = false) by (vm_compute; reflexivity).
  split; [exact H|]. pose proof (interruption_reports_what_was_heard config0 LawMu plain 1 cut_short true H) as Hw.
  cbv zeta in Hw. destruct (stopPlaybackLocked _ _) as [[[p h] c] w']. destruct Hw as (-> & -> & -> & _). vm_compute. reflexivity.
Defined.

(** A key pressed in the quiet: the watch fires all the same, however short a
    time after it. *)
Example keypress_is_not_speech :
  let ops := take 21 greeting ++ [OTime (8 * second - 1); ODigit "1"] ++ replicate 12 ODigitStep ++ [OTime 1] ++ watches (replicate 5 TakeTimer) in
  let w := world (plays config0 LawMu plain 1 ops) in
  told w = [TUserText (keypressText "1")] /\ List.existsb (fun e => match e with ENoInput _ _ _ _ => true | _ => false end) (events w) = true.
Proof. vm_compute. done. Qed.

(** A keypress flushes the queue under one lock and fences the response off
    under another: a chunk of the cancelled response that arrives in between is
    queued, and the caller hears it after the flush. *)
Definition key_over_speech : list op :=
  model 1 (PResponseStarted false false) ++ model 2 (PAudioDelta (words 2)) ++ [OWire; ODigit "1"] ++ replicate 5 ODigitStep ++
  model 2 (PAudioDelta (words 1)) ++ replicate 5 ODigitStep ++ [OWire].

Example key_lets_a_chunk_through :
  let w := world (plays config0 LawMu plain 1 key_over_speech) in
  told w = [TInterrupt InterruptReasonDTMF 20] /\ isCutOff (sess w) = true /\
  List.map (fun f => (fTurn f, fEpoch f)) (wire w) = [(1, 1%nat); (1, 2%nat)].
Proof. vm_compute. done. Qed.

(** An interruption of a turn already replaced leaves the new turn generating,
    but empties its queue and begins its count anew. *)
Definition stale_interruption : list op :=
  model 1 (PResponseStarted false false) ++ model 2 (PAudioDelta (words 1)) ++ [OWire] ++
  model 1 (PResponseStarted false false) ++ model 2 (PAudioDelta (words 3)) ++ [OWire] ++ model 8 (PInterrupted InterruptReasonSpeech).

Example stale_interruption_takes_the_new_turn :
  let w := world (plays config0 LawMu plain 1 stale_interruption) in
  isResponding (sess w) = true /\ tx w = [] /\ framesQueued (sess w) = 0 /\
  told w = [TInterrupt InterruptReasonSpeech 20] /\ events w = [EReady; ETurnDone 2 true false false].
Proof. vm_compute. done. Qed.

End AISessionProps.
